(* ===== verification/_CoqProject ===== *)
-Q . S2P
Prelude.v
Crypto.v
Float64.v
Core.v
Scopes.v
Sharded.v
RefreshStore.v
CodeStores.v
DeviceCodes.v
CibaStore.v
Lockout.v
Lifecycle.v
Issue.v
RefreshIface.v
GraceCache.v
GrantCore.v
RefreshGrant.v
RefreshProps.v
GrantMint.v
AuthCodeGrant.v
DeviceGrant.v
CibaGrant.v
ClientCreds.v
MetadataPolicy.v
JTIReplay.v
Jose.v
ExchangeDeps.v
NativeSSO.v
TokenExchange.v
Permissions.v
Resources.v
Rbac.v
PolicyBundle.v
Governance.v
Authz.v
Json.v
AuditChain.v
AuditSink.v
AuditNotary.v
Keyset.v
AdminPaging.v
Users.v
Clients.v
Sessions.v
CondAccess.v
TokenPolicy.v
Convergence.v
PolicyGates.v
JwtIssuer.v
OpaqueIssuers.v
Jwks.v
ClientAuth.v
Dpop.v
TokenFront.v
ResourceAccess.v
UserInfo.v
Introspection.v
Revocation.v
AssertionGrants.v
TxnToken.v
Fapi.v
TokenEndpoint.v
TrustChain.v
TrustMarks.v
FedRegistration.v
RedirectUri.v
LoginRequest.v
Consent.v
LoginState.v
LoginGates.v
LoginFinish.v
Login.v
LoginSound.v
