(* ===== verification/Prelude.v ===== *)
(** * Snaplink SSO: tokens, identities, authorization, policy engines and audit

    Snaplink is an OAuth 2 / OpenID Connect sign-on server.  Its token endpoint
    turns one-shot credentials (authorization codes, device codes, backchannel
    requests, refresh tokens, device secrets, subject tokens) into tokens, and its
    security rests on what the stores of those credentials and the grant handlers
    promise together: a credential works once, for the client and the key it was
    issued to, within the scopes that were granted, and a stolen refresh token
    kills its family.  Beside it the server decides what a subject may do: roles
    under separation of duty, a resource catalog, an authorization service, and an
    admin API with two-person changes.  What it did is recorded in a hash-chained
    audit log with signed checkpoints.  Two policy engines, conditional access and
    token policy, narrow or refuse what is granted, at login, at every refresh and by
    sweeping the live sessions.  Users, clients and sessions are kept in stores that
    administrators list page by page.  A token that was issued is then presented: to
    [/userinfo], to the mesh hook, to introspection and to revocation, each of which
    asks the issuers whether it stands and, for a token bound to a key or a
    certificate, for a proof of it.  The credentials the token endpoint turns into
    tokens come from the login front end, where a user proves who he is, perhaps with a
    second factor or through another provider, and consents.  This library models that core, and the
    metadata-policy engine of OpenID Federation, from the Go sources under [src/].

    ** Layout

    Each file lists the Go files it translates; definitions keep their Go names.

    - [Prelude] (this file): results, a state monad [M S A] with its notation,
      Go strings ([Str]) and [time.Time]/[time.Duration] ([GoTime], durations
      wrap at 64 bits through [wrap64]), finite-map and list lemmas, the hint
      database [snap] and the tactics [split_if] and [bool_simpl].
    - [Crypto]: SHA-256, base64url, hex and FNV-1a, executable.
    - [Core]: [shared/core]: clients, subjects, claims, sessions, wire constants.
    - [Scopes]: [protocols/oauth/oauthvalidate/scope.go], the subset test, and
      the scope registry [protocols/oauth/scoperegistry].
    - [Sharded], [RefreshStore], [CodeStores], [DeviceCodes], [CibaStore]: the
      in-memory stores of [infrastructure/defaultimpl/memorystoreoauth] with
      their records and error values from [protocols/oauth/oauthspi]. The state of
      a store is a record with one field per Go field; an operation is a function
      of the time, its arguments and the state.
    - [Lockout]: [shared/security/account_lockout.go].
    - [Lifecycle]: [domains/userlifecycle] (state machine, memory store,
      dormancy, sweep) and the admin endpoint [interfaces/admin/lifecycle.go].
    - [Issue]: PKCE and the minting of codes and refresh tokens
      ([protocols/oauth/oauthwire/auth_code_handler.go]).
    - [RefreshIface]: the class [RefreshTokenStore] of the store operations a
      handler calls, with the optional extensions a backend may lack, and the
      class [RefreshTokenStoreLaws] of the promises its documentation makes. The
      in-memory store is an instance of both; the grant is verified against them.
    - [GraceCache]: the double-submit window ([tokengrant/refresh_grace.go]).
    - [GrantCore]: the server state [Server], the observable [World], the
      operations [Deps] and the gates all handlers of
      [internal/handler/tokengrant] share, with the Hoare-style lemmas used to
      verify them: [silent] (writes no response), [keeps] (leaves the stores
      alone), [gate] and [once] (how many responses are written), [refuses]
      (answers with an error when it stops).
    - [RefreshGrant], [RefreshProps]: [token_refresh.go], [refresh_grace.go].
    - [GrantMint]: the tail the family-opening grants share.
    - [AuthCodeGrant], [DeviceGrant], [CibaGrant], [ClientCreds]: the handlers
      [token_authcode.go] (with the device secret of
      [interfaces/sso/server_native_sso.go]), [token_device.go],
      [token_ciba.go], [token_client_credentials.go].
    - [MetadataPolicy]: [domains/federation/metadatapolicy] and
      [domains/federation/metadata_policy.go].
    - [JTIReplay], [Jose], [ExchangeDeps], [NativeSSO], [TokenExchange]: the token
      exchange grant ([tokengrant/token_exchange.go], [token_exchange_stages.go]):
      the replay store of actor tokens, reading a JWS, the operations and policy
      records the stages use, the device-secret exchange
      ([interfaces/sso/server_native_sso.go]), and the stages in order.
    - [Permissions], [Resources], [Rbac], [PolicyBundle]: [domains/permissions]:
      the matcher and menu filter, the resource catalog and its matching, the
      in-memory provider with separation of duty, and the exported policy bundle.
    - [Governance]: [platform/lifecycle/admingovernance] and the change endpoints
      of [interfaces/admin/governance.go]: two-person changes with concurrent
      requests as interleaved steps, write quotas, destructive rules, allow-lists.
    - [Authz]: [interfaces/grpcserver/authz.go], [interfaces/admin/middleware.go]:
      the check of a permission against a session, and the gate of the admin API.
    - [Json]: what [encoding/json] and [time] of the standard library write, for
      the values that are hashed or signed, with the lemmas that it is unambiguous.
    - [AuditChain], [AuditSink], [AuditNotary]: [platform/audit]: the event and its hash
      ([auditspi/event.go], [chainer.go]), the in-memory ring and the recorder
      ([memory_sink.go], [recorder.go], [auditspi/query.go]), and the notary of
      signed checkpoints ([chainer.go], [recorder_events_util.go]).
    - [Float64]: IEEE doubles on the standard library's [SpecFloat], with what Go's
      [strconv.ParseFloat] and [time.Duration(float64)] do.
    - [Keyset], [AdminPaging]: keyset pages of the stores ([shared/core/jwks.go]) and
      the signed page tokens, filters and page sizes of the admin listings
      ([shared/security/tls_client_auth.go], [grpcadmin/admin_paginate.go]).
    - [Users], [Clients], [Sessions]: the stores of
      [infrastructure/defaultimpl/memorystoreidentity] with the admin services on top
      ([grpcadmin/admin_users.go], [admin_clients.go]) and the scheduled rotation of
      client secrets ([shared/security/clientrotation]).
    - [CondAccess], [Convergence]: [domains/conditionalaccess]: the decision, its
      stores, and the pass that brings live sessions in line; the pass is written
      against the record [Manager] of the operations a session manager may have.
    - [TokenPolicy]: [domains/tokenpolicy] and the places of [interfaces/sso] that
      consult it.
    - [PolicyGates]: the gates of login and refresh ([interfaces/sso/server_mfa_trust.go],
      [server_login_client.go]); they discharge [GrantCore.PolicyLaws], and the refresh
      grant is composed with them.
    - [JwtIssuer], [OpaqueIssuers]: the token issuers of
      [infrastructure/defaultimpl]: the three that sign JWTs, one definition with the
      record [Variant] of their differences, with their key ring and deny-set, and the
      two that keep their tokens.
    - [Jwks], [ClientAuth], [Dpop]: what is proved with a key: a JWS against a key set
      ([shared/security/securityverify/jwks_verify.go]), a client by its secret,
      assertion, workload identity or certificate
      ([interfaces/sso/server_token_clientauth.go], [server_pairwise.go]), and the
      possession of a DPoP key ([server_dpop.go], [internal/handler/dpop_nonce.go]).
    - [TokenFront], [ResourceAccess], [UserInfo]: an access token presented: the loop over
      the issuers, tenants and residency, the sender constraints, the mesh hook
      ([mesh_authz.go]) and [/userinfo] ([protocols/oidc/handle_userinfo.go]).
    - [Introspection], [Revocation]: [protocols/oauth/handle_introspect.go] with its
      cache, and [handle_revoke.go].  What an issuer promises of a revocation is a class
      of [Revocation]; the JWT issuer is an instance.
    - [AssertionGrants], [TxnToken]: the grants [token_jwt_bearer.go] and
      [token_saml2_bearer.go], and transaction tokens ([protocols/oauth/txntoken]).
    - [Fapi], [TokenEndpoint]: the FAPI profile ([protocols/fapi]) and the whole of
      [/token] ([interfaces/sso/server_token.go]): its gates in order, the idempotency
      cache, the tenant quota and the dispatch over every grant above.  The grants are
      the definitions of their files, run on the same server state.
    - [TrustChain], [TrustMarks], [FedRegistration]: [domains/federation]: a trust chain
      assembled from the network and verified from the configured anchor down, with its
      constraints and metadata policies ([trust_chain*.go], [constraints.go]); the marks
      a relying party must carry ([trust_marks*.go]); and the client store that makes
      clients of what was resolved ([registration*.go]).

    - [RedirectUri], [LoginRequest], [Consent]: what a login asks for: redirect URIs and
      their patterns ([shared/core/redirect_patterns.go]), the parameters with what a
      pushed or signed request replaces ([server_login_resolve.go], [server_jar.go]),
      and the consent a client needs ([internal/auth/consent], [server_logout.go]).
    - [LoginState], [LoginGates], [LoginFinish], [Login]: the requests of the login front
      end, in [interfaces/sso]: the stores and the answers, with a monad of requests that
      stop at an answer; the gates before and after the credential
      ([server_login_gates.go], [server_login_auth.go], [server_login_client.go]); the
      end of a login with a code or with tokens ([server_finish_login.go]); and the
      handlers, with the continuation of a login through a second factor, a consent page
      or another provider ([server_mfa.go], [server_mfa_trust.go], [server_oauth.go],
      [origin_validation.go]).
    - [LoginSound]: what the login guarantees over all its requests: a judgement [wp] on
      the operations, its rules, and the invariant of the reachable states.

    Control flows as in the code: a handler reads and writes the stores of
    [Server] through the state monad, calls the gates in the order of the source,
    and stops at the first one that has answered.

    ** What the theorems show

    - Refresh tokens: a rotation answers 200 only to the client and the DPoP key
      the presented token is bound to, removes that token, and its successor
      stays in the family with the granted scopes narrowed; reuse and velocity
      breaches leave no live token of the family; the grace replay gives back the
      stored response only to the same client and key, within the window and
      while the session and the user stand; a refusal mints nothing; every
      request is answered exactly once.
    - Codes: an authorization code is burnt by any presentation, redeemed only
      with the right client, redirect URI, verifier and key, and a well-formed
      presentation does succeed.  A device code or CIBA request is redeemed only
      after approval and once, whatever other requests do between the poll and the
      consumption; polling faster than the interval is refused.
    - Stores: single use, reuse detection, family deletion, the store invariant,
      the exact rotation count, and the refinement of the sharded map to a map.
    - Scopes, PKCE and minting: [GrantedScopes] against a specification, the
      registry, what [VerifyPKCE] accepts, what [IssueRefreshToken] persists.
    - Users: histories follow the transition table, the sweep and the admin
      endpoint do what their tables say, the lockout locks at its threshold.
    - Federation: enforced metadata satisfies every operator of the merged
      policy, enforcement is idempotent, merged values pass their own checks.  A chain
      given out is rooted in the configured keys of an anchor, link by link; a resolution
      makes no more requests than its budget; a client that registered itself was such an
      entity, with the marks asked for, and is remembered only while its chain is good.
    - Token exchange: what a 200 certifies of the subject and actor tokens, the
      scopes, targets and delegation chain of what is minted; a chain never holds
      a subject twice and stays within its bound; refusals mint nothing; a
      replayed actor token is refused; the device-secret exchange is bound to its
      ID token; base64url decoding inverts encoding.
    - Authorization: no sequence of operations lets a user hold or a session
      activate two roles declared exclusive; removing a role removes what it
      granted; the resource catalog and its index stay in step; the resource
      decision follows the permissions of the resource found; a menu shows exactly
      what the permissions grant; a session-bound check allows only what a live
      session of that subject and client has activated.
    - Policy bundles: the canonical bytes are equal exactly when the contents are,
      and a re-export in another iteration order gives the same bytes.
    - Admin API: what an admitted request certifies; a change is applied at most
      once, as proposed, after the approval of a second administrator; the write
      quota is exact.
    - Audit log: what the recorder stamps verifies, across restarts and from any
      point; a list of events that verifies with the same head is the recorded
      chain, or two different texts with one SHA-256 are exhibited; events delivered
      in any order read back as the chain; the ring holds the most recent events;
      checkpoints are numbered and linked across restarts.
    - Stores of identities: indexes agree with the records; pages under concurrent
      changes are sorted, never repeat and never miss what was there throughout; a
      rotated client secret and its predecessor are accepted for exactly their
      windows; a session that is over is never found again.
    - Policy engines: the conditional-access decision is that of the first binding
      policy, whatever the listing order; token policies only ever tighten; the
      clamping issuer only shortens lifetimes; after a convergence pass the sessions
      obey the policies, caps on concurrent sessions are met by revoking the newest,
      and batches get round to every session.
    - Composition: a refresh answered with 200 obeyed the session ceiling, the token
      policies and conditional access; the login gate does what the decision asks.
    - The endpoint: a [/token] request answered with success came from a client that
      authenticated, for a grant type registered for it and through every gate; a code
      redeemed there was issued to that client; each request is answered exactly once.
    - Client authentication and DPoP: what an accepted credential, assertion, certificate
      or proof certifies, and that it is not accepted again while its replay entry stands.
    - Issuers: what is issued is read back by [Validate], with the claims it was issued
      for, until it expires; an ID token or logout token is never an access token; a
      revoked token is refused from then on, across prunings, rotations and restarts,
      with at most a second of clock skew.
    - Presenting a token: an answer of the mesh hook or of [/userinfo] certifies a live,
      unrevoked token with its proof of possession in an allowed region; both agree; the
      claims disclosed are those of the granted scopes or the claims parameter.
    - Introspection and revocation: a revoked token is inactive; a cached answer is at
      most its time to live out of date, whatever requests interleave; only the
      client a token was issued to, or its subject, revokes it.
    - Transaction tokens: however often a token is handed on, it keeps the subject and the
      authorization details the transaction began with and names every workload it went
      through, of which there are at most [MaxChainDepth].

    - Login: at every moment the user of a stored code had a credential or session
      accepted for the client of the code, however many requests the login took; a code
      is issued only to an active client, at a redirect URI of its own, under the PKCE
      and scope rules, for a user who may authenticate and has consented; a second
      factor is tried once for each challenge, and its failures have one answer; a
      redirect pattern stands for one interior segment and nothing else; a consent
      challenge is good once, for what was asked; a signed request that is applied is
      signed with a key of the client that presents it and, where it says so, of that
      client, for this server and in time.

    Some theorems state behaviour the code does not intend:
    [expired_token_kills_family] (an expired refresh token inspected before
    consumption is reported as reuse), [lock_cleared_by_window] (a lock ends
    early when the failure window closes), [native_sso_subject_mismatch] (the
    device-secret exchange of a pairwise client always fails),
    [exchange_refresh_subject] (the refresh token of an exchange stores the subject
    before the pairwise mapping is undone), [global_roles_never_active] (roles
    assigned for every client are never activated in a session),
    [checkpoint_any_key] (a checkpoint is verified with the key it carries itself),
    [created_at_misordered] (sorting by the text of a time), [list_users_page] (a page
    number that overflows), [admin_update_erases_password], [rotation_revives_expired]
    and [rotation_sweep] (client secrets), [expiring_pages_stuck] (a listing that
    ignores its page token), [selectors_inert] (policies a gate cannot match),
    [malformed_dry_run_denies], [revocation_forgotten] (a deny-set pruned before the
    clock skew has passed), [revoked_token_alias] (another spelling of a revoked
    token), [memory_tokens_collide] (two tokens of one second),
    [dpop_replay_gap] (a proof accepted twice), [padded_rsa_accepted] and
    [subject_spaces_ignored] (key size and certificate names),
    [introspection_race] (a result cached after the revocation),
    [foreign_token_untouched] and [revoke_all_ignores_binding] (revocation),
    [mesh_refuses_dpop_scheme], [fapi_refuses_certificates] (clients the profile
    allows), [public_client_passes] (client credentials of a public client),
    [authorized_issuer_shut_out] (trust marks refused for their order),
    [expired_mark_still_admits] (a certificate that expires before its chain),
    [consent_in_use_never_lapses] (a limit on consent that every login moves) and
    [consent_of_another] (two grants with one key).

    ** Modelling choices and bounds

    - Time is [Z] nanoseconds, read once per request: [sv_now] moves only at the
      points where a handler waits or lets other requests run.  Monotonic clock
      readings are ignored.
    - Concurrency: an operation under a mutex is one step.  Where a handler
      releases the store between a read and the step that acts on it, an arbitrary
      change of the server stands for the other requests ([dv_race], [cp_race],
      and [rr_polls] and [rr_stop] for the grace wait).
    - The grace wait is recursive on the list [rr_polls] of the ticks that arrive
      before its 250 ms timer, so no fuel is needed; [VTime] carries deadlines
      kept in a response body.
    - Random draws are a list of the request ([Draws]); [None] is a failing source.
    - Token issuers, the session manager, pairwise subjects and the policy engines
      are interfaces in the code: they are operations of [Deps] on an abstract
      state.  Theorems that rely on them say so by a hypothesis
      ([PolicyLaws]: conditional access only narrows scopes), and a
      witness instantiates it.
    - Defensive copies are values.  The one place where sharing matters, the two
      indexes of the device-code store, keeps a heap of entries.
    - Map iteration follows one order, or an order that is an argument where the
      result depends on it (the resolution of a resource, the listing of roles).
    - [strings.ToUpper], [strings.ToLower] and [strings.EqualFold] are modelled on
      ASCII.
    - bcrypt is a pair of functions, the hash that may fail and the comparison.
    - What a request shows of its device, place, groups and trust score is the record
      [Signals]; a convergence pass reads the sessions once and no other writer runs
      during it.
    - What a JWT or JSON document holds is read by operations of the model's
      interfaces ([ValidateAnyToken], [json_member]); so are the parsing of a CIDR,
      the rate limiter and the geo lookup.
    - Metrics, audit and log calls of the handlers are the events of [World]; the
      audit component models where the audit calls arrive.
    - Ed25519 is an argument of the notary, with its documented law as a hypothesis; so
    are the signature schemes of the issuers and verifiers, and what [encoding/json]
    makes of the JSON they exchange.
    - The certificate extractor, the region resolver, the role lookup and the validators
      of assertions are interfaces the operator implements: arguments.
    - Names in certificates and HTTP methods are ASCII.
    - The network of a federation is a fetcher on a state of its own: it may answer
      anything, and differently each time.  The climb is recursive on the hops left.
    - A request of the login front end is one step; between two steps codes, challenges
      and sessions may go, clients and users may change and time passes ([login_step]).
      A login that is frozen as JSON between two requests is the value that is read
      back.  Its log has two events the code does not write, [Vouched] where an
      authenticator accepts a user and [Resumed] where a session is resumed; the theorems
      read them, no definition does.  The parsers of URLs, JSON and JWTs are the record
      [Parsers].
    - [/token] runs on a [Site], the stores of the front and the idempotency cache.  A key
      of the cache holds its mutex from lookup to store, so the request that uses it
      is one step; an introspection is two steps, the resolution and the
      write to the cache, with arbitrary requests in between.

    ** Not modelled

    The HTTP front end and request parsing; the delivery of the answer of a login to its
    redirect URI, the silent renewal behind its gates, the listing of providers, the
    register and scoring of devices and the login history; the authenticators, which are mostly libraries and network calls; the persistent backends
    (the stores modelled are the in-memory ones, through the interfaces the
    backends share); signing and encryption (external libraries), the signed forms of an
    introspection or userinfo answer; metering; the HTTP client that fetches federation
    statements and remote key sets, and the federation endpoints that publish the
    server's own statement; and the services the manifest lists as such, which move
    documents between the network and a store: discovery, logout and registration,
    SCIM, CAEP, compliance reports, configuration and releases.  The anomaly and threat
    engines score events in the background; their result is the trust score, an argument
    of the conditional-access model. *)
From Stdlib Require Export ZArith Lia Ascii.
From stdpp Require Export base gmap sets list strings fin_maps option sorting.

#[export] Set Default Goal Selector "!".

(** ** Results

    Go's [(T, error)] pair: exactly one side is meaningful. *)

Inductive result (E A : Type) : Type :=
| Ok (a : A)
| Err (e : E).
Arguments Ok {E A} a.
Arguments Err {E A} e.

#[export] Instance result_eq_dec {E A} `{EqDecision E} `{EqDecision A} : EqDecision (result E A).
Proof.
  intros [a|e] [a'|e']; try (right; congruence).
  - destruct (decide (a = a')); [left|right]; congruence.
  - destruct (decide (e = e')); [left|right]; congruence.
Defined.

#[export] Instance result_ret {E} : MRet (result E) := fun A => @Ok E A.
#[export] Instance result_bind {E} : MBind (result E) :=
  fun A B f r => match r with Ok a => f a | Err e => Err e end.

Definition is_ok {E A} (r : result E A) : bool :=
  match r with Ok _ => true | Err _ => false end.

Lemma result_bind_ok {E A B} (f : A -> result E B) (r : result E A) (b : B) :
  r ≫= f = Ok b <-> exists a, r = Ok a /\ f a = Ok b.
Proof. destruct r; cbn; naive_solver. Qed.

(** ** The state monad of the handlers

    A handler is a function of the server's state; [x ← m; k] is Go's
    sequencing, an early [return] is a branch that does not call [k]. *)

Definition M (S A : Type) : Type := S -> A * S.

#[export] Instance M_ret {S} : MRet (M S) := fun A a s => (a, s).
#[export] Instance M_bind {S} : MBind (M S) :=
  fun A B f m s => let '(a, s') := m s in f a s'.

Lemma M_bind_unfold {S A B} (m : M S A) (f : A -> M S B) (s : S) :
  (m ≫= f) s = f (m s).1 (m s).2.
Proof. unfold mbind, M_bind. by destruct (m s). Qed.

Definition mget {S} : M S S := fun s => (s, s).
Definition mmodify {S} (f : S -> S) : M S () := fun s => ((), f s).

(** ** Time

    [time.Time] is the number of nanoseconds since Go's zero instant
    (January 1 of year 1, UTC), so the zero value is [0]; [time.Duration]
    is a 64-bit count of nanoseconds.  [Time.Sub] saturates at the ends of
    the 64-bit range, and that saturation is kept. *)

(** 64-bit two's-complement wrap-around, for integer arithmetic on durations. *)
Definition wrap64 (x : Z) : Z := ((x + 2 ^ 63) mod 2 ^ 64 - 2 ^ 63)%Z.

Module GoTime.
Definition maxDuration : Z := 2 ^ 63 - 1.
Definition minDuration : Z := - 2 ^ 63.

Definition IsZero (t : Z) : bool := (t =? 0)%Z.
Definition Before (t u : Z) : bool := (t <? u)%Z.
Definition After (t u : Z) : bool := (u <? t)%Z.
Definition Add (t d : Z) : Z := (t + d)%Z.
Definition Sub (t u : Z) : Z := Z.max minDuration (Z.min maxDuration (t - u)).

(** [time.Since(t)], with the clock reading made an argument. *)
Definition Since (now t : Z) : Z := Sub now t.

Definition Millisecond : Z := 1000000.
Definition Second : Z := 1000000000.
Definition Minute : Z := 60 * Second.
Definition Hour : Z := 60 * Minute.

Lemma Sub_pos (t u : Z) : (0 < Sub t u)%Z <-> (u < t)%Z.
Proof. unfold Sub, maxDuration, minDuration. lia. Qed.

Lemma Since_pos_spec (now t : Z) : (0 <? Since now t)%Z = (t <? now)%Z.
Proof.
  unfold Since. apply Bool.eq_iff_eq_true. rewrite !Z.ltb_lt. apply Sub_pos.
Qed.

Lemma Sub_le (t u d : Z) :
  (minDuration <= d < maxDuration)%Z -> (Sub t u <= d)%Z <-> (t - u <= d)%Z.
Proof. unfold Sub, maxDuration, minDuration. lia. Qed.

Lemma Sub_lt (t u d : Z) :
  (minDuration < d <= maxDuration)%Z -> (Sub t u < d)%Z <-> (t - u < d)%Z.
Proof. unfold Sub, maxDuration, minDuration. lia. Qed.
End GoTime.

(** ** Strings

    Go strings are byte strings; [string] is used with one [ascii] per byte. *)

Module Str.
Definition space : ascii := " "%char.

Fixpoint to_list (s : string) : list ascii :=
  match s with EmptyString => [] | String c s => c :: to_list s end.

Fixpoint of_list (l : list ascii) : string :=
  match l with [] => EmptyString | c :: l => String c (of_list l) end.

Lemma of_to_list s : of_list (to_list s) = s.
Proof. induction s; simpl; congruence. Qed.

Lemma to_of_list l : to_list (of_list l) = l.
Proof. induction l; simpl; congruence. Qed.

Definition byte (c : ascii) : Z := Z.of_N (Ascii.N_of_ascii c).
Definition len (s : string) : Z := Z.of_nat (String.length s).

(** [strings.Join(l, " ")]. *)
Fixpoint join (l : list string) : string :=
  match l with
  | [] => ""
  | [s] => s
  | s :: l => (s +:+ " " +:+ join l)%string
  end.

(** [strings.Split(s, " ")]: never empty, keeps empty pieces. *)
Fixpoint split_aux (s acc : string) : list string :=
  match s with
  | EmptyString => [acc]
  | String c s' =>
      if decide (c = space) then acc :: split_aux s' ""
      else split_aux s' (acc +:+ String c EmptyString)
  end.
Definition split (s : string) : list string := split_aux s "".

(** The length in bytes of the white-space rune ([unicode.IsSpace]) at the
    head of a byte string, [0] when there is none.  Continuation bytes never
    equal the lead bytes below, so matching the UTF-8 encodings in place is
    the same as decoding rune by rune. *)
Definition space_len (l : list Z) : nat :=
  match l with
  | b :: l =>
      if decide (9 <= b <= 13 \/ b = 32)%Z then 1
      else match l with
      | b2 :: l =>
          if decide (b = 194 /\ (b2 = 133 \/ b2 = 160))%Z then 2
          else match l with
          | b3 :: _ =>
              if decide ((b = 225 /\ b2 = 154 /\ b3 = 128) \/
                         (b = 226 /\ b2 = 128 /\ (128 <= b3 <= 138 \/ b3 = 168 \/ b3 = 169 \/ b3 = 175)) \/
                         (b = 226 /\ b2 = 129 /\ b3 = 159) \/
                         (b = 227 /\ b2 = 128 /\ b3 = 128))%Z then 3
              else 0
          | [] => 0
          end
      | [] => 0
      end
  | [] => 0
  end.

(** [strings.Fields]: maximal runs of non-space bytes.  [skip] counts the
    bytes of a space rune still to be dropped, [acc] is the current field. *)
Fixpoint fields_aux (l : list ascii) (skip : nat) (acc : string) : list string :=
  match l with
  | [] => if decide (acc = "") then [] else [acc]
  | c :: l' =>
      match skip with
      | S k => fields_aux l' k acc
      | O =>
          match space_len (byte <$> l) with
          | O => fields_aux l' 0 (acc +:+ String c EmptyString)
          | S k => (if decide (acc = "") then [] else [acc]) ++ fields_aux l' k ""
          end
      end
  end.
Definition fields (s : string) : list string := fields_aux (to_list s) 0 "".

(** [strings.TrimSpace]: a suffix that starts inside a rune never parses as
    white space, so trimming the byte list from either end is the same as
    trimming runes. *)
Fixpoint all_space (l : list Z) (skip : nat) : bool :=
  match l, skip with
  | [], _ => true
  | _ :: l', S k => all_space l' k
  | b :: l', O => match space_len (b :: l') with O => false | S k => all_space l' k end
  end.

Fixpoint trim_left (l : list ascii) (skip : nat) : list ascii :=
  match l, skip with
  | [], _ => []
  | _ :: l', S k => trim_left l' k
  | c :: l', O => match space_len (byte <$> l) with O => l | S k => trim_left l' k end
  end.

Fixpoint trim_right (l : list ascii) : list ascii :=
  if all_space (byte <$> l) 0 then []
  else match l with [] => [] | c :: l' => c :: trim_right l' end.

Definition TrimSpace (s : string) : string := of_list (trim_right (trim_left (to_list s) 0)).

Example TrimSpace_ex : TrimSpace "  a b	 " = "a b".
Proof. vm_compute. reflexivity. Qed.

Definition no_space (s : string) : Prop := space ∉ to_list s.

Lemma app_cons c s t : (String c s +:+ t)%string = String c (s +:+ t).
Proof. done. Qed.

Lemma app_nil_r s : (s +:+ "")%string = s.
Proof. induction s as [|c s IH]; [done|]. by rewrite app_cons, IH. Qed.

Lemma app_assoc s t u : ((s +:+ t) +:+ u)%string = (s +:+ (t +:+ u))%string.
Proof. induction s as [|c s IH]; [done|]. by rewrite !app_cons, IH. Qed.

Lemma to_list_app s t : to_list (s +:+ t) = to_list s ++ to_list t.
Proof. induction s as [|c s IH]; [done|]. rewrite app_cons. cbn. by rewrite IH. Qed.

Lemma of_list_app l k : of_list (l ++ k) = (of_list l +:+ of_list k)%string.
Proof. induction l as [|c l IH]; [done|]. cbn. by rewrite IH. Qed.

Lemma length_to_list s : length (to_list s) = String.length s.
Proof. induction s; cbn; congruence. Qed.

Lemma split_aux_no_space s acc rest :
  no_space s -> split_aux (s +:+ rest) acc = split_aux rest (acc +:+ s).
Proof.
  unfold no_space. revert acc.
  induction s as [|c s IH]; intros acc Hs; [by rewrite app_nil_r|].
  cbn [to_list] in Hs. rewrite not_elem_of_cons in Hs. destruct Hs as [Hc Hs].
  rewrite app_cons. cbn [split_aux]. case_decide; [by subst|].
  rewrite IH by done. by rewrite app_assoc.
Qed.

Lemma split_join l :
  l <> [] -> Forall no_space l -> split (join l) = l.
Proof.
  intros Hne Hl. unfold split. induction Hl as [|s l Hs Hl IH]; [done|].
  destruct l as [|s' l].
  - simpl. rewrite <- (app_nil_r s) at 1. by rewrite split_aux_no_space.
  - change (join (s :: s' :: l)) with (s +:+ (" " +:+ join (s' :: l)))%string.
    rewrite split_aux_no_space by done.
    rewrite app_cons. cbn [split_aux]. case_decide; [|done]. f_equal. by apply IH.
Qed.
End Str.

(** Go's [<=] on strings: byte-wise lexicographic. *)
Fixpoint str_leb (s t : string) : bool :=
  match s, t with
  | EmptyString, _ => true
  | String _ _, EmptyString => false
  | String a s, String b t =>
      (Str.byte a <? Str.byte b)%Z || ((Str.byte a =? Str.byte b)%Z && str_leb s t)
  end.

Lemma str_leb_total s t : str_leb s t = true \/ str_leb t s = true.
Proof.
  revert t. induction s as [|a s IH]; intros [|b t]; simpl; auto.
  rewrite !orb_true_iff, !andb_true_iff, !Z.ltb_lt, !Z.eqb_eq.
  destruct (Z.lt_trichotomy (Str.byte a) (Str.byte b)) as [|[|]], (IH t); auto.
Qed.

Lemma str_leb_trans s t u : str_leb s t = true -> str_leb t u = true -> str_leb s u = true.
Proof.
  revert t u. induction s as [|a s IH]; intros [|b t] [|c u]; simpl; try done.
  rewrite !orb_true_iff, !andb_true_iff, !Z.ltb_lt, !Z.eqb_eq.
  intros [H1|[H1 H1']] [H2|[H2 H2']]; [left; lia..|]. right. split; [lia|]. by eapply IH.
Qed.

Definition str_le (s t : string) : Prop := str_leb s t = true.
#[export] Instance str_le_dec : RelDecision str_le.
Proof. unfold RelDecision, str_le. intros. apply _. Defined.
#[export] Instance str_le_trans : Transitive str_le.
Proof. intros a b c. apply str_leb_trans. Qed.
#[export] Instance str_le_total : Total str_le.
Proof. intros a b. apply str_leb_total. Qed.

Lemma str_le_antisymm : AntiSymm (=) str_le.
Proof.
  unfold str_le. intros s. induction s as [|a s IH]; intros [|b t]; simpl; try done.
  rewrite !orb_true_iff, !andb_true_iff, !Z.ltb_lt, !Z.eqb_eq.
  intros [H1|[H1 H1']] [H2|[H2 H2']]; [lia..|]. f_equal; [|by apply IH].
  unfold Str.byte in H1. apply N2Z.inj in H1.
  by rewrite <- (Ascii.ascii_N_embedding a), <- (Ascii.ascii_N_embedding b), H1.
Qed.

(** Sorting values by a string computed from them, as [sort.Slice] does. *)
Section sort_by.
Context {A : Type} (key : A -> string).
Definition key_le (a b : A) : Prop := str_le (key a) (key b).
#[export] Instance key_le_dec : RelDecision key_le.
Proof. unfold RelDecision, key_le. intros. apply _. Defined.
#[export] Instance key_le_trans : Transitive key_le.
Proof. intros a b c. apply str_leb_trans. Qed.
#[export] Instance key_le_total : Total key_le.
Proof. intros a b. apply str_leb_total. Qed.

(** The order the values come in does not matter when the key tells them apart. *)
Lemma merge_sort_by (l l' : list A) :
  (forall a b, a ∈ l -> b ∈ l -> key a = key b -> a = b) -> l ≡ₚ l' -> merge_sort key_le l = merge_sort key_le l'.
Proof.
  intros Hk Hl. apply (Sorted_unique_strong key_le); [|apply Sorted_merge_sort; apply _..|].
  - intros a b Ha Hb H1 H2. rewrite merge_sort_Permutation in Ha. rewrite merge_sort_Permutation, <- Hl in Hb.
    apply Hk; [done..|]. by apply str_le_antisymm.
  - by rewrite !merge_sort_Permutation.
Qed.
End sort_by.

(** ** Lists *)

(** An equation of lists, the heads left as they are. *)
Lemma cons_eq {A} (a b : A) l k : a :: l = b :: k -> a = b /\ l = k.
Proof. by intros [= -> ->]. Qed.

(** [slices.Contains]. *)
Definition contains {A} `{EqDecision A} (l : list A) (x : A) : bool := bool_decide (x ∈ l).

Lemma contains_spec {A} `{EqDecision A} (l : list A) (x : A) :
  contains l x = true <-> x ∈ l.
Proof. apply bool_decide_eq_true. Qed.

Lemma list_filter_all {A} (P : A -> Prop) `{forall x, Decision (P x)} (l : list A) :
  (forall x, x ∈ l -> P x) -> filter P l = l.
Proof.
  induction l as [|x l IH]; intros Hl; [done|]. rewrite filter_cons_True by (apply Hl; set_solver).
  f_equal. apply IH. set_solver.
Qed.

Lemma list_filter_none {A} (P : A -> Prop) `{forall x, Decision (P x)} (l : list A) :
  (forall x, x ∈ l -> ~ P x) -> filter P l = [].
Proof.
  induction l as [|x l IH]; intros Hl; [done|]. rewrite filter_cons_False by (apply Hl; set_solver).
  apply IH. set_solver.
Qed.

(** A Go loop that collects the values not yet in a [seen] set. *)
Fixpoint dedup_onto {A} `{EqDecision A} (out l : list A) : list A :=
  match l with
  | [] => out
  | x :: l => if contains out x then dedup_onto out l else dedup_onto (out ++ [x]) l
  end.

Lemma elem_of_dedup_onto {A} `{EqDecision A} (out l : list A) x :
  x ∈ dedup_onto out l <-> x ∈ out \/ x ∈ l.
Proof.
  revert out. induction l as [|y l IH]; intros out; simpl; [set_solver|].
  destruct (contains out y) eqn:Hy; rewrite IH.
  - apply contains_spec in Hy. set_solver.
  - set_solver.
Qed.

Lemma NoDup_dedup_onto {A} `{EqDecision A} (out l : list A) :
  NoDup out -> NoDup (dedup_onto out l).
Proof.
  revert out. induction l as [|y l IH]; intros out Hout; simpl; [done|].
  destruct (contains out y) eqn:Hy; apply IH; [done|].
  apply list.NoDup_app; split; [done|]. split; [|apply NoDup_singleton].
  intros z Hz ->%list_elem_of_singleton. apply contains_spec in Hz. congruence.
Qed.

(** Counting a Go loop that deletes the entries of a map satisfying a test:
    the surviving map and the number removed. *)
Section delete_where.
Context {K V : Type} `{Countable K}.
Definition delete_where (P : V -> bool) (m : gmap K V) : gmap K V :=
  filter (fun kv => P kv.2 = false) m.
Definition count_where (P : V -> bool) (m : gmap K V) : nat :=
  size (filter (fun kv => P kv.2 = true) m).

Lemma delete_where_lookup P m k v :
  delete_where P m !! k = Some v <-> m !! k = Some v /\ P v = false.
Proof. unfold delete_where. rewrite map_lookup_filter_Some. done. Qed.

Lemma delete_where_None P m k :
  delete_where P m !! k = None <-> m !! k = None \/ exists v, m !! k = Some v /\ P v = true.
Proof.
  unfold delete_where. rewrite map_lookup_filter_None. simpl. split.
  - destruct (m !! k) as [v|] eqn:E; [|auto]. intros [?|Hv]; [done|].
    specialize (Hv v eq_refl). destruct (P v) eqn:EP; [eauto|done].
  - intros [?|(v & Hv & HP)]; [auto|]. right. intros w Hw. rewrite Hw in Hv. simplify_eq.
    rewrite HP. done.
Qed.

Lemma delete_where_size P m : size (delete_where P m) + count_where P m = size m.
Proof.
  unfold delete_where, count_where.
  rewrite <- (map_filter_union_complement (fun kv => P kv.2 = true) m) at 3.
  rewrite map_size_disj_union by apply map_disjoint_filter_complement.
  rewrite Nat.add_comm. f_equal. f_equal. apply map_filter_ext.
  intros k v _. simpl. by destruct (P v).
Qed.

Lemma count_where_zero P m :
  count_where P m = 0 <-> forall k v, m !! k = Some v -> P v = false.
Proof.
  unfold count_where. rewrite map_size_empty_iff. split.
  - intros He k v Hk. destruct (P v) eqn:HP; [|done].
    assert (filter (fun kv => P kv.2 = true) m !! k = Some v) as Hf
      by by apply map_lookup_filter_Some.
    rewrite He in Hf. done.
  - intros Hall. apply map_eq. intros k. rewrite lookup_empty.
    apply map_lookup_filter_None. right. intros v Hv. simpl.
    rewrite (Hall k v Hv). done.
Qed.
End delete_where.

(** ** Automation *)

(** Case analysis on the tests of a translated function body. *)
Ltac split_if :=
  match goal with
  | |- context [if ?b then _ else _] => destruct b eqn:?
  | H : context [if ?b then _ else _] |- _ => destruct b eqn:?
  end.

Ltac bool_simpl :=
  repeat match goal with
  | H : _ && _ = true |- _ => apply andb_true_iff in H; destruct H
  | H : _ || _ = false |- _ => apply orb_false_iff in H; destruct H
  | H : negb _ = true |- _ => apply negb_true_iff in H
  | H : negb _ = false |- _ => apply negb_false_iff in H
  | H : bool_decide _ = true |- _ => apply bool_decide_eq_true in H
  | H : bool_decide _ = false |- _ => apply bool_decide_eq_false in H
  | H : (_ =? _)%Z = true |- _ => apply Z.eqb_eq in H
  | H : (_ =? _)%Z = false |- _ => apply Z.eqb_neq in H
  | H : (_ <? _)%Z = true |- _ => apply Z.ltb_lt in H
  | H : (_ <? _)%Z = false |- _ => apply Z.ltb_ge in H
  | H : (_ <=? _)%Z = true |- _ => apply Z.leb_le in H
  | H : (_ <=? _)%Z = false |- _ => apply Z.leb_gt in H
  | H : contains _ _ = true |- _ => apply contains_spec in H
  end.

Create HintDb snap.
Create Rewrite HintDb snap.
#[export] Hint Resolve NoDup_dedup_onto NoDup_nil_2 : snap.
#[export] Hint Rewrite @M_bind_unfold : snap.
