(* ===== verification/Crypto.v ===== *)
(** * Crypto: the hash functions and encodings of Go's standard library that
    the token code calls: SHA-256 ([crypto/sha256]), unpadded base64url
    ([base64.RawURLEncoding]), lower-case hex ([encoding/hex]) and 32-bit
    FNV-1a ([hash/fnv]).  They are executable, so that the PKCE check and the
    shard selection evaluate on concrete inputs. *)
From S2P Require Import Prelude.
Local Open Scope Z_scope.

(** ** 32-bit words *)

Definition w32 (x : Z) : Z := Z.land x (Z.ones 32).
Definition add32 (x y : Z) : Z := w32 (x + y).
Definition rotr32 (x n : Z) : Z := Z.lor (Z.shiftr x n) (w32 (Z.shiftl x (32 - n))).
Definition not32 (x : Z) : Z := Z.lxor x (Z.ones 32).

Lemma w32_range x : 0 <= w32 x < 2 ^ 32.
Proof. unfold w32. rewrite Z.land_ones by lia. apply Z.mod_pos_bound. lia. Qed.

(** ** SHA-256 (FIPS 180-4) *)

Module SHA256.
(** The constants of FIPS 180-4 (sections 4.2.2 and 5.3.3) as the standard
    defines them: the first 32 bits of the fractional parts of the cube roots of
    the first 64 primes, and of the square roots of the first eight. *)
Definition is_prime (n : nat) : bool :=
  (1 <? n)%nat && forallb (fun d => negb (n mod d =? 0)%nat) (seq 2 (n - 2)).
Definition primes (upto : nat) : list Z := Z.of_nat <$> List.filter is_prime (seq 0 upto).

(** The integer cube root of [n], one bit per step from bit [k - 1] down. *)
Fixpoint icbrt (k : nat) (n r : Z) : Z :=
  match k with
  | O => r
  | S k => let r' := Z.lor r (2 ^ Z.of_nat k) in
           icbrt k n (if r' ^ 3 <=? n then r' else r)
  end.

Definition K : list Z :=
  Eval vm_compute in ((fun p => w32 (icbrt 36 (p * 2 ^ 96) 0)) <$> primes 312).

Definition H0 : list Z :=
  Eval vm_compute in ((fun p => w32 (Z.sqrt (p * 2 ^ 64))) <$> primes 20).

Definition bigsigma0 x := Z.lxor (Z.lxor (rotr32 x 2) (rotr32 x 13)) (rotr32 x 22).
Definition bigsigma1 x := Z.lxor (Z.lxor (rotr32 x 6) (rotr32 x 11)) (rotr32 x 25).
Definition sigma0 x := Z.lxor (Z.lxor (rotr32 x 7) (rotr32 x 18)) (Z.shiftr x 3).
Definition sigma1 x := Z.lxor (Z.lxor (rotr32 x 17) (rotr32 x 19)) (Z.shiftr x 10).
Definition ch x y z := Z.lxor (Z.land x y) (Z.land (not32 x) z).
Definition maj x y z := Z.lxor (Z.lxor (Z.land x y) (Z.land x z)) (Z.land y z).

Definition be_bytes (n : nat) (x : Z) : list Z :=
  (fun i => Z.land (Z.shiftr x (8 * Z.of_nat (n - 1 - i))) 255) <$> seq 0 n.

(** One [1] bit, zeros to 56 modulo 64, the bit length on 8 bytes. *)
Definition pad (msg : list Z) : list Z :=
  let l := Z.of_nat (length msg) in
  msg ++ [128] ++ replicate (Z.to_nat ((55 - l) mod 64)) 0 ++ be_bytes 8 (8 * l).

Fixpoint words (bs : list Z) : list Z :=
  match bs with
  | a :: b :: c :: d :: bs => (a * 2 ^ 24 + b * 2 ^ 16 + c * 2 ^ 8 + d) :: words bs
  | _ => []
  end.

(** The message schedule, most recent word first. *)
Fixpoint schedule (n : nat) (rev_w : list Z) : list Z :=
  match n with
  | O => rev rev_w
  | S n =>
      let w i := nth i rev_w 0 in
      schedule n (add32 (add32 (sigma1 (w 1%nat)) (w 6%nat)) (add32 (sigma0 (w 14%nat)) (w 15%nat)) :: rev_w)
  end.

Definition round (st : list Z) (kw : Z * Z) : list Z :=
  match st with
  | [a; b; c; d; e; f; g; h] =>
      let t1 := add32 (add32 (add32 h (bigsigma1 e)) (ch e f g)) (add32 kw.1 kw.2) in
      let t2 := add32 (bigsigma0 a) (maj a b c) in
      [add32 t1 t2; a; b; c; add32 d t1; e; f; g]
  | _ => st
  end.

Definition block (st blk : list Z) : list Z :=
  let w := schedule 48 (rev blk) in
  zip_with add32 st (foldl round st (zip K w)).

Fixpoint blocks (n : nat) (st ws : list Z) : list Z :=
  match n with
  | O => st
  | S n => blocks n (block st (take 16 ws)) (drop 16 ws)
  end.

Definition Sum256 (msg : list Z) : list Z :=
  let p := pad msg in
  mjoin (be_bytes 4 <$> blocks (length p / 64) H0 (words p)).
End SHA256.

(** ** Encodings *)

Definition byte_char (b : Z) : ascii := Ascii.ascii_of_N (Z.to_N b).

Module Base64.
Definition alphabet : list ascii :=
  Str.to_list "ABCDEFGHIJKLMNOPQRSTUVWXYZabcdefghijklmnopqrstuvwxyz0123456789-_".
Definition digit (x : Z) : ascii := nth (Z.to_nat (Z.land x 63)) alphabet "A"%char.

(** [base64.RawURLEncoding.EncodeToString]. *)
Fixpoint RawURLEncode (bs : list Z) : list ascii :=
  match bs with
  | a :: b :: c :: bs =>
      digit (Z.shiftr a 2) :: digit (a * 16 + Z.shiftr b 4) ::
      digit (b * 4 + Z.shiftr c 6) :: digit c :: RawURLEncode bs
  | [a; b] => [digit (Z.shiftr a 2); digit (a * 16 + Z.shiftr b 4); digit (b * 4)]
  | [a] => [digit (Z.shiftr a 2); digit (a * 16)]
  | [] => []
  end.
End Base64.

Definition string_bytes (s : string) : list Z := Str.byte <$> Str.to_list s.

Lemma string_bytes_inj s t : string_bytes s = string_bytes t -> s = t.
Proof.
  unfold string_bytes. intros E. rewrite <- (Str.of_to_list s), <- (Str.of_to_list t). f_equal.
  eapply (list_fmap_eq_inj Str.byte); [|exact E]. intros a b Hab. unfold Str.byte in Hab.
  apply N2Z.inj in Hab. by rewrite <- (Ascii.ascii_N_embedding a), Hab, Ascii.ascii_N_embedding.
Qed.

Lemma string_bytes_range s : Forall (fun b => 0 <= b < 256) (string_bytes s).
Proof.
  unfold string_bytes. apply Forall_fmap, Forall_forall. intros c _. unfold Str.byte, compose.
  pose proof (Ascii.N_ascii_bounded c). lia.
Qed.

Lemma string_bytes_of l :
  Forall (fun b => 0 <= b < 256) l -> string_bytes (Str.of_list (byte_char <$> l)) = l.
Proof.
  intros Hl. unfold string_bytes. rewrite Str.to_of_list, <- list_fmap_compose. rewrite <- (list_fmap_id l) at 2.
  apply list_fmap_ext. intros i b Hb. rewrite Forall_lookup in Hl. specialize (Hl _ _ Hb). cbn in Hl.
  unfold compose, Str.byte, byte_char, id. rewrite Ascii.N_ascii_embedding by lia. lia.
Qed.

Definition sha256_base64url (s : string) : string :=
  Str.of_list (Base64.RawURLEncode (SHA256.Sum256 (string_bytes s))).

Definition hex_digit (x : Z) : ascii :=
  nth (Z.to_nat x) (Str.to_list "0123456789abcdef") "0"%char.

(** [hex.EncodeToString]. *)
Definition hex_string (bs : list Z) : string :=
  Str.of_list (mjoin ((fun b => [hex_digit (Z.shiftr b 4); hex_digit (Z.land b 15)]) <$> bs)).
Definition sha256_hex (s : string) : string := hex_string (SHA256.Sum256 (string_bytes s)).

(** FIPS 180-4's "abc" vector. *)
Example sha256_abc :
  sha256_hex "abc" = "ba7816bf8f01cfea414140de5dae2223b00361a396177a9cb410ff61f20015ad".
Proof. vm_compute. reflexivity. Qed.

(** ** FNV-1a *)

Definition fnv1a_step (h b : Z) : Z := w32 (Z.lxor h b * 16777619).
Definition fnv1a (s : string) : Z := foldl fnv1a_step 2166136261 (string_bytes s).

Example fnv1a_foobar : fnv1a "foobar" = 0xbf9cf968.
Proof. vm_compute. reflexivity. Qed.
