(* ===== verification/Float64.v ===== *)
(** * Float64: the [float64] of Go and what [strconv.ParseFloat] reads
    (language and standard library).

    A [float64] is an IEEE 754 binary64 number, on which Rocq's [SpecFloat] computes;
    only the comparison, the product and the conversions the server uses are here.
    A decimal or hexadecimal literal is read exactly and rounded once. *)
From Stdlib Require Import SpecFloat.
From S2P Require Import Prelude.
Local Open Scope Z_scope.

Definition float64 : Type := spec_float.

#[export] Instance float64_eq_dec : EqDecision float64.
Proof. solve_decision. Defined.

Declare Scope float_scope.
Delimit Scope float_scope with float.

(** Go's operators: every comparison with a NaN is false except [!=]. *)
Definition f_ltb : float64 -> float64 -> bool := SFltb.
Definition f_leb : float64 -> float64 -> bool := SFleb.
Definition f_eqb : float64 -> float64 -> bool := SFeqb.
Definition f_sub : float64 -> float64 -> float64 := SFsub 53 1024.
Definition f_mul : float64 -> float64 -> float64 := SFmul 53 1024.
Definition f_opp : float64 -> float64 := SFopp.

(** [float64(n)] of an integer. *)
Definition of_int (n : Z) : float64 := binary_normalize 53 1024 n 0 false.

(** The nearest [float64] to [m * b ^ e], for a base [b] above 1. *)
Definition scaled (m b e : Z) : float64 :=
  match m with
  | Zpos p =>
      match b ^ Z.abs e with
      | Zpos q => if 0 <=? e then binary_round 53 1024 false (p * q) 0
                  else SFdiv 53 1024 (S754_finite false p 0) (S754_finite false q 0)
      | _ => S754_nan
      end
  | _ => S754_zero false
  end.

(** A constant of the source with [k] decimals: [dec 3 1] is [0.3]. *)
Definition dec (m k : Z) : float64 := scaled m 10 (- k).

Infix "<?" := f_ltb : float_scope.
Infix "<=?" := f_leb : float_scope.
Infix "=?" := f_eqb : float_scope.
Infix "-" := f_sub : float_scope.
Infix "*" := f_mul : float_scope.

(** [int64(x)]: the integer part; out of range, where the language leaves the result
    to the implementation, what [CVTTSD2SQ] gives. *)
Definition to_int64 (x : float64) : Z :=
  match x with
  | S754_zero _ => 0
  | S754_finite s m e =>
      let n := (if 0 <=? e then Zpos m * 2 ^ e else Zpos m / 2 ^ (- e)) in
      let n := if s then - n else n in
      if (- 2 ^ 63 <=? n) && (n <? 2 ^ 63) then n else - 2 ^ 63
  | _ => - 2 ^ 63
  end.

(** ** [strconv.ParseFloat] *)

Definition lower_code (b : Z) : Z := if (65 <=? b) && (b <=? 90) then b + 32 else b.

Definition digit_value (hex : bool) (b : Z) : option Z :=
  if (48 <=? b) && (b <=? 57) then Some (b - 48)
  else if hex && (97 <=? lower_code b) && (lower_code b <=? 102) then Some (lower_code b - 87)
  else None.

(** The digits of a literal: the value read without its point, how many digits follow
    the point, whether there was a digit, whether there was an underscore, and what is
    left. *)
Record Mantissa := { ma_value : Z; ma_after : Z; ma_digits : bool; ma_underscores : bool; ma_rest : list Z }.

Fixpoint readMantissa (hex dot : bool) (m : Mantissa) (l : list Z) : Mantissa :=
  match l with
  | [] => m
  | b :: l' =>
      if b =? 95 then readMantissa hex dot
        {| ma_value := ma_value m; ma_after := ma_after m; ma_digits := ma_digits m; ma_underscores := true; ma_rest := l' |} l'
      else if (b =? 46) && negb dot then readMantissa hex true
        {| ma_value := ma_value m; ma_after := ma_after m; ma_digits := ma_digits m;
           ma_underscores := ma_underscores m; ma_rest := l' |} l'
      else match digit_value hex b with
           | Some v => readMantissa hex dot
               {| ma_value := ma_value m * (if hex then 16 else 10) + v;
                  ma_after := if dot then ma_after m + 1 else ma_after m; ma_digits := true;
                  ma_underscores := ma_underscores m; ma_rest := l' |} l'
           | None => m
           end
  end.

(** The digits of an exponent, whose value stops growing above [10000]. *)
Fixpoint readExponent (e : Z) (underscores : bool) (l : list Z) : Z * bool * list Z :=
  match l with
  | b :: l' =>
      if b =? 95 then readExponent e true l'
      else match digit_value false b with
           | Some v => readExponent (if e <? 10000 then e * 10 + v else e) underscores l'
           | None => (e, underscores, l)
           end
  | [] => (e, underscores, l)
  end.

(** [strconv.underscoreOK], on what follows the sign: an underscore stands between two
    digits, or between the base prefix and a digit.  [c] is the class of the byte
    before, as in the source: ['^'] at the start, ['0'], ['_'] or ['!']. *)
Fixpoint underscoresOK (hex : bool) (c : ascii) (l : list Z) : bool :=
  match l with
  | [] => negb (bool_decide (c = "_"%char))
  | b :: l' =>
      if bool_decide (is_Some (digit_value hex b)) then underscoresOK hex "0" l'
      else if b =? 95 then bool_decide (c = "0"%char) && underscoresOK hex "_" l'
      else negb (bool_decide (c = "_"%char)) && underscoresOK hex "!" l'
  end.

Definition underscoreOK (l : list Z) : bool :=
  match l with
  | 48 :: b :: l' =>
      let b := lower_code b in
      if (b =? 98) || (b =? 111) || (b =? 120) then underscoresOK (b =? 120) "0" l' else underscoresOK false "^" l
  | _ => underscoresOK false "^" l
  end.

(** The special values, in any case; a sign does not go with NaN. *)
Definition special (signed neg : bool) (l : list Z) : option float64 :=
  let word s := bool_decide ((lower_code <$> l) = (Str.byte <$> Str.to_list s)) in
  if word "inf" || word "infinity" then Some (S754_infinity neg)
  else if word "nan" && negb signed then Some S754_nan
  else None.

Definition readNumber (l : list Z) : option float64 :=
  let '(hex, body) :=
    match l with 48 :: b :: b' :: l' => if lower_code b =? 120 then (true, b' :: l') else (false, l) | _ => (false, l) end in
  let m := readMantissa hex false
    {| ma_value := 0; ma_after := 0; ma_digits := false; ma_underscores := false; ma_rest := body |} body in
  if negb (ma_digits m) then None
  else
    let number e underscores :=
      if (underscores : bool) && negb (underscoreOK l) then None
      else let x := scaled (ma_value m) (if hex then 2 else 10) (e - ma_after m * (if hex then 4 else 1)) in
           match x with S754_infinity _ => None | _ => Some x end in
    let exponent sign l' :=
      match l' with
      | b :: _ =>
          if bool_decide (digit_value false b = None) then None
          else let '(e, underscores, rest) := readExponent 0 (ma_underscores m) l' in
               if bool_decide (rest = []) then number (sign * e) underscores else None
      | [] => None
      end in
    match ma_rest m with
    | [] => if hex then None else number 0 (ma_underscores m)
    | b :: l' =>
        if negb (lower_code b =? (if hex then 112 else 101)) then None
        else match l' with
             | 43 :: l'' => exponent 1 l''
             | 45 :: l'' => exponent (-1) l''
             | _ => exponent 1 l'
             end
    end.

(** [None] is an error, of syntax or of range. *)
Definition ParseFloat (s : string) : option float64 :=
  let l := Str.byte <$> Str.to_list s in
  let '(signed, neg, l) := match l with 43 :: l' => (true, false, l') | 45 :: l' => (true, true, l') | _ => (false, false, l) end in
  match special signed neg l with
  | Some x => Some x
  | None => (fun x => if neg then f_opp x else x) <$> readNumber l
  end.

Example ParseFloat_samples :
  (fun s => bool_decide (ParseFloat s.1 = s.2)) <$>
    [("0.7", Some (dec 7 1)); ("1e2", Some (of_int 100)); ("-.5", Some (f_opp (dec 5 1)));
     ("0x1p-2", Some (dec 25 2)); ("1_000", Some (of_int 1000)); ("0_x1", None); ("1e", None); (".", None);
     ("1e400", None); ("+Inf", Some (S754_infinity false)); ("+nan", None); ("0x1_fp0", Some (of_int 31));
     ("0x_1p0", Some (of_int 1)); ("1__0", None); ("2e-400", Some (S754_zero false))]
  = replicate 15 true.
Proof. vm_compute. reflexivity. Qed.

(** The double nearest to 0.3, bit for bit. *)
Example dec_bits : dec 3 1 = S754_finite false 5404319552844595 (-54).
Proof. vm_compute. reflexivity. Qed.
