(* ===== verification/Core.v ===== *)
(** * Core: the wire vocabulary and the shared records of [shared/core] that
    the token endpoint reads and writes: clients, token subjects and claims,
    sessions, device secrets, response bodies, and the small helpers every
    grant handler calls.

    A [map[string]string] is a [gmap string string]; a JSON blob
    ([json.RawMessage]) is its byte string.  Go's defensive copies of slices
    and maps have no counterpart: the values here are immutable, which is what
    the copies are for. *)
From S2P Require Import Prelude Float64.
Local Open Scope Z_scope.

(** ** Constants *)

Definition ScopeOpenID : string := "openid".
Definition ScopeDeviceSSO : string := "device_sso".
Definition ScopeProfile : string := "profile".
Definition ScopeEmail : string := "email".
Definition ScopeAddress : string := "address".
Definition ScopePhone : string := "phone".
Definition ScopeOfflineAccess : string := "offline_access".
Definition GrantRefreshToken : string := "refresh_token".
Definition CIBAAMR : string := "ciba".

Definition ErrInvalidRequest : string := "invalid_request".
Definition ErrInternal : string := "internal_error".
Definition ErrNoTokenStrategy : string := "no_token_strategy".
Definition ErrInvalidGrant : string := "invalid_grant".
Definition ErrInvalidScope : string := "invalid_scope".
Definition ErrInvalidTarget : string := "invalid_target".
Definition ErrAuthCodeNotConfigured : string := "authorization_code_not_configured".
Definition ErrRefreshTokenNotConfigured : string := "refresh_token_not_configured".
Definition ErrDeviceCodeNotConfigured : string := "device_code_not_configured".
Definition ErrCIBANotConfigured : string := "ciba_not_configured".
Definition ErrAuthorizationPending : string := "authorization_pending".
Definition ErrSlowDown : string := "slow_down".
Definition ErrAccessDenied : string := "access_denied".
Definition ErrExpiredToken : string := "expired_token".
Definition ErrInsufficientUserAuthentication : string := "insufficient_user_authentication".

Definition PKCEVerifierMinLen : Z := 43.
Definition PKCEVerifierMaxLen : Z := 128.

Definition KeyRefreshGraceDeadline : string := "_grant_deadline".
Definition KeyRefreshGracePending : string := "_grant_pending".
Definition KeyRefreshGraceFamilyID : string := "_grant_family_id".
Definition KeyRefreshGraceClientID : string := "_grant_client_id".
Definition KeyRefreshGraceJKT : string := "_grant_jkt".
Definition KeyRefreshGraceX5T : string := "_grant_x5t".

Definition KeyAccessToken : string := "access_token".
Definition KeyTokenType : string := "token_type".
Definition KeyRefreshToken : string := "refresh_token".
Definition KeyExpiresIn : string := "expires_in".
Definition KeyScope : string := "scope".
Definition KeyTokenStrategy : string := "token_strategy".
Definition KeyIDToken : string := "id_token".
Definition KeyDeviceSecret : string := "device_secret".

(** ** Clients *)

(** A public key as a client registers it; the attestation of its origin aside. *)
Record JWK := {
  jwk_Kty : string;
  jwk_Use : string;
  jwk_Alg : string;
  jwk_Kid : string;
  jwk_Crv : string;
  jwk_X : string;
  jwk_Y : string;
  jwk_N : string;
  jwk_E : string;
}.

(** [core.Client]: identity, scopes, redirects, lifetimes, grant types, secrets, and
    what its authentication at the token endpoint rests on. *)
Record Client := {
  cl_ID : string;
  cl_Secret : string;
  cl_Name : string;
  cl_RedirectURIs : list string;
  cl_RedirectURIPatterns : list string;
  cl_AllowedScopes : list string;
  cl_AllowedAuthenticators : list string;
  cl_AllowedProviderIDs : list string;
  cl_LoginPageURI : string;
  cl_TokenStrategy : string;
  cl_Active : bool;
  cl_Federation : bool;
  cl_TenantID : string;
  cl_RequirePKCE : bool;
  cl_AllowedResources : list string;
  cl_RegistrationAccessToken : string;
  cl_PreviousRegistrationAccessToken : string;
  cl_RegistrationAccessTokenOverlapUntil : Z;
  cl_PostLogoutRedirectURIs : list string;
  cl_AllowedAuthorizationDetailsTypes : list string;
  cl_RefreshTokenTTL : Z;
  cl_AccessTokenTTL : Z;
  cl_GrantTypes : list string;
  cl_PreviousSecret : string;
  cl_SecretOverlapUntil : Z;
  cl_SecretRotatedAt : Z;
  cl_SecretExpiresAt : Z;
  cl_JWKS : list JWK;
  cl_TokenEndpointAuthMethod : string;
  cl_TLSClientAuthSubjectDN : string;
  cl_TLSClientAuthSANDNS : string;
  cl_TLSClientAuthSANEmail : string;
  cl_TLSClientAuthSANURI : string;
  cl_Attributes : gmap string string;
}.

(** A registered client with everything but its identity left at Go's zero
    values; used by the concrete examples. *)
Definition plain_client (id : string) (scopes grants : list string) : Client := {|
  cl_ID := id; cl_Secret := ""; cl_Name := ""; cl_RedirectURIs := [];
  cl_RedirectURIPatterns := []; cl_AllowedScopes := scopes;
  cl_AllowedAuthenticators := []; cl_AllowedProviderIDs := [];
  cl_LoginPageURI := ""; cl_TokenStrategy := ""; cl_Active := true;
  cl_Federation := false; cl_TenantID := ""; cl_RequirePKCE := false;
  cl_AllowedResources := []; cl_RegistrationAccessToken := "";
  cl_PreviousRegistrationAccessToken := "";
  cl_RegistrationAccessTokenOverlapUntil := 0;
  cl_PostLogoutRedirectURIs := []; cl_AllowedAuthorizationDetailsTypes := [];
  cl_RefreshTokenTTL := 0; cl_AccessTokenTTL := 0; cl_GrantTypes := grants;
  cl_PreviousSecret := ""; cl_SecretOverlapUntil := 0; cl_SecretRotatedAt := 0; cl_SecretExpiresAt := 0;
  cl_JWKS := []; cl_TokenEndpointAuthMethod := ""; cl_TLSClientAuthSubjectDN := ""; cl_TLSClientAuthSANDNS := "";
  cl_TLSClientAuthSANEmail := ""; cl_TLSClientAuthSANURI := ""; cl_Attributes := ∅ |}.

(** ** Token subjects *)

(** [*core.ActorClaim]: a delegation chain; [ActorNil] is the nil pointer. *)
Inductive ActorClaim :=
| ActorNil
| Actor (sub : string) (act : ActorClaim).

Record Subject := {
  su_ID : string;
  su_Provider : string;
  su_Claims : gmap string string;
  su_Resources : list string;
  su_ClientID : string;
  su_AuthTime : Z;
  su_AMR : list string;
  su_ACR : string;
  su_AuthorizationDetails : string;
  su_TTL : Z;
  su_SID : string;
  su_ServingRegion : string;
  su_TenantID : string;
  su_Roles : list string;
  su_ConfirmationJKT : string;
  su_ConfirmationX5TS256 : string;
  su_NotAfter : Z;
  su_Actor : ActorClaim;
  su_RequestedClaims : string;
}.

(** [core.Token]: an issued access token. *)
Record Token := {
  tk_AccessToken : string;
  tk_TokenType : string;
  tk_RefreshToken : string;
  tk_ExpiresIn : Z;
  tk_Scope : string;
  tk_CreatedAt : Z;
}.

(** [core.TokenClaims]: what a validated access token says. *)
Record TokenClaims := {
  tc_TokenUse : string;
  tc_Subject : string;
  tc_Issuer : string;
  tc_Audience : list string;
  tc_Scopes : list string;
  tc_Resources : list string;
  tc_ExpiresAt : Z;
  tc_NotBefore : Z;
  tc_IssuedAt : Z;
  tc_Extra : gmap string string;
  tc_ClientID : string;
  tc_JTI : string;
  tc_AuthTime : Z;
  tc_ACR : string;
  tc_AMR : list string;
  tc_SID : string;
  tc_ServingRegion : string;
  tc_TenantID : string;
  tc_ConfirmationJKT : string;
  tc_ConfirmationX5TS256 : string;
  tc_AuthorizationDetails : string;
  tc_Actor : ActorClaim;
  tc_MayAct : ActorClaim;
  tc_RequestedClaims : string;
}.

(** ** Response bodies

    [map[string]any] as the token endpoint fills it.  A deadline written with
    [t.Format(time.RFC3339Nano)] is the value [VTime t]: reading it back with
    [time.Parse] gives [t], and no other string is ever stored under a
    deadline key by this code, so a [VStr] does not parse. *)
Inductive val :=
| VStr (s : string)
| VInt (n : Z)
| VBool (b : bool)
| VTime (t : Z)
| VList (l : list string).

#[export] Instance val_eq_dec : EqDecision val.
Proof. solve_decision. Defined.

Abbreviation body := (gmap string val).

(** [resp[k].(string)] with the comma-ok form: the zero value on a mismatch. *)
Definition str_at (k : string) (b : body) : string :=
  match b !! k with Some (VStr s) => s | _ => "" end.

(** [time.Parse(time.RFC3339Nano, b[k].(string))]. *)
Definition deadline_at (k : string) (b : body) : option Z :=
  match b !! k with Some (VTime t) => Some t | _ => None end.

Inductive response :=
| RError (status : Z) (code : string)       (* core.ErrorBody *)
| ROK (b : body).                            (* 200 with a token response *)

(** ** Sessions *)

(** [core.Session]. *)
Record Session := {
  se_ID : string;
  se_UserID : string;
  se_CreatedAt : Z;
  se_ExpiresAt : Z;
  se_Revoked : bool;
  se_LastActiveAt : Z;
  se_IP : string;
  se_UserAgent : string;
  se_TenantID : string;
  se_DeviceID : string;
  se_ClientID : string;
  se_AuthorizedScopes : list string;
  se_AuthTime : Z;
  se_Kind : string;
  se_TrustScore : float64;
  se_TrustSetAt : Z;
  se_StepUpRequired : bool;
}.

(** A session with the given owner, expiry and flags, nothing else set. *)
Definition plain_session (id uid : string) (expires : Z) (revoked stepup : bool) : Session := {|
  se_ID := id; se_UserID := uid; se_CreatedAt := 0; se_ExpiresAt := expires; se_Revoked := revoked;
  se_LastActiveAt := 0; se_IP := ""; se_UserAgent := ""; se_TenantID := ""; se_DeviceID := "";
  se_ClientID := ""; se_AuthorizedScopes := []; se_AuthTime := 0; se_Kind := ""; se_TrustScore := of_int 0;
  se_TrustSetAt := 0; se_StepUpRequired := stepup |}.

Definition Session_IsExpired (now : Z) (s : Session) : bool :=
  0 <? GoTime.Since now (se_ExpiresAt s).

(** ** Device secrets *)

Record DeviceSecret := {
  ds_Secret : string;
  ds_Subject : string;
  ds_SID : string;
  ds_ClientID : string;
  ds_ExpiresAt : Z;
}.

Definition DeviceSecret_IsExpired (now : Z) (d : DeviceSecret) : bool :=
  0 <? GoTime.Since now (ds_ExpiresAt d).

(** ** Shared helpers *)

Definition AmrOrProvider (methods : list string) (provider : string) : list string :=
  match methods with [] => [provider] | _ => methods end.

Definition dpopTokenTypeOr (defaultType jkt : string) : string :=
  if decide (jkt = "") then defaultType else "DPoP".

Lemma AmrOrProvider_nonempty methods provider : AmrOrProvider methods provider <> [].
Proof. by destruct methods. Qed.
