(* ===== verification/Scopes.v ===== *)
(** * Scopes: the scope algebra of the token endpoint
    ([protocols/oauth/oauthvalidate/scope.go], [IsScopeSubset] of
    [oauthwire/auth_code_handler.go]) and the global scope registry
    ([protocols/oauth/scoperegistry]). *)
From S2P Require Import Prelude Core.

(** ** Wire format *)

Definition JoinScope (scopes : list string) : string := Str.join scopes.

Definition SplitScope (s : string) : list string :=
  if decide (s = "") then [] else Str.split s.

(** ** The client's allowlist *)

Definition dedupeScopes (l : list string) : list string :=
  dedup_onto [] (filter (fun s => s <> "") l).

Definition scope_exempt (s : string) : bool :=
  bool_decide (s = ScopeOpenID) || bool_decide (s = ScopeDeviceSSO).

Inductive scope_error := ErrScopeNotAllowed.

Fixpoint all_allowed (allowed req : list string) : bool :=
  match req with
  | [] => true
  | s :: req =>
      if scope_exempt s then all_allowed allowed req
      else if contains allowed s then all_allowed allowed req
      else false
  end.

(** [client = None] is the nil pointer. *)
Definition GrantedScopes (requested : list string) (client : option Client)
    : result scope_error (list string) :=
  let req := dedupeScopes requested in
  match client with
  | None => Ok req
  | Some c =>
      match cl_AllowedScopes c with
      | [] => Ok req
      | _ =>
          match req with
          | [] =>
              Ok (dedupeScopes
                    (filter (fun a => ~ (a = ScopeOpenID \/ a = ScopeOfflineAccess))
                            (cl_AllowedScopes c)))
          | _ =>
              if all_allowed (cl_AllowedScopes c) req then Ok req
              else Err ErrScopeNotAllowed
          end
      end
  end.

(** ** Downscoping *)

Definition IsScopeSubset (want have : list string) : bool :=
  match want with
  | [] => true
  | _ => forallb (fun w => contains have w) want
  end.

(** ** The scope registry *)

Definition ProtocolScopes : list string :=
  [ScopeOpenID; ScopeDeviceSSO; ScopeProfile; ScopeEmail; ScopeAddress; ScopePhone; ScopeOfflineAccess].

Inductive registry_error := errFrozen | errEmptyScope | errBareWildcard | errBadWildcard.

(** [strings.HasPrefix] / [strings.CutSuffix], on the bytes. *)
Definition HasPrefix (s p : string) : bool :=
  bool_decide (Str.to_list p `prefix_of` Str.to_list s).
Definition HasSuffix (s p : string) : bool :=
  bool_decide (Str.to_list p `suffix_of` Str.to_list s).
Definition CutSuffix (s p : string) : option string :=
  if HasSuffix s p
  then Some (Str.of_list (take (String.length s - String.length p) (Str.to_list s)))
  else None.

Lemma HasPrefix_spec s p : HasPrefix s p = true <-> exists r, s = (p +:+ r)%string.
Proof.
  unfold HasPrefix. rewrite bool_decide_eq_true. split.
  - intros [k Hk]. exists (Str.of_list k). by rewrite <- (Str.of_to_list s), Hk, Str.of_list_app, Str.of_to_list.
  - intros [r ->]. rewrite Str.to_list_app. by eexists.
Qed.

Lemma CutSuffix_spec s p d : CutSuffix s p = Some d <-> s = (d +:+ p)%string.
Proof.
  unfold CutSuffix, HasSuffix. split.
  - destruct (bool_decide _) eqn:Hs; [|done]. apply bool_decide_eq_true in Hs as [k Hk].
    intros [= <-]. rewrite Hk, take_app_length'.
    + by rewrite <- (Str.of_to_list s), Hk, Str.of_list_app, Str.of_to_list.
    + rewrite <- !Str.length_to_list, Hk, length_app. lia.
  - intros ->. rewrite Str.to_list_app, bool_decide_eq_true_2 by by eexists.
    rewrite take_app_length', Str.of_to_list; [done|].
    rewrite <- !Str.length_to_list, Str.to_list_app, length_app. lia.
Qed.

Definition ValidatePattern (s : string) : result registry_error () :=
  if decide (s = "") then Err errEmptyScope
  else if decide (s = "*") then Err errBareWildcard
  else if bool_decide ("*"%char ∈ Str.to_list s) && negb (HasSuffix s ":*")
  then Err errBadWildcard
  else Ok ().

(** [Memory]: the built registry. *)
Record Registry := { rg_patterns : list string; rg_frozen : bool }.

Fixpoint add_patterns (patterns l : list string) : result registry_error (list string) :=
  match l with
  | [] => Ok patterns
  | s :: l =>
      match ValidatePattern s with
      | Err e => Err e
      | Ok _ =>
          if contains patterns s then add_patterns patterns l
          else add_patterns (patterns ++ [s]) l
      end
  end.

Definition NewMemory (matrix extra : list string) : result registry_error Registry :=
  ps ← add_patterns [] ProtocolScopes;
  ps ← add_patterns ps matrix;
  ps ← add_patterns ps extra;
  Ok {| rg_patterns := ps; rg_frozen := true |}.

Definition Register (m : Registry) (scope : string) : result registry_error () :=
  if rg_frozen m then Err errFrozen else Ok ().

Definition pattern_matches (scope p : string) : bool :=
  bool_decide (p = scope) ||
  match CutSuffix p ":*" with
  | Some domain => HasPrefix scope (domain +:+ ":")
  | None => false
  end.

Definition Registered (m : Registry) (scope : string) : bool :=
  if decide (scope = "") then false
  else existsb (pattern_matches scope) (rg_patterns m).

(** [RejectUnregistered]: the response it writes, if it writes one. *)
Definition RejectUnregistered (reg : option Registry) (scopes : list string) : option response :=
  match reg with
  | None => None
  | Some m => if forallb (Registered m) scopes then None
              else Some (RError 400 ErrInvalidScope)
  end.

Definition FilterRegistered (reg : option Registry) (scopes : list string) : list string :=
  match reg with
  | None => scopes
  | Some m => filter (fun s => Registered m s = true) scopes
  end.

(** ** Lemmas *)

Lemma elem_of_dedupeScopes l s : s ∈ dedupeScopes l <-> s ∈ l /\ s <> "".
Proof.
  unfold dedupeScopes. rewrite elem_of_dedup_onto, list_elem_of_filter. set_solver.
Qed.

Lemma NoDup_dedupeScopes l : NoDup (dedupeScopes l).
Proof. unfold dedupeScopes. auto with snap. Qed.

Lemma dedupeScopes_nil l : dedupeScopes l = [] <-> forall s, s ∈ l -> s = "".
Proof.
  split.
  - intros Hn s Hs. destruct (decide (s = "")) as [|Hne]; [done|].
    assert (s ∈ dedupeScopes l) as Hin by by apply elem_of_dedupeScopes.
    rewrite Hn in Hin. by apply not_elem_of_nil in Hin.
  - intros Hall. destruct (dedupeScopes l) as [|x r] eqn:E; [done|].
    assert (x ∈ dedupeScopes l) as Hx by (rewrite E; left).
    apply elem_of_dedupeScopes in Hx as [Hx Hne]. by specialize (Hall x Hx).
Qed.

Lemma scope_exempt_spec s :
  scope_exempt s = true <-> s = ScopeOpenID \/ s = ScopeDeviceSSO.
Proof. unfold scope_exempt. rewrite orb_true_iff, !bool_decide_eq_true. done. Qed.

Lemma all_allowed_spec allowed req :
  all_allowed allowed req = true <->
  forall s, s ∈ req -> s = ScopeOpenID \/ s = ScopeDeviceSSO \/ s ∈ allowed.
Proof.
  induction req as [|s req IH]; simpl; [set_solver|].
  destruct (scope_exempt s) eqn:He.
  - apply scope_exempt_spec in He. rewrite IH. set_solver.
  - assert (~ (s = ScopeOpenID \/ s = ScopeDeviceSSO)) as Hne
      by (rewrite <- scope_exempt_spec; congruence).
    destruct (contains allowed s) eqn:Hc.
    + apply contains_spec in Hc. rewrite IH. set_solver.
    + apply bool_decide_eq_false in Hc. split; [done|].
      intros Hall. specialize (Hall s ltac:(left)). naive_solver.
Qed.

Lemma all_allowed_false allowed req :
  all_allowed allowed req = false ->
  exists s, s ∈ req /\ scope_exempt s = false /\ s ∉ allowed.
Proof.
  induction req as [|s req IH]; simpl; [done|].
  destruct (scope_exempt s) eqn:He.
  - intros (x & Hx & ?)%IH. exists x. split; [by right|done].
  - destruct (contains allowed s) eqn:Hc.
    + intros (x & Hx & ?)%IH. exists x. split; [by right|done].
    + intros _. apply bool_decide_eq_false in Hc. exists s. split; [left|done].
Qed.

Lemma IsScopeSubset_spec want have : IsScopeSubset want have = true <-> want ⊆ have.
Proof.
  assert (forallb (fun w => contains have w) want = true <-> want ⊆ have) as Hs.
  { rewrite forallb_forall. setoid_rewrite contains_spec.
    setoid_rewrite <- list_elem_of_In. done. }
  destruct want; [|exact Hs]. split; [|done]. intros _ x Hx. by apply not_elem_of_nil in Hx.
Qed.
#[export] Hint Resolve NoDup_dedupeScopes : snap.

Lemma FilterRegistered_subset reg scopes : FilterRegistered reg scopes ⊆ scopes.
Proof.
  destruct reg as [m|]; simpl; [|done]. intros s Hs.
  by apply list_elem_of_filter in Hs as [_ Hs].
Qed.

Lemma RejectUnregistered_None m scopes :
  RejectUnregistered (Some m) scopes = None <->
  forall s, s ∈ scopes -> Registered m s = true.
Proof.
  simpl. destruct (forallb _ _) eqn:E.
  - rewrite forallb_forall in E. setoid_rewrite <- list_elem_of_In in E. naive_solver.
  - split; [done|]. intros Hall. exfalso. apply not_true_iff_false in E. apply E.
    apply forallb_forall. setoid_rewrite <- list_elem_of_In. done.
Qed.

Lemma pattern_matches_spec scope p :
  pattern_matches scope p = true <->
  p = scope \/ exists domain, CutSuffix p ":*" = Some domain /\
                             HasPrefix scope (domain +:+ ":") = true.
Proof.
  unfold pattern_matches. rewrite orb_true_iff, bool_decide_eq_true.
  destruct (CutSuffix p ":*") as [d|]; naive_solver.
Qed.

(** What [add] of [NewMemory] accepts. *)
Lemma add_patterns_spec patterns l ps :
  add_patterns patterns l = Ok ps ->
  (forall s, s ∈ ps <-> s ∈ patterns \/ s ∈ l) /\
  (forall s, s ∈ l -> ValidatePattern s = Ok ()) /\
  (NoDup patterns -> NoDup ps).
Proof.
  revert patterns. induction l as [|s l IH]; intros patterns Hadd; simpl in Hadd.
  { simplify_eq. set_solver. }
  destruct (ValidatePattern s) as [[]|] eqn:HV; [|done].
  destruct (contains patterns s) eqn:Hc.
  - apply contains_spec in Hc. destruct (IH _ Hadd) as (H1 & H2 & H3).
    split_and!; [intros s0; rewrite H1; set_solver| |done]. intros s' [->|Hs']%elem_of_cons; auto.
  - apply bool_decide_eq_false in Hc. destruct (IH _ Hadd) as (H1 & H2 & H3).
    split_and!; [intros s0; rewrite H1; set_solver| |].
    + intros s' [->|Hs']%elem_of_cons; auto.
    + intros Hnd. apply H3. apply list.NoDup_app. split_and!; [done| |apply NoDup_singleton].
      intros x Hx Hy. apply list_elem_of_singleton in Hy. by subst.
Qed.

Lemma ValidatePattern_Ok s :
  ValidatePattern s = Ok () <->
  s <> "" /\ s <> "*" /\ ("*"%char ∈ Str.to_list s -> HasSuffix s ":*" = true).
Proof.
  unfold ValidatePattern.
  destruct (decide (s = "")) as [->|Hne]; [split; [done|intros (? & _); done]|].
  destruct (decide (s = "*")) as [->|Hst]; [split; [done|intros (_ & ? & _); done]|].
  destruct (bool_decide ("*"%char ∈ Str.to_list s)) eqn:Hin; bool_simpl; simpl.
  - destruct (HasSuffix s ":*"); simpl; split; try done.
    intros (_ & _ & Hx). by specialize (Hx Hin).
  - split; [|done]. intros _. by split_and!.
Qed.

(** ** Properties *)

(** the scope gate grants exactly what it should.  It fails if and only if
    the client has an allowlist and some requested scope is neither on it nor a
    protocol trigger; when it succeeds the granted list has no duplicates and no
    empty scope, is drawn from the request (or, for an empty request under an
    allowlist, from the allowlist), and [openid] / [offline_access] are never
    granted without having been requested. *)
Theorem GrantedScopes_spec (requested : list string) (c : Client) :
  match GrantedScopes requested (Some c) with
  | Err _ =>
      cl_AllowedScopes c <> [] /\
      exists s, s ∈ requested /\ s <> "" /\ scope_exempt s = false /\ s ∉ cl_AllowedScopes c
  | Ok g =>
      NoDup g /\
      (forall s, s ∈ g -> s <> "" /\
         (cl_AllowedScopes c = [] \/ s ∈ cl_AllowedScopes c \/ scope_exempt s = true) /\
         (s ∈ requested \/ (dedupeScopes requested = [] /\ s ∈ cl_AllowedScopes c))) /\
      (ScopeOpenID ∈ g -> ScopeOpenID ∈ requested) /\
      (ScopeOfflineAccess ∈ g -> ScopeOfflineAccess ∈ requested) /\
      (forall s, s ∈ requested -> s <> "" -> s ∈ g)
  end.
Proof.
  unfold GrantedScopes.
  pose proof (NoDup_dedupeScopes requested) as Hnd.
  pose proof (elem_of_dedupeScopes requested) as Hel.
  destruct (cl_AllowedScopes c) as [|a l] eqn:Hal.
  { split_and!; [done|..]; [|naive_solver..]. intros s Hs. apply Hel in Hs. naive_solver. }
  destruct (dedupeScopes requested) as [|r rs] eqn:Hreq.
  - assert (forall s, s ∈ requested -> s <> "" -> False) as Hno.
    { intros s Hs Hne. eapply not_elem_of_nil. apply Hel. done. }
    split_and!; [auto with snap|..].
    + intros s Hs. apply elem_of_dedupeScopes in Hs as [Hs Hne].
      apply list_elem_of_filter in Hs as [_ Hs]. naive_solver.
    + intros Hs. apply elem_of_dedupeScopes in Hs as [Hs _].
      apply list_elem_of_filter in Hs as [Hn _]. naive_solver.
    + intros Hs. apply elem_of_dedupeScopes in Hs as [Hs _].
      apply list_elem_of_filter in Hs as [Hn _]. naive_solver.
    + intros s Hs Hne. by destruct (Hno s Hs Hne).
  - destruct (all_allowed (a :: l) (r :: rs)) eqn:Hall.
    + rewrite all_allowed_spec in Hall. split_and!; [done|..]; [|naive_solver..].
      intros s Hs. pose proof (Hall s Hs) as Hs'. apply Hel in Hs.
      rewrite scope_exempt_spec. naive_solver.
    + split; [done|]. apply all_allowed_false in Hall as (s & Hs & He & Hn).
      apply Hel in Hs as [Hs Hne]. eauto 10.
Qed.

(** the space-delimited wire format round-trips: joining scopes that contain
    no space and splitting the result gives the same scopes back. *)
Theorem SplitScope_JoinScope (scopes : list string) :
  Forall Str.no_space scopes -> scopes <> [""] -> SplitScope (JoinScope scopes) = scopes.
Proof.
  intros Hns Hne. unfold SplitScope, JoinScope.
  destruct scopes as [|s l]; [done|]. case_decide as He.
  - exfalso. destruct l as [|s' l].
    + simpl in He. congruence.
    + change (s +:+ (" " +:+ Str.join (s' :: l)) = "") in He.
      by destruct s.
  - by apply Str.split_join.
Qed.

Lemma SplitScope_JoinScope_witness :
  Forall Str.no_space ["openid"; "profile"] /\
  SplitScope (JoinScope ["openid"; "profile"]) = ["openid"; "profile"].
Proof.
  assert (Forall Str.no_space ["openid"; "profile"]) as Hns.
  { repeat constructor; unfold Str.no_space; apply (bool_decide_unpack _); vm_compute; exact I. }
  split; [exact Hns|]. apply (SplitScope_JoinScope _ Hns). discriminate.
Defined.

(** the registry fails closed: a scope is registered in a built registry only
    if it is not empty and some protocol scope, matrix entry or extra entry [p]
    is that scope, or is a [domain:*] pattern whose [domain:] prefixes it; the
    bare wildcard is never such an entry. *)
Theorem NewMemory_Registered (matrix extra : list string) (m : Registry) (scope : string) :
  NewMemory matrix extra = Ok m ->
  Registered m scope = true <->
  scope <> "" /\
  exists p, (p ∈ ProtocolScopes \/ p ∈ matrix \/ p ∈ extra) /\ p <> "" /\ p <> "*" /\
            (p = scope \/
             exists domain, CutSuffix p ":*" = Some domain /\
                            HasPrefix scope (domain +:+ ":") = true).
Proof.
  intros HN. unfold NewMemory in HN.
  apply result_bind_ok in HN as (p1 & H1 & HN). apply result_bind_ok in HN as (p2 & H2 & HN).
  apply result_bind_ok in HN as (p3 & H3 & HN). simplify_eq.
  apply add_patterns_spec in H1 as (E1 & V1 & _), H2 as (E2 & V2 & _), H3 as (E3 & V3 & _).
  unfold Registered. simpl. case_decide as Hs; [naive_solver|].
  rewrite existsb_exists. setoid_rewrite <- list_elem_of_In.
  setoid_rewrite pattern_matches_spec. split.
  - intros (p & Hp & Hm). split; [done|]. exists p.
    apply E3 in Hp. rewrite E2, E1 in Hp.
    assert (ValidatePattern p = Ok ()) as HV.
    { destruct Hp as [[[Hp|Hp]|Hp]|Hp]; [by apply not_elem_of_nil in Hp|auto..]. }
    apply ValidatePattern_Ok in HV as (Hn1 & Hn2 & _).
    split_and!; [set_solver|done..].
  - intros (_ & p & Hp & _ & _ & Hm). exists p. split.
    + apply E3. rewrite E2, E1. set_solver.
    + done.
Qed.

Definition sample_registry : Registry :=
  {| rg_patterns := ProtocolScopes ++ ["admin:read"; "admin:*"]; rg_frozen := true |}.

Lemma NewMemory_Registered_witness :
  NewMemory ["admin:read"] ["admin:*"] = Ok sample_registry /\
  Registered sample_registry "admin:list" = true.
Proof.
  assert (NewMemory ["admin:read"] ["admin:*"] = Ok sample_registry) as HN by (vm_compute; reflexivity).
  split; [exact HN|]. apply (proj2 (NewMemory_Registered _ _ _ "admin:list" HN)).
  split; [discriminate|]. exists "admin:*".
  split; [right; right; left|]. split; [discriminate|]. split; [discriminate|]. right.
  exists "admin". split; vm_compute; reflexivity.
Defined.

(** A wildcard in another position is accepted as long as the pattern also ends
    in [:*], and it is then matched literally. *)
Lemma ValidatePattern_inner_star :
  ValidatePattern "a*b:*" = Ok () /\ ValidatePattern "*:*" = Ok () /\
  ValidatePattern "a*b" = Err errBadWildcard.
Proof. vm_compute. auto. Qed.
