(* ===== verification/Sharded.v ===== *)
(** * Sharded: the lock-striped map of the in-memory stores
    ([infrastructure/defaultimpl/memorystoreoauth/sharded_map.go]).

    Sixteen shards, each a Go map under its own mutex; a key lives in the shard
    its FNV-1a hash selects.  The refinement theorem says that, under the
    placement invariant, the sixteen maps behave as one finite map. *)
From S2P Require Import Prelude Crypto.

Definition mapShardCount : nat := 16.

Definition shardIndexFNV (key : string) : nat :=
  Z.to_nat (Z.land (fnv1a key) (Z.of_nat mapShardCount - 1)).

Abbreviation shardedMap V := (list (gmap string V)).

Section sharded.
Context {V : Type}.
Implicit Types (s : shardedMap V) (k : string) (v : V).

Definition newShardedMap : shardedMap V := replicate mapShardCount ∅.

Definition shardFor s k : gmap string V := default ∅ (s !! shardIndexFNV k).

Definition Store s k v : shardedMap V := <[shardIndexFNV k := <[k := v]> (shardFor s k)]> s.

Definition LoadAndDelete s k : option V * shardedMap V :=
  let sh := shardFor s k in
  match sh !! k with
  | Some v => (Some v, <[shardIndexFNV k := delete k sh]> s)
  | None => (None, s)
  end.

Definition Len s : nat := sum_list (size <$> s).

Definition DeleteExpired s (isExpired : V -> bool) : shardedMap V :=
  delete_where isExpired <$> s.

(** ** The placement invariant and the map it denotes *)

Definition placed s : Prop :=
  length s = mapShardCount /\
  forall i m k, s !! i = Some m -> is_Some (m !! k) -> shardIndexFNV k = i.

Definition denote s : gmap string V := foldr (∪) ∅ s.

Lemma shardIndexFNV_lt k : shardIndexFNV k < mapShardCount.
Proof.
  unfold shardIndexFNV, mapShardCount. change (Z.of_nat 16 - 1)%Z with (Z.ones 4).
  rewrite Z.land_ones by lia. pose proof (Z.mod_pos_bound (fnv1a k) (2 ^ 4)). lia.
Qed.

(** Placement of the shards from number [n] on. *)
Definition placed_from (n : nat) s : Prop :=
  forall i m k, s !! i = Some m -> is_Some (m !! k) -> shardIndexFNV k = n + i.

Lemma placed_from_cons n m s :
  placed_from n (m :: s) <->
  (forall k, is_Some (m !! k) -> shardIndexFNV k = n) /\ placed_from (S n) s.
Proof.
  split.
  - intros Hp. split.
    + intros k Hk. specialize (Hp 0 m k eq_refl Hk). lia.
    + intros i m' k Hi Hk. specialize (Hp (S i) m' k Hi Hk). lia.
  - intros [H0 HS] [|i] m' k Hi Hk; simpl in Hi.
    + simplify_eq. rewrite (H0 k) by done. lia.
    + rewrite (HS i m' k) by done. lia.
Qed.

Lemma denote_cons m s : denote (m :: s) = m ∪ denote s.
Proof. done. Qed.

Lemma denote_None_from n s k :
  placed_from n s -> shardIndexFNV k < n -> denote s !! k = None.
Proof.
  revert n. induction s as [|m s IH]; intros n Hp Hn; [apply lookup_empty|].
  apply placed_from_cons in Hp as [H0 HS]. rewrite denote_cons, lookup_union.
  destruct (m !! k) as [v|] eqn:Hk; [rewrite (H0 k) in Hn by eauto; lia|].
  rewrite (left_id_L None _). apply (IH (S n)); [done|lia].
Qed.

Lemma denote_lookup_from n s k :
  placed_from n s -> n <= shardIndexFNV k ->
  denote s !! k = default ∅ (s !! (shardIndexFNV k - n)) !! k.
Proof.
  revert n. induction s as [|m s IH]; intros n Hp Hn; [by rewrite lookup_nil|].
  apply placed_from_cons in Hp as [H0 HS]. rewrite denote_cons, lookup_union.
  destruct (decide (shardIndexFNV k = n)) as [E|E].
  - rewrite E, Nat.sub_diag. simpl.
    rewrite (denote_None_from (S n)) by (done || lia). by rewrite (right_id_L None _).
  - destruct (m !! k) as [v|] eqn:Hk; [rewrite (H0 k) in E by eauto; done|].
    rewrite (left_id_L None _), (IH (S n)) by (done || lia).
    replace (shardIndexFNV k - n) with (S (shardIndexFNV k - S n)) by lia. done.
Qed.

Lemma placed_from_0 s : placed s <-> length s = mapShardCount /\ placed_from 0 s.
Proof. unfold placed, placed_from. simpl. done. Qed.

Lemma denote_lookup s k : placed s -> denote s !! k = shardFor s k !! k.
Proof.
  intros [_ Hp]%placed_from_0. rewrite (denote_lookup_from 0) by (done || lia).
  unfold shardFor. by rewrite Nat.sub_0_r.
Qed.

Lemma shardFor_lookup s k : placed s -> s !! shardIndexFNV k = Some (shardFor s k).
Proof.
  intros [Hl _]. unfold shardFor.
  destruct (lookup_lt_is_Some_2 s (shardIndexFNV k)) as [m Hm];
    [|by rewrite Hm].
  rewrite Hl. apply shardIndexFNV_lt.
Qed.

(** Replacing one shard by a map that keeps its placement. *)
Lemma placed_insert s k m :
  placed s -> (forall k', is_Some (m !! k') -> shardIndexFNV k' = shardIndexFNV k) ->
  placed (<[shardIndexFNV k := m]> s).
Proof.
  intros [Hl Hp] Hm. split; [by rewrite length_insert|].
  intros i m' k' Hi Hk'. apply list_lookup_insert_Some in Hi.
  destruct Hi as [(<- & <- & _)|(_ & Hi)]; [auto|eauto].
Qed.

Lemma shardFor_insert s k m k' :
  placed s ->
  shardFor (<[shardIndexFNV k := m]> s) k' =
  if decide (shardIndexFNV k = shardIndexFNV k') then m else shardFor s k'.
Proof.
  intros [Hl _]. unfold shardFor. case_decide as E.
  - rewrite <- E. rewrite list_lookup_insert_eq; [done|]. rewrite Hl. apply shardIndexFNV_lt.
  - by rewrite list_lookup_insert_ne.
Qed.

Lemma placed_index s k k' : placed s -> is_Some (shardFor s k !! k') ->
  shardIndexFNV k' = shardIndexFNV k.
Proof. intros Hs Hk. pose proof (shardFor_lookup s k Hs) as E. destruct Hs as [_ Hp]. eauto. Qed.

Lemma sum_size_denote n s : placed_from n s -> sum_list (size <$> s) = size (denote s).
Proof.
  revert n. induction s as [|m s IH]; intros n Hp; [done|].
  apply placed_from_cons in Hp as [H0 HS].
  rewrite denote_cons, map_size_disj_union.
  - cbn [fmap list_fmap sum_list sum_list_with]. by rewrite <- (IH (S n)).
  - apply map_disjoint_spec. intros k v1 v2 Hk1 Hk2.
    rewrite (denote_None_from (S n)) in Hk2; [done|done|].
    rewrite (H0 k) by eauto. lia.
Qed.

(** ** Preservation and refinement *)

Lemma placed_new : placed newShardedMap.
Proof.
  split; [done|]. intros i m k Hi [v Hv].
  apply lookup_replicate in Hi as [-> _]. by rewrite lookup_empty in Hv.
Qed.

Lemma placed_Store s k v : placed s -> placed (Store s k v).
Proof.
  intros Hs. apply placed_insert; [done|]. intros k' Hk'.
  destruct (decide (k = k')) as [->|Hne]; [done|].
  rewrite lookup_insert_ne in Hk' by done. by apply (placed_index s k).
Qed.

Lemma placed_LoadAndDelete s k : placed s -> placed (LoadAndDelete s k).2.
Proof.
  intros Hs. unfold LoadAndDelete. destruct (shardFor s k !! k); [|done].
  apply placed_insert; [done|]. intros k' [w Hk'].
  apply lookup_delete_Some in Hk' as [_ Hk']. apply (placed_index s k); eauto.
Qed.

Lemma placed_DeleteExpired s P : placed s -> placed (DeleteExpired s P).
Proof.
  intros [Hl Hp]. split; [by unfold DeleteExpired; rewrite length_fmap|].
  intros i m k Hi [v Hk]. unfold DeleteExpired in Hi.
  apply list_lookup_fmap_Some in Hi as (m' & -> & Hm').
  apply delete_where_lookup in Hk as [Hk _]. eauto.
Qed.

Lemma denote_Store s k v : placed s -> denote (Store s k v) = <[k := v]> (denote s).
Proof.
  intros Hs. apply map_eq. intros k'.
  rewrite denote_lookup by by apply placed_Store. unfold Store.
  rewrite shardFor_insert by done.
  destruct (decide (k = k')) as [->|Hne].
  - by rewrite decide_True, !lookup_insert_eq.
  - rewrite lookup_insert_ne, denote_lookup by done.
    case_decide as E; [|done]. rewrite lookup_insert_ne by done.
    unfold shardFor. by rewrite E.
Qed.

Lemma LoadAndDelete_value s k : placed s -> (LoadAndDelete s k).1 = denote s !! k.
Proof.
  intros Hs. rewrite denote_lookup by done. unfold LoadAndDelete.
  by destruct (shardFor s k !! k).
Qed.

Lemma denote_LoadAndDelete s k :
  placed s -> denote (LoadAndDelete s k).2 = delete k (denote s).
Proof.
  intros Hs. apply map_eq. intros k'.
  rewrite denote_lookup by by apply placed_LoadAndDelete. unfold LoadAndDelete.
  destruct (shardFor s k !! k) as [v|] eqn:Hk; simpl.
  - rewrite shardFor_insert by done.
    destruct (decide (k = k')) as [->|Hne].
    + by rewrite decide_True, !lookup_delete_eq.
    + rewrite lookup_delete_ne, denote_lookup by done.
      case_decide as E; [|done]. rewrite lookup_delete_ne by done. unfold shardFor. by rewrite E.
  - rewrite <- denote_lookup by done. rewrite delete_id; [done|]. by rewrite denote_lookup.
Qed.

Lemma denote_DeleteExpired s P :
  placed s -> denote (DeleteExpired s P) = delete_where P (denote s).
Proof.
  intros Hs. apply map_eq. intros k. apply option_eq. intros v.
  rewrite delete_where_lookup, !denote_lookup by (done || by apply placed_DeleteExpired).
  rewrite <- delete_where_lookup. unfold shardFor, DeleteExpired.
  rewrite list_lookup_fmap. by destruct (s !! shardIndexFNV k).
Qed.

(** lock striping is invisible: on every sharded map reachable from the
    empty one (the placement invariant holds), storing, loading-and-deleting,
    counting and sweeping are exactly insertion, lookup-and-delete, size and
    filtering of the single map it denotes, and they keep the invariant. *)
Theorem sharded_refines_map s k v (P : V -> bool) :
  placed s ->
  (placed (Store s k v) /\ denote (Store s k v) = <[k := v]> (denote s)) /\
  (placed (LoadAndDelete s k).2 /\ (LoadAndDelete s k).1 = denote s !! k /\
   denote (LoadAndDelete s k).2 = delete k (denote s)) /\
  (placed (DeleteExpired s P) /\ denote (DeleteExpired s P) = delete_where P (denote s)) /\
  Len s = size (denote s).
Proof.
  intros Hs. split_and!;
    auto using placed_Store, denote_Store, placed_LoadAndDelete, LoadAndDelete_value,
      denote_LoadAndDelete, placed_DeleteExpired, denote_DeleteExpired.
  apply placed_from_0 in Hs as [_ Hp]. by apply (sum_size_denote 0).
Qed.
End sharded.

Lemma sharded_refines_map_witness :
  (LoadAndDelete (Store newShardedMap "code-1" true) "code-1").1 = Some true.
Proof.
  pose proof (sharded_refines_map (Store newShardedMap "code-1" true) "code-1" true (fun b => b)
                (placed_Store _ _ _ placed_new)) as (_ & (_ & HL & _) & _).
  rewrite HL. rewrite denote_Store by apply placed_new. apply lookup_insert_eq.
Defined.

#[export] Hint Resolve placed_new placed_Store placed_LoadAndDelete placed_DeleteExpired : snap.
Arguments Store : simpl never.
Arguments LoadAndDelete : simpl never.
Arguments DeleteExpired : simpl never.
Arguments Len : simpl never.
Arguments denote : simpl never.
