(* ===== verification/RefreshStore.v ===== *)
(** * RefreshStore: refresh-token records and the in-memory refresh-token store
    ([protocols/oauth/oauthspi/refresh_token.go],
    [infrastructure/defaultimpl/memorystoreoauth/memory_refresh_token.go]).

    Every operation runs under the store's one mutex, so each is one atomic
    step on the state; [time.Now()] is an argument.  (Inspect's lazy deletion of
    an expired entry takes the mutex a second time; it is modelled with no step
    of another goroutine in between.) *)
From S2P Require Import Prelude Crypto Core.
Local Open Scope Z_scope.

(** ** Data *)

Record RefreshToken := {
  rt_UserID : string;
  rt_ClientID : string;
  rt_Provider : string;
  rt_Scopes : list string;
  rt_Attributes : gmap string string;
  rt_IssuedAt : Z;
  rt_ExpiresAt : Z;
  rt_FamilyID : string;
  rt_JTI : string;
  rt_Resources : list string;
  rt_AuthorizationDetails : string;
  rt_SID : string;
  rt_Amr : list string;
  rt_Acr : string;
  rt_AuthTime : Z;
  rt_ConfirmationJKT : string;
  rt_Generation : Z;
  rt_FamilyCreatedAt : Z;
  rt_Roles : list string;
}.

(** [&oauth.RefreshToken{FamilyID: fid}]: every other field at its zero value. *)
Definition family_only (fid : string) : RefreshToken := {|
  rt_UserID := ""; rt_ClientID := ""; rt_Provider := ""; rt_Scopes := [];
  rt_Attributes := ∅; rt_IssuedAt := 0; rt_ExpiresAt := 0; rt_FamilyID := fid;
  rt_JTI := ""; rt_Resources := []; rt_AuthorizationDetails := ""; rt_SID := "";
  rt_Amr := []; rt_Acr := ""; rt_AuthTime := 0; rt_ConfirmationJKT := "";
  rt_Generation := 0; rt_FamilyCreatedAt := 0; rt_Roles := [] |}.

Definition RefreshToken_IsExpired (now : Z) (r : RefreshToken) : bool :=
  0 <? GoTime.Since now (rt_ExpiresAt r).

Record RefreshAuthContext := {
  rac_AMR : list string;
  rac_ACR : string;
  rac_AuthTime : Z;
  rac_Generation : Z;
  rac_FamilyCreatedAt : Z;
  rac_JTI : string;
  rac_Roles : list string;
}.

Record RefreshTokenExpiry := {
  rte_Thumbprint : string;
  rte_UserID : string;
  rte_ClientID : string;
  rte_ExpiresAt : Z;
}.

Definition RefreshTokenThumbprint (token : string) : string := sha256_hex token.

Inductive refresh_error := ErrRefreshTokenNotFound | ErrRefreshTokenReused | ErrStoreAtCapacity.

Record rotationWindow := { rw_count : Z; rw_windowStart : Z }.

Record MemoryRefreshTokenStore := {
  MaxRotationsPerWindow : Z;
  RotationWindow : Z;
  MaxEntries : Z;
  entries : gmap string RefreshToken;
  families : gmap string string;
  rotations : gmap string rotationWindow;
}.

Definition NewMemoryRefreshTokenStore (maxRot window maxEntries : Z) : MemoryRefreshTokenStore :=
  {| MaxRotationsPerWindow := maxRot; RotationWindow := window; MaxEntries := maxEntries;
     entries := ∅; families := ∅; rotations := ∅ |}.

Definition with_maps (m : MemoryRefreshTokenStore) es fs rs : MemoryRefreshTokenStore :=
  {| MaxRotationsPerWindow := MaxRotationsPerWindow m; RotationWindow := RotationWindow m;
     MaxEntries := MaxEntries m; entries := es; families := fs; rotations := rs |}.

(** ** Operations *)

Definition sweepExpired (now : Z) (m : MemoryRefreshTokenStore) : MemoryRefreshTokenStore :=
  with_maps m (delete_where (RefreshToken_IsExpired now) (entries m)) (families m) (rotations m).

Definition Issue (token : string) (info : option RefreshToken) (m : MemoryRefreshTokenStore)
    : option refresh_error * MemoryRefreshTokenStore :=
  match info with
  | None => (Some ErrRefreshTokenNotFound, m)
  | Some info =>
      if decide (token = "") then (Some ErrRefreshTokenNotFound, m)
      else if (0 <? MaxEntries m) && bool_decide (entries m !! token = None)
              && (MaxEntries m <=? Z.of_nat (size (entries m)))
      then (Some ErrStoreAtCapacity, m)
      else
        (None,
         with_maps m (<[token := info]> (entries m))
           (if decide (rt_FamilyID info = "") then families m
            else <[token := rt_FamilyID info]> (families m))
           (rotations m))
  end.

Definition Consume (now : Z) (token : string) (m : MemoryRefreshTokenStore)
    : (option RefreshToken * option refresh_error) * MemoryRefreshTokenStore :=
  let m' := with_maps m (delete token (entries m)) (families m) (rotations m) in
  match entries m !! token with
  | None =>
      match families m !! token with
      | Some fam =>
          if decide (fam = "") then ((None, Some ErrRefreshTokenNotFound), m')
          else ((Some (family_only fam), Some ErrRefreshTokenReused), m')
      | None => ((None, Some ErrRefreshTokenNotFound), m')
      end
  | Some entry =>
      if RefreshToken_IsExpired now entry
      then ((None, Some ErrRefreshTokenNotFound), m')
      else ((Some entry, None), m')
  end.

Definition in_family (fid : string) (e : RefreshToken) : bool := bool_decide (rt_FamilyID e = fid).

Definition DeleteFamily (familyID : string) (m : MemoryRefreshTokenStore)
    : nat * MemoryRefreshTokenStore :=
  if decide (familyID = "") then (0%nat, m)
  else (count_where (in_family familyID) (entries m),
        with_maps m (delete_where (in_family familyID) (entries m))
          (delete_where (fun fid => bool_decide (fid = familyID)) (families m))
          (delete familyID (rotations m))).

Definition RecordRotation (now : Z) (familyID : string) (m : MemoryRefreshTokenStore)
    : (Z * bool) * MemoryRefreshTokenStore :=
  if decide (familyID = "") then ((0, false), m)
  else
    let w := default {| rw_count := 0; rw_windowStart := 0 |} (rotations m !! familyID) in
    let w :=
      if negb (GoTime.IsZero (rw_windowStart w)) && (0 <? RotationWindow m)
         && (RotationWindow m <=? GoTime.Sub now (rw_windowStart w))
      then {| rw_count := 0; rw_windowStart := 0 |} else w in
    let count := rw_count w + 1 in
    let start := if GoTime.IsZero (rw_windowStart w) then now else rw_windowStart w in
    let exceeded := (0 <? MaxRotationsPerWindow m) && (0 <? RotationWindow m)
                    && (MaxRotationsPerWindow m <? count) in
    ((count, exceeded),
     with_maps m (entries m) (families m)
       (<[familyID := {| rw_count := count; rw_windowStart := start |}]> (rotations m))).

Definition Inspect (now : Z) (token : string) (m : MemoryRefreshTokenStore)
    : result refresh_error RefreshToken * MemoryRefreshTokenStore :=
  match entries m !! token with
  | None => (Err ErrRefreshTokenNotFound, m)
  | Some entry =>
      if RefreshToken_IsExpired now entry
      then (Err ErrRefreshTokenNotFound,
            with_maps m (delete token (entries m)) (families m) (rotations m))
      else (Ok entry, m)
  end.

Definition Delete (token : string) (m : MemoryRefreshTokenStore) : MemoryRefreshTokenStore :=
  with_maps m (delete token (entries m)) (delete token (families m)) (rotations m).

(** [for tok, entry := range m.entries { if P entry { delete both; n++ } }] *)
Definition purge (P : RefreshToken -> bool) (m : MemoryRefreshTokenStore)
    : nat * MemoryRefreshTokenStore :=
  let gone := dom (filter (fun kv => P kv.2 = true) (entries m)) in
  (count_where P (entries m),
   with_maps m (delete_where P (entries m))
     (filter (fun kv => kv.1 ∉ gone) (families m)) (rotations m)).

Definition subject_match (userID clientID : string) (e : RefreshToken) : bool :=
  bool_decide (rt_UserID e = userID) &&
  (bool_decide (clientID = "") || bool_decide (rt_ClientID e = clientID)).

Definition DeleteAllForSubject (userID clientID : string) (m : MemoryRefreshTokenStore)
    : nat * MemoryRefreshTokenStore :=
  if decide (userID = "") then (0%nat, m) else purge (subject_match userID clientID) m.

Definition DeleteAllForClient (clientID : string) (m : MemoryRefreshTokenStore)
    : nat * MemoryRefreshTokenStore :=
  if decide (clientID = "") then (0%nat, m)
  else purge (fun e => bool_decide (rt_ClientID e = clientID)) m.

Definition CountForSubject (userID clientID : string) (m : MemoryRefreshTokenStore) : nat :=
  if decide (userID = "") then 0%nat
  else count_where (subject_match userID clientID) (entries m).

(** ** The expiry calendar *)

Definition expiry_le (a b : RefreshTokenExpiry) : Prop :=
  rte_ExpiresAt a < rte_ExpiresAt b \/
  (rte_ExpiresAt a = rte_ExpiresAt b /\ str_leb (rte_Thumbprint a) (rte_Thumbprint b) = true).

#[export] Instance expiry_le_dec : RelDecision expiry_le.
Proof. unfold RelDecision, expiry_le. intros. apply _. Defined.

Definition expiry_of (kv : string * RefreshToken) : RefreshTokenExpiry :=
  {| rte_Thumbprint := RefreshTokenThumbprint kv.1; rte_UserID := rt_UserID kv.2;
     rte_ClientID := rt_ClientID kv.2; rte_ExpiresAt := rt_ExpiresAt kv.2 |}.

Definition expiring (now before : Z) (e : RefreshToken) : bool :=
  negb (RefreshToken_IsExpired now e || GoTime.After (rt_ExpiresAt e) before).

Definition ListExpiring (now before limit : Z) (m : MemoryRefreshTokenStore)
    : list RefreshTokenExpiry :=
  let out := merge_sort expiry_le
    (expiry_of <$> filter (fun kv => expiring now before kv.2 = true) (map_to_list (entries m))) in
  if (0 <? limit) && (limit <? Z.of_nat (length out)) then take (Z.to_nat limit) out else out.

#[export] Instance expiry_le_trans : Transitive expiry_le.
Proof.
  intros a b c. unfold expiry_le. intros [H1|[H1 H2]] [H3|[H3 H4]]; [left; lia..|].
  right. split; [lia|]. eauto using str_leb_trans.
Qed.

#[export] Instance expiry_le_total : Total expiry_le.
Proof.
  intros a b. unfold expiry_le.
  destruct (str_leb_total (rte_Thumbprint a) (rte_Thumbprint b)) as [H|H];
    rewrite H; destruct (Z.lt_trichotomy (rte_ExpiresAt a) (rte_ExpiresAt b)) as [|[|]]; auto.
Qed.

(** ** Expiry *)

Lemma RefreshToken_IsExpired_spec now r :
  RefreshToken_IsExpired now r = true <-> rt_ExpiresAt r < now.
Proof. unfold RefreshToken_IsExpired. rewrite GoTime.Since_pos_spec. apply Z.ltb_lt. Qed.

Lemma RefreshToken_IsExpired_mono now now' r :
  now <= now' -> RefreshToken_IsExpired now r = true -> RefreshToken_IsExpired now' r = true.
Proof. rewrite !RefreshToken_IsExpired_spec. lia. Qed.

(** ** The store as a state machine *)

Inductive op :=
| OpSweep
| OpIssue (token : string) (info : option RefreshToken)
| OpConsume (token : string)
| OpDeleteFamily (fid : string)
| OpRecordRotation (fid : string)
| OpInspect (token : string)
| OpDelete (token : string)
| OpDeleteAllForSubject (userID clientID : string)
| OpDeleteAllForClient (clientID : string).

Definition apply_op (now : Z) (o : op) (m : MemoryRefreshTokenStore) : MemoryRefreshTokenStore :=
  match o with
  | OpSweep => sweepExpired now m
  | OpIssue t i => (Issue t i m).2
  | OpConsume t => (Consume now t m).2
  | OpDeleteFamily f => (DeleteFamily f m).2
  | OpRecordRotation f => (RecordRotation now f m).2
  | OpInspect t => (Inspect now t m).2
  | OpDelete t => Delete t m
  | OpDeleteAllForSubject u c => (DeleteAllForSubject u c m).2
  | OpDeleteAllForClient c => (DeleteAllForClient c m).2
  end.

(** One step of the store, labelled with the operation and its clock reading. *)
Inductive step : MemoryRefreshTokenStore -> Z * op -> MemoryRefreshTokenStore -> Prop :=
| step_op now o m : step m (now, o) (apply_op now o m).

(** Runs: the interleavings of any number of goroutines' operations. *)
Inductive run : MemoryRefreshTokenStore -> list (Z * op) -> MemoryRefreshTokenStore -> Prop :=
| run_nil m : run m [] m
| run_cons m1 l m2 tr m3 : step m1 l m2 -> run m2 tr m3 -> run m1 (l :: tr) m3.

Definition apply_trace (m : MemoryRefreshTokenStore) (tr : list (Z * op)) : MemoryRefreshTokenStore :=
  foldl (fun m l => apply_op l.1 l.2 m) m tr.

Lemma run_apply_trace m tr m' : run m tr m' <-> m' = apply_trace m tr.
Proof.
  split.
  - induction 1 as [|m1 [now o] m2 tr m3 Hs _ IH]; [done|].
    inversion Hs; subst. done.
  - revert m. induction tr as [|[now o] tr IH]; intros m ->; [constructor|].
    econstructor; [constructor|]. by apply IH.
Qed.

(** Rule induction for a state invariant. *)
Lemma run_invariant (P : MemoryRefreshTokenStore -> Prop) (Q : Z * op -> Prop) m tr m' :
  run m tr m' -> Forall Q tr -> P m ->
  (forall m l, P m -> Q l -> P (apply_op l.1 l.2 m)) -> P m'.
Proof.
  intros Hr HQ HP Hstep. revert HP.
  induction Hr as [|m1 l m2 tr m3 Hs _ IH]; intros HP; [done|].
  inversion HQ; subst. inversion Hs; subst. apply IH; [done|].
  by apply (Hstep m1 (now, o)).
Qed.

(** ** The store invariant *)

(** Every live token is non-empty and, when it belongs to a family, is marked
    with it; no marker is empty; a configured capacity is respected. *)
Record wf (m : MemoryRefreshTokenStore) : Prop := {
  wf_entry : forall tok e, entries m !! tok = Some e ->
    tok <> "" /\ (rt_FamilyID e <> "" -> families m !! tok = Some (rt_FamilyID e));
  wf_marker : forall tok f, families m !! tok = Some f -> f <> "";
  wf_capacity : 0 < MaxEntries m -> Z.of_nat (size (entries m)) <= MaxEntries m;
}.

Lemma wf_new maxRot window maxEntries : wf (NewMemoryRefreshTokenStore maxRot window maxEntries).
Proof. split; simpl; intros *; rewrite ?lookup_empty; try done. rewrite map_size_empty. lia. Qed.

(** Shrinking the live entries keeps the invariant. *)
Lemma wf_shrink m es fs rs :
  wf m -> es ⊆ entries m -> fs ⊆ families m ->
  (forall tok e, es !! tok = Some e -> rt_FamilyID e <> "" -> fs !! tok = families m !! tok) ->
  wf (with_maps m es fs rs).
Proof.
  intros [He Hm Hc] Hes Hfs Heq. split; simpl.
  - intros tok e Hte. destruct (He tok e) as [? Hf]; [by eapply lookup_weaken|].
    split; [done|]. intros Hne. rewrite (Heq tok e Hte Hne). auto.
  - intros tok f Hf. eapply Hm. by eapply lookup_weaken.
  - intros Hpos. specialize (Hc Hpos).
    pose proof (map_subseteq_size _ _ Hes). lia.
Qed.

Lemma delete_where_subseteq {V} (P : V -> bool) (m : gmap string V) : delete_where P m ⊆ m.
Proof. apply map_filter_subseteq. Qed.

Lemma delete_sub {V} (k : string) (m : gmap string V) : delete k m ⊆ m.
Proof. apply delete_subseteq. Qed.

Lemma wf_Issue token info m : wf m -> wf (Issue token info m).2.
Proof.
  intros [He Hm Hc]. unfold Issue. destruct info as [info|]; [|by split].
  destruct (decide (token = "")) as [|Htok]; [by split|].
  destruct (_ && _ && _) eqn:Hcap; [by split|]. split; simpl.
  - intros tok e [[<- <-]|[Hne Hte]]%lookup_insert_Some.
    + split; [done|]. intros Hf. rewrite decide_False by done. apply lookup_insert_eq.
    + destruct (He tok e Hte) as [? Hf]. split; [done|]. intros Hne'.
      case_decide; [auto|]. rewrite lookup_insert_ne; auto.
  - intros tok f. case_decide; [apply Hm|].
    intros [[<- <-]|[Hne Hf]]%lookup_insert_Some; [done|by eapply Hm].
  - intros Hpos. destruct (entries m !! token) eqn:Et.
    + rewrite map_size_insert_Some by eauto. auto.
    + rewrite map_size_insert_None by done.
      rewrite bool_decide_eq_true_2 in Hcap by done.
      destruct (0 <? MaxEntries m) eqn:E0; simpl in Hcap; bool_simpl; lia.
Qed.

Lemma wf_purge P m : wf m -> wf (purge P m).2.
Proof.
  intros Hwf. apply wf_shrink; [done|apply map_filter_subseteq..|].
  intros tok e Hte _. apply delete_where_lookup in Hte as [Hte HP].
  destruct (families m !! tok) as [f|] eqn:Hf.
  - apply map_lookup_filter_Some. split; [done|]. simpl.
    rewrite elem_of_dom. intros [e' [He' HP']%map_lookup_filter_Some]. simpl in HP'. congruence.
  - apply map_lookup_filter_None. by left.
Qed.

Lemma wf_apply_op now o m : wf m -> wf (apply_op now o m).
Proof.
  intros Hwf. destruct o as [|t i|t|f|f|t|t|u c|c]; simpl.
  - apply wf_shrink; auto using delete_where_subseteq.
  - by apply wf_Issue.
  - unfold Consume. assert (wf (with_maps m (delete t (entries m)) (families m) (rotations m)))
      by (apply wf_shrink; auto using delete_sub).
    by repeat case_match.
  - unfold DeleteFamily. case_decide; [done|]. apply wf_shrink; auto using delete_where_subseteq.
    intros tok e [Hte Hf]%delete_where_lookup Hne. unfold in_family in Hf. bool_simpl.
    apply option_eq. intros f'. rewrite delete_where_lookup, bool_decide_eq_false.
    split; [naive_solver|]. intros Hf'. split; [done|]. intros ->.
    destruct Hwf as [He Hm _]. destruct (He tok e Hte) as [_ Hfam].
    rewrite (Hfam Hne) in Hf'. congruence.
  - unfold RecordRotation. case_decide; [done|]. apply wf_shrink; auto.
  - unfold Inspect. repeat case_match; [|done..].
    apply wf_shrink; auto using delete_sub.
  - apply wf_shrink; auto using delete_sub. intros tok e Hte _.
    apply lookup_delete_Some in Hte as [Hne _]. by rewrite lookup_delete_ne.
  - unfold DeleteAllForSubject. case_decide; [done|]. by apply wf_purge.
  - unfold DeleteAllForClient. case_decide; [done|]. by apply wf_purge.
Qed.

Lemma wf_run m tr m' : run m tr m' -> wf m -> wf m'.
Proof.
  intros Hr Hwf. eapply (run_invariant wf (fun _ => True)); eauto using wf_apply_op.
  by apply Forall_true.
Qed.

(** ** What a step leaves alone *)

Definition issues (tok : string) (o : op) : bool :=
  match o with OpIssue t (Some _) => bool_decide (t = tok) | _ => false end.
Definition forgets (tok fid : string) (o : op) : bool :=
  match o with
  | OpDelete t => bool_decide (t = tok)
  | OpDeleteFamily f => bool_decide (f = fid)
  | _ => false
  end.

Lemma apply_op_dead now o m tok :
  issues tok o = false -> entries m !! tok = None -> entries (apply_op now o m) !! tok = None.
Proof.
  intros Hi Hn. destruct o as [|t [i|]|t|f|f|t|t|u c|c]; simpl in *.
  - apply delete_where_None. by left.
  - bool_simpl. unfold Issue. repeat case_match; simpl; first [done|by rewrite lookup_insert_ne].
  - done.
  - unfold Consume. repeat case_match; simpl; apply lookup_delete_None; by right.
  - unfold DeleteFamily. case_decide; [done|]. apply delete_where_None. by left.
  - unfold RecordRotation. by case_decide.
  - unfold Inspect. repeat case_match; simpl; [|done..]. apply lookup_delete_None; by right.
  - apply lookup_delete_None; by right.
  - unfold DeleteAllForSubject. case_decide; [done|]. apply delete_where_None. by left.
  - unfold DeleteAllForClient. case_decide; [done|]. apply delete_where_None. by left.
Qed.

Lemma apply_op_marker now o m tok fid :
  issues tok o = false -> forgets tok fid o = false ->
  entries m !! tok = None -> families m !! tok = Some fid ->
  families (apply_op now o m) !! tok = Some fid.
Proof.
  assert (forall P, entries m !! tok = None -> families m !! tok = Some fid ->
            families (purge P m).2 !! tok = Some fid) as Hp.
  { intros P He Hf. apply map_lookup_filter_Some. split; [done|]. simpl.
    rewrite elem_of_dom. intros [e [He' _]%map_lookup_filter_Some]. congruence. }
  intros Hi Hg He Hf. destruct o as [|t [i|]|t|f|f|t|t|u c|c]; simpl in *; try done.
  - bool_simpl. unfold Issue. repeat case_match; simpl; first [done|by rewrite lookup_insert_ne].
  - unfold Consume. by repeat case_match.
  - bool_simpl. unfold DeleteFamily. case_decide; [done|]. simpl.
    apply delete_where_lookup. split; [done|]. apply bool_decide_eq_false. congruence.
  - unfold RecordRotation. by case_decide.
  - unfold Inspect. by repeat case_match.
  - bool_simpl. by rewrite lookup_delete_ne.
  - unfold DeleteAllForSubject. case_decide; [done|]. by apply Hp.
  - unfold DeleteAllForClient. case_decide; [done|]. by apply Hp.
Qed.

Lemma Consume_removes now tok m : entries (Consume now tok m).2 !! tok = None.
Proof. unfold Consume. repeat case_match; simpl; apply lookup_delete_eq. Qed.

Lemma Consume_families now tok m : families (Consume now tok m).2 = families m.
Proof. unfold Consume. by repeat case_match. Qed.

Lemma Consume_dead now tok m :
  entries m !! tok = None ->
  (Consume now tok m).1 =
  match families m !! tok with
  | Some fam => if decide (fam = "") then (None, Some ErrRefreshTokenNotFound)
                else (Some (family_only fam), Some ErrRefreshTokenReused)
  | None => (None, Some ErrRefreshTokenNotFound)
  end.
Proof. intros Hn. unfold Consume. rewrite Hn. by repeat case_match. Qed.

(** ** Properties *)

(** a refresh token is redeemable at most once: after any attempt to consume
    it, and through any interleaving of any other store operations that does not
    issue the same token string again, every later attempt returns an error. *)
Theorem refresh_single_use m now tok tr m' now' :
  run (Consume now tok m).2 tr m' ->
  Forall (fun l => issues tok l.2 = false) tr ->
  exists e, (Consume now' tok m').1.2 = Some e.
Proof.
  intros Hr HQ.
  assert (entries m' !! tok = None) as Hn.
  { eapply (run_invariant (fun m => entries m !! tok = None)); eauto using Consume_removes.
    intros m0 [t o] Hm Ho. by apply apply_op_dead. }
  rewrite Consume_dead by done. repeat case_match; eauto.
Qed.

(** replay after rotation is always recognised: once a live token of a
    well-formed store, belonging to a family, has been consumed, then through
    any interleaving that neither re-issues nor deletes that token nor deletes
    its family, presenting it again reports reuse and names the family. *)
Theorem refresh_reuse_detected m now tok info tr m' now' :
  wf m -> entries m !! tok = Some info -> rt_FamilyID info <> "" ->
  run (Consume now tok m).2 tr m' ->
  Forall (fun l => issues tok l.2 = false /\ forgets tok (rt_FamilyID info) l.2 = false) tr ->
  (Consume now' tok m').1 = (Some (family_only (rt_FamilyID info)), Some ErrRefreshTokenReused).
Proof.
  intros Hwf He Hne Hr HQ.
  assert (entries m' !! tok = None /\ families m' !! tok = Some (rt_FamilyID info)) as [Hn Hf].
  { eapply (run_invariant (fun m => entries m !! tok = None /\
                                    families m !! tok = Some (rt_FamilyID info))); eauto.
    - rewrite Consume_families. split; [apply Consume_removes|].
      destruct Hwf as [Hw _ _]. by apply (Hw tok info).
    - intros m0 [t o] [Hm Hm'] [Ho Ho']. split; [by apply apply_op_dead|by apply apply_op_marker]. }
  rewrite Consume_dead by done. rewrite Hf. by rewrite decide_False.
Qed.

(** revoking a family is complete and precise: afterwards no live entry, no
    marker and no rotation window of that family is left, every other family's
    entries and markers are exactly what they were, and the number returned is
    the number of entries removed. *)
Theorem DeleteFamily_spec fid m :
  fid <> "" ->
  let n := (DeleteFamily fid m).1 in
  let m' := (DeleteFamily fid m).2 in
  (forall tok e, entries m' !! tok = Some e <-> entries m !! tok = Some e /\ rt_FamilyID e <> fid) /\
  (forall tok f, families m' !! tok = Some f <-> families m !! tok = Some f /\ f <> fid) /\
  rotations m' !! fid = None /\
  (size (entries m') + n = size (entries m))%nat.
Proof.
  intros Hne. unfold DeleteFamily. rewrite decide_False by done. cbn. split_and!.
  - intros tok e. rewrite delete_where_lookup. unfold in_family. by rewrite bool_decide_eq_false.
  - intros tok f. by rewrite delete_where_lookup, bool_decide_eq_false.
  - apply lookup_delete_eq.
  - apply delete_where_size.
Qed.

(** the store invariant holds in every state reachable from the empty store:
    live tokens are non-empty and carry their family marker, markers are not
    empty, and a positive MaxEntries is never exceeded. *)
Theorem refresh_store_invariant maxRot window maxEntries tr m :
  run (NewMemoryRefreshTokenStore maxRot window maxEntries) tr m ->
  wf m /\ (0 < maxEntries -> Z.of_nat (size (entries m)) <= maxEntries).
Proof.
  intros Hr. assert (wf m) as Hwf by (eapply wf_run; eauto using wf_new).
  split; [done|]. intros Hpos. destruct Hwf as [_ _ Hcap].
  assert (MaxEntries m = maxEntries) as <-; [|auto].
  eapply (run_invariant (fun m => MaxEntries m = maxEntries) (fun _ => True)); eauto; [by apply Forall_true|].
  intros m0 [t o] Hm _. destruct o as [|? []| | | | | | |]; simpl; auto;
    unfold Issue, Consume, DeleteFamily, RecordRotation, Inspect, DeleteAllForSubject,
      DeleteAllForClient, purge; by repeat case_match.
Qed.

(** ** The velocity cap *)

Definition rotates (fid : string) (o : op) : bool :=
  match o with OpRecordRotation f => bool_decide (f = fid) | _ => false end.
Definition kills (fid : string) (o : op) : bool :=
  match o with OpDeleteFamily f => bool_decide (f = fid) | _ => false end.

Definition rotation_count (fid : string) (tr : list (Z * op)) : nat :=
  length (filter (fun l => rotates fid l.2 = true) tr).

Lemma apply_op_rotations now o m fid :
  rotates fid o = false -> kills fid o = false ->
  rotations (apply_op now o m) !! fid = rotations m !! fid.
Proof.
  intros Hr Hk. destruct o as [|t [i|]|t|f|f|t|t|u c|c]; simpl in *; try done.
  - unfold Issue. by repeat case_match.
  - unfold Consume. by repeat case_match.
  - bool_simpl. unfold DeleteFamily. case_decide; [done|]. simpl. by rewrite lookup_delete_ne.
  - bool_simpl. unfold RecordRotation. case_decide; [done|]. simpl. by rewrite lookup_insert_ne.
  - unfold Inspect. by repeat case_match.
  - unfold DeleteAllForSubject. by case_decide.
  - unfold DeleteAllForClient. by case_decide.
Qed.

Lemma apply_op_config now o m :
  MaxRotationsPerWindow (apply_op now o m) = MaxRotationsPerWindow m /\
  RotationWindow (apply_op now o m) = RotationWindow m.
Proof.
  destruct o as [|t [i|]|t|f|f|t|t|u c|c]; simpl; auto;
    unfold Issue, Consume, DeleteFamily, RecordRotation, Inspect, DeleteAllForSubject,
      DeleteAllForClient, purge; by repeat case_match.
Qed.

(** One rotation inside a live window. *)
Lemma RecordRotation_in_window now fid m c t0 :
  fid <> "" -> rotations m !! fid = Some {| rw_count := c; rw_windowStart := t0 |} ->
  t0 <> 0 -> now - t0 < RotationWindow m <= GoTime.maxDuration ->
  (RecordRotation now fid m).1 =
    (c + 1, (0 <? MaxRotationsPerWindow m) && (0 <? RotationWindow m) &&
            (MaxRotationsPerWindow m <? c + 1)) /\
  rotations (RecordRotation now fid m).2 !! fid =
    Some {| rw_count := c + 1; rw_windowStart := t0 |}.
Proof.
  intros Hf Hw H0 [Hin Hmax]. unfold RecordRotation. rewrite decide_False by done. rewrite Hw. simpl.
  assert (GoTime.IsZero t0 = false) as Hz by by apply Z.eqb_neq.
  destruct (0 <? RotationWindow m) eqn:Hpos.
  - assert ((RotationWindow m <=? GoTime.Sub now t0) = false) as Hs.
    { apply Z.leb_gt, GoTime.Sub_lt; [|done]. bool_simpl. unfold GoTime.minDuration. lia. }
    rewrite Hz, Hs. cbn. rewrite Hz, lookup_insert_eq. done.
  - rewrite Hz. cbn. rewrite Hz, lookup_insert_eq. done.
Qed.

(** Rotations of one family, interleaved with anything but its revocation, are
    counted exactly while the window lasts. *)
Lemma rotation_window_count fid m tr m' c t0 :
  fid <> "" -> rotations m !! fid = Some {| rw_count := c; rw_windowStart := t0 |} ->
  t0 <> 0 -> RotationWindow m <= GoTime.maxDuration ->
  run m tr m' ->
  Forall (fun l => kills fid l.2 = false /\ l.1 - t0 < RotationWindow m) tr ->
  rotations m' !! fid =
    Some {| rw_count := c + Z.of_nat (rotation_count fid tr); rw_windowStart := t0 |} /\
  MaxRotationsPerWindow m' = MaxRotationsPerWindow m /\ RotationWindow m' = RotationWindow m.
Proof.
  intros Hf Hw H0 Hmax Hr. revert c Hw. induction Hr as [m|m1 [now o] m2 tr m3 Hs _ IH]; intros c Hw HQ.
  - unfold rotation_count. simpl. by rewrite Z.add_0_r.
  - inversion Hs; subst. apply Forall_cons in HQ as [[Hk Hin] HQ]. simpl in *.
    destruct (apply_op_config now o m1) as [Hc1 Hc2]. rewrite Hc1, Hc2 in IH.
    unfold rotation_count. rewrite filter_cons. simpl. case_decide as Hrot; simpl.
    + destruct o; try done. simpl in Hrot. bool_simpl. subst.
      destruct (RecordRotation_in_window now fid m1 c t0) as [_ Hstep]; [done..|].
      destruct (IH Hmax (c + 1) Hstep HQ) as [HIH ?]. split; [|done].
      rewrite HIH. f_equal. f_equal. unfold rotation_count. lia.
    + apply not_true_iff_false in Hrot.
      rewrite <- (apply_op_rotations now o m1 fid) in Hw by done. by apply IH.
Qed.

(** the rotation-velocity cap counts exactly.  From the first rotation of a
    family at [t0], through any interleaving of other operations that does not
    revoke the family, the next rotation within the window returns one more than
    the number of rotations recorded so far, and reports the cap as exceeded if
    and only if both limits are positive and the count is above the maximum. *)
Theorem rotation_velocity_exact fid m t0 tr m' now :
  fid <> "" -> t0 <> 0 -> rotations m !! fid = None ->
  RotationWindow m <= GoTime.maxDuration ->
  run (RecordRotation t0 fid m).2 tr m' ->
  Forall (fun l => kills fid l.2 = false /\ l.1 - t0 < RotationWindow m) tr ->
  now - t0 < RotationWindow m ->
  let count := 2 + Z.of_nat (rotation_count fid tr) in
  (RecordRotation now fid m').1 =
    (count, (0 <? MaxRotationsPerWindow m) && (0 <? RotationWindow m) &&
            (MaxRotationsPerWindow m <? count)).
Proof.
  intros Hf H0 Hnone Hmax Hr HQ Hnow count.
  assert (rotations (RecordRotation t0 fid m).2 !! fid =
          Some {| rw_count := 1; rw_windowStart := t0 |}) as Hfirst.
  { unfold RecordRotation. rewrite decide_False by done. rewrite Hnone. cbn.
    by rewrite lookup_insert_eq. }
  destruct (apply_op_config t0 (OpRecordRotation fid) m) as [Hc1 Hc2]. simpl in Hc1, Hc2.
  destruct (rotation_window_count fid _ tr m' 1 t0 Hf Hfirst H0) as (Hw & E1 & E2); rewrite ?Hc2; [done..|].
  rewrite Hc1 in E1. rewrite Hc2 in E2.
  destruct (RecordRotation_in_window now fid m' (1 + Z.of_nat (rotation_count fid tr)) t0) as [-> _];
    rewrite ?E2; [done..|].
  rewrite E1. replace (1 + Z.of_nat (rotation_count fid tr) + 1) with count by (unfold count; lia).
  done.
Qed.

(** ** Bulk revocation and the expiry calendar *)

(** logout-everywhere removes exactly the subject's tokens for the client (all
    clients when the client is empty), together with their reuse markers, counts
    them as CountForSubject would have, and an empty user id removes nothing. *)
Theorem DeleteAllForSubject_spec u c m :
  let n := (DeleteAllForSubject u c m).1 in
  let m' := (DeleteAllForSubject u c m).2 in
  n = CountForSubject u c m /\
  (forall tok e, entries m' !! tok = Some e <->
     entries m !! tok = Some e /\ ~ (u <> "" /\ rt_UserID e = u /\ (c = "" \/ rt_ClientID e = c))) /\
  (forall tok f, families m' !! tok = Some f <->
     families m !! tok = Some f /\
     ~ (exists e, entries m !! tok = Some e /\ entries m' !! tok = None)) /\
  CountForSubject u c m' = 0%nat.
Proof.
  unfold DeleteAllForSubject, CountForSubject. case_decide as Hu; simpl.
  { split_and!; [done| |naive_solver|done]. naive_solver. }
  assert (forall e, subject_match u c e = true <-> rt_UserID e = u /\ (c = "" \/ rt_ClientID e = c)) as Hm.
  { intros e. unfold subject_match. by rewrite andb_true_iff, orb_true_iff, !bool_decide_eq_true. }
  split_and!; [done|..].
  - intros tok e. rewrite delete_where_lookup, <- not_true_iff_false, Hm. naive_solver.
  - intros tok f. rewrite map_lookup_filter_Some. simpl. rewrite elem_of_dom.
    split; intros [Hf Hn]; split; [done| |done|]; intros Hx; apply Hn.
    + destruct Hx as (e & He & Hd). exists e. apply map_lookup_filter_Some. split; [done|].
      apply delete_where_None in Hd as [Hd|(e' & He' & HP)]; [congruence|].
      simpl. congruence.
    + destruct Hx as [e [He HP]%map_lookup_filter_Some]. exists e. split; [done|].
      apply delete_where_None. right. eauto.
  - apply count_where_zero. intros k e [_ He]%delete_where_lookup. done.
Qed.

(** the expiry calendar lists exactly the tokens that are still active and
    expire by the given instant, soonest first, and a positive limit keeps the
    soonest ones. *)
Theorem ListExpiring_spec now before limit m :
  StronglySorted expiry_le (ListExpiring now before limit m) /\
  (limit <= 0 ->
   forall x, x ∈ ListExpiring now before limit m <->
     exists tok e, entries m !! tok = Some e /\ now <= rt_ExpiresAt e <= before /\
                   x = expiry_of (tok, e)) /\
  (0 < limit ->
   exists rest, ListExpiring now before 0 m = ListExpiring now before limit m ++ rest /\
     Z.of_nat (length (ListExpiring now before limit m)) <= limit).
Proof.
  set (all := merge_sort expiry_le
    (expiry_of <$> filter (fun kv => expiring now before kv.2 = true) (map_to_list (entries m)))).
  assert (StronglySorted expiry_le all) as Hs by (apply StronglySorted_merge_sort; apply _).
  assert (forall n, StronglySorted expiry_le (take n all)) as Htake.
  { intros n. rewrite <- (take_drop n all) in Hs. by apply StronglySorted_app_1_l in Hs. }
  unfold ListExpiring. fold all. split_and!.
  - case_match; auto.
  - intros Hl x. rewrite (proj2 (Z.ltb_ge 0 limit)) by done. simpl. unfold all.
    rewrite merge_sort_Permutation, list_elem_of_fmap.
    setoid_rewrite list_elem_of_filter. unfold expiring, GoTime.After.
    split.
    + intros ([tok e] & -> & Hx & He). apply elem_of_map_to_list in He. simpl in Hx.
      apply negb_true_iff, orb_false_iff in Hx as [Hx1 Hx2]. exists tok, e.
      apply not_true_iff_false in Hx1. rewrite RefreshToken_IsExpired_spec in Hx1.
      bool_simpl. split_and!; [done|lia..|done].
    + intros (tok & e & He & Hb & ->). exists (tok, e). split; [done|].
      rewrite elem_of_map_to_list. split; [|done]. simpl.
      apply negb_true_iff, orb_false_iff. split; [|apply Z.ltb_ge; lia].
      apply not_true_iff_false. rewrite RefreshToken_IsExpired_spec. lia.
  - intros Hl. rewrite (proj2 (Z.ltb_lt 0 limit)) by done. simpl.
    destruct (limit <? _) eqn:E; bool_simpl.
    + exists (drop (Z.to_nat limit) all). rewrite take_drop. split; [done|].
      rewrite length_take. lia.
    + exists []. rewrite app_nil_r. split; [done|lia].
Qed.

(** ** Concrete instances *)

Definition sample_token (uid cid fid : string) (scopes : list string) (expires : Z) : RefreshToken := {|
  rt_UserID := uid; rt_ClientID := cid; rt_Provider := "pwd"; rt_Scopes := scopes;
  rt_Attributes := ∅; rt_IssuedAt := 1; rt_ExpiresAt := expires; rt_FamilyID := fid;
  rt_JTI := "jti"; rt_Resources := []; rt_AuthorizationDetails := ""; rt_SID := "";
  rt_Amr := ["pwd"]; rt_Acr := ""; rt_AuthTime := 1; rt_ConfirmationJKT := "";
  rt_Generation := 0; rt_FamilyCreatedAt := 1; rt_Roles := [] |}.

Definition sample_info : RefreshToken := sample_token "alice" "app" "fam" ["openid"] 1000.

Definition sample_store : MemoryRefreshTokenStore :=
  (Issue "t1" (Some sample_info) (NewMemoryRefreshTokenStore 2 50 0)).2.

Lemma sample_store_wf : wf sample_store.
Proof. apply wf_Issue, wf_new. Qed.

Definition sample_trace : list (Z * op) :=
  [(20, OpIssue "t2" (Some sample_info)); (21, OpRecordRotation "fam"); (22, OpConsume "t2");
   (23, OpDeleteAllForSubject "alice" "")].

Lemma refresh_single_use_witness :
  exists e, (Consume 30 "t1" (apply_trace (Consume 10 "t1" sample_store).2 sample_trace)).1.2 = Some e.
Proof.
  apply (refresh_single_use sample_store 10 "t1" sample_trace).
  - by apply run_apply_trace.
  - repeat constructor.
Defined.

Lemma refresh_reuse_detected_witness :
  (Consume 30 "t1" (apply_trace (Consume 10 "t1" sample_store).2 sample_trace)).1 =
  (Some (family_only "fam"), Some ErrRefreshTokenReused).
Proof.
  apply (refresh_reuse_detected sample_store 10 "t1" sample_info sample_trace).
  - exact sample_store_wf.
  - vm_compute. reflexivity.
  - discriminate.
  - by apply run_apply_trace.
  - repeat constructor.
Defined.

Lemma DeleteFamily_spec_witness :
  "fam" <> "" /\ (DeleteFamily "fam" sample_store).1 = 1%nat /\
  rotations (DeleteFamily "fam" sample_store).2 !! "fam" = None.
Proof.
  split; [discriminate|]. split; [vm_compute; reflexivity|].
  apply (DeleteFamily_spec "fam" sample_store). discriminate.
Defined.

Lemma refresh_store_invariant_witness :
  wf (apply_trace (NewMemoryRefreshTokenStore 2 50 1) sample_trace) /\
  Z.of_nat (size (entries (apply_trace (NewMemoryRefreshTokenStore 2 50 1) sample_trace))) <= 1.
Proof.
  destruct (refresh_store_invariant 2 50 1 sample_trace
              (apply_trace (NewMemoryRefreshTokenStore 2 50 1) sample_trace)) as [Hwf Hcap].
  - by apply run_apply_trace.
  - split; [exact Hwf|]. apply Hcap. lia.
Defined.

Lemma rotation_velocity_exact_witness :
  (RecordRotation 40 "fam"
     (apply_trace (RecordRotation 15 "fam" sample_store).2 sample_trace)).1 = (3, true).
Proof.
  apply (rotation_velocity_exact "fam" sample_store 15 sample_trace).
  - discriminate.
  - discriminate.
  - vm_compute. reflexivity.
  - vm_compute. discriminate.
  - by apply run_apply_trace.
  - repeat constructor; vm_compute; reflexivity.
  - vm_compute. reflexivity.
Defined.
