(* ===== verification/CodeStores.v ===== *)
(** * CodeStores: the one-shot credential stores.

    Authorization codes ([oauthspi/auth_code.go], [memory_auth_code.go]) and
    pushed authorization requests ([oauthspi/par.go], [memory_par.go]) live in
    a sharded map; native-SSO device secrets ([core/device_secret.go],
    [memory_device_secret_store.go]) in a plain one.  All three promise the
    same thing to the token endpoint: what is consumed once is gone.  That
    promise is the class [OneShot]; the single-use theorem is proved once
    against it, and each store is an instance. *)
From S2P Require Import Prelude Crypto Core Sharded.
Local Open Scope Z_scope.

(** ** Authorization codes *)

Record AuthCode := {
  ac_UserID : string;
  ac_ClientID : string;
  ac_RedirectURI : string;
  ac_Scopes : list string;
  ac_Nonce : string;
  ac_Provider : string;
  ac_Attributes : gmap string string;
  ac_AuthTime : Z;
  ac_CodeChallenge : string;
  ac_CodeChallengeMethod : string;
  ac_Resources : list string;
  ac_AuthMethods : list string;
  ac_ACR : string;
  ac_AuthorizationDetails : string;
  ac_SID : string;
  ac_ConfirmationJKT : string;
  ac_RequestedClaims : string;
  ac_ExpiresAt : Z;
}.

Definition AuthCode_IsExpired (now : Z) (c : AuthCode) : bool :=
  0 <? GoTime.Since now (ac_ExpiresAt c).

Inductive code_error := ErrAuthCodeNotFound | ErrPARNotFound | ErrDeviceSecretNotFound
                      | ErrCodeStoreAtCapacity | ErrRand.

Record MemoryAuthCodeStore := {
  acs_MaxEntries : Z;
  acs_entries : shardedMap AuthCode;
}.

Definition NewMemoryAuthCodeStore (maxEntries : Z) : MemoryAuthCodeStore :=
  {| acs_MaxEntries := maxEntries; acs_entries := newShardedMap |}.

(** The reaper's callback. *)
Definition ReapAuthCodes (now : Z) (m : MemoryAuthCodeStore) : MemoryAuthCodeStore :=
  {| acs_MaxEntries := acs_MaxEntries m;
     acs_entries := DeleteExpired (acs_entries m) (AuthCode_IsExpired now) |}.

Definition IssueCode (code : string) (info : option AuthCode) (m : MemoryAuthCodeStore)
    : option code_error * MemoryAuthCodeStore :=
  match info with
  | None => (Some ErrAuthCodeNotFound, m)
  | Some info =>
      if decide (code = "") then (Some ErrAuthCodeNotFound, m)
      else if (0 <? acs_MaxEntries m) && (acs_MaxEntries m <=? Z.of_nat (Len (acs_entries m)))
      then (Some ErrCodeStoreAtCapacity, m)
      else (None, {| acs_MaxEntries := acs_MaxEntries m;
                     acs_entries := Store (acs_entries m) code info |})
  end.

Definition ConsumeCode (now : Z) (code : string) (m : MemoryAuthCodeStore)
    : result code_error AuthCode * MemoryAuthCodeStore :=
  let '(entry, es) := LoadAndDelete (acs_entries m) code in
  let m' := {| acs_MaxEntries := acs_MaxEntries m; acs_entries := es |} in
  match entry with
  | None => (Err ErrAuthCodeNotFound, m')
  | Some entry =>
      if AuthCode_IsExpired now entry then (Err ErrAuthCodeNotFound, m') else (Ok entry, m')
  end.

(** ** Pushed authorization requests *)

Record PARRequest := {
  par_ClientID : string;
  par_ResponseType : string;
  par_RedirectURI : string;
  par_Scope : list string;
  par_State : string;
  par_Nonce : string;
  par_CodeChallenge : string;
  par_CodeChallengeMethod : string;
  par_Resource : list string;
  par_AuthorizationDetails : string;
  par_LoginHint : string;
  par_ResponseMode : string;
  par_ACRValues : string;
  par_UILocales : string;
  par_Claims : string;
  par_ExpiresAt : Z;
}.

Definition PARRequest_IsExpired (now : Z) (p : PARRequest) : bool :=
  0 <? GoTime.Since now (par_ExpiresAt p).

Definition PARURIPrefix : string := "urn:ietf:params:oauth:request_uri:".

Record MemoryPARStore := {
  pars_MaxEntries : Z;
  pars_entries : shardedMap PARRequest;
}.

Definition ReapPAR (now : Z) (m : MemoryPARStore) : MemoryPARStore :=
  {| pars_MaxEntries := pars_MaxEntries m;
     pars_entries := DeleteExpired (pars_entries m) (PARRequest_IsExpired now) |}.

(** [tok] is the outcome of [GeneratePARToken]: [None] when the system's random
    source fails. *)
Definition IssuePAR (tok : option string) (req : option PARRequest) (m : MemoryPARStore)
    : result code_error string * MemoryPARStore :=
  match req with
  | None => (Err ErrPARNotFound, m)
  | Some req =>
      if (0 <? pars_MaxEntries m) && (pars_MaxEntries m <=? Z.of_nat (Len (pars_entries m)))
      then (Err ErrCodeStoreAtCapacity, m)
      else match tok with
           | None => (Err ErrRand, m)
           | Some tok =>
               let uri := PARURIPrefix +:+ tok in
               (Ok uri, {| pars_MaxEntries := pars_MaxEntries m;
                           pars_entries := Store (pars_entries m) uri req |})
           end
  end.

Definition ConsumePAR (now : Z) (requestURI : string) (m : MemoryPARStore)
    : result code_error PARRequest * MemoryPARStore :=
  let '(entry, es) := LoadAndDelete (pars_entries m) requestURI in
  let m' := {| pars_MaxEntries := pars_MaxEntries m; pars_entries := es |} in
  match entry with
  | None => (Err ErrPARNotFound, m')
  | Some entry =>
      if PARRequest_IsExpired now entry then (Err ErrPARNotFound, m') else (Ok entry, m')
  end.

(** ** Device secrets *)

Record MemoryDeviceSecretStore := { dss_secrets : gmap string DeviceSecret }.

Definition IssueSecret (ds : DeviceSecret) (m : MemoryDeviceSecretStore) : MemoryDeviceSecretStore :=
  {| dss_secrets := <[ds_Secret ds := ds]> (dss_secrets m) |}.

Definition ConsumeSecret (now : Z) (secret : string) (m : MemoryDeviceSecretStore)
    : result code_error DeviceSecret * MemoryDeviceSecretStore :=
  match dss_secrets m !! secret with
  | None => (Err ErrDeviceSecretNotFound, m)
  | Some ds =>
      let m' := {| dss_secrets := delete secret (dss_secrets m) |} in
      if DeviceSecret_IsExpired now ds then (Err ErrDeviceSecretNotFound, m') else (Ok ds, m')
  end.

Definition RevokeBySubject (subject : string) (m : MemoryDeviceSecretStore)
    : nat * MemoryDeviceSecretStore :=
  let P d := bool_decide (ds_Subject d = subject) in
  (count_where P (dss_secrets m), {| dss_secrets := delete_where P (dss_secrets m) |}).

(** ** The one-shot contract *)

(** What a one-shot store promises, through the map of records it holds. *)
Class OneShot (S V : Type) := {
  os_valid : S -> Prop;                     (* representation invariant *)
  os_map : S -> gmap string V;              (* the records held *)
  os_consume : Z -> string -> S -> result code_error V * S;
  os_expired : Z -> V -> bool;
  os_sweep : Z -> S -> S;
  os_consume_valid : forall now k s, os_valid s -> os_valid (os_consume now k s).2;
  os_consume_map : forall now k s, os_valid s ->
    os_map (os_consume now k s).2 = delete k (os_map s);
  os_consume_value : forall now k s v, os_valid s ->
    (os_consume now k s).1 = Ok v <-> os_map s !! k = Some v /\ os_expired now v = false;
  os_sweep_valid : forall now s, os_valid s -> os_valid (os_sweep now s);
  os_sweep_map : forall now s, os_valid s -> os_map (os_sweep now s) ⊆ os_map s;
  os_sweep_keeps : forall now s k v, os_valid s ->
    os_map s !! k = Some v -> os_expired now v = false -> os_map (os_sweep now s) !! k = Some v;
}.

Section one_shot.
Context {S V : Type} `{!OneShot S V}.

Lemma consume_missing now k s :
  os_valid s -> os_map s !! k = None -> is_ok (os_consume now k s).1 = false.
Proof.
  intros Hs Hk. destruct (os_consume now k s).1 as [v|e] eqn:E; [|done].
  apply os_consume_value in E as [E _]; [congruence|done].
Qed.

(** A history of consumption attempts and sweeps. *)
Inductive use := UseConsume (now : Z) (k : string) | UseSweep (now : Z).
Definition use_step (s : S) (u : use) : S :=
  match u with UseConsume now k => (os_consume now k s).2 | UseSweep now => os_sweep now s end.

(** How often a history of uses obtains the record under [k]. *)
Fixpoint successes (k : string) (s : S) (us : list use) : nat :=
  match us with
  | [] => 0
  | u :: us =>
      (match u with
       | UseConsume now k' =>
           if bool_decide (k' = k) && is_ok (os_consume now k' s).1 then 1 else 0
       | UseSweep _ => 0
       end + successes k (use_step s u) us)%nat
  end.

Lemma use_step_valid s u : os_valid s -> os_valid (use_step s u).
Proof. destruct u; simpl; auto using os_consume_valid, os_sweep_valid. Qed.

Lemma use_step_missing k s u :
  os_valid s -> os_map s !! k = None -> os_map (use_step s u) !! k = None.
Proof.
  intros Hs Hk. destruct u as [now k'|now]; simpl.
  - rewrite os_consume_map by done. apply lookup_delete_None. by right.
  - eapply lookup_weaken_None; [done|]. by apply os_sweep_map.
Qed.

Lemma successes_missing k us s :
  os_valid s -> os_map s !! k = None -> successes k s us = 0%nat.
Proof.
  revert s. induction us as [|u us IH]; intros s Hs Hk; [done|]. simpl.
  rewrite IH by auto using use_step_valid, use_step_missing.
  destruct u as [now k'|]; [|done]. case_bool_decide as E; [|done]. subst.
  by rewrite consume_missing.
Qed.

Lemma at_most_once k us s : os_valid s -> (successes k s us <= 1)%nat.
Proof.
  revert s. induction us as [|u us IH]; intros s Hs; simpl; [lia|].
  destruct u as [now k'|now]; [|apply IH; by apply use_step_valid].
  case_bool_decide as E; [subst|apply IH; by apply use_step_valid].
  rewrite successes_missing; [by case_match; simpl; lia|by apply use_step_valid|].
  simpl. rewrite os_consume_map by done. apply lookup_delete_eq.
Qed.
End one_shot.

#[export] Program Instance AuthCode_OneShot : OneShot MemoryAuthCodeStore AuthCode := {|
  os_valid m := placed (acs_entries m);
  os_map m := denote (acs_entries m);
  os_consume := ConsumeCode;
  os_expired := AuthCode_IsExpired;
  os_sweep := ReapAuthCodes;
|}.
Next Obligation.
  intros now k s Hs. unfold ConsumeCode.
  pose proof (placed_LoadAndDelete (acs_entries s) k Hs).
  destruct (LoadAndDelete _ _) as [[]]; simpl in *; by repeat case_match.
Qed.
Next Obligation.
  intros now k s Hs. cbn. rewrite <- denote_LoadAndDelete by done. unfold ConsumeCode.
  destruct (LoadAndDelete _ _) as [[]]; simpl; by repeat case_match.
Qed.
Next Obligation.
  intros now k s v Hs. cbn. rewrite <- LoadAndDelete_value by done. unfold ConsumeCode.
  destruct (LoadAndDelete _ _) as [[c|] ?]; simpl.
  - destruct (_ now c) eqn:E; simpl; split; [done|intros [[= ->] ?]; congruence|..];
      [intros [= ->]; done|intros [[= ->] ?]; done].
  - split; [done|]. by intros [? _].
Qed.
Next Obligation. intros now s Hs. by apply placed_DeleteExpired. Qed.
Next Obligation.
  intros now s Hs. cbn. rewrite denote_DeleteExpired by done. apply map_filter_subseteq.
Qed.
Next Obligation.
  intros now s k v Hs Hk He. cbn. rewrite denote_DeleteExpired by done.
  by apply delete_where_lookup.
Qed.

#[export] Program Instance PAR_OneShot : OneShot MemoryPARStore PARRequest := {|
  os_valid m := placed (pars_entries m);
  os_map m := denote (pars_entries m);
  os_consume := ConsumePAR;
  os_expired := PARRequest_IsExpired;
  os_sweep := ReapPAR;
|}.
Next Obligation.
  intros now k s Hs. unfold ConsumePAR.
  pose proof (placed_LoadAndDelete (pars_entries s) k Hs).
  destruct (LoadAndDelete _ _) as [[]]; simpl in *; by repeat case_match.
Qed.
Next Obligation.
  intros now k s Hs. cbn. rewrite <- denote_LoadAndDelete by done. unfold ConsumePAR.
  destruct (LoadAndDelete _ _) as [[]]; simpl; by repeat case_match.
Qed.
Next Obligation.
  intros now k s v Hs. cbn. rewrite <- LoadAndDelete_value by done. unfold ConsumePAR.
  destruct (LoadAndDelete _ _) as [[c|] ?]; simpl.
  - destruct (_ now c) eqn:E; simpl; split; [done|intros [[= ->] ?]; congruence|..];
      [intros [= ->]; done|intros [[= ->] ?]; done].
  - split; [done|]. by intros [? _].
Qed.
Next Obligation. intros now s Hs. by apply placed_DeleteExpired. Qed.
Next Obligation.
  intros now s Hs. cbn. rewrite denote_DeleteExpired by done. apply map_filter_subseteq.
Qed.
Next Obligation.
  intros now s k v Hs Hk He. cbn. rewrite denote_DeleteExpired by done.
  by apply delete_where_lookup.
Qed.

Lemma ConsumeSecret_map now k m :
  dss_secrets (ConsumeSecret now k m).2 = delete k (dss_secrets m).
Proof.
  unfold ConsumeSecret. destruct (dss_secrets m !! k) eqn:E.
  - by case_match.
  - simpl. by rewrite delete_id.
Qed.

Lemma ConsumeSecret_value now k m v :
  (ConsumeSecret now k m).1 = Ok v <->
  dss_secrets m !! k = Some v /\ DeviceSecret_IsExpired now v = false.
Proof.
  unfold ConsumeSecret. destruct (dss_secrets m !! k) as [d|]; simpl.
  - destruct (DeviceSecret_IsExpired now d) eqn:E; simpl; split;
      [done|intros [[= ->] ?]; congruence|intros [= ->]; done|intros [[= ->] ?]; done].
  - split; [done|]. by intros [? _].
Qed.

(** The device-secret store has no reaper: its sweep is the identity. *)
#[export] Program Instance DeviceSecret_OneShot : OneShot MemoryDeviceSecretStore DeviceSecret := {|
  os_valid _ := True;
  os_map := dss_secrets;
  os_consume := ConsumeSecret;
  os_expired := DeviceSecret_IsExpired;
  os_sweep _ s := s;
|}.
Next Obligation. done. Qed.
Next Obligation. intros now k s _. apply ConsumeSecret_map. Qed.
Next Obligation. intros now k s v _. apply ConsumeSecret_value. Qed.
Next Obligation. done. Qed.
Next Obligation. done. Qed.
Next Obligation. done. Qed.

(** ** Properties *)

Lemma placed_IssueCode code info m :
  placed (acs_entries m) -> placed (acs_entries (IssueCode code info m).2).
Proof.
  intros Hm. unfold IssueCode. repeat case_match; try done. by apply placed_Store.
Qed.

(** an authorization code is redeemed at most once: over any history of
    consumption attempts (by any parties, at any times) and reaper sweeps, a
    given code string yields its record at most one time. *)
Theorem auth_code_single_use (m : MemoryAuthCodeStore) (code : string) (history : list use) :
  placed (acs_entries m) -> (successes code m history <= 1)%nat.
Proof. intros Hm. by apply (at_most_once (S := MemoryAuthCodeStore) (V := AuthCode)). Qed.

(** issuing and redeeming a code round-trips: a code accepted by a bounded
    store is returned unchanged by the next consumption up to and including its
    expiry instant and refused afterwards; a full store refuses the code and is
    left unchanged. *)
Theorem auth_code_issue_consume now code info m :
  placed (acs_entries m) -> code <> "" ->
  let full := 0 < acs_MaxEntries m /\ acs_MaxEntries m <= Z.of_nat (size (denote (acs_entries m))) in
  (~ full ->
     (IssueCode code (Some info) m).1 = None /\
     (ConsumeCode now code (IssueCode code (Some info) m).2).1 =
       (if ac_ExpiresAt info <? now then Err ErrAuthCodeNotFound else Ok info)) /\
  (full -> IssueCode code (Some info) m = (Some ErrCodeStoreAtCapacity, m)).
Proof.
  intros Hm Hc full.
  assert (Len (acs_entries m) = size (denote (acs_entries m))) as HL.
  { apply placed_from_0 in Hm as [_ Hp]. by apply (sum_size_denote 0). }
  assert ((0 <? acs_MaxEntries m) && (acs_MaxEntries m <=? Z.of_nat (Len (acs_entries m))) = true
          <-> full) as Hfull.
  { rewrite HL, andb_true_iff, Z.ltb_lt, Z.leb_le. done. }
  unfold IssueCode. rewrite decide_False by done. split; intros Hf.
  - rewrite (not_true_is_false _ (fun E => Hf (proj1 Hfull E))).
    split; [done|]. unfold ConsumeCode. cbn.
    pose proof (LoadAndDelete_value (Store (acs_entries m) code info) code
                  (placed_Store _ _ _ Hm)) as Hv.
    rewrite denote_Store, lookup_insert_eq in Hv by done.
    destruct (LoadAndDelete _ _) as [e es]. simpl in Hv. subst e.
    unfold AuthCode_IsExpired. rewrite GoTime.Since_pos_spec. by case_match.
  - by rewrite (proj2 Hfull Hf).
Qed.

Definition sample_code (cid redirect challenge method : string) (scopes : list string) (expires : Z) : AuthCode := {|
  ac_UserID := "alice"; ac_ClientID := cid; ac_RedirectURI := redirect; ac_Scopes := scopes;
  ac_Nonce := "n"; ac_Provider := "pwd"; ac_Attributes := ∅; ac_AuthTime := 5;
  ac_CodeChallenge := challenge; ac_CodeChallengeMethod := method; ac_Resources := [];
  ac_AuthMethods := ["pwd"]; ac_ACR := ""; ac_AuthorizationDetails := ""; ac_SID := "";
  ac_ConfirmationJKT := ""; ac_RequestedClaims := ""; ac_ExpiresAt := expires |}.

Definition sample_code_store : MemoryAuthCodeStore :=
  (IssueCode "c1" (Some (sample_code "app" "https://app/cb" "" "" ["openid"] 1000))
     (NewMemoryAuthCodeStore 10)).2.

Lemma sample_code_store_placed : placed (acs_entries sample_code_store).
Proof. apply placed_IssueCode, placed_new. Qed.

Lemma auth_code_single_use_witness :
  (successes "c1" sample_code_store [UseConsume 7 "c1"; UseSweep 8; UseConsume 9 "c1"] <= 1)%nat.
Proof. apply auth_code_single_use. exact sample_code_store_placed. Defined.

Lemma auth_code_issue_consume_witness :
  (ConsumeCode 9 "c2" (IssueCode "c2" (Some (sample_code "app" "" "" "" [] 9)) sample_code_store).2).1
  = Ok (sample_code "app" "" "" "" [] 9).
Proof.
  destruct (auth_code_issue_consume 9 "c2" (sample_code "app" "" "" "" [] 9) sample_code_store)
    as [H _]; [exact sample_code_store_placed|discriminate|].
  apply H. intros [_ Hs]. revert Hs. vm_compute. intros Hs. by apply Hs.
Defined.
