(* ===== verification/DeviceCodes.v ===== *)
(** * DeviceCodes: RFC 8628 device codes and their in-memory store
    ([oauthspi/device_code.go], [oauthspi/device_codes.go],
    [memorystoreoauth/memory_device_code.go]).

    The store's two maps, by device code and by user code, hold pointers to one
    shared entry: approving through the user code is seen by the poll through
    the device code.  The sharing is kept: [dcs_heap] is the store of entries,
    and the maps give locations in it. *)
From S2P Require Import Prelude Core.
Local Open Scope Z_scope.

Record DeviceCode := {
  dc_DeviceCode : string;
  dc_UserCode : string;
  dc_ClientID : string;
  dc_Scopes : list string;
  dc_Nonce : string;
  dc_UserID : string;
  dc_Provider : string;
  dc_Attributes : gmap string string;
  dc_Approved : bool;
  dc_Denied : bool;
  dc_LastPoll : Z;
  dc_Interval : Z;
  dc_Resources : list string;
  dc_ExpiresAt : Z;
}.

Definition DeviceCode_IsExpired (now : Z) (d : DeviceCode) : bool :=
  0 <? GoTime.Since now (dc_ExpiresAt d).

Inductive device_error := ErrDeviceCodeNotFound | ErrDeviceStoreAtCapacity.

Record MemoryDeviceCodeStore := {
  dcs_MaxEntries : Z;
  dcs_heap : gmap positive DeviceCode;
  byDeviceCode : gmap string positive;
  byUserCode : gmap string positive;
}.

Definition NewMemoryDeviceCodeStore (maxEntries : Z) : MemoryDeviceCodeStore :=
  {| dcs_MaxEntries := maxEntries; dcs_heap := ∅; byDeviceCode := ∅; byUserCode := ∅ |}.

Definition with_indexes (m : MemoryDeviceCodeStore) byD byU : MemoryDeviceCodeStore :=
  {| dcs_MaxEntries := dcs_MaxEntries m; dcs_heap := dcs_heap m;
     byDeviceCode := byD; byUserCode := byU |}.

(** [*p = e] for an entry pointer [p]. *)
Definition write (p : positive) (e : DeviceCode) (m : MemoryDeviceCodeStore) : MemoryDeviceCodeStore :=
  {| dcs_MaxEntries := dcs_MaxEntries m; dcs_heap := <[p := e]> (dcs_heap m);
     byDeviceCode := byDeviceCode m; byUserCode := byUserCode m |}.

(** Following an index to its entry. *)
Definition by_device (m : MemoryDeviceCodeStore) (code : string) : option (positive * DeviceCode) :=
  p ← byDeviceCode m !! code; e ← dcs_heap m !! p; Some (p, e).
Definition by_user (m : MemoryDeviceCodeStore) (code : string) : option (positive * DeviceCode) :=
  p ← byUserCode m !! code; e ← dcs_heap m !! p; Some (p, e).

Definition set_approved (userID provider : string) (attributes : gmap string string) (d : DeviceCode) : DeviceCode :=
  {| dc_DeviceCode := dc_DeviceCode d; dc_UserCode := dc_UserCode d; dc_ClientID := dc_ClientID d;
     dc_Scopes := dc_Scopes d; dc_Nonce := dc_Nonce d; dc_UserID := userID; dc_Provider := provider;
     dc_Attributes := attributes; dc_Approved := true; dc_Denied := dc_Denied d;
     dc_LastPoll := dc_LastPoll d; dc_Interval := dc_Interval d; dc_Resources := dc_Resources d;
     dc_ExpiresAt := dc_ExpiresAt d |}.
Definition set_denied (d : DeviceCode) : DeviceCode :=
  {| dc_DeviceCode := dc_DeviceCode d; dc_UserCode := dc_UserCode d; dc_ClientID := dc_ClientID d;
     dc_Scopes := dc_Scopes d; dc_Nonce := dc_Nonce d; dc_UserID := dc_UserID d; dc_Provider := dc_Provider d;
     dc_Attributes := dc_Attributes d; dc_Approved := dc_Approved d; dc_Denied := true;
     dc_LastPoll := dc_LastPoll d; dc_Interval := dc_Interval d; dc_Resources := dc_Resources d;
     dc_ExpiresAt := dc_ExpiresAt d |}.
Definition set_last_poll (t : Z) (d : DeviceCode) : DeviceCode :=
  {| dc_DeviceCode := dc_DeviceCode d; dc_UserCode := dc_UserCode d; dc_ClientID := dc_ClientID d;
     dc_Scopes := dc_Scopes d; dc_Nonce := dc_Nonce d; dc_UserID := dc_UserID d; dc_Provider := dc_Provider d;
     dc_Attributes := dc_Attributes d; dc_Approved := dc_Approved d; dc_Denied := dc_Denied d;
     dc_LastPoll := t; dc_Interval := dc_Interval d; dc_Resources := dc_Resources d;
     dc_ExpiresAt := dc_ExpiresAt d |}.

(** ** Operations *)

Definition sweepExpiredDevices (now : Z) (m : MemoryDeviceCodeStore) : MemoryDeviceCodeStore :=
  let stale := filter (fun kv => default false (DeviceCode_IsExpired now <$> dcs_heap m !! kv.2) = true)
                      (byDeviceCode m) in
  let users : gset string := list_to_set ((fun kv => default "" (dc_UserCode <$> dcs_heap m !! kv.2))
                                            <$> map_to_list stale) in
  with_indexes m (byDeviceCode m ∖ stale) (filter (fun kv => kv.1 ∉ users) (byUserCode m)).

Definition IssueDevice (dc : option DeviceCode) (m : MemoryDeviceCodeStore)
    : option device_error * MemoryDeviceCodeStore :=
  match dc with
  | None => (Some ErrDeviceCodeNotFound, m)
  | Some dc =>
      if bool_decide (dc_DeviceCode dc = "") || bool_decide (dc_UserCode dc = "")
      then (Some ErrDeviceCodeNotFound, m)
      else if (0 <? dcs_MaxEntries m) && bool_decide (byDeviceCode m !! dc_DeviceCode dc = None)
              && (dcs_MaxEntries m <=? Z.of_nat (size (byDeviceCode m)))
      then (Some ErrDeviceStoreAtCapacity, m)
      else
        let p := fresh (dom (dcs_heap m)) in
        (None, {| dcs_MaxEntries := dcs_MaxEntries m; dcs_heap := <[p := dc]> (dcs_heap m);
                  byDeviceCode := <[dc_DeviceCode dc := p]> (byDeviceCode m);
                  byUserCode := <[dc_UserCode dc := p]> (byUserCode m) |})
  end.

Definition live (now : Z) (o : option (positive * DeviceCode)) : result device_error DeviceCode :=
  match o with
  | Some (_, e) => if DeviceCode_IsExpired now e then Err ErrDeviceCodeNotFound else Ok e
  | None => Err ErrDeviceCodeNotFound
  end.

Definition GetByDeviceCode (now : Z) (code : string) (m : MemoryDeviceCodeStore)
    : result device_error DeviceCode := live now (by_device m code).

Definition GetByUserCode (now : Z) (code : string) (m : MemoryDeviceCodeStore)
    : result device_error DeviceCode := live now (by_user m code).

Definition Approve (now : Z) (userCode userID provider : string) (attributes : gmap string string)
    (m : MemoryDeviceCodeStore) : option device_error * MemoryDeviceCodeStore :=
  match by_user m userCode with
  | Some (p, e) =>
      if DeviceCode_IsExpired now e then (Some ErrDeviceCodeNotFound, m)
      else (None, write p (set_approved userID provider attributes e) m)
  | None => (Some ErrDeviceCodeNotFound, m)
  end.

Definition Deny (now : Z) (userCode : string) (m : MemoryDeviceCodeStore)
    : option device_error * MemoryDeviceCodeStore :=
  match by_user m userCode with
  | Some (p, e) =>
      if DeviceCode_IsExpired now e then (Some ErrDeviceCodeNotFound, m)
      else (None, write p (set_denied e) m)
  | None => (Some ErrDeviceCodeNotFound, m)
  end.

Definition UpdateLastPoll (deviceCode : string) (t : Z) (m : MemoryDeviceCodeStore)
    : option device_error * MemoryDeviceCodeStore :=
  match by_device m deviceCode with
  | Some (p, e) => (None, write p (set_last_poll t e) m)
  | None => (Some ErrDeviceCodeNotFound, m)
  end.

Definition drop_code (deviceCode : string) (e : DeviceCode) (m : MemoryDeviceCodeStore) : MemoryDeviceCodeStore :=
  with_indexes m (delete deviceCode (byDeviceCode m)) (delete (dc_UserCode e) (byUserCode m)).

Definition DeleteDevice (deviceCode : string) (m : MemoryDeviceCodeStore) : MemoryDeviceCodeStore :=
  match by_device m deviceCode with
  | Some (_, e) => drop_code deviceCode e m
  | None => m
  end.

Definition ConsumeIfApproved (now : Z) (deviceCode : string) (m : MemoryDeviceCodeStore)
    : result device_error DeviceCode * MemoryDeviceCodeStore :=
  match by_device m deviceCode with
  | Some (_, e) =>
      if DeviceCode_IsExpired now e || negb (dc_Approved e)
      then (Err ErrDeviceCodeNotFound, m)
      else (Ok e, drop_code deviceCode e m)
  | None => (Err ErrDeviceCodeNotFound, m)
  end.

(** ** User codes *)

Definition upper (c : ascii) : ascii :=
  let b := Str.byte c in
  if decide (97 <= b <= 122) then Ascii.ascii_of_N (Z.to_N (b - 32)) else c.

(** [NormalizeUserCode], on ASCII input (a user code has no other letters). *)
Definition NormalizeUserCode (s : string) : string :=
  Str.of_list (upper <$> filter (fun c => c <> "-"%char) (Str.to_list s)).

Definition UserCodeAlphabet : list ascii := Str.to_list "BCDFGHJKMNPQRSTVWXYZ23456789".

(** [GenerateUserCode], given the eight draws of [rand.Int]. *)
Definition user_code_of (draws : list nat) : string :=
  let out := (fun n => nth n UserCodeAlphabet "B"%char) <$> draws in
  Str.of_list (take 4 out) +:+ "-" +:+ Str.of_list (drop 4 out).

(** ** The store as a state machine *)

Inductive device_op :=
| DSweep
| DIssue (dc : option DeviceCode)
| DApprove (userCode userID provider : string) (attributes : gmap string string)
| DDeny (userCode : string)
| DPoll (deviceCode : string) (t : Z)
| DDelete (deviceCode : string)
| DConsume (deviceCode : string).

Definition device_step (now : Z) (o : device_op) (m : MemoryDeviceCodeStore) : MemoryDeviceCodeStore :=
  match o with
  | DSweep => sweepExpiredDevices now m
  | DIssue dc => (IssueDevice dc m).2
  | DApprove uc u p a => (Approve now uc u p a m).2
  | DDeny uc => (Deny now uc m).2
  | DPoll c t => (UpdateLastPoll c t m).2
  | DDelete c => DeleteDevice c m
  | DConsume c => (ConsumeIfApproved now c m).2
  end.

Inductive device_run : MemoryDeviceCodeStore -> list (Z * device_op) -> MemoryDeviceCodeStore -> Prop :=
| device_run_nil m : device_run m [] m
| device_run_cons m now o tr m' :
    device_run (device_step now o m) tr m' -> device_run m ((now, o) :: tr) m'.

Definition issues_code (code : string) (o : device_op) : bool :=
  match o with DIssue (Some dc) => bool_decide (dc_DeviceCode dc = code) | _ => false end.

Lemma device_step_gone now o m code :
  issues_code code o = false -> byDeviceCode m !! code = None ->
  byDeviceCode (device_step now o m) !! code = None.
Proof.
  intros Hi Hn.
  assert (forall c e, byDeviceCode (drop_code c e m) !! code = None) as Hdrop.
  { intros c e. apply lookup_delete_None. by right. }
  destruct o as [|[dc|]|uc u p a|uc|c t|c|c]; simpl in *; try done.
  - apply lookup_difference_None. by left.
  - bool_simpl. unfold IssueDevice. repeat case_match; simpl; first [done|by rewrite lookup_insert_ne].
  - unfold Approve. by repeat case_match.
  - unfold Deny. by repeat case_match.
  - unfold UpdateLastPoll. by repeat case_match.
  - unfold DeleteDevice. repeat case_match; first [done|by eapply Hdrop; eauto].
  - unfold ConsumeIfApproved. repeat case_match; first [done|by eapply Hdrop; eauto].
Qed.

Lemma device_run_gone m tr m' code :
  device_run m tr m' -> Forall (fun l => issues_code code l.2 = false) tr ->
  byDeviceCode m !! code = None -> byDeviceCode m' !! code = None.
Proof.
  induction 1 as [|m now o tr m' _ IH]; intros HQ Hn; [done|].
  apply Forall_cons in HQ as [Ho HQ]. apply IH; [done|]. by apply device_step_gone.
Qed.

Lemma ConsumeIfApproved_gone now code m :
  byDeviceCode m !! code = None -> ConsumeIfApproved now code m = (Err ErrDeviceCodeNotFound, m).
Proof. intros Hn. unfold ConsumeIfApproved, by_device. by rewrite Hn. Qed.

Lemma DeviceCode_IsExpired_spec now d :
  DeviceCode_IsExpired now d = true <-> dc_ExpiresAt d < now.
Proof. unfold DeviceCode_IsExpired. rewrite GoTime.Since_pos_spec. apply Z.ltb_lt. Qed.

(** ** Properties *)

(** the claim is single-use and only for approved, live codes: a successful
    ConsumeIfApproved returns the entry the device code points to, which is
    approved and not expired; and after it, through any interleaving of other
    operations that does not issue the same device code again, every further
    claim fails. *)
Theorem device_code_single_use now code m e tr m' now' :
  (ConsumeIfApproved now code m).1 = Ok e ->
  device_run (ConsumeIfApproved now code m).2 tr m' ->
  Forall (fun l => issues_code code l.2 = false) tr ->
  (exists p, by_device m code = Some (p, e)) /\ dc_Approved e = true /\ now <= dc_ExpiresAt e /\
  ConsumeIfApproved now' code m' = (Err ErrDeviceCodeNotFound, m').
Proof.
  unfold ConsumeIfApproved at 1 2. intros Hok Hr HQ.
  destruct (by_device m code) as [[p e']|] eqn:Hb; [|done].
  destruct (_ || _) eqn:Ht; [done|]. simpl in *. simplify_eq.
  apply orb_false_iff in Ht as [He Ha]. bool_simpl. split_and!; [eauto|done| |].
  - apply not_true_iff_false in He. rewrite DeviceCode_IsExpired_spec in He. lia.
  - apply ConsumeIfApproved_gone. eapply device_run_gone; [done..|]. simpl. apply lookup_delete_eq.
Qed.

(** the device flow round-trips through the two indexes: a code issued into a
    store with room, approved through its user code and claimed through its
    device code while it is alive yields the issued record with the approving
    identity filled in; before the approval the claim is refused. *)
Theorem device_flow dc m now1 now2 userID provider attrs :
  dc_DeviceCode dc <> "" -> dc_UserCode dc <> "" -> dc_Approved dc = false ->
  dcs_MaxEntries m <= 0 \/ Z.of_nat (size (byDeviceCode m)) < dcs_MaxEntries m ->
  now1 <= dc_ExpiresAt dc -> now2 <= dc_ExpiresAt dc ->
  let m1 := (IssueDevice (Some dc) m).2 in
  let m2 := (Approve now1 (dc_UserCode dc) userID provider attrs m1).2 in
  (IssueDevice (Some dc) m).1 = None /\
  (ConsumeIfApproved now2 (dc_DeviceCode dc) m1).1 = Err ErrDeviceCodeNotFound /\
  (Approve now1 (dc_UserCode dc) userID provider attrs m1).1 = None /\
  (ConsumeIfApproved now2 (dc_DeviceCode dc) m2).1 = Ok (set_approved userID provider attrs dc).
Proof.
  intros Hd Hu Ha Hcap H1 H2 m1 m2.
  assert (forall now e, now <= dc_ExpiresAt e -> DeviceCode_IsExpired now e = false) as Hexp.
  { intros now e He. apply not_true_iff_false. rewrite DeviceCode_IsExpired_spec. lia. }
  assert (IssueDevice (Some dc) m =
    (None, {| dcs_MaxEntries := dcs_MaxEntries m;
              dcs_heap := <[fresh (dom (dcs_heap m)) := dc]> (dcs_heap m);
              byDeviceCode := <[dc_DeviceCode dc := fresh (dom (dcs_heap m))]> (byDeviceCode m);
              byUserCode := <[dc_UserCode dc := fresh (dom (dcs_heap m))]> (byUserCode m) |})) as HI.
  { unfold IssueDevice. rewrite !bool_decide_eq_false_2 by done. simpl.
    destruct (_ && _ && _) eqn:E; [|done]. bool_simpl. lia. }
  unfold m2, m1. rewrite HI. simpl.
  unfold ConsumeIfApproved, Approve, by_device, by_user, write. cbn.
  rewrite !lookup_insert_eq. cbn. rewrite !lookup_insert_eq. cbn.
  rewrite Hexp, Ha by done. cbn. rewrite Hexp by done. cbn.
  rewrite !lookup_insert_eq. cbn. rewrite !lookup_insert_eq. cbn.
  rewrite Hexp by done. done.
Qed.

(** a denial that arrives after the approval does not stop the claim: the
    memory store hands out an entry that is both approved and denied. *)
Theorem consume_ignores_denied code m now p e :
  by_device m code = Some (p, e) -> dc_Approved e = true -> dc_Denied e = true ->
  now <= dc_ExpiresAt e -> (ConsumeIfApproved now code m).1 = Ok e.
Proof.
  intros Hb Ha _ Hn. unfold ConsumeIfApproved. rewrite Hb, Ha.
  destruct (DeviceCode_IsExpired now e) eqn:E; [|done].
  apply DeviceCode_IsExpired_spec in E. lia.
Qed.

(** Looking an expired code up does not remove it. *)
Lemma ConsumeIfApproved_expired_kept now code m p e :
  by_device m code = Some (p, e) -> dc_ExpiresAt e < now ->
  ConsumeIfApproved now code m = (Err ErrDeviceCodeNotFound, m).
Proof.
  intros Hb He. unfold ConsumeIfApproved. rewrite Hb.
  by rewrite (proj2 (DeviceCode_IsExpired_spec now e) He).
Qed.

(** A user code survives normalisation up to its dash: what the device shows and
    what the user types in lower case, without the dash, is the same code. *)
Example NormalizeUserCode_example :
  NormalizeUserCode (user_code_of [0; 1; 2; 3; 20; 21; 22; 27]%nat) = "BCDF2349" /\
  NormalizeUserCode "bcdf2349" = "BCDF2349".
Proof. vm_compute. auto. Qed.

Definition sample_device : DeviceCode := {|
  dc_DeviceCode := "dev"; dc_UserCode := "BCDF2349"; dc_ClientID := "tv"; dc_Scopes := ["openid"];
  dc_Nonce := ""; dc_UserID := ""; dc_Provider := ""; dc_Attributes := ∅; dc_Approved := false;
  dc_Denied := false; dc_LastPoll := 0; dc_Interval := 5; dc_Resources := []; dc_ExpiresAt := 1000 |}.

Definition sample_device_store : MemoryDeviceCodeStore :=
  (Approve 20 "BCDF2349" "alice" "pwd" ∅
     (IssueDevice (Some sample_device) (NewMemoryDeviceCodeStore 4)).2).2.

Lemma device_flow_witness :
  (ConsumeIfApproved 30 "dev" sample_device_store).1 = Ok (set_approved "alice" "pwd" ∅ sample_device).
Proof.
  apply (device_flow sample_device (NewMemoryDeviceCodeStore 4) 20 30 "alice" "pwd" ∅);
    try discriminate; try reflexivity; vm_compute; [by right|discriminate..].
Defined.

Lemma device_code_single_use_witness :
  (ConsumeIfApproved 40 "dev" (ConsumeIfApproved 30 "dev" sample_device_store).2).1 =
  Err ErrDeviceCodeNotFound.
Proof.
  destruct (device_code_single_use 30 "dev" sample_device_store
              (set_approved "alice" "pwd" ∅ sample_device) []
              (ConsumeIfApproved 30 "dev" sample_device_store).2 40) as (_ & _ & _ & H).
  - vm_compute. reflexivity.
  - constructor.
  - constructor.
  - by rewrite H.
Defined.

Lemma consume_ignores_denied_witness :
  (ConsumeIfApproved 30 "dev" (Deny 25 "BCDF2349" sample_device_store).2).1 =
  Ok (set_denied (set_approved "alice" "pwd" ∅ sample_device)).
Proof.
  apply (consume_ignores_denied _ _ _ (fresh (dom (dcs_heap (NewMemoryDeviceCodeStore 4))))).
  - vm_compute. reflexivity.
  - reflexivity.
  - reflexivity.
  - vm_compute. discriminate.
Defined.
