(* ===== verification/CibaStore.v ===== *)
(** * CibaStore: backchannel authentication requests and their in-memory store
    ([oauthspi/ciba.go], [memorystoreoauth/memory_ciba.go]).

    A request is a small state machine, pending to approved or denied, resolved
    once, and consumed by the poll that finds it approved.  The store holds the
    only pointer to an entry (reads return copies), so a plain map is faithful. *)
From S2P Require Import Prelude Core.
Local Open Scope Z_scope.

Inductive CIBAStatus := CIBAPending | CIBAApproved | CIBADenied.
#[export] Instance CIBAStatus_eq_dec : EqDecision CIBAStatus.
Proof. solve_decision. Defined.

Record CIBARequest := {
  cb_AuthReqID : string;
  cb_ClientID : string;
  cb_SubjectID : string;
  cb_Provider : string;
  cb_Scopes : list string;
  cb_ACRValues : string;
  cb_BindingMessage : string;
  cb_Resources : list string;
  cb_Nonce : string;
  cb_ClientNotificationToken : string;
  cb_RequestContext : string;
  cb_Status : CIBAStatus;
  cb_Interval : Z;
  cb_LastPoll : Z;
  cb_CreatedAt : Z;
  cb_ExpiresAt : Z;
}.

Definition CIBARequest_IsExpired (now : Z) (r : CIBARequest) : bool :=
  0 <? GoTime.Since now (cb_ExpiresAt r).

Inductive ciba_error := ErrCIBARequestNotFound | ErrCIBARequestInvalid | ErrCIBARequestResolved | ErrCIBARand.

Definition AuthReqIDPrefix : string := "ciba_".

(** The instant 1970-01-01 on the scale of [GoTime], and [UnixNano]. *)
Definition unixEpoch : Z := 62135596800 * GoTime.Second.
Definition UnixNano (t : Z) : Z := t - unixEpoch.
Definition sweepInterval : Z := GoTime.Minute.

Record MemoryCIBAStore := {
  cbs_entries : gmap string CIBARequest;
  cbs_lastSweep : Z;
}.

Definition NewMemoryCIBAStore : MemoryCIBAStore := {| cbs_entries := ∅; cbs_lastSweep := 0 |}.

Definition with_entries (m : MemoryCIBAStore) es : MemoryCIBAStore :=
  {| cbs_entries := es; cbs_lastSweep := cbs_lastSweep m |}.

Definition sweepExpiredEntries (es : gmap string CIBARequest) (now : Z) : gmap string CIBARequest :=
  delete_where (fun e => GoTime.Before (cb_ExpiresAt e) now) es.

(** The entry that Issue stores: a pending copy under the new id, never polled. *)
Definition pending_copy (id : string) (r : CIBARequest) : CIBARequest := {|
  cb_AuthReqID := id; cb_ClientID := cb_ClientID r; cb_SubjectID := cb_SubjectID r;
  cb_Provider := cb_Provider r; cb_Scopes := cb_Scopes r; cb_ACRValues := cb_ACRValues r;
  cb_BindingMessage := cb_BindingMessage r; cb_Resources := cb_Resources r; cb_Nonce := cb_Nonce r;
  cb_ClientNotificationToken := cb_ClientNotificationToken r; cb_RequestContext := cb_RequestContext r;
  cb_Status := CIBAPending; cb_Interval := cb_Interval r; cb_LastPoll := 0;
  cb_CreatedAt := cb_CreatedAt r; cb_ExpiresAt := cb_ExpiresAt r |}.

Definition set_status (st : CIBAStatus) (r : CIBARequest) : CIBARequest := {|
  cb_AuthReqID := cb_AuthReqID r; cb_ClientID := cb_ClientID r; cb_SubjectID := cb_SubjectID r;
  cb_Provider := cb_Provider r; cb_Scopes := cb_Scopes r; cb_ACRValues := cb_ACRValues r;
  cb_BindingMessage := cb_BindingMessage r; cb_Resources := cb_Resources r; cb_Nonce := cb_Nonce r;
  cb_ClientNotificationToken := cb_ClientNotificationToken r; cb_RequestContext := cb_RequestContext r;
  cb_Status := st; cb_Interval := cb_Interval r; cb_LastPoll := cb_LastPoll r;
  cb_CreatedAt := cb_CreatedAt r; cb_ExpiresAt := cb_ExpiresAt r |}.

Definition set_polled (t : Z) (r : CIBARequest) : CIBARequest := {|
  cb_AuthReqID := cb_AuthReqID r; cb_ClientID := cb_ClientID r; cb_SubjectID := cb_SubjectID r;
  cb_Provider := cb_Provider r; cb_Scopes := cb_Scopes r; cb_ACRValues := cb_ACRValues r;
  cb_BindingMessage := cb_BindingMessage r; cb_Resources := cb_Resources r; cb_Nonce := cb_Nonce r;
  cb_ClientNotificationToken := cb_ClientNotificationToken r; cb_RequestContext := cb_RequestContext r;
  cb_Status := cb_Status r; cb_Interval := cb_Interval r; cb_LastPoll := t;
  cb_CreatedAt := cb_CreatedAt r; cb_ExpiresAt := cb_ExpiresAt r |}.

(** [gen] is the outcome of the random draw behind [GenerateCIBAAuthReqID]. *)
Definition GenerateCIBAAuthReqID (gen : option string) : result ciba_error string :=
  match gen with Some b64 => Ok (AuthReqIDPrefix +:+ b64) | None => Err ErrCIBARand end.

(** The load and the compare-and-swap of lastSweep both run under the mutex that
    every writer holds, so the swap cannot fail. *)
Definition IssueCIBA (now : Z) (gen : option string) (req : option CIBARequest) (m : MemoryCIBAStore)
    : result ciba_error string * MemoryCIBAStore :=
  match req with
  | None => (Err ErrCIBARequestInvalid, m)
  | Some req =>
      if bool_decide (cb_SubjectID req = "") || bool_decide (cb_ClientID req = "")
      then (Err ErrCIBARequestInvalid, m)
      else match GenerateCIBAAuthReqID gen with
           | Err e => (Err e, m)
           | Ok id =>
               let nowNanos := UnixNano now in
               let m :=
                 if sweepInterval <=? nowNanos - cbs_lastSweep m
                 then {| cbs_entries := sweepExpiredEntries (cbs_entries m) now;
                         cbs_lastSweep := nowNanos |}
                 else m in
               (Ok id, with_entries m (<[id := pending_copy id req]> (cbs_entries m)))
           end
  end.

Definition GetCIBA (now : Z) (id : string) (m : MemoryCIBAStore)
    : result ciba_error CIBARequest * MemoryCIBAStore :=
  if decide (id = "") then (Err ErrCIBARequestNotFound, m)
  else match cbs_entries m !! id with
       | None => (Err ErrCIBARequestNotFound, m)
       | Some e =>
           if CIBARequest_IsExpired now e
           then (Err ErrCIBARequestNotFound, with_entries m (delete id (cbs_entries m)))
           else (Ok e, m)
       end.

Definition SetStatus (id : string) (st : CIBAStatus) (m : MemoryCIBAStore)
    : option ciba_error * MemoryCIBAStore :=
  if decide (id = "") then (Some ErrCIBARequestNotFound, m)
  else match cbs_entries m !! id with
       | None => (Some ErrCIBARequestNotFound, m)
       | Some e =>
           if decide (cb_Status e = st) then (None, m)
           else if decide (cb_Status e <> CIBAPending) then (Some ErrCIBARequestResolved, m)
           else (None, with_entries m (<[id := set_status st e]> (cbs_entries m)))
       end.

Definition UpdateLastPollCIBA (id : string) (t : Z) (m : MemoryCIBAStore) : MemoryCIBAStore :=
  match cbs_entries m !! id with
  | Some e => with_entries m (<[id := set_polled t e]> (cbs_entries m))
  | None => m
  end.

Definition DeleteCIBA (id : string) (m : MemoryCIBAStore) : MemoryCIBAStore :=
  with_entries m (delete id (cbs_entries m)).

Definition ConsumeIfApprovedCIBA (now : Z) (id : string) (m : MemoryCIBAStore)
    : result ciba_error CIBARequest * MemoryCIBAStore :=
  if decide (id = "") then (Err ErrCIBARequestNotFound, m)
  else match cbs_entries m !! id with
       | None => (Err ErrCIBARequestNotFound, m)
       | Some e =>
           if CIBARequest_IsExpired now e || bool_decide (cb_Status e <> CIBAApproved)
           then (Err ErrCIBARequestNotFound, m)
           else (Ok e, with_entries m (delete id (cbs_entries m)))
       end.

(** ** The store as a state machine *)

Inductive ciba_op :=
| CIssue (gen : option string) (req : option CIBARequest)
| CGet (id : string)
| CSetStatus (id : string) (st : CIBAStatus)
| CPoll (id : string) (t : Z)
| CDelete (id : string)
| CConsume (id : string).

Definition ciba_step (now : Z) (o : ciba_op) (m : MemoryCIBAStore) : MemoryCIBAStore :=
  match o with
  | CIssue gen req => (IssueCIBA now gen req m).2
  | CGet id => (GetCIBA now id m).2
  | CSetStatus id st => (SetStatus id st m).2
  | CPoll id t => UpdateLastPollCIBA id t m
  | CDelete id => DeleteCIBA id m
  | CConsume id => (ConsumeIfApprovedCIBA now id m).2
  end.

Definition ciba_trace (m : MemoryCIBAStore) (tr : list (Z * ciba_op)) : MemoryCIBAStore :=
  foldl (fun m l => ciba_step l.1 l.2 m) m tr.

(** An issue that would reuse the id. *)
Definition reissues (id : string) (o : ciba_op) : bool :=
  match o with
  | CIssue (Some b64) _ => bool_decide (AuthReqIDPrefix +:+ b64 = id)
  | _ => false
  end.

(** The status of an id, [None] when it is not (or no longer) held. *)
Definition status_of (m : MemoryCIBAStore) (id : string) : option CIBAStatus :=
  cb_Status <$> cbs_entries m !! id.

(** What one step may do to the status of a given id. *)
Inductive status_step : option CIBAStatus -> option CIBAStatus -> Prop :=
| st_same s : status_step s s
| st_resolve st : st <> CIBAPending -> status_step (Some CIBAPending) (Some st)
| st_gone s : status_step s None.

Lemma ciba_step_status now o m id :
  reissues id o = false -> status_step (status_of m id) (status_of (ciba_step now o m) id).
Proof.
  intros Hi. unfold status_of. destruct o as [gen req|i|i st|i t|i|i]; simpl.
  - unfold IssueCIBA. destruct req as [req|]; [|constructor].
    case_match; [constructor|]. destruct gen as [b64|]; simpl; [|constructor].
    simpl in Hi. apply bool_decide_eq_false in Hi. rewrite lookup_insert_ne by done.
    case_match; [|constructor]. simpl. unfold sweepExpiredEntries.
    destruct (delete_where _ _ !! id) as [e|] eqn:E; [|constructor].
    apply delete_where_lookup in E as [-> _]. constructor.
  - unfold GetCIBA. repeat case_match; try constructor. simpl.
    destruct (decide (i = id)) as [->|]; [rewrite lookup_delete_eq|rewrite lookup_delete_ne by done]; constructor.
  - unfold SetStatus. case_decide; [constructor|].
    destruct (cbs_entries m !! i) as [e|] eqn:He; [|constructor].
    case_decide as Hsame; [constructor|]. case_decide as Hpend; [constructor|]. simpl.
    destruct (decide (i = id)) as [->|]; [|rewrite lookup_insert_ne by done; constructor].
    rewrite lookup_insert_eq, He. simpl. rewrite Hpend.
    constructor. congruence.
  - unfold UpdateLastPollCIBA.
    destruct (cbs_entries m !! i) as [e|] eqn:He; [|constructor]. simpl.
    destruct (decide (i = id)) as [->|]; [|rewrite lookup_insert_ne by done; constructor].
    rewrite lookup_insert_eq, He. constructor.
  - destruct (decide (i = id)) as [->|]; [rewrite lookup_delete_eq|rewrite lookup_delete_ne by done]; constructor.
  - unfold ConsumeIfApprovedCIBA. repeat case_match; try constructor. simpl.
    destruct (decide (i = id)) as [->|]; [rewrite lookup_delete_eq|rewrite lookup_delete_ne by done]; constructor.
Qed.

(** A resolved request keeps its resolution until it is gone for good. *)
Lemma ciba_trace_resolved tr m id st :
  Forall (fun l => reissues id l.2 = false) tr -> st <> CIBAPending ->
  status_of m id = Some st \/ status_of m id = None ->
  status_of (ciba_trace m tr) id = Some st \/ status_of (ciba_trace m tr) id = None.
Proof.
  intros HQ Hst. revert m. induction HQ as [|[now o] tr Ho _ IH]; intros m Hm; [done|].
  simpl. apply IH. pose proof (ciba_step_status now o m id Ho) as Hs.
  destruct Hm as [Hm|Hm]; rewrite Hm in Hs; inversion Hs; subst; try congruence; auto.
Qed.

Lemma ciba_trace_gone tr m id :
  Forall (fun l => reissues id l.2 = false) tr -> status_of m id = None ->
  status_of (ciba_trace m tr) id = None.
Proof.
  intros HQ. revert m. induction HQ as [|[now o] tr Ho _ IH]; intros m Hm; [done|].
  simpl. apply IH. pose proof (ciba_step_status now o m id Ho) as Hs.
  rewrite Hm in Hs. by inversion Hs.
Qed.

Lemma CIBARequest_IsExpired_spec now r :
  CIBARequest_IsExpired now r = true <-> cb_ExpiresAt r < now.
Proof. unfold CIBARequest_IsExpired. rewrite GoTime.Since_pos_spec. apply Z.ltb_lt. Qed.

Lemma ConsumeIfApprovedCIBA_spec now id m e :
  (ConsumeIfApprovedCIBA now id m).1 = Ok e <->
  id <> "" /\ cbs_entries m !! id = Some e /\ now <= cb_ExpiresAt e /\ cb_Status e = CIBAApproved.
Proof.
  unfold ConsumeIfApprovedCIBA. case_decide as Hid; [naive_solver|].
  destruct (cbs_entries m !! id) as [e'|]; [|naive_solver].
  destruct (CIBARequest_IsExpired now e') eqn:E1; simpl.
  - apply CIBARequest_IsExpired_spec in E1. split; [done|]. intros (_ & [= ->] & ? & _). lia.
  - apply not_true_iff_false in E1. rewrite CIBARequest_IsExpired_spec in E1.
    case_bool_decide as E2; simpl; split; try done.
    + intros (_ & [= ->] & _ & ?). done.
    + intros [= ->]. split_and!; first [done|lia|by apply dec_stable].
    + intros (_ & [= ->] & _ & _). done.
Qed.

(** ** Properties *)

(** a denial is final: once a request has been denied, no interleaving of
    store operations short of re-issuing the same id lets a poll claim it. *)
Theorem ciba_denied_never_consumed m id tr now :
  status_of m id = Some CIBADenied ->
  Forall (fun l => reissues id l.2 = false) tr ->
  is_ok (ConsumeIfApprovedCIBA now id (ciba_trace m tr)).1 = false.
Proof.
  intros Hm HQ. destruct (ConsumeIfApprovedCIBA _ _ _).1 as [e|] eqn:E; [|done].
  apply ConsumeIfApprovedCIBA_spec in E as (_ & He & _ & Hst).
  destruct (ciba_trace_resolved tr m id CIBADenied HQ) as [Hs|Hs]; [done|auto|..];
    unfold status_of in Hs; rewrite He in Hs; simpl in Hs; congruence.
Qed.

(** an approval mints at most once: a successful claim returns a live approved
    entry, and through any interleaving that does not re-issue the id no later
    claim succeeds, whatever statuses are set meanwhile. *)
Theorem ciba_single_use m id now e tr now' :
  (ConsumeIfApprovedCIBA now id m).1 = Ok e ->
  Forall (fun l => reissues id l.2 = false) tr ->
  cb_Status e = CIBAApproved /\ now <= cb_ExpiresAt e /\
  is_ok (ConsumeIfApprovedCIBA now' id (ciba_trace (ConsumeIfApprovedCIBA now id m).2 tr)).1 = false.
Proof.
  intros Hok HQ. pose proof Hok as (Hid & He & Hexp & Hst)%ConsumeIfApprovedCIBA_spec.
  split_and!; [done..|].
  assert (status_of (ConsumeIfApprovedCIBA now id m).2 id = None) as Hgone.
  { revert Hok. unfold ConsumeIfApprovedCIBA. rewrite decide_False, He by done.
    case_match; [done|]. intros _. unfold status_of. simpl. by rewrite lookup_delete_eq. }
  destruct (ConsumeIfApprovedCIBA now' _ _).1 as [e'|] eqn:E; [|done].
  apply ConsumeIfApprovedCIBA_spec in E as (_ & He' & _).
  pose proof (ciba_trace_gone tr _ id HQ Hgone) as Hn. unfold status_of in Hn. by rewrite He' in Hn.
Qed.

Definition sample_ciba : CIBARequest := {|
  cb_AuthReqID := ""; cb_ClientID := "bank"; cb_SubjectID := "alice"; cb_Provider := "";
  cb_Scopes := ["openid"]; cb_ACRValues := "loa2"; cb_BindingMessage := ""; cb_Resources := [];
  cb_Nonce := ""; cb_ClientNotificationToken := ""; cb_RequestContext := ""; cb_Status := CIBAPending;
  cb_Interval := 5; cb_LastPoll := 0; cb_CreatedAt := 1; cb_ExpiresAt := 1000 |}.

Definition sample_ciba_store (st : CIBAStatus) : MemoryCIBAStore :=
  (SetStatus "ciba_r1" st (IssueCIBA 10 (Some "r1") (Some sample_ciba) NewMemoryCIBAStore).2).2.

Lemma ciba_denied_never_consumed_witness :
  is_ok (ConsumeIfApprovedCIBA 30 "ciba_r1"
           (ciba_trace (sample_ciba_store CIBADenied) [(20, CSetStatus "ciba_r1" CIBAApproved)])).1 = false.
Proof.
  apply ciba_denied_never_consumed.
  - vm_compute. reflexivity.
  - repeat constructor.
Defined.

Lemma ciba_single_use_witness :
  is_ok (ConsumeIfApprovedCIBA 40 "ciba_r1"
           (ciba_trace (ConsumeIfApprovedCIBA 30 "ciba_r1" (sample_ciba_store CIBAApproved)).2
              [(35, CSetStatus "ciba_r1" CIBAApproved)])).1 = false.
Proof.
  destruct (ciba_single_use (sample_ciba_store CIBAApproved) "ciba_r1" 30
              (set_status CIBAApproved (pending_copy "ciba_r1" sample_ciba))
              [(35, CSetStatus "ciba_r1" CIBAApproved)] 40) as (_ & _ & H).
  - vm_compute. reflexivity.
  - repeat constructor.
  - exact H.
Defined.

(** Unlike the lookups, SetStatus does not look at the expiry. *)
Lemma SetStatus_ignores_expiry id e m :
  id <> "" -> cbs_entries m !! id = Some e -> cb_Status e = CIBAPending ->
  SetStatus id CIBAApproved m =
  (None, with_entries m (<[id := set_status CIBAApproved e]> (cbs_entries m))).
Proof.
  intros Hid He Hst. unfold SetStatus. rewrite decide_False, He, Hst by done. reflexivity.
Qed.
