(* ===== verification/Lockout.v ===== *)
(** * Lockout: the per-account failure counter ([shared/security/account_lockout.go]).

    A key accumulates failures in a window that starts with the first one; at the
    threshold it locks for a while.  All three operations run under one mutex. *)
From S2P Require Import Prelude Core.
Local Open Scope Z_scope.

Record lockoutEntry := { le_failures : Z; le_firstFailureAt : Z; le_lockedUntil : Z }.

Record MemoryAccountLockout := {
  MaxFailures : Z;
  LockoutDuration : Z;
  FailureWindow : Z;
  le_entries : gmap string lockoutEntry;
}.

Definition NewMemoryAccountLockout : MemoryAccountLockout :=
  {| MaxFailures := 5; LockoutDuration := 15 * GoTime.Minute; FailureWindow := GoTime.Hour;
     le_entries := ∅ |}.

Definition zero_entry : lockoutEntry :=
  {| le_failures := 0; le_firstFailureAt := 0; le_lockedUntil := 0 |}.

Definition put (m : MemoryAccountLockout) (key : string) (e : lockoutEntry) : MemoryAccountLockout :=
  {| MaxFailures := MaxFailures m; LockoutDuration := LockoutDuration m;
     FailureWindow := FailureWindow m; le_entries := <[key := e]> (le_entries m) |}.

Definition IsLocked (now : Z) (key : string) (m : MemoryAccountLockout)
    : (bool * Z) * MemoryAccountLockout :=
  if decide (key = "") then ((false, 0), m)
  else match le_entries m !! key with
       | None => ((false, 0), m)
       | Some e =>
           if GoTime.IsZero (le_lockedUntil e) || GoTime.After now (le_lockedUntil e)
           then ((false, 0),
                 if GoTime.IsZero (le_lockedUntil e) then m
                 else put m key {| le_failures := le_failures e;
                                   le_firstFailureAt := le_firstFailureAt e;
                                   le_lockedUntil := 0 |})
           else ((true, le_lockedUntil e), m)
       end.

Definition RegisterFailure (now : Z) (key : string) (m : MemoryAccountLockout)
    : (bool * Z) * MemoryAccountLockout :=
  if decide (key = "") then ((false, 0), m)
  else
    let e := default zero_entry (le_entries m !! key) in
    let e := if negb (GoTime.IsZero (le_firstFailureAt e))
                && (FailureWindow m <? GoTime.Sub now (le_firstFailureAt e))
             then zero_entry else e in
    if negb (GoTime.IsZero (le_lockedUntil e)) && GoTime.Before now (le_lockedUntil e)
    then ((true, le_lockedUntil e), put m key e)
    else
      let failures := le_failures e + 1 in
      let first := if GoTime.IsZero (le_firstFailureAt e) then now else le_firstFailureAt e in
      if MaxFailures m <=? failures
      then let until := GoTime.Add now (LockoutDuration m) in
           ((true, until),
            put m key {| le_failures := failures; le_firstFailureAt := first; le_lockedUntil := until |})
      else ((false, 0),
            put m key {| le_failures := failures; le_firstFailureAt := first;
                         le_lockedUntil := le_lockedUntil e |}).

Definition RegisterSuccess (key : string) (m : MemoryAccountLockout) : MemoryAccountLockout :=
  if decide (key = "") then m
  else {| MaxFailures := MaxFailures m; LockoutDuration := LockoutDuration m;
          FailureWindow := FailureWindow m; le_entries := delete key (le_entries m) |}.

(** The credential map is [None] when nil. *)
Fixpoint first_field (cred : gmap string string) (fields : list string) : string :=
  match fields with
  | [] => ""
  | f :: fields => let v := default "" (cred !! f) in
                   if decide (v = "") then first_field cred fields else v
  end.

Definition lockout_fields : list string := ["username"; "target"; "identifier"; "phone"; "email"].

Definition LockoutKey (clientID : string) (credential : option (gmap string string)) : string :=
  match credential with
  | None => ""
  | Some cred =>
      let v := first_field cred lockout_fields in
      if decide (v = "") then "" else clientID +:+ ":" +:+ v
  end.

(** ** Lemmas *)

Fixpoint failures (key : string) (ts : list Z) (m : MemoryAccountLockout) : MemoryAccountLockout :=
  match ts with [] => m | t :: ts => failures key ts (RegisterFailure t key m).2 end.

Lemma put_config m key e :
  MaxFailures (put m key e) = MaxFailures m /\ LockoutDuration (put m key e) = LockoutDuration m /\
  FailureWindow (put m key e) = FailureWindow m.
Proof. done. Qed.

(** A failure inside the window of an unlocked key. *)
Lemma RegisterFailure_in_window now key m c t0 :
  key <> "" ->
  le_entries m !! key = Some {| le_failures := c; le_firstFailureAt := t0; le_lockedUntil := 0 |} ->
  t0 <> 0 -> 0 <= FailureWindow m < GoTime.maxDuration -> now - t0 <= FailureWindow m ->
  RegisterFailure now key m =
  if MaxFailures m <=? c + 1
  then ((true, now + LockoutDuration m),
        put m key {| le_failures := c + 1; le_firstFailureAt := t0;
                     le_lockedUntil := now + LockoutDuration m |})
  else ((false, 0), put m key {| le_failures := c + 1; le_firstFailureAt := t0; le_lockedUntil := 0 |}).
Proof.
  intros Hk He H0 Hw Hin. unfold RegisterFailure. rewrite decide_False, He by done. cbn.
  assert ((FailureWindow m <? GoTime.Sub now t0) = false) as ->.
  { apply Z.ltb_ge, GoTime.Sub_le; [unfold GoTime.minDuration; lia|done]. }
  rewrite andb_false_r. cbn -[Z.add]. unfold GoTime.IsZero, GoTime.Add.
  by rewrite (proj2 (Z.eqb_neq t0 0)) by done.
Qed.

Lemma failures_below key ts m c t0 :
  key <> "" ->
  le_entries m !! key = Some {| le_failures := c; le_firstFailureAt := t0; le_lockedUntil := 0 |} ->
  t0 <> 0 -> 0 <= FailureWindow m < GoTime.maxDuration ->
  Forall (fun t => t - t0 <= FailureWindow m) ts ->
  c + Z.of_nat (length ts) < MaxFailures m ->
  let m' := failures key ts m in
  le_entries m' !! key =
    Some {| le_failures := c + Z.of_nat (length ts); le_firstFailureAt := t0; le_lockedUntil := 0 |} /\
  MaxFailures m' = MaxFailures m /\ LockoutDuration m' = LockoutDuration m /\
  FailureWindow m' = FailureWindow m.
Proof.
  intros Hk He H0 Hw Hts. revert c m He Hw Hts.
  induction ts as [|t ts IH]; intros c m He Hw Hts Hlt; cbn -[Z.of_nat] in *.
  { by rewrite Z.add_0_r. }
  apply Forall_cons in Hts as [Ht Hts].
  rewrite (RegisterFailure_in_window t key m c t0) by done.
  destruct (MaxFailures m <=? c + 1) eqn:E; [bool_simpl; lia|]. cbn [snd].
  set (m1 := put _ _ _).
  destruct (IH (c + 1) m1) as (H1 & H2); [apply lookup_insert_eq|done..|simpl; lia|].
  rewrite H1. split; [|done]. do 2 f_equal. lia.
Qed.

(** ** Properties *)

(** the threshold is exact: a key with no history that fails at [t0], at the
    times [ts] and at [t], all within the window, is reported locked by the last
    failure if and only if that makes at least MaxFailures failures, provided
    the earlier ones stayed below the threshold; the lock then lasts until
    [t + LockoutDuration], inclusive, as IsLocked reports, and a lower count
    leaves the key unlocked. *)
Theorem lockout_threshold key m t0 ts t now :
  key <> "" -> le_entries m !! key = None -> t0 <> 0 ->
  0 <= FailureWindow m < GoTime.maxDuration -> t + LockoutDuration m <> 0 ->
  Forall (fun t => t - t0 <= FailureWindow m) (ts ++ [t]) ->
  1 + Z.of_nat (length ts) < MaxFailures m ->
  let m1 := failures key (t0 :: ts) m in
  let r := RegisterFailure t key m1 in
  r.1.1 = (MaxFailures m <=? 2 + Z.of_nat (length ts)) /\
  (IsLocked now key r.2).1.1 =
    (MaxFailures m <=? 2 + Z.of_nat (length ts)) && (now <=? t + LockoutDuration m).
Proof.
  intros Hk Hnone H0 Hw Hend Hts Hlt m1 r.
  apply Forall_app in Hts as [Hts Ht]. apply Forall_cons in Ht as [Ht _].
  set (mf := (RegisterFailure t0 key m).2).
  assert (mf = put m key {| le_failures := 1; le_firstFailureAt := t0; le_lockedUntil := 0 |}) as Hmf.
  { unfold mf, RegisterFailure. rewrite decide_False, Hnone by done. cbn -[Z.add].
    change (0 + 1) with 1. destruct (MaxFailures m <=? 1) eqn:E; [bool_simpl; lia|done]. }
  destruct (failures_below key ts mf 1 t0) as (He & E1 & E2 & E3);
    rewrite ?Hmf; try done; [apply lookup_insert_eq|].
  change (failures key ts mf) with m1 in *.
  assert (MaxFailures m1 = MaxFailures m) as F1 by (etrans; [exact E1|by rewrite Hmf]).
  assert (LockoutDuration m1 = LockoutDuration m) as F2 by (etrans; [exact E2|by rewrite Hmf]).
  assert (FailureWindow m1 = FailureWindow m) as F3 by (etrans; [exact E3|by rewrite Hmf]).
  pose proof (RegisterFailure_in_window t key m1 (1 + Z.of_nat (length ts)) t0) as Hr.
  rewrite F1, F2, F3 in Hr. fold r in Hr. do 5 (specialize (Hr ltac:(done))).
  replace (1 + Z.of_nat (length ts) + 1) with (2 + Z.of_nat (length ts)) in Hr by lia.
  rewrite Hr. destruct (MaxFailures m <=? 2 + Z.of_nat (length ts)); cbn; (split; [done|]);
    unfold IsLocked; rewrite decide_False by done; cbn; rewrite lookup_insert_eq; cbn; [|done].
  unfold GoTime.IsZero. rewrite (proj2 (Z.eqb_neq _ 0)) by done. cbn. unfold GoTime.After.
  rewrite Z.leb_antisym. by destruct (t + LockoutDuration m <? now).
Qed.

(** a locked key is not always kept locked: a failure registered after the
    failure window has elapsed clears the lock, although its end is still in the
    future, and (for a threshold above one) the key is then reported unlocked. *)
Theorem lock_cleared_by_window now key m e :
  key <> "" -> le_entries m !! key = Some e -> le_firstFailureAt e <> 0 ->
  0 <= FailureWindow m < GoTime.maxDuration ->
  now - le_firstFailureAt e > FailureWindow m -> now < le_lockedUntil e -> 1 < MaxFailures m ->
  0 < now ->
  (IsLocked now key m).1 = (true, le_lockedUntil e) /\
  (RegisterFailure now key m).1 = (false, 0) /\
  (IsLocked now key (RegisterFailure now key m).2).1 = (false, 0).
Proof.
  intros Hk He Hf Hw Hel Hl Hmax Hnow.
  assert (GoTime.IsZero (le_firstFailureAt e) = false) as Hz1 by by apply Z.eqb_neq.
  assert (GoTime.IsZero (le_lockedUntil e) = false) as Hz2 by (apply Z.eqb_neq; lia).
  assert ((FailureWindow m <? GoTime.Sub now (le_firstFailureAt e)) = true) as Hwin.
  { apply Z.ltb_lt. apply Z.nle_gt. rewrite GoTime.Sub_le by (unfold GoTime.minDuration; lia). lia. }
  assert (RegisterFailure now key m =
    ((false, 0), put m key {| le_failures := 1; le_firstFailureAt := now; le_lockedUntil := 0 |})) as HR.
  { unfold RegisterFailure. rewrite decide_False, He by done. cbn -[Z.add]. rewrite Hz1, Hwin. cbn -[Z.add].
    change (0 + 1) with 1. destruct (MaxFailures m <=? 1) eqn:E; [bool_simpl; lia|done]. }
  rewrite HR. split_and!; [|done|].
  - unfold IsLocked. rewrite decide_False, He, Hz2 by done. unfold GoTime.After. cbn.
    by rewrite (proj2 (Z.ltb_ge _ _)) by lia.
  - unfold IsLocked. rewrite decide_False by done. cbn. by rewrite lookup_insert_eq.
Qed.

(** inside the window a lock is kept and not extended by further failures, and
    a success clears the key entirely. *)
Theorem lock_kept_in_window now key m e :
  key <> "" -> le_entries m !! key = Some e ->
  0 <= FailureWindow m < GoTime.maxDuration ->
  now - le_firstFailureAt e <= FailureWindow m -> now < le_lockedUntil e -> le_lockedUntil e <> 0 ->
  (RegisterFailure now key m).1 = (true, le_lockedUntil e) /\
  le_entries (RegisterFailure now key m).2 !! key = Some e /\
  (IsLocked now key (RegisterSuccess key (RegisterFailure now key m).2)).1 = (false, 0).
Proof.
  intros Hk He Hw Hin Hl Hz.
  assert (RegisterFailure now key m = ((true, le_lockedUntil e), put m key e)) as HR.
  { unfold RegisterFailure. rewrite decide_False, He by done. cbn.
    assert ((FailureWindow m <? GoTime.Sub now (le_firstFailureAt e)) = false) as ->.
    { apply Z.ltb_ge, GoTime.Sub_le; [unfold GoTime.minDuration; lia|done]. }
    rewrite andb_false_r. unfold GoTime.IsZero, GoTime.Before.
    rewrite (proj2 (Z.eqb_neq _ 0)) by done. by rewrite (proj2 (Z.ltb_lt _ _)) by lia. }
  rewrite HR. split_and!; [done|apply lookup_insert_eq|].
  unfold IsLocked, RegisterSuccess. rewrite !decide_False by done. cbn. by rewrite lookup_delete_eq.
Qed.

Definition locked_store : MemoryAccountLockout :=
  failures "app:alice" [10; 20; 30; 40; 59 * GoTime.Minute] NewMemoryAccountLockout.

Lemma lockout_threshold_witness :
  (RegisterFailure 50 "app:alice" (failures "app:alice" [10; 20; 30; 40] NewMemoryAccountLockout)).1.1 = true /\
  (IsLocked 60 "app:alice" (RegisterFailure 50 "app:alice"
     (failures "app:alice" [10; 20; 30; 40] NewMemoryAccountLockout)).2).1.1 = true.
Proof.
  apply (lockout_threshold "app:alice" NewMemoryAccountLockout 10 [20; 30; 40] 50 60);
    try discriminate; try reflexivity.
  - split; vm_compute; [discriminate|reflexivity].
  - repeat constructor; vm_compute; discriminate.
Defined.

Lemma lock_cleared_by_window_witness :
  (IsLocked (61 * GoTime.Minute) "app:alice" locked_store).1.1 = true /\
  (IsLocked (61 * GoTime.Minute) "app:alice"
     (RegisterFailure (61 * GoTime.Minute) "app:alice" locked_store).2).1 = (false, 0).
Proof.
  split; [vm_compute; reflexivity|].
  apply (lock_cleared_by_window (61 * GoTime.Minute) "app:alice" locked_store
    {| le_failures := 5; le_firstFailureAt := 10; le_lockedUntil := 74 * GoTime.Minute |}).
  - discriminate.
  - vm_compute; reflexivity.
  - discriminate.
  - split; vm_compute; [discriminate|reflexivity].
  - vm_compute; reflexivity.
  - vm_compute; reflexivity.
  - vm_compute; reflexivity.
  - vm_compute; reflexivity.
Defined.

Lemma lock_kept_in_window_witness :
  (RegisterFailure (59 * GoTime.Minute + 5) "app:alice" locked_store).1 = (true, 74 * GoTime.Minute).
Proof.
  apply (lock_kept_in_window (59 * GoTime.Minute + 5) "app:alice" locked_store
    {| le_failures := 5; le_firstFailureAt := 10; le_lockedUntil := 74 * GoTime.Minute |}).
  - discriminate.
  - vm_compute; reflexivity.
  - split; vm_compute; [discriminate|reflexivity].
  - vm_compute; discriminate.
  - vm_compute; reflexivity.
  - vm_compute; discriminate.
Defined.
