(* ===== verification/Lifecycle.v ===== *)
(** * Lifecycle: the user-lifecycle state machine ([domains/userlifecycle]).

    The transition table and its checks ([transitions.go]), the in-memory store
    with its optimistic concurrency ([memory/memory.go]), dormancy
    ([dormancy.go]), the background deprovisioning sweep ([sweep.go]) and the
    admin transition handler ([interfaces/admin/lifecycle.go]).  The grants read
    one thing from here: [AllowsAuthentication] of the live state. *)
From S2P Require Import Prelude Core.
Local Open Scope Z_scope.

(** ** States and the transition table *)

(** [type State string]: a backend can hand back any string. *)
Abbreviation State := string.

Definition StateNone : State := "".
Definition StateInvited : State := "invited".
Definition StateActive : State := "active".
Definition StateSuspended : State := "suspended".
Definition StateInactive : State := "inactive".
Definition StateArchived : State := "archived".
Definition StatePurged : State := "purged".

Definition DefaultState : State := StateActive.
Definition ActorSystem : string := "system".

Definition AllowsAuthentication (state : State) : bool := bool_decide (state = StateActive).

Definition Valid (s : State) : bool :=
  contains [StateInvited; StateActive; StateSuspended; StateInactive; StateArchived; StatePurged] s.

Definition legalTransitions : gmap State (list State) :=
  list_to_map
    [(StateNone, [StateInvited; StateActive]);
     (StateInvited, [StateActive; StateArchived]);
     (StateActive, [StateSuspended; StateInactive; StateArchived]);
     (StateSuspended, [StateActive; StateArchived]);
     (StateInactive, [StateActive; StateArchived]);
     (StateArchived, [StateActive; StatePurged]);
     (StatePurged, [])].

Definition CanTransition (from to : State) : bool :=
  contains (default [] (legalTransitions !! from)) to.

Inductive lifecycle_error := ErrUnknownState | ErrIllegalTransition | ErrStateConflict.

Definition ValidateTransition (from to : State) : option lifecycle_error :=
  if negb (bool_decide (from = StateNone)) && negb (Valid from) then Some ErrUnknownState
  else if negb (Valid to) then Some ErrUnknownState
  else if negb (CanTransition from to) then Some ErrIllegalTransition
  else None.

(** The iteration order of the target map is arbitrary; sorting erases it. *)
Definition AllowedTransitions (from : State) : list State :=
  merge_sort str_le (default [] (legalTransitions !! from)).

(** ** Records and the in-memory store *)

Record Transition := {
  tr_From : State;
  tr_To : State;
  tr_Reason : string;
  tr_Actor : string;
  tr_At : Z;
}.

Record LRecord := {
  lr_UserID : string;
  lr_State : State;
  lr_History : list Transition;
  lr_UpdatedAt : Z;
}.

Abbreviation LifecycleStore := (gmap string LRecord).

Definition NewTransition (from to : State) (reason actor : string) (at' : Z) : Transition :=
  {| tr_From := from; tr_To := to; tr_Reason := reason; tr_Actor := actor; tr_At := at' |}.

Definition GetRecord (userID : string) (m : LifecycleStore) : LRecord :=
  default {| lr_UserID := userID; lr_State := DefaultState; lr_History := []; lr_UpdatedAt := 0 |}
    (m !! userID).

Definition GetState (userID : string) (m : LifecycleStore) : State :=
  match m !! userID with None => DefaultState | Some rec => lr_State rec end.

Definition Append (now : Z) (userID : string) (t : Transition) (m : LifecycleStore)
    : option lifecycle_error * LifecycleStore :=
  let store rec :=
    (None, <[userID := {| lr_UserID := userID; lr_State := tr_To t;
                          lr_History := lr_History rec ++ [t]; lr_UpdatedAt := now |}]> m) in
  if decide (tr_From t = StateNone) then
    match m !! userID with
    | Some _ => (Some ErrStateConflict, m)
    | None => store {| lr_UserID := userID; lr_State := ""; lr_History := []; lr_UpdatedAt := 0 |}
    end
  else
    let current := match m !! userID with Some rec => lr_State rec | None => DefaultState end in
    if decide (tr_From t = current)
    then store (default {| lr_UserID := ""; lr_State := ""; lr_History := []; lr_UpdatedAt := 0 |}
                  (m !! userID))
    else (Some ErrStateConflict, m).

Definition ListByState (state : State) (m : LifecycleStore) : list string :=
  merge_sort str_le ((map_to_list (filter (fun kv => lr_State kv.2 = state) m)).*1).

(** [memory.ActivityTracker]. *)
Definition TouchAt (userID : string) (at' : Z) (seen : gmap string Z) : gmap string Z :=
  if decide (userID = "") then seen
  else if GoTime.IsZero at' then seen
  else if GoTime.After at' (default 0 (seen !! userID)) then <[userID := at']> seen else seen.

Definition LastActive (userID : string) (seen : gmap string Z) : Z := default 0 (seen !! userID).

(** ** Dormancy and the sweep *)

Definition IsDormant (lastActive now threshold : Z) : bool :=
  if (threshold <=? 0) || GoTime.IsZero lastActive then false
  else threshold <? GoTime.Sub now lastActive.

(** [SessionLastActive.LastActive] over the user's sessions ([None] a nil one). *)
Definition SessionLastActive (sessions : list (option Session)) : Z :=
  foldl (fun newest s => match s with
                         | Some s => if GoTime.After (se_CreatedAt s) newest then se_CreatedAt s else newest
                         | None => newest
                         end) 0 sessions.

Record DeprovisionConfig := { DormantAfter : Z; ArchiveAfter : Z; MaxPerSweep : Z }.

Definition Enabled (c : DeprovisionConfig) : bool := 0 <? DormantAfter c.

(** [SweepDeps]: the user roster ([None] when [List] fails, a nil user is
    [None]), the activity source, the clock and the configuration. *)
Record SweepDeps := {
  sd_Users : option (list (option string));
  sd_LastActive : string -> option Z;
  sd_now : Z;
  sd_Config : DeprovisionConfig;
}.

(** [DormantAfter + ArchiveAfter] is [time.Duration] addition: it wraps. *)
Definition nextState (d : SweepDeps) (current : State) (lastActive now : Z) : State :=
  if decide (current = StateActive) then
    if IsDormant lastActive now (DormantAfter (sd_Config d)) then StateInactive else StateNone
  else if decide (current = StateInactive) then
    if (0 <? ArchiveAfter (sd_Config d)) &&
       IsDormant lastActive now (wrap64 (DormantAfter (sd_Config d) + ArchiveAfter (sd_Config d)))
    then StateArchived else StateNone
  else StateNone.

(** The audit events [RecordTransition] emits, newest last. *)
Abbreviation Audit := (list (string * Transition)).

Definition RecordTransition (userID : string) (t : Transition) (a : Audit) : Audit := a ++ [(userID, t)].

Definition sweep_apply (userID : string) (from to : State) (now : Z) (s : LifecycleStore * Audit)
    : bool * (LifecycleStore * Audit) :=
  let t := NewTransition from to "auto-deprovision: dormant" ActorSystem now in
  match Append now userID t s.1 with
  | (Some _, _) => (false, s)
  | (None, m) => (true, (m, RecordTransition userID t s.2))
  end.

Definition sweepUser (d : SweepDeps) (userID : string) (now : Z) (s : LifecycleStore * Audit)
    : bool * (LifecycleStore * Audit) :=
  let current := GetState userID s.1 in
  match sd_LastActive d userID with
  | None => (false, s)
  | Some lastActive =>
      let next := nextState d current lastActive now in
      if decide (next = StateNone) then (false, s)
      else sweep_apply userID current next now s
  end.

Fixpoint sweep_users (d : SweepDeps) (now : Z) (users : list (option string)) (applied : Z)
    (s : LifecycleStore * Audit) : Z * (LifecycleStore * Audit) :=
  match users with
  | [] => (applied, s)
  | None :: users => sweep_users d now users applied s
  | Some id :: users =>
      if decide (id = "") then sweep_users d now users applied s
      else if (0 <? MaxPerSweep (sd_Config d)) && (MaxPerSweep (sd_Config d) <=? applied)
      then (applied, s)
      else let '(ok, s) := sweepUser d id now s in
           sweep_users d now users (if ok then applied + 1 else applied) s
  end.

Definition SweepOnce (d : SweepDeps) (s : LifecycleStore * Audit)
    : result () Z * (LifecycleStore * Audit) :=
  if negb (Enabled (sd_Config d)) then (Ok 0, s)
  else match sd_Users d with
       | None => (Err (), s)
       | Some users => let '(n, s) := sweep_users d (sd_now d) users 0 s in (Ok n, s)
       end.

(** ** The admin transition handler *)

(** What the HTTP layer hands over: the path parameter, the bound body ([None]
    when binding fails), whether the user exists, and the acting admin. *)
Record TransitionRequest := {
  tq_UserID : string;
  tq_Body : option (string * string);
  tq_UserExists : bool;
  tq_Actor : string;
}.

Definition ErrUnknownLifecycleState : string := "unknown_lifecycle_state".
Definition ErrIllegalLifecycleTransition : string := "illegal_lifecycle_transition".
Definition ErrLifecycleStateConflict : string := "lifecycle_state_conflict".
Definition ErrNotFound : string := "not_found".

Definition applyLifecycleTransition (now : Z) (userID : string) (from to : State)
    (reason actor : string) (s : LifecycleStore * Audit) : response * (LifecycleStore * Audit) :=
  let t := NewTransition from to (Str.TrimSpace reason) actor now in
  match Append now userID t s.1 with
  | (Some _, _) => (RError 409 ErrLifecycleStateConflict, s)
  | (None, m) =>
      (ROK (<["user_id" := VStr userID]> $ <["state" := VStr to]> $ <["previous_state" := VStr from]> $
            <["allowed_transitions" := VList (AllowedTransitions to)]> ∅),
       (m, RecordTransition userID t s.2))
  end.

Definition HandleAdminTransitionUserLifecycle (now : Z) (q : TransitionRequest)
    (s : LifecycleStore * Audit) : response * (LifecycleStore * Audit) :=
  match tq_Body q with
  | Some (state, reason) =>
      if decide (tq_UserID q = "") then (RError 400 ErrInvalidRequest, s)
      else if decide (Str.TrimSpace state = "") then (RError 400 ErrInvalidRequest, s)
      else if negb (tq_UserExists q) then (RError 404 ErrNotFound, s)
      else
        let rec := GetRecord (tq_UserID q) s.1 in
        let to := Str.TrimSpace state in
        match ValidateTransition (lr_State rec) to with
        | Some ErrUnknownState => (RError 400 ErrUnknownLifecycleState, s)
        | Some _ => (RError 400 ErrIllegalLifecycleTransition, s)
        | None => applyLifecycleTransition now (tq_UserID q) (lr_State rec) to reason (tq_Actor q) s
        end
  | None => (RError 400 ErrInvalidRequest, s)
  end.

(** ** Runs

    Every caller validates before it appends; [step_append] is any other
    validated append (provisioning, or the second half of an admin request whose
    read another request has overtaken). *)
Inductive lc_step : LifecycleStore * Audit -> LifecycleStore * Audit -> Prop :=
| step_admin now q s : lc_step s (HandleAdminTransitionUserLifecycle now q s).2
| step_sweep d s : lc_step s (SweepOnce d s).2
| step_append now uid t m a :
    ValidateTransition (tr_From t) (tr_To t) = None ->
    lc_step (m, a) ((Append now uid t m).2, a).

Definition lc_reach : LifecycleStore * Audit -> LifecycleStore * Audit -> Prop := rtc lc_step.

(** Replaying a history from a start state: each entry leaves the state the
    previous one entered, along an edge of the table. *)
Fixpoint replay (s : State) (h : list Transition) : option State :=
  match h with
  | [] => Some s
  | t :: h => if bool_decide (tr_From t = s) && CanTransition (tr_From t) (tr_To t)
              then replay (tr_To t) h else None
  end.

Definition legal_record (r : LRecord) : Prop :=
  lr_History r <> [] /\ Valid (lr_State r) = true /\
  exists s0, (s0 = StateNone \/ s0 = DefaultState) /\ replay s0 (lr_History r) = Some (lr_State r).

(** ** Lemmas *)

Lemma ValidateTransition_None from to :
  ValidateTransition from to = None <-> Valid to = true /\ CanTransition from to = true.
Proof.
  unfold ValidateTransition. split.
  - repeat split_if; bool_simpl; naive_solver.
  - intros [Hv Hc]. rewrite Hv, Hc. simpl.
    destruct (bool_decide (from = StateNone)) eqn:Hn; [done|]. simpl.
    destruct (Valid from) eqn:Hf; [done|]. exfalso.
    unfold CanTransition in Hc.
    destruct (legalTransitions !! from) as [l|] eqn:El; [|by apply contains_spec, elem_of_nil in Hc].
    apply elem_of_list_to_map_2 in El. bool_simpl. apply not_true_iff_false in Hf.
    apply Hf, contains_spec. revert El Hn. clear. set_solver.
Qed.

Lemma replay_app s h s' t :
  replay s h = Some s' -> tr_From t = s' -> CanTransition (tr_From t) (tr_To t) = true ->
  replay s (h ++ [t]) = Some (tr_To t).
Proof.
  revert s. induction h as [|u h IH]; intros s; simpl.
  - intros [= ->] Ht Hc. by rewrite Hc, bool_decide_eq_true_2.
  - split_if; [|done]. intros. by apply IH.
Qed.

(** What a successful append did; a failed one changes nothing. *)
Lemma Append_cases now uid t m :
  (Append now uid t m = (Some ErrStateConflict, m)) \/
  exists h, Append now uid t m =
    (None, <[uid := {| lr_UserID := uid; lr_State := tr_To t; lr_History := h ++ [t];
                       lr_UpdatedAt := now |}]> m) /\
    ((m !! uid = None /\ h = [] /\ (tr_From t = StateNone \/ tr_From t = DefaultState)) \/
     exists r, m !! uid = Some r /\ h = lr_History r /\ tr_From t = lr_State r).
Proof.
  unfold Append. destruct (m !! uid) as [r|] eqn:Hm; repeat case_decide; simpl; auto;
    right; [exists (lr_History r)|exists []..]; (split; [reflexivity|]); eauto 10.
Qed.

Lemma Append_legal now uid t m :
  ValidateTransition (tr_From t) (tr_To t) = None ->
  map_Forall (fun _ => legal_record) m -> map_Forall (fun _ => legal_record) (Append now uid t m).2.
Proof.
  intros [Hv Hc]%ValidateTransition_None Hm.
  destruct (Append_cases now uid t m) as [->|(h & -> & Hh)]; [done|].
  apply map_Forall_insert_2; [|done]. split; simpl; [by destruct h|]. split; [done|].
  destruct Hh as [(_ & -> & Hs)|(r & Hr & -> & Hf)].
  - exists (tr_From t). split; [done|]. simpl. by rewrite Hc, bool_decide_eq_true_2.
  - apply Hm in Hr as (_ & _ & s0 & Hs0 & Hrep). exists s0. split; [done|]. by eapply replay_app.
Qed.

Lemma Append_purged now uid t m v r :
  ValidateTransition (tr_From t) (tr_To t) = None ->
  m !! v = Some r -> lr_State r = StatePurged -> (Append now uid t m).2 !! v = Some r.
Proof.
  intros [_ Hc]%ValidateTransition_None Hr Hp.
  destruct (Append_cases now uid t m) as [->|(h & -> & Hh)]; [done|]. simpl.
  destruct (decide (uid = v)) as [->|Hne]; [|by rewrite lookup_insert_ne].
  destruct Hh as [(Hn & _)|(r' & Hr' & _ & Hf)]; [congruence|].
  simplify_eq. rewrite Hf, Hp in Hc. by vm_compute in Hc.
Qed.

Lemma nextState_legal d current la now :
  nextState d current la now <> StateNone ->
  ValidateTransition current (nextState d current la now) = None.
Proof.
  unfold nextState. repeat case_decide; subst; repeat split_if; intros; try done; by vm_compute.
Qed.

(** Every store change of the sweep and of the handler is a validated append. *)
Lemma sweepUser_append d uid now s :
  (sweepUser d uid now s).2 = s \/
  exists t la, sd_LastActive d uid = Some la /\ tr_To t = nextState d (GetState uid s.1) la now /\
    tr_From t = GetState uid s.1 /\ tr_To t <> StateNone /\
    ValidateTransition (tr_From t) (tr_To t) = None /\
    (Append now uid t s.1).1 = None /\
    sweepUser d uid now s = (true, ((Append now uid t s.1).2, s.2 ++ [(uid, t)])).
Proof.
  unfold sweepUser. destruct (sd_LastActive d uid) as [la|]; [|by left]. case_decide; [by left|].
  unfold sweep_apply. set (t := NewTransition _ _ _ _ _).
  destruct (Append now uid t s.1) as [[e|] m'] eqn:Ha; [by left|]. right.
  exists t, la. rewrite Ha. split_and!; try done. by apply nextState_legal.
Qed.

Lemma HandleAdmin_append now q s :
  (HandleAdminTransitionUserLifecycle now q s).2.1 = s.1 \/
  exists t, ValidateTransition (tr_From t) (tr_To t) = None /\
    (HandleAdminTransitionUserLifecycle now q s).2.1 = (Append now (tq_UserID q) t s.1).2.
Proof.
  unfold HandleAdminTransitionUserLifecycle. destruct (tq_Body q) as [[st reason]|]; [|by left].
  repeat case_decide; [by left..|]. destruct (tq_UserExists q); [|by left]. simpl.
  destruct (ValidateTransition _ _) as [[]|] eqn:Hv; [by left..|].
  unfold applyLifecycleTransition. set (t := NewTransition _ _ _ _ _).
  destruct (Append now (tq_UserID q) t s.1) as [[e|] m'] eqn:Ha; [by left|]. right. exists t.
  by rewrite Ha.
Qed.

(** A predicate kept by every validated append is kept by every step. *)
Section append_invariant.
Context (P : LifecycleStore -> Prop).
Context (P_append : forall now uid t m,
  ValidateTransition (tr_From t) (tr_To t) = None -> P m -> P (Append now uid t m).2).

Lemma sweep_users_invariant d now users n s :
  P s.1 -> P (sweep_users d now users n s).2.1.
Proof.
  revert n s. induction users as [|[id|] users IH]; intros n s Hs; simpl; [done| |by apply IH].
  case_decide; [by apply IH|]. split_if; [done|].
  destruct (sweepUser d id now s) as [ok s'] eqn:E. apply IH.
  destruct (sweepUser_append d id now s) as [Heq|(t & la & _ & _ & _ & _ & Hv & _ & Heq)];
    rewrite E in Heq; simplify_eq/=; auto.
Qed.

Lemma lc_step_invariant s s' : lc_step s s' -> P s.1 -> P s'.1.
Proof.
  intros [now q s1|d s1|now uid t m a Hv] Hs; simpl; auto.
  - destruct (HandleAdmin_append now q s1) as [->|(t & Hv & ->)]; auto.
  - unfold SweepOnce. split_if; [done|]. destruct (sd_Users d) as [users|]; [|done].
    destruct (sweep_users _ _ _ _ _) as [n s2] eqn:E. simpl.
    change s2 with (n, s2).2. rewrite <- E. by apply sweep_users_invariant.
Qed.

Lemma lc_reach_invariant s s' : lc_reach s s' -> P s.1 -> P s'.1.
Proof. induction 1; eauto using lc_step_invariant. Qed.
End append_invariant.

Lemma sweepUser_other d uid v now s :
  uid <> v -> (sweepUser d uid now s).2.1 !! v = s.1 !! v.
Proof.
  intros Hne. destruct (sweepUser_append d uid now s) as [->|(t & la & _ & _ & _ & _ & _ & _ & ->)]; [done|].
  simpl. destruct (Append_cases now uid t s.1) as [->|(h & -> & _)]; [done|].
  by apply lookup_insert_ne.
Qed.

(** What one sweep may do to one account. *)
Definition advanced (d : SweepDeps) (uid : string) (now : Z) (m m' : LifecycleStore) : Prop :=
  exists la, sd_LastActive d uid = Some la /\ la <> 0 /\
    ((GetState uid m = StateActive /\ GetState uid m' = StateInactive /\
      DormantAfter (sd_Config d) < GoTime.Sub now la) \/
     (GetState uid m = StateInactive /\ GetState uid m' = StateArchived /\
      0 < ArchiveAfter (sd_Config d) /\
      wrap64 (DormantAfter (sd_Config d) + ArchiveAfter (sd_Config d)) < GoTime.Sub now la)).

Lemma nextState_spec d current la now :
  nextState d current la now <> StateNone ->
  la <> 0 /\
  ((current = StateActive /\ nextState d current la now = StateInactive /\
    DormantAfter (sd_Config d) < GoTime.Sub now la) \/
   (current = StateInactive /\ nextState d current la now = StateArchived /\
    0 < ArchiveAfter (sd_Config d) /\
    wrap64 (DormantAfter (sd_Config d) + ArchiveAfter (sd_Config d)) < GoTime.Sub now la)).
Proof.
  unfold nextState, IsDormant, GoTime.IsZero.
  repeat case_decide; repeat split_if; bool_simpl; intros; try done; auto 10.
Qed.

Lemma sweepUser_advanced d uid now s :
  (sweepUser d uid now s).2.1 !! uid = s.1 !! uid \/
  advanced d uid now s.1 (sweepUser d uid now s).2.1.
Proof.
  destruct (sweepUser_append d uid now s) as [->|(t & la & Hla & Hto & _ & Hn & _ & Hok & ->)]; [by left|].
  right. exists la. split; [done|]. rewrite Hto in Hn. apply nextState_spec in Hn as [H0 Hn].
  split; [done|]. simpl.
  assert (GetState uid (Append now uid t s.1).2 = tr_To t) as ->.
  { destruct (Append_cases now uid t s.1) as [He|(h & He & _)]; rewrite He in *; [done|]. simpl.
    unfold GetState. by rewrite lookup_insert_eq. }
  rewrite Hto. done.
Qed.

Lemma sweep_users_other d now users n s v :
  Some v ∉ users -> (sweep_users d now users n s).2.1 !! v = s.1 !! v.
Proof.
  revert n s. induction users as [|[id|] users IH]; intros n s Hv; simpl; [done| |apply IH; set_solver].
  case_decide; [apply IH; set_solver|]. split_if; [done|].
  destruct (sweepUser d id now s) as [ok s'] eqn:E. rewrite IH by set_solver.
  change s' with (ok, s').2. rewrite <- E. apply sweepUser_other. set_solver.
Qed.

Lemma advanced_lookup d uid now m1 m2 m1' m2' :
  m1 !! uid = m1' !! uid -> m2 !! uid = m2' !! uid ->
  advanced d uid now m1 m2 -> advanced d uid now m1' m2'.
Proof. unfold advanced, GetState. by intros -> ->. Qed.

Lemma sweep_users_spec d now users n s :
  NoDup (omap id users) ->
  (forall uid, (sweep_users d now users n s).2.1 !! uid = s.1 !! uid \/
     (Some uid ∈ users /\ advanced d uid now s.1 (sweep_users d now users n s).2.1)).
Proof.
  revert n s. induction users as [|[i|] users IH]; intros n s Hnd uid; simpl; [by left| |].
  - simpl in Hnd. apply NoDup_cons in Hnd as [Hi Hnd].
    assert (Some i ∉ users) as Hi'.
    { intros Hin. apply Hi, list_elem_of_omap. by exists (Some i). }
    case_decide; [destruct (IH n s Hnd uid) as [?|[??]]; [auto|right; split; [set_solver|done]]|].
    split_if; [by left|]. destruct (sweepUser d i now s) as [ok s'] eqn:E.
    assert (s' = (sweepUser d i now s).2) as Hs' by by rewrite E.
    set (n' := if ok then n + 1 else n).
    destruct (decide (i = uid)) as [->|Hne].
    + pose proof (sweep_users_other d now users n' s' uid Hi') as Hsame.
      destruct (sweepUser_advanced d uid now s) as [Heq|Hadv]; rewrite <- Hs' in *; [left; congruence|].
      right. split; [set_solver|]. by eapply advanced_lookup.
    + pose proof (sweepUser_other d i uid now s Hne) as Hsame. rewrite <- Hs' in Hsame.
      destruct (IH n' s' Hnd uid) as [Heq|[Hin Hadv]]; [left; congruence|].
      right. split; [set_solver|]. by eapply advanced_lookup.
  - simpl in Hnd. destruct (IH n s Hnd uid) as [?|[??]]; [auto|right; split; [set_solver|done]].
Qed.

Lemma sweep_users_count d now users n s :
  let r := sweep_users d now users n s in
  n <= r.1 /\ (0 < MaxPerSweep (sd_Config d) -> n <= MaxPerSweep (sd_Config d) -> r.1 <= MaxPerSweep (sd_Config d)) /\
  Z.of_nat (length r.2.2) = Z.of_nat (length s.2) + (r.1 - n).
Proof.
  revert n s. induction users as [|[id|] users IH]; intros n s; simpl; [lia| |apply IH].
  case_decide; [apply IH|].
  destruct ((0 <? MaxPerSweep (sd_Config d)) && (MaxPerSweep (sd_Config d) <=? n)) eqn:Hmax; simpl; [lia|].
  destruct (sweepUser d id now s) as [ok s'] eqn:E.
  destruct (IH (if ok then n + 1 else n) s') as (H1 & H2 & H3). rewrite H3.
  assert (length s'.2 = length s.2 + (if ok then 1 else 0))%nat as Hl.
  { destruct (sweepUser_append d id now s) as [Heq|(t & la & _ & _ & _ & _ & _ & _ & Heq)];
      rewrite E in Heq; simpl in Heq; simplify_eq; [|simpl; by rewrite length_app].
    unfold sweepUser in E. destruct (sd_LastActive d id); [|simplify_eq; lia].
    case_decide; [simplify_eq; lia|]. unfold sweep_apply in E.
    destruct (Append now id _ s.1) as [[e|] m']; [simplify_eq/=; lia|].
    apply (f_equal (fun x => length x.2.2)) in E. unfold RecordTransition in E. simpl in E.
    rewrite length_app in E. simpl in E. lia. }
  apply andb_false_iff in Hmax. rewrite Z.ltb_ge, Z.leb_gt in Hmax.
  rewrite Hl. destruct ok; simpl in *; (split; [lia|]); (split; [|lia]); intros; apply H2; lia.
Qed.

(** ** Properties *)

(** every stored history is a legal walk: after any interleaving of admin
    requests, deprovisioning sweeps and other validated appends from the empty
    store, each account's record is in a known state, its history is non-empty
    and replays, edge by edge of the transition table and without a gap, from the
    seed state or the implicit ACTIVE state to the current one. *)
Theorem lifecycle_history_legal m a uid r :
  lc_reach (∅, []) (m, a) -> m !! uid = Some r -> legal_record r.
Proof.
  intros Hr Hm. apply (lc_reach_invariant (map_Forall (fun _ => legal_record))) in Hr.
  - by apply Hr in Hm.
  - intros. by apply Append_legal.
  - apply map_Forall_empty.
Qed.

(** PURGED is terminal: once an account is purged, no later run of admin
    requests, sweeps and validated appends changes its record in any way, and it
    never again may authenticate. *)
Theorem purged_terminal s s' uid r :
  lc_reach s s' -> s.1 !! uid = Some r -> lr_State r = StatePurged ->
  s'.1 !! uid = Some r /\ AllowsAuthentication (GetState uid s'.1) = false.
Proof.
  intros Hr Hm Hp.
  assert (s'.1 !! uid = Some r) as Hm'.
  { refine (lc_reach_invariant (fun m => m !! uid = Some r) _ s s' Hr Hm).
    intros. by eapply Append_purged. }
  split; [done|]. unfold GetState. by rewrite Hm', Hp.
Qed.

(** a deprovisioning sweep is safe: it applies at most MaxPerSweep transitions
    (when that is positive), audits exactly the ones it applied, and for a roster
    without duplicates an account is either left alone or moved exactly one step —
    ACTIVE to INACTIVE, or INACTIVE to ARCHIVED when archiving is on — on positive
    evidence of inactivity longer than the threshold; an account off the roster is
    never touched. *)
Theorem sweep_sound d s users n s' :
  sd_Users d = Some users -> NoDup (omap id users) -> SweepOnce d s = (Ok n, s') ->
  (forall uid, s'.1 !! uid = s.1 !! uid \/
     (Some uid ∈ users /\ advanced d uid (sd_now d) s.1 s'.1)) /\
  (0 < MaxPerSweep (sd_Config d) -> 0 <= n <= MaxPerSweep (sd_Config d)) /\
  Z.of_nat (length s'.2) = Z.of_nat (length s.2) + n.
Proof.
  intros Hu Hnd. unfold SweepOnce. split_if.
  { intros [= <- <-]. split_and!; [auto|lia|lia]. }
  rewrite Hu. pose proof (sweep_users_spec d (sd_now d) users 0 s Hnd) as Hspec.
  pose proof (sweep_users_count d (sd_now d) users 0 s) as (H1 & H2 & H3).
  destruct (sweep_users d (sd_now d) users 0 s) as [n' s1]. intros [= <- <-]. simpl in *.
  split_and!; [done|intros; split; [done|apply H2; lia]|lia].
Qed.

Lemma legal_GetState uid m :
  map_Forall (fun _ => legal_record) m -> Valid (GetState uid m) = true.
Proof.
  intros Hm. unfold GetState. destruct (m !! uid) as [r|] eqn:Hr; [|done].
  by apply Hm in Hr as (_ & Hv & _).
Qed.

Lemma GetRecord_state uid m : lr_State (GetRecord uid m) = GetState uid m.
Proof. unfold GetRecord, GetState. by destruct (m !! uid). Qed.

Lemma GetRecord_insert uid r m : GetRecord uid (<[uid := r]> m) = r.
Proof. unfold GetRecord. by rewrite lookup_insert_eq. Qed.

(** An append from the live state succeeds. *)
Lemma Append_live now uid t m :
  tr_From t = GetState uid m -> tr_From t <> StateNone ->
  Append now uid t m =
    (None, <[uid := {| lr_UserID := uid; lr_State := tr_To t;
                       lr_History := lr_History (GetRecord uid m) ++ [t]; lr_UpdatedAt := now |}]> m).
Proof.
  intros Hf Hn. unfold Append, GetState, GetRecord in *. rewrite decide_False by done.
  destruct (m !! uid); rewrite decide_True by done; done.
Qed.

(** the admin transition request answers 200 exactly when it is well formed, the
    user exists and the table has the edge from the account's live state to the
    (trimmed) requested one; it then enters that state, with the transition
    appended to the history under the acting admin and audited.  Every other
    request changes neither the store nor the audit trail. *)
Theorem admin_transition_spec now q s :
  map_Forall (fun _ => legal_record) s.1 ->
  let from := GetState (tq_UserID q) s.1 in
  let r := HandleAdminTransitionUserLifecycle now q s in
  let accepted state reason :=
    tq_Body q = Some (state, reason) /\ tq_UserID q <> "" /\ tq_UserExists q = true /\
    ValidateTransition from (Str.TrimSpace state) = None in
  (forall state reason, accepted state reason ->
     exists b, r.1 = ROK b /\
     let t := NewTransition from (Str.TrimSpace state) (Str.TrimSpace reason) (tq_Actor q) now in
     GetRecord (tq_UserID q) r.2.1 =
       {| lr_UserID := tq_UserID q; lr_State := Str.TrimSpace state;
          lr_History := lr_History (GetRecord (tq_UserID q) s.1) ++ [t]; lr_UpdatedAt := now |} /\
     r.2.2 = s.2 ++ [(tq_UserID q, t)]) /\
  ((forall state reason, ~ accepted state reason) ->
     r.2 = s /\ exists status code, r.1 = RError status code).
Proof.
  intros Hs from r accepted. pose proof (legal_GetState (tq_UserID q) _ Hs) as Hfrom. fold from in Hfrom.
  unfold r, HandleAdminTransitionUserLifecycle. rewrite GetRecord_state. fold from. split.
  - intros state reason (Hb & Hu & He & Hv). rewrite Hb, He, Hv. simpl.
    rewrite decide_False by done. rewrite decide_False.
    + unfold applyLifecycleTransition. rewrite Append_live; [|done|by intros Heq; simpl in Heq; rewrite Heq in Hfrom].
      eexists. split; [done|]. simpl. by rewrite GetRecord_insert.
    + intros Heq. by rewrite Heq in Hv; unfold ValidateTransition in Hv; rewrite Hfrom, andb_false_r in Hv.
  - intros Hno. destruct (tq_Body q) as [[state reason]|]; [|by eauto].
    repeat case_decide; [by eauto..|]. destruct (tq_UserExists q) eqn:He; [|by eauto]. simpl.
    destruct (ValidateTransition from _) as [[]|] eqn:Hv; [by eauto..|].
    exfalso. by apply (Hno state reason).
Qed.

(** the transitions offered for a state are exactly those the table allows, each
    once, in increasing order, whatever the order the target map is walked in. *)
Theorem AllowedTransitions_spec from :
  (forall to, to ∈ AllowedTransitions from <-> CanTransition from to = true) /\
  NoDup (AllowedTransitions from) /\ StronglySorted str_le (AllowedTransitions from) /\
  (forall l, l ≡ₚ default [] (legalTransitions !! from) -> merge_sort str_le l = AllowedTransitions from).
Proof.
  assert (forall l, merge_sort str_le l ≡ₚ l) as Hperm by (intros; apply merge_sort_Permutation).
  assert (AntiSymm (=) str_le) by apply str_le_antisymm.
  split_and!.
  - intros to. unfold AllowedTransitions, CanTransition. by rewrite contains_spec, Hperm.
  - unfold AllowedTransitions. rewrite Hperm.
    destruct (legalTransitions !! from) as [l|] eqn:El; [|apply NoDup_nil_2].
    apply elem_of_list_to_map_2 in El. simpl.
    assert (Forall (fun kv : State * list State => NoDup kv.2)
      [(StateNone, [StateInvited; StateActive]);
       (StateInvited, [StateActive; StateArchived]);
       (StateActive, [StateSuspended; StateInactive; StateArchived]);
       (StateSuspended, [StateActive; StateArchived]);
       (StateInactive, [StateActive; StateArchived]);
       (StateArchived, [StateActive; StatePurged]);
       (StatePurged, [])]) as Hall by (apply (bool_decide_unpack _); vm_compute; exact I).
    rewrite Forall_forall in Hall. apply (Hall _ El).
  - apply (StronglySorted_merge_sort str_le).
  - intros l Hl. unfold AllowedTransitions.
    apply (StronglySorted_unique str_le); [apply (StronglySorted_merge_sort str_le)..|].
    by rewrite !Hperm.
Qed.

(** ** Witnesses *)

Definition sample_request (state : string) : TransitionRequest :=
  {| tq_UserID := "u1"; tq_Body := Some (state, " policy hold "); tq_UserExists := true; tq_Actor := "root" |}.

Definition after_requests (states : list string) : LifecycleStore * Audit :=
  foldl (fun s st => (HandleAdminTransitionUserLifecycle 100 (sample_request st) s).2) (∅, []) states.

Lemma after_requests_reach states : lc_reach (∅, []) (after_requests states).
Proof.
  unfold after_requests. generalize (∅ : LifecycleStore, [] : Audit). unfold lc_reach.
  induction states as [|st states IH]; intros s; simpl; [constructor|].
  eapply rtc_l; [|apply IH]. apply step_admin.
Qed.

Definition sample_sweep : SweepDeps :=
  {| sd_Users := Some [Some "u1"; None; Some "u2"; Some "u3"];
     sd_LastActive := fun u => if decide (u = "u3") then None else Some 10;
     sd_now := 10 + 91 * 24 * GoTime.Hour;
     sd_Config := {| DormantAfter := 90 * 24 * GoTime.Hour; ArchiveAfter := 0; MaxPerSweep := 1 |} |}.

Lemma lifecycle_history_legal_witness :
  exists r, (after_requests ["archived"; "suspended"; "active"]).1 !! "u1" = Some r /\
    lr_State r = StateActive /\ length (lr_History r) = 2%nat /\ legal_record r.
Proof.
  eexists. split_and!; [vm_compute; reflexivity|reflexivity|reflexivity|].
  eapply (lifecycle_history_legal _ (after_requests ["archived"; "suspended"; "active"]).2 "u1").
  - rewrite <- surjective_pairing. apply after_requests_reach.
  - vm_compute. reflexivity.
Defined.

Lemma purged_terminal_witness :
  exists r, (after_requests ["archived"; "purged"]).1 !! "u1" = Some r /\
  (SweepOnce sample_sweep (after_requests ["archived"; "purged"])).2.1 !! "u1" = Some r.
Proof.
  eexists. split; [vm_compute; reflexivity|].
  apply (purged_terminal (after_requests ["archived"; "purged"])).
  - apply rtc_once, step_sweep.
  - vm_compute. reflexivity.
  - reflexivity.
Defined.

Lemma sweep_sound_witness :
  (SweepOnce sample_sweep (∅, [])).1 = Ok 1 /\
  GetState "u1" (SweepOnce sample_sweep (∅, [])).2.1 = StateInactive /\
  Z.of_nat (length (SweepOnce sample_sweep (∅, [])).2.2) = 1.
Proof.
  split; [vm_compute; reflexivity|]. split; [vm_compute; reflexivity|].
  apply (sweep_sound sample_sweep (∅, []) [Some "u1"; None; Some "u2"; Some "u3"] 1
           (SweepOnce sample_sweep (∅, [])).2).
  - reflexivity.
  - apply (bool_decide_unpack _). vm_compute. exact I.
  - vm_compute. reflexivity.
Defined.

Lemma admin_transition_spec_witness :
  exists b, (HandleAdminTransitionUserLifecycle 100 (sample_request "suspended ") (∅, [])).1 = ROK b.
Proof.
  destruct (admin_transition_spec 100 (sample_request "suspended ") (∅, [])) as [H _].
  - apply map_Forall_empty.
  - destruct (H "suspended " " policy hold ") as (b & Hb & _); [|by exists b].
    split_and!; [reflexivity|discriminate|reflexivity|vm_compute; reflexivity].
Defined.
