(* ===== verification/Issue.v ===== *)
(** * Issue: minting the stored credentials ([oauthwire/auth_code_handler.go]).

    PKCE verification, [IssueAuthCode] and [IssueRefreshToken].  The stores are
    reached through an [Issue] operation, as in the code; the system's random
    source is an argument, one optional string per [GenerateAuthCodeBytes] call
    ([None] when the source fails). *)
From S2P Require Import Prelude Crypto Core RefreshStore Sharded CodeStores.
Local Open Scope Z_scope.

(** ** PKCE (RFC 7636) *)

Definition PKCEMethodPlain : string := "plain".
Definition PKCEMethodS256 : string := "S256".

Definition IsValidPKCEMethod (method : string) : bool :=
  bool_decide (method = "") || bool_decide (method = PKCEMethodPlain) ||
  bool_decide (method = PKCEMethodS256).

Definition IsPKCEMethodAllowedForClient (method : string) (allowed : list string) : bool :=
  match allowed with [] => true | _ => contains allowed method end.

(** [subtle.ConstantTimeCompare] is equality of the byte strings. *)
Definition VerifyPKCE (method challenge verifier : string) : bool :=
  if decide (method = PKCEMethodS256) then bool_decide (sha256_base64url verifier = challenge)
  else if decide (method = PKCEMethodPlain \/ method = "") then bool_decide (verifier = challenge)
  else false.

(** ** Issuing *)

Inductive issue_error (E : Type) : Type := IssueRandFailed | IssueStoreFailed (e : E).
Arguments IssueRandFailed {E}.
Arguments IssueStoreFailed {E} e.

Record IssueAuthCodeParams := {
  iac_AuthCodeTTL : Z;
  iac_UserID : string;
  iac_ClientID : string;
  iac_RedirectURI : string;
  iac_Scopes : list string;
  iac_Nonce : string;
  iac_Provider : string;
  iac_AuthMethods : list string;
  iac_ACR : string;
  iac_AuthTime : Z;
  iac_Attributes : gmap string string;
  iac_CodeChallenge : string;
  iac_CodeChallengeMethod : string;
  iac_Resources : list string;
  iac_AuthorizationDetails : string;
  iac_SID : string;
  iac_ConfirmationJKT : string;
  iac_RequestedClaims : string;
}.

(** The entry [IssueAuthCode] stores. *)
Definition auth_code_entry (now : Z) (p : IssueAuthCodeParams) : AuthCode :=
  let ttl := if iac_AuthCodeTTL p <=? 0 then 10 * GoTime.Minute else iac_AuthCodeTTL p in
  {| ac_UserID := iac_UserID p;
     ac_ClientID := iac_ClientID p;
     ac_RedirectURI := iac_RedirectURI p;
     ac_Scopes := iac_Scopes p;
     ac_Nonce := iac_Nonce p;
     ac_Provider := iac_Provider p;
     ac_Attributes := iac_Attributes p;
     ac_AuthTime := if GoTime.IsZero (iac_AuthTime p) then now else iac_AuthTime p;
     ac_CodeChallenge := iac_CodeChallenge p;
     ac_CodeChallengeMethod := iac_CodeChallengeMethod p;
     ac_Resources := iac_Resources p;
     ac_AuthMethods := iac_AuthMethods p;
     ac_ACR := iac_ACR p;
     ac_AuthorizationDetails := iac_AuthorizationDetails p;
     ac_SID := iac_SID p;
     ac_ConfirmationJKT := iac_ConfirmationJKT p;
     ac_RequestedClaims := iac_RequestedClaims p;
     ac_ExpiresAt := GoTime.Add now ttl |}.

Definition IssueAuthCode {S E} (issue : string -> AuthCode -> S -> option E * S)
    (now : Z) (rand : option string) (p : IssueAuthCodeParams) (s : S)
    : result (issue_error E) string * S :=
  match rand with
  | None => (Err IssueRandFailed, s)
  | Some code =>
      match issue code (auth_code_entry now p) s with
      | (Some e, s) => (Err (IssueStoreFailed e), s)
      | (None, s) => (Ok code, s)
      end
  end.

Record IssueRefreshTokenParams := {
  irt_RefreshTokenTTL : Z;
  irt_UserID : string;
  irt_ClientID : string;
  irt_Provider : string;
  irt_Scopes : list string;
  irt_Attributes : gmap string string;
  irt_FamilyID : string;
  irt_JTI : string;
  irt_Resources : list string;
  irt_AuthorizationDetails : string;
  irt_SID : string;
  irt_AMR : list string;
  irt_ACR : string;
  irt_AuthTime : Z;
  irt_ClientTTLOverride : Z;
  irt_ConfirmationJKT : string;
  irt_Generation : Z;
  irt_FamilyCreatedAt : Z;
  irt_Roles : list string;
}.

Definition resolveRefreshTTL (p : IssueRefreshTokenParams) : Z :=
  if 0 <? irt_ClientTTLOverride p then irt_ClientTTLOverride p
  else if 0 <? irt_RefreshTokenTTL p then irt_RefreshTokenTTL p
  else 30 * 24 * GoTime.Hour.

(** [fid] and [jti] are the family and correlation ids after the fresh-family
    branch has filled them in. *)
Definition buildRefreshTokenEntry (now : Z) (p : IssueRefreshTokenParams) (fid jti : string)
    (ttl : Z) (freshFamily : bool) : RefreshToken :=
  {| rt_UserID := irt_UserID p;
     rt_ClientID := irt_ClientID p;
     rt_Provider := irt_Provider p;
     rt_Scopes := irt_Scopes p;
     rt_Attributes := irt_Attributes p;
     rt_IssuedAt := now;
     rt_ExpiresAt := GoTime.Add now ttl;
     rt_FamilyID := fid;
     rt_JTI := jti;
     rt_Resources := irt_Resources p;
     rt_AuthorizationDetails := irt_AuthorizationDetails p;
     rt_SID := irt_SID p;
     rt_Amr := irt_AMR p;
     rt_Acr := irt_ACR p;
     rt_AuthTime := irt_AuthTime p;
     rt_ConfirmationJKT := irt_ConfirmationJKT p;
     rt_Generation := irt_Generation p;
     rt_FamilyCreatedAt := if freshFamily then now else irt_FamilyCreatedAt p;
     rt_Roles := irt_Roles p |}.

(** The three random draws of one issue: the token, the family id, the jti. *)
Record Draws := { dr_token : option string; dr_family : option string; dr_jti : option string }.

(** The family id and jti of the record, [None] when a draw fails. *)
Definition lineage (dr : Draws) (p : IssueRefreshTokenParams) : option (string * string) :=
  if decide (irt_FamilyID p = "") then
    match dr_family dr with
    | None => None
    | Some fid =>
        if decide (irt_JTI p = "")
        then match dr_jti dr with None => None | Some jti => Some (fid, jti) end
        else Some (fid, irt_JTI p)
    end
  else Some (irt_FamilyID p, irt_JTI p).

Definition IssueRefreshToken {S E} (issue : string -> RefreshToken -> S -> option E * S)
    (now : Z) (dr : Draws) (p : IssueRefreshTokenParams) (s : S)
    : result (issue_error E) string * S :=
  match dr_token dr with
  | None => (Err IssueRandFailed, s)
  | Some token =>
      let ttl := resolveRefreshTTL p in
      let freshFamily := bool_decide (irt_FamilyID p = "") in
      match lineage dr p with
      | None => (Err IssueRandFailed, s)
      | Some (fid, jti) =>
          match issue token (buildRefreshTokenEntry now p fid jti ttl freshFamily) s with
          | (Some e, s) => (Err (IssueStoreFailed e), s)
          | (None, s) => (Ok token, s)
          end
      end
  end.

(** ** Lemmas on the encoding *)

Definition is_byte (b : Z) : Prop := 0 <= b < 256.

Lemma digit_inj x y : Base64.digit x = Base64.digit y -> x mod 64 = y mod 64.
Proof.
  unfold Base64.digit. rewrite !(Z.land_ones _ 6) by lia. change (2 ^ 6) with 64.
  pose proof (Z.mod_pos_bound x 64 ltac:(lia)) as Hx. pose proof (Z.mod_pos_bound y 64 ltac:(lia)) as Hy.
  rewrite !nth_lookup.
  assert (NoDup Base64.alphabet) as Hnd by (apply (bool_decide_unpack _); vm_compute; exact I).
  assert (forall z, 0 <= z < 64 -> is_Some (Base64.alphabet !! Z.to_nat z)) as Hlt.
  { intros z Hz. apply lookup_lt_is_Some_2. change (length Base64.alphabet) with 64%nat. lia. }
  destruct (Hlt _ Hx) as [c Hc], (Hlt _ Hy) as [d Hd]. rewrite Hc, Hd. simpl. intros <-.
  pose proof (NoDup_lookup _ _ _ _ Hnd Hc Hd). lia.
Qed.

Lemma shiftr_div a n : 0 <= n -> Z.shiftr a n = a / 2 ^ n.
Proof. apply Z.shiftr_div_pow2. Qed.

Lemma RawURLEncode_inj bs bs' :
  Forall is_byte bs -> Forall is_byte bs' ->
  Base64.RawURLEncode bs = Base64.RawURLEncode bs' -> bs = bs'.
Proof.
  remember (length bs) as n eqn:Hn. assert (length bs <= n)%nat as Hle by lia. clear Hn.
  revert bs bs' Hle. induction n as [|n IH]; intros bs bs' Hle Hb Hb' He.
  { destruct bs; [|simpl in Hle; lia]. by destruct bs' as [|? [|? [|??]]]. }
  destruct bs as [|a [|b [|c bs]]], bs' as [|a' [|b' [|c' bs']]]; try done; simpl in He;
    repeat match goal with H : Forall _ (_ :: _) |- _ => apply Forall_cons in H as [? H] end;
    injection He as He; unfold is_byte in *;
    repeat match goal with H : Base64.digit _ = Base64.digit _ |- _ => apply digit_inj in H end;
    rewrite ?shiftr_div in * by lia; change (2 ^ 2) with 4 in *; change (2 ^ 4) with 16 in *;
    change (2 ^ 6) with 64 in *.
  - f_equal. Z.to_euclidean_division_equations. lia.
  - assert (a = a') as -> by (Z.to_euclidean_division_equations; lia).
    f_equal. f_equal. Z.to_euclidean_division_equations; lia.
  - assert (a = a') as -> by (Z.to_euclidean_division_equations; lia).
    assert (b = b') as -> by (Z.to_euclidean_division_equations; lia).
    assert (c = c') as -> by (Z.to_euclidean_division_equations; lia).
    do 3 f_equal. apply IH; [simpl in Hle; lia|done..].
Qed.

Lemma be_bytes_bytes n x : Forall is_byte (SHA256.be_bytes n x).
Proof.
  unfold SHA256.be_bytes, is_byte. apply Forall_fmap, Forall_true. intros i. simpl.
  rewrite (Z.land_ones _ 8) by lia. apply Z.mod_pos_bound. lia.
Qed.

Lemma Sum256_bytes msg : Forall is_byte (SHA256.Sum256 msg).
Proof.
  unfold SHA256.Sum256. generalize (SHA256.blocks (length (SHA256.pad msg) / 64) SHA256.H0
    (SHA256.words (SHA256.pad msg))). intros l.
  induction l as [|x l IH]; [constructor|]. apply Forall_app. split; [apply be_bytes_bytes|exact IH].
Qed.

(** What the refresh store holds after a successful issue into it. *)
Lemma IssueRefreshToken_Ok {S E} (issue : string -> RefreshToken -> S -> option E * S) now dr p s tok s' :
  IssueRefreshToken issue now dr p s = (Ok tok, s') ->
  exists fid jti, dr_token dr = Some tok /\ lineage dr p = Some (fid, jti) /\
    issue tok (buildRefreshTokenEntry now p fid jti (resolveRefreshTTL p)
                 (bool_decide (irt_FamilyID p = ""))) s = (None, s').
Proof.
  unfold IssueRefreshToken. destruct (dr_token dr) as [t|]; [|done].
  destruct (lineage dr p) as [[fid jti]|]; [|done].
  destruct (issue _ _ _) as [[e|] s1] eqn:Hi; [done|]. intros [= <- <-]. eauto.
Qed.

Lemma lineage_rotation dr p :
  irt_FamilyID p <> "" -> lineage dr p = Some (irt_FamilyID p, irt_JTI p).
Proof. intros. unfold lineage. by rewrite decide_False. Qed.

(** Issuing into the in-memory store, as the server wires it. *)
Definition issue_memory (tok : string) (info : RefreshToken) (m : MemoryRefreshTokenStore)
    : option refresh_error * MemoryRefreshTokenStore := Issue tok (Some info) m.

Definition issue_code_memory (code : string) (info : AuthCode) (m : MemoryAuthCodeStore)
    : option code_error * MemoryAuthCodeStore := IssueCode code (Some info) m.

Lemma Issue_None_entry tok info m m' :
  Issue tok (Some info) m = (None, m') ->
  entries m' !! tok = Some info /\ tok <> "" /\
  (rt_FamilyID info <> "" -> families m' !! tok = Some (rt_FamilyID info)) /\
  (forall t, t <> tok -> entries m' !! t = entries m !! t).
Proof.
  unfold Issue. case_decide; [done|]. split_if; [done|]. intros [= <-]. simpl.
  split_and!; [apply lookup_insert_eq|done| |intros; by rewrite lookup_insert_ne].
  intros. rewrite decide_False by done. apply lookup_insert_eq.
Qed.

(** ** Properties *)

(** PKCE binds the exchange to the party that started it: under S256 a challenge
    made from one verifier is accepted for that verifier, and any other verifier it
    is accepted for is a SHA-256 collision with it; under "plain" (or the empty
    method) only the very same string is accepted, and no other method accepts
    anything. *)
Theorem VerifyPKCE_binding method challenge v v' :
  VerifyPKCE PKCEMethodS256 (sha256_base64url v) v = true /\
  (VerifyPKCE method challenge v = true -> VerifyPKCE method challenge v' = true ->
     IsValidPKCEMethod method = true /\
     (v = v' \/ (method = PKCEMethodS256 /\
        SHA256.Sum256 (string_bytes v) = SHA256.Sum256 (string_bytes v')))).
Proof.
  split; [unfold VerifyPKCE; rewrite decide_True by done; by apply bool_decide_eq_true|].
  unfold VerifyPKCE, IsValidPKCEMethod.
  destruct (decide (method = PKCEMethodS256)) as [Hm|_];
    [|destruct (decide (method = PKCEMethodPlain \/ method = "")) as [Hm|_]; [|done]];
    rewrite !bool_decide_eq_true.
  - subst method. intros <- Heq. split; [by vm_compute|]. right.
    split; [done|]. unfold sha256_base64url in Heq. apply (f_equal Str.to_list) in Heq.
    rewrite !Str.to_of_list in Heq. symmetry.
    eapply RawURLEncode_inj; [apply Sum256_bytes..|done].
  - intros -> ->. split; [|by left]. by destruct Hm as [->| ->]; vm_compute.
Qed.

(** what [IssueRefreshToken] persists: on success the store holds, under the
    returned token, a record for the given user, client and authentication event
    that expires after the first positive of the client override, the server TTL
    and thirty days.  A rotation keeps the family id, the jti and the family's
    creation time it was given; a first issue starts a family of its own now, under
    the drawn id.  No other token's record changes. *)
Theorem IssueRefreshToken_persists now dr p m tok m' :
  IssueRefreshToken issue_memory now dr p m = (Ok tok, m') ->
  exists info, entries m' !! tok = Some info /\
    (forall t, t <> tok -> entries m' !! t = entries m !! t) /\
    (rt_UserID info, rt_ClientID info, rt_Scopes info) = (irt_UserID p, irt_ClientID p, irt_Scopes p) /\
    (rt_Amr info, rt_Acr info, rt_AuthTime info, rt_ConfirmationJKT info, rt_Generation info) =
      (irt_AMR p, irt_ACR p, irt_AuthTime p, irt_ConfirmationJKT p, irt_Generation p) /\
    rt_ExpiresAt info = now + (if 0 <? irt_ClientTTLOverride p then irt_ClientTTLOverride p
                               else if 0 <? irt_RefreshTokenTTL p then irt_RefreshTokenTTL p
                               else 30 * 24 * GoTime.Hour) /\
    (if decide (irt_FamilyID p = "")
     then dr_family dr = Some (rt_FamilyID info) /\ rt_FamilyCreatedAt info = now
     else rt_FamilyID info = irt_FamilyID p /\ rt_JTI info = irt_JTI p /\
          rt_FamilyCreatedAt info = irt_FamilyCreatedAt p /\ families m' !! tok = Some (irt_FamilyID p)).
Proof.
  intros (fid & jti & _ & Hl & Hi)%IssueRefreshToken_Ok.
  apply Issue_None_entry in Hi as (He & _ & Hf & Ho). eexists. split; [exact He|].
  split_and!; [done..|]. destruct (decide (irt_FamilyID p = "")) as [Hfam|Hfam].
  - simpl. rewrite bool_decide_eq_true_2 by done. split; [|done]. revert Hl.
    unfold lineage. destruct (decide (irt_FamilyID p = "")) as [_|]; [|done].
    destruct (dr_family dr); [|done].
    destruct (decide (irt_JTI p = "")); [destruct (dr_jti dr); [|done]|]; congruence.
  - rewrite lineage_rotation in Hl by done. simplify_eq. rewrite bool_decide_eq_false_2 in * by done.
    simpl in *. split_and!; try done. by apply Hf.
Qed.

(** ** Witnesses *)

(** The vector of RFC 7636, appendix B. *)
Lemma VerifyPKCE_binding_rfc7636 :
  VerifyPKCE "S256" "E9Melhoa2OwvFrEMTJguCHaoeK1t8URWbuGJSstw-cM"
    "dBjftJeZ4CVP-mB92K27uhbUJU1p1r_wW1gFWFOEjXk" = true.
Proof. vm_compute. reflexivity. Qed.

Lemma VerifyPKCE_binding_witness :
  SHA256.Sum256 (string_bytes "dBjftJeZ4CVP-mB92K27uhbUJU1p1r_wW1gFWFOEjXk") =
  SHA256.Sum256 (string_bytes "dBjftJeZ4CVP-mB92K27uhbUJU1p1r_wW1gFWFOEjXk").
Proof.
  destruct (VerifyPKCE_binding "S256" "E9Melhoa2OwvFrEMTJguCHaoeK1t8URWbuGJSstw-cM"
    "dBjftJeZ4CVP-mB92K27uhbUJU1p1r_wW1gFWFOEjXk" "dBjftJeZ4CVP-mB92K27uhbUJU1p1r_wW1gFWFOEjXk")
    as [_ H].
  destruct H as [_ [_|[_ H]]].
  - vm_compute. reflexivity.
  - vm_compute. reflexivity.
  - reflexivity.
  - exact H.
Defined.

Definition sample_params (fid : string) : IssueRefreshTokenParams := {|
  irt_RefreshTokenTTL := GoTime.Hour; irt_UserID := "alice"; irt_ClientID := "app";
  irt_Provider := "pwd"; irt_Scopes := ["openid"]; irt_Attributes := ∅; irt_FamilyID := fid;
  irt_JTI := ""; irt_Resources := []; irt_AuthorizationDetails := ""; irt_SID := ""; irt_AMR := ["pwd"];
  irt_ACR := ""; irt_AuthTime := 5; irt_ClientTTLOverride := 0; irt_ConfirmationJKT := "";
  irt_Generation := 0; irt_FamilyCreatedAt := 0; irt_Roles := [] |}.

Definition sample_draws (tok : string) : Draws :=
  {| dr_token := Some tok; dr_family := Some "fam-1"; dr_jti := Some "jti-1" |}.

Lemma IssueRefreshToken_persists_witness :
  exists info,
    entries (IssueRefreshToken issue_memory 100 (sample_draws "rt-1") (sample_params "")
               (NewMemoryRefreshTokenStore 0 0 0)).2 !! "rt-1" = Some info /\
    rt_ExpiresAt info = 100 + GoTime.Hour.
Proof.
  destruct (IssueRefreshToken_persists 100 (sample_draws "rt-1") (sample_params "")
    (NewMemoryRefreshTokenStore 0 0 0) "rt-1"
    (IssueRefreshToken issue_memory 100 (sample_draws "rt-1") (sample_params "")
       (NewMemoryRefreshTokenStore 0 0 0)).2) as (info & H1 & _ & _ & _ & H2 & _).
  - vm_compute. reflexivity.
  - exists info. split; [exact H1|exact H2].
Defined.
