(* ===== verification/RefreshIface.v ===== *)
(** * RefreshIface: what the token endpoint needs of a refresh-token store.

    [oauthspi.RefreshTokenStore] with its optional extensions
    ([RefreshTokenInspector], [RefreshTokenFamilyTracker],
    [RefreshTokenRotationLimiter]: [None] when the backend does not implement
    them), and the promises those interfaces document, stated against an abstract
    view [rs_live] of which tokens a store would honour.  The in-memory store
    discharges them; the grant handlers are verified against the class. *)
From S2P Require Import Prelude Core RefreshStore.
Local Open Scope Z_scope.

(** [Consume] fails with an error and, on reuse, the record naming the family. *)
Class RefreshTokenStore (St : Type) := {
  rs_Consume : Z -> string -> St -> result (refresh_error * option RefreshToken) RefreshToken * St;
  rs_Issue : string -> RefreshToken -> St -> option refresh_error * St;
  rs_Inspect : option (Z -> string -> St -> result refresh_error RefreshToken * St);
  rs_DeleteFamily : option (string -> St -> result refresh_error Z * St);
  rs_RecordRotation : option (Z -> string -> St -> result refresh_error (Z * bool) * St);
}.

(** [s'] honours no token that [s] does not. *)
Definition shrinks {St} (live : St -> string -> option RefreshToken) (s s' : St) : Prop :=
  forall t i, live s' t = Some i -> live s t = Some i.

Lemma shrinks_refl {St} (live : St -> string -> option RefreshToken) s : shrinks live s s.
Proof. by intros t i. Qed.
Lemma shrinks_trans {St} (live : St -> string -> option RefreshToken) s1 s2 s3 :
  shrinks live s1 s2 -> shrinks live s2 s3 -> shrinks live s1 s3.
Proof. intros H1 H2 t i H. by apply H1, H2. Qed.
#[export] Hint Resolve shrinks_refl shrinks_trans : snap.

Class RefreshTokenStoreLaws (St : Type) `{!RefreshTokenStore St} := {
  rs_live : St -> string -> option RefreshToken;
  rs_Consume_Ok now t s i s' :
    rs_Consume now t s = (Ok i, s') ->
    rs_live s t = Some i /\ RefreshToken_IsExpired now i = false /\
    forall t', rs_live s' t' = if decide (t' = t) then None else rs_live s t';
  rs_Consume_Err now t s e s' :
    rs_Consume now t s = (Err e, s') ->
    shrinks rs_live s s' /\ (e.1 = ErrRefreshTokenReused -> rs_live s t = None);
  rs_Issue_None t i s s' :
    rs_Issue t i s = (None, s') ->
    rs_live s' t = Some i /\ forall t', t' <> t -> rs_live s' t' = rs_live s t';
  rs_Issue_Some t i s e s' :
    rs_Issue t i s = (Some e, s') -> shrinks rs_live s s';
  rs_Inspect_shrinks f now t s :
    rs_Inspect = Some f -> shrinks rs_live s (f now t s).2;
  rs_Inspect_live f now t s i s' :
    rs_Inspect = Some f -> f now t s = (Ok i, s') ->
    rs_live s t = Some i /\ RefreshToken_IsExpired now i = false /\ s' = s;
  rs_Inspect_keeps f now t s i :
    rs_Inspect = Some f -> rs_live s t = Some i -> RefreshToken_IsExpired now i = false ->
    (f now t s).2 = s;
  rs_Inspect_dead f now t s :
    rs_Inspect = Some f -> rs_live s t = None -> exists e, f now t s = (Err e, s);
  rs_DeleteFamily_shrinks f fid s :
    rs_DeleteFamily = Some f -> shrinks rs_live s (f fid s).2;
  rs_DeleteFamily_Ok f fid s n s' :
    rs_DeleteFamily = Some f -> fid <> "" -> f fid s = (Ok n, s') ->
    forall t i, rs_live s' t = Some i -> rt_FamilyID i <> fid;
  rs_RecordRotation_live f now fid s t :
    rs_RecordRotation = Some f -> rs_live (f now fid s).2 t = rs_live s t;
}.

(** ** The in-memory store *)

#[export] Instance Memory_RefreshTokenStore : RefreshTokenStore MemoryRefreshTokenStore := {|
  rs_Consume now t s :=
    match Consume now t s with
    | ((info, Some e), s') => (Err (e, info), s')
    | ((Some i, None), s') => (Ok i, s')
    | ((None, None), s') => (Err (ErrRefreshTokenNotFound, None), s')
    end;
  rs_Issue t i s := Issue t (Some i) s;
  rs_Inspect := Some Inspect;
  rs_DeleteFamily := Some (fun fid s => let '(n, s') := DeleteFamily fid s in (Ok (Z.of_nat n), s'));
  rs_RecordRotation := Some (fun now fid s => let '(r, s') := RecordRotation now fid s in (Ok r, s'));
|}.

(** A store operation that only deletes entries honours nothing new. *)
Lemma entries_shrink (s s' : MemoryRefreshTokenStore) :
  entries s' ⊆ entries s -> shrinks (fun s t => entries s !! t) s s'.
Proof. intros Hs t i Ht. by eapply lookup_weaken. Qed.

#[export] Program Instance Memory_RefreshTokenStoreLaws : RefreshTokenStoreLaws MemoryRefreshTokenStore := {|
  rs_live s t := entries s !! t;
|}.
Next Obligation.
  cbn. unfold Consume. intros now t s i s'. destruct (entries s !! t) as [e|] eqn:He.
  - destruct (RefreshToken_IsExpired now e) eqn:Hx; [done|]. intros [= <- <-]. split_and!; [done..|].
    intros t'. cbn. case_decide as Ht; [subst; apply lookup_delete_eq|by apply lookup_delete_ne].
  - destruct (families s !! t) as [f|]; [|done]. by case_decide.
Qed.
Next Obligation.
  cbn. unfold Consume. intros now t s e s'. destruct (entries s !! t) as [en|] eqn:He.
  - destruct (RefreshToken_IsExpired now en) eqn:Hx; [|done]. intros [= <- <-].
    split; [apply entries_shrink, delete_subseteq|done].
  - assert (shrinks (fun s t => entries s !! t) s
              (with_maps s (delete t (entries s)) (families s) (rotations s)))
      by apply entries_shrink, delete_subseteq.
    destruct (families s !! t) as [f|]; [destruct (decide (f = ""))|]; intros [= <- <-]; by split.
Qed.
Next Obligation.
  cbn. unfold Issue. intros t i s s'. case_decide; [done|]. split_if; [done|]. intros [= <-]. cbn.
  split; [apply lookup_insert_eq|]. intros. by rewrite lookup_insert_ne.
Qed.
Next Obligation.
  cbn. unfold Issue. intros t i s e s'. case_decide; [intros [= _ <-]; auto with snap|].
  split_if; [intros [= _ <-]; auto with snap|done].
Qed.
Next Obligation.
  cbn. intros f now t s [= <-]. unfold Inspect. destruct (entries s !! t) as [e|]; [|auto with snap].
  split_if; [apply entries_shrink, delete_subseteq|auto with snap].
Qed.
Next Obligation.
  cbn. intros f now t s i s' [= <-]. unfold Inspect. destruct (entries s !! t) as [e|]; [|done].
  destruct (RefreshToken_IsExpired now e) eqn:Hx; [done|]. by intros [= <- <-].
Qed.
Next Obligation.
  cbn. intros f now t s i [= <-] Hi Hx. unfold Inspect. by rewrite Hi, Hx.
Qed.
Next Obligation.
  cbn. intros f now t s [= <-] Ht. unfold Inspect. rewrite Ht. eauto.
Qed.
Next Obligation.
  cbn. intros f fid s [= <-]. unfold DeleteFamily. case_decide; [apply shrinks_refl|].
  apply entries_shrink, map_filter_subseteq.
Qed.
Next Obligation.
  cbn. intros f fid s n s' [= <-] Hf. unfold DeleteFamily. rewrite decide_False by done. intros [= <- <-].
  cbn. intros t i [_ Hi]%delete_where_lookup. by apply bool_decide_eq_false in Hi.
Qed.
Next Obligation.
  cbn. intros f now fid s t [= <-]. unfold RecordRotation. by case_decide.
Qed.

(** The in-memory store answers reuse exactly for a known, already spent token. *)
Lemma Memory_reused now t s f :
  entries s !! t = None -> families s !! t = Some f -> f <> "" ->
  (rs_Consume now t s).1 = Err (ErrRefreshTokenReused, Some (family_only f)).
Proof.
  intros He Hf Hn. cbn. unfold Consume. by rewrite He, Hf, decide_False.
Qed.
