(* ===== verification/GraceCache.v ===== *)
(** * GraceCache: the double-submit grace window
    ([tokengrant/refresh_grace.go], [core/types_token.go]).

    A rotated token's response is kept for a short window, keyed by the token it
    replaced, so that a second presentation of the same token can be answered
    with the same successor.  Every operation holds the cache's mutex. *)
From S2P Require Import Prelude Core.
Local Open Scope Z_scope.

Record refreshGraceEntry := { ge_resp : body; ge_expires : Z }.
Record RefreshGraceCache := { gc_window : Z; gc_m : gmap string refreshGraceEntry }.

Definition NewRefreshGraceCache (window : Z) : RefreshGraceCache :=
  {| gc_window := window; gc_m := ∅ |}.

(** The deadline key is either absent, a formatted time, or malformed (the zero
    time, which fails closed). *)
Definition RefreshGraceExpiresAt (resp : body) (now window : Z) : Z :=
  let expiresAt := GoTime.Add now window in
  match resp !! KeyRefreshGraceDeadline with
  | None => expiresAt
  | Some _ =>
      match deadline_at KeyRefreshGraceDeadline resp with
      | None => 0
      | Some deadline => if GoTime.Before deadline expiresAt then deadline else expiresAt
      end
  end.

Definition RefreshGracePendingResponse (resp : body) (now window : Z) : option body :=
  if bool_decide (resp !! KeyRefreshGraceDeadline = None)
     || negb (bool_decide (resp !! KeyRefreshGracePending = Some (VBool true)))
  then None
  else
    let deadline := RefreshGraceExpiresAt resp now window in
    if negb (GoTime.After deadline now) then None
    else Some (<[KeyRefreshGraceDeadline := VTime deadline]> resp).

Definition pruneLocked (now : Z) (m : gmap string refreshGraceEntry) : gmap string refreshGraceEntry :=
  delete_where (fun e => negb (GoTime.Before now (ge_expires e))) m.

Definition Remember (token : string) (resp : body) (now : Z) (c : RefreshGraceCache) : RefreshGraceCache :=
  if decide (token = "") then c
  else
    let m := pruneLocked now (gc_m c) in
    let expiresAt := RefreshGraceExpiresAt resp now (gc_window c) in
    {| gc_window := gc_window c;
       gc_m := if negb (GoTime.Before now expiresAt) then m
               else <[token := {| ge_resp := resp; ge_expires := expiresAt |}]> m |}.

Definition PreparePending (token : string) (resp : body) (now : Z) (c : RefreshGraceCache) : RefreshGraceCache :=
  if decide (token = "") then c
  else match RefreshGracePendingResponse resp now (gc_window c) with
       | None => c
       | Some b =>
           let m := pruneLocked now (gc_m c) in
           {| gc_window := gc_window c;
              gc_m := match m !! token with
                      | Some _ => m
                      | None => <[token := {| ge_resp := b;
                                              ge_expires := RefreshGraceExpiresAt b now (gc_window c) |}]> m
                      end |}
       end.

Definition Lookup (token : string) (now : Z) (c : RefreshGraceCache) : option body :=
  if decide (token = "") then None
  else match gc_m c !! token with
       | Some e => if GoTime.Before now (ge_expires e) then Some (ge_resp e) else None
       | None => None
       end.

(** The two writes, for statements about runs. *)
Inductive grace_op :=
| GRemember (token : string) (resp : body)
| GPreparePending (token : string) (resp : body).

Definition grace_step (c : RefreshGraceCache) (x : Z * grace_op) : RefreshGraceCache :=
  match x.2 with
  | GRemember t r => Remember t r x.1 c
  | GPreparePending t r => PreparePending t r x.1 c
  end.

(** What an entry may say: it was written at [t0], and it expires within the
    window and no later than its own deadline evidence. *)
Definition entry_ok (window : Z) (written : list Z) (e : refreshGraceEntry) : Prop :=
  exists t0, t0 ∈ written /\ t0 < ge_expires e <= t0 + window /\
    forall v, ge_resp e !! KeyRefreshGraceDeadline = Some v ->
      exists d, v = VTime d /\ ge_expires e <= d.

(** ** Lemmas *)

Lemma ExpiresAt_window resp now window :
  RefreshGraceExpiresAt resp now window <= Z.max 0 (now + window).
Proof.
  unfold RefreshGraceExpiresAt, GoTime.Before, GoTime.Add.
  destruct (resp !! _); [|lia]. destruct (deadline_at _ _); [|lia]. split_if; bool_simpl; lia.
Qed.

Lemma ExpiresAt_live resp now window :
  0 <= now -> now < RefreshGraceExpiresAt resp now window ->
  RefreshGraceExpiresAt resp now window <= now + window /\
  forall v, resp !! KeyRefreshGraceDeadline = Some v ->
    exists d, v = VTime d /\ RefreshGraceExpiresAt resp now window <= d.
Proof.
  unfold RefreshGraceExpiresAt, deadline_at, GoTime.Before, GoTime.Add. intros H0.
  destruct (resp !! KeyRefreshGraceDeadline) as [v|] eqn:Hd; [|split; [lia|done]].
  destruct v as [s|n|b|d|l]; try lia. split_if; bool_simpl;
    (split; [lia|intros v [= <-]; exists d; split; [done|lia]]).
Qed.

Lemma pruneLocked_lookup now m t e :
  pruneLocked now m !! t = Some e <-> m !! t = Some e /\ now < ge_expires e.
Proof.
  unfold pruneLocked. rewrite delete_where_lookup. unfold GoTime.Before.
  by rewrite negb_false_iff, Z.ltb_lt.
Qed.

Lemma PendingResponse_spec resp now window b :
  RefreshGracePendingResponse resp now window = Some b ->
  let d := RefreshGraceExpiresAt resp now window in
  now < d /\ b = <[KeyRefreshGraceDeadline := VTime d]> resp /\
  RefreshGraceExpiresAt b now window = Z.min d (now + window) /\
  resp !! KeyRefreshGracePending = Some (VBool true).
Proof.
  unfold RefreshGracePendingResponse. split_if; [done|]. bool_simpl. split_if; [done|].
  bool_simpl. unfold GoTime.After in *. bool_simpl. intros [= <-].
  split_and!; [done..| |done].
  set (d := RefreshGraceExpiresAt resp now window). unfold RefreshGraceExpiresAt, deadline_at.
  rewrite lookup_insert_eq. unfold GoTime.Before, GoTime.Add. split_if; bool_simpl; lia.
Qed.

Lemma grace_step_ok c x window written :
  gc_window c = window -> 0 <= x.1 -> 0 <= window ->
  map_Forall (fun _ => entry_ok window written) (gc_m c) ->
  gc_window (grace_step c x) = window /\
  map_Forall (fun _ => entry_ok window (x.1 :: written)) (gc_m (grace_step c x)).
Proof.
  intros Hw H0 Hw0 Hc. destruct x as [now op]. simpl in H0.
  assert (forall m : gmap string refreshGraceEntry, (forall k e, m !! k = Some e -> gc_m c !! k = Some e) ->
            map_Forall (fun _ => entry_ok window (now :: written)) m) as Hmono.
  { intros m Hm k e Hk. apply Hm, Hc in Hk as (t0 & Hin & ?). exists t0. split; [|done]. by right. }
  assert (map_Forall (fun _ => entry_ok window (now :: written)) (pruneLocked now (gc_m c))) as Hprune.
  { apply Hmono. by intros k e [? _]%pruneLocked_lookup. }
  assert (map_Forall (fun _ => entry_ok window (now :: written)) (gc_m c)) as Hsame by by apply Hmono.
  destruct op as [t r|t r]; cbn [grace_step fst snd]; [unfold Remember|unfold PreparePending];
    destruct (decide (t = "")); [done| |done|].
  - simpl. split; [done|]. unfold GoTime.Before.
    destruct (now <? RefreshGraceExpiresAt r now (gc_window c)) eqn:Hx; simpl; [|done].
    bool_simpl. apply map_Forall_insert_2; [|done]. exists now. simpl. rewrite Hw in *.
    destruct (ExpiresAt_live r now window H0 Hx) as [Hle Hd]. split; [left|]. split; [lia|done].
  - destruct (RefreshGracePendingResponse r now (gc_window c)) as [b|] eqn:Hp; simpl;
      [|done].
    split; [done|]. destruct (pruneLocked now (gc_m c) !! t); [done|].
    apply map_Forall_insert_2; [|done]. rewrite Hw in *.
    destruct (PendingResponse_spec _ _ _ _ Hp) as (Hlt & -> & Hmin & _).
    pose proof (ExpiresAt_live r now window H0 Hlt) as [Hle _].
    exists now. simpl. rewrite Hmin. split; [left|]. split; [lia|].
    intros v. rewrite lookup_insert_eq. intros [= <-]. eexists. split; [done|lia].
Qed.

Definition grace_run (c : RefreshGraceCache) (tr : list (Z * grace_op)) : RefreshGraceCache :=
  foldl grace_step c tr.

Lemma grace_run_ok c tr window written :
  gc_window c = window -> 0 <= window -> Forall (fun x => 0 <= x.1) tr ->
  map_Forall (fun _ => entry_ok window written) (gc_m c) ->
  map_Forall (fun _ => entry_ok window (written ++ tr.*1)) (gc_m (grace_run c tr)).
Proof.
  intros Hw H0 Htr. revert c written Hw. induction Htr as [|x tr Hx Htr IH]; intros c written Hw Hc; simpl.
  { by rewrite app_nil_r. }
  destruct (grace_step_ok c x window written Hw Hx H0 Hc) as [Hw' Hc'].
  specialize (IH _ _ Hw' Hc'). eapply map_Forall_impl; [exact IH|].
  intros _ e (t0 & Hin & He). exists t0. split; [|done]. set_solver.
Qed.

Lemma Lookup_Some token now c b :
  Lookup token now c = Some b <->
  token <> "" /\ exists e, gc_m c !! token = Some e /\ now < ge_expires e /\ ge_resp e = b.
Proof.
  unfold Lookup. case_decide; [naive_solver|].
  destruct (gc_m c !! token) as [e|] eqn:He; [|naive_solver].
  unfold GoTime.Before. destruct (now <? ge_expires e) eqn:Hx; bool_simpl; [naive_solver|].
  split; [done|]. intros (_ & e' & [= <-] & ? & _). lia.
Qed.

(** ** Properties *)

(** the grace cache never stretches a credential: from an empty cache, whatever
    is remembered or prepared at whatever times, a hit at time [now] comes from a
    write less than one window earlier, and if the cached response carries deadline
    evidence, that evidence is a well-formed time still in the future.  So a
    replay can only happen within the window and within the life of the grant. *)
Theorem grace_window_bounded window tr token now b :
  0 <= window -> Forall (fun x => 0 <= x.1) tr ->
  Lookup token now (grace_run (NewRefreshGraceCache window) tr) = Some b ->
  (exists t0, t0 ∈ tr.*1 /\ now < t0 + window) /\
  (forall v, b !! KeyRefreshGraceDeadline = Some v -> exists d, v = VTime d /\ now < d).
Proof.
  intros H0 Htr (_ & e & He & Hlt & <-)%Lookup_Some.
  apply (grace_run_ok (NewRefreshGraceCache window) tr window []) in He as (t0 & Hin & Ht & Hd);
    [|done|done|done|apply map_Forall_empty].
  split; [exists t0; split; [done|lia]|].
  intros v (d & -> & Hle)%Hd. exists d. split; [done|lia].
Qed.

(** preparing is an intent, remembering is an answer: a pending marker never
    replaces an answer or marker that is still live, for any token; and a response
    remembered with live deadline evidence is what every lookup returns until it
    expires, after which the same lookup misses. *)
Theorem grace_prepare_remember c token token' resp now now' b :
  (Lookup token' now c = Some b ->
     Lookup token' now (PreparePending token resp now c) = Some b) /\
  (token <> "" -> now < RefreshGraceExpiresAt resp now (gc_window c) ->
     Lookup token now' (Remember token resp now c) =
       if now' <? RefreshGraceExpiresAt resp now (gc_window c) then Some resp else None).
Proof.
  split.
  - intros (Ht & e & He & Hlt & <-)%Lookup_Some. apply Lookup_Some. split; [done|].
    exists e. split; [|done]. unfold PreparePending. case_decide; [done|].
    destruct (RefreshGracePendingResponse _ _ _); [|done]. simpl.
    assert (pruneLocked now (gc_m c) !! token' = Some e) as Hp by by apply pruneLocked_lookup.
    destruct (pruneLocked now (gc_m c) !! token) eqn:Htok; [done|].
    rewrite lookup_insert_ne by congruence. done.
  - intros Ht Hlt. unfold Remember, Lookup. rewrite !decide_False by done. simpl.
    unfold GoTime.Before. rewrite (proj2 (Z.ltb_lt _ _)) by done. simpl. by rewrite lookup_insert_eq.
Qed.

(** ** Witnesses *)

Definition sample_resp : body := <[KeyRefreshGraceDeadline := VTime 500]> (<[KeyAccessToken := VStr "at"]> ∅).

Lemma grace_window_bounded_witness :
  exists t0, t0 ∈ [100] /\ 105 < t0 + 10.
Proof.
  destruct (grace_window_bounded 10 [(100, GRemember "rt" sample_resp)] "rt" 105 sample_resp) as [H _].
  - vm_compute. discriminate.
  - repeat constructor. vm_compute. discriminate.
  - vm_compute. reflexivity.
  - exact H.
Defined.

Lemma grace_prepare_remember_witness :
  Lookup "rt" 109 (Remember "rt" sample_resp 100 (NewRefreshGraceCache 10)) = Some sample_resp.
Proof.
  destruct (grace_prepare_remember (NewRefreshGraceCache 10) "rt" "rt" sample_resp 100 109 sample_resp) as [_ H].
  apply H; [discriminate|vm_compute; reflexivity].
Defined.
