(* ===== verification/GrantCore.v ===== *)
(** * GrantCore: what the token-grant handlers share.

    [internal/handler/tokengrant] reaches the rest of the server through Deps
    interfaces.  The stores are state ([Server]); the token issuers, the session
    manager and the policy engines, which those interfaces leave open, are the
    operations of [Deps], acting on an abstract rest-of-the-server state [X].  A
    handler is a state transformer on [World]: the server, the responses written
    so far ([ctx.JSON]) and the record of observable calls. *)
From S2P Require Import Prelude Core Lifecycle RefreshStore CodeStores DeviceCodes CibaStore Issue RefreshIface GraceCache Scopes.
Local Open Scope Z_scope.

(** ** Interfaces *)

(** [core.TokenIssuer].  An issue error is [Some (status, code)] when it is an
    [AuthHookError] ([core.AuthHookHTTPError]), [None] otherwise. *)
Record TokenIssuer (X : Type) := {
  ti_Issue : Subject -> list string -> X -> result (option (Z * string)) Token * X;
  ti_Validate : X -> string -> result () (option TokenClaims);
}.
Arguments ti_Issue {X}.
Arguments ti_Validate {X}.

(** [oidc.IDTokenRequest]. *)
Record IDTokenRequest := {
  ir_Subject : string;
  ir_Audience : string;
  ir_Nonce : string;
  ir_AuthTime : Z;
  ir_AMR : list string;
  ir_ACR : string;
  ir_AZP : string;
  ir_Claims : gmap string string;
  ir_TTL : Z;
  ir_AccessToken : string;
  ir_DeviceSecret : string;
  ir_RequestedClaims : string;
  ir_GrantedScopes : list string;
  ir_GrantedResources : list string;
  ir_AuthorizationDetails : string;
  ir_SID : string;
  ir_ServingRegion : string;
}.

(** [core.SessionManager.Get], and [TrackActivity] when implemented. *)
Record SessionManager (X : Type) := {
  sm_Get : X -> string -> result () (option Session);
  sm_TrackActivity : option (string -> X -> X);
}.
Arguments sm_Get {X}.
Arguments sm_TrackActivity {X}.

Record Deps (X : Type) := {
  (** which stores are wired ([nil] otherwise) *)
  dp_RefreshTokenStore : bool;
  dp_AuthCodeStore : bool;
  dp_DeviceCodeStore : bool;
  dp_CIBAStore : bool;
  dp_DeviceSecretStore : bool;
  dp_SessionManager : option (SessionManager X);
  dp_IssuerForClient : X -> Client -> option (string * TokenIssuer X);
  (** [None]: resolution error; [Some None]: nothing to emit *)
  dp_IDTokenIssuerForClient :
    X -> Client -> option (option (IDTokenRequest -> X -> result () string * X));
  dp_ApplyPairwiseSubject : X -> Client -> string -> string;
  dp_MaybeEncryptIDToken : X -> Client -> string -> option string;
  dp_ProjectIDTokenClaims : gmap string string -> string -> gmap string string;
  (** [None]: the deps do not expose a lifecycle reader *)
  dp_LifecycleState : option (X -> string -> result () State);
  dp_EnforceRefreshDepthPolicy :
    string -> string -> string -> list string -> Z -> X -> option response * X;
  dp_EnforceRefreshConditionalAccess :
    Client -> RefreshToken -> list string -> X -> result response (list string) * X;
  dp_ScopeRegistry : option Registry;
  dp_RefreshAbsoluteMaxLifetime : Z;
  dp_refreshTokenTTL : Z;
  dp_deviceSecretTTL : Z;
}.
Arguments dp_RefreshTokenStore {X}. Arguments dp_AuthCodeStore {X}. Arguments dp_DeviceCodeStore {X}.
Arguments dp_CIBAStore {X}. Arguments dp_DeviceSecretStore {X}. Arguments dp_SessionManager {X}.
Arguments dp_IssuerForClient {X}. Arguments dp_IDTokenIssuerForClient {X}.
Arguments dp_ApplyPairwiseSubject {X}. Arguments dp_MaybeEncryptIDToken {X}.
Arguments dp_ProjectIDTokenClaims {X}. Arguments dp_LifecycleState {X}.
Arguments dp_EnforceRefreshDepthPolicy {X}. Arguments dp_EnforceRefreshConditionalAccess {X}.
Arguments dp_ScopeRegistry {X}. Arguments dp_RefreshAbsoluteMaxLifetime {X}.
Arguments dp_refreshTokenTTL {X}. Arguments dp_deviceSecretTTL {X}.

(** ** The world of a request *)

(** [d.RefreshGrace()] is [None] when nil. *)
Record Server (St X : Type) := {
  sv_now : Z;
  sv_refresh : St;
  sv_grace : option RefreshGraceCache;
  sv_codes : MemoryAuthCodeStore;
  sv_devices : MemoryDeviceCodeStore;
  sv_ciba : MemoryCIBAStore;
  sv_secrets : MemoryDeviceSecretStore;
  sv_x : X;
}.
Arguments sv_now {St X}. Arguments sv_refresh {St X}. Arguments sv_grace {St X}.
Arguments sv_codes {St X}. Arguments sv_devices {St X}. Arguments sv_ciba {St X}.
Arguments sv_secrets {St X}. Arguments sv_x {St X}.

(** The calls a handler makes for their effect outside the stores. *)
Inductive event :=
| EvLog (msg : string)
| EvTokenIssued (clientID strategy subjectID : string)
| EvRefreshTokenIssued (clientID subjectID : string) (rotation : bool)
| EvIDTokenIssued (clientID subjectID : string)
| EvSubjectClientAccess (subject clientID : string)
| EvRefreshTokenReuse (clientID subjectID familyID : string) (killed : Z)
| EvRotationVelocity (clientID familyID : string) (count killed : Z)
| EvRotationVelocityExceeded
| EvInvalidateIntrospection (token : string)
| EvCIBADecision (clientID subjectID : string) (approved : bool)
| EvCrossTenantExchange (subjectID clientID homeTenant guestTenant : string)
| EvSPIFFEAccepted (uri clientID trustDomain : string)
| EvNativeSSOExchange (clientID subject originalClient : string)
| EvNativeSSOFailure (clientID subject reason : string).

Record World (St X : Type) := {
  w_srv : Server St X;
  w_out : list response;
  w_events : list event;
}.
Arguments w_srv {St X}. Arguments w_out {St X}. Arguments w_events {St X}.

(** Request-scoped values: the sender-constraint proofs, the serving region, the
    certificate expiry, and the random draws of this request. *)
Record Request := {
  q_client : Client;
  q_dpopJKT : string;
  q_mtlsX5T : string;
  q_region : string;
  q_notAfter : Z;
  q_draws : Draws;
  q_secret : option string;
}.

Section primitives.
Context {St X : Type}.
Abbreviation G A := (M (World St X) A).

Definition set_srv (f : Server St X -> Server St X) (w : World St X) : World St X :=
  {| w_srv := f (w_srv w); w_out := w_out w; w_events := w_events w |}.

Definition with_refresh (s : St) (v : Server St X) : Server St X :=
  {| sv_now := sv_now v; sv_refresh := s; sv_grace := sv_grace v; sv_codes := sv_codes v;
     sv_devices := sv_devices v; sv_ciba := sv_ciba v; sv_secrets := sv_secrets v; sv_x := sv_x v |}.
Definition with_grace (g : option RefreshGraceCache) (v : Server St X) : Server St X :=
  {| sv_now := sv_now v; sv_refresh := sv_refresh v; sv_grace := g; sv_codes := sv_codes v;
     sv_devices := sv_devices v; sv_ciba := sv_ciba v; sv_secrets := sv_secrets v; sv_x := sv_x v |}.
Definition with_codes (c : MemoryAuthCodeStore) (v : Server St X) : Server St X :=
  {| sv_now := sv_now v; sv_refresh := sv_refresh v; sv_grace := sv_grace v; sv_codes := c;
     sv_devices := sv_devices v; sv_ciba := sv_ciba v; sv_secrets := sv_secrets v; sv_x := sv_x v |}.
Definition with_devices (c : MemoryDeviceCodeStore) (v : Server St X) : Server St X :=
  {| sv_now := sv_now v; sv_refresh := sv_refresh v; sv_grace := sv_grace v; sv_codes := sv_codes v;
     sv_devices := c; sv_ciba := sv_ciba v; sv_secrets := sv_secrets v; sv_x := sv_x v |}.
Definition with_ciba (c : MemoryCIBAStore) (v : Server St X) : Server St X :=
  {| sv_now := sv_now v; sv_refresh := sv_refresh v; sv_grace := sv_grace v; sv_codes := sv_codes v;
     sv_devices := sv_devices v; sv_ciba := c; sv_secrets := sv_secrets v; sv_x := sv_x v |}.
Definition with_secrets (c : MemoryDeviceSecretStore) (v : Server St X) : Server St X :=
  {| sv_now := sv_now v; sv_refresh := sv_refresh v; sv_grace := sv_grace v; sv_codes := sv_codes v;
     sv_devices := sv_devices v; sv_ciba := sv_ciba v; sv_secrets := c; sv_x := sv_x v |}.
Definition with_x (x : X) (v : Server St X) : Server St X :=
  {| sv_now := sv_now v; sv_refresh := sv_refresh v; sv_grace := sv_grace v; sv_codes := sv_codes v;
     sv_devices := sv_devices v; sv_ciba := sv_ciba v; sv_secrets := sv_secrets v; sv_x := x |}.

(** Reading the server, and running an operation of one of its parts. *)
Definition gets {A} (f : Server St X -> A) : G A := fun w => (f (w_srv w), w).

Definition on_refresh {A} (f : St -> A * St) : G A := fun w =>
  let '(a, s) := f (sv_refresh (w_srv w)) in (a, set_srv (with_refresh s) w).
Definition on_grace (f : RefreshGraceCache -> RefreshGraceCache) : G () := fun w =>
  ((), set_srv (with_grace (f <$> sv_grace (w_srv w))) w).
Definition on_codes {A} (f : MemoryAuthCodeStore -> A * MemoryAuthCodeStore) : G A := fun w =>
  let '(a, s) := f (sv_codes (w_srv w)) in (a, set_srv (with_codes s) w).
Definition on_devices {A} (f : MemoryDeviceCodeStore -> A * MemoryDeviceCodeStore) : G A := fun w =>
  let '(a, s) := f (sv_devices (w_srv w)) in (a, set_srv (with_devices s) w).
Definition on_ciba {A} (f : MemoryCIBAStore -> A * MemoryCIBAStore) : G A := fun w =>
  let '(a, s) := f (sv_ciba (w_srv w)) in (a, set_srv (with_ciba s) w).
Definition on_secrets {A} (f : MemoryDeviceSecretStore -> A * MemoryDeviceSecretStore) : G A := fun w =>
  let '(a, s) := f (sv_secrets (w_srv w)) in (a, set_srv (with_secrets s) w).
Definition on_x {A} (f : X -> A * X) : G A := fun w =>
  let '(a, x) := f (sv_x (w_srv w)) in (a, set_srv (with_x x) w).

(** [ctx.JSON], and the recording calls. *)
Definition respond (r : response) : G () := fun w =>
  ((), {| w_srv := w_srv w; w_out := w_out w ++ [r]; w_events := w_events w |}).
Definition emit (e : event) : G () := fun w =>
  ((), {| w_srv := w_srv w; w_out := w_out w; w_events := w_events w ++ [e] |}).

(** Other requests and the clock between two of this request's steps. *)
Definition environment (f : Server St X -> Server St X) : G () := fun w => ((), set_srv f w).

(** [ctx.JSON(status, core.ErrorBody(code)); return true]. *)
Definition refuse (status : Z) (code : string) : G bool :=
  _ ← respond (RError status code); mret true.

(** Sequencing after a gate that returns true when it has answered. *)
Definition unless (gate : G bool) (k : G ()) : G () :=
  handled ← gate; if (handled : bool) then mret () else k.

(** ** Shared steps of the handlers *)

Definition writeTokenIssueError (err : option (Z * string)) : G () :=
  match err with
  | Some (status, code) => respond (RError status code)
  | None => respond (RError 500 ErrInternal)
  end.

Definition lifecycleGrantBlocked (d : Deps X) (subject : string) : G bool :=
  match dp_LifecycleState d with
  | None => mret false
  | Some reader =>
      state ← gets (fun v => reader (sv_x v) subject);
      match state with
      | Ok st =>
          if AllowsAuthentication st then mret false
          else _ ← emit (EvLog "token grant denied by user lifecycle"); refuse 400 ErrInvalidGrant
      | Err _ => _ ← emit (EvLog "token grant denied by user lifecycle"); refuse 400 ErrInvalidGrant
      end
  end.

(** [scoperegistry.RejectUnregistered] writing to the request. *)
Definition rejectUnregistered (d : Deps X) (scopes : list string) : G bool :=
  match RejectUnregistered (dp_ScopeRegistry d) scopes with
  | Some r => _ ← respond r; mret true
  | None => mret false
  end.

(** [*sso.Server.IssueRefreshToken]. *)
Definition server_issueRefreshToken `{RefreshTokenStore St} (d : Deps X) (dr : Draws)
    (userID clientID provider : string) (scopes : list string) (attributes : gmap string string)
    (familyID : string) (resources : list string) (authDetails sid : string)
    (authCtx : RefreshAuthContext) (clientTTLOverride : Z) (confirmationJKT : string)
    : G (result (issue_error refresh_error) string) :=
  now ← gets sv_now;
  on_refresh (IssueRefreshToken rs_Issue now dr
    {| irt_RefreshTokenTTL := dp_refreshTokenTTL d;
       irt_UserID := userID; irt_ClientID := clientID; irt_Provider := provider;
       irt_Scopes := scopes; irt_Attributes := attributes; irt_FamilyID := familyID;
       irt_JTI := rac_JTI authCtx; irt_Resources := resources;
       irt_AuthorizationDetails := authDetails; irt_SID := sid;
       irt_AMR := rac_AMR authCtx; irt_ACR := rac_ACR authCtx; irt_AuthTime := rac_AuthTime authCtx;
       irt_ClientTTLOverride := clientTTLOverride; irt_ConfirmationJKT := confirmationJKT;
       irt_Generation := rac_Generation authCtx; irt_FamilyCreatedAt := rac_FamilyCreatedAt authCtx;
       irt_Roles := rac_Roles authCtx |}).

(** The fields of every token response. *)
Definition base_response (token : Token) (jkt strategy : string) : body :=
  <[KeyAccessToken := VStr (tk_AccessToken token)]> $
  <[KeyTokenType := VStr (dpopTokenTypeOr (tk_TokenType token) jkt)]> $
  <[KeyExpiresIn := VInt (tk_ExpiresIn token)]> $
  <[KeyScope := VStr (tk_Scope token)]> $
  <[KeyTokenStrategy := VStr strategy]> ∅.

(** ** Counting responses

    A gate answers exactly when it returns true; a handler answers once. *)

Definition answers {A} (m : G A) (n : A -> nat) : Prop :=
  forall w, exists rs, w_out (m w).2 = w_out w ++ rs /\ length rs = n (m w).1.

Definition silent {A} (m : G A) : Prop := answers m (fun _ => 0%nat).
Definition gate (m : G bool) : Prop := answers m (fun b : bool => if b then 1%nat else 0%nat).
Definition answers_once {A} (m : G A) : Prop := answers m (fun _ => 1%nat).

Lemma answers_bind {A B} (m : G A) (k : A -> G B) n1 n2 n :
  answers m n1 -> (forall a, answers (k a) (n2 a)) ->
  (forall a b, n1 a + n2 a b = n b)%nat -> answers (m ≫= k) n.
Proof.
  intros Hm Hk Hn w. rewrite M_bind_unfold.
  destruct (Hm w) as (r1 & H1 & L1), (Hk (m w).1 (m w).2) as (r2 & H2 & L2).
  exists (r1 ++ r2). rewrite H2, H1, app_assoc, length_app, L1, L2. by rewrite Hn.
Qed.

Lemma silent_bind {A B} (m : G A) (k : A -> G B) n :
  silent m -> (forall a, answers (k a) n) -> answers (m ≫= k) n.
Proof. intros Hm Hk. by eapply answers_bind; [exact Hm|intros; apply Hk|]. Qed.

Lemma gate_bind {B} (m : G bool) (k : bool -> G B) n :
  gate m -> (forall b, answers (k b) (fun x => n x - (if b then 1 else 0))%nat) ->
  (forall x, 1 <= n x)%nat -> answers (m ≫= k) n.
Proof.
  intros Hm Hk Hn. eapply answers_bind; [exact Hm|apply Hk|].
  intros [] b; simpl; specialize (Hn b); lia.
Qed.

Lemma silent_ret {A} (a : A) : silent (mret a).
Proof. intros w. exists []. by rewrite app_nil_r. Qed.
Lemma silent_gets {A} (f : Server St X -> A) : silent (gets f).
Proof. intros w. exists []. by rewrite app_nil_r. Qed.
Lemma silent_emit e : silent (emit e).
Proof. intros w. exists []. by rewrite app_nil_r. Qed.
Lemma silent_environment f : silent (environment f).
Proof. intros w. exists []. by rewrite app_nil_r. Qed.
Lemma silent_on_refresh {A} (f : St -> A * St) : silent (on_refresh f).
Proof. intros w. exists []. unfold on_refresh. destruct (f _). by rewrite app_nil_r. Qed.
Lemma silent_on_grace f : silent (on_grace f).
Proof. intros w. exists []. by rewrite app_nil_r. Qed.
Lemma silent_on_codes {A} (f : MemoryAuthCodeStore -> A * MemoryAuthCodeStore) : silent (on_codes f).
Proof. intros w. exists []. unfold on_codes. destruct (f _). by rewrite app_nil_r. Qed.
Lemma silent_on_devices {A} (f : MemoryDeviceCodeStore -> A * MemoryDeviceCodeStore) : silent (on_devices f).
Proof. intros w. exists []. unfold on_devices. destruct (f _). by rewrite app_nil_r. Qed.
Lemma silent_on_ciba {A} (f : MemoryCIBAStore -> A * MemoryCIBAStore) : silent (on_ciba f).
Proof. intros w. exists []. unfold on_ciba. destruct (f _). by rewrite app_nil_r. Qed.
Lemma silent_on_secrets {A} (f : MemoryDeviceSecretStore -> A * MemoryDeviceSecretStore) : silent (on_secrets f).
Proof. intros w. exists []. unfold on_secrets. destruct (f _). by rewrite app_nil_r. Qed.
Lemma silent_on_x {A} (f : X -> A * X) : silent (on_x f).
Proof. intros w. exists []. unfold on_x. destruct (f _). by rewrite app_nil_r. Qed.

Lemma once_respond r : answers_once (respond r).
Proof. intros w. by exists [r]. Qed.
Lemma gate_refuse status code : gate (refuse status code).
Proof. intros w. by exists [RError status code]. Qed.
Lemma gate_ret_false : gate (mret false).
Proof. intros w. exists []. by rewrite app_nil_r. Qed.

Lemma once_unless (g : G bool) (k : G ()) : gate g -> answers_once k -> answers_once (unless g k).
Proof.
  intros Hg Hk. eapply answers_bind; [exact Hg| |].
  - intros b. instantiate (1 := fun (b : bool) (_ : ()) => if b then 0%nat else 1%nat).
    destruct b; [apply silent_ret|apply Hk].
  - by intros [].
Qed.

(** [if g() { return true }; k]. *)
Lemma gate_then (g k : G bool) : gate g -> gate k -> gate (h ← g; if (h : bool) then mret true else k).
Proof.
  intros Hg Hk w. rewrite M_bind_unfold. destruct (Hg w) as (r1 & H1 & L1).
  destruct (g w) as [[] w1]; simpl in *; [by exists r1|].
  destruct r1; [|done]. rewrite app_nil_r in H1. destruct (Hk w1) as (r2 & H2 & L2).
  exists r2. by rewrite H2, H1.
Qed.

Lemma gate_respond r : gate (_ ← respond r; mret true).
Proof. intros w. by exists [r]. Qed.

Lemma once_writeTokenIssueError err : answers_once (writeTokenIssueError err).
Proof. destruct err as [[]|]; apply once_respond. Qed.
End primitives.

#[export] Hint Resolve silent_ret silent_gets silent_emit silent_environment silent_on_refresh
  silent_on_grace silent_on_codes silent_on_devices silent_on_ciba silent_on_secrets silent_on_x
  once_respond gate_refuse gate_respond gate_ret_false once_unless once_writeTokenIssueError : snap.

(** ** Leaving the refresh store and the clock alone *)

Definition keeps {St X A} (m : M (World St X) A) : Prop :=
  forall w, sv_refresh (w_srv (m w).2) = sv_refresh (w_srv w) /\ sv_now (w_srv (m w).2) = sv_now (w_srv w).

Lemma keeps_bind {St X A B} (m : M (World St X) A) (k : A -> M (World St X) B) :
  keeps m -> (forall a, keeps (k a)) -> keeps (m ≫= k).
Proof.
  intros Hm Hk w. rewrite M_bind_unfold. destruct (Hm w) as [<- <-]. apply Hk.
Qed.
Lemma keeps_unless {St X} (g : M (World St X) bool) k : keeps g -> keeps k -> keeps (unless g k).
Proof. intros Hg Hk. apply keeps_bind; [done|]. by intros []. Qed.
Lemma keeps_ret {St X A} (a : A) : keeps (St:=St) (X:=X) (mret a).
Proof. done. Qed.
Lemma keeps_gets {St X A} (f : Server St X -> A) : keeps (gets f).
Proof. done. Qed.
Lemma keeps_emit {St X} e : keeps (St:=St) (X:=X) (emit e).
Proof. done. Qed.
Lemma keeps_respond {St X} r : keeps (St:=St) (X:=X) (respond r).
Proof. done. Qed.
Lemma keeps_refuse {St X} st c : keeps (St:=St) (X:=X) (refuse st c).
Proof. done. Qed.
Lemma keeps_on_grace {St X} f : keeps (St:=St) (X:=X) (on_grace f).
Proof. done. Qed.
Lemma keeps_on_x {St X A} (f : X -> A * X) : keeps (St:=St) (on_x f).
Proof. intros w. unfold on_x. by destruct (f _). Qed.
#[export] Hint Resolve keeps_ret keeps_gets keeps_emit keeps_respond keeps_refuse keeps_on_grace
  keeps_on_x : snap.

Ltac keep :=
  repeat first
    [ solve [auto 2 with snap]
    | apply keeps_unless
    | apply keeps_bind; [|intros ?]
    | match goal with |- context [match ?x with _ => _ end] => destruct x end ].

Lemma keeps_lifecycle {St X} (d : Deps X) subject : keeps (lifecycleGrantBlocked (St:=St) d subject).
Proof. unfold lifecycleGrantBlocked. keep. Qed.
Lemma keeps_rejectUnregistered {St X} (d : Deps X) scopes : keeps (rejectUnregistered (St:=St) d scopes).
Proof. unfold rejectUnregistered. keep. Qed.
#[export] Hint Resolve keeps_lifecycle keeps_rejectUnregistered : snap.

(** ** Refusals

    A gate that returns true has answered with an error. *)

Definition is_error (r : response) : Prop := exists status code, r = RError status code.

Definition refuses {St X} (g : M (World St X) bool) : Prop :=
  forall w w', g w = (true, w') -> exists r, is_error r /\ w_out w' = w_out w ++ [r].

Lemma refuses_false {St X} : refuses (St:=St) (X:=X) (mret false).
Proof. by intros w w' [= ]. Qed.
Lemma refuses_refuse {St X} st c : refuses (St:=St) (X:=X) (refuse st c).
Proof. intros w w' [= <-]. eexists. split; [by do 2 eexists|done]. Qed.
Lemma refuses_bind {St X A} (m : M (World St X) A) k :
  silent m -> (forall a, refuses (k a)) -> refuses (m ≫= k).
Proof.
  intros Hm Hk w w'. rewrite M_bind_unfold. destruct (Hm w) as (r & Ho & Hl).
  destruct r; [|done]. rewrite app_nil_r in Ho. rewrite <- Ho. apply Hk.
Qed.
#[export] Hint Resolve refuses_false refuses_refuse : snap.

Ltac refusing :=
  repeat first
    [ solve [auto 2 with snap]
    | apply refuses_bind; [solve [auto 2 with snap]|intros ?]
    | match goal with |- context [match ?x with _ => _ end] => destruct x end ].

Lemma refuses_lifecycle {St X} (d : Deps X) subject : refuses (lifecycleGrantBlocked (St:=St) d subject).
Proof. unfold lifecycleGrantBlocked. refusing. Qed.

Lemma refuses_rejectUnregistered {St X} (d : Deps X) scopes :
  refuses (rejectUnregistered (St:=St) d scopes).
Proof.
  unfold rejectUnregistered, RejectUnregistered.
  destruct (dp_ScopeRegistry d); [|apply refuses_false]. split_if; [apply refuses_false|].
  intros w w' [= <-]. eexists. split; [by do 2 eexists|done].
Qed.
#[export] Hint Resolve refuses_lifecycle refuses_rejectUnregistered : snap.

(** A handler guarded by [g] that ends in a success passed [g]. *)
Lemma unless_ok {St X} (g : M (World St X) bool) k w w' b :
  gate g -> refuses g -> unless g k w = ((), w') -> w_out w' = w_out w ++ [ROK b] ->
  exists w1, g w = (false, w1) /\ w_out w1 = w_out w /\ k w1 = ((), w').
Proof.
  intros Hg Hr. unfold unless. rewrite M_bind_unfold. destruct (Hg w) as (rs & Ho & Hl).
  destruct (g w) as [[] w1] eqn:E; simpl in *.
  - intros [= <-]. destruct (Hr w w1 E) as (r & (st & c & ->) & Ho'). rewrite Ho'.
    by intros [= ?]%(inj _).
  - destruct rs; [|done]. rewrite app_nil_r in Ho. eauto.
Qed.

(** Walks a handler body: binds of silent calls, case analyses, final answers. *)
Ltac count_step :=
  first
    [ match goal with
      | |- answers ?m (fun _ => 0%nat) => change (silent m)
      | |- answers ?m (fun _ => 1%nat) => change (answers_once m)
      | |- answers ?m (fun b : bool => if b then 1%nat else 0%nat) => change (gate m)
      end
    | solve [auto 3 with snap]
    | apply once_unless
    | apply gate_then
    | match goal with |- answers (mbind ?k ?m) _ => apply silent_bind; [|intros ?] end
    | match goal with |- answers_once (mbind ?k ?m) => apply silent_bind; [|intros ?] end
    | match goal with |- silent (mbind ?k ?m) => apply silent_bind; [|intros ?] end
    | match goal with |- gate (mbind ?k ?m) => apply silent_bind; [|intros ?] end
    | match goal with |- context [match ?x with _ => _ end] => destruct x end ].
Ltac count := repeat count_step.

Lemma gate_lifecycle {St X} (d : Deps X) subject : gate (lifecycleGrantBlocked (St:=St) d subject).
Proof. unfold lifecycleGrantBlocked. count. Qed.

Lemma gate_rejectUnregistered {St X} (d : Deps X) scopes : gate (rejectUnregistered (St:=St) d scopes).
Proof.
  unfold rejectUnregistered. destruct (RejectUnregistered _ _) as [r|]; [|count].
  intros w. by exists [r].
Qed.

Lemma silent_issueRefresh {St X} `{RefreshTokenStore St} (d : Deps X) dr u c p sc at' f r ad sid ac ttl j :
  silent (server_issueRefreshToken (St:=St) d dr u c p sc at' f r ad sid ac ttl j).
Proof. unfold server_issueRefreshToken. count. Qed.
#[export] Hint Resolve gate_lifecycle gate_rejectUnregistered silent_issueRefresh : snap.

(** ** Passing and obtaining *)

Lemma ok_not_error (P : Prop) (l l2 : list response) b r :
  is_error r -> l2 = l ++ [r] -> l2 = l ++ [ROK b] -> P.
Proof. intros (st & c & ->) -> [=]%(inj _). Qed.

Lemma error_is_error st c : is_error (RError st c).
Proof. by do 2 eexists. Qed.

Lemma writeIssueError_error {St X} e (w : World St X) :
  exists r, is_error r /\ w_out (writeTokenIssueError e w).2 = w_out w ++ [r].
Proof. destruct e as [[st c]|]; eexists; (split; [by do 2 eexists|done]). Qed.

Definition lifecycle_ok {X} (d : Deps X) (x : X) (subject : string) : Prop :=
  dp_LifecycleState d = None \/
  exists reader, dp_LifecycleState d = Some reader /\ reader x subject = Ok StateActive.

Lemma lifecycle_false {St X} (d : Deps X) subject (w w1 : World St X) :
  lifecycleGrantBlocked (St:=St) d subject w = (false, w1) ->
  w1 = w /\ lifecycle_ok d (sv_x (w_srv w)) subject.
Proof.
  unfold lifecycleGrantBlocked, lifecycle_ok. destruct (dp_LifecycleState d) as [reader|].
  - rewrite M_bind_unfold. simpl. destruct (reader _ _) as [st|] eqn:Hr; [|done].
    destruct (AllowsAuthentication st) eqn:Ha; [|done]. intros [= <-]. split; [done|].
    apply bool_decide_eq_true in Ha as ->. right. eauto.
  - intros [= <-]. auto.
Qed.

(** A step that gives [None] exactly when it has answered. *)
Definition resolves {St X A} (m : M (World St X) (option A)) : Prop :=
  answers m (fun o => match o with Some _ => 0%nat | None => 1%nat end).


(** [v, ok := step(); if !ok { return }; k v]. *)
Definition obtain {St X A} (m : M (World St X) (option A)) (k : A -> M (World St X) ()) : M (World St X) () :=
  o ← m; match o with Some a => k a | None => mret () end.

Lemma once_obtain {St X A} (m : M (World St X) (option A)) k :
  resolves m -> (forall a, answers_once (k a)) -> answers_once (obtain m k).
Proof.
  intros Hm Hk. eapply answers_bind; [exact Hm| |].
  - intros o. instantiate (1 := fun o (_ : ()) => match o with Some _ => 1%nat | None => 0%nat end).
    destruct o; [apply Hk|apply silent_ret].
  - by intros [].
Qed.

(** A step that gives [None] has answered with an error. *)
Definition denies {St X A} (m : M (World St X) (option A)) : Prop :=
  forall w w', m w = (None, w') -> exists r, is_error r /\ w_out w' = w_out w ++ [r].

Definition deny {St X A} (status : Z) (code : string) : M (World St X) (option A) :=
  _ ← respond (RError status code); mret None.

Lemma denies_deny {St X A} st c : denies (St:=St) (X:=X) (A:=A) (deny st c).
Proof. intros w w' [= <-]. eexists. split; [apply error_is_error|done]. Qed.
Lemma denies_some {St X A} (a : A) : denies (St:=St) (X:=X) (mret (Some a)).
Proof. by intros w w' [= ]. Qed.
Lemma resolves_deny {St X A} st c : resolves (St:=St) (X:=X) (A:=A) (deny st c).
Proof. intros w. by exists [RError st c]. Qed.
Lemma resolves_some {St X A} (a : A) : resolves (St:=St) (X:=X) (mret (Some a)).
Proof. intros w. exists []. by rewrite app_nil_r. Qed.
Lemma resolves_silent {St X A B} (m : M (World St X) A) (k : A -> M (World St X) (option B)) :
  silent m -> (forall a, resolves (k a)) -> resolves (m ≫= k).
Proof. apply silent_bind. Qed.
Lemma denies_silent {St X A B} (m : M (World St X) A) (k : A -> M (World St X) (option B)) :
  silent m -> (forall a, denies (k a)) -> denies (m ≫= k).
Proof.
  intros Hm Hk w w'. rewrite M_bind_unfold. destruct (Hm w) as (r & Ho & Hl).
  destruct r; [|done]. rewrite app_nil_r in Ho. rewrite <- Ho. apply Hk.
Qed.

(** [if gate() { return nil, false }; k]. *)
Lemma resolves_gate {St X A} (g : M (World St X) bool) (k : M (World St X) (option A)) :
  gate g -> resolves k -> resolves (h ← g; if (h : bool) then mret None else k).
Proof.
  intros Hg Hk w. rewrite M_bind_unfold. destruct (Hg w) as (r1 & H1 & L1).
  destruct (g w) as [[] w1]; simpl in *; [by exists r1|].
  destruct r1; [|done]. rewrite app_nil_r in H1. destruct (Hk w1) as (r2 & H2 & L2).
  exists r2. by rewrite H2, H1.
Qed.
Lemma denies_gate {St X A} (g : M (World St X) bool) (k : M (World St X) (option A)) :
  gate g -> refuses g -> denies k -> denies (h ← g; if (h : bool) then mret None else k).
Proof.
  intros Hg Hr Hk w w'. rewrite M_bind_unfold. destruct (Hg w) as (r1 & H1 & L1).
  destruct (g w) as [[] w1] eqn:E; simpl in *.
  - intros [= <-]. by apply Hr.
  - destruct r1; [|done]. rewrite app_nil_r in H1. rewrite <- H1. apply Hk.
Qed.
(** Passing the gate without an answer. *)
Lemma gate_passed {St X A} (g : M (World St X) bool) (k : M (World St X) (option A)) w a w' :
  gate g -> (h ← g; if (h : bool) then mret None else k) w = (Some a, w') ->
  exists w1, g w = (false, w1) /\ w_out w1 = w_out w /\ k w1 = (Some a, w').
Proof.
  intros Hg. rewrite M_bind_unfold. destruct (Hg w) as (rs & Ho & Hl).
  destruct (g w) as [[] w1]; simpl in *; [done|]. destruct rs; [|done]. rewrite app_nil_r in Ho. eauto.
Qed.

Lemma obtain_ok {St X A} (m : M (World St X) (option A)) k w w' b :
  resolves m -> denies m -> obtain m k w = ((), w') -> w_out w' = w_out w ++ [ROK b] ->
  exists a w1, m w = (Some a, w1) /\ w_out w1 = w_out w /\ k a w1 = ((), w').
Proof.
  intros Hm Hd. unfold obtain. rewrite M_bind_unfold. destruct (Hm w) as (rs & Ho & Hl).
  destruct (m w) as [[a|] w1] eqn:E; simpl in *.
  - destruct rs; [|done]. rewrite app_nil_r in Ho. eauto.
  - intros [= <-]. destruct (Hd w w1 E) as (r & Hr & Ho'). by eapply ok_not_error.
Qed.
#[export] Hint Resolve denies_deny denies_some resolves_deny resolves_some once_obtain error_is_error : snap.

Ltac resolving :=
  repeat first
    [ solve [auto 2 with snap]
    | apply resolves_silent; [solve [auto 2 with snap]|intros ?]
    | apply denies_silent; [solve [auto 2 with snap]|intros ?]
    | match goal with |- context [match ?x with _ => _ end] => destruct x end ].

(** What the policy engines promise the refresh grant: conditional access may only
    narrow the scopes, and either engine refuses with an error. *)
Record PolicyLaws {X} (d : Deps X) : Prop := {
  cap_narrows c info sc x sc' x' :
    dp_EnforceRefreshConditionalAccess d c info sc x = (Ok sc', x') -> sc' ⊆ sc;
  cap_refuses c info sc x r x' :
    dp_EnforceRefreshConditionalAccess d c info sc x = (Err r, x') -> is_error r;
  depth_refuses c s t sc n x r x' :
    dp_EnforceRefreshDepthPolicy d c s t sc n x = (Some r, x') -> is_error r;
}.

(** ** A concrete server, for the witnesses *)

Definition sample_claims (client : string) : TokenClaims := {|
  tc_TokenUse := "access"; tc_Subject := "alice"; tc_Issuer := "https://sso"; tc_Audience := [client];
  tc_Scopes := []; tc_Resources := []; tc_ExpiresAt := 0; tc_NotBefore := 0; tc_IssuedAt := 0;
  tc_Extra := ∅; tc_ClientID := client; tc_JTI := ""; tc_AuthTime := 0; tc_ACR := ""; tc_AMR := [];
  tc_SID := ""; tc_ServingRegion := ""; tc_TenantID := ""; tc_ConfirmationJKT := "";
  tc_ConfirmationX5TS256 := ""; tc_AuthorizationDetails := ""; tc_Actor := ActorNil;
  tc_MayAct := ActorNil; tc_RequestedClaims := "" |}.

(** An issuer whose tokens spell the subject. *)
Definition sample_issuer : TokenIssuer () := {|
  ti_Issue sub scopes x :=
    (Ok {| tk_AccessToken := "at:" +:+ su_ID sub; tk_TokenType := "Bearer"; tk_RefreshToken := "";
           tk_ExpiresIn := 300; tk_Scope := Str.join scopes; tk_CreatedAt := 0 |}, x);
  ti_Validate x tok := Ok (Some (sample_claims "app")) |}.

Definition sample_deps : Deps () := {|
  dp_RefreshTokenStore := true; dp_AuthCodeStore := true; dp_DeviceCodeStore := true;
  dp_CIBAStore := true; dp_DeviceSecretStore := true;
  dp_SessionManager := Some {| sm_Get := fun _ sid =>
      if decide (sid = "s1") then Ok (Some (plain_session "s1" "alice" 100000 false false)) else Err ();
    sm_TrackActivity := Some (fun _ x => x) |};
  dp_IssuerForClient := fun _ _ => Some ("jwt", sample_issuer);
  dp_IDTokenIssuerForClient := fun _ _ => Some (Some (fun r x => (Ok ("id:" +:+ ir_Subject r), x)));
  dp_ApplyPairwiseSubject := fun _ _ sub => sub;
  dp_MaybeEncryptIDToken := fun _ _ signed => Some signed;
  dp_ProjectIDTokenClaims := fun claims _ => claims;
  dp_LifecycleState := Some (fun _ _ => Ok StateActive);
  dp_EnforceRefreshDepthPolicy := fun _ _ _ _ n x =>
    (if 10 <=? n then Some (RError 400 ErrInvalidGrant) else None, x);
  dp_EnforceRefreshConditionalAccess := fun _ _ scopes x => (Ok scopes, x);
  dp_ScopeRegistry := None; dp_RefreshAbsoluteMaxLifetime := 0; dp_refreshTokenTTL := 3600;
  dp_deviceSecretTTL := 0 |}.

Lemma sample_PolicyLaws : PolicyLaws sample_deps.
Proof.
  split; cbn.
  - intros c info sc x sc' x' [= <- _]. done.
  - done.
  - intros c s t sc n x r x'. destruct (10 <=? n); [|done]. intros [= <- _]. by do 2 eexists.
Qed.

Definition sample_request (tok : string) : Request := {|
  q_client := plain_client "app" [] []; q_dpopJKT := ""; q_mtlsX5T := ""; q_region := "";
  q_notAfter := 0; q_draws := sample_draws tok; q_secret := Some "ds-1" |}.

Definition sample_world {St} (s : St) (grace : option RefreshGraceCache) (now : Z) : World St () := {|
  w_srv := {| sv_now := now; sv_refresh := s; sv_grace := grace;
              sv_codes := NewMemoryAuthCodeStore 0; sv_devices := NewMemoryDeviceCodeStore 0;
              sv_ciba := NewMemoryCIBAStore; sv_secrets := {| dss_secrets := ∅ |}; sv_x := () |};
  w_out := []; w_events := [] |}.
