(* ===== verification/RefreshGrant.v ===== *)
(** * RefreshGrant: the refresh_token grant ([tokengrant/token_refresh.go],
    [tokengrant/refresh_grace.go]).

    [HandleRefreshGrant] with its gates, rotation, reuse detection and the
    double-submit grace replay, over any refresh-token store with the interface of
    RefreshIface.  The pending-grace wait is a loop over the wake-ups of the poll
    ticker: [rr_polls] is what other requests and the clock do before each tick,
    and [rr_stop] what they do before the 250 ms timer (or the client's
    disconnect) ends the wait, so the loop is structural in the ticks that the
    timer admits. *)
From S2P Require Import Prelude Core Lifecycle RefreshStore Issue RefreshIface GraceCache Scopes GrantCore.
Local Open Scope Z_scope.

Section refresh_grant.
Context {St X : Type} `{Store : RefreshTokenStore St}.
Abbreviation G A := (M (World St X) A).

Record RefreshRequest := {
  rr_base : Request;
  rr_refreshToken : string;
  rr_scope : string;
  rr_polls : list (Server St X -> Server St X);
  rr_stop : Server St X -> Server St X;
}.

Implicit Types (d : Deps X) (q : RefreshRequest).

Definition rr_client q : Client := q_client (rr_base q).
Definition rr_jkt q : string := q_dpopJKT (rr_base q).
Definition rr_x5t q : string := q_mtlsX5T (rr_base q).

(** ** Gates on the consumed record *)

Definition refreshBindGuard q (info : RefreshToken) : G bool :=
  if negb (bool_decide (rt_ClientID info = cl_ID (rr_client q))) then refuse 400 ErrInvalidGrant
  else if negb (bool_decide (rt_ConfirmationJKT info = ""))
          && negb (bool_decide (rr_jkt q = rt_ConfirmationJKT info))
  then refuse 400 ErrInvalidGrant
  else mret false.

Definition refreshEnforceAbsoluteMaxLifetime d (info : RefreshToken) : G bool :=
  let maxAge := dp_RefreshAbsoluteMaxLifetime d in
  if (maxAge <=? 0) || GoTime.IsZero (rt_FamilyCreatedAt info) then mret false
  else
    now ← gets sv_now;
    if GoTime.Since now (rt_FamilyCreatedAt info) <=? maxAge then mret false
    else refuse 400 ErrInvalidGrant.

Definition refreshCheckSessionLiveness d (info : RefreshToken) : G bool :=
  if decide (rt_SID info = "") then mret false
  else match dp_SessionManager d with
       | None => mret false
       | Some sm =>
           sess ← gets (fun v => sm_Get sm (sv_x v) (rt_SID info));
           now ← gets sv_now;
           let dead : G bool :=
             _ ← emit (EvLog "session expired or revoked — refresh denied");
             refuse 400 ErrInvalidGrant in
           match sess with
           | Err _ => _ ← emit (EvLog "session liveness check failed (fail-closed)"); dead
           | Ok None => dead
           | Ok (Some s) =>
               if negb (Session_IsExpired now s) && negb (se_Revoked s) then
                 if se_StepUpRequired s then refuse 400 ErrInsufficientUserAuthentication
                 else match sm_TrackActivity sm with
                      | Some track => _ ← on_x (fun x => ((), track (rt_SID info) x)); mret false
                      | None => mret false
                      end
               else dead
           end
       end.

(** [None]: refused and answered. *)
Definition refreshResolveScopes (info : RefreshToken) (scope : string) : G (option (list string)) :=
  if decide (scope = "") then mret (Some (rt_Scopes info))
  else
    let requested := Str.split scope in
    if IsScopeSubset requested (rt_Scopes info) then mret (Some requested)
    else _ ← respond (RError 400 ErrInvalidScope); mret None.

Definition enforceConditionalAccess d q (info : RefreshToken) (scopes : list string) : G (option (list string)) :=
  r ← on_x (dp_EnforceRefreshConditionalAccess d (rr_client q) info scopes);
  match r with
  | Ok scopes => mret (Some scopes)
  | Err resp => _ ← respond resp; mret None
  end.

Definition refreshResolveGrant d q (info : RefreshToken) : G (option (list string)) :=
  grantScopes ← refreshResolveScopes info (rr_scope q);
  match grantScopes with
  | None => mret None
  | Some scopes =>
      rejected ← rejectUnregistered d scopes;
      if (rejected : bool) then mret None else enforceConditionalAccess d q info scopes
  end.

Definition enforceRefreshDepthPolicy d q (info : RefreshToken) (scopes : list string) : G bool :=
  r ← on_x (dp_EnforceRefreshDepthPolicy d (cl_ID (rr_client q)) (rt_UserID info)
              (cl_TenantID (rr_client q)) scopes (rt_Generation info));
  match r with Some resp => _ ← respond resp; mret true | None => mret false end.

(** Kill a family through the tracker, when the store has one; the number of
    tokens killed, 0 on an error. *)
Definition kill_family (familyID logFailed logKilled : string) : G Z :=
  match rs_DeleteFamily with
  | None => mret 0
  | Some deleteFamily =>
      r ← on_refresh (deleteFamily familyID);
      match r with
      | Err _ => _ ← emit (EvLog logFailed); mret 0
      | Ok n => _ ← emit (EvLog logKilled); mret n
      end
  end.

Definition refreshVelocityGate d q (familyID : string) : G bool :=
  match rs_RecordRotation with
  | None => mret false
  | Some recordRotation =>
      if decide (familyID = "") then mret false
      else
        now ← gets sv_now;
        r ← on_refresh (recordRotation now familyID);
        match r with
        | Err _ => _ ← emit (EvLog "refresh rotation velocity check failed — proceeding (fail-open)"); mret false
        | Ok (count, false) => mret false
        | Ok (count, true) =>
            _ ← emit (EvInvalidateIntrospection (rr_refreshToken q));
            killed ← kill_family familyID "family revocation on rotation-velocity breach failed"
                       "refresh rotation velocity exceeded — family revoked";
            _ ← emit EvRotationVelocityExceeded;
            _ ← emit (EvRotationVelocity (cl_ID (rr_client q)) familyID count killed);
            refuse 400 ErrInvalidGrant
        end
  end.

(** ** Rotation *)

Definition refreshRotatedSubject q (info : RefreshToken) (issuedSub : string) : Subject :=
  let client := rr_client q in
  {| su_ID := issuedSub; su_Provider := rt_Provider info; su_Claims := rt_Attributes info;
     su_Resources := rt_Resources info; su_ClientID := cl_ID client;
     su_AuthTime := rt_AuthTime info;
     su_AMR := AmrOrProvider (rt_Amr info) (rt_Provider info); su_ACR := rt_Acr info;
     su_AuthorizationDetails := rt_AuthorizationDetails info;
     su_TTL := cl_AccessTokenTTL client; su_SID := rt_SID info;
     su_ServingRegion := q_region (rr_base q); su_TenantID := cl_TenantID client;
     su_Roles := rt_Roles info; su_ConfirmationJKT := rr_jkt q;
     su_ConfirmationX5TS256 := rr_x5t q; su_NotAfter := q_notAfter (rr_base q);
     su_Actor := ActorNil; su_RequestedClaims := "" |}.

Definition refreshRotateFamily d q (info : RefreshToken) (grantScopes : list string)
    : G (result (issue_error refresh_error) string) :=
  server_issueRefreshToken d (q_draws (rr_base q)) (rt_UserID info) (cl_ID (rr_client q))
    (rt_Provider info) grantScopes (rt_Attributes info) (rt_FamilyID info) (rt_Resources info)
    (rt_AuthorizationDetails info) (rt_SID info)
    {| rac_AMR := rt_Amr info; rac_ACR := rt_Acr info; rac_AuthTime := rt_AuthTime info;
       rac_Generation := rt_Generation info + 1; rac_FamilyCreatedAt := rt_FamilyCreatedAt info;
       rac_JTI := rt_JTI info; rac_Roles := rt_Roles info |}
    (cl_RefreshTokenTTL (rr_client q)) (rt_ConfirmationJKT info).

(** [time.Duration(token.ExpiresIn) * time.Second] wraps at 64 bits. *)
Definition rememberRefreshGrace (token : string) (resp : body) (expiresAt accessTTL : Z) : G () :=
  now ← gets sv_now;
  if GoTime.IsZero expiresAt || negb (GoTime.Before now expiresAt) || (accessTTL <=? 0) then mret ()
  else
    let accessDeadline := GoTime.Add now accessTTL in
    let expiresAt := if GoTime.Before accessDeadline expiresAt then accessDeadline else expiresAt in
    on_grace (Remember token (<[KeyRefreshGraceDeadline := VTime expiresAt]> resp) now).

Definition rotation_response (token : Token) (newRefresh jkt strategy : string) : body :=
  <[KeyRefreshToken := VStr newRefresh]> (base_response token jkt strategy).

Definition refreshIssueAndRotate d q (info : RefreshToken) (grantScopes : list string) : G () :=
  issuer ← gets (fun v => dp_IssuerForClient d (sv_x v) (rr_client q));
  match issuer with
  | None => respond (RError 500 ErrNoTokenStrategy)
  | Some (strategy, ti) =>
      issuedSub ← gets (fun v => dp_ApplyPairwiseSubject d (sv_x v) (rr_client q) (rt_UserID info));
      token ← on_x (ti_Issue ti (refreshRotatedSubject q info issuedSub) grantScopes);
      match token with
      | Err e => _ ← emit (EvLog "token issuance failed"); writeTokenIssueError e
      | Ok token =>
          newRefresh ← refreshRotateFamily d q info grantScopes;
          match newRefresh with
          | Err _ => _ ← emit (EvLog "refresh token rotation failed"); respond (RError 500 ErrInternal)
          | Ok newRefresh =>
              _ ← emit (EvTokenIssued (cl_ID (rr_client q)) strategy (rt_UserID info));
              _ ← emit (EvRefreshTokenIssued (cl_ID (rr_client q)) (rt_UserID info) true);
              _ ← emit (EvSubjectClientAccess (rt_UserID info) (cl_ID (rr_client q)));
              let resp := rotation_response token newRefresh (rr_jkt q) strategy in
              _ ← rememberRefreshGrace (rr_refreshToken q) resp (rt_ExpiresAt info)
                    (wrap64 (tk_ExpiresIn token * GoTime.Second));
              respond (ROK resp)
          end
      end
  end.

(** ** The grace window *)

Definition pending_marker q (info : RefreshToken) : body :=
  <[KeyRefreshGracePending := VBool true]> $
  <[KeyRefreshGraceFamilyID := VStr (rt_FamilyID info)]> $
  <[KeyRefreshGraceClientID := VStr (cl_ID (rr_client q))]> $
  <[KeyRefreshGraceJKT := VStr (rr_jkt q)]> $
  <[KeyRefreshGraceX5T := VStr (rr_x5t q)]> $
  <[KeyRefreshGraceDeadline := VTime (rt_ExpiresAt info)]> ∅.

Definition prepareRefreshGrace q : G () :=
  grace ← gets sv_grace;
  match grace, rs_Inspect with
  | Some _, Some inspect =>
      now ← gets sv_now;
      info ← on_refresh (inspect now (rr_refreshToken q));
      match info with
      | Err _ => mret ()
      | Ok info =>
          if RefreshToken_IsExpired now info || bool_decide (rt_FamilyID info = "")
             || negb (bool_decide (rt_ClientID info = cl_ID (rr_client q)))
             || (negb (bool_decide (rt_ConfirmationJKT info = ""))
                 && negb (bool_decide (rt_ConfirmationJKT info = rr_jkt q)))
          then mret ()
          else on_grace (PreparePending (rr_refreshToken q) (pending_marker q info) now)
      end
  | _, _ => mret ()
  end.

Definition lookup_grace (token : string) (v : Server St X) : option body :=
  c ← sv_grace v; Lookup token (sv_now v) c.

Definition matchingPendingRefreshGrace (cached : body) (now : Z) (clientID familyID jkt x5t : string) : bool :=
  match deadline_at KeyRefreshGraceDeadline cached with
  | None => false
  | Some expiresAt =>
      GoTime.Before now expiresAt && negb (bool_decide (familyID = "")) &&
      bool_decide (cached !! KeyRefreshGracePending = Some (VBool true)) &&
      bool_decide (cached !! KeyRefreshGraceFamilyID = Some (VStr familyID)) &&
      bool_decide (cached !! KeyRefreshGraceClientID = Some (VStr clientID)) &&
      bool_decide (cached !! KeyRefreshGraceJKT = Some (VStr jkt)) &&
      bool_decide (cached !! KeyRefreshGraceX5T = Some (VStr x5t))
  end.

(** Whether a live pending marker for this very presentation is in the cache. *)
Definition pending_now q (familyID : string) (v : Server St X) : bool :=
  match lookup_grace (rr_refreshToken q) v with
  | Some cached => matchingPendingRefreshGrace cached (sv_now v) (cl_ID (rr_client q)) familyID (rr_jkt q) (rr_x5t q)
  | None => false
  end.

Fixpoint await_loop q (familyID : string) (replay : G bool) (polls : list (Server St X -> Server St X)) : G bool :=
  pending ← gets (pending_now q familyID);
  if negb pending then replay
  else match polls with
       | poll :: polls => _ ← environment poll; await_loop q familyID replay polls
       | [] =>
           _ ← environment (rr_stop q);
           pending ← gets (pending_now q familyID);
           if negb pending then replay else refuse 400 ErrInvalidGrant
       end.

Definition awaitPendingRefreshGrace q (familyID : string) (replay : G bool) : G bool :=
  grace ← gets sv_grace;
  match grace with
  | None => mret false
  | Some _ => await_loop q familyID replay (rr_polls q)
  end.

(** The cached answer and the live record of the successor it names. *)
Definition liveRefreshGrace (token : string) : G (option (body * RefreshToken)) :=
  now ← gets sv_now;
  cached ← gets (lookup_grace token);
  match cached with
  | None => mret None
  | Some cached =>
      match deadline_at KeyRefreshGraceDeadline cached with
      | None => mret None
      | Some expiresAt =>
          if negb (GoTime.Before now expiresAt) then mret None
          else match rs_Inspect with
               | None => mret None
               | Some inspect =>
                   let successor := str_at KeyRefreshToken cached in
                   if decide (successor = "") then mret None
                   else
                     info ← on_refresh (inspect now successor);
                     match info with
                     | Err _ => mret None
                     | Ok info => if RefreshToken_IsExpired now info then mret None
                                  else mret (Some (cached, info))
                     end
               end
      end
  end.

Definition refreshGraceAccessValid d q (cached : body) (v : Server St X) : bool :=
  let token := str_at KeyAccessToken cached in
  match dp_IssuerForClient d (sv_x v) (rr_client q) with
  | None => false
  | Some (_, issuer) =>
      if decide (token = "") then false
      else match ti_Validate issuer (sv_x v) token with
           | Ok (Some claims) =>
               bool_decide (tc_ClientID claims = cl_ID (rr_client q)) &&
               bool_decide (tc_TenantID claims = cl_TenantID (rr_client q)) &&
               bool_decide (tc_ConfirmationJKT claims = rr_jkt q) &&
               bool_decide (tc_ConfirmationX5TS256 claims = rr_x5t q)
           | _ => false
           end
  end.

Definition grace_private_keys : list string :=
  [KeyRefreshGraceDeadline; KeyRefreshGracePending; KeyRefreshGraceFamilyID; KeyRefreshGraceClientID;
   KeyRefreshGraceJKT; KeyRefreshGraceX5T].

Definition strip_private (b : body) : body := foldr delete b grace_private_keys.

Definition replayRefreshGrace d q (familyID : string) : G bool :=
  l ← liveRefreshGrace (rr_refreshToken q);
  match l with
  | None => mret false
  | Some (cached, info) =>
      if negb (bool_decide (rt_FamilyID info = familyID)) then mret false
      else if negb (bool_decide (rt_ClientID info = cl_ID (rr_client q)))
              || (negb (bool_decide (rt_ConfirmationJKT info = ""))
                  && negb (bool_decide (rt_ConfirmationJKT info = rr_jkt q)))
      then mret false
      else
        h ← refreshEnforceAbsoluteMaxLifetime d info;
        if (h : bool) then mret true else
        h ← refreshCheckSessionLiveness d info;
        if (h : bool) then mret true else
        h ← lifecycleGrantBlocked d (rt_UserID info);
        if (h : bool) then mret true else
        scopes ← refreshResolveGrant d q info;
        match scopes with
        | None => mret true
        | Some scopes =>
            valid ← gets (refreshGraceAccessValid d q cached);
            if negb (bool_decide (cached !! KeyScope = Some (VStr (Str.join scopes)))) || negb valid
            then mret false
            else _ ← respond (ROK (strip_private cached)); mret true
        end
  end.

(** ** The handler *)

Definition refreshHandleConsumeError d q (err : refresh_error) (info : option RefreshToken) : G bool :=
  match err, info with
  | ErrRefreshTokenReused, Some info =>
      let replay := replayRefreshGrace d q (rt_FamilyID info) in
      answered ← replay;
      if (answered : bool) then mret true else
      answered ← awaitPendingRefreshGrace q (rt_FamilyID info) replay;
      if (answered : bool) then mret true else
      if decide (rt_FamilyID info = "") then mret false
      else
        _ ← emit (EvInvalidateIntrospection (rr_refreshToken q));
        killed ← kill_family (rt_FamilyID info) "family revocation on reuse failed"
                   "refresh token reuse detected — family revoked";
        _ ← emit (EvRefreshTokenReuse (cl_ID (rr_client q)) (rt_UserID info) (rt_FamilyID info) killed);
        mret false
  | _, _ => mret false
  end.

(** Everything after a successful [Consume]. *)
Definition refresh_consumed d q (info : RefreshToken) : G () :=
  unless (refreshBindGuard q info) $
  unless (refreshEnforceAbsoluteMaxLifetime d info) $
  unless (refreshCheckSessionLiveness d info) $
  unless (lifecycleGrantBlocked d (rt_UserID info)) $
  scopes ← refreshResolveGrant d q info;
  match scopes with
  | None => mret ()
  | Some grantScopes =>
      unless (enforceRefreshDepthPolicy d q info grantScopes) $
      unless (refreshVelocityGate d q (rt_FamilyID info)) $
      refreshIssueAndRotate d q info grantScopes
  end.

Definition HandleRefreshGrant d q : G () :=
  if negb (dp_RefreshTokenStore d) then respond (RError 501 ErrRefreshTokenNotConfigured)
  else if decide (rr_refreshToken q = "") then respond (RError 400 ErrInvalidRequest)
  else
    _ ← prepareRefreshGrace q;
    now ← gets sv_now;
    r ← on_refresh (rs_Consume now (rr_refreshToken q));
    match r with
    | Err (err, info) =>
        unless (refreshHandleConsumeError d q err info) $
        respond (RError 400 ErrInvalidGrant)
    | Ok info => refresh_consumed d q info
    end.

(** ** Exactly one answer *)

Lemma gate_bindGuard q info : gate (refreshBindGuard q info).
Proof. unfold refreshBindGuard. count. Qed.
Lemma gate_maxLifetime d info : gate (refreshEnforceAbsoluteMaxLifetime d info).
Proof. unfold refreshEnforceAbsoluteMaxLifetime. count. Qed.
Lemma gate_sessionLiveness d info : gate (refreshCheckSessionLiveness d info).
Proof. unfold refreshCheckSessionLiveness. count. Qed.
Lemma gate_depthPolicy d q info scopes : gate (enforceRefreshDepthPolicy d q info scopes).
Proof.
  unfold enforceRefreshDepthPolicy. apply silent_bind; [auto with snap|]. intros [r|]; [|count].
  intros w. by exists [r].
Qed.
Lemma silent_kill_family fid l1 l2 : silent (kill_family fid l1 l2).
Proof. unfold kill_family. count. Qed.
Lemma gate_velocity d q fid : gate (refreshVelocityGate d q fid).
Proof. unfold refreshVelocityGate. pose proof silent_kill_family. count. Qed.

Lemma resolves_bind {A B} (m : G (option A)) (k : option A -> G B) n :
  resolves m -> (forall a, answers (k (Some a)) n) ->
  answers (k None) (fun b => n b - 1)%nat -> (forall b, 1 <= n b)%nat -> answers (m ≫= k) n.
Proof.
  intros Hm Hs Hn Hb. eapply answers_bind with
    (n2 := fun (o : option A) b => match o with Some _ => n b | None => (n b - 1)%nat end); [exact Hm| |].
  - intros [a|]; [apply Hs|apply Hn].
  - intros [a|] b; simpl; [done|]. specialize (Hb b). lia.
Qed.

Lemma resolves_scopes info scope : resolves (refreshResolveScopes info scope).
Proof.
  unfold refreshResolveScopes. case_decide; [intros w; exists []; by rewrite app_nil_r|].
  split_if; [intros w; exists []; by rewrite app_nil_r|].
  intros w. by eexists [_].
Qed.

Lemma resolves_grant d q info : resolves (refreshResolveGrant d q info).
Proof.
  intros w. unfold refreshResolveGrant. rewrite M_bind_unfold.
  destruct (resolves_scopes info (rr_scope q) w) as (r1 & H1 & L1).
  destruct (refreshResolveScopes info (rr_scope q) w) as [[scopes|] w1]; simpl in *;
    [|by exists r1].
  destruct r1; [|done]. rewrite app_nil_r in H1. rewrite M_bind_unfold.
  destruct (gate_rejectUnregistered d scopes w1) as (r2 & H2 & L2).
  destruct (rejectUnregistered d scopes w1) as [[] w2]; simpl in *; [exists r2; by rewrite H2, H1|].
  destruct r2; [|done]. rewrite app_nil_r in H2.
  unfold enforceConditionalAccess. rewrite M_bind_unfold. unfold on_x.
  destruct (dp_EnforceRefreshConditionalAccess _ _ _ _ _) as [[scopes'|resp] x]; simpl.
  - exists []. by rewrite app_nil_r, H2, H1.
  - exists [resp]. by rewrite H2, H1.
Qed.

Lemma once_rotate d q info scopes : answers_once (refreshIssueAndRotate d q info scopes).
Proof. unfold refreshIssueAndRotate, refreshRotateFamily, rememberRefreshGrace. count. Qed.

Lemma once_consumed d q info : answers_once (refresh_consumed d q info).
Proof.
  unfold refresh_consumed. pose proof gate_bindGuard. pose proof gate_maxLifetime.
  pose proof gate_sessionLiveness. pose proof gate_depthPolicy. pose proof gate_velocity.
  pose proof once_rotate.
  repeat (apply once_unless; [by auto with snap|]).
  apply resolves_bind; [apply resolves_grant| |apply silent_ret|done].
  intros scopes. repeat (apply once_unless; [by auto with snap|]). auto.
Qed.

Lemma silent_liveGrace token : silent (liveRefreshGrace token).
Proof. unfold liveRefreshGrace. count. Qed.

Lemma gate_replay d q fid : gate (replayRefreshGrace d q fid).
Proof.
  unfold replayRefreshGrace. apply silent_bind; [apply silent_liveGrace|].
  intros [[cached info]|]; [|apply gate_ret_false].
  repeat (split_if; [apply gate_ret_false|]).
  repeat (apply gate_then; [auto using gate_maxLifetime, gate_sessionLiveness with snap|]).
  intros w. rewrite M_bind_unfold. destruct (resolves_grant d q info w) as (r1 & H1 & L1).
  destruct (refreshResolveGrant d q info w) as [[scopes|] w1]; simpl in *; [|by exists r1].
  destruct r1; [|done]. rewrite app_nil_r in H1.
  assert (gate (valid ← gets (refreshGraceAccessValid d q cached);
    if negb (bool_decide (cached !! KeyScope = Some (VStr (Str.join scopes)))) || negb valid
    then mret false else _ ← respond (ROK (strip_private cached)); mret true)) as Hg by count.
  destruct (Hg w1) as (r2 & H2 & L2). exists r2. by rewrite H2, H1.
Qed.

Lemma gate_await q fid replay polls : gate replay -> gate (await_loop q fid replay polls).
Proof.
  intros Hr. induction polls as [|poll polls IH]; simpl;
    (apply silent_bind; [apply silent_gets|]; intros pending; split_if; [done|]);
    (apply silent_bind; [apply silent_environment|]; intros _); [|done].
  apply silent_bind; [apply silent_gets|]. intros p. split_if; [done|apply gate_refuse].
Qed.

Lemma gate_consume_error d q err info : gate (refreshHandleConsumeError d q err info).
Proof.
  unfold refreshHandleConsumeError. destruct err, info as [info|]; try apply gate_ret_false.
  apply gate_then; [apply gate_replay|]. apply gate_then.
  - unfold awaitPendingRefreshGrace. apply silent_bind; [apply silent_gets|]. intros [c|]; [|apply gate_ret_false].
    apply gate_await, gate_replay.
  - case_decide; [apply gate_ret_false|]. pose proof silent_kill_family. count.
Qed.

Lemma silent_prepare q : silent (prepareRefreshGrace q).
Proof. unfold prepareRefreshGrace. count. Qed.

(** ** Effects on the refresh store *)

Context {Laws : RefreshTokenStoreLaws St}.

Lemma keeps_sessionLiveness d info : keeps (refreshCheckSessionLiveness d info).
Proof. unfold refreshCheckSessionLiveness. keep. Qed.
Lemma keeps_maxLifetime d info : keeps (refreshEnforceAbsoluteMaxLifetime d info).
Proof. unfold refreshEnforceAbsoluteMaxLifetime. keep. Qed.
Lemma keeps_bindGuard q info : keeps (refreshBindGuard q info).
Proof. unfold refreshBindGuard. keep. Qed.
Lemma keeps_resolveScopes info scope : keeps (refreshResolveScopes info scope).
Proof. unfold refreshResolveScopes. keep. Qed.
Lemma keeps_resolveGrant d q info : keeps (refreshResolveGrant d q info).
Proof.
  unfold refreshResolveGrant, enforceConditionalAccess. pose proof keeps_resolveScopes. keep.
Qed.
Lemma keeps_depthPolicy d q info scopes : keeps (enforceRefreshDepthPolicy d q info scopes).
Proof. unfold enforceRefreshDepthPolicy. keep. Qed.
Lemma keeps_rememberGrace t r e a : keeps (rememberRefreshGrace t r e a).
Proof. unfold rememberRefreshGrace. keep. Qed.

Lemma refuses_bindGuard q info : refuses (refreshBindGuard q info).
Proof. unfold refreshBindGuard. refusing. Qed.
Lemma refuses_maxLifetime d info : refuses (refreshEnforceAbsoluteMaxLifetime d info).
Proof. unfold refreshEnforceAbsoluteMaxLifetime. refusing. Qed.
Lemma refuses_sessionLiveness d info : refuses (refreshCheckSessionLiveness d info).
Proof. unfold refreshCheckSessionLiveness. refusing. Qed.
Lemma refuses_velocity d q fid : refuses (refreshVelocityGate d q fid).
Proof. unfold refreshVelocityGate. pose proof silent_kill_family. refusing. Qed.
Lemma refuses_depthPolicy d q info scopes : PolicyLaws d -> refuses (enforceRefreshDepthPolicy d q info scopes).
Proof.
  intros Hd w w'. unfold enforceRefreshDepthPolicy. rewrite M_bind_unfold. unfold on_x.
  destruct (dp_EnforceRefreshDepthPolicy _ _ _ _ _ _ _) as [[r|] x] eqn:E; simpl; [|done].
  intros [= <-]. exists r. split; [|done]. by eapply depth_refuses.
Qed.

(** What the gates let through. *)
Definition sender_ok q (info : RefreshToken) : Prop :=
  rt_ClientID info = cl_ID (rr_client q) /\
  (rt_ConfirmationJKT info = "" \/ rr_jkt q = rt_ConfirmationJKT info).

Definition age_ok d (now : Z) (info : RefreshToken) : Prop :=
  dp_RefreshAbsoluteMaxLifetime d <= 0 \/ rt_FamilyCreatedAt info = 0 \/
  GoTime.Since now (rt_FamilyCreatedAt info) <= dp_RefreshAbsoluteMaxLifetime d.

Definition session_ok d (now : Z) (x : X) (info : RefreshToken) : Prop :=
  rt_SID info = "" \/ dp_SessionManager d = None \/
  exists sm s, dp_SessionManager d = Some sm /\ sm_Get sm x (rt_SID info) = Ok (Some s) /\
    Session_IsExpired now s = false /\ se_Revoked s = false /\ se_StepUpRequired s = false.

Lemma bindGuard_false q info w w1 :
  refreshBindGuard q info w = (false, w1) -> w1 = w /\ sender_ok q info.
Proof.
  unfold refreshBindGuard, sender_ok. repeat split_if; try done. bool_simpl.
  intros [= <-]. split; [done|]. split; [done|].
  destruct (decide (rt_ConfirmationJKT info = "")); [by left|right].
  rewrite bool_decide_eq_false_2 in Heqb0 by done. simpl in Heqb0. by bool_simpl.
Qed.

Lemma maxLifetime_false d info w w1 :
  refreshEnforceAbsoluteMaxLifetime d info w = (false, w1) ->
  w1 = w /\ age_ok d (sv_now (w_srv w)) info.
Proof.
  unfold refreshEnforceAbsoluteMaxLifetime, age_ok, GoTime.IsZero.
  destruct (dp_RefreshAbsoluteMaxLifetime d <=? 0) eqn:E1; bool_simpl; simpl.
  { intros [= <-]. auto. }
  destruct (rt_FamilyCreatedAt info =? 0) eqn:E2; bool_simpl; [intros [= <-]; auto|].
  rewrite M_bind_unfold. simpl. split_if; [|done]. bool_simpl. intros [= <-]. auto.
Qed.

(** The server after the session check has recorded the activity. *)
Definition tracked d (info : RefreshToken) (x : X) : X :=
  if decide (rt_SID info = "") then x
  else match dp_SessionManager d with
       | Some sm => match sm_TrackActivity sm with Some track => track (rt_SID info) x | None => x end
       | None => x
       end.

Lemma sessionLiveness_false d info w w1 :
  refreshCheckSessionLiveness d info w = (false, w1) ->
  session_ok d (sv_now (w_srv w)) (sv_x (w_srv w)) info /\ sv_x (w_srv w1) = tracked d info (sv_x (w_srv w)).
Proof.
  unfold refreshCheckSessionLiveness, session_ok, tracked. case_decide; [intros [= <-]; auto|].
  destruct (dp_SessionManager d) as [sm|]; [|intros [= <-]; auto]. rewrite !M_bind_unfold. simpl.
  destruct (sm_Get _ _ _) as [[s|]|] eqn:Hg; [|done..].
  destruct (Session_IsExpired _ s) eqn:Hx; [done|]. destruct (se_Revoked s) eqn:Hr; [done|]. simpl.
  destruct (se_StepUpRequired s) eqn:Hs; [done|]. intros Hw. split; [right; right; by exists sm, s|].
  by destruct (sm_TrackActivity sm); injection Hw as <-.
Qed.

(** The scopes granted are what conditional access made of scopes of the token. *)
Lemma resolveGrant_cap d q info w scopes w1 :
  refreshResolveGrant d q info w = (Some scopes, w1) ->
  exists granted, granted ⊆ rt_Scopes info /\
    dp_EnforceRefreshConditionalAccess d (rr_client q) info granted (sv_x (w_srv w)) = (Ok scopes, sv_x (w_srv w1)).
Proof.
  unfold refreshResolveGrant. rewrite M_bind_unfold.
  assert (forall sc w2, refreshResolveScopes info (rr_scope q) w = (Some sc, w2) -> sc ⊆ rt_Scopes info /\ w2 = w) as Hs.
  { unfold refreshResolveScopes. case_decide; [by intros ?? [= <- <-]|].
    destruct (IsScopeSubset _ _) eqn:E; [|done]. intros ?? [= <- <-]. split; [|done]. intros z Hz.
    by apply (proj1 (IsScopeSubset_spec _ _) E). }
  destruct (refreshResolveScopes _ _ w) as [[sc|] w2] eqn:E; [|done]. simpl. destruct (Hs _ _ eq_refl) as [Hsub ->].
  rewrite M_bind_unfold. unfold rejectUnregistered. destruct (RejectUnregistered _ _); [done|]. simpl.
  unfold enforceConditionalAccess. rewrite M_bind_unfold. unfold on_x.
  destruct (dp_EnforceRefreshConditionalAccess _ _ _ _ _) as [[sc'|r] x] eqn:Ec; [|done]. simpl.
  intros [= <- <-]. by exists sc.
Qed.

Lemma resolveGrant_Some d q info w scopes w1 :
  PolicyLaws d -> refreshResolveGrant d q info w = (Some scopes, w1) ->
  scopes ⊆ rt_Scopes info.
Proof. intros Hd (granted & Hg & Hc)%resolveGrant_cap. etrans; [by eapply cap_narrows|done]. Qed.

Lemma depthPolicy_false d q info scopes w w1 :
  enforceRefreshDepthPolicy d q info scopes w = (false, w1) ->
  dp_EnforceRefreshDepthPolicy d (cl_ID (rr_client q)) (rt_UserID info) (cl_TenantID (rr_client q)) scopes (rt_Generation info)
    (sv_x (w_srv w)) = (None, sv_x (w_srv w1)).
Proof.
  unfold enforceRefreshDepthPolicy. rewrite M_bind_unfold. unfold on_x.
  destruct (dp_EnforceRefreshDepthPolicy _ _ _ _ _ _ _) as [[r|] x] eqn:E; simpl; [done|]. by intros [= <-].
Qed.

Lemma resolve_rest_None d q info sc w w1 :
  PolicyLaws d ->
  (rejected ← rejectUnregistered d sc;
   if (rejected : bool) then mret None else enforceConditionalAccess d q info sc) w = (None, w1) ->
  exists r, is_error r /\ w_out w1 = w_out w ++ [r].
Proof.
  intros Hd. rewrite M_bind_unfold.
  destruct (gate_rejectUnregistered (St:=St) d sc w) as (rs & Ho & Hl).
  destruct (rejectUnregistered d sc w) as [[] w2] eqn:E; simpl in *.
  { intros [= <-]. by eapply refuses_rejectUnregistered. }
  destruct rs; [|done]. rewrite app_nil_r in Ho. rewrite <- Ho.
  unfold enforceConditionalAccess. rewrite M_bind_unfold. unfold on_x.
  destruct (dp_EnforceRefreshConditionalAccess _ _ _ _ _) as [[sc'|r] x] eqn:Ec; [done|].
  intros [= <-]. exists r. split; [by eapply cap_refuses|done].
Qed.

Lemma resolveGrant_None d q info w w1 :
  PolicyLaws d -> refreshResolveGrant d q info w = (None, w1) ->
  exists r, is_error r /\ w_out w1 = w_out w ++ [r].
Proof.
  intros Hd. unfold refreshResolveGrant. rewrite M_bind_unfold. unfold refreshResolveScopes.
  case_decide as Hs; [by apply resolve_rest_None|].
  destruct (IsScopeSubset _ _); [by apply resolve_rest_None|].
  intros [= <-]. eexists. split; [by do 2 eexists|done].
Qed.

Lemma velocity_false d q fid w w1 t :
  refreshVelocityGate d q fid w = (false, w1) ->
  rs_live (sv_refresh (w_srv w1)) t = rs_live (sv_refresh (w_srv w)) t /\
  sv_now (w_srv w1) = sv_now (w_srv w).
Proof.
  unfold refreshVelocityGate. destruct rs_RecordRotation as [f|] eqn:Hf; [|by intros [= <-]].
  case_decide; [by intros [= <-]|]. rewrite !M_bind_unfold. simpl. unfold on_refresh.
  pose proof (rs_RecordRotation_live f (sv_now (w_srv w)) fid (sv_refresh (w_srv w)) t Hf) as Hlive.
  destruct (f _ _ _) as [r s']. simpl in *. destruct r as [[count []]|e].
  - intros Hb. exfalso. revert Hb. rewrite !M_bind_unfold. unfold refuse. by rewrite M_bind_unfold.
  - by intros [= <-].
  - rewrite M_bind_unfold. by intros [= <-].
Qed.

(** The successor record of a rotation. *)
Definition descends q (info i' : RefreshToken) (scopes : list string) : Prop :=
  rt_UserID i' = rt_UserID info /\ rt_ClientID i' = cl_ID (rr_client q) /\
  rt_Scopes i' = scopes /\ rt_Resources i' = rt_Resources info /\
  rt_AuthorizationDetails i' = rt_AuthorizationDetails info /\ rt_SID i' = rt_SID info /\
  rt_Amr i' = rt_Amr info /\ rt_Acr i' = rt_Acr info /\ rt_AuthTime i' = rt_AuthTime info /\
  rt_Roles i' = rt_Roles info /\ rt_ConfirmationJKT i' = rt_ConfirmationJKT info /\
  rt_Generation i' = rt_Generation info + 1 /\
  (rt_FamilyID info <> "" ->
     rt_FamilyID i' = rt_FamilyID info /\ rt_JTI i' = rt_JTI info /\
     rt_FamilyCreatedAt i' = rt_FamilyCreatedAt info).

Lemma rotateFamily_Ok d q info scopes w newtok w1 :
  refreshRotateFamily d q info scopes w = (Ok newtok, w1) ->
  dr_token (q_draws (rr_base q)) = Some newtok /\ w_out w1 = w_out w /\
  (exists i', rs_live (sv_refresh (w_srv w1)) newtok = Some i' /\ descends q info i' scopes) /\
  forall t, t <> newtok -> rs_live (sv_refresh (w_srv w1)) t = rs_live (sv_refresh (w_srv w)) t.
Proof.
  unfold refreshRotateFamily, server_issueRefreshToken. rewrite M_bind_unfold. cbn [gets fst snd].
  unfold on_refresh. destruct (IssueRefreshToken _ _ _ _ _) as [r s'] eqn:E. intros [= -> <-].
  apply IssueRefreshToken_Ok in E as (fid & jti & Hdr & Hl & Hi). apply rs_Issue_None in Hi as [Hlive Ho].
  split_and!; [done..| |done]. eexists. split; [exact Hlive|]. unfold descends. simpl. split_and!; try done.
  intros Hf. rewrite lineage_rotation in Hl by done. simpl in Hl. injection Hl as <- <-.
  by rewrite bool_decide_eq_false_2.
Qed.

Lemma rotateFamily_out d q info scopes w r w1 :
  refreshRotateFamily d q info scopes w = (r, w1) -> w_out w1 = w_out w.
Proof.
  intros E. destruct (silent_issueRefresh (St:=St) d (q_draws (rr_base q)) (rt_UserID info) (cl_ID (rr_client q))
    (rt_Provider info) scopes (rt_Attributes info) (rt_FamilyID info) (rt_Resources info)
    (rt_AuthorizationDetails info) (rt_SID info)
    {| rac_AMR := rt_Amr info; rac_ACR := rt_Acr info; rac_AuthTime := rt_AuthTime info;
       rac_Generation := rt_Generation info + 1; rac_FamilyCreatedAt := rt_FamilyCreatedAt info;
       rac_JTI := rt_JTI info; rac_Roles := rt_Roles info |}
    (cl_RefreshTokenTTL (rr_client q)) (rt_ConfirmationJKT info) w) as (rs & Ho & Hl).
  destruct rs; [|done]. rewrite app_nil_r in Ho. unfold refreshRotateFamily in E. rewrite E in Ho. done.
Qed.

Lemma rotate_ok d q info scopes w w' b :
  refreshIssueAndRotate d q info scopes w = ((), w') -> w_out w' = w_out w ++ [ROK b] ->
  exists strategy ti token newtok x',
    dp_IssuerForClient d (sv_x (w_srv w)) (rr_client q) = Some (strategy, ti) /\
    ti_Issue ti (refreshRotatedSubject q info
      (dp_ApplyPairwiseSubject d (sv_x (w_srv w)) (rr_client q) (rt_UserID info))) scopes (sv_x (w_srv w)) =
      (Ok token, x') /\
    b = rotation_response token newtok (rr_jkt q) strategy /\
    dr_token (q_draws (rr_base q)) = Some newtok /\
    (exists i', rs_live (sv_refresh (w_srv w')) newtok = Some i' /\ descends q info i' scopes) /\
    forall t, t <> newtok -> rs_live (sv_refresh (w_srv w')) t = rs_live (sv_refresh (w_srv w)) t.
Proof.
  unfold refreshIssueAndRotate. rewrite M_bind_unfold. cbn [gets fst snd].
  destruct (dp_IssuerForClient _ _ _) as [[strategy ti]|] eqn:Hi.
  2:{ intros [= <-]. eapply ok_not_error; [apply error_is_error|reflexivity]. }
  rewrite !M_bind_unfold. cbn [gets fst snd]. set (sub := refreshRotatedSubject _ _ _).
  unfold on_x. destruct (ti_Issue ti sub scopes _) as [[token|e] x'] eqn:Ht; cbn [fst snd].
  2:{ rewrite M_bind_unfold. cbn [emit fst snd]. set (w2 := Build_World _ _ _ _ _). intros Hw Ho.
      destruct (writeIssueError_error e w2) as (r & Hr & Hout). rewrite Hw in Hout.
      by eapply ok_not_error; [exact Hr|exact Hout|]. }
  rewrite M_bind_unfold. set (w2 := set_srv _ w).
  destruct (refreshRotateFamily d q info scopes w2) as [[newtok|e] w3] eqn:Hrot; cbn [fst snd].
  2:{ rewrite M_bind_unfold. intros [= <-]. apply rotateFamily_out in Hrot. cbn. rewrite Hrot.
      eapply ok_not_error; [apply error_is_error|reflexivity]. }
  rewrite !M_bind_unfold. cbn [emit fst snd]. set (w4 := Build_World _ _ _ _ _).
  set (m := rememberRefreshGrace _ _ _ _). intros [= <-]. cbn [w_out w_srv].
  destruct (keeps_rememberGrace (rr_refreshToken q) (rotation_response token newtok (rr_jkt q) strategy)
    (rt_ExpiresAt info) (wrap64 (tk_ExpiresIn token * GoTime.Second)) w4) as [Hk _]. fold m in Hk.
  apply rotateFamily_Ok in Hrot as (Hdr & Hout & Hi' & Hrest).
  assert (w_out (m w4).2 = w_out w) as Hm.
  { assert (silent m) as Hs by (unfold m, rememberRefreshGrace; count).
    destruct (Hs w4) as (rs & Ho & Hl). destruct rs; [|done]. rewrite Ho, app_nil_r. exact Hout. }
  rewrite Hm. intros [= <-]%(inj _). exists strategy, ti, token, newtok, x'.
  split_and!; try done; [by rewrite Hk|]. intros t Hne. rewrite Hk. by apply Hrest.
Qed.

(** Both policy engines let the request through, for [scopes]. *)
Definition policies_passed d q (info : RefreshToken) (scopes : list string) (x : X) : Prop :=
  exists granted x1 x2, granted ⊆ rt_Scopes info /\
    dp_EnforceRefreshConditionalAccess d (rr_client q) info granted x = (Ok scopes, x1) /\
    dp_EnforceRefreshDepthPolicy d (cl_ID (rr_client q)) (rt_UserID info) (cl_TenantID (rr_client q)) scopes
      (rt_Generation info) x1 = (None, x2).

(** A successful rotation of [info], from the state right after its Consume. *)
Definition rotated d q (info : RefreshToken) (w w' : World St X) (b : body) : Prop :=
  exists scopes strategy ti token newtok x x',
    scopes ⊆ rt_Scopes info /\
    policies_passed d q info scopes (tracked d info (sv_x (w_srv w))) /\
    dp_IssuerForClient d x (rr_client q) = Some (strategy, ti) /\
    ti_Issue ti (refreshRotatedSubject q info
      (dp_ApplyPairwiseSubject d x (rr_client q) (rt_UserID info))) scopes x = (Ok token, x') /\
    b = rotation_response token newtok (rr_jkt q) strategy /\
    dr_token (q_draws (rr_base q)) = Some newtok /\
    (exists i', rs_live (sv_refresh (w_srv w')) newtok = Some i' /\ descends q info i' scopes) /\
    forall t, t <> newtok -> rs_live (sv_refresh (w_srv w')) t = rs_live (sv_refresh (w_srv w)) t.

Definition admitted d q (info : RefreshToken) (now : Z) (x : X) : Prop :=
  sender_ok q info /\ age_ok d now info /\ session_ok d now x info /\
  lifecycle_ok d (tracked d info x) (rt_UserID info).

Lemma consumed_ok d q info w w' b :
  PolicyLaws d -> refresh_consumed d q info w = ((), w') -> w_out w' = w_out w ++ [ROK b] ->
  admitted d q info (sv_now (w_srv w)) (sv_x (w_srv w)) /\ rotated d q info w w' b.
Proof.
  intros Hd Hw Ho. unfold refresh_consumed in Hw.
  apply (unless_ok _ _ _ _ b) in Hw as (w1 & H1 & O1 & Hw); auto using gate_bindGuard, refuses_bindGuard.
  apply bindGuard_false in H1 as [-> Hsender].
  apply (unless_ok _ _ _ _ b) in Hw as (w1 & H1 & O2 & Hw); auto using gate_maxLifetime, refuses_maxLifetime.
  apply maxLifetime_false in H1 as [-> Hage].
  apply (unless_ok _ _ _ _ b) in Hw as (w1 & H1 & O3 & Hw);
    auto using gate_sessionLiveness, refuses_sessionLiveness.
  destruct (keeps_sessionLiveness d info w) as [K1 N1]. rewrite H1 in K1, N1.
  apply sessionLiveness_false in H1 as [Hsess Hx1]. rewrite <- O3 in Ho.
  apply (unless_ok _ _ _ _ b) in Hw as (w2 & H1 & O4 & Hw); auto using gate_lifecycle, refuses_lifecycle.
  apply lifecycle_false in H1 as [-> Hlife]. rewrite Hx1 in Hlife.
  split; [done|]. rewrite M_bind_unfold in Hw.
  destruct (resolves_grant d q info w1) as (rs & O5 & L5), (keeps_resolveGrant d q info w1) as [K2 N2].
  destruct (refreshResolveGrant d q info w1) as [[scopes|] w3] eqn:Hres; cbn [fst snd] in *.
  2:{ injection Hw as <-. destruct (resolveGrant_None d q info w1 w3 Hd Hres) as (r & Hr & Hout).
      by eapply ok_not_error. }
  destruct rs; [|done]. rewrite app_nil_r in O5. rewrite <- O5 in Ho.
  apply resolveGrant_cap in Hres as Hcap. destruct Hcap as (granted & Hg & Hcap). rewrite Hx1 in Hcap.
  apply resolveGrant_Some in Hres; [|done].
  apply (unless_ok _ _ _ _ b) in Hw as (w4 & H1 & O6 & Hw); auto using gate_depthPolicy, refuses_depthPolicy.
  apply depthPolicy_false in H1 as Hdepth.
  destruct (keeps_depthPolicy d q info scopes w3) as [K3 N3]. rewrite H1 in K3, N3. rewrite <- O6 in Ho.
  apply (unless_ok _ _ _ _ b) in Hw as (w5 & H2 & O7 & Hw); auto using gate_velocity, refuses_velocity.
  rewrite <- O7 in Ho.
  destruct (rotate_ok _ _ _ _ _ _ _ Hw Ho) as (strategy & ti & token & newtok & x' & Hi & Ht & Hb & Hdr & Hnew & Hrest).
  exists scopes, strategy, ti, token, newtok, (sv_x (w_srv w5)), x'. split_and!; try done.
  1: by exists granted, (sv_x (w_srv w3)), (sv_x (w_srv w4)).
  intros t Hne. rewrite Hrest by done. destruct (velocity_false _ _ _ _ _ t H2) as [-> _].
  cbn [snd] in *. by rewrite K3, K2, K1.
Qed.

Lemma prepare_live q w info :
  rs_live (sv_refresh (w_srv w)) (rr_refreshToken q) = Some info ->
  RefreshToken_IsExpired (sv_now (w_srv w)) info = false ->
  let w1 := (prepareRefreshGrace q w).2 in
  sv_refresh (w_srv w1) = sv_refresh (w_srv w) /\ sv_now (w_srv w1) = sv_now (w_srv w) /\
  sv_x (w_srv w1) = sv_x (w_srv w) /\ w_out w1 = w_out w.
Proof.
  intros Hl Hx w1. unfold w1, prepareRefreshGrace. rewrite M_bind_unfold. cbn [gets fst snd].
  destruct (sv_grace _); [|done]. destruct rs_Inspect as [f|] eqn:Hf; [|done].
  rewrite !M_bind_unfold. cbn [gets fst snd]. unfold on_refresh.
  pose proof (rs_Inspect_keeps f _ _ _ _ Hf Hl Hx) as Hk. destruct (f _ _ _) as [res s0] eqn:E. cbn [fst snd] in *.
  subst s0. destruct res as [i|e]; [|done]. by split_if.
Qed.

Lemma refresh_ok_live d q w w' info b :
  PolicyLaws d ->
  rs_live (sv_refresh (w_srv w)) (rr_refreshToken q) = Some info ->
  RefreshToken_IsExpired (sv_now (w_srv w)) info = false ->
  HandleRefreshGrant d q w = ((), w') -> w_out w' = w_out w ++ [ROK b] ->
  admitted d q info (sv_now (w_srv w)) (sv_x (w_srv w)) /\
  exists w1, (forall t, rs_live (sv_refresh (w_srv w1)) t =
     if decide (t = rr_refreshToken q) then None else rs_live (sv_refresh (w_srv w)) t) /\
     sv_x (w_srv w1) = sv_x (w_srv w) /\ rotated d q info w1 w' b.
Proof.
  intros Hd Hlive Hx Hw Ho. unfold HandleRefreshGrant in Hw.
  destruct (dp_RefreshTokenStore d); simpl in Hw.
  2:{ injection Hw as <-. eapply ok_not_error; [apply error_is_error|reflexivity|exact Ho]. }
  case_decide; [injection Hw as <-; eapply ok_not_error; [apply error_is_error|reflexivity|exact Ho]|].
  rewrite !M_bind_unfold in Hw. cbn [gets fst snd] in Hw.
  destruct (prepare_live q w info Hlive Hx) as (P1 & P2 & P3 & P4).
  set (w1 := (prepareRefreshGrace q w).2) in *. unfold on_refresh in Hw.
  destruct (rs_Consume _ _ _) as [[i|[e inf]] s'] eqn:Hc; cbn [fst snd] in Hw; rewrite P1, P2 in Hc.
  - destruct (rs_Consume_Ok _ _ _ _ _ Hc) as (Hl & _ & Hs). rewrite Hl in Hlive. simplify_eq.
    rewrite <- P4 in Ho. apply (consumed_ok _ _ _ _ _ b Hd) in Hw as [Had Hrot]; [|done].
    cbn in Had. rewrite P2, P3 in Had. split; [done|]. eexists. split; [|split; [|exact Hrot]]; done.
  - exfalso. destruct (rs_Consume_Err _ _ _ _ _ Hc) as [_ Hr]. simpl in Hr.
    assert (refreshHandleConsumeError d q e inf = mret false) as Hm.
    { destruct e; [done|specialize (Hr eq_refl); congruence|done]. }
    rewrite Hm in Hw. unfold unless in Hw. rewrite M_bind_unfold in Hw. injection Hw as <-.
    cbn in Ho. rewrite P4 in Ho. eapply ok_not_error; [apply error_is_error|reflexivity|exact Ho].
Qed.

(** ** Spent tokens *)

Lemma set_same_refresh w : set_srv (with_refresh (sv_refresh (w_srv w))) w = w :> World St X.
Proof. by destruct w as [[] ? ?]. Qed.

Lemma prepare_dead q w :
  rs_live (sv_refresh (w_srv w)) (rr_refreshToken q) = None -> prepareRefreshGrace q w = ((), w).
Proof.
  intros Hl. unfold prepareRefreshGrace. rewrite M_bind_unfold. cbn [gets fst snd].
  destruct (sv_grace _); [|done]. destruct rs_Inspect as [f|] eqn:Hf; [|done].
  rewrite !M_bind_unfold. cbn [gets fst snd]. unfold on_refresh.
  destruct (rs_Inspect_dead f (sv_now (w_srv w)) _ _ Hf Hl) as [e ->]. cbn. by rewrite set_same_refresh.
Qed.

Lemma replay_miss d q fid w :
  lookup_grace (rr_refreshToken q) (w_srv w) = None -> replayRefreshGrace d q fid w = (false, w).
Proof.
  intros Hm. unfold replayRefreshGrace, liveRefreshGrace. rewrite !M_bind_unfold. cbn [gets fst snd].
  rewrite Hm. done.
Qed.

Lemma await_miss d q fid w :
  lookup_grace (rr_refreshToken q) (w_srv w) = None ->
  awaitPendingRefreshGrace q fid (replayRefreshGrace d q fid) w = (false, w).
Proof.
  intros Hm. unfold awaitPendingRefreshGrace. rewrite M_bind_unfold. cbn [gets fst snd].
  destruct (sv_grace (w_srv w)); [|done].
  destruct (rr_polls q); simpl; rewrite M_bind_unfold; cbn [gets fst snd]; unfold pending_now; rewrite Hm; simpl;
    by apply replay_miss.
Qed.

Lemma kill_family_shrinks fid l1 l2 w :
  shrinks rs_live (sv_refresh (w_srv w)) (sv_refresh (w_srv (kill_family fid l1 l2 w).2)).
Proof.
  unfold kill_family. destruct rs_DeleteFamily as [f|] eqn:Hf; [|apply shrinks_refl].
  rewrite M_bind_unfold. unfold on_refresh.
  pose proof (rs_DeleteFamily_shrinks f fid (sv_refresh (w_srv w)) Hf) as Hs.
  destruct (f _ _) as [[n|e] s']; simpl in *; done.
Qed.

Lemma kill_family_dead fid l1 l2 w f n s' t i :
  rs_DeleteFamily = Some f -> fid <> "" -> f fid (sv_refresh (w_srv w)) = (Ok n, s') ->
  rs_live (sv_refresh (w_srv (kill_family fid l1 l2 w).2)) t = Some i -> rt_FamilyID i <> fid.
Proof.
  intros Hf Hfid Hk. unfold kill_family. rewrite Hf, M_bind_unfold. unfold on_refresh. rewrite Hk. cbn.
  intros Hl. by eapply rs_DeleteFamily_Ok.
Qed.

(** The answer to a spent token of a tracked family that the grace window does not
    cover. *)
Lemma reuse_run d q w err_info s1 :
  dp_RefreshTokenStore d = true -> rr_refreshToken q <> "" ->
  rs_live (sv_refresh (w_srv w)) (rr_refreshToken q) = None ->
  lookup_grace (rr_refreshToken q) (w_srv w) = None ->
  rs_Consume (sv_now (w_srv w)) (rr_refreshToken q) (sv_refresh (w_srv w)) =
    (Err (ErrRefreshTokenReused, Some err_info), s1) ->
  rt_FamilyID err_info <> "" ->
  exists w1 w2, sv_refresh (w_srv w1) = s1 /\ w_out w1 = w_out w /\
    w2 = (kill_family (rt_FamilyID err_info) "family revocation on reuse failed"
            "refresh token reuse detected — family revoked" w1) /\
    let w' := (HandleRefreshGrant d q w).2 in
    w_srv w' = w_srv w2.2 /\ w_out w' = w_out w ++ [RError 400 ErrInvalidGrant] /\
    EvRefreshTokenReuse (cl_ID (rr_client q)) (rt_UserID err_info) (rt_FamilyID err_info) w2.1 ∈ w_events w'.
Proof.
  intros Hst Htok Hdead Hmiss Hc Hfam. unfold HandleRefreshGrant. rewrite Hst. simpl.
  rewrite decide_False by done. rewrite !M_bind_unfold, (prepare_dead q w Hdead). cbn [gets fst snd].
  unfold on_refresh. rewrite Hc. cbn [fst snd].
  set (wc := set_srv (with_refresh s1) w).
  assert (lookup_grace (rr_refreshToken q) (w_srv wc) = None) as Hmiss' by done.
  unfold unless. rewrite M_bind_unfold. unfold refreshHandleConsumeError.
  rewrite M_bind_unfold, (replay_miss d q _ wc Hmiss'). cbn [fst snd].
  rewrite M_bind_unfold, (await_miss d q _ wc Hmiss'). cbn [fst snd].
  rewrite decide_False by done. rewrite !M_bind_unfold. cbn [emit fst snd].
  set (w1 := {| w_srv := w_srv wc; w_out := w_out wc;
                w_events := w_events wc ++ [EvInvalidateIntrospection (rr_refreshToken q)] |}).
  set (k := kill_family (rt_FamilyID err_info) _ _ w1).
  exists w1, k. split_and!; try done; [|cbn; set_solver].
  cbn. destruct (silent_kill_family (rt_FamilyID err_info) "family revocation on reuse failed"
    "refresh token reuse detected — family revoked" w1) as (rs & Ho & Hl). fold k in Ho.
  destruct rs; [|done]. by rewrite Ho, app_nil_r.
Qed.

(** ** Replays *)

(** What a replay answers with, judged at the server state [v] of that moment. *)
Definition replayed d q (fid : string) (v : Server St X) (b : body) : Prop :=
  exists cached deadline info scopes,
    lookup_grace (rr_refreshToken q) v = Some cached /\
    deadline_at KeyRefreshGraceDeadline cached = Some deadline /\ sv_now v < deadline /\
    rs_live (sv_refresh v) (str_at KeyRefreshToken cached) = Some info /\
    RefreshToken_IsExpired (sv_now v) info = false /\
    rt_FamilyID info = fid /\ admitted d q info (sv_now v) (sv_x v) /\
    scopes ⊆ rt_Scopes info /\ cached !! KeyScope = Some (VStr (Str.join scopes)) /\
    b = strip_private cached.

Lemma liveGrace_Some token w cached info w1 :
  liveRefreshGrace token w = (Some (cached, info), w1) ->
  w1 = w /\ lookup_grace token (w_srv w) = Some cached /\
  (exists deadline, deadline_at KeyRefreshGraceDeadline cached = Some deadline /\ sv_now (w_srv w) < deadline) /\
  rs_live (sv_refresh (w_srv w)) (str_at KeyRefreshToken cached) = Some info /\
  RefreshToken_IsExpired (sv_now (w_srv w)) info = false.
Proof.
  unfold liveRefreshGrace. rewrite !M_bind_unfold. cbn [gets fst snd].
  destruct (lookup_grace _ _) as [c|] eqn:Hc; [|done].
  destruct (deadline_at _ c) as [dl|] eqn:Hd; [|done]. destruct (GoTime.Before _ dl) eqn:Hb; [|done].
  cbn [negb]. destruct rs_Inspect as [f|] eqn:Hf; [|done]. case_decide; [done|].
  rewrite M_bind_unfold. unfold on_refresh. destruct (f _ _ _) as [[i|e] s'] eqn:Hi; [|done]. cbn [fst snd].
  destruct (rs_Inspect_live _ _ _ _ _ _ Hf Hi) as (Hl & Hx & ->). rewrite Hx. intros [= <- <- <-].
  rewrite set_same_refresh. split_and!; try done. exists dl. split; [done|]. by apply Z.ltb_lt.
Qed.

Lemma gate_then_ok (g k : G bool) w w' b :
  gate g -> refuses g -> (h ← g; if (h : bool) then mret true else k) w = (true, w') ->
  w_out w' = w_out w ++ [ROK b] ->
  exists w1, g w = (false, w1) /\ w_out w1 = w_out w /\ k w1 = (true, w').
Proof.
  intros Hg Hr. rewrite M_bind_unfold. destruct (Hg w) as (rs & Ho & Hl).
  destruct (g w) as [[] w1] eqn:E; cbn [fst snd] in *.
  - intros [= <-]. destruct (Hr w w1 E) as (r & Her & Ho'). by eapply ok_not_error.
  - destruct rs; [|done]. rewrite app_nil_r in Ho. eauto.
Qed.

Lemma replay_ok d q fid w w' b :
  PolicyLaws d -> replayRefreshGrace d q fid w = (true, w') -> w_out w' = w_out w ++ [ROK b] ->
  replayed d q fid (w_srv w) b /\ sv_refresh (w_srv w') = sv_refresh (w_srv w).
Proof.
  intros Hd Hw Ho. unfold replayRefreshGrace in Hw. rewrite M_bind_unfold in Hw.
  destruct (liveRefreshGrace _ w) as [[[cached info]|] w1] eqn:Hlive; cbn [fst snd] in Hw; [|done].
  apply liveGrace_Some in Hlive as (-> & Hc & (dl & Hdl & Hlt) & Hl & Hx).
  destruct (bool_decide (rt_FamilyID info = fid)) eqn:Hf; cbn [negb] in Hw; [|done]. bool_simpl.
  destruct (negb (bool_decide (rt_ClientID info = cl_ID (rr_client q))) || _) eqn:Hs in Hw; [done|].
  assert (sender_ok q info) as Hsender.
  { unfold sender_ok. bool_simpl. split; [done|]. apply andb_false_iff in H0.
    rewrite !negb_false_iff, !bool_decide_eq_true in H0. destruct H0; auto. }
  apply (gate_then_ok _ _ _ _ b) in Hw as (w1 & H1 & O1 & Hw); auto using gate_maxLifetime, refuses_maxLifetime.
  apply maxLifetime_false in H1 as [-> Hage].
  apply (gate_then_ok _ _ _ _ b) in Hw as (w1 & H1 & O2 & Hw);
    auto using gate_sessionLiveness, refuses_sessionLiveness.
  destruct (keeps_sessionLiveness d info w) as [K1 _]. rewrite H1 in K1. cbn [snd] in K1.
  apply sessionLiveness_false in H1 as [Hsess Hx1]. rewrite <- O2 in Ho.
  apply (gate_then_ok _ _ _ _ b) in Hw as (w2 & H1 & _ & Hw); auto using gate_lifecycle, refuses_lifecycle.
  apply lifecycle_false in H1 as [-> Hlife]. rewrite Hx1 in Hlife. rewrite M_bind_unfold in Hw.
  destruct (resolves_grant d q info w1) as (rs & O5 & L5), (keeps_resolveGrant d q info w1) as [K2 _].
  destruct (refreshResolveGrant d q info w1) as [[scopes|] w3] eqn:Hres; cbn [fst snd] in *.
  2:{ injection Hw as <-. destruct (resolveGrant_None d q info w1 w3 Hd Hres) as (resp & Herr & Hout).
      by eapply ok_not_error. }
  destruct rs; [|done]. rewrite app_nil_r in O5. rewrite M_bind_unfold in Hw. cbn [gets fst snd] in Hw.
  apply resolveGrant_Some in Hres; [|done].
  destruct (bool_decide (cached !! KeyScope = _)) eqn:Hsc; cbn [negb orb] in Hw; [|done].
  destruct (refreshGraceAccessValid _ _ _ _); cbn [negb] in Hw; [|done]. injection Hw as <-.
  cbn in Ho. rewrite O5 in Ho. apply (inj (app _)) in Ho as [= <-]. bool_simpl.
  split; [|cbn; by rewrite K2, K1]. exists cached, dl, info, scopes. split_and!; try done.
Qed.

Lemma await_ok q fid replay polls w w' b :
  gate replay -> await_loop q fid replay polls w = (true, w') -> w_out w' = w_out w ++ [ROK b] ->
  exists w1, replay w1 = (true, w') /\ w_out w1 = w_out w.
Proof.
  intros Hr. revert w. induction polls as [|poll polls IH]; intros w; simpl; rewrite M_bind_unfold;
    cbn [gets fst snd]; (destruct (pending_now _ _ _); cbn [negb]; [|by eauto]).
  - rewrite !M_bind_unfold. cbn [environment gets fst snd]. destruct (pending_now _ _ _); cbn [negb].
    + intros [= <-] Ho. by eapply ok_not_error; [apply error_is_error|reflexivity|exact Ho].
    + intros Hw Ho. eexists. split; [exact Hw|done].
  - rewrite M_bind_unfold. cbn [environment fst snd]. intros Hw Ho.
    by destruct (IH _ Hw Ho) as (w1 & ? & ?); exists w1.
Qed.

Lemma reused_ok d q w w' b info s1 :
  PolicyLaws d ->
  rs_live (sv_refresh (w_srv w)) (rr_refreshToken q) = None ->
  rs_Consume (sv_now (w_srv w)) (rr_refreshToken q) (sv_refresh (w_srv w)) =
    (Err (ErrRefreshTokenReused, Some info), s1) ->
  HandleRefreshGrant d q w = ((), w') -> w_out w' = w_out w ++ [ROK b] ->
  exists v, replayed d q (rt_FamilyID info) v b /\ sv_refresh (w_srv w') = sv_refresh v.
Proof.
  intros Hd Hdead Hc Hw Ho. unfold HandleRefreshGrant in Hw.
  destruct (dp_RefreshTokenStore d); simpl in Hw.
  2:{ injection Hw as <-. eapply ok_not_error; [apply error_is_error|reflexivity|exact Ho]. }
  case_decide; [injection Hw as <-; eapply ok_not_error; [apply error_is_error|reflexivity|exact Ho]|].
  rewrite !M_bind_unfold, (prepare_dead q w Hdead) in Hw. cbn [gets fst snd] in Hw.
  unfold on_refresh in Hw. rewrite Hc in Hw. cbn [fst snd] in Hw.
  set (wc := set_srv _ w) in Hw. change (w_out w) with (w_out wc) in Ho.
  unfold unless in Hw. rewrite M_bind_unfold in Hw.
  destruct (gate_consume_error d q ErrRefreshTokenReused (Some info) wc) as (rs & Hout & Hl).
  destruct (refreshHandleConsumeError _ _ _ _ wc) as [[] w1] eqn:He; cbn [fst snd] in *.
  2:{ destruct rs; [|done]. rewrite app_nil_r in Hout. injection Hw as <-. cbn in Ho. rewrite Hout in Ho.
      eapply ok_not_error; [apply error_is_error|reflexivity|exact Ho]. }
  injection Hw as <-. cbn in He. rewrite M_bind_unfold in He.
  destruct (gate_replay d q (rt_FamilyID info) wc) as (rs2 & Ho2 & Hl2).
  destruct (replayRefreshGrace d q _ wc) as [[] w2] eqn:Hrep; cbn [fst snd] in *.
  { injection He as <-. destruct (replay_ok _ _ _ _ _ _ Hd Hrep Ho) as [? ?]. eauto. }
  destruct rs2; [|done]. rewrite app_nil_r in Ho2. rewrite <- Ho2 in Ho. rewrite M_bind_unfold in He.
  unfold awaitPendingRefreshGrace in He. rewrite M_bind_unfold in He. cbn [gets fst snd] in He.
  assert (forall w3, (if decide (rt_FamilyID info = "") then mret false else
     _ ← emit (EvInvalidateIntrospection (rr_refreshToken q));
     killed ← kill_family (rt_FamilyID info) "family revocation on reuse failed"
                "refresh token reuse detected — family revoked";
     _ ← emit (EvRefreshTokenReuse (cl_ID (rr_client q)) (rt_UserID info) (rt_FamilyID info) killed);
     mret false) w3 = (true, w1) -> False) as Hkill.
  { intros w3. case_decide; [done|]. by rewrite !M_bind_unfold. }
  destruct (sv_grace (w_srv w2)); cbn [fst snd] in He; [|by apply Hkill in He].
  destruct (await_loop q _ _ _ w2) as [[] w3] eqn:Hw3; cbn [fst snd] in He; [|by apply Hkill in He].
  injection He as ->. destruct (await_ok _ _ _ _ _ _ _ (gate_replay d q _) Hw3 Ho) as (w4 & H4 & O4).
  rewrite <- O4 in Ho. destruct (replay_ok _ _ _ _ _ _ Hd H4 Ho) as [? ?]. eauto.
Qed.

(** ** Steps that mint no refresh token *)

Definition shrinking {A} (m : G A) : Prop :=
  forall w, shrinks rs_live (sv_refresh (w_srv w)) (sv_refresh (w_srv (m w).2)).

Lemma shrinking_keeps {A} (m : G A) : keeps m -> shrinking m.
Proof. intros Hm w. destruct (Hm w) as [-> _]. apply shrinks_refl. Qed.
Lemma shrinking_bind {A B} (m : G A) (k : A -> G B) :
  shrinking m -> (forall a, shrinking (k a)) -> shrinking (m ≫= k).
Proof. intros Hm Hk w. rewrite M_bind_unfold. eapply shrinks_trans; [apply Hm|apply Hk]. Qed.

Lemma shrinking_inspect f now t : rs_Inspect = Some f -> shrinking (on_refresh (f now t)).
Proof.
  intros Hf w. pose proof (rs_Inspect_shrinks f now t (sv_refresh (w_srv w)) Hf) as Hs.
  unfold on_refresh. by destruct (f _ _ _).
Qed.

Lemma shrinking_record f now fid : rs_RecordRotation = Some f -> shrinking (on_refresh (f now fid)).
Proof.
  intros Hf w t i. pose proof (rs_RecordRotation_live f now fid (sv_refresh (w_srv w)) t Hf) as Hs.
  unfold on_refresh. destruct (f _ _ _). simpl in *. by rewrite Hs.
Qed.

Lemma shrinking_consume now t : shrinking (on_refresh (rs_Consume now t)).
Proof.
  intros w. unfold on_refresh. destruct (rs_Consume now t _) as [[i|e] s'] eqn:Hc; simpl.
  - intros t' i' Ht'. apply rs_Consume_Ok in Hc as (_ & _ & Hs). rewrite Hs in Ht'.
    by case_decide.
  - by apply rs_Consume_Err in Hc as [? _].
Qed.

Lemma shrinking_kill fid l1 l2 : shrinking (kill_family fid l1 l2).
Proof. intros w. apply kill_family_shrinks. Qed.

Ltac shrink :=
  repeat first
    [ solve [apply shrinking_keeps; keep]
    | apply shrinking_kill | apply shrinking_consume
    | apply shrinking_bind; [|intros ?]
    | match goal with |- context [match ?x with _ => _ end] => destruct x eqn:? end ].

Lemma shrinking_velocity d q fid : shrinking (refreshVelocityGate d q fid).
Proof.
  unfold refreshVelocityGate. destruct rs_RecordRotation as [f|] eqn:Hf; [|shrink].
  case_decide; [shrink|]. apply shrinking_bind; [shrink|]. intros now.
  apply shrinking_bind; [by apply shrinking_record|]. intros r. shrink.
Qed.

Lemma shrinking_prepare q : shrinking (prepareRefreshGrace q).
Proof.
  unfold prepareRefreshGrace. apply shrinking_bind; [shrink|]. intros [c|]; [|shrink].
  destruct rs_Inspect as [f|] eqn:Hf; [|shrink]. apply shrinking_bind; [shrink|]. intros now.
  apply shrinking_bind; [by apply shrinking_inspect|]. intros r. shrink.
Qed.

Lemma shrinking_replay d q fid : shrinking (replayRefreshGrace d q fid).
Proof.
  unfold replayRefreshGrace. apply shrinking_bind.
  - unfold liveRefreshGrace. apply shrinking_bind; [shrink|]. intros now.
    apply shrinking_bind; [shrink|]. intros [c|]; [|shrink]. destruct (deadline_at _ c); [|shrink].
    split_if; [shrink|]. destruct rs_Inspect as [f|] eqn:Hf; [|shrink]. case_decide; [shrink|].
    apply shrinking_bind; [by apply shrinking_inspect|]. intros r. shrink.
  - intros r. pose proof keeps_maxLifetime. pose proof keeps_sessionLiveness.
    pose proof keeps_resolveGrant. shrink.
Qed.

(** Other requests, when they leave the refresh store alone. *)
Definition quiet q : Prop :=
  Forall (fun f => forall v, sv_refresh (f v) = sv_refresh v) (rr_stop q :: rr_polls q).

Lemma shrinking_environment f : (forall v : Server St X, sv_refresh (f v) = sv_refresh v) -> shrinking (environment f).
Proof. intros Hf w. cbn. rewrite Hf. apply shrinks_refl. Qed.

Lemma shrinking_await q fid replay polls :
  quiet q -> Forall (fun f => forall v, sv_refresh (f v) = sv_refresh v) polls ->
  shrinking replay -> shrinking (await_loop q fid replay polls).
Proof.
  intros [Hstop _]%Forall_cons Hp Hr. induction Hp as [|f polls Hf Hp IH]; simpl;
    (apply shrinking_bind; [shrink|]; intros b; split_if; [done|]).
  - apply shrinking_bind; [by apply shrinking_environment|]. intros _.
    apply shrinking_bind; [shrink|]. intros c. split_if; [done|shrink].
  - apply shrinking_bind; [by apply shrinking_environment|]. intros _. exact IH.
Qed.

Lemma shrinking_consume_error d q e info : quiet q -> shrinking (refreshHandleConsumeError d q e info).
Proof.
  intros Hq. unfold refreshHandleConsumeError. pose proof (shrinking_replay d q).
  destruct e; [shrink| |shrink]. destruct info as [info|]; [|shrink].
  apply shrinking_bind; [done|]. intros [|]; [shrink|]. apply shrinking_bind; [|intros [|]; shrink].
  unfold awaitPendingRefreshGrace. apply shrinking_bind; [shrink|]. intros [c|]; [|shrink].
  apply shrinking_await; [done| |done]. by apply Forall_cons in Hq as [_ ?].
Qed.

Lemma rotate_refused d q info scopes w st c :
  w_out (refreshIssueAndRotate d q info scopes w).2 = w_out w ++ [RError st c] ->
  shrinks rs_live (sv_refresh (w_srv w)) (sv_refresh (w_srv (refreshIssueAndRotate d q info scopes w).2)).
Proof.
  unfold refreshIssueAndRotate. rewrite M_bind_unfold. cbn [gets fst snd].
  destruct (dp_IssuerForClient _ _ _) as [[strategy ti]|]; [|by intros; apply shrinks_refl].
  rewrite !M_bind_unfold. cbn [gets fst snd]. set (sub := refreshRotatedSubject _ _ _).
  unfold on_x. destruct (ti_Issue ti sub scopes _) as [[token|e] x']; cbn [fst snd].
  2:{ intros _. rewrite M_bind_unfold. destruct e as [[]|]; apply shrinks_refl. }
  rewrite M_bind_unfold. set (w2 := set_srv _ w).
  assert (shrinks rs_live (sv_refresh (w_srv w)) (sv_refresh (w_srv w2))) as H2 by apply shrinks_refl.
  destruct (refreshRotateFamily d q info scopes w2) as [[newtok|e] w3] eqn:Hrot; cbn [fst snd].
  - intros Ho. exfalso. apply rotateFamily_out in Hrot. revert Ho. rewrite !M_bind_unfold. cbn [emit fst snd].
    set (m := rememberRefreshGrace _ _ _ _). set (w4 := Build_World _ _ _ _ _).
    assert (silent m) as Hs by (unfold m, rememberRefreshGrace; count).
    destruct (Hs w4) as (rs & Ho & Hl). destruct rs; [|done]. cbn. rewrite Ho, app_nil_r. cbn. rewrite Hrot.
    by intros [=]%(inj _).
  - intros _. rewrite M_bind_unfold. cbn. revert Hrot.
    unfold refreshRotateFamily, server_issueRefreshToken. rewrite M_bind_unfold. cbn [gets fst snd].
    unfold on_refresh, IssueRefreshToken. destruct (dr_token _); [|by intros [= _ <-]].
    destruct (lineage _ _) as [[fid jti]|]; [|by intros [= _ <-]].
    destruct (rs_Issue _ _ _) as [[e'|] s'] eqn:Hi; [|done]. intros [= _ <-]. by eapply rs_Issue_Some.
Qed.

(** A gate, then a continuation: the run either stops refused or goes on. *)
Lemma unless_shrinks (g : G bool) (k : G ()) w st c :
  gate g -> shrinking g ->
  (forall w1, w_out w1 = w_out w -> w_out (k w1).2 = w_out w1 ++ [RError st c] ->
     shrinks rs_live (sv_refresh (w_srv w1)) (sv_refresh (w_srv (k w1).2))) ->
  w_out (unless g k w).2 = w_out w ++ [RError st c] ->
  shrinks rs_live (sv_refresh (w_srv w)) (sv_refresh (w_srv (unless g k w).2)).
Proof.
  intros Hg Hs Hk. unfold unless. rewrite M_bind_unfold. specialize (Hs w).
  destruct (Hg w) as (rs & Ho & Hl). destruct (g w) as [[] w1]; cbn [fst snd] in *; [done|].
  destruct rs; [|done]. rewrite app_nil_r in Ho. rewrite <- Ho. intros Hout.
  eapply shrinks_trans; [exact Hs|]. by apply Hk.
Qed.

Lemma consumed_refused d q info w st c :
  w_out (refresh_consumed d q info w).2 = w_out w ++ [RError st c] ->
  shrinks rs_live (sv_refresh (w_srv w)) (sv_refresh (w_srv (refresh_consumed d q info w).2)).
Proof.
  unfold refresh_consumed.
  apply unless_shrinks; [apply gate_bindGuard|apply shrinking_keeps, keeps_bindGuard|]; intros w' _; clear w; rename w' into w.
  apply unless_shrinks; [apply gate_maxLifetime|apply shrinking_keeps, keeps_maxLifetime|]; intros w' _; clear w; rename w' into w.
  apply unless_shrinks; [apply gate_sessionLiveness|apply shrinking_keeps, keeps_sessionLiveness|];
    intros w' _; clear w; rename w' into w.
  apply unless_shrinks; [apply gate_lifecycle|apply shrinking_keeps, keeps_lifecycle|]; intros w' _; clear w; rename w' into w.
  rewrite M_bind_unfold. destruct (resolves_grant d q info w) as (rs & Ho & Hl).
  destruct (keeps_resolveGrant d q info w) as [K _].
  destruct (refreshResolveGrant d q info w) as [[scopes|] w1]; cbn [fst snd] in *.
  2:{ intros _. rewrite <- K. apply shrinks_refl. }
  destruct rs; [|done]. rewrite app_nil_r in Ho. rewrite <- K, <- Ho. clear. revert w1. intros w.
  apply unless_shrinks; [apply gate_depthPolicy|apply shrinking_keeps, keeps_depthPolicy|]; intros w' _; clear w; rename w' into w.
  apply unless_shrinks; [apply gate_velocity|apply shrinking_velocity|]; intros w' _; clear w; rename w' into w.
  apply rotate_refused.
Qed.

Lemma refresh_refused d q w st c :
  quiet q -> w_out (HandleRefreshGrant d q w).2 = w_out w ++ [RError st c] ->
  shrinks rs_live (sv_refresh (w_srv w)) (sv_refresh (w_srv (HandleRefreshGrant d q w).2)).
Proof.
  intros Hq. unfold HandleRefreshGrant. split_if; [intros _; apply shrinks_refl|].
  case_decide; [intros _; apply shrinks_refl|]. rewrite !M_bind_unfold. cbn [gets fst snd].
  set (w1 := (prepareRefreshGrace q w).2). set (w2 := (on_refresh _ w1).2).
  assert (w_out w2 = w_out w) as O2.
  { assert (silent (_ ← prepareRefreshGrace q; on_refresh (X:=X) (rs_Consume (sv_now (w_srv w1)) (rr_refreshToken q)))) as Hs.
    { apply silent_bind; [apply silent_prepare|intros _; apply silent_on_refresh]. }
    destruct (Hs w) as (rs & Ho & Hl). destruct rs; [|done]. rewrite M_bind_unfold, app_nil_r in Ho. exact Ho. }
  assert (shrinks rs_live (sv_refresh (w_srv w)) (sv_refresh (w_srv w2))) as S2.
  { eapply shrinks_trans; [apply shrinking_prepare|apply shrinking_consume]. }
  rewrite <- O2. intros Ho. eapply shrinks_trans; [exact S2|]. revert Ho.
  destruct (on_refresh _ w1).1 as [info|[e inf]]; [apply consumed_refused|].
  apply unless_shrinks; [apply gate_consume_error|by apply shrinking_consume_error|].
  intros w3 _ _. apply shrinks_refl.
Qed.
End refresh_grant.
