(* ===== verification/RefreshProps.v ===== *)
(** * RefreshProps: what the refresh_token grant guarantees.

    The theorems of [RefreshGrant], against the store interface of [RefreshIface]
    and, for the flaw at the end, on the in-memory store itself; their witnesses
    run the handler on a concrete server. *)
From S2P Require Import Prelude Core Lifecycle RefreshStore CodeStores DeviceCodes CibaStore Issue RefreshIface GraceCache Scopes GrantCore RefreshGrant.
Local Open Scope Z_scope.

Section properties.
Context {St X : Type} `{Laws : RefreshTokenStoreLaws St}.
Implicit Types (d : Deps X) (q : @RefreshRequest St X).

(** every refresh request is answered exactly once: whatever the store, the
    wired dependencies and the activity of other requests during the grace wait,
    the handler terminates having written one response, and keeps the earlier
    ones. *)
Theorem refresh_answers_once d q w :
  exists r, w_out (HandleRefreshGrant d q w).2 = w_out w ++ [r].
Proof.
  assert (answers_once (HandleRefreshGrant d q)) as H.
  { unfold HandleRefreshGrant. pose proof (once_consumed (St:=St) (X:=X)).
    pose proof (gate_consume_error (St:=St) (X:=X)). pose proof (silent_prepare (St:=St) (X:=X)). count. }
  destruct (H w) as (rs & Ho & Hl). destruct rs as [|r [|]]; try done. by exists r.
Qed.

(** C1 — a successful rotation is sound: when a live, unexpired refresh token is
    answered with 200, the presenting client and DPoP key are the ones it was bound
    to, its family is within the absolute lifetime, its session and its user are
    alive; the response carries an access token minted for the recorded
    authentication event and a successor token whose record descends from the
    presented one — same user, family, jti, creation time, AMR/ACR/auth_time and key
    binding, generation plus one, scopes among the original ones; the presented
    token is spent, and no other token's record changes. *)
Theorem refresh_rotation_sound d q w w' info b :
  PolicyLaws d ->
  rs_live (sv_refresh (w_srv w)) (rr_refreshToken q) = Some info ->
  RefreshToken_IsExpired (sv_now (w_srv w)) info = false ->
  HandleRefreshGrant d q w = ((), w') -> w_out w' = w_out w ++ [ROK b] ->
  admitted d q info (sv_now (w_srv w)) (sv_x (w_srv w)) /\
  exists scopes newtok i',
    scopes ⊆ rt_Scopes info /\ b !! KeyRefreshToken = Some (VStr newtok) /\
    rs_live (sv_refresh (w_srv w')) newtok = Some i' /\ descends q info i' scopes /\
    (exists ti x token x', ti_Issue ti (refreshRotatedSubject q info
        (dp_ApplyPairwiseSubject d x (rr_client q) (rt_UserID info))) scopes x = (Ok token, x') /\
        b !! KeyAccessToken = Some (VStr (tk_AccessToken token))) /\
    (forall t, t <> newtok ->
       rs_live (sv_refresh (w_srv w')) t =
       if decide (t = rr_refreshToken q) then None else rs_live (sv_refresh (w_srv w)) t).
Proof.
  intros Hd Hl Hx Hw Ho.
  destruct (refresh_ok_live d q w w' info b Hd Hl Hx Hw Ho) as [Had (w1 & Hw1 &
    _ & scopes & strategy & ti & token & newtok & x & x' & Hsc & _ & _ & Ht & -> & _ & (i' & Hi' & Hdesc) & Hrest)].
  split; [done|]. exists scopes, newtok, i'. split_and!; try done.
  - exists ti, x, token, x'. split; [done|].
    unfold rotation_response, base_response. by simplify_map_eq.
  - intros t Hne. rewrite Hrest by done. apply Hw1.
Qed.

(** C2 — reuse is punished: presenting a spent token of a tracked family that the
    grace window does not cover answers 400 invalid_grant, leaves no token of the
    family usable and brings none to life, and reports the reuse. *)
Theorem refresh_reuse_kills_family d q w info s1 deleteFamily n s2 :
  dp_RefreshTokenStore d = true -> rr_refreshToken q <> "" ->
  rs_live (sv_refresh (w_srv w)) (rr_refreshToken q) = None ->
  lookup_grace (rr_refreshToken q) (w_srv w) = None ->
  rs_Consume (sv_now (w_srv w)) (rr_refreshToken q) (sv_refresh (w_srv w)) =
    (Err (ErrRefreshTokenReused, Some info), s1) ->
  rt_FamilyID info <> "" ->
  rs_DeleteFamily = Some deleteFamily -> deleteFamily (rt_FamilyID info) s1 = (Ok n, s2) ->
  let w' := (HandleRefreshGrant d q w).2 in
  w_out w' = w_out w ++ [RError 400 ErrInvalidGrant] /\
  (forall t i, rs_live (sv_refresh (w_srv w')) t = Some i ->
     rt_FamilyID i <> rt_FamilyID info /\ rs_live (sv_refresh (w_srv w)) t = Some i) /\
  exists killed, EvRefreshTokenReuse (cl_ID (rr_client q)) (rt_UserID info) (rt_FamilyID info) killed
    ∈ w_events w'.
Proof.
  intros Hst Htok Hdead Hmiss Hc Hfam Hdf Hdel.
  destruct (reuse_run d q w info s1 Hst Htok Hdead Hmiss Hc Hfam) as (w1 & w2 & <- & Ho1 & Hk & Hsrv & Ho & Hev).
  intros w'. split; [done|]. split; [|by eexists]. intros t i. unfold w'. rewrite Hsrv, Hk. intros Hl.
  split; [by eapply kill_family_dead|]. apply kill_family_shrinks in Hl.
  apply rs_Consume_Err in Hc as [Hs _]. by apply Hs.
Qed.

(** the grace window replays, it does not mint: when a spent token is answered
    with 200, the answer is a response cached for that very token, still within its
    deadline, whose successor is at that moment a live, unexpired token of the same
    family, bound to the presenting client and key, with its session and user alive
    and the requested scopes those of the cached token; the store is left as it was
    at that moment. *)
Theorem refresh_replay_sound d q w w' b info s1 :
  PolicyLaws d ->
  rs_live (sv_refresh (w_srv w)) (rr_refreshToken q) = None ->
  rs_Consume (sv_now (w_srv w)) (rr_refreshToken q) (sv_refresh (w_srv w)) =
    (Err (ErrRefreshTokenReused, Some info), s1) ->
  HandleRefreshGrant d q w = ((), w') -> w_out w' = w_out w ++ [ROK b] ->
  exists v, replayed d q (rt_FamilyID info) v b /\ sv_refresh (w_srv w') = sv_refresh v.
Proof. apply reused_ok. Qed.

(** a refused refresh mints nothing: when the request ends in an error, and no
    other request touched the store meanwhile, every token the store honours
    afterwards is one it honoured before, with the same record. *)
Theorem refresh_refusal_mints_nothing d q w st c :
  quiet q -> w_out (HandleRefreshGrant d q w).2 = w_out w ++ [RError st c] ->
  forall t i, rs_live (sv_refresh (w_srv (HandleRefreshGrant d q w).2)) t = Some i ->
    rs_live (sv_refresh (w_srv w)) t = Some i.
Proof. apply refresh_refused. Qed.

(** the rotation-velocity cap is fail-closed: when the limiter reports the family
    over its limit, the gate refuses with 400 invalid_grant, and no token of the
    family is usable afterwards. *)
Theorem velocity_breach_kills_family d q fid w limiter count s1 deleteFamily n s2 :
  rs_RecordRotation = Some limiter -> fid <> "" ->
  limiter (sv_now (w_srv w)) fid (sv_refresh (w_srv w)) = (Ok (count, true), s1) ->
  rs_DeleteFamily = Some deleteFamily -> deleteFamily fid s1 = (Ok n, s2) ->
  let r := refreshVelocityGate d q fid w in
  r.1 = true /\ w_out r.2 = w_out w ++ [RError 400 ErrInvalidGrant] /\
  forall t i, rs_live (sv_refresh (w_srv r.2)) t = Some i ->
    rt_FamilyID i <> fid /\ rs_live (sv_refresh (w_srv w)) t = Some i.
Proof.
  intros Hr Hf Hlim Hdf Hdel. unfold refreshVelocityGate. rewrite Hr, decide_False by done.
  rewrite !M_bind_unfold. cbn [gets fst snd]. unfold on_refresh. rewrite Hlim. cbn [fst snd].
  rewrite !M_bind_unfold. cbn [emit fst snd].
  set (wr := set_srv (with_refresh s1) w).
  set (w1 := {| w_srv := w_srv wr; w_out := w_out wr;
                w_events := w_events wr ++ [EvInvalidateIntrospection (rr_refreshToken q)] |}).
  set (k := kill_family fid _ _ w1).
  assert (w_out k.2 = w_out w) as Hk.
  { destruct (silent_kill_family fid "family revocation on rotation-velocity breach failed"
      "refresh rotation velocity exceeded — family revoked" w1) as (rs & Ho & Hl).
    destruct rs; [|done]. unfold k. by rewrite Ho, app_nil_r. }
  split_and!; [done|cbn; by rewrite Hk|]. intros t i Hl.
  change (rs_live (sv_refresh (w_srv k.2)) t = Some i) in Hl. split.
  - eapply (kill_family_dead fid _ _ w1); [exact Hdf|done|exact Hdel|exact Hl].
  - apply kill_family_shrinks in Hl. cbn in Hl.
    pose proof (rs_RecordRotation_live limiter (sv_now (w_srv w)) fid (sv_refresh (w_srv w)) t Hr) as Hv.
    rewrite Hlim in Hv. simpl in Hv. by rewrite <- Hv.
Qed.
End properties.

(** ** A flaw: an expired token taken for a reused one *)

Section expired_flaw.
Context {X : Type}.
Implicit Types (d : Deps X) (q : @RefreshRequest MemoryRefreshTokenStore X)
  (w : World MemoryRefreshTokenStore X).

(** The presentation of a live but expired token, after the grace preparation has
    looked at it. *)
Lemma prepare_expired q w info g :
  entries (sv_refresh (w_srv w)) !! rr_refreshToken q = Some info ->
  RefreshToken_IsExpired (sv_now (w_srv w)) info = true -> sv_grace (w_srv w) = Some g ->
  let m := sv_refresh (w_srv w) in
  prepareRefreshGrace q w =
    ((), set_srv (with_refresh (with_maps m (delete (rr_refreshToken q) (entries m)) (families m) (rotations m))) w).
Proof.
  intros He Hx Hg m. unfold prepareRefreshGrace. rewrite M_bind_unfold. cbn [gets fst snd]. rewrite Hg.
  change rs_Inspect with (Some Inspect). cbv iota beta.
  rewrite !M_bind_unfold. cbn [gets fst snd]. unfold on_refresh.
  assert (Inspect (sv_now (w_srv w)) (rr_refreshToken q) (sv_refresh (w_srv w)) =
    (Err ErrRefreshTokenNotFound, with_maps m (delete (rr_refreshToken q) (entries m)) (families m) (rotations m)))
    as -> by (unfold Inspect; by rewrite He, Hx).
  done.
Qed.

Lemma Handle_prepared d q w w1 :
  prepareRefreshGrace q w = ((), w1) -> prepareRefreshGrace q w1 = ((), w1) -> w_out w1 = w_out w ->
  dp_RefreshTokenStore d = true -> rr_refreshToken q <> "" ->
  HandleRefreshGrant d q w = HandleRefreshGrant d q w1.
Proof.
  intros H1 H2 Ho Hst Htok. unfold HandleRefreshGrant. rewrite Hst. simpl. rewrite decide_False by done.
  by rewrite !(M_bind_unfold (prepareRefreshGrace q)), H1, H2.
Qed.

(** a token that merely expired is treated as stolen: with the in-memory store
    and the grace window on, the first presentation of an expired token that was
    never consumed is reported as a reuse of its family, and every live token of
    that family is revoked; with the grace window off, the same presentation is only
    refused and the family survives. *)
Theorem expired_token_kills_family d q w info fid g :
  dp_RefreshTokenStore d = true -> rr_refreshToken q <> "" ->
  entries (sv_refresh (w_srv w)) !! rr_refreshToken q = Some info ->
  RefreshToken_IsExpired (sv_now (w_srv w)) info = true ->
  families (sv_refresh (w_srv w)) !! rr_refreshToken q = Some fid -> fid <> "" ->
  sv_grace (w_srv w) = Some g -> Lookup (rr_refreshToken q) (sv_now (w_srv w)) g = None ->
  let w' := (HandleRefreshGrant d q w).2 in
  let w0 := set_srv (with_grace None) w in
  w_out w' = w_out w ++ [RError 400 ErrInvalidGrant] /\
  (exists killed, EvRefreshTokenReuse (cl_ID (rr_client q)) "" fid killed ∈ w_events w') /\
  (forall t i, entries (sv_refresh (w_srv w')) !! t = Some i -> rt_FamilyID i <> fid) /\
  w_out (HandleRefreshGrant d q w0).2 = w_out w0 ++ [RError 400 ErrInvalidGrant] /\
  w_events (HandleRefreshGrant d q w0).2 = w_events w0 /\
  (forall t, t <> rr_refreshToken q ->
     entries (sv_refresh (w_srv (HandleRefreshGrant d q w0).2)) !! t = entries (sv_refresh (w_srv w)) !! t).
Proof.
  intros Hst Htok He Hx Hfam Hfid Hg Hmiss w' w0.
  pose proof (prepare_expired q w info g He Hx Hg) as Hp.
  set (m := sv_refresh (w_srv w)) in *.
  set (m1 := with_maps m (delete (rr_refreshToken q) (entries m)) (families m) (rotations m)) in *.
  set (w1 := set_srv (with_refresh m1) w) in *. cbv zeta in Hp.
  assert (rs_live (sv_refresh (w_srv w1)) (rr_refreshToken q) = None) as Hdead by apply lookup_delete_eq.
  assert (rs_Consume (sv_now (w_srv w1)) (rr_refreshToken q) (sv_refresh (w_srv w1)) =
          (Err (ErrRefreshTokenReused, Some (family_only fid)), 
           with_maps m1 (delete (rr_refreshToken q) (entries m1)) (families m1) (rotations m1))) as Hc.
  { assert (entries m1 !! rr_refreshToken q = None) as Hgone by apply lookup_delete_eq.
    change (sv_refresh (w_srv w1)) with m1. cbn -[m1]. unfold Consume. rewrite Hgone.
    change (families m1) with (families m). by rewrite Hfam, decide_False. }
  assert (lookup_grace (rr_refreshToken q) (w_srv w1) = None) as Hmiss1.
  { unfold lookup_grace. cbn. by rewrite Hg. }
  destruct (reuse_run d q w1 (family_only fid) _ Hst Htok Hdead Hmiss1 Hc Hfid)
    as (wa & wb & Ha & _ & Hb & Hsrv & Ho & Hev).
  assert (HandleRefreshGrant d q w = HandleRefreshGrant d q w1) as Heq
    by (apply Handle_prepared; [exact Hp|by apply prepare_dead|done..]).
  assert (HandleRefreshGrant d q w0 = respond (RError 400 ErrInvalidGrant) (set_srv (with_refresh m1) w0)) as Hoff.
  { unfold HandleRefreshGrant. rewrite Hst. simpl. rewrite decide_False by done.
    rewrite !M_bind_unfold. change (prepareRefreshGrace q w0) with ((), w0). cbn [gets fst snd].
    unfold on_refresh, rs_Consume, Memory_RefreshTokenStore.
    assert (Consume (sv_now (w_srv w0)) (rr_refreshToken q) (sv_refresh (w_srv w0)) =
      ((None, Some ErrRefreshTokenNotFound), m1)) as ->
      by (change (sv_refresh (w_srv w0)) with m; change (sv_now (w_srv w0)) with (sv_now (w_srv w)); unfold Consume; by rewrite He, Hx).
    done. }
  unfold w'. rewrite Heq. split_and!; [exact Ho|by eexists| |..].
  - intros t i. rewrite Hsrv, Hb. intros Hl.
    destruct (DeleteFamily fid (sv_refresh (w_srv wa))) as [n s'] eqn:Hdel.
    refine (kill_family_dead fid _ _ wa _ (Z.of_nat n) s' t i eq_refl Hfid _ Hl). by rewrite Hdel.
  - by rewrite Hoff.
  - by rewrite Hoff.
  - intros t Ht. rewrite Hoff. by apply lookup_delete_ne.
Qed.
End expired_flaw.

(** ** Witnesses *)

Definition sample_refresh (tok new : string) : @RefreshRequest MemoryRefreshTokenStore () := {|
  rr_base := GrantCore.sample_request new; rr_refreshToken := tok; rr_scope := "";
  rr_polls := [fun v => v]; rr_stop := fun v => v |}.

Definition grace10 : option RefreshGraceCache := Some (NewRefreshGraceCache 10).

(** The server of the samples after its token t1 was rotated to t2 at time 10. *)
Definition after_rotation : World MemoryRefreshTokenStore () :=
  (HandleRefreshGrant sample_deps (sample_refresh "t1" "t2") (sample_world sample_store grace10 10)).2.

(** The same server, later, with the answers so far forgotten. *)
Definition at_time (now : Z) (w : World MemoryRefreshTokenStore ()) : World MemoryRefreshTokenStore () :=
  {| w_srv := {| sv_now := now; sv_refresh := sv_refresh (w_srv w); sv_grace := sv_grace (w_srv w);
                 sv_codes := sv_codes (w_srv w); sv_devices := sv_devices (w_srv w);
                 sv_ciba := sv_ciba (w_srv w); sv_secrets := sv_secrets (w_srv w); sv_x := () |};
     w_out := []; w_events := [] |}.

Lemma refresh_rotation_sound_witness :
  exists newtok i', rs_live (sv_refresh (w_srv after_rotation)) newtok = Some i' /\
    rt_FamilyID i' = "fam" /\ rt_Generation i' = 1 /\
    rs_live (sv_refresh (w_srv after_rotation)) "t1" = None.
Proof.
  set (w := sample_world sample_store grace10 10).
  assert (exists b, w_out after_rotation = w_out w ++ [ROK b]) as [b Hb]
    by (eexists; vm_compute; reflexivity).
  destruct (refresh_rotation_sound sample_deps (sample_refresh "t1" "t2") w after_rotation sample_info b)
    as (_ & scopes & newtok & i' & _ & Hn & Hl & Hd & _ & Hrest).
  - exact sample_PolicyLaws.
  - vm_compute. reflexivity.
  - vm_compute. reflexivity.
  - unfold after_rotation. fold w. by destruct (HandleRefreshGrant _ _ w) as [[] ?].
  - exact Hb.
  - exists newtok, i'. split; [exact Hl|]. destruct Hd as (_ & _ & _ & _ & _ & _ & _ & _ & _ & _ & _ & Hg & Hf).
    split; [|split].
    + apply Hf. discriminate.
    + exact Hg.
    + vm_compute. reflexivity.
Defined.

Lemma refresh_reuse_kills_family_witness :
  option_map rt_FamilyID (rs_live (sv_refresh (w_srv after_rotation)) "t2") = Some "fam" /\
  rs_live (sv_refresh (w_srv (HandleRefreshGrant sample_deps (sample_refresh "t1" "t3")
    (at_time 30 after_rotation)).2)) "t2" = None.
Proof.
  assert (option_map rt_FamilyID (rs_live (sv_refresh (w_srv after_rotation)) "t2") = Some "fam") as Hfam
    by (vm_compute; reflexivity).
  split; [exact Hfam|]. set (w := at_time 30 after_rotation).
  destruct (refresh_reuse_kills_family sample_deps (sample_refresh "t1" "t3") (at_time 30 after_rotation)
    (family_only "fam") (rs_Consume 30 "t1" (sv_refresh (w_srv after_rotation))).2
    (fun fid s => let '(n, s') := DeleteFamily fid s in (Ok (Z.of_nat n), s')) 1
    (DeleteFamily "fam" (rs_Consume 30 "t1" (sv_refresh (w_srv after_rotation))).2).2) as (_ & H & _).
  - reflexivity.
  - discriminate.
  - vm_compute. reflexivity.
  - vm_compute. reflexivity.
  - vm_compute. reflexivity.
  - discriminate.
  - reflexivity.
  - vm_compute. reflexivity.
  - destruct (rs_live (sv_refresh (w_srv (HandleRefreshGrant _ _ _).2)) "t2") as [i|] eqn:Hl; [exfalso|reflexivity].
    destruct (H "t2" i Hl) as [Hne Hbefore]. change (rs_live (sv_refresh (w_srv after_rotation)) "t2" = Some i)
      in Hbefore. rewrite Hbefore in Hfam. injection Hfam as Hi. exact (Hne Hi).
Defined.

Lemma refresh_replay_sound_witness :
  let w := at_time 15 after_rotation in
  let r := (HandleRefreshGrant sample_deps (sample_refresh "t1" "t3") w).2 in
  exists b v, w_out r = [ROK b] /\ str_at KeyRefreshToken b = "t2" /\
    replayed sample_deps (sample_refresh "t1" "t3") "fam" v b.
Proof.
  intros w r.
  assert (exists b, w_out r = [ROK b] /\ str_at KeyRefreshToken b = "t2") as (b & Hb & Hs)
    by (eexists; split; vm_compute; reflexivity).
  destruct (refresh_replay_sound sample_deps (sample_refresh "t1" "t3") w r b (family_only "fam")
    (rs_Consume 15 "t1" (sv_refresh (w_srv w))).2) as (v & Hv & _).
  - exact sample_PolicyLaws.
  - vm_compute. reflexivity.
  - vm_compute. reflexivity.
  - unfold r. by destruct (HandleRefreshGrant _ _ w) as [[] ?].
  - exact Hb.
  - exists b, v. split; [exact Hb|]. split; [exact Hs|exact Hv].
Defined.

Lemma refresh_refusal_mints_nothing_witness :
  rs_live sample_store "t1" = Some sample_info.
Proof.
  apply (refresh_refusal_mints_nothing sample_deps (sample_refresh "t0" "t3") (sample_world sample_store grace10 20)
    400 ErrInvalidGrant).
  - repeat constructor.
  - vm_compute. reflexivity.
  - vm_compute. reflexivity.
Defined.

Lemma velocity_breach_kills_family_witness :
  (refreshVelocityGate sample_deps (sample_refresh "t1" "t2") "fam"
    (sample_world (RecordRotation 9 "fam" (RecordRotation 8 "fam" sample_store).2).2 None 10)).1 = true.
Proof.
  set (s := (RecordRotation 9 "fam" (RecordRotation 8 "fam" sample_store).2).2).
  destruct (velocity_breach_kills_family sample_deps (sample_refresh "t1" "t2") "fam" (sample_world s None 10)
    (fun now fid s => let '(r, s') := RecordRotation now fid s in (Ok r, s')) 3 (RecordRotation 10 "fam" s).2
    (fun fid s => let '(n, s') := DeleteFamily fid s in (Ok (Z.of_nat n), s')) 1
    (DeleteFamily "fam" (RecordRotation 10 "fam" s).2).2) as (H & _).
  - reflexivity.
  - discriminate.
  - vm_compute. reflexivity.
  - reflexivity.
  - vm_compute. reflexivity.
  - exact H.
Defined.

Lemma expired_token_kills_family_witness :
  exists killed, EvRefreshTokenReuse "app" "" "fam" killed ∈
    w_events (HandleRefreshGrant sample_deps (sample_refresh "t1" "t2") (sample_world sample_store grace10 2000)).2.
Proof.
  apply (expired_token_kills_family sample_deps (sample_refresh "t1" "t2") (sample_world sample_store grace10 2000)
    sample_info "fam" (NewRefreshGraceCache 10)).
  - reflexivity.
  - discriminate.
  - vm_compute. reflexivity.
  - vm_compute. reflexivity.
  - vm_compute. reflexivity.
  - discriminate.
  - reflexivity.
  - vm_compute. reflexivity.
Defined.
