(* ===== verification/GrantMint.v ===== *)
(** * GrantMint: what the grants that start a token family share.

    The authorization-code, device and CIBA grants end alike: an optional refresh
    token that opens a family, and an optional ID token, both best-effort.  The
    tail of those steps is written once here, with the frame rules that say which
    part of the server a step leaves alone, and the two facts the soundness proofs
    use: what a first refresh token is bound to, and that an ID token adds one
    field to the response. *)
From S2P Require Import Prelude Core Lifecycle RefreshStore CodeStores DeviceCodes CibaStore Issue RefreshIface GraceCache Scopes GrantCore.
Local Open Scope Z_scope.

(** ** Frames *)

Section frames.
Context {St X : Type}.
Abbreviation G A := (M (World St X) A).

(** [m] does not change what [p] reads of the server. *)
Definition frame {T A} (p : Server St X -> T) (m : G A) : Prop :=
  forall w, p (w_srv (m w).2) = p (w_srv w).

Lemma frame_bind {T A B} (p : Server St X -> T) (m : G A) (k : A -> G B) :
  frame p m -> (forall a, frame p (k a)) -> frame p (m ≫= k).
Proof. intros Hm Hk w. rewrite M_bind_unfold, <- (Hm w). apply Hk. Qed.
Lemma frame_unless {T} (p : Server St X -> T) g k : frame p g -> frame p k -> frame p (unless g k).
Proof. intros Hg Hk. apply frame_bind; [done|]. by intros []. Qed.
Lemma frame_obtain {T A} (p : Server St X -> T) (m : G (option A)) k :
  frame p m -> (forall a, frame p (k a)) -> frame p (obtain m k).
Proof. intros Hm Hk. apply frame_bind; [done|]. by intros []. Qed.
Lemma frame_ret {T A} (p : Server St X -> T) (a : A) : frame p (mret a).
Proof. done. Qed.
Lemma frame_gets {T A} (p : Server St X -> T) (f : Server St X -> A) : frame p (gets f).
Proof. done. Qed.
Lemma frame_emit {T} (p : Server St X -> T) e : frame p (emit e).
Proof. done. Qed.
Lemma frame_respond {T} (p : Server St X -> T) r : frame p (respond r).
Proof. done. Qed.
Lemma frame_refuse {T} (p : Server St X -> T) st c : frame p (refuse st c).
Proof. done. Qed.
Lemma frame_deny {T A} (p : Server St X -> T) st c : frame p (deny (A:=A) st c).
Proof. done. Qed.

(** An operation on one part frames every reader that ignores that part. *)
Lemma frame_on_x {T A} (p : Server St X -> T) (f : X -> A * X) :
  (forall x v, p (with_x x v) = p v) -> frame p (on_x f).
Proof. intros Hp w. unfold on_x. destruct (f _). apply Hp. Qed.
Lemma frame_on_refresh {T A} (p : Server St X -> T) (f : St -> A * St) :
  (forall x v, p (with_refresh x v) = p v) -> frame p (on_refresh f).
Proof. intros Hp w. unfold on_refresh. destruct (f _). apply Hp. Qed.
Lemma frame_on_codes {T A} (p : Server St X -> T) (f : MemoryAuthCodeStore -> A * MemoryAuthCodeStore) :
  (forall x v, p (with_codes x v) = p v) -> frame p (on_codes f).
Proof. intros Hp w. unfold on_codes. destruct (f _). apply Hp. Qed.
Lemma frame_on_devices {T A} (p : Server St X -> T) (f : MemoryDeviceCodeStore -> A * MemoryDeviceCodeStore) :
  (forall x v, p (with_devices x v) = p v) -> frame p (on_devices f).
Proof. intros Hp w. unfold on_devices. destruct (f _). apply Hp. Qed.
Lemma frame_on_ciba {T A} (p : Server St X -> T) (f : MemoryCIBAStore -> A * MemoryCIBAStore) :
  (forall x v, p (with_ciba x v) = p v) -> frame p (on_ciba f).
Proof. intros Hp w. unfold on_ciba. destruct (f _). apply Hp. Qed.
Lemma frame_on_secrets {T A} (p : Server St X -> T) (f : MemoryDeviceSecretStore -> A * MemoryDeviceSecretStore) :
  (forall x v, p (with_secrets x v) = p v) -> frame p (on_secrets f).
Proof. intros Hp w. unfold on_secrets. destruct (f _). apply Hp. Qed.

Lemma frame_writeTokenIssueError {T} (p : Server St X -> T) e : frame p (writeTokenIssueError e).
Proof. by destruct e as [[]|]. Qed.
End frames.

#[export] Hint Resolve frame_ret frame_gets frame_emit frame_respond frame_refuse frame_deny
  frame_writeTokenIssueError : snap.

Ltac framing :=
  repeat first
    [ solve [auto 2 with snap]
    | apply frame_on_x; intros; reflexivity
    | apply frame_on_refresh; intros; reflexivity
    | apply frame_on_codes; intros; reflexivity
    | apply frame_on_devices; intros; reflexivity
    | apply frame_on_ciba; intros; reflexivity
    | apply frame_on_secrets; intros; reflexivity
    | apply frame_unless
    | apply frame_obtain; [|intros ?]
    | apply frame_bind; [|intros ?]
    | match goal with |- context [match ?x with _ => _ end] => destruct x end ].

Lemma frame_lifecycle {St X T} (p : Server St X -> T) d subject : frame p (lifecycleGrantBlocked d subject).
Proof. unfold lifecycleGrantBlocked. framing. Qed.
Lemma frame_rejectUnregistered {St X T} (p : Server St X -> T) d scopes : frame p (rejectUnregistered d scopes).
Proof. unfold rejectUnregistered. framing. Qed.
#[export] Hint Resolve frame_lifecycle frame_rejectUnregistered : snap.

(** What a grant can mint into, and the stores a finished grant leaves alone. *)
Definition minted {St X} (v : Server St X) : St * MemoryDeviceSecretStore := (sv_refresh v, sv_secrets v).
Definition one_shots {St X} (v : Server St X)
    : Z * MemoryAuthCodeStore * MemoryDeviceCodeStore * MemoryCIBAStore :=
  (sv_now v, sv_codes v, sv_devices v, sv_ciba v).

(** The same server at another time, with no request in between. *)
Definition at_time {St X} (now : Z) (w : World St X) : World St X :=
  set_srv (fun v => {| sv_now := now; sv_refresh := sv_refresh v; sv_grace := sv_grace v;
    sv_codes := sv_codes v; sv_devices := sv_devices v; sv_ciba := sv_ciba v;
    sv_secrets := sv_secrets v; sv_x := sv_x v |}) w.

(** ** Refusals mint nothing *)

Definition refusal_keeps_of {St X T} (p : Server St X -> T) (m : M (World St X) ()) : Prop :=
  forall w st c, w_out (m w).2 = w_out w ++ [RError st c] -> p (w_srv (m w).2) = p (w_srv w).
Abbreviation refusal_keeps := (refusal_keeps_of minted).

Section refusal.
Context {St X T : Type} {p : Server St X -> T}.
Abbreviation G A := (M (World St X) A).

Lemma refusal_frame (m : G ()) : frame p m -> refusal_keeps_of p m.
Proof. intros Hm w st c _. apply Hm. Qed.
Lemma refusal_unless (g : G bool) k :
  gate g -> frame p g -> refusal_keeps_of p k -> refusal_keeps_of p (unless g k).
Proof.
  intros Hg Hf Hk w st c. unfold unless. rewrite M_bind_unfold, <- (Hf w).
  destruct (Hg w) as (rs & Ho & Hl). destruct (g w) as [[] w1]; cbn [fst snd] in *; [done|].
  destruct rs; [|done]. rewrite app_nil_r in Ho. rewrite <- Ho. apply Hk.
Qed.
Lemma refusal_obtain {A} (m : G (option A)) k :
  resolves m -> frame p m -> (forall a, refusal_keeps_of p (k a)) -> refusal_keeps_of p (obtain m k).
Proof.
  intros Hm Hf Hk w st c. unfold obtain. rewrite M_bind_unfold, <- (Hf w).
  destruct (Hm w) as (rs & Ho & Hl). destruct (m w) as [[a|] w1]; cbn [fst snd] in *; [|done].
  destruct rs; [|done]. rewrite app_nil_r in Ho. rewrite <- Ho. apply Hk.
Qed.
Lemma refusal_silent {A} (m : G A) k :
  silent m -> frame p m -> (forall a, refusal_keeps_of p (k a)) -> refusal_keeps_of p (m ≫= k).
Proof.
  intros Hm Hf Hk w st c. rewrite M_bind_unfold, <- (Hf w). destruct (Hm w) as (rs & Ho & Hl).
  destruct rs; [|done]. rewrite app_nil_r in Ho. rewrite <- Ho. apply Hk.
Qed.
(** A step that never answers with an error has nothing to show. *)
Lemma refusal_never {A} (m : G A) (b : A -> body) :
  silent m -> refusal_keeps_of p (a ← m; respond (ROK (b a))).
Proof.
  intros Hm w st c. rewrite M_bind_unfold. cbn. destruct (Hm w) as (rs & -> & Hl).
  destruct rs; [|done]. rewrite app_nil_r. by intros [=]%(inj _).
Qed.
End refusal.

(** ** The best-effort steps *)

Section mint.
Context {St X : Type} `{Store : RefreshTokenStore St}.
Abbreviation G A := (M (World St X) A).
Implicit Types (d : Deps X).

(** Record a refresh token just issued in the response, or log the failure. *)
Definition record_refresh (issue : G (result (issue_error refresh_error) string))
    (clientID user : string) (resp : body) : G body :=
  rt ← issue;
  match rt with
  | Err _ => _ ← emit (EvLog "refresh token issue failed"); mret resp
  | Ok rt => _ ← emit (EvRefreshTokenIssued clientID user false); mret (<[KeyRefreshToken := VStr rt]> resp)
  end.

(** The ID token, from the request built by the grant. *)
Definition emit_id_token d (client : Client) (user : string) (req : IDTokenRequest) (resp : body) : G body :=
  issuer ← gets (fun v => dp_IDTokenIssuerForClient d (sv_x v) client);
  match issuer with
  | None => _ ← emit (EvLog "id token issuer resolution failed; omitting id_token"); mret resp
  | Some None => mret resp
  | Some (Some issue) =>
      idToken ← on_x (issue req);
      match idToken with
      | Err _ => _ ← emit (EvLog "id token issue failed"); mret resp
      | Ok idToken =>
          enc ← gets (fun v => dp_MaybeEncryptIDToken d (sv_x v) client idToken);
          match enc with
          | Some enc => _ ← emit (EvIDTokenIssued (cl_ID client) user); mret (<[KeyIDToken := VStr enc]> resp)
          | None => mret resp
          end
      end
  end.

Definition deviceClientAllowsRefresh (client : Client) : bool :=
  bool_decide (cl_GrantTypes client = []) || contains (cl_GrantTypes client) GrantRefreshToken.

(** The request of a first issue: no family yet, generation zero. *)
Definition first_issue d (dr : Draws) (user : string) (client : Client) (provider : string)
    (scopes : list string) (attributes : gmap string string) (resources : list string)
    (authDetails sid : string) (amr : list string) (acr : string) (authTime : Z) (jkt : string)
    : G (result (issue_error refresh_error) string) :=
  server_issueRefreshToken d dr user (cl_ID client) provider scopes attributes "" resources authDetails sid
    {| rac_AMR := amr; rac_ACR := acr; rac_AuthTime := authTime; rac_Generation := 0;
       rac_FamilyCreatedAt := 0; rac_JTI := ""; rac_Roles := [] |}
    (cl_RefreshTokenTTL client) jkt.

Lemma silent_record issue c u resp : silent issue -> silent (record_refresh issue c u resp).
Proof. intros H. unfold record_refresh. count. Qed.
Lemma silent_first_issue d dr u c p s a r ad sid amr acr t j :
  silent (first_issue d dr u c p s a r ad sid amr acr t j).
Proof. apply silent_issueRefresh. Qed.
Lemma silent_id_token d c u req resp : silent (emit_id_token d c u req resp).
Proof. unfold emit_id_token. count. Qed.
Lemma frame_first_issue d dr u c p s a r ad sid amr acr t j :
  frame one_shots (first_issue d dr u c p s a r ad sid amr acr t j).
Proof. unfold first_issue, server_issueRefreshToken. framing. Qed.
Lemma frame_id_token d c u req resp T (p : Server St X -> T) :
  (forall x v, p (with_x x v) = p v) -> frame p (emit_id_token d c u req resp).
Proof. intros Hp. unfold emit_id_token. repeat first [by apply frame_on_x | progress framing]. Qed.

(** What an ID token adds to a response. *)
Definition with_id_token (resp resp' : body) : Prop :=
  resp' = resp \/ exists e, resp' = <[KeyIDToken := VStr e]> resp.

Lemma id_token_spec d c u req resp w : with_id_token resp (emit_id_token d c u req resp w).1.
Proof.
  unfold emit_id_token, with_id_token. rewrite M_bind_unfold. cbn [gets fst snd].
  destruct (dp_IDTokenIssuerForClient _ _ _) as [[issue|]|]; [|by left..].
  rewrite M_bind_unfold. destruct (on_x (issue req) w) as [[tok|e] w1]; cbn [fst snd]; [|by left].
  rewrite M_bind_unfold. cbn [gets fst snd]. destruct (dp_MaybeEncryptIDToken _ _ _ _); [|by left].
  right. by eexists.
Qed.

Lemma with_id_token_lookup resp resp' k :
  with_id_token resp resp' -> k <> KeyIDToken -> resp' !! k = resp !! k.
Proof. intros [->|[e ->]] Hk; [done|]. by rewrite lookup_insert_ne. Qed.

(** ** A family's first token *)

Context {Laws : RefreshTokenStoreLaws St}.

(** The record behind a refresh token opened by a grant: a fresh family, created
    now, for the given user, client, scopes and key. *)
Definition opens_family (dr : Draws) (now : Z) (user : string) (client : Client)
    (scopes resources : list string) (amr : list string) (authTime : Z) (jkt : string) (i : RefreshToken) : Prop :=
  rt_UserID i = user /\ rt_ClientID i = cl_ID client /\ rt_Scopes i = scopes /\
  rt_Resources i = resources /\ rt_Amr i = amr /\ rt_AuthTime i = authTime /\
  rt_ConfirmationJKT i = jkt /\ rt_Generation i = 0 /\ rt_FamilyCreatedAt i = now /\
  Some (rt_FamilyID i) = dr_family dr.

Lemma first_issue_Ok d dr u c p s a r ad sid amr acr t j w tok w1 :
  first_issue d dr u c p s a r ad sid amr acr t j w = (Ok tok, w1) ->
  (exists i, rs_live (sv_refresh (w_srv w1)) tok = Some i /\
     opens_family dr (sv_now (w_srv w)) u c s r amr t j i) /\
  forall t', t' <> tok -> rs_live (sv_refresh (w_srv w1)) t' = rs_live (sv_refresh (w_srv w)) t'.
Proof.
  unfold first_issue, server_issueRefreshToken. rewrite M_bind_unfold. cbn [gets fst snd].
  unfold on_refresh. destruct (IssueRefreshToken _ _ _ _ _) as [res s'] eqn:E. intros [= -> <-].
  apply IssueRefreshToken_Ok in E as (fid & jti & Hdr & Hl & Hi). apply rs_Issue_None in Hi as [Hlive Ho].
  split; [|done]. eexists. split; [exact Hlive|]. unfold opens_family. simpl. split_and!; try done.
  unfold lineage in Hl. simpl in Hl. destruct (dr_family dr); [|done]. destruct (dr_jti dr); [|done].
  congruence.
Qed.

Lemma first_issue_Err d dr u c p s a r ad sid amr acr t j w e w1 :
  first_issue d dr u c p s a r ad sid amr acr t j w = (Err e, w1) ->
  shrinks rs_live (sv_refresh (w_srv w)) (sv_refresh (w_srv w1)).
Proof.
  unfold first_issue, server_issueRefreshToken. rewrite M_bind_unfold. cbn [gets fst snd].
  unfold on_refresh, IssueRefreshToken. destruct (dr_token dr) as [tok|]; [|intros [= _ <-]; apply shrinks_refl].
  destruct (lineage dr _) as [[fid jti]|]; [|intros [= _ <-]; apply shrinks_refl].
  destruct (rs_Issue _ _ _) as [[err|] s'] eqn:Hi; [|done]. intros [= _ <-]. by eapply rs_Issue_Some.
Qed.

(** The refresh part of a response and of the store after a grant's refresh step:
    either no token and nothing new honoured, or a token that opens a family. *)
Definition refresh_part (P : RefreshToken -> Prop) (resp resp' : body) (s s' : St) : Prop :=
  (resp' = resp /\ shrinks rs_live s s') \/
  exists tok i, resp' = <[KeyRefreshToken := VStr tok]> resp /\ rs_live s' tok = Some i /\ P i /\
    forall t, t <> tok -> rs_live s' t = rs_live s t.

Lemma record_first_issue d dr u c p s a r ad sid amr acr t j cid resp w :
  let m := record_refresh (first_issue d dr u c p s a r ad sid amr acr t j) cid u resp w in
  refresh_part (opens_family dr (sv_now (w_srv w)) u c s r amr t j) resp m.1
    (sv_refresh (w_srv w)) (sv_refresh (w_srv m.2)).
Proof.
  unfold record_refresh, refresh_part. rewrite M_bind_unfold. cbn zeta.
  destruct (first_issue _ _ _ _ _ _ _ _ _ _ _ _ _ _ w) as [[tok|e] w1] eqn:E; cbn [fst snd].
  - right. apply first_issue_Ok in E as [(i & Hi & HP) Ho]. by exists tok, i.
  - left. split; [done|]. change (shrinks rs_live (sv_refresh (w_srv w)) (sv_refresh (w_srv w1))).
    by eapply first_issue_Err.
Qed.

Lemma refresh_part_none P resp s : refresh_part P resp resp s s.
Proof. left. split; [done|apply shrinks_refl]. Qed.

Lemma refresh_part_mono (P Q : RefreshToken -> Prop) resp resp' s s' :
  (forall i, P i -> Q i) -> refresh_part P resp resp' s s' -> refresh_part Q resp resp' s s'.
Proof.
  intros HPQ [H|(tok & i & H1 & H2 & H3 & H4)]; [by left|]. right. exists tok, i. auto.
Qed.

(** The same, read off the finished response. *)
Definition refresh_outcome (P : RefreshToken -> Prop) (b : body) (s s' : St) : Prop :=
  (b !! KeyRefreshToken = None /\ shrinks rs_live s s') \/
  exists tok i, b !! KeyRefreshToken = Some (VStr tok) /\ rs_live s' tok = Some i /\ P i /\
    forall t, t <> tok -> rs_live s' t = rs_live s t.

Lemma refresh_part_outcome P resp resp' b s s' :
  resp !! KeyRefreshToken = None -> refresh_part P resp resp' s s' ->
  b !! KeyRefreshToken = resp' !! KeyRefreshToken -> refresh_outcome P b s s'.
Proof.
  intros Hn [[-> Hs]|(tok & i & -> & H1 & H2 & H3)] Hb; unfold refresh_outcome; rewrite Hb.
  - left. auto.
  - right. exists tok, i. by rewrite lookup_insert_eq.
Qed.

Lemma refresh_part_lookup P resp resp' s s' k :
  refresh_part P resp resp' s s' -> k <> KeyRefreshToken -> resp' !! k = resp !! k.
Proof. intros [[-> _]|(tok & i & -> & _)] Hk; [done|]. by rewrite lookup_insert_ne. Qed.

Lemma base_response_refresh token jkt strategy : base_response token jkt strategy !! KeyRefreshToken = None.
Proof. unfold base_response. by simplify_map_eq. Qed.
Lemma base_response_access token jkt strategy :
  base_response token jkt strategy !! KeyAccessToken = Some (VStr (tk_AccessToken token)).
Proof. unfold base_response. by simplify_map_eq. Qed.
Lemma base_response_id token jkt strategy : base_response token jkt strategy !! KeyIDToken = None.
Proof. unfold base_response. by simplify_map_eq. Qed.
Lemma base_response_secret token jkt strategy : base_response token jkt strategy !! KeyDeviceSecret = None.
Proof. unfold base_response. by simplify_map_eq. Qed.
End mint.

Lemma rejectUnregistered_false {St X} (d : Deps X) scopes (w w1 : World St X) :
  rejectUnregistered d scopes w = (false, w1) ->
  w1 = w /\ RejectUnregistered (dp_ScopeRegistry d) scopes = None.
Proof. unfold rejectUnregistered. destruct (RejectUnregistered _ _); [done|]. by intros [= <-]. Qed.

#[export] Hint Resolve silent_record silent_first_issue silent_id_token frame_first_issue : snap.
