(* ===== verification/AuthCodeGrant.v ===== *)
(** * AuthCodeGrant: the authorization_code grant ([tokengrant/token_authcode.go])
    and the native-SSO device secret it may issue
    ([interfaces/sso/server_native_sso.go], [issueDeviceSecret]).

    The code is consumed before anything is checked, so one presentation burns it
    whatever the outcome. *)
From S2P Require Import Prelude Crypto Core Lifecycle Sharded RefreshStore CodeStores DeviceCodes CibaStore Issue RefreshIface GraceCache Scopes GrantCore GrantMint.
Local Open Scope Z_scope.

(** The fields of [oauth.TokenRequest] that this grant reads. *)
Record CodeRequest := {
  cr_base : Request;
  cr_Code : string;
  cr_RedirectURI : string;
  cr_CodeVerifier : string;
  cr_Scope : string;
  cr_Resource : list string;
}.

Definition DefaultDeviceSecretTTL : Z := 15 * GoTime.Minute.

(** The record after the request narrowed its scopes and resources. *)
Definition narrow (scopes resources : list string) (c : AuthCode) : AuthCode := {|
  ac_UserID := ac_UserID c; ac_ClientID := ac_ClientID c; ac_RedirectURI := ac_RedirectURI c;
  ac_Scopes := scopes; ac_Nonce := ac_Nonce c; ac_Provider := ac_Provider c;
  ac_Attributes := ac_Attributes c; ac_AuthTime := ac_AuthTime c;
  ac_CodeChallenge := ac_CodeChallenge c; ac_CodeChallengeMethod := ac_CodeChallengeMethod c;
  ac_Resources := resources; ac_AuthMethods := ac_AuthMethods c; ac_ACR := ac_ACR c;
  ac_AuthorizationDetails := ac_AuthorizationDetails c; ac_SID := ac_SID c;
  ac_ConfirmationJKT := ac_ConfirmationJKT c; ac_RequestedClaims := ac_RequestedClaims c;
  ac_ExpiresAt := ac_ExpiresAt c |}.

Lemma ConsumeCode_value now code m info :
  placed (acs_entries m) ->
  (ConsumeCode now code m).1 = Ok info <->
  denote (acs_entries m) !! code = Some info /\ AuthCode_IsExpired now info = false.
Proof. apply (os_consume_value (OneShot := AuthCode_OneShot)). Qed.

Section authcode.
Context {St X : Type} `{Store : RefreshTokenStore St}.
Abbreviation G A := (M (World St X) A).
Implicit Types (d : Deps X) (q : CodeRequest).

Definition cr_client q : Client := q_client (cr_base q).
Definition cr_jkt q : string := q_dpopJKT (cr_base q).

(** ** Validation *)

Definition narrowed_scopes q (info : AuthCode) : option (list string) :=
  if decide (cr_Scope q = "") then Some (ac_Scopes info)
  else let requested := Str.fields (cr_Scope q) in
       if IsScopeSubset requested (ac_Scopes info) then Some requested else None.

Definition narrowed_resources q (info : AuthCode) : option (list string) :=
  match cr_Resource q with
  | [] => Some (ac_Resources info)
  | rs => if IsScopeSubset rs (ac_Resources info) then Some rs else None
  end.

Definition authCodeValidate q : G (option AuthCode) :=
  now ← gets sv_now;
  r ← on_codes (ConsumeCode now (cr_Code q));
  match r with
  | Err _ => deny 400 ErrInvalidGrant
  | Ok info =>
      if negb (bool_decide (ac_ClientID info = cl_ID (cr_client q))) then deny 400 ErrInvalidGrant
      else if negb (bool_decide (ac_RedirectURI info = ""))
              && negb (bool_decide (cr_RedirectURI q = ac_RedirectURI info))
      then deny 400 ErrInvalidGrant
      else if negb (bool_decide (ac_CodeChallenge info = ""))
              && ((Str.len (cr_CodeVerifier q) <? PKCEVerifierMinLen)
                  || (PKCEVerifierMaxLen <? Str.len (cr_CodeVerifier q)))
      then deny 400 ErrInvalidGrant
      else if negb (bool_decide (ac_CodeChallenge info = ""))
              && negb (VerifyPKCE (ac_CodeChallengeMethod info) (ac_CodeChallenge info) (cr_CodeVerifier q))
      then deny 400 ErrInvalidGrant
      else if negb (bool_decide (ac_ConfirmationJKT info = ""))
              && negb (bool_decide (ac_ConfirmationJKT info = cr_jkt q))
      then deny 400 ErrInvalidGrant
      else match narrowed_scopes q info with
           | None => deny 400 ErrInvalidScope
           | Some scopes =>
               match narrowed_resources q info with
               | None => deny 400 ErrInvalidTarget
               | Some resources => mret (Some (narrow scopes resources info))
               end
           end
  end.

(** ** The access token *)

Definition authCodeSubject q (info : AuthCode) (issuedSub : string) (authTime : Z) : Subject :=
  let client := cr_client q in
  {| su_ID := issuedSub; su_Provider := ac_Provider info; su_Claims := ac_Attributes info;
     su_Resources := ac_Resources info; su_ClientID := cl_ID client; su_AuthTime := authTime;
     su_AMR := AmrOrProvider (ac_AuthMethods info) (ac_Provider info); su_ACR := ac_ACR info;
     su_AuthorizationDetails := ac_AuthorizationDetails info; su_TTL := cl_AccessTokenTTL client;
     su_SID := ac_SID info; su_ServingRegion := q_region (cr_base q); su_TenantID := cl_TenantID client;
     su_Roles := []; su_ConfirmationJKT := cr_jkt q; su_ConfirmationX5TS256 := q_mtlsX5T (cr_base q);
     su_NotAfter := q_notAfter (cr_base q); su_Actor := ActorNil;
     su_RequestedClaims := ac_RequestedClaims info |}.

Definition code_auth_time (now : Z) (info : AuthCode) : Z :=
  if GoTime.IsZero (ac_AuthTime info) then now else ac_AuthTime info.

(** The response under construction, the token, the issued subject, auth_time. *)
Definition authCodeIssueAccessToken d q (info : AuthCode) : G (option (body * Token * string * Z)) :=
  issuer ← gets (fun v => dp_IssuerForClient d (sv_x v) (cr_client q));
  match issuer with
  | None => deny 500 ErrNoTokenStrategy
  | Some (strategy, ti) =>
      issuedSub ← gets (fun v => dp_ApplyPairwiseSubject d (sv_x v) (cr_client q) (ac_UserID info));
      now ← gets sv_now;
      let authTime := code_auth_time now info in
      token ← on_x (ti_Issue ti (authCodeSubject q info issuedSub authTime) (ac_Scopes info));
      match token with
      | Err e => _ ← emit (EvLog "token issuance failed"); _ ← writeTokenIssueError e; mret None
      | Ok token =>
          _ ← emit (EvTokenIssued (cl_ID (cr_client q)) strategy (ac_UserID info));
          _ ← emit (EvSubjectClientAccess (ac_UserID info) (cl_ID (cr_client q)));
          mret (Some (base_response token (cr_jkt q) strategy, token, issuedSub, authTime))
      end
  end.

(** ** Refresh token, device secret, ID token *)

Definition authCodeIssueRefresh d q (info : AuthCode) (resp : body) : G body :=
  let client := cr_client q in
  if negb (contains (ac_Scopes info) ScopeOfflineAccess)
     || (negb (bool_decide (cl_GrantTypes client = [])) && negb (contains (cl_GrantTypes client) GrantRefreshToken))
     || negb (dp_RefreshTokenStore d)
  then mret resp
  else record_refresh
         (first_issue d (q_draws (cr_base q)) (ac_UserID info) client (ac_Provider info) (ac_Scopes info)
            (ac_Attributes info) (ac_Resources info) (ac_AuthorizationDetails info) (ac_SID info)
            (ac_AuthMethods info) (ac_ACR info) (ac_AuthTime info) (cr_jkt q))
         (cl_ID client) (ac_UserID info) resp.

Definition device_secret_ttl d : Z :=
  if dp_deviceSecretTTL d <=? 0 then DefaultDeviceSecretTTL else dp_deviceSecretTTL d.

(** [*sso.Server.issueDeviceSecret]; [None] when the random source fails. *)
Definition issueDeviceSecret d (rand : option string) (subject sid clientID : string) : G (option string) :=
  match rand with
  | None => mret None
  | Some secret =>
      now ← gets sv_now;
      _ ← on_secrets (fun m => ((), IssueSecret
            {| ds_Secret := secret; ds_Subject := subject; ds_SID := sid; ds_ClientID := clientID;
               ds_ExpiresAt := GoTime.Add now (device_secret_ttl d) |} m));
      mret (Some secret)
  end.

(** The value for the response, [""] when none is issued. *)
Definition authCodeDeviceSecret d q (info : AuthCode) : G string :=
  if contains (ac_Scopes info) ScopeDeviceSSO && dp_DeviceSecretStore d then
    ds ← issueDeviceSecret d (q_secret (cr_base q)) (ac_UserID info) (ac_SID info) (cl_ID (cr_client q));
    match ds with
    | Some ds => mret ds
    | None => _ ← emit (EvLog "device secret issue failed"); mret ""
    end
  else mret "".

Definition authCodeIssueIDToken d q (info : AuthCode) (issuedSub : string) (authTime : Z)
    (accessToken deviceSecret : string) (resp : body) : G body :=
  if negb (contains (ac_Scopes info) ScopeOpenID) then mret resp
  else
    let claims := if decide (ac_RequestedClaims info = "") then ac_Attributes info
                  else dp_ProjectIDTokenClaims d (ac_Attributes info) (ac_RequestedClaims info) in
    emit_id_token d (cr_client q) (ac_UserID info)
      {| ir_Subject := issuedSub; ir_Audience := cl_ID (cr_client q); ir_Nonce := ac_Nonce info;
         ir_AuthTime := authTime; ir_AMR := AmrOrProvider (ac_AuthMethods info) (ac_Provider info);
         ir_ACR := ac_ACR info; ir_Claims := claims; ir_AZP := ""; ir_TTL := 0; ir_AccessToken := accessToken;
         ir_DeviceSecret := deviceSecret; ir_RequestedClaims := ac_RequestedClaims info;
         ir_GrantedScopes := ac_Scopes info; ir_GrantedResources := ac_Resources info;
         ir_AuthorizationDetails := ac_AuthorizationDetails info; ir_SID := ac_SID info;
         ir_ServingRegion := q_region (cr_base q) |} resp.

(** ** The handler *)

Definition add_secret (ds : string) (resp : body) : body :=
  if decide (ds = "") then resp else <[KeyDeviceSecret := VStr ds]> resp.

(** Everything after the access token: none of it can fail the request. *)
Definition authCodeFinish d q (info : AuthCode) (t : body * Token * string * Z) : G body :=
  let '(resp, token, issuedSub, authTime) := t in
  resp ← authCodeIssueRefresh d q info resp;
  ds ← authCodeDeviceSecret d q info;
  resp ← authCodeIssueIDToken d q info issuedSub authTime (tk_AccessToken token) ds resp;
  mret (add_secret ds resp).

Definition HandleAuthCodeGrant d q : G () :=
  if negb (dp_AuthCodeStore d) then respond (RError 501 ErrAuthCodeNotConfigured)
  else if decide (cr_Code q = "") then respond (RError 400 ErrInvalidRequest)
  else
    obtain (authCodeValidate q) (fun info =>
    unless (rejectUnregistered d (ac_Scopes info)) $
    unless (lifecycleGrantBlocked d (ac_UserID info)) $
    obtain (authCodeIssueAccessToken d q info) (fun t =>
    resp ← authCodeFinish d q info t;
    respond (ROK resp))).

(** ** Exactly one answer *)

Lemma resolves_validate q : resolves (authCodeValidate q).
Proof. unfold authCodeValidate. resolving. Qed.
Lemma denies_validate q : denies (authCodeValidate q).
Proof. unfold authCodeValidate. resolving. Qed.

Lemma resolves_issue_error e : resolves (A:=body * Token * string * Z)
  (_ ← writeTokenIssueError (St:=St) (X:=X) e; mret None).
Proof. destruct e as [[st c]|]; apply resolves_deny. Qed.
Lemma denies_issue_error e : denies (A:=body * Token * string * Z)
  (_ ← writeTokenIssueError (St:=St) (X:=X) e; mret None).
Proof. destruct e as [[st c]|]; apply denies_deny. Qed.

Lemma resolves_access d q info : resolves (authCodeIssueAccessToken d q info).
Proof. unfold authCodeIssueAccessToken. pose proof resolves_issue_error. resolving. Qed.
Lemma denies_access d q info : denies (authCodeIssueAccessToken d q info).
Proof. unfold authCodeIssueAccessToken. pose proof denies_issue_error. resolving. Qed.

Lemma silent_refresh d q info resp : silent (authCodeIssueRefresh d q info resp).
Proof. unfold authCodeIssueRefresh. count. Qed.
Lemma silent_secret d q info : silent (authCodeDeviceSecret d q info).
Proof. unfold authCodeDeviceSecret, issueDeviceSecret. count. Qed.
Lemma silent_idtoken d q info s t a ds resp : silent (authCodeIssueIDToken d q info s t a ds resp).
Proof. unfold authCodeIssueIDToken. count. Qed.
Lemma silent_finish d q info t : silent (authCodeFinish d q info t).
Proof.
  destruct t as [[[resp token] sub] at']. unfold authCodeFinish.
  pose proof silent_refresh. pose proof silent_secret. pose proof silent_idtoken. count.
Qed.

(** ** What a success rests on *)

(** The checks that bind the exchange to the authorization request. *)
Definition code_bound q (info : AuthCode) : Prop :=
  ac_ClientID info = cl_ID (cr_client q) /\
  (ac_RedirectURI info = "" \/ cr_RedirectURI q = ac_RedirectURI info) /\
  (ac_CodeChallenge info = "" \/
   PKCEVerifierMinLen <= Str.len (cr_CodeVerifier q) <= PKCEVerifierMaxLen /\
   VerifyPKCE (ac_CodeChallengeMethod info) (ac_CodeChallenge info) (cr_CodeVerifier q) = true) /\
  (ac_ConfirmationJKT info = "" \/ ac_ConfirmationJKT info = cr_jkt q).

Definition consume_at (code : string) (w : World St X) : World St X :=
  set_srv (with_codes (ConsumeCode (sv_now (w_srv w)) code (sv_codes (w_srv w))).2) w.

Lemma optional_check (b c : bool) : negb b && negb c = false -> b = true \/ c = true.
Proof. destruct b, c; auto. Qed.

Lemma narrowed_scopes_subset q info scopes :
  narrowed_scopes q info = Some scopes -> scopes ⊆ ac_Scopes info.
Proof.
  unfold narrowed_scopes. case_decide; [by intros [= <-]|].
  destruct (IsScopeSubset _ _) eqn:E; [|done]. intros [= <-]. by apply IsScopeSubset_spec.
Qed.
Lemma narrowed_resources_subset q info rs :
  narrowed_resources q info = Some rs -> rs ⊆ ac_Resources info.
Proof.
  unfold narrowed_resources. destruct (cr_Resource q) as [|r l]; [by intros [= <-]|].
  destruct (IsScopeSubset _ _) eqn:E; [|done]. intros [= <-]. by apply IsScopeSubset_spec.
Qed.

Lemma validate_Some q w info' w1 :
  authCodeValidate q w = (Some info', w1) ->
  w1 = consume_at (cr_Code q) w /\ exists info scopes resources,
    (ConsumeCode (sv_now (w_srv w)) (cr_Code q) (sv_codes (w_srv w))).1 = Ok info /\
    code_bound q info /\ scopes ⊆ ac_Scopes info /\ resources ⊆ ac_Resources info /\
    info' = narrow scopes resources info.
Proof.
  unfold authCodeValidate, consume_at, code_bound. rewrite !M_bind_unfold. cbn [gets fst snd].
  unfold on_codes. destruct (ConsumeCode _ _ _) as [[info|e] m] eqn:Hc; cbn [fst snd]; [|done].
  destruct (bool_decide (ac_ClientID info = _)) eqn:E1; [|done]. cbn [negb].
  destruct (negb (bool_decide (ac_RedirectURI info = "")) && _) eqn:E2; [done|].
  destruct (negb (bool_decide (ac_CodeChallenge info = "")) && _) eqn:E3; [done|].
  destruct (negb (bool_decide (ac_CodeChallenge info = "")) && negb (VerifyPKCE _ _ _)) eqn:E4; [done|].
  destruct (negb (bool_decide (ac_ConfirmationJKT info = "")) && _) eqn:E5; [done|].
  destruct (narrowed_scopes q info) as [scopes|] eqn:Hs; [|done].
  destruct (narrowed_resources q info) as [rs|] eqn:Hr; [|done]. intros [= <- <-]. split; [done|].
  exists info, scopes, rs. apply optional_check in E2, E4, E5. bool_simpl.
  repeat setoid_rewrite bool_decide_eq_true in E2. repeat setoid_rewrite bool_decide_eq_true in E5.
  rewrite bool_decide_eq_true in E4.
  split_and!; eauto using narrowed_scopes_subset, narrowed_resources_subset.
  destruct (decide (ac_CodeChallenge info = "")) as [He|He]; [by left|right].
  rewrite bool_decide_eq_false_2 in E3 by done. cbn in E3. bool_simpl. destruct E4; [done|]. done.
Qed.

(** Either way the code is spent. *)
Lemma frame_codes_validate q w : sv_codes (w_srv (authCodeValidate q w).2) = sv_codes (w_srv (consume_at (cr_Code q) w)).
Proof.
  unfold authCodeValidate, consume_at. rewrite !M_bind_unfold. cbn [gets fst snd].
  unfold on_codes. destruct (ConsumeCode _ _ _) as [[info|e] m]; cbn [fst snd]; [|done].
  repeat (split_if; [done|]). destruct (narrowed_scopes q info); [|done].
  by destruct (narrowed_resources q info).
Qed.

Lemma frame_access T (p : Server St X -> T) d q info :
  (forall x v, p (with_x x v) = p v) -> frame p (authCodeIssueAccessToken d q info).
Proof.
  intros Hp. unfold authCodeIssueAccessToken. repeat first [by apply frame_on_x | progress framing].
Qed.
Lemma frame_finish d q info t : frame one_shots (authCodeFinish d q info t).
Proof.
  destruct t as [[[resp token] sub] at'].
  unfold authCodeFinish, authCodeIssueRefresh, authCodeDeviceSecret, issueDeviceSecret, authCodeIssueIDToken, record_refresh.
  repeat first [apply frame_id_token; intros; reflexivity | progress framing].
Qed.

Lemma access_Some d q info w t w1 :
  authCodeIssueAccessToken d q info w = (Some t, w1) ->
  w_out w1 = w_out w /\ exists strategy ti token x',
    let sub := dp_ApplyPairwiseSubject d (sv_x (w_srv w)) (cr_client q) (ac_UserID info) in
    let authTime := code_auth_time (sv_now (w_srv w)) info in
    dp_IssuerForClient d (sv_x (w_srv w)) (cr_client q) = Some (strategy, ti) /\
    ti_Issue ti (authCodeSubject q info sub authTime) (ac_Scopes info) (sv_x (w_srv w)) = (Ok token, x') /\
    t = (base_response token (cr_jkt q) strategy, token, sub, authTime).
Proof.
  unfold authCodeIssueAccessToken. rewrite M_bind_unfold. cbn [gets fst snd].
  destruct (dp_IssuerForClient _ _ _) as [[strategy ti]|] eqn:Hi; [|done].
  rewrite !M_bind_unfold. cbn [gets fst snd]. unfold on_x.
  destruct (ti_Issue _ _ _ _) as [[token|e] x'] eqn:Ht; cbn [fst snd].
  - intros [= <- <-]. split; [done|]. exists strategy, ti, token, x'. by rewrite Ht.
  - rewrite !M_bind_unfold. by destruct e as [[st c]|].
Qed.

(** ** Properties *)

(** every authorization-code exchange is answered exactly once, whatever the
    request and the wired dependencies. *)
Theorem authcode_answers_once d q w :
  exists r, w_out (HandleAuthCodeGrant d q w).2 = w_out w ++ [r].
Proof.
  assert (answers_once (HandleAuthCodeGrant d q)) as H.
  { unfold HandleAuthCodeGrant. split_if; [apply once_respond|].
    case_decide; [apply once_respond|].
    apply once_obtain; [apply resolves_validate|intros info].
    repeat (apply once_unless; [by auto with snap|]).
    apply once_obtain; [apply resolves_access|intros t].
    apply silent_bind; [apply silent_finish|intros; apply once_respond]. }
  destruct (H w) as (rs & Ho & Hl). destruct rs as [|r [|]]; try done. by exists r.
Qed.

(** a presentation burns the code whatever its outcome: after any request with a
    code, the store no longer holds that code's record and holds every other one, so
    a second exchange of the same code, by anyone and at any time, is refused with
    400 invalid_grant. *)
Theorem authcode_burnt d q w d' q' now' :
  placed (acs_entries (sv_codes (w_srv w))) -> dp_AuthCodeStore d = true -> dp_AuthCodeStore d' = true ->
  cr_Code q <> "" -> cr_Code q' = cr_Code q ->
  let w1 := (HandleAuthCodeGrant d q w).2 in
  denote (acs_entries (sv_codes (w_srv w1))) =
    delete (cr_Code q) (denote (acs_entries (sv_codes (w_srv w)))) /\
  let w2 := at_time now' w1 in
  w_out (HandleAuthCodeGrant d' q' w2).2 = w_out w2 ++ [RError 400 ErrInvalidGrant].
Proof.
  intros Hp Hd Hd' Hc Hc' w1.
  assert (sv_codes (w_srv w1) = sv_codes (w_srv (consume_at (cr_Code q) w))) as Hw1.
  { unfold w1, HandleAuthCodeGrant. rewrite Hd, decide_False by done. cbn [negb].
    rewrite <- frame_codes_validate. unfold obtain at 1. rewrite M_bind_unfold.
    destruct (authCodeValidate q w) as [[info|] wv]; [|done]. cbn [fst snd].
    assert (forall m : G (), frame (fun v => sv_codes v) m -> sv_codes (w_srv (m wv).2) = sv_codes (w_srv wv)) as Hf
      by (intros m Hm; apply Hm). apply Hf. clear Hf.
    repeat (apply frame_unless; [by auto with snap|]).
    apply frame_obtain; [by apply frame_access|intros t]. apply frame_bind; [|by intros].
    intros w0. pose proof (frame_finish d q info t w0) as Hf. unfold one_shots in Hf. by simplify_eq/=. }
  assert (placed (acs_entries (sv_codes (w_srv w1))) /\
    denote (acs_entries (sv_codes (w_srv w1))) = delete (cr_Code q) (denote (acs_entries (sv_codes (w_srv w))))) as [Hp1 Hden].
  { rewrite Hw1. split.
    - exact (os_consume_valid (S:=MemoryAuthCodeStore) (V:=AuthCode) (sv_now (w_srv w)) (cr_Code q) _ Hp).
    - exact (os_consume_map (S:=MemoryAuthCodeStore) (V:=AuthCode) (sv_now (w_srv w)) (cr_Code q) _ Hp). }
  split; [done|]. intros w2.
  pose proof (consume_missing (S:=MemoryAuthCodeStore) (V:=AuthCode) now' (cr_Code q')
    (sv_codes (w_srv w1)) Hp1) as Hm. cbn in Hm. rewrite Hc', Hden, lookup_delete_eq in Hm.
  specialize (Hm eq_refl). unfold HandleAuthCodeGrant. rewrite Hd', decide_False by (by rewrite Hc'). cbn [negb].
  unfold obtain at 1, authCodeValidate. rewrite !M_bind_unfold. cbn [gets fst snd]. rewrite Hc'.
  unfold on_codes. cbn [w2 at_time set_srv w_srv sv_now sv_codes].
  destruct (ConsumeCode now' (cr_Code q) (sv_codes (w_srv w1))) as [[i|e] m]; done.
Qed.

(** a refused exchange mints nothing: when the request ends in an error, the
    refresh-token store and the device-secret store are the ones before it. *)
Theorem authcode_refusal_mints_nothing d q w st c :
  w_out (HandleAuthCodeGrant d q w).2 = w_out w ++ [RError st c] ->
  minted (w_srv (HandleAuthCodeGrant d q w).2) = minted (w_srv w).
Proof.
  assert (refusal_keeps (HandleAuthCodeGrant d q)) as H; [|by apply H].
  unfold HandleAuthCodeGrant. split_if; [by apply refusal_frame|]. case_decide; [by apply refusal_frame|].
  apply refusal_obtain; [apply resolves_validate|unfold authCodeValidate; framing|intros info].
  repeat (apply refusal_unless; [by auto with snap|by auto with snap|]).
  apply refusal_obtain; [apply resolves_access|by apply frame_access|intros t].
  apply (refusal_never (authCodeFinish d q info t) id), silent_finish.
Qed.

Context {Laws : RefreshTokenStoreLaws St}.

Lemma issueRefresh_part d q info resp w :
  let m := authCodeIssueRefresh d q info resp w in
  refresh_part (fun i => ScopeOfflineAccess ∈ ac_Scopes info /\ deviceClientAllowsRefresh (cr_client q) = true /\
      opens_family (q_draws (cr_base q)) (sv_now (w_srv w)) (ac_UserID info) (cr_client q) (ac_Scopes info)
        (ac_Resources info) (ac_AuthMethods info) (ac_AuthTime info) (cr_jkt q) i)
    resp m.1 (sv_refresh (w_srv w)) (sv_refresh (w_srv m.2)).
Proof.
  unfold authCodeIssueRefresh, deviceClientAllowsRefresh. cbn zeta.
  destruct (contains (ac_Scopes info) ScopeOfflineAccess) eqn:E1; [|apply refresh_part_none].
  destruct (bool_decide (cl_GrantTypes _ = []) || contains _ _) eqn:E2; cbn [negb orb];
    rewrite <- negb_orb, E2; cbn [negb orb]; [|apply refresh_part_none].
  destruct (dp_RefreshTokenStore d); cbn [negb]; [|apply refresh_part_none].
  eapply refresh_part_mono; [|apply record_first_issue]. intros i Hi. apply contains_spec in E1. auto.
Qed.

(** The device secret of a response is bound to the code's user, session and client. *)
Definition secret_part d q (info : AuthCode) (now : Z) (ds : string) (m : MemoryDeviceSecretStore) : Prop :=
  ds <> "" -> ScopeDeviceSSO ∈ ac_Scopes info /\ exists s, dss_secrets m !! ds = Some s /\
    ds_Subject s = ac_UserID info /\ ds_SID s = ac_SID info /\ ds_ClientID s = cl_ID (cr_client q) /\
    ds_ExpiresAt s = now + device_secret_ttl d.

Lemma deviceSecret_part d q info w :
  let m := authCodeDeviceSecret d q info w in
  secret_part d q info (sv_now (w_srv w)) m.1 (sv_secrets (w_srv m.2)) /\
  sv_refresh (w_srv m.2) = sv_refresh (w_srv w).
Proof.
  unfold authCodeDeviceSecret, secret_part, issueDeviceSecret. cbn zeta.
  destruct (contains _ _ && _) eqn:E; [|done]. destruct (q_secret (cr_base q)) as [s|]; [|done]. cbn.
  bool_simpl. split; [|done]. intros _. split; [done|]. eexists. split; [apply lookup_insert_eq|]. done.
Qed.

(** The finished response, field by field. *)
Lemma finish_spec d q info token strategy sub authTime w :
  let m := authCodeFinish d q info (base_response token (cr_jkt q) strategy, token, sub, authTime) w in
  m.1 !! KeyAccessToken = Some (VStr (tk_AccessToken token)) /\
  refresh_outcome (fun i => ScopeOfflineAccess ∈ ac_Scopes info /\ deviceClientAllowsRefresh (cr_client q) = true /\
      opens_family (q_draws (cr_base q)) (sv_now (w_srv w)) (ac_UserID info) (cr_client q) (ac_Scopes info)
        (ac_Resources info) (ac_AuthMethods info) (ac_AuthTime info) (cr_jkt q) i)
    m.1 (sv_refresh (w_srv w)) (sv_refresh (w_srv m.2)) /\
  (m.1 !! KeyIDToken <> None -> ScopeOpenID ∈ ac_Scopes info) /\
  exists ds, secret_part d q info (sv_now (w_srv w)) ds (sv_secrets (w_srv m.2)) /\
    m.1 !! KeyDeviceSecret = (if decide (ds = "") then None else Some (VStr ds)).
Proof.
  unfold authCodeFinish. cbn zeta. rewrite !M_bind_unfold.
  set (resp0 := base_response token (cr_jkt q) strategy).
  pose proof (issueRefresh_part d q info resp0 w) as HR.
  pose proof (frame_finish d q info (resp0, token, sub, authTime) w) as _.
  assert (frame (fun v => (sv_now v, sv_secrets v)) (authCodeIssueRefresh d q info resp0)) as HF.
  { unfold authCodeIssueRefresh, record_refresh, first_issue, server_issueRefreshToken. framing. }
  specialize (HF w). destruct (authCodeIssueRefresh d q info resp0 w) as [resp1 w1]. cbn [fst snd] in *.
  injection HF as Hnow Hsec.
  pose proof (deviceSecret_part d q info w1) as [HS HS']. rewrite Hnow in HS.
  destruct (authCodeDeviceSecret d q info w1) as [ds w2]. cbn [fst snd] in *.
  set (idt := authCodeIssueIDToken d q info sub authTime (tk_AccessToken token) ds resp1).
  assert (forall T (p : Server St X -> T), (forall x v, p (with_x x v) = p v) -> frame p idt) as Hf.
  { intros T p Hp. unfold idt, authCodeIssueIDToken. split_if; [framing|]. by apply frame_id_token. }
  assert (with_id_token resp1 (idt w2).1 /\ ((idt w2).1 !! KeyIDToken <> None -> resp1 !! KeyIDToken = None -> ScopeOpenID ∈ ac_Scopes info)) as [HI HO].
  { unfold idt, authCodeIssueIDToken. destruct (contains _ ScopeOpenID) eqn:E; cbn [negb].
    - apply contains_spec in E. split; [apply id_token_spec|done].
    - split; [by left|]. cbn. congruence. }
  pose proof (Hf _ (fun v => (sv_refresh v, sv_secrets v)) ltac:(done) w2) as Hi.
  destruct (idt w2) as [resp2 w3]. cbn [fst snd mret M_ret] in *. injection Hi as Hi1 Hi2.
  assert (forall k, k <> KeyDeviceSecret -> add_secret ds resp2 !! k = resp2 !! k) as HA.
  { intros k Hk. unfold add_secret. case_decide; [done|]. by rewrite lookup_insert_ne. }
  pose proof (fun k => with_id_token_lookup resp1 resp2 k HI) as HL.
  pose proof (fun k => refresh_part_lookup _ _ _ _ _ k HR) as HR'.
  split_and!.
  - rewrite HA, HL, HR' by done. apply base_response_access.
  - rewrite Hi1, HS'. eapply refresh_part_outcome; [apply base_response_refresh|exact HR|]. by rewrite HA, HL.
  - rewrite HA by done. intros Hk. apply HO; [done|]. rewrite HR' by done. apply base_response_id.
  - exists ds. rewrite Hi2. split; [done|]. unfold add_secret. case_decide; [|apply lookup_insert_eq].
    rewrite HL, HR' by done. apply base_response_secret.
Qed.

(** C3 — a successful exchange is sound: the code was in the store, unexpired and bound
    to this client, this redirect_uri, this PKCE verifier (of 43 to 128 bytes) and
    this DPoP key; the user may authenticate; the access token is minted for the
    recorded authentication event with scopes and resources among the code's own; a
    refresh token is issued only with offline_access and the client's permission, and
    opens a fresh family for the same user, client, scopes and key; an ID token needs
    openid; a device secret needs device_sso and is bound to the user, session and
    client. *)
Theorem authcode_exchange_sound d q w w' b :
  placed (acs_entries (sv_codes (w_srv w))) ->
  HandleAuthCodeGrant d q w = ((), w') -> w_out w' = w_out w ++ [ROK b] ->
  exists info scopes resources,
    denote (acs_entries (sv_codes (w_srv w))) !! cr_Code q = Some info /\
    AuthCode_IsExpired (sv_now (w_srv w)) info = false /\ code_bound q info /\
    scopes ⊆ ac_Scopes info /\ resources ⊆ ac_Resources info /\
    lifecycle_ok d (sv_x (w_srv w)) (ac_UserID info) /\
    (exists strategy ti token x', dp_IssuerForClient d (sv_x (w_srv w)) (cr_client q) = Some (strategy, ti) /\
       ti_Issue ti (authCodeSubject q (narrow scopes resources info)
         (dp_ApplyPairwiseSubject d (sv_x (w_srv w)) (cr_client q) (ac_UserID info))
         (code_auth_time (sv_now (w_srv w)) info)) scopes (sv_x (w_srv w)) = (Ok token, x') /\
       b !! KeyAccessToken = Some (VStr (tk_AccessToken token))) /\
    refresh_outcome (fun i => ScopeOfflineAccess ∈ scopes /\ deviceClientAllowsRefresh (cr_client q) = true /\
        opens_family (q_draws (cr_base q)) (sv_now (w_srv w)) (ac_UserID info) (cr_client q) scopes
          resources (ac_AuthMethods info) (ac_AuthTime info) (cr_jkt q) i)
      b (sv_refresh (w_srv w)) (sv_refresh (w_srv w')) /\
    (b !! KeyIDToken <> None -> ScopeOpenID ∈ scopes) /\
    exists ds, secret_part d q (narrow scopes resources info) (sv_now (w_srv w)) ds (sv_secrets (w_srv w')) /\
      b !! KeyDeviceSecret = (if decide (ds = "") then None else Some (VStr ds)).
Proof.
  intros Hp. unfold HandleAuthCodeGrant.
  split_if; [intros [= <-] Ho; by eapply ok_not_error; [apply error_is_error| |exact Ho]|].
  case_decide; [intros [= <-] Ho; by eapply ok_not_error; [apply error_is_error| |exact Ho]|].
  intros Hw Ho.
  eapply obtain_ok in Hw as (info' & w1 & Hv & O1 & Hw); [|apply resolves_validate|apply denies_validate|exact Ho].
  apply validate_Some in Hv as (-> & info & scopes & rs & Hc & Hb & Hsc & Hrs & ->).
  rewrite <- O1 in Ho.
  eapply unless_ok in Hw as (w1 & Hg & _ & Hw); [|by auto with snap..|exact Ho].
  apply rejectUnregistered_false in Hg as [-> _].
  eapply unless_ok in Hw as (w1 & Hg & _ & Hw); [|by auto with snap..|exact Ho].
  apply lifecycle_false in Hg as [-> Hlife].
  eapply obtain_ok in Hw as (t & w1 & Ht & O2 & Hw); [|apply resolves_access|apply denies_access|exact Ho].
  pose proof (frame_access _ minted d q (narrow scopes rs info) ltac:(done) (consume_at (cr_Code q) w)) as Hm.
  pose proof (frame_access _ sv_now d q (narrow scopes rs info) ltac:(done) (consume_at (cr_Code q) w)) as Hnow.
  rewrite Ht in Hm, Hnow. cbn in Hm, Hnow, O1, O2.
  apply access_Some in Ht as (_ & strategy & ti & token & x' & Hi & Htok & ->).
  rewrite M_bind_unfold in Hw.
  set (sub := dp_ApplyPairwiseSubject d (sv_x (w_srv w)) (cr_client q) (ac_UserID info)).
  set (at' := code_auth_time (sv_now (w_srv w)) info).
  pose proof (finish_spec d q (narrow scopes rs info) token strategy sub at' w1) as (F1 & F2 & F3 & F4).
  pose proof (silent_finish d q (narrow scopes rs info)
    (base_response token (cr_jkt q) strategy, token, sub, at') w1) as (outs & Hout & Hl).
  change (authCodeFinish d q (narrow scopes rs info) _ w1) with
    (authCodeFinish d q (narrow scopes rs info) (base_response token (cr_jkt q) strategy, token, sub, at') w1) in Hw.
  set (m := authCodeFinish _ _ _ _ w1) in *. clearbody m.
  destruct outs; [|done]. rewrite app_nil_r in Hout. injection Hw as <-.
  cbn in Ho. rewrite Hout, O2 in Ho. apply (inj _) in Ho. injection Ho as <-.
  rewrite Hnow in F2, F4. unfold minted in Hm. injection Hm as R1 R2. rewrite R1 in F2.
  apply ConsumeCode_value in Hc as [Hc1 Hc2]; [|done].
  exists info, scopes, rs. split_and!; try done. by exists strategy, ti, token, x'.
Qed.

Lemma passed (P : Prop) `{Decision P} (c : bool) : (P \/ c = true) -> negb (bool_decide P) && negb c = false.
Proof. intros [HP| ->]; [by rewrite bool_decide_eq_true_2|apply andb_false_r]. Qed.

Lemma validate_complete q w info scopes rs :
  (ConsumeCode (sv_now (w_srv w)) (cr_Code q) (sv_codes (w_srv w))).1 = Ok info ->
  code_bound q info -> narrowed_scopes q info = Some scopes -> narrowed_resources q info = Some rs ->
  authCodeValidate q w = (Some (narrow scopes rs info), consume_at (cr_Code q) w).
Proof.
  intros Hc (B1 & B2 & B3 & B4) Hs Hr. unfold authCodeValidate, consume_at. rewrite !M_bind_unfold.
  cbn [gets fst snd]. unfold on_codes. destruct (ConsumeCode _ _ _) as [[i|e] m]; [|done].
  cbn in Hc. injection Hc as ->. cbn [fst snd].
  rewrite bool_decide_eq_true_2 by done. cbn [negb].
  rewrite passed by (by rewrite bool_decide_eq_true).
  replace (negb (bool_decide (ac_CodeChallenge info = "")) && _) with false.
  2:{ destruct B3 as [He|[Hl _]]; [by rewrite bool_decide_eq_true_2|].
      rewrite (proj2 (Z.ltb_ge _ _)), (proj2 (Z.ltb_ge _ _)) by lia. by rewrite andb_false_r. }
  rewrite passed by tauto. rewrite passed by (by rewrite bool_decide_eq_true). by rewrite Hs, Hr.
Qed.

Lemma access_complete d q info w strategy ti token x' :
  let sub := dp_ApplyPairwiseSubject d (sv_x (w_srv w)) (cr_client q) (ac_UserID info) in
  let authTime := code_auth_time (sv_now (w_srv w)) info in
  dp_IssuerForClient d (sv_x (w_srv w)) (cr_client q) = Some (strategy, ti) ->
  ti_Issue ti (authCodeSubject q info sub authTime) (ac_Scopes info) (sv_x (w_srv w)) = (Ok token, x') ->
  exists w1, w_out w1 = w_out w /\
    authCodeIssueAccessToken d q info w = (Some (base_response token (cr_jkt q) strategy, token, sub, authTime), w1).
Proof.
  intros sub authTime Hi Ht. unfold authCodeIssueAccessToken. rewrite M_bind_unfold. cbn [gets fst snd].
  rewrite Hi, !M_bind_unfold. cbn [gets fst snd]. fold sub authTime. unfold on_x. rewrite Ht. cbn [fst snd].
  rewrite !M_bind_unfold. eexists. split; [|reflexivity]. done.
Qed.

(** a proper exchange succeeds: presenting a live code with the bindings it was
    issued under, scopes and resources it covers and the registry knows, for a user
    who may authenticate, is answered with 200 whenever the client's issuer mints the
    token; nothing else can refuse it. *)
Theorem authcode_exchange_complete d q w info scopes rs strategy ti token x' :
  placed (acs_entries (sv_codes (w_srv w))) -> dp_AuthCodeStore d = true -> cr_Code q <> "" ->
  denote (acs_entries (sv_codes (w_srv w))) !! cr_Code q = Some info ->
  AuthCode_IsExpired (sv_now (w_srv w)) info = false -> code_bound q info ->
  narrowed_scopes q info = Some scopes -> narrowed_resources q info = Some rs ->
  RejectUnregistered (dp_ScopeRegistry d) scopes = None ->
  lifecycle_ok d (sv_x (w_srv w)) (ac_UserID info) ->
  dp_IssuerForClient d (sv_x (w_srv w)) (cr_client q) = Some (strategy, ti) ->
  ti_Issue ti (authCodeSubject q (narrow scopes rs info)
    (dp_ApplyPairwiseSubject d (sv_x (w_srv w)) (cr_client q) (ac_UserID info))
    (code_auth_time (sv_now (w_srv w)) info)) scopes (sv_x (w_srv w)) = (Ok token, x') ->
  exists b, w_out (HandleAuthCodeGrant d q w).2 = w_out w ++ [ROK b] /\
    b !! KeyAccessToken = Some (VStr (tk_AccessToken token)).
Proof.
  intros Hp Hd Hcode Hl Hx Hb Hs Hr Hreg Hlife Hi Ht.
  assert ((ConsumeCode (sv_now (w_srv w)) (cr_Code q) (sv_codes (w_srv w))).1 = Ok info) as Hc
    by by apply ConsumeCode_value.
  unfold HandleAuthCodeGrant. rewrite Hd, decide_False by done. cbn [negb].
  unfold obtain at 1. rewrite M_bind_unfold, (validate_complete q w info scopes rs) by done. cbn [fst snd].
  unfold unless at 1. rewrite M_bind_unfold. unfold rejectUnregistered. cbn [narrow ac_Scopes ac_UserID].
  rewrite Hreg. cbn [fst snd mret M_ret]. unfold unless. rewrite M_bind_unfold.
  assert (lifecycleGrantBlocked d (ac_UserID info) (consume_at (cr_Code q) w) = (false, consume_at (cr_Code q) w)) as ->.
  { unfold lifecycleGrantBlocked. destruct Hlife as [->|(reader & -> & Hst)]; [done|].
    rewrite M_bind_unfold. cbn [gets fst snd consume_at set_srv w_srv with_codes sv_x]. by rewrite Hst. }
  cbn [fst snd]. unfold obtain. rewrite M_bind_unfold.
  destruct (access_complete d q (narrow scopes rs info) (consume_at (cr_Code q) w) strategy ti token x' Hi Ht)
    as (w1 & O1 & ->). cbn [fst snd]. rewrite M_bind_unfold.
  set (sub := dp_ApplyPairwiseSubject _ _ _ _). set (at' := code_auth_time _ _).
  pose proof (finish_spec d q (narrow scopes rs info) token strategy sub at' w1) as (F1 & _).
  pose proof (silent_finish d q (narrow scopes rs info)
    (base_response token (cr_jkt q) strategy, token, sub, at') w1) as (outs & Hout & Hlen).
  set (m := authCodeFinish _ _ _ _ w1) in *. exists m.1. split; [|exact F1].
  destruct outs; [|done]. rewrite app_nil_r in Hout. cbn [respond snd w_out]. by rewrite Hout, O1.
Qed.
End authcode.

(** ** Witnesses *)

Definition sample_codes : MemoryAuthCodeStore :=
  (IssueCode "c1" (Some (sample_code "app" "https://app/cb" "E9Melhoa2OwvFrEMTJguCHaoeK1t8URWbuGJSstw-cM" "S256"
      ["openid"; "offline_access"; "device_sso"] 1000)) (NewMemoryAuthCodeStore 10)).2.

Lemma sample_codes_placed : placed (acs_entries sample_codes).
Proof. apply placed_IssueCode, placed_new. Qed.

Definition code_world : World MemoryRefreshTokenStore () := {|
  w_srv := {| sv_now := 100; sv_refresh := NewMemoryRefreshTokenStore 0 0 0; sv_grace := None;
              sv_codes := sample_codes; sv_devices := NewMemoryDeviceCodeStore 0;
              sv_ciba := NewMemoryCIBAStore; sv_secrets := {| dss_secrets := ∅ |}; sv_x := () |};
  w_out := []; w_events := [] |}.

Definition code_request (verifier scope : string) : CodeRequest := {|
  cr_base := sample_request "rt-1"; cr_Code := "c1"; cr_RedirectURI := "https://app/cb";
  cr_CodeVerifier := verifier; cr_Scope := scope; cr_Resource := [] |}.
Definition good_request : CodeRequest :=
  code_request "dBjftJeZ4CVP-mB92K27uhbUJU1p1r_wW1gFWFOEjXk" "openid offline_access".

Lemma good_request_ok : exists b, w_out (HandleAuthCodeGrant sample_deps good_request code_world).2 = [ROK b].
Proof.
  assert (match w_out (HandleAuthCodeGrant sample_deps good_request code_world).2 with
          | [ROK _] => True | _ => False end) as H by (vm_compute; exact I).
  destruct (w_out _) as [|[|b] [|]]; [done..|by exists b|done].
Qed.

Lemma authcode_burnt_witness :
  denote (acs_entries (sv_codes (w_srv (HandleAuthCodeGrant sample_deps good_request code_world).2))) =
  delete "c1" (denote (acs_entries sample_codes)).
Proof.
  apply (authcode_burnt sample_deps good_request code_world sample_deps good_request 101).
  - exact sample_codes_placed.
  - reflexivity.
  - reflexivity.
  - discriminate.
  - reflexivity.
Defined.

Lemma authcode_refusal_mints_nothing_witness :
  minted (w_srv (HandleAuthCodeGrant sample_deps (code_request "short" "") code_world).2) = minted (w_srv code_world).
Proof.
  apply (authcode_refusal_mints_nothing sample_deps (code_request "short" "") code_world 400 ErrInvalidGrant).
  vm_compute. reflexivity.
Defined.

Lemma authcode_exchange_complete_witness :
  exists b, w_out (HandleAuthCodeGrant sample_deps good_request code_world).2 = [ROK b] /\
    b !! KeyAccessToken = Some (VStr "at:alice").
Proof.
  apply (authcode_exchange_complete sample_deps good_request code_world
    (sample_code "app" "https://app/cb" "E9Melhoa2OwvFrEMTJguCHaoeK1t8URWbuGJSstw-cM" "S256"
      ["openid"; "offline_access"; "device_sso"] 1000) ["openid"; "offline_access"] [] "jwt" sample_issuer
    {| tk_AccessToken := "at:alice"; tk_TokenType := "Bearer"; tk_RefreshToken := ""; tk_ExpiresIn := 300;
       tk_Scope := "openid offline_access"; tk_CreatedAt := 0 |} ()).
  - exact sample_codes_placed.
  - reflexivity.
  - discriminate.
  - vm_compute. reflexivity.
  - reflexivity.
  - split_and!; [reflexivity|right; reflexivity| |left; reflexivity].
    right. split; [vm_compute; split; discriminate|]. vm_compute. reflexivity.
  - vm_compute. reflexivity.
  - reflexivity.
  - reflexivity.
  - right. eexists. split; [reflexivity|]. reflexivity.
  - reflexivity.
  - vm_compute. reflexivity.
Defined.

Lemma authcode_exchange_sound_witness :
  exists b, w_out (HandleAuthCodeGrant sample_deps good_request code_world).2 = [ROK b] /\
    exists info scopes resources, code_bound good_request info /\ scopes ⊆ ac_Scopes info /\
      resources ⊆ ac_Resources info.
Proof.
  set (w' := (HandleAuthCodeGrant sample_deps good_request code_world).2).
  destruct good_request_ok as (b & Hb). exists b. split; [exact Hb|].
  destruct (authcode_exchange_sound sample_deps good_request code_world w' b) as
    (info & scopes & rs & _ & _ & H1 & H2 & H3 & _).
  - exact sample_codes_placed.
  - unfold w'. destruct (HandleAuthCodeGrant sample_deps good_request code_world) as [[] w1]. reflexivity.
  - exact Hb.
  - exists info, scopes, rs. split_and!; assumption.
Defined.
