(* ===== verification/DeviceGrant.v ===== *)
(** * DeviceGrant: the device_code grant ([tokengrant/token_device.go]).

    A poll reads the code, rate-limits, and only then consumes it atomically; other
    requests may run between the two, which [dv_race] stands for: any change of the
    server at that point. *)
From S2P Require Import Prelude Core Lifecycle RefreshStore CodeStores DeviceCodes CibaStore Issue RefreshIface GraceCache Scopes GrantCore GrantMint.
Local Open Scope Z_scope.

Section device.
Context {St X : Type} `{Store : RefreshTokenStore St}.
Abbreviation G A := (M (World St X) A).

Record DeviceRequest := {
  dv_base : Request;
  dv_deviceCode : string;
  dv_race : Server St X -> Server St X;
}.

Implicit Types (d : Deps X) (q : DeviceRequest).

Definition dv_client q : Client := q_client (dv_base q).
Definition dv_jkt q : string := q_dpopJKT (dv_base q).

Definition too_soon (now : Z) (dc : DeviceCode) : bool :=
  negb (GoTime.IsZero (dc_LastPoll dc)) && (GoTime.Sub now (dc_LastPoll dc) <? dc_Interval dc).

(** True when the poll was answered; an approved code goes on to its consumption. *)
Definition devicePollGate q : G bool :=
  r ← gets (fun v => GetByDeviceCode (sv_now v) (dv_deviceCode q) (sv_devices v));
  match r with
  | Err _ => refuse 400 ErrInvalidGrant
  | Ok dc =>
      if negb (bool_decide (dc_ClientID dc = cl_ID (dv_client q))) then refuse 400 ErrInvalidGrant
      else
        now ← gets sv_now;
        if too_soon now dc then
          _ ← on_devices (UpdateLastPoll (dv_deviceCode q) now);
          refuse 400 ErrSlowDown
        else
          _ ← on_devices (UpdateLastPoll (dv_deviceCode q) now);
          if dc_Denied dc then
            _ ← on_devices (fun m => ((), DeleteDevice (dv_deviceCode q) m));
            refuse 400 ErrAccessDenied
          else if negb (dc_Approved dc) then refuse 400 ErrAuthorizationPending
          else mret false
  end.

Definition deviceSubject q (dc : DeviceCode) (issuedSub : string) (now : Z) : Subject :=
  let client := dv_client q in
  {| su_ID := issuedSub; su_Provider := dc_Provider dc; su_Claims := dc_Attributes dc;
     su_Resources := dc_Resources dc; su_ClientID := cl_ID client; su_AuthTime := now;
     su_AMR := [dc_Provider dc]; su_ACR := ""; su_AuthorizationDetails := "";
     su_TTL := cl_AccessTokenTTL client; su_SID := ""; su_ServingRegion := q_region (dv_base q);
     su_TenantID := cl_TenantID client; su_Roles := []; su_ConfirmationJKT := dv_jkt q;
     su_ConfirmationX5TS256 := q_mtlsX5T (dv_base q); su_NotAfter := q_notAfter (dv_base q);
     su_Actor := ActorNil; su_RequestedClaims := "" |}.

Definition deviceIssueRefresh d q (dc : DeviceCode) (resp : body) : G body :=
  let client := dv_client q in
  if negb (contains (dc_Scopes dc) ScopeOfflineAccess) || negb (dp_RefreshTokenStore d)
     || negb (deviceClientAllowsRefresh client)
  then mret resp
  else
    now ← gets sv_now;
    record_refresh
      (first_issue d (q_draws (dv_base q)) (dc_UserID dc) client (dc_Provider dc) (dc_Scopes dc)
         (dc_Attributes dc) (dc_Resources dc) "" "" [] "" now (dv_jkt q))
      (cl_ID client) (dc_UserID dc) resp.

Definition deviceIssueIDToken d q (dc : DeviceCode) (issuedSub accessToken : string) (resp : body) : G body :=
  if negb (contains (dc_Scopes dc) ScopeOpenID) then mret resp
  else
    now ← gets sv_now;
    emit_id_token d (dv_client q) (dc_UserID dc)
      {| ir_Subject := issuedSub; ir_Audience := cl_ID (dv_client q); ir_Nonce := dc_Nonce dc;
         ir_AuthTime := now; ir_AMR := [dc_Provider dc]; ir_ACR := ""; ir_Claims := dc_Attributes dc;
         ir_AZP := ""; ir_TTL := 0; ir_AccessToken := accessToken; ir_DeviceSecret := ""; ir_RequestedClaims := "";
         ir_GrantedScopes := dc_Scopes dc; ir_GrantedResources := dc_Resources dc;
         ir_AuthorizationDetails := ""; ir_SID := ""; ir_ServingRegion := q_region (dv_base q) |} resp.

Definition deviceFinish d q (dc : DeviceCode) (strategy issuedSub : string) (token : Token) : G body :=
  resp ← deviceIssueRefresh d q dc (base_response token (dv_jkt q) strategy);
  resp ← deviceIssueIDToken d q dc issuedSub (tk_AccessToken token) resp;
  _ ← emit (EvTokenIssued (cl_ID (dv_client q)) strategy (dc_UserID dc));
  _ ← emit (EvSubjectClientAccess (dc_UserID dc) (cl_ID (dv_client q)));
  mret resp.

Definition deviceMintAndRespond d q (dc : DeviceCode) : G () :=
  issuer ← gets (fun v => dp_IssuerForClient d (sv_x v) (dv_client q));
  match issuer with
  | None => respond (RError 500 ErrNoTokenStrategy)
  | Some (strategy, ti) =>
      issuedSub ← gets (fun v => dp_ApplyPairwiseSubject d (sv_x v) (dv_client q) (dc_UserID dc));
      unless (rejectUnregistered d (dc_Scopes dc)) (
      now ← gets sv_now;
      token ← on_x (ti_Issue ti (deviceSubject q dc issuedSub now) (dc_Scopes dc));
      match token with
      | Err e => _ ← emit (EvLog "device token issuance failed"); writeTokenIssueError e
      | Ok token =>
          resp ← deviceFinish d q dc strategy issuedSub token;
          respond (ROK resp)
      end)
  end.

Definition HandleDeviceGrant d q : G () :=
  if negb (dp_DeviceCodeStore d) then respond (RError 501 ErrDeviceCodeNotConfigured)
  else if decide (dv_deviceCode q = "") then respond (RError 400 ErrInvalidRequest)
  else
    unless (devicePollGate q) (
    _ ← environment (dv_race q);
    now ← gets sv_now;
    r ← on_devices (ConsumeIfApproved now (dv_deviceCode q));
    match r with
    | Err _ => respond (RError 400 ErrInvalidGrant)
    | Ok dc =>
        unless (lifecycleGrantBlocked d (dc_UserID dc)) $
        deviceMintAndRespond d q dc
    end).

(** ** Exactly one answer *)

Lemma gate_poll q : gate (devicePollGate q).
Proof. unfold devicePollGate. count. Qed.
Lemma refuses_poll q : refuses (devicePollGate q).
Proof. unfold devicePollGate. refusing. Qed.
Lemma silent_device_finish d q dc s i t : silent (deviceFinish d q dc s i t).
Proof. unfold deviceFinish, deviceIssueRefresh, deviceIssueIDToken. count. Qed.
Lemma once_device_mint d q dc : answers_once (deviceMintAndRespond d q dc).
Proof. unfold deviceMintAndRespond. pose proof silent_device_finish. count. Qed.

(** every device poll is answered exactly once, whatever other requests do
    between its read of the code and its consumption. *)
Theorem device_answers_once d q w :
  exists r, w_out (HandleDeviceGrant d q w).2 = w_out w ++ [r].
Proof.
  assert (answers_once (HandleDeviceGrant d q)) as H.
  { unfold HandleDeviceGrant. pose proof gate_poll. pose proof once_device_mint. count. }
  destruct (H w) as (rs & Ho & Hl). destruct rs as [|r [|]]; try done. by exists r.
Qed.

(** ** The poll's answers *)

Lemma poll_run q w dc :
  GetByDeviceCode (sv_now (w_srv w)) (dv_deviceCode q) (sv_devices (w_srv w)) = Ok dc ->
  dc_ClientID dc = cl_ID (dv_client q) ->
  let polled := (UpdateLastPoll (dv_deviceCode q) (sv_now (w_srv w)) (sv_devices (w_srv w))).2 in
  let wp := set_srv (with_devices polled) w in
  devicePollGate q w =
    if too_soon (sv_now (w_srv w)) dc then refuse 400 ErrSlowDown wp
    else if dc_Denied dc then
      refuse 400 ErrAccessDenied (set_srv (with_devices (DeleteDevice (dv_deviceCode q) polled)) wp)
    else if dc_Approved dc then (false, wp)
    else refuse 400 ErrAuthorizationPending wp.
Proof.
  intros Hg Hc polled wp. unfold devicePollGate. rewrite M_bind_unfold. cbn [gets fst snd]. rewrite Hg.
  rewrite bool_decide_eq_true_2 by done. cbn [negb]. rewrite M_bind_unfold. cbn [gets fst snd].
  unfold wp, polled. unfold on_devices.
  destruct (too_soon _ dc); [|destruct (dc_Denied dc); [|destruct (dc_Approved dc)]];
    rewrite !M_bind_unfold; by destruct (UpdateLastPoll _ _ _).
Qed.

Lemma by_device_polled code t m p e :
  by_device m code = Some (p, e) ->
  by_device (UpdateLastPoll code t m).2 code = Some (p, set_last_poll t e).
Proof.
  intros H. unfold UpdateLastPoll. rewrite H. unfold by_device in *. cbn.
  destruct (byDeviceCode m !! code) as [p'|]; [|done]. cbn in *.
  destruct (dcs_heap m !! p'); [|done]. cbn in *. simplify_eq. by rewrite lookup_insert_eq.
Qed.

Lemma by_device_deleted code m : by_device (DeleteDevice code m) code = None.
Proof.
  unfold DeleteDevice. destruct (by_device m code) as [[p e]|] eqn:E; [|done].
  unfold by_device, drop_code, with_indexes. cbn [byDeviceCode dcs_heap]. by rewrite lookup_delete_eq.
Qed.

Lemma GetByDeviceCode_Ok now code m dc :
  GetByDeviceCode now code m = Ok dc <->
  exists p, by_device m code = Some (p, dc) /\ DeviceCode_IsExpired now dc = false.
Proof.
  unfold GetByDeviceCode, live. destruct (by_device m code) as [[p e]|]; [|naive_solver].
  destruct (DeviceCode_IsExpired now e) eqn:E; naive_solver congruence.
Qed.

Lemma poll_refused d q w st c w1 :
  dp_DeviceCodeStore d = true -> dv_deviceCode q <> "" ->
  devicePollGate q w = refuse st c w1 -> w_out w1 = w_out w ->
  w_out (HandleDeviceGrant d q w).2 = w_out w ++ [RError st c] /\
  sv_devices (w_srv (HandleDeviceGrant d q w).2) = sv_devices (w_srv w1).
Proof.
  intros Hd Hc E O. unfold HandleDeviceGrant. rewrite Hd, decide_False by done. cbn [negb]. unfold unless.
  rewrite M_bind_unfold, E.
  change (w_out w1 ++ [RError st c] = w_out w ++ [RError st c] /\ sv_devices (w_srv w1) = sv_devices (w_srv w1)).
  by rewrite O.
Qed.

(** the device poll answers by the state of the code: an unknown or expired code, or
    another client's, is refused with invalid_grant and the store is untouched; a poll
    closer to the previous one than the interval gets slow_down and a pending one
    authorization_pending, both recording the poll's time; a denied code gets
    access_denied and is removed. *)
Theorem device_poll_answers d q w :
  dp_DeviceCodeStore d = true -> dv_deviceCode q <> "" ->
  let now := sv_now (w_srv w) in let code := dv_deviceCode q in let m := sv_devices (w_srv w) in
  let w' := (HandleDeviceGrant d q w).2 in
  let says e m' := w_out w' = w_out w ++ [RError 400 e] /\ sv_devices (w_srv w') = m' in
  match GetByDeviceCode now code m with
  | Err _ => says ErrInvalidGrant m
  | Ok dc =>
      if bool_decide (dc_ClientID dc <> cl_ID (dv_client q)) then says ErrInvalidGrant m
      else if too_soon now dc then says ErrSlowDown (UpdateLastPoll code now m).2
      else if dc_Denied dc then
        says ErrAccessDenied (DeleteDevice code (UpdateLastPoll code now m).2) /\
        by_device (sv_devices (w_srv w')) code = None
      else dc_Approved dc = false -> says ErrAuthorizationPending (UpdateLastPoll code now m).2
  end.
Proof.
  intros Hd Hc now code m w' says. destruct (GetByDeviceCode now code m) as [dc|e] eqn:Hg.
  2:{ unfold says, w', HandleDeviceGrant. rewrite Hd, decide_False by done. cbn [negb]. unfold unless.
      rewrite M_bind_unfold. unfold devicePollGate. rewrite M_bind_unfold. cbn [gets fst snd].
      unfold now, code, m in Hg. by rewrite Hg. }
  case_bool_decide as Hcl.
  { unfold says, w', HandleDeviceGrant. rewrite Hd, decide_False by done. cbn [negb]. unfold unless.
    rewrite M_bind_unfold. unfold devicePollGate. rewrite M_bind_unfold. cbn [gets fst snd].
    unfold now, code, m in Hg. rewrite Hg. by rewrite bool_decide_eq_false_2. }
  pose proof (poll_refused d q w) as Href. specialize (fun st c w1 => Href st c w1 Hd Hc).
  change (HandleDeviceGrant d q w).2 with w' in Href.
  pose proof (poll_run q w dc Hg Hcl) as Hrun. fold now code m in Hrun. cbn zeta in Hrun.
  destruct (too_soon now dc); [by apply (Href _ _ _ Hrun)|].
  destruct (dc_Denied dc).
  - destruct (Href _ _ _ Hrun) as [H1 H2]; [done|]. split; [by split|]. fold w'. rewrite H2. cbn [set_srv w_srv with_devices sv_devices]. fold code.
    apply by_device_deleted.
  - intros Ha. rewrite Ha in Hrun. by apply (Href _ _ _ Hrun).
Qed.

Lemma too_soon_polled now now' dc :
  0 < now -> 0 <= now' - now < dc_Interval dc -> dc_Interval dc <= GoTime.maxDuration ->
  too_soon now' (set_last_poll now dc) = true.
Proof.
  intros H1 H2 H3. unfold too_soon, GoTime.IsZero. cbn. rewrite (proj2 (Z.eqb_neq _ _)) by lia.
  cbn. apply Z.ltb_lt, GoTime.Sub_lt; unfold GoTime.minDuration, GoTime.maxDuration in *; lia.
Qed.

(** polling faster than the interval does not help: after a poll of its own code
    that found it undecided, or that came too soon, a client that polls again before
    the interval has passed since is told to slow down, whatever has been decided
    meanwhile, as long as the code lives. *)
Theorem device_interval_enforced d q w dc now' :
  dp_DeviceCodeStore d = true -> dv_deviceCode q <> "" ->
  GetByDeviceCode (sv_now (w_srv w)) (dv_deviceCode q) (sv_devices (w_srv w)) = Ok dc ->
  dc_ClientID dc = cl_ID (dv_client q) ->
  too_soon (sv_now (w_srv w)) dc = true \/ (dc_Denied dc = false /\ dc_Approved dc = false) ->
  0 < sv_now (w_srv w) -> 0 <= now' - sv_now (w_srv w) < dc_Interval dc ->
  dc_Interval dc <= GoTime.maxDuration -> DeviceCode_IsExpired now' dc = false ->
  let w2 := at_time now' (HandleDeviceGrant d q w).2 in
  w_out (HandleDeviceGrant d q w2).2 = w_out w2 ++ [RError 400 ErrSlowDown].
Proof.
  intros Hd Hc Hg Hcl Hst Hpos Hint Hmax Hx w2.
  assert (sv_devices (w_srv w2) = (UpdateLastPoll (dv_deviceCode q) (sv_now (w_srv w)) (sv_devices (w_srv w))).2) as Hw2.
  { pose proof (poll_run q w dc Hg Hcl) as Hrun. cbn zeta in Hrun.
    destruct (too_soon _ dc); [by apply (poll_refused d q w _ _ _ Hd Hc Hrun)|].
    destruct Hst as [?|[Hden Hap]]; [done|]. rewrite Hden, Hap in Hrun.
    by apply (poll_refused d q w _ _ _ Hd Hc Hrun). }
  apply GetByDeviceCode_Ok in Hg as (p & Hp & _).
  assert (GetByDeviceCode (sv_now (w_srv w2)) (dv_deviceCode q) (sv_devices (w_srv w2)) =
          Ok (set_last_poll (sv_now (w_srv w)) dc)) as Hg2.
  { apply GetByDeviceCode_Ok. exists p. rewrite Hw2. split; [by apply by_device_polled|exact Hx]. }
  pose proof (poll_run q w2 _ Hg2 Hcl) as Hrun. cbn zeta in Hrun.
  rewrite too_soon_polled in Hrun by done.
  by apply (poll_refused d q w2 _ _ _ Hd Hc Hrun).
Qed.

(** ** Success *)

Lemma poll_passed q w w1 :
  devicePollGate q w = (false, w1) ->
  w1 = set_srv (with_devices (UpdateLastPoll (dv_deviceCode q) (sv_now (w_srv w)) (sv_devices (w_srv w))).2) w /\
  exists dc, GetByDeviceCode (sv_now (w_srv w)) (dv_deviceCode q) (sv_devices (w_srv w)) = Ok dc /\
    dc_ClientID dc = cl_ID (dv_client q) /\ too_soon (sv_now (w_srv w)) dc = false /\
    dc_Denied dc = false /\ dc_Approved dc = true.
Proof.
  destruct (GetByDeviceCode (sv_now (w_srv w)) (dv_deviceCode q) (sv_devices (w_srv w))) as [dc|e] eqn:Hg.
  2:{ unfold devicePollGate. rewrite M_bind_unfold. cbn [gets fst snd]. by rewrite Hg. }
  destruct (decide (dc_ClientID dc = cl_ID (dv_client q))) as [Hcl|Hcl].
  2:{ unfold devicePollGate. rewrite M_bind_unfold. cbn [gets fst snd]. rewrite Hg.
      by rewrite bool_decide_eq_false_2. }
  rewrite (poll_run q w dc Hg Hcl). destruct (too_soon _ dc) eqn:E1; [done|].
  destruct (dc_Denied dc) eqn:E2; [done|]. destruct (dc_Approved dc) eqn:E3; [|done].
  intros [= <-]. split; [done|]. by exists dc.
Qed.

Lemma ConsumeIfApproved_Ok now code m dc m' :
  ConsumeIfApproved now code m = (Ok dc, m') ->
  (exists p, by_device m code = Some (p, dc)) /\ DeviceCode_IsExpired now dc = false /\
  dc_Approved dc = true /\ by_device m' code = None.
Proof.
  unfold ConsumeIfApproved. destruct (by_device m code) as [[p e]|]; [|done].
  destruct (DeviceCode_IsExpired now e) eqn:E1; [done|]. destruct (dc_Approved e) eqn:E2; [|done].
  intros [= -> <-]. split_and!; [by eexists|done..|]. unfold by_device, drop_code, with_indexes.
  cbn [byDeviceCode dcs_heap]. by rewrite lookup_delete_eq.
Qed.

Lemma frame_device_finish d q dc s i t : frame one_shots (deviceFinish d q dc s i t).
Proof.
  unfold deviceFinish, deviceIssueRefresh, deviceIssueIDToken, record_refresh.
  repeat first [apply frame_id_token; intros; reflexivity | progress framing].
Qed.

Context {Laws : RefreshTokenStoreLaws St}.

(** What a device token response gives beside the access token. *)
Definition device_refresh q (dc : DeviceCode) (now : Z) (i : RefreshToken) : Prop :=
  ScopeOfflineAccess ∈ dc_Scopes dc /\ deviceClientAllowsRefresh (dv_client q) = true /\
  opens_family (q_draws (dv_base q)) now (dc_UserID dc) (dv_client q) (dc_Scopes dc)
    (dc_Resources dc) [] now (dv_jkt q) i.

Lemma deviceRefresh_part d q dc resp w :
  let m := deviceIssueRefresh d q dc resp w in
  refresh_part (device_refresh q dc (sv_now (w_srv w))) resp m.1 (sv_refresh (w_srv w)) (sv_refresh (w_srv m.2)).
Proof.
  unfold deviceIssueRefresh, device_refresh. cbn zeta.
  destruct (contains (dc_Scopes dc) ScopeOfflineAccess) eqn:E1; [|apply refresh_part_none].
  destruct (dp_RefreshTokenStore d); [|apply refresh_part_none].
  destruct (deviceClientAllowsRefresh (dv_client q)) eqn:E2; [|apply refresh_part_none].
  cbn [negb orb]. rewrite M_bind_unfold. cbn [gets fst snd].
  eapply refresh_part_mono; [|apply record_first_issue]. intros i Hi. apply contains_spec in E1. auto.
Qed.

Lemma device_finish_spec d q dc strategy sub token w :
  let m := deviceFinish d q dc strategy sub token w in
  m.1 !! KeyAccessToken = Some (VStr (tk_AccessToken token)) /\
  refresh_outcome (device_refresh q dc (sv_now (w_srv w))) m.1 (sv_refresh (w_srv w)) (sv_refresh (w_srv m.2)) /\
  (m.1 !! KeyIDToken <> None -> ScopeOpenID ∈ dc_Scopes dc).
Proof.
  unfold deviceFinish. cbn zeta. rewrite !M_bind_unfold.
  set (resp0 := base_response token (dv_jkt q) strategy).
  pose proof (deviceRefresh_part d q dc resp0 w) as HR.
  destruct (deviceIssueRefresh d q dc resp0 w) as [resp1 w1]. cbn [fst snd emit mret M_ret] in *.
  set (idt := deviceIssueIDToken d q dc sub (tk_AccessToken token) resp1).
  assert (frame sv_refresh idt) as Hf.
  { unfold idt, deviceIssueIDToken. split_if; [framing|]. apply frame_bind; [framing|]. intros now.
    by apply frame_id_token. }
  assert (with_id_token resp1 (idt w1).1 /\ ((idt w1).1 !! KeyIDToken <> None -> resp1 !! KeyIDToken = None -> ScopeOpenID ∈ dc_Scopes dc)) as [HI HO].
  { unfold idt, deviceIssueIDToken. destruct (contains _ ScopeOpenID) eqn:E; cbn [negb].
    - apply contains_spec in E. rewrite M_bind_unfold. split; [apply id_token_spec|done].
    - split; [by left|]. cbn. congruence. }
  specialize (Hf w1). destruct (idt w1) as [resp2 w2]. cbn [fst snd w_srv] in *.
  pose proof (fun k => with_id_token_lookup resp1 resp2 k HI) as HL.
  pose proof (fun k => refresh_part_lookup _ _ _ _ _ k HR) as HR'.
  split_and!.
  - rewrite HL, HR' by done. apply base_response_access.
  - rewrite Hf. eapply refresh_part_outcome; [apply base_response_refresh|exact HR|]. by rewrite HL.
  - intros Hk. apply HO; [done|]. rewrite HR' by done. apply base_response_id.
Qed.

(** A device token minted for the consumed record [dc] on the server [v]. *)
Definition device_minted d q (dc : DeviceCode) (v : Server St X) (w' : World St X) (b : body) : Prop :=
  lifecycle_ok d (sv_x v) (dc_UserID dc) /\ RejectUnregistered (dp_ScopeRegistry d) (dc_Scopes dc) = None /\
  (exists strategy ti token x', dp_IssuerForClient d (sv_x v) (dv_client q) = Some (strategy, ti) /\
     ti_Issue ti (deviceSubject q dc (dp_ApplyPairwiseSubject d (sv_x v) (dv_client q) (dc_UserID dc)) (sv_now v))
       (dc_Scopes dc) (sv_x v) = (Ok token, x') /\
     b !! KeyAccessToken = Some (VStr (tk_AccessToken token))) /\
  refresh_outcome (device_refresh q dc (sv_now v)) b (sv_refresh v) (sv_refresh (w_srv w')) /\
  (b !! KeyIDToken <> None -> ScopeOpenID ∈ dc_Scopes dc) /\ sv_devices (w_srv w') = sv_devices v.

Lemma device_mint_ok d q dc w w' b :
  (unless (lifecycleGrantBlocked d (dc_UserID dc)) $ deviceMintAndRespond d q dc) w = ((), w') ->
  w_out w' = w_out w ++ [ROK b] -> device_minted d q dc (w_srv w) w' b.
Proof.
  intros Hw Ho. eapply unless_ok in Hw as (w1 & Hg & _ & Hw); [|by auto with snap..|exact Ho].
  apply lifecycle_false in Hg as [-> Hlife]. unfold device_minted. split; [done|].
  unfold deviceMintAndRespond in Hw. rewrite M_bind_unfold in Hw. cbn [gets fst snd] in Hw.
  destruct (dp_IssuerForClient _ _ _) as [[strategy ti]|] eqn:Hi.
  2:{ injection Hw as <-. by eapply ok_not_error; [apply error_is_error| |exact Ho]. }
  rewrite M_bind_unfold in Hw. cbn [gets fst snd] in Hw.
  eapply unless_ok in Hw as (w1 & Hg & _ & Hw); [|by auto with snap..|exact Ho].
  apply rejectUnregistered_false in Hg as [-> Hreg]. split; [done|].
  rewrite !M_bind_unfold in Hw. cbn [gets fst snd] in Hw. unfold on_x in Hw.
  destruct (ti_Issue ti _ _ _) as [[token|e] x'] eqn:Ht; cbn [fst snd] in Hw.
  2:{ rewrite M_bind_unfold in Hw. cbn [emit fst snd] in Hw.
      match type of Hw with writeTokenIssueError e ?w2 = _ => destruct (writeIssueError_error e w2) as (r & Hr & Hout) end.
      rewrite Hw in Hout. by eapply ok_not_error; [exact Hr|exact Hout|]. }
  rewrite M_bind_unfold in Hw.
  match type of Hw with context [deviceFinish d q dc strategy ?s token ?w0] => set (sub := s) in *; set (wt := w0) in * end.
  pose proof (device_finish_spec d q dc strategy sub token wt) as (F1 & F2 & F3).
  pose proof (silent_device_finish d q dc strategy sub token wt) as (outs & Hout & Hl).
  pose proof (frame_device_finish d q dc strategy sub token wt) as Hf.
  set (m := deviceFinish d q dc strategy sub token wt) in *. clearbody m.
  destruct outs; [|done]. rewrite app_nil_r in Hout. injection Hw as <-. cbn [respond snd w_out w_srv] in *.
  rewrite Hout in Ho. apply (inj _) in Ho. injection Ho as <-. unfold one_shots in Hf.
  split_and!; [by exists strategy, ti, token, x'|exact F2|exact F3|]. by injection Hf.
Qed.

Lemma device_success d q w w' b :
  HandleDeviceGrant d q w = ((), w') -> w_out w' = w_out w ++ [ROK b] ->
  let now := sv_now (w_srv w) in let code := dv_deviceCode q in
  (exists dc, GetByDeviceCode now code (sv_devices (w_srv w)) = Ok dc /\ dc_ClientID dc = cl_ID (dv_client q) /\
     too_soon now dc = false /\ dc_Denied dc = false /\ dc_Approved dc = true) /\
  let v := dv_race q (with_devices (UpdateLastPoll code now (sv_devices (w_srv w))).2 (w_srv w)) in
  exists p dc, by_device (sv_devices v) code = Some (p, dc) /\ dc_Approved dc = true /\
    DeviceCode_IsExpired (sv_now v) dc = false /\ by_device (sv_devices (w_srv w')) code = None /\
    device_minted d q dc (with_devices (ConsumeIfApproved (sv_now v) code (sv_devices v)).2 v) w' b.
Proof.
  unfold HandleDeviceGrant.
  split_if; [intros [= <-] Ho; by eapply ok_not_error; [apply error_is_error| |exact Ho]|].
  case_decide; [intros [= <-] Ho; by eapply ok_not_error; [apply error_is_error| |exact Ho]|].
  intros Hw Ho.
  eapply unless_ok in Hw as (w1 & Hg & O1 & Hw); [|apply gate_poll|apply refuses_poll|exact Ho].
  apply poll_passed in Hg as [-> Hdc]. split; [exact Hdc|]. rewrite <- O1 in Ho.
  set (v := dv_race q _).
  rewrite !M_bind_unfold in Hw. cbn [environment gets fst snd set_srv w_srv] in Hw. fold v in Hw.
  unfold on_devices in Hw. cbn [set_srv w_srv] in Hw. fold v in Hw.
  destruct (ConsumeIfApproved _ _ _) as [[dc|e] m] eqn:Hc; cbn [fst snd] in Hw.
  2:{ injection Hw as <-. by eapply ok_not_error; [apply error_is_error| |exact Ho]. }
  apply ConsumeIfApproved_Ok in Hc as ((p & Hp) & Hx & Ha & Hgone).
  apply (device_mint_ok d q dc _ w' b) in Hw; [|exact Ho]. exists p, dc.
  split_and!; try done. destruct Hw as (_ & _ & _ & _ & _ & ->). exact Hgone.
Qed.
(** C13 — a device token is minted only for an approved code, and once: a poll answered
    with 200 found its own client's code live, approved, not denied and not polled too
    soon; whatever other requests did before it consumed the code, at that instant the
    code was still there, approved and unexpired, and afterwards it is gone; the token
    is minted for the record consumed and the user who approved it, who may
    authenticate, and a refresh token only with offline_access and the client's
    permission, opening a fresh family bound to the DPoP key. *)
Theorem device_grant_sound d q w w' b :
  HandleDeviceGrant d q w = ((), w') -> w_out w' = w_out w ++ [ROK b] ->
  let now := sv_now (w_srv w) in let code := dv_deviceCode q in
  (exists dc, GetByDeviceCode now code (sv_devices (w_srv w)) = Ok dc /\ dc_ClientID dc = cl_ID (dv_client q) /\
     too_soon now dc = false /\ dc_Denied dc = false /\ dc_Approved dc = true) /\
  let v := dv_race q (with_devices (UpdateLastPoll code now (sv_devices (w_srv w))).2 (w_srv w)) in
  exists p dc, by_device (sv_devices v) code = Some (p, dc) /\ dc_Approved dc = true /\
    DeviceCode_IsExpired (sv_now v) dc = false /\ by_device (sv_devices (w_srv w')) code = None /\
    device_minted d q dc (with_devices (ConsumeIfApproved (sv_now v) code (sv_devices v)).2 v) w' b.
Proof. exact (device_success d q w w' b). Qed.

(** concurrent polls of one approved code mint one token: when another poll of the
    same code succeeds between this poll's read of the code and its consumption, this
    one is answered 400 invalid_grant, although its own read found the code approved. *)
Theorem device_concurrent_polls d q w dc d2 q2 wv w2 b2 :
  dp_DeviceCodeStore d = true -> dv_deviceCode q <> "" ->
  GetByDeviceCode (sv_now (w_srv w)) (dv_deviceCode q) (sv_devices (w_srv w)) = Ok dc ->
  dc_ClientID dc = cl_ID (dv_client q) -> too_soon (sv_now (w_srv w)) dc = false ->
  dc_Denied dc = false -> dc_Approved dc = true ->
  dv_deviceCode q2 = dv_deviceCode q ->
  let polled := (UpdateLastPoll (dv_deviceCode q) (sv_now (w_srv w)) (sv_devices (w_srv w))).2 in
  sv_devices (w_srv wv) = polled ->
  HandleDeviceGrant d2 q2 wv = ((), w2) -> w_out w2 = w_out wv ++ [ROK b2] ->
  dv_race q (with_devices polled (w_srv w)) = w_srv w2 ->
  w_out (HandleDeviceGrant d q w).2 = w_out w ++ [RError 400 ErrInvalidGrant].
Proof.
  intros Hd Hc Hg Hcl Hts Hden Hap Hq2 polled Hwv H2 O2 Hrace.
  destruct (device_success d2 q2 wv w2 b2 H2 O2) as [_ (p & dc2 & _ & _ & _ & Hgone & _)]. rewrite Hq2 in Hgone.
  unfold HandleDeviceGrant. rewrite Hd, decide_False by done. cbn [negb]. unfold unless at 1.
  rewrite M_bind_unfold. pose proof (poll_run q w dc Hg Hcl) as ->. cbn zeta.
  rewrite Hts, Hden, Hap. cbn [fst snd]. rewrite !M_bind_unfold. cbn [environment gets fst snd set_srv w_srv].
  fold polled. rewrite Hrace. unfold on_devices. cbn [set_srv w_srv]. rewrite Hrace.
  unfold ConsumeIfApproved. by rewrite Hgone.
Qed.

(** a refused poll mints nothing: when the request ends in an error, and other
    requests minted nothing meanwhile, the refresh-token and device-secret stores are
    the ones before it. *)
Theorem device_refusal_mints_nothing d q w st c :
  (forall v, minted (dv_race q v) = minted v) ->
  w_out (HandleDeviceGrant d q w).2 = w_out w ++ [RError st c] ->
  minted (w_srv (HandleDeviceGrant d q w).2) = minted (w_srv w).
Proof.
  intros Hq. assert (refusal_keeps (HandleDeviceGrant d q)) as H; [|by apply H].
  unfold HandleDeviceGrant. split_if; [by apply refusal_frame|]. case_decide; [by apply refusal_frame|].
  apply refusal_unless; [apply gate_poll|unfold devicePollGate; framing|].
  apply refusal_silent; [auto with snap|intros w0; apply Hq|intros _].
  apply refusal_silent; [auto with snap|framing|intros now].
  apply refusal_silent; [auto with snap|framing|intros [dc|e]]; [|by apply refusal_frame].
  apply refusal_unless; [by auto with snap|by auto with snap|]. unfold deviceMintAndRespond.
  apply refusal_silent; [auto with snap|framing|intros [[strategy ti]|]]; [|by apply refusal_frame].
  apply refusal_silent; [auto with snap|framing|intros sub].
  apply refusal_unless; [by auto with snap|by auto with snap|].
  apply refusal_silent; [auto with snap|framing|intros now'].
  apply refusal_silent; [auto with snap|framing|intros [token|e]].
  - apply (refusal_never (deviceFinish d q dc strategy sub token) id), silent_device_finish.
  - apply refusal_frame. framing.
Qed.
End device.

(** ** Witnesses *)

Definition device_world (m : MemoryDeviceCodeStore) : World MemoryRefreshTokenStore () := {|
  w_srv := {| sv_now := 100; sv_refresh := NewMemoryRefreshTokenStore 0 0 0; sv_grace := None;
              sv_codes := NewMemoryAuthCodeStore 0; sv_devices := m; sv_ciba := NewMemoryCIBAStore;
              sv_secrets := {| dss_secrets := ∅ |}; sv_x := () |};
  w_out := []; w_events := [] |}.

Definition tv_device : DeviceCode := {|
  dc_DeviceCode := "dev"; dc_UserCode := "BCDF2349"; dc_ClientID := "app";
  dc_Scopes := ["openid"; "offline_access"]; dc_Nonce := ""; dc_UserID := ""; dc_Provider := "";
  dc_Attributes := ∅; dc_Approved := false; dc_Denied := false; dc_LastPoll := 0; dc_Interval := 5;
  dc_Resources := []; dc_ExpiresAt := 1000 |}.
Definition pending_store : MemoryDeviceCodeStore :=
  (IssueDevice (Some tv_device) (NewMemoryDeviceCodeStore 4)).2.
Definition approved_store : MemoryDeviceCodeStore := (Approve 20 "BCDF2349" "alice" "pwd" ∅ pending_store).2.

Definition device_request (race : Server MemoryRefreshTokenStore () -> Server MemoryRefreshTokenStore ())
    : @DeviceRequest MemoryRefreshTokenStore () :=
  {| dv_base := sample_request "rt-1"; dv_deviceCode := "dev"; dv_race := race |}.

Lemma device_success_computed :
  exists b, w_out (HandleDeviceGrant sample_deps (device_request id) (device_world approved_store)).2 = [ROK b].
Proof.
  assert (match w_out (HandleDeviceGrant sample_deps (device_request id) (device_world approved_store)).2 with
          | [ROK _] => True | _ => False end) as H by (vm_compute; exact I).
  destruct (w_out _) as [|[|b] [|]]; [done..|by exists b|done].
Qed.

Lemma device_poll_answers_witness :
  w_out (HandleDeviceGrant sample_deps (device_request id) (device_world pending_store)).2 =
  [RError 400 ErrAuthorizationPending].
Proof.
  pose proof (device_poll_answers sample_deps (device_request id) (device_world pending_store)) as H.
  destruct H as [H _].
  - reflexivity.
  - discriminate.
  - reflexivity.
  - exact H.
Defined.

Lemma device_interval_enforced_witness :
  w_out (HandleDeviceGrant sample_deps (device_request id)
    (at_time 103 (HandleDeviceGrant sample_deps (device_request id) (device_world pending_store)).2)).2 =
  [RError 400 ErrAuthorizationPending; RError 400 ErrSlowDown].
Proof.
  rewrite (device_interval_enforced sample_deps (device_request id) (device_world pending_store) tv_device 103).
  - vm_compute. reflexivity.
  - reflexivity.
  - discriminate.
  - vm_compute. reflexivity.
  - reflexivity.
  - right. split; reflexivity.
  - vm_compute. reflexivity.
  - vm_compute. split; [discriminate|reflexivity].
  - vm_compute. discriminate.
  - vm_compute. reflexivity.
Defined.

Lemma device_grant_sound_witness :
  exists b w', HandleDeviceGrant sample_deps (device_request id) (device_world approved_store) = ((), w') /\
    w_out w' = [ROK b] /\ by_device (sv_devices (w_srv w')) "dev" = None.
Proof.
  destruct device_success_computed as (b & Hb). exists b.
  set (w' := (HandleDeviceGrant sample_deps (device_request id) (device_world approved_store)).2). exists w'.
  assert (HandleDeviceGrant sample_deps (device_request id) (device_world approved_store) = ((), w')) as Hw.
  { unfold w'. destruct (HandleDeviceGrant _ _ _) as [[] w1]. reflexivity. }
  destruct (device_grant_sound sample_deps (device_request id) (device_world approved_store) w' b Hw Hb)
    as (_ & p & dc & _ & _ & _ & Hgone & _).
  split_and!; [exact Hw|exact Hb|exact Hgone].
Defined.

(** A second poll of the same code runs to completion in the middle of the first. *)
Definition racing : Server MemoryRefreshTokenStore () -> Server MemoryRefreshTokenStore () := fun v =>
  w_srv (HandleDeviceGrant sample_deps (device_request id)
    {| w_srv := with_x () {| sv_now := 110; sv_refresh := sv_refresh v; sv_grace := sv_grace v;
         sv_codes := sv_codes v; sv_devices := sv_devices v; sv_ciba := sv_ciba v;
         sv_secrets := sv_secrets v; sv_x := sv_x v |}; w_out := []; w_events := [] |}).2.

Lemma device_concurrent_polls_witness :
  w_out (HandleDeviceGrant sample_deps (device_request racing) (device_world approved_store)).2 =
  [RError 400 ErrInvalidGrant].
Proof.
  set (m := (UpdateLastPoll "dev" 100 approved_store).2).
  set (wv := at_time 110 (device_world m)).
  set (w2 := (HandleDeviceGrant sample_deps (device_request id) wv).2).
  assert (match w_out w2 with [ROK _] => True | _ => False end) as H by (vm_compute; exact I).
  assert (exists b, w_out w2 = [ROK b]) as [b Hb].
  { destruct (w_out w2) as [|[|b] [|]]; [destruct H..|exists b; reflexivity|destruct H]. }
  apply (device_concurrent_polls sample_deps (device_request racing) (device_world approved_store)
    (set_approved "alice" "pwd" ∅ tv_device) sample_deps (device_request id) wv w2 b).
  - reflexivity.
  - discriminate.
  - vm_compute. reflexivity.
  - reflexivity.
  - reflexivity.
  - reflexivity.
  - reflexivity.
  - reflexivity.
  - reflexivity.
  - unfold w2. destruct (HandleDeviceGrant _ _ wv) as [[] w1]. reflexivity.
  - exact Hb.
  - reflexivity.
Defined.

Lemma device_refusal_mints_nothing_witness :
  minted (w_srv (HandleDeviceGrant sample_deps (device_request id) (device_world pending_store)).2) =
  minted (w_srv (device_world pending_store)).
Proof.
  apply (device_refusal_mints_nothing _ _ _ 400 ErrAuthorizationPending).
  - reflexivity.
  - vm_compute. reflexivity.
Defined.
