(* ===== verification/CibaGrant.v ===== *)
(** * CibaGrant: the CIBA grant ([tokengrant/token_ciba.go]), polled at the token
    endpoint or minted for push delivery.

    As in DeviceGrant, other requests may run between the poll's read of the request
    and its atomic consumption: [cp_race]. *)
From S2P Require Import Prelude Core Lifecycle RefreshStore CodeStores DeviceCodes CibaStore Issue RefreshIface GraceCache Scopes GrantCore GrantMint.
Local Open Scope Z_scope.

(** [oauth.PushPayload]. *)
Record PushPayload := {
  pp_AuthReqID : string;
  pp_AccessToken : string;
  pp_TokenType : string;
  pp_ExpiresIn : Z;
  pp_RefreshToken : string;
  pp_IDToken : string;
}.

Definition cibaProvider (r : CIBARequest) : string :=
  if decide (cb_Provider r = "") then CIBAAMR else cb_Provider r.

(** The other numeric cases of the type switch cannot arise: the map holds int64. *)
Definition cibaRespInt64 (m : body) (key : string) : Z :=
  match m !! key with Some (VInt n) => n | _ => 0 end.

Section ciba.
Context {St X : Type} `{Store : RefreshTokenStore St}.
Abbreviation G A := (M (World St X) A).

Record CibaPoll := {
  cp_base : Request;
  cp_authReqID : string;
  cp_race : Server St X -> Server St X;
}.

Implicit Types (d : Deps X) (q : CibaPoll) (rq : Request).

Definition ciba_too_soon (now : Z) (r : CIBARequest) : bool :=
  negb (GoTime.IsZero (cb_LastPoll r)) && (0 <? cb_Interval r) &&
  (GoTime.Sub now (cb_LastPoll r) <? cb_Interval r).

(** The instant the poll was admitted, for an approved request. *)
Definition cibaPollGate d q : G (option Z) :=
  let id := cp_authReqID q in
  if negb (dp_CIBAStore d) then deny 501 ErrCIBANotConfigured
  else if decide (id = "") then deny 400 ErrInvalidRequest
  else
    now ← gets sv_now;
    r ← on_ciba (GetCIBA now id);
    match r with
    | Err _ => deny 400 ErrExpiredToken
    | Ok r =>
        if negb (bool_decide (cb_ClientID r = cl_ID (q_client (cp_base q)))) then deny 400 ErrInvalidGrant
        else if ciba_too_soon now r then
          _ ← on_ciba (fun m => ((), UpdateLastPollCIBA id now m));
          deny 400 ErrSlowDown
        else
          _ ← on_ciba (fun m => ((), UpdateLastPollCIBA id now m));
          match cb_Status r with
          | CIBADenied =>
              _ ← on_ciba (fun m => ((), DeleteCIBA id m));
              _ ← emit (EvCIBADecision (cl_ID (q_client (cp_base q))) (cb_SubjectID r) false);
              deny 400 ErrAccessDenied
          | CIBAApproved => mret (Some now)
          | CIBAPending => deny 400 ErrAuthorizationPending
          end
    end.

Definition cibaSubject rq (r : CIBARequest) (issuedSub : string) (now : Z) (jkt x5t : string) : Subject :=
  let client := q_client rq in
  {| su_ID := issuedSub; su_Provider := cibaProvider r; su_Claims := ∅; su_Resources := cb_Resources r;
     su_ClientID := cl_ID client; su_AuthTime := now; su_AMR := [cibaProvider r];
     su_ACR := cb_ACRValues r; su_AuthorizationDetails := ""; su_TTL := cl_AccessTokenTTL client;
     su_SID := ""; su_ServingRegion := q_region rq; su_TenantID := cl_TenantID client; su_Roles := [];
     su_ConfirmationJKT := jkt; su_ConfirmationX5TS256 := x5t; su_NotAfter := q_notAfter rq;
     su_Actor := ActorNil; su_RequestedClaims := "" |}.

Definition cibaIssueRefresh d rq (r : CIBARequest) (now : Z) (jkt : string) (resp : body) : G body :=
  let client := q_client rq in
  if (negb (bool_decide (cl_GrantTypes client = [])) && negb (contains (cl_GrantTypes client) GrantRefreshToken))
     || negb (dp_RefreshTokenStore d)
  then mret resp
  else record_refresh
         (first_issue d (q_draws rq) (cb_SubjectID r) client (cibaProvider r) (cb_Scopes r) ∅
            (cb_Resources r) "" "" [] (cb_ACRValues r) now jkt)
         (cl_ID client) (cb_SubjectID r) resp.

Definition cibaIssueIDToken d rq (r : CIBARequest) (issuedSub : string) (now : Z) (accessToken : string)
    (resp : body) : G body :=
  if negb (contains (cb_Scopes r) ScopeOpenID) then mret resp
  else emit_id_token d (q_client rq) (cb_SubjectID r)
    {| ir_Subject := issuedSub; ir_Audience := cl_ID (q_client rq); ir_Nonce := cb_Nonce r;
       ir_AuthTime := now; ir_AMR := [cibaProvider r]; ir_ACR := ""; ir_Claims := ∅;
       ir_AZP := ""; ir_TTL := 0; ir_AccessToken := accessToken; ir_DeviceSecret := ""; ir_RequestedClaims := "";
       ir_GrantedScopes := cb_Scopes r; ir_GrantedResources := cb_Resources r;
       ir_AuthorizationDetails := ""; ir_SID := ""; ir_ServingRegion := q_region rq |} resp.

Definition cibaFinish d rq (r : CIBARequest) (now : Z) (jkt strategy issuedSub : string) (token : Token) : G body :=
  resp ← cibaIssueRefresh d rq r now jkt (base_response token jkt strategy);
  resp ← cibaIssueIDToken d rq r issuedSub now (tk_AccessToken token) resp;
  _ ← emit (EvTokenIssued (cl_ID (q_client rq)) strategy (cb_SubjectID r));
  _ ← emit (EvSubjectClientAccess (cb_SubjectID r) (cl_ID (q_client rq)));
  _ ← emit (EvCIBADecision (cl_ID (q_client rq)) (cb_SubjectID r) true);
  mret resp.

Definition buildCIBATokenResponse d rq (r : CIBARequest) (now : Z) (jkt x5t : string) : G (option body) :=
  blocked ← lifecycleGrantBlocked d (cb_SubjectID r);
  if (blocked : bool) then mret None else
  issuer ← gets (fun v => dp_IssuerForClient d (sv_x v) (q_client rq));
  match issuer with
  | None => deny 500 ErrNoTokenStrategy
  | Some (strategy, ti) =>
      issuedSub ← gets (fun v => dp_ApplyPairwiseSubject d (sv_x v) (q_client rq) (cb_SubjectID r));
      rejected ← rejectUnregistered d (cb_Scopes r);
      if (rejected : bool) then mret None else
      token ← on_x (ti_Issue ti (cibaSubject rq r issuedSub now jkt x5t) (cb_Scopes r));
      match token with
      | Err e => _ ← emit (EvLog "ciba token issuance failed"); _ ← writeTokenIssueError e; mret None
      | Ok token => resp ← cibaFinish d rq r now jkt strategy issuedSub token; mret (Some resp)
      end
  end.

Definition cibaMintAndRespond d q (r : CIBARequest) (now : Z) : G () :=
  obtain (buildCIBATokenResponse d (cp_base q) r now (q_dpopJKT (cp_base q)) (q_mtlsX5T (cp_base q)))
    (fun resp => respond (ROK resp)).

Definition HandleCIBAGrant d q : G () :=
  obtain (cibaPollGate d q) (fun now =>
  _ ← environment (cp_race q);
  now' ← gets sv_now;
  r ← on_ciba (ConsumeIfApprovedCIBA now' (cp_authReqID q));
  match r with
  | Err _ => respond (RError 400 ErrExpiredToken)
  | Ok r => cibaMintAndRespond d q r now
  end).

(** The push payload carries no sender constraint: there is no client request. *)
Definition MintCIBATokensForPush d rq (r : CIBARequest) (now : Z) : G (option PushPayload) :=
  resp ← buildCIBATokenResponse d rq r now "" "";
  match resp with
  | None => mret None
  | Some resp => mret (Some
      {| pp_AuthReqID := cb_AuthReqID r; pp_AccessToken := str_at KeyAccessToken resp;
         pp_TokenType := str_at KeyTokenType resp; pp_ExpiresIn := cibaRespInt64 resp KeyExpiresIn;
         pp_RefreshToken := str_at KeyRefreshToken resp; pp_IDToken := str_at KeyIDToken resp |})
  end.

(** ** Exactly one answer *)

Lemma resolves_ciba_poll d q : resolves (cibaPollGate d q).
Proof. unfold cibaPollGate. resolving. Qed.
Lemma denies_ciba_poll d q : denies (cibaPollGate d q).
Proof. unfold cibaPollGate. resolving. Qed.
Lemma silent_ciba_finish d rq r now jkt s i t : silent (cibaFinish d rq r now jkt s i t).
Proof. unfold cibaFinish, cibaIssueRefresh, cibaIssueIDToken. count. Qed.

Lemma resolves_build d rq r now jkt x5t : resolves (buildCIBATokenResponse d rq r now jkt x5t).
Proof.
  unfold buildCIBATokenResponse. apply resolves_gate; [auto with snap|].
  apply resolves_silent; [auto with snap|intros [[strategy ti]|]]; [|apply resolves_deny].
  apply resolves_silent; [auto with snap|intros sub].
  apply resolves_gate; [auto with snap|].
  apply resolves_silent; [auto with snap|intros [token|[[st c]|]]];
    [|apply resolves_silent; [auto with snap|intros _; apply resolves_deny]..].
  apply resolves_silent; [apply silent_ciba_finish|intros; apply resolves_some].
Qed.

Lemma denies_build d rq r now jkt x5t : denies (buildCIBATokenResponse d rq r now jkt x5t).
Proof.
  unfold buildCIBATokenResponse. apply denies_gate; [auto with snap..|].
  apply denies_silent; [auto with snap|intros [[strategy ti]|]]; [|apply denies_deny].
  apply denies_silent; [auto with snap|intros sub].
  apply denies_gate; [auto with snap..|].
  apply denies_silent; [auto with snap|intros [token|[[st c]|]]];
    [|apply denies_silent; [auto with snap|intros _; apply denies_deny]..].
  apply denies_silent; [apply silent_ciba_finish|intros; apply denies_some].
Qed.

(** every CIBA poll is answered exactly once, whatever other requests do between
    its read of the request and its consumption. *)
Theorem ciba_answers_once d q w :
  exists r, w_out (HandleCIBAGrant d q w).2 = w_out w ++ [r].
Proof.
  assert (answers_once (HandleCIBAGrant d q)) as H.
  { unfold HandleCIBAGrant. apply once_obtain; [apply resolves_ciba_poll|intros now].
    assert (forall r, answers_once (cibaMintAndRespond d q r now)) as Hm.
    { intros r. apply once_obtain; [apply resolves_build|intros; apply once_respond]. }
    count. }
  destruct (H w) as (rs & Ho & Hl). destruct rs as [|r [|]]; try done. by exists r.
Qed.

(** ** The poll's answers *)

Lemma ciba_poll_run d q w r :
  dp_CIBAStore d = true -> cp_authReqID q <> "" ->
  cbs_entries (sv_ciba (w_srv w)) !! cp_authReqID q = Some r ->
  CIBARequest_IsExpired (sv_now (w_srv w)) r = false -> cb_ClientID r = cl_ID (q_client (cp_base q)) ->
  let now := sv_now (w_srv w) in
  let polled := UpdateLastPollCIBA (cp_authReqID q) now (sv_ciba (w_srv w)) in
  let wp := set_srv (with_ciba polled) w in
  cibaPollGate d q w =
    if ciba_too_soon now r then deny 400 ErrSlowDown wp
    else match cb_Status r with
         | CIBADenied =>
             deny 400 ErrAccessDenied
               {| w_srv := with_ciba (DeleteCIBA (cp_authReqID q) polled) (w_srv wp); w_out := w_out w;
                  w_events := w_events w ++ [EvCIBADecision (cl_ID (q_client (cp_base q))) (cb_SubjectID r) false] |}
         | CIBAApproved => (Some now, wp)
         | CIBAPending => deny 400 ErrAuthorizationPending wp
         end.
Proof.
  intros Hd Hid Hr Hx Hcl now polled wp. unfold cibaPollGate. rewrite Hd, decide_False by done. cbn [negb].
  assert (on_ciba (GetCIBA now (cp_authReqID q)) w = (Ok r, w)) as Hget.
  { unfold on_ciba, GetCIBA. rewrite decide_False, Hr by done. unfold now. rewrite Hx.
    by destruct w as [[] ? ?]. }
  rewrite M_bind_unfold. cbn [gets fst snd]. rewrite M_bind_unfold. fold now. rewrite Hget. cbn [fst snd].
  rewrite bool_decide_eq_true_2 by done. cbn [negb].
  unfold wp, polled. destruct (ciba_too_soon now r); [|destruct (cb_Status r)]; by rewrite !M_bind_unfold.
Qed.

Lemma ciba_poll_refused d q w st c w1 :
  cibaPollGate d q w = deny st c w1 -> w_out w1 = w_out w ->
  w_out (HandleCIBAGrant d q w).2 = w_out w ++ [RError st c] /\
  sv_ciba (w_srv (HandleCIBAGrant d q w).2) = sv_ciba (w_srv w1).
Proof.
  intros E O. unfold HandleCIBAGrant, obtain. rewrite M_bind_unfold, E.
  change (w_out w1 ++ [RError st c] = w_out w ++ [RError st c] /\ sv_ciba (w_srv w1) = sv_ciba (w_srv w1)).
  by rewrite O.
Qed.

(** the CIBA poll answers by the state of the request: an unknown id gets
    expired_token and an expired one too, dropping the entry; another client's request
    gets invalid_grant; a poll closer to the previous one than a positive interval
    gets slow_down and a pending one authorization_pending, both recording the poll's
    time; a denied one gets access_denied, is removed, and the decision is recorded. *)
Theorem ciba_poll_answers d q w :
  dp_CIBAStore d = true -> cp_authReqID q <> "" ->
  let now := sv_now (w_srv w) in let id := cp_authReqID q in let m := sv_ciba (w_srv w) in
  let w' := (HandleCIBAGrant d q w).2 in
  let says e m' := w_out w' = w_out w ++ [RError 400 e] /\ sv_ciba (w_srv w') = m' in
  match cbs_entries m !! id with
  | None => says ErrExpiredToken m
  | Some r =>
      if CIBARequest_IsExpired now r then says ErrExpiredToken (DeleteCIBA id m)
      else if bool_decide (cb_ClientID r <> cl_ID (q_client (cp_base q))) then says ErrInvalidGrant m
      else if ciba_too_soon now r then says ErrSlowDown (UpdateLastPollCIBA id now m)
      else match cb_Status r with
           | CIBAPending => says ErrAuthorizationPending (UpdateLastPollCIBA id now m)
           | CIBADenied =>
               says ErrAccessDenied (DeleteCIBA id (UpdateLastPollCIBA id now m)) /\
               EvCIBADecision (cl_ID (q_client (cp_base q))) (cb_SubjectID r) false ∈ w_events w'
           | CIBAApproved => True
           end
  end.
Proof.
  intros Hd Hid now id m w' says.
  assert (forall g, GetCIBA now id m = g -> cibaPollGate d q w =
    match g with
    | (Err _, m') => deny 400 ErrExpiredToken (set_srv (with_ciba m') w)
    | (Ok r, m') =>
        if bool_decide (cb_ClientID r <> cl_ID (q_client (cp_base q)))
        then deny 400 ErrInvalidGrant (set_srv (with_ciba m') w) else cibaPollGate d q w
    end) as Hgate.
  { intros g Hg. unfold cibaPollGate. rewrite Hd, decide_False by done. cbn [negb].
    assert (on_ciba (GetCIBA now id) w = (g.1, set_srv (with_ciba g.2) w)) as Hget.
    { unfold on_ciba. fold m. rewrite Hg. by destruct g. }
    rewrite M_bind_unfold. cbn [gets fst snd]. rewrite M_bind_unfold. fold now id. rewrite Hget. destruct g as [[r|e] m']; cbn [fst snd]; [|done].
    destruct (decide (cb_ClientID r = cl_ID (q_client (cp_base q)))) as [Hc|Hc].
    - rewrite (bool_decide_eq_false_2 (cb_ClientID r <> _)); [done|]. by intros Hn.
    - by rewrite (bool_decide_eq_true_2 (cb_ClientID r <> _)), bool_decide_eq_false_2. }
  specialize (Hgate _ eq_refl). unfold GetCIBA in Hgate. rewrite decide_False in Hgate by done.
  destruct (cbs_entries m !! id) as [r|] eqn:Hr; [|by apply (ciba_poll_refused _ _ _ _ _ _ Hgate)].
  destruct (CIBARequest_IsExpired now r) eqn:Hx; [by apply (ciba_poll_refused _ _ _ _ _ _ Hgate)|].
  case_bool_decide as Hcl; [by apply (ciba_poll_refused _ _ _ _ _ _ Hgate)|].
  pose proof (ciba_poll_run d q w r Hd Hid Hr Hx Hcl) as Hrun. cbn zeta in Hrun. fold now id m in Hrun.
  destruct (ciba_too_soon now r); [by apply (ciba_poll_refused _ _ _ _ _ _ Hrun)|].
  destruct (cb_Status r); [by apply (ciba_poll_refused _ _ _ _ _ _ Hrun)|done|].
  split; [by apply (ciba_poll_refused _ _ _ _ _ _ Hrun)|].
  unfold w', HandleCIBAGrant, obtain. rewrite M_bind_unfold, Hrun. cbn. set_solver.
Qed.

(** ** Success *)

Lemma ciba_poll_passed d q w now w1 :
  cibaPollGate d q w = (Some now, w1) ->
  now = sv_now (w_srv w) /\
  w1 = set_srv (with_ciba (UpdateLastPollCIBA (cp_authReqID q) now (sv_ciba (w_srv w)))) w /\
  exists r, cbs_entries (sv_ciba (w_srv w)) !! cp_authReqID q = Some r /\
    CIBARequest_IsExpired now r = false /\ cb_ClientID r = cl_ID (q_client (cp_base q)) /\
    ciba_too_soon now r = false /\ cb_Status r = CIBAApproved.
Proof.
  intros E. destruct (dp_CIBAStore d) eqn:Hd; [|by unfold cibaPollGate in E; rewrite Hd in E].
  destruct (decide (cp_authReqID q = "")) as [Hid|Hid].
  { unfold cibaPollGate in E. by rewrite Hd, decide_True in E. }
  assert (exists r, cbs_entries (sv_ciba (w_srv w)) !! cp_authReqID q = Some r /\
    CIBARequest_IsExpired (sv_now (w_srv w)) r = false /\ cb_ClientID r = cl_ID (q_client (cp_base q)))
    as (r & Hr & Hx & Hcl).
  { unfold cibaPollGate in E. rewrite Hd, decide_False in E by done. cbn [negb] in E.
    rewrite M_bind_unfold in E. cbn [gets fst snd] in E. rewrite M_bind_unfold in E.
    unfold on_ciba at 1 2 in E. unfold GetCIBA in E. rewrite decide_False in E by done.
    destruct (cbs_entries (sv_ciba (w_srv w)) !! cp_authReqID q) as [r|]; [|done].
    destruct (CIBARequest_IsExpired _ r) eqn:Hx; [done|]. cbn [fst snd] in E.
    destruct (bool_decide (cb_ClientID r = _)) eqn:Hc; [|done]. apply bool_decide_eq_true in Hc. eauto. }
  rewrite (ciba_poll_run d q w r Hd Hid Hr Hx Hcl) in E. cbn zeta in E.
  destruct (ciba_too_soon _ r) eqn:E1; [done|]. destruct (cb_Status r) eqn:E2; [done| |done].
  injection E as <- <-. split_and!; [done..|]. by exists r.
Qed.

Context {Laws : RefreshTokenStoreLaws St}.

Definition ciba_refresh rq (r : CIBARequest) (issuedAt authTime : Z) (jkt : string) (i : RefreshToken) : Prop :=
  deviceClientAllowsRefresh (q_client rq) = true /\
  opens_family (q_draws rq) issuedAt (cb_SubjectID r) (q_client rq) (cb_Scopes r) (cb_Resources r) [] authTime jkt i.

Lemma cibaRefresh_part d rq r now jkt resp w :
  let m := cibaIssueRefresh d rq r now jkt resp w in
  refresh_part (ciba_refresh rq r (sv_now (w_srv w)) now jkt) resp m.1 (sv_refresh (w_srv w)) (sv_refresh (w_srv m.2)).
Proof.
  unfold cibaIssueRefresh, ciba_refresh, deviceClientAllowsRefresh. cbn zeta.
  destruct (bool_decide (cl_GrantTypes _ = []) || contains _ _) eqn:E2;
    rewrite <- negb_orb, E2; cbn [negb orb]; [|apply refresh_part_none].
  destruct (dp_RefreshTokenStore d); cbn [negb]; [|apply refresh_part_none].
  eapply refresh_part_mono; [|apply record_first_issue]. auto.
Qed.

Lemma ciba_finish_spec d rq r now jkt strategy sub token w :
  let m := cibaFinish d rq r now jkt strategy sub token w in
  m.1 !! KeyAccessToken = Some (VStr (tk_AccessToken token)) /\
  refresh_outcome (ciba_refresh rq r (sv_now (w_srv w)) now jkt) m.1 (sv_refresh (w_srv w)) (sv_refresh (w_srv m.2)) /\
  (m.1 !! KeyIDToken <> None -> ScopeOpenID ∈ cb_Scopes r).
Proof.
  unfold cibaFinish. cbn zeta. rewrite !M_bind_unfold. set (resp0 := base_response token jkt strategy).
  pose proof (cibaRefresh_part d rq r now jkt resp0 w) as HR.
  destruct (cibaIssueRefresh d rq r now jkt resp0 w) as [resp1 w1]. cbn [fst snd emit mret M_ret] in *.
  set (idt := cibaIssueIDToken d rq r sub now (tk_AccessToken token) resp1).
  assert (frame sv_refresh idt) as Hf.
  { unfold idt, cibaIssueIDToken. split_if; [framing|]. by apply frame_id_token. }
  assert (with_id_token resp1 (idt w1).1 /\ ((idt w1).1 !! KeyIDToken <> None -> resp1 !! KeyIDToken = None -> ScopeOpenID ∈ cb_Scopes r)) as [HI HO].
  { unfold idt, cibaIssueIDToken. destruct (contains _ ScopeOpenID) eqn:E; cbn [negb].
    - apply contains_spec in E. split; [apply id_token_spec|done].
    - split; [by left|]. cbn. congruence. }
  specialize (Hf w1). destruct (idt w1) as [resp2 w2]. cbn [fst snd w_srv] in *.
  pose proof (fun k => with_id_token_lookup resp1 resp2 k HI) as HL.
  pose proof (fun k => refresh_part_lookup _ _ _ _ _ k HR) as HR'.
  split_and!.
  - rewrite HL, HR' by done. apply base_response_access.
  - rewrite Hf. eapply refresh_part_outcome; [apply base_response_refresh|exact HR|]. by rewrite HL.
  - intros Hk. apply HO; [done|]. rewrite HR' by done. apply base_response_id.
Qed.

(** A CIBA token minted for the request [r] on the server [v], authenticated at [now]. *)
Definition ciba_minted d rq (r : CIBARequest) (now : Z) (jkt x5t : string) (v : Server St X) (w' : World St X)
    (b : body) : Prop :=
  lifecycle_ok d (sv_x v) (cb_SubjectID r) /\ RejectUnregistered (dp_ScopeRegistry d) (cb_Scopes r) = None /\
  (exists strategy ti token x', dp_IssuerForClient d (sv_x v) (q_client rq) = Some (strategy, ti) /\
     ti_Issue ti (cibaSubject rq r (dp_ApplyPairwiseSubject d (sv_x v) (q_client rq) (cb_SubjectID r)) now jkt x5t)
       (cb_Scopes r) (sv_x v) = (Ok token, x') /\
     b !! KeyAccessToken = Some (VStr (tk_AccessToken token))) /\
  refresh_outcome (ciba_refresh rq r (sv_now v) now jkt) b (sv_refresh v) (sv_refresh (w_srv w')) /\
  (b !! KeyIDToken <> None -> ScopeOpenID ∈ cb_Scopes r) /\ sv_ciba (w_srv w') = sv_ciba v.

Lemma frame_ciba_finish d rq r now jkt s i t : frame one_shots (cibaFinish d rq r now jkt s i t).
Proof.
  unfold cibaFinish, cibaIssueRefresh, cibaIssueIDToken, record_refresh.
  repeat first [apply frame_id_token; intros; reflexivity | progress framing].
Qed.

Lemma build_ok d rq r now jkt x5t w b w' :
  buildCIBATokenResponse d rq r now jkt x5t w = (Some b, w') -> ciba_minted d rq r now jkt x5t (w_srv w) w' b.
Proof.
  intros Hw. unfold buildCIBATokenResponse in Hw.
  apply gate_passed in Hw as (w1 & Hg & _ & Hw); [|auto with snap].
  apply lifecycle_false in Hg as [-> Hlife]. unfold ciba_minted. split; [done|].
  rewrite M_bind_unfold in Hw. cbn [gets fst snd] in Hw.
  destruct (dp_IssuerForClient _ _ _) as [[strategy ti]|] eqn:Hi; [|done].
  rewrite M_bind_unfold in Hw. cbn [gets fst snd] in Hw.
  apply gate_passed in Hw as (w1 & Hg & _ & Hw); [|auto with snap].
  apply rejectUnregistered_false in Hg as [-> Hreg]. split; [done|].
  rewrite M_bind_unfold in Hw. unfold on_x in Hw.
  destruct (ti_Issue ti _ _ _) as [[token|e] x'] eqn:Ht; cbn [fst snd] in Hw.
  2:{ rewrite !M_bind_unfold in Hw. by destruct e as [[st c]|]. }
  rewrite M_bind_unfold in Hw.
  match type of Hw with context [cibaFinish d rq r now jkt strategy ?s token ?w0] => set (sub := s) in *; set (wt := w0) in * end.
  pose proof (ciba_finish_spec d rq r now jkt strategy sub token wt) as (F1 & F2 & F3).
  pose proof (frame_ciba_finish d rq r now jkt strategy sub token wt) as Hf.
  set (m := cibaFinish d rq r now jkt strategy sub token wt) in *. clearbody m. injection Hw as <- <-.
  unfold one_shots in Hf.
  split_and!; [by exists strategy, ti, token, x'|exact F2|exact F3|]. by injection Hf.
Qed.

(** a CIBA token is minted only for an approved request, and once: a poll answered
    with 200 found its own client's request live, approved and not polled too soon;
    whatever other requests did before it consumed it, at that instant it was still
    there, approved and unexpired, and afterwards it is gone; the token is minted for
    the consumed request's subject, who may authenticate, and a refresh token opens a
    fresh family for a client allowed to refresh, bound to the DPoP key. *)
Theorem ciba_grant_sound d q w w' b :
  HandleCIBAGrant d q w = ((), w') -> w_out w' = w_out w ++ [ROK b] ->
  let now := sv_now (w_srv w) in let id := cp_authReqID q in
  (exists r, cbs_entries (sv_ciba (w_srv w)) !! id = Some r /\ CIBARequest_IsExpired now r = false /\
     cb_ClientID r = cl_ID (q_client (cp_base q)) /\ ciba_too_soon now r = false /\ cb_Status r = CIBAApproved) /\
  let v := cp_race q (with_ciba (UpdateLastPollCIBA id now (sv_ciba (w_srv w))) (w_srv w)) in
  exists r, cbs_entries (sv_ciba v) !! id = Some r /\ cb_Status r = CIBAApproved /\
    CIBARequest_IsExpired (sv_now v) r = false /\ cbs_entries (sv_ciba (w_srv w')) !! id = None /\
    ciba_minted d (cp_base q) r now (q_dpopJKT (cp_base q)) (q_mtlsX5T (cp_base q))
      (with_ciba (ConsumeIfApprovedCIBA (sv_now v) id (sv_ciba v)).2 v) w' b.
Proof.
  intros Hw Ho now id. unfold HandleCIBAGrant in Hw.
  eapply obtain_ok in Hw as (n & w1 & Hg & O1 & Hw); [|apply resolves_ciba_poll|apply denies_ciba_poll|exact Ho].
  apply ciba_poll_passed in Hg as (-> & -> & Hr). fold now id in Hr, Hw. split; [exact Hr|]. intros v.
  rewrite <- O1 in Ho. rewrite !M_bind_unfold in Hw. cbn [environment gets fst snd set_srv w_srv] in Hw. fold v in Hw.
  unfold on_ciba in Hw. cbn [set_srv w_srv] in Hw. fold v in Hw.
  destruct (ConsumeIfApprovedCIBA _ _ _) as [[r|e] m] eqn:Hc; cbn [fst snd] in Hw.
  2:{ injection Hw as <-. by eapply ok_not_error; [apply error_is_error| |exact Ho]. }
  assert (cbs_entries (sv_ciba v) !! id = Some r /\ cb_Status r = CIBAApproved /\
    CIBARequest_IsExpired (sv_now v) r = false /\ cbs_entries m !! id = None) as (H1 & H2 & H3 & H4).
  { unfold ConsumeIfApprovedCIBA in Hc. destruct (decide (id = "")); [done|].
    destruct (cbs_entries (sv_ciba v) !! id) as [r0|]; [|done].
    destruct (CIBARequest_IsExpired _ r0) eqn:Hx; [done|].
    destruct (bool_decide (cb_Status r0 <> CIBAApproved)) eqn:Hs; [done|].
    apply bool_decide_eq_false, dec_stable in Hs. injection Hc as -> <-. split_and!; try done.
    cbn [with_entries cbs_entries]. apply lookup_delete_eq. }
  exists r. unfold cibaMintAndRespond in Hw.
  eapply obtain_ok in Hw as (b' & w1 & Hb & O2 & Hw); [|apply resolves_build|apply denies_build|exact Ho].
  injection Hw as <-. apply build_ok in Hb. cbn [respond snd w_out] in Ho. rewrite O2 in Ho.
  apply (inj _) in Ho. injection Ho as <-. split_and!; try done.
  destruct Hb as (_ & _ & _ & _ & _ & Hciba). cbn [respond snd w_srv]. rewrite Hciba. exact H4.
Qed.

(** the push payload is the poll response without sender constraint: from the same
    server, minting for push gives exactly the access token, type, lifetime, refresh
    and ID token that a poll without DPoP or mTLS would be answered with, and leaves
    the server the same. *)
Theorem ciba_push_agrees d rq r now w b w' :
  q_dpopJKT rq = "" -> q_mtlsX5T rq = "" ->
  buildCIBATokenResponse d rq r now (q_dpopJKT rq) (q_mtlsX5T rq) w = (Some b, w') ->
  exists p, MintCIBATokensForPush d rq r now w = (Some p, w') /\ pp_AuthReqID p = cb_AuthReqID r /\
    b !! KeyAccessToken = Some (VStr (pp_AccessToken p)) /\
    pp_RefreshToken p = str_at KeyRefreshToken b /\ pp_IDToken p = str_at KeyIDToken b /\
    exists strategy ti token x', dp_IssuerForClient d (sv_x (w_srv w)) (q_client rq) = Some (strategy, ti) /\
      ti_Issue ti (cibaSubject rq r (dp_ApplyPairwiseSubject d (sv_x (w_srv w)) (q_client rq) (cb_SubjectID r))
        now "" "") (cb_Scopes r) (sv_x (w_srv w)) = (Ok token, x') /\
      pp_AccessToken p = tk_AccessToken token.
Proof.
  intros -> -> Hb. unfold MintCIBATokensForPush. rewrite M_bind_unfold, Hb. eexists. split; [reflexivity|].
  apply build_ok in Hb as (_ & _ & (strategy & ti & token & x' & Hi & Ht & Ha) & _). cbn.
  assert (str_at KeyAccessToken b = tk_AccessToken token) as Hs by (unfold str_at; by rewrite Ha).
  split_and!; [done|by rewrite Hs|done..|]. by exists strategy, ti, token, x'.
Qed.
End ciba.

(** ** Witnesses *)

Definition bank_ciba : CIBARequest := {|
  cb_AuthReqID := ""; cb_ClientID := "app"; cb_SubjectID := "alice"; cb_Provider := "";
  cb_Scopes := ["openid"]; cb_ACRValues := "loa2"; cb_BindingMessage := ""; cb_Resources := [];
  cb_Nonce := ""; cb_ClientNotificationToken := ""; cb_RequestContext := ""; cb_Status := CIBAPending;
  cb_Interval := 5; cb_LastPoll := 0; cb_CreatedAt := 1; cb_ExpiresAt := 1000 |}.

Definition bank_store (st : CIBAStatus) : MemoryCIBAStore :=
  (SetStatus "ciba_r1" st (IssueCIBA 10 (Some "r1") (Some bank_ciba) NewMemoryCIBAStore).2).2.

Definition ciba_world (m : MemoryCIBAStore) : World MemoryRefreshTokenStore () := {|
  w_srv := {| sv_now := 100; sv_refresh := NewMemoryRefreshTokenStore 0 0 0; sv_grace := None;
              sv_codes := NewMemoryAuthCodeStore 0; sv_devices := NewMemoryDeviceCodeStore 0; sv_ciba := m;
              sv_secrets := {| dss_secrets := ∅ |}; sv_x := () |};
  w_out := []; w_events := [] |}.

Definition bank_poll : @CibaPoll MemoryRefreshTokenStore () :=
  {| cp_base := sample_request "rt-1"; cp_authReqID := "ciba_r1"; cp_race := id |}.

Lemma ciba_poll_answers_witness :
  w_out (HandleCIBAGrant sample_deps bank_poll (ciba_world (bank_store CIBADenied))).2 =
    [RError 400 ErrAccessDenied] /\
  cbs_entries (sv_ciba (w_srv (HandleCIBAGrant sample_deps bank_poll (ciba_world (bank_store CIBADenied))).2))
    !! "ciba_r1" = None.
Proof.
  pose proof (ciba_poll_answers sample_deps bank_poll (ciba_world (bank_store CIBADenied))) as H.
  destruct H as [[H1 H2] _].
  - reflexivity.
  - discriminate.
  - split; [exact H1|]. rewrite H2. vm_compute. reflexivity.
Defined.

Lemma ciba_success_computed :
  exists b, w_out (HandleCIBAGrant sample_deps bank_poll (ciba_world (bank_store CIBAApproved))).2 = [ROK b].
Proof.
  assert (match w_out (HandleCIBAGrant sample_deps bank_poll (ciba_world (bank_store CIBAApproved))).2 with
          | [ROK _] => True | _ => False end) as H by (vm_compute; exact I).
  destruct (w_out _) as [|[|b] [|]]; [done..|by exists b|done].
Qed.

Lemma ciba_grant_sound_witness :
  exists b w', HandleCIBAGrant sample_deps bank_poll (ciba_world (bank_store CIBAApproved)) = ((), w') /\
    w_out w' = [ROK b] /\ cbs_entries (sv_ciba (w_srv w')) !! "ciba_r1" = None.
Proof.
  destruct ciba_success_computed as (b & Hb). exists b.
  set (w' := (HandleCIBAGrant sample_deps bank_poll (ciba_world (bank_store CIBAApproved))).2). exists w'.
  assert (HandleCIBAGrant sample_deps bank_poll (ciba_world (bank_store CIBAApproved)) = ((), w')) as Hw.
  { unfold w'. destruct (HandleCIBAGrant _ _ _) as [[] w1]. reflexivity. }
  destruct (ciba_grant_sound sample_deps bank_poll (ciba_world (bank_store CIBAApproved)) w' b Hw Hb)
    as (_ & r & _ & _ & _ & Hgone & _).
  split_and!; [exact Hw|exact Hb|exact Hgone].
Defined.

Lemma ciba_push_agrees_witness :
  exists p w', MintCIBATokensForPush sample_deps (sample_request "rt-1") bank_ciba 100
      (ciba_world NewMemoryCIBAStore) = (Some p, w') /\ pp_AuthReqID p = cb_AuthReqID bank_ciba.
Proof.
  destruct (buildCIBATokenResponse sample_deps (sample_request "rt-1") bank_ciba 100 "" ""
    (ciba_world NewMemoryCIBAStore)) as [[b|] w'] eqn:Hb.
  - destruct (ciba_push_agrees sample_deps (sample_request "rt-1") bank_ciba 100 (ciba_world NewMemoryCIBAStore) b w')
      as (p & Hp & Hid & _).
    + reflexivity.
    + reflexivity.
    + exact Hb.
    + exists p, w'. split; [exact Hp|exact Hid].
  - assert (is_Some (buildCIBATokenResponse sample_deps (sample_request "rt-1") bank_ciba 100 "" ""
      (ciba_world NewMemoryCIBAStore)).1) as Hs by (vm_compute; eexists; reflexivity).
    rewrite Hb in Hs. destruct Hs as [? Hs]. discriminate Hs.
Defined.
