(* ===== verification/ClientCreds.v ===== *)
(** * ClientCreds: the client_credentials grant and the validity of its cached
    responses ([tokengrant/token_client_credentials.go]). *)
From S2P Require Import Prelude Core Lifecycle RefreshStore CodeStores DeviceCodes CibaStore Issue RefreshIface GraceCache Scopes GrantCore GrantMint.
Local Open Scope Z_scope.

Section creds.
Context {St X : Type}.
Abbreviation G A := (M (World St X) A).
Implicit Types (d : Deps X) (rq : Request).

Definition clientSubject rq (resources : list string) : Subject :=
  let client := q_client rq in
  {| su_ID := cl_ID client; su_Provider := ""; su_Claims := ∅; su_Resources := resources;
     su_ClientID := cl_ID client; su_AuthTime := 0; su_AMR := []; su_ACR := "";
     su_AuthorizationDetails := ""; su_TTL := cl_AccessTokenTTL client; su_SID := "";
     su_ServingRegion := q_region rq; su_TenantID := cl_TenantID client; su_Roles := [];
     su_ConfirmationJKT := q_dpopJKT rq; su_ConfirmationX5TS256 := q_mtlsX5T rq;
     su_NotAfter := q_notAfter rq; su_Actor := ActorNil; su_RequestedClaims := "" |}.

Definition HandleClientCredentialsGrant d rq (scopes resources : list string) : G () :=
  issuer ← gets (fun v => dp_IssuerForClient d (sv_x v) (q_client rq));
  match issuer with
  | None => respond (RError 500 ErrNoTokenStrategy)
  | Some (strategy, ti) =>
      match GrantedScopes scopes (Some (q_client rq)) with
      | Err _ => respond (RError 400 ErrInvalidScope)
      | Ok granted =>
          unless (rejectUnregistered d granted) (
          token ← on_x (ti_Issue ti (clientSubject rq resources) granted);
          match token with
          | Err e => _ ← emit (EvLog "token issuance failed"); writeTokenIssueError e
          | Ok token =>
              _ ← emit (EvTokenIssued (cl_ID (q_client rq)) strategy (cl_ID (q_client rq)));
              respond (ROK (base_response token (q_dpopJKT rq) strategy))
          end)
      end
  end.

(** [cached] is the decoded cache entry, [None] when [json.Unmarshal] fails. *)
Definition CachedClientCredentialsValid d (client : Client) (scope : string) (cached : option Token)
    (v : Server St X) : bool :=
  match cached with
  | None => false
  | Some token =>
      if decide (tk_AccessToken token = "") then false
      else match GrantedScopes (Str.fields scope) (Some client) with
           | Err _ => false
           | Ok scopes =>
               if negb (bool_decide (Str.join scopes = tk_Scope token)) then false
               else if negb (bool_decide (length (FilterRegistered (dp_ScopeRegistry d) scopes) = length scopes))
               then false
               else match dp_IssuerForClient d (sv_x v) client with
                    | None => false
                    | Some (_, issuer) =>
                        match ti_Validate issuer (sv_x v) (tk_AccessToken token) with
                        | Ok (Some claims) => bool_decide (tc_ClientID claims = cl_ID client) &&
                                              bool_decide (tc_TenantID claims = cl_TenantID client)
                        | _ => false
                        end
                    end
           end
  end.

Lemma FilterRegistered_all reg scopes :
  length (FilterRegistered reg scopes) = length scopes <-> RejectUnregistered reg scopes = None.
Proof.
  destruct reg as [m|]; simpl; [|done]. split.
  - intros Hlen. destruct (forallb (Registered m) scopes) eqn:E; [done|]. exfalso.
    apply not_true_iff_false in E. apply E. apply forallb_forall. intros s Hs.
    destruct (Registered m s) eqn:Hr; [done|]. exfalso.
    apply list_elem_of_In in Hs. apply list_elem_of_split in Hs as (l1 & l2 & ->).
    rewrite filter_app, filter_cons_False, !length_app in Hlen by congruence. cbn in Hlen.
    pose proof (length_filter (fun s => Registered m s = true) l1).
    pose proof (length_filter (fun s => Registered m s = true) l2). lia.
  - destruct (forallb (Registered m) scopes) eqn:E; [|done]. intros _.
    rewrite forallb_forall in E. f_equal. induction scopes as [|s l IH]; [done|].
    rewrite filter_cons_True by (apply E; by left). f_equal. apply IH. intros x Hx. apply E. by right.
Qed.

Lemma granted_run d rq scopes resources w strategy ti granted :
  dp_IssuerForClient d (sv_x (w_srv w)) (q_client rq) = Some (strategy, ti) ->
  GrantedScopes scopes (Some (q_client rq)) = Ok granted ->
  RejectUnregistered (dp_ScopeRegistry d) granted = None ->
  (HandleClientCredentialsGrant d rq scopes resources w).2 =
  let r := ti_Issue ti (clientSubject rq resources) granted (sv_x (w_srv w)) in
  let wi := set_srv (with_x r.2) w in
  match r.1 with
  | Err e => (writeTokenIssueError e (emit (EvLog "token issuance failed") wi).2).2
  | Ok token =>
      (respond (ROK (base_response token (q_dpopJKT rq) strategy))
        (emit (EvTokenIssued (cl_ID (q_client rq)) strategy (cl_ID (q_client rq))) wi).2).2
  end.
Proof.
  intros Hi Hg Hr. unfold HandleClientCredentialsGrant. rewrite M_bind_unfold. cbn [gets fst snd].
  rewrite Hi, Hg. unfold unless. rewrite M_bind_unfold. unfold rejectUnregistered. rewrite Hr.
  cbn [mret M_ret fst snd]. rewrite M_bind_unfold. unfold on_x.
  by destruct (ti_Issue ti _ _ _) as [[token|e] x'].
Qed.

(** the client_credentials grant acts for the client alone: when it answers with
    200, the access token is minted for the client itself, with scopes the client may
    have and the registry knows, without any user, and no refresh or ID token comes
    with it; whatever the answer, no store changes. *)
Theorem client_credentials_sound d rq scopes resources w :
  let w' := (HandleClientCredentialsGrant d rq scopes resources w).2 in
  minted (w_srv w') = minted (w_srv w) /\ one_shots (w_srv w') = one_shots (w_srv w) /\
  exists r, w_out w' = w_out w ++ [r] /\
    forall b, r = ROK b ->
      b !! KeyRefreshToken = None /\ b !! KeyIDToken = None /\
      exists granted strategy ti token x', GrantedScopes scopes (Some (q_client rq)) = Ok granted /\
        RejectUnregistered (dp_ScopeRegistry d) granted = None /\
        dp_IssuerForClient d (sv_x (w_srv w)) (q_client rq) = Some (strategy, ti) /\
        ti_Issue ti (clientSubject rq resources) granted (sv_x (w_srv w)) = (Ok token, x') /\
        b !! KeyAccessToken = Some (VStr (tk_AccessToken token)).
Proof.
  intros w'.
  assert (forall T (p : Server St X -> T), (forall x v, p (with_x x v) = p v) ->
    frame p (HandleClientCredentialsGrant d rq scopes resources)) as Hf.
  { intros T p Hp. unfold HandleClientCredentialsGrant. repeat first [by apply frame_on_x | progress framing]. }
  split; [by apply Hf|]. split; [by apply Hf|].
  unfold w'. destruct (dp_IssuerForClient d (sv_x (w_srv w)) (q_client rq)) as [[strategy ti]|] eqn:Hi.
  2:{ unfold HandleClientCredentialsGrant. rewrite M_bind_unfold. cbn [gets fst snd]. rewrite Hi. by eexists. }
  destruct (GrantedScopes scopes (Some (q_client rq))) as [granted|e] eqn:Hg.
  2:{ unfold HandleClientCredentialsGrant. rewrite M_bind_unfold. cbn [gets fst snd]. rewrite Hi, Hg. by eexists. }
  destruct (RejectUnregistered (dp_ScopeRegistry d) granted) as [r|] eqn:Hr.
  { unfold HandleClientCredentialsGrant. rewrite M_bind_unfold. cbn [gets fst snd]. rewrite Hi, Hg.
    unfold unless. rewrite M_bind_unfold. unfold rejectUnregistered. rewrite Hr. exists r. split; [done|].
    intros b ->. unfold RejectUnregistered in Hr. destruct (dp_ScopeRegistry d); [|done]. by split_if. }
  rewrite (granted_run d rq scopes resources w strategy ti granted Hi Hg Hr). cbn zeta.
  destruct (ti_Issue ti _ _ _) as [[token|e] x'] eqn:Ht; cbn [fst snd].
  - eexists. split; [done|]. intros b [= <-].
    split_and!; [apply base_response_refresh|apply base_response_id|].
    exists granted, strategy, ti, token, x'. split_and!; [done..|apply base_response_access].
  - match goal with |- context [writeTokenIssueError e ?w2] => destruct (writeIssueError_error e w2) as (r & Hre & Hout) end.
    exists r. split; [exact Hout|]. intros b ->. destruct Hre as (? & ? & Hre). discriminate Hre.
Qed.

(** a cached client_credentials response is served only where a fresh one would be
    issued: if the cached token is accepted for a request, then the grant would not
    refuse that request (it is answered by the issuer, for the same scopes as the
    cached token's), and the cached token validates for this very client and tenant. *)
Theorem cached_credentials_sound d rq scope cached w resources :
  CachedClientCredentialsValid d (q_client rq) scope cached (w_srv w) = true ->
  exists token granted strategy ti claims, cached = Some token /\ tk_AccessToken token <> "" /\
    Str.join granted = tk_Scope token /\
    ti_Validate ti (sv_x (w_srv w)) (tk_AccessToken token) = Ok (Some claims) /\
    tc_ClientID claims = cl_ID (q_client rq) /\ tc_TenantID claims = cl_TenantID (q_client rq) /\
    forall fresh x', ti_Issue ti (clientSubject rq resources) granted (sv_x (w_srv w)) = (Ok fresh, x') ->
      w_out (HandleClientCredentialsGrant d rq (Str.fields scope) resources w).2 =
        w_out w ++ [ROK (base_response fresh (q_dpopJKT rq) strategy)].
Proof.
  unfold CachedClientCredentialsValid. destruct cached as [token|]; [|done].
  destruct (decide (tk_AccessToken token = "")) as [|Ht]; [done|].
  destruct (GrantedScopes (Str.fields scope) _) as [granted|] eqn:Hg; [|done].
  destruct (bool_decide (Str.join granted = _)) eqn:Hj; [|done]. cbn [negb].
  destruct (bool_decide (length _ = length granted)) eqn:Hl; [|done]. cbn [negb].
  destruct (dp_IssuerForClient _ _ _) as [[strategy ti]|] eqn:Hi; [|done].
  destruct (ti_Validate ti _ _) as [[claims|]|] eqn:Hv; [|done..]. intros Hc. bool_simpl.
  exists token, granted, strategy, ti, claims. split_and!; try done. intros fresh x' Hfresh.
  apply FilterRegistered_all in Hl.
  rewrite (granted_run d rq (Str.fields scope) resources w strategy ti granted Hi Hg Hl). cbn zeta.
  rewrite Hfresh. done.
Qed.
End creds.

(** ** Witness *)

Lemma cached_credentials_sound_witness :
  exists token granted strategy ti claims, Some {| tk_AccessToken := "at"; tk_TokenType := "Bearer";
      tk_RefreshToken := ""; tk_ExpiresIn := 300; tk_Scope := "read"; tk_CreatedAt := 0 |} = Some token /\
    tk_AccessToken token <> "" /\ Str.join granted = tk_Scope token /\
    ti_Validate ti () (tk_AccessToken token) = Ok (Some claims) /\ tc_ClientID claims = "app" /\
    tc_TenantID claims = "" /\
    forall fresh x', ti_Issue ti (clientSubject (sample_request "rt") []) granted () = (Ok fresh, x') ->
      w_out (HandleClientCredentialsGrant sample_deps (sample_request "rt") ["read"] []
        (sample_world () None 100)).2 = [ROK (base_response fresh "" strategy)].
Proof.
  apply (cached_credentials_sound sample_deps (sample_request "rt") "read" (Some {| tk_AccessToken := "at";
    tk_TokenType := "Bearer"; tk_RefreshToken := ""; tk_ExpiresIn := 300; tk_Scope := "read"; tk_CreatedAt := 0 |})
    (sample_world () None 100) []).
  vm_compute. reflexivity.
Defined.
