(* ===== verification/MetadataPolicy.v ===== *)
(** * MetadataPolicy: OpenID Federation metadata policies
    ([domains/federation/metadatapolicy], [domains/federation/metadata_policy.go]).

    The policies of the statements of a trust chain are merged from the anchor
    down, checked for consistency, and applied to the leaf's metadata.  A value
    decoded from JSON is a [json]; the lists the merge computes itself have Go's
    type [[]string], told apart from a decoded array as [reflect.DeepEqual] does.
    A Go map ranges in no fixed order; the loops here use one, and no theorem
    depends on which (only which of several errors is reported would). *)
From S2P Require Import Prelude.
Local Open Scope Z_scope.

(** A number is its float64 (JSON has no NaN, and -0 equals 0, so [==] is equality);
    an object is the list of its members in key order. *)
#[warnings="-register-all"]
Inductive json :=
| JNull
| JBool (b : bool)
| JNum (float : Z)
| JStr (s : string)
| JArr (l : list json)
| JObj (members : list (string * json))
| JStrs (l : list string).

#[export] Instance json_eq_dec : EqDecision json.
Proof.
  refine (fix go (x y : json) : Decision (x = y) :=
    let dec : EqDecision json := @go in
    match x, y with
    | JNull, JNull => left eq_refl
    | JBool b, JBool c => cast_if (decide (b = c))
    | JNum n, JNum m => cast_if (decide (n = m))
    | JStr s, JStr t => cast_if (decide (s = t))
    | JArr l, JArr k => cast_if (decide (l = k))
    | JObj l, JObj k => cast_if (decide (l = k))
    | JStrs l, JStrs k => cast_if (decide (l = k))
    | _, _ => right _
    end); clear dec go; abstract congruence.
Defined.

Inductive policy_error :=
| ErrUnknownOperator | ErrOperandShape | ErrMergeConflict | ErrInconsistent | ErrViolation | ErrEssentialMissing.

Abbreviation paramPolicy := (gmap string json).
Abbreviation metadata := (gmap string json).

Definition opValue : string := "value".
Definition opAdd : string := "add".
Definition opDefault : string := "default".
Definition opOneOf : string := "one_of".
Definition opSubsetOf : string := "subset_of".
Definition opSupersetOf : string := "superset_of".
Definition opEssential : string := "essential".

Definition isKnownOperator (op : string) : bool :=
  contains [opValue; opAdd; opDefault; opOneOf; opSubsetOf; opSupersetOf; opEssential] op.

(** ** Operands *)

Fixpoint arr_strings (l : list json) : result policy_error (list string) :=
  match l with
  | [] => Ok []
  | JStr s :: l => t ← arr_strings l; Ok (s :: t)
  | _ :: _ => Err ErrOperandShape
  end.

Definition toStringSlice (v : json) : result policy_error (list string) :=
  match v with
  | JNull => Ok []
  | JStrs l => Ok l
  | JStr s => Ok [s]
  | JArr l => arr_strings l
  | _ => Err ErrOperandShape
  end.

Definition containsString (l : list string) (s : string) : bool := contains l s.

(** [reflect.DeepEqual]. *)
Definition valuesEqual (a b : json) : bool := bool_decide (a = b).

Definition appendUnique (existing : json) (additions : list string) : list string :=
  let cur := match toStringSlice existing with Ok cur => cur | Err _ => [] end in
  dedup_onto (dedup_onto [] cur) additions.

(** ** Merging *)

Definition unionStringSlices (prev next : json) : result policy_error json :=
  ns ← toStringSlice next;
  match prev with
  | JNull => Ok (JStrs (dedup_onto [] ns))
  | _ => ps ← toStringSlice prev; Ok (JStrs (dedup_onto (dedup_onto [] ps) ns))
  end.

Definition intersectStringSlices (prev next : json) (hasPrev : bool) : result policy_error json :=
  ns ← toStringSlice next;
  if negb hasPrev then Ok (JStrs ns)
  else
    ps ← toStringSlice prev;
    let inter := filter (fun n => n ∈ ps) ns in
    match inter with [] => Err ErrMergeConflict | _ => Ok (JStrs inter) end.

Definition combineOperator (op : string) (prev next : json) (hasPrev : bool) : result policy_error json :=
  if decide (op = opValue \/ op = opDefault) then
    if hasPrev && negb (valuesEqual prev next) then Err ErrMergeConflict else Ok next
  else if decide (op = opEssential) then
    let pb := match prev with JBool b => b | _ => false end in
    match next with JBool nb => Ok (JBool (pb || nb)) | _ => Err ErrOperandShape end
  else if decide (op = opAdd) then unionStringSlices prev next
  else if decide (op = opSupersetOf) then unionStringSlices prev next
  else if decide (op = opOneOf) then intersectStringSlices prev next hasPrev
  else if decide (op = opSubsetOf) then intersectStringSlices prev next hasPrev
  else Err ErrUnknownOperator.

Definition hasOp (pp : paramPolicy) (op : string) : bool := bool_decide (is_Some (pp !! op)).

(** [for k, a := range l { m[k] = f(m[k], a) }], stopping at the first error. *)
Fixpoint update_each {V A E} (f : string -> option V -> A -> result E V)
    (l : list (string * A)) (m : gmap string V) : result E (gmap string V) :=
  match l with
  | [] => Ok m
  | (k, a) :: l => v ← f k (m !! k) a; update_each f l (<[k := v]> m)
  end.

Definition merge_operator (op : string) (cur : option json) (operand : json) : result policy_error json :=
  if negb (isKnownOperator op) then Err ErrUnknownOperator
  else combineOperator op (default JNull cur) operand (bool_decide (is_Some cur)).

Definition merge_param (param : string) (cur : option paramPolicy) (ops : paramPolicy)
    : result policy_error paramPolicy :=
  update_each merge_operator (map_to_list ops) (default ∅ cur).

Fixpoint merge_levels (policies : list (gmap string paramPolicy)) (out : gmap string paramPolicy)
    : result policy_error (gmap string paramPolicy) :=
  match policies with
  | [] => Ok out
  | pol :: policies => out ← update_each merge_param (map_to_list pol) out; merge_levels policies out
  end.

(** ** Consistency of the merged operators *)

Definition operandSatisfiesOneOf (operand : json) (pp : paramPolicy) : result policy_error () :=
  match pp !! opOneOf with
  | None => Ok ()
  | Some oneOf =>
      allowed ← toStringSlice oneOf;
      match operand with
      | JStr s => if containsString allowed s then Ok () else Err ErrInconsistent
      | _ => Err ErrOperandShape
      end
  end.

Definition operandSatisfiesSubsetOf (operand : json) (pp : paramPolicy) : result policy_error () :=
  match pp !! opSubsetOf with
  | None => Ok ()
  | Some sub =>
      allowed ← toStringSlice sub;
      vals ← toStringSlice operand;
      if forallb (containsString allowed) vals then Ok () else Err ErrInconsistent
  end.

Definition operandSatisfiesSupersetOf (operand : json) (pp : paramPolicy) : result policy_error () :=
  match pp !! opSupersetOf with
  | None => Ok ()
  | Some sup =>
      required ← toStringSlice sup;
      vals ← toStringSlice operand;
      if forallb (containsString vals) required then Ok () else Err ErrInconsistent
  end.

Definition valueSatisfiesConstraints (operand : json) (pp : paramPolicy) : result policy_error () :=
  _ ← operandSatisfiesOneOf operand pp;
  _ ← operandSatisfiesSubsetOf operand pp;
  operandSatisfiesSupersetOf operand pp.

Definition checkOperatorConsistency (pp : paramPolicy) : result policy_error () :=
  if hasOp pp opValue && hasOp pp opAdd then Err ErrInconsistent
  else
    _ ← match pp !! opValue with Some v => valueSatisfiesConstraints v pp | None => Ok () end;
    _ ← match pp !! opDefault with Some d => valueSatisfiesConstraints d pp | None => Ok () end;
    match pp !! opSubsetOf, pp !! opSupersetOf with
    | Some sub, Some sup =>
        subset ← toStringSlice sub;
        superset ← toStringSlice sup;
        if forallb (containsString subset) superset then Ok () else Err ErrInconsistent
    | _, _ => Ok ()
    end.

Fixpoint check_each (l : list (string * paramPolicy)) : result policy_error () :=
  match l with
  | [] => Ok ()
  | (_, pp) :: l => _ ← checkOperatorConsistency pp; check_each l
  end.

Definition MergePolicies (policies : list (gmap string paramPolicy))
    : result policy_error (gmap string paramPolicy) :=
  out ← merge_levels policies ∅;
  _ ← check_each (map_to_list out);
  Ok out.

(** ** Applying *)

Definition applyParamModifiers (param : string) (pp : paramPolicy) (rp : metadata)
    : result policy_error metadata :=
  let rp := match pp !! opValue with Some v => <[param := v]> rp | None => rp end in
  rp ← match pp !! opAdd with
       | Some a => additions ← toStringSlice a;
                   Ok (<[param := JStrs (appendUnique (default JNull (rp !! param)) additions)]> rp)
       | None => Ok rp
       end;
  match pp !! opDefault with
  | Some d => Ok (match rp !! param with None => <[param := d]> rp | Some _ => rp end)
  | None => Ok rp
  end.

Definition applyOneOf (param : string) (pp : paramPolicy) (rp : metadata) : result policy_error () :=
  match pp !! opOneOf, rp !! param with
  | Some oneOf, Some cur =>
      allowed ← toStringSlice oneOf;
      match cur with
      | JStr s => if containsString allowed s then Ok () else Err ErrViolation
      | _ => Err ErrOperandShape
      end
  | _, _ => Ok ()
  end.

Definition applySubsetOf (param : string) (pp : paramPolicy) (rp : metadata) : result policy_error () :=
  match pp !! opSubsetOf, rp !! param with
  | Some sub, Some cur =>
      allowed ← toStringSlice sub;
      vals ← toStringSlice cur;
      if forallb (containsString allowed) vals then Ok () else Err ErrViolation
  | _, _ => Ok ()
  end.

Definition applySupersetOf (param : string) (pp : paramPolicy) (rp : metadata) : result policy_error () :=
  match pp !! opSupersetOf, rp !! param with
  | Some sup, Some cur =>
      required ← toStringSlice sup;
      vals ← toStringSlice cur;
      if forallb (containsString vals) required then Ok () else Err ErrViolation
  | _, _ => Ok ()
  end.

Definition applyParamConstraints (param : string) (pp : paramPolicy) (rp : metadata) : result policy_error () :=
  _ ← applyOneOf param pp rp;
  _ ← applySubsetOf param pp rp;
  applySupersetOf param pp rp.

Definition applyParamEssential (param : string) (pp : paramPolicy) (rp : metadata) : result policy_error () :=
  match pp !! opEssential with
  | Some (JBool true) => match rp !! param with Some _ => Ok () | None => Err ErrEssentialMissing end
  | _ => Ok ()
  end.

Definition applyParamPolicy (param : string) (pp : paramPolicy) (rp : metadata) : result policy_error metadata :=
  rp ← applyParamModifiers param pp rp;
  _ ← applyParamConstraints param pp rp;
  _ ← applyParamEssential param pp rp;
  Ok rp.

Fixpoint enforce_params (merged : gmap string paramPolicy) (params : list string) (rp : metadata)
    : result policy_error metadata :=
  match params with
  | [] => Ok rp
  | param :: params =>
      rp ← applyParamPolicy param (default ∅ (merged !! param)) rp;
      enforce_params merged params rp
  end.


(** The leaf metadata after the policy; on an error the caller drops the map. *)
Definition EnforcePolicy (merged : gmap string paramPolicy) (rp : metadata) : result policy_error metadata :=
  enforce_params merged (merge_sort str_le (map_to_list merged).*1) rp.

(** ** A trust chain *)

(** The claims of a chain link that the policy step reads. *)
Record chainLink := {
  lk_Iss : string;
  lk_Sub : string;
  lk_MetadataPolicy : gmap string (gmap string paramPolicy);
  lk_RP : option metadata;
}.

Definition rpMetadataType : string := "openid_relying_party".

(** The policy a subordinate statement contributes. *)
Definition link_policy (l : chainLink) : option (gmap string paramPolicy) :=
  if decide (lk_Iss l = lk_Sub l) then None
  else match lk_MetadataPolicy l !! rpMetadataType with
       | Some pol => if decide (pol = ∅) then None else Some pol
       | None => None
       end.

(** [links] is the leaf-first chain, [leaf] its head; an empty one cannot occur. *)
Definition applyPolicy (leaf : chainLink) (above : list chainLink) : result policy_error (option metadata) :=
  merged ← MergePolicies (omap link_policy (reverse (take (length above - 1) above)));
  rp ← EnforcePolicy merged (default ∅ (lk_RP leaf));
  Ok (if decide (rp = ∅) then None else Some rp).

(** ** What an operator asks of a value *)

(** [holds op x v]: the (possibly absent) parameter value [v] obeys operator [op]
    with operand [x]. *)
Definition holds (op : string) (x : json) (v : option json) : Prop :=
  if decide (op = opValue) then v = Some x
  else if decide (op = opAdd) then
    exists la y lv, toStringSlice x = Ok la /\ v = Some y /\ toStringSlice y = Ok lv /\ la ⊆ lv
  else if decide (op = opDefault) then is_Some v
  else if decide (op = opOneOf) then
    forall y, v = Some y -> exists l s, toStringSlice x = Ok l /\ y = JStr s /\ s ∈ l
  else if decide (op = opSubsetOf) then
    forall y, v = Some y -> exists l lv, toStringSlice x = Ok l /\ toStringSlice y = Ok lv /\ lv ⊆ l
  else if decide (op = opSupersetOf) then
    forall y, v = Some y -> exists l lv, toStringSlice x = Ok l /\ toStringSlice y = Ok lv /\ l ⊆ lv
  else if decide (op = opEssential) then x = JBool true -> is_Some v
  else True.

(** A policy obeyed by a metadata document. *)
Definition obeys (pol : gmap string paramPolicy) (rp : metadata) : Prop :=
  forall param ops op x, pol !! param = Some ops -> ops !! op = Some x -> holds op x (rp !! param).

(** [narrows op x y]: operand [y] of a merged policy asks at least what [x] asks. *)
Definition narrows (op : string) (x y : json) : Prop :=
  if decide (op = opValue \/ op = opDefault) then y = x
  else if decide (op = opEssential) then x = JBool true -> y = JBool true
  else if decide (op = opAdd \/ op = opSupersetOf) then
    exists lx ly, toStringSlice x = Ok lx /\ toStringSlice y = Ok ly /\ lx ⊆ ly
  else if decide (op = opOneOf \/ op = opSubsetOf) then
    exists lx ly, toStringSlice x = Ok lx /\ toStringSlice y = Ok ly /\ ly ⊆ lx
  else True.

(** The seven operators, and evaluation of the tests on a known one. *)
Lemma operator_cases op :
  (op = opValue \/ op = opDefault \/ op = opEssential \/ op = opAdd \/ op = opSupersetOf \/
   op = opOneOf \/ op = opSubsetOf) \/ isKnownOperator op = false.
Proof.
  destruct (isKnownOperator op) eqn:E; [left|by right]. apply contains_spec in E. set_solver.
Qed.

Ltac op_eval :=
  repeat match goal with
  | |- context [decide ?P] =>
      first [rewrite (decide_True (P := P)) by (first [done | by left | by right])
            |rewrite (decide_False (P := P)) by (first [done | by intros [|]])]
  end.

Lemma narrows_trans op x y z : narrows op x y -> narrows op y z -> narrows op x z.
Proof.
  unfold narrows. destruct (decide (op = opValue \/ op = opDefault)); [congruence|].
  destruct (decide (op = opEssential)); [auto|].
  destruct (decide (op = opAdd \/ op = opSupersetOf));
    [|destruct (decide (op = opOneOf \/ op = opSubsetOf)); [|done]];
    intros (lx & ly & H1 & H2 & H3) (ly' & lz & H4 & H5 & H6);
    rewrite H2 in H4; injection H4 as <-; exists lx, lz; split_and!; try done; by etrans.
Qed.

Lemma narrows_holds op x y v : narrows op x y -> holds op y v -> holds op x v.
Proof.
  unfold narrows, holds.
  destruct (operator_cases op) as [[->|[->|[->|[->|[->|[->| ->]]]]]]|Hu]; op_eval.
  - by intros ->.
  - done.
  - auto.
  - intros (lx & ly & H1 & H2 & H3) (la & y0 & lv & H4 & H5 & H6 & H7). rewrite H2 in H4. injection H4 as <-.
    exists lx, y0, lv. split_and!; try done. by etrans.
  - intros (lx & ly & H1 & H2 & H3) Hv y0 Hy0. destruct (Hv y0 Hy0) as (l & w & H4 & H5 & H6).
    rewrite H2 in H4. injection H4 as <-. exists lx, w. split_and!; try done. by etrans.
  - intros (lx & ly & H1 & H2 & H3) Hv y0 Hy0. destruct (Hv y0 Hy0) as (l & s & H4 & H5 & H6).
    rewrite H2 in H4. injection H4 as <-. exists lx, s. split_and!; try done. by apply H3.
  - intros (lx & ly & H1 & H2 & H3) Hv y0 Hy0. destruct (Hv y0 Hy0) as (l & w & H4 & H5 & H6).
    rewrite H2 in H4. injection H4 as <-. exists lx, w. split_and!; try done. by etrans.
  - intros _ _. repeat match goal with
      | |- context [decide (op = ?o)] => rewrite (decide_False (P := op = o)) by (intros ->; discriminate Hu)
      end. done.
Qed.

(** ** Merging *)

Lemma union_spec prev next y :
  unionStringSlices prev next = Ok y ->
  exists lp ln ly, toStringSlice prev = Ok lp /\ toStringSlice next = Ok ln /\ toStringSlice y = Ok ly /\
    forall s, s ∈ ly <-> s ∈ lp \/ s ∈ ln.
Proof.
  unfold unionStringSlices. intros (ln & Hn & Hu)%result_bind_ok.
  assert (forall lp, toStringSlice prev = Ok lp -> y = JStrs (dedup_onto (dedup_onto [] lp) ln) ->
    exists lp ln ly, toStringSlice prev = Ok lp /\ toStringSlice next = Ok ln /\ toStringSlice y = Ok ly /\
      forall s, s ∈ ly <-> s ∈ lp \/ s ∈ ln) as Hk.
  { intros lp Hp ->. exists lp, ln. eexists. split_and!; [done..|]. intros s.
    rewrite !elem_of_dedup_onto. set_solver. }
  destruct prev; try (apply result_bind_ok in Hu as (lp & Hp & [= <-]); by apply (Hk lp)).
  injection Hu as <-. by apply (Hk []).
Qed.

Lemma intersect_spec prev next y hasPrev :
  intersectStringSlices prev next hasPrev = Ok y ->
  exists ln ly, toStringSlice next = Ok ln /\ toStringSlice y = Ok ly /\ ly ⊆ ln /\
    (hasPrev = true -> exists lp, toStringSlice prev = Ok lp /\ ly ⊆ lp).
Proof.
  unfold intersectStringSlices. intros (ln & Hn & Hi)%result_bind_ok.
  destruct hasPrev; cbn [negb] in Hi; [|by injection Hi as <-; exists ln, ln].
  apply result_bind_ok in Hi as (lp & Hp & Hi).
  assert (y = JStrs (filter (fun n => n ∈ lp) ln)) as -> by (destruct (filter _ _); [done|congruence]).
  exists ln, (filter (fun n => n ∈ lp) ln).
  split_and!; [done..| |intros _; exists lp; split; [done|]]; intros s Hs; by apply list_elem_of_filter in Hs as [? ?].
Qed.

Lemma combine_narrows op prev next hasPrev y :
  combineOperator op prev next hasPrev = Ok y ->
  narrows op next y /\ (hasPrev = true -> narrows op prev y).
Proof.
  unfold combineOperator, narrows.
  destruct (decide (op = opValue \/ op = opDefault)) as [Ho|Ho].
  { destruct hasPrev; cbn [andb]; [|intros [= ->]; split; [done|discriminate]].
    unfold valuesEqual. destruct (bool_decide_reflect (prev = next)) as [->|]; cbn [negb]; [|done].
    by intros [= ->]. }
  destruct (decide (op = opEssential)) as [->|].
  { destruct next as [|nb| | | | |]; try done. intros [= <-].
    split; [intros [= ->]; by rewrite orb_true_r|]. by intros _ ->. }
  destruct (decide (op = opAdd \/ op = opSupersetOf)) as [Hu|Hu].
  { assert (unionStringSlices prev next = Ok y -> (exists lx ly, toStringSlice next = Ok lx /\ toStringSlice y = Ok ly /\ lx ⊆ ly) /\
      (hasPrev = true -> exists lx ly, toStringSlice prev = Ok lx /\ toStringSlice y = Ok ly /\ lx ⊆ ly)) as Hk.
    { intros (lp & ln & ly & H1 & H2 & H3 & H4)%union_spec.
      split; [exists ln, ly|intros _; exists lp, ly]; split_and!; try done; set_solver. }
    destruct Hu as [->| ->]; exact Hk. }
  destruct (decide (op = opOneOf \/ op = opSubsetOf)) as [Hi|Hi]; [|by intros; split].
  assert (intersectStringSlices prev next hasPrev = Ok y -> (exists lx ly, toStringSlice next = Ok lx /\ toStringSlice y = Ok ly /\ ly ⊆ lx) /\
    (hasPrev = true -> exists lx ly, toStringSlice prev = Ok lx /\ toStringSlice y = Ok ly /\ ly ⊆ lx)) as Hk.
  { intros (ln & ly & H1 & H2 & H3 & H4)%intersect_spec. split; [by exists ln, ly|].
    intros Hp. destruct (H4 Hp) as (lp & ? & ?). by exists lp, ly. }
  destruct Hi as [->| ->]; exact Hk.
Qed.

(** A range loop updates every key it meets, and no other. *)
Lemma update_each_spec {V A E} (f : string -> option V -> A -> result E V) l m m' :
  NoDup l.*1 -> update_each f l m = Ok m' ->
  (forall k a, (k, a) ∈ l -> exists v, f k (m !! k) a = Ok v /\ m' !! k = Some v) /\
  (forall k, k ∉ l.*1 -> m' !! k = m !! k).
Proof.
  revert m. induction l as [|[k a] l IH]; intros m Hnd; cbn [update_each].
  { intros [= <-]. split; [intros k a []%not_elem_of_nil|done]. }
  intros (v & Hv & Hm)%result_bind_ok. cbn in Hnd. apply NoDup_cons in Hnd as [Hk Hnd].
  destruct (IH _ Hnd Hm) as [H1 H2]. split.
  - intros k' a' [[= -> ->]|Hin]%elem_of_cons.
    + exists v. split; [done|]. rewrite H2 by done. apply lookup_insert_eq.
    + destruct (H1 k' a' Hin) as (v' & Hv' & ?). exists v'. split; [|done].
      rewrite lookup_insert_ne in Hv'; [done|]. intros ->. apply Hk. by apply (list_elem_of_fmap_2 fst _ (k', a')).
  - intros k'. cbn. rewrite not_elem_of_cons. intros [Hne Hn]. rewrite H2 by done. by rewrite lookup_insert_ne.
Qed.

Lemma range_spec {V A E} (f : string -> option V -> A -> result E V) (src : gmap string A) m m' :
  update_each f (map_to_list src) m = Ok m' ->
  forall k, match src !! k with
            | Some a => exists v, f k (m !! k) a = Ok v /\ m' !! k = Some v
            | None => m' !! k = m !! k
            end.
Proof.
  intros H. apply update_each_spec in H as [H1 H2]; [|apply NoDup_fst_map_to_list]. intros k.
  destruct (src !! k) as [a|] eqn:Hk; [apply H1, elem_of_map_to_list, Hk|]. apply H2.
  intros ([k' a] & -> & Hin)%list_elem_of_fmap. apply elem_of_map_to_list in Hin. cbn in Hk. congruence.
Qed.

(** [out'] asks at least what [out] asks, parameter by parameter. *)
Definition refines (op : string) (x y : json) : Prop := y = x \/ narrows op x y.

Definition stricter (out out' : gmap string paramPolicy) : Prop :=
  forall param ops op x, out !! param = Some ops -> ops !! op = Some x ->
    exists ops' y, out' !! param = Some ops' /\ ops' !! op = Some y /\ refines op x y.

Lemma stricter_refl a : stricter a a.
Proof. intros param ops op x Ho Hx. exists ops, x. split_and!; [done..|by left]. Qed.

Lemma stricter_trans a b c : stricter a b -> stricter b c -> stricter a c.
Proof.
  intros H1 H2 param ops op x Ho Hx. destruct (H1 param ops op x Ho Hx) as (ops' & y & H3 & H4 & H5).
  destruct (H2 param ops' op y H3 H4) as (ops2 & z & H6 & H7 & H8).
  exists ops2, z. split_and!; [done..|]. destruct H5 as [->|H5]; [done|]. destruct H8 as [->|H8]; [by right|].
  right. by eapply narrows_trans.
Qed.

Lemma stricter_obeys a b rp : stricter a b -> obeys b rp -> obeys a rp.
Proof.
  intros Hs Hb param ops op x Ho Hx. destruct (Hs param ops op x Ho Hx) as (ops' & y & H1 & H2 & H3).
  pose proof (Hb param ops' op y H1 H2). destruct H3 as [->|H3]; [done|]. by eapply narrows_holds.
Qed.

Lemma merge_param_spec param cur ops pp :
  merge_param param cur ops = Ok pp ->
  (forall op x, ops !! op = Some x -> exists y, pp !! op = Some y /\ refines op x y) /\
  (forall op x, default ∅ cur !! op = Some x -> exists y, pp !! op = Some y /\ refines op x y).
Proof.
  intros Hm. pose proof (range_spec _ _ _ _ Hm) as Hops. unfold merge_operator in Hops.
  split; intros op x Hx; specialize (Hops op).
  - rewrite Hx in Hops. destruct Hops as (y & Hy & Hl). destruct (isKnownOperator op); [|done].
    apply combine_narrows in Hy as [? _]. exists y. split; [done|by right].
  - rewrite Hx in Hops. destruct (ops !! op) as [z|]; [|exists x; split; [done|by left]].
    destruct Hops as (y & Hy & Hl). destruct (isKnownOperator op); [|done].
    apply combine_narrows in Hy as [_ Hy]. exists y. split; [done|right; by apply Hy].
Qed.

Lemma merge_level_stricter pol out out' :
  update_each merge_param (map_to_list pol) out = Ok out' -> stricter pol out' /\ stricter out out'.
Proof.
  intros H. pose proof (range_spec _ _ _ _ H) as Hr. clear H.
  split; intros param ops op x Ho Hx; specialize (Hr param).
  - rewrite Ho in Hr. destruct Hr as (pp & Hm & Hl). apply merge_param_spec in Hm as [Hm _].
    destruct (Hm op x Hx) as (y & ? & ?). by exists pp, y.
  - destruct (pol !! param) as [ops'|].
    + destruct Hr as (pp & Hm & Hl). rewrite Ho in Hm. apply merge_param_spec in Hm as [_ Hm].
      destruct (Hm op x Hx) as (y & ? & ?). by exists pp, y.
    + exists ops, x. split_and!; [by rewrite Hr|done|by left].
Qed.

Lemma merge_levels_stricter policies out out' :
  merge_levels policies out = Ok out' ->
  stricter out out' /\ forall pol, pol ∈ policies -> stricter pol out'.
Proof.
  revert out. induction policies as [|pol policies IH]; intros out; cbn [merge_levels].
  { intros [= <-]. split; [apply stricter_refl|by intros ? []%not_elem_of_nil]. }
  intros (out1 & H1 & H2)%result_bind_ok. apply merge_level_stricter in H1 as [Hp Ho].
  destruct (IH _ H2) as [H3 H4]. split; [by eapply stricter_trans|].
  intros pol' [->|Hin]%elem_of_cons; [by eapply stricter_trans|by apply H4].
Qed.

Lemma check_each_spec l : check_each l = Ok () -> forall param pp, (param, pp) ∈ l -> checkOperatorConsistency pp = Ok ().
Proof.
  induction l as [|[p pp0] l IH]; cbn [check_each]; [by intros _ ?? []%not_elem_of_nil|].
  intros ([] & H1 & H2)%result_bind_ok param pp [[= -> ->]|Hin]%elem_of_cons; [done|by eapply IH].
Qed.

(** What a successful merge gives. *)
Lemma MergePolicies_Ok policies merged :
  MergePolicies policies = Ok merged ->
  (forall pol, pol ∈ policies -> stricter pol merged) /\
  forall param pp, merged !! param = Some pp -> checkOperatorConsistency pp = Ok ().
Proof.
  unfold MergePolicies. intros (out & Hm & H)%result_bind_ok.
  apply result_bind_ok in H as ([] & Hc & [= <-]). apply merge_levels_stricter in Hm as [_ Hm]. split; [done|].
  intros param pp Hp. eapply check_each_spec; [exact Hc|]. by apply elem_of_map_to_list.
Qed.

(** ** Applying *)

Lemma forallb_contains (l : list string) k : forallb (containsString l) k = true <-> k ⊆ l.
Proof.
  rewrite forallb_forall. split.
  - intros H s Hs. apply list_elem_of_In, H in Hs. by apply contains_spec.
  - intros H s Hs%list_elem_of_In. apply contains_spec. by apply H.
Qed.

Lemma modifiers_spec param pp rp rp' :
  applyParamModifiers param pp rp = Ok rp' ->
  (forall p, p <> param -> rp' !! p = rp !! p) /\
  (forall v, pp !! opValue = Some v -> pp !! opAdd = None -> rp' !! param = Some v) /\
  (forall a, pp !! opAdd = Some a -> exists la base, toStringSlice a = Ok la /\
     rp' !! param = Some (JStrs (dedup_onto (dedup_onto [] base) la))) /\
  (is_Some (pp !! opDefault) -> is_Some (rp' !! param)).
Proof.
  unfold applyParamModifiers.
  set (rp1 := match pp !! opValue with Some v => <[param:=v]> rp | None => rp end).
  intros (rp2 & H2 & H3)%result_bind_ok.
  assert (forall p, p <> param -> rp1 !! p = rp !! p) as F1.
  { intros p Hp. unfold rp1. destruct (pp !! opValue); [by rewrite lookup_insert_ne|done]. }
  assert (forall p, p <> param -> rp2 !! p = rp1 !! p) as F2.
  { intros p Hp. destruct (pp !! opAdd); [|congruence]. apply result_bind_ok in H2 as (la & _ & [= <-]).
    by rewrite lookup_insert_ne. }
  assert ((forall p, p <> param -> rp' !! p = rp2 !! p) /\
          (forall y, rp2 !! param = Some y -> rp' !! param = Some y) /\
          (is_Some (pp !! opDefault) -> is_Some (rp' !! param))) as (F3 & F4 & F5).
  { destruct (pp !! opDefault) as [dv|]; injection H3 as <-;
      [destruct (rp2 !! param) as [y|] eqn:E|]; split_and!; try done.
    - by rewrite E.
    - intros p Hp. by rewrite lookup_insert_ne.
    - intros _. by rewrite lookup_insert_eq. }
  split_and!; [by intros p Hp; rewrite F3, F2, F1|..|done].
  - intros v Hv Ha. apply F4. rewrite Ha in H2. injection H2 as <-. unfold rp1. rewrite Hv. apply lookup_insert_eq.
  - intros a Ha. rewrite Ha in H2. apply result_bind_ok in H2 as (la & Hla & [= <-]).
    eexists la, _. split; [done|]. apply F4. apply lookup_insert_eq.
Qed.

(** The checks after the modifiers leave the metadata alone. *)
Lemma applyParamPolicy_spec param pp rp rp' :
  applyParamPolicy param pp rp = Ok rp' ->
  (forall p, p <> param -> rp' !! p = rp !! p) /\
  (checkOperatorConsistency pp = Ok () -> forall op x, pp !! op = Some x -> holds op x (rp' !! param)).
Proof.
  unfold applyParamPolicy. intros (rp1 & Hm & H)%result_bind_ok. apply result_bind_ok in H as ([] & Hc & H).
  apply result_bind_ok in H as ([] & He & [= ->]). apply modifiers_spec in Hm as (F & Fv & Fa & Fd).
  split; [done|]. intros Hcons. unfold applyParamConstraints in Hc.
  apply result_bind_ok in Hc as ([] & H1 & Hc). apply result_bind_ok in Hc as ([] & H2 & H3).
  assert (forall v, pp !! opValue = Some v -> pp !! opAdd = None) as Hva.
  { intros v Hv. unfold checkOperatorConsistency, hasOp in Hcons. rewrite Hv in Hcons.
    destruct (pp !! opAdd) as [a|]; [|done]. by rewrite !bool_decide_eq_true_2 in Hcons. }
  intros op x Hx. unfold holds.
  destruct (operator_cases op) as [[->|[->|[->|[->|[->|[->| ->]]]]]]|Hu]; op_eval.
  - eauto.
  - apply Fd. by rewrite Hx.
  - intros ->. unfold applyParamEssential in He. rewrite Hx in He. by destruct (rp' !! param).
  - destruct (Fa x Hx) as (la & base & Hla & ->). eexists la, _, _. split_and!; [done..|].
    intros s Hs. apply elem_of_dedup_onto. by right.
  - intros y Hy. unfold applySupersetOf in H3. rewrite Hx, Hy in H3.
    apply result_bind_ok in H3 as (l & Hl & H3). apply result_bind_ok in H3 as (lv & Hlv & H3).
    destruct (forallb _ l) eqn:E; [|done]. exists l, lv. split_and!; [done..|]. by apply forallb_contains.
  - intros y Hy. unfold applyOneOf in H1. rewrite Hx, Hy in H1.
    apply result_bind_ok in H1 as (l & Hl & H1). destruct y as [| | |s| | |]; try done.
    destruct (containsString l s) eqn:E; [|done]. exists l, s. split_and!; [done..|]. by apply contains_spec.
  - intros y Hy. unfold applySubsetOf in H2. rewrite Hx, Hy in H2.
    apply result_bind_ok in H2 as (l & Hl & H2). apply result_bind_ok in H2 as (lv & Hlv & H2).
    destruct (forallb _ lv) eqn:E; [|done]. exists l, lv. split_and!; [done..|]. by apply forallb_contains.
  - repeat match goal with
      | |- context [decide (op = ?o)] => rewrite (decide_False (P := op = o)) by (intros ->; discriminate Hu)
      end. done.
Qed.

Lemma enforce_params_spec merged params rp rp' :
  NoDup params -> enforce_params merged params rp = Ok rp' ->
  (forall param, param ∈ params -> exists r r',
     applyParamPolicy param (default ∅ (merged !! param)) r = Ok r' /\ r' !! param = rp' !! param) /\
  (forall p, p ∉ params -> rp' !! p = rp !! p).
Proof.
  revert rp. induction params as [|param params IH]; intros rp Hnd; cbn [enforce_params].
  { intros [= <-]. split; [by intros ? []%not_elem_of_nil|done]. }
  apply NoDup_cons in Hnd as [Hp Hnd]. intros (r & Hr & He)%result_bind_ok.
  destruct (IH r Hnd He) as [H1 H2]. split.
  - intros p [->|Hin]%elem_of_cons; [|by apply H1]. exists rp, r. split; [done|]. by rewrite H2.
  - intros p [Hne Hn]%not_elem_of_cons. rewrite H2 by done. apply applyParamPolicy_spec in Hr as [Hf _]. by apply Hf.
Qed.

Lemma sorted_params (merged : gmap string paramPolicy) :
  NoDup (merge_sort str_le (map_to_list merged).*1) /\
  forall p, p ∈ merge_sort str_le (map_to_list merged).*1 <-> is_Some (merged !! p).
Proof.
  pose proof (merge_sort_Permutation str_le (map_to_list merged).*1) as Hp. split.
  - rewrite Hp. apply NoDup_fst_map_to_list.
  - intros p. rewrite Hp, list_elem_of_fmap. split.
    + intros ([q pp] & -> & Hin). apply elem_of_map_to_list in Hin. by exists pp.
    + intros [pp Hpp]. exists (p, pp). split; [done|]. by apply elem_of_map_to_list.
Qed.

Lemma EnforcePolicy_obeys merged rp rp' :
  (forall param pp, merged !! param = Some pp -> checkOperatorConsistency pp = Ok ()) ->
  EnforcePolicy merged rp = Ok rp' ->
  obeys merged rp' /\ forall p, merged !! p = None -> rp' !! p = rp !! p.
Proof.
  intros Hc He. destruct (sorted_params merged) as [Hnd Hin].
  apply enforce_params_spec in He as [H1 H2]; [|done]. split.
  - intros param pp op x Hp Hx. destruct (H1 param) as (r & r' & Ha & <-); [apply Hin; eauto|].
    rewrite Hp in Ha. apply applyParamPolicy_spec in Ha as [_ Ha]. by apply (Ha (Hc param pp Hp)).
  - intros p Hp. apply H2. rewrite Hin, Hp. by intros [].
Qed.

(** Metadata the policy has already shaped passes unchanged. *)
Lemma dedup_onto_id (l k : list string) : k ⊆ l -> dedup_onto l k = l.
Proof.
  induction k as [|x k IH]; intros Hk; cbn [dedup_onto]; [done|].
  rewrite (proj2 (contains_spec l x)) by (apply Hk; by left). apply IH. intros y Hy. apply Hk. by right.
Qed.

Lemma dedup_onto_app (out l : list string) : NoDup (out ++ l) -> dedup_onto out l = out ++ l.
Proof.
  revert out. induction l as [|x l IH]; intros out Hnd; cbn [dedup_onto]; [by rewrite app_nil_r|].
  destruct (contains out x) eqn:E.
  - apply contains_spec in E. apply list.NoDup_app in Hnd as (_ & Hd & _). destruct (Hd x E). by left.
  - rewrite IH; by rewrite <- (assoc_L (++)).
Qed.

Lemma appendUnique_again base la :
  appendUnique (JStrs (dedup_onto (dedup_onto [] base) la)) la = dedup_onto (dedup_onto [] base) la.
Proof.
  set (l := dedup_onto (dedup_onto [] base) la). unfold appendUnique. cbn.
  rewrite (dedup_onto_app [] l) by (apply NoDup_dedup_onto, NoDup_dedup_onto, NoDup_nil_2). cbn. apply dedup_onto_id.
  intros s Hs. apply elem_of_dedup_onto. by right.
Qed.

Lemma applyParamPolicy_again param pp r r' s :
  applyParamPolicy param pp r = Ok r' -> s !! param = r' !! param -> applyParamPolicy param pp s = Ok s.
Proof.
  unfold applyParamPolicy. intros (r1 & Hm & H)%result_bind_ok Hs. apply result_bind_ok in H as ([] & Hc & H).
  apply result_bind_ok in H as ([] & He & [= ->]).
  assert (applyParamModifiers param pp s = Ok s) as Hms.
  { pose proof Hm as Hspec. apply modifiers_spec in Hspec as (_ & Fv & Fa & Fd). unfold applyParamModifiers.
    set (s1 := match pp !! opValue with Some v => <[param:=v]> s | None => s end).
    assert (match pp !! opAdd with
            | Some a => additions ← toStringSlice a;
                Ok (<[param:=JStrs (appendUnique (default JNull (s1 !! param)) additions)]> s1)
            | None => Ok s1 end = Ok (E := policy_error) s) as ->.
    { destruct (pp !! opAdd) as [a|] eqn:Ha.
      - unfold applyParamModifiers in Hm. rewrite Ha in Hm.
        apply result_bind_ok in Hm as (r2 & Hr2 & Hd). apply result_bind_ok in Hr2 as (la & Hla & [= <-]).
        rewrite Hla. cbn [mbind result_bind]. f_equal.
        set (rv := match pp !! opValue with Some v => <[param:=v]> r | None => r end) in *.
        assert (r' !! param = Some (JStrs (appendUnique (default JNull (rv !! param)) la))) as Hr'.
        { rewrite lookup_insert_eq in Hd. destruct (pp !! opDefault); injection Hd as <-; apply lookup_insert_eq. }
        assert (appendUnique (default JNull (s1 !! param)) la = appendUnique (default JNull (rv !! param)) la) as Heq.
        { unfold s1, rv. destruct (pp !! opValue); [by rewrite !lookup_insert_eq|].
          rewrite Hs, Hr'. cbn [default]. apply appendUnique_again. }
        rewrite Heq. apply map_eq. intros p. destruct (decide (p = param)) as [->|Hp].
        + by rewrite lookup_insert_eq, Hs.
        + rewrite lookup_insert_ne by done. unfold s1. destruct (pp !! opValue); [by rewrite lookup_insert_ne|done].
      - f_equal. unfold s1. destruct (pp !! opValue) as [v|] eqn:Hv; [|done].
        rewrite insert_id; [done|]. rewrite Hs. by apply Fv. }
    cbn [mbind result_bind]. destruct (pp !! opDefault) as [dv|]; [|done]. rewrite Hs.
    destruct Fd as [y ->]; [by eexists|]. done. }
  rewrite Hms. cbn [mbind result_bind].
  assert (applyParamConstraints param pp s = Ok ()) as ->.
  { rewrite <- Hc. unfold applyParamConstraints, applyOneOf, applySubsetOf, applySupersetOf. by rewrite Hs. }
  cbn [mbind result_bind]. assert (applyParamEssential param pp s = Ok ()) as ->; [|done].
  rewrite <- He. unfold applyParamEssential. by rewrite Hs.
Qed.

(** A value that satisfies the constraints at merge time passes them when applied. *)
Lemma constraints_accept param pp (r : metadata) v :
  r !! param = Some v -> valueSatisfiesConstraints v pp = Ok () -> applyParamConstraints param pp r = Ok ().
Proof.
  intros Hr Hv. unfold valueSatisfiesConstraints in Hv.
  apply result_bind_ok in Hv as ([] & V1 & Hv). apply result_bind_ok in Hv as ([] & V2 & V3).
  unfold applyParamConstraints, applyOneOf, applySubsetOf, applySupersetOf. rewrite Hr.
  unfold operandSatisfiesOneOf in V1. unfold operandSatisfiesSubsetOf in V2. unfold operandSatisfiesSupersetOf in V3.
  assert (match pp !! opOneOf with
          | Some oneOf => allowed ← toStringSlice oneOf;
              match v with JStr s => if containsString allowed s then Ok () else Err ErrViolation
                         | _ => Err ErrOperandShape end
          | None => Ok () end = Ok (E := policy_error) ()) as ->.
  { destruct (pp !! opOneOf) as [o|]; [|done]. apply result_bind_ok in V1 as (l & -> & V1).
    cbn [mbind result_bind]. destruct v; try done. by destruct (containsString _ _). }
  cbn [mbind result_bind].
  assert (match pp !! opSubsetOf with
          | Some sub => allowed ← toStringSlice sub; vals ← toStringSlice v;
              if forallb (containsString allowed) vals then Ok () else Err ErrViolation
          | None => Ok () end = Ok (E := policy_error) ()) as ->.
  { destruct (pp !! opSubsetOf) as [o|]; [|done]. apply result_bind_ok in V2 as (l & -> & V2).
    apply result_bind_ok in V2 as (lv & -> & V2). cbn [mbind result_bind]. by destruct (forallb _ _). }
  cbn [mbind result_bind]. destruct (pp !! opSupersetOf) as [o|]; [|done].
  apply result_bind_ok in V3 as (l & -> & V3). apply result_bind_ok in V3 as (lv & -> & V3).
  cbn [mbind result_bind]. by destruct (forallb _ _).
Qed.

Lemma essential_accepts param pp (r : metadata) v :
  r !! param = Some v -> applyParamEssential param pp r = Ok ().
Proof.
  intros Hr. unfold applyParamEssential. rewrite Hr. destruct (pp !! opEssential) as [[]|]; try done. by destruct b.
Qed.

(** ** Properties *)

(** a superior's policy is enforced whatever its subordinates add: if the resolver
    accepts a chain, then the metadata it returns for the leaf obeys, operator by
    operator, the policy of every subordinate statement of the chain on its own, so no
    statement below can widen or override what a statement above demands; and a
    parameter no policy mentions is the one the leaf asserted. *)
Theorem federation_policy_enforced (leaf : chainLink) (above : list chainLink) (rp : option metadata) :
  applyPolicy leaf above = Ok rp ->
  (forall l pol, l ∈ take (length above - 1) above -> link_policy l = Some pol -> obeys pol (default ∅ rp)) /\
  (forall merged p, MergePolicies (omap link_policy (reverse (take (length above - 1) above))) = Ok merged ->
     merged !! p = None -> default ∅ rp !! p = default ∅ (lk_RP leaf) !! p).
Proof.
  unfold applyPolicy. intros (merged & Hm & H)%result_bind_ok. apply result_bind_ok in H as (r & He & [= <-]).
  assert (default ∅ (if decide (r = ∅) then None else Some r) = r) as -> by (by case_decide).
  pose proof Hm as Hspec. apply MergePolicies_Ok in Hspec as [Hs Hc].
  apply EnforcePolicy_obeys in He as [Ho Hkeep]; [|done]. split.
  - intros l pol Hl Hpol. eapply stricter_obeys; [|exact Ho]. apply Hs.
    apply list_elem_of_omap. exists l. split; [by apply elem_of_reverse|done].
  - intros merged' p Hm' Hp. rewrite Hm in Hm'. injection Hm' as <-. by apply Hkeep.
Qed.

(** applying a policy is idempotent: metadata it has accepted and shaped is accepted
    again and left as it is. *)
Theorem policy_idempotent (merged : gmap string paramPolicy) (rp rp' : metadata) :
  EnforcePolicy merged rp = Ok rp' -> EnforcePolicy merged rp' = Ok rp'.
Proof.
  intros He. destruct (sorted_params merged) as [Hnd _]. unfold EnforcePolicy in *.
  apply enforce_params_spec in He as [H1 _]; [|done]. revert H1. clear Hnd.
  induction (merge_sort _ _) as [|param params IH]; intros H1; [done|]. cbn [enforce_params].
  destruct (H1 param) as (r & r' & Ha & Hr); [by left|].
  rewrite (applyParamPolicy_again _ _ _ _ rp' Ha (eq_sym Hr)). cbn [mbind result_bind].
  apply IH. intros p Hp. apply H1. by right.
Qed.

(** the consistency check does its work: once policies have merged, a parameter with a
    pinned value is accepted at that value whatever the leaf asserted, and one with only
    a default is accepted at the default when the leaf left it out. *)
Theorem merged_values_accepted policies merged param pp v (rp : metadata) :
  MergePolicies policies = Ok merged -> merged !! param = Some pp ->
  (pp !! opValue = Some v -> applyParamPolicy param pp rp = Ok (<[param := v]> rp)) /\
  (pp !! opValue = None -> pp !! opAdd = None -> pp !! opDefault = Some v -> rp !! param = None ->
   applyParamPolicy param pp rp = Ok (<[param := v]> rp)).
Proof.
  intros Hm Hp. apply MergePolicies_Ok in Hm as [_ Hc]. specialize (Hc param pp Hp).
  unfold checkOperatorConsistency, hasOp in Hc.
  assert (forall r, applyParamModifiers param pp rp = Ok r -> r = <[param:=v]> rp ->
    valueSatisfiesConstraints v pp = Ok () -> applyParamPolicy param pp rp = Ok (<[param:=v]> rp)) as Hk.
  { intros r Hr -> Hv. unfold applyParamPolicy. rewrite Hr. cbn [mbind result_bind].
    rewrite (constraints_accept param pp _ v) by (by rewrite ?lookup_insert_eq). cbn [mbind result_bind].
    by rewrite (essential_accepts param pp _ v) by apply lookup_insert_eq. }
  split.
  - intros Hv. rewrite Hv in Hc. rewrite bool_decide_eq_true_2 in Hc by done. cbn [andb] in Hc.
    destruct (pp !! opAdd) as [a|] eqn:Ha; [by rewrite bool_decide_eq_true_2 in Hc|].
    rewrite bool_decide_eq_false_2 in Hc by (by intros []).
    apply result_bind_ok in Hc as ([] & Hc & _). eapply Hk; [|reflexivity|exact Hc].
    unfold applyParamModifiers. rewrite Hv, Ha. cbn [mbind result_bind].
    destruct (pp !! opDefault); [by rewrite lookup_insert_eq|done].
  - intros Hv Ha Hd Habs. rewrite Hv, Ha, Hd in Hc. rewrite bool_decide_eq_false_2 in Hc by (by intros []).
    cbn [andb mbind result_bind] in Hc. apply result_bind_ok in Hc as ([] & Hc & _).
    eapply Hk; [|reflexivity|exact Hc].
    unfold applyParamModifiers. rewrite Hv, Ha. cbn [mbind result_bind]. by rewrite Hd, Habs.
Qed.

(** ** Witnesses *)

Definition anchor_policy : gmap string paramPolicy :=
  {["redirect_uris" := {[opSubsetOf := JArr [JStr "https://a/cb"; JStr "https://b/cb"]]};
    "client_name" := {[opValue := JStr "RP"]}]}.
Definition mid_policy : gmap string paramPolicy :=
  {["redirect_uris" := {[opSubsetOf := JArr [JStr "https://a/cb"; JStr "https://evil/cb"];
                         opDefault := JArr [JStr "https://a/cb"]]}]}.

Definition link (iss sub : string) (pol : option (gmap string paramPolicy)) (rp : option metadata) : chainLink :=
  {| lk_Iss := iss; lk_Sub := sub;
     lk_MetadataPolicy := match pol with Some p => {[rpMetadataType := p]} | None => ∅ end; lk_RP := rp |}.

Definition sample_leaf : chainLink := link "leaf" "leaf" None (Some {["client_name" := JStr "mine"]}).
Definition sample_above : list chainLink :=
  [link "mid" "leaf" (Some mid_policy) None; link "anchor" "mid" (Some anchor_policy) None;
   link "anchor" "anchor" None None].

Definition shaped : metadata :=
  {["client_name" := JStr "RP"; "redirect_uris" := JArr [JStr "https://a/cb"]]}.

Lemma federation_policy_enforced_witness :
  obeys anchor_policy (default ∅ (Some shaped)) /\ obeys mid_policy (default ∅ (Some shaped)).
Proof.
  destruct (federation_policy_enforced sample_leaf sample_above (Some shaped)) as [H _].
  - vm_compute. reflexivity.
  - split.
    + apply (H (link "anchor" "mid" (Some anchor_policy) None)); [right; left|vm_compute; reflexivity].
    + apply (H (link "mid" "leaf" (Some mid_policy) None)); [left|vm_compute; reflexivity].
Defined.

Lemma policy_idempotent_witness :
  EnforcePolicy anchor_policy {["client_name" := JStr "RP"]} = Ok {["client_name" := JStr "RP"]}.
Proof.
  apply (policy_idempotent anchor_policy {["client_name" := JStr "mine"]}). vm_compute. reflexivity.
Defined.

Lemma merged_values_accepted_witness :
  applyParamPolicy "client_name" {[opValue := JStr "RP"]} {["client_name" := JStr "mine"]} =
  Ok (<["client_name" := JStr "RP"]> {["client_name" := JStr "mine"]}).
Proof.
  destruct (merged_values_accepted [anchor_policy]
    {["redirect_uris" := {[opSubsetOf := JStrs ["https://a/cb"; "https://b/cb"]]};
      "client_name" := {[opValue := JStr "RP"]}]}
    "client_name" {[opValue := JStr "RP"]} (JStr "RP") {["client_name" := JStr "mine"]}) as [H _].
  - vm_compute. reflexivity.
  - vm_compute. reflexivity.
  - apply H. vm_compute. reflexivity.
Defined.

(** A subordinate's [add] to a parameter pinned above it is refused. *)
Example add_cannot_widen_pin :
  MergePolicies [{["redirect_uris" := {[opValue := JArr [JStr "https://a/cb"]]}]};
                 {["redirect_uris" := {[opAdd := JStr "https://evil/cb"]}]}] = Err ErrInconsistent.
Proof. vm_compute. reflexivity. Qed.
