(* ===== verification/JTIReplay.v ===== *)
(** * JTIReplay: the in-process replay store of token identifiers
    ([infrastructure/defaultimpl/memorystorecredential/memory_jti_replay.go]).

    [MarkSeen] holds the store's mutex and sweeps expired entries first; the
    reaper's [sweepExpired] may run at any time. *)
From S2P Require Import Prelude Core.
Local Open Scope Z_scope.

Definition DefaultJTIReplayWindow : Z := 5 * GoTime.Minute.

Inductive jti_error := ErrJTIStoreAtCapacity.

Record MemoryJTIReplayStore := {
  jti_MaxEntries : Z;
  jti_entries : gmap string Z;
}.

Definition NewMemoryJTIReplayStore (maxEntries : Z) : MemoryJTIReplayStore :=
  {| jti_MaxEntries := maxEntries; jti_entries := ∅ |}.

Definition sweepExpired (now : Z) (m : MemoryJTIReplayStore) : MemoryJTIReplayStore :=
  {| jti_MaxEntries := jti_MaxEntries m;
     jti_entries := delete_where (fun exp => negb (GoTime.After exp now)) (jti_entries m) |}.

(** The deadline recorded: one already past is kept for another second. *)
Definition recorded_expiry (now expiresAt : Z) : Z :=
  if GoTime.Before expiresAt now then GoTime.Add now GoTime.Second else expiresAt.

Definition MarkSeen (now : Z) (jti : string) (expiresAt : Z) (m : MemoryJTIReplayStore)
    : result jti_error bool * MemoryJTIReplayStore :=
  if decide (jti = "") then (Ok true, m)
  else
    let m := sweepExpired now m in
    let record := {| jti_MaxEntries := jti_MaxEntries m;
                     jti_entries := <[jti := recorded_expiry now expiresAt]> (jti_entries m) |} in
    match jti_entries m !! jti with
    | Some existing => if GoTime.After existing now then (Ok false, m) else (Ok true, record)
    | None =>
        if (0 <? jti_MaxEntries m) && (jti_MaxEntries m <=? Z.of_nat (size (jti_entries m)))
        then (Err ErrJTIStoreAtCapacity, m)
        else (Ok true, record)
    end.

Definition Forget (jti : string) (m : MemoryJTIReplayStore) : MemoryJTIReplayStore :=
  if decide (jti = "") then m
  else {| jti_MaxEntries := jti_MaxEntries m; jti_entries := delete jti (jti_entries m) |}.

(** ** Runs *)

Inductive jti_op :=
| JMark (jti : string) (expiresAt : Z)
| JForget (jti : string)
| JSweep.

Definition jti_step (m : MemoryJTIReplayStore) (x : Z * jti_op) : MemoryJTIReplayStore :=
  match x.2 with
  | JMark k e => (MarkSeen x.1 k e m).2
  | JForget k => Forget k m
  | JSweep => sweepExpired x.1 m
  end.

Definition jti_run (tr : list (Z * jti_op)) (m : MemoryJTIReplayStore) : MemoryJTIReplayStore :=
  foldl jti_step m tr.

(** ** Lemmas *)

Lemma sweep_keeps now k e m :
  jti_entries m !! k = Some e -> now < e -> jti_entries (sweepExpired now m) !! k = Some e.
Proof.
  intros Hk He. apply delete_where_lookup. split; [done|]. unfold GoTime.After.
  by rewrite (proj2 (Z.ltb_lt now e)).
Qed.

Lemma MarkSeen_live now k e e' m :
  k <> "" -> jti_entries m !! k = Some e -> now < e -> MarkSeen now k e' m = (Ok false, sweepExpired now m).
Proof.
  intros Hne Hk He. unfold MarkSeen. rewrite decide_False by done.
  rewrite (sweep_keeps now k e) by done. unfold GoTime.After. by rewrite (proj2 (Z.ltb_lt now e)).
Qed.

Lemma MarkSeen_other now k k' e' m :
  k' <> k -> jti_entries (MarkSeen now k' e' m).2 !! k =
  (if decide (k' = "") then jti_entries m else jti_entries (sweepExpired now m)) !! k.
Proof.
  intros Hne. unfold MarkSeen. case_decide; [done|]. case_match; split_if; try done; by apply lookup_insert_ne.
Qed.

(** A live entry stays until its deadline, unless it is forgotten. *)
Lemma jti_step_keeps k e m x :
  k <> "" -> jti_entries m !! k = Some e -> x.1 < e -> x.2 <> JForget k ->
  jti_entries (jti_step m x) !! k = Some e.
Proof.
  intros Hne Hk He Hf. unfold jti_step. destruct x as [now [k' e'|k'|]]; cbn in *.
  - destruct (decide (k' = k)) as [->|Hk'].
    + rewrite (MarkSeen_live now k e e' m) by done. by apply sweep_keeps.
    + rewrite MarkSeen_other by done. case_decide; [done|]. by apply sweep_keeps.
  - unfold Forget. case_decide; [done|]. cbn. rewrite lookup_delete_ne by congruence. done.
  - by apply sweep_keeps.
Qed.

Lemma jti_run_keeps k e tr m :
  k <> "" -> jti_entries m !! k = Some e -> Forall (fun x => x.1 < e /\ x.2 <> JForget k) tr ->
  jti_entries (jti_run tr m) !! k = Some e.
Proof.
  intros Hne Hk Htr. revert m Hk. unfold jti_run.
  induction Htr as [|x tr [H1 H2] _ IH]; intros m Hk; cbn; [done|]. apply IH. by apply jti_step_keeps.
Qed.

Lemma MarkSeen_first now k e m m1 :
  k <> "" -> MarkSeen now k e m = (Ok true, m1) -> jti_entries m1 !! k = Some (recorded_expiry now e).
Proof.
  intros Hne. unfold MarkSeen. rewrite decide_False by done.
  case_match; split_if; intros [= <-]; apply lookup_insert_eq.
Qed.

(** Only a bounded store fails, and the bound does not change. *)
Lemma MarkSeen_Err now k e m err m' : MarkSeen now k e m = (Err err, m') -> 0 < jti_MaxEntries m.
Proof.
  unfold MarkSeen. destruct (decide (k = "")); [done|]. destruct (_ !! _); [by destruct (GoTime.After _ _)|].
  destruct (_ && _) eqn:H; [|done]. cbn in H. intros _. lia.
Qed.
Lemma MarkSeen_MaxEntries now k e m : jti_MaxEntries (MarkSeen now k e m).2 = jti_MaxEntries m.
Proof.
  unfold MarkSeen. destruct (decide (k = "")); [done|]. destruct (_ !! k); [by destruct (GoTime.After _ _)|]. by destruct (_ && _).
Qed.

(** An entry past its deadline does not count. *)
Lemma MarkSeen_again now k e e' m :
  jti_MaxEntries m <= 0 -> jti_entries m !! k = Some e -> e <= now -> (MarkSeen now k e' m).1 = Ok true.
Proof.
  intros Hcap Hk He. unfold MarkSeen. destruct (decide (k = "")); [done|].
  assert (jti_entries (sweepExpired now m) !! k = None) as ->.
  { cbn. apply delete_where_None. right. exists e. split; [done|]. unfold GoTime.After. by rewrite (proj2 (Z.ltb_ge _ _)). }
  cbn [jti_MaxEntries sweepExpired]. by rewrite (proj2 (Z.ltb_ge 0 (jti_MaxEntries m))).
Qed.

Lemma sweep_size now m : (size (jti_entries (sweepExpired now m)) <= size (jti_entries m))%nat.
Proof. cbn. pose proof (delete_where_size (fun exp => negb (GoTime.After exp now)) (jti_entries m)). lia. Qed.

Definition jti_bounded (m : MemoryJTIReplayStore) : Prop :=
  0 < jti_MaxEntries m -> Z.of_nat (size (jti_entries m)) <= jti_MaxEntries m.

Lemma jti_step_bounded m x : jti_bounded m -> jti_bounded (jti_step m x).
Proof.
  unfold jti_bounded, jti_step. intros Hm. destruct x as [now [k e|k|]]; cbn [fst snd].
  - pose proof (sweep_size now m). unfold MarkSeen. case_decide; [done|].
    destruct (jti_entries (sweepExpired now m) !! k) eqn:Hk.
    + split_if; cbn in *; intros Hp; specialize (Hm Hp); [lia|].
      rewrite map_size_insert_Some by by eexists. cbn in *. lia.
    + destruct ((0 <? _) && _) eqn:Hc; cbn in *; intros Hp; specialize (Hm Hp); [lia|].
      rewrite map_size_insert_None by done. apply andb_false_iff in Hc as [Hc|Hc]; bool_simpl; lia.
  - unfold Forget. case_decide; [done|]. cbn. intros Hp. specialize (Hm Hp).
    rewrite map_size_delete. destruct (jti_entries m !! k); unfold id; lia.
  - pose proof (sweep_size now m). cbn in *. intros Hp. specialize (Hm Hp). lia.
Qed.

(** ** Properties *)

(** a replayed identifier is detected: after [MarkSeen] answered that an
    identifier was new, and whatever other marks, sweeps and unrelated rollbacks run
    before its recorded deadline, marking it again before that deadline answers that
    it was seen. *)
Theorem jti_replay_detected now k e m m1 tr now2 e2 :
  k <> "" -> MarkSeen now k e m = (Ok true, m1) ->
  Forall (fun x => x.1 < recorded_expiry now e /\ x.2 <> JForget k) tr ->
  now2 < recorded_expiry now e ->
  (MarkSeen now2 k e2 (jti_run tr m1)).1 = Ok false.
Proof.
  intros Hne Hm Htr Hn. apply MarkSeen_first in Hm; [|done].
  by rewrite (MarkSeen_live now2 k (recorded_expiry now e)) by eauto using jti_run_keeps.
Qed.

(** A flood cannot grow the store past its cap. *)
Theorem jti_store_bounded tr maxEntries : jti_bounded (jti_run tr (NewMemoryJTIReplayStore maxEntries)).
Proof.
  assert (forall tr m, jti_bounded m -> jti_bounded (jti_run tr m)) as H.
  { induction tr0 as [|x tr0 IH]; intros m Hm; cbn; [done|]. by apply IH, jti_step_bounded. }
  apply H. unfold jti_bounded. cbn. rewrite map_size_empty. lia.
Qed.

(** ** Witnesses *)

Lemma jti_replay_detected_witness :
  (MarkSeen 150 "a" 900 (jti_run [(120, JMark "b" 130); (140, JSweep)]
     (MarkSeen 100 "a" 300 (NewMemoryJTIReplayStore 0)).2)).1 = Ok false.
Proof.
  apply (jti_replay_detected 100 "a" 300 (NewMemoryJTIReplayStore 0)).
  - discriminate.
  - vm_compute. reflexivity.
  - repeat constructor; discriminate.
  - reflexivity.
Defined.
