(* ===== verification/Jose.v ===== *)
(** * Jose: what the server reads of a compact JWS without verifying it
    ([interfaces/sso/server_native_sso.go], [jwsSegment], [idTokenAlg],
    [idTokenDsHash], [dsHash]; [domains/tokenexchange/chainstore.go],
    [JTIFromJWTUnsafe]).

    SHA-512 and base64url decoding are written out; [json.Unmarshal] into a struct
    of one string member is the parameter [json_member], [None] when it fails and
    the empty string when the member is absent. *)
From S2P Require Import Prelude Crypto Issue.
Local Open Scope Z_scope.

(** ** SHA-512 (FIPS 180-4) *)

Module SHA512.
Definition w64 (x : Z) : Z := Z.land x (Z.ones 64).
Definition add64 (x y : Z) : Z := w64 (x + y).
Definition rotr64 (x n : Z) : Z := Z.lor (Z.shiftr x n) (w64 (Z.shiftl x (64 - n))).

(** As for SHA-256, 64 fractional bits of cube and square roots of primes. *)
Definition K512 : list Z :=
  Eval vm_compute in ((fun p => w64 (SHA256.icbrt 68 (p * 2 ^ 192) 0)) <$> SHA256.primes 410).
Definition I512 : list Z :=
  Eval vm_compute in ((fun p => w64 (Z.sqrt (p * 2 ^ 128))) <$> SHA256.primes 20).

Definition xor3 (x y z : Z) : Z := Z.lxor (Z.lxor x y) z.
Definition big0 x := xor3 (rotr64 x 28) (rotr64 x 34) (rotr64 x 39).
Definition big1 x := xor3 (rotr64 x 14) (rotr64 x 18) (rotr64 x 41).
Definition small0 x := xor3 (rotr64 x 1) (rotr64 x 8) (Z.shiftr x 7).
Definition small1 x := xor3 (rotr64 x 19) (rotr64 x 61) (Z.shiftr x 6).
Definition choose x y z := Z.lxor (Z.land x y) (Z.land (Z.lxor x (Z.ones 64)) z).

(** One [1] bit, zeros to 112 modulo 128, the bit length on 16 bytes. *)
Definition pad512 (msg : list Z) : list Z :=
  let l := Z.of_nat (length msg) in
  msg ++ [128] ++ replicate (Z.to_nat ((111 - l) mod 128)) 0 ++ SHA256.be_bytes 16 (8 * l).

Definition word64 (bs : list Z) : Z := foldl (fun acc b => acc * 256 + b) 0 bs.
Fixpoint words64 (n : nat) (bs : list Z) : list Z :=
  match n with O => [] | S n => word64 (take 8 bs) :: words64 n (drop 8 bs) end.

Fixpoint schedule512 (n : nat) (rev_w : list Z) : list Z :=
  match n with
  | O => rev rev_w
  | S n =>
      let w i := nth i rev_w 0 in
      schedule512 n (add64 (add64 (small1 (w 1%nat)) (w 6%nat)) (add64 (small0 (w 14%nat)) (w 15%nat)) :: rev_w)
  end.

Definition round512 (st : list Z) (kw : Z * Z) : list Z :=
  match st with
  | [a; b; c; d; e; f; g; h] =>
      let t1 := add64 (add64 (add64 h (big1 e)) (choose e f g)) (add64 kw.1 kw.2) in
      let t2 := add64 (big0 a) (SHA256.maj a b c) in
      [add64 t1 t2; a; b; c; add64 d t1; e; f; g]
  | _ => st
  end.

Fixpoint blocks512 (n : nat) (st ws : list Z) : list Z :=
  match n with
  | O => st
  | S n =>
      let w := schedule512 64 (rev (take 16 ws)) in
      blocks512 n (zip_with add64 st (foldl round512 st (zip K512 w))) (drop 16 ws)
  end.

Definition Sum512 (msg : list Z) : list Z :=
  let p := pad512 msg in
  mjoin (SHA256.be_bytes 8 <$> blocks512 (length p / 128) I512 (words64 (length p / 8) p)).
End SHA512.

(** FIPS 180-4's "abc" vector. *)
Example sha512_abc :
  hex_string (SHA512.Sum512 (string_bytes "abc")) =
  "ddaf35a193617abacc417349ae20413112e6fa4e89a97ea20a9eeee64b55d39a" +:+
  "2192992a274fc1a836ba3c23a3feebbd454d4423643ce80e2a9ac94fa54ca49f".
Proof. vm_compute. reflexivity. Qed.

(** ** base64url decoding *)

Fixpoint find_digit (c : ascii) (l : list ascii) (n : Z) : option Z :=
  match l with
  | [] => None
  | a :: l => if decide (a = c) then Some n else find_digit c l (n + 1)
  end.
Definition digit_value (c : ascii) : option Z := find_digit c Base64.alphabet 0.

(** Groups of four digits; a tail of two or three gives one or two bytes, whatever
    its unused bits, and a tail of one is an error. *)
Fixpoint decode_digits (ds : list Z) : option (list Z) :=
  match ds with
  | a :: b :: c :: d :: ds =>
      rest ← decode_digits ds;
      Some (a * 4 + Z.shiftr b 4 :: Z.land b 15 * 16 + Z.shiftr c 2 :: Z.land c 3 * 64 + d :: rest)
  | [a; b; c] => Some [a * 4 + Z.shiftr b 4; Z.land b 15 * 16 + Z.shiftr c 2]
  | [a; b] => Some [a * 4 + Z.shiftr b 4]
  | [_] => None
  | [] => Some []
  end.

Definition not_newline (c : ascii) : bool :=
  negb (bool_decide (Str.byte c = 10)) && negb (bool_decide (Str.byte c = 13)).

(** [base64.RawURLEncoding.DecodeString]: line breaks are skipped. *)
Definition RawURLDecode (s : list ascii) : option (list Z) :=
  ds ← mapM digit_value (List.filter not_newline s); decode_digits ds.

(** ** Compact JWS *)

(** [strings.Split(s, ".")]. *)
Fixpoint split_dots (s acc : list ascii) : list (list ascii) :=
  match s with
  | [] => [acc]
  | c :: s => if decide (c = "."%char) then acc :: split_dots s [] else split_dots s (acc ++ [c])
  end.

Definition jws_parts (compact : string) : list (list ascii) := split_dots (Str.to_list compact) [].

Definition jwsSegment (compact : string) (n : nat) : option (list Z) :=
  let parts := jws_parts compact in
  if (length parts <? 3)%nat || (length parts <=? n)%nat then None
  else part ← parts !! n; RawURLDecode part.

Section json.
Variable json_member : string -> list Z -> option string.

Definition idTokenAlg (compact : string) : option string :=
  seg ← jwsSegment compact 0; json_member "alg" seg.

Definition idTokenDsHash (compact : string) : option string :=
  seg ← jwsSegment compact 1; json_member "ds_hash" seg.

(** Three segments exactly, where [jwsSegment] asks for three at least. *)
Definition JTIFromJWTUnsafe (token : string) : string :=
  let parts := jws_parts token in
  if negb (length parts =? 3)%nat then ""
  else default "" (part ← parts !! 1%nat; raw ← RawURLDecode part; json_member "jti" raw).
End json.

Definition dsHash (alg deviceSecret : string) : string :=
  if decide (deviceSecret = "") then ""
  else
    let digest := if decide (alg = "EdDSA") then SHA512.Sum512 (string_bytes deviceSecret)
                  else SHA256.Sum256 (string_bytes deviceSecret) in
    Str.of_list (Base64.RawURLEncode (take (length digest / 2) digest)).

(** ** Lemmas *)

Lemma digit_spec x :
  digit_value (Base64.digit x) = Some (x mod 64) /\ not_newline (Base64.digit x) = true.
Proof.
  assert (forall n, (n < 64)%nat ->
    digit_value (nth n Base64.alphabet "A"%char) = Some (Z.of_nat n) /\
    not_newline (nth n Base64.alphabet "A"%char) = true) as H.
  { intros n Hn. do 64 (destruct n as [|n]; [vm_compute; by split|]). lia. }
  unfold Base64.digit. rewrite (Z.land_ones _ 6) by lia. change (2 ^ 6) with 64.
  pose proof (Z.mod_pos_bound x 64 ltac:(lia)).
  destruct (H (Z.to_nat (x mod 64))) as [H1 H2]; [lia|]. rewrite Z2Nat.id in H1 by lia. done.
Qed.

(** The values of the digits of an encoding, before masking to six bits. *)
Fixpoint sextets (bs : list Z) : list Z :=
  match bs with
  | a :: b :: c :: bs =>
      Z.shiftr a 2 :: a * 16 + Z.shiftr b 4 :: b * 4 + Z.shiftr c 6 :: c :: sextets bs
  | [a; b] => [Z.shiftr a 2; a * 16 + Z.shiftr b 4; b * 4]
  | [a] => [Z.shiftr a 2; a * 16]
  | [] => []
  end.

Lemma mapM_digits xs :
  mapM digit_value (List.filter not_newline (Base64.digit <$> xs)) = Some ((fun x => x mod 64) <$> xs).
Proof.
  induction xs as [|x xs IH]; [done|]. cbn [fmap list_fmap List.filter].
  destruct (digit_spec x) as [H1 H2]. rewrite H2. cbn [mapM]. rewrite H1. cbn. by rewrite IH.
Qed.

(** Induction on a list three elements at a time. *)
Lemma list_ind3 {A} (P : list A -> Prop) :
  P [] -> (forall a, P [a]) -> (forall a b, P [a; b]) -> (forall a b c l, P l -> P (a :: b :: c :: l)) ->
  forall l, P l.
Proof.
  intros H0 H1 H2 H3. fix IH 1. intros [|a [|b [|c l]]]; [done|apply H1|apply H2|]. apply H3, IH.
Qed.

Lemma RawURLEncode_sextets bs : Base64.RawURLEncode bs = Base64.digit <$> sextets bs.
Proof. induction bs as [| | |a b c bs IH] using list_ind3; try done. cbn. by rewrite IH. Qed.

Lemma decode_sextets bs :
  Forall is_byte bs -> decode_digits ((fun x => x mod 64) <$> sextets bs) = Some bs.
Proof.
  induction bs as [|a|a b|a b c bs IH] using list_ind3; intros Hb; [done|..];
    repeat match goal with H : Forall _ (_ :: _) |- _ => apply Forall_cons in H as [? H] end;
    unfold is_byte in *; cbn [sextets fmap list_fmap decode_digits].
  1-2: rewrite ?Z.shiftr_div_pow2, ?(Z.land_ones _ 4), ?(Z.land_ones _ 2) by lia;
    change (2 ^ 2) with 4; change (2 ^ 4) with 16; repeat f_equal; Z.to_euclidean_division_equations; lia.
  rewrite IH by done. cbn.
  rewrite ?Z.shiftr_div_pow2, ?(Z.land_ones _ 4), ?(Z.land_ones _ 2) by lia.
  change (2 ^ 2) with 4; change (2 ^ 4) with 16; change (2 ^ 6) with 64.
  repeat f_equal; Z.to_euclidean_division_equations; lia.
Qed.

(** ** Properties *)

(** base64url decoding inverts the encoding: the unpadded encoding of any byte
    string decodes to that byte string. *)
Theorem RawURLDecode_RawURLEncode bs :
  Forall is_byte bs -> RawURLDecode (Base64.RawURLEncode bs) = Some bs.
Proof.
  intros Hb. unfold RawURLDecode. rewrite RawURLEncode_sextets, mapM_digits. by apply decode_sextets.
Qed.

Lemma RawURLDecode_RawURLEncode_witness :
  RawURLDecode (Base64.RawURLEncode [0; 255; 16; 131]) = Some [0; 255; 16; 131].
Proof. apply RawURLDecode_RawURLEncode. repeat constructor; discriminate. Defined.
