(* ===== verification/ExchangeDeps.v ===== *)
(** * ExchangeDeps: what the token-exchange grant reaches beyond the other grants
    ([tokengrant/token_exchange.go], [TokenExchangeRequest] and
    [TokenExchangeDeps]; [domains/tokenexchange]; [domains/tenant/tenant_collab.go];
    [protocols/oauth/oauthwire/token_exchange_helpers.go]). *)
From S2P Require Import Prelude Crypto Core Lifecycle RefreshStore CodeStores DeviceCodes CibaStore Issue RefreshIface GraceCache Scopes GrantCore Jose.
Local Open Scope Z_scope.

(** ** Constants *)

Definition TokenTypeAccessToken : string := "urn:ietf:params:oauth:token-type:access_token".
Definition TokenTypeRefreshToken : string := "urn:ietf:params:oauth:token-type:refresh_token".
Definition TokenTypeIDToken : string := "urn:ietf:params:oauth:token-type:id_token".
Definition TokenTypeJWT : string := "urn:ietf:params:oauth:token-type:jwt".
Definition TokenTypeDeviceSecret : string := "urn:openid:params:token-type:device-secret".
Definition AMRSpiffe : string := "spiffe".
Definition AMRBreakGlass : string := "break_glass".
Definition ClaimBreakGlass : string := "break_glass".
Definition ClaimBreakGlassAdminSessionID : string := "break_glass_admin_session_id".
Definition TokenUseUnknown : string := "".
Definition TokenUseAccessToken : string := "access_token".
Definition TokenUseIDToken : string := "id_token".
Definition KeyIssuedTokenType : string := "issued_token_type".
Definition KeyIss : string := "iss".
Definition ErrDeviceSecretNotConfigured : string := "device_secret_not_configured".

(** ** Claims of a validated token *)

Definition IsAccessTokenClaims (claims : option TokenClaims) : bool :=
  match claims with
  | Some c => bool_decide (tc_TokenUse c = TokenUseUnknown) || bool_decide (tc_TokenUse c = TokenUseAccessToken)
  | None => false
  end.

Definition IsIDTokenClaims (claims : option TokenClaims) : bool :=
  match claims with
  | Some c => bool_decide (tc_TokenUse c = TokenUseUnknown) || bool_decide (tc_TokenUse c = TokenUseIDToken)
  | None => false
  end.

Definition TokenClaimsMatchDeclaredType (claims : option TokenClaims) (declaredType : string) : bool :=
  if decide (declaredType = TokenTypeAccessToken) then IsAccessTokenClaims claims
  else if decide (declaredType = TokenTypeIDToken) then IsIDTokenClaims claims
  else match claims with Some _ => true | None => false end.

Definition IsBreakGlassImpersonationClaims (c : TokenClaims) : bool :=
  if negb (bool_decide (default "" (tc_Extra c !! ClaimBreakGlassAdminSessionID) = ""))
     || bool_decide (default "" (tc_Extra c !! ClaimBreakGlass) = "true")
  then true
  else contains (tc_AMR c) AMRBreakGlass.

(** [Client.AreResourcesAllowed]. *)
Definition AreResourcesAllowed (c : Client) (requested : list string) : bool :=
  match requested, cl_AllowedResources c with
  | [], _ | _, [] => true
  | _, allowed => forallb (contains allowed) requested
  end.

Definition ACRMatchesAny (inbound : string) (demanded : list string) : bool :=
  if bool_decide (inbound = "") || bool_decide (demanded = []) then false else contains demanded inbound.

(** One loop of [MergeTargets]; [seen] holds what [out] holds. *)
Fixpoint merge_into (out l : list string) : list string :=
  match l with
  | [] => out
  | s :: l => if bool_decide (s = "") || contains out s then merge_into out l else merge_into (out ++ [s]) l
  end.

Definition MergeTargets (primary secondary : list string) : list string :=
  merge_into (merge_into [] primary) secondary.

(** ** Delegation chains *)

Definition MaxActChainDepth : Z := 10.

Fixpoint actChainDepth (actor : ActorClaim) : Z :=
  match actor with ActorNil => 0 | Actor _ act => 1 + actChainDepth act end.

(** The identities of a chain, most recent first. *)
Fixpoint actors (actor : ActorClaim) : list string :=
  match actor with ActorNil => [] | Actor s act => s :: actors act end.

(** The loop of [tokExActorChainHasCycle]. *)
Fixpoint acts_as (sub : string) (actor : ActorClaim) : bool :=
  match actor with ActorNil => false | Actor s act => bool_decide (s = sub) || acts_as sub act end.

Definition tokExActorChainHasCycle (actor : ActorClaim) : bool :=
  match actor with ActorNil => false | Actor s act => acts_as s act end.

Definition actor_subject (actor : ActorClaim) : string :=
  match actor with ActorNil => "" | Actor s _ => s end.

(** ** The operator's hop policy *)

Record Hop := {
  hop_SubjectID : string;
  hop_ActorSubject : string;
  hop_ClientID : string;
  hop_RequestedTokenType : string;
  hop_Scopes : list string;
  hop_Resources : list string;
}.

Record Rule := {
  rule_Name : string;
  rule_SubjectID : string;
  rule_ActorSubject : string;
  rule_ClientID : string;
  rule_Deny : bool;
}.

(** An empty field of a rule matches anything. *)
Definition field_matches (r h : string) : bool := bool_decide (r = "") || bool_decide (r = h).

Definition ruleMatches (r : Rule) (h : Hop) : bool :=
  field_matches (rule_SubjectID r) (hop_SubjectID h) &&
  field_matches (rule_ActorSubject r) (hop_ActorSubject h) &&
  field_matches (rule_ClientID r) (hop_ClientID h).

Fixpoint Evaluate (h : Hop) (rules : list Rule) (defaultAllow : bool) : bool :=
  match rules with
  | [] => defaultAllow
  | r :: rules => if ruleMatches r h then negb (rule_Deny r) else Evaluate h rules defaultAllow
  end.

(** ** Records of other components *)

Record ChainHop := {
  ch_JTI : string;
  ch_ParentJTI : string;
  ch_SubjectID : string;
  ch_ActorSubject : string;
  ch_ClientID : string;
  ch_ChainDepth : Z;
  ch_RecordedAt : Z;
}.

Record GuestRecord := {
  gr_GuestTenantID : string;
  gr_HomeTenantID : string;
  gr_ExternalSubjectID : string;
  gr_Roles : list string;
  gr_Attributes : gmap string string;
  gr_CreatedAt : Z;
}.

Record SPIFFEID := {
  sp_TrustDomain : string;
  sp_Path : string;
  sp_Namespace : string;
  sp_ServiceAccount : string;
  sp_URI : string;
}.

Definition SPIFFEID_Attributes (s : SPIFFEID) : gmap string string :=
  let attrs := <["spiffe_trust_domain" := sp_TrustDomain s]> $ <["spiffe_id" := sp_URI s]> ∅ in
  let attrs := if decide (sp_Namespace s = "") then attrs else <["spiffe_namespace" := sp_Namespace s]> attrs in
  if decide (sp_ServiceAccount s = "") then attrs
  else <["spiffe_service_account" := sp_ServiceAccount s]> attrs.

(** ** The request and the operations *)

Record ExchangeRequest := {
  xr_base : Request;
  xr_SubjectToken : string;
  xr_SubjectTokenType : string;
  xr_ActorToken : string;
  xr_ActorTokenType : string;
  xr_Resource : list string;
  xr_Audience : list string;
  xr_Scope : string;
  xr_RequestedTokenType : string;
  xr_ACRValues : string;
}.

(** The optional parts are [None] when they are nil.  [ResolveLocalSubject] gives the
    subject it returns and whether it also returns an error, because one caller
    ignores the error and keeps the subject. *)
Record ExchangeDeps (X : Type) := {
  xd_deps : Deps X;
  xd_ValidateAnyToken : X -> string -> result () (option TokenClaims);
  xd_ResolveLocalSubject : X -> string -> string * bool;
  xd_SPIFFEValidator : option (X -> string -> string -> result () SPIFFEID);
  xd_SPIFFEAudience : string;
  xd_JTIReplayStore : option (Z -> string -> Z -> X -> result () bool * X);
  xd_JTIReplayFailClosed : bool;
  xd_Auditor : bool;
  xd_MaxTokenExchangeChainLifetime : Z;
  xd_TokenExchangePolicy : option (Hop -> X -> result () bool * X);
  xd_ExternalUserStore : option (X -> string -> string -> result () (option GuestRecord));
  xd_TenantCollaborationStore : option (X -> string -> string -> result () bool);
  xd_HomeTenantForClient : X -> string -> string;
  xd_TokenExchangeChainStore : option (ChainHop -> X -> result () () * X);
  xd_resolveIssuer : string;
  xd_json_member : string -> list Z -> option string;
}.
Arguments xd_deps {X}. Arguments xd_ValidateAnyToken {X}. Arguments xd_ResolveLocalSubject {X}.
Arguments xd_SPIFFEValidator {X}. Arguments xd_SPIFFEAudience {X}. Arguments xd_JTIReplayStore {X}.
Arguments xd_JTIReplayFailClosed {X}. Arguments xd_Auditor {X}.
Arguments xd_MaxTokenExchangeChainLifetime {X}. Arguments xd_TokenExchangePolicy {X}.
Arguments xd_ExternalUserStore {X}. Arguments xd_TenantCollaborationStore {X}.
Arguments xd_HomeTenantForClient {X}. Arguments xd_TokenExchangeChainStore {X}.
Arguments xd_resolveIssuer {X}. Arguments xd_json_member {X}.

(** ** Lemmas *)

Lemma acts_as_spec sub actor : acts_as sub actor = true <-> sub ∈ actors actor.
Proof.
  induction actor as [|s act IH]; cbn; [split; [done|by intros ?%elem_of_nil]|].
  rewrite elem_of_cons, orb_true_iff, bool_decide_eq_true, IH. naive_solver.
Qed.

Lemma actChainDepth_length actor : actChainDepth actor = Z.of_nat (length (actors actor)).
Proof. induction actor; cbn -[Z.of_nat]; lia. Qed.

Lemma merge_into_spec out l :
  NoDup out -> NoDup (merge_into out l) /\
  forall s, s ∈ merge_into out l <-> s ∈ out \/ (s ∈ l /\ s <> "").
Proof.
  revert out. induction l as [|a l IH]; intros out Hnd; cbn.
  { split; [done|]. intros s. rewrite elem_of_nil. tauto. }
  destruct (bool_decide (a = "") || contains out a) eqn:E.
  - destruct (IH out Hnd) as [H1 H2]. split; [done|]. intros s. rewrite H2, elem_of_cons.
    apply orb_true_iff in E as [E|E]; [bool_simpl|apply contains_spec in E]; naive_solver.
  - bool_simpl. assert (a ∉ out) as Ha by (rewrite <- contains_spec; congruence).
    destruct (IH (out ++ [a])) as [H1 H2].
    { apply NoDup_app. split_and!; [done| |apply NoDup_singleton]. intros s Hs ->%list_elem_of_singleton. done. }
    split; [done|]. intros s. rewrite H2, elem_of_app, list_elem_of_singleton, elem_of_cons. naive_solver.
Qed.

Lemma MergeTargets_spec primary secondary :
  NoDup (MergeTargets primary secondary) /\
  forall s, s ∈ MergeTargets primary secondary <-> s <> "" /\ (s ∈ primary \/ s ∈ secondary).
Proof.
  unfold MergeTargets. destruct (merge_into_spec [] primary NoDup_nil_2) as [H1 H2].
  destruct (merge_into_spec _ secondary H1) as [H3 H4]. split; [done|].
  intros s. rewrite H4, H2, elem_of_nil. naive_solver.
Qed.

Lemma AreResourcesAllowed_spec c l :
  AreResourcesAllowed c l = true -> cl_AllowedResources c = [] \/ l ⊆ cl_AllowedResources c.
Proof.
  unfold AreResourcesAllowed. destruct l as [|r l]; [by right; intros ? ?%elem_of_nil|].
  destruct (cl_AllowedResources c) as [|a al]; [by left|]. intros H. right. intros s Hs.
  rewrite forallb_forall in H. apply contains_spec, H. by apply list_elem_of_In.
Qed.

(** ** Properties *)

Definition applies (r : Rule) (h : Hop) : Prop :=
  (rule_SubjectID r = "" \/ rule_SubjectID r = hop_SubjectID h) /\
  (rule_ActorSubject r = "" \/ rule_ActorSubject r = hop_ActorSubject h) /\
  (rule_ClientID r = "" \/ rule_ClientID r = hop_ClientID h).

Lemma ruleMatches_spec r h : ruleMatches r h = true <-> applies r h.
Proof.
  unfold ruleMatches, applies, field_matches.
  rewrite !andb_true_iff, !orb_true_iff, !bool_decide_eq_true. tauto.
Qed.

(** the hop policy is decided by its first applicable rule: a hop is allowed if
    and only if either no rule applies and the default allows, or the first rule whose
    non-empty fields all equal the hop's is not a denial; rules after it never count. *)
Theorem Evaluate_first_match h rules defaultAllow :
  Evaluate h rules defaultAllow = true <->
  (defaultAllow = true /\ Forall (fun r => ~ applies r h) rules) \/
  exists before r after, rules = before ++ r :: after /\ Forall (fun r => ~ applies r h) before /\
    applies r h /\ rule_Deny r = false.
Proof.
  induction rules as [|r rules IH]; cbn.
  { split; [auto|]. intros [[H _]|(b & r & a & H & _)]; [done|]. by destruct b. }
  destruct (ruleMatches r h) eqn:E.
  - apply ruleMatches_spec in E. rewrite negb_true_iff. split.
    + intros Hd. right. exists [], r, rules. by split_and!.
    + intros [[_ Hf]|(b & r' & a & Heq & Hf & Ha & Hd)].
      * apply Forall_cons in Hf as [Hf _]. done.
      * destruct b as [|r0 b]; injection Heq as -> ->; [done|]. apply Forall_cons in Hf as [Hf _]. done.
  - assert (~ applies r h) as Hn by (rewrite <- ruleMatches_spec; congruence). rewrite IH. split.
    + intros [[Hd Hf]|(b & r' & a & -> & Hf & Ha & Hd)].
      * left. split; [done|]. by constructor.
      * right. exists (r :: b), r', a. split_and!; [done|by constructor|done..].
    + intros [[Hd Hf]|(b & r' & a & Heq & Hf & Ha & Hd)].
      * left. split; [done|]. by apply Forall_cons in Hf as [_ Hf].
      * destruct b as [|r0 b]; injection Heq as -> ->; [done|]. apply Forall_cons in Hf as [_ Hf].
        right. by exists b, r', a.
Qed.
