(* ===== verification/NativeSSO.v ===== *)
(** * NativeSSO: the device-secret exchange of OpenID Connect Native SSO
    ([interfaces/sso/server_native_sso.go], [handleDeviceSecretExchange]).

    A second application trades the first one's ID token and the device secret for
    tokens of its own.  The secret is consumed before it is known to belong to the
    subject of the ID token. *)
From S2P Require Import Prelude Crypto Core Lifecycle RefreshStore CodeStores DeviceCodes CibaStore Issue RefreshIface GraceCache Scopes GrantCore GrantMint AuthCodeGrant Jose ExchangeDeps.
Local Open Scope Z_scope.

Section native_sso.
Context {St X : Type}.
Abbreviation G A := (M (World St X) A).
Implicit Types (d : ExchangeDeps X) (q : ExchangeRequest).

Definition xr_client q : Client := q_client (xr_base q).
Definition xr_jkt q : string := q_dpopJKT (xr_base q).
Definition xr_x5t q : string := q_mtlsX5T (xr_base q).

(** Emit an audit event when an auditor is wired. *)
Definition audit d (e : event) : G () := if xd_Auditor d then emit e else mret ().

(** The [fail] closure: record the reason, answer the uniform error. *)
Definition native_fail {A} d q (claims : TokenClaims) (reason : string) : G (option A) :=
  _ ← audit d (EvNativeSSOFailure (cl_ID (xr_client q)) (tc_Subject claims) reason);
  deny 400 ErrInvalidGrant.

(** [subtle.ConstantTimeCompare] is equality. *)
Definition validateDeviceSecretExchange d q (claims : TokenClaims) (rawIDToken deviceSecret : string)
    : G (option DeviceSecret) :=
  if negb (bool_decide (xr_SubjectTokenType q = TokenTypeIDToken))
  then native_fail d q claims "subject_token_type not id_token"
  else match idTokenAlg (xd_json_member d) rawIDToken with
  | None => native_fail d q claims "id_token header unreadable"
  | Some alg =>
      let storedDsHash := default "" (idTokenDsHash (xd_json_member d) rawIDToken) in
      if decide (storedDsHash = "") then native_fail d q claims "id_token missing ds_hash"
      else if negb (bool_decide (dsHash alg deviceSecret = storedDsHash))
      then native_fail d q claims "ds_hash mismatch"
      else
        now ← gets sv_now;
        binding ← on_secrets (ConsumeSecret now deviceSecret);
        match binding with
        | Err _ => native_fail d q claims "device_secret not found"
        | Ok binding =>
            if negb (bool_decide (ds_Subject binding = tc_Subject claims))
            then native_fail d q claims "subject mismatch"
            else if negb (bool_decide (ds_SID binding = "")) && negb (bool_decide (tc_SID claims = ""))
                    && negb (bool_decide (ds_SID binding = tc_SID claims))
            then native_fail d q claims "session mismatch"
            else mret (Some binding)
        end
  end.

Definition native_requested q : list string :=
  if decide (xr_Scope q = "") then [] else Str.fields (xr_Scope q).

Definition authorizeNativeSSOScopesResources d q (claims : TokenClaims) : G (option (list string * list string)) :=
  match GrantedScopes (native_requested q) (Some (xr_client q)) with
  | Err _ => native_fail d q claims "scope not allowed"
  | Ok scopes =>
      let resources := MergeTargets (xr_Resource q) (xr_Audience q) in
      if negb (AreResourcesAllowed (xr_client q) resources)
      then native_fail d q claims "resource not allowed"
      else mret (Some (scopes, resources))
  end.

Definition nativeSubject q (claims : TokenClaims) (issuedSub : string) (resources : list string) : Subject :=
  let client := xr_client q in
  {| su_ID := issuedSub; su_Provider := ""; su_Claims := ∅; su_Resources := resources;
     su_ClientID := cl_ID client; su_AuthTime := tc_AuthTime claims; su_AMR := tc_AMR claims;
     su_ACR := tc_ACR claims; su_AuthorizationDetails := ""; su_TTL := cl_AccessTokenTTL client;
     su_SID := tc_SID claims; su_ServingRegion := q_region (xr_base q); su_TenantID := cl_TenantID client;
     su_Roles := []; su_ConfirmationJKT := ""; su_ConfirmationX5TS256 := ""; su_NotAfter := 0;
     su_Actor := ActorNil; su_RequestedClaims := "" |}.

(** The resolver's error is ignored: the subject it returns is used either way. *)
Definition native_subject d q (claims : TokenClaims) (x : X) : string :=
  dp_ApplyPairwiseSubject (xd_deps d) x (xr_client q) (xd_ResolveLocalSubject d x (tc_Subject claims)).1.

Definition mintNativeSSOAccessToken d q (claims : TokenClaims) (scopes resources : list string)
    : G (option (Token * string * string)) :=
  issuer ← gets (fun v => dp_IssuerForClient (xd_deps d) (sv_x v) (xr_client q));
  match issuer with
  | None => deny 500 ErrNoTokenStrategy
  | Some (strategy, ti) =>
      issuedSub ← gets (fun v => native_subject d q claims (sv_x v));
      token ← on_x (ti_Issue ti (nativeSubject q claims issuedSub resources) scopes);
      match token with
      | Err e => _ ← emit (EvLog "native sso token issuance failed"); _ ← writeTokenIssueError e; mret None
      | Ok token => mret (Some (token, strategy, issuedSub))
      end
  end.

(** The ID token of the response, which is left out on any failure. *)
Definition native_id_token d q (claims : TokenClaims) (scopes : list string) (token : Token)
    (issuedSub newDeviceSecret : string) (resp : body) : G body :=
  if negb (contains scopes ScopeOpenID) then mret resp
  else
    issuer ← gets (fun v => dp_IDTokenIssuerForClient (xd_deps d) (sv_x v) (xr_client q));
    match issuer with
    | Some (Some issue) =>
        idToken ← on_x (issue
          {| ir_Subject := issuedSub; ir_Audience := cl_ID (xr_client q); ir_Nonce := "";
             ir_AuthTime := tc_AuthTime claims; ir_AMR := tc_AMR claims; ir_ACR := tc_ACR claims;
             ir_AZP := ""; ir_Claims := ∅; ir_TTL := 0; ir_AccessToken := tk_AccessToken token;
             ir_DeviceSecret := newDeviceSecret; ir_RequestedClaims := ""; ir_GrantedScopes := scopes;
             ir_GrantedResources := tc_Resources claims;
             ir_AuthorizationDetails := tc_AuthorizationDetails claims; ir_SID := tc_SID claims;
             ir_ServingRegion := q_region (xr_base q) |});
        match idToken with
        | Err _ => mret resp
        | Ok idToken =>
            enc ← gets (fun v => dp_MaybeEncryptIDToken (xd_deps d) (sv_x v) (xr_client q) idToken);
            match enc with
            | Some enc => mret (<[KeyIDToken := VStr enc]> resp)
            | None => mret resp
            end
        end
    | _ => mret resp
    end.

Definition native_base d (token : Token) (strategy : string) : body :=
  <[KeyAccessToken := VStr (tk_AccessToken token)]> $
  <[KeyIssuedTokenType := VStr TokenTypeAccessToken]> $
  <[KeyTokenType := VStr (tk_TokenType token)]> $
  <[KeyExpiresIn := VInt (tk_ExpiresIn token)]> $
  <[KeyScope := VStr (tk_Scope token)]> $
  <[KeyTokenStrategy := VStr strategy]> $
  <[KeyIss := VStr (xd_resolveIssuer d)]> ∅.

Definition buildNativeSSOResponse d q (claims : TokenClaims) (scopes : list string) (token : Token)
    (strategy issuedSub newDeviceSecret : string) : G body :=
  resp ← native_id_token d q claims scopes token issuedSub newDeviceSecret (native_base d token strategy);
  mret (add_secret newDeviceSecret resp).

(** The next device secret, [""] when none is issued. *)
Definition native_reissue d q (claims : TokenClaims) (scopes : list string) (issuedSub : string) : G string :=
  if contains scopes ScopeDeviceSSO then
    ds ← issueDeviceSecret (xd_deps d) (q_secret (xr_base q)) issuedSub (tc_SID claims) (cl_ID (xr_client q));
    match ds with
    | Some ds => mret ds
    | None => _ ← emit (EvLog "native sso device secret reissue failed"); mret ""
    end
  else mret "".

Definition issueNativeSSOTokens d q (claims : TokenClaims) (scopes resources : list string)
    (binding : DeviceSecret) : G () :=
  obtain (mintNativeSSOAccessToken d q claims scopes resources) (fun '(token, strategy, issuedSub) =>
  newDeviceSecret ← native_reissue d q claims scopes issuedSub;
  resp ← buildNativeSSOResponse d q claims scopes token strategy issuedSub newDeviceSecret;
  _ ← emit (EvTokenIssued (cl_ID (xr_client q)) strategy issuedSub);
  _ ← audit d (EvNativeSSOExchange (cl_ID (xr_client q)) issuedSub (ds_ClientID binding));
  respond (ROK resp)).

Definition handleDeviceSecretExchange d q (claims : TokenClaims) (rawIDToken deviceSecret : string) : G () :=
  obtain (validateDeviceSecretExchange d q claims rawIDToken deviceSecret) (fun binding =>
  obtain (authorizeNativeSSOScopesResources d q claims) (fun '(scopes, resources) =>
  issueNativeSSOTokens d q claims scopes resources binding)).

(** ** Lemmas *)

Lemma silent_audit d e : silent (audit d e).
Proof. unfold audit. count. Qed.
Hint Resolve silent_audit : core.

Lemma resolves_native_fail {A} d q c r : resolves (A:=A) (native_fail d q c r).
Proof. apply resolves_silent; [done|]. intros. apply resolves_deny. Qed.
Lemma denies_native_fail {A} d q c r : denies (A:=A) (native_fail d q c r).
Proof. apply denies_silent; [done|]. intros. apply denies_deny. Qed.
Hint Resolve resolves_native_fail denies_native_fail : core.

Lemma resolves_native_validate d q c raw ds : resolves (validateDeviceSecretExchange d q c raw ds).
Proof. unfold validateDeviceSecretExchange. resolving. Qed.
Lemma denies_native_validate d q c raw ds : denies (validateDeviceSecretExchange d q c raw ds).
Proof. unfold validateDeviceSecretExchange. resolving. Qed.
Lemma resolves_native_authorize d q c : resolves (authorizeNativeSSOScopesResources d q c).
Proof. unfold authorizeNativeSSOScopesResources. resolving. Qed.
Lemma denies_native_authorize d q c : denies (authorizeNativeSSOScopesResources d q c).
Proof. unfold authorizeNativeSSOScopesResources. resolving. Qed.

Lemma resolves_issue_failed {A} e : resolves (A:=A) (_ ← writeTokenIssueError (St:=St) (X:=X) e; mret None).
Proof. destruct e as [[st c]|]; apply resolves_deny. Qed.
Lemma denies_issue_failed {A} e : denies (A:=A) (_ ← writeTokenIssueError (St:=St) (X:=X) e; mret None).
Proof. destruct e as [[st c]|]; apply denies_deny. Qed.
Hint Resolve resolves_issue_failed denies_issue_failed : core.

Lemma resolves_native_mint d q c s r : resolves (mintNativeSSOAccessToken d q c s r).
Proof. unfold mintNativeSSOAccessToken. resolving. Qed.
Lemma denies_native_mint d q c s r : denies (mintNativeSSOAccessToken d q c s r).
Proof. unfold mintNativeSSOAccessToken. resolving. Qed.

Lemma silent_native_reissue d q c s sub : silent (native_reissue d q c s sub).
Proof. unfold native_reissue, issueDeviceSecret. count. Qed.
Lemma silent_native_build d q c s t st sub ds : silent (buildNativeSSOResponse d q c s t st sub ds).
Proof. unfold buildNativeSSOResponse, native_id_token. count. Qed.

Lemma once_native d q c raw ds : answers_once (handleDeviceSecretExchange d q c raw ds).
Proof.
  apply once_obtain; [apply resolves_native_validate|]. intros binding.
  apply once_obtain; [apply resolves_native_authorize|]. intros [scopes resources].
  apply once_obtain; [apply resolves_native_mint|]. intros [[token strategy] sub].
  apply silent_bind; [apply silent_native_reissue|]. intros nds.
  apply silent_bind; [apply silent_native_build|]. intros resp.
  apply silent_bind; [apply silent_emit|]. intros _. apply silent_bind; [done|]. intros _. apply once_respond.
Qed.

(** ** What a success rests on *)

(** The checks that bind the secret to the ID token. *)
Definition native_bound d q (claims : TokenClaims) (rawIDToken deviceSecret : string) (binding : DeviceSecret) : Prop :=
  xr_SubjectTokenType q = TokenTypeIDToken /\
  (exists alg, idTokenAlg (xd_json_member d) rawIDToken = Some alg /\ dsHash alg deviceSecret <> "" /\
     idTokenDsHash (xd_json_member d) rawIDToken = Some (dsHash alg deviceSecret)) /\
  ds_Subject binding = tc_Subject claims /\
  (ds_SID binding = "" \/ tc_SID claims = "" \/ ds_SID binding = tc_SID claims).

Definition spend_secret (deviceSecret : string) (w : World St X) : World St X :=
  set_srv (with_secrets (ConsumeSecret (sv_now (w_srv w)) deviceSecret (sv_secrets (w_srv w))).2) w.

Lemma native_fail_None {A} d q c r w (a : A) w1 : native_fail d q c r w <> (Some a, w1).
Proof. unfold native_fail. by rewrite M_bind_unfold. Qed.

Lemma native_validate_Some d q claims raw ds w binding w1 :
  validateDeviceSecretExchange d q claims raw ds w = (Some binding, w1) ->
  w1 = spend_secret ds w /\ native_bound d q claims raw ds binding /\
  dss_secrets (sv_secrets (w_srv w)) !! ds = Some binding /\
  DeviceSecret_IsExpired (sv_now (w_srv w)) binding = false.
Proof.
  unfold validateDeviceSecretExchange, native_bound, spend_secret.
  destruct (bool_decide (xr_SubjectTokenType q = _)) eqn:E1; [|by intros ?%native_fail_None]. cbn [negb].
  destruct (idTokenAlg _ raw) as [alg|] eqn:E2; [|by intros ?%native_fail_None]. cbn zeta.
  destruct (decide (default "" _ = "")) as [Hh|Hh]; [by intros ?%native_fail_None|].
  destruct (bool_decide (dsHash alg ds = _)) eqn:E3; [|by intros ?%native_fail_None]. cbn [negb].
  rewrite !M_bind_unfold. cbn [gets fst snd]. unfold on_secrets.
  destruct (ConsumeSecret _ _ _) as [[b|e] m] eqn:Hc; cbn [fst snd]; [|by intros ?%native_fail_None].
  destruct (bool_decide (ds_Subject b = _)) eqn:E4; [|by intros ?%native_fail_None]. cbn [negb].
  destruct (negb (bool_decide (ds_SID b = "")) && _ && _) eqn:E5; [by intros ?%native_fail_None|]. intros [= <- <-].
  assert ((ConsumeSecret (sv_now (w_srv w)) ds (sv_secrets (w_srv w))).1 = Ok b) as Hv by by rewrite Hc.
  apply ConsumeSecret_value in Hv as [Hv1 Hv2]. bool_simpl. split_and!; try done.
  - exists alg. split; [done|]. destruct (idTokenDsHash _ raw); cbn in *; [|done]. by subst.
  - apply andb_false_iff in E5 as [E5|E5]; [apply andb_false_iff in E5 as [E5|E5]|]; bool_simpl; auto.
Qed.

Lemma native_authorize_Some d q claims w scopes resources w1 :
  authorizeNativeSSOScopesResources d q claims w = (Some (scopes, resources), w1) ->
  w1 = w /\ GrantedScopes (native_requested q) (Some (xr_client q)) = Ok scopes /\
  resources = MergeTargets (xr_Resource q) (xr_Audience q) /\ AreResourcesAllowed (xr_client q) resources = true.
Proof.
  unfold authorizeNativeSSOScopesResources. destruct (GrantedScopes _ _) as [s|e]; [|by intros ?%native_fail_None].
  destruct (AreResourcesAllowed _ _) eqn:E; [|by intros ?%native_fail_None]. by intros [= <- <- <-].
Qed.

Lemma native_mint_Some d q claims scopes resources w token strategy sub w1 :
  mintNativeSSOAccessToken d q claims scopes resources w = (Some (token, strategy, sub), w1) ->
  exists ti x', dp_IssuerForClient (xd_deps d) (sv_x (w_srv w)) (xr_client q) = Some (strategy, ti) /\
    sub = native_subject d q claims (sv_x (w_srv w)) /\
    ti_Issue ti (nativeSubject q claims sub resources) scopes (sv_x (w_srv w)) = (Ok token, x') /\
    w1 = set_srv (with_x x') w.
Proof.
  unfold mintNativeSSOAccessToken. rewrite M_bind_unfold. cbn [gets fst snd].
  destruct (dp_IssuerForClient _ _ _) as [[st ti]|]; [|done].
  rewrite !M_bind_unfold. cbn [gets fst snd]. unfold on_x.
  destruct (ti_Issue _ _ _ _) as [[tok|e] x'] eqn:Hi; cbn [fst snd].
  - intros [= <- <- <- <-]. exists ti, x'. by split_and!.
  - destruct e as [[]|]; by cbn.
Qed.

(** What the exchange leaves in the secret store beside the spent secret. *)
Definition reissued d q (claims : TokenClaims) (scopes : list string) (sub : string) (now : Z)
    (ds : string) (m m' : MemoryDeviceSecretStore) : Prop :=
  (ds = "" /\ m' = m) \/
  (ScopeDeviceSSO ∈ scopes /\ q_secret (xr_base q) = Some ds /\
   m' = IssueSecret {| ds_Secret := ds; ds_Subject := sub; ds_SID := tc_SID claims;
     ds_ClientID := cl_ID (xr_client q); ds_ExpiresAt := GoTime.Add now (device_secret_ttl (xd_deps d)) |} m).

Lemma native_reissue_spec d q claims scopes sub w :
  let r := native_reissue d q claims scopes sub w in
  reissued d q claims scopes sub (sv_now (w_srv w)) r.1 (sv_secrets (w_srv w)) (sv_secrets (w_srv r.2)).
Proof.
  unfold native_reissue, reissued. destruct (contains scopes ScopeDeviceSSO) eqn:E; [|by left].
  apply contains_spec in E. rewrite M_bind_unfold. unfold issueDeviceSecret.
  destruct (q_secret (xr_base q)) as [s|]; [|by left]. right. by split_and!.
Qed.

Lemma native_build_frame {T} (p : Server St X -> T) d q c s t st sub ds :
  (forall x v, p (with_x x v) = p v) -> frame p (buildNativeSSOResponse d q c s t st sub ds).
Proof.
  intros Hp. unfold buildNativeSSOResponse, native_id_token.
  repeat first [by apply frame_on_x | progress framing].
Qed.

Lemma native_build_access d q c s t st sub ds w :
  (buildNativeSSOResponse d q c s t st sub ds w).1 !! KeyAccessToken = Some (VStr (tk_AccessToken t)).
Proof.
  unfold buildNativeSSOResponse. rewrite M_bind_unfold. cbn [mret M_ret fst].
  assert ((native_id_token d q c s t sub ds (native_base d t st) w).1 !! KeyAccessToken =
          Some (VStr (tk_AccessToken t))) as Hb.
  { assert (native_base d t st !! KeyAccessToken = Some (VStr (tk_AccessToken t))) as Hb
      by (unfold native_base; by simplify_map_eq).
    unfold native_id_token. destruct (negb _); [exact Hb|]. rewrite M_bind_unfold. cbn [gets fst snd].
    destruct (dp_IDTokenIssuerForClient _ _ _) as [[issue|]|]; [|exact Hb..]. rewrite M_bind_unfold.
    destruct (on_x _ w) as [[tok|e] w1]; cbn [fst snd]; [|exact Hb]. rewrite M_bind_unfold. cbn [gets fst snd].
    destruct (dp_MaybeEncryptIDToken _ _ _ _); [|exact Hb]. cbn. by rewrite lookup_insert_ne. }
  unfold add_secret. case_decide; [done|]. by rewrite lookup_insert_ne.
Qed.

(** ** Properties *)

Lemma native_success d q claims raw ds w w' b :
  handleDeviceSecretExchange d q claims raw ds w = ((), w') -> w_out w' = w_out w ++ [ROK b] ->
  exists binding scopes resources strategy ti token x' nds,
    dss_secrets (sv_secrets (w_srv w)) !! ds = Some binding /\
    DeviceSecret_IsExpired (sv_now (w_srv w)) binding = false /\
    native_bound d q claims raw ds binding /\
    GrantedScopes (native_requested q) (Some (xr_client q)) = Ok scopes /\
    resources = MergeTargets (xr_Resource q) (xr_Audience q) /\ AreResourcesAllowed (xr_client q) resources = true /\
    dp_IssuerForClient (xd_deps d) (sv_x (w_srv w)) (xr_client q) = Some (strategy, ti) /\
    ti_Issue ti (nativeSubject q claims (native_subject d q claims (sv_x (w_srv w))) resources) scopes
      (sv_x (w_srv w)) = (Ok token, x') /\
    b !! KeyAccessToken = Some (VStr (tk_AccessToken token)) /\
    reissued d q claims scopes (native_subject d q claims (sv_x (w_srv w))) (sv_now (w_srv w)) nds
      {| dss_secrets := delete ds (dss_secrets (sv_secrets (w_srv w))) |} (sv_secrets (w_srv w')) /\
    sv_refresh (w_srv w') = sv_refresh (w_srv w).
Proof.
  unfold handleDeviceSecretExchange. intros Hw Ho.
  eapply obtain_ok in Hw as (binding & w1 & Hv & O1 & Hw);
    [|apply resolves_native_validate|apply denies_native_validate|exact Ho].
  apply native_validate_Some in Hv as (-> & Hb & Hl & Hx). rewrite <- O1 in Ho.
  eapply obtain_ok in Hw as ([scopes resources] & w1 & Ha & _ & Hw);
    [|apply resolves_native_authorize|apply denies_native_authorize|exact Ho].
  apply native_authorize_Some in Ha as (-> & Hs & Hr & Hra).
  eapply obtain_ok in Hw as ([[token strategy] sub] & w1 & Hm & O2 & Hw);
    [|apply resolves_native_mint|apply denies_native_mint|exact Ho].
  apply native_mint_Some in Hm as (ti & x' & Hi & Hsub & Ht & ->).
  change (sv_x (w_srv (spend_secret ds w))) with (sv_x (w_srv w)) in *.
  set (w1 := set_srv (with_x x') (spend_secret ds w)) in *.
  rewrite M_bind_unfold in Hw. pose proof (native_reissue_spec d q claims scopes sub w1) as HR.
  destruct (silent_native_reissue d q claims scopes sub w1) as (o1 & Ho1 & L1).
  assert (frame (fun v => (sv_now v, sv_refresh v)) (native_reissue d q claims scopes sub)) as HF.
  { unfold native_reissue, issueDeviceSecret. framing. }
  specialize (HF w1). destruct (native_reissue d q claims scopes sub w1) as [nds w2]. cbn [fst snd] in *.
  rewrite M_bind_unfold in Hw.
  pose proof (native_build_access d q claims scopes token strategy sub nds w2) as HB.
  pose proof (native_build_frame (fun v => (sv_refresh v, sv_secrets v)) d q claims scopes token strategy sub nds
    ltac:(done) w2) as HG.
  destruct (silent_native_build d q claims scopes token strategy sub nds w2) as (o2 & Ho2 & L2).
  destruct (buildNativeSSOResponse _ _ _ _ _ _ _ _ w2) as [resp w3]. cbn [fst snd] in *.
  destruct o1; [|done]. destruct o2; [|done]. rewrite app_nil_r in Ho1, Ho2.
  assert (w_out w' = w_out w3 ++ [ROK resp] /\ w_srv w' = w_srv w3) as [Hw1 Hw2].
  { rewrite !M_bind_unfold in Hw. unfold audit in Hw. destruct (xd_Auditor d); by injection Hw as <-. }
  rewrite Hw1, Ho2, Ho1 in Ho. apply (inj _) in Ho. injection Ho as ->.
  injection HF as HF1 HF2. injection HG as HG1 HG2.
  exists binding, scopes, resources, strategy, ti, token, x', nds. rewrite Hw2, HG2, HG1, HF2, Hsub in *.
  split_and!; try done. unfold w1, spend_secret in HR. cbn in HR.
  assert ((ConsumeSecret (sv_now (w_srv w)) ds (sv_secrets (w_srv w))).2 =
    {| dss_secrets := delete ds (dss_secrets (sv_secrets (w_srv w))) |}) as Hd.
  { pose proof (ConsumeSecret_map (sv_now (w_srv w)) ds (sv_secrets (w_srv w))) as H.
    destruct (ConsumeSecret _ _ _) as [r [m]]. cbn in *. by rewrite H. }
  by rewrite Hd in HR.
Qed.

(** C33 — a device secret buys tokens only for its own sign-on: a success found the
    presented secret live in the store, bound by the hash in the ID token and recorded
    for the ID token's subject and session; the scopes pass the requesting client's
    allowlist and so do the resources; the token carries the authentication event of
    the ID token; the secret is spent, and at most one new secret, bound to the issued
    subject and client, takes its place, only with device_sso. *)
Theorem native_sso_sound d q claims raw ds w w' b :
  handleDeviceSecretExchange d q claims raw ds w = ((), w') -> w_out w' = w_out w ++ [ROK b] ->
  exists binding scopes resources strategy ti token x' nds,
    dss_secrets (sv_secrets (w_srv w)) !! ds = Some binding /\
    DeviceSecret_IsExpired (sv_now (w_srv w)) binding = false /\
    native_bound d q claims raw ds binding /\
    GrantedScopes (native_requested q) (Some (xr_client q)) = Ok scopes /\
    resources = MergeTargets (xr_Resource q) (xr_Audience q) /\ AreResourcesAllowed (xr_client q) resources = true /\
    dp_IssuerForClient (xd_deps d) (sv_x (w_srv w)) (xr_client q) = Some (strategy, ti) /\
    ti_Issue ti (nativeSubject q claims (native_subject d q claims (sv_x (w_srv w))) resources) scopes
      (sv_x (w_srv w)) = (Ok token, x') /\
    b !! KeyAccessToken = Some (VStr (tk_AccessToken token)) /\
    reissued d q claims scopes (native_subject d q claims (sv_x (w_srv w))) (sv_now (w_srv w)) nds
      {| dss_secrets := delete ds (dss_secrets (sv_secrets (w_srv w))) |} (sv_secrets (w_srv w')) /\
    sv_refresh (w_srv w') = sv_refresh (w_srv w).
Proof. exact (native_success d q claims raw ds w w' b). Qed.

(** A device secret is worth one exchange: after a success, presenting it again never
    succeeds, unless the random source drew it again as the new secret. *)
Theorem native_sso_single_use d q claims raw ds w w' b d2 q2 claims2 raw2 w2 b2 :
  handleDeviceSecretExchange d q claims raw ds w = ((), w') -> w_out w' = w_out w ++ [ROK b] ->
  q_secret (xr_base q) <> Some ds -> sv_secrets (w_srv w2) = sv_secrets (w_srv w') ->
  w_out (handleDeviceSecretExchange d2 q2 claims2 raw2 ds w2).2 <> w_out w2 ++ [ROK b2].
Proof.
  intros Hw Ho Hd Hs Ho2.
  apply (native_success _ _ _ _ _ _ _ _ Hw) in Ho as (bi & sc & rs & st & ti & tk & x' & nds & H). clear Hw.
  destruct H as (_ & _ & _ & _ & _ & _ & _ & _ & _ & Hre & _).
  assert (dss_secrets (sv_secrets (w_srv w')) !! ds = None) as Hn.
  { destruct Hre as [[-> ->]|(_ & Hq & ->)]; cbn; [apply lookup_delete_eq|].
    rewrite lookup_insert_ne by congruence. apply lookup_delete_eq. }
  destruct (handleDeviceSecretExchange d2 q2 claims2 raw2 ds w2) as [[] w2'] eqn:E2.
  apply (native_success _ _ _ _ _ _ _ _ E2) in Ho2 as (bi2 & sc2 & rs2 & st2 & ti2 & tk2 & x2' & nds2 & Hl & _).
  by rewrite Hs, Hn in Hl.
Qed.

(** a secret recorded for one subject is refused for another and spent all the
    same: when every binding of the ID token and the secret holds but the recorded
    subject is not the ID token's, the answer is 400 invalid_grant and the secret is
    gone.  The authorization-code grant records the local user, while the ID token of
    a client with pairwise subjects carries the pairwise one: such a client's secret
    can never be exchanged. *)
Theorem native_sso_subject_mismatch d q claims raw ds w binding alg :
  xr_SubjectTokenType q = TokenTypeIDToken ->
  idTokenAlg (xd_json_member d) raw = Some alg ->
  idTokenDsHash (xd_json_member d) raw = Some (dsHash alg ds) -> dsHash alg ds <> "" ->
  dss_secrets (sv_secrets (w_srv w)) !! ds = Some binding ->
  DeviceSecret_IsExpired (sv_now (w_srv w)) binding = false ->
  ds_Subject binding <> tc_Subject claims ->
  let w' := (handleDeviceSecretExchange d q claims raw ds w).2 in
  w_out w' = w_out w ++ [RError 400 ErrInvalidGrant] /\
  dss_secrets (sv_secrets (w_srv w')) = delete ds (dss_secrets (sv_secrets (w_srv w))).
Proof.
  intros H1 H2 H3 H4 H5 H6 H7 w'. subst w'. unfold handleDeviceSecretExchange, obtain. rewrite M_bind_unfold.
  unfold validateDeviceSecretExchange. rewrite bool_decide_eq_true_2, H2, H3 by done. cbn [negb default].
  rewrite decide_False, bool_decide_eq_true_2 by done. cbn [negb].
  rewrite !M_bind_unfold. cbn [gets fst snd]. unfold on_secrets.
  pose proof (proj2 (ConsumeSecret_value (sv_now (w_srv w)) ds (sv_secrets (w_srv w)) binding) (conj H5 H6)) as Hv.
  pose proof (ConsumeSecret_map (sv_now (w_srv w)) ds (sv_secrets (w_srv w))) as Hm.
  destruct (ConsumeSecret _ _ _) as [[bi|e] m]; [|done]. cbn in Hv, Hm. injection Hv as ->. cbn [fst snd].
  rewrite bool_decide_eq_false_2 by done. cbn [negb]. unfold native_fail. rewrite M_bind_unfold.
  unfold audit. by destruct (xd_Auditor d).
Qed.
End native_sso.

(** ** Witnesses *)

(** A server whose ID tokens carry the hash of the secret "sec". *)
Definition sso_deps : ExchangeDeps () := {|
  xd_deps := sample_deps; xd_ValidateAnyToken := fun _ _ => Ok (Some (sample_claims "app"));
  xd_ResolveLocalSubject := fun _ s => (s, false); xd_SPIFFEValidator := None; xd_SPIFFEAudience := "";
  xd_JTIReplayStore := None; xd_JTIReplayFailClosed := false; xd_Auditor := true;
  xd_MaxTokenExchangeChainLifetime := 0; xd_TokenExchangePolicy := None; xd_ExternalUserStore := None;
  xd_TenantCollaborationStore := None; xd_HomeTenantForClient := fun _ _ => "";
  xd_TokenExchangeChainStore := None; xd_resolveIssuer := "https://sso";
  xd_json_member := fun name _ => Some (if decide (name = "alg") then "EdDSA" else dsHash "EdDSA" "sec") |}.

Definition sso_request : ExchangeRequest := {|
  xr_base := sample_request "rt"; xr_SubjectToken := "aGVhZA.Ym9keQ.c2ln"; xr_SubjectTokenType := TokenTypeIDToken;
  xr_ActorToken := "sec"; xr_ActorTokenType := TokenTypeDeviceSecret; xr_Resource := []; xr_Audience := [];
  xr_Scope := "openid device_sso"; xr_RequestedTokenType := ""; xr_ACRValues := "" |}.

(** The secret "sec", recorded for [subject]. *)
Definition sso_world (subject : string) : World RefreshStore.MemoryRefreshTokenStore () :=
  let w := sample_world (RefreshStore.NewMemoryRefreshTokenStore 0 0 0) None 100 in
  set_srv (with_secrets (IssueSecret {| ds_Secret := "sec"; ds_Subject := subject; ds_SID := "";
    ds_ClientID := "first"; ds_ExpiresAt := 900 |} {| dss_secrets := ∅ |})) w.

Lemma native_sso_sound_witness :
  exists b, w_out (handleDeviceSecretExchange sso_deps sso_request (sample_claims "first")
      "aGVhZA.Ym9keQ.c2ln" "sec" (sso_world "alice")).2 = [ROK b] /\
    exists binding, native_bound sso_deps sso_request (sample_claims "first") "aGVhZA.Ym9keQ.c2ln" "sec" binding.
Proof.
  destruct (handleDeviceSecretExchange sso_deps sso_request (sample_claims "first")
      "aGVhZA.Ym9keQ.c2ln" "sec" (sso_world "alice")) as [[] w'] eqn:E.
  assert (exists b, w_out w' = [ROK b]) as [b Hb].
  { change w' with ((), w').2. rewrite <- E. eexists. vm_compute. reflexivity. }
  exists b. split; [exact Hb|].
  destruct (native_sso_sound sso_deps sso_request (sample_claims "first") "aGVhZA.Ym9keQ.c2ln" "sec"
    (sso_world "alice") w' b) as (binding & sc & rs & st & ti & tk & x' & nds & _ & _ & Hn & _).
  - exact E.
  - exact Hb.
  - exists binding. exact Hn.
Defined.

Lemma native_sso_subject_mismatch_witness :
  w_out (handleDeviceSecretExchange sso_deps sso_request (sample_claims "first")
    "aGVhZA.Ym9keQ.c2ln" "sec" (sso_world "local-alice")).2 = [RError 400 ErrInvalidGrant].
Proof.
  apply (native_sso_subject_mismatch sso_deps sso_request (sample_claims "first") "aGVhZA.Ym9keQ.c2ln" "sec"
    (sso_world "local-alice") {| ds_Secret := "sec"; ds_Subject := "local-alice"; ds_SID := "";
    ds_ClientID := "first"; ds_ExpiresAt := 900 |} "EdDSA").
  - reflexivity.
  - vm_compute. reflexivity.
  - vm_compute. reflexivity.
  - vm_compute. discriminate.
  - vm_compute. reflexivity.
  - reflexivity.
  - discriminate.
Defined.
