(* ===== verification/TokenExchange.v ===== *)
(** * TokenExchange: the RFC 8693 token-exchange grant
    ([tokengrant/token_exchange.go], [tokengrant/token_exchange_stages.go];
    [domains/tokenexchange/chainstore.go]).

    The stages run in the order of the source.  What [tokExState] accumulates is
    passed from stage to stage: the claims and the SPIFFE identity, the new actor
    chain, the resources and scopes, the token and the issued subject. *)
From S2P Require Import Prelude Crypto Core Lifecycle RefreshStore CodeStores DeviceCodes CibaStore Issue RefreshIface GraceCache Scopes GrantCore GrantMint AuthCodeGrant JTIReplay Jose ExchangeDeps NativeSSO.
Local Open Scope Z_scope.

Section exchange.
Context {St X : Type} `{Store : RefreshTokenStore St}.
Abbreviation G A := (M (World St X) A).
Implicit Types (d : ExchangeDeps X) (q : ExchangeRequest).

(** ** Pre-flight *)

Definition requestable (t : string) : bool :=
  bool_decide (t = "") || bool_decide (t = TokenTypeAccessToken) || bool_decide (t = TokenTypeRefreshToken) ||
  bool_decide (t = TokenTypeIDToken).

Definition exchangeable (t : string) : bool :=
  bool_decide (t = TokenTypeAccessToken) || bool_decide (t = TokenTypeJWT) || bool_decide (t = TokenTypeIDToken).

Definition tokExValidateRequestTypes d q : G bool :=
  if bool_decide (xr_SubjectToken q = "") || bool_decide (xr_SubjectTokenType q = "")
  then refuse 400 ErrInvalidRequest
  else if negb (exchangeable (xr_SubjectTokenType q)) then refuse 400 ErrInvalidRequest
  else if negb (requestable (xr_RequestedTokenType q)) then refuse 400 ErrInvalidRequest
  else if bool_decide (xr_RequestedTokenType q = TokenTypeRefreshToken)
          && negb (dp_RefreshTokenStore (xd_deps d))
  then refuse 400 ErrRefreshTokenNotConfigured
  else if decide (xr_RequestedTokenType q = TokenTypeIDToken) then
    issuer ← gets (fun v => dp_IDTokenIssuerForClient (xd_deps d) (sv_x v) (xr_client q));
    match issuer with
    | Some (Some _) => mret false
    | _ => refuse 400 ErrInvalidRequest
    end
  else mret false.

(** ** The subject *)

(** The claims a verified SPIFFE identity stands for. *)
Definition spiffe_claims (now : Z) (id : SPIFFEID) : TokenClaims := {|
  tc_TokenUse := TokenUseUnknown; tc_Subject := sp_URI id; tc_Issuer := ""; tc_Audience := [];
  tc_Scopes := []; tc_Resources := []; tc_ExpiresAt := 0; tc_NotBefore := 0; tc_IssuedAt := 0;
  tc_Extra := SPIFFEID_Attributes id; tc_ClientID := ""; tc_JTI := ""; tc_AuthTime := now;
  tc_ACR := ""; tc_AMR := [AMRSpiffe]; tc_SID := ""; tc_ServingRegion := ""; tc_TenantID := "";
  tc_ConfirmationJKT := ""; tc_ConfirmationX5TS256 := ""; tc_AuthorizationDetails := "";
  tc_Actor := ActorNil; tc_MayAct := ActorNil; tc_RequestedClaims := "" |}.

(** The local issuers first, then the SPIFFE validator; [None] when both fail. *)
Definition subject_claims d q (v : Server St X) : option (option TokenClaims * option SPIFFEID) :=
  let spiffe :=
    match xd_SPIFFEValidator d with
    | Some validate =>
        if decide (xr_SubjectTokenType q = TokenTypeJWT) then
          match validate (sv_x v) (xr_SubjectToken q) (xd_SPIFFEAudience d) with
          | Ok id => Some (Some (spiffe_claims (sv_now v) id), Some id)
          | Err _ => None
          end
        else None
    | None => None
    end in
  match xd_ValidateAnyToken d (sv_x v) (xr_SubjectToken q) with
  | Ok (Some claims) => Some (Some claims, None)
  | Ok None => match spiffe with Some r => Some r | None => Some (None, None) end
  | Err _ => spiffe
  end.

Definition tokExResolveSubject d q : G (option (TokenClaims * option SPIFFEID)) :=
  r ← gets (subject_claims d q);
  match r with
  | None => deny 400 ErrInvalidGrant
  | Some (claims, spiffeID) =>
      if negb (TokenClaimsMatchDeclaredType claims (xr_SubjectTokenType q)) then deny 400 ErrInvalidGrant
      else match claims with
      | None => deny 400 ErrInvalidGrant
      | Some claims =>
          if negb (bool_decide (tc_ConfirmationJKT claims = "")) && bool_decide (xr_jkt q = "")
          then deny 400 ErrInvalidGrant
          else if negb (bool_decide (tc_ConfirmationX5TS256 claims = "")) && bool_decide (xr_x5t q = "")
          then deny 400 ErrInvalidGrant
          else mret (Some (claims, spiffeID))
      end
  end.

Definition tokExRefuseNonDelegable (claims : TokenClaims) : G bool :=
  if IsBreakGlassImpersonationClaims claims then refuse 400 ErrInvalidRequest else mret false.

Definition tokExEnforceChainLifetime d (claims : TokenClaims) : G bool :=
  let maxAge := xd_MaxTokenExchangeChainLifetime d in
  if (maxAge <=? 0) || GoTime.IsZero (tc_AuthTime claims) then mret false
  else
    now ← gets sv_now;
    if GoTime.Since now (tc_AuthTime claims) <=? maxAge then mret false
    else refuse 400 ErrInvalidGrant.

Definition tokExStepUp q (claims : TokenClaims) : G bool :=
  if decide (xr_ACRValues q = "") then mret false
  else if ACRMatchesAny (tc_ACR claims) (Str.fields (xr_ACRValues q)) then mret false
  else refuse 400 ErrInsufficientUserAuthentication.

(** ** The actor *)

Definition actor_jti_expiry (now : Z) (actorClaims : TokenClaims) : Z :=
  GoTime.Add (if GoTime.IsZero (tc_ExpiresAt actorClaims) then now else tc_ExpiresAt actorClaims)
    DefaultJTIReplayWindow.

Definition tokExActorJTIReplay d (actorClaims : TokenClaims) : G bool :=
  match xd_JTIReplayStore d with
  | None => mret false
  | Some markSeen =>
      if decide (tc_JTI actorClaims = "") then mret false
      else
        now ← gets sv_now;
        r ← on_x (markSeen now ("tokex-act:" +:+ tc_JTI actorClaims) (actor_jti_expiry now actorClaims));
        match r with
        | Err _ => if xd_JTIReplayFailClosed d then refuse 400 ErrInvalidGrant else mret false
        | Ok false => refuse 400 ErrInvalidGrant
        | Ok true => mret false
        end
  end.

Definition may_act (claims actorClaims : TokenClaims) : bool :=
  match tc_MayAct claims with
  | ActorNil => true
  | Actor s _ => bool_decide (s = tc_Subject actorClaims)
  end.

Definition tokExValidateActor d q (claims : TokenClaims) : G (option TokenClaims) :=
  r ← gets (fun v => xd_ValidateAnyToken d (sv_x v) (xr_ActorToken q));
  match r with
  | Ok (Some actorClaims) =>
      if negb (TokenClaimsMatchDeclaredType (Some actorClaims) (xr_ActorTokenType q))
      then deny 400 ErrInvalidGrant
      else
        h ← tokExActorJTIReplay d actorClaims;
        if (h : bool) then mret None
        else if negb (may_act claims actorClaims) then deny 400 ErrInvalidGrant
        else mret (Some actorClaims)
  | _ => deny 400 ErrInvalidGrant
  end.

(** The chain of the new token; [None] when the exchange has been answered, by an
    error or by the device-secret exchange. *)
Definition tokExResolveActor d q (claims : TokenClaims) : G (option ActorClaim) :=
  let noToken := bool_decide (xr_ActorToken q = "") in
  if negb (Bool.eqb noToken (bool_decide (xr_ActorTokenType q = ""))) then deny 400 ErrInvalidRequest
  else if negb noToken && bool_decide (xr_ActorTokenType q = TokenTypeDeviceSecret) then
    if negb (dp_DeviceSecretStore (xd_deps d)) then deny 501 ErrDeviceSecretNotConfigured
    else _ ← handleDeviceSecretExchange d q claims (xr_SubjectToken q) (xr_ActorToken q); mret None
  else if noToken then mret (Some ActorNil)
  else if negb (bool_decide (xr_ActorTokenType q = TokenTypeAccessToken))
          && negb (bool_decide (xr_ActorTokenType q = TokenTypeJWT))
  then deny 400 ErrInvalidRequest
  else
    actorClaims ← tokExValidateActor d q claims;
    match actorClaims with
    | None => mret None
    | Some actorClaims =>
        if MaxActChainDepth <=? actChainDepth (tc_Actor claims) then deny 400 ErrInvalidGrant
        else mret (Some (Actor (tc_Subject actorClaims) (tc_Actor claims)))
    end.

(** ** Targets and scopes *)

Definition requested_scopes q (claims : TokenClaims) : option (list string) :=
  if decide (xr_Scope q = "") then Some (tc_Scopes claims)
  else let requested := Str.split (xr_Scope q) in
       if IsScopeSubset requested (tc_Scopes claims) then Some requested else None.

Definition tokExResolveScope d q (claims : TokenClaims) : G (option (list string)) :=
  match requested_scopes q claims with
  | None => deny 400 ErrInvalidScope
  | Some [] => mret (Some [])
  | Some scopes =>
      match GrantedScopes scopes (Some (xr_client q)) with
      | Err _ => deny 400 ErrInvalidScope
      | Ok boundScopes =>
          rejected ← rejectUnregistered (xd_deps d) boundScopes;
          if (rejected : bool) then mret None else mret (Some boundScopes)
      end
  end.

(** What the targets stage resolves. *)
Record Targets := {
  tg_resources : list string;
  tg_scopes : list string;
  tg_strategy : string;
  tg_ti : TokenIssuer X;
}.

Definition tokExResolveTargetsAndScopes d q (claims : TokenClaims) : G (option Targets) :=
  let resources := MergeTargets (xr_Resource q) (xr_Audience q) in
  if negb (AreResourcesAllowed (xr_client q) resources) then deny 400 ErrInvalidTarget
  else
    scopes ← tokExResolveScope d q claims;
    match scopes with
    | None => mret None
    | Some scopes =>
        issuer ← gets (fun v => dp_IssuerForClient (xd_deps d) (sv_x v) (xr_client q));
        match issuer with
        | None => deny 500 ErrNoTokenStrategy
        | Some (strategy, ti) =>
            mret (Some {| tg_resources := resources; tg_scopes := scopes; tg_strategy := strategy; tg_ti := ti |})
        end
    end.

(** ** Tenants and the hop policy *)

Definition tokExAuthorizeGuestHop (isTrusted : X -> string -> string -> result () bool)
    (getGuest : X -> string -> string -> result () (option GuestRecord))
    (guestTenant homeTenant subjectID : string) (x : X) : option GuestRecord :=
  match isTrusted x guestTenant homeTenant with
  | Ok true =>
      match getGuest x guestTenant subjectID with
      | Ok (Some guest) => if decide (gr_HomeTenantID guest = homeTenant) then Some guest else None
      | _ => None
      end
  | _ => None
  end.

Definition guest_scopes_ok (guest : GuestRecord) (scopes : list string) : bool :=
  match gr_Roles guest with [] => true | roles => forallb (contains roles) scopes end.

Definition tokExEnforceTenantCollaboration d q (claims : TokenClaims) (scopes : list string) : G bool :=
  match xd_ExternalUserStore d, xd_TenantCollaborationStore d with
  | Some getGuest, Some isTrusted =>
      let guestTenant := cl_TenantID (xr_client q) in
      if decide (guestTenant = "") then mret false
      else
        homeTenant ← gets (fun v => xd_HomeTenantForClient d (sv_x v) (tc_ClientID claims));
        if bool_decide (homeTenant = "") || bool_decide (homeTenant = guestTenant) then mret false
        else
          guest ← gets (fun v =>
            tokExAuthorizeGuestHop isTrusted getGuest guestTenant homeTenant (tc_Subject claims) (sv_x v));
          match guest with
          | None => refuse 400 ErrInvalidGrant
          | Some guest =>
              if negb (guest_scopes_ok guest scopes) then refuse 400 ErrInvalidScope
              else
                rejected ← rejectUnregistered (xd_deps d) scopes;
                if (rejected : bool) then mret true
                else _ ← audit d (EvCrossTenantExchange (tc_Subject claims) (cl_ID (xr_client q)) homeTenant guestTenant);
                     mret false
          end
  | _, _ => mret false
  end.

Definition exchange_hop q (claims : TokenClaims) (actor : ActorClaim) (t : Targets) : Hop := {|
  hop_SubjectID := tc_Subject claims; hop_ActorSubject := actor_subject actor;
  hop_ClientID := cl_ID (xr_client q); hop_RequestedTokenType := xr_RequestedTokenType q;
  hop_Scopes := tg_scopes t; hop_Resources := tg_resources t |}.

Definition tokExEnforcePolicy d q (claims : TokenClaims) (actor : ActorClaim) (t : Targets) : G bool :=
  match xd_TokenExchangePolicy d with
  | None => mret false
  | Some allow =>
      r ← on_x (allow (exchange_hop q claims actor t));
      match r with
      | Err _ =>
          _ ← emit (EvLog "token exchange policy evaluation failed; denying (fail-closed)");
          refuse 400 ErrInvalidGrant
      | Ok false => refuse 400 ErrInvalidGrant
      | Ok true => mret false
      end
  end.

Definition tokExResolveActorAndAuthorize d q (claims : TokenClaims) : G (option (ActorClaim * Targets)) :=
  actor ← tokExResolveActor d q claims;
  match actor with
  | None => mret None
  | Some actor =>
      if tokExActorChainHasCycle actor then deny 400 ErrInvalidGrant
      else
        t ← tokExResolveTargetsAndScopes d q claims;
        match t with
        | None => mret None
        | Some t =>
            h ← tokExEnforceTenantCollaboration d q claims (tg_scopes t);
            if (h : bool) then mret None else
            h ← tokExEnforcePolicy d q claims actor t;
            if (h : bool) then mret None else mret (Some (actor, t))
        end
  end.

(** ** Issuing *)

Definition tokExSubject q (claims : TokenClaims) (actor : ActorClaim) (resources : list string)
    (issuedSub : string) : Subject :=
  let client := xr_client q in
  {| su_ID := issuedSub; su_Provider := ""; su_Claims := tc_Extra claims; su_Resources := resources;
     su_ClientID := cl_ID client; su_AuthTime := tc_AuthTime claims; su_AMR := tc_AMR claims;
     su_ACR := tc_ACR claims; su_AuthorizationDetails := tc_AuthorizationDetails claims;
     su_TTL := cl_AccessTokenTTL client; su_SID := tc_SID claims;
     su_ServingRegion := q_region (xr_base q); su_TenantID := cl_TenantID client; su_Roles := [];
     su_ConfirmationJKT := xr_jkt q; su_ConfirmationX5TS256 := xr_x5t q;
     su_NotAfter := q_notAfter (xr_base q); su_Actor := actor; su_RequestedClaims := "" |}.

Definition tokExResolveSubjectAndIssue d q (claims : TokenClaims) (actor : ActorClaim) (t : Targets)
    : G (option (Token * string)) :=
  local ← gets (fun v => xd_ResolveLocalSubject d (sv_x v) (tc_Subject claims));
  let '(localSub, failed) := (local : string * bool) in
  if failed then
    _ ← emit (EvLog "pairwise resolve failed at token-exchange"); deny 400 ErrInvalidGrant
  else
    issuedSub ← gets (fun v => dp_ApplyPairwiseSubject (xd_deps d) (sv_x v) (xr_client q) localSub);
    token ← on_x (ti_Issue (tg_ti t) (tokExSubject q claims actor (tg_resources t) issuedSub) (tg_scopes t));
    match token with
    | Err e => _ ← emit (EvLog "token exchange issuance failed"); _ ← writeTokenIssueError e; mret None
    | Ok token =>
        _ ← emit (EvTokenIssued (cl_ID (xr_client q)) (tg_strategy t) (tc_Subject claims));
        _ ← emit (EvSubjectClientAccess localSub (cl_ID (xr_client q)));
        mret (Some (token, issuedSub))
    end.

(** [RecordExchangeHopFailOpen]: a hop with no identifier is not recorded. *)
Definition tokExRecordChainHop d q (claims : TokenClaims) (actor : ActorClaim) (token : Token) : G () :=
  now ← gets sv_now;
  let hop := {| ch_JTI := JTIFromJWTUnsafe (xd_json_member d) (tk_AccessToken token);
                ch_ParentJTI := tc_JTI claims; ch_SubjectID := tc_Subject claims;
                ch_ActorSubject := actor_subject actor; ch_ClientID := cl_ID (xr_client q);
                ch_ChainDepth := actChainDepth actor; ch_RecordedAt := now |} in
  match xd_TokenExchangeChainStore d with
  | None => mret ()
  | Some recordHop =>
      if decide (ch_JTI hop = "") then mret ()
      else
        r ← on_x (recordHop hop);
        match r with
        | Err _ => emit (EvLog "token exchange chain hop recording failed (fail-open, observability only)")
        | Ok _ => mret ()
        end
  end.

Definition tokExAuditSPIFFE d q (spiffeID : option SPIFFEID) : G () :=
  match spiffeID with
  | None => mret ()
  | Some id => audit d (EvSPIFFEAccepted (sp_URI id) (cl_ID (xr_client q)) (sp_TrustDomain id))
  end.

Definition exchange_response q (token : Token) (strategy : string) : body :=
  <[KeyIssuedTokenType := VStr TokenTypeAccessToken]> (base_response token (xr_jkt q) strategy).

Definition tokExIssueRefresh d q (claims : TokenClaims) (t : Targets) (resp : body) : G body :=
  if negb (bool_decide (xr_RequestedTokenType q = TokenTypeRefreshToken))
     || negb (dp_RefreshTokenStore (xd_deps d))
  then mret resp
  else
    let provider := match tc_AMR claims with m :: _ => m | [] => "" end in
    rt ← first_issue (xd_deps d) (q_draws (xr_base q)) (tc_Subject claims) (xr_client q) provider (tg_scopes t)
           (tc_Extra claims) (tg_resources t) (tc_AuthorizationDetails claims) (tc_SID claims)
           (tc_AMR claims) (tc_ACR claims) (tc_AuthTime claims) (xr_jkt q);
    match rt with
    | Err _ => _ ← emit (EvLog "token exchange refresh issue failed"); mret resp
    | Ok rt =>
        _ ← emit (EvRefreshTokenIssued (cl_ID (xr_client q)) (tc_Subject claims) false);
        mret (<[KeyIssuedTokenType := VStr TokenTypeRefreshToken]> $ <[KeyRefreshToken := VStr rt]> resp)
    end.

Definition tokExMintIDToken d q (claims : TokenClaims) (t : Targets) (token : Token) (issuedSub : string)
    : G (option string) :=
  issuer ← gets (fun v => dp_IDTokenIssuerForClient (xd_deps d) (sv_x v) (xr_client q));
  match issuer with
  | Some (Some issue) =>
      idToken ← on_x (issue
        {| ir_Subject := issuedSub; ir_Audience := cl_ID (xr_client q); ir_Nonce := "";
           ir_AuthTime := tc_AuthTime claims; ir_AMR := tc_AMR claims; ir_ACR := tc_ACR claims;
           ir_AZP := ""; ir_Claims := tc_Extra claims; ir_TTL := 0; ir_AccessToken := tk_AccessToken token;
           ir_DeviceSecret := ""; ir_RequestedClaims := ""; ir_GrantedScopes := tg_scopes t;
           ir_GrantedResources := tg_resources t;
           ir_AuthorizationDetails := tc_AuthorizationDetails claims; ir_SID := tc_SID claims;
           ir_ServingRegion := q_region (xr_base q) |});
      match idToken with
      | Err _ => _ ← emit (EvLog "token exchange id_token issue failed"); deny 500 ErrInternal
      | Ok idToken =>
          enc ← gets (fun v => dp_MaybeEncryptIDToken (xd_deps d) (sv_x v) (xr_client q) idToken);
          match enc with
          | Some enc => mret (Some enc)
          | None => deny 500 ErrInternal
          end
      end
  | _ => _ ← emit (EvLog "token exchange id_token issuer resolution failed"); deny 500 ErrInternal
  end.

(** The response, or [None] when an error was written instead. *)
Definition tokExIssueIDToken d q (claims : TokenClaims) (t : Targets) (token : Token) (issuedSub : string)
    (resp : body) : G (option body) :=
  if negb (bool_decide (xr_RequestedTokenType q = TokenTypeIDToken)) then mret (Some resp)
  else if negb (contains (tg_scopes t) ScopeOpenID) then deny 400 ErrInvalidRequest
  else
    enc ← tokExMintIDToken d q claims t token issuedSub;
    match enc with
    | None => mret None
    | Some enc =>
        _ ← emit (EvIDTokenIssued (cl_ID (xr_client q)) (tc_Subject claims));
        mret (Some (<[KeyIssuedTokenType := VStr TokenTypeIDToken]> $ <[KeyIDToken := VStr enc]> resp))
    end.

(** ** The handler *)

Definition tokExFinish d q (claims : TokenClaims) (spiffeID : option SPIFFEID) (actor : ActorClaim)
    (t : Targets) (token : Token) (issuedSub : string) : G () :=
  _ ← tokExRecordChainHop d q claims actor token;
  _ ← tokExAuditSPIFFE d q spiffeID;
  resp ← tokExIssueRefresh d q claims t (exchange_response q token (tg_strategy t));
  obtain (tokExIssueIDToken d q claims t token issuedSub resp) (fun resp => respond (ROK resp)).

Definition HandleTokenExchangeGrant d q : G () :=
  unless (tokExValidateRequestTypes d q) $
  obtain (tokExResolveSubject d q) (fun '(claims, spiffeID) =>
  unless (tokExRefuseNonDelegable claims) $
  unless (lifecycleGrantBlocked (xd_deps d) (tc_Subject claims)) $
  unless (tokExEnforceChainLifetime d claims) $
  unless (tokExStepUp q claims) $
  obtain (tokExResolveActorAndAuthorize d q claims) (fun '(actor, t) =>
  obtain (tokExResolveSubjectAndIssue d q claims actor t) (fun '(token, issuedSub) =>
  tokExFinish d q claims spiffeID actor t token issuedSub))).

(** ** Exactly one answer *)

Lemma gate_request_types d q : gate (tokExValidateRequestTypes d q).
Proof. unfold tokExValidateRequestTypes. count. Qed.
Lemma refuses_request_types d q : refuses (tokExValidateRequestTypes d q).
Proof. unfold tokExValidateRequestTypes. refusing. Qed.
Lemma resolves_subject d q : resolves (tokExResolveSubject d q).
Proof. unfold tokExResolveSubject. resolving. Qed.
Lemma denies_subject d q : denies (tokExResolveSubject d q).
Proof. unfold tokExResolveSubject. resolving. Qed.
Lemma gate_non_delegable c : gate (tokExRefuseNonDelegable c).
Proof. unfold tokExRefuseNonDelegable. count. Qed.
Lemma refuses_non_delegable c : refuses (tokExRefuseNonDelegable c).
Proof. unfold tokExRefuseNonDelegable. refusing. Qed.
Lemma gate_chain_lifetime d c : gate (tokExEnforceChainLifetime d c).
Proof. unfold tokExEnforceChainLifetime. count. Qed.
Lemma refuses_chain_lifetime d c : refuses (tokExEnforceChainLifetime d c).
Proof. unfold tokExEnforceChainLifetime. refusing. Qed.
Lemma gate_step_up q c : gate (tokExStepUp q c).
Proof. unfold tokExStepUp. count. Qed.
Lemma refuses_step_up q c : refuses (tokExStepUp q c).
Proof. unfold tokExStepUp. refusing. Qed.
Lemma gate_actor_jti d c : gate (tokExActorJTIReplay d c).
Proof. unfold tokExActorJTIReplay. count. Qed.
Lemma refuses_actor_jti d c : refuses (tokExActorJTIReplay d c).
Proof. unfold tokExActorJTIReplay. refusing. Qed.
Lemma gate_collaboration d q c s : gate (tokExEnforceTenantCollaboration d q c s).
Proof. unfold tokExEnforceTenantCollaboration. pose proof (@silent_audit St X). count. Qed.
Lemma gate_policy d q c a t : gate (tokExEnforcePolicy d q c a t).
Proof. unfold tokExEnforcePolicy. count. Qed.
Lemma refuses_policy d q c a t : refuses (tokExEnforcePolicy d q c a t).
Proof. unfold tokExEnforcePolicy. refusing. Qed.

(** [v, ok := m(); if !ok { return }; k v] inside a stage that itself resolves. *)
Lemma resolves_then {A B} (m : G (option A)) (k : A -> G (option B)) :
  resolves m -> (forall a, resolves (k a)) ->
  resolves (o ← m; match o with None => mret None | Some a => k a end).
Proof.
  intros Hm Hk w. rewrite M_bind_unfold. destruct (Hm w) as (r1 & H1 & L1).
  destruct (m w) as [[a|] w1]; cbn in *; [|by exists r1].
  destruct r1; [|done]. rewrite app_nil_r in H1. destruct (Hk a w1) as (r2 & H2 & L2).
  exists r2. by rewrite H2, H1.
Qed.

(** Passing such a step without an answer. *)
Lemma then_passed {A B} (m : G (option A)) (k : A -> G (option B)) w b w' :
  resolves m -> (o ← m; match o with None => mret None | Some a => k a end) w = (Some b, w') ->
  exists a w1, m w = (Some a, w1) /\ w_out w1 = w_out w /\ k a w1 = (Some b, w').
Proof.
  intros Hm. rewrite M_bind_unfold. destruct (Hm w) as (r & H & L).
  destruct (m w) as [[a|] w1]; cbn in *; [|done]. destruct r; [|done]. rewrite app_nil_r in H. eauto.
Qed.

Lemma resolves_once (m : G ()) {A} : answers_once m -> resolves (A:=A) (_ ← m; mret None).
Proof. intros Hm w. rewrite M_bind_unfold. exact (Hm w). Qed.

Lemma resolves_validate_actor d q c : resolves (tokExValidateActor d q c).
Proof.
  unfold tokExValidateActor. apply resolves_silent; [auto with snap|]. intros [[a|]|]; [|resolving..].
  split_if; [resolving|]. apply resolves_gate; [apply gate_actor_jti|]. resolving.
Qed.

Lemma resolves_actor d q c : resolves (tokExResolveActor d q c).
Proof.
  unfold tokExResolveActor. split_if; [resolving|]. split_if.
  { split_if; [resolving|]. apply resolves_once, once_native. }
  split_if; [resolving|]. split_if; [resolving|]. apply resolves_then; [apply resolves_validate_actor|].
  intros a. resolving.
Qed.

Lemma resolves_scope d q c : resolves (tokExResolveScope d q c).
Proof.
  unfold tokExResolveScope. destruct (requested_scopes q c) as [[|s l]|]; [resolving| |resolving].
  destruct (GrantedScopes _ _); [|resolving]. apply resolves_gate; resolving.
Qed.

Lemma resolves_targets d q c : resolves (tokExResolveTargetsAndScopes d q c).
Proof.
  unfold tokExResolveTargetsAndScopes. cbn zeta. split_if; [resolving|].
  apply resolves_then; [apply resolves_scope|]. intros s. resolving.
Qed.

Lemma resolves_authorize d q c : resolves (tokExResolveActorAndAuthorize d q c).
Proof.
  unfold tokExResolveActorAndAuthorize. apply resolves_then; [apply resolves_actor|]. intros actor.
  split_if; [resolving|]. apply resolves_then; [apply resolves_targets|]. intros t.
  apply resolves_gate; [apply gate_collaboration|]. apply resolves_gate; [apply gate_policy|]. resolving.
Qed.

Lemma resolves_issue d q c a t : resolves (tokExResolveSubjectAndIssue d q c a t).
Proof.
  unfold tokExResolveSubjectAndIssue. apply resolves_silent; [auto with snap|]. intros [local []]; [resolving|].
  pose proof (@resolves_issue_failed St X). resolving.
Qed.
Lemma denies_issue d q c a t : denies (tokExResolveSubjectAndIssue d q c a t).
Proof.
  unfold tokExResolveSubjectAndIssue. apply denies_silent; [auto with snap|]. intros [local []]; [resolving|].
  pose proof (@denies_issue_failed St X). resolving.
Qed.

Lemma silent_chain_hop d q c a t : silent (tokExRecordChainHop d q c a t).
Proof. unfold tokExRecordChainHop. count. Qed.
Lemma silent_spiffe d q s : silent (tokExAuditSPIFFE d q s).
Proof. unfold tokExAuditSPIFFE. pose proof (@silent_audit St X). count. Qed.
Lemma silent_exchange_refresh d q c t r : silent (tokExIssueRefresh d q c t r).
Proof. unfold tokExIssueRefresh. count. Qed.
Lemma resolves_mint_id d q c t tok sub : resolves (tokExMintIDToken d q c t tok sub).
Proof. unfold tokExMintIDToken. resolving. Qed.
Lemma denies_mint_id d q c t tok sub : denies (tokExMintIDToken d q c t tok sub).
Proof. unfold tokExMintIDToken. resolving. Qed.
Lemma resolves_id_token d q c t tok sub r : resolves (tokExIssueIDToken d q c t tok sub r).
Proof.
  unfold tokExIssueIDToken. split_if; [resolving|]. split_if; [resolving|].
  apply resolves_then; [apply resolves_mint_id|]. intros e. resolving.
Qed.

Lemma denies_then {A B} (m : G (option A)) (k : A -> G (option B)) :
  resolves m -> denies m -> (forall a, denies (k a)) ->
  denies (o ← m; match o with None => mret None | Some a => k a end).
Proof.
  intros Hr Hm Hk w w'. rewrite M_bind_unfold. destruct (Hr w) as (rs & H & L).
  destruct (m w) as [[a|] w1] eqn:E; cbn in *.
  - destruct rs; [|done]. rewrite app_nil_r in H. rewrite <- H. apply Hk.
  - intros [= <-]. by apply Hm.
Qed.

Lemma denies_id_token d q c t tok sub r : denies (tokExIssueIDToken d q c t tok sub r).
Proof.
  unfold tokExIssueIDToken. split_if; [resolving|]. split_if; [resolving|].
  apply denies_then; [apply resolves_mint_id|apply denies_mint_id|]. intros e. resolving.
Qed.

Lemma once_finish d q c s a t tok sub : answers_once (tokExFinish d q c s a t tok sub).
Proof.
  unfold tokExFinish. apply silent_bind; [apply silent_chain_hop|]. intros _.
  apply silent_bind; [apply silent_spiffe|]. intros _.
  apply silent_bind; [apply silent_exchange_refresh|]. intros resp.
  apply once_obtain; [apply resolves_id_token|]. intros r. apply once_respond.
Qed.

(** every exchange is answered exactly once, whatever the tokens, the validators,
    the policies and the stores answer: on the direct path and when the device-secret
    exchange takes over. *)
Theorem exchange_answers_once d q w :
  exists r, w_out (HandleTokenExchangeGrant d q w).2 = w_out w ++ [r].
Proof.
  assert (answers_once (HandleTokenExchangeGrant d q)) as H.
  { unfold HandleTokenExchangeGrant. apply once_unless; [apply gate_request_types|].
    apply once_obtain; [apply resolves_subject|]. intros [claims spiffe].
    apply once_unless; [apply gate_non_delegable|]. apply once_unless; [apply gate_lifecycle|].
    apply once_unless; [apply gate_chain_lifetime|]. apply once_unless; [apply gate_step_up|].
    apply once_obtain; [apply resolves_authorize|]. intros [actor t].
    apply once_obtain; [apply resolves_issue|]. intros [token sub]. apply once_finish. }
  destruct (H w) as (rs & Ho & Hl). destruct rs as [|r [|]]; [done| |done]. by exists r.
Qed.

(** ** What each stage passes on *)

(** The server up to the part the interfaces act on. *)
Definition only_x (w w1 : World St X) (x : X) : Prop :=
  w_srv w1 = with_x x (w_srv w) /\ w_out w1 = w_out w.

(** The actor's assertion was not seen before, where a replay store says so. *)
Definition actor_fresh d (now : Z) (x : X) (actorClaims : TokenClaims) : Prop :=
  forall markSeen, xd_JTIReplayStore d = Some markSeen -> tc_JTI actorClaims <> "" ->
    let r := markSeen now ("tokex-act:" +:+ tc_JTI actorClaims) (actor_jti_expiry now actorClaims) x in
    r.1 = Ok true \/ (r.1 = Err () /\ xd_JTIReplayFailClosed d = false).

(** The chain the exchange builds: none without an actor token; otherwise the
    validated, permitted and fresh actor on top of the subject's chain. *)
Definition actor_ok d q (claims : TokenClaims) (now : Z) (x : X) (actor : ActorClaim) : Prop :=
  (xr_ActorToken q = "" /\ actor = ActorNil) \/
  exists actorClaims, xd_ValidateAnyToken d x (xr_ActorToken q) = Ok (Some actorClaims) /\
    TokenClaimsMatchDeclaredType (Some actorClaims) (xr_ActorTokenType q) = true /\
    actor_fresh d now x actorClaims /\
    (forall s act, tc_MayAct claims = Actor s act -> s = tc_Subject actorClaims) /\
    actChainDepth (tc_Actor claims) < MaxActChainDepth /\
    actor = Actor (tc_Subject actorClaims) (tc_Actor claims).

Definition targets_ok d q (claims : TokenClaims) (x : X) (t : Targets) : Prop :=
  tg_resources t = MergeTargets (xr_Resource q) (xr_Audience q) /\
  AreResourcesAllowed (xr_client q) (tg_resources t) = true /\
  ("" ∉ tc_Scopes claims -> tg_scopes t ⊆ tc_Scopes claims) /\
  (cl_AllowedScopes (xr_client q) = [] \/
   forall s, s ∈ tg_scopes t -> s ∈ cl_AllowedScopes (xr_client q) \/ scope_exempt s = true) /\
  dp_IssuerForClient (xd_deps d) x (xr_client q) = Some (tg_strategy t, tg_ti t).

(** A hop between two tenants needs trust, a guest registration from the subject's
    home tenant, and scopes within the guest's roles. *)
Definition collaboration_ok d q (claims : TokenClaims) (x : X) (scopes : list string) : Prop :=
  forall getGuest isTrusted,
    xd_ExternalUserStore d = Some getGuest -> xd_TenantCollaborationStore d = Some isTrusted ->
    let guestTenant := cl_TenantID (xr_client q) in
    let homeTenant := xd_HomeTenantForClient d x (tc_ClientID claims) in
    guestTenant <> "" -> homeTenant <> "" -> homeTenant <> guestTenant ->
    isTrusted x guestTenant homeTenant = Ok true /\
    exists guest, getGuest x guestTenant (tc_Subject claims) = Ok (Some guest) /\
      gr_HomeTenantID guest = homeTenant /\ (gr_Roles guest = [] \/ scopes ⊆ gr_Roles guest).

Definition policy_ok d q (claims : TokenClaims) (actor : ActorClaim) (t : Targets) (x x' : X) : Prop :=
  match xd_TokenExchangePolicy d with
  | None => x' = x
  | Some allow => allow (exchange_hop q claims actor t) x = (Ok true, x')
  end.

Lemma only_x_refl w : only_x w w (sv_x (w_srv w)).
Proof. split; [|done]. by destruct (w_srv w). Qed.

Lemma actor_jti_passed d c w w1 :
  tokExActorJTIReplay d c w = (false, w1) ->
  (exists x, only_x w w1 x) /\ actor_fresh d (sv_now (w_srv w)) (sv_x (w_srv w)) c.
Proof.
  unfold tokExActorJTIReplay, actor_fresh. destruct (xd_JTIReplayStore d) as [ms|].
  2:{ intros [= <-]. split; [eexists; apply only_x_refl|done]. }
  case_decide as Hj; [intros [= <-]; split; [eexists; apply only_x_refl|done]|].
  rewrite !M_bind_unfold. cbn [gets fst snd]. unfold on_x.
  destruct (ms _ _ _ _) as [[[]|[]] x] eqn:E; cbn [fst snd]; [|done|].
  - intros [= <-]. split; [by exists x|]. intros ? [= <-] _. rewrite E. by left.
  - destruct (xd_JTIReplayFailClosed d) eqn:F; [done|]. intros [= <-]. split; [by exists x|].
    intros ? [= <-] _. rewrite E. by right.
Qed.

Lemma validate_actor_Some d q c w a w1 :
  tokExValidateActor d q c w = (Some a, w1) ->
  (exists x, only_x w w1 x) /\ xd_ValidateAnyToken d (sv_x (w_srv w)) (xr_ActorToken q) = Ok (Some a) /\
  TokenClaimsMatchDeclaredType (Some a) (xr_ActorTokenType q) = true /\
  actor_fresh d (sv_now (w_srv w)) (sv_x (w_srv w)) a /\
  (forall s act, tc_MayAct c = Actor s act -> s = tc_Subject a).
Proof.
  unfold tokExValidateActor. rewrite M_bind_unfold. cbn [gets fst snd].
  destruct (xd_ValidateAnyToken _ _ _) as [[ac|]|]; [|done..].
  destruct (TokenClaimsMatchDeclaredType (Some ac) _) eqn:Hm; [|done]. cbn [negb].
  intros H. apply gate_passed in H as (w2 & Hg & _ & H); [|apply gate_actor_jti].
  destruct (may_act c ac) eqn:Hma; [|done]. cbn in H. injection H as -> ->.
  apply actor_jti_passed in Hg as [Hx Hf]. split_and!; try done.
  intros s act Hs. unfold may_act in Hma. rewrite Hs in Hma. by bool_simpl.
Qed.

Lemma actor_Some d q c w actor w1 :
  tokExResolveActor d q c w = (Some actor, w1) ->
  (exists x, only_x w w1 x) /\ actor_ok d q c (sv_now (w_srv w)) (sv_x (w_srv w)) actor.
Proof.
  unfold tokExResolveActor, actor_ok. split_if; [done|].
  destruct (bool_decide (xr_ActorToken q = "")) eqn:Hn; cbn [negb andb].
  - intros [= <- <-]. split; [eexists; apply only_x_refl|]. left. by bool_simpl.
  - split_if. { split_if; [done|]. by rewrite M_bind_unfold. }
    split_if; [done|]. intros H.
    apply then_passed in H as (a & w2 & Hv & _ & H); [|apply resolves_validate_actor].
    destruct (MaxActChainDepth <=? _) eqn:Hd; [done|]. injection H as <- <-.
    apply validate_actor_Some in Hv as (Hx & H1 & H2 & H3 & H4). split; [done|]. right.
    exists a. bool_simpl. by split_and!.
Qed.

Lemma granted_bounds requested c g :
  GrantedScopes requested (Some c) = Ok g ->
  (cl_AllowedScopes c = [] \/ forall s, s ∈ g -> s ∈ cl_AllowedScopes c \/ scope_exempt s = true) /\
  (dedupeScopes requested <> [] -> g ⊆ requested).
Proof.
  unfold GrantedScopes. pose proof (elem_of_dedupeScopes requested) as Hel.
  destruct (cl_AllowedScopes c) as [|a l].
  { intros [= <-]. split; [by left|]. intros _ s Hs. apply Hel in Hs. naive_solver. }
  destruct (dedupeScopes requested) as [|r rs].
  - intros [= <-]. split; [|done]. right. intros s [Hs _]%elem_of_dedupeScopes.
    apply list_elem_of_filter in Hs as [_ Hs]. by left.
  - destruct (all_allowed _ _) eqn:Hall; [|done]. intros [= <-]. rewrite all_allowed_spec in Hall.
    split; [|intros _ s Hs; apply Hel in Hs; naive_solver]. right. intros s Hs.
    rewrite scope_exempt_spec. specialize (Hall s Hs). naive_solver.
Qed.

Lemma requested_subset q c scopes : requested_scopes q c = Some scopes -> scopes ⊆ tc_Scopes c.
Proof.
  unfold requested_scopes. case_decide; [by intros [= <-]|].
  destruct (IsScopeSubset _ _) eqn:E; [|done]. intros [= <-]. by apply IsScopeSubset_spec.
Qed.

Lemma scope_Some d q c w scopes w1 :
  tokExResolveScope d q c w = (Some scopes, w1) ->
  w1 = w /\ ("" ∉ tc_Scopes c -> scopes ⊆ tc_Scopes c) /\
  (cl_AllowedScopes (xr_client q) = [] \/
   forall s, s ∈ scopes -> s ∈ cl_AllowedScopes (xr_client q) \/ scope_exempt s = true).
Proof.
  unfold tokExResolveScope. destruct (requested_scopes q c) as [rs|] eqn:Hr; [|done].
  apply requested_subset in Hr. destruct rs as [|r rs].
  { intros [= <- <-]. split_and!; [done|by intros _ ? ?%elem_of_nil|right; by intros ? ?%elem_of_nil]. }
  destruct (GrantedScopes _ _) as [g|] eqn:Hg; [|done]. intros H.
  apply gate_passed in H as (w2 & Hj & _ & H); [|auto with snap].
  apply rejectUnregistered_false in Hj as [-> _]. injection H as <- <-.
  apply granted_bounds in Hg as [H1 H2]. split_and!; [done| |done]. intros Hne.
  transitivity (r :: rs); [|done]. apply H2. rewrite dedupeScopes_nil. intros Hall.
  apply Hne. rewrite <- (Hall r) by left. apply Hr. left.
Qed.

Lemma targets_Some d q c w t w1 :
  tokExResolveTargetsAndScopes d q c w = (Some t, w1) -> w1 = w /\ targets_ok d q c (sv_x (w_srv w)) t.
Proof.
  unfold tokExResolveTargetsAndScopes, targets_ok. cbn zeta.
  destruct (AreResourcesAllowed _ _) eqn:Ha; [|done]. cbn [negb]. intros H.
  apply then_passed in H as (scopes & w2 & Hs & _ & H); [|apply resolves_scope].
  apply scope_Some in Hs as (-> & H1 & H2). rewrite M_bind_unfold in H. cbn [gets fst snd] in H.
  destruct (dp_IssuerForClient _ _ _) as [[st ti]|] eqn:Hi; [|done]. injection H as <- <-. by split_and!.
Qed.

Lemma guest_hop_Some isTrusted getGuest g h s x guest :
  tokExAuthorizeGuestHop isTrusted getGuest g h s x = Some guest ->
  isTrusted x g h = Ok true /\ getGuest x g s = Ok (Some guest) /\ gr_HomeTenantID guest = h.
Proof.
  unfold tokExAuthorizeGuestHop. destruct (isTrusted x g h) as [[]|]; [|done..].
  destruct (getGuest x g s) as [[gu|]|]; [|done..]. case_decide; [|done]. by intros [= <-].
Qed.

Lemma guest_scopes_subset guest scopes :
  guest_scopes_ok guest scopes = true -> gr_Roles guest = [] \/ scopes ⊆ gr_Roles guest.
Proof.
  unfold guest_scopes_ok. destruct (gr_Roles guest) as [|r l]; [by left|]. intros H. right. intros s Hs.
  rewrite forallb_forall in H. apply contains_spec, H. by apply list_elem_of_In.
Qed.

Lemma collaboration_passed d q c scopes w w1 :
  tokExEnforceTenantCollaboration d q c scopes w = (false, w1) ->
  only_x w w1 (sv_x (w_srv w)) /\ collaboration_ok d q c (sv_x (w_srv w)) scopes.
Proof.
  unfold tokExEnforceTenantCollaboration, collaboration_ok.
  destruct (xd_ExternalUserStore d) as [getGuest|]; [|by intros [= <-]; split; [apply only_x_refl|]].
  destruct (xd_TenantCollaborationStore d) as [isTrusted|]; [|by intros [= <-]; split; [apply only_x_refl|]].
  cbn zeta. case_decide as Hg; [by intros [= <-]; split; [apply only_x_refl|intros ?? [= <-] [= <-]]|].
  rewrite M_bind_unfold. cbn [gets fst snd].
  destruct (bool_decide (_ = "") || _) eqn:Hh.
  { intros [= <-]. split; [apply only_x_refl|]. intros ?? [= <-] [= <-]. apply orb_true_iff in Hh.
    rewrite !bool_decide_eq_true in Hh. tauto. }
  rewrite M_bind_unfold. cbn [gets fst snd].
  destruct (tokExAuthorizeGuestHop _ _ _ _ _ _) as [guest|] eqn:Ha; [|done].
  apply guest_hop_Some in Ha as (H1 & H2 & H3).
  destruct (guest_scopes_ok guest scopes) eqn:Hs; [|done]. cbn [negb]. rewrite M_bind_unfold.
  destruct (rejectUnregistered (xd_deps d) scopes w) as [[] w2] eqn:Hr; [done|].
  apply rejectUnregistered_false in Hr as [-> _]. cbn [fst snd]. rewrite M_bind_unfold. cbn [fst snd]. intros H.
  split. { unfold audit in H. destruct (xd_Auditor d); injection H as <-; (split; [by destruct (w_srv w)|done]). }
  intros ?? [= <-] [= <-] _ _ _. split; [done|]. exists guest. split_and!; [done..|].
  by apply guest_scopes_subset.
Qed.

Lemma policy_passed d q c a t w w1 :
  tokExEnforcePolicy d q c a t w = (false, w1) ->
  exists x, only_x w w1 x /\ policy_ok d q c a t (sv_x (w_srv w)) x.
Proof.
  unfold tokExEnforcePolicy, policy_ok. destruct (xd_TokenExchangePolicy d) as [allow|].
  2:{ intros [= <-]. exists (sv_x (w_srv w)). split; [apply only_x_refl|done]. }
  rewrite M_bind_unfold. unfold on_x. destruct (allow _ _) as [[[]|] x] eqn:E; cbn [fst snd]; [|done..].
  intros [= <-]. by exists x.
Qed.

(** Composing steps that only touch the interfaces' part. *)
Lemma only_x_trans w w1 w2 x1 x2 : only_x w w1 x1 -> only_x w1 w2 x2 -> only_x w w2 x2.
Proof. intros [H1 H2] [H3 H4]. split; [by rewrite H3, H1|by rewrite H4, H2]. Qed.
Lemma only_x_sv w w1 x : only_x w w1 x -> sv_x (w_srv w1) = x.
Proof. intros [H _]. by rewrite H. Qed.

Lemma authorize_Some d q c w actor t w1 :
  tokExResolveActorAndAuthorize d q c w = (Some (actor, t), w1) ->
  exists x1 x2, only_x w w1 x2 /\ actor_ok d q c (sv_now (w_srv w)) (sv_x (w_srv w)) actor /\
    tokExActorChainHasCycle actor = false /\ targets_ok d q c x1 t /\
    collaboration_ok d q c x1 (tg_scopes t) /\ policy_ok d q c actor t x1 x2.
Proof.
  unfold tokExResolveActorAndAuthorize. intros H.
  apply then_passed in H as (a & w2 & Ha & _ & H); [|apply resolves_actor].
  apply actor_Some in Ha as [[x1 Hx1] Ha]. destruct (tokExActorChainHasCycle a) eqn:Hc; [done|].
  apply then_passed in H as (t' & w3 & Ht & _ & H); [|apply resolves_targets].
  apply targets_Some in Ht as [-> Ht].
  apply gate_passed in H as (w3 & Hcol & _ & H); [|apply gate_collaboration].
  apply collaboration_passed in Hcol as [Hx2 Hcol].
  apply gate_passed in H as (w4 & Hp & _ & H); [|apply gate_policy].
  apply policy_passed in Hp as (x3 & Hx3 & Hp). injection H as <- <- <-.
  rewrite (only_x_sv _ _ _ Hx1) in *. rewrite (only_x_sv _ _ _ Hx2) in Hp.
  exists x1, x3. split_and!; try done. eauto using only_x_trans.
Qed.

(** The sender constraint is not weakened: a bound subject needs some proof. *)
Definition constraint_kept q (claims : TokenClaims) : Prop :=
  (tc_ConfirmationJKT claims <> "" -> xr_jkt q <> "") /\
  (tc_ConfirmationX5TS256 claims <> "" -> xr_x5t q <> "").

Lemma subject_Some d q w claims spiffe w1 :
  tokExResolveSubject d q w = (Some (claims, spiffe), w1) ->
  w1 = w /\ subject_claims d q (w_srv w) = Some (Some claims, spiffe) /\
  TokenClaimsMatchDeclaredType (Some claims) (xr_SubjectTokenType q) = true /\ constraint_kept q claims.
Proof.
  unfold tokExResolveSubject, constraint_kept. rewrite M_bind_unfold. cbn [gets fst snd].
  destruct (subject_claims d q (w_srv w)) as [[c s]|]; [|done].
  destruct (TokenClaimsMatchDeclaredType c _) eqn:Hm; [|done]. cbn [negb]. destruct c as [c|]; [|done].
  destruct (negb (bool_decide (tc_ConfirmationJKT c = "")) && _) eqn:E1; [done|].
  destruct (negb (bool_decide (tc_ConfirmationX5TS256 c = "")) && _) eqn:E2; [done|].
  intros [= <- <- <-]. split_and!; try done; intros Hne Hq.
  - by rewrite (bool_decide_eq_false_2 _ Hne), (bool_decide_eq_true_2 _ Hq) in E1.
  - by rewrite (bool_decide_eq_false_2 _ Hne), (bool_decide_eq_true_2 _ Hq) in E2.
Qed.

Definition lifetime_ok d (claims : TokenClaims) (now : Z) : Prop :=
  xd_MaxTokenExchangeChainLifetime d <= 0 \/ tc_AuthTime claims = 0 \/
  GoTime.Since now (tc_AuthTime claims) <= xd_MaxTokenExchangeChainLifetime d.

Lemma non_delegable_passed c w w1 :
  tokExRefuseNonDelegable c w = (false, w1) -> w1 = w /\ IsBreakGlassImpersonationClaims c = false.
Proof. unfold tokExRefuseNonDelegable. destruct (IsBreakGlassImpersonationClaims c); [done|]. by intros [= <-]. Qed.

Lemma chain_lifetime_passed d c w w1 :
  tokExEnforceChainLifetime d c w = (false, w1) -> w1 = w /\ lifetime_ok d c (sv_now (w_srv w)).
Proof.
  unfold tokExEnforceChainLifetime, lifetime_ok. cbn zeta. destruct (_ || _) eqn:E.
  - intros [= <-]. split; [done|]. apply orb_true_iff in E as [E|E]; [left; by bool_simpl; lia|].
    right. left. by apply Z.eqb_eq in E.
  - rewrite M_bind_unfold. cbn [gets fst snd]. split_if; [|done]. intros [= <-]. split; [done|].
    right. right. by apply Z.leb_le.
Qed.

Lemma step_up_passed q c w w1 :
  tokExStepUp q c w = (false, w1) ->
  w1 = w /\ (xr_ACRValues q = "" \/ tc_ACR c <> "" /\ tc_ACR c ∈ Str.fields (xr_ACRValues q)).
Proof.
  unfold tokExStepUp, ACRMatchesAny. case_decide; [intros [= <-]; auto|].
  destruct (bool_decide (tc_ACR c = "") || _) eqn:E; [done|].
  destruct (contains _ _) eqn:Hc; [|done]. intros [= <-]. split; [done|]. right. bool_simpl. done.
Qed.

Lemma issue_Some d q c a t w token sub w1 :
  tokExResolveSubjectAndIssue d q c a t w = (Some (token, sub), w1) ->
  exists localSub x', xd_ResolveLocalSubject d (sv_x (w_srv w)) (tc_Subject c) = (localSub, false) /\
    sub = dp_ApplyPairwiseSubject (xd_deps d) (sv_x (w_srv w)) (xr_client q) localSub /\
    ti_Issue (tg_ti t) (tokExSubject q c a (tg_resources t) sub) (tg_scopes t) (sv_x (w_srv w)) = (Ok token, x') /\
    only_x w w1 x'.
Proof.
  unfold tokExResolveSubjectAndIssue. rewrite M_bind_unfold. cbn [gets fst snd].
  destruct (xd_ResolveLocalSubject _ _ _) as [l []]; [by rewrite M_bind_unfold|].
  rewrite !M_bind_unfold. cbn [gets fst snd]. unfold on_x.
  destruct (ti_Issue _ _ _ _) as [[tok|e] x'] eqn:Hi; cbn [fst snd].
  - intros [= <- <- <-]. exists l, x'. split_and!; done.
  - destruct e as [[]|]; by cbn.
Qed.

(** ** The response *)

Context {Laws : RefreshTokenStoreLaws St}.

(** The family a requested refresh token opens.  Its user is the subject as it is
    written in the inbound token. *)
Definition exchange_family q (claims : TokenClaims) (t : Targets) (now : Z) (i : RefreshToken) : Prop :=
  xr_RequestedTokenType q = TokenTypeRefreshToken /\
  opens_family (q_draws (xr_base q)) now (tc_Subject claims) (xr_client q) (tg_scopes t) (tg_resources t)
    (tc_AMR claims) (tc_AuthTime claims) (xr_jkt q) i.

Lemma exchange_refresh_part d q c t resp w :
  let r := tokExIssueRefresh d q c t resp w in
  (forall k, k <> KeyRefreshToken -> k <> KeyIssuedTokenType -> r.1 !! k = resp !! k) /\
  (resp !! KeyRefreshToken = None ->
   refresh_outcome (exchange_family q c t (sv_now (w_srv w))) r.1 (sv_refresh (w_srv w)) (sv_refresh (w_srv r.2))).
Proof.
  unfold tokExIssueRefresh, refresh_outcome, exchange_family. destruct (negb _ || _) eqn:E; cbn zeta.
  { split; [done|]. intros Hn. left. split; [done|apply shrinks_refl]. }
  bool_simpl. rewrite M_bind_unfold.
  destruct (first_issue _ _ _ _ _ _ _ _ _ _ _ _ _ _ w) as [[tok|e] w1] eqn:Hf; cbn [fst snd].
  - rewrite M_bind_unfold. cbn. split.
    { intros k H1 H2. by rewrite !lookup_insert_ne by done. }
    intros _. right. apply first_issue_Ok in Hf as [(i & Hi & HP) Ho]. exists tok, i.
    split_and!; try done. rewrite lookup_insert_ne by done. apply lookup_insert_eq.
  - rewrite M_bind_unfold. cbn. split; [done|]. intros Hn. left. split; [done|]. by eapply first_issue_Err.
Qed.

Lemma exchange_id_part d q c t tok sub resp w r w1 :
  tokExIssueIDToken d q c t tok sub resp w = (Some r, w1) ->
  sv_refresh (w_srv w1) = sv_refresh (w_srv w) /\
  (r = resp \/ exists enc, r = <[KeyIssuedTokenType := VStr TokenTypeIDToken]> (<[KeyIDToken := VStr enc]> resp) /\
     xr_RequestedTokenType q = TokenTypeIDToken /\ ScopeOpenID ∈ tg_scopes t).
Proof.
  unfold tokExIssueIDToken. destruct (bool_decide (xr_RequestedTokenType q = _)) eqn:Ht; cbn [negb].
  2:{ intros [= <- <-]. auto. }
  destruct (contains _ ScopeOpenID) eqn:Hc; [|done]. cbn [negb]. intros H.
  apply then_passed in H as (enc & w2 & Hm & _ & H); [|apply resolves_mint_id].
  rewrite M_bind_unfold in H. injection H as <- <-. apply contains_spec in Hc. bool_simpl.
  split; [|right; by exists enc]. cbn.
  assert (frame sv_refresh (tokExMintIDToken d q c t tok sub)) as HF.
  { unfold tokExMintIDToken. framing. }
  specialize (HF w). by rewrite Hm in HF.
Qed.

Lemma finish_ok d q c s a t token sub w w' b :
  tokExFinish d q c s a t token sub w = ((), w') -> w_out w' = w_out w ++ [ROK b] ->
  b !! KeyAccessToken = Some (VStr (tk_AccessToken token)) /\
  refresh_outcome (exchange_family q c t (sv_now (w_srv w))) b (sv_refresh (w_srv w)) (sv_refresh (w_srv w')) /\
  (b !! KeyIDToken <> None -> xr_RequestedTokenType q = TokenTypeIDToken /\ ScopeOpenID ∈ tg_scopes t).
Proof.
  unfold tokExFinish. rewrite !M_bind_unfold. intros Hw Ho.
  assert (frame (fun v => (sv_now v, sv_refresh v)) (tokExRecordChainHop d q c a token)) as F1.
  { unfold tokExRecordChainHop. framing. }
  assert (frame (fun v => (sv_now v, sv_refresh v)) (tokExAuditSPIFFE d q s)) as F2.
  { unfold tokExAuditSPIFFE, audit. framing. }
  specialize (F1 w). destruct (silent_chain_hop d q c a token w) as (o1 & H1 & L1).
  destruct (tokExRecordChainHop d q c a token w) as [[] w1]. cbn [fst snd] in *.
  specialize (F2 w1). destruct (silent_spiffe d q s w1) as (o2 & H2 & L2).
  destruct (tokExAuditSPIFFE d q s w1) as [[] w2]. cbn [fst snd] in *.
  set (resp0 := exchange_response q token (tg_strategy t)) in *.
  pose proof (exchange_refresh_part d q c t resp0 w2) as [HR1 HR2].
  destruct (silent_exchange_refresh d q c t resp0 w2) as (o3 & H3 & L3).
  destruct (tokExIssueRefresh d q c t resp0 w2) as [resp1 w3]. cbn [fst snd] in *.
  destruct o1; [|done]. destruct o2; [|done]. destruct o3; [|done]. rewrite app_nil_r in H1, H2, H3.
  rewrite <- H1, <- H2, <- H3 in Ho. injection F1 as F11 F12. injection F2 as F21 F22.
  eapply obtain_ok in Hw as (resp2 & w4 & Hi & O4 & Hw);
    [|apply resolves_id_token|apply denies_id_token|exact Ho].
  apply exchange_id_part in Hi as [Hs Hi]. injection Hw as <-. cbn [w_out w_srv respond snd] in *.
  rewrite O4 in Ho. apply (inj _) in Ho. injection Ho as <-.
  rewrite F21, F11, F22, F12 in HR2. rewrite Hs.
  specialize (HR2 ltac:(unfold resp0, exchange_response; rewrite lookup_insert_ne by done; apply base_response_refresh)).
  assert (resp2 !! KeyAccessToken = resp1 !! KeyAccessToken /\ resp2 !! KeyRefreshToken = resp1 !! KeyRefreshToken)
    as [HA HB].
  { destruct Hi as [->|(enc & -> & _)]; [done|]. by rewrite !lookup_insert_ne. }
  split_and!.
  - rewrite HA, HR1 by done. unfold resp0, exchange_response. rewrite lookup_insert_ne by done.
    apply base_response_access.
  - unfold refresh_outcome in *. by rewrite HB.
  - intros Hk. destruct Hi as [->|(enc & _ & Hi)]; [|done]. exfalso. apply Hk.
    rewrite HR1 by done. unfold resp0, exchange_response. rewrite lookup_insert_ne by done. apply base_response_id.
Qed.

(** ** Properties *)

Lemma refuses_collaboration d q c s : refuses (tokExEnforceTenantCollaboration d q c s).
Proof.
  assert (forall e, refuses (_ ← audit (St:=St) d e; mret false)) as Ha.
  { intros e w w'. unfold audit. destruct (xd_Auditor d); by rewrite M_bind_unfold. }
  unfold tokExEnforceTenantCollaboration. destruct (xd_ExternalUserStore d); [|refusing].
  destruct (xd_TenantCollaborationStore d); [|refusing]. cbn zeta. case_decide; [refusing|].
  apply refuses_bind; [auto with snap|]. intros h. split_if; [refusing|].
  apply refuses_bind; [auto with snap|]. intros [g|]; [|refusing]. split_if; [refusing|].
  intros w w'. rewrite M_bind_unfold. pose proof (refuses_rejectUnregistered (xd_deps d) s w) as Hr.
  destruct (rejectUnregistered (xd_deps d) s w) as [[] w1] eqn:E; cbn [fst snd].
  - intros [= <-]. by apply Hr.
  - intros Hw. apply rejectUnregistered_false in E as [-> _]. by apply Ha in Hw.
Qed.

Lemma denies_validate_actor d q c : denies (tokExValidateActor d q c).
Proof.
  unfold tokExValidateActor. apply denies_silent; [auto with snap|]. intros [[a|]|]; [|resolving..].
  split_if; [resolving|]. apply denies_gate; [apply gate_actor_jti|apply refuses_actor_jti|]. resolving.
Qed.

Lemma denies_actor d q c : xr_ActorTokenType q <> TokenTypeDeviceSecret -> denies (tokExResolveActor d q c).
Proof.
  intros Hd. unfold tokExResolveActor. split_if; [resolving|].
  rewrite (bool_decide_eq_false_2 _ Hd), andb_false_r. split_if; [resolving|]. split_if; [resolving|].
  apply denies_then; [apply resolves_validate_actor|apply denies_validate_actor|]. intros a. resolving.
Qed.

Lemma denies_scope d q c : denies (tokExResolveScope d q c).
Proof.
  unfold tokExResolveScope. destruct (requested_scopes q c) as [[|s l]|]; [resolving| |resolving].
  destruct (GrantedScopes _ _); [|resolving]. apply denies_gate; [auto with snap..|resolving].
Qed.

Lemma denies_targets d q c : denies (tokExResolveTargetsAndScopes d q c).
Proof.
  unfold tokExResolveTargetsAndScopes. cbn zeta. split_if; [resolving|].
  apply denies_then; [apply resolves_scope|apply denies_scope|]. intros s. resolving.
Qed.

Lemma denies_authorize d q c :
  xr_ActorTokenType q <> TokenTypeDeviceSecret -> denies (tokExResolveActorAndAuthorize d q c).
Proof.
  intros Hd. unfold tokExResolveActorAndAuthorize.
  apply denies_then; [apply resolves_actor|by apply denies_actor|]. intros actor. split_if; [resolving|].
  apply denies_then; [apply resolves_targets|apply denies_targets|]. intros t.
  apply denies_gate; [apply gate_collaboration|apply refuses_collaboration|].
  apply denies_gate; [apply gate_policy|apply refuses_policy|]. resolving.
Qed.

Lemma exchange_success d q w w' b :
  xr_ActorTokenType q <> TokenTypeDeviceSecret ->
  HandleTokenExchangeGrant d q w = ((), w') -> w_out w' = w_out w ++ [ROK b] ->
  let now := sv_now (w_srv w) in let x := sv_x (w_srv w) in
  exists claims spiffe actor t localSub token x1 x2 x3,
    (subject_claims d q (w_srv w) = Some (Some claims, spiffe) /\
     TokenClaimsMatchDeclaredType (Some claims) (xr_SubjectTokenType q) = true /\
     constraint_kept q claims /\ IsBreakGlassImpersonationClaims claims = false /\
     lifecycle_ok (xd_deps d) x (tc_Subject claims) /\ lifetime_ok d claims now /\
     (xr_ACRValues q = "" \/ tc_ACR claims <> "" /\ tc_ACR claims ∈ Str.fields (xr_ACRValues q))) /\
    (actor_ok d q claims now x actor /\ tokExActorChainHasCycle actor = false /\ targets_ok d q claims x1 t /\
     collaboration_ok d q claims x1 (tg_scopes t) /\ policy_ok d q claims actor t x1 x2) /\
    xd_ResolveLocalSubject d x2 (tc_Subject claims) = (localSub, false) /\
    ti_Issue (tg_ti t) (tokExSubject q claims actor (tg_resources t)
      (dp_ApplyPairwiseSubject (xd_deps d) x2 (xr_client q) localSub)) (tg_scopes t) x2 = (Ok token, x3) /\
    b !! KeyAccessToken = Some (VStr (tk_AccessToken token)) /\
    refresh_outcome (exchange_family q claims t now) b (sv_refresh (w_srv w)) (sv_refresh (w_srv w')) /\
    (b !! KeyIDToken <> None -> xr_RequestedTokenType q = TokenTypeIDToken /\ ScopeOpenID ∈ tg_scopes t).
Proof.
  intros Hd. unfold HandleTokenExchangeGrant. intros Hw Ho.
  eapply unless_ok in Hw as (w1 & Hg & O1 & Hw); [|apply gate_request_types|apply refuses_request_types|exact Ho].
  assert (w1 = w) as ->.
  { revert Hg. unfold tokExValidateRequestTypes.
    destruct (bool_decide (xr_SubjectToken q = "") || _); [done|].
    destruct (negb (exchangeable _)); [done|]. destruct (negb (requestable _)); [done|].
    destruct (bool_decide _ && _); [done|]. destruct (decide _); [|by intros [= <-]].
    rewrite M_bind_unfold. cbn [gets fst snd]. destruct (dp_IDTokenIssuerForClient _ _ _) as [[]|]; [|done..].
    by intros [= <-]. }
  clear Hg O1.
  eapply obtain_ok in Hw as ([claims spiffe] & w1 & Hs & _ & Hw); [|apply resolves_subject|apply denies_subject|exact Ho].
  apply subject_Some in Hs as (-> & S1 & S2 & S3).
  eapply unless_ok in Hw as (w1 & Hg & _ & Hw); [|apply gate_non_delegable|apply refuses_non_delegable|exact Ho].
  apply non_delegable_passed in Hg as [-> S4].
  eapply unless_ok in Hw as (w1 & Hg & _ & Hw); [|by auto with snap..|exact Ho].
  apply lifecycle_false in Hg as [-> S5].
  eapply unless_ok in Hw as (w1 & Hg & _ & Hw); [|apply gate_chain_lifetime|apply refuses_chain_lifetime|exact Ho].
  apply chain_lifetime_passed in Hg as [-> S6].
  eapply unless_ok in Hw as (w1 & Hg & _ & Hw); [|apply gate_step_up|apply refuses_step_up|exact Ho].
  apply step_up_passed in Hg as [-> S7].
  eapply obtain_ok in Hw as ([actor t] & w1 & Ha & O2 & Hw);
    [|apply resolves_authorize|by apply denies_authorize|exact Ho].
  apply authorize_Some in Ha as (x1 & x2 & Hx2 & A1 & A2 & A3 & A4 & A5). rewrite <- O2 in Ho.
  eapply obtain_ok in Hw as ([token sub] & w2 & Hi & O3 & Hw); [|apply resolves_issue|apply denies_issue|exact Ho].
  apply issue_Some in Hi as (localSub & x3 & I1 & -> & I2 & Hx3). rewrite <- O3 in Ho.
  pose proof (finish_ok _ _ _ _ _ _ _ _ _ _ _ Hw Ho) as (F1 & F2 & F3).
  pose proof (only_x_trans _ _ _ _ _ Hx2 Hx3) as [Hsrv _]. rewrite (only_x_sv _ _ _ Hx2) in I1, I2.
  rewrite Hsrv in F2. cbn [with_x sv_now sv_refresh] in F2.
  exists claims, spiffe, actor, t, localSub, token, x1, x2, x3. by split_and!.
Qed.


(** The chains that exchanges build, hop after hop, from tokens without one. *)
Inductive delegated d : ActorClaim -> Prop :=
| delegated_direct : delegated d ActorNil
| delegated_hop q claims w actor t w1 :
    delegated d (tc_Actor claims) ->
    tokExResolveActorAndAuthorize d q claims w = (Some (actor, t), w1) -> delegated d actor.

(** C32 — delegation chains stay short and acyclic: however many exchanges follow each
    other, the actor chain of the token they issue has at most [MaxActChainDepth]
    links, and no identity occurs in it twice. *)
Theorem delegation_chain_invariant d actor :
  delegated d actor -> actChainDepth actor <= MaxActChainDepth /\ NoDup (actors actor).
Proof.
  induction 1 as [|q claims w actor t w1 _ [IH1 IH2] H]; [split; [done|constructor]|].
  apply authorize_Some in H as (x1 & x2 & _ & [[_ ->]|(ac & _ & _ & _ & _ & Hd & ->)] & Hc & _);
    [split; [done|constructor]|].
  cbn in Hc |- *. split; [lia|]. constructor; [|done]. intros Hin%acts_as_spec. congruence.
Qed.

(** the refresh token of an exchange is filed under another user than its access
    token: the access token is issued for the local subject behind the inbound one,
    while the record of the refresh token keeps the inbound subject as written, so with
    pairwise subjects a rotation names a user the exchange never resolved. *)
Theorem exchange_refresh_subject d q w w' b tok :
  xr_ActorTokenType q <> TokenTypeDeviceSecret ->
  HandleTokenExchangeGrant d q w = ((), w') -> w_out w' = w_out w ++ [ROK b] ->
  b !! KeyRefreshToken = Some (VStr tok) ->
  exists claims spiffe localSub x2 i,
    subject_claims d q (w_srv w) = Some (Some claims, spiffe) /\
    xd_ResolveLocalSubject d x2 (tc_Subject claims) = (localSub, false) /\
    rs_live (sv_refresh (w_srv w')) tok = Some i /\ rt_UserID i = tc_Subject claims /\
    (localSub <> tc_Subject claims -> rt_UserID i <> localSub).
Proof.
  intros Hd Hw Ho Hb. destruct (exchange_success d q w w' b Hd Hw Ho)
    as (c & s & a & t & l & token & x1 & x2 & x3 & (Hs & _) & _ & Hl & _ & _ & Hr & _).
  destruct Hr as [[Hn _]|(tok' & i & Hk & Hi & (_ & Hu & _) & _)]; [congruence|].
  assert (tok' = tok) as -> by congruence. exists c, s, l, x2, i. split_and!; congruence.
Qed.

(** ** Refusals *)

Lemma frame_native_sso d q c raw ds : frame sv_refresh (handleDeviceSecretExchange (St:=St) d q c raw ds).
Proof.
  unfold handleDeviceSecretExchange, validateDeviceSecretExchange, authorizeNativeSSOScopesResources,
    issueNativeSSOTokens, mintNativeSSOAccessToken, native_reissue, issueDeviceSecret, buildNativeSSOResponse,
    native_id_token, native_fail, audit. framing.
Qed.
Lemma frame_request_types d q : frame sv_refresh (tokExValidateRequestTypes d q).
Proof. unfold tokExValidateRequestTypes. framing. Qed.
Lemma frame_subject d q : frame sv_refresh (tokExResolveSubject d q).
Proof. unfold tokExResolveSubject. framing. Qed.
Lemma frame_claim_gates d q c :
  frame sv_refresh (tokExRefuseNonDelegable c) /\ frame sv_refresh (tokExEnforceChainLifetime d c) /\
  frame sv_refresh (tokExStepUp q c).
Proof. unfold tokExRefuseNonDelegable, tokExEnforceChainLifetime, tokExStepUp. split_and!; framing. Qed.
Lemma frame_actor d q c : frame sv_refresh (tokExResolveActor d q c).
Proof.
  unfold tokExResolveActor, tokExValidateActor, tokExActorJTIReplay.
  pose proof (frame_native_sso d q c). framing.
Qed.
Lemma frame_targets d q c : frame sv_refresh (tokExResolveTargetsAndScopes d q c).
Proof. unfold tokExResolveTargetsAndScopes, tokExResolveScope. framing. Qed.
Lemma frame_authorize d q c : frame sv_refresh (tokExResolveActorAndAuthorize d q c).
Proof.
  unfold tokExResolveActorAndAuthorize, tokExEnforceTenantCollaboration, tokExEnforcePolicy, audit.
  pose proof (frame_actor d q c). pose proof (frame_targets d q c). framing.
Qed.
Lemma frame_issue d q c a t : frame sv_refresh (tokExResolveSubjectAndIssue d q c a t).
Proof. unfold tokExResolveSubjectAndIssue. framing. Qed.

Lemma finish_refused d q c s a t token sub : refusal_keeps_of sv_refresh (tokExFinish d q c s a t token sub).
Proof.
  unfold tokExFinish.
  apply refusal_silent; [apply silent_chain_hop|unfold tokExRecordChainHop; framing|]. intros _.
  apply refusal_silent; [apply silent_spiffe|unfold tokExAuditSPIFFE, audit; framing|]. intros _.
  destruct (decide (xr_RequestedTokenType q = TokenTypeRefreshToken)) as [Hr|Hr].
  - unfold tokExIssueIDToken. rewrite Hr. rewrite bool_decide_eq_false_2 by discriminate. cbn [negb].
    apply (refusal_never _ (fun b => b)). apply silent_exchange_refresh.
  - unfold tokExIssueRefresh. rewrite (bool_decide_eq_false_2 _ Hr). cbn [negb orb].
    apply refusal_frame. unfold tokExIssueIDToken, tokExMintIDToken. framing.
Qed.

(** a refused exchange leaves no refresh token behind: when the answer is an error,
    on the direct path or from the device-secret exchange, at any stage including the
    ID token's after the access token was issued, the refresh-token store is unchanged. *)
Theorem exchange_refusal_mints_nothing d q w st c :
  w_out (HandleTokenExchangeGrant d q w).2 = w_out w ++ [RError st c] ->
  sv_refresh (w_srv (HandleTokenExchangeGrant d q w).2) = sv_refresh (w_srv w).
Proof.
  assert (refusal_keeps_of sv_refresh (HandleTokenExchangeGrant d q)) as H; [|by apply H].
  unfold HandleTokenExchangeGrant. apply refusal_unless; [apply gate_request_types|apply frame_request_types|].
  apply refusal_obtain; [apply resolves_subject|apply frame_subject|]. intros [cl s].
  pose proof (frame_claim_gates d q cl) as (F1 & F2 & F3).
  apply refusal_unless; [apply gate_non_delegable|done|].
  apply refusal_unless; [auto with snap..|].
  apply refusal_unless; [apply gate_chain_lifetime|done|].
  apply refusal_unless; [apply gate_step_up|done|].
  apply refusal_obtain; [apply resolves_authorize|apply frame_authorize|]. intros [a t].
  apply refusal_obtain; [apply resolves_issue|apply frame_issue|]. intros [token sub]. apply finish_refused.
Qed.
End exchange.

(** ** Witnesses *)

(** A user's token, under a pairwise subject, and a service's. *)
Definition user_claims : TokenClaims := {|
  tc_TokenUse := TokenUseAccessToken; tc_Subject := "pw-alice"; tc_Issuer := "https://sso"; tc_Audience := [];
  tc_Scopes := ["read"; "write"]; tc_Resources := []; tc_ExpiresAt := 1000; tc_NotBefore := 0;
  tc_IssuedAt := 0; tc_Extra := ∅; tc_ClientID := "web"; tc_JTI := "j1"; tc_AuthTime := 5; tc_ACR := "";
  tc_AMR := ["pwd"]; tc_SID := ""; tc_ServingRegion := ""; tc_TenantID := ""; tc_ConfirmationJKT := "";
  tc_ConfirmationX5TS256 := ""; tc_AuthorizationDetails := ""; tc_Actor := Actor "gateway" ActorNil;
  tc_MayAct := ActorNil; tc_RequestedClaims := "" |}.

Definition sample_exchange_deps : ExchangeDeps () := {|
  xd_deps := sample_deps;
  xd_ValidateAnyToken := fun _ t =>
    if decide (t = "user") then Ok (Some user_claims)
    else if decide (t = "svc") then Ok (Some (sample_claims "svc")) else Err ();
  xd_ResolveLocalSubject := fun _ s => (if decide (s = "pw-alice") then "alice" else s, false);
  xd_SPIFFEValidator := None; xd_SPIFFEAudience := "";
  xd_JTIReplayStore := Some (fun _ _ _ x => (Ok true, x)); xd_JTIReplayFailClosed := true; xd_Auditor := true;
  xd_MaxTokenExchangeChainLifetime := 3600;
  xd_TokenExchangePolicy := Some (fun h x => (Ok (Evaluate h [] true), x));
  xd_ExternalUserStore := None; xd_TenantCollaborationStore := None;
  xd_HomeTenantForClient := fun _ _ => ""; xd_TokenExchangeChainStore := Some (fun _ x => (Ok (), x));
  xd_resolveIssuer := "https://sso"; xd_json_member := fun _ _ => None |}.

Definition sample_exchange (actor actorType scope requested : string) : ExchangeRequest := {|
  xr_base := sample_request "rt-x"; xr_SubjectToken := "user"; xr_SubjectTokenType := TokenTypeAccessToken;
  xr_ActorToken := actor; xr_ActorTokenType := actorType; xr_Resource := []; xr_Audience := [];
  xr_Scope := scope; xr_RequestedTokenType := requested; xr_ACRValues := "" |}.

Definition exchange_world : World MemoryRefreshTokenStore () :=
  sample_world (NewMemoryRefreshTokenStore 0 0 0) None 100.

Definition delegated_exchange : ExchangeRequest :=
  sample_exchange "svc" TokenTypeJWT "read" TokenTypeRefreshToken.


Lemma delegation_chain_invariant_witness :
  actChainDepth (Actor "alice" ActorNil) <= MaxActChainDepth /\ NoDup (actors (Actor "alice" ActorNil)).
Proof.
  apply (delegation_chain_invariant (St:=MemoryRefreshTokenStore) sample_exchange_deps).
  set (q := sample_exchange "svc" TokenTypeJWT "" "").
  destruct (tokExResolveActorAndAuthorize sample_exchange_deps q (sample_claims "web") exchange_world)
    as [o w1] eqn:E.
  assert (exists t, o = Some (Actor "alice" ActorNil, t)) as [t Ho].
  { change o with (o, w1).1. rewrite <- E. eexists. vm_compute. reflexivity. }
  refine (delegated_hop sample_exchange_deps q (sample_claims "web") exchange_world _ t w1 _ _).
  - exact (delegated_direct _).
  - rewrite E, Ho. reflexivity.
Defined.

Lemma exchange_refresh_subject_witness :
  exists i, rs_live (sv_refresh (w_srv (HandleTokenExchangeGrant sample_exchange_deps delegated_exchange
      exchange_world).2)) "rt-x" = Some i /\ rt_UserID i = "pw-alice" /\ rt_UserID i <> "alice".
Proof.
  destruct (HandleTokenExchangeGrant sample_exchange_deps delegated_exchange exchange_world) as [[] w'] eqn:E.
  assert (exists b, w_out w' = [ROK b] /\ b !! KeyRefreshToken = Some (VStr "rt-x")) as (b & Hb & Hr).
  { change w' with ((), w').2. rewrite <- E. eexists. split; vm_compute; reflexivity. }
  destruct (exchange_refresh_subject sample_exchange_deps delegated_exchange exchange_world w' b "rt-x")
    as (claims & spiffe & l & x2 & i & Hc & Hl & Hi & Hu & Hn).
  - discriminate.
  - exact E.
  - exact Hb.
  - exact Hr.
  - vm_compute in Hc. injection Hc as <- _. cbn in Hl, Hu, Hn. injection Hl as <-.
    exists i. split; [exact Hi|]. split; [exact Hu|]. apply Hn. discriminate.
Defined.

Lemma exchange_refusal_mints_nothing_witness :
  sv_refresh (w_srv (HandleTokenExchangeGrant sample_exchange_deps
    (sample_exchange "svc" TokenTypeJWT "admin" TokenTypeRefreshToken) exchange_world).2) =
  NewMemoryRefreshTokenStore 0 0 0.
Proof.
  apply (exchange_refusal_mints_nothing sample_exchange_deps
    (sample_exchange "svc" TokenTypeJWT "admin" TokenTypeRefreshToken) exchange_world 400 ErrInvalidScope).
  vm_compute. reflexivity.
Defined.
