(* ===== verification/Permissions.v ===== *)
(** * Permissions: permission codes, menus and the flat matcher
    ([domains/permissions]: [types.go], [matcher.go], [filter.go]).

    A nil slice and an empty one are the same list: the code tells them apart only
    in the JSON it writes.  A set built in a Go map comes out in an order of the
    runtime's choosing; here it is the order of [elements]. *)
From S2P Require Import Prelude Scopes.

(** ** Data *)

Record Permission := {
  pm_Code : string;
  pm_Resource : string;
}.

Record Role := {
  ro_Code : string;
  ro_Name : string;
  ro_Description : string;
  ro_Permissions : list string;
}.

Record Button := {
  bt_Code : string;
  bt_Name : string;
  bt_Permission : string;
}.

Inductive MenuItem :=
| MkMenuItem (ID Name Path Icon Permission : string) (Buttons : list Button) (Children : list MenuItem).

Definition mi_Permission (i : MenuItem) : string := let 'MkMenuItem _ _ _ _ p _ _ := i in p.
Definition mi_Children (i : MenuItem) : list MenuItem := let 'MkMenuItem _ _ _ _ _ _ ch := i in ch.

Definition MenuTree : Type := list MenuItem.

#[export] Instance button_eq_dec : EqDecision Button.
Proof. solve_decision. Defined.

Section menu_induction.
Variable P : MenuItem -> Prop.
Hypothesis step : forall id n p ic pm bs ch, Forall P ch -> P (MkMenuItem id n p ic pm bs ch).
Fixpoint MenuItem_rose (i : MenuItem) : P i :=
  let 'MkMenuItem id n p ic pm bs ch := i in
  step id n p ic pm bs ch
    ((fix all l : Forall P l :=
        match l with [] => Forall_nil_2 P | i :: l => Forall_cons_2 P i l (MenuItem_rose i) (all l) end) ch).
End menu_induction.

(** ** The matcher *)

Definition WildcardAll : string := "*".
Definition WildcardSuffix : string := ":*".

(** One turn of the loop of [Matches]. *)
Definition grants (p : Permission) (want : string) : bool :=
  bool_decide (pm_Code p = WildcardAll) || bool_decide (pm_Code p = want) ||
  match CutSuffix (pm_Code p) WildcardSuffix with
  | Some domain => HasPrefix want (domain +:+ ":")
  | None => false
  end.

Definition Matches (have : list Permission) (want : string) : bool :=
  if decide (want = "") then true else existsb (fun p => grants p want) have.

Definition codes_of (roles : list Role) : gset string :=
  list_to_set (mjoin (ro_Permissions <$> roles)).

Definition PermissionsFromRoles (roles : list Role) : list Permission :=
  (fun code => {| pm_Code := code; pm_Resource := "" |}) <$> elements (codes_of roles).

Definition PermissionSet (perms : list Permission) : gset string := list_to_set (pm_Code <$> perms).

(** ** Pruning menus *)

Definition FilterButtons (l : list Button) (perms : list Permission) : list Button :=
  filter (fun b => bool_decide (bt_Permission b = "") || Matches perms (bt_Permission b) = true) l.

Definition own_allowed (perms : list Permission) (permission : string) : bool :=
  bool_decide (permission = "") || Matches perms permission.

Fixpoint filter_item (perms : list Permission) (item : MenuItem) : option MenuItem :=
  let 'MkMenuItem id n p ic pm bs ch := item in
  let kept := omap (filter_item perms) ch in
  if negb (own_allowed perms pm) && bool_decide (kept = []) then None
  else Some (MkMenuItem id n p ic pm (FilterButtons bs perms) kept).

Definition FilterMenuTree (l : MenuTree) (perms : list Permission) : MenuTree :=
  omap (filter_item perms) l.

(** ** The matcher *)

Lemma grants_spec p want :
  grants p want = true <->
  pm_Code p = "*" \/ pm_Code p = want \/
  exists domain action, pm_Code p = (domain +:+ ":*")%string /\ want = (domain +:+ ":" +:+ action)%string.
Proof.
  unfold grants, WildcardAll, WildcardSuffix. rewrite !orb_true_iff, !bool_decide_eq_true.
  destruct (CutSuffix (pm_Code p) ":*") as [d|] eqn:Hd.
  - apply CutSuffix_spec in Hd. rewrite HasPrefix_spec. setoid_rewrite Str.app_assoc. split.
    + intros [[?|?]|[r Hr]]; [tauto..|]. right; right. by exists d, r.
    + intros [?|[?|(d' & r & Hp & Hr)]]; [tauto..|]. right. exists r.
      assert (d' = d) as ->; [|done]. apply (f_equal (fun s => CutSuffix s ":*")) in Hp.
      rewrite (proj2 (CutSuffix_spec (d' +:+ ":*") ":*" d') eq_refl), (proj2 (CutSuffix_spec _ _ _) Hd) in Hp. congruence.
  - split; [intros [[?|?]|?]; [tauto..|done]|]. intros [?|[?|(d & r & Hp & _)]]; [tauto..|].
    apply CutSuffix_spec in Hp. congruence.
Qed.

Lemma Matches_exists have want :
  Matches have want = true <-> want = "" \/ exists p, p ∈ have /\ grants p want = true.
Proof.
  unfold Matches. case_decide; [tauto|]. rewrite existsb_exists. setoid_rewrite <- list_elem_of_In. naive_solver.
Qed.

Lemma Matches_roles roles want :
  Matches (PermissionsFromRoles roles) want = true <->
  want = "" \/ exists role p, role ∈ roles /\ p ∈ ro_Permissions role /\
    grants {| pm_Code := p; pm_Resource := "" |} want = true.
Proof.
  rewrite Matches_exists. apply or_iff_compat_l. unfold PermissionsFromRoles, codes_of.
  setoid_rewrite list_elem_of_fmap. split.
  - intros (q & (p & -> & Hp) & Hg). apply elem_of_elements, elem_of_list_to_set in Hp.
    apply list_elem_of_join in Hp as (l & Hp & Hl). apply list_elem_of_fmap in Hl as (r & -> & Hr). by exists r, p.
  - intros (r & p & Hr & Hp & Hg). eexists. split; [|exact Hg]. exists p. split; [done|].
    apply elem_of_elements, elem_of_list_to_set, list_elem_of_join. exists (ro_Permissions r).
    split; [done|]. by apply list_elem_of_fmap_2.
Qed.

Lemma Matches_mono have have' want : have ⊆ have' -> Matches have want = true -> Matches have' want = true.
Proof. rewrite !Matches_exists. naive_solver. Qed.

(** What a flat check accepts: nothing asked for, the wildcard, the code itself, or
    the wildcard of the domain the code is in. *)
Theorem Matches_spec have want :
  Matches have want = true <->
  want = "" \/ exists p, p ∈ have /\
    (pm_Code p = "*" \/ pm_Code p = want \/
     exists domain action, pm_Code p = (domain +:+ ":*")%string /\ want = (domain +:+ ":" +:+ action)%string).
Proof. rewrite Matches_exists. by setoid_rewrite grants_spec. Qed.

(** ** Menus *)

Lemma own_allowed_spec perms permission : own_allowed perms permission = Matches perms permission.
Proof. unfold own_allowed, Matches. case_decide; [|by rewrite bool_decide_eq_false_2]. by rewrite bool_decide_eq_true_2. Qed.

(** An item and everything below it, in the order of the tree. *)
Fixpoint subitems (i : MenuItem) : list MenuItem :=
  i :: let 'MkMenuItem _ _ _ _ _ _ ch := i in mjoin (subitems <$> ch).

Definition flat (t : MenuTree) : list MenuItem := mjoin (subitems <$> t).

(** An item with its buttons filtered, and what stands below it left out. *)
Definition shown (perms : list Permission) (i : MenuItem) : MenuItem :=
  let 'MkMenuItem id n p ic pm bs _ := i in MkMenuItem id n p ic pm (FilterButtons bs perms) [].

Definition lives (perms : list Permission) (i : MenuItem) : Prop :=
  Exists (fun j => own_allowed perms (mi_Permission j) = true) (subitems i).
#[export] Instance lives_dec perms i : Decision (lives perms i).
Proof. unfold lives. apply _. Defined.

Definition top (i : MenuItem) : MenuItem :=
  let 'MkMenuItem id n p ic pm bs _ := i in MkMenuItem id n p ic pm bs [].

Lemma Exists_mjoin {A} (P : A -> Prop) (ll : list (list A)) : Exists P (mjoin ll) <-> Exists (Exists P) ll.
Proof. induction ll as [|l ll IH]; cbn; [by rewrite !Exists_nil|]. by rewrite Exists_app, Exists_cons, IH. Qed.

Lemma lives_cons perms id n p ic pm bs ch :
  lives perms (MkMenuItem id n p ic pm bs ch) <-> own_allowed perms pm = true \/ Exists (lives perms) ch.
Proof. unfold lives. cbn. by rewrite Exists_cons, Exists_mjoin, Exists_fmap. Qed.

(** What filtering an item leaves: nothing when nothing in it lives, and otherwise the
    living items below it in their order. *)
Definition filtered (perms : list Permission) (i : MenuItem) (k : option MenuItem) : Prop :=
  match k with
  | Some k => lives perms i /\ top <$> subitems k = shown perms <$> filter (lives perms) (subitems i)
  | None => ~ lives perms i /\ filter (lives perms) (subitems i) = []
  end.

Lemma filtered_list perms l :
  Forall (fun i => filtered perms i (filter_item perms i)) l ->
  (omap (filter_item perms) l = [] <-> ~ Exists (lives perms) l) /\
  top <$> flat (omap (filter_item perms) l) = shown perms <$> filter (lives perms) (flat l).
Proof.
  unfold flat. induction 1 as [|i l Hi _ [IH1 IH2]]; cbn.
  { split; [|done]. rewrite Exists_nil. tauto. }
  rewrite filter_app, fmap_app, Exists_cons. unfold filtered in Hi.
  destruct (filter_item perms i) as [k|]; cbn; destruct Hi as [Hi1 Hi2].
  - rewrite fmap_app. split; [split; [done|tauto]|]. by f_equal.
  - rewrite Hi2. split; [tauto|done].
Qed.

Lemma filter_item_spec perms i : filtered perms i (filter_item perms i).
Proof.
  induction i as [id n p ic pm bs ch IH] using MenuItem_rose.
  destruct (filtered_list perms ch IH) as [H1 H2]. unfold filtered. cbn [filter_item].
  fold (omap (M:=list) (filter_item perms)) in *.
  destruct (negb (own_allowed perms pm) && bool_decide (omap (filter_item perms) ch = [])) eqn:Hc.
  - apply andb_true_iff in Hc as [Ha Hn]. apply negb_true_iff in Ha. apply bool_decide_eq_true in Hn.
    split; [rewrite lives_cons; intros [?|?]; [congruence|by apply H1 in Hn]|].
    cbn [subitems]. rewrite filter_cons_False.
    + unfold flat in H2. rewrite Hn in H2. cbn in H2. symmetry in H2. by apply fmap_nil_inv in H2.
    + rewrite lives_cons. intros [?|?]; [congruence|by apply H1 in Hn].
  - assert (lives perms (MkMenuItem id n p ic pm bs ch)) as Hl.
    { apply lives_cons. destruct (own_allowed perms pm); [by left|right]. cbn in Hc.
      apply bool_decide_eq_false in Hc. destruct (decide (Exists (lives perms) ch)); [done|].
      by destruct Hc; apply H1. }
    split; [done|]. cbn [subitems]. rewrite filter_cons_True by done. rewrite !fmap_cons. f_equal. exact H2.
Qed.

Lemma FilterButtons_idem perms l : FilterButtons (FilterButtons l perms) perms = FilterButtons l perms.
Proof. unfold FilterButtons. rewrite list_filter_filter. apply list_filter_iff. intros b. tauto. Qed.

Lemma filter_item_idem perms i k : filter_item perms i = Some k -> filter_item perms k = Some k.
Proof.
  revert k. induction i as [id n p ic pm bs ch IH] using MenuItem_rose. intros k. cbn [filter_item].
  set (kept := omap (filter_item perms) ch).
  assert (omap (filter_item perms) kept = kept) as Hk.
  { unfold kept. clear kept. induction IH as [|i l Hi _ IH]; [done|]. cbn.
    destruct (filter_item perms i) as [k'|] eqn:E; [|done]. cbn. by rewrite (Hi k'), IH. }
  destruct (_ && _) eqn:Hc; [done|]. intros [= <-]. cbn [filter_item]. by rewrite Hk, Hc, FilterButtons_idem.
Qed.

(** the menu a user sees: listed in order, the filtered tree holds exactly the
    items that are allowed to the user or stand above one that is, each with the buttons
    the user may press; filtering again changes nothing. *)
Theorem FilterMenuTree_spec t perms :
  top <$> flat (FilterMenuTree t perms) = shown perms <$> filter (lives perms) (flat t) /\
  FilterMenuTree (FilterMenuTree t perms) perms = FilterMenuTree t perms.
Proof.
  split.
  - apply filtered_list. apply Forall_true. apply filter_item_spec.
  - unfold FilterMenuTree. induction t as [|i t IH]; [done|]. cbn.
    destruct (filter_item perms i) as [k|] eqn:E; [|done]. cbn.
    by rewrite (filter_item_idem perms i k E), IH.
Qed.

Example menu_ex :
  FilterMenuTree
    [MkMenuItem "u" "Users" "/u" "" "users:read" [] [MkMenuItem "k" "Keys" "/u/k" "" "keys:read" [] []];
     MkMenuItem "b" "Billing" "/b" "" "billing:read" [] []]
    [{| pm_Code := "keys:*"; pm_Resource := "" |}] =
  [MkMenuItem "u" "Users" "/u" "" "users:read" [] [MkMenuItem "k" "Keys" "/u/k" "" "keys:read" [] []]].
Proof. vm_compute. reflexivity. Qed.
