(* ===== verification/Resources.v ===== *)
(** * Resources: the catalog of protected resources and the check against it
    ([domains/permissions]: [resources.go] and the matching of
    [memory_resources.go]).

    [strings.EqualFold] is modelled on ASCII: other bytes must be equal. *)
From S2P Require Import Prelude Scopes Permissions.
Local Open Scope Z_scope.

(** ** Data *)

Definition ResourceType : Type := string.
Definition ResourceTypePage : ResourceType := "page".
Definition ResourceTypeUIElement : ResourceType := "ui_element".
Definition ResourceTypeHTTPAPI : ResourceType := "http_api".
Definition ResourceTypeGRPCAPI : ResourceType := "grpc_api".
Definition ResourceTypeGraphQLAPI : ResourceType := "graphql_api".
Definition ResourceTypeJSFn : ResourceType := "js_fn".

Definition RequireMode : Type := string.
Definition RequireAny : RequireMode := "any".
Definition RequireAll : RequireMode := "all".

Record Resource := {
  rc_ID : string;
  rc_TenantID : string;
  rc_ClientID : string;
  rc_Type : ResourceType;
  rc_Name : string;
  rc_RequiresAuth : bool;
  rc_Description : string;
  rc_Attributes : gmap string string;
  rc_RequiredPermissions : list string;
  rc_RequireMode : RequireMode;
  rc_CreatedAt : Z;
  rc_UpdatedAt : Z;
}.

Record ResourceLookup := {
  rl_TenantID : string;
  rl_ClientID : string;
  rl_Type : ResourceType;
  rl_Match : gmap string string;
}.

Record ResourceDecision := {
  rd_Found : bool;
  rd_ResourceID : string;
  rd_RequiresAuth : bool;
  rd_RequiredPermissions : list string;
  rd_RequireMode : RequireMode;
}.

Record ResourceCheckResult := {
  rk_Allowed : bool;
  rk_ResourceID : string;
  rk_Reason : string;
}.

Inductive resource_error :=
| ErrInvalidResource (reason : string)
| ErrResourceNotFound
| ErrResourceExists
| ErrProviderRequired.

(** ** Validation *)

(** The attributes a type requires and the message when one is missing. *)
Definition requiredAttrRules (t : ResourceType) : option (list string * string) :=
  if decide (t = ResourceTypeHTTPAPI) then Some (["method"; "path"], "http_api requires method+path attributes")
  else if decide (t = ResourceTypeGRPCAPI) then Some (["service"; "method"], "grpc_api requires service+method attributes")
  else if decide (t = ResourceTypeGraphQLAPI) then Some (["op"; "field"], "graphql_api requires op+field attributes")
  else if decide (t = ResourceTypePage) then Some (["route"], "page requires route attribute")
  else if decide (t = ResourceTypeJSFn) then Some (["route"; "symbol"], "js_fn requires route+symbol attributes")
  else if decide (t = ResourceTypeUIElement) then Some (["selector"], "ui_element requires selector attribute")
  else None.

(** Reading a Go map of strings: absent keys read as the empty string. *)
Definition attr (m : gmap string string) (k : string) : string := default "" (m !! k).

Definition validateTypeAttributes (r : Resource) : option resource_error :=
  match requiredAttrRules (rc_Type r) with
  | None => None
  | Some (keys, msg) =>
      if existsb (fun k => bool_decide (attr (rc_Attributes r) k = "")) keys then Some (ErrInvalidResource msg) else None
  end.

Definition Validate (r : Resource) : option resource_error :=
  if decide (rc_ID r = "") then Some (ErrInvalidResource "id required")
  else if decide (rc_Type r = "") then Some (ErrInvalidResource "type required")
  else if decide (rc_Name r = "") then Some (ErrInvalidResource "name required")
  else if negb (contains [""; RequireAny; RequireAll] (rc_RequireMode r))
  then Some (ErrInvalidResource "require_mode must be any|all")
  else validateTypeAttributes r.

Definition EffectiveRequireMode (r : Resource) : RequireMode :=
  if decide (rc_RequireMode r = "") then RequireAny else rc_RequireMode r.

(** ** Matching a runtime lookup *)

Definition slash : ascii := "/"%char.

(** [strings.Split(s, "/")] on the bytes. *)
Fixpoint split_slash (s acc : list ascii) : list (list ascii) :=
  match s with
  | [] => [acc]
  | c :: s => if decide (c = slash) then acc :: split_slash s [] else split_slash s (acc ++ [c])
  end.

(** [strings.TrimPrefix(s, "/")]. *)
Definition trim_slash (s : list ascii) : list ascii :=
  match s with c :: s' => if decide (c = slash) then s' else s | [] => [] end.

Definition segments (s : string) : list (list ascii) := split_slash (trim_slash (Str.to_list s)) [].

Definition colon : ascii := ":"%char.

(** A segment that starts with a colon is a parameter and matches anything. *)
Definition segment_matches (p a : list ascii) : bool := bool_decide (head p = Some colon) || bool_decide (p = a).

Fixpoint segments_match (ps aa : list (list ascii)) : bool :=
  match ps, aa with
  | p :: ps, a :: aa => segment_matches p a && segments_match ps aa
  | _, _ => true
  end.

Definition matchPath (pattern actual : string) : bool :=
  let pParts := segments pattern in
  let aParts := segments actual in
  if negb (Nat.eqb (length pParts) (length aParts)) then false else segments_match pParts aParts.

Definition lower_byte (c : ascii) : ascii :=
  let n := Ascii.nat_of_ascii c in
  if (Nat.leb 65 n && Nat.leb n 90)%nat then Ascii.ascii_of_nat (n + 32) else c.

Definition equalFold (a b : string) : bool :=
  bool_decide (lower_byte <$> Str.to_list a = lower_byte <$> Str.to_list b).

Definition same_attr (want have : gmap string string) (k : string) : bool :=
  bool_decide (attr want k = attr have k).

Definition matchUIElement (want have : gmap string string) : bool :=
  if negb (same_attr want have "selector") then false
  else
    let wp := attr want "page_id" in
    let hp := attr have "page_id" in
    if negb (bool_decide (wp = "")) && negb (bool_decide (hp = "")) && negb (bool_decide (wp = hp)) then false else true.

Definition matchCustomAttributes (want have : gmap string string) : bool :=
  forallb (fun kv => bool_decide (attr have kv.1 = kv.2)) (map_to_list want).

Definition matchAttributes (t : ResourceType) (want have : gmap string string) : bool :=
  if decide (t = ResourceTypeHTTPAPI) then
    equalFold (attr want "method") (attr have "method") && matchPath (attr want "path") (attr have "path")
  else if decide (t = ResourceTypeGRPCAPI) then same_attr want have "service" && same_attr want have "method"
  else if decide (t = ResourceTypeGraphQLAPI) then same_attr want have "op" && same_attr want have "field"
  else if decide (t = ResourceTypePage) then same_attr want have "route"
  else if decide (t = ResourceTypeJSFn) then same_attr want have "route" && same_attr want have "symbol"
  else if decide (t = ResourceTypeUIElement) then matchUIElement want have
  else matchCustomAttributes want have.

(** The conditions of the loop of [ResolveResource]. *)
Definition resource_matches (lookup : ResourceLookup) (r : Resource) : bool :=
  bool_decide (rc_TenantID r = rl_TenantID lookup) && bool_decide (rc_ClientID r = rl_ClientID lookup) &&
  bool_decide (rc_Type r = rl_Type lookup) && matchAttributes (rc_Type r) (rc_Attributes r) (rl_Match lookup).

Definition decision_of (r : Resource) : ResourceDecision := {|
  rd_Found := true; rd_ResourceID := rc_ID r; rd_RequiresAuth := rc_RequiresAuth r;
  rd_RequiredPermissions := rc_RequiredPermissions r; rd_RequireMode := EffectiveRequireMode r |}.

Definition not_found : ResourceDecision := {|
  rd_Found := false; rd_ResourceID := ""; rd_RequiresAuth := false; rd_RequiredPermissions := [];
  rd_RequireMode := "" |}.

(** The loop over a Go map visits the resources in an order of the runtime's choosing:
    [visited]. *)
Fixpoint resolve_in (visited : list Resource) (lookup : ResourceLookup) : ResourceDecision :=
  match visited with
  | [] => not_found
  | r :: visited => if resource_matches lookup r then decision_of r else resolve_in visited lookup
  end.

(** ** The check *)

Definition flatResourceResult (subjectPerms : list Permission) (want : string) : ResourceCheckResult :=
  let allowed := Matches subjectPerms want in
  {| rk_Allowed := allowed; rk_ResourceID := "";
     rk_Reason := if allowed then "flat-match" else "flat-miss" |}.

Definition resourcePermissionsMatch (subjectPerms : list Permission) (d : ResourceDecision) : bool :=
  if decide (rd_RequireMode d = RequireAll)
  then forallb (Matches subjectPerms) (rd_RequiredPermissions d)
  else existsb (Matches subjectPerms) (rd_RequiredPermissions d).

(** [rp] is the provider's [ResolveResource], [None] when there is no provider. *)
Definition CheckResourceWithContext {E} (rp : option (ResourceLookup -> result E ResourceDecision))
    (lookup : option ResourceLookup) (subjectPerms : list Permission) (want : string)
    : result (E + resource_error) ResourceCheckResult :=
  match lookup with
  | None => Ok (flatResourceResult subjectPerms want)
  | Some lookup =>
      match rp with
      | None => Err (inr ErrProviderRequired)
      | Some resolve =>
          match resolve lookup with
          | Err e => Err (inl e)
          | Ok d =>
              if negb (rd_Found d) then Ok (flatResourceResult subjectPerms want)
              else if negb (rd_RequiresAuth d) || bool_decide (rd_RequiredPermissions d = [])
              then Ok {| rk_Allowed := true; rk_ResourceID := rd_ResourceID d; rk_Reason := "resource-public" |}
              else Ok {| rk_Allowed := resourcePermissionsMatch subjectPerms d;
                         rk_ResourceID := rd_ResourceID d;
                         rk_Reason := if decide (rd_RequireMode d = RequireAll) then "require-all" else "require-any" |}
          end
      end
  end.

(** ** Lemmas *)

Lemma resolve_in_spec visited lookup :
  (resolve_in visited lookup = not_found /\ forall r, r ∈ visited -> resource_matches lookup r = false) \/
  exists r, r ∈ visited /\ resource_matches lookup r = true /\ resolve_in visited lookup = decision_of r.
Proof.
  induction visited as [|r visited IH]; cbn; [left; set_solver|].
  destruct (resource_matches lookup r) eqn:Hr; [right; exists r; set_solver|].
  destruct IH as [[IH1 IH2]|(r' & IH1 & IH2 & IH3)]; [left|right; exists r'; set_solver].
  split; [done|]. intros r' [->|Hr']%elem_of_cons; auto.
Qed.

(** What a resource asks of the subject. *)
Definition permits (perms : list Permission) (r : Resource) : Prop :=
  rc_RequiresAuth r = false \/ rc_RequiredPermissions r = [] \/
  if decide (EffectiveRequireMode r = RequireAll)
  then forall p, p ∈ rc_RequiredPermissions r -> Matches perms p = true
  else exists p, p ∈ rc_RequiredPermissions r /\ Matches perms p = true.

Lemma resourcePermissionsMatch_spec perms r :
  resourcePermissionsMatch perms (decision_of r) = true <->
  if decide (EffectiveRequireMode r = RequireAll)
  then forall p, p ∈ rc_RequiredPermissions r -> Matches perms p = true
  else exists p, p ∈ rc_RequiredPermissions r /\ Matches perms p = true.
Proof.
  unfold resourcePermissionsMatch. cbn. case_decide.
  - rewrite forallb_forall. by setoid_rewrite <- list_elem_of_In.
  - rewrite existsb_exists. by setoid_rewrite <- list_elem_of_In.
Qed.

Lemma check_found {E} (resolve : ResourceLookup -> result E ResourceDecision) lookup perms want r :
  resolve lookup = Ok (decision_of r) ->
  exists k, CheckResourceWithContext (Some resolve) (Some lookup) perms want = Ok k /\
    rk_ResourceID k = rc_ID r /\ (rk_Allowed k = true <-> permits perms r).
Proof.
  intros Hd. unfold CheckResourceWithContext. rewrite Hd. cbn [decision_of rd_Found negb].
  destruct (negb _ || _) eqn:Hp; eexists; split; try reflexivity; split; try reflexivity; cbn [rk_Allowed].
  - split; [intros _|done]. unfold permits. cbn in Hp. apply orb_true_iff in Hp as [Hp|Hp]; bool_simpl; auto.
  - cbn in Hp. bool_simpl. rewrite resourcePermissionsMatch_spec. unfold permits. split; [auto|].
    intros [?|[?|?]]; [congruence|done..].
Qed.

Lemma check_not_found {E} (resolve : ResourceLookup -> result E ResourceDecision) lookup perms want :
  resolve lookup = Ok not_found ->
  exists k, CheckResourceWithContext (Some resolve) (Some lookup) perms want = Ok k /\
    rk_ResourceID k = "" /\ (rk_Allowed k = true <-> Matches perms want = true).
Proof. intros Hd. unfold CheckResourceWithContext. rewrite Hd. cbn. by eexists. Qed.

(** A path pattern matches when it has as many segments and each is a parameter or the
    same. *)
Theorem matchPath_spec pattern actual :
  matchPath pattern actual = true <->
  Forall2 (fun p a => head p = Some colon \/ p = a) (segments pattern) (segments actual).
Proof.
  assert (forall p a, segment_matches p a = true <-> head p = Some colon \/ p = a) as Hs
    by (intros p a; unfold segment_matches; by rewrite orb_true_iff, !bool_decide_eq_true).
  unfold matchPath. generalize (segments actual) as aa. generalize (segments pattern) as ps.
  induction ps as [|p ps IH]; intros [|a aa]; cbn; try (split; [done|by inversion 1]).
  specialize (IH aa). destruct (Nat.eqb (length ps) (length aa)); cbn in *.
  - rewrite andb_true_iff, Hs, IH, Forall2_cons. done.
  - rewrite Forall2_cons, <- IH. naive_solver.
Qed.

Example matchPath_ex :
  matchPath "/users/:id" "/users/7" = true /\ matchPath "/users/:id" "/users" = false /\
  matchPath "/users/:id" "/users/7/keys" = false.
Proof. vm_compute. done. Qed.
