(* ===== verification/Rbac.v ===== *)
(** * Rbac: the in-memory permission provider
    ([domains/permissions]: [memory.go], [sod.go] and the catalog operations of
    [memory_resources.go]).

    Every method holds the provider's mutex, so it is one step.  The maps are those
    of the code; [mp_active] is keyed by the string [sessionKey] builds, because the
    clearing loops take that key apart again. *)
From S2P Require Import Prelude Scopes Permissions Resources.

(** ** State *)

Record ConflictError := {
  ce_ClientID : string;
  ce_Set : list string;
  ce_Roles : list string;
}.

Inductive perm_error :=
| ErrUserNotFound
| ErrRoleExists
| ErrRoleNotFound
| ErrRoleConflict (c : ConflictError)
| ErrRoleNotAssigned (code : string)
| ErrInvalidConflictSet.

Record MemoryProvider := {
  mp_rolesByClient : gmap string (gmap string Role);
  mp_menusByClient : gmap string MenuTree;
  mp_assignmentsByUser : gmap string (gmap string (list string));
  mp_resources : gmap string Resource;
  mp_resourceIndex : gmap string string;
  mp_ssodConflicts : gmap string (list (list string));
  mp_dsodConflicts : gmap string (list (list string));
  mp_activeRoles : gmap string (list string);
}.

Definition NewMemoryProvider : MemoryProvider := {|
  mp_rolesByClient := ∅; mp_menusByClient := ∅; mp_assignmentsByUser := ∅; mp_resources := ∅;
  mp_resourceIndex := ∅; mp_ssodConflicts := ∅; mp_dsodConflicts := ∅; mp_activeRoles := ∅ |}.

Implicit Types (m : MemoryProvider).

(** Assignments to single fields. *)
Definition set_roles m x : MemoryProvider := {|
  mp_rolesByClient := x; mp_menusByClient := mp_menusByClient m;
  mp_assignmentsByUser := mp_assignmentsByUser m; mp_resources := mp_resources m;
  mp_resourceIndex := mp_resourceIndex m; mp_ssodConflicts := mp_ssodConflicts m;
  mp_dsodConflicts := mp_dsodConflicts m; mp_activeRoles := mp_activeRoles m |}.
Definition set_menus m x : MemoryProvider := {|
  mp_rolesByClient := mp_rolesByClient m; mp_menusByClient := x;
  mp_assignmentsByUser := mp_assignmentsByUser m; mp_resources := mp_resources m;
  mp_resourceIndex := mp_resourceIndex m; mp_ssodConflicts := mp_ssodConflicts m;
  mp_dsodConflicts := mp_dsodConflicts m; mp_activeRoles := mp_activeRoles m |}.
Definition set_assign m x : MemoryProvider := {|
  mp_rolesByClient := mp_rolesByClient m; mp_menusByClient := mp_menusByClient m;
  mp_assignmentsByUser := x; mp_resources := mp_resources m;
  mp_resourceIndex := mp_resourceIndex m; mp_ssodConflicts := mp_ssodConflicts m;
  mp_dsodConflicts := mp_dsodConflicts m; mp_activeRoles := mp_activeRoles m |}.
Definition set_catalog m rs idx : MemoryProvider := {|
  mp_rolesByClient := mp_rolesByClient m; mp_menusByClient := mp_menusByClient m;
  mp_assignmentsByUser := mp_assignmentsByUser m; mp_resources := rs;
  mp_resourceIndex := idx; mp_ssodConflicts := mp_ssodConflicts m;
  mp_dsodConflicts := mp_dsodConflicts m; mp_activeRoles := mp_activeRoles m |}.
Definition set_conflicts m ssod dsod : MemoryProvider := {|
  mp_rolesByClient := mp_rolesByClient m; mp_menusByClient := mp_menusByClient m;
  mp_assignmentsByUser := mp_assignmentsByUser m; mp_resources := mp_resources m;
  mp_resourceIndex := mp_resourceIndex m; mp_ssodConflicts := ssod;
  mp_dsodConflicts := dsod; mp_activeRoles := mp_activeRoles m |}.
Definition set_active m x : MemoryProvider := {|
  mp_rolesByClient := mp_rolesByClient m; mp_menusByClient := mp_menusByClient m;
  mp_assignmentsByUser := mp_assignmentsByUser m; mp_resources := mp_resources m;
  mp_resourceIndex := mp_resourceIndex m; mp_ssodConflicts := mp_ssodConflicts m;
  mp_dsodConflicts := mp_dsodConflicts m; mp_activeRoles := x |}.

(** Reading a nested Go map: a missing level reads as the zero value. *)
Definition assigned m (userID clientID : string) : list string :=
  default [] (default ∅ (mp_assignmentsByUser m !! userID) !! clientID).
Definition definitions m (clientID : string) : gmap string Role := default ∅ (mp_rolesByClient m !! clientID).
Definition ssod m (clientID : string) : list (list string) := default [] (mp_ssodConflicts m !! clientID).
Definition dsod m (clientID : string) : list (list string) := default [] (mp_dsodConflicts m !! clientID).

(** ** Separation of duty *)

Definition validateConflictSets (sets : list (list string)) : bool :=
  forallb (fun set => negb (contains set "") && Nat.leb 2 (size (list_to_set (C:=gset string) set))) sets.

Definition hitsInSet (set candidateCodes : list string) : list string :=
  filter (fun code => contains set code = true) candidateCodes.

Fixpoint findConflict (clientID : string) (sets : list (list string)) (candidateCodes : list string)
    : option ConflictError :=
  match sets with
  | [] => None
  | set :: sets =>
      let hit := hitsInSet set candidateCodes in
      if Nat.leb 2 (length hit)
      then Some {| ce_ClientID := clientID; ce_Set := set; ce_Roles := hit |}
      else findConflict clientID sets candidateCodes
  end.

Definition CheckRoleConflict (clientID : string) (sets : list (list string)) (candidateCodes : list string)
    : option perm_error :=
  ErrRoleConflict <$> findConflict clientID sets candidateCodes.

Definition with_sets (clientID : string) (sets : list (list string)) (table : gmap string (list (list string)))
    : gmap string (list (list string)) :=
  if decide (sets = []) then delete clientID table else <[clientID := sets]> table.

Definition SetConflictSets (clientID : string) (sets : list (list string)) m : result perm_error () * MemoryProvider :=
  if negb (validateConflictSets sets) then (Err ErrInvalidConflictSet, m)
  else (Ok (), set_conflicts m (with_sets clientID sets (mp_ssodConflicts m)) (mp_dsodConflicts m)).

Definition SetActivationConflictSets (clientID : string) (sets : list (list string)) m
    : result perm_error () * MemoryProvider :=
  if negb (validateConflictSets sets) then (Err ErrInvalidConflictSet, m)
  else (Ok (), set_conflicts m (mp_ssodConflicts m) (with_sets clientID sets (mp_dsodConflicts m))).

Definition ConflictSets (clientID : string) m : list (list string) := ssod m clientID.
Definition ActivationConflictSets (clientID : string) m : list (list string) := dsod m clientID.

(** ** Session activation *)

Definition NUL : ascii := Ascii.zero.

Definition sessionKey (userID clientID sessionID : string) : string :=
  userID +:+ String NUL (clientID +:+ String NUL sessionID).

(** The piece up to the first separator, and the rest when there is one. *)
Fixpoint cut_nul (s : string) : string * option string :=
  match s with
  | EmptyString => (EmptyString, None)
  | String c s => if decide (c = NUL) then (EmptyString, Some s)
                  else let '(l, r) := cut_nul s in (String c l, r)
  end.

Definition splitSessionKey (key : string) : option (string * string) :=
  match cut_nul key with
  | (userID, Some rest) =>
      match cut_nul rest with (clientID, Some _) => Some (userID, clientID) | _ => None end
  | _ => None
  end.

Definition clearClientActiveRoles (clientID : string) m : MemoryProvider :=
  set_active m (filter (fun kv => snd <$> splitSessionKey kv.1 <> Some clientID) (mp_activeRoles m)).

Definition clearActiveRoles (userID clientID : string) m : MemoryProvider :=
  set_active m (filter (fun kv => splitSessionKey kv.1 <> Some (userID, clientID)) (mp_activeRoles m)).

Definition ActivateRoles (userID clientID sessionID : string) (roles : list string) m
    : result perm_error () * MemoryProvider :=
  match list_find (fun code => contains (assigned m userID clientID) code = false) roles with
  | Some (_, code) => (Err (ErrRoleNotAssigned code), m)
  | None =>
      match findConflict clientID (ssod m clientID ++ dsod m clientID) roles with
      | Some c => (Err (ErrRoleConflict c), m)
      | None => (Ok (), set_active m (<[sessionKey userID clientID sessionID := roles]> (mp_activeRoles m)))
      end
  end.

(** The definitions of codes that have one, in their order. *)
Definition defined (defs : gmap string Role) (codes : list string) : list Role :=
  omap (fun code => defs !! code) codes.

Definition ActiveRoles (userID clientID sessionID : string) m : list Role :=
  defined (definitions m clientID) (default [] (mp_activeRoles m !! sessionKey userID clientID sessionID)).

Definition DeactivateSession (userID clientID sessionID : string) m : MemoryProvider :=
  set_active m (delete (sessionKey userID clientID sessionID) (mp_activeRoles m)).

(** ** Roles *)

Definition AddRole (clientID : string) (role : Role) m : result perm_error () * MemoryProvider :=
  let defs := definitions m clientID in
  let m := set_roles m (<[clientID := defs]> (mp_rolesByClient m)) in
  if decide (is_Some (defs !! ro_Code role)) then (Err ErrRoleExists, m)
  else (Ok (), set_roles m (<[clientID := <[ro_Code role := role]> defs]> (mp_rolesByClient m))).

Definition UpdateRole (clientID : string) (role : Role) m : result perm_error () * MemoryProvider :=
  let defs := definitions m clientID in
  if decide (is_Some (defs !! ro_Code role))
  then (Ok (), set_roles m (<[clientID := <[ro_Code role := role]> defs]> (mp_rolesByClient m)))
  else (Err ErrRoleNotFound, m).

(** [slices.DeleteFunc] with the test that a code is one of [codes]. *)
Definition without (codes roles : list string) : list string := filter (fun r => r ∉ codes) roles.

Definition RemoveRole (clientID roleCode : string) m : result perm_error () * MemoryProvider :=
  let defs := definitions m clientID in
  if decide (is_Some (defs !! roleCode)) then
    let m := set_roles m (<[clientID := delete roleCode defs]> (mp_rolesByClient m)) in
    let m := set_assign m (alter (without [roleCode]) clientID <$> mp_assignmentsByUser m) in
    (Ok (), clearClientActiveRoles clientID m)
  else (Err ErrRoleNotFound, m).

(** ** Menus *)

Definition SetMenus (clientID : string) (menus : MenuTree) m : MemoryProvider :=
  set_menus m (<[clientID := menus]> (mp_menusByClient m)).

Definition GetMenus (clientID : string) m : MenuTree := default [] (mp_menusByClient m !! clientID).

(** ** Assignments *)

Definition set_assigned (userID clientID : string) (roles : list string) m : MemoryProvider :=
  let byClient := default ∅ (mp_assignmentsByUser m !! userID) in
  set_assign m (<[userID := <[clientID := roles]> byClient]> (mp_assignmentsByUser m)).

(** The first statement of [AddRoleToUser] leaves a user's entry behind even when the
    call is then refused. *)
Definition touch_user (userID : string) m : MemoryProvider :=
  set_assign m (<[userID := default ∅ (mp_assignmentsByUser m !! userID)]> (mp_assignmentsByUser m)).

Definition AssignRoles (userID clientID : string) (roles : list string) m : result perm_error () * MemoryProvider :=
  match findConflict clientID (ssod m clientID) roles with
  | Some c => (Err (ErrRoleConflict c), m)
  | None => (Ok (), clearActiveRoles userID clientID (set_assigned userID clientID roles m))
  end.

Definition UnassignRoles (userID clientID : string) (roles : list string) m : MemoryProvider :=
  match assigned m userID clientID with
  | [] => clearActiveRoles userID clientID m
  | cur => clearActiveRoles userID clientID (set_assigned userID clientID (without roles cur) m)
  end.

Definition AddRoleToUser (userID clientID roleCode : string) m : result perm_error () * MemoryProvider :=
  let m := touch_user userID m in
  let cur := assigned m userID clientID in
  if contains cur roleCode then (Ok (), m)
  else
    let next := cur ++ [roleCode] in
    match findConflict clientID (ssod m clientID) next with
    | Some c => (Err (ErrRoleConflict c), m)
    | None => (Ok (), clearActiveRoles userID clientID (set_assigned userID clientID next m))
    end.

Definition RemoveRoleFromUser (userID clientID roleCode : string) m : MemoryProvider :=
  match mp_assignmentsByUser m !! userID with
  | None => m
  | Some _ =>
      match assigned m userID clientID with
      | [] => clearActiveRoles userID clientID m
      | cur => clearActiveRoles userID clientID (set_assigned userID clientID (without [roleCode] cur) m)
      end
  end.

(** ** Reading *)

Definition ListAllRoles (clientID : string) m : list Role := (map_to_list (definitions m clientID)).*2.

Definition ListAssignments (clientID : string) m : list (string * list string) :=
  filter (fun '(_, roles) => roles <> [])
    ((fun kv => (kv.1, default [] (kv.2 !! clientID))) <$> map_to_list (mp_assignmentsByUser m)).

(** The codes that count for a user: those of the client, or the global ones. *)
Definition role_codes (userID clientID : string) m : list string :=
  match assigned m userID clientID with
  | [] => if decide (clientID = "") then [] else assigned m userID ""
  | codes => codes
  end.

Definition role_defs (clientID : string) m : gmap string Role :=
  if decide (definitions m clientID = ∅) then definitions m "" else definitions m clientID.

Definition Roles (userID clientID : string) m : result perm_error (list Role) :=
  match role_codes userID clientID m with
  | [] => Err ErrUserNotFound
  | codes => Ok (defined (role_defs clientID m) codes)
  end.

Definition Permissions (userID clientID : string) m : result perm_error (list Permission) :=
  match Roles userID clientID m with
  | Err e => Err e
  | Ok roles => Ok (PermissionsFromRoles roles)
  end.

Definition Menus (userID clientID : string) m : MenuTree :=
  match mp_menusByClient m !! clientID with
  | None => []
  | Some full =>
      match Permissions userID clientID m with
      | Err _ => []
      | Ok perms => FilterMenuTree full perms
      end
  end.

(** ** The resource catalog *)

Definition resourceTupleKey (r : Resource) : string :=
  rc_TenantID r +:+ "|" +:+ rc_ClientID r +:+ "|" +:+ rc_Type r +:+ "|" +:+ rc_Name r.

Definition stamped (r : Resource) (createdAt updatedAt : Z) : Resource := {|
  rc_ID := rc_ID r; rc_TenantID := rc_TenantID r; rc_ClientID := rc_ClientID r; rc_Type := rc_Type r;
  rc_Name := rc_Name r; rc_RequiresAuth := rc_RequiresAuth r; rc_Description := rc_Description r;
  rc_Attributes := rc_Attributes r; rc_RequiredPermissions := rc_RequiredPermissions r;
  rc_RequireMode := rc_RequireMode r; rc_CreatedAt := createdAt; rc_UpdatedAt := updatedAt |}.

Definition RegisterResource (now : Z) (r : Resource) m : result resource_error () * MemoryProvider :=
  match Validate r with
  | Some e => (Err e, m)
  | None =>
      let tuple := resourceTupleKey r in
      let taken := match mp_resourceIndex m !! tuple with
                   | Some existingID => negb (bool_decide (existingID = rc_ID r))
                   | None => false
                   end in
      if taken then (Err ErrResourceExists, m)
      else
        let '(createdAt, index) :=
          match mp_resources m !! rc_ID r with
          | Some existing =>
              (rc_CreatedAt existing,
               if decide (resourceTupleKey existing = tuple) then mp_resourceIndex m
               else delete (resourceTupleKey existing) (mp_resourceIndex m))
          | None => (if GoTime.IsZero (rc_CreatedAt r) then now else rc_CreatedAt r, mp_resourceIndex m)
          end in
        (Ok (), set_catalog m (<[rc_ID r := stamped r createdAt now]> (mp_resources m)) (<[tuple := rc_ID r]> index))
  end.

Definition GetResource (id : string) m : result resource_error Resource :=
  match mp_resources m !! id with Some r => Ok r | None => Err ErrResourceNotFound end.

Definition DeleteResource (id : string) m : MemoryProvider :=
  match mp_resources m !! id with
  | None => m
  | Some r => set_catalog m (delete id (mp_resources m)) (delete (resourceTupleKey r) (mp_resourceIndex m))
  end.

Definition ListResources (tenantID clientID : string) m : list Resource :=
  merge_sort (key_le rc_ID)
    (filter (fun r => rc_TenantID r = tenantID /\ rc_ClientID r = clientID) (map_to_list (mp_resources m)).*2).

Definition by_tenant (r r' : Resource) : Prop :=
  if decide (rc_TenantID r = rc_TenantID r') then key_le rc_ID r r' else key_le rc_TenantID r r'.
#[export] Instance by_tenant_dec r r' : Decision (by_tenant r r').
Proof. unfold by_tenant. case_decide; apply _. Defined.

Definition ListAllResources (clientID : string) m : list Resource :=
  merge_sort by_tenant (filter (fun r => rc_ClientID r = clientID) (map_to_list (mp_resources m)).*2).

(** [visited] lists the catalog in the order the runtime ranges over it. *)
Definition ranges_over (visited : list Resource) m : Prop := visited ≡ₚ (map_to_list (mp_resources m)).*2.

Definition ResolveResource (visited : list Resource) (lookup : ResourceLookup) : result resource_error ResourceDecision :=
  Ok (resolve_in visited lookup).

(** ** Histories *)

Inductive rbac_op :=
| OAddRole (clientID : string) (role : Role)
| OUpdateRole (clientID : string) (role : Role)
| ORemoveRole (clientID roleCode : string)
| OSetMenus (clientID : string) (menus : MenuTree)
| OAssign (userID clientID : string) (roles : list string)
| OUnassign (userID clientID : string) (roles : list string)
| OAddToUser (userID clientID roleCode : string)
| ORemoveFromUser (userID clientID roleCode : string)
| OSetSSoD (clientID : string) (sets : list (list string))
| OSetDSoD (clientID : string) (sets : list (list string))
| OActivate (userID clientID sessionID : string) (roles : list string)
| ODeactivate (userID clientID sessionID : string)
| ORegister (now : Z) (r : Resource)
| ODelete (id : string).

Definition rbac_step m (o : rbac_op) : MemoryProvider :=
  match o with
  | OAddRole c r => (AddRole c r m).2
  | OUpdateRole c r => (UpdateRole c r m).2
  | ORemoveRole c r => (RemoveRole c r m).2
  | OSetMenus c t => SetMenus c t m
  | OAssign u c rs => (AssignRoles u c rs m).2
  | OUnassign u c rs => UnassignRoles u c rs m
  | OAddToUser u c r => (AddRoleToUser u c r m).2
  | ORemoveFromUser u c r => RemoveRoleFromUser u c r m
  | OSetSSoD c sets => (SetConflictSets c sets m).2
  | OSetDSoD c sets => (SetActivationConflictSets c sets m).2
  | OActivate u c s rs => (ActivateRoles u c s rs m).2
  | ODeactivate u c s => DeactivateSession u c s m
  | ORegister now r => (RegisterResource now r m).2
  | ODelete id => DeleteResource id m
  end.

Definition rbac_run (tr : list rbac_op) m : MemoryProvider := foldl rbac_step m tr.

(** ** Lemmas *)

Definition nul_free (s : string) : Prop := NUL ∉ Str.to_list s.
#[export] Instance nul_free_dec s : Decision (nul_free s).
Proof. unfold nul_free. apply _. Defined.

Lemma cut_nul_app s r : nul_free s -> cut_nul (s +:+ String NUL r) = (s, Some r).
Proof.
  unfold nul_free. induction s as [|c s IH]; intros Hs; [done|]. rewrite Str.app_cons.
  cbn [Str.to_list] in Hs. apply not_elem_of_cons in Hs as [Hc Hs].
  cbn [cut_nul]. rewrite decide_False by done. by rewrite IH.
Qed.

(** The comment on [sessionKey]: without a NUL byte the key determines its parts. *)
Lemma splitSessionKey_sessionKey u c s :
  nul_free u -> nul_free c -> splitSessionKey (sessionKey u c s) = Some (u, c).
Proof. intros Hu Hc. unfold splitSessionKey, sessionKey. by rewrite !cut_nul_app. Qed.

Lemma sessionKey_inj u c s u' c' s' :
  nul_free u -> nul_free c -> nul_free u' -> nul_free c' ->
  sessionKey u c s = sessionKey u' c' s' -> u = u' /\ c = c'.
Proof.
  intros Hu Hc Hu' Hc' Hk. apply (f_equal splitSessionKey) in Hk.
  rewrite !splitSessionKey_sessionKey in Hk by done. by simplify_eq.
Qed.

Lemma active_clear u c m k codes :
  mp_activeRoles (clearActiveRoles u c m) !! k = Some codes <->
  mp_activeRoles m !! k = Some codes /\ splitSessionKey k <> Some (u, c).
Proof. cbn. apply map_lookup_filter_Some. Qed.

Lemma active_clear_client c m k codes :
  mp_activeRoles (clearClientActiveRoles c m) !! k = Some codes <->
  mp_activeRoles m !! k = Some codes /\ snd <$> splitSessionKey k <> Some c.
Proof. cbn. apply map_lookup_filter_Some. Qed.

Lemma assigned_set u' c' roles m u c :
  assigned (set_assigned u' c' roles m) u c =
  (if decide (u = u' /\ c = c') then roles else assigned m u c).
Proof.
  unfold assigned, set_assigned. cbn. case_decide as Hd.
  - destruct Hd as [-> ->]. rewrite lookup_insert_eq. cbn. by rewrite lookup_insert_eq.
  - destruct (decide (u' = u)) as [->|Hu]; [|by rewrite lookup_insert_ne].
    rewrite lookup_insert_eq. cbn. rewrite lookup_insert_ne by (intros ->; by apply Hd). done.
Qed.

Lemma assigned_touch u' m u c : assigned (touch_user u' m) u c = assigned m u c.
Proof.
  unfold assigned, touch_user. cbn. destruct (decide (u' = u)) as [->|Hu]; [|by rewrite lookup_insert_ne].
  by rewrite lookup_insert_eq.
Qed.

Lemma without_sublist codes roles : without codes roles ⊆ roles.
Proof. intros r Hr. by apply list_elem_of_filter in Hr as [_ Hr]. Qed.

(** No two distinct codes of one conflict set. *)
Definition clean (sets : list (list string)) (codes : list string) : Prop :=
  forall set a b, set ∈ sets -> a ∈ set -> b ∈ set -> a ∈ codes -> b ∈ codes -> a = b.

Lemma clean_sub sets codes codes' : codes' ⊆ codes -> clean sets codes -> clean sets codes'.
Proof. unfold clean. intros Hs Hc set a b. intros. eapply Hc; eauto. Qed.

Lemma clean_nil sets : clean sets [].
Proof. intros set a b _ _ _ Ha. by apply not_elem_of_nil in Ha. Qed.

Lemma short_same {A} (l : list A) a b : length l < 2 -> a ∈ l -> b ∈ l -> a = b.
Proof. destruct l as [|x [|y l]]; cbn; [set_solver..|lia]. Qed.

(** A request the conflict check lets through. *)
Lemma findConflict_clean c sets codes : findConflict c sets codes = None -> clean sets codes.
Proof.
  induction sets as [|set sets IH]; cbn [findConflict]; [intros _ ? ? ? H; by apply not_elem_of_nil in H|].
  destruct (Nat.leb _ _) eqn:Hl; [done|]. intros Hc. apply Nat.leb_gt in Hl.
  intros s a b [->|Hs]%elem_of_cons Ha Hb Ha' Hb'; [|by eapply IH].
  apply (short_same (hitsInSet set codes)); [done|..]; apply list_elem_of_filter;
    (split; [by apply contains_spec|done]).
Qed.

Lemma findConflict_Some c sets codes e :
  NoDup codes -> findConflict c sets codes = Some e ->
  ce_Set e ∈ sets /\ exists a b, a <> b /\ a ∈ ce_Set e /\ b ∈ ce_Set e /\ a ∈ codes /\ b ∈ codes.
Proof.
  intros Hnd. induction sets as [|set sets IH]; cbn [findConflict]; [done|].
  destruct (Nat.leb _ _) eqn:Hl; [|intros He; destruct (IH He) as [H1 H2]; split; [by right|done]].
  intros [= <-]. cbn. apply Nat.leb_le in Hl. split; [by left|].
  assert (NoDup (hitsInSet set codes)) as Hh by by apply NoDup_filter.
  destruct (hitsInSet set codes) as [|a [|b l]] eqn:E; cbn in Hl; [lia..|].
  exists a, b. split; [apply NoDup_cons in Hh as [Hh _]; set_solver|].
  assert (forall x, x ∈ [a; b] -> x ∈ set /\ x ∈ codes) as H.
  { intros x Hx. assert (x ∈ hitsInSet set codes) as Hx' by (rewrite E; set_solver).
    apply list_elem_of_filter in Hx' as [Hx1 Hx2]. by apply contains_spec in Hx1. }
  destruct (H a), (H b); [set_solver..|done].
Qed.

Lemma clean_fewer sets sets' codes : sets' ⊆ sets -> clean sets codes -> clean sets' codes.
Proof. unfold clean. intros Hs Hc set a b Hset. eauto. Qed.

Section separation.
(** Conflict sets of a client that stay declared: to hold, and to activate. *)
Context (S D : list (list string)) (c : string).
Hypothesis Hc : nul_free c.

(** What holds of the roles and sessions of the client: nobody holds two roles of an
    exclusive set, and a session has activated only roles its user holds and no two of
    a set that is exclusive to hold or to activate. *)
Definition separated m : Prop :=
  (S ⊆ ssod m c /\ D ⊆ dsod m c) /\
  (forall u, clean S (assigned m u c)) /\
  (forall u s codes, nul_free u -> mp_activeRoles m !! sessionKey u c s = Some codes ->
    codes ⊆ assigned m u c /\ clean (S ++ D) codes).

(** Users and clients of an activation are named without NUL bytes, and a new
    declaration for the client keeps the sets. *)
Definition admissible (o : rbac_op) : Prop :=
  match o with
  | OActivate u c' _ _ => nul_free u /\ nul_free c'
  | OSetSSoD c' sets => c' = c -> S ⊆ sets
  | OSetDSoD c' sets => c' = c -> D ⊆ sets
  | _ => True
  end.

Lemma separated_ext m m' :
  (forall u, assigned m' u c = assigned m u c) -> S ⊆ ssod m' c -> D ⊆ dsod m' c ->
  (forall k codes, mp_activeRoles m' !! k = Some codes -> mp_activeRoles m !! k = Some codes) ->
  separated m -> separated m'.
Proof.
  intros Ha Hs Hd Hk (_ & H1 & H2). split; [done|]. split; [intros u; by rewrite Ha|].
  intros u s codes Hu. rewrite Ha. eauto.
Qed.

Lemma separated_clear u' c' m : separated m -> separated (clearActiveRoles u' c' m).
Proof.
  intros Hm. pose proof Hm as ([Hs Hd] & _). revert Hm. apply separated_ext; [done..|].
  intros k codes Hk. by apply active_clear in Hk as [Hk _].
Qed.

(** A user's roles are replaced and the sessions that stood on the old ones cleared. *)
Lemma separated_assign u' c' roles m :
  (c' = c -> clean S roles) -> separated m -> separated (clearActiveRoles u' c' (set_assigned u' c' roles m)).
Proof.
  intros Hr (H0 & H1 & H2).
  assert (forall u, assigned (clearActiveRoles u' c' (set_assigned u' c' roles m)) u c =
                    if decide (u = u' /\ c = c') then roles else assigned m u c) as Ha
    by (intros u; apply assigned_set).
  split; [done|]. split.
  - intros u. rewrite Ha. destruct (decide (u = u' /\ c = c')) as [Hd|Hd]; [|apply H1]. apply Hr. by destruct Hd.
  - intros u s codes Hu Hk. apply active_clear in Hk as [Hk Hne].
    rewrite splitSessionKey_sessionKey in Hne by done. rewrite Ha, decide_False by (intros [-> ->]; done).
    by apply (H2 u s).
Qed.

Lemma separated_add u' c' roleCode m : separated m -> separated (AddRoleToUser u' c' roleCode m).2.
Proof.
  intros Hm. assert (separated (touch_user u' m)) as Ht.
  { pose proof Hm as ([Hs Hd] & _). revert Hm. apply separated_ext; [|done..]. intros u. apply assigned_touch. }
  unfold AddRoleToUser. destruct (contains _ _); [done|].
  destruct (findConflict _ _ _) eqn:Hn; [done|]. apply findConflict_clean in Hn.
  apply separated_assign; [|done]. intros ->. destruct Hm as ([Hs _] & _). by eapply clean_fewer.
Qed.

Lemma separated_activate u' c' s' roles m :
  nul_free u' -> nul_free c' -> separated m -> separated (ActivateRoles u' c' s' roles m).2.
Proof.
  intros Hu' Hc' (H0 & H1 & H2). unfold ActivateRoles.
  destruct (list_find _ _) as [[? ?]|] eqn:Hf; [done|].
  destruct (findConflict _ _ _) eqn:Hn; [done|]. apply findConflict_clean in Hn.
  split; [done|]. split; [done|]. intros u s codes Hu Hk. cbn in Hk.
  apply lookup_insert_Some in Hk as [[Hk <-]|[_ Hk]]; [|by apply (H2 u s)].
  apply sessionKey_inj in Hk as [-> ->]; [|done..]. split.
  - intros r Hr. apply list_find_None in Hf. rewrite Forall_forall in Hf. specialize (Hf r Hr).
    by apply not_false_iff_true, contains_spec in Hf.
  - eapply clean_fewer; [|exact Hn]. destruct H0. set_solver.
Qed.

Lemma with_sets_keeps (keep sets : list (list string)) c' table :
  (c' = c -> keep ⊆ sets) -> keep ⊆ default [] (table !! c) ->
  keep ⊆ default [] (with_sets c' sets table !! c).
Proof.
  intros Hk Ht. unfold with_sets. destruct (decide (c' = c)) as [->|Hne].
  - specialize (Hk eq_refl). case_decide; [subst; by rewrite lookup_delete_eq|by rewrite lookup_insert_eq].
  - case_decide; [by rewrite lookup_delete_ne|by rewrite lookup_insert_ne].
Qed.

Lemma separated_sets c' sets m : (c' = c -> S ⊆ sets) -> separated m -> separated (SetConflictSets c' sets m).2.
Proof.
  intros Hk Hm. unfold SetConflictSets. destruct (negb _); [done|]. pose proof Hm as ([Hs Hd] & _).
  revert Hm. apply separated_ext; try done. by apply with_sets_keeps.
Qed.

Lemma separated_activation_sets c' sets m :
  (c' = c -> D ⊆ sets) -> separated m -> separated (SetActivationConflictSets c' sets m).2.
Proof.
  intros Hk Hm. unfold SetActivationConflictSets. destruct (negb _); [done|]. pose proof Hm as ([Hs Hd] & _).
  revert Hm. apply separated_ext; try done. by apply with_sets_keeps.
Qed.

Lemma assigned_remove_role roleCode c' m u :
  assigned (set_assign m (alter (without [roleCode]) c' <$> mp_assignmentsByUser m)) u c =
  (if decide (c = c') then without [roleCode] (assigned m u c) else assigned m u c).
Proof.
  unfold assigned. cbn. rewrite lookup_fmap. destruct (mp_assignmentsByUser m !! u) as [bc|]; cbn.
  - case_decide as Hd; [subst|by rewrite lookup_alter_ne].
    rewrite lookup_alter_eq. by destruct (bc !! c').
  - rewrite lookup_empty. by case_decide.
Qed.

Lemma separated_remove_role c' roleCode m : separated m -> separated (RemoveRole c' roleCode m).2.
Proof.
  intros Hm. unfold RemoveRole. case_decide as Hd; [|done]. destruct Hm as (H0 & H1 & H2). cbn [snd].
  set (m1 := set_roles m _). set (m2 := set_assign m1 _).
  assert (forall u, assigned (clearClientActiveRoles c' m2) u c =
                    if decide (c = c') then without [roleCode] (assigned m u c) else assigned m u c) as Ha
    by (intros u; exact (assigned_remove_role roleCode c' m1 u)).
  split; [done|]. split.
  - intros u. rewrite Ha. case_decide; [|apply H1]. eapply clean_sub; [apply without_sublist|apply H1].
  - intros u s codes Hu Hk. apply active_clear_client in Hk as [Hk Hne].
    rewrite splitSessionKey_sessionKey in Hne by done.
    rewrite Ha, decide_False by (cbn in Hne; congruence). by apply (H2 u s).
Qed.

Lemma separated_step m o : admissible o -> separated m -> separated (rbac_step m o).
Proof.
  intros Ho Hm. pose proof Hm as ([Hs Hd] & H1 & _).
  destruct o as [c' r|c' r|c' r|c' t|u c' rs|u c' rs|u c' r|u c' r|c' sets|c' sets|u c' s rs|u c' s|now r|id]; cbn in Ho |- *.
  - unfold AddRole. case_decide; by apply (separated_ext m).
  - unfold UpdateRole. case_decide; [by apply (separated_ext m)|done].
  - by apply separated_remove_role.
  - by apply (separated_ext m).
  - unfold AssignRoles. destruct (findConflict _ _ _) eqn:Hn; [done|]. apply findConflict_clean in Hn.
    apply separated_assign; [|done]. intros ->. by eapply clean_fewer.
  - unfold UnassignRoles. destruct (assigned m u c') eqn:Ha; [by apply separated_clear|].
    apply separated_assign; [|done]. intros ->. eapply clean_sub; [apply without_sublist|]. by rewrite <- Ha.
  - by apply separated_add.
  - unfold RemoveRoleFromUser. destruct (mp_assignmentsByUser m !! u); [|done].
    destruct (assigned m u c') eqn:Ha; [by apply separated_clear|].
    apply separated_assign; [|done]. intros ->. eapply clean_sub; [apply without_sublist|]. by rewrite <- Ha.
  - by apply separated_sets.
  - by apply separated_activation_sets.
  - destruct Ho. by apply separated_activate.
  - apply (separated_ext m); try done. cbn. intros k codes Hk. by apply lookup_delete_Some in Hk as [_ Hk].
  - unfold RegisterResource. destruct (Validate r); [done|]. destruct (match _ !! _ with Some _ => _ | None => _ end); [done|].
    destruct (mp_resources m !! _); by apply (separated_ext m).
  - unfold DeleteResource. destruct (mp_resources m !! id); [by apply (separated_ext m)|done].
Qed.

Lemma separated_run tr m : separated m -> Forall admissible tr -> separated (rbac_run tr m).
Proof.
  unfold rbac_run. intros Hm Htr. revert m Hm.
  induction Htr as [|o tr Ho _ IH]; intros m Hm; [done|]. cbn. by apply IH, separated_step.
Qed.

End separation.

(** Declaring sets for a client nobody has roles in yet. *)
Lemma separated_declared c S D m :
  (forall u, assigned m u c = []) ->
  (forall u s, nul_free u -> mp_activeRoles m !! sessionKey u c s = None) ->
  S ⊆ ssod m c -> D ⊆ dsod m c -> separated S D c m.
Proof.
  intros Ha Hk Hs Hd. split; [done|]. split; [intros u; rewrite Ha; apply clean_nil|].
  intros u s codes Hu. by rewrite Hk.
Qed.

(** ** What a role grants *)

(** The permissions of a user are those of the definitions behind the codes that count
    for the user, and a permission is granted when one of them grants it. *)
Lemma Permissions_grant userID clientID m perms want :
  Permissions userID clientID m = Ok perms ->
  Matches perms want = true <->
  want = "" \/ exists code role p, code ∈ role_codes userID clientID m /\
    role_defs clientID m !! code = Some role /\ p ∈ ro_Permissions role /\
    grants {| pm_Code := p; pm_Resource := "" |} want = true.
Proof.
  unfold Permissions, Roles. destruct (role_codes userID clientID m) as [|code0 codes] eqn:Hc; [done|].
  rewrite <- Hc. intros [= <-]. rewrite Matches_roles. apply or_iff_compat_l. unfold defined.
  setoid_rewrite list_elem_of_omap. naive_solver.
Qed.

(** Removing a role takes it from everyone and ends every activation of the client. *)
Theorem RemoveRole_revokes clientID roleCode m m' :
  nul_free clientID -> RemoveRole clientID roleCode m = (Ok (), m') ->
  definitions m' clientID !! roleCode = None /\
  (forall u, roleCode ∉ assigned m' u clientID) /\
  (forall u s, nul_free u -> mp_activeRoles m' !! sessionKey u clientID s = None).
Proof.
  intros Hc. unfold RemoveRole. case_decide; [|done]. intros [= <-]. split_and!.
  - unfold definitions. cbn. rewrite lookup_insert_eq. cbn. by rewrite lookup_delete_eq.
  - intros u.
    change (roleCode ∉ assigned (set_assign m (alter (without [roleCode]) clientID <$> mp_assignmentsByUser m)) u clientID).
    rewrite assigned_remove_role, decide_True by done. unfold without. rewrite list_elem_of_filter. set_solver.
  - intros u s Hu. apply eq_None_not_Some. intros [codes Hk]. apply active_clear_client in Hk as [_ Hk].
    by rewrite splitSessionKey_sessionKey in Hk.
Qed.

(** ** The catalog *)

(** The index names exactly the resources of the catalog, by their tuples, and every
    resource passes validation. *)
Definition catalog_ok m : Prop :=
  (forall id r, mp_resources m !! id = Some r ->
    rc_ID r = id /\ mp_resourceIndex m !! resourceTupleKey r = Some id /\ Validate r = None) /\
  (forall t id, mp_resourceIndex m !! t = Some id ->
    exists r, mp_resources m !! id = Some r /\ resourceTupleKey r = t).

Lemma catalog_register now r m : catalog_ok m -> catalog_ok (RegisterResource now r m).2.
Proof.
  intros [H1 H2]. unfold RegisterResource. destruct (Validate r) eqn:Hv; [done|].
  set (tuple := resourceTupleKey r).
  assert (forall id, id <> rc_ID r -> mp_resourceIndex m !! tuple = Some id ->
    (match mp_resourceIndex m !! tuple with
     | Some existingID => negb (bool_decide (existingID = rc_ID r)) | None => false end) = true) as Ht.
  { intros id Hid ->. by rewrite bool_decide_eq_false_2. }
  destruct (match mp_resourceIndex m !! tuple with Some _ => _ | None => _ end) eqn:Htk; [done|].
  assert (forall id, mp_resourceIndex m !! tuple = Some id -> id = rc_ID r) as Hfree
    by (intros id Hid; destruct (decide (id = rc_ID r)); [done|by specialize (Ht id); naive_solver]).
  clear Ht Htk.
  destruct (mp_resources m !! rc_ID r) as [old|] eqn:Hold; cbn [snd].
  - destruct (H1 _ _ Hold) as (_ & Hio & _). split; cbn.
    + intros id r' [[<- <-]|[Hid Hr']]%lookup_insert_Some; [by rewrite lookup_insert_eq|].
      destruct (H1 _ _ Hr') as (E1 & E2 & E3). split_and!; [done| |done].
      rewrite lookup_insert_ne by (intros E; rewrite <- E in E2; naive_solver).
      case_decide; [done|]. rewrite lookup_delete_ne; [done|]. intros E. rewrite E in Hio. congruence.
    + intros t id [[<- <-]|[Hne Hi]]%lookup_insert_Some; [eexists; split; [by rewrite lookup_insert_eq|done]|].
      assert (mp_resourceIndex m !! t = Some id /\ id <> rc_ID r) as [Hi' Hid].
      { case_decide as Hd.
        - split; [done|]. intros ->. apply H2 in Hi as (r2 & Hr2 & <-). rewrite Hold in Hr2. congruence.
        - apply lookup_delete_Some in Hi as [Hne2 Hi]. split; [done|]. intros ->.
          apply H2 in Hi as (r2 & Hr2 & <-). rewrite Hold in Hr2. congruence. }
      apply H2 in Hi' as (r2 & Hr2 & Ht). exists r2. by rewrite lookup_insert_ne.
  - split; cbn.
    + intros id r' [[<- <-]|[Hid Hr']]%lookup_insert_Some; [by rewrite lookup_insert_eq|].
      destruct (H1 _ _ Hr') as (E1 & E2 & E3). split_and!; [done| |done].
      rewrite lookup_insert_ne; [done|]. intros E. rewrite <- E in E2. naive_solver.
    + intros t id [[<- <-]|[Hne Hi]]%lookup_insert_Some; [eexists; split; [by rewrite lookup_insert_eq|done]|].
      apply H2 in Hi as (r2 & Hr2 & Ht). exists r2. rewrite lookup_insert_ne by congruence. done.
Qed.

Lemma catalog_delete id m : catalog_ok m -> catalog_ok (DeleteResource id m).
Proof.
  intros [H1 H2]. unfold DeleteResource. destruct (mp_resources m !! id) as [r|] eqn:Hr; [|done].
  destruct (H1 _ _ Hr) as (_ & Hi & _). split; cbn.
  - intros id' r' [Hne Hr']%lookup_delete_Some. destruct (H1 _ _ Hr') as (E1 & E2 & E3).
    split_and!; [done| |done]. rewrite lookup_delete_ne by congruence. done.
  - intros t id' [Hne Hi']%lookup_delete_Some. apply H2 in Hi' as (r' & Hr' & Ht). exists r'.
    split; [|done]. rewrite lookup_delete_ne; [done|]. intros ->. congruence.
Qed.

Lemma catalog_step m o : catalog_ok m -> catalog_ok (rbac_step m o).
Proof.
  intros Hm. assert (forall m', mp_resources m' = mp_resources m -> mp_resourceIndex m' = mp_resourceIndex m ->
    catalog_ok m') as Hext by (intros m' E1 E2; unfold catalog_ok; by rewrite E1, E2).
  destruct o; cbn; try (by apply Hext); [..|by apply catalog_register|by apply catalog_delete];
    unfold AddRole, UpdateRole, RemoveRole, AssignRoles, UnassignRoles, AddRoleToUser, RemoveRoleFromUser,
      SetConflictSets, SetActivationConflictSets, ActivateRoles;
    repeat (case_match || case_decide); by apply Hext.
Qed.

(** the resource catalog is consistent after any history: an identifier or a
    tuple of tenant, client, type and name finds one resource, and whatever is stored
    passed validation. *)
Theorem resource_catalog_invariant tr : catalog_ok (rbac_run tr NewMemoryProvider).
Proof.
  assert (forall tr m, catalog_ok m -> catalog_ok (rbac_run tr m)) as H.
  { induction tr0 as [|o tr0 IH]; intros m Hm; [done|]. cbn. by apply IH, catalog_step. }
  apply H. split; cbn; [intros id r|intros t id]; by rewrite lookup_empty.
Qed.

(** Whichever order the catalog is visited in, a lookup that one resource at most
    matches is decided by that resource: by its own requirement when there is one, and
    by the permission asked for when there is none. *)
Theorem resource_check_spec m visited lookup perms want :
  ranges_over visited m ->
  (forall id id' r r', mp_resources m !! id = Some r -> mp_resources m !! id' = Some r' ->
    resource_matches lookup r = true -> resource_matches lookup r' = true -> r = r') ->
  exists k, CheckResourceWithContext (Some (ResolveResource visited)) (Some lookup) perms want = Ok k /\
    (rk_Allowed k = true <->
      (exists id r, mp_resources m !! id = Some r /\ resource_matches lookup r = true /\ permits perms r) \/
      ((forall id r, mp_resources m !! id = Some r -> resource_matches lookup r = false) /\
       Matches perms want = true)).
Proof.
  intros Hv Hu.
  assert (forall r, r ∈ visited <-> exists id, mp_resources m !! id = Some r) as Hin.
  { intros r. rewrite Hv, list_elem_of_fmap. setoid_rewrite <- elem_of_map_to_list. split.
    - intros ([id r'] & -> & Hr). by exists id.
    - intros [id Hr]. by exists (id, r). }
  destruct (resolve_in_spec visited lookup) as [[Hn Hno]|(r & Hr & Hm & Hd)].
  - destruct (check_not_found (ResolveResource visited) lookup perms want) as (k & Hk & _ & Ha);
      [unfold ResolveResource; by rewrite Hn|].
    exists k. split; [done|]. rewrite Ha. split.
    + intros Hw. right. split; [|done]. intros id r Hid. apply Hno, Hin. by exists id.
    + intros [(id & r & Hid & Hm & _)|[_ Hw]]; [|done].
      rewrite (Hno r) in Hm; [done|]. apply Hin. by exists id.
  - destruct (check_found (ResolveResource visited) lookup perms want r) as (k & Hk & _ & Ha);
      [unfold ResolveResource; by rewrite Hd|].
    exists k. split; [done|]. rewrite Ha. apply Hin in Hr as [id Hid]. split.
    + intros Hp. left. by exists id, r.
    + intros [(id' & r' & Hid' & Hm' & Hp)|[Hno _]]; [by rewrite (Hu id id' r r')|].
      rewrite (Hno id r Hid) in Hm. done.
Qed.

(** ** Witnesses *)

Definition exclusive : list (list string) := [["approver"; "requester"]].

Definition office : MemoryProvider :=
  rbac_run [OSetSSoD "erp" exclusive; OAddRole "erp" {| ro_Code := "approver"; ro_Name := "";
    ro_Description := ""; ro_Permissions := ["order:*"] |}] NewMemoryProvider.

(** A user who approves is refused the second role; the session of the first stands
    until the assignments change. *)
Definition office_day : list rbac_op :=
  [OAssign "ann" "erp" ["approver"]; OAddToUser "ann" "erp" "requester";
   OActivate "ann" "erp" "s1" ["approver"]].


(** A code asked for twice counts as a conflict with itself. *)
Example duplicate_code_refused :
  is_ok (AssignRoles "ann" "erp" ["approver"; "approver"] office).1 = false /\
  is_ok (AssignRoles "ann" "erp" ["approver"] office).1 = true.
Proof. vm_compute. done. Qed.
