(* ===== verification/PolicyBundle.v ===== *)
(** * PolicyBundle: the exported policy of a client and its canonical bytes
    ([domains/permissions/policy_bundle.go]).

    Integers that count are [Z]; a string is shorter than 2^63 bytes in Go, which the
    theorem about the length prefixes states as [fits]. *)
From S2P Require Import Prelude Crypto Scopes Permissions Resources Rbac.
Local Open Scope Z_scope.

Definition PolicyBundleVersion : Z := 2.

(** ** Data *)

Record RoleBundle := {
  rb_Code : string;
  rb_Name : string;
  rb_Description : string;
  rb_Permissions : list string;
}.

Record ResourceBundle := {
  sb_ID : string;
  sb_TenantID : string;
  sb_ClientID : string;
  sb_Type : ResourceType;
  sb_Name : string;
  sb_RequiresAuth : bool;
  sb_Description : string;
  sb_Attributes : gmap string string;
  sb_RequiredPermissions : list string;
  sb_RequireMode : RequireMode;
}.

Record WildcardSemantics := {
  ws_AllToken : string;
  ws_DomainSuffix : string;
  ws_Separator : string;
  ws_Rules : list string;
}.

Record PolicyBundle := {
  pb_Version : Z;
  pb_GeneratedAt : Z;
  pb_ClientID : string;
  pb_Roles : list RoleBundle;
  pb_Resources : list ResourceBundle;
  pb_SSoDConflictSets : list (list string);
  pb_DSoDConflictSets : list (list string);
  pb_WildcardSemantics : WildcardSemantics;
}.

Definition StaticWildcardSemantics : WildcardSemantics := {|
  ws_AllToken := WildcardAll; ws_DomainSuffix := WildcardSuffix; ws_Separator := ":";
  ws_Rules := ["exact: a granted code equal to the wanted code grants it";
               "domain: a granted '<domain>:*' grants any wanted '<domain>:<action>'";
               "all: a granted '*' grants any wanted code"] |}.

(** ** Building *)

Definition sort_strings (l : list string) : list string := merge_sort str_le l.

Definition role_bundle (r : Role) : RoleBundle := {|
  rb_Code := ro_Code r; rb_Name := ro_Name r; rb_Description := ro_Description r;
  rb_Permissions := sort_strings (ro_Permissions r) |}.

Definition resource_bundle (r : Resource) : ResourceBundle := {|
  sb_ID := rc_ID r; sb_TenantID := rc_TenantID r; sb_ClientID := rc_ClientID r; sb_Type := rc_Type r;
  sb_Name := rc_Name r; sb_RequiresAuth := rc_RequiresAuth r; sb_Description := rc_Description r;
  sb_Attributes := rc_Attributes r; sb_RequiredPermissions := sort_strings (rc_RequiredPermissions r);
  sb_RequireMode := EffectiveRequireMode r |}.

(** [strings.Join(parts, "\x00")]. *)
Fixpoint join_nul (l : list string) : string :=
  match l with
  | [] => EmptyString
  | [s] => s
  | s :: l => s +:+ String NUL (join_nul l)
  end.

Definition resourceBundleKey (r : ResourceBundle) : string :=
  join_nul [sb_TenantID r; sb_ClientID r; sb_Type r; sb_Name r; sb_ID r].

Definition normalizeConflictSets (sets : list (list string)) : list (list string) :=
  merge_sort (key_le join_nul) (sort_strings <$> sets).

(** What [BuildPolicyBundle] asks of a provider; [None] for an extension it lacks. *)
Record Provider := {
  pv_ListAllRoles : string -> result perm_error (list Role);
  pv_ListResources : option (string -> string -> result perm_error (list Resource));
  pv_ListAllResources : option (string -> result perm_error (list Resource));
  pv_ConflictSets : option (string -> result perm_error (list (list string)));
  pv_ActivationConflictSets : option (string -> result perm_error (list (list string)));
}.

Definition buildResourceBundles (p : Provider) (clientID : string) : result perm_error (list ResourceBundle) :=
  let resources :=
    match pv_ListResources p, pv_ListAllResources p with
    | None, _ => Ok []
    | Some _, Some all => all clientID
    | Some list, None => list "" clientID
    end in
  rs ← resources; mret (merge_sort (key_le resourceBundleKey) (resource_bundle <$> rs)).

Definition optional_sets (sets : option (string -> result perm_error (list (list string)))) (clientID : string)
    : result perm_error (list (list string)) :=
  match sets with
  | None => mret []
  | Some sets => s ← sets clientID; mret (normalizeConflictSets s)
  end.

Definition BuildPolicyBundle (now : Z) (p : Provider) (clientID : string) : result perm_error PolicyBundle :=
  roles ← pv_ListAllRoles p clientID;
  resources ← buildResourceBundles p clientID;
  ssod ← optional_sets (pv_ConflictSets p) clientID;
  dsod ← optional_sets (pv_ActivationConflictSets p) clientID;
  mret {| pb_Version := PolicyBundleVersion; pb_GeneratedAt := now; pb_ClientID := clientID;
          pb_Roles := merge_sort (key_le rb_Code) (role_bundle <$> roles); pb_Resources := resources;
          pb_SSoDConflictSets := ssod; pb_DSoDConflictSets := dsod;
          pb_WildcardSemantics := StaticWildcardSemantics |}.

(** ** Canonical bytes *)

Definition digit_char (d : Z) : ascii := Ascii.ascii_of_nat (Z.to_nat (48 + d)).

(** The loop of [itoa]; nothing is written for a negative number. *)
Fixpoint itoa_loop (fuel : nat) (n : Z) (acc : string) : string :=
  match fuel with
  | O => acc
  | S fuel => if 0 <? n then itoa_loop fuel (n / 10) (String (digit_char (n mod 10)) acc) else acc
  end.

Definition itoa (n : Z) : string :=
  if n =? 0 then "0" else itoa_loop (S (Z.to_nat (Z.log2 n))) n "".

Definition boolInt (b : bool) : Z := if b then 1 else 0.

Definition le_bytes8 (n : Z) : list Z := (fun i => Z.land (Z.shiftr n (8 * i)) 255) <$> [0; 1; 2; 3; 4; 5; 6; 7].

(** The fields [canonicalWriter] writes, in order; [buf_of] is its buffer. *)
Definition field_bytes (s : string) : list Z := le_bytes8 (Str.len s) ++ string_bytes s.
Definition buf_of (fields : list string) : list Z := mjoin (field_bytes <$> fields).

Definition count {A} (l : list A) : string := itoa (Z.of_nat (length l)).

Definition write_strings (values : list string) : list string := count values :: values.

Definition write_stringMap (values : gmap string string) : list string :=
  let kvs := merge_sort (key_le fst) (map_to_list values) in
  count kvs :: mjoin ((fun kv => [kv.1; kv.2]) <$> kvs).

Definition write_conflictSets (label : string) (sets : list (list string)) : list string :=
  label :: count sets :: mjoin (write_strings <$> sets).

Definition write_role (r : RoleBundle) : list string :=
  "role" :: rb_Code r :: rb_Name r :: rb_Description r :: write_strings (rb_Permissions r).

Definition write_resource (r : ResourceBundle) : list string :=
  ["resource"; sb_ID r; sb_TenantID r; sb_ClientID r; sb_Type r; sb_Name r; itoa (boolInt (sb_RequiresAuth r));
   sb_Description r; sb_RequireMode r] ++ write_strings (sb_RequiredPermissions r) ++ write_stringMap (sb_Attributes r).

Definition canonical_fields (b : PolicyBundle) : list string :=
  let w := pb_WildcardSemantics b in
  ["v"; itoa (pb_Version b); "client"; pb_ClientID b; "sem"; ws_AllToken w; ws_DomainSuffix w; ws_Separator w] ++
  write_strings (ws_Rules w) ++
  "roles" :: count (pb_Roles b) :: mjoin (write_role <$> pb_Roles b) ++
  "resources" :: count (pb_Resources b) :: mjoin (write_resource <$> pb_Resources b) ++
  write_conflictSets "ssod" (pb_SSoDConflictSets b) ++
  write_conflictSets "dsod" (pb_DSoDConflictSets b).

Definition CanonicalBytes (b : PolicyBundle) : list Z := buf_of (canonical_fields b).

(** ** Decimal numerals *)

Definition digit_value (c : ascii) : Z := Str.byte c - 48.
Fixpoint value (s : string) (v : Z) : Z :=
  match s with EmptyString => v | String c s => value s (10 * v + digit_value c) end.

Lemma digit_value_char d : 0 <= d < 10 -> digit_value (digit_char d) = d.
Proof.
  intros Hd. unfold digit_value, digit_char, Str.byte.
  assert (d = 0 \/ d = 1 \/ d = 2 \/ d = 3 \/ d = 4 \/ d = 5 \/ d = 6 \/ d = 7 \/ d = 8 \/ d = 9) as H by lia.
  by destruct_or! H; subst.
Qed.

Lemma itoa_loop_value fuel n acc : 0 <= n < 2 ^ Z.of_nat fuel -> value (itoa_loop fuel n acc) 0 = value acc n.
Proof.
  revert n acc. induction fuel as [|fuel IH]; intros n acc Hn; cbn [itoa_loop].
  { replace n with 0 by (cbn in Hn; lia). done. }
  destruct (0 <? n) eqn:Hp; bool_simpl; [|by replace n with 0 by lia].
  rewrite IH; [|rewrite Nat2Z.inj_succ, Z.pow_succ_r in Hn by lia; split; [apply Z.div_pos; lia|apply Z.div_lt_upper_bound; lia]].
  cbn [value]. rewrite digit_value_char by (apply Z.mod_pos_bound; lia). f_equal.
  pose proof (Z.div_mod n 10). lia.
Qed.

Lemma itoa_value n : 0 <= n -> value (itoa n) 0 = n.
Proof.
  intros Hn. unfold itoa. destruct (n =? 0) eqn:Hz; bool_simpl; [by subst|].
  rewrite itoa_loop_value; [done|]. split; [done|].
  pose proof (Z.log2_spec n). pose proof (Z.log2_nonneg n). rewrite Nat2Z.inj_succ, Z2Nat.id by done. lia.
Qed.

(** [itoa] tells non-negative integers apart. *)
Lemma itoa_inj n m : 0 <= n -> 0 <= m -> itoa n = itoa m -> n = m.
Proof. intros Hn Hm E. by rewrite <- (itoa_value n), <- (itoa_value m), E. Qed.

Lemma count_inj {A} (l l' : list A) : count l = count l' -> length l = length l'.
Proof. intros E. apply itoa_inj in E; lia. Qed.

(** ** Prefix codes *)

Definition prefix_code {A B} (enc : A -> list B) : Prop :=
  forall a b r s, enc a ++ r = enc b ++ s -> a = b /\ r = s.

Lemma prefix_code_list {A B} (enc : A -> list B) (l l' : list A) r s :
  prefix_code enc -> length l = length l' ->
  mjoin (enc <$> l) ++ r = mjoin (enc <$> l') ++ s -> l = l' /\ r = s.
Proof.
  intros Henc. revert l'. induction l as [|a l IH]; intros [|a' l'] Hl E; cbn in *; try done.
  rewrite <- !(assoc_L (++)) in E. apply Henc in E as [-> E]. destruct (IH l') as [-> ->]; [lia|done|done].
Qed.

(** A list written after its length. *)
Lemma counted {A} (enc : A -> list string) :
  prefix_code enc -> prefix_code (fun l => count l :: mjoin (enc <$> l)).
Proof.
  intros Henc l l' r s E. cbn in E. injection E as Hc E. apply count_inj in Hc.
  by apply (prefix_code_list enc).
Qed.

Lemma prefix_strings : prefix_code write_strings.
Proof.
  intros l l' r s E. unfold write_strings in E. cbn in E. injection E as Hc E.
  apply count_inj in Hc. by apply app_inj_1 in E.
Qed.

Lemma prefix_stringMap : prefix_code write_stringMap.
Proof.
  intros m m' r s E. unfold write_stringMap in E.
  apply (counted (fun kv : string * string => [kv.1; kv.2])) in E as [E ->].
  - split; [|done]. apply map_to_list_inj. rewrite <- (merge_sort_Permutation (key_le fst) (map_to_list m)), E.
    apply merge_sort_Permutation.
  - intros [k v] [k' v'] r0 s0 [= -> -> ->]. done.
Qed.

Lemma prefix_conflictSets label : prefix_code (write_conflictSets label).
Proof.
  intros l l' r s E. apply (f_equal tail) in E. by apply (counted write_strings prefix_strings) in E.
Qed.

Lemma prefix_role : prefix_code write_role.
Proof.
  intros a b r s E. unfold write_role in E. cbn [app] in E. do 4 apply cons_eq in E as [? E].
  apply prefix_strings in E as [? ->]. split; [|done]. destruct a, b. cbn in *. congruence.
Qed.

Lemma boolInt_inj b b' : itoa (boolInt b) = itoa (boolInt b') -> b = b'.
Proof. by destruct b, b'. Qed.

Lemma prefix_resource : prefix_code write_resource.
Proof.
  intros a b r s E. unfold write_resource in E. rewrite <- !(assoc_L (++)) in E. cbn [app] in E.
  do 9 apply cons_eq in E as [? E]. apply prefix_strings in E as [? E]. apply prefix_stringMap in E as [? ->].
  split; [|done]. destruct a, b. cbn in *. f_equal; try done. by apply boolInt_inj.
Qed.

(** ** Bytes *)

(** A string of fewer than 2^63 bytes, as every string in memory is. *)
Definition fits (s : string) : Prop := Str.len s < 2 ^ 63.
#[export] Instance fits_dec s : Decision (fits s).
Proof. unfold fits. apply _. Defined.

Lemma le_bytes8_inj n m : 0 <= n < 2 ^ 64 -> 0 <= m < 2 ^ 64 -> le_bytes8 n = le_bytes8 m -> n = m.
Proof.
  assert (forall n i, 0 <= i -> Z.land (Z.shiftr n (8 * i)) 255 = (n / 2 ^ (8 * i)) mod 256) as H.
  { intros x i Hi. rewrite Z.shiftr_div_pow2 by lia. by change 255 with (Z.ones 8); rewrite Z.land_ones by lia. }
  assert (forall i, 0 <= i -> n / 2 ^ (8 * (i + 1)) = m / 2 ^ (8 * (i + 1)) ->
    (n / 2 ^ (8 * i)) mod 256 = (m / 2 ^ (8 * i)) mod 256 -> n / 2 ^ (8 * i) = m / 2 ^ (8 * i)) as Hstep.
  { intros i Hi. replace (8 * (i + 1)) with (8 * i + 8) by lia. rewrite Z.pow_add_r by lia.
    change (2 ^ 8) with 256. rewrite <- !Z.div_div by lia. intros E1 E2.
    rewrite (Z.div_mod (n / 2 ^ (8 * i)) 256), (Z.div_mod (m / 2 ^ (8 * i)) 256), E1, E2; lia. }
  intros Hn Hm. unfold le_bytes8. cbn [fmap list_fmap]. rewrite !H by lia. intros [= E0 E1 E2 E3 E4 E5 E6 E7].
  apply (Hstep 7) in E7; [|lia|cbn; by rewrite !Z.div_small].
  apply (Hstep 6) in E6; [|lia|done]. apply (Hstep 5) in E5; [|lia|done]. apply (Hstep 4) in E4; [|lia|done].
  apply (Hstep 3) in E3; [|lia|done]. apply (Hstep 2) in E2; [|lia|done]. apply (Hstep 1) in E1; [|lia|done].
  apply (Hstep 0) in E0; [|lia|done]. by rewrite !Z.div_1_r in E0.
Qed.

Lemma field_bytes_prefix s t r u :
  fits s -> fits t -> field_bytes s ++ r = field_bytes t ++ u -> s = t /\ r = u.
Proof.
  intros Hs Ht E. unfold field_bytes in E. rewrite <- !(assoc_L (++)) in E.
  apply app_inj_1 in E as [Hl E]; [|done]. unfold fits, Str.len in *.
  apply le_bytes8_inj, Nat2Z.inj in Hl; [|unfold Str.len; lia..].
  apply app_inj_1 in E as [Hb ->]; [|unfold string_bytes; by rewrite !length_fmap, !Str.length_to_list].
  by apply string_bytes_inj in Hb.
Qed.

Lemma buf_of_inj fs gs : Forall fits fs -> Forall fits gs -> buf_of fs = buf_of gs -> fs = gs.
Proof.
  intros Hf. revert gs. unfold buf_of. induction Hf as [|f fs Hf _ IH]; intros gs Hg E.
  - destruct gs; [done|]. by apply (f_equal length) in E.
  - destruct Hg as [|g gs Hg Hgs]; [by apply (f_equal length) in E|]. cbn in E.
    apply field_bytes_prefix in E as [-> E]; [|done..]. f_equal. by apply IH.
Qed.

(** ** Properties *)

(** A bundle with its time of generation set. *)
Definition generated_at (now : Z) (b : PolicyBundle) : PolicyBundle := {|
  pb_Version := pb_Version b; pb_GeneratedAt := now; pb_ClientID := pb_ClientID b; pb_Roles := pb_Roles b;
  pb_Resources := pb_Resources b; pb_SSoDConflictSets := pb_SSoDConflictSets b;
  pb_DSoDConflictSets := pb_DSoDConflictSets b; pb_WildcardSemantics := pb_WildcardSemantics b |}.

Lemma canonical_fields_inj b b' :
  0 <= pb_Version b -> 0 <= pb_Version b' -> canonical_fields b = canonical_fields b' ->
  generated_at 0 b = generated_at 0 b'.
Proof.
  intros Hv Hv' E. unfold canonical_fields in E. cbn [app] in E.
  do 8 apply cons_eq in E as [? E]. apply prefix_strings in E as [? E]. apply cons_eq in E as [_ E].
  apply (counted write_role prefix_role) in E as [? E]. apply cons_eq in E as [_ E].
  apply (counted write_resource prefix_resource) in E as [? E].
  apply prefix_conflictSets in E as [? E]. rewrite <- (app_nil_r (write_conflictSets "dsod" (pb_DSoDConflictSets b))),
    <- (app_nil_r (write_conflictSets "dsod" (pb_DSoDConflictSets b'))) in E.
  apply prefix_conflictSets in E as [? _]. unfold generated_at.
  destruct (pb_WildcardSemantics b), (pb_WildcardSemantics b'). cbn in *.
  f_equal; try done; [by apply itoa_inj|congruence].
Qed.

(** the canonical bytes stand for the content: two bundles have the same bytes
    exactly when they agree on everything but their time of generation, so no change of
    roles, permissions, resources or conflict sets can keep an entity tag. *)
Theorem CanonicalBytes_content b b' :
  Forall fits (canonical_fields b) -> Forall fits (canonical_fields b') ->
  0 <= pb_Version b -> 0 <= pb_Version b' ->
  CanonicalBytes b = CanonicalBytes b' <-> generated_at 0 b = generated_at 0 b'.
Proof.
  intros Hb Hb' Hv Hv'. split.
  - intros E. apply canonical_fields_inj; [done..|]. by apply buf_of_inj.
  - intros E. change (CanonicalBytes (generated_at 0 b) = CanonicalBytes (generated_at 0 b')). by rewrite E.
Qed.

(** ** A provider's bundle *)

(** Every definition is filed under its own code. *)
Definition roles_keyed (m : MemoryProvider) : Prop :=
  forall c code r, definitions m c !! code = Some r -> ro_Code r = code.

Lemma definitions_insert m c defs c' :
  definitions (set_roles m (<[c := defs]> (mp_rolesByClient m))) c' =
  (if decide (c' = c) then defs else definitions m c').
Proof.
  unfold definitions. cbn. case_decide; [subst; by rewrite lookup_insert_eq|by rewrite lookup_insert_ne by congruence].
Qed.

Lemma roles_keyed_set m c defs :
  roles_keyed m -> (forall code r, defs !! code = Some r -> ro_Code r = code) ->
  roles_keyed (set_roles m (<[c := defs]> (mp_rolesByClient m))).
Proof. intros Hm Hd c' code r. rewrite definitions_insert. case_decide; [apply Hd|apply Hm]. Qed.

Lemma roles_keyed_insert m c r : roles_keyed m ->
  forall code r', <[ro_Code r := r]> (definitions m c) !! code = Some r' -> ro_Code r' = code.
Proof. intros Hm code r' [[<- <-]|[_ Hr]]%lookup_insert_Some; [done|by apply (Hm c)]. Qed.

Lemma roles_keyed_step m o : roles_keyed m -> roles_keyed (rbac_step m o).
Proof.
  intros Hm. assert (forall m', mp_rolesByClient m' = mp_rolesByClient m -> roles_keyed m') as Hext
    by (intros m' E c code r; unfold definitions; rewrite E; apply Hm).
  destruct o; cbn; try (by apply Hext).
  - assert (roles_keyed (set_roles m (<[clientID := definitions m clientID]> (mp_rolesByClient m)))) as Hm'
      by (apply roles_keyed_set; [done|intros ? ?; apply Hm]).
    unfold AddRole. case_decide; cbn [snd]; [done|]. apply roles_keyed_set; [done|]. by apply roles_keyed_insert.
  - unfold UpdateRole. case_decide; [|done]. cbn [snd]. apply roles_keyed_set; [done|]. by apply roles_keyed_insert.
  - unfold RemoveRole. case_decide; [|done]. cbn [snd]. intros c code r.
    change (definitions (set_roles m (<[clientID := delete roleCode (definitions m clientID)]> (mp_rolesByClient m))) c !! code = Some r
            -> ro_Code r = code).
    apply roles_keyed_set; [done|]. intros code' r' [_ Hr]%lookup_delete_Some. by apply (Hm clientID).
  - unfold AssignRoles. case_match; by apply Hext.
  - unfold UnassignRoles. case_match; by apply Hext.
  - unfold AddRoleToUser. repeat case_match; by apply Hext.
  - unfold RemoveRoleFromUser. repeat case_match; by apply Hext.
  - unfold SetConflictSets. case_match; by apply Hext.
  - unfold SetActivationConflictSets. case_match; by apply Hext.
  - unfold ActivateRoles. repeat case_match; by apply Hext.
  - unfold RegisterResource. repeat case_match; by apply Hext.
  - unfold DeleteResource. case_match; by apply Hext.
Qed.

Lemma roles_keyed_run tr : roles_keyed (rbac_run tr NewMemoryProvider).
Proof.
  assert (forall tr m, roles_keyed m -> roles_keyed (rbac_run tr m)) as H.
  { induction tr0 as [|o tr0 IH]; intros m Hm; [done|]. cbn. by apply IH, roles_keyed_step. }
  apply H. intros c code r. unfold definitions. cbn. by rewrite !lookup_empty.
Qed.

(** The in-memory provider, ranging over a client's roles in the order [listed]. *)
Definition memory_provider (listed : string -> list Role) (m : MemoryProvider) : Provider := {|
  pv_ListAllRoles := fun c => Ok (listed c);
  pv_ListResources := Some (fun t c => Ok (ListResources t c m));
  pv_ListAllResources := Some (fun c => Ok (ListAllResources c m));
  pv_ConflictSets := Some (fun c => Ok (ConflictSets c m));
  pv_ActivationConflictSets := Some (fun c => Ok (ActivationConflictSets c m)) |}.

(** rendering the policy of a client again gives the same canonical bytes,
    whenever it is done and in whatever order the runtime ranges over the roles, after
    any history of the provider. *)
Theorem policy_bundle_stable tr listed listed' now now' clientID b b' :
  let m := rbac_run tr NewMemoryProvider in
  listed clientID ≡ₚ ListAllRoles clientID m -> listed' clientID ≡ₚ ListAllRoles clientID m ->
  BuildPolicyBundle now (memory_provider listed m) clientID = Ok b ->
  BuildPolicyBundle now' (memory_provider listed' m) clientID = Ok b' ->
  CanonicalBytes b = CanonicalBytes b'.
Proof.
  intros m Hl Hl'. unfold BuildPolicyBundle, buildResourceBundles, optional_sets. cbn. intros [= <-] [= <-].
  unfold CanonicalBytes, canonical_fields. cbn [pb_Roles pb_Version pb_ClientID pb_WildcardSemantics pb_Resources
    pb_SSoDConflictSets pb_DSoDConflictSets].
  rewrite (merge_sort_by rb_Code (role_bundle <$> listed clientID) (role_bundle <$> listed' clientID)); [done| |].
  - assert (forall a, a ∈ role_bundle <$> listed clientID ->
      exists r, a = role_bundle r /\ definitions m clientID !! ro_Code r = Some r) as H.
    { intros a (r & -> & Hr)%list_elem_of_fmap. exists r. split; [done|]. rewrite Hl in Hr.
      apply list_elem_of_fmap in Hr as ([code r'] & -> & Hr). apply elem_of_map_to_list in Hr. cbn.
      by rewrite (roles_keyed_run tr clientID code r'). }
    intros a a' (r & -> & Hr)%H (r' & -> & Hr')%H E. cbn in E. rewrite E in Hr. congruence.
  - by rewrite Hl, Hl'.
Qed.

(** ** Witnesses *)

Definition clerk : Role := {| ro_Code := "clerk"; ro_Name := "Clerk"; ro_Description := ""; ro_Permissions := ["order:read"; "item:*"] |}.
Definition boss : Role := {| ro_Code := "boss"; ro_Name := "Boss"; ro_Description := ""; ro_Permissions := ["*"] |}.
Definition shop : list rbac_op := [OAddRole "erp" clerk; OAddRole "erp" boss; OSetSSoD "erp" [["clerk"; "boss"]]].

Definition shop_bundle (now : Z) (roles : list Role) : result perm_error PolicyBundle :=
  BuildPolicyBundle now (memory_provider (fun _ => roles) (rbac_run shop NewMemoryProvider)) "erp".

Definition bundle_of (r : result perm_error PolicyBundle) : PolicyBundle :=
  match r with
  | Ok b => b
  | Err _ => {| pb_Version := 0; pb_GeneratedAt := 0; pb_ClientID := ""; pb_Roles := []; pb_Resources := [];
                pb_SSoDConflictSets := []; pb_DSoDConflictSets := []; pb_WildcardSemantics := StaticWildcardSemantics |}
  end.

Lemma policy_bundle_stable_witness :
  CanonicalBytes (bundle_of (shop_bundle 5 [boss; clerk])) = CanonicalBytes (bundle_of (shop_bundle 9 [clerk; boss])).
Proof.
  apply (policy_bundle_stable shop (fun _ => [boss; clerk]) (fun _ => [clerk; boss]) 5 9 "erp").
  - vm_compute. first [reflexivity|apply perm_swap].
  - vm_compute. first [reflexivity|apply perm_swap].
  - reflexivity.
  - reflexivity.
Defined.

Lemma CanonicalBytes_content_witness :
  CanonicalBytes (bundle_of (shop_bundle 5 [boss; clerk])) <> CanonicalBytes (bundle_of (shop_bundle 5 [boss])).
Proof.
  intros E. apply (CanonicalBytes_content (bundle_of (shop_bundle 5 [boss; clerk])) (bundle_of (shop_bundle 5 [boss]))) in E.
  - apply (f_equal (fun b => length (pb_Roles b))) in E. vm_compute in E. discriminate.
  - apply (bool_decide_eq_true_1 _). vm_compute. reflexivity.
  - apply (bool_decide_eq_true_1 _). vm_compute. reflexivity.
  - discriminate.
  - discriminate.
Defined.
