(* ===== verification/Governance.v ===== *)
(** * Governance: two-person changes, write quotas and allow-lists of the admin API
    (platform/lifecycle/admingovernance: approval.go, approval_memory.go, quota.go,
    quota_memory.go, destructive.go, geolock.go; the change endpoints of
    interfaces/admin/governance.go).

    An operation of a store runs under its mutex and is one step; concurrent approvals
    are interleavings of those steps with the calls of the appliers. *)
From S2P Require Import Prelude Crypto Core Scopes Lifecycle.
Local Open Scope Z_scope.

(** ** Change requests *)

Definition ChangeStatus : Type := string.
Definition ChangeStatusPending : ChangeStatus := "pending".
Definition ChangeStatusApproved : ChangeStatus := "approved".
Definition ChangeStatusApplied : ChangeStatus := "applied".
Definition ChangeStatusRejected : ChangeStatus := "rejected".
Definition ChangeStatusFailed : ChangeStatus := "failed".

Record ChangeRequest := {
  cg_ID : string;
  cg_ActionType : string;
  cg_Payload : string;
  cg_Reason : string;
  cg_ProposedBy : string;
  cg_ApprovedBy : string;
  cg_Status : ChangeStatus;
  cg_FailureNote : string;
  cg_CreatedAt : Z;
  cg_DecidedAt : Z;
}.

Definition zeroChange : ChangeRequest := {|
  cg_ID := ""; cg_ActionType := ""; cg_Payload := ""; cg_Reason := ""; cg_ProposedBy := ""; cg_ApprovedBy := "";
  cg_Status := ""; cg_FailureNote := ""; cg_CreatedAt := 0; cg_DecidedAt := 0 |}.

Inductive change_error := ErrChangeNotFound | ErrChangeSelfApproval | ErrChangeNotPending.

Definition with_status (c : ChangeRequest) (status : ChangeStatus) (note : string) : ChangeRequest := {|
  cg_ID := cg_ID c; cg_ActionType := cg_ActionType c; cg_Payload := cg_Payload c; cg_Reason := cg_Reason c;
  cg_ProposedBy := cg_ProposedBy c; cg_ApprovedBy := cg_ApprovedBy c; cg_Status := status; cg_FailureNote := note;
  cg_CreatedAt := cg_CreatedAt c; cg_DecidedAt := cg_DecidedAt c |}.

(** A decision on a pending record. *)
Definition decided (c : ChangeRequest) (status : ChangeStatus) (approverID : string) (now : Z) : ChangeRequest := {|
  cg_ID := cg_ID c; cg_ActionType := cg_ActionType c; cg_Payload := cg_Payload c; cg_Reason := cg_Reason c;
  cg_ProposedBy := cg_ProposedBy c; cg_ApprovedBy := approverID; cg_Status := status; cg_FailureNote := cg_FailureNote c;
  cg_CreatedAt := cg_CreatedAt c; cg_DecidedAt := now |}.

Definition proposed (c : ChangeRequest) (now : Z) : ChangeRequest := {|
  cg_ID := cg_ID c; cg_ActionType := cg_ActionType c; cg_Payload := cg_Payload c; cg_Reason := cg_Reason c;
  cg_ProposedBy := cg_ProposedBy c; cg_ApprovedBy := cg_ApprovedBy c; cg_Status := ChangeStatusPending;
  cg_FailureNote := cg_FailureNote c; cg_CreatedAt := if GoTime.IsZero (cg_CreatedAt c) then now else cg_CreatedAt c;
  cg_DecidedAt := cg_DecidedAt c |}.

Notation MemoryApprovalStore := (gmap string ChangeRequest).
Implicit Types (s : MemoryApprovalStore).

Definition Propose (now : Z) (c : ChangeRequest) s : ChangeRequest * MemoryApprovalStore :=
  let c := proposed c now in (c, <[cg_ID c := c]> s).

Definition GetChange (id : string) s : result change_error ChangeRequest :=
  match s !! id with Some c => Ok c | None => Err ErrChangeNotFound end.

(** [List] sorts by descending creation time the order a map was ranged over in. *)
Definition newer (c c' : ChangeRequest) : Prop := cg_CreatedAt c' <= cg_CreatedAt c.
#[export] Instance newer_dec : RelDecision newer.
Proof. unfold RelDecision, newer. intros. apply _. Defined.
Definition ListChanges (visited : list ChangeRequest) : list ChangeRequest := merge_sort newer visited.

Definition Approve (now : Z) (id approverID : string) s : result change_error ChangeRequest * MemoryApprovalStore :=
  match s !! id with
  | None => (Err ErrChangeNotFound, s)
  | Some c =>
      if negb (bool_decide (cg_Status c = ChangeStatusPending)) then (Err ErrChangeNotPending, s)
      else if bool_decide (approverID = "") || bool_decide (approverID = cg_ProposedBy c) then (Err ErrChangeSelfApproval, s)
      else let c := decided c ChangeStatusApproved approverID now in (Ok c, <[id := c]> s)
  end.

Definition Reject (now : Z) (id approverID : string) s : result change_error ChangeRequest * MemoryApprovalStore :=
  match s !! id with
  | None => (Err ErrChangeNotFound, s)
  | Some c =>
      if negb (bool_decide (cg_Status c = ChangeStatusPending)) then (Err ErrChangeNotPending, s)
      else let c := decided c ChangeStatusRejected approverID now in (Ok c, <[id := c]> s)
  end.

(** [MarkApplied] and [MarkFailed] return no error. *)
Definition mark (status : ChangeStatus) (note : ChangeRequest -> string) (id : string) s
  : ChangeRequest * MemoryApprovalStore :=
  match s !! id with
  | None => (zeroChange, s)
  | Some c =>
      if negb (bool_decide (cg_Status c = ChangeStatusApproved)) then (c, s)
      else let c := with_status c status (note c) in (c, <[id := c]> s)
  end.

Definition MarkApplied (id : string) s : ChangeRequest * MemoryApprovalStore :=
  mark ChangeStatusApplied cg_FailureNote id s.
Definition MarkFailed (id note : string) s : ChangeRequest * MemoryApprovalStore :=
  mark ChangeStatusFailed (fun _ => note) id s.

(** ** Appliers *)

Section appliers.
Context {W : Type}.

(** An applier acts on the world [W] and may fail with a message. *)
Definition Applier : Type := string -> W -> option string * W.
Definition Registry : Type := gmap string Applier.

(** Both receivers may be nil. *)
Definition Register (actionType : string) (fn : option Applier) (r : option Registry) : option Registry :=
  match r, fn with
  | Some r, Some fn => Some (<[actionType := fn]> r)
  | _, _ => r
  end.

Definition Lookup (actionType : string) (r : option Registry) : option Applier :=
  match r with Some r => r !! actionType | None => None end.

Definition ApproveAndApply (reg : option Registry) (now : Z) (id approverID : string) (x : MemoryApprovalStore * W)
  : result change_error ChangeRequest * (MemoryApprovalStore * W) :=
  let '(s, w) := x in
  match Approve now id approverID s with
  | (Err e, s) => (Err e, (s, w))
  | (Ok c, s) =>
      match Lookup (cg_ActionType c) reg with
      | None => (Ok c, (s, w))
      | Some fn =>
          match fn (cg_Payload c) w with
          | (Some applyErr, w) => let '(failed, s) := MarkFailed id applyErr s in (Ok failed, (s, w))
          | (None, w) => let '(applied, s) := MarkApplied id s in (Ok applied, (s, w))
          end
      end
  end.
End appliers.
Arguments Applier : clear implicits.
Arguments Registry : clear implicits.

Definition NewRequiredActionTypes (actionTypes : list string) : gset string := list_to_set actionTypes.

Definition Allows (actionType : string) (t : gset string) : bool :=
  bool_decide (t = ∅) || bool_decide (actionType ∈ t).

(** ** The change endpoints *)

Definition ErrChangeReasonRequired : string := "change_reason_required".
Definition ErrChangeActionTypeRequired : string := "change_action_type_required".
Definition ErrChangeActionTypeNotAllowed : string := "change_action_type_not_allowed".
Definition ErrChangeSelfApprovalCode : string := "change_self_approval".
Definition ErrChangeNotPendingCode : string := "change_not_pending".

Inductive change_answer :=
| CError (status : Z) (error : string)
| CBody (status : Z) (c : ChangeRequest).

Definition EventAdminChangeProposed : string := "admin_change_proposed".
Definition EventAdminChangeApproved : string := "admin_change_approved".
Definition EventAdminChangeApplied : string := "admin_change_applied".
Definition EventAdminChangeApplyFailed : string := "admin_change_apply_failed".
Definition EventAdminChangeRejected : string := "admin_change_rejected".

(** What [recordChangeEvent] writes to the audit log; [ApprovedBy] only when set. *)
Record ChangeEvent := {
  ce_Type : string;
  ce_ActorID : string;
  ce_change_id : string;
  ce_action_type : string;
  ce_proposed_by : string;
  ce_approved_by : option string;
}.

Definition recordChangeEvent (evtType : string) (c : ChangeRequest) : ChangeEvent := {|
  ce_Type := evtType; ce_ActorID := cg_ProposedBy c; ce_change_id := cg_ID c; ce_action_type := cg_ActionType c;
  ce_proposed_by := cg_ProposedBy c;
  ce_approved_by := if decide (cg_ApprovedBy c = "") then None else Some (cg_ApprovedBy c) |}.

Record proposeChangeRequest := { pc_ActionType : string; pc_Payload : string; pc_Reason : string }.

(** Sixteen random bytes. *)
Definition changeID (b : list Z) : string :=
  "chg_" +:+ hex_string b.

(** [None] for a request [BindParams] refuses. *)
Definition HandleAdminProposeChange (allowed : gset string) (now : Z) (random : list Z) (actor : string)
    (req : option proposeChangeRequest) s : change_answer * list ChangeEvent * MemoryApprovalStore :=
  match req with
  | None => (CError 400 ErrInvalidRequest, [], s)
  | Some req =>
      let actionType := Str.TrimSpace (pc_ActionType req) in
      let reason := Str.TrimSpace (pc_Reason req) in
      if decide (actionType = "") then (CError 400 ErrChangeActionTypeRequired, [], s)
      else if decide (reason = "") then (CError 400 ErrChangeReasonRequired, [], s)
      else if negb (Allows actionType allowed) then (CError 400 ErrChangeActionTypeNotAllowed, [], s)
      else
        let '(c, s) := Propose now {|
          cg_ID := changeID random; cg_ActionType := actionType; cg_Payload := pc_Payload req; cg_Reason := reason;
          cg_ProposedBy := actor; cg_ApprovedBy := ""; cg_Status := ChangeStatusPending; cg_FailureNote := "";
          cg_CreatedAt := now; cg_DecidedAt := 0 |} s in
        (CBody 201 c, [recordChangeEvent EventAdminChangeProposed c], s)
  end.

Definition writeChangeDecisionError (e : change_error) : change_answer :=
  match e with
  | ErrChangeNotFound => CError 404 ErrNotFound
  | ErrChangeSelfApproval => CError 400 ErrChangeSelfApprovalCode
  | ErrChangeNotPending => CError 409 ErrChangeNotPendingCode
  end.

Definition HandleAdminGetChange (id : string) s : change_answer :=
  if decide (id = "") then CError 400 ErrInvalidRequest
  else match GetChange id s with
  | Ok c => CBody 200 c
  | Err _ => CError 404 ErrNotFound
  end.

Definition HandleAdminApproveChange {W} (reg : option (Registry W)) (now : Z) (id approver : string)
    (x : MemoryApprovalStore * W) : change_answer * list ChangeEvent * (MemoryApprovalStore * W) :=
  if decide (id = "") then (CError 400 ErrInvalidRequest, [], x)
  else match ApproveAndApply reg now id approver x with
  | (Err e, x) => (writeChangeDecisionError e, [], x)
  | (Ok c, x) =>
      let evtType := if decide (cg_Status c = ChangeStatusFailed) then EventAdminChangeApplyFailed
                     else if decide (cg_Status c = ChangeStatusApplied) then EventAdminChangeApplied
                     else EventAdminChangeApproved in
      (CBody 200 c, [recordChangeEvent evtType c], x)
  end.

Definition HandleAdminRejectChange (now : Z) (id approver : string) s
  : change_answer * list ChangeEvent * MemoryApprovalStore :=
  if decide (id = "") then (CError 400 ErrInvalidRequest, [], s)
  else match Reject now id approver s with
  | (Err e, s) => (writeChangeDecisionError e, [], s)
  | (Ok c, s) => (CBody 200 c, [recordChangeEvent EventAdminChangeRejected c], s)
  end.

(** ** Write quotas *)

Record QuotaResult := { qr_Allowed : bool; qr_Remaining : Z; qr_ResetAt : Z }.

Definition QuotaKey (keyBy actorID tenantHint : string) : string :=
  if bool_decide (keyBy = "tenant") && negb (bool_decide (tenantHint = "")) then "tenant:" +:+ tenantHint
  else "admin:" +:+ actorID.

Record quotaCounter := { qc_windowStart : Z; qc_count : Z }.
Notation MemoryWriteQuotaStore := (gmap string quotaCounter).

(** [Time.Truncate], from the zero time. *)
Definition Truncate (t d : Z) : Z := t - t mod d.

Definition Consume (key : string) (limit window now : Z) (q : MemoryWriteQuotaStore) : QuotaResult * MemoryWriteQuotaStore :=
  if (limit <=? 0) || (window <=? 0) then ({| qr_Allowed := true; qr_Remaining := 0; qr_ResetAt := 0 |}, q)
  else
    let windowStart := Truncate now window in
    let resetAt := GoTime.Add windowStart window in
    let c := default {| qc_windowStart := 0; qc_count := 0 |} (q !! key) in
    let c := if qc_windowStart c =? windowStart then c else {| qc_windowStart := windowStart; qc_count := 0 |} in
    if limit <=? qc_count c then ({| qr_Allowed := false; qr_Remaining := 0; qr_ResetAt := resetAt |}, <[key := c]> q)
    else
      let c := {| qc_windowStart := qc_windowStart c; qc_count := qc_count c + 1 |} in
      ({| qr_Allowed := true; qr_Remaining := limit - qc_count c; qr_ResetAt := resetAt |}, <[key := c]> q).

(** ** Destructive actions *)

Record DestructiveRule := { dr_Method : string; dr_PathPrefix : string; dr_Action : string }.
Definition DestructiveSet : Type := list DestructiveRule.

Fixpoint Match (rules : DestructiveSet) (method path : string) : option string :=
  match rules with
  | [] => None
  | r :: rules =>
      if bool_decide (dr_Method r = method) && negb (bool_decide (dr_PathPrefix r = "")) && HasPrefix path (dr_PathPrefix r)
      then Some (dr_Action r) else Match rules method path
  end.

(** ** Allowed networks

    An address is its 4 or 16 bytes ([net.IP]), a network an address and a mask. *)

Definition IP : Type := list Z.
Record IPNet := { in_IP : IP; in_Mask : list Z }.

Definition v4InV6Prefix : list Z := replicate 10 0 ++ [255; 255].

Definition To4 (ip : IP) : option IP :=
  if Nat.eqb (length ip) 4 then Some ip
  else if Nat.eqb (length ip) 16 && bool_decide (take 12 ip = v4InV6Prefix) then Some (drop 12 ip)
  else None.

Definition networkNumberAndMask (n : IPNet) : option (IP * list Z) :=
  let ip := match To4 (in_IP n) with
            | Some ip => Some ip
            | None => if Nat.eqb (length (in_IP n)) 16 then Some (in_IP n) else None
            end in
  match ip with
  | None => None
  | Some ip =>
      let m := in_Mask n in
      if Nat.eqb (length m) 4 then if Nat.eqb (length ip) 4 then Some (ip, m) else None
      else if Nat.eqb (length m) 16 then Some (ip, if Nat.eqb (length ip) 4 then drop 12 m else m)
      else None
  end.

Definition IPNet_Contains (n : IPNet) (ip : IP) : bool :=
  let ip := default ip (To4 ip) in
  let '(nn, m) := default ([], []) (networkNumberAndMask n) in
  Nat.eqb (length ip) (length nn) &&
  forallb (fun '(a, (b, k)) => Z.land a k =? Z.land b k) (zip nn (zip ip m)).

Record IPAllowlistConfig := { al_Nets : list IPNet; al_Countries : gset string }.

(** [strings.ToUpper] on the ASCII of a country code. *)
Definition ToUpper (s : string) : string :=
  Str.of_list ((fun c => let b := Str.byte c in if (97 <=? b) && (b <=? 122) then Ascii.ascii_of_N (Z.to_N (b - 32)) else c)
               <$> Str.to_list s).

(** The first invalid CIDR is the error; [parseCIDR] is [net.ParseCIDR]. *)
Fixpoint parse_nets (parseCIDR : string -> option IPNet) (cidrs : list string) : result string (list IPNet) :=
  match cidrs with
  | [] => Ok []
  | c :: cidrs =>
      let c := Str.TrimSpace c in
      if decide (c = "") then parse_nets parseCIDR cidrs
      else match parseCIDR c with
      | None => Err c
      | Some n => match parse_nets parseCIDR cidrs with Ok ns => Ok (n :: ns) | Err e => Err e end
      end
  end.

Definition ParseIPAllowlistConfig (parseCIDR : string -> option IPNet) (cidrs countries : list string)
  : result string IPAllowlistConfig :=
  match parse_nets parseCIDR cidrs with
  | Err e => Err e
  | Ok nets =>
      Ok {| al_Nets := nets;
            al_Countries := list_to_set (filter (fun cc => cc <> "") ((fun c => ToUpper (Str.TrimSpace c)) <$> countries)) |}
  end.

(** [country] is the country code of the geo lookup, when there was one. *)
Definition Allowed (ip : option IP) (country : option string) (cfg : IPAllowlistConfig) : bool :=
  if negb (bool_decide (al_Nets cfg = [])) &&
     negb (match ip with None => false | Some ip => existsb (fun n => IPNet_Contains n ip) (al_Nets cfg) end) then false
  else if negb (bool_decide (al_Countries cfg = ∅)) &&
     negb (match country with None => false | Some code => bool_decide (ToUpper code ∈ al_Countries cfg) end) then false
  else true.

(** ** Concurrent approvals

    A request that has approved a change goes on to call its applier and then to record
    the outcome; other requests run between those steps. *)

Inductive stage := Invoking | Marking (outcome : option string) | Finished.

Inductive gov_op :=
| GPropose (c : ChangeRequest) (now : Z)
| GApprove (id who : string) (now : Z)
| GReject (id who : string) (now : Z)
| GInvoke (i : nat)
| GMark (i : nat).

Section approvals.
Context {W : Type} (reg : option (Registry W)).

(** [gv_log] lists the changes whose applier was called. *)
Record gov := {
  gv_store : MemoryApprovalStore;
  gv_world : W;
  gv_threads : list (ChangeRequest * stage);
  gv_log : list ChangeRequest;
}.

Definition start (w : W) : gov := {| gv_store := ∅; gv_world := w; gv_threads := []; gv_log := [] |}.

Definition set_store (g : gov) s : gov :=
  {| gv_store := s; gv_world := gv_world g; gv_threads := gv_threads g; gv_log := gv_log g |}.

Definition gov_step (g : gov) (o : gov_op) : gov :=
  match o with
  | GPropose c now => set_store g (Propose now c (gv_store g)).2
  | GReject id who now => set_store g (Reject now id who (gv_store g)).2
  | GApprove id who now =>
      match Approve now id who (gv_store g) with
      | (Err _, s) => set_store g s
      | (Ok c, s) =>
          match Lookup (cg_ActionType c) reg with
          | None => set_store g s
          | Some _ => {| gv_store := s; gv_world := gv_world g; gv_threads := gv_threads g ++ [(c, Invoking)]; gv_log := gv_log g |}
          end
      end
  | GInvoke i =>
      match gv_threads g !! i with
      | Some (c, Invoking) =>
          match Lookup (cg_ActionType c) reg with
          | None => g
          | Some fn =>
              let '(outcome, w) := fn (cg_Payload c) (gv_world g) in
              {| gv_store := gv_store g; gv_world := w; gv_threads := <[i := (c, Marking outcome)]> (gv_threads g);
                 gv_log := gv_log g ++ [c] |}
          end
      | _ => g
      end
  | GMark i =>
      match gv_threads g !! i with
      | Some (c, Marking outcome) =>
          {| gv_store := match outcome with
                         | Some note => (MarkFailed (cg_ID c) note (gv_store g)).2
                         | None => (MarkApplied (cg_ID c) (gv_store g)).2
                         end;
             gv_world := gv_world g; gv_threads := <[i := (c, Finished)]> (gv_threads g); gv_log := gv_log g |}
      | _ => g
      end
  end.

Definition gov_run (tr : list gov_op) (g : gov) : gov := foldl gov_step g tr.

(** A request served without interference is three consecutive steps. *)
Lemma ApproveAndApply_steps now id who g :
  map_Forall (fun k c => cg_ID c = k) (gv_store g) ->
  let n := length (gv_threads g) in
  let g' := gov_run [GApprove id who now; GInvoke n; GMark n] g in
  (gv_store g', gv_world g') = (ApproveAndApply reg now id who (gv_store g, gv_world g)).2.
Proof.
  intros Hk. cbn [gov_run foldl gov_step ApproveAndApply].
  assert (gv_threads g !! length (gv_threads g) = None) as Hn by by apply lookup_ge_None.
  destruct (Approve _ _ _ _) as [[c|e] s] eqn:Ha.
  - destruct (Lookup _ _) as [fn|] eqn:Hl; cbn [gv_threads gv_store gv_world set_store]; [|by rewrite Hn; cbn; rewrite Hn].
    rewrite list_lookup_middle by done. rewrite Hl. destruct (fn _ _) as [out w] eqn:Hf. cbn [gv_threads gv_store gv_world].
    rewrite list_lookup_insert_eq by (rewrite length_app; cbn; lia). cbn [gv_store gv_world].
    assert (cg_ID c = id) as ->.
    { revert Ha. unfold Approve. destruct (gv_store g !! id) as [c0|] eqn:H0; [|done].
      repeat case_match; intros [= <- _]. exact (Hk _ _ H0). }
    destruct out; by repeat case_match.
  - cbn [set_store gv_threads]. rewrite Hn. cbn. by rewrite Hn.
Qed.

(** *** The two-person rule *)

Definition proposals (tr : list gov_op) : list string :=
  omap (fun o => match o with GPropose c _ => Some (cg_ID c) | _ => None end) tr.

Definition same_change (c0 c : ChangeRequest) : Prop :=
  cg_ID c = cg_ID c0 /\ cg_ActionType c = cg_ActionType c0 /\ cg_Payload c = cg_Payload c0 /\
  cg_Reason c = cg_Reason c0 /\ cg_ProposedBy c = cg_ProposedBy c0.

Definition proposed_in (tr : list gov_op) (c : ChangeRequest) : Prop :=
  exists c0 now, GPropose c0 now ∈ tr /\ same_change c0 c.

Definition seconded (tr : list gov_op) (c : ChangeRequest) : Prop :=
  cg_ApprovedBy c <> "" /\ cg_ApprovedBy c <> cg_ProposedBy c /\
  exists now, GApprove (cg_ID c) (cg_ApprovedBy c) now ∈ tr.

Definition past_approval (status : ChangeStatus) : Prop :=
  status ∈ [ChangeStatusApproved; ChangeStatusApplied; ChangeStatusFailed].

(** What the threads know of the store. *)
Definition backed (g : gov) (c : ChangeRequest) : Prop :=
  exists c', gv_store g !! cg_ID c = Some c' /\ same_change c c' /\ cg_ApprovedBy c' = cg_ApprovedBy c /\
    past_approval (cg_Status c').

(** A step of the store keeps what was approved. *)
Definition evolves s s' : Prop :=
  forall id c, s !! id = Some c -> past_approval (cg_Status c) ->
    exists c', s' !! id = Some c' /\ same_change c c' /\ cg_ApprovedBy c' = cg_ApprovedBy c /\ past_approval (cg_Status c').

Lemma same_change_refl c : same_change c c.
Proof. by split_and!. Qed.

Lemma same_change_trans c1 c2 c3 : same_change c1 c2 -> same_change c2 c3 -> same_change c1 c3.
Proof. intros (?&?&?&?&?) (?&?&?&?&?). split_and!; congruence. Qed.

Lemma evolves_refl s : evolves s s.
Proof. intros id c H Hp. exists c. split_and!; [done|apply same_change_refl|done..]. Qed.

Lemma evolves_insert s id c :
  (forall c0, s !! id = Some c0 -> past_approval (cg_Status c0) ->
    same_change c0 c /\ cg_ApprovedBy c = cg_ApprovedBy c0 /\ past_approval (cg_Status c)) ->
  evolves s (<[id := c]> s).
Proof.
  intros Hc k c0 Hk Hp. destruct (decide (k = id)) as [->|Hn].
  - exists c. rewrite lookup_insert_eq. destruct (Hc _ Hk Hp) as (?&?&?). done.
  - rewrite lookup_insert_ne by done. by apply evolves_refl.
Qed.

Lemma pending_not_past : ~ past_approval ChangeStatusPending.
Proof. by apply (bool_decide_eq_false_1 (past_approval ChangeStatusPending)). Qed.

Lemma rejected_not_past : ~ past_approval ChangeStatusRejected.
Proof. by apply (bool_decide_eq_false_1 (past_approval ChangeStatusRejected)). Qed.

Lemma evolves_propose now c s : s !! cg_ID c = None -> evolves s (Propose now c s).2.
Proof. intros Hn. apply evolves_insert. cbn [proposed cg_ID]. congruence. Qed.

Lemma evolves_reject now id who s : evolves s (Reject now id who s).2.
Proof.
  unfold Reject. destruct (s !! id) as [c|] eqn:Hc; [|apply evolves_refl].
  destruct (negb _) eqn:Hp; [apply evolves_refl|]. bool_simpl. apply evolves_insert.
  intros c0 H0 Hpast. simplify_eq. rewrite Hp in Hpast. by destruct pending_not_past.
Qed.

Lemma evolves_mark status note id s : past_approval status -> evolves s (mark status note id s).2.
Proof.
  intros Hst. unfold mark. destruct (s !! id) as [c|] eqn:Hc; [|apply evolves_refl].
  destruct (negb _) eqn:Hp; [apply evolves_refl|]. bool_simpl. apply evolves_insert.
  intros c0 H0 _. simplify_eq. split_and!; [by split_and!|done..].
Qed.

Lemma Approve_spec now id who s :
  match Approve now id who s with
  | (Err _, s') => s' = s
  | (Ok c, s') => exists c0, s !! id = Some c0 /\ cg_Status c0 = ChangeStatusPending /\ who <> "" /\
      who <> cg_ProposedBy c0 /\ c = decided c0 ChangeStatusApproved who now /\ s' = <[id := c]> s
  end.
Proof.
  unfold Approve. destruct (s !! id) as [c|] eqn:Hc; [|done].
  destruct (negb _) eqn:Hp; [done|]. destruct (_ || _) eqn:Hw; [done|]. bool_simpl. by exists c.
Qed.

Lemma evolves_approve now id who s : evolves s (Approve now id who s).2.
Proof.
  pose proof (Approve_spec now id who s) as Ha. destruct (Approve now id who s) as [[c|e] s']; cbn.
  - destruct Ha as (c0 & H0 & Hp & _ & _ & _ & ->). apply evolves_insert.
    intros c1 H1 Hpast. simplify_eq. rewrite Hp in Hpast. by destruct pending_not_past.
  - subst. apply evolves_refl.
Qed.

(** *** Preservation *)

Definition accounted (tr : list gov_op) s : Prop :=
  forall id c, s !! id = Some c -> cg_ID c = id /\ proposed_in tr c /\ (past_approval (cg_Status c) -> seconded tr c).

Lemma seconded_same tr c c' : same_change c c' -> cg_ApprovedBy c' = cg_ApprovedBy c -> seconded tr c -> seconded tr c'.
Proof.
  intros (H1&_&_&_&H2) H (?&?&now&?). unfold seconded. rewrite H1, H2, H. eauto.
Qed.

Lemma proposed_same tr c c' : same_change c c' -> proposed_in tr c -> proposed_in tr c'.
Proof. intros Hs (c0 & now & Hin & H0). exists c0, now. split; [done|]. by eapply same_change_trans. Qed.

Lemma proposed_in_mono tr o c : proposed_in tr c -> proposed_in (tr ++ [o]) c.
Proof. intros (c0 & now & H & Hs). exists c0, now. split; [set_solver|done]. Qed.

Lemma seconded_mono tr o c : seconded tr c -> seconded (tr ++ [o]) c.
Proof. intros (H1 & H2 & now & H). split_and!; [done..|]. exists now. set_solver. Qed.

Lemma accounted_mono tr o s : accounted tr s -> accounted (tr ++ [o]) s.
Proof.
  intros H id c Hc. destruct (H _ _ Hc) as (?&?&?).
  split_and!; [done|by apply proposed_in_mono|intros; by apply seconded_mono, H2].
Qed.

(** An update of one record that keeps its content. *)
Lemma accounted_update tr s id c c0 :
  accounted tr s -> s !! id = Some c0 -> same_change c0 c ->
  (past_approval (cg_Status c) -> seconded tr c) -> accounted tr (<[id := c]> s).
Proof.
  intros H H0 Hs Hp k c' [[<- <-]|[Hn Hk]]%lookup_insert_Some; [|by apply H].
  destruct (H _ _ H0) as (Hid & Hprop & _). split_and!; [destruct Hs; congruence|by eapply proposed_same|done].
Qed.

Lemma accounted_mark tr status note id s : accounted tr s -> accounted tr (mark status note id s).2.
Proof.
  intros H. unfold mark. destruct (s !! id) as [c|] eqn:Hc; [|done].
  destruct (negb _) eqn:Hp; [done|]. bool_simpl. eapply accounted_update; [done|done|by split_and!|].
  intros _. destruct (H _ _ Hc) as (_ & _ & Hsec). apply (seconded_same tr c); [by split_and!|done|].
  apply Hsec. rewrite Hp. by left.
Qed.

Definition fresh_proposal s (o : gov_op) : Prop :=
  match o with GPropose c _ => s !! cg_ID c = None | _ => True end.

Lemma accounted_step tr g o :
  fresh_proposal (gv_store g) o -> accounted tr (gv_store g) -> accounted (tr ++ [o]) (gv_store (gov_step g o)).
Proof.
  intros Hf H. pose proof (accounted_mono tr o _ H) as H'. destruct o as [c now|id who now|id who now|i|i]; cbn [gov_step].
  - cbn [set_store gv_store Propose snd]. intros id c' [[<- <-]|[_ Hk]]%lookup_insert_Some; [|by apply H'].
    cbn [proposed cg_ID cg_Status]. split_and!; [done| |by intros []%pending_not_past].
    exists c, now. split; [set_solver|by split_and!].
  - pose proof (Approve_spec now id who (gv_store g)) as Ha.
    destruct (Approve now id who (gv_store g)) as [[c|e] s']; [|by subst s'].
    destruct Ha as (c0 & H0 & _ & Hw & Hn & -> & ->).
    assert (accounted (tr ++ [GApprove id who now]) (<[id := decided c0 ChangeStatusApproved who now]> (gv_store g))) as Hs.
    { eapply accounted_update; [done|done|by split_and!|]. intros _. cbn. split_and!; [done..|].
      destruct (H _ _ H0) as (Hid & _). exists now. cbn. rewrite Hid. set_solver. }
    by destruct (Lookup _ _).
  - unfold Reject. destruct (gv_store g !! id) as [c|] eqn:Hc; [|done].
    destruct (negb _) eqn:Hp; [done|]. cbn. eapply accounted_update; [done|done|by split_and!|].
    cbn. by intros []%rejected_not_past.
  - by repeat case_match.
  - destruct (gv_threads g !! i) as [[c []]|]; [done| |done..]. destruct outcome; by apply accounted_mark.
Qed.

Lemma evolves_step g o : fresh_proposal (gv_store g) o -> evolves (gv_store g) (gv_store (gov_step g o)).
Proof.
  intros Hf. destruct o as [c now|id who now|id who now|i|i]; cbn [gov_step].
  - by apply evolves_propose.
  - pose proof (evolves_approve now id who (gv_store g)) as H.
    destruct (Approve _ _ _ _) as [[c|e] s']; [by destruct (Lookup _ _)|done].
  - apply evolves_reject.
  - repeat case_match; apply evolves_refl.
  - destruct (gv_threads g !! i) as [[c []]|]; try apply evolves_refl.
    destruct outcome; apply evolves_mark; apply (bool_decide_eq_true_1 (past_approval _)); reflexivity.
Qed.

Lemma backed_step g g' c : evolves (gv_store g) (gv_store g') -> backed g c -> backed g' c.
Proof.
  intros He (c1 & H1 & Hs & Ha & Hp). destruct (He _ _ H1 Hp) as (c2 & H2 & Hs' & Ha' & Hp').
  exists c2. split_and!; [done|by eapply same_change_trans|congruence|done].
Qed.

(** The threads and the calls they made. *)
Definition orderly (g : gov) : Prop :=
  (forall c st, (c, st) ∈ gv_threads g -> backed g c) /\
  NoDup (cg_ID ∘ fst <$> gv_threads g) /\
  NoDup (cg_ID <$> gv_log g) /\
  (forall c, c ∈ gv_log g -> exists st, (c, st) ∈ gv_threads g /\ st <> Invoking).

(** A thread that moves on. *)
Lemma thread_moves (l : list (ChangeRequest * stage)) i c st st' :
  l !! i = Some (c, st) ->
  (cg_ID ∘ fst <$> <[i := (c, st')]> l) = (cg_ID ∘ fst <$> l) /\
  (forall x, x ∈ <[i := (c, st')]> l -> x = (c, st') \/ x ∈ l) /\
  (c, st') ∈ <[i := (c, st')]> l /\
  (forall x, x ∈ l -> x = (c, st) \/ x ∈ <[i := (c, st')]> l).
Proof.
  intros Hi. assert (i < length l)%nat as Hlt by (by eapply lookup_lt_Some). split_and!.
  - rewrite list_fmap_insert. apply list_insert_id. by rewrite list_lookup_fmap, Hi.
  - intros x (j & Hj)%list_elem_of_lookup. rewrite list_lookup_insert in Hj. case_decide as Hd; simplify_eq; [by left|].
    right. by eapply list_elem_of_lookup_2.
  - eapply list_elem_of_lookup_2. by apply list_lookup_insert_eq.
  - intros x (j & Hj)%list_elem_of_lookup. destruct (decide (i = j)) as [->|Hn]; [left; congruence|].
    right. eapply list_elem_of_lookup_2. by rewrite list_lookup_insert_ne.
Qed.

(** The only thread of a change. *)
Lemma one_thread (l : list (ChangeRequest * stage)) x y :
  NoDup (cg_ID ∘ fst <$> l) -> x ∈ l -> y ∈ l -> cg_ID x.1 = cg_ID y.1 -> x = y.
Proof.
  intros Hnd (i & Hi)%list_elem_of_lookup (j & Hj)%list_elem_of_lookup He.
  assert (i = j) as ->; [|congruence].
  eapply (NoDup_lookup (cg_ID ∘ fst <$> l) i j (cg_ID x.1)); [done|..]; rewrite list_lookup_fmap;
    [by rewrite Hi|by rewrite Hj, He].
Qed.

Lemma orderly_approve tr g id who now :
  accounted tr (gv_store g) -> orderly g -> orderly (gov_step g (GApprove id who now)).
Proof.
  intros Hacc (Hb & Hnd & Hlog & Hin).
  assert (forall c, backed g c -> backed (gov_step g (GApprove id who now)) c) as Hstep
    by (intros c; apply backed_step, evolves_step; exact I).
  cbn [gov_step] in *. pose proof (Approve_spec now id who (gv_store g)) as Ha.
  destruct (Approve now id who (gv_store g)) as [[c|e] s']; [|split_and!; cbn; eauto].
  destruct (Lookup _ _) as [fn|]; [|split_and!; cbn; eauto].
  destruct Ha as (c0 & H0 & Hp & _ & _ & -> & ->). destruct (Hacc _ _ H0) as (Hid & _).
  split_and!; cbn [gv_threads gv_log gv_store] in *.
  - intros c st [H|[= -> _]%list_elem_of_singleton]%elem_of_app; [by eapply Hstep, Hb|].
    exists (decided c0 ChangeStatusApproved who now). cbn. rewrite Hid, lookup_insert_eq.
    split_and!; [done|by split_and!|done|by left].
  - rewrite fmap_app. apply list.NoDup_app. split_and!; [done| |apply NoDup_singleton].
    intros x ([c st] & -> & Hx)%list_elem_of_fmap Hs%list_elem_of_singleton. cbn in Hs.
    destruct (Hb _ _ Hx) as (c1 & H1 & _ & _ & Hpast). rewrite Hs, Hid in H1. simplify_eq.
    rewrite Hp in Hpast. by apply pending_not_past.
  - done.
  - intros c Hc. destruct (Hin _ Hc) as (st & ? & ?). exists st. set_solver.
Qed.

Lemma orderly_step tr g o :
  fresh_proposal (gv_store g) o -> accounted tr (gv_store g) -> orderly g -> orderly (gov_step g o).
Proof.
  intros Hf Hacc Ho. destruct o as [c now|id who now|id who now|i|i]; [|by eapply orderly_approve|..];
  destruct Ho as (Hb & Hnd & Hlog & Hin);
  pose proof (evolves_step g _ Hf) as He;
  [split_and!; cbn; [intros c' st Hc; by eapply backed_step, Hb|done..]..| |]; cbn [gov_step] in *.
  - destruct (gv_threads g !! i) as [[c []]|] eqn:Hi; [|by split_and!..].
    destruct (Lookup _ _) as [fn|]; [|by split_and!]. destruct (fn _ _) as [out w].
    destruct (thread_moves _ _ _ _ (Marking out) Hi) as (Hids & Hback & Hnew & Hkeep).
    pose proof (list_elem_of_lookup_2 _ _ _ Hi) as Hc. split_and!; cbn [gv_threads gv_log].
    + intros c' st [[= -> _]|H]%Hback; eapply Hb; eauto.
    + by rewrite Hids.
    + rewrite fmap_app. apply list.NoDup_app. split_and!; [done| |apply NoDup_singleton].
      intros x (c' & -> & Hx)%list_elem_of_fmap Hs%list_elem_of_singleton.
      destruct (Hin _ Hx) as (st & Hst & Hne). by pose proof (one_thread _ _ _ Hnd Hst Hc Hs) as [= _ ->].
    + intros c' [H| ->%list_elem_of_singleton]%elem_of_app; [|by exists (Marking out)].
      destruct (Hin _ H) as (st & [[= _ ->]|Hst]%Hkeep & Hne); [done|by exists st].
  - destruct (gv_threads g !! i) as [[c [|out|]]|] eqn:Hi; [by split_and!| |by split_and!..].
    destruct (thread_moves _ _ _ _ Finished Hi) as (Hids & Hback & Hnew & Hkeep).
    pose proof (list_elem_of_lookup_2 _ _ _ Hi) as Hc. split_and!; cbn [gv_threads gv_log].
    + intros c' st Hc'. eapply (backed_step g); [done|]. apply Hback in Hc' as [[= -> _]|H]; eapply Hb; eauto.
    + by rewrite Hids.
    + done.
    + intros c' Hc'. destruct (Hin _ Hc') as (st & [[= -> ->]|Hst]%Hkeep & Hne); [by exists Finished|by exists st].
Qed.

Lemma accounted_fresh tr g o :
  accounted tr (gv_store g) -> NoDup (proposals (tr ++ [o])) -> fresh_proposal (gv_store g) o.
Proof.
  intros Hacc Hnd. destruct o as [c now| | | |]; try exact I. cbn. destruct (gv_store g !! cg_ID c) as [c1|] eqn:H1; [|done].
  destruct (Hacc _ _ H1) as (Hid & (c0 & now0 & Hin & Hs & _) & _). unfold proposals in Hnd. rewrite omap_app in Hnd.
  apply list.NoDup_app in Hnd as (_ & Hd & _). destruct (Hd (cg_ID c)); [|cbn; set_solver].
  apply list_elem_of_omap. exists (GPropose c0 now0). split; [done|]. cbn. congruence.
Qed.

Lemma gov_invariant w tr :
  NoDup (proposals tr) -> accounted tr (gv_store (gov_run tr (start w))) /\ orderly (gov_run tr (start w)).
Proof.
  induction tr as [|o tr IH] using rev_ind; intros Hnd.
  - split; [by intros id c|]. split_and!; [|constructor..|]; by intros * ?%elem_of_nil.
  - unfold gov_run in *. rewrite foldl_app. cbn. destruct IH as [Hacc Hord].
    { unfold proposals in *. rewrite omap_app in Hnd. by apply list.NoDup_app in Hnd as (? & _). }
    pose proof (accounted_fresh _ _ _ Hacc Hnd). split; [by apply accounted_step|by eapply orderly_step].
Qed.

(** C19 — the two-person rule, whatever requests run concurrently: if change ids are not
    reused, an applier is called at most once per change, only with the action and the
    payload somebody proposed, and only after an approval by a named administrator other
    than the proposer; a change whose applier was called stays approved, applied or
    failed, so a rejected change never runs. *)
Theorem two_person_rule w tr :
  NoDup (proposals tr) ->
  let g := gov_run tr (start w) in
  NoDup (cg_ID <$> gv_log g) /\
  forall c, c ∈ gv_log g ->
    proposed_in tr c /\ seconded tr c /\
    exists c', gv_store g !! cg_ID c = Some c' /\ same_change c c' /\ past_approval (cg_Status c').
Proof.
  intros Hnd g. destruct (gov_invariant w tr Hnd) as (Hacc & Hb & _ & Hlog & Hin). fold g in Hacc, Hb, Hlog, Hin.
  split; [done|]. intros c Hc. destruct (Hin _ Hc) as (st & Hst & _). destruct (Hb _ _ Hst) as (c' & H' & Hs & Ha & Hp).
  destruct (Hacc _ _ H') as (_ & Hprop & Hsec).
  assert (same_change c' c) as Hs' by (destruct Hs as (?&?&?&?&?); by split_and!).
  split_and!; [by eapply proposed_same|by eapply (seconded_same tr c' c); eauto|by exists c'].
Qed.
End approvals.

(** ** What a quota lets through *)

Section quota.
Context (limit window : Z).

Definition quota_run (calls : list (string * Z)) : MemoryWriteQuotaStore :=
  foldl (fun q '(key, now) => (Consume key limit window now q).2) ∅ calls.

Definition counter (q : MemoryWriteQuotaStore) (key : string) : quotaCounter :=
  default {| qc_windowStart := 0; qc_count := 0 |} (q !! key).

(** The calls of a key in the window that starts at [ws]. *)
Definition hits (key : string) (ws : Z) (calls : list (string * Z)) : Z :=
  Z.of_nat (length (filter (fun kt => kt.1 = key /\ Truncate kt.2 window = ws) calls)).

Definition tallied (calls : list (string * Z)) (q : MemoryWriteQuotaStore) : Prop :=
  forall key,
    (forall t, (key, t) ∈ calls -> Truncate t window <= qc_windowStart (counter q key)) /\
    ((forall t, (key, t) ∉ calls) \/ exists t, (key, t) ∈ calls /\ Truncate t window = qc_windowStart (counter q key)) /\
    qc_count (counter q key) = Z.min limit (hits key (qc_windowStart (counter q key)) calls).

Context (Hlimit : 0 < limit) (Hwindow : 0 < window).

Lemma Truncate_mono t t' : t <= t' -> Truncate t window <= Truncate t' window.
Proof.
  intros H. unfold Truncate. pose proof (Z.div_le_mono t t' window Hwindow H).
  rewrite !Z.mod_eq by lia. nia.
Qed.

Lemma hits_none key ws calls : (forall t, (key, t) ∈ calls -> Truncate t window <> ws) -> hits key ws calls = 0.
Proof.
  intros Hn. unfold hits.
  destruct (filter _ calls) as [|[k t] l] eqn:E; [done|]. assert ((k, t) ∈ (k, t) :: l) as Hin by left.
  rewrite <- E in Hin. apply list_elem_of_filter in Hin as [[Hk Ht] Hin]. cbn in *. subst. by destruct (Hn t).
Qed.

Lemma hits_snoc key ws calls k t :
  hits key ws (calls ++ [(k, t)]) = hits key ws calls + (if decide (k = key /\ Truncate t window = ws) then 1 else 0).
Proof.
  unfold hits. rewrite filter_app, length_app, Nat2Z.inj_add. f_equal. rewrite filter_cons, filter_nil. cbn.
  by case_decide.
Qed.

(** What a call finds: the earlier calls of its key in its window, up to the limit. *)
Definition current (key : string) (now : Z) (q : MemoryWriteQuotaStore) : Z :=
  let c := counter q key in if qc_windowStart c =? Truncate now window then qc_count c else 0.

Lemma current_tallied calls q key now :
  tallied calls q -> (forall t, (key, t) ∈ calls -> t <= now) ->
  current key now q = Z.min limit (hits key (Truncate now window) calls).
Proof.
  intros Ht Hle. destruct (Ht key) as (Hmax & Hlast & Hcount). unfold current.
  destruct (_ =? _) eqn:E; [by apply Z.eqb_eq in E as <-|]. apply Z.eqb_neq in E.
  rewrite hits_none; [lia|]. intros t Hin He. destruct Hlast as [Hno|(t' & Hin' & Ht')]; [by destruct (Hno t)|].
  specialize (Hmax t Hin). pose proof (Truncate_mono _ _ (Hle _ Hin')). lia.
Qed.

Lemma Consume_spec key now q :
  let n := current key now q in
  Consume key limit window now q =
    (if n <? limit
     then {| qr_Allowed := true; qr_Remaining := limit - (n + 1); qr_ResetAt := Truncate now window + window |}
     else {| qr_Allowed := false; qr_Remaining := 0; qr_ResetAt := Truncate now window + window |},
     <[key := {| qc_windowStart := Truncate now window; qc_count := if n <? limit then n + 1 else n |}]> q).
Proof.
  unfold Consume, current, GoTime.Add. rewrite (proj2 (Z.leb_gt _ _) Hlimit), (proj2 (Z.leb_gt _ _) Hwindow). cbn [orb].
  fold (counter q key). destruct (counter q key) as [ws n]. cbn [qc_windowStart qc_count].
  destruct (ws =? _) eqn:E; [apply Z.eqb_eq in E as ->|]; cbn [qc_count qc_windowStart]; rewrite Z.leb_antisym;
    by destruct (_ <? limit).
Qed.

Lemma tallied_run calls : StronglySorted Z.le calls.*2 -> tallied calls (quota_run calls).
Proof.
  induction calls as [|[k t] calls IH] using rev_ind; intros Hs.
  - intros key. split_and!; [intros t []%not_elem_of_nil|left; intros t; apply not_elem_of_nil|].
    change (0 = Z.min limit 0). lia.
  - rewrite fmap_app in Hs. specialize (IH (StronglySorted_app_1_l _ _ _ Hs)).
    assert (forall key t', (key, t') ∈ calls -> t' <= t) as Hle.
    { intros key t' Hin. eapply StronglySorted_app_1_elem_of; [exact Hs| |by left].
      apply list_elem_of_fmap. by exists (key, t'). }
    unfold quota_run. rewrite foldl_app. cbn [foldl]. fold (quota_run calls). rewrite Consume_spec. cbn [snd].
    rewrite (current_tallied calls) by eauto. intros key. unfold counter.
    destruct (decide (k = key)) as [->|Hn].
    + rewrite lookup_insert_eq. cbn [default from_option id qc_windowStart qc_count]. split_and!.
      * intros t' [H|[= ->]%list_elem_of_singleton]%elem_of_app; [|done]. apply Truncate_mono. eauto.
      * right. exists t. split; [set_solver|done].
      * rewrite hits_snoc, decide_True by done.
        destruct (_ <? _) eqn:E; [apply Z.ltb_lt in E|apply Z.ltb_ge in E]; lia.
    + rewrite lookup_insert_ne by done. fold (counter (quota_run calls) key). destruct (IH key) as (H1 & H2 & H3). split_and!.
      * intros t' [H|[= -> ->]%list_elem_of_singleton]%elem_of_app; [by apply H1|done].
      * destruct H2 as [H2|(t' & H2 & H2')]; [left; intros t'|right; exists t'; set_solver].
        intros [H|[= -> ->]%list_elem_of_singleton]%elem_of_app; [by apply (H2 t')|done].
      * rewrite hits_snoc, decide_False by naive_solver. lia.
Qed.

(** the write quota is exact: in any sequence of calls at non-decreasing times a
    call is allowed when, and only when, fewer than the limit of the earlier calls of
    its key fall in its window; the remainder is what is left after it, and the reset
    time is the end of the window, which lies in the future and at most one window away.
    Other keys and earlier windows take nothing from it. *)
Theorem write_quota_exact calls key now :
  StronglySorted Z.le (calls.*2 ++ [now]) ->
  let n := hits key (Truncate now window) calls in
  let r := (Consume key limit window now (quota_run calls)).1 in
  qr_Allowed r = (n <? limit) /\ qr_Remaining r = Z.max 0 (limit - n - 1) /\
  now < qr_ResetAt r <= now + window.
Proof.
  intros Hs n r. subst r. rewrite Consume_spec. cbn [fst].
  rewrite (current_tallied calls); [|by eapply tallied_run, StronglySorted_app_1_l|].
  - fold n. assert (0 <= n) by (unfold n, hits; lia).
    assert (now < Truncate now window + window <= now + window).
    { unfold Truncate. pose proof (Z.mod_pos_bound now window Hwindow). lia. }
    destruct (Z.min limit n <? limit) eqn:E; [apply Z.ltb_lt in E|apply Z.ltb_ge in E];
      cbn [qr_Allowed qr_Remaining qr_ResetAt]; split_and!; lia.
  - intros t Hin. eapply StronglySorted_app_1_elem_of; [exact Hs| |by left]. apply list_elem_of_fmap. by exists (key, t).
Qed.
End quota.

(** ** Witnesses *)

Definition rotate_keys : ChangeRequest := {|
  cg_ID := "chg_1"; cg_ActionType := "rotate"; cg_Payload := "{}"; cg_Reason := "T-1"; cg_ProposedBy := "ann";
  cg_ApprovedBy := ""; cg_Status := ""; cg_FailureNote := ""; cg_CreatedAt := 0; cg_DecidedAt := 0 |}.

(** An applier that counts its calls. *)
Definition counting : option (Registry nat) := Some {["rotate" := fun _ n => (None, S n)]}.

(** Two administrators approve the change at the same time. *)
Definition race : list gov_op :=
  [GPropose rotate_keys 5; GApprove "chg_1" "ann" 6; GApprove "chg_1" "bob" 7; GApprove "chg_1" "cy" 8;
   GInvoke 0; GInvoke 1; GMark 0; GMark 1; GReject "chg_1" "dee" 9].

Lemma two_person_rule_witness :
  gv_world (gov_run counting race (start 0%nat)) = 1%nat /\
  exists c, gv_log (gov_run counting race (start 0%nat)) = [c] /\ seconded race c.
Proof.
  destruct (two_person_rule counting 0%nat race) as (_ & Hall).
  - apply (bool_decide_eq_true_1 (NoDup (proposals race))). vm_compute. reflexivity.
  - split; [vm_compute; reflexivity|].
    exists (decided (proposed rotate_keys 5) ChangeStatusApproved "bob" 7).
    assert (gv_log (gov_run counting race (start 0%nat)) =
            [decided (proposed rotate_keys 5) ChangeStatusApproved "bob" 7]) as Hlog by (vm_compute; reflexivity).
    split; [exact Hlog|]. eapply Hall. rewrite Hlog. left.
Defined.

Lemma write_quota_exact_witness :
  qr_Allowed (Consume "admin:ann" 2 60 130 (quota_run 2 60 [("admin:ann", 121); ("admin:bob", 122); ("admin:ann", 125)])).1 = false.
Proof.
  destruct (write_quota_exact 2 60 eq_refl eq_refl [("admin:ann", 121); ("admin:bob", 122); ("admin:ann", 125)] "admin:ann" 130)
    as (-> & _).
  - repeat constructor; cbn; lia.
  - vm_compute. reflexivity.
Defined.
