(* ===== verification/Authz.v ===== *)
(** * Authz: the authorization service and the gate of the admin API
    ([interfaces/grpcserver/authz.go]; [interfaces/admin/middleware.go] and
    the transport checks of [governance.go]; the session hooks of
    [interfaces/sso/server_resource.go]).

    [Check] is proved against an interface, [AuthzProvider], with the extensions a
    backend may lack; the in-memory provider of [Rbac] is an instance.  Metrics and
    audit calls are left out: a decision is the answer. *)
From S2P Require Import Prelude Float64 Core Scopes Permissions Resources Rbac Governance ExchangeDeps.
Local Open Scope Z_scope.

(** ** The provider a check runs against *)

Inductive authz_error := UserNotFound | OtherError.

Record AuthzProvider := {
  az_Permissions : string -> string -> result authz_error (list Permission);
  az_ActiveRoles : option (string -> string -> string -> result authz_error (list Role));
  az_ResolveResource : option (ResourceLookup -> result authz_error ResourceDecision);
}.

Definition memory_authz (visited : list Resource) (m : MemoryProvider) : AuthzProvider := {|
  az_Permissions := fun u c => match Permissions u c m with Ok ps => Ok ps | Err _ => Err UserNotFound end;
  az_ActiveRoles := Some (fun u c s => Ok (ActiveRoles u c s m));
  az_ResolveResource := Some (fun l => match ResolveResource visited l with Ok d => Ok d | Err _ => Err OtherError end) |}.

(** ** The service *)

Inductive session_error := ErrSessionNotFound | ErrSessionOther.

(** [Get] returns a session and an error, either of which may be nil. *)
Record AuthzSessionBoundary := {
  bd_SessionManager : option (string -> option Session * option session_error);
  bd_ResolveSubject : option (string -> result () string);
}.

Record CheckRequest := {
  ck_SubjectId : string;
  ck_ClientId : string;
  ck_SessionId : string;
  ck_TenantId : string;
  ck_Permission : string;
  ck_ResourceType : string;
  ck_Attributes : gmap string string;
}.

Record permissionResolution := {
  pr_permissions : list Permission;
  pr_subjectID : string;
  pr_invalidSession : bool;
  pr_emptyActive : bool;
}.

Inductive grpc_status := FailedPrecondition | InvalidArgument | Internal.

Section check.
Context (provider : AuthzProvider) (boundary : AuthzSessionBoundary) (now : Z).
Implicit Types (q : CheckRequest).

Definition resolveSessionSubject q : result authz_error string :=
  if decide (ck_SessionId q = "") then Ok (ck_SubjectId q)
  else match bd_ResolveSubject boundary with
  | None => Ok (ck_SubjectId q)
  | Some resolve =>
      match resolve (ck_SubjectId q) with
      | Err _ => Err OtherError
      | Ok subject => if decide (subject = "") then Err OtherError else Ok subject
      end
  end.

Definition sessionIsLive q (subject : string) : result authz_error bool :=
  match bd_SessionManager boundary with
  | None => Ok true
  | Some get =>
      match get (ck_SessionId q) with
      | (_, Some ErrSessionNotFound) | (None, _) => Ok false
      | (_, Some ErrSessionOther) => Err OtherError
      | (Some sess, None) =>
          if se_Revoked sess || Session_IsExpired now sess || bool_decide (se_UserID sess = "")
             || negb (bool_decide (se_UserID sess = subject)) then Ok false
          else if negb (bool_decide (se_ClientID sess = "")) && negb (bool_decide (se_ClientID sess = ck_ClientId q))
          then Ok false
          else Ok true
      end
  end.

(** The resolution and the error, which [Check] reads together. *)
Definition resolvePermissions q : permissionResolution * option authz_error :=
  let none subject := {| pr_permissions := []; pr_subjectID := subject; pr_invalidSession := false; pr_emptyActive := false |} in
  match resolveSessionSubject q with
  | Err e => (none "", Some e)
  | Ok subject =>
      let assigned :=
        match az_Permissions provider subject (ck_ClientId q) with
        | Ok perms => ({| pr_permissions := perms; pr_subjectID := subject; pr_invalidSession := false; pr_emptyActive := false |}, None)
        | Err e => (none subject, Some e)
        end in
      if decide (ck_SessionId q = "") then assigned
      else match sessionIsLive q subject with
      | Err e => (none subject, Some e)
      | Ok false => ({| pr_permissions := []; pr_subjectID := subject; pr_invalidSession := true; pr_emptyActive := false |}, None)
      | Ok true =>
          match az_ActiveRoles provider with
          | None => assigned
          | Some active =>
              match active subject (ck_ClientId q) (ck_SessionId q) with
              | Err e => (none subject, Some e)
              | Ok roles => ({| pr_permissions := PermissionsFromRoles roles; pr_subjectID := subject;
                                pr_invalidSession := false; pr_emptyActive := bool_decide (roles = []) |}, None)
              end
          end
      end
  end.

Definition lookup_of q : ResourceLookup := {|
  rl_TenantID := ck_TenantId q; rl_ClientID := ck_ClientId q; rl_Type := ck_ResourceType q; rl_Match := ck_Attributes q |}.

Definition checkResource q (perms : list Permission) : result grpc_status ResourceCheckResult :=
  match az_ResolveResource provider with
  | None => Err FailedPrecondition
  | Some resolve =>
      match CheckResourceWithContext (Some resolve) (Some (lookup_of q)) perms (ck_Permission q) with
      | Ok r => Ok r
      | Err _ => Err Internal
      end
  end.

Definition Check q : result grpc_status bool :=
  if bool_decide (ck_SubjectId q = "") || bool_decide (ck_Permission q = "") then Err InvalidArgument
  else
    let '(resolution, err) := resolvePermissions q in
    match err with
    | Some OtherError => Err Internal
    | _ =>
        if pr_invalidSession resolution then Ok false
        else if negb (bool_decide (ck_ResourceType q = "")) then
          match checkResource q (pr_permissions resolution) with
          | Err e => Err e
          | Ok r => Ok (rk_Allowed r)
          end
        else Ok (Matches (pr_permissions resolution) (ck_Permission q))
    end.
End check.

(** ** Sessions of the server *)

(** [activatePermissionSession]: at login every role of the user is activated; a
    failure is logged and the session left without active roles. *)
Definition activatePermissionSession (userID clientID sessionID : string) (m : MemoryProvider) : MemoryProvider :=
  if decide (sessionID = "") then m
  else match Roles userID clientID m with
  | Err _ => m
  | Ok roles => (ActivateRoles userID clientID sessionID (ro_Code <$> roles) m).2
  end.

Definition deactivatePermissionSession (get : option (string -> option Session * option session_error))
    (sessionID : string) (m : MemoryProvider) : MemoryProvider :=
  if decide (sessionID = "") then m
  else match get with
  | None => m
  | Some get =>
      match get sessionID with
      | (Some sess, None) =>
          if bool_decide (se_UserID sess = "") || bool_decide (se_ClientID sess = "") then m
          else DeactivateSession (se_UserID sess) (se_ClientID sess) sessionID m
      | _ => m
      end
  end.

(** ** What a check with a session rests on *)

(** The session a request names, as the session manager knows it. *)
Definition live_session (get : string -> option Session * option session_error) (now : Z) (q : CheckRequest)
    (subject : string) (s : Session) : Prop :=
  get (ck_SessionId q) = (Some s, None) /\ se_Revoked s = false /\ se_ExpiresAt s >= now /\
  se_UserID s = subject /\ subject <> "" /\ (se_ClientID s = "" \/ se_ClientID s = ck_ClientId q).

Lemma sessionIsLive_true b now q subject get :
  bd_SessionManager b = Some get -> sessionIsLive b now q subject = Ok true ->
  exists s, live_session get now q subject s.
Proof.
  unfold sessionIsLive. intros ->. unfold live_session.
  destruct (get (ck_SessionId q)) as [[s|] [[]|]]; try done.
  destruct (_ || _) eqn:Hc; [done|]. destruct (_ && _) eqn:Hc2; [done|]. intros _. exists s.
  bool_simpl. unfold Session_IsExpired in *. rewrite GoTime.Since_pos_spec in *. bool_simpl.
  split_and!; try done; try lia; try congruence.
  apply andb_false_iff in Hc2 as [?|?]; bool_simpl; auto.
Qed.

Lemma resolveSessionSubject_spec b q subject :
  resolveSessionSubject b q = Ok subject -> ck_SessionId q <> "" ->
  (bd_ResolveSubject b = None /\ subject = ck_SubjectId q) \/
  exists resolve, bd_ResolveSubject b = Some resolve /\ resolve (ck_SubjectId q) = Ok subject /\ subject <> "".
Proof.
  unfold resolveSessionSubject. intros H Hs. rewrite decide_False in H by done.
  destruct (bd_ResolveSubject b) as [r|]; [|left; by simplify_eq].
  right. exists r. destruct (r _) as [s|]; [|done]. case_decide; [done|]. by simplify_eq.
Qed.

(** What was resolved when a check of a session answered. *)
Lemma Check_session p b now q v :
  Check p b now q = Ok v -> ck_SessionId q <> "" ->
  exists subject, resolveSessionSubject b q = Ok subject /\
    (sessionIsLive b now q subject = Ok false /\ v = false \/ sessionIsLive b now q subject = Ok true).
Proof.
  unfold Check, resolvePermissions. intros H Hs. destruct (_ || _); [done|].
  destruct (resolveSessionSubject b q) as [subject|[]] eqn:Hsub; cbn in H; [|exfalso|done].
  - exists subject. split; [done|]. rewrite decide_False in H by done.
    destruct (sessionIsLive b now q subject) as [[]|[]] eqn:Hl; cbn in H; [by right| |exfalso|done].
    + left. by simplify_eq.
    + revert Hl. unfold sessionIsLive. repeat case_match; done.
  - revert Hsub. unfold resolveSessionSubject. repeat case_match; done.
Qed.

(** C20 — a check that names a session rests on that session: when the in-memory
    provider, after any history, lets a flat check through, the session is live,
    unexpired and unrevoked, belongs to the resolved subject and to the client when it
    has one, and the permission comes from the definition of a role the subject holds
    and has active in that very session. *)
Theorem check_session_sound tr visited b get now q :
  let m := rbac_run tr NewMemoryProvider in
  bd_SessionManager b = Some get -> nul_free (ck_ClientId q) ->
  Forall (admissible [] [] (ck_ClientId q)) tr ->
  ck_SessionId q <> "" -> ck_ResourceType q = "" ->
  Check (memory_authz visited m) b now q = Ok true ->
  exists subject s, resolveSessionSubject b q = Ok subject /\ live_session get now q subject s /\
    (nul_free subject -> exists codes code role p,
      mp_activeRoles m !! sessionKey subject (ck_ClientId q) (ck_SessionId q) = Some codes /\ code ∈ codes /\
      code ∈ assigned m subject (ck_ClientId q) /\ definitions m (ck_ClientId q) !! code = Some role /\
      p ∈ ro_Permissions role /\ grants {| pm_Code := p; pm_Resource := "" |} (ck_Permission q) = true).
Proof.
  intros m Hb Hc Htr Hs Hr Hck.
  destruct (Check_session _ _ _ _ _ Hck Hs) as (subject & Hsub & [[_ ?]|Hlive]); [done|].
  destruct (sessionIsLive_true _ _ _ _ _ Hb Hlive) as (s & Hls). exists subject, s. split_and!; [done..|].
  intros Hnul. revert Hck. unfold Check, resolvePermissions. destruct (_ || _) eqn:Hne; [done|].
  rewrite Hsub. cbn. rewrite decide_False by done. rewrite Hlive, Hr. cbn. intros [= Hm].
  apply Matches_roles in Hm as [Hm|(role & p & Hrole & Hp & Hg)]; [rewrite Hm in Hne; cbn in Hne; by rewrite orb_true_r in Hne|].
  unfold ActiveRoles, defined in Hrole. apply list_elem_of_omap in Hrole as (code & Hcode & Hdef).
  destruct (mp_activeRoles m !! sessionKey subject (ck_ClientId q) (ck_SessionId q)) as [codes|] eqn:Hk;
    [|by apply not_elem_of_nil in Hcode].
  exists codes, code, role, p. split_and!; try done.
  assert (separated [] [] (ck_ClientId q) m) as (_ & _ & H).
  { apply separated_run; [done| |done]. by apply separated_declared. }
  by destruct (H subject (ck_SessionId q) codes Hnul Hk) as [Hin _]; apply Hin.
Qed.

(** Roles a user has through the global assignments count for the user's permissions
    but cannot be activated: the login of such a user activates nothing. *)
Lemma activate_global_fails u c sid m roles :
  assigned m u c = [] -> Roles u c m = Ok roles -> roles <> [] ->
  activatePermissionSession u c sid m = m.
Proof.
  intros Ha Hr Hne. unfold activatePermissionSession. case_decide; [done|]. rewrite Hr.
  unfold ActivateRoles. rewrite Ha. by destruct roles as [|r roles].
Qed.

(** a user whose roles are assigned globally is refused every permission inside a
    session: although the user's permissions grant it, the login activates no role, and
    a check that names the new session is answered no. *)
Theorem global_roles_never_active visited b now q m roles :
  let m' := activatePermissionSession (ck_SubjectId q) (ck_ClientId q) (ck_SessionId q) m in
  assigned m (ck_SubjectId q) (ck_ClientId q) = [] ->
  Roles (ck_SubjectId q) (ck_ClientId q) m = Ok roles -> roles <> [] ->
  mp_activeRoles m !! sessionKey (ck_SubjectId q) (ck_ClientId q) (ck_SessionId q) = None ->
  bd_ResolveSubject b = None -> ck_SubjectId q <> "" -> ck_SessionId q <> "" -> ck_Permission q <> "" ->
  ck_ResourceType q = "" ->
  forall v, Check (memory_authz visited m') b now q = Ok v -> v = false.
Proof.
  intros m' Ha Hr Hne Hk Hb Hsub Hs Hp Ht v. unfold m'. rewrite (activate_global_fails _ _ _ _ _ Ha Hr Hne).
  unfold Check. rewrite !bool_decide_eq_false_2 by done. cbn [orb].
  unfold resolvePermissions, resolveSessionSubject. rewrite Hb, (decide_False (P:=ck_SessionId q = "")) by done.
  destruct (sessionIsLive b now q (ck_SubjectId q)) as [[]|[]] eqn:Hl; cbn; try (rewrite (decide_False (P:=ck_SessionId q = "")) by done; cbn; congruence).
  - rewrite (decide_False (P:=ck_SessionId q = "")) by done. cbn. rewrite bool_decide_eq_true_2 by done. cbn. intros [= <-].
    apply not_true_iff_false. unfold ActiveRoles. rewrite Hk. rewrite Matches_roles.
    intros [?|(r & p & Hin & _)]; [done|by apply not_elem_of_nil in Hin].
  - revert Hl. unfold sessionIsLive. repeat case_match; done.
Qed.

(** ** The gate of the admin API *)

Definition KeyTenantID : string := "tenant_id".
Definition ScopeRead : string := "admin:read".
Definition ScopeWrite : string := "admin:write".

(** [providerAuthorizer.HasAdminScope]. *)
Definition HasAdminScope (prov : option AuthzProvider) (userID clientID requiredScope : string) : result authz_error bool :=
  match prov with
  | None => Ok false
  | Some p =>
      match az_Permissions p userID clientID with
      | Err UserNotFound => Ok false
      | Err e => Err e
      | Ok perms => Ok (Matches perms requiredScope)
      end
  end.

(** [ar_IP] is what [geo.DefaultIPExtractor] finds, [ar_Confirm] the [X-Confirm] header. *)
Record AdminRequest := {
  ar_Path : string;
  ar_Method : string;
  ar_Authorization : string;
  ar_IP : option IP;
  ar_Confirm : string;
}.

(** A quota store may fail. *)
Record adminQuotaConfig (X : Type) := {
  aq_Consume : option (string -> Z -> Z -> Z -> X -> option QuotaResult * X);
  aq_limit : Z;
  aq_window : Z;
  aq_keyBy : string;
}.
Arguments aq_Consume {X}. Arguments aq_limit {X}. Arguments aq_window {X}. Arguments aq_keyBy {X}.

(** [ip_geo] gives the country code of an address. *)
Record adminIPPolicy := {
  ip_cfg : IPAllowlistConfig;
  ip_geo : option (IP -> option string);
}.

(** [X] is the state of the admin-token store behind [GetByID] and [Touch], of the rate
    limiter and of the quota store. *)
Record Middleware (X : Type) := {
  mw_validator : option (string -> result () (option TokenClaims));
  mw_authorizer : option (string -> string -> string -> result authz_error bool);
  mw_methodScopes : list (string * string);
  mw_GetByID : option (string -> X -> result () Z);
  mw_Touch : string -> X -> X;
  mw_sessionTTL : Z;
  mw_ipPolicy : option adminIPPolicy;
  mw_Allow : option (X -> bool * X);
  mw_destructive : DestructiveSet;
  mw_quota : option (adminQuotaConfig X);
}.
Arguments mw_validator {X}. Arguments mw_authorizer {X}. Arguments mw_methodScopes {X}.
Arguments mw_GetByID {X}. Arguments mw_Touch {X}. Arguments mw_sessionTTL {X}.
Arguments mw_ipPolicy {X}. Arguments mw_Allow {X}. Arguments mw_destructive {X}. Arguments mw_quota {X}.

(** The overrides are a Go map with distinct prefixes, ranged over in some order. *)
Fixpoint best_override (path : string) (scopes : list (string * string)) (best : string * string) : string * string :=
  match scopes with
  | [] => best
  | (prefix, scope) :: scopes =>
      if Nat.leb (String.length prefix) (String.length best.1) || negb (HasPrefix path prefix)
      then best_override path scopes best
      else if negb (Nat.eqb (String.length path) (String.length prefix))
              && negb (bool_decide (Str.to_list path !! String.length prefix = Some slash))
      then best_override path scopes best
      else best_override path scopes (prefix, scope)
  end.

Definition methodScopeForPath (scopes : list (string * string)) (path : string) : option string :=
  let best := best_override path scopes ("", "") in
  if decide (best.1 = "") then None else Some best.2.

Definition scopeForHTTP (scopes : list (string * string)) (r : AdminRequest) : string :=
  match methodScopeForPath scopes (ar_Path r) with
  | Some scope => scope
  | None => if contains ["GET"; "HEAD"; "OPTIONS"] (ar_Method r) then ScopeRead else ScopeWrite
  end.

(** The part after the last slash, or the whole. *)
Definition last_segment (method : string) : string :=
  Str.of_list (default [] (last (split_slash (Str.to_list method) []))).

Definition isReadMethod (name : string) : bool := existsb (HasPrefix name) ["List"; "Get"; "Search"; "Find"].

Definition scopeForGRPC (scopes : list (string * string)) (method : string) : string :=
  match list_find (fun kv => kv.1 = method) scopes with
  | Some (_, kv) => kv.2
  | None => if isReadMethod (last_segment method) then ScopeRead else ScopeWrite
  end.

Definition isGatedGRPCMethod (fullMethod : string) : bool :=
  contains ["/snaplink.discovery.v1.Discovery/Register"; "/snaplink.discovery.v1.Discovery/Deregister"] fullMethod ||
  existsb (HasPrefix fullMethod) ["/snaplink.admin.v1."; "/snaplink.audit.v1."; "/snaplink.netpolicy.v1."].

Definition IsProtectedPath (path : string) : bool :=
  existsb (HasPrefix path) ["/api/v1/admin/"; "/api/v1/compliance/"; "/api/v1/scim/"; "/api/v1/audit/"] ||
  bool_decide (path = "/api/v1/netpolicy/classify") || HasPrefix path "/api/v1/netpolicy/policies".

(** [bearerFromHTTP]; the metadata of a call is read the same way. *)
Definition bearerFromHTTP (auth : string) : string :=
  if decide (auth = "") then ""
  else if negb (HasPrefix auth "Bearer ") then ""
  else Str.TrimSpace (Str.of_list (drop 7 (Str.to_list auth))).

Inductive admin_answer :=
| Denied (status : Z) (error : string)
| Passed (userID clientID : string).

Section admin.
Context {X : Type}.
Implicit Types (a : Middleware X).

Definition admin_client (claims : TokenClaims) : string :=
  match tc_Audience claims with aud :: _ => aud | [] => tc_ClientID claims end.

Definition authenticateHTTP a (r : AdminRequest) : result admin_answer (TokenClaims * string) :=
  match mw_validator a, mw_authorizer a with
  | Some validate, Some hasAdminScope =>
      let token := bearerFromHTTP (ar_Authorization r) in
      if decide (token = "") then Err (Denied 401 "missing_token")
      else match validate token with
      | Ok (Some claims) =>
          if negb (IsAccessTokenClaims (Some claims)) then Err (Denied 401 "invalid_token")
          else
            let clientID := admin_client claims in
            match hasAdminScope (tc_Subject claims) clientID (scopeForHTTP (mw_methodScopes a) r) with
            | Err _ => Err (Denied 500 "internal_error")
            | Ok false => Err (Denied 403 "forbidden")
            | Ok true => Ok (claims, clientID)
            end
      | _ => Err (Denied 401 "invalid_token")
      end
  | _, _ => Err (Denied 503 "admin_auth_not_configured")
  end.

(** Whether the request is stopped, and the store after it. *)
Definition enforceIdleTimeout a (now : Z) (claims : TokenClaims) (x : X) : bool * X :=
  match mw_GetByID a with
  | None => (false, x)
  | Some getByID =>
      if (mw_sessionTTL a <=? 0) || bool_decide (tc_JTI claims = "") then (false, x)
      else
        let idle := match getByID (tc_JTI claims) x with
                    | Ok lastUsedAt => negb (GoTime.IsZero lastUsedAt) && (mw_sessionTTL a <? GoTime.Since now lastUsedAt)
                    | Err _ => false
                    end in
        if idle then (true, x) else (false, mw_Touch a (tc_JTI claims) x)
  end.

Definition checkIPPolicy (p : option adminIPPolicy) (r : AdminRequest) : bool :=
  match p with
  | None => true
  | Some p =>
      let info := match ip_geo p, ar_IP r with Some lookup, Some ip => lookup ip | _, _ => None end in
      Allowed (ar_IP r) info (ip_cfg p)
  end.

Definition checkRateLimit (allow : option (X -> bool * X)) (x : X) : bool * X :=
  match allow with None => (true, x) | Some allow => allow x end.

Definition checkDestructiveConfirm (set : DestructiveSet) (r : AdminRequest) : bool :=
  match Match set (ar_Method r) (ar_Path r) with
  | None => true
  | Some _ => equalFold (ar_Confirm r) "true"
  end.

Definition isAdminWriteMethod (m : string) : bool := contains ["POST"; "PUT"; "PATCH"; "DELETE"] m.

Definition tenantHintFromClaims (claims : TokenClaims) : string := default "" (tc_Extra claims !! KeyTenantID).

Definition checkWriteQuota (q : option (adminQuotaConfig X)) (now : Z) (r : AdminRequest) (actorID tenantHint : string) (x : X)
  : bool * X :=
  match q with
  | None => (true, x)
  | Some q =>
      match aq_Consume q with
      | None => (true, x)
      | Some consume =>
          if negb (isAdminWriteMethod (ar_Method r)) then (true, x)
          else match consume (QuotaKey (aq_keyBy q) actorID tenantHint) (aq_limit q) (aq_window q) now x with
          | (Some res, x) => (qr_Allowed res, x)
          | (None, x) => (false, x)
          end
      end
  end.

(** [None] when the path is not protected. *)
Definition HTTPMiddleware a (now : Z) (r : AdminRequest) (x : X) : option admin_answer * X :=
  if negb (IsProtectedPath (ar_Path r)) then (None, x)
  else if negb (checkIPPolicy (mw_ipPolicy a) r) then (Some (Denied 403 "admin_ip_denied"), x)
  else
    let '(ok, x) := checkRateLimit (mw_Allow a) x in
    if negb ok then (Some (Denied 429 "rate_limit_exceeded"), x)
    else if negb (checkDestructiveConfirm (mw_destructive a) r) then (Some (Denied 409 "destructive_confirmation_required"), x)
    else match authenticateHTTP a r with
    | Err answer => (Some answer, x)
    | Ok (claims, clientID) =>
        let '(stopped, x) := enforceIdleTimeout a now claims x in
        if stopped then (Some (Denied 401 "session_expired"), x)
        else
          let '(ok, x) := checkWriteQuota (mw_quota a) now r (tc_Subject claims) (tenantHintFromClaims claims) x in
          if negb ok then (Some (Denied 429 "admin_write_quota_exceeded"), x)
          else (Some (Passed (tc_Subject claims) clientID), x)
    end.

Inductive grpc_answer :=
| GDenied (code : string)
| GAdmitted (userID clientID : string).

Definition authorizeGRPC a (authorization fullMethod : string) : grpc_answer :=
  match mw_validator a, mw_authorizer a with
  | Some validate, Some hasAdminScope =>
      let token := bearerFromHTTP authorization in
      if decide (token = "") then GDenied "Unauthenticated"
      else match validate token with
      | Ok (Some claims) =>
          if negb (IsAccessTokenClaims (Some claims)) then GDenied "Unauthenticated"
          else match hasAdminScope (tc_Subject claims) (admin_client claims) (scopeForGRPC (mw_methodScopes a) fullMethod) with
          | Err _ => GDenied "Internal"
          | Ok false => GDenied "PermissionDenied"
          | Ok true => GAdmitted (tc_Subject claims) (admin_client claims)
          end
      | _ => GDenied "Unauthenticated"
      end
  | _, _ => GDenied "FailedPrecondition"
  end.

(** [UnaryServerInterceptor]: the handler runs for methods that are not gated and for
    admitted calls. *)
Definition grpc_passes a (authorization fullMethod : string) : bool :=
  if negb (isGatedGRPCMethod fullMethod) then true
  else match authorizeGRPC a authorization fullMethod with GAdmitted _ _ => true | GDenied _ => false end.
End admin.

(** ** What the gate lets through *)

(** A prefix that applies to a path: the whole path, or up to a slash of it. *)
Definition covers (path prefix : string) : Prop :=
  HasPrefix path prefix = true /\
  (String.length path = String.length prefix \/ Str.to_list path !! String.length prefix = Some slash).

Lemma best_override_spec path scopes best :
  let r := best_override path scopes best in
  (r = best \/ (r ∈ scopes /\ covers path r.1 /\ (String.length best.1 < String.length r.1)%nat)) /\
  (String.length best.1 <= String.length r.1)%nat /\
  forall p s, (p, s) ∈ scopes -> covers path p -> (String.length p <= String.length r.1)%nat.
Proof.
  revert best. induction scopes as [|[prefix scope] scopes IH]; intros best; cbn [best_override].
  { split_and!; [by left|done|]. intros p s Hp. by apply not_elem_of_nil in Hp. }
  destruct (Nat.leb _ _ || _) eqn:H1; [|destruct (_ && _) eqn:H2].
  - destruct (IH best) as (IH1 & IH2 & IH3). split_and!; [destruct IH1 as [?|(?&?&?)]; [by left|right; set_solver]|done|].
    intros p s [Hp|Hp]%elem_of_cons Hc; [|by eapply IH3]. injection Hp as -> ->.
    apply orb_true_iff in H1 as [H1|H1]; [apply Nat.leb_le in H1; lia|].
    apply negb_true_iff in H1. destruct Hc. congruence.
  - destruct (IH best) as (IH1 & IH2 & IH3). split_and!; [destruct IH1 as [?|(?&?&?)]; [by left|right; set_solver]|done|].
    intros p s [Hp|Hp]%elem_of_cons Hc; [|by eapply IH3]. injection Hp as -> ->.
    apply andb_true_iff in H2 as [H2 H3]. apply negb_true_iff, Nat.eqb_neq in H2. bool_simpl. by destruct Hc as [_ [?|?]].
  - apply orb_false_iff in H1 as [H1 H3]. apply Nat.leb_gt in H1. apply negb_false_iff in H3.
    assert (covers path prefix) as Hcov.
    { split; [done|]. apply andb_false_iff in H2 as [H2|H2]; apply negb_false_iff in H2;
        [left; by apply Nat.eqb_eq|right; by apply bool_decide_eq_true in H2]. }
    destruct (IH (prefix, scope)) as (IH1 & IH2 & IH3). cbn [fst] in *. split_and!; [|lia|].
    + right. destruct IH1 as [->|(?&?&?)]; [split_and!; [set_solver|done|done]|split_and!; [set_solver|done|lia]].
    + intros p s [Hp|Hp]%elem_of_cons Hc; [injection Hp as -> ->; done|by eapply IH3].
Qed.

(** An override is one of the longest registered prefixes that apply. *)
Lemma methodScopeForPath_Some scopes path scope :
  methodScopeForPath scopes path = Some scope ->
  exists prefix, (prefix, scope) ∈ scopes /\ covers path prefix /\
    forall p s, (p, s) ∈ scopes -> covers path p -> (String.length p <= String.length prefix)%nat.
Proof.
  unfold methodScopeForPath. case_decide as He; [done|]. intros [= <-].
  destruct (best_override_spec path scopes ("", "")) as (H1 & _ & H3). set (r := best_override _ _ _) in *.
  exists r.1. destruct H1 as [->|(Hin & Hc & _)]; [done|]. split_and!; [by destruct r|done|done].
Qed.

Lemma methodScopeForPath_None scopes path :
  methodScopeForPath scopes path = None -> forall p s, (p, s) ∈ scopes -> covers path p -> p = "".
Proof.
  unfold methodScopeForPath. case_decide as He; [|done]. intros _ p s Hp Hc.
  destruct (best_override_spec path scopes ("", "")) as (_ & _ & H3). specialize (H3 p s Hp Hc).
  rewrite He in H3. destruct p; [done|cbn in H3; lia].
Qed.

(** The codes that grant a scope of the admin API. *)
Lemma grants_admin p action :
  action = "read" \/ action = "write" ->
  grants p ("admin:" +:+ action) = true <-> pm_Code p ∈ ["*"; "admin:*"; "admin:" +:+ action].
Proof.
  intros Ha. rewrite grants_spec, !elem_of_cons, elem_of_nil. split.
  - intros [?|[?|(d & r & Hp & Hd)]]; [tauto..|]. right; left. rewrite Hp.
    assert (d = "admin") as ->; [|done]. destruct Ha as [-> | ->];
    do 6 (destruct d as [|? d]; [first [discriminate Hd|by injection Hd as <-|done]|cbn in Hd; injection Hd as <- Hd]);
    repeat (destruct d as [|? d]; [discriminate Hd|cbn in Hd; try discriminate Hd; injection Hd as <- Hd]).
  - intros [?|[?|[?|[]]]]; [tauto| |by right; left]. right; right. by exists "admin", action.
Qed.

(** The scope a request needs when no override applies to its path. *)
Definition needed (method : string) : string :=
  if contains ["GET"; "HEAD"; "OPTIONS"] method then ScopeRead else ScopeWrite.

Lemma scopeForHTTP_plain scopes r :
  (forall p s, (p, s) ∈ scopes -> covers (ar_Path r) p -> p = "") -> scopeForHTTP scopes r = needed (ar_Method r).
Proof.
  intros Hn. unfold scopeForHTTP. destruct (methodScopeForPath scopes (ar_Path r)) as [scope|] eqn:Hm; [|done].
  pose proof (methodScopeForPath_Some _ _ _ Hm) as (prefix & Hin & Hc & Hmax). exfalso.
  unfold methodScopeForPath in Hm. case_decide as He; [done|]. apply He.
  destruct (best_override_spec (ar_Path r) scopes ("", "")) as ([->|(Hb & Hbc & _)] & _ & _); [done|].
  destruct (best_override (ar_Path r) scopes ("", "")) as [p s]. by apply (Hn p s).
Qed.

(** An admin scope a user holds comes from a role. *)
Lemma admin_scope_granted u c m visited method :
  HasAdminScope (Some (memory_authz visited m)) u c (needed method) = Ok true ->
  exists code role p, code ∈ role_codes u c m /\ role_defs c m !! code = Some role /\
    p ∈ ro_Permissions role /\ p ∈ ["*"; "admin:*"; needed method].
Proof.
  cbn. destruct (Permissions u c m) as [ps|] eqn:Hps; [|done]. intros [= Hm].
  apply (Permissions_grant _ _ _ _ _ Hps) in Hm as [Hm|(code & role & p & H1 & H2 & H3 & H4)].
  - unfold needed in Hm. by destruct (contains _ _).
  - exists code, role, p. split_and!; [done..|]. unfold needed, ScopeRead, ScopeWrite in *.
    destruct (contains _ _); [apply (grants_admin _ "read") in H4|apply (grants_admin _ "write") in H4]; auto.
Qed.

Lemma authenticateHTTP_sound {X} (a : Middleware X) r hasAdminScope claims clientID :
  mw_authorizer a = Some hasAdminScope -> authenticateHTTP a r = Ok (claims, clientID) ->
  exists validate, mw_validator a = Some validate /\
    validate (bearerFromHTTP (ar_Authorization r)) = Ok (Some claims) /\ bearerFromHTTP (ar_Authorization r) <> "" /\
    IsAccessTokenClaims (Some claims) = true /\ clientID = admin_client claims /\
    hasAdminScope (tc_Subject claims) (admin_client claims) (scopeForHTTP (mw_methodScopes a) r) = Ok true.
Proof.
  intros Ha. unfold authenticateHTTP. rewrite Ha. destruct (mw_validator a) as [validate|]; [|done]. case_decide; [done|].
  destruct (validate _) as [[cl|]|] eqn:Hv; [|done..]. destruct (negb _) eqn:Hac; [done|].
  destruct (hasAdminScope _ _ _) as [[]|] eqn:Hs; [|done..]. intros [= -> <-]. apply negb_false_iff in Hac. by exists validate.
Qed.

Lemma authenticateHTTP_denies {X} (a : Middleware X) r u c : authenticateHTTP a r <> Err (Passed u c).
Proof. unfold authenticateHTTP. repeat case_match; congruence. Qed.

(** C21 — the admin API lets nobody in without the scope: a request admitted on a
    protected path comes from an allowed network, is confirmed when a destructive rule
    matches it, and carries a bearer token the validator accepts as an access token; its
    subject is the one reported, and, unless an override was registered for the path,
    the subject holds a role whose permissions include the wildcard, the admin wildcard
    or the very scope the method needs: read for GET, HEAD and OPTIONS, write for every
    other method. *)
Theorem admin_http_gate {X} (a : Middleware X) visited m now r x x' u c :
  mw_authorizer a = Some (HasAdminScope (Some (memory_authz visited m))) ->
  HTTPMiddleware a now r x = (Some (Passed u c), x') ->
  IsProtectedPath (ar_Path r) = true /\ checkIPPolicy (mw_ipPolicy a) r = true /\
  (forall action, Match (mw_destructive a) (ar_Method r) (ar_Path r) = Some action -> equalFold (ar_Confirm r) "true" = true) /\
  exists validate claims, mw_validator a = Some validate /\
    validate (bearerFromHTTP (ar_Authorization r)) = Ok (Some claims) /\ bearerFromHTTP (ar_Authorization r) <> "" /\
    IsAccessTokenClaims (Some claims) = true /\ u = tc_Subject claims /\ c = admin_client claims /\
    ((forall p s, (p, s) ∈ mw_methodScopes a -> covers (ar_Path r) p -> p = "") ->
      exists code role p, code ∈ role_codes u c m /\ role_defs c m !! code = Some role /\
        p ∈ ro_Permissions role /\ p ∈ ["*"; "admin:*"; needed (ar_Method r)]).
Proof.
  intros Ha. unfold HTTPMiddleware. destruct (negb _) eqn:Hp; [done|]. destruct (negb (checkIPPolicy _ _)) eqn:Hip; [done|].
  destruct (checkRateLimit _ _) as [[] x1]; [|done]. cbn [negb]. destruct (negb (checkDestructiveConfirm _ _)) eqn:Hd; [done|].
  apply negb_false_iff in Hp, Hip, Hd. intros H. split; [done|]. split; [done|].
  split; [intros action Hm; unfold checkDestructiveConfirm in Hd; by rewrite Hm in Hd|]. revert H.
  destruct (authenticateHTTP a r) as [[claims clientID]|] eqn:Hauth; [|by intros [= -> _]; destruct (authenticateHTTP_denies _ _ _ _ Hauth)].
  destruct (enforceIdleTimeout _ _ _ _) as [[] x2]; [done|]. destruct (checkWriteQuota _ _ _ _ _ _) as [[] x3]; [|done].
  intros [= <- <- <-]. destruct (authenticateHTTP_sound _ _ _ _ _ Ha Hauth) as (validate & H1 & H2 & H3 & H4 & H5 & H6).
  exists validate, claims. split_and!; [done..|]. intros Hover. subst clientID.
  rewrite (scopeForHTTP_plain _ _ Hover) in H6. by apply (admin_scope_granted _ _ _ visited).
Qed.

(** ** Witnesses *)

Definition auditor : Role := {| ro_Code := "auditor"; ro_Name := ""; ro_Description := ""; ro_Permissions := ["admin:read"] |}.

Definition hq_ops : list rbac_op :=
  [OAddRole "console" auditor; OAssign "ann" "console" ["auditor"]; OActivate "ann" "console" "s1" ["auditor"];
   OAddRole "" auditor; OAssign "guy" "" ["auditor"]].
Definition hq : MemoryProvider := rbac_run hq_ops NewMemoryProvider.

Definition ann_session : Session := {|
  se_ID := "s1"; se_UserID := "ann"; se_CreatedAt := 0; se_ExpiresAt := 500; se_Revoked := false;
  se_LastActiveAt := 0; se_IP := ""; se_UserAgent := ""; se_TenantID := ""; se_DeviceID := "";
  se_ClientID := "console"; se_AuthorizedScopes := []; se_AuthTime := 0; se_Kind := ""; se_TrustScore := of_int 0;
  se_TrustSetAt := 0; se_StepUpRequired := false |}.

Definition sessions (id : string) : option Session * option session_error :=
  if decide (id = "s1") then (Some ann_session, None) else (None, Some ErrSessionNotFound).

Definition check_request (subject session : string) : CheckRequest := {|
  ck_SubjectId := subject; ck_ClientId := "console"; ck_SessionId := session; ck_TenantId := "";
  ck_Permission := "admin:read"; ck_ResourceType := ""; ck_Attributes := ∅ |}.

Lemma check_session_sound_witness :
  exists s, live_session sessions 100 (check_request "ann" "s1") "ann" s.
Proof.
  destruct (check_session_sound hq_ops [] {| bd_SessionManager := Some sessions; bd_ResolveSubject := None |}
    sessions 100 (check_request "ann" "s1")) as (subject & s & Hsub & Hs & _).
  - reflexivity.
  - apply (bool_decide_eq_true_1 (nul_free "console")). vm_compute. reflexivity.
  - repeat constructor; apply (bool_decide_eq_true_1 (nul_free _)); vm_compute; reflexivity.
  - discriminate.
  - reflexivity.
  - vm_compute. reflexivity.
  - exists s. injection Hsub as <-. exact Hs.
Defined.

Lemma global_roles_never_active_witness :
  Permissions "guy" "console" hq = Ok [{| pm_Code := "admin:read"; pm_Resource := "" |}] /\
  Matches [{| pm_Code := "admin:read"; pm_Resource := "" |}] "admin:read" = true /\
  Check (memory_authz [] (activatePermissionSession "guy" "console" "s2" hq))
    {| bd_SessionManager := None; bd_ResolveSubject := None |} 100 (check_request "guy" "s2") = Ok false.
Proof.
  split; [vm_compute; reflexivity|]. split; [vm_compute; reflexivity|].
  destruct (Check (memory_authz [] (activatePermissionSession "guy" "console" "s2" hq))
    {| bd_SessionManager := None; bd_ResolveSubject := None |} 100 (check_request "guy" "s2")) as [v|e] eqn:E.
  - f_equal. revert E.
    apply (global_roles_never_active [] {| bd_SessionManager := None; bd_ResolveSubject := None |} 100
      (check_request "guy" "s2") hq [auditor]).
    + vm_compute. reflexivity.
    + vm_compute. reflexivity.
    + discriminate.
    + vm_compute. reflexivity.
    + reflexivity.
    + discriminate.
    + discriminate.
    + discriminate.
    + reflexivity.
  - vm_compute in E. discriminate.
Defined.

Definition admin_claims : TokenClaims := {|
  tc_TokenUse := TokenUseAccessToken; tc_Subject := "ann"; tc_Issuer := "https://sso"; tc_Audience := ["console"];
  tc_Scopes := []; tc_Resources := []; tc_ExpiresAt := 1000; tc_NotBefore := 0; tc_IssuedAt := 0; tc_Extra := ∅;
  tc_ClientID := "web"; tc_JTI := "j1"; tc_AuthTime := 5; tc_ACR := ""; tc_AMR := []; tc_SID := "";
  tc_ServingRegion := ""; tc_TenantID := ""; tc_ConfirmationJKT := ""; tc_ConfirmationX5TS256 := "";
  tc_AuthorizationDetails := ""; tc_Actor := ActorNil; tc_MayAct := ActorNil; tc_RequestedClaims := "" |}.

Definition console_gate : Middleware () := {|
  mw_validator := Some (fun t => if decide (t = "tok") then Ok (Some admin_claims) else Err ());
  mw_authorizer := Some (HasAdminScope (Some (memory_authz [] hq))); mw_methodScopes := [];
  mw_GetByID := None; mw_Touch := fun _ x => x; mw_sessionTTL := 0; mw_ipPolicy := None; mw_Allow := None;
  mw_destructive := []; mw_quota := None |}.

Definition admin_request (method : string) : AdminRequest := {|
  ar_Path := "/api/v1/admin/users"; ar_Method := method; ar_Authorization := "Bearer tok"; ar_IP := None; ar_Confirm := "" |}.

Lemma admin_http_gate_witness :
  HTTPMiddleware console_gate 0 (admin_request "POST") () = (Some (Denied 403 "forbidden"), ()) /\
  exists validate claims, mw_validator console_gate = Some validate /\
    validate (bearerFromHTTP "Bearer tok") = Ok (Some claims) /\ tc_Subject claims = "ann".
Proof.
  split; [vm_compute; reflexivity|].
  destruct (admin_http_gate console_gate [] hq 0 (admin_request "GET") () () "ann" "console")
    as (_ & _ & _ & validate & claims & H1 & H2 & _ & _ & H3 & _).
  - reflexivity.
  - vm_compute. reflexivity.
  - exists validate, claims. split; [exact H1|]. split; [exact H2|]. symmetry. exact H3.
Defined.
