(* ===== verification/Json.v ===== *)
(** * Json: what [encoding/json] and [time] write
    (standard library: strings and maps in [json.Marshal], [time.Time.MarshalJSON]).

    Bytes are integers below 256.  Strings are escaped as [json.Marshal] does, HTML
    characters included, and bytes that are not UTF-8 become the replacement
    character.  Times are written in UTC.  The encodings are proved unambiguous: what
    follows an encoded value is not mistaken for a part of it. *)
From S2P Require Import Prelude Crypto.
Local Open Scope Z_scope.

Definition bytes : Type := list Z.
Definition is_octet (b : Z) : Prop := 0 <= b < 256.

(** A byte literal list. *)
Definition lit (s : string) : bytes := string_bytes s.

(** ** UTF-8 *)

Definition between (lo hi b : Z) : bool := (lo <=? b) && (b <=? hi).
Definition cont (b : Z) : bool := between 128 191 b.

(** The length of the well-formed sequence of two to four bytes at the head, [0] when
    there is none ([utf8.DecodeRuneInString]). *)
Definition rune_len (l : bytes) : nat :=
  match l with
  | b0 :: b1 :: l =>
      if between 194 223 b0 then if cont b1 then 2%nat else 0%nat
      else match l with
      | b2 :: l =>
          if between 224 239 b0 then
            if between (if b0 =? 224 then 160 else 128) (if b0 =? 237 then 159 else 191) b1 && cont b2 then 3%nat else 0%nat
          else match l with
          | b3 :: _ =>
              if between 240 244 b0
                 && between (if b0 =? 240 then 144 else 128) (if b0 =? 244 then 143 else 191) b1 && cont b2 && cont b3
              then 4%nat else 0%nat
          | [] => 0%nat
          end
      | [] => 0%nat
      end
  | _ => 0%nat
  end.

(** A string is read as runes and bytes that belong to none. *)
Inductive token := Rune (r : bytes) | Bad.

#[export] Instance token_eq_dec : EqDecision token.
Proof. solve_decision. Defined.

(** [skip] counts the bytes of a rune already read. *)
Fixpoint tokens (l : bytes) (skip : nat) : list token :=
  match l with
  | [] => []
  | b :: l' =>
      match skip with
      | S k => tokens l' k
      | O =>
          if b <? 128 then Rune [b] :: tokens l' 0
          else match rune_len l with
          | O => Bad :: tokens l' 0
          | S k => Rune (take (S k) l) :: tokens l' k
          end
      end
  end.

Definition utf8 (s : string) : Prop := Bad ∉ tokens (string_bytes s) 0.
#[export] Instance utf8_dec s : Decision (utf8 s).
Proof. unfold utf8. apply _. Defined.

(** ** Strings *)

Definition hex_byte (x : Z) : Z := Str.byte (hex_digit x).

(** One ASCII byte. *)
Definition escape (b : Z) : bytes :=
  if decide (b = 34 \/ b = 92) then [92; b]
  else if decide (b = 8) then lit "\b"
  else if decide (b = 12) then lit "\f"
  else if decide (b = 10) then lit "\n"
  else if decide (b = 13) then lit "\r"
  else if decide (b = 9) then lit "\t"
  else if decide (b < 32 \/ b = 38 \/ b = 60 \/ b = 62)
  then lit "\u00" ++ [hex_byte (Z.shiftr b 4); hex_byte (Z.land b 15)]
  else [b].

(** The two line separators of JavaScript are escaped. *)
Definition escape_token (t : token) : bytes :=
  match t with
  | Rune [b] => escape b
  | Rune r =>
      if decide (r = [226; 128; 168]) then lit "\u2028"
      else if decide (r = [226; 128; 169]) then lit "\u2029"
      else r
  | Bad => lit "\ufffd"
  end.

Definition escape_all (l : bytes) : bytes := mjoin (escape_token <$> tokens l 0).
Definition quote (s : string) : bytes := 34 :: escape_all (string_bytes s) ++ [34].

(** ** Objects *)

Definition join_comma (l : list bytes) : bytes :=
  match l with [] => [] | x :: l => x ++ mjoin (cons 44 <$> l) end.

Definition member (kv : string * bytes) : bytes := quote kv.1 ++ 58 :: kv.2.
Definition object (ms : list (string * bytes)) : bytes := 123 :: join_comma (member <$> ms) ++ [125].

(** A map of strings, by its entries in the order of the keys. *)
Inductive jval := JStr (s : string) | JMap (kvs : list (string * string)).

Definition value (v : jval) : bytes :=
  match v with
  | JStr s => quote s
  | JMap kvs => object ((fun kv => (kv.1, quote kv.2)) <$> kvs)
  end.

(** ** Times *)

(** Days since March 1 of year 0, below the 146097 of 400 years, to year, month and day:
    centuries of 36524 days, four years of 1461, years of 365; the last century and the
    last year of a cycle have a day more. *)
Definition civil_of_era (doe : Z) : Z * Z * Z :=
  let n100 := Z.min 3 (doe / 36524) in
  let d := doe - 36524 * n100 in
  let n4 := d / 1461 in
  let d := d - 1461 * n4 in
  let n1 := Z.min 3 (d / 365) in
  let doy := d - 365 * n1 in
  let y := 100 * n100 + 4 * n4 + n1 in
  let mp := (5 * doy + 2) / 153 in
  let d := doy - (153 * mp + 2) / 5 + 1 in
  let m := if mp <? 10 then mp + 3 else mp - 9 in
  (if m <=? 2 then y + 1 else y, m, d).

Definition Day : Z := 24 * GoTime.Hour.

(** [Time.Date] in UTC; January 1 of year 1 is 306 days after March 1 of year 0. *)
Definition Date (t : Z) : Z * Z * Z :=
  let z := t / Day + 306 in
  let '(y, m, d) := civil_of_era (z mod 146097) in
  (y + 400 * (z / 146097), m, d).

(** The last [k] decimal digits. *)
Fixpoint digits (k : nat) (n : Z) : bytes :=
  match k with O => [] | S k => digits k (n / 10) ++ [48 + n mod 10] end.

(** Without trailing zeros. *)
Fixpoint drop_zeros (l : bytes) : bytes :=
  match l with
  | [] => []
  | b :: l => match drop_zeros l with [] => if b =? 48 then [] else [b] | l => b :: l end
  end.

Definition fraction (n : Z) : bytes :=
  match drop_zeros (digits 9 n) with [] => [] | ds => 46 :: ds end.

Definition RFC3339Nano (t : Z) : bytes :=
  let '(y, m, d) := Date t in
  let s := t mod Day in
  digits 4 y ++ [45] ++ digits 2 m ++ [45] ++ digits 2 d ++ [84] ++
  digits 2 (s / GoTime.Hour) ++ [58] ++ digits 2 (s / GoTime.Minute mod 60) ++ [58] ++
  digits 2 (s / GoTime.Second mod 60) ++ fraction (s mod GoTime.Second) ++ [90].

(** [MarshalJSON] refuses a year outside 0 to 9999.  The text has no character that is
    escaped. *)
Definition year_ok (t : Z) : bool := between 0 9999 (Date t).1.1.
Definition time_text (t : Z) : string := Str.of_list (byte_char <$> RFC3339Nano t).

Example time_ex :
  time_text ((719162 + 20000) * Day + 13 * GoTime.Hour + 5 * GoTime.Second + 120000000) = "2024-10-04T13:00:05.12Z".
Proof. vm_compute. reflexivity. Qed.

(** ** Strings are unambiguous *)

Definition hex_value (b : Z) : Z := if b <? 58 then b - 48 else b - 87.

(** Reads one escaped token; nothing at a quote. *)
Definition next (l : bytes) : option (token * bytes) :=
  match l with
  | [] => None
  | b :: l' =>
      if b =? 34 then None
      else if b =? 92 then
        match l' with
        | 117 :: h1 :: h2 :: h3 :: h4 :: l' =>
            let v := ((hex_value h1 * 16 + hex_value h2) * 16 + hex_value h3) * 16 + hex_value h4 in
            Some (if v =? 65533 then Bad else if v =? 8232 then Rune [226; 128; 168]
                  else if v =? 8233 then Rune [226; 128; 169] else Rune [v], l')
        | 98 :: l' => Some (Rune [8], l')
        | 102 :: l' => Some (Rune [12], l')
        | 110 :: l' => Some (Rune [10], l')
        | 114 :: l' => Some (Rune [13], l')
        | 116 :: l' => Some (Rune [9], l')
        | c :: l' => Some (Rune [c], l')
        | [] => None
        end
      else if b <? 128 then Some (Rune [b], l')
      else Some (Rune (take (rune_len l) l), drop (rune_len l) l)
  end.

(** The tokens a string of bytes has. *)
Definition proper (t : token) : Prop :=
  match t with
  | Rune [b] => 0 <= b < 128
  | Rune ((b :: _) as r) => 128 <= b /\ forall l, rune_len (r ++ l) = length r
  | Rune [] => False
  | Bad => True
  end.

Lemma rune_len_take l k : rune_len l = S k ->
  (length (take (S k) l) = S k /\ 1 <= k)%nat /\ forall l', rune_len (take (S k) l ++ l') = S k.
Proof.
  destruct l as [|b0 [|b1 l]]; [done..|]. cbn [rune_len]. destruct (between 194 223 b0) eqn:E0.
  { destruct (cont b1) eqn:E1; [|done]. intros [= <-]. split; [by cbn; auto with arith|]. intros l'. cbn [take app rune_len]. by rewrite E0, E1. }
  destruct l as [|b2 l]; [done|]. destruct (between 224 239 b0) eqn:E1.
  { destruct (_ && _) eqn:E2; [|done]. intros [= <-]. split; [by cbn; auto with arith|]. intros l'. cbn [take app rune_len]. by rewrite E0, E1, E2. }
  destruct l as [|b3 l]; [done|]. destruct (_ && _ && _ && _) eqn:E2; [|done].
  intros [= <-]. split; [by cbn; auto with arith|]. intros l'. cbn [take app rune_len]. by rewrite E0, E1, E2.
Qed.

Lemma tokens_proper l k : Forall is_octet l -> Forall proper (tokens l k).
Proof.
  intros Hl. revert k. induction Hl as [|b l Hb Hl IH]; intros k; cbn [tokens]; [constructor|].
  destruct k as [|k]; [|apply IH]. destruct (b <? 128) eqn:E.
  - constructor; [|apply IH]. cbn. unfold is_octet in Hb. apply Z.ltb_lt in E. lia.
  - destruct (rune_len (b :: l)) as [|n] eqn:Hn; constructor; [done|apply IH| |apply IH].
    destruct (rune_len_take _ _ Hn) as ([Hlen Hn1] & Hr). cbn [take] in *. apply Z.ltb_ge in E.
    assert (forall l', rune_len ((b :: take n l) ++ l') = length (b :: take n l)) as H by (intros; by rewrite Hr, Hlen).
    clear Hr. destruct (take n l) as [|b' r]; [cbn in Hlen; lia|]. split; [lia|exact H].
Qed.

(** A string without bad bytes is the runes it is read as. *)
Definition rune (t : token) : bytes := match t with Rune r => r | Bad => [] end.

Lemma tokens_runes l k : (k <= length l)%nat -> Bad ∉ tokens l k -> mjoin (rune <$> tokens l k) = drop k l.
Proof.
  revert k. induction l as [|b l IH]; intros k Hk; cbn [tokens]; [by rewrite drop_nil|].
  destruct k as [|k]; [|intros Hb; apply IH; [cbn in Hk; auto with arith|done]].
  destruct (b <? 128).
  - intros Hb. cbn. rewrite IH; [done|lia|set_solver].
  - destruct (rune_len (b :: l)) as [|n] eqn:Hn; intros Hb; [set_solver|]. cbn [fmap list_fmap mjoin list_join rune].
    destruct (rune_len_take _ _ Hn) as ([Hlen _] & _). rewrite length_take in Hlen. cbn [length] in Hlen.
    rewrite IH; [|lia|set_solver]. cbn [take app drop]. by rewrite take_drop.
Qed.

Lemma utf8_runes s : utf8 s -> mjoin (rune <$> tokens (string_bytes s) 0) = string_bytes s.
Proof. intros H. by rewrite tokens_runes by (done || lia). Qed.

Lemma next_ascii b l : 0 <= b < 128 -> next (escape b ++ l) = Some (Rune [b], l).
Proof.
  intros Hb. assert (b ∈ seqZ 0 128) as Hin by (apply elem_of_seqZ; lia). revert Hin.
  assert (Forall (fun b => next (escape b ++ l) = Some (Rune [b], l)) (seqZ 0 128)) as H.
  { change (seqZ 0 128) with (Z.of_nat <$> seq 0 128). cbn [seq fmap list_fmap]. repeat constructor. }
  rewrite Forall_forall in H. by apply H.
Qed.

Lemma next_token t l : proper t -> next (escape_token t ++ l) = Some (t, l).
Proof.
  destruct t as [[|b [|b' r]]|]; cbn [proper]; [done|apply next_ascii| |reflexivity].
  intros [Hb Hr]. cbn [escape_token]. case_decide as H1; [rewrite H1; reflexivity|].
  case_decide as H2; [rewrite H2; reflexivity|]. specialize (Hr l). cbn [app] in *. unfold next.
  rewrite (proj2 (Z.eqb_neq b 34)), (proj2 (Z.eqb_neq b 92)), (proj2 (Z.ltb_ge b 128)) by lia.
  rewrite Hr. change (b :: b' :: r ++ l) with ((b :: b' :: r) ++ l).
  by rewrite take_app_length, drop_app_length.
Qed.

Lemma escaped_inj ts ts' r r' :
  Forall proper ts -> Forall proper ts' ->
  mjoin (escape_token <$> ts) ++ 34 :: r = mjoin (escape_token <$> ts') ++ 34 :: r' -> ts = ts' /\ r = r'.
Proof.
  intros H. revert ts'. induction H as [|t ts Ht _ IH]; intros ts' H' E.
  - destruct H' as [|t' ts' Ht' _]; [by injection E|]. exfalso. cbn in E. rewrite <- app_assoc in E.
    apply (f_equal next) in E. by rewrite next_token in E.
  - destruct H' as [|t' ts' Ht' H']; cbn in E; rewrite <- ?app_assoc in E; apply (f_equal next) in E.
    + by rewrite next_token in E.
    + rewrite !next_token in E by done. injection E as <- E. by apply IH in E as [-> ->].
Qed.

(** Of two texts it is enough that one is UTF-8: the bytes that are not are written in
    a form no rune has. *)
Lemma quote_prefix s s' r r' : utf8 s -> quote s ++ r = quote s' ++ r' -> s = s' /\ r = r'.
Proof.
  intros Hs E. unfold quote in E. cbn [app] in E. injection E as E. rewrite <- !app_assoc in E.
  apply escaped_inj in E as [E ->]; [|apply tokens_proper, string_bytes_range..].
  split; [|done]. apply string_bytes_inj. rewrite <- (utf8_runes s), <- (utf8_runes s'), E; [done| |done].
  unfold utf8. by rewrite <- E.
Qed.

(** ** Objects are unambiguous *)

Section prefix.
Context {A : Type} (enc : A -> bytes) (ok : A -> Prop).

(** The first byte is never the one that ends an object. *)
Definition unambiguous : Prop :=
  (forall a b r s, ok a -> enc a ++ r = enc b ++ s -> a = b /\ r = s) /\ (forall a r, head (enc a ++ r) <> Some 125).

Hypothesis Henc : unambiguous.

Lemma rest_prefix l l' r s :
  Forall ok l -> mjoin (cons 44 <$> (enc <$> l)) ++ 125 :: r = mjoin (cons 44 <$> (enc <$> l')) ++ 125 :: s -> l = l' /\ r = s.
Proof.
  intros H. revert l'. induction H as [|a l Ha _ IH]; intros [|b l'] E; cbn in E; try discriminate E; [by injection E|].
  injection E as E. rewrite <- !app_assoc in E. apply (proj1 Henc) in E as [-> E]; [|done]. by apply IH in E as [-> ->].
Qed.

Lemma join_prefix l l' r s :
  Forall ok l -> join_comma (enc <$> l) ++ 125 :: r = join_comma (enc <$> l') ++ 125 :: s -> l = l' /\ r = s.
Proof.
  destruct Henc as [Hp Hh]. intros [|a k Ha Hk] E; destruct l' as [|b l']; cbn in E; rewrite <- ?app_assoc in E.
  - by injection E.
  - apply (f_equal head) in E. symmetry in E. by apply Hh in E.
  - apply (f_equal head) in E. by apply Hh in E.
  - apply Hp in E as [-> E]; [|done]. by apply rest_prefix in E as [-> ->].
Qed.
End prefix.

Lemma pair_unambiguous {V} (enc : V -> bytes) (ok : V -> Prop) :
  (forall v w r s, ok v -> enc v ++ r = enc w ++ s -> v = w /\ r = s) ->
  unambiguous (fun kv => member (kv.1, enc kv.2)) (fun kv => utf8 kv.1 /\ ok kv.2).
Proof.
  intros H. split; [|done]. intros [k v] [k' v'] r s [Hk Hv] E. unfold member in E. cbn [fst snd] in *.
  rewrite <- !app_assoc in E. apply quote_prefix in E as [-> E]; [|done]. cbn [app] in E. injection E as E.
  by apply H in E as [-> ->].
Qed.

(** An object, by its keys and values. *)
Lemma object_prefix {V} (enc : V -> bytes) (ok : V -> Prop) kvs kvs' r s :
  (forall v w r s, ok v -> enc v ++ r = enc w ++ s -> v = w /\ r = s) ->
  Forall (fun kv => utf8 kv.1 /\ ok kv.2) kvs ->
  object ((fun kv => (kv.1, enc kv.2)) <$> kvs) ++ r = object ((fun kv => (kv.1, enc kv.2)) <$> kvs') ++ s ->
  kvs = kvs' /\ r = s.
Proof.
  intros He Hkvs E. unfold object in E. cbn [app] in E. injection E as E. rewrite <- !app_assoc, <- !list_fmap_compose in E.
  exact (join_prefix _ _ (pair_unambiguous enc ok He) kvs kvs' r s Hkvs E).
Qed.

(** Text a document is made of. *)
Definition jval_utf8 (v : jval) : Prop :=
  match v with JStr s => utf8 s | JMap kvs => Forall (fun kv => utf8 kv.1 /\ utf8 kv.2) kvs end.
#[export] Instance jval_utf8_dec v : Decision (jval_utf8 v).
Proof. destruct v; apply _. Defined.

Lemma value_prefix v w r s : jval_utf8 v -> value v ++ r = value w ++ s -> v = w /\ r = s.
Proof.
  destruct v as [a|a], w as [b|b]; cbn [value jval_utf8]; intros H E.
  - by apply quote_prefix in E as [-> ->].
  - discriminate E.
  - discriminate E.
  - apply (object_prefix quote utf8) in E as [-> ->]; [done| |done]. intros v w. by apply quote_prefix.
Qed.

Definition document (fields : list (string * jval)) : bytes := object ((fun f => (f.1, value f.2)) <$> fields).

Lemma document_inj fields fields' :
  Forall (fun f => utf8 f.1 /\ jval_utf8 f.2) fields -> document fields = document fields' -> fields = fields'.
Proof.
  intros H E. apply (f_equal (fun l => l ++ [])) in E.
  apply (object_prefix value jval_utf8) in E as [-> _]; [done| |done]. intros v w. apply value_prefix.
Qed.

(** ** Times are unambiguous *)

Definition num (l : bytes) : Z := foldl (fun a b => 10 * a + (b - 48)) 0 l.

Lemma length_digits k n : length (digits k n) = k.
Proof. revert n. induction k as [|k IH]; intros n; [done|]. cbn. rewrite length_app, IH. cbn. apply Nat.add_1_r. Qed.

Lemma num_digits k n : num (digits k n) = n mod 10 ^ Z.of_nat k.
Proof.
  revert n. induction k as [|k IH]; intros n; [by rewrite Z.mod_1_r|].
  unfold num. cbn [digits]. rewrite foldl_app. fold (num (digits k (n / 10))). rewrite IH. cbn [foldl].
  rewrite Nat2Z.inj_succ, Z.pow_succ_r, Z.rem_mul_r by lia. lia.
Qed.

Lemma digits_inj k n n' :
  0 <= n < 10 ^ Z.of_nat k -> 0 <= n' < 10 ^ Z.of_nat k -> digits k n = digits k n' -> n = n'.
Proof. intros H H' E. apply (f_equal num) in E. by rewrite !num_digits, !Z.mod_small in E. Qed.

(** A number of fixed width and what follows. *)
Lemma digits_prefix k n n' r r' :
  0 <= n < 10 ^ Z.of_nat k -> 0 <= n' < 10 ^ Z.of_nat k -> digits k n ++ r = digits k n' ++ r' -> n = n' /\ r = r'.
Proof. intros H H' [E ->]%app_inj_1; [|by rewrite !length_digits]. split; [by eapply digits_inj|done]. Qed.

Lemma drop_zeros_pad l : drop_zeros l ++ replicate (length l - length (drop_zeros l)) 48 = l.
Proof.
  induction l as [|b l IH]; [done|]. cbn [drop_zeros length]. destruct (drop_zeros l) as [|c k] eqn:E.
  - cbn [app length] in IH. rewrite Nat.sub_0_r in IH. destruct (b =? 48) eqn:Eb.
    + apply Z.eqb_eq in Eb as ->. cbn. by rewrite IH.
    + cbn. by rewrite Nat.sub_0_r, IH.
  - cbn [length app]. f_equal. exact IH.
Qed.

Lemma fraction_inj n n' : 0 <= n < GoTime.Second -> 0 <= n' < GoTime.Second -> fraction n = fraction n' -> n = n'.
Proof.
  intros H H' E. apply (digits_inj 9); [exact H|exact H'|].
  assert (drop_zeros (digits 9 n) = drop_zeros (digits 9 n')) as Ed.
  { unfold fraction in E. destruct (drop_zeros (digits 9 n)), (drop_zeros (digits 9 n')); congruence. }
  rewrite <- (drop_zeros_pad (digits 9 n)), <- (drop_zeros_pad (digits 9 n')), Ed. by rewrite !length_digits.
Qed.

(** *** The calendar *)

Definition days_of (ymd : Z * Z * Z) : Z :=
  let '(y, m, d) := ymd in
  let y := if m <=? 2 then y - 1 else y in
  let mp := if m <=? 2 then m + 9 else m - 3 in
  365 * y + y / 4 - y / 100 + y / 400 + (153 * mp + 2) / 5 + d - 1.

Lemma era_spec doe :
  0 <= doe < 146097 ->
  let '(y, m, d) := civil_of_era doe in days_of (y, m, d) = doe /\ 1 <= m <= 12 /\ 1 <= d <= 31.
Proof.
  intros H. unfold civil_of_era. set (n100 := Z.min 3 (doe / 36524)). set (d1 := doe - 36524 * n100).
  assert (0 <= n100 <= 3 /\ 0 <= d1 <= 36524) as [H1 Hd1] by (subst n100 d1; Z.to_euclidean_division_equations; lia).
  set (n4 := d1 / 1461). set (d2 := d1 - 1461 * n4).
  assert (0 <= n4 <= 24 /\ 0 <= d2 <= 1460) as [H4 Hd2] by (subst n4 d2; Z.to_euclidean_division_equations; lia).
  set (n1 := Z.min 3 (d2 / 365)). set (doy := d2 - 365 * n1).
  assert (0 <= n1 <= 3 /\ 0 <= doy <= 365) as [Hn1 Hdoy] by (subst n1 doy; Z.to_euclidean_division_equations; lia).
  assert (doe = 36524 * n100 + 1461 * n4 + 365 * n1 + doy) as Hdoe by (subst doy d2 d1; lia).
  clearbody n100 n4 n1 doy. clear d1 d2 Hd1 Hd2 H.
  set (y := 100 * n100 + 4 * n4 + n1). assert (0 <= y < 400) by (subst y; lia).
  assert (y / 4 = 25 * n100 + n4 /\ y / 100 = n100 /\ y / 400 = 0) as (Hy4 & Hy100 & Hy400)
    by (subst y; Z.to_euclidean_division_equations; lia).
  set (mp := (5 * doy + 2) / 153). set (d := doy - (153 * mp + 2) / 5 + 1).
  assert (0 <= mp <= 11 /\ 1 <= d <= 31) as [Hmp Hd] by (subst d mp; Z.to_euclidean_division_equations; lia).
  assert ((153 * mp + 2) / 5 + d - 1 = doy) as Hback by (subst d; lia). clearbody mp d.
  unfold days_of. destruct (mp <? 10) eqn:E; [apply Z.ltb_lt in E|apply Z.ltb_ge in E].
  - rewrite !(proj2 (Z.leb_gt (mp + 3) 2)) by lia. replace (mp + 3 - 3) with mp by lia.
    rewrite Hy4, Hy100, Hy400. subst y. lia.
  - rewrite !(proj2 (Z.leb_le (mp - 9) 2)) by lia. replace (mp - 9 + 9) with mp by lia. replace (y + 1 - 1) with y by lia.
    rewrite Hy4, Hy100, Hy400. subst y. lia.
Qed.

Lemma days_of_era y m d e : days_of (y + 400 * e, m, d) = days_of (y, m, d) + 146097 * e.
Proof.
  unfold days_of. destruct (m <=? 2).
  - replace (y + 400 * e - 1) with (y - 1 + 400 * e) by lia.
    replace (y - 1 + 400 * e) with (y - 1 + e * 100 * 4) at 2 by lia. rewrite Z.div_add by lia.
    replace (y - 1 + 400 * e) with (y - 1 + e * 4 * 100) at 2 by lia. rewrite Z.div_add by lia.
    replace (y - 1 + 400 * e) with (y - 1 + e * 400) at 2 by lia. rewrite Z.div_add by lia. lia.
  - replace (y + 400 * e) with (y + e * 100 * 4) at 2 by lia. rewrite Z.div_add by lia.
    replace (y + 400 * e) with (y + e * 4 * 100) at 2 by lia. rewrite Z.div_add by lia.
    replace (y + 400 * e) with (y + e * 400) at 2 by lia. rewrite Z.div_add by lia. lia.
Qed.

Lemma Date_spec t :
  days_of (Date t) = t / Day + 306 /\ 1 <= (Date t).1.2 <= 12 /\ 1 <= (Date t).2 <= 31.
Proof.
  unfold Date. set (z := t / Day + 306). pose proof (Z.mod_pos_bound z 146097 eq_refl) as Hz.
  pose proof (era_spec _ Hz) as Hok. destruct (civil_of_era (z mod 146097)) as [[y m] d]. cbn [fst snd]. rewrite days_of_era.
  assert (z = 146097 * (z / 146097) + z mod 146097) by (by apply Z.div_mod). split_and!; lia.
Qed.

Lemma clock_parts s :
  s = s / GoTime.Hour * GoTime.Hour + s / GoTime.Minute mod 60 * GoTime.Minute +
      s / GoTime.Second mod 60 * GoTime.Second + s mod GoTime.Second.
Proof.
  unfold GoTime.Hour, GoTime.Minute, GoTime.Second. Z.to_euclidean_division_equations. lia.
Qed.

Lemma RFC3339Nano_inj t t' : year_ok t = true -> year_ok t' = true -> RFC3339Nano t = RFC3339Nano t' -> t = t'.
Proof.
  intros Hy Hy'. unfold RFC3339Nano. destruct (Date_spec t) as (Hd & Hm & Hday), (Date_spec t') as (Hd' & Hm' & Hday').
  unfold year_ok, between in Hy, Hy'. bool_simpl. destruct (Date t) as [[y m] d], (Date t') as [[y' m'] d']. cbn [fst snd] in *.
  assert (forall s, 0 <= s mod Day < Day) as Hs by (intros; by apply Z.mod_pos_bound).
  assert (forall s, 0 <= s mod 60 < 10 ^ Z.of_nat 2) as Hsixty by (intros s; change (10 ^ Z.of_nat 2) with 100; pose proof (Z.mod_pos_bound s 60 eq_refl); lia).
  assert (forall s, 0 <= s mod Day / GoTime.Hour < 10 ^ Z.of_nat 2) as Hhour.
  { intros s. specialize (Hs s). change (10 ^ Z.of_nat 2) with 100. unfold Day, GoTime.Hour, GoTime.Minute, GoTime.Second in *.
    split; [apply Z.div_pos; lia|]. apply Z.div_lt_upper_bound; lia. }
  assert (forall s, 0 <= s mod GoTime.Second < GoTime.Second) as Hsec by (intros; by apply Z.mod_pos_bound).
  intros E.
  apply digits_prefix in E as [-> E]; [|change (10 ^ Z.of_nat 4) with 10000; lia..].
  apply app_inv_head, digits_prefix in E as [-> E]; [|change (10 ^ Z.of_nat 2) with 100; lia..].
  apply app_inv_head, digits_prefix in E as [-> E]; [|change (10 ^ Z.of_nat 2) with 100; lia..].
  apply app_inv_head, digits_prefix in E as [Eh E]; [|apply Hhour..].
  apply app_inv_head, digits_prefix in E as [Em E]; [|apply Hsixty..].
  apply app_inv_head, digits_prefix in E as [Es E]; [|apply Hsixty..].
  apply app_inv_tail, fraction_inj in E; [|apply Hsec..].
  rewrite (Z.div_mod t Day), (Z.div_mod t' Day) by done.
  rewrite (clock_parts (t mod Day)), (clock_parts (t' mod Day)), Eh, Em, Es, E. lia.
Qed.

(** *** As text *)

Definition ascii_byte (b : Z) : Prop := 0 <= b < 128.

Lemma digits_ascii k n : Forall ascii_byte (digits k n).
Proof.
  revert n. induction k as [|k IH]; intros n; [constructor|]. cbn. apply Forall_app. split; [apply IH|].
  constructor; [|constructor]. unfold ascii_byte. pose proof (Z.mod_pos_bound n 10 eq_refl). lia.
Qed.

Lemma drop_zeros_ascii l : Forall ascii_byte l -> Forall ascii_byte (drop_zeros l).
Proof.
  induction 1 as [|b l Hb _ IH]; [constructor|]. cbn. destruct (drop_zeros l); [|by constructor].
  destruct (b =? 48); repeat constructor; apply Hb.
Qed.

Lemma RFC3339Nano_ascii t : Forall ascii_byte (RFC3339Nano t).
Proof.
  unfold RFC3339Nano. destruct (Date t) as [[y m] d].
  assert (forall b, ascii_byte b -> Forall ascii_byte [b]) as H1 by (repeat constructor; apply H).
  rewrite !Forall_app. split_and!; try apply digits_ascii; try (apply H1; unfold ascii_byte; lia).
  unfold fraction. pose proof (drop_zeros_ascii _ (digits_ascii 9 (t mod Day mod GoTime.Second))) as Hz.
  destruct (drop_zeros _); [constructor|]. constructor; [unfold ascii_byte; lia|done].
Qed.

Lemma time_text_bytes t : string_bytes (time_text t) = RFC3339Nano t.
Proof.
  apply string_bytes_of. eapply Forall_impl; [apply RFC3339Nano_ascii|]. unfold ascii_byte. intros b Hb. cbn in Hb. lia.
Qed.

Lemma time_text_inj t t' : year_ok t = true -> year_ok t' = true -> time_text t = time_text t' -> t = t'.
Proof. intros H H' E. apply (f_equal string_bytes) in E. rewrite !time_text_bytes in E. by apply RFC3339Nano_inj. Qed.

Lemma ascii_tokens l : Forall ascii_byte l -> Bad ∉ tokens l 0.
Proof.
  induction 1 as [|b l Hb _ IH]; cbn [tokens]; [apply not_elem_of_nil|].
  rewrite (proj2 (Z.ltb_lt b 128)) by apply Hb. set_solver.
Qed.

Lemma time_text_utf8 t : utf8 (time_text t).
Proof. unfold utf8. rewrite time_text_bytes. apply ascii_tokens, RFC3339Nano_ascii. Qed.
