(* ===== verification/AuditChain.v ===== *)
(** * AuditChain: the hash chain of the audit log
    (platform/audit/auditspi/event.go; the chainer and the verifiers of
    platform/audit/chainer.go).

    An event is stamped with the hash of the one before it and with a SHA-256 of its
    own JSON, the storage id and the hash itself left out. *)
From S2P Require Import Prelude Crypto Issue Json.
Local Open Scope Z_scope.

(** ** Events *)

Record Event := {
  ev_ID : string;
  ev_Type : string;
  ev_Outcome : string;
  ev_Timestamp : Z;
  ev_RequestID : string;
  ev_TraceID : string;
  ev_SpanID : string;
  ev_ParentSpanID : string;
  ev_ActorID : string;
  ev_ActorIP : string;
  ev_UserAgent : string;
  ev_ClientID : string;
  ev_TenantID : string;
  ev_Provider : string;
  ev_TokenStrategy : string;
  ev_SessionID : string;
  ev_TokenID : string;
  ev_Reason : string;
  ev_Metadata : gmap string string;
  ev_PrevHash : string;
  ev_Hash : string;
  ev_ServerVersion : string;
}.
Implicit Types (e : Event).

#[export] Instance Event_eq_dec : EqDecision Event.
Proof. solve_decision. Defined.

(** The event under a new id, time, predecessor and hash. *)
Definition restamped e (id : string) (ts : Z) (prevHash hash : string) : Event := {|
  ev_ID := id; ev_Type := ev_Type e; ev_Outcome := ev_Outcome e; ev_Timestamp := ts; ev_RequestID := ev_RequestID e;
  ev_TraceID := ev_TraceID e; ev_SpanID := ev_SpanID e; ev_ParentSpanID := ev_ParentSpanID e; ev_ActorID := ev_ActorID e;
  ev_ActorIP := ev_ActorIP e; ev_UserAgent := ev_UserAgent e; ev_ClientID := ev_ClientID e; ev_TenantID := ev_TenantID e;
  ev_Provider := ev_Provider e; ev_TokenStrategy := ev_TokenStrategy e; ev_SessionID := ev_SessionID e;
  ev_TokenID := ev_TokenID e; ev_Reason := ev_Reason e; ev_Metadata := ev_Metadata e; ev_PrevHash := prevHash;
  ev_Hash := hash; ev_ServerVersion := ev_ServerVersion e |}.

Definition with_ID e (id : string) : Event := restamped e id (ev_Timestamp e) (ev_PrevHash e) (ev_Hash e).

(** What the hash covers. *)
Definition canonical e : Event := restamped e "" (ev_Timestamp e) (ev_PrevHash e) "".

(** *** The JSON of an event *)

Definition omitempty (s : string) : option jval := if decide (s = "") then None else Some (JStr s).

(** A map is written in the order of its keys. *)
Definition entries (m : gmap string string) : list (string * string) := merge_sort (key_le fst) (map_to_list m).
Definition omitempty_map (m : gmap string string) : option jval := if decide (m = ∅) then None else Some (JMap (entries m)).

Definition slots e : list (string * option jval) :=
  [("id", Some (JStr (ev_ID e))); ("type", Some (JStr (ev_Type e))); ("outcome", Some (JStr (ev_Outcome e)));
   ("timestamp", Some (JStr (time_text (ev_Timestamp e))));
   ("request_id", omitempty (ev_RequestID e)); ("trace_id", omitempty (ev_TraceID e)); ("span_id", omitempty (ev_SpanID e));
   ("parent_span_id", omitempty (ev_ParentSpanID e)); ("actor_id", omitempty (ev_ActorID e));
   ("actor_ip", omitempty (ev_ActorIP e)); ("user_agent", omitempty (ev_UserAgent e)); ("client_id", omitempty (ev_ClientID e));
   ("tenant_id", omitempty (ev_TenantID e)); ("provider", omitempty (ev_Provider e));
   ("token_strategy", omitempty (ev_TokenStrategy e)); ("session_id", omitempty (ev_SessionID e));
   ("token_id", omitempty (ev_TokenID e)); ("reason", omitempty (ev_Reason e)); ("metadata", omitempty_map (ev_Metadata e));
   ("prev_hash", omitempty (ev_PrevHash e)); ("hash", omitempty (ev_Hash e)); ("server_version", omitempty (ev_ServerVersion e))].

(** The members written. *)
Definition present (l : list (string * option jval)) : list (string * jval) :=
  omap (fun s => v ← s.2; Some (s.1, v)) l.

(** [json.Marshal] fails on a time it cannot write. *)
Definition Marshal e : option bytes :=
  if year_ok (ev_Timestamp e) then Some (document (present (slots e))) else None.

(** An encoding error is ignored: the hash is then that of no bytes. *)
Definition encoding e : bytes := default [] (Marshal (canonical e)).
Definition eventHash e : string := hex_string (SHA256.Sum256 (encoding e)).

(** ** The chainer *)

Record chainer := { ch_prevHash : string; ch_lastTS : Z }.

Definition seed (prev : string) (c : chainer) : chainer := {| ch_prevHash := prev; ch_lastTS := ch_lastTS c |}.

Definition stamp (c : chainer) e : chainer * Event :=
  let ts := if GoTime.After (ev_Timestamp e) (ch_lastTS c) then ev_Timestamp e else GoTime.Add (ch_lastTS c) 1 in
  let e := restamped e (ev_ID e) ts (ch_prevHash c) (ev_Hash e) in
  let e := restamped e (ev_ID e) ts (ch_prevHash c) (eventHash e) in
  ({| ch_prevHash := ev_Hash e; ch_lastTS := ts |}, e).

(** ** Verification *)

Definition GenesisHash : string := "".

Inductive chain_error :=
| NilEvent (index : nat)
| ChainBreak (index : nat)
| HashMismatch (index : nat).

(** A slice of events may hold nil pointers. *)
Fixpoint verifyChainFrom (i : nat) (events : list (option Event)) (prev : string) : option chain_error :=
  match events with
  | [] => None
  | None :: _ => Some (NilEvent i)
  | Some e :: events =>
      if negb (bool_decide (ev_PrevHash e = prev)) then Some (ChainBreak i)
      else if negb (bool_decide (ev_Hash e = eventHash e)) then Some (HashMismatch i)
      else verifyChainFrom (S i) events (ev_Hash e)
  end.

Definition VerifyChain (events : list (option Event)) : option chain_error := verifyChainFrom 0 events GenesisHash.
Definition VerifyChainSegment (events : list (option Event)) (expectedPrevHash : string) : option chain_error :=
  verifyChainFrom 0 events expectedPrevHash.

Fixpoint verify_each (i : nat) (events : list (option Event)) : option chain_error :=
  match events with
  | [] => None
  | None :: _ => Some (NilEvent i)
  | Some e :: events =>
      if negb (bool_decide (ev_Hash e = eventHash e)) then Some (HashMismatch i) else verify_each (S i) events
  end.
Definition VerifyEventIntegrity (events : list (option Event)) : option chain_error := verify_each 0 events.

(** ** The encoding covers the event *)

Lemma hex_string_inj l l' : Forall is_octet l -> Forall is_octet l' -> hex_string l = hex_string l' -> l = l'.
Proof.
  intros H H' E. apply (f_equal Str.to_list) in E. unfold hex_string in E. rewrite !Str.to_of_list in E.
  assert (forall x, 0 <= x < 16 -> Str.byte (hex_digit x) = if x <? 10 then x + 48 else x + 87) as Hd.
  { intros x Hx. assert (x ∈ seqZ 0 16) as Hin by (apply elem_of_seqZ; lia). revert Hin.
    assert (Forall (fun x => Str.byte (hex_digit x) = if x <? 10 then x + 48 else x + 87) (seqZ 0 16)) as Hf
      by (apply (bool_decide_eq_true_1 (Forall _ _)); vm_compute; reflexivity).
    rewrite Forall_forall in Hf. by apply Hf. }
  assert (forall x y, 0 <= x < 16 -> 0 <= y < 16 -> hex_digit x = hex_digit y -> x = y) as Hinj.
  { intros x y Hx Hy Heq. apply (f_equal Str.byte) in Heq. rewrite !Hd in Heq by done. repeat split_if; lia. }
  revert l' H' E. induction H as [|b l Hb _ IH]; intros l' [|b' k Hb' Hk] E; [done|done|done|].
  cbn in E. injection E as E1 E2 E. f_equal; [|by apply IH].
  assert (forall c, is_octet c -> 0 <= Z.shiftr c 4 < 16 /\ 0 <= Z.land c 15 < 16 /\ c = 16 * Z.shiftr c 4 + Z.land c 15) as Hp.
  { intros c Hc. unfold is_octet in Hc. change 15 with (Z.ones 4). rewrite Z.land_ones, Z.shiftr_div_pow2 by lia.
    change (2 ^ 4) with 16. Z.to_euclidean_division_equations. lia. }
  destruct (Hp b Hb) as (? & ? & ->), (Hp b' Hb') as (? & ? & ->). apply Hinj in E1, E2; [lia|done..].
Qed.

Lemma present_cons n v l : present ((n, v) :: l) = match v with Some v => [(n, v)] | None => [] end ++ present l.
Proof. by destruct v. Qed.

Lemma present_names l : (present l).*1 ⊆ l.*1.
Proof.
  induction l as [|[n v] l IH]; [done|]. rewrite present_cons. destruct v; set_solver.
Qed.

Lemma present_inj l l' : l.*1 = l'.*1 -> NoDup l.*1 -> present l = present l' -> l = l'.
Proof.
  revert l'. induction l as [|[n v] l IH]; intros [|[n' v'] l'] Hn Hnd E; try done.
  cbn [fmap list_fmap fst] in Hn, Hnd. injection Hn as <- Hn. apply NoDup_cons in Hnd as [Hnot Hnd].
  assert (n ∉ (present l).*1) as H1 by (intros H; by apply Hnot, present_names).
  assert (n ∉ (present l').*1) as H2 by (intros H; apply Hnot; rewrite Hn; by apply present_names).
  rewrite !present_cons in E. destruct v as [v|], v' as [v'|]; cbn [app] in E.
  - injection E as <- E. f_equal. by apply IH.
  - exfalso. apply H2. rewrite <- E. left.
  - exfalso. apply H1. rewrite E. left.
  - f_equal. by apply IH.
Qed.

Lemma omitempty_inj s s' : omitempty s = omitempty s' -> s = s'.
Proof. unfold omitempty. repeat case_decide; congruence. Qed.

Lemma entries_inj m m' : entries m = entries m' -> m = m'.
Proof.
  intros E. unfold entries in E. rewrite <- (list_to_map_to_list m), <- (list_to_map_to_list m').
  apply list_to_map_proper; [apply NoDup_fst_map_to_list|].
  rewrite <- (merge_sort_Permutation (key_le fst) (map_to_list m)), E. apply merge_sort_Permutation.
Qed.

Lemma omitempty_map_inj m m' : omitempty_map m = omitempty_map m' -> m = m'.
Proof. unfold omitempty_map. repeat case_decide; try congruence. intros [= E]. by apply entries_inj. Qed.


Lemma restamped_id e : restamped e (ev_ID e) (ev_Timestamp e) (ev_PrevHash e) (ev_Hash e) = e.
Proof. by destruct e. Qed.

Lemma slots_inj e e' :
  year_ok (ev_Timestamp e) = true -> year_ok (ev_Timestamp e') = true -> slots e = slots e' -> e = e'.
Proof.
  intros Hy Hy' E. unfold slots in E.
  remember (time_text (ev_Timestamp e)) as T eqn:HT. remember (time_text (ev_Timestamp e')) as T' eqn:HT'.
  injection E as E1 E2 E3 E4 E5 E6 E7 E8 E9 E10 E11 E12 E13 E14 E15 E16 E17 E18 E19 E20 E21 E22.
  rewrite HT, HT' in E4. apply time_text_inj in E4; [|done..]. apply omitempty_map_inj in E19.
  repeat match goal with H : omitempty _ = omitempty _ |- _ => apply omitempty_inj in H end.
  clear HT HT' Hy Hy'. rewrite <- (restamped_id e), <- (restamped_id e'). unfold restamped. by f_equal.
Qed.

(** Every text of the event is UTF-8 and its time can be written. *)
Definition encodable e : Prop :=
  year_ok (ev_Timestamp e) = true /\ Forall (fun s => jval_utf8 (default (JStr "") s.2)) (slots (canonical e)).
#[export] Instance encodable_dec e : Decision (encodable e).
Proof. unfold encodable. apply _. Defined.

Lemma slots_names e : Forall utf8 (slots e).*1 /\ NoDup (slots e).*1.
Proof.
  change (slots e).*1 with ["id"; "type"; "outcome"; "timestamp"; "request_id"; "trace_id"; "span_id"; "parent_span_id";
    "actor_id"; "actor_ip"; "user_agent"; "client_id"; "tenant_id"; "provider"; "token_strategy"; "session_id"; "token_id";
    "reason"; "metadata"; "prev_hash"; "hash"; "server_version"].
  split; [apply (bool_decide_eq_true_1 (Forall _ _))|apply (bool_decide_eq_true_1 (NoDup _))]; vm_compute; reflexivity.
Qed.

Lemma present_utf8 l :
  Forall utf8 l.*1 -> Forall (fun s => jval_utf8 (default (JStr "") s.2)) l ->
  Forall (fun f => utf8 f.1 /\ jval_utf8 f.2) (present l).
Proof.
  induction l as [|[n v] l IH]; [constructor|]. intros [Hn Hns]%Forall_cons [Hv Hvs]%Forall_cons. rewrite present_cons.
  apply Forall_app. split; [|by apply IH]. destruct v; repeat constructor; [apply Hn|apply Hv].
Qed.

Lemma encoding_inj e e' : encodable e -> encoding e = encoding e' -> canonical e = canonical e'.
Proof.
  intros [Hy Hu]. unfold encoding, Marshal. change (ev_Timestamp (canonical e)) with (ev_Timestamp e). rewrite Hy.
  destruct (year_ok (ev_Timestamp (canonical e'))) eqn:Hy'; cbn [default from_option id]; [|intros E; discriminate E].
  intros E. apply document_inj in E; [|by apply present_utf8; [apply slots_names|]].
  apply present_inj in E; [|done|apply slots_names]. by apply slots_inj.
Qed.

(** Two events whose encodings differ and have the same digest. *)
Definition collide e e' : Prop :=
  encoding e <> encoding e' /\ SHA256.Sum256 (encoding e) = SHA256.Sum256 (encoding e').

Lemma eventHash_inj e e' : encodable e -> eventHash e = eventHash e' -> canonical e = canonical e' \/ collide e e'.
Proof.
  intros He E. apply hex_string_inj in E; [|eapply Forall_impl; [apply Sum256_bytes|done]..].
  destruct (decide (encoding e = encoding e')) as [Heq|Hne]; [left; by apply encoding_inj|right; done].
Qed.

Lemma eventHash_genesis e : eventHash e <> GenesisHash.
Proof.
  assert (forall st kw, length st = 8%nat -> length (SHA256.round st kw) = 8%nat) as Hr.
  { intros st kw H. by do 9 (destruct st as [|? st]; [try discriminate H|]). }
  assert (forall kws st, length st = 8%nat -> length (foldl SHA256.round st kws) = 8%nat) as Hf.
  { induction kws as [|kw kws IH]; intros st H; [done|]. cbn. by apply IH, Hr. }
  assert (forall n st ws, length st = 8%nat -> length (SHA256.blocks n st ws) = 8%nat) as Hb.
  { induction n as [|n IH]; intros st ws H; [done|]. cbn [SHA256.blocks]. apply IH. unfold SHA256.block.
    rewrite length_zip_with, Hf, H by done. done. }
  intros E. apply (f_equal Str.to_list) in E. unfold eventHash, hex_string, SHA256.Sum256 in E. rewrite Str.to_of_list in E.
  match type of E with context [SHA256.blocks ?n ?st ?ws] => pose proof (Hb n st ws eq_refl) as Hlen;
    destruct (SHA256.blocks n st ws) end; [done|]. cbn in E. discriminate E.
Qed.

(** ** Chains *)

Fixpoint linked (prev : string) (es : list Event) : Prop :=
  match es with
  | [] => True
  | e :: es => ev_PrevHash e = prev /\ ev_Hash e = eventHash e /\ linked (ev_Hash e) es
  end.

Definition head_hash (prev : string) (es : list Event) : string :=
  match last es with Some e => ev_Hash e | None => prev end.

Lemma verifyChainFrom_cons i e events prev :
  verifyChainFrom i (Some e :: events) prev = None <->
  ev_PrevHash e = prev /\ ev_Hash e = eventHash e /\ verifyChainFrom (S i) events (ev_Hash e) = None.
Proof.
  cbn [verifyChainFrom]. destruct (bool_decide (ev_PrevHash e = prev)) eqn:H1; [|bool_simpl; split; [done|tauto]].
  destruct (bool_decide (ev_Hash e = eventHash e)) eqn:H2; bool_simpl; [cbn [negb]; tauto|split; [done|tauto]].
Qed.

Lemma verifyChainFrom_spec i events prev :
  verifyChainFrom i events prev = None <-> exists es, events = Some <$> es /\ linked prev es.
Proof.
  revert i prev. induction events as [|[e|] events IH]; intros i prev.
  - split; [by exists []|done].
  - rewrite verifyChainFrom_cons, IH. split.
    + intros (H1 & H2 & es & -> & H). by exists (e :: es).
    + intros (l & E & H). destruct l as [|e' es]; [discriminate E|]. injection E as -> ->.
      destruct H as (H1 & H2 & H3). split_and!; [done..|by exists es].
  - split; [done|]. intros (l & E & _). by destruct l.
Qed.

Lemma head_hash_snoc prev es e : head_hash prev (es ++ [e]) = ev_Hash e.
Proof. unfold head_hash. by rewrite last_snoc. Qed.

Lemma head_hash_cons prev e es : head_hash prev (e :: es) = head_hash (ev_Hash e) es.
Proof. unfold head_hash. destruct es as [|e' es]; [done|]. cbn [last]. by destruct (last (e' :: es)) eqn:E; [|by apply last_None in E]. Qed.

Lemma head_hash_app prev es es' : head_hash prev (es ++ es') = head_hash (head_hash prev es) es'.
Proof.
  revert prev. induction es as [|e es IH]; intros prev; [done|]. change ((e :: es) ++ es') with (e :: (es ++ es')).
  by rewrite !head_hash_cons, IH.
Qed.

Lemma linked_app prev es es' : linked prev (es ++ es') <-> linked prev es /\ linked (head_hash prev es) es'.
Proof.
  revert prev. induction es as [|e es IH]; intros prev; cbn [app linked]; [tauto|]. rewrite head_hash_cons, IH. tauto.
Qed.

(** The same record, but for the storage id. *)
Definition same_record e e' : Prop := e' = with_ID e (ev_ID e').

Lemma same_record_canonical e e' : canonical e = canonical e' -> ev_Hash e = ev_Hash e' -> same_record e e'.
Proof.
  intros Hc Hh. unfold same_record, with_ID. rewrite <- (restamped_id e') at 1. unfold canonical, restamped in *.
  injection Hc. intros. by f_equal.
Qed.

Lemma tamper es es' :
  Forall encodable es -> linked GenesisHash es -> linked GenesisHash es' ->
  head_hash GenesisHash es = head_hash GenesisHash es' ->
  Forall2 same_record es es' \/ exists e e', e ∈ es /\ e' ∈ es' /\ collide e e'.
Proof.
  revert es'. induction es as [|e es IH] using rev_ind; intros es' Henc Hl Hl' Hh.
  - destruct es' as [|e' es' _] using rev_ind; [left; constructor|]. rewrite head_hash_snoc in Hh.
    apply linked_app in Hl' as (_ & _ & He & _). rewrite He in Hh. by destruct (eventHash_genesis e').
  - apply linked_app in Hl as (Hl & Hp & He & _). rewrite head_hash_snoc in Hh.
    destruct es' as [|e' es' _] using rev_ind.
    + cbn in Hh. rewrite He in Hh. by destruct (eventHash_genesis e).
    + apply linked_app in Hl' as (Hl' & Hp' & He' & _). rewrite head_hash_snoc in Hh.
      apply Forall_app in Henc as [Henc [Hen _]%Forall_cons].
      assert (eventHash e = eventHash e') as Heq by congruence.
      apply eventHash_inj in Heq as [Hc|Hc]; [|right; exists e, e'; set_solver|done].
      assert (ev_PrevHash e = ev_PrevHash e') as Hpp by (by apply (f_equal ev_PrevHash) in Hc).
      destruct (IH es') as [IH'|(a & b & ? & ? & ?)]; [done|done|done|congruence| |right; exists a, b; set_solver].
      left. apply Forall2_app; [done|]. constructor; [by apply same_record_canonical|constructor].
Qed.

(** The hash of the last event of a list that may hold nil pointers. *)
Definition head_of (events : list (option Event)) : string :=
  match last events with Some (Some e) => ev_Hash e | _ => GenesisHash end.

Lemma head_of_fmap es : head_of (Some <$> es) = head_hash GenesisHash es.
Proof. unfold head_of, head_hash. rewrite fmap_last. by destruct (last es). Qed.

(** C35 — the log is tamper-evident: take a chain that verifies from genesis and whose
    events are made of UTF-8 text and times of four-digit years.  Any list of events
    that verifies and ends in the same hash is that chain, event by event, but for the
    storage ids, unless two of the events involved are a SHA-256 collision.  So no event
    can be altered, dropped, added or moved without changing the head. *)
Theorem chain_tamper_evident es events :
  Forall encodable es -> VerifyChain (Some <$> es) = None ->
  VerifyChain events = None -> head_of events = head_of (Some <$> es) ->
  exists es', events = Some <$> es' /\
    (Forall2 same_record es es' \/ exists e e', e ∈ es /\ e' ∈ es' /\ collide e e').
Proof.
  intros Henc H H' Hh. apply verifyChainFrom_spec in H as (es0 & E & Hl). apply list_fmap_eq_inj in E as <-; [|congruence].
  apply verifyChainFrom_spec in H' as (es' & -> & Hl'). exists es'. split; [done|].
  rewrite !head_of_fmap in Hh. by apply tamper.
Qed.

(** ** What the chainer writes *)

Fixpoint stamp_all (c : chainer) (es : list Event) : chainer * list Event :=
  match es with
  | [] => (c, [])
  | e :: es => let '(c, e) := stamp c e in let '(c, es) := stamp_all c es in (c, e :: es)
  end.

(** What stamping keeps of an event. *)
Definition stamped_from e e' : Prop :=
  e' = restamped e (ev_ID e) (ev_Timestamp e') (ev_PrevHash e') (ev_Hash e').

Lemma eventHash_ignores e id hash : eventHash (restamped e id (ev_Timestamp e) (ev_PrevHash e) hash) = eventHash e.
Proof.
  assert (canonical (restamped e id (ev_Timestamp e) (ev_PrevHash e) hash) = canonical e) as Hc by reflexivity.
  unfold eventHash, encoding. by rewrite Hc.
Qed.

Lemma stamp_spec c e :
  let '(c', e') := stamp c e in
  stamped_from e e' /\ ev_PrevHash e' = ch_prevHash c /\ ev_Hash e' = eventHash e' /\
  ch_prevHash c' = ev_Hash e' /\ ch_lastTS c' = ev_Timestamp e' /\ ch_lastTS c < ev_Timestamp e'.
Proof.
  unfold stamp. set (ts := if GoTime.After _ _ then _ else _).
  set (e1 := restamped e (ev_ID e) ts (ch_prevHash c) (ev_Hash e)).
  pose proof (eventHash_ignores e1 (ev_ID e) (eventHash e1)) as Hh. cbn [e1 restamped ev_Timestamp ev_PrevHash] in Hh.
  change (restamped e1 (ev_ID e) ts (ch_prevHash c) (eventHash e1)) with (restamped e (ev_ID e) ts (ch_prevHash c) (eventHash e1)) in *.
  generalize dependent (eventHash e1). intros h Hh. split_and!; [done|done|by symmetry|done|done|].
  cbn [restamped ev_Timestamp]. unfold ts, GoTime.After, GoTime.Add.
  destruct (ch_lastTS c <? ev_Timestamp e) eqn:E; [by apply Z.ltb_lt|lia].
Qed.

Lemma stamp_all_spec c es :
  let '(c', es') := stamp_all c es in
  Forall2 stamped_from es es' /\ linked (ch_prevHash c) es' /\ ch_prevHash c' = head_hash (ch_prevHash c) es' /\
  StronglySorted Z.lt (ch_lastTS c :: (ev_Timestamp <$> es')).
Proof.
  revert c. induction es as [|e es IH]; intros c; cbn [stamp_all].
  - split_and!; [constructor|done|done|repeat constructor].
  - pose proof (stamp_spec c e) as Hs. destruct (stamp c e) as [c1 e1]. destruct Hs as (H1 & H2 & H3 & H4 & H5 & H6).
    specialize (IH c1). destruct (stamp_all c1 es) as [c2 es2]. destruct IH as (I1 & I2 & I3 & I4). rewrite H4 in I2, I3.
    split_and!; [by constructor|done|by rewrite head_hash_cons|].
    rewrite H5 in I4. cbn [fmap list_fmap]. constructor; [done|]. constructor; [done|].
    apply StronglySorted_inv in I4 as [_ I4]. eapply Forall_impl; [exact I4|]. cbn. lia.
Qed.

(** A process starts a chainer at the head of the store. *)
Definition process (tip : string) (es : list Event) : list Event :=
  (stamp_all (seed tip {| ch_prevHash := GenesisHash; ch_lastTS := 0 |}) es).2.

Fixpoint lifetime (tip : string) (runs : list (list Event)) : list Event :=
  match runs with
  | [] => []
  | es :: runs => process tip es ++ lifetime (head_hash tip (process tip es)) runs
  end.

Lemma process_spec tip es :
  Forall2 stamped_from es (process tip es) /\ linked tip (process tip es) /\
  StronglySorted Z.lt (ev_Timestamp <$> process tip es).
Proof.
  unfold process. pose proof (stamp_all_spec (seed tip {| ch_prevHash := GenesisHash; ch_lastTS := 0 |}) es) as H.
  destruct (stamp_all _ es) as [c' es']. destruct H as (H1 & H2 & _ & H3). split_and!; [done|done|].
  by apply StronglySorted_inv in H3 as [? _].
Qed.

Lemma lifetime_linked tip runs : linked tip (lifetime tip runs).
Proof.
  revert tip. induction runs as [|es runs IH]; intros tip; [done|]. cbn [lifetime]. apply linked_app.
  split; [apply process_spec|apply IH].
Qed.

(** what is recorded verifies: whatever events any number of processes stamp one
    after the other, each starting at the head the last one left, the log verifies from
    genesis, and from any point of it as a segment; within a process the times are
    strictly increasing, and an event keeps everything but its time and its hashes. *)
Theorem recorded_chain_verifies runs es :
  VerifyChain (Some <$> lifetime GenesisHash runs) = None /\
  (forall before after, lifetime GenesisHash runs = before ++ after ->
    VerifyChainSegment (Some <$> after) (head_of (Some <$> before)) = None) /\
  VerifyEventIntegrity (Some <$> lifetime GenesisHash runs) = None /\
  Forall2 stamped_from es (process (head_hash GenesisHash (lifetime GenesisHash runs)) es) /\
  StronglySorted Z.lt (ev_Timestamp <$> process (head_hash GenesisHash (lifetime GenesisHash runs)) es).
Proof.
  pose proof (lifetime_linked GenesisHash runs) as Hl. split_and!.
  - apply verifyChainFrom_spec. by eexists.
  - intros before after E. rewrite E in Hl. apply linked_app in Hl as [_ Hl]. apply verifyChainFrom_spec.
    exists after. split; [done|]. by rewrite head_of_fmap.
  - unfold VerifyEventIntegrity. revert Hl. generalize GenesisHash at 1. generalize 0%nat.
    induction (lifetime GenesisHash runs) as [|e l IH]; intros i tip Hl; [done|]. destruct Hl as (_ & Hh & Hl).
    cbn [fmap list_fmap verify_each]. rewrite bool_decide_true by done. cbn [negb]. by eapply IH.
  - apply process_spec.
  - apply process_spec.
Qed.

(** ** Witnesses *)

Definition login : Event := {|
  ev_ID := ""; ev_Type := "login"; ev_Outcome := "success"; ev_Timestamp := 1000 * Day; ev_RequestID := "r1"; ev_TraceID := "";
  ev_SpanID := ""; ev_ParentSpanID := ""; ev_ActorID := "ann"; ev_ActorIP := ""; ev_UserAgent := ""; ev_ClientID := "";
  ev_TenantID := ""; ev_Provider := ""; ev_TokenStrategy := ""; ev_SessionID := ""; ev_TokenID := ""; ev_Reason := "";
  ev_Metadata := {["k" := "v"]}; ev_PrevHash := ""; ev_Hash := ""; ev_ServerVersion := "" |}.

Definition two_events : list Event := process GenesisHash [login; restamped login "" (1000 * Day) "" ""].

Lemma chain_tamper_evident_witness :
  Forall2 same_record two_events ((fun e => with_ID e "x") <$> two_events) \/
  exists e e', e ∈ two_events /\ e' ∈ ((fun e => with_ID e "x") <$> two_events) /\ collide e e'.
Proof.
  destruct (chain_tamper_evident two_events (Some <$> ((fun e => with_ID e "x") <$> two_events)))
    as (es' & E & Hes).
  - apply (bool_decide_eq_true_1 (Forall encodable two_events)). vm_compute. reflexivity.
  - vm_compute. reflexivity.
  - vm_compute. reflexivity.
  - vm_compute. reflexivity.
  - apply list_fmap_eq_inj in E; [|congruence]. rewrite E. exact Hes.
Defined.

(** Two processes, the second with one event. *)
Lemma recorded_chain_verifies_witness :
  VerifyChainSegment (Some <$> process (head_hash GenesisHash two_events) [login]) (head_of (Some <$> two_events)) = None.
Proof.
  destruct (recorded_chain_verifies [[login; restamped login "" (1000 * Day) "" ""]; [login]] []) as (_ & Hseg & _).
  apply (Hseg two_events). unfold two_events. cbn [lifetime]. rewrite app_nil_r. reflexivity.
Defined.
