(* ===== verification/AuditSink.v ===== *)
(** * AuditSink: the recorder and the in-memory store of audit events
    (platform/audit/recorder.go, memory_sink.go; auditspi/query.go; [SetMeta] of
    handler_helpers.go).

    The store is a ring; it is proved to hold the most recent events, and a log read
    back from it in any order of delivery to be the chain that was stamped. *)
From S2P Require Import Prelude Crypto Core ExchangeDeps Issue Json AuditChain.
Local Open Scope Z_scope.

(** ** Queries *)

Definition DefaultQueryLimit : Z := 100.
Definition MaxQueryLimit : Z := 1000.

Record Query := {
  qy_Type : string;
  qy_ActorID : string;
  qy_ClientID : string;
  qy_TenantID : string;
  qy_Provider : string;
  qy_Outcome : string;
  qy_RequestID : string;
  qy_TraceID : string;
  qy_Since : Z;
  qy_Until : Z;
  qy_Limit : Z;
  qy_Offset : Z;
}.

(** An empty criterion matches anything. *)
Definition criterion (want have : string) : bool := bool_decide (want = "") || bool_decide (have = want).

Definition matchEnums (q : Query) (e : Event) : bool :=
  criterion (qy_Type q) (ev_Type e) && criterion (qy_Outcome q) (ev_Outcome e).

Definition matchIdentifiers (q : Query) (e : Event) : bool :=
  criterion (qy_ActorID q) (ev_ActorID e) && criterion (qy_ClientID q) (ev_ClientID e) &&
  criterion (qy_TenantID q) (ev_TenantID e) && criterion (qy_Provider q) (ev_Provider e) &&
  criterion (qy_RequestID q) (ev_RequestID e) && criterion (qy_TraceID q) (ev_TraceID e).

Definition matchTimeRange (q : Query) (e : Event) : bool :=
  (GoTime.IsZero (qy_Since q) || negb (GoTime.Before (ev_Timestamp e) (qy_Since q))) &&
  (GoTime.IsZero (qy_Until q) || GoTime.Before (ev_Timestamp e) (qy_Until q)).

Definition Match (q : Query) (e : Event) : bool := matchEnums q e && matchIdentifiers q e && matchTimeRange q e.

Definition NormalizedLimit (q : Query) : Z :=
  if qy_Limit q <=? 0 then DefaultQueryLimit else if MaxQueryLimit <? qy_Limit q then MaxQueryLimit else qy_Limit q.

(** ** The ring *)

Definition DefaultMemoryCapacity : nat := Z.to_nat 10000.

Record MemorySink := {
  ms_capacity : nat;
  ms_buf : list (option Event);
  ms_head : nat;
  ms_full : bool;
  ms_byID : gmap string Event;
}.
Implicit Types (m : MemorySink).

Definition NewMemorySink (capacity : Z) : MemorySink :=
  let capacity := if capacity <=? 0 then DefaultMemoryCapacity else Z.to_nat capacity in
  {| ms_capacity := capacity; ms_buf := replicate capacity None; ms_head := 0; ms_full := false; ms_byID := ∅ |}.

(** [Record]; [newID] is what [newEventID] draws.  The id is also set on the event of
    the caller, which is returned. *)
Definition Record_sink (newID : string) (e : Event) m : Event * MemorySink :=
  let e := if decide (ev_ID e = "") then with_ID e newID else e in
  let byID := if ms_full m
              then match ms_buf m !! ms_head m with Some (Some old) => delete (ev_ID old) (ms_byID m) | _ => ms_byID m end
              else ms_byID m in
  let head := ((ms_head m + 1) mod ms_capacity m)%nat in
  (e, {| ms_capacity := ms_capacity m; ms_buf := <[ms_head m := Some e]> (ms_buf m); ms_head := head;
         ms_full := ms_full m || Nat.eqb head 0; ms_byID := <[ev_ID e := e]> byID |}).

(** [RecordBatch] under one lock: each event with the id drawn for it. *)
Fixpoint RecordBatch (events : list (string * Event)) m : MemorySink :=
  match events with
  | [] => m
  | (newID, e) :: events => RecordBatch events (Record_sink newID e m).2
  end.

Definition Get (id : string) m : option Event := ms_byID m !! id.

(** [forEachNewestFirst], as the list of the events visited. *)
Definition newestFirst m : list Event :=
  let n := if ms_full m then ms_capacity m else ms_head m in
  omap (fun i => mjoin (ms_buf m !! ((ms_head m + ms_capacity m - 1 - i) mod ms_capacity m)%nat)) (seq 0 n).

Definition later (e e' : Event) : Prop := ev_Timestamp e' <= ev_Timestamp e.
#[export] Instance later_dec : RelDecision later.
Proof. unfold RelDecision, later. intros. apply _. Defined.
#[export] Instance later_trans : Transitive later.
Proof. intros a b c. unfold later. lia. Qed.
#[export] Instance later_total : Total later.
Proof. intros a b. unfold later. lia. Qed.

(** [None] is the panic of a slice from a negative offset. *)
Definition Query_sink (q : Query) m : option (list Event) :=
  let matches := merge_sort later (filter (fun e => Match q e = true) (newestFirst m)) in
  if qy_Offset q <? 0 then None
  else Some (take (Z.to_nat (NormalizedLimit q)) (drop (Z.to_nat (qy_Offset q)) matches)).

Definition Len m : nat := if ms_full m then ms_capacity m else ms_head m.

(** ** The recorder *)

Definition with_Metadata (e : Event) (md : gmap string string) : Event := {|
  ev_ID := ev_ID e; ev_Type := ev_Type e; ev_Outcome := ev_Outcome e; ev_Timestamp := ev_Timestamp e;
  ev_RequestID := ev_RequestID e; ev_TraceID := ev_TraceID e; ev_SpanID := ev_SpanID e; ev_ParentSpanID := ev_ParentSpanID e;
  ev_ActorID := ev_ActorID e; ev_ActorIP := ev_ActorIP e; ev_UserAgent := ev_UserAgent e; ev_ClientID := ev_ClientID e;
  ev_TenantID := ev_TenantID e; ev_Provider := ev_Provider e; ev_TokenStrategy := ev_TokenStrategy e;
  ev_SessionID := ev_SessionID e; ev_TokenID := ev_TokenID e; ev_Reason := ev_Reason e; ev_Metadata := md;
  ev_PrevHash := ev_PrevHash e; ev_Hash := ev_Hash e; ev_ServerVersion := ev_ServerVersion e |}.

Definition with_ServerVersion (e : Event) (v : string) : Event := {|
  ev_ID := ev_ID e; ev_Type := ev_Type e; ev_Outcome := ev_Outcome e; ev_Timestamp := ev_Timestamp e;
  ev_RequestID := ev_RequestID e; ev_TraceID := ev_TraceID e; ev_SpanID := ev_SpanID e; ev_ParentSpanID := ev_ParentSpanID e;
  ev_ActorID := ev_ActorID e; ev_ActorIP := ev_ActorIP e; ev_UserAgent := ev_UserAgent e; ev_ClientID := ev_ClientID e;
  ev_TenantID := ev_TenantID e; ev_Provider := ev_Provider e; ev_TokenStrategy := ev_TokenStrategy e;
  ev_SessionID := ev_SessionID e; ev_TokenID := ev_TokenID e; ev_Reason := ev_Reason e; ev_Metadata := ev_Metadata e;
  ev_PrevHash := ev_PrevHash e; ev_Hash := ev_Hash e; ev_ServerVersion := v |}.

Definition SetMeta (e : Event) (key val : string) : Event :=
  if decide (val = "") then e else with_Metadata e (<[key := val]> (ev_Metadata e)).

Definition MetaBreakGlassAdminID : string := "break_glass_admin_id".
Record BreakGlassActor := { bg_AdminID : string; bg_AdminSessionID : string }.

(** The redactor is an interface of the recorder. *)
Record Recorder := {
  rec_serverVersion : string;
  rec_Redact : option (Event -> Event);
  rec_chain : option chainer;
}.

(** What [Recorder.Record] does to an event before the sink gets it; [now] is read and
    [actor] comes with the context. *)
Definition enrich (r : Recorder) (now : Z) (actor : option BreakGlassActor) (e : Event) : Event :=
  let e := if GoTime.IsZero (ev_Timestamp e) then restamped e (ev_ID e) now (ev_PrevHash e) (ev_Hash e) else e in
  let e := if decide (rec_serverVersion r = "") then e else with_ServerVersion e (rec_serverVersion r) in
  let e := match actor with
           | Some bg => SetMeta (SetMeta (SetMeta e ClaimBreakGlass "true") MetaBreakGlassAdminID (bg_AdminID bg))
                                ClaimBreakGlassAdminSessionID (bg_AdminSessionID bg)
           | None => e
           end in
  match rec_Redact r with Some redact => redact e | None => e end.

Definition Record_recorder (r : Recorder) (now : Z) (actor : option BreakGlassActor) (newID : string) (e : Event) m
  : Recorder * MemorySink :=
  let e := enrich r now actor e in
  let '(chain, e) := match rec_chain r with
                     | Some c => let '(c, e) := stamp c e in (Some c, e)
                     | None => (None, e)
                     end in
  ({| rec_serverVersion := rec_serverVersion r; rec_Redact := rec_Redact r; rec_chain := chain |},
   (Record_sink newID e m).2).

(** ** The ring holds the most recent events *)

Definition slot m (i : nat) : option Event :=
  mjoin (ms_buf m !! ((ms_head m + ms_capacity m - 1 - i) mod ms_capacity m)%nat).

Definition ring_ok m : Prop :=
  (0 < ms_capacity m /\ length (ms_buf m) = ms_capacity m /\ ms_head m < ms_capacity m)%nat /\
  (forall i, i < Len m -> is_Some (slot m i))%nat.

Lemma newestFirst_slots m : newestFirst m = omap (slot m) (seq 0 (Len m)).
Proof. done. Qed.

Lemma length_omap_all {A B} (f : A -> option B) (l : list A) : (forall x, x ∈ l -> is_Some (f x)) -> length (omap f l) = length l.
Proof.
  induction l as [|x l IH]; intros H; [done|]. destruct (H x) as [y Hy]; [left|]. cbn. rewrite Hy. cbn.
  rewrite IH; [done|]. intros z Hz. apply H. by right.
Qed.

Lemma omap_shift {B} (f g : nat -> option B) (l : list nat) :
  (forall i, i ∈ l -> f (S i) = g i) -> omap f (S <$> l) = omap g l.
Proof.
  intros H. induction l as [|x l IH]; [done|]. cbn. rewrite (H x) by left. rewrite IH; [done|].
  intros y Hy. apply H. by right.
Qed.

Lemma length_newestFirst m : ring_ok m -> length (newestFirst m) = Len m.
Proof.
  intros [_ H]. rewrite newestFirst_slots, length_omap_all, length_seq; [done|].
  intros i [_ Hi]%elem_of_seq. by apply H.
Qed.

(** The id an event is stored under. *)
Definition named (newID : string) (e : Event) : Event := if decide (ev_ID e = "") then with_ID e newID else e.

Lemma slot_record newID e m i :
  ring_ok m -> (i < ms_capacity m)%nat ->
  slot (Record_sink newID e m).2 i = match i with O => Some (named newID e) | S i => slot m i end.
Proof.
  intros [(Hc & Hlen & Hh) _] Hi. unfold slot, Record_sink. cbn [snd ms_buf ms_head ms_capacity]. fold (named newID e).
  set (c := ms_capacity m) in *. set (h := ms_head m) in *.
  assert (((h + 1) mod c + c - 1 - i) mod c = (h + c - i) mod c)%nat as ->.
  { destruct (decide (h + 1 = c)%nat) as [He|He].
    - rewrite He, Nat.Div0.mod_same. replace (0 + c - 1 - i)%nat with (c - 1 - i)%nat by lia.
      replace (h + c - i)%nat with (c - 1 - i + 1 * c)%nat by lia. by rewrite Nat.Div0.mod_add.
    - rewrite (Nat.mod_small (h + 1)) by lia. f_equal. lia. }
  destruct i as [|i].
  - replace (h + c - 0)%nat with (h + 1 * c)%nat by lia. rewrite Nat.Div0.mod_add, Nat.mod_small by lia.
    rewrite list_lookup_insert_eq by lia. done.
  - rewrite list_lookup_insert_ne; [f_equal; f_equal; f_equal; lia|].
    destruct (decide (S i <= h)%nat) as [Hle|Hgt].
    + replace (h + c - S i)%nat with (h - S i + 1 * c)%nat by lia. rewrite Nat.Div0.mod_add, Nat.mod_small by lia. lia.
    + rewrite Nat.mod_small by lia. lia.
Qed.

Lemma Len_record newID e m : ring_ok m -> Len (Record_sink newID e m).2 = Nat.min (S (Len m)) (ms_capacity m).
Proof.
  intros [(Hc & _ & Hh) _]. unfold Len, Record_sink. cbn [snd ms_full ms_capacity ms_head].
  destruct (ms_full m); cbn [orb]; [lia|]. destruct (decide (ms_head m + 1 = ms_capacity m)%nat) as [He|He].
  - rewrite He, Nat.Div0.mod_same. cbn [Nat.eqb]. lia.
  - rewrite Nat.mod_small by lia. replace (ms_head m + 1)%nat with (S (ms_head m)) by lia. cbn [Nat.eqb]. lia.
Qed.

Lemma ring_record newID e m : ring_ok m -> ring_ok (Record_sink newID e m).2.
Proof.
  intros Hm. pose proof Hm as [(Hc & Hlen & Hh) Hs]. split.
  - unfold Record_sink. cbn. rewrite length_insert. split_and!; [done|done|]. apply Nat.mod_upper_bound. lia.
  - intros i Hi. rewrite Len_record in Hi by done. rewrite slot_record by (done || lia).
    destruct i as [|i]; [done|]. apply Hs. lia.
Qed.

Lemma newestFirst_record newID e m :
  ring_ok m -> newestFirst (Record_sink newID e m).2 = take (ms_capacity m) (named newID e :: newestFirst m).
Proof.
  intros Hm. rewrite newestFirst_slots, Len_record by done. pose proof Hm as [(Hc & _) Hs].
  destruct (ms_capacity m) as [|c] eqn:Ec; [lia|]. rewrite <- Nat.succ_min_distr. cbn [seq omap list_omap take].
  rewrite slot_record by (done || lia). f_equal.
  rewrite <- fmap_S_seq, (omap_shift _ (slot m)); [|intros i [_ Hi]%elem_of_seq; rewrite slot_record by (done || lia); done].
  rewrite newestFirst_slots. destruct (decide (Len m <= c)%nat) as [Hle|Hgt].
  - rewrite Nat.min_l by done. rewrite take_ge; [done|]. rewrite <- newestFirst_slots, length_newestFirst by done. done.
  - rewrite Nat.min_r by lia. assert (Len m = c + (Len m - c))%nat as -> by lia. rewrite seq_app, omap_app.
    rewrite take_app_length'; [done|]. rewrite length_omap_all, length_seq; [done|]. intros i [_ Hi]%elem_of_seq. apply Hs. lia.
Qed.

Lemma capacity_record newID e m : ms_capacity (Record_sink newID e m).2 = ms_capacity m.
Proof. done. Qed.

Lemma ring_new c : ring_ok (NewMemorySink c).
Proof.
  assert (0 < ms_capacity (NewMemorySink c))%nat as H.
  { cbn. destruct (c <=? 0) eqn:E; [unfold DefaultMemoryCapacity; lia|apply Z.leb_gt in E; lia]. }
  split; [split_and!; [done|apply length_replicate|done]|]. intros i Hi. cbn in Hi. lia.
Qed.

Lemma take_cons_take {A} c (x : A) l : take c (x :: take c l) = take c (x :: l).
Proof.
  destruct c as [|c]; [done|]. cbn [take]. f_equal. rewrite take_take. f_equal. lia.
Qed.

(** Batches and single records are the same sequence of stores. *)
Lemma RecordBatch_snoc l newID e m : RecordBatch (l ++ [(newID, e)]) m = (Record_sink newID e (RecordBatch l m)).2.
Proof. revert m. induction l as [|[id e'] l IH]; intros m; [done|]. cbn [app RecordBatch]. apply IH. Qed.

Definition names (l : list (string * Event)) : list Event := (fun p => named p.1 p.2) <$> l.

Lemma batch_ring l m :
  ring_ok m -> ring_ok (RecordBatch l m) /\ ms_capacity (RecordBatch l m) = ms_capacity m.
Proof.
  intros Hm. induction l as [|[id e] l [IH1 IH2]] using rev_ind; [done|]. rewrite RecordBatch_snoc.
  by split; [apply ring_record|].
Qed.

Lemma batch_newest l c :
  newestFirst (RecordBatch l (NewMemorySink c)) = take (ms_capacity (NewMemorySink c)) (reverse (names l)).
Proof.
  induction l as [|[id e] l IH] using rev_ind; [by destruct (ms_capacity (NewMemorySink c))|].
  destruct (batch_ring l _ (ring_new c)) as [Hr Hc]. rewrite RecordBatch_snoc, newestFirst_record, Hc by done.
  unfold names in *. rewrite fmap_app, reverse_app. cbn. rewrite IH. apply take_cons_take.
Qed.

(** The index by id, when ids are not reused. *)
Definition indexed m : Prop := forall id e, ms_byID m !! id = Some e <-> e ∈ newestFirst m /\ ev_ID e = id.

Lemma oldest m : ring_ok m -> ms_full m = true ->
  exists old l, ms_buf m !! ms_head m = Some (Some old) /\ newestFirst m = l ++ [old] /\ S (length l) = ms_capacity m.
Proof.
  intros Hm Hf. pose proof Hm as [(Hc & Hlen & Hh) Hs]. assert (Len m = ms_capacity m) as HL by (unfold Len; by rewrite Hf).
  destruct (ms_capacity m) as [|c] eqn:Ec; [lia|]. destruct (Hs c) as [old Hold]; [lia|].
  exists old, (omap (slot m) (seq 0 c)). split_and!.
  - unfold slot in Hold. rewrite Ec in Hold. replace (ms_head m + S c - 1 - c)%nat with (ms_head m) in Hold by lia.
    rewrite Nat.mod_small in Hold by lia. by destruct (ms_buf m !! ms_head m) as [[e|]|]; [cbn in Hold; simplify_eq|..].
  - rewrite newestFirst_slots, HL, seq_S, omap_app. cbn. by rewrite Hold.
  - rewrite length_omap_all, length_seq; [done|]. intros i [_ Hi]%elem_of_seq. apply Hs. lia.
Qed.

Lemma indexed_record newID e m :
  ring_ok m -> indexed m -> NoDup (ev_ID <$> newestFirst m) -> ev_ID (named newID e) ∉ ev_ID <$> newestFirst m ->
  indexed (Record_sink newID e m).2.
Proof.
  intros Hm Hi Hnd Hnew. unfold indexed. rewrite newestFirst_record by done. cbn [Record_sink snd ms_byID]. fold (named newID e).
  pose proof (length_newestFirst m Hm) as Hlen. pose proof Hm as [(Hc & _ & Hh) _].
  assert (forall x, x ∈ newestFirst m -> ev_ID x <> ev_ID (named newID e)) as Hne.
  { intros x Hx E. apply Hnew. rewrite <- E. by apply list_elem_of_fmap_2. }
  intros id x. destruct (ms_full m) eqn:Hf.
  - destruct (oldest m Hm Hf) as (old & l & -> & El & Hl). rewrite <- Hl, El. cbn [take]. rewrite take_app_length.
    rewrite El in *. rewrite fmap_app in Hnd. apply list.NoDup_app in Hnd as (_ & Hd & _).
    rewrite lookup_insert_Some, lookup_delete_Some, (Hi id x), El, elem_of_cons.
    assert (forall y, y ∈ l -> ev_ID y <> ev_ID old) as Ho.
    { intros y Hy E. apply (Hd (ev_ID y)); [by apply list_elem_of_fmap_2|rewrite E; left]. }
    split.
    + intros [[<- <-]|(Hn & Hn' & [Hx| ->%list_elem_of_singleton]%elem_of_app & Hid)]; [by split; [left|]|split; [by right|done]|congruence].
    + intros [[-> |Hx] <-]; [by left|right]. split_and!; [intros E; by apply (Hne x); [set_solver|]|by intros E; apply (Ho x)|set_solver|done].
  - unfold Len in Hlen. rewrite Hf in Hlen. rewrite take_ge by (cbn; lia). rewrite lookup_insert_Some, (Hi id x), elem_of_cons.
    split.
    + intros [[<- <-]|(Hn & Hx & Hid)]; [by split; [left|]|split; [by right|done]].
    + intros [[-> |Hx] <-]; [by left|right]. split_and!; [intros E; by apply (Hne x)|done|done].
Qed.

Lemma batch_indexed l c : NoDup (ev_ID <$> names l) -> indexed (RecordBatch l (NewMemorySink c)).
Proof.
  induction l as [|[id e] l IH] using rev_ind; intros Hnd.
  - intros id e. rewrite batch_newest. cbn. rewrite take_nil, lookup_empty. split; [done|]. by intros [?%elem_of_nil _].
  - destruct (batch_ring l _ (ring_new c)) as [Hr _]. rewrite RecordBatch_snoc.
    unfold names in *. rewrite !fmap_app in Hnd. apply list.NoDup_app in Hnd as (Hnd & Hd & _).
    assert (ev_ID <$> newestFirst (RecordBatch l (NewMemorySink c)) `sublist_of` reverse (ev_ID <$> names l)) as Hsub.
    { rewrite batch_newest, fmap_take, fmap_reverse. apply sublist_take. }
    apply indexed_record; [done|by apply IH| |].
    + eapply sublist_NoDup; [|exact Hsub]. by rewrite reverse_Permutation.
    + intros Hin. eapply elem_of_sublist in Hin; [|exact Hsub].
      rewrite elem_of_reverse in Hin. by apply (Hd _ Hin), list_elem_of_singleton.
Qed.

(** the ring is a log cut to its capacity: after any records it holds, newest
    first, the last events recorded, each under its own id or the one drawn for it; its
    length is theirs; and when ids are not reused a lookup finds exactly the events
    still held.  A query with a valid offset returns, by descending time, a window of at
    most a thousand of the held events that match. *)
Theorem memory_sink_recent l c q :
  let m := RecordBatch l (NewMemorySink c) in
  let recent := take (ms_capacity m) (reverse (names l)) in
  newestFirst m = recent /\ Len m = length recent /\
  (NoDup (ev_ID <$> names l) -> forall id e, Get id m = Some e <-> e ∈ recent /\ ev_ID e = id) /\
  (0 <= qy_Offset q -> exists matches, StronglySorted later matches /\
    matches ≡ₚ filter (fun e => Match q e = true) recent /\
    Query_sink q m = Some (take (Z.to_nat (NormalizedLimit q)) (drop (Z.to_nat (qy_Offset q)) matches)) /\
    0 < NormalizedLimit q <= MaxQueryLimit).
Proof.
  intros m recent. destruct (batch_ring l _ (ring_new c)) as [Hr Hc].
  assert (newestFirst m = recent) as Hn by (unfold recent, m; rewrite Hc; apply batch_newest).
  split_and!; [done|by rewrite <- Hn, length_newestFirst|..].
  - intros Hnd id e. rewrite <- Hn. apply (batch_indexed l c Hnd).
  - intros Ho. exists (merge_sort later (filter (fun e => Match q e = true) (newestFirst m))). split_and!.
    + apply Sorted_StronglySorted; [apply _|apply Sorted_merge_sort, _].
    + by rewrite merge_sort_Permutation, Hn.
    + unfold Query_sink. by rewrite (proj2 (Z.ltb_ge _ _) Ho).
    + unfold NormalizedLimit, DefaultQueryLimit, MaxQueryLimit. repeat split_if; bool_simpl; lia.
    + unfold NormalizedLimit, DefaultQueryLimit, MaxQueryLimit. repeat split_if; bool_simpl; lia.
Qed.

(** ** Reading the chain back *)

Definition all_events : Query := {|
  qy_Type := ""; qy_ActorID := ""; qy_ClientID := ""; qy_TenantID := ""; qy_Provider := ""; qy_Outcome := "";
  qy_RequestID := ""; qy_TraceID := ""; qy_Since := 0; qy_Until := 0; qy_Limit := MaxQueryLimit; qy_Offset := 0 |}.

(** An event without its storage id. *)
Definition anonymous (e : Event) : Event := with_ID e "".

Lemma anonymous_named id e : anonymous (named id e) = anonymous e.
Proof. unfold named. by case_decide. Qed.

Lemma anonymous_names l : anonymous <$> names l = anonymous <$> l.*2.
Proof.
  unfold names. rewrite <- !list_fmap_compose. apply list_fmap_ext. intros i [id e] _. cbn. apply anonymous_named.
Qed.

Lemma anonymous_same e e' : anonymous e = anonymous e' -> same_record e e'.
Proof.
  intros H. unfold same_record. rewrite <- (restamped_id e') at 1. unfold anonymous, with_ID, restamped in *.
  injection H. intros. by f_equal.
Qed.

Lemma linked_anonymous prev es es' : anonymous <$> es = anonymous <$> es' -> linked prev es -> linked prev es'.
Proof.
  revert prev es'. induction es as [|e es IH]; intros prev [|e' es'] E; try done. cbn [fmap list_fmap] in E.
  apply cons_eq in E as [E0 E]. apply anonymous_same in E0. unfold same_record in E0.
  assert (ev_PrevHash e' = ev_PrevHash e) as H1 by (by rewrite E0).
  assert (ev_Hash e' = ev_Hash e) as H2 by (by rewrite E0).
  assert (eventHash e' = eventHash e) as H3 by (rewrite E0; apply eventHash_ignores).
  cbn [linked]. rewrite H1, H2, H3. intros (? & ? & ?). split_and!; [done..|]. by apply IH.
Qed.

Lemma later_reverse es : StronglySorted Z.lt (ev_Timestamp <$> es) -> StronglySorted later (reverse es).
Proof.
  induction es as [|e es IH] using rev_ind; intros H; [constructor|]. rewrite fmap_app in H. rewrite reverse_snoc.
  constructor; [by apply IH, (StronglySorted_app_1_l _ _ _ H)|]. apply Forall_forall. intros x Hx. rewrite elem_of_reverse in Hx.
  unfold later. apply Z.lt_le_incl. apply (StronglySorted_app_1_elem_of _ _ _ (ev_Timestamp x) (ev_Timestamp e) H);
    [by apply list_elem_of_fmap_2|by left].
Qed.

Lemma times_distinct es a b :
  StronglySorted Z.lt (ev_Timestamp <$> es) -> a ∈ es -> b ∈ es -> ev_Timestamp a = ev_Timestamp b -> a = b.
Proof.
  intros Hs (i & Hi)%list_elem_of_lookup (j & Hj)%list_elem_of_lookup E.
  assert (NoDup (ev_Timestamp <$> es)) as Hnd.
  { clear -Hs. induction Hs as [|t l _ IH Hall]; constructor; [|done]. intros Hin. rewrite Forall_forall in Hall.
    specialize (Hall _ Hin). lia. }
  assert (i = j) as ->; [|congruence]. eapply NoDup_lookup; [exact Hnd|..]; rewrite list_lookup_fmap;
    [by rewrite Hi|by rewrite Hj; cbn; rewrite E].
Qed.

(** Descending time orders the records of a chain in one way. *)
Lemma sorted_chain (l es : list Event) :
  StronglySorted Z.lt (ev_Timestamp <$> es) -> anonymous <$> l ≡ₚ anonymous <$> es ->
  anonymous <$> merge_sort later l = anonymous <$> reverse es.
Proof.
  intros Hs Hp. assert (forall k, StronglySorted later k -> StronglySorted later (anonymous <$> k)) as Hmap.
  { induction 1 as [|e k _ IH Hall]; cbn; constructor; [done|]. apply Forall_fmap. eapply Forall_impl; [exact Hall|done]. }
  apply (Sorted_unique_strong later).
  - intros a b Ha Hb H1 H2. rewrite merge_sort_Permutation, Hp in Ha. rewrite reverse_Permutation in Hb.
    apply list_elem_of_fmap in Ha as (a' & -> & Ha), Hb as (b' & -> & Hb). f_equal.
    apply (times_distinct es); [done..|]. unfold later in H1, H2. cbn in H1, H2. lia.
  - apply StronglySorted_Sorted, Hmap, Sorted_StronglySorted; [apply _|]. apply Sorted_merge_sort, _.
  - by apply StronglySorted_Sorted, Hmap, later_reverse.
  - by rewrite merge_sort_Permutation, Hp, reverse_Permutation.
Qed.

(** the log survives its delivery: the events one process stamps from genesis may
    reach the store in any order; if they fit in it and in one page, the query for all
    events returns them newest first, the result reversed is the stamped chain but for
    the storage ids, and it verifies. *)
Theorem delivered_chain_verifies es delivered c :
  delivered.*2 ≡ₚ process GenesisHash es ->
  (length es <= ms_capacity (NewMemorySink c))%nat -> Z.of_nat (length es) <= MaxQueryLimit ->
  exists out, Query_sink all_events (RecordBatch delivered (NewMemorySink c)) = Some out /\
    Forall2 same_record (process GenesisHash es) (reverse out) /\ VerifyChain (Some <$> reverse out) = None.
Proof.
  intros Hd Hc Hlim. destruct (process_spec GenesisHash es) as (Hst & Hl & Hs).
  set (chain := process GenesisHash es) in *.
  assert (length (names delivered) = length es) as Hlen.
  { unfold names. rewrite length_fmap, <- (length_fmap snd delivered), Hd. symmetry. by eapply Forall2_length. }
  set (out := merge_sort later (reverse (names delivered))).
  assert (anonymous <$> out = anonymous <$> reverse chain) as Hout.
  { apply sorted_chain; [done|]. by rewrite reverse_Permutation, anonymous_names, Hd. }
  assert (anonymous <$> reverse out = anonymous <$> chain) as Hrev by (by rewrite fmap_reverse, Hout, fmap_reverse, reverse_involutive).
  exists out. split_and!.
  - unfold Query_sink. cbn [qy_Offset all_events Z.ltb Z.compare]. rewrite batch_newest, (take_ge (reverse _)) by (rewrite length_reverse; lia).
    assert (forall k : list Event, filter (fun e => Match all_events e = true) k = k) as Hall.
    { induction k as [|e k IHk]; [done|]. rewrite filter_cons_True by done. by rewrite IHk. }
    rewrite Hall. change (Z.to_nat (qy_Offset all_events)) with 0%nat. rewrite drop_0. fold out. f_equal. apply take_ge.
    unfold out. rewrite merge_sort_Permutation, length_reverse, Hlen. change (NormalizedLimit all_events) with MaxQueryLimit. lia.
  - apply Forall2_same_length_lookup. split; [by rewrite <- (length_fmap anonymous), <- Hrev, length_fmap|].
    intros i x y Hx Hy. apply anonymous_same. apply (f_equal (fun l => l !! i)) in Hrev.
    rewrite !list_lookup_fmap, Hx, Hy in Hrev. cbn in Hrev. congruence.
  - apply verifyChainFrom_spec. exists (reverse out). split; [done|]. by eapply linked_anonymous; [symmetry|].
Qed.

(** ** Witnesses *)

Definition logout : Event := restamped login "" (1001 * Day) "" "".

(** Two of three events are held. *)
Lemma memory_sink_recent_witness :
  Get "b" (RecordBatch [("a", login); ("b", logout); ("c", login)] (NewMemorySink 2)) = Some (with_ID logout "b") /\
  Get "a" (RecordBatch [("a", login); ("b", logout); ("c", login)] (NewMemorySink 2)) = None.
Proof.
  destruct (memory_sink_recent [("a", login); ("b", logout); ("c", login)] 2 all_events) as (_ & _ & Hget & _).
  split; [|reflexivity]. apply Hget.
  - apply (bool_decide_eq_true_1 (NoDup _)). vm_compute. reflexivity.
  - split; [|reflexivity]. right. left.
Defined.

(** The second event of a process reaches the store first. *)
Lemma delivered_chain_verifies_witness :
  exists out, Query_sink all_events
    (RecordBatch (zip ["x"; "y"] (reverse (process GenesisHash [login; logout]))) (NewMemorySink 8)) = Some out /\
    VerifyChain (Some <$> reverse out) = None.
Proof.
  destruct (delivered_chain_verifies [login; logout] (zip ["x"; "y"] (reverse (process GenesisHash [login; logout]))) 8)
    as (out & Hq & _ & Hv).
  - rewrite snd_zip; [apply reverse_Permutation|]. apply (bool_decide_eq_true_1 (_ <= _)%nat). reflexivity.
  - apply (bool_decide_eq_true_1 (_ <= _)%nat). reflexivity.
  - discriminate.
  - exists out. split; [exact Hq|exact Hv].
Defined.
