(* ===== verification/AuditNotary.v ===== *)
(** * AuditNotary: signed checkpoints of the audit chain
    (the notary of platform/audit/chainer.go; [restoreNotaryState] of
    recorder_events_util.go).

    Ed25519 is [crypto/ed25519]: its verification is an argument, and a signer that
    follows its documentation makes signatures its public key verifies. *)
From S2P Require Import Prelude Crypto Issue PolicyBundle Json AuditChain.
Local Open Scope Z_scope.

Record Checkpoint := {
  cp_Sequence : Z;
  cp_Timestamp : Z;
  cp_HeadHash : string;
  cp_PrevHash : string;
}.

Record SignedCheckpoint := {
  sc_Checkpoint : Checkpoint;
  sc_Signature : bytes;
  sc_SignerKey : bytes;
}.

(** [Sign] may fail. *)
Record CheckpointSigner := {
  sg_Sign : bytes -> option bytes;
  sg_PublicKey : bytes;
}.

(** The JSON of a checkpoint. *)
Definition decimal (n : Z) : bytes :=
  if n <? 0 then 45 :: string_bytes (itoa (- n)) else string_bytes (itoa n).

Definition marshal_checkpoint (c : Checkpoint) : option bytes :=
  if year_ok (cp_Timestamp c) then
    Some (object ([("sequence", decimal (cp_Sequence c)); ("timestamp", quote (time_text (cp_Timestamp c)));
                   ("head_hash", quote (cp_HeadHash c))] ++
                  if decide (cp_PrevHash c = "") then [] else [("prev_hash", quote (cp_PrevHash c))]))
  else None.

(** ** The in-memory store *)

Notation MemoryCheckpointStore := (list SignedCheckpoint).

(** A nil checkpoint is refused. *)
Definition Append (c : option SignedCheckpoint) (m : MemoryCheckpointStore) : option MemoryCheckpointStore :=
  match c with None => None | Some c => Some (m ++ [c]) end.

Definition Latest (m : MemoryCheckpointStore) : option SignedCheckpoint := last m.

(** [limit <= 0] is no limit. *)
Definition ListCheckpoints (since limit : Z) (m : MemoryCheckpointStore) : list SignedCheckpoint :=
  let out := filter (fun c => GoTime.Before (cp_Timestamp (sc_Checkpoint c)) since = false) m in
  if 0 <? limit then take (Z.to_nat limit) out else out.

Section notary.
Context (Verify : bytes -> bytes -> bytes -> bool).

(** ** Verification *)

Definition PublicKeySize : nat := 32.

Inductive checkpoint_error :=
| NilCheckpoint
| BadKeySize
| Unencodable
| BadSignature
| ChainInvalid (e : chain_error)
| HeadMismatch.

Definition VerifyCheckpointSignature (c : option SignedCheckpoint) : option checkpoint_error :=
  match c with
  | None => Some NilCheckpoint
  | Some c =>
      if negb (Nat.eqb (length (sc_SignerKey c)) PublicKeySize) then Some BadKeySize
      else match marshal_checkpoint (sc_Checkpoint c) with
      | None => Some Unencodable
      | Some raw => if negb (Verify (sc_SignerKey c) raw (sc_Signature c)) then Some BadSignature else None
      end
  end.

(** A chain that verifies holds no nil event. *)
Definition VerifyChainAgainstCheckpoint (events : list (option Event)) (c : option SignedCheckpoint) : option checkpoint_error :=
  match c with
  | None => Some NilCheckpoint
  | Some sc =>
      match VerifyCheckpointSignature c with
      | Some e => Some e
      | None =>
          match VerifyChain events with
          | Some e => Some (ChainInvalid e)
          | None => if bool_decide (head_of events = cp_HeadHash (sc_Checkpoint sc)) then None else Some HeadMismatch
          end
      end
  end.

(** ** The notary *)

Record Notary := { nt_lastSigned : string; nt_lastSeq : Z }.

Definition NewNotary (m : MemoryCheckpointStore) : Notary :=
  let fresh := {| nt_lastSigned := ""; nt_lastSeq := 0 |} in
  match Latest m with
  | None => fresh
  | Some latest =>
      match VerifyCheckpointSignature (Some latest) with
      | Some _ => fresh
      | None => {| nt_lastSigned := cp_HeadHash (sc_Checkpoint latest); nt_lastSeq := cp_Sequence (sc_Checkpoint latest) |}
      end
  end.

Inductive checkpoint_outcome := Unchanged | Signed (c : SignedCheckpoint) | CheckpointFailed.

(** [tip] is what [LastHash] answers; the clock is read at [now]. *)
Definition CheckpointNow (tip : option string) (now : Z) (signer : CheckpointSigner) (x : Notary * MemoryCheckpointStore)
  : checkpoint_outcome * (Notary * MemoryCheckpointStore) :=
  let '(n, m) := x in
  match tip with
  | None => (CheckpointFailed, x)
  | Some head =>
      let head := if decide (head = "") then GenesisHash else head in
      if decide (head = nt_lastSigned n) then (Unchanged, x)
      else
        let cp := {| cp_Sequence := nt_lastSeq n + 1; cp_Timestamp := now; cp_HeadHash := head; cp_PrevHash := nt_lastSigned n |} in
        match marshal_checkpoint cp with
        | None => (CheckpointFailed, x)
        | Some raw =>
            match sg_Sign signer raw with
            | None => (CheckpointFailed, x)
            | Some sig =>
                let signed := {| sc_Checkpoint := cp; sc_Signature := sig; sc_SignerKey := sg_PublicKey signer |} in
                match Append (Some signed) m with
                | None => (CheckpointFailed, x)
                | Some m => (Signed signed, ({| nt_lastSigned := head; nt_lastSeq := cp_Sequence cp |}, m))
                end
            end
        end
  end.

(** The loop of [Run]: a checkpoint at every tick, and a notary built anew when the
    process starts again. *)
Inductive notary_op :=
| Tick (tip : option string) (now : Z) (signer : CheckpointSigner)
| Restart.

Definition notary_step (x : Notary * MemoryCheckpointStore) (o : notary_op) : Notary * MemoryCheckpointStore :=
  match o with
  | Tick tip now signer => (CheckpointNow tip now signer x).2
  | Restart => (NewNotary x.2, x.2)
  end.

Definition notary_run (tr : list notary_op) : Notary * MemoryCheckpointStore := foldl notary_step (NewNotary [], []) tr.

(** What [crypto/ed25519] promises of a key pair. *)
Definition ed25519_signer (signer : CheckpointSigner) : Prop :=
  length (sg_PublicKey signer) = PublicKeySize /\
  forall raw sig, sg_Sign signer raw = Some sig -> Verify (sg_PublicKey signer) raw sig = true.

(** ** The history of checkpoints *)

Definition head_before (m : MemoryCheckpointStore) : string := default "" ((fun c => cp_HeadHash (sc_Checkpoint c)) <$> last m).

Definition history (x : Notary * MemoryCheckpointStore) : Prop :=
  nt_lastSigned x.1 = head_before x.2 /\ nt_lastSeq x.1 = Z.of_nat (length x.2) /\
  forall before c after, x.2 = before ++ c :: after ->
    cp_Sequence (sc_Checkpoint c) = Z.of_nat (length before) + 1 /\
    cp_PrevHash (sc_Checkpoint c) = head_before before /\
    cp_HeadHash (sc_Checkpoint c) <> cp_PrevHash (sc_Checkpoint c) /\
    VerifyCheckpointSignature (Some c) = None.

Lemma snoc_split {A} (l before after : list A) c d :
  l ++ [d] = before ++ c :: after -> (before = l /\ c = d) \/ exists after', l = before ++ c :: after'.
Proof.
  intros E. destruct after as [|a after' _] using rev_ind.
  - left. apply app_inj_2 in E as [-> E]; [by injection E|done].
  - right. exists after'. change (c :: after' ++ [a]) with ((c :: after') ++ [a]) in E. rewrite app_assoc in E.
    by apply app_inj_2 in E as [-> _].
Qed.

Lemma history_tick tip now signer x :
  ed25519_signer signer -> history x -> history (CheckpointNow tip now signer x).2.
Proof.
  intros [Hkey Hsig] (Hs & Hq & Hall). destruct x as [n m]. cbn [fst snd] in *. unfold CheckpointNow.
  destruct tip as [head|]; [|done]. set (h := if decide (head = "") then GenesisHash else head).
  destruct (decide (h = nt_lastSigned n)) as [|Hne]; [done|]. set (cp := {| cp_Sequence := _ |}).
  destruct (marshal_checkpoint cp) as [raw|] eqn:Hm; [|done]. destruct (sg_Sign signer raw) as [sig|] eqn:Hsg; [|done].
  cbn [Append snd]. split_and!; cbn [fst snd nt_lastSigned nt_lastSeq].
  - unfold head_before. by rewrite last_snoc.
  - cbn [cp cp_Sequence]. rewrite length_app, Hq. cbn. lia.
  - intros before c after [[-> ->]|[after' E]]%snoc_split; [|by eapply Hall]. cbn [sc_Checkpoint cp cp_Sequence cp_PrevHash cp_HeadHash].
    rewrite Hq. split_and!; [done|done|done|]. cbn [VerifyCheckpointSignature sc_SignerKey sc_Checkpoint sc_Signature].
    rewrite Hkey, Hm, (Hsig _ _ Hsg). done.
Qed.

Lemma history_restart x : history x -> history (NewNotary x.2, x.2).
Proof.
  destruct x as [n m]. intros (Hs & Hq & Hall). cbn [fst snd] in *. unfold NewNotary, Latest.
  destruct m as [|c m _] using rev_ind; [done|]. rewrite last_snoc.
  destruct (Hall m c [] eq_refl) as (Hseq & _ & _ & ->). split_and!; cbn [fst snd nt_lastSigned nt_lastSeq].
  - unfold head_before. by rewrite last_snoc.
  - rewrite length_app, Hseq. cbn. lia.
  - done.
Qed.

(** the checkpoints form an unbroken history: over any ticks with any heads, failed
    reads and failed signatures, and any restarts, the stored checkpoints are numbered
    one by one, each names the head of the one before as its predecessor and attests a
    different head, and each verifies. *)
Theorem notary_history tr :
  (forall tip now signer, Tick tip now signer ∈ tr -> ed25519_signer signer) -> history (notary_run tr).
Proof.
  unfold notary_run. induction tr as [|o tr IH] using rev_ind; intros H.
  - split_and!; [done..|]. by intros [].
  - rewrite foldl_app. cbn [foldl]. specialize (IH ltac:(intros * Hin; eapply H, elem_of_app; by left)).
    destruct o as [tip now signer|]; [|by apply history_restart].
    apply history_tick; [|done]. eapply (H tip now), elem_of_app. right. by left.
Qed.

(** ** What a checkpoint attests *)

(** a checkpoint guards against nobody who can write it: whatever list of events
    verifies, any key pair makes a checkpoint of its head that
    [VerifyChainAgainstCheckpoint] accepts for it, since the signature is checked
    against the key that comes with the checkpoint. *)
Theorem checkpoint_any_key events signer seqno now prevHash raw sig :
  let cp := {| cp_Sequence := seqno; cp_Timestamp := now; cp_HeadHash := head_of events; cp_PrevHash := prevHash |} in
  ed25519_signer signer -> VerifyChain events = None ->
  marshal_checkpoint cp = Some raw -> sg_Sign signer raw = Some sig ->
  VerifyChainAgainstCheckpoint events
    (Some {| sc_Checkpoint := cp; sc_Signature := sig; sc_SignerKey := sg_PublicKey signer |}) = None.
Proof.
  intros cp [Hkey Hsig] Hv Hm Hs. cbn [VerifyChainAgainstCheckpoint VerifyCheckpointSignature sc_SignerKey sc_Checkpoint sc_Signature].
  rewrite Hkey, Hm, (Hsig _ _ Hs), Hv. cbn. by rewrite bool_decide_true.
Qed.
End notary.

(** ** Witnesses *)

(** A scheme whose signatures repeat the message. *)
Definition toy_verify (key raw sig : bytes) : bool := bool_decide (sig = key ++ raw).
Definition toy_signer (k : Z) : CheckpointSigner := {|
  sg_Sign := fun raw => Some (replicate 32 k ++ raw); sg_PublicKey := replicate 32 k |}.

Lemma toy_signer_ok k : ed25519_signer toy_verify (toy_signer k).
Proof. split; [done|]. intros raw sig [= <-]. by apply bool_decide_eq_true. Qed.

Definition ticks : list notary_op :=
  [Tick (Some "") (1000 * Day) (toy_signer 1); Tick (Some "h1") (1001 * Day) (toy_signer 1); Restart;
   Tick (Some "h1") (1002 * Day) (toy_signer 2); Tick None (1003 * Day) (toy_signer 2); Tick (Some "h2") (1004 * Day) (toy_signer 2)].

Lemma notary_history_witness :
  length (notary_run toy_verify ticks).2 = 2%nat /\ nt_lastSeq (notary_run toy_verify ticks).1 = 2.
Proof.
  destruct (notary_history toy_verify ticks) as (_ & Hq & _).
  - intros tip now signer Hin. unfold ticks in Hin. rewrite !elem_of_cons, elem_of_nil in Hin.
    destruct Hin as [E|[E|[E|[E|[E|[E|[]]]]]]]; try discriminate E; injection E as _ _ ->; apply toy_signer_ok.
  - assert (length (notary_run toy_verify ticks).2 = 2%nat) as Hlen by (vm_compute; reflexivity).
    split; [exact Hlen|]. rewrite Hq, Hlen. reflexivity.
Defined.

Definition genuine : list (option Event) := Some <$> process GenesisHash [login].
Definition rewritten : list (option Event) := Some <$> process GenesisHash [with_ID login "x"; login].

Lemma checkpoint_any_key_witness :
  exists c, VerifyChainAgainstCheckpoint toy_verify rewritten (Some c) = None /\ rewritten <> genuine.
Proof.
  destruct (marshal_checkpoint {| cp_Sequence := 1; cp_Timestamp := 1000 * Day; cp_HeadHash := head_of rewritten; cp_PrevHash := "" |})
    as [raw|] eqn:Hraw.
  - eexists. split.
    + apply (checkpoint_any_key toy_verify rewritten (toy_signer 7) 1 (1000 * Day) "" raw (replicate 32 7 ++ raw)).
      * apply toy_signer_ok.
      * apply verifyChainFrom_spec. eexists. split; [reflexivity|]. apply process_spec.
      * exact Hraw.
      * reflexivity.
    + intros E. apply (f_equal length) in E. discriminate E.
  - unfold marshal_checkpoint in Hraw. cbn [cp_Timestamp] in Hraw.
    assert (year_ok (1000 * Day) = true) as Hy by (vm_compute; reflexivity). rewrite Hy in Hraw. discriminate Hraw.
Defined.
