(* ===== verification/Keyset.v ===== *)
(** * Keyset: keyset pagination
    (shared/core/jwks.go: [PageQuery], [CompareKeyID], [SortKeyset], [KeysetSlice] and
    the cursor encoding).

    A store sorts its rows by a sort key and the row's id, skips the rows up to the
    cursor, and mints the next cursor from the last row it returns.  The pages of a
    traversal are proved to be in order, without repetition and without loss, even when
    rows come and go between them. *)
From S2P Require Import Prelude Crypto Jose.
Local Open Scope Z_scope.

Record PageQuery := {
  pq_Limit : Z;
  pq_OrderBy : string;
  pq_Desc : bool;
  pq_Filter : string;
  pq_After : string;
}.

(** ** The order *)

(** [strings.Compare]. *)
Definition Compare (s t : string) : comparison :=
  if decide (s = t) then Eq else if str_leb s t then Lt else Gt.

Definition CompareKeyID (a b : string * string) : comparison :=
  match Compare a.1 b.1 with Eq => Compare a.2 b.2 | c => c end.

(** [a] comes strictly before [b] in the requested direction. *)
Definition before (desc : bool) (a b : string * string) : bool :=
  match CompareKeyID a b with Lt => negb desc | Gt => desc | Eq => false end.

(** ** The cursor *)

Definition dot : ascii := ".".

Definition bytes_string (bs : list Z) : string := Str.of_list (byte_char <$> bs).

Definition encode (s : string) : list ascii := Base64.RawURLEncode (string_bytes s).
Definition decode (l : list ascii) : option string := bytes_string <$> RawURLDecode l.

Definition EncodeKeysetCursor (k : string * string) : string :=
  Str.of_list (encode k.1 ++ dot :: encode k.2).

(** [strings.SplitN(s, ".", 2)], when there are two parts. *)
Fixpoint cut (sep : ascii) (l : list ascii) : option (list ascii * list ascii) :=
  match l with
  | [] => None
  | c :: l => if decide (c = sep) then Some ([], l) else (fun p => (c :: p.1, p.2)) <$> cut sep l
  end.

Definition DecodeKeysetCursor (after : string) : option (string * string) :=
  parts ← cut dot (Str.to_list after); k ← decode parts.1; id ← decode parts.2; Some (k, id).

(** ** [sort.Search] *)

(** Binary search of the first index in [[i, j)] where [f] holds; [fuel] bounds the
    number of halvings. *)
Fixpoint search (fuel : nat) (f : nat -> bool) (i j : nat) : nat :=
  match fuel with
  | O => i
  | S fuel =>
      if (i <? j)%nat
      then let h := Nat.div (i + j) 2 in if f h then search fuel f i h else search fuel f (S h) j
      else i
  end.
Definition Search (n : nat) (f : nat -> bool) : nat := search n f 0 n.

(** ** Sorting and slicing *)

Section keyset.
Context {T : Type} (keyID : T -> string * string).

(** A stable sort keeps a row in front of the ones that are not before it. *)
Definition in_order (desc : bool) (a b : T) : Prop := before desc (keyID b) (keyID a) = false.
#[export] Instance in_order_dec desc : RelDecision (in_order desc).
Proof. unfold RelDecision, in_order. apply _. Defined.

Definition SortKeyset (rows : list T) (desc : bool) : list T := merge_sort (in_order desc) rows.

(** The page, the next cursor and the number of rows; an error for a cursor no store
    minted. *)
Definition KeysetSlice (rows : list T) (q : PageQuery) : result () (list T * option string * Z) :=
  let total := length rows in
  let limit := if pq_Limit q <? 1 then 1%nat else Z.to_nat (pq_Limit q) in
  let slice start :=
    let stop := Nat.min (start + limit) total in
    (take (stop - start) (drop start rows),
     (if (stop <? total)%nat then EncodeKeysetCursor ∘ keyID <$> rows !! Nat.pred stop else None),
     Z.of_nat total) in
  if decide (pq_After q = "") then Ok (slice 0%nat)
  else match DecodeKeysetCursor (pq_After q) with
       | None => Err ()
       | Some c =>
           Ok (slice (Search total (fun i =>
             match rows !! i with Some row => before (pq_Desc q) c (keyID row) | None => true end)))
       end.

End keyset.

(** ** Facts about the order *)

Lemma Compare_Lt s t : Compare s t = Lt <-> str_le s t /\ s <> t.
Proof. unfold Compare, str_le. case_decide; [naive_solver|]. destruct (str_leb s t); naive_solver. Qed.

Lemma Compare_Eq s t : Compare s t = Eq <-> s = t.
Proof. unfold Compare. case_decide; [naive_solver|]. destruct (str_leb s t); naive_solver. Qed.

Lemma Compare_antisym s t : Compare t s = CompOpp (Compare s t).
Proof.
  unfold Compare. destruct (decide (s = t)) as [->|Hn]; [by rewrite decide_True|]. rewrite decide_False by done.
  destruct (str_leb s t) eqn:H1, (str_leb t s) eqn:H2; try done.
  - destruct Hn. by apply str_le_antisymm.
  - destruct (str_leb_total s t); congruence.
Qed.

Lemma Compare_Lt_trans s t u : Compare s t = Lt -> Compare t u = Lt -> Compare s u = Lt.
Proof.
  rewrite !Compare_Lt. intros [H1 N1] [H2 N2]. split; [by etrans|]. intros ->. by apply N1, str_le_antisymm.
Qed.

Lemma CompareKeyID_Eq a b : CompareKeyID a b = Eq <-> a = b.
Proof.
  unfold CompareKeyID. destruct a as [k id], b as [k' id']. cbn.
  destruct (Compare k k') eqn:E; [apply Compare_Eq in E as ->; rewrite Compare_Eq; naive_solver|..];
    (split; [done|]; intros [= -> ->]; by rewrite (proj2 (Compare_Eq _ _) eq_refl) in E).
Qed.

Lemma CompareKeyID_antisym a b : CompareKeyID b a = CompOpp (CompareKeyID a b).
Proof.
  unfold CompareKeyID. rewrite (Compare_antisym a.1 b.1), (Compare_antisym a.2 b.2).
  by destruct (Compare a.1 b.1).
Qed.

Lemma CompareKeyID_trans a b c : CompareKeyID a b = Lt -> CompareKeyID b c = Lt -> CompareKeyID a c = Lt.
Proof.
  unfold CompareKeyID. destruct (Compare a.1 b.1) eqn:E1, (Compare b.1 c.1) eqn:E2; try done.
  - apply Compare_Eq in E1 as ->, E2 as ->. rewrite (proj2 (Compare_Eq _ _) eq_refl). apply Compare_Lt_trans.
  - apply Compare_Eq in E1 as ->. by rewrite E2.
  - apply Compare_Eq in E2 as <-. by rewrite E1.
  - by rewrite (Compare_Lt_trans _ _ _ E1 E2).
Qed.

Lemma before_spec desc a b :
  before desc a b = true <-> if desc then CompareKeyID b a = Lt else CompareKeyID a b = Lt.
Proof. unfold before. rewrite (CompareKeyID_antisym a b). by destruct desc, (CompareKeyID a b). Qed.

Lemma before_irrefl desc a : before desc a a = false.
Proof. unfold before. by rewrite (proj2 (CompareKeyID_Eq a a) eq_refl). Qed.

Lemma before_trans desc a b c : before desc a b = true -> before desc b c = true -> before desc a c = true.
Proof. rewrite !before_spec. destruct desc; eauto using CompareKeyID_trans. Qed.

Lemma before_asym desc a b : before desc a b = true -> before desc b a = false.
Proof. unfold before. rewrite (CompareKeyID_antisym a b). by destruct desc, (CompareKeyID a b). Qed.

Lemma before_total desc a b : before desc a b = false -> before desc b a = false -> a = b.
Proof.
  unfold before. rewrite (CompareKeyID_antisym a b). rewrite <- CompareKeyID_Eq.
  by destruct desc, (CompareKeyID a b).
Qed.

(** ** The cursor round trip *)

Lemma digit_not_dot x : Base64.digit x <> dot.
Proof.
  unfold Base64.digit. generalize (Z.to_nat (Z.land x 63)). intros n.
  destruct (nth_in_or_default n Base64.alphabet "A"%char) as [Hin| ->]; [|done].
  intros E. rewrite E in Hin. apply list_elem_of_In in Hin.
  by apply (bool_decide_eq_false_1 (dot ∈ Base64.alphabet)) in Hin; [|vm_compute].
Qed.

Lemma RawURLEncode_no_dot bs : dot ∉ Base64.RawURLEncode bs.
Proof.
  induction bs as [bs IH] using (induction_ltof1 _ (@length Z)). unfold ltof in IH.
  destruct bs as [|a [|b [|c bs]]]; cbn [Base64.RawURLEncode]; rewrite ?elem_of_cons, ?elem_of_nil; intros Hin;
    repeat (destruct Hin as [Hin|Hin]; [by apply eq_sym, digit_not_dot in Hin|]); [done..|].
  apply (IH bs) in Hin; [done|]. cbn. lia.
Qed.

Lemma decode_encode s : decode (encode s) = Some s.
Proof.
  unfold decode, encode. rewrite RawURLDecode_RawURLEncode by apply string_bytes_range. cbn. f_equal.
  apply string_bytes_inj. unfold bytes_string. apply string_bytes_of, string_bytes_range.
Qed.

Lemma cut_at sep l r : sep ∉ l -> cut sep (l ++ sep :: r) = Some (l, r).
Proof.
  induction l as [|c l IH]; intros Hn; cbn; [by rewrite decide_True|].
  apply not_elem_of_cons in Hn as [Hc Hl]. rewrite decide_False by done. by rewrite IH.
Qed.

Lemma DecodeKeysetCursor_Encode k : DecodeKeysetCursor (EncodeKeysetCursor k) = Some k.
Proof.
  unfold DecodeKeysetCursor, EncodeKeysetCursor. rewrite Str.to_of_list, cut_at by apply RawURLEncode_no_dot.
  cbn [mbind option_bind fst snd]. rewrite !decode_encode. by destruct k.
Qed.

Lemma EncodeKeysetCursor_nonempty k : EncodeKeysetCursor k <> "".
Proof.
  intros E. apply (f_equal Str.to_list) in E. unfold EncodeKeysetCursor in E. rewrite Str.to_of_list in E.
  by destruct (encode k.1).
Qed.

(** ** Binary search *)

Lemma search_spec f fuel i j :
  (forall h h', (h <= h')%nat -> f h = true -> f h' = true) -> (i <= j)%nat -> (j - i <= fuel)%nat ->
  let r := search fuel f i j in
  (i <= r <= j)%nat /\ (forall h, (i <= h < r)%nat -> f h = false) /\ ((r < j)%nat -> f r = true).
Proof.
  intros Hm. revert i j. induction fuel as [|fuel IH]; intros i j Hij Hf; cbn [search]; [repeat split; lia|].
  destruct (Nat.ltb_spec i j); [|repeat split; lia].
  pose proof (Nat.div_mod_eq (i + j) 2). pose proof (Nat.mod_upper_bound (i + j) 2 ltac:(lia)).
  set (h := Nat.div (i + j) 2) in *. destruct (f h) eqn:Hh.
  - destruct (IH i h) as (I1 & I2 & I3); [lia..|]. repeat split; [lia..|by apply I2|]. intros Hr.
    destruct (decide (search fuel f i h < h)%nat); [by apply I3|]. eapply Hm; [|exact Hh]. lia.
  - destruct (IH (S h) j) as (I1 & I2 & I3); [lia..|]. repeat split; [lia..| |by apply I3]. intros h' Hh'.
    destruct (decide (S h <= h')%nat); [apply I2; lia|]. destruct (f h') eqn:E; [|done].
    rewrite (Hm h' h) in Hh; [done|lia|done].
Qed.

(** On a monotone predicate the search finds the first index where it holds. *)
Lemma Search_spec n f :
  (forall h h', (h <= h')%nat -> f h = true -> f h' = true) ->
  (Search n f <= n)%nat /\ (forall h, (h < Search n f)%nat -> f h = false) /\ ((Search n f < n)%nat -> f (Search n f) = true).
Proof.
  intros Hm. destruct (search_spec f n 0 n Hm) as (H1 & H2 & H3); [lia..|]. unfold Search.
  repeat split; [lia| |done]. intros h Hh. apply H2. lia.
Qed.

(** ** Pages *)

Section pages.
Context {T : Type} (keyID : T -> string * string).
Implicit Types (rows : list T) (desc : bool).

Definition ordered desc rows : Prop := StronglySorted (fun a b => before desc (keyID a) (keyID b) = true) rows.

(** The rows a cursor leaves, and the page they give. *)
Definition remaining desc (after : option (string * string)) rows : list T :=
  match after with None => rows | Some c => filter (fun row => before desc c (keyID row) = true) rows end.

Definition limit_of (q : PageQuery) : nat := if pq_Limit q <? 1 then 1%nat else Z.to_nat (pq_Limit q).

Definition next_of (limit : nat) (rest : list T) : option (string * string) :=
  if (limit <? length rest)%nat then keyID <$> last (take limit rest) else None.

Lemma limit_pos q : (1 <= limit_of q)%nat.
Proof. unfold limit_of. destruct (Z.ltb_spec (pq_Limit q) 1); lia. Qed.

#[local] Instance in_order_total desc : Total (in_order keyID desc).
Proof.
  intros a b. unfold in_order. destruct (before desc (keyID b) (keyID a)) eqn:E; [right|by left].
  by apply before_asym.
Qed.
#[local] Instance in_order_trans desc : Transitive (in_order keyID desc).
Proof.
  intros a b c. unfold in_order. intros H1 H2. destruct (before desc (keyID c) (keyID a)) eqn:E; [|done].
  destruct (before desc (keyID a) (keyID b)) eqn:Eab.
  - by rewrite (before_trans _ _ _ _ E Eab) in H2.
  - rewrite (before_total _ _ _ Eab H1) in E. congruence.
Qed.

Lemma SortKeyset_Permutation desc rows : SortKeyset keyID rows desc ≡ₚ rows.
Proof. apply merge_sort_Permutation. Qed.

Lemma SortKeyset_ordered desc rows : NoDup (keyID <$> rows) -> ordered desc (SortKeyset keyID rows desc).
Proof.
  intros Hn. rewrite <- (SortKeyset_Permutation desc) in Hn. unfold SortKeyset in *.
  pose proof (StronglySorted_merge_sort (in_order keyID desc) rows) as Hs.
  induction Hs as [|a l Hs IH Ha]; [constructor|]. apply NoDup_cons in Hn as [Hna Hn].
  constructor; [by apply IH|]. rewrite Forall_forall in Ha |- *. intros b Hb.
  destruct (before desc (keyID a) (keyID b)) eqn:E; [done|]. destruct Hna.
  rewrite (before_total _ _ _ E (Ha b Hb)). by apply list_elem_of_fmap_2.
Qed.

Lemma ordered_filter desc c rows : ordered desc rows -> ordered desc (remaining desc (Some c) rows).
Proof.
  unfold ordered, remaining. induction 1 as [|a l Hs IH Ha]; [constructor|]. rewrite filter_cons. case_decide; [|done].
  constructor; [done|]. apply Forall_forall. intros b [_ Hb]%list_elem_of_filter.
  by eapply Forall_forall in Ha.
Qed.

Lemma ordered_remaining desc after rows : ordered desc rows -> ordered desc (remaining desc after rows).
Proof. destruct after; [apply ordered_filter|done]. Qed.

Lemma ordered_lookup desc rows i j a b :
  ordered desc rows -> rows !! i = Some a -> rows !! j = Some b -> (i < j)%nat -> before desc (keyID a) (keyID b) = true.
Proof.
  intros Hs. revert i j. induction Hs as [|x l Hs IH Hx]; intros i j Hi Hj Hlt; [done|].
  destruct j as [|j]; [lia|]. destruct i as [|i]; cbn in *; [|apply (IH i j); [done..|lia]].
  injection Hi as ->. eapply Forall_forall in Hx; [done|]. by eapply list_elem_of_lookup_2.
Qed.

(** The first index past the cursor splits the rows where the filter does. *)
Lemma drop_Search desc c rows :
  ordered desc rows ->
  let start := Search (length rows) (fun i => match rows !! i with Some row => before desc c (keyID row) | None => true end) in
  (start <= length rows)%nat /\ drop start rows = remaining desc (Some c) rows.
Proof.
  intros Hs. set (f := fun i => _). destruct (Search_spec (length rows) f) as (H1 & H2 & H3).
  - intros h h' Hle Hh. unfold f in *. destruct (rows !! h') as [b|] eqn:Eb; [|done].
    destruct (lookup_lt_is_Some_2 rows h) as [a Ea]; [apply lookup_lt_Some in Eb; lia|]. rewrite Ea in Hh.
    destruct (decide (h = h')) as [<-|]; [congruence|]. eapply before_trans; [done|].
    eapply ordered_lookup; [done..|lia].
  - split; [done|]. unfold remaining. set (start := Search _ _) in *.
    transitivity (filter (fun row => before desc c (keyID row) = true) (take start rows ++ drop start rows));
      [|by rewrite take_drop].
    rewrite filter_app, list_filter_none, app_nil_l; [symmetry; apply list_filter_all|].
    + intros b [i Hi]%list_elem_of_lookup. rewrite lookup_drop in Hi.
      assert (f start = true) as Ht by (apply H3; apply lookup_lt_Some in Hi; lia).
      unfold f in Ht. destruct (lookup_lt_is_Some_2 rows start) as [a Ea]; [apply lookup_lt_Some in Hi; lia|].
      rewrite Ea in Ht. destruct i as [|i]; [rewrite Nat.add_0_r in Hi; congruence|].
      eapply before_trans; [exact Ht|]. eapply ordered_lookup; [done..|lia].
    + intros b [i [Hi Hlt]%lookup_take_Some]%list_elem_of_lookup. specialize (H2 i Hlt). unfold f in H2.
      rewrite Hi in H2. congruence.
Qed.

(** What a cursor of a query means: none for the empty string. *)
Definition cursor (after : option (string * string)) : string := from_option EncodeKeysetCursor "" after.

Lemma KeysetSlice_spec rows q after :
  ordered (pq_Desc q) rows -> pq_After q = cursor after ->
  let rest := remaining (pq_Desc q) after rows in
  KeysetSlice keyID rows q =
    Ok (take (limit_of q) rest, EncodeKeysetCursor <$> next_of (limit_of q) rest, Z.of_nat (length rows)).
Proof.
  intros Hs Ha. unfold KeysetSlice. fold (limit_of q). cbv zeta. pose proof (limit_pos q) as Hl.
  assert (forall start, (start <= length rows)%nat -> drop start rows = remaining (pq_Desc q) after rows ->
    let stop := Nat.min (start + limit_of q) (length rows) in
    take (stop - start) (drop start rows) = take (limit_of q) (remaining (pq_Desc q) after rows) /\
    (if (stop <? length rows)%nat then EncodeKeysetCursor ∘ keyID <$> rows !! Nat.pred stop else None) =
      EncodeKeysetCursor <$> next_of (limit_of q) (remaining (pq_Desc q) after rows)) as Hslice.
  { intros start Hst <-. cbv zeta. unfold next_of. rewrite length_drop.
    destruct (Nat.ltb_spec (limit_of q) (length rows - start)).
    - rewrite Nat.min_l by lia. split; [f_equal; lia|]. rewrite (proj2 (Nat.ltb_lt _ _)) by lia.
      rewrite last_lookup, length_take, length_drop, Nat.min_l by lia. rewrite lookup_take_lt, lookup_drop by lia.
      replace (start + Nat.pred (limit_of q))%nat with (Nat.pred (start + limit_of q)) by lia.
      by destruct (rows !! _).
    - rewrite Nat.min_r by lia. split.
      + rewrite !take_ge; [done|rewrite length_drop; lia..].
      + by rewrite (proj2 (Nat.ltb_ge _ _)) by lia. }
  destruct after as [c|]; cbn [cursor from_option] in Ha.
  - rewrite Ha, decide_False by apply EncodeKeysetCursor_nonempty. rewrite DecodeKeysetCursor_Encode.
    destruct (drop_Search (pq_Desc q) c rows Hs) as [H1 H2]. destruct (Hslice _ H1 H2) as [-> ->]. done.
  - rewrite decide_True by done. by destruct (Hslice 0%nat (Nat.le_0_l _) eq_refl) as [-> ->].
Qed.

(** ** Traversals *)

(** A client asks for page after page; the store holds the rows of [snaps] when each
    page is asked for.  The flag tells whether the last page was reached. *)
Fixpoint traverse (desc : bool) (limit : nat) (after : option (string * string)) (snaps : list (list T)) : list T * bool :=
  match snaps with
  | [] => ([], false)
  | rows :: snaps =>
      let rest := remaining desc after (SortKeyset keyID rows desc) in
      match next_of limit rest with
      | None => (take limit rest, true)
      | Some c => let '(out, fin) := traverse desc limit (Some c) snaps in (take limit rest ++ out, fin)
      end
  end.

Definition past desc (after : option (string * string)) (k : string * string) : Prop :=
  match after with None => True | Some c => before desc c k = true end.

Lemma elem_of_remaining desc after rows row :
  row ∈ remaining desc after rows <-> row ∈ rows /\ past desc after (keyID row).
Proof. destruct after; cbn; [rewrite list_elem_of_filter|]; naive_solver. Qed.

(** The cursor of a page is the key of its last row: the rows after it are those the
    page left. *)
Lemma next_of_spec desc limit rest c :
  (1 <= limit)%nat -> ordered desc rest -> next_of limit rest = Some c ->
  (forall row, row ∈ take limit rest -> keyID row = c \/ before desc (keyID row) c = true) /\
  c ∈ keyID <$> take limit rest /\ remaining desc (Some c) rest = drop limit rest.
Proof.
  intros Hl Hs. unfold next_of. destruct (Nat.ltb_spec limit (length rest)) as [Hlt|]; [|done].
  rewrite last_lookup, length_take, Nat.min_l, lookup_take_lt by lia.
  destruct (rest !! Nat.pred limit) as [x|] eqn:Hx; [|done]. intros [= <-]. split_and!.
  - intros row [i [Hi Hil]%lookup_take_Some]%list_elem_of_lookup.
    destruct (decide (i = Nat.pred limit)) as [->|]; [left; congruence|right].
    eapply ordered_lookup; [done..|lia].
  - apply list_elem_of_fmap_2. apply list_elem_of_lookup. exists (Nat.pred limit).
    rewrite lookup_take_lt; [done|lia].
  - unfold remaining. transitivity (filter (fun row => before desc (keyID x) (keyID row) = true) (take limit rest ++ drop limit rest));
      [by rewrite take_drop|].
    rewrite filter_app, list_filter_none, app_nil_l; [apply list_filter_all|].
    + intros row [i Hi]%list_elem_of_lookup. rewrite lookup_drop in Hi. eapply ordered_lookup; [done..|lia].
    + intros row [i [Hi Hil]%lookup_take_Some]%list_elem_of_lookup Hb.
      destruct (decide (i = Nat.pred limit)) as [->|].
      * assert (row = x) as -> by congruence. by rewrite before_irrefl in Hb.
      * assert (before desc (keyID row) (keyID x) = true) as Hb' by (eapply ordered_lookup; [done..|lia]).
        by rewrite (before_asym _ _ _ Hb') in Hb.
Qed.

Lemma next_of_None limit (rest : list T) : next_of limit rest = None -> (1 <= limit)%nat -> take limit rest = rest.
Proof.
  unfold next_of. intros Hn Hl. revert Hn. destruct (Nat.ltb_spec limit (length rest)) as [Hlt|]; [|intros; by apply take_ge].
  rewrite last_lookup, length_take, Nat.min_l, lookup_take_lt by lia. intros Hn.
  destruct (lookup_lt_is_Some_2 rest (Nat.pred limit)) as [x Hx]; [lia|]. by rewrite Hx in Hn.
Qed.

Lemma remaining_remaining desc after c rows :
  past desc after c -> remaining desc (Some c) (remaining desc after rows) = remaining desc (Some c) rows.
Proof.
  destruct after as [a|]; cbn; [|done]. intros Hac. apply list_filter_filter_l. intros row Hb. by eapply before_trans.
Qed.

(** A traversal returns rows in strictly increasing order, all of them rows of the
    store at some page; once it has reached the end it has returned every key the
    store held throughout. *)
Lemma traverse_spec desc limit after snaps out fin :
  (1 <= limit)%nat -> Forall (fun rows => NoDup (keyID <$> rows)) snaps ->
  traverse desc limit after snaps = (out, fin) ->
  ordered desc out /\
  (forall row, row ∈ out -> past desc after (keyID row) /\ exists rows, rows ∈ snaps /\ row ∈ rows) /\
  (fin = true -> forall k, (forall rows, rows ∈ snaps -> k ∈ keyID <$> rows) -> past desc after k -> k ∈ keyID <$> out).
Proof.
  intros Hl Hn. revert after out fin. induction Hn as [|rows snaps Hr Hn IH]; intros after out fin; cbn [traverse].
  { intros [= <- <-]. split_and!; [constructor|set_solver|done]. }
  assert (ordered desc (remaining desc after (SortKeyset keyID rows desc))) as Ho
    by (by apply ordered_remaining, SortKeyset_ordered).
  assert (forall row, row ∈ remaining desc after (SortKeyset keyID rows desc) <-> row ∈ rows /\ past desc after (keyID row)) as Hin
    by (intros row; by rewrite elem_of_remaining, SortKeyset_Permutation).
  set (rest := remaining desc after _) in *.
  destruct (next_of limit rest) as [c|] eqn:Hc.
  - destruct (traverse desc limit (Some c) snaps) as [out' fin'] eqn:Ht. intros [= <- <-].
    destruct (IH _ _ _ Ht) as (I1 & I2 & I3). destruct (next_of_spec _ _ _ _ Hl Ho Hc) as (N1 & N2 & N3).
    split_and!.
    + apply StronglySorted_app. split_and!; [|eapply (StronglySorted_app_1_l _ _ (drop limit rest)); by rewrite take_drop|done].
      intros a b Ha [Hb _]%I2. cbn in Hb. destruct (N1 a Ha) as [->|Hac]; [done|by eapply before_trans].
    + intros row [Hrow|Hrow]%elem_of_app.
      * assert (row ∈ rest) as [? ?]%Hin by (by eapply subseteq_take). split; [done|]. exists rows. set_solver.
      * destruct (I2 row Hrow) as [Hb (rows' & ? & ?)]. split; [|exists rows'; set_solver].
        apply list_elem_of_fmap in N2 as (x & -> & Hx). assert (x ∈ rest) as [_ Hp]%Hin by (by eapply subseteq_take).
        destruct after; cbn in *; [by eapply before_trans|done].
    + intros -> k Hk Hp. rewrite fmap_app, elem_of_app.
      assert (k ∈ keyID <$> rows) as (row & -> & Hrow)%list_elem_of_fmap by (apply Hk; set_solver).
      assert (row ∈ rest) as Hrest by (by apply Hin). destruct (before desc c (keyID row)) eqn:Hb.
      * right. apply I3; [done| |done]. intros rows' Hrows'. apply Hk. set_solver.
      * left. apply list_elem_of_fmap_2. rewrite <- (take_drop limit rest) in Hrest.
        apply elem_of_app in Hrest as [|Hd]; [done|]. rewrite <- N3 in Hd.
        apply list_elem_of_filter in Hd as [Hd _]. congruence.
  - intros [= <- <-]. rewrite (next_of_None _ _ Hc Hl). split_and!; [done| |].
    + intros row [? ?]%Hin. split; [done|]. exists rows. set_solver.
    + intros _ k Hk Hp. assert (k ∈ keyID <$> rows) as (row & -> & Hrow)%list_elem_of_fmap by (apply Hk; set_solver).
      by apply list_elem_of_fmap_2, Hin.
Qed.

Lemma traverse_static_from desc limit rows n after :
  let rest := remaining desc after (SortKeyset keyID rows desc) in
  (1 <= limit)%nat -> NoDup (keyID <$> rows) -> (length rest <= n * limit)%nat -> (1 <= n)%nat ->
  traverse desc limit after (replicate n rows) = (rest, true).
Proof.
  intros rest Hl Hn. revert after rest. induction n as [|n IH]; intros after rest Hlen H1; [lia|].
  cbn [replicate traverse]. fold rest. pose proof (SortKeyset_ordered desc rows Hn) as Ho.
  pose proof (ordered_remaining desc after _ Ho) as Hr. fold rest in Hr.
  destruct (next_of limit rest) as [c|] eqn:Hc; [|by rewrite (next_of_None _ _ Hc Hl)].
  destruct (next_of_spec _ _ _ _ Hl Hr Hc) as (_ & N2 & N3).
  assert (past desc after c) as Hp.
  { apply list_elem_of_fmap in N2 as (x & -> & Hx). eapply elem_of_remaining. by eapply subseteq_take. }
  unfold rest in N3. rewrite (remaining_remaining _ _ _ _ Hp) in N3. fold rest in N3.
  assert (limit < length rest)%nat by (revert Hc; unfold next_of; by destruct (Nat.ltb_spec limit (length rest))).
  pose proof (IH (Some c)) as Hnext. cbv zeta in Hnext. rewrite N3 in Hnext. rewrite Hnext, take_drop; [done| |].
  - rewrite length_drop. lia.
  - destruct n; lia.
Qed.

(** A store that does not change is read in full, in the pages it takes to hold it. *)
Lemma traverse_static desc limit rows n :
  (1 <= limit)%nat -> NoDup (keyID <$> rows) -> (length rows <= n * limit)%nat -> (1 <= n)%nat ->
  traverse desc limit None (replicate n rows) = (SortKeyset keyID rows desc, true).
Proof.
  intros Hl Hn Hlen H1. apply (traverse_static_from desc limit rows n None); [done..| |done].
  cbn. by rewrite (Permutation_length (SortKeyset_Permutation desc rows)).
Qed.
End pages.
