(* ===== verification/AdminPaging.v ===== *)
(** * AdminPaging: paging of the admin List calls
    (the page cursor codec of shared/security/tls_client_auth.go; [runListPage] and its
    helpers of interfaces/grpcserver/grpcadmin/admin_paginate.go and admin_users.go;
    [ParseFilterExpr] of shared/core/jwks.go).

    A store that pages by itself is asked for one page at a time, its cursor wrapped in
    a token with a MAC; any other store is listed in full and cut by offset.  HMAC is
    [crypto/hmac]. *)
From S2P Require Import Prelude Crypto Core Issue Jose PolicyBundle Keyset.
Local Open Scope Z_scope.

(** ** HMAC-SHA256 *)

Definition hmac (key msg : list Z) : list Z :=
  let key := if (64 <? length key)%nat then SHA256.Sum256 key else key in
  let key := key ++ replicate (64 - length key) 0 in
  SHA256.Sum256 ((Z.lxor 92 <$> key) ++ SHA256.Sum256 ((Z.lxor 54 <$> key) ++ msg)).

(** RFC 4231, test case 2. *)
Example hmac_rfc4231 :
  hex_string (hmac (string_bytes "Jefe") (string_bytes "what do ya want for nothing?"))
  = "5bdcc146bf60754e6a042426089575c75a003f089d2739839dec58b964ec3843".
Proof. vm_compute. reflexivity. Qed.

(** ** The page cursor codec *)

Definition payload (after filter order : string) : list Z :=
  string_bytes after ++ 0 :: string_bytes filter ++ 0 :: string_bytes order.

Definition Encode (key : list Z) (after filter order : string) : string :=
  let p := payload after filter order in
  Str.of_list (Str.to_list "v1." ++ Base64.RawURLEncode p ++ dot :: Base64.RawURLEncode (hmac key p)).

(** [strings.Split(s, "\x00")]. *)
Fixpoint split_zero (l acc : list Z) : list (list Z) :=
  match l with
  | [] => [acc]
  | b :: l => if b =? 0 then acc :: split_zero l [] else split_zero l (acc ++ [b])
  end.

(** [None] is [errInvalidPageToken], whatever went wrong. *)
Definition Decode (key : list Z) (token : string) : option (string * string * string) :=
  match split_dots (Str.to_list token) [] with
  | [v; p; m] =>
      if decide (v = Str.to_list "v1") then
        p ← RawURLDecode p;
        m ← RawURLDecode m;
        if decide (hmac key p = m) then
          match split_zero p [] with
          | [after; filter; order] => Some (bytes_string after, bytes_string filter, bytes_string order)
          | _ => None
          end
        else None
      else None
  | _ => None
  end.

(** ** The filter and order expressions *)

(** [strings.ToLower], on ASCII. *)
Definition lower_char (c : ascii) : ascii :=
  let n := Ascii.nat_of_ascii c in if (Nat.leb 65 n && Nat.leb n 90)%nat then Ascii.ascii_of_nat (n + 32) else c.
Definition ToLower (s : string) : string := Str.of_list (lower_char <$> Str.to_list s).

(** [strings.SplitN(s, sep, 2)], when there are two parts. *)
Fixpoint cut_word (sep l : list ascii) : option (list ascii * list ascii) :=
  if decide (take (length sep) l = sep) then Some ([], drop (length sep) l)
  else match l with [] => None | c :: l => (fun p => (c :: p.1, p.2)) <$> cut_word sep l end.

(** [None] asks for everything; a filter in neither form has the empty field. *)
Definition ParseFilterExpr (expr : string) : option (string * string) :=
  let trim l := Str.TrimSpace (Str.of_list l) in
  let expr := Str.TrimSpace expr in
  if decide (expr = "") then None
  else match cut ":" (Str.to_list expr) with
       | Some (f, v) => Some (trim f, trim v)
       | None => match cut_word (Str.to_list " eq ") (Str.to_list expr) with
                 | Some (f, v) => Some (trim f, trim v)
                 | None => Some ("", expr)
                 end
       end.

Definition parseOrderBy (s : string) : string * bool :=
  match Str.TrimSpace s with
  | String "-" s => (Str.TrimSpace s, true)
  | s => (s, false)
  end.

(** ** Offsets *)

Definition defaultAdminPageSize : Z := 100.
Definition maxAdminPageSize : Z := 1000.

Definition clampPageSize (req : Z) : Z :=
  if req <=? 0 then defaultAdminPageSize else if maxAdminPageSize <? req then maxAdminPageSize else req.

(** [strconv.Atoi] in 64 bits. *)
Definition Atoi (l : list Z) : option Z :=
  let '(sign, ds) := match l with 43 :: l => (1, l) | 45 :: l => (-1, l) | _ => (1, l) end in
  if bool_decide (ds = []) || negb (forallb (fun b => (48 <=? b) && (b <=? 57)) ds) then None
  else let n := sign * foldl (fun v b => 10 * v + (b - 48)) 0 ds in
       if (- 2 ^ 63 <=? n) && (n <? 2 ^ 63) then Some n else None.

(** The answers of a List call; the messages of the errors are fixed but for the
    field, which [InvalidArgument] keeps. *)
Inductive list_error := InvalidArgument (msg : string) | Internal | Unimplemented | OtherStatus.
Definition invalidPageToken : list_error := InvalidArgument "invalid page_token".

Definition decodeOffset (token : string) : result list_error Z :=
  if decide (token = "") then Ok 0
  else match RawURLDecode (Str.to_list token) with
       | None => Err invalidPageToken
       | Some raw => match Atoi raw with
                     | Some off => if off <? 0 then Err invalidPageToken else Ok off
                     | None => Err invalidPageToken
                     end
       end.

Definition encodeOffset (next total : Z) : string :=
  if total <=? next then "" else Str.of_list (Base64.RawURLEncode (string_bytes (itoa next))).

Definition pageBounds (offset size total : Z) : Z * Z :=
  let offset := if total <? offset then total else offset in
  let hi := wrap64 (offset + size) in
  (offset, if total <? hi then total else hi).

(** [int32(n)]. *)
Definition int32 (n : Z) : Z := (n + 2 ^ 31) mod 2 ^ 32 - 2 ^ 31.

Definition pageHintTotal (hint : Z) : Z := if 0 <=? hint then int32 hint else 0.

(** ** [runListPage] *)

Inductive store_error := ErrUnsupportedOperation | StoreError.
(** What listing everything may return: an error already mapped, or the store's own. *)
Inductive all_error := Mapped (e : list_error) | Unmapped (e : store_error).

Record ListRequest := { lr_token : string; lr_pageSize : Z; lr_orderBy : string; lr_filter : string }.

Section run.
Context {T : Type} (key : list Z) (hintTotal : option (Z -> Z)).
Implicit Types (ext : PageQuery -> result store_error (list T * option string * Z)).

Definition page_query (q : ListRequest) (after : string) : PageQuery := {|
  pq_Limit := clampPageSize (lr_pageSize q); pq_OrderBy := (parseOrderBy (lr_orderBy q)).1;
  pq_Desc := (parseOrderBy (lr_orderBy q)).2; pq_Filter := lr_filter q; pq_After := after |}.

Definition filterCanonical (filter : string) : string :=
  match ParseFilterExpr filter with Some (f, v) => ToLower f +:+ ":" +:+ v | None => "" end.

Definition orderCanonical (orderBy : string) : string :=
  let '(field, desc) := parseOrderBy orderBy in (if (desc : bool) then "-" +:+ ToLower field else ToLower field).

(** [None] in the error is the store's [ErrUnsupportedOperation], passed on as it is. *)
Definition runPageExtension ext (validate : string -> string -> option list_error) (q : ListRequest)
    : result (option list_error) (list T * string * Z) :=
  let filter := filterCanonical (lr_filter q) in
  let order := orderCanonical (lr_orderBy q) in
  match validate (lr_filter q) (lr_orderBy q) with
  | Some e => Err (Some e)
  | None =>
      let after :=
        if decide (lr_token q = "") then Some ""
        else match Decode key (lr_token q) with
             | Some (after, f, o) => if decide (f = filter /\ o = order) then Some after else None
             | None => None
             end in
      match after with
      | None => Err (Some invalidPageToken)
      | Some after =>
          match ext (page_query q after) with
          | Err ErrUnsupportedOperation => Err None
          | Err StoreError => Err (Some Internal)
          | Ok (page, next, hint) =>
              Ok (page, match next with
                        | Some next => if decide (next = "") then "" else Encode key next filter order
                        | None => ""
                        end,
                  match hintTotal with Some f => f hint | None => pageHintTotal hint end)
          end
      end
  end.

Definition runListPage (ext : option (PageQuery -> result store_error (list T * option string * Z)))
    (listAll : result all_error (list T)) (filterSort : list T -> result list_error (list T))
    (validate : string -> string -> option list_error) (q : ListRequest) : result list_error (list T * string * Z) :=
  let fallback :=
    match listAll with
    | Err (Mapped e) => Err e
    | Err (Unmapped ErrUnsupportedOperation) => Err Unimplemented
    | Err (Unmapped StoreError) => Err Internal
    | Ok all =>
        all ← filterSort all;
        offset ← decodeOffset (lr_token q);
        let n := Z.of_nat (length all) in
        let '(lo, hi) := pageBounds offset (clampPageSize (lr_pageSize q)) n in
        Ok (take (Z.to_nat (hi - lo)) (drop (Z.to_nat lo) all), encodeOffset hi n, int32 n)
    end in
  match ext with
  | None => fallback
  | Some ext =>
      match runPageExtension ext validate q with
      | Ok r => Ok r
      | Err (Some e) => Err e
      | Err None => fallback
      end
  end.
End run.

(** ** Tokens *)

Definition zero_free (s : string) : Prop := 0 ∉ string_bytes s.

Lemma bytes_string_bytes s : bytes_string (string_bytes s) = s.
Proof. apply string_bytes_inj. unfold bytes_string. apply string_bytes_of, string_bytes_range. Qed.

Lemma split_dots_none l acc : dot ∉ l -> split_dots l acc = [acc ++ l].
Proof.
  revert acc. induction l as [|c l IH]; intros acc Hn; cbn; [by rewrite app_nil_r|].
  apply not_elem_of_cons in Hn as [Hc Hl]. rewrite decide_False by done. by rewrite IH, <- app_assoc.
Qed.

Lemma split_dots_at l r acc : dot ∉ l -> split_dots (l ++ dot :: r) acc = (acc ++ l) :: split_dots r [].
Proof.
  revert acc. induction l as [|c l IH]; intros acc Hn; cbn; [by rewrite app_nil_r|].
  apply not_elem_of_cons in Hn as [Hc Hl]. rewrite decide_False by done. by rewrite IH, <- app_assoc.
Qed.

Lemma split_zero_none l acc : 0 ∉ l -> split_zero l acc = [acc ++ l].
Proof.
  revert acc. induction l as [|c l IH]; intros acc Hn; cbn; [by rewrite app_nil_r|].
  apply not_elem_of_cons in Hn as [Hc Hl]. rewrite (proj2 (Z.eqb_neq _ _)) by done. by rewrite IH, <- app_assoc.
Qed.

Lemma split_zero_at l r acc : 0 ∉ l -> split_zero (l ++ 0 :: r) acc = (acc ++ l) :: split_zero r [].
Proof.
  revert acc. induction l as [|c l IH]; intros acc Hn; cbn; [by rewrite app_nil_r|].
  apply not_elem_of_cons in Hn as [Hc Hl]. rewrite (proj2 (Z.eqb_neq _ _)) by done. by rewrite IH, <- app_assoc.
Qed.

Lemma payload_bytes after filter order : Forall is_byte (payload after filter order).
Proof.
  unfold payload. apply Forall_app. split; [apply string_bytes_range|]. constructor; [unfold is_byte; lia|].
  apply Forall_app. split; [apply string_bytes_range|]. constructor; [unfold is_byte; lia|apply string_bytes_range].
Qed.

(** Decoding inverts encoding under the same key. *)
Lemma Decode_Encode key after filter order :
  zero_free after -> zero_free filter -> zero_free order ->
  Decode key (Encode key after filter order) = Some (after, filter, order).
Proof.
  intros Ha Hf Ho. unfold Decode, Encode. rewrite Str.to_of_list.
  change (Str.to_list "v1.") with (Str.to_list "v1" ++ [dot]). rewrite <- app_assoc. cbn [app].
  rewrite split_dots_at by (apply (bool_decide_eq_false_1 (dot ∈ Str.to_list "v1")); by vm_compute).
  rewrite split_dots_at, split_dots_none by apply RawURLEncode_no_dot. cbn [app].
  rewrite decide_True by done. rewrite (RawURLDecode_RawURLEncode (payload _ _ _)) by apply payload_bytes. cbn [mbind option_bind].
  rewrite RawURLDecode_RawURLEncode by apply Sum256_bytes. cbn [mbind option_bind]. rewrite decide_True by done.
  unfold payload. rewrite split_zero_at, split_zero_at, split_zero_none by done. cbn [app]. by rewrite !bytes_string_bytes.
Qed.

(** What decodes was made with the key: its MAC is the payload's. *)
Lemma Decode_authentic key token after filter order :
  Decode key token = Some (after, filter, order) ->
  exists p m bytes fields, split_dots (Str.to_list token) [] = [Str.to_list "v1"; p; m] /\
    RawURLDecode p = Some bytes /\ RawURLDecode m = Some (hmac key bytes) /\
    split_zero bytes [] = fields /\ bytes_string <$> fields = [after; filter; order].
Proof.
  unfold Decode. destruct (split_dots _ _) as [|v [|p [|m [|]]]]; try done. case_decide as Hv; [|done]. subst v.
  destruct (RawURLDecode p) as [bytes|] eqn:Hp; [|done]. destruct (RawURLDecode m) as [mac|] eqn:Hm; [|done].
  cbn [mbind option_bind]. case_decide as Hmac; [|done]. subst mac.
  destruct (split_zero bytes []) as [|a [|f [|o [|]]]] eqn:Hs; try done. intros [= <- <- <-].
  exists p, m, bytes, [a; f; o]. by rewrite Hm.
Qed.

Lemma digit_not_nul x : Str.byte (Base64.digit x) <> 0.
Proof.
  unfold Base64.digit. generalize (Z.to_nat (Z.land x 63)). intros n.
  destruct (nth_in_or_default n Base64.alphabet "A"%char) as [Hin| ->]; [|done].
  apply list_elem_of_In in Hin.
  assert (Forall (fun c => Str.byte c <> 0) Base64.alphabet) as Ha
    by (apply (bool_decide_eq_true_1 (Forall (fun c => Str.byte c <> 0) Base64.alphabet)); by vm_compute).
  by eapply Forall_forall in Ha.
Qed.

Lemma RawURLEncode_zero_free bs : 0 ∉ Str.byte <$> Base64.RawURLEncode bs.
Proof.
  induction bs as [bs IH] using (induction_ltof1 _ (@length Z)). unfold ltof in IH.
  destruct bs as [|a [|b [|c bs]]]; cbn [Base64.RawURLEncode]; rewrite ?fmap_cons, ?elem_of_cons, ?elem_of_nil; intros Hin;
    repeat (destruct Hin as [Hin|Hin]; [by apply eq_sym, digit_not_nul in Hin|]); [done..|].
  apply (IH bs) in Hin; [done|]. cbn. lia.
Qed.

Lemma cursor_zero_free after : zero_free (cursor after).
Proof.
  destruct after as [k|]; cbn [cursor from_option]; [|apply not_elem_of_nil].
  unfold zero_free, EncodeKeysetCursor, string_bytes. rewrite Str.to_of_list, fmap_app, fmap_cons, elem_of_app, elem_of_cons.
  intros [H|[H|H]]; [by apply RawURLEncode_zero_free in H|done|by apply RawURLEncode_zero_free in H].
Qed.

(** The token of a page is the empty string only at the end. *)
Lemma Encode_nonempty key after filter order : Encode key after filter order <> "".
Proof. intros E. apply (f_equal Str.to_list) in E. unfold Encode in E. by rewrite Str.to_of_list in E. Qed.

(** ** Following the tokens *)

Section follow.
Context {T : Type}.

(** What an administrator does: ask again with the token of the last answer, until it
    is empty.  [calls] are the answers of the server at the successive requests; the
    flag tells whether the end was reached. *)
Fixpoint follow (calls : list (ListRequest -> result list_error (list T * string * Z))) (q : ListRequest)
    : result list_error (list T * bool) :=
  match calls with
  | [] => Ok ([], false)
  | call :: calls =>
      r ← call q;
      let '(items, next, _) := r in
      if decide (next = "") then Ok (items, true)
      else rest ← follow calls {| lr_token := next; lr_pageSize := lr_pageSize q; lr_orderBy := lr_orderBy q; lr_filter := lr_filter q |};
           Ok (items ++ rest.1, rest.2)
  end.

(** A store that keeps [rows] and pages them by keyset. *)
Definition keyset_ext (keyID : T -> string * string) (rows : list T) (q : PageQuery)
    : result store_error (list T * option string * Z) :=
  match KeysetSlice keyID (SortKeyset keyID rows (pq_Desc q)) q with Ok r => Ok r | Err _ => Err StoreError end.

Definition request_after (key : list Z) (after : option (string * string)) (q : ListRequest) : Prop :=
  match after with
  | None => lr_token q = ""
  | Some c => lr_token q = Encode key (EncodeKeysetCursor c) (filterCanonical (lr_filter q)) (orderCanonical (lr_orderBy q))
  end.

(** One page over the extension path. *)
Lemma runPageExtension_keyset key hint ext keyID rows validate q after :
  let desc := (parseOrderBy (lr_orderBy q)).2 in
  let rest := remaining keyID desc after (SortKeyset keyID rows desc) in
  let limit := Z.to_nat (clampPageSize (lr_pageSize q)) in
  NoDup (keyID <$> rows) -> (forall a, ext (page_query q a) = keyset_ext keyID rows (page_query q a)) ->
  validate (lr_filter q) (lr_orderBy q) = None -> zero_free (filterCanonical (lr_filter q)) ->
  zero_free (orderCanonical (lr_orderBy q)) -> request_after key after q ->
  exists total, runPageExtension key hint ext validate q =
    Ok (take limit rest,
        match next_of keyID limit rest with
        | Some c => Encode key (EncodeKeysetCursor c) (filterCanonical (lr_filter q)) (orderCanonical (lr_orderBy q))
        | None => ""
        end, total).
Proof.
  intros desc rest limit Hn Hext Hval Hf Ho Hq. unfold runPageExtension. rewrite Hval.
  assert ((if decide (lr_token q = "") then Some ""
           else match Decode key (lr_token q) with
                | Some (a, f, o) =>
                    if decide (f = filterCanonical (lr_filter q) /\ o = orderCanonical (lr_orderBy q)) then Some a else None
                | None => None
                end) = Some (cursor after)) as ->.
  { destruct after as [c|]; cbn [request_after] in Hq; rewrite Hq; [|done]. rewrite decide_False by apply Encode_nonempty.
    pose proof (cursor_zero_free (Some c)). by rewrite Decode_Encode, decide_True. }
  rewrite Hext. unfold keyset_ext.
  rewrite (KeysetSlice_spec keyID _ _ after) by (done || by apply SortKeyset_ordered). cbv zeta.
  assert (limit_of (page_query q (cursor after)) = limit) as ->.
  { unfold limit_of, limit, page_query. cbn [pq_Limit]. unfold clampPageSize.
    repeat match goal with |- context [if ?b then _ else _] => destruct b eqn:? end; bool_simpl; done || lia. }
  cbn [page_query pq_Desc]. eexists. fold desc rest. destruct (next_of keyID limit rest) as [c|]; cbn [fmap option_fmap option_map]; [|done].
  by rewrite decide_False by apply EncodeKeysetCursor_nonempty.
Qed.

(** Following the tokens is a traversal of the stores of the requests. *)
Lemma follow_keyset key hint validate keyID calls snaps q after :
  let desc := (parseOrderBy (lr_orderBy q)).2 in
  Forall2 (fun call rows => NoDup (keyID <$> rows) /\ forall q',
    lr_pageSize q' = lr_pageSize q -> lr_orderBy q' = lr_orderBy q -> lr_filter q' = lr_filter q ->
    exists ext listAll filterSort, (forall a, ext (page_query q' a) = keyset_ext keyID rows (page_query q' a)) /\
      call q' = runListPage key hint (Some ext) listAll filterSort validate q') calls snaps ->
  validate (lr_filter q) (lr_orderBy q) = None -> zero_free (filterCanonical (lr_filter q)) ->
  zero_free (orderCanonical (lr_orderBy q)) -> request_after key after q ->
  follow calls q = Ok (traverse keyID desc (Z.to_nat (clampPageSize (lr_pageSize q))) after snaps).
Proof.
  intros desc Hall Hval Hf Ho. revert after. revert snaps q desc Hall Hval Hf Ho.
  induction calls as [|call calls IH]; intros snaps q desc Hall Hval Hf Ho after Hq;
    apply Forall2_cons_inv_l in Hall as (rows & snaps' & [Hn Hcall] & Hall & ->) || (apply Forall2_nil_inv_l in Hall as ->; done).
  destruct (Hcall q eq_refl eq_refl eq_refl) as (ext & listAll & filterSort & Hext & Hrun).
  destruct (runPageExtension_keyset key hint ext keyID rows validate q after Hn Hext Hval Hf Ho Hq) as [total Hpage].
  cbn [follow traverse]. rewrite Hrun. unfold runListPage. rewrite Hpage. cbn [mbind result_bind]. fold desc.
  destruct (next_of keyID _ _) as [c|]; [|by rewrite decide_True].
  rewrite decide_False by apply Encode_nonempty.
  rewrite (IH snaps' {| lr_token := _; lr_pageSize := lr_pageSize q; lr_orderBy := lr_orderBy q; lr_filter := lr_filter q |} Hall Hval Hf Ho (Some c) eq_refl).
  cbn. by destruct (traverse _ _ _ _ _).
Qed.
End follow.

(** ** Paging by offset *)

Definition digit_byte (b : Z) : bool := (48 <=? b) && (b <=? 57).

Lemma itoa_loop_digits fuel n acc :
  forallb digit_byte (string_bytes acc) = true -> forallb digit_byte (string_bytes (itoa_loop fuel n acc)) = true.
Proof.
  revert n acc. induction fuel as [|fuel IH]; intros n acc Ha; cbn [itoa_loop]; [done|]. case_match; [|done].
  apply IH. change (string_bytes (String (digit_char (n mod 10)) acc)) with (Str.byte (digit_char (n mod 10)) :: string_bytes acc).
  cbn [forallb]. rewrite Ha, andb_true_r. pose proof (digit_value_char (n mod 10) ltac:(apply Z.mod_pos_bound; lia)) as Hv.
  unfold PolicyBundle.digit_value in Hv. pose proof (Z.mod_pos_bound n 10). unfold digit_byte.
  rewrite andb_true_iff, !Z.leb_le. lia.
Qed.

Lemma itoa_loop_grows fuel n acc : acc <> "" -> itoa_loop fuel n acc <> "".
Proof.
  revert n acc. induction fuel as [|fuel IH]; intros n acc Ha; cbn [itoa_loop]; [done|]. case_match; [by apply IH|done].
Qed.

Lemma itoa_digits n : 0 <= n -> forallb digit_byte (string_bytes (itoa n)) = true /\ itoa n <> "".
Proof.
  intros Hn. unfold itoa. destruct (Z.eqb_spec n 0); [done|]. split; [by apply itoa_loop_digits|].
  cbn [itoa_loop]. rewrite (proj2 (Z.ltb_lt _ _)) by lia. by apply itoa_loop_grows.
Qed.

Lemma value_foldl s v : value s v = foldl (fun v b => 10 * v + (b - 48)) v (string_bytes s).
Proof. revert v. induction s as [|c s IH]; intros v; [done|]. apply IH. Qed.

Lemma Atoi_itoa n : 0 <= n < 2 ^ 63 -> Atoi (string_bytes (itoa n)) = Some n.
Proof.
  intros Hn. destruct (itoa_digits n) as [Hd He]; [lia|]. pose proof (itoa_value n ltac:(lia)) as Hv.
  rewrite value_foldl in Hv. unfold Atoi.
  destruct (string_bytes (itoa n)) as [|b l] eqn:Hl; [by destruct (itoa n)|].
  assert (match b :: l with 43 :: l => (1, l) | 45 :: l => (-1, l) | _ => (1, b :: l) end = (1, b :: l)) as ->.
  { cbn [forallb] in Hd. unfold digit_byte in Hd. bool_simpl. destruct b as [|p|p]; try lia.
    do 6 (try (destruct p as [p|p|]; try lia)); done. }
  change (fun b => (48 <=? b) && (b <=? 57)) with digit_byte. rewrite Hd, Hv, bool_decide_eq_false_2 by done. cbn [negb orb].
  rewrite Z.mul_1_l, (proj2 (Z.leb_le _ _)), (proj2 (Z.ltb_lt _ _)) by lia. done.
Qed.

Lemma decodeOffset_encode n total : 0 <= n < 2 ^ 63 -> n < total -> decodeOffset (encodeOffset n total) = Ok n.
Proof.
  intros Hn Ht. unfold decodeOffset, encodeOffset. rewrite (proj2 (Z.leb_gt _ _)) by done.
  assert (string_bytes (itoa n) <> []) as Hne.
  { destruct (itoa_digits n) as [_ He]; [lia|]. intros E. apply He. by destruct (itoa n). }
  rewrite decide_False.
  - rewrite Str.to_of_list, RawURLDecode_RawURLEncode by apply string_bytes_range.
    rewrite Atoi_itoa by done. by rewrite (proj2 (Z.ltb_ge _ _)) by lia.
  - intros E. apply (f_equal Str.to_list) in E. rewrite Str.to_of_list in E.
    by destruct (string_bytes (itoa n)) as [|? [|? [|? ?]]].
Qed.

(** A listing that does not change is cut into pages that make it up. *)
Lemma follow_offsets {T} key hint validate filterSort (all rows : list T) q n offset :
  let size := clampPageSize (lr_pageSize q) in
  filterSort all = Ok rows -> Z.of_nat (length rows) < 2 ^ 62 -> 0 <= offset < 2 ^ 62 ->
  decodeOffset (lr_token q) = Ok offset -> Z.of_nat (length rows) <= offset + Z.of_nat n * size -> (1 <= n)%nat ->
  follow (replicate n (runListPage key hint None (Ok all) filterSort validate)) q = Ok (drop (Z.to_nat offset) rows, true).
Proof.
  intros size Hfs Hlen Hoff Hq Hn. assert (1 <= size <= 1000) as Hs.
  { unfold size, clampPageSize, defaultAdminPageSize, maxAdminPageSize.
    repeat match goal with |- context [if ?b then _ else _] => destruct b eqn:? end; bool_simpl; lia. }
  revert q offset size Hoff Hq Hn Hs. induction n as [|n IH]; intros q offset size Hoff Hq Hn Hs H1; [lia|].
  cbn [replicate follow].
  assert (runListPage key hint None (Ok all) filterSort validate q =
    let '(lo, hi) := pageBounds offset size (Z.of_nat (length rows)) in
    Ok (take (Z.to_nat (hi - lo)) (drop (Z.to_nat lo) rows), encodeOffset hi (Z.of_nat (length rows)),
        int32 (Z.of_nat (length rows)))) as ->.
  { unfold runListPage. rewrite Hfs. cbn [mbind result_bind]. by rewrite Hq. }
  unfold pageBounds. set (total := Z.of_nat (length rows)) in *.
  destruct (Z.ltb_spec total offset).
  - assert (wrap64 (total + size) = total + size) as -> by (unfold wrap64; rewrite Z.mod_small; lia).
    rewrite (proj2 (Z.ltb_lt _ _)) by lia. rewrite Z.sub_diag. cbn [mbind result_bind]. unfold encodeOffset. rewrite Z.leb_refl, decide_True by done.
    by rewrite !drop_ge by lia.
  - assert (wrap64 (offset + size) = offset + size) as -> by (unfold wrap64; rewrite Z.mod_small; lia).
    destruct (Z.ltb_spec total (offset + size)); cbn [mbind result_bind].
    + unfold encodeOffset. rewrite Z.leb_refl, decide_True by done. rewrite take_ge; [done|]. rewrite length_drop. lia.
    + destruct (decide (total = offset + size)) as [Heq|Hne].
      * unfold encodeOffset. rewrite (proj2 (Z.leb_le _ _)), decide_True by lia || done.
        rewrite take_ge; [done|]. rewrite length_drop. lia.
      * rewrite decide_False.
        -- rewrite (IH {| lr_token := _; lr_pageSize := lr_pageSize q; lr_orderBy := lr_orderBy q; lr_filter := lr_filter q |} (offset + size));
             [|lia|apply decodeOffset_encode; lia|cbn; fold size; lia|done|cbn; destruct n; lia].
           cbn [mbind result_bind fst snd]. do 2 f_equal. replace (offset + size - offset) with size by lia.
           rewrite <- (take_drop (Z.to_nat size) (drop (Z.to_nat offset) rows)) at 2. rewrite drop_drop. do 2 f_equal. lia.
        -- intros E. pose proof (decodeOffset_encode (offset + size) total ltac:(lia) ltac:(lia)) as Hd. rewrite E in Hd.
           injection Hd as Hd. lia.
Qed.
