(* ===== verification/Users.v ===== *)
(** * Users: the in-memory user directory and its admin service
    (core.User and the filter and sort semantics of shared/core/jwks.go;
    infrastructure/defaultimpl/memorystoreidentity/memory_users.go;
    interfaces/grpcserver/grpcadmin/admin_users.go; [ListUsers] of
    internal/adminuser/service.go).

    The directory keeps two indexes, by user name and by e-mail in lower case, next to
    its users.  [strings.ToLower] is modelled on ASCII, and time on the years RFC 3339
    can write. *)
From Stdlib Require Znumtheory.
From S2P Require Import Prelude Crypto Core Json Keyset AdminPaging.
Local Open Scope Z_scope.

Record User := {
  us_ID : string;
  us_ExternalID : string;
  us_Provider : string;
  us_Email : string;
  us_Username : string;
  us_Name : string;
  us_DisplayName : string;
  us_Attributes : gmap string string;
  us_CreatedAt : Z;
  us_UpdatedAt : Z;
}.

#[export] Instance User_eq_dec : EqDecision User.
Proof. solve_decision. Defined.

Definition UserAttrActive : string := "scim:active".
Definition UserAttrInactive : string := "false".
Definition IsActive (u : User) : bool :=
  negb (bool_decide (default "" (us_Attributes u !! UserAttrActive) = UserAttrInactive)).

(** ** The directory *)

Record MemoryUserProvider := {
  mp_users : gmap string User;
  mp_byUsername : gmap string string;
  mp_byEmail : gmap string string;
}.

Inductive user_error := ErrNoSuchUser | ErrUserExists | ErrUserIDRequired.

Definition NewMemoryUserProvider : MemoryUserProvider :=
  {| mp_users := ∅; mp_byUsername := ∅; mp_byEmail := ∅ |}.

Definition GetByID (id : string) (p : MemoryUserProvider) : result user_error User :=
  match mp_users p !! id with Some u => Ok u | None => Err ErrNoSuchUser end.

(** The scan of a map stops at a user of its choice when several match: the answers it
    may give. *)
Definition GetByExternalID (provider externalID : string) (p : MemoryUserProvider) (r : result user_error User) : Prop :=
  let found u := us_Provider u = provider /\ us_ExternalID u = externalID in
  match r with
  | Ok u => (exists id, mp_users p !! id = Some u) /\ found u
  | Err e => e = ErrNoSuchUser /\ forall id u, mp_users p !! id = Some u -> ~ found u
  end.

Definition by_index (index : gmap string string) (name : string) (p : MemoryUserProvider) : result user_error User :=
  match index !! ToLower name with None => Err ErrNoSuchUser | Some id => GetByID id p end.

Definition GetByUsername (username : string) (p : MemoryUserProvider) : result user_error User :=
  by_index (mp_byUsername p) username p.
Definition GetByEmail (email : string) (p : MemoryUserProvider) : result user_error User :=
  by_index (mp_byEmail p) email p.
Definition UsernameExists (username : string) (p : MemoryUserProvider) : bool :=
  bool_decide (is_Some (mp_byUsername p !! ToLower username)).
Definition EmailExists (email : string) (p : MemoryUserProvider) : bool :=
  bool_decide (is_Some (mp_byEmail p !! ToLower email)).

(** Another user holds the name. *)
Definition taken (index : gmap string string) (name id : string) : bool :=
  negb (bool_decide (name = "")) &&
  match index !! ToLower name with Some owner => negb (bool_decide (owner = id)) | None => false end.

Definition unindex (name : string) (index : gmap string string) : gmap string string :=
  if decide (name = "") then index else delete (ToLower name) index.
Definition reindex (name id : string) (index : gmap string string) : gmap string string :=
  if decide (name = "") then index else <[ToLower name := id]> index.

(** The entries of the user stored under [id] leave the indexes. *)
Definition forget (id : string) (p : MemoryUserProvider) : MemoryUserProvider :=
  match mp_users p !! id with
  | None => p
  | Some u => {| mp_users := mp_users p; mp_byUsername := unindex (us_Username u) (mp_byUsername p);
                 mp_byEmail := unindex (us_Email u) (mp_byEmail p) |}
  end.

Definition CreateOrUpdate (user : User) (p : MemoryUserProvider) : result user_error () * MemoryUserProvider :=
  if decide (us_ID user = "") then (Err ErrUserIDRequired, p)
  else if taken (mp_byUsername p) (us_Username user) (us_ID user) then (Err ErrUserExists, p)
  else if taken (mp_byEmail p) (us_Email user) (us_ID user) then (Err ErrUserExists, p)
  else let p := forget (us_ID user) p in
       (Ok (), {| mp_users := <[us_ID user := user]> (mp_users p);
                  mp_byUsername := reindex (us_Username user) (us_ID user) (mp_byUsername p);
                  mp_byEmail := reindex (us_Email user) (us_ID user) (mp_byEmail p) |}).

Definition Delete (id : string) (p : MemoryUserProvider) : MemoryUserProvider :=
  let p := forget id p in
  {| mp_users := delete id (mp_users p); mp_byUsername := mp_byUsername p; mp_byEmail := mp_byEmail p |}.

Definition List (p : MemoryUserProvider) : list User := (map_to_list (mp_users p)).*2.

(** [None] is the panic of a negative slice index. *)
Definition ListPaginated (offset limit : Z) (p : MemoryUserProvider) : option (list User * Z) :=
  let total := Z.of_nat (size (mp_users p)) in
  let offset := if total <? offset then total else offset in
  let limit := if limit <=? 0 then 10 else limit in
  let limit := if 100 <? limit then 100 else limit in
  let stop := wrap64 (offset + limit) in
  let stop := if total <? stop then total else stop in
  let sorted := merge_sort str_le (map_to_list (mp_users p)).*1 in
  if (offset <? 0) || (stop <? offset) then None
  else let ids := take (Z.to_nat (stop - offset)) (drop (Z.to_nat offset) sorted) in
       Some (omap (fun id => mp_users p !! id) ids, total).

(** [ListUsers] of the HTTP service: pages count from 1. *)
Definition ListUsers (page limit : Z) (p : MemoryUserProvider) : option (list User * Z) :=
  let page := if page <? 1 then 1 else page in
  let limit := if limit <=? 0 then 10 else limit in
  let limit := if 100 <? limit then 100 else limit in
  ListPaginated (wrap64 ((page - 1) * limit)) limit p.

(** ** Filters and orders *)

Definition Contains (s sub : string) : bool :=
  bool_decide (is_Some (cut_word (Str.to_list sub) (Str.to_list s))).

Definition unsupportedFilter (field : string) : list_error := InvalidArgument ("unsupported filter field " +:+ field).
Definition unsupportedOrder (field : string) : list_error := InvalidArgument ("unsupported order_by field " +:+ field).

Definition ValidateUserFilter (field value : string) : option list_error :=
  if contains ["id"; "provider"; "external_id"; "name"; "email"] (ToLower field) then None
  else Some (unsupportedFilter field).

Definition UserMatches (u : User) (field value : string) : result list_error bool :=
  let field' := ToLower field in
  if decide (field' = "id") then Ok (bool_decide (us_ID u = value))
  else if decide (field' = "provider") then Ok (bool_decide (us_Provider u = value))
  else if decide (field' = "external_id") then Ok (bool_decide (us_ExternalID u = value))
  else if decide (field' = "name") then Ok (Contains (ToLower (us_Name u)) (ToLower value))
  else if decide (field' = "email") then Ok (Contains (ToLower (us_Email u)) (ToLower value))
  else Err (unsupportedFilter field).

Definition ValidateUserOrderBy (field : string) : option list_error :=
  if contains [""; "id"; "created_at"; "provider"] (ToLower field) then None else Some (unsupportedOrder field).

Definition UserSortKey (u : User) (field : string) : string :=
  if decide (ToLower field = "created_at") then time_text (us_CreatedAt u)
  else if decide (ToLower field = "provider") then us_Provider u
  else us_ID u.

Definition CompareUsers (a b : User) (field : string) : comparison :=
  let by_id := Compare (us_ID a) (us_ID b) in
  if decide (ToLower field = "created_at") then
    if GoTime.Before (us_CreatedAt a) (us_CreatedAt b) then Lt
    else if GoTime.After (us_CreatedAt a) (us_CreatedAt b) then Gt else by_id
  else if decide (ToLower field = "provider") then
    match Compare (us_Provider a) (us_Provider b) with Eq => by_id | c => c end
  else by_id.

(** The loop over the users stops at the first error. *)
Fixpoint matching (field value : string) (us : list User) : result list_error (list User) :=
  match us with
  | [] => Ok []
  | u :: us => m ← UserMatches u field value; rest ← matching field value us; Ok (if (m : bool) then u :: rest else rest)
  end.

(** [filterUsers] of the admin service. *)
Definition filterUsers (all : list User) (expr : string) : result list_error (list User) :=
  match ParseFilterExpr expr with None => Ok all | Some (field, value) => matching field value all end.

Definition user_key (orderBy : string) (u : User) : string * string := (UserSortKey u orderBy, us_ID u).

(** [ListPage] of the directory; an error of the filter is the store's. *)
Definition ListPage (q : PageQuery) (p : MemoryUserProvider) : result store_error (list User * option string * Z) :=
  let filtered :=
    match ParseFilterExpr (pq_Filter q) with
    | None => Ok (List p)
    | Some (field, value) =>
        match ValidateUserFilter field value with Some e => Err e | None => matching field value (List p) end
    end in
  match filtered with
  | Err _ => Err StoreError
  | Ok users =>
      match KeysetSlice (user_key (pq_OrderBy q)) (SortKeyset (user_key (pq_OrderBy q)) users (pq_Desc q)) q with
      | Ok r => Ok r
      | Err _ => Err StoreError
      end
  end.

Definition user_order (field : string) (desc : bool) (a b : User) : Prop :=
  (if desc then CompareUsers a b field else CompareUsers b a field) <> Lt.
#[export] Instance user_order_dec field desc : RelDecision (user_order field desc).
Proof. unfold RelDecision, user_order. apply _. Defined.

Definition sortUsers (all : list User) (orderBy : string) : result list_error (list User) :=
  let '(field, desc) := parseOrderBy orderBy in
  match ValidateUserOrderBy field with Some e => Err e | None => Ok (merge_sort (user_order field desc) all) end.

Definition validateListSpecUser (filter orderBy : string) : option list_error :=
  match (match ParseFilterExpr filter with Some (field, value) => ValidateUserFilter field value | None => None end) with
  | Some e => Some e
  | None => ValidateUserOrderBy (parseOrderBy orderBy).1
  end.

(** ** The admin service *)

Inductive admin_error := UserExists | UserNotFound | UserInvalidArgument | UserInternal.

Record ProtoUser := { pu_Id : string; pu_ExternalId : string; pu_Provider : string; pu_Attributes : gmap string string }.

Definition adminUserAttrDenylist : list string := ["password_hash"; "password_hash_format"; "seeded_password"].

Definition redactAdminUserAttrs (attrs : gmap string string) : gmap string string :=
  foldl (fun m k => delete k m) attrs adminUserAttrDenylist.

Definition userToProto (u : User) : ProtoUser := {|
  pu_Id := us_ID u; pu_ExternalId := us_ExternalID u; pu_Provider := us_Provider u;
  pu_Attributes := redactAdminUserAttrs (us_Attributes u) |}.

Definition protoToUser (i : ProtoUser) : User := {|
  us_ID := pu_Id i; us_ExternalID := pu_ExternalId i; us_Provider := pu_Provider i; us_Email := ""; us_Username := "";
  us_Name := ""; us_DisplayName := ""; us_Attributes := pu_Attributes i; us_CreatedAt := 0; us_UpdatedAt := 0 |}.

Definition applyProtoToExistingUser (u : User) (i : ProtoUser) : User := {|
  us_ID := pu_Id i; us_ExternalID := pu_ExternalId i; us_Provider := pu_Provider i; us_Email := us_Email u;
  us_Username := us_Username u; us_Name := us_Name u; us_DisplayName := us_DisplayName u;
  us_Attributes := pu_Attributes i; us_CreatedAt := us_CreatedAt u; us_UpdatedAt := us_UpdatedAt u |}.

Definition AdminGet (id : string) (p : MemoryUserProvider) : result admin_error ProtoUser :=
  if decide (id = "") then Err UserInvalidArgument
  else match GetByID id p with Ok u => Ok (userToProto u) | Err _ => Err UserNotFound end.

Definition AdminCreate (i : ProtoUser) (p : MemoryUserProvider) : result admin_error ProtoUser * MemoryUserProvider :=
  if decide (pu_Id i = "") then (Err UserInvalidArgument, p)
  else match GetByID (pu_Id i) p with
       | Ok _ => (Err UserExists, p)
       | Err _ =>
           let u := protoToUser i in
           match CreateOrUpdate u p with
           | (Err _, p) => (Err UserInternal, p)
           | (Ok _, p) => (Ok (userToProto u), p)
           end
       end.

Definition AdminUpdate (i : ProtoUser) (p : MemoryUserProvider) : result admin_error ProtoUser * MemoryUserProvider :=
  if decide (pu_Id i = "") then (Err UserInvalidArgument, p)
  else match GetByID (pu_Id i) p with
       | Err _ => (Err UserNotFound, p)
       | Ok existing =>
           let u := applyProtoToExistingUser existing i in
           match CreateOrUpdate u p with
           | (Err _, p) => (Err UserInternal, p)
           | (Ok _, p) => (Ok (userToProto u), p)
           end
       end.

Definition AdminDelete (id : string) (p : MemoryUserProvider) : result admin_error () * MemoryUserProvider :=
  if decide (id = "") then (Err UserInvalidArgument, p) else (Ok (), Delete id p).

(** [UserAdminService.List], before the users become protos. *)
Definition AdminList (key : list Z) (p : MemoryUserProvider) (q : ListRequest) : result list_error (list User * string * Z) :=
  runListPage key None (Some (fun pq => ListPage pq p)) (Ok (List p))
    (fun all => all ← filterUsers all (lr_filter q); sortUsers all (lr_orderBy q)) validateListSpecUser q.

(** ** The invariant of the directory *)

(** An index holds exactly the users with a name, under the name in lower case. *)
Definition index_ok (f : User -> string) (users : gmap string User) (index : gmap string string) : Prop :=
  forall k id, index !! k = Some id <-> exists u, users !! id = Some u /\ f u <> "" /\ ToLower (f u) = k.

Record directory_ok (p : MemoryUserProvider) : Prop := {
  ids_ok id u : mp_users p !! id = Some u -> us_ID u = id /\ id <> "";
  usernames_ok : index_ok us_Username (mp_users p) (mp_byUsername p);
  emails_ok : index_ok us_Email (mp_users p) (mp_byEmail p);
}.

Lemma index_forget f users index id u :
  index_ok f users index -> users !! id = Some u -> index_ok f (delete id users) (unindex (f u) index).
Proof.
  intros Hi Hu k id'. unfold unindex. destruct (decide (id' = id)) as [->|Hne].
  - rewrite lookup_delete_eq. split; [|naive_solver]. case_decide as He; [rewrite (Hi k id); naive_solver|].
    destruct (decide (k = ToLower (f u))) as [->|]; [by rewrite lookup_delete_eq|].
    rewrite lookup_delete_ne by done. rewrite (Hi k id). naive_solver.
  - rewrite lookup_delete_ne by done. rewrite <- (Hi k id'). case_decide as He; [done|].
    destruct (decide (k = ToLower (f u))) as [->|]; [|by rewrite lookup_delete_ne].
    rewrite lookup_delete_eq. split; [done|]. intros E. destruct Hne.
    assert (index !! ToLower (f u) = Some id) as Hid by (apply Hi; eauto). congruence.
Qed.

Lemma index_put f users index u :
  index_ok f users index -> users !! us_ID u = None -> taken index (f u) (us_ID u) = false ->
  index_ok f (<[us_ID u := u]> users) (reindex (f u) (us_ID u) index).
Proof.
  intros Hi Hu Ht k id'. unfold taken, reindex in *. destruct (decide (id' = us_ID u)) as [->|Hne].
  - rewrite lookup_insert_eq. destruct (decide (f u = "")) as [He|He]; [rewrite (Hi k); naive_solver|].
    destruct (decide (k = ToLower (f u))) as [->|]; [rewrite lookup_insert_eq; naive_solver|].
    rewrite lookup_insert_ne by done. rewrite (Hi k). naive_solver.
  - rewrite lookup_insert_ne by done. rewrite <- (Hi k id'). destruct (decide (f u = "")) as [He|He]; [done|].
    destruct (decide (k = ToLower (f u))) as [->|]; [|by rewrite lookup_insert_ne].
    rewrite lookup_insert_eq. split; [congruence|]. intros E. rewrite E, bool_decide_eq_false_2 in Ht by done.
    cbn in Ht. destruct (bool_decide (id' = us_ID u)) eqn:Eb; [|done]. by apply bool_decide_eq_true in Eb.
Qed.

(** Taking the names of a stored user out of the indexes leaves the other names taken. *)
Lemma taken_forget f users index id u name :
  index_ok f users index -> users !! id = Some u -> taken index name id = false ->
  taken (unindex (f u) index) name id = false.
Proof.
  intros Hi Hu. unfold taken, unindex. case_decide; [done|]. destruct (bool_decide (name = "")); [done|]. cbn [negb andb].
  destruct (decide (ToLower name = ToLower (f u))) as [->|]; [by rewrite lookup_delete_eq|by rewrite lookup_delete_ne].
Qed.

Lemma Delete_ok id p : directory_ok p -> directory_ok (Delete id p).
Proof.
  intros [H1 H2 H3]. unfold Delete, forget. destruct (mp_users p !! id) as [u|] eqn:Hu; split; cbn.
  - intros id' u' [_ ?]%lookup_delete_Some. by apply H1.
  - by apply index_forget.
  - by apply index_forget.
  - intros id' u' [_ ?]%lookup_delete_Some. by apply H1.
  - by rewrite delete_id.
  - by rewrite delete_id.
Qed.

Lemma CreateOrUpdate_ok u p r p' : CreateOrUpdate u p = (r, p') -> directory_ok p -> directory_ok p'.
Proof.
  intros H [H1 H2 H3]. unfold CreateOrUpdate in H. case_decide as Hid; [by simplify_eq|].
  destruct (taken (mp_byUsername p) _ _) eqn:T1; [by simplify_eq|]. destruct (taken (mp_byEmail p) _ _) eqn:T2; [by simplify_eq|].
  injection H as <- <-. split.
  - intros id' u'. replace (mp_users _) with (<[us_ID u := u]> (mp_users p)) by (unfold forget; by destruct (mp_users p !! us_ID u)).
    destruct (decide (id' = us_ID u)) as [->|]; [rewrite lookup_insert_eq; by intros [= ->]|].
    rewrite lookup_insert_ne by done. apply H1.
  - unfold forget. destruct (mp_users p !! us_ID u) as [old|] eqn:Ho; cbn; [rewrite <- insert_delete_eq|];
      apply index_put; solve [done | apply lookup_delete_eq | by apply index_forget | by eapply taken_forget].
  - unfold forget. destruct (mp_users p !! us_ID u) as [old|] eqn:Ho; cbn; [rewrite <- insert_delete_eq|];
      apply index_put; solve [done | apply lookup_delete_eq | by apply index_forget | by eapply taken_forget].
Qed.

(** What changes a directory. *)
Inductive dir_step : MemoryUserProvider -> MemoryUserProvider -> Prop :=
| dir_put u p : dir_step p (CreateOrUpdate u p).2
| dir_remove id p : dir_step p (Delete id p)
| dir_create i p : dir_step p (AdminCreate i p).2
| dir_update i p : dir_step p (AdminUpdate i p).2
| dir_delete id p : dir_step p (AdminDelete id p).2.

Lemma dir_step_ok p p' : dir_step p p' -> directory_ok p -> directory_ok p'.
Proof.
  assert (forall u p, directory_ok p -> directory_ok (CreateOrUpdate u p).2) as Hput.
  { intros u q Hq. by eapply CreateOrUpdate_ok, Hq; rewrite <- surjective_pairing. }
  intros [u q|id q|i q|i q|id q] Hq; [by apply Hput|by apply Delete_ok|..].
  - unfold AdminCreate. case_decide; [done|]. destruct (GetByID _ _); [done|].
    pose proof (Hput (protoToUser i) q Hq). by destruct (CreateOrUpdate _ q) as [[|] ?].
  - unfold AdminUpdate. case_decide; [done|]. destruct (GetByID _ _) as [e|]; [|done].
    pose proof (Hput (applyProtoToExistingUser e i) q Hq). by destruct (CreateOrUpdate _ q) as [[|] ?].
  - unfold AdminDelete. case_decide; [done|]. by apply Delete_ok.
Qed.

Lemma directory_reachable p : rtc dir_step NewMemoryUserProvider p -> directory_ok p.
Proof.
  intros H. assert (directory_ok NewMemoryUserProvider) as H0.
  { split; cbn; [done|..]; intros k id; by rewrite ?lookup_empty; naive_solver. }
  induction H as [|p p' p'' Hs _ IH]; [done|]. by apply IH; eapply dir_step_ok.
Qed.

Lemma by_index_spec f index p name u :
  index_ok f (mp_users p) index ->
  by_index index name p = Ok u <->
  (exists id, mp_users p !! id = Some u) /\ f u <> "" /\ ToLower (f u) = ToLower name.
Proof.
  intros Hi. unfold by_index, GetByID. split.
  - destruct (index !! ToLower name) as [id|] eqn:E; [|done]. destruct (mp_users p !! id) as [u'|] eqn:Eu; [|done].
    intros [= ->]. apply Hi in E as (u' & Hu' & ? & ?). split; [by exists id|]. by simplify_eq.
  - intros ([id Hu] & Hn & Hl). rewrite (proj2 (Hi (ToLower name) id)) by eauto. by rewrite Hu.
Qed.

Lemma index_unique f index users id id' u u' :
  index_ok f users index -> users !! id = Some u -> users !! id' = Some u' -> f u <> "" -> f u' <> "" ->
  ToLower (f u) = ToLower (f u') -> id = id'.
Proof.
  intros Hi Hu Hu' Hn Hn' E. assert (index !! ToLower (f u) = Some id) by (apply Hi; eauto).
  assert (index !! ToLower (f u) = Some id') by (apply Hi; eauto). congruence.
Qed.

(** ** Listing *)

Definition user_matches (filter : string) (u : User) : bool :=
  match ParseFilterExpr filter with
  | None => true
  | Some (field, value) => match UserMatches u field value with Ok b => b | Err _ => false end
  end.

Definition matching_users (flt : string) (p : MemoryUserProvider) : list User :=
  filter (fun u => user_matches flt u = true) (List p).

Lemma matching_Ok field value us :
  ValidateUserFilter field value = None ->
  matching field value us = Ok (filter (fun u => match UserMatches u field value with Ok b => b | Err _ => false end = true) us).
Proof.
  intros Hv. assert (forall u, exists b, UserMatches u field value = Ok b) as Hm.
  { intros u. unfold ValidateUserFilter in Hv. destruct (contains _ _) eqn:Hc; [|done]. apply contains_spec in Hc.
    unfold UserMatches. repeat (case_decide; [eauto|]). set_solver. }
  induction us as [|u us IH]; [done|]. cbn [matching]. rewrite filter_cons. destruct (Hm u) as [b Hb]. rewrite Hb, IH.
  cbn. by destruct b.
Qed.

Lemma ListPage_keyset p q a :
  validateListSpecUser (lr_filter q) (lr_orderBy q) = None ->
  ListPage (page_query q a) p = keyset_ext (user_key (parseOrderBy (lr_orderBy q)).1) (matching_users (lr_filter q) p) (page_query q a).
Proof.
  unfold validateListSpecUser. intros Hv. unfold ListPage, keyset_ext, matching_users, user_matches. cbn [page_query pq_Filter pq_OrderBy].
  destruct (ParseFilterExpr (lr_filter q)) as [[field value]|].
  - destruct (ValidateUserFilter field value) eqn:Hf; [done|]. by rewrite matching_Ok.
  - by rewrite (list_filter_all _ (List p)).
Qed.

Lemma elem_of_List p u : u ∈ List p <-> exists id, mp_users p !! id = Some u.
Proof.
  unfold List. rewrite list_elem_of_fmap. setoid_rewrite <- elem_of_map_to_list. split.
  - intros ([id u'] & -> & H). by exists id.
  - intros [id H]. by exists (id, u).
Qed.

Lemma matching_users_keys flt order p : directory_ok p -> NoDup (user_key order <$> matching_users flt p).
Proof.
  intros Hp. assert (NoDup (us_ID <$> List p)) as Hn.
  { replace (us_ID <$> List p) with (map_to_list (mp_users p)).*1; [apply NoDup_fst_map_to_list|].
    unfold List. rewrite <- list_fmap_compose. apply list_fmap_ext. intros i [id u] Hi.
    assert (mp_users p !! id = Some u) as Hu by (apply elem_of_map_to_list; by eapply list_elem_of_lookup_2).
    cbn. by destruct (ids_ok p Hp id u Hu). }
  apply (NoDup_fmap_1 snd). rewrite <- list_fmap_compose. change (NoDup (us_ID <$> matching_users flt p)).
  eapply sublist_NoDup; [exact Hn|]. apply fmap_sublist, sublist_filter.
Qed.

Lemma orderCanonical_zero_free orderBy : ValidateUserOrderBy (parseOrderBy orderBy).1 = None -> zero_free (orderCanonical orderBy).
Proof.
  unfold ValidateUserOrderBy, orderCanonical. destruct (parseOrderBy orderBy) as [field desc]. cbn [fst].
  destruct (contains _ _) eqn:Hc; [|done]. intros _. apply contains_spec in Hc.
  assert (Forall (fun o => zero_free o /\ zero_free ("-" +:+ o)) [""; "id"; "created_at"; "provider"]) as Hall
    by (repeat constructor; apply (bool_decide_eq_true_1 (zero_free _)); vm_compute; reflexivity).
  eapply Forall_forall in Hall as [? ?]; [|exact Hc]. by destruct desc.
Qed.

(** What an administrator reads by following the tokens of [AdminList]. *)
Definition list_pages (key : list Z) (stores : list MemoryUserProvider) (q : ListRequest) : result list_error (list User * bool) :=
  follow (AdminList key <$> stores) q.

Lemma list_pages_traverse key stores q :
  Forall directory_ok stores -> lr_token q = "" ->
  validateListSpecUser (lr_filter q) (lr_orderBy q) = None -> zero_free (filterCanonical (lr_filter q)) ->
  list_pages key stores q =
    Ok (traverse (user_key (parseOrderBy (lr_orderBy q)).1) (parseOrderBy (lr_orderBy q)).2
          (Z.to_nat (clampPageSize (lr_pageSize q))) None (matching_users (lr_filter q) <$> stores)).
Proof.
  intros Hok Ht Hv Hz. unfold list_pages. eapply (follow_keyset key None validateListSpecUser); [|done|done| |done].
  - apply Forall2_fmap. apply Forall_Forall2_diag. apply (Forall_impl _ _ _ Hok). intros p Hp.
    split; [by apply matching_users_keys|]. intros q' E1 E2 E3.
    exists (fun pq => ListPage pq p), (Ok (List p)), (fun all => all ← filterUsers all (lr_filter q'); sortUsers all (lr_orderBy q')).
    split; [|done]. intros a. rewrite ListPage_keyset by (by rewrite E2, E3). by rewrite E2, E3.
  - apply orderCanonical_zero_free. unfold validateListSpecUser in Hv. by repeat case_match.
Qed.

(** ** Chronology *)

Lemma str_leb_branch l r r' a b :
  Forall is_octet (l ++ a :: r) -> Forall is_octet (l ++ b :: r') -> a < b ->
  str_leb (Str.of_list (byte_char <$> l ++ a :: r)) (Str.of_list (byte_char <$> l ++ b :: r')) = true /\
  str_leb (Str.of_list (byte_char <$> l ++ b :: r')) (Str.of_list (byte_char <$> l ++ a :: r)) = false.
Proof.
  intros Ha Hb Hab. induction l as [|c l IH]; cbn.
  - apply Forall_cons in Ha as [Ha _]. apply Forall_cons in Hb as [Hb _]. unfold is_octet, Str.byte, byte_char in *.
    rewrite !Ascii.N_ascii_embedding, !Z2N.id by lia. split.
    + by rewrite (proj2 (Z.ltb_lt _ _)) by lia.
    + rewrite (proj2 (Z.ltb_ge _ _)), (proj2 (Z.eqb_neq _ _)) by lia. done.
  - apply Forall_cons in Ha as [_ Ha]. apply Forall_cons in Hb as [_ Hb].
    rewrite Z.ltb_irrefl, Z.eqb_refl. cbn. by apply IH.
Qed.

(** The text of a time up to its whole seconds. *)
Definition seconds_text (t : Z) : bytes :=
  let '(y, m, d) := Date t in
  let s := t mod Day in
  digits 4 y ++ [45] ++ digits 2 m ++ [45] ++ digits 2 d ++ [84] ++
  digits 2 (s / GoTime.Hour) ++ [58] ++ digits 2 (s / GoTime.Minute mod 60) ++ [58] ++ digits 2 (s / GoTime.Second mod 60).

Lemma RFC3339Nano_seconds t : RFC3339Nano t = seconds_text t ++ fraction (t mod GoTime.Second) ++ [90].
Proof.
  unfold RFC3339Nano, seconds_text. destruct (Date t) as [[y m] d]. rewrite <- !app_assoc. cbn [app].
  replace (t mod GoTime.Second) with ((t mod Day) mod GoTime.Second); [done|].
  symmetry. apply Znumtheory.Zmod_div_mod; [done..|]. by exists 86400.
Qed.

Lemma seconds_text_same t u : t / GoTime.Second = u / GoTime.Second -> seconds_text t = seconds_text u.
Proof.
  intros E. assert (forall x k, 0 < k -> x / (GoTime.Second * k) = x / GoTime.Second / k) as Hk
    by (intros x k Hpos; by rewrite Z.div_div).
  assert (forall x, x / Day = x / GoTime.Second / 86400) as Hd by (intros x; by rewrite <- Hk).
  assert (forall x, x mod Day / GoTime.Second = (x / GoTime.Second) mod 86400) as Hs.
  { intros x. rewrite (Z.mod_eq x Day), (Z.mod_eq (x / _) 86400), <- Hd by done.
    assert (Day = 86400 * GoTime.Second) as HD by done. generalize (x / Day). intros q.
    replace (x - Day * q) with (x + - (86400 * q) * GoTime.Second) by (rewrite HD; lia).
    rewrite Z.div_add by done. lia. }
  assert (forall x, x / GoTime.Hour = x / GoTime.Second / 3600) as Hh by (intros x; by rewrite <- Hk).
  assert (forall x, x / GoTime.Minute = x / GoTime.Second / 60) as Hm by (intros x; by rewrite <- Hk).
  unfold seconds_text, Date. by rewrite !Hh, !Hm, !Hs, !Hd, E.
Qed.

(** A time within a second of a whole one: its text sorts before the earlier one's,
    because [.] comes before [Z]. *)
Lemma time_text_misordered t u :
  t mod GoTime.Second = 0 -> t < u < t + GoTime.Second -> Compare (time_text u) (time_text t) = Lt.
Proof.
  intros Ht Hu. assert (u / GoTime.Second = t / GoTime.Second) as Hq
    by (unfold GoTime.Second in *; Z.to_euclidean_division_equations; lia).
  assert (u mod GoTime.Second <> 0) as Hm by (unfold GoTime.Second in *; Z.to_euclidean_division_equations; lia).
  destruct (fraction (u mod GoTime.Second)) as [|b ds] eqn:Hf.
  { destruct Hm. apply fraction_inj; [by apply Z.mod_pos_bound|done|]. by rewrite Hf. }
  assert (b = 46) as ->. { unfold fraction in Hf. destruct (drop_zeros _); [done|]. by simplify_eq. }
  assert (RFC3339Nano u = seconds_text u ++ 46 :: ds ++ [90]) as Eu by (by rewrite RFC3339Nano_seconds, Hf).
  assert (RFC3339Nano t = seconds_text u ++ 90 :: []) as Et by (by rewrite RFC3339Nano_seconds, Ht, (seconds_text_same t u)).
  assert (forall x, Forall is_octet (RFC3339Nano x)) as Ho
    by (intros x; eapply Forall_impl; [apply RFC3339Nano_ascii|unfold ascii_byte, is_octet; lia]).
  destruct (str_leb_branch (seconds_text u) (ds ++ [90]) [] 46 90) as [H1 H2]; [rewrite <- ?Eu, <- ?Et; apply Ho..|done|].
  rewrite <- Eu, <- Et in H1, H2. apply Compare_Lt. split; [exact H1|]. intros E. unfold time_text in E. rewrite E in H2. congruence.
Qed.

(** ** Properties *)

(** In every state the operations lead to, the directory finds a user by name or e-mail
    in any case exactly when one is stored with it, and no two users share one. *)
Theorem user_directory_exact p :
  rtc dir_step NewMemoryUserProvider p ->
  (forall name u, GetByUsername name p = Ok u <->
    (exists id, mp_users p !! id = Some u) /\ us_Username u <> "" /\ ToLower (us_Username u) = ToLower name) /\
  (forall email u, GetByEmail email p = Ok u <->
    (exists id, mp_users p !! id = Some u) /\ us_Email u <> "" /\ ToLower (us_Email u) = ToLower email) /\
  (forall id id' u u', mp_users p !! id = Some u -> mp_users p !! id' = Some u' ->
    us_Username u <> "" /\ us_Username u' <> "" /\ ToLower (us_Username u) = ToLower (us_Username u') \/
    us_Email u <> "" /\ us_Email u' <> "" /\ ToLower (us_Email u) = ToLower (us_Email u') -> id = id') /\
  (forall id u, mp_users p !! id = Some u -> us_ID u = id).
Proof.
  intros H%directory_reachable. destruct H as [H1 H2 H3]. split_and!.
  - intros name u. by apply by_index_spec.
  - intros email u. by apply by_index_spec.
  - intros id id' u u' Hu Hu' [(? & ? & ?)|(? & ? & ?)]; [by eapply (index_unique us_Username)|by eapply (index_unique us_Email)].
  - intros id u Hu. by destruct (H1 id u Hu).
Qed.


(** Listing by creation time is not chronological: of two users created in the same
    second, the first at the whole second, the directory lists the second one first,
    while the admin service's own comparison puts the first one first. *)
Theorem created_at_misordered u v :
  us_CreatedAt u mod GoTime.Second = 0 -> us_CreatedAt u < us_CreatedAt v < us_CreatedAt u + GoTime.Second ->
  before false (user_key "created_at" v) (user_key "created_at" u) = true /\
  CompareUsers u v "created_at" = Lt.
Proof.
  intros Hu Hv. split.
  - apply before_spec. unfold CompareKeyID, user_key, UserSortKey. cbn [fst].
    rewrite !decide_True by (vm_compute; reflexivity). by rewrite time_text_misordered.
  - unfold CompareUsers. rewrite decide_True by (vm_compute; reflexivity).
    unfold GoTime.Before. by rewrite (proj2 (Z.ltb_lt _ _)) by lia.
Qed.

(** An administrator who reads a user and writes it back unchanged erases the user's
    stored password: the answer of [AdminGet] leaves it out and [AdminUpdate] replaces
    all the attributes. *)
Theorem admin_update_erases_password p id u i :
  directory_ok p -> mp_users p !! id = Some u -> AdminGet id p = Ok i ->
  exists r p' u', AdminUpdate i p = (Ok r, p') /\ mp_users p' !! id = Some u' /\
    us_Username u' = us_Username u /\ us_UpdatedAt u' = us_UpdatedAt u /\
    us_Attributes u' !! "password_hash" = None /\ us_Attributes u' !! "password_hash_format" = None.
Proof.
  intros [H1 H2 H3] Hu. destruct (H1 id u Hu) as [Hid Hne]. unfold AdminGet, AdminUpdate, GetByID.
  rewrite decide_False by done. rewrite Hu. intros [= <-]. cbn [pu_Id userToProto]. rewrite Hid, decide_False, Hu by done.
  set (w := applyProtoToExistingUser u (userToProto u)).
  assert (us_ID w = id) as Hw by done.
  assert (forall f index, index_ok f (mp_users p) index -> f w = f u -> taken index (f w) id = false) as Hfree.
  { intros f index Hi E. unfold taken. rewrite E. destruct (decide (f u = "")) as [->|Hf]; [done|].
    rewrite bool_decide_eq_false_2 by done. rewrite (proj2 (Hi (ToLower (f u)) id)) by eauto.
    by rewrite bool_decide_eq_true_2. }
  unfold CreateOrUpdate. rewrite Hw, decide_False by done.
  rewrite (Hfree us_Username _ H2 eq_refl), (Hfree us_Email _ H3 eq_refl).
  eexists _, _, w. split; [reflexivity|]. cbn [mp_users].
  split; [unfold forget; rewrite Hu; apply lookup_insert_eq|]. split; [done|]. split; [done|].
  unfold w. cbn [us_Attributes applyProtoToExistingUser pu_Attributes userToProto].
  unfold redactAdminUserAttrs, adminUserAttrDenylist. cbn [foldl].
  split; rewrite !lookup_delete_None; tauto.
Qed.

(** Pages of the HTTP listing: as long as the offset fits in 64 bits the page is the
    slice of the sorted ids; a page number that does not can make it panic. *)
Theorem list_users_page p page limit :
  1 <= page < 2 ^ 63 -> 1 <= limit <= 100 -> Z.of_nat (size (mp_users p)) < 2 ^ 62 ->
  ((page - 1) * limit < 2 ^ 63 ->
    ListUsers page limit p =
      Some (omap (fun id => mp_users p !! id)
              (take (Z.to_nat limit) (drop (Z.to_nat ((page - 1) * limit)) (merge_sort str_le (map_to_list (mp_users p)).*1))),
            Z.of_nat (size (mp_users p)))) /\
  (wrap64 ((page - 1) * limit) < 0 -> ListUsers page limit p = None) /\
  ListUsers (2 ^ 63 - 1) 100 p = None.
Proof.
  intros Hp Hl Hs. assert (forall o, 0 <= o < 2 ^ 63 -> wrap64 o = o) as Hw
    by (intros o Ho; unfold wrap64; rewrite Z.mod_small; lia).
  assert (ListUsers page limit p = ListPaginated (wrap64 ((page - 1) * limit)) limit p) as E.
  { unfold ListUsers. by rewrite (proj2 (Z.ltb_ge page 1)), (proj2 (Z.leb_gt limit 0)), (proj2 (Z.ltb_ge 100 limit)) by lia. }
  assert (forall o l q, o < 0 -> ListPaginated o l q = None) as Hneg.
  { intros o l q Ho. unfold ListPaginated. rewrite (proj2 (Z.ltb_ge _ o)) by lia. by rewrite (proj2 (Z.ltb_lt o 0)). }
  split_and!.
  - intros Hfit. rewrite E, Hw by nia. set (o := (page - 1) * limit) in *. assert (0 <= o) by nia. unfold ListPaginated.
    rewrite (proj2 (Z.leb_gt limit 0)), (proj2 (Z.ltb_ge 100 limit)) by lia.
    assert (length (merge_sort str_le (map_to_list (mp_users p)).*1) = size (mp_users p)) as Hlen
      by (by rewrite merge_sort_Permutation, length_fmap, length_map_to_list).
    set (total := Z.of_nat (size (mp_users p))) in *. set (ids := merge_sort _ _) in *.
    destruct (Z.ltb_spec total o).
    + rewrite Hw by lia. rewrite (proj2 (Z.ltb_lt total (total + limit))), (proj2 (Z.ltb_ge total 0)), Z.ltb_irrefl by lia.
      cbn [orb]. rewrite Z.sub_diag, (drop_ge ids (Z.to_nat o)) by lia. by rewrite take_nil.
    + rewrite Hw, (proj2 (Z.ltb_ge o 0)) by lia. destruct (Z.ltb_spec total (o + limit)).
      * rewrite (proj2 (Z.ltb_ge total o)) by lia. cbn [orb]. rewrite !(take_ge (drop _ ids)); [done|rewrite length_drop; lia..].
      * rewrite (proj2 (Z.ltb_ge (o + limit) o)) by lia. cbn [orb]. by replace (o + limit - o) with limit by lia.
  - intros Hlt. rewrite E. by apply Hneg.
  - unfold ListUsers. by apply Hneg.
Qed.

(** ** Concrete directories *)

Definition sample_user (id name : string) (created : Z) (attrs : gmap string string) : User := {|
  us_ID := id; us_ExternalID := ""; us_Provider := "local"; us_Email := name +:+ "@example.com"; us_Username := name;
  us_Name := name; us_DisplayName := ""; us_Attributes := attrs; us_CreatedAt := created; us_UpdatedAt := 0 |}.

Definition alice : User := sample_user "u1" "Alice" 5000000000 {["password_hash" := "$2a$10$x"]}.
Definition bob : User := sample_user "u2" "Bob" 5500000000 ∅.
Definition carol : User := sample_user "u3" "Carol" 9000000000 ∅.

Definition put_all (us : list User) : MemoryUserProvider := foldl (fun p u => (CreateOrUpdate u p).2) NewMemoryUserProvider us.

Lemma put_all_reachable us : rtc dir_step NewMemoryUserProvider (put_all us).
Proof.
  unfold put_all. generalize NewMemoryUserProvider. induction us as [|u us IH]; intros p; [done|].
  eapply rtc_l; [apply dir_put|apply IH].
Qed.

Lemma put_all_ok us : directory_ok (put_all us).
Proof. apply directory_reachable, put_all_reachable. Qed.

Definition by_name (order : string) : ListRequest :=
  {| lr_token := ""; lr_pageSize := 1; lr_orderBy := order; lr_filter := "provider:local" |}.

(** A second [alice] is refused, whatever the case of the name. *)
Example name_taken : (CreateOrUpdate (sample_user "u9" "ALICE" 0 ∅) (put_all [alice; bob])).1 = Err ErrUserExists.
Proof. vm_compute. reflexivity. Qed.

(** Three pages of one user each, while a user leaves and another comes. *)
Example pages_ex :
  list_pages [1] [put_all [alice; bob]; put_all [alice; bob; carol]; put_all [bob; carol]] (by_name "-id")
  = Ok ([bob; alice], true) /\
  list_pages [1] [put_all [alice; bob]; put_all [alice; bob; carol]; put_all [bob; carol]] (by_name "id")
  = Ok ([alice; bob; carol], true).
Proof. split; vm_compute; reflexivity. Qed.

Lemma user_directory_exact_witness : GetByUsername "aLICE" (put_all [alice; bob]) = Ok alice.
Proof.
  refine (proj2 (proj1 (user_directory_exact (put_all [alice; bob]) (put_all_reachable _)) "aLICE" alice) _).
  split; [exists "u1"; vm_compute; reflexivity|]. split; [done|]. vm_compute. reflexivity.
Defined.


Lemma created_at_misordered_witness : before false (user_key "created_at" bob) (user_key "created_at" alice) = true.
Proof. apply created_at_misordered; [reflexivity|split; reflexivity]. Defined.

Lemma admin_update_erases_password_witness :
  exists r p' u', AdminUpdate (userToProto alice) (put_all [alice; bob]) = (Ok r, p') /\ mp_users p' !! "u1" = Some u' /\
    us_Attributes alice !! "password_hash" = Some "$2a$10$x" /\ us_Attributes u' !! "password_hash" = None.
Proof.
  destruct (admin_update_erases_password (put_all [alice; bob]) "u1" alice (userToProto alice)) as (r & p' & u' & H1 & H2 & _ & _ & H5 & _).
  - apply put_all_ok.
  - vm_compute. reflexivity.
  - vm_compute. reflexivity.
  - exists r, p', u'. split; [exact H1|]. split; [exact H2|]. split; [vm_compute; reflexivity|exact H5].
Defined.

Lemma list_users_page_witness : ListUsers 2 1 (put_all [alice; bob]) = Some ([bob], 2).
Proof.
  rewrite (proj1 (list_users_page (put_all [alice; bob]) 2 1 ltac:(lia) ltac:(lia) ltac:(vm_compute; reflexivity)) ltac:(lia)).
  vm_compute. reflexivity.
Defined.
