(* ===== verification/Clients.v ===== *)
(** * Clients: the in-memory client store, secret rotation and expiry
    (infrastructure/defaultimpl/memorystoreidentity/memory_clients.go;
    shared/security/client_secret.go and clientrotation; the client service of
    interfaces/grpcserver/grpcadmin/admin_clients.go and admin_paginate.go; the filter
    and sort semantics of clients in shared/core/jwks.go).

    bcrypt is an external library: hashing and comparing are arguments, and what its
    documentation says of them is a hypothesis of the theorems that need it. *)
From S2P Require Import Prelude Crypto Core Scopes CibaStore Json Keyset AdminPaging Users.
Local Open Scope Z_scope.

Inductive client_error :=
| ErrNoSuchClient | ErrClientExists | ErrClientIDRequired | ErrHash | ErrRand
| ErrNoSecret | ErrInvalidSecret | ErrSecretExpired | ErrClientInactive.

Notation MemoryClientStore := (gmap string Client).

Definition DefaultOverlap : Z := 24 * GoTime.Hour.
Definition DefaultLifetime : Z := 90 * 24 * GoTime.Hour.

Definition ExpiresAt (now lifetime : Z) : Z := if lifetime <=? 0 then 0 else GoTime.Add now lifetime.

Definition isBcryptHash (value : string) : bool := HasPrefix value "$2".

Definition set_secret (c : Client) (secret previous : string) (overlapUntil rotatedAt expiresAt : Z) : Client := {|
  cl_ID := cl_ID c; cl_Secret := secret; cl_Name := cl_Name c; cl_RedirectURIs := cl_RedirectURIs c;
  cl_RedirectURIPatterns := cl_RedirectURIPatterns c; cl_AllowedScopes := cl_AllowedScopes c;
  cl_AllowedAuthenticators := cl_AllowedAuthenticators c; cl_AllowedProviderIDs := cl_AllowedProviderIDs c;
  cl_LoginPageURI := cl_LoginPageURI c; cl_TokenStrategy := cl_TokenStrategy c; cl_Active := cl_Active c;
  cl_Federation := cl_Federation c; cl_TenantID := cl_TenantID c; cl_RequirePKCE := cl_RequirePKCE c;
  cl_AllowedResources := cl_AllowedResources c; cl_RegistrationAccessToken := cl_RegistrationAccessToken c;
  cl_PreviousRegistrationAccessToken := cl_PreviousRegistrationAccessToken c;
  cl_RegistrationAccessTokenOverlapUntil := cl_RegistrationAccessTokenOverlapUntil c;
  cl_PostLogoutRedirectURIs := cl_PostLogoutRedirectURIs c;
  cl_AllowedAuthorizationDetailsTypes := cl_AllowedAuthorizationDetailsTypes c;
  cl_RefreshTokenTTL := cl_RefreshTokenTTL c; cl_AccessTokenTTL := cl_AccessTokenTTL c; cl_GrantTypes := cl_GrantTypes c;
  cl_PreviousSecret := previous; cl_SecretOverlapUntil := overlapUntil; cl_SecretRotatedAt := rotatedAt;
  cl_SecretExpiresAt := expiresAt;
  cl_JWKS := cl_JWKS c; cl_TokenEndpointAuthMethod := cl_TokenEndpointAuthMethod c; cl_TLSClientAuthSubjectDN := cl_TLSClientAuthSubjectDN c;
  cl_TLSClientAuthSANDNS := cl_TLSClientAuthSANDNS c; cl_TLSClientAuthSANEmail := cl_TLSClientAuthSANEmail c;
  cl_TLSClientAuthSANURI := cl_TLSClientAuthSANURI c; cl_Attributes := cl_Attributes c |}.

Definition set_registration_token (c : Client) (token : string) : Client := {|
  cl_ID := cl_ID c; cl_Secret := cl_Secret c; cl_Name := cl_Name c; cl_RedirectURIs := cl_RedirectURIs c;
  cl_RedirectURIPatterns := cl_RedirectURIPatterns c; cl_AllowedScopes := cl_AllowedScopes c;
  cl_AllowedAuthenticators := cl_AllowedAuthenticators c; cl_AllowedProviderIDs := cl_AllowedProviderIDs c;
  cl_LoginPageURI := cl_LoginPageURI c; cl_TokenStrategy := cl_TokenStrategy c; cl_Active := cl_Active c;
  cl_Federation := cl_Federation c; cl_TenantID := cl_TenantID c; cl_RequirePKCE := cl_RequirePKCE c;
  cl_AllowedResources := cl_AllowedResources c; cl_RegistrationAccessToken := token;
  cl_PreviousRegistrationAccessToken := cl_PreviousRegistrationAccessToken c;
  cl_RegistrationAccessTokenOverlapUntil := cl_RegistrationAccessTokenOverlapUntil c;
  cl_PostLogoutRedirectURIs := cl_PostLogoutRedirectURIs c;
  cl_AllowedAuthorizationDetailsTypes := cl_AllowedAuthorizationDetailsTypes c;
  cl_RefreshTokenTTL := cl_RefreshTokenTTL c; cl_AccessTokenTTL := cl_AccessTokenTTL c; cl_GrantTypes := cl_GrantTypes c;
  cl_PreviousSecret := cl_PreviousSecret c; cl_SecretOverlapUntil := cl_SecretOverlapUntil c;
  cl_SecretRotatedAt := cl_SecretRotatedAt c; cl_SecretExpiresAt := cl_SecretExpiresAt c;
  cl_JWKS := cl_JWKS c; cl_TokenEndpointAuthMethod := cl_TokenEndpointAuthMethod c; cl_TLSClientAuthSubjectDN := cl_TLSClientAuthSubjectDN c;
  cl_TLSClientAuthSANDNS := cl_TLSClientAuthSANDNS c; cl_TLSClientAuthSANEmail := cl_TLSClientAuthSANEmail c;
  cl_TLSClientAuthSANURI := cl_TLSClientAuthSANURI c; cl_Attributes := cl_Attributes c |}.

(** ** The store *)

Definition Get (id : string) (m : MemoryClientStore) : result client_error Client :=
  match m !! id with Some c => Ok c | None => Err ErrNoSuchClient end.

Section bcrypt.
(** [bcrypt.CompareHashAndPassword] succeeds; [bcrypt.GenerateFromPassword], which
    draws a salt: its answer in the call at hand. *)
Context (compare : string -> string -> bool).

Definition CompareClientSecret (stored plaintext : string) : bool :=
  if isBcryptHash stored then compare stored plaintext else bool_decide (stored = plaintext).

Definition ValidateSecret (now : Z) (clientID clientSecret : string) (m : MemoryClientStore) : result client_error () :=
  match m !! clientID with
  | None => Err ErrNoSuchClient
  | Some c =>
      if decide (cl_Secret c = "") then Err ErrNoSecret
      else
        let current := CompareClientSecret (cl_Secret c) clientSecret in
        let previous := GoTime.Before now (cl_SecretOverlapUntil c) && CompareClientSecret (cl_PreviousSecret c) clientSecret in
        if negb current && negb previous then Err ErrInvalidSecret
        else if negb (GoTime.IsZero (cl_SecretExpiresAt c)) && negb (GoTime.Before now (cl_SecretExpiresAt c)) then Err ErrSecretExpired
        else if negb (cl_Active c) then Err ErrClientInactive
        else Ok ()
  end.
End bcrypt.

(** A secret that is already a hash is kept, any other is hashed. *)
Definition hashed (gen : string -> option string) (secret : string) : option string :=
  if bool_decide (secret = "") || isBcryptHash secret then Some secret else gen secret.

(** [AddSeed] keeps what it cannot hash. *)
Definition AddSeed (gen : string -> option string) (c : Client) (m : MemoryClientStore) : MemoryClientStore :=
  let keep s := default s (hashed gen s) in
  let c := set_registration_token c (keep (cl_RegistrationAccessToken c)) in
  <[cl_ID c := set_secret c (keep (cl_Secret c)) (keep (cl_PreviousSecret c)) (cl_SecretOverlapUntil c)
                 (cl_SecretRotatedAt c) (cl_SecretExpiresAt c)]> m.

Definition Add (gen : string -> option string) (now : Z) (c : Client) (m : MemoryClientStore)
    : result client_error () * MemoryClientStore :=
  if decide (cl_ID c = "") then (Err ErrClientIDRequired, m)
  else match hashed gen (cl_Secret c), hashed gen (cl_RegistrationAccessToken c), hashed gen (cl_PreviousSecret c) with
       | Some secret, Some token, Some previous =>
           let '(rotated, expires) :=
             if decide (secret = "") then (cl_SecretRotatedAt c, cl_SecretExpiresAt c)
             else (now, if GoTime.IsZero (cl_SecretExpiresAt c) then GoTime.Add now DefaultLifetime else cl_SecretExpiresAt c) in
           let c := set_registration_token (set_secret c secret previous (cl_SecretOverlapUntil c) rotated expires) token in
           match m !! cl_ID c with
           | Some _ => (Err ErrClientExists, m)
           | None => (Ok (), <[cl_ID c := c]> m)
           end
       | _, _, _ => (Err ErrHash, m)
       end.

Definition Update (gen : string -> option string) (c : Client) (m : MemoryClientStore)
    : result client_error () * MemoryClientStore :=
  if decide (cl_ID c = "") then (Err ErrClientIDRequired, m)
  else match hashed gen (cl_Secret c), hashed gen (cl_RegistrationAccessToken c) with
       | Some secret, Some token =>
           let c := set_registration_token (set_secret c secret (cl_PreviousSecret c) (cl_SecretOverlapUntil c)
                                              (cl_SecretRotatedAt c) (cl_SecretExpiresAt c)) token in
           match m !! cl_ID c with
           | None => (Err ErrNoSuchClient, m)
           | Some _ => (Ok (), <[cl_ID c := c]> m)
           end
       | _, _ => (Err ErrHash, m)
       end.

Definition DeleteClient (id : string) (m : MemoryClientStore) : MemoryClientStore := delete id m.

(** [draw] is the secret drawn, [None] when the source of randomness fails. *)
Definition RotateSecretWithLifecycle (gen : string -> option string) (draw : option string) (now : Z)
    (id : string) (overlap lifetime : Z) (m : MemoryClientStore) : result client_error string * MemoryClientStore :=
  match m !! id with
  | None => (Err ErrNoSuchClient, m)
  | Some c =>
      match draw with
      | None => (Err ErrRand, m)
      | Some plaintext =>
          match gen plaintext with
          | None => (Err ErrHash, m)
          | Some h =>
              let '(previous, until) :=
                if (0 <? overlap) && negb (bool_decide (cl_Secret c = ""))
                then (cl_Secret c, GoTime.Add now overlap) else ("", 0) in
              (Ok plaintext, <[id := set_secret c h previous until now (ExpiresAt now lifetime)]> m)
          end
      end
  end.

Definition RotateSecret gen draw now id m := RotateSecretWithLifecycle gen draw now id 0 DefaultLifetime m.
Definition RotateSecretWithOverlap gen draw now id overlap m :=
  RotateSecretWithLifecycle gen draw now id overlap DefaultLifetime m.

Definition due (olderThan : Z) (c : Client) : bool :=
  cl_Active c && negb (bool_decide (cl_Secret c = "")) && negb (GoTime.IsZero (cl_SecretRotatedAt c)) &&
  negb (GoTime.After (cl_SecretRotatedAt c) olderThan).

Definition Clients (m : MemoryClientStore) : list Client := (map_to_list m).*2.

Definition ListDueForRotation (olderThan : Z) (m : MemoryClientStore) : list string :=
  cl_ID <$> filter (fun c => due olderThan c = true) (Clients m).

Definition ListByTenant (tenantID : string) (m : MemoryClientStore) : list Client :=
  filter (fun c => cl_TenantID c = tenantID) (Clients m).

(** ** The rotator *)

Record ClientSecretRotator := { cr_interval : Z; cr_overlap : Z; cr_lifetime : Z; cr_sweeps : Z }.

Definition rotateOne (r : ClientSecretRotator) gen draw now id (m : MemoryClientStore)
    : result client_error string * MemoryClientStore :=
  if (cr_overlap r <=? 0) && (cr_lifetime r <=? 0) then RotateSecret gen draw now id m
  else RotateSecretWithLifecycle gen draw now id (cr_overlap r) (cr_lifetime r) m.

(** [draws] gives, for each client, the secret drawn and the hash function of the call. *)
Fixpoint rotateDue (r : ClientSecretRotator) (draws : string -> option string * (string -> option string)) (now : Z)
    (ids : list string) (m : MemoryClientStore) : Z * option client_error * MemoryClientStore :=
  match ids with
  | [] => (0, None, m)
  | id :: ids =>
      match rotateOne r (draws id).2 (draws id).1 now id m with
      | (Err e, m) => let '(n, _, m) := rotateDue r draws now ids m in (n, Some e, m)
      | (Ok _, m) => let '(n, e, m) := rotateDue r draws now ids m in (1 + n, e, m)
      end
  end.

(** [Rotate] sweeps the clients that are due, in the order [due] of the map iteration: the
    number of the sweep, or an error after which the caller tries again. *)
Definition Rotate (r : ClientSecretRotator) draws (now : Z) (due : list string) (m : MemoryClientStore)
    : result client_error Z * ClientSecretRotator * MemoryClientStore :=
  match rotateDue r draws now due m with
  | (_, Some e, m) => (Err e, r, m)
  | (_, None, m) =>
      let n := cr_sweeps r + 1 in
      (Ok n, {| cr_interval := cr_interval r; cr_overlap := cr_overlap r; cr_lifetime := cr_lifetime r; cr_sweeps := n |}, m)
  end.

(** ** Pages *)

(** [strconv.ParseBool]. *)
Definition ParseBool (s : string) : option bool :=
  if contains ["1"; "t"; "T"; "TRUE"; "true"; "True"] s then Some true
  else if contains ["0"; "f"; "F"; "FALSE"; "false"; "False"] s then Some false
  else None.

Definition invalidActive (value : string) : list_error := InvalidArgument ("invalid filter value for active: " +:+ value).

Definition ValidateClientFilter (field value : string) : option list_error :=
  if contains ["id"; "name"] (ToLower field) then None
  else if decide (ToLower field = "active") then
    match ParseBool value with Some _ => None | None => Some (invalidActive value) end
  else Some (unsupportedFilter field).

Definition ClientMatches (c : Client) (field value : string) : result list_error bool :=
  let field' := ToLower field in
  if decide (field' = "id") then Ok (bool_decide (cl_ID c = value))
  else if decide (field' = "name") then Ok (Contains (ToLower (cl_Name c)) (ToLower value))
  else if decide (field' = "active") then
    match ParseBool value with
    | None => Err (invalidActive value)
    | Some want => Ok (bool_decide (cl_Active c = want))
    end
  else Err (unsupportedFilter field).

Definition ValidateClientOrderBy (field : string) : option list_error :=
  if contains [""; "id"; "created_at"; "name"] (ToLower field) then None else Some (unsupportedOrder field).

Definition ClientSortKey (c : Client) (field : string) : string :=
  if decide (ToLower field = "name") then cl_Name c else cl_ID c.

Definition CompareClients (a b : Client) (field : string) : comparison :=
  let by_id := Compare (cl_ID a) (cl_ID b) in
  if decide (ToLower field = "name") then match Compare (cl_Name a) (cl_Name b) with Eq => by_id | c => c end
  else by_id.

Fixpoint matchingClients (field value : string) (cs : list Client) : result list_error (list Client) :=
  match cs with
  | [] => Ok []
  | c :: cs => m ← ClientMatches c field value; rest ← matchingClients field value cs; Ok (if (m : bool) then c :: rest else rest)
  end.

Definition filterClients (all : list Client) (expr : string) : result list_error (list Client) :=
  match ParseFilterExpr expr with None => Ok all | Some (field, value) => matchingClients field value all end.

Definition client_order (field : string) (desc : bool) (a b : Client) : Prop :=
  (if desc then CompareClients a b field else CompareClients b a field) <> Lt.
#[export] Instance client_order_dec field desc : RelDecision (client_order field desc).
Proof. unfold RelDecision, client_order. apply _. Defined.

Definition sortClients (all : list Client) (orderBy : string) : result list_error (list Client) :=
  let '(field, desc) := parseOrderBy orderBy in
  match ValidateClientOrderBy field with Some e => Err e | None => Ok (merge_sort (client_order field desc) all) end.

Definition validateListSpecClient (filter orderBy : string) : option list_error :=
  match (match ParseFilterExpr filter with Some (field, value) => ValidateClientFilter field value | None => None end) with
  | Some e => Some e
  | None => ValidateClientOrderBy (parseOrderBy orderBy).1
  end.

Definition page_of (key : Client -> string * string) (q : PageQuery) (rows : list Client)
    : result store_error (list Client * option string * Z) :=
  match KeysetSlice key (SortKeyset key rows (pq_Desc q)) q with Ok r => Ok r | Err _ => Err StoreError end.

Definition ListPage (q : PageQuery) (m : MemoryClientStore) : result store_error (list Client * option string * Z) :=
  let filtered :=
    match ParseFilterExpr (pq_Filter q) with
    | None => Ok (Clients m)
    | Some (field, value) =>
        match ValidateClientFilter field value with Some e => Err e | None => matchingClients field value (Clients m) end
    end in
  match filtered with
  | Err _ => Err StoreError
  | Ok cs => page_of (fun c => (ClientSortKey c (pq_OrderBy q), cl_ID c)) q cs
  end.

Definition expires_by (cutoff : Z) (c : Client) : bool :=
  negb (GoTime.IsZero (cl_SecretExpiresAt c)) && negb (GoTime.After (cl_SecretExpiresAt c) cutoff).

Definition expiring (cutoff : Z) (m : MemoryClientStore) : list Client :=
  filter (fun c => expires_by cutoff c = true) (Clients m).

Definition expiry_key (c : Client) : string * string := (time_text (cl_SecretExpiresAt c), cl_ID c).

(** The keys are sorted upwards whatever the query asks; the cursor follows the query. *)
Definition ListExpiringPage (cutoff : Z) (q : PageQuery) (m : MemoryClientStore) : result store_error (list Client * option string * Z) :=
  match KeysetSlice expiry_key (SortKeyset expiry_key (expiring cutoff m) false) q with
  | Ok r => Ok r
  | Err _ => Err StoreError
  end.

(** ** The admin service *)

(** [clientListHint]: the count of the page, or the size of the store when nothing is
    filtered. *)
Definition clientListHint (m : MemoryClientStore) (filter : string) (hint : Z) : Z :=
  if 0 <=? hint then int32 hint else if decide (filter = "") then int32 (Z.of_nat (size m)) else 0.

Definition AdminList (key : list Z) (m : MemoryClientStore) (q : ListRequest) : result list_error (list Client * string * Z) :=
  runListPage key (Some (clientListHint m (lr_filter q))) (Some (fun pq => ListPage pq m)) (Ok (Clients m))
    (fun all => all ← filterClients all (lr_filter q); sortClients all (lr_orderBy q)) validateListSpecClient q.

Definition defaultExpiryWindow : Z := 30 * 24 * GoTime.Hour.
Definition maxClientLifetime : Z := 100 * 365 * 24 * GoTime.Hour.

Definition expiryWindow (withinSeconds : Z) : result list_error Z :=
  if withinSeconds =? 0 then Ok defaultExpiryWindow
  else if (withinSeconds <? 0) || (maxClientLifetime `quot` GoTime.Second <? withinSeconds)
  then Err (InvalidArgument "within_seconds must be between 1 and 100 years")
  else Ok (withinSeconds * GoTime.Second).

Definition listExpiringViaExtension (key : list Z)
    (ext : option (Z -> PageQuery -> result store_error (list Client * option string * Z))) (cutoff pageSize : Z)
    : option (result () (list Client * string * Z)) :=
  match ext with
  | None => None
  | Some list_page =>
      match list_page cutoff {| pq_Limit := pageSize; pq_OrderBy := ""; pq_Desc := false; pq_Filter := ""; pq_After := "" |} with
      | Err ErrUnsupportedOperation => None
      | Err StoreError => Some (Err ())
      | Ok (items, next, hint) =>
          Some (Ok (items, match next with
                           | Some next => if decide (next = "") then "" else Encode key next "" ""
                           | None => ""
                           end, hint))
      end
  end.

Definition expiry_order (a b : Client) : Prop :=
  cl_SecretExpiresAt a < cl_SecretExpiresAt b \/
  cl_SecretExpiresAt a = cl_SecretExpiresAt b /\ Compare (cl_ID b) (cl_ID a) <> Lt.
#[export] Instance expiry_order_dec : RelDecision expiry_order.
Proof. unfold RelDecision, expiry_order. apply _. Defined.

Definition windowExpiring (all : list Client) (cutoff : Z) (token : string) (pageSize : Z)
    : result list_error (list Client * Z * string) :=
  let due := merge_sort expiry_order (filter (fun c => expires_by cutoff c = true) all) in
  let n := Z.of_nat (length due) in
  if negb (bool_decide (token = "")) || negb (pageSize =? 0) then
    offset ← decodeOffset token;
    let '(lo, hi) := pageBounds offset pageSize n in
    Ok (take (Z.to_nat (hi - lo)) (drop (Z.to_nat lo) due), int32 n, encodeOffset hi n)
  else Ok (due, int32 n, "").

(** [ListExpiring]: [ext] is the page extension of the store, [all] what it lists. *)
Definition ListExpiring (key : list Z) (now : Z)
    (ext : option (Z -> PageQuery -> result store_error (list Client * option string * Z))) (all : result store_error (list Client))
    (withinSeconds pageSize : Z) (token : string) : result list_error (list Client * string * Z) :=
  window ← expiryWindow withinSeconds;
  let cutoff := GoTime.Add now window in
  let pageSize := clampPageSize pageSize in
  match listExpiringViaExtension key ext cutoff pageSize with
  | Some (Err _) => Err Internal
  | Some (Ok (items, next, hint)) => Ok (items, next, pageHintTotal hint)
  | None =>
      match all with
      | Err _ => Err Internal
      | Ok all => w ← windowExpiring all cutoff token pageSize; let '(items, total, next) := w in Ok (items, next, total)
      end
  end.

(** What a handler tells the rest of the server, in order. *)
Inductive admin_effect :=
| DiscoveryChange | ClientChange (id : string) | ClientDeleted (c : Client)
| Recorded (event target : string) (meta : list (string * string)).

Inductive rpc_error := NotFound | InvalidArg (msg : string) | InternalError.

Definition clientExpiryUnix (c : Client) : Z :=
  if GoTime.IsZero (cl_SecretExpiresAt c) then 0
  else (cl_SecretExpiresAt c - CibaStore.unixEpoch) / GoTime.Second.

Definition clientRotationPolicy (overlapSeconds lifetimeSeconds : Z) : result rpc_error (Z * Z) :=
  let maxSeconds := maxClientLifetime `quot` GoTime.Second in
  if (overlapSeconds <? 0) || (lifetimeSeconds <? 0) || (maxSeconds <? overlapSeconds) || (maxSeconds <? lifetimeSeconds)
  then Err (InvalidArg "rotation durations must be between 0 and 100 years")
  else
    let overlap := if overlapSeconds =? 0 then DefaultOverlap else overlapSeconds * GoTime.Second in
    let lifetime := if lifetimeSeconds =? 0 then DefaultLifetime else lifetimeSeconds * GoTime.Second in
    if (overlap <? GoTime.Hour) || (lifetime <=? overlap)
    then Err (InvalidArg "rotation policy requires overlap >= 1h and lifetime > overlap (max 100 years)")
    else Ok (overlap, lifetime).

(** [UpdateActive]: the record as it was read, with the flag set. *)
Definition set_active (c : Client) : Client := {|
  cl_ID := cl_ID c; cl_Secret := cl_Secret c; cl_Name := cl_Name c; cl_RedirectURIs := cl_RedirectURIs c;
  cl_RedirectURIPatterns := cl_RedirectURIPatterns c; cl_AllowedScopes := cl_AllowedScopes c;
  cl_AllowedAuthenticators := cl_AllowedAuthenticators c; cl_AllowedProviderIDs := cl_AllowedProviderIDs c;
  cl_LoginPageURI := cl_LoginPageURI c; cl_TokenStrategy := cl_TokenStrategy c; cl_Active := true;
  cl_Federation := cl_Federation c; cl_TenantID := cl_TenantID c; cl_RequirePKCE := cl_RequirePKCE c;
  cl_AllowedResources := cl_AllowedResources c; cl_RegistrationAccessToken := cl_RegistrationAccessToken c;
  cl_PreviousRegistrationAccessToken := cl_PreviousRegistrationAccessToken c;
  cl_RegistrationAccessTokenOverlapUntil := cl_RegistrationAccessTokenOverlapUntil c;
  cl_PostLogoutRedirectURIs := cl_PostLogoutRedirectURIs c;
  cl_AllowedAuthorizationDetailsTypes := cl_AllowedAuthorizationDetailsTypes c;
  cl_RefreshTokenTTL := cl_RefreshTokenTTL c; cl_AccessTokenTTL := cl_AccessTokenTTL c; cl_GrantTypes := cl_GrantTypes c;
  cl_PreviousSecret := cl_PreviousSecret c; cl_SecretOverlapUntil := cl_SecretOverlapUntil c;
  cl_SecretRotatedAt := cl_SecretRotatedAt c; cl_SecretExpiresAt := cl_SecretExpiresAt c;
  cl_JWKS := cl_JWKS c; cl_TokenEndpointAuthMethod := cl_TokenEndpointAuthMethod c; cl_TLSClientAuthSubjectDN := cl_TLSClientAuthSubjectDN c;
  cl_TLSClientAuthSANDNS := cl_TLSClientAuthSANDNS c; cl_TLSClientAuthSANEmail := cl_TLSClientAuthSANEmail c;
  cl_TLSClientAuthSANURI := cl_TLSClientAuthSANURI c; cl_Attributes := cl_Attributes c |}.

Section admin.
Context (gen : string -> option string).

Definition AdminRotateSecret (draw : option string) (now : Z) (id : string) (overlapSeconds lifetimeSeconds : Z) (m : MemoryClientStore)
    : result rpc_error (string * Z) * MemoryClientStore * list admin_effect :=
  if decide (id = "") then (Err (InvalidArg "id required"), m, [])
  else match clientRotationPolicy overlapSeconds lifetimeSeconds with
       | Err e => (Err e, m, [])
       | Ok (overlap, lifetime) =>
           match RotateSecretWithLifecycle gen draw now id overlap lifetime m with
           | (Err ErrNoSuchClient, m) => (Err NotFound, m, [])
           | (Err _, m) => (Err InternalError, m, [])
           | (Ok secret, m) =>
               (match Get id m with Ok c => Ok (secret, clientExpiryUnix c) | Err _ => Err InternalError end,
                m, [Recorded "admin_client_secret_rotated" id []; ClientChange id])
           end
       end.

Definition Approve (id : string) (m : MemoryClientStore) : result rpc_error Client * MemoryClientStore * list admin_effect :=
  if decide (id = "") then (Err (InvalidArg "id required"), m, [])
  else match Get id m with
       | Err _ => (Err NotFound, m, [])
       | Ok c =>
           let c := set_active c in
           match Update gen c m with
           | (Err _, m) => (Err InternalError, m, [])
           | (Ok _, m) => (Ok c, m, [Recorded "admin_client_approved" (cl_ID c) []; DiscoveryChange; ClientChange (cl_ID c)])
           end
       end.

Definition AdminDelete (id : string) (m : MemoryClientStore) : result rpc_error () * MemoryClientStore * list admin_effect :=
  if decide (id = "") then (Err (InvalidArg "id required"), m, [])
  else (Ok (), DeleteClient id m,
        match Get id m with Ok c => [ClientDeleted c] | Err _ => [] end ++
        [Recorded "admin_client_deleted" id []; DiscoveryChange; ClientChange id]).

Definition Reject (id reason : string) (m : MemoryClientStore) : result rpc_error () * MemoryClientStore * list admin_effect :=
  if decide (id = "") then (Err (InvalidArg "id required"), m, [])
  else match Get id m with
       | Err _ => (Err NotFound, m, [])
       | Ok c =>
           (Ok (), DeleteClient id m,
            [ClientDeleted c;
             Recorded "admin_client_rejected" id
               (("client_name", cl_Name c) :: if decide (reason = "") then [] else [("reason", reason)]);
             DiscoveryChange; ClientChange id])
       end.
End admin.

(** ** Secrets *)

Definition store_ok (m : MemoryClientStore) : Prop := forall id c, m !! id = Some c -> cl_ID c = id.

(** What a rotation makes of a client; [None] when drawing or hashing fails. *)
Definition rotated (gen : string -> option string) (draw : option string) (now overlap lifetime : Z) (c : Client) : option Client :=
  plaintext ← draw;
  h ← gen plaintext;
  Some (if (0 <? overlap) && negb (bool_decide (cl_Secret c = ""))
        then set_secret c h (cl_Secret c) (GoTime.Add now overlap) now (ExpiresAt now lifetime)
        else set_secret c h "" 0 now (ExpiresAt now lifetime)).

Lemma RotateSecretWithLifecycle_spec gen draw now id overlap lifetime m :
  match m !! id ≫= rotated gen draw now overlap lifetime with
  | Some c => exists p, draw = Some p /\ RotateSecretWithLifecycle gen draw now id overlap lifetime m = (Ok p, <[id := c]> m)
  | None => exists e, RotateSecretWithLifecycle gen draw now id overlap lifetime m = (Err e, m)
  end.
Proof.
  unfold RotateSecretWithLifecycle, rotated. destruct (m !! id) as [c|]; cbn [mbind option_bind]; [|eauto].
  destruct draw as [p|]; cbn [mbind option_bind]; [|eauto]. destruct (gen p) as [h|]; cbn [mbind option_bind]; [|eauto].
  exists p. split; [done|]. by destruct (_ && _).
Qed.

Lemma rotated_Secret gen draw now overlap lifetime c c' :
  rotated gen draw now overlap lifetime c = Some c' ->
  exists p h, draw = Some p /\ gen p = Some h /\ cl_Secret c' = h /\ cl_ID c' = cl_ID c /\ cl_Active c' = cl_Active c /\
    cl_SecretRotatedAt c' = now /\ cl_SecretExpiresAt c' = ExpiresAt now lifetime.
Proof.
  unfold rotated. destruct draw as [p|]; [|done]. cbn [mbind option_bind]. destruct (gen p) as [h|] eqn:Hg; [|done]. cbn [mbind option_bind].
  intros [= <-]. exists p, h. by destruct (_ && _).
Qed.

(** Which secrets a rotated client accepts, and until when. *)
Lemma ValidateSecret_rotated compare gen draw now overlap lifetime id m c c' t s :
  (forall p h, gen p = Some h -> isBcryptHash h = true) -> 0 <= now <= t -> 0 < lifetime ->
  rotated gen draw now overlap lifetime c = Some c' ->
  ValidateSecret compare t id s (<[id := c']> m) = Ok () <->
    cl_Active c = true /\ t < now + lifetime /\
    (compare (cl_Secret c') s = true \/
     0 < overlap /\ t < now + overlap /\ cl_Secret c <> "" /\ CompareClientSecret compare (cl_Secret c) s = true).
Proof.
  intros Hgen Ht Hl Hr. pose proof (rotated_Secret _ _ _ _ _ _ _ Hr) as (p & h & -> & Hg & Hs & _ & Ha & _ & He).
  unfold ValidateSecret. rewrite lookup_insert_eq, Hs, Ha, He. pose proof (Hgen _ _ Hg) as Hb.
  assert (ExpiresAt now lifetime = now + lifetime) as ->.
  { unfold ExpiresAt. by rewrite (proj2 (Z.leb_gt _ _)) by lia. }
  rewrite decide_False by (intros ->; done).
  unfold rotated in Hr. cbn [mbind option_bind] in Hr. rewrite Hg in Hr. cbn [mbind option_bind] in Hr.
  assert (GoTime.Before t (cl_SecretOverlapUntil c') && CompareClientSecret compare (cl_PreviousSecret c') s = true <->
    0 < overlap /\ t < now + overlap /\ cl_Secret c <> "" /\ CompareClientSecret compare (cl_Secret c) s = true) as Hprev.
  { destruct (Z.ltb_spec 0 overlap), (decide (cl_Secret c = "")) as [E|E].
    all: [> rewrite (bool_decide_eq_true_2 _ E) in Hr | rewrite (bool_decide_eq_false_2 _ E) in Hr
          | rewrite (bool_decide_eq_true_2 _ E) in Hr | rewrite (bool_decide_eq_false_2 _ E) in Hr]; injection Hr as <-;
      cbn [set_secret cl_SecretOverlapUntil cl_PreviousSecret]; unfold GoTime.Before, GoTime.Add; rewrite andb_true_iff, Z.ltb_lt;
      intuition lia. }
  assert (CompareClientSecret compare h s = compare h s) as -> by (unfold CompareClientSecret; by rewrite Hb).
  rewrite <- Hprev. set (prev := GoTime.Before _ _ && _). unfold GoTime.IsZero, GoTime.Before.
  rewrite (proj2 (Z.eqb_neq _ _)) by lia. cbn [negb andb].
  destruct (compare h s), prev, (Z.ltb_spec t (now + lifetime)), (cl_Active c); cbn; intuition (done || lia).
Qed.

Lemma clientRotationPolicy_Ok os ls overlap lifetime :
  clientRotationPolicy os ls = Ok (overlap, lifetime) -> GoTime.Hour <= overlap < lifetime /\ lifetime <= maxClientLifetime.
Proof.
  unfold clientRotationPolicy. set (maxs := maxClientLifetime `quot` GoTime.Second).
  assert (maxs * GoTime.Second = maxClientLifetime) as Hm by (vm_compute; reflexivity).
  assert (DefaultLifetime <= maxClientLifetime) as Hd by (vm_compute; discriminate).
  assert (0 < GoTime.Second) as Hs by (vm_compute; reflexivity). destruct (_ || _) eqn:E; [done|]. bool_simpl.
  set (o := if os =? 0 then _ else _). set (l := if ls =? 0 then _ else _).
  destruct ((o <? GoTime.Hour) || (l <=? o)) eqn:E2; [done|]. intros [= <- <-]. bool_simpl. unfold l in *. destruct (ls =? 0); nia.
Qed.

(** C29 — When an administrator rotates the secret of a client, the policy used leaves at
    least an hour of overlap and a longer lifetime of at most a hundred years; from then
    on an active client is let in exactly with the secret returned, until the announced
    expiry, and with the secret it had, until the end of the overlap; an inactive one is
    not let in; the other clients are untouched, and the change is recorded and
    announced. *)
Theorem client_rotation_window compare gen draw now id os ls m c plaintext expires m' effects :
  (forall p h, gen p = Some h -> isBcryptHash h = true) -> 0 <= now -> m !! id = Some c ->
  AdminRotateSecret gen draw now id os ls m = (Ok (plaintext, expires), m', effects) ->
  exists h overlap lifetime,
    clientRotationPolicy os ls = Ok (overlap, lifetime) /\ GoTime.Hour <= overlap < lifetime /\ lifetime <= maxClientLifetime /\
    draw = Some plaintext /\ gen plaintext = Some h /\
    expires = (now + lifetime - CibaStore.unixEpoch) / GoTime.Second /\
    effects = [Recorded "admin_client_secret_rotated" id []; ClientChange id] /\
    (forall t s, now <= t -> ValidateSecret compare t id s m' = Ok () <->
       cl_Active c = true /\ t < now + lifetime /\
       (compare h s = true \/
        t < now + overlap /\ cl_Secret c <> "" /\ CompareClientSecret compare (cl_Secret c) s = true)) /\
    (forall id', id' <> id -> m' !! id' = m !! id').
Proof.
  intros Hgen Hnow Hc. unfold AdminRotateSecret. destruct (decide (id = "")); [done|].
  destruct (clientRotationPolicy os ls) as [[overlap lifetime]|] eqn:Hpol; [|done]. apply clientRotationPolicy_Ok in Hpol as Hp. destruct Hp as [Hp Hmax].
  assert (0 < GoTime.Hour) by done.
  pose proof (RotateSecretWithLifecycle_spec gen draw now id overlap lifetime m) as Hr. rewrite Hc in Hr. cbn [mbind option_bind] in Hr.
  destruct (rotated gen draw now overlap lifetime c) as [c'|] eqn:Hrot; [|by destruct Hr as [[] ->]].
  destruct Hr as (p & Hd & ->). unfold Get. rewrite lookup_insert_eq. intros [= -> <- <- <-].
  pose proof (rotated_Secret _ _ _ _ _ _ _ Hrot) as (p & h & -> & Hg & Hs & Hid & _ & _ & He).
  exists h, overlap, lifetime. injection Hd as ->. assert (ExpiresAt now lifetime = now + lifetime) as He'.
  { unfold ExpiresAt. by rewrite (proj2 (Z.leb_gt _ _)) by lia. }
  do 5 (split; [done|]). split; [|split; [done|split]].
  - unfold clientExpiryUnix. rewrite He, He'. unfold GoTime.IsZero. by rewrite (proj2 (Z.eqb_neq _ _)) by lia.
  - intros t s Ht. rewrite (ValidateSecret_rotated compare gen _ now overlap lifetime id m c c' t s Hgen ltac:(lia) ltac:(lia) Hrot), Hs.
    intuition lia.
  - intros id' Hne. by rewrite lookup_insert_ne.
Qed.

(** An expired secret comes back to life when it is rotated: the store refuses it for
    its age, and after the rotation accepts it again for the length of the overlap. *)
Theorem rotation_revives_expired compare gen draw now id os ls m c s plaintext expires m' effects t :
  (forall p h, gen p = Some h -> isBcryptHash h = true) -> 0 <= now -> m !! id = Some c -> cl_Active c = true ->
  CompareClientSecret compare (cl_Secret c) s = true ->
  ValidateSecret compare now id s m = Err ErrSecretExpired ->
  AdminRotateSecret gen draw now id os ls m = (Ok (plaintext, expires), m', effects) ->
  now <= t < now + GoTime.Hour -> ValidateSecret compare t id s m' = Ok ().
Proof.
  intros Hgen Hnow Hc Ha Hs Hv. unfold AdminRotateSecret. destruct (decide (id = "")); [done|].
  destruct (clientRotationPolicy os ls) as [[overlap lifetime]|] eqn:Hp; [|done]. apply clientRotationPolicy_Ok in Hp as [Hp _].
  assert (0 < GoTime.Hour) by done.
  pose proof (RotateSecretWithLifecycle_spec gen draw now id overlap lifetime m) as Hr. rewrite Hc in Hr. cbn [mbind option_bind] in Hr.
  destruct (rotated gen draw now overlap lifetime c) as [c'|] eqn:Hrot; [|by destruct Hr as [[] ->]].
  destruct Hr as (p & Hd & ->). unfold Get. rewrite lookup_insert_eq. intros [= -> <- <- <-] Ht.
  apply (ValidateSecret_rotated compare gen _ now overlap lifetime id m c c' t s Hgen ltac:(lia) ltac:(lia) Hrot).
  assert (cl_Secret c <> "").
  { intros E. unfold ValidateSecret in Hv. rewrite Hc, decide_True in Hv by done. done. }
  intuition lia.
Qed.

(** ** Sweeps *)

Lemma rotateOne_spec r gen draw now id m :
  let overlap := if (cr_overlap r <=? 0) && (cr_lifetime r <=? 0) then 0 else cr_overlap r in
  let lifetime := if (cr_overlap r <=? 0) && (cr_lifetime r <=? 0) then DefaultLifetime else cr_lifetime r in
  rotateOne r gen draw now id m = RotateSecretWithLifecycle gen draw now id overlap lifetime m.
Proof. unfold rotateOne, RotateSecret. cbv zeta. by destruct (_ && _). Qed.

(** What a sweep makes of the client [id]. *)
Definition swept (r : ClientSecretRotator) (draws : string -> option string * (string -> option string)) (now : Z) (id : string)
    : Client -> option Client :=
  let never := (cr_overlap r <=? 0) && (cr_lifetime r <=? 0) in
  rotated (draws id).2 (draws id).1 now (if never then 0 else cr_overlap r) (if never then DefaultLifetime else cr_lifetime r).

Lemma rotateDue_spec r draws now ids m n e m' :
  NoDup ids -> rotateDue r draws now ids m = (n, e, m') ->
  (forall id, m' !! id = (if decide (id ∈ ids) then (fun c => default c (swept r draws now id c)) <$> m !! id else m !! id)) /\
  (e = None <-> Forall (fun id => is_Some (m !! id ≫= swept r draws now id)) ids).
Proof.
  intros Hn. revert m n e m'. induction Hn as [|id ids Hid Hn IH]; intros m n e m'; cbn [rotateDue].
  - by intros [= <- <- <-].
  - rewrite rotateOne_spec. pose proof (RotateSecretWithLifecycle_spec (draws id).2 (draws id).1 now id
      (if (cr_overlap r <=? 0) && (cr_lifetime r <=? 0) then 0 else cr_overlap r)
      (if (cr_overlap r <=? 0) && (cr_lifetime r <=? 0) then DefaultLifetime else cr_lifetime r) m) as Hr.
    fold (swept r draws now id) in Hr. cbv zeta. destruct (m !! id ≫= swept r draws now id) as [c|] eqn:Hc.
    + destruct Hr as (p & _ & ->). destruct (rotateDue r draws now ids _) as [[n1 e1] m1] eqn:Hd. intros [= <- <- <-].
      assert (forall id', id' ∈ ids -> <[id := c]> m !! id' = m !! id') as Hsame
        by (intros id' Hi; apply lookup_insert_ne; intros ->; done).
      destruct (IH _ _ _ _ Hd) as [H1 H2]. split.
      * intros id'. rewrite H1. destruct (decide (id' = id)) as [->|Hne].
        -- rewrite decide_False, decide_True, lookup_insert_eq by set_solver. destruct (m !! id) as [c0|]; [|done]. cbn in Hc |- *.
           by rewrite Hc.
        -- rewrite lookup_insert_ne by done. destruct (decide (id' ∈ ids)); [rewrite decide_True by set_solver; done|].
           rewrite decide_False by set_solver. done.
      * rewrite H2, Forall_cons. rewrite Hc. split; [intros H; split; [eauto|]|intros [_ H]]; apply Forall_forall; intros id' Hi;
          (eapply Forall_forall in H; [|exact Hi]); by rewrite ?Hsame in * by done.
    + destruct Hr as (e0 & ->). destruct (rotateDue r draws now ids m) as [[n1 e1] m1] eqn:Hd. intros [= <- <- <-].
      destruct (IH _ _ _ _ Hd) as [H1 H2]. split.
      * intros id'. rewrite H1. destruct (decide (id' = id)) as [->|Hne].
        -- rewrite decide_False, decide_True by set_solver. destruct (m !! id) as [c0|]; [|done]. cbn in Hc |- *. by rewrite Hc.
        -- destruct (decide (id' ∈ ids)); [rewrite decide_True by set_solver; done|]. rewrite decide_False by set_solver. done.
      * rewrite Forall_cons, Hc. split; [done|]. intros [[] _]; done.
Qed.

Lemma elem_of_Clients m c : c ∈ Clients m <-> exists id, m !! id = Some c.
Proof.
  unfold Clients. rewrite list_elem_of_fmap. setoid_rewrite <- elem_of_map_to_list. split.
  - intros ([id c'] & -> & H). by exists id.
  - intros [id H]. by exists (id, c).
Qed.

Lemma Clients_IDs m : store_ok m -> NoDup (cl_ID <$> Clients m).
Proof.
  intros Hm. replace (cl_ID <$> Clients m) with (map_to_list m).*1; [apply NoDup_fst_map_to_list|].
  unfold Clients. rewrite <- list_fmap_compose. apply list_fmap_ext. intros i [id c] Hi. symmetry. apply Hm, elem_of_map_to_list.
  by eapply list_elem_of_lookup_2.
Qed.

Lemma elem_of_ListDue olderThan m id : store_ok m ->
  id ∈ ListDueForRotation olderThan m <-> exists c, m !! id = Some c /\ due olderThan c = true.
Proof.
  intros Hm. unfold ListDueForRotation. rewrite list_elem_of_fmap. setoid_rewrite list_elem_of_filter. setoid_rewrite elem_of_Clients.
  split.
  - intros (c & -> & Hd & [id' Hc]). exists c. by rewrite (Hm _ _ Hc).
  - intros (c & Hc & Hd). exists c. rewrite (Hm _ _ Hc). eauto.
Qed.

Lemma ListDue_NoDup olderThan m : store_ok m -> NoDup (ListDueForRotation olderThan m).
Proof. intros Hm. eapply sublist_NoDup; [by apply Clients_IDs|]. apply fmap_sublist, sublist_filter. Qed.

(** A sweep, in whatever order it meets the clients, replaces the secret of each
    client that is due and whose new secret could be drawn and hashed, and changes nothing
    else; it reports success exactly when none of them failed; a client it rotated is not
    due again before an interval has passed, and once the overlap is over it accepts no
    secret but the one drawn for it, which the sweep keeps to itself. *)
Theorem rotation_sweep r draws now ids m res r' m' :
  store_ok m -> 0 < now -> ids ≡ₚ ListDueForRotation (GoTime.Add now (- cr_interval r)) m ->
  Rotate r draws now ids m = (res, r', m') ->
  (forall id c, m !! id = Some c ->
     m' !! id = Some (if due (GoTime.Add now (- cr_interval r)) c then default c (swept r draws now id c) else c)) /\
  (forall id, m !! id = None -> m' !! id = None) /\
  (res = Ok (cr_sweeps r + 1) <->
     forall id c, m !! id = Some c -> due (GoTime.Add now (- cr_interval r)) c = true -> is_Some (swept r draws now id c)) /\
  (forall id c c' now', m !! id = Some c -> due (GoTime.Add now (- cr_interval r)) c = true -> swept r draws now id c = Some c' ->
     now' < now + cr_interval r -> id ∉ ListDueForRotation (GoTime.Add now' (- cr_interval r)) m') /\
  (forall compare id c c' t s, (forall p h, (draws id).2 p = Some h -> isBcryptHash h = true) ->
     m !! id = Some c -> due (GoTime.Add now (- cr_interval r)) c = true -> swept r draws now id c = Some c' ->
     0 < cr_lifetime r -> now + Z.max 0 (cr_overlap r) <= t -> ValidateSecret compare t id s m' = Ok () ->
     exists p h, (draws id).1 = Some p /\ (draws id).2 p = Some h /\ compare h s = true).
Proof.
  intros Hm Hnow Hids. unfold Rotate. set (cutoff := GoTime.Add now (- cr_interval r)) in *.
  destruct (rotateDue r draws now ids m) as [[n e] m1] eqn:Hr.
  assert (NoDup ids) as Hn by (rewrite Hids; by apply ListDue_NoDup).
  destruct (rotateDue_spec r draws now ids m n e m1 Hn Hr) as [H1 H2]. intros Hout.
  assert (m' = m1) as -> by (destruct e; by injection Hout).
  assert (res = Ok (cr_sweeps r + 1) <-> e = None) as Hres by (destruct e; injection Hout; intros; subst; naive_solver).
  assert (forall id c, m !! id = Some c -> (id ∈ ids <-> due cutoff c = true)) as Hin.
  { intros id c Hc. rewrite Hids, elem_of_ListDue by done. naive_solver. }
  assert (forall id c, m !! id = Some c -> m1 !! id = Some (if due cutoff c then default c (swept r draws now id c) else c)) as Hl.
  { intros id c Hc. rewrite H1. specialize (Hin id c Hc). destruct (decide (id ∈ ids)) as [Hi|Hi], (due cutoff c); rewrite Hc; naive_solver. }
  split; [exact Hl|]. split; [|split; [|split]].
  - intros id Hc. rewrite H1. rewrite Hc. by destruct (decide (id ∈ ids)).
  - rewrite Hres, H2, Forall_forall. split.
    + intros H id c Hc Hd. specialize (H id (proj2 (Hin id c Hc) Hd)). by rewrite Hc in H.
    + intros H id Hi. assert (exists c, m !! id = Some c /\ due cutoff c = true) as (c & Hc & Hd)
        by (apply elem_of_ListDue; [done|]; by rewrite <- Hids).
      rewrite Hc. by apply H.
  - intros id c c' now' Hc Hd Hs Hlt Hdue. assert (m1 !! id = Some c') as Hc' by (rewrite (Hl _ _ Hc), Hd, Hs; done).
    unfold ListDueForRotation in Hdue. apply list_elem_of_fmap in Hdue as (c2 & -> & Hdue).
    apply list_elem_of_filter in Hdue as [Hdue Hc2]. apply elem_of_Clients in Hc2 as [id2 Hc2].
    assert (id2 = cl_ID c2) as ->.
    { destruct (m !! id2) as [c3|] eqn:H3; [|by rewrite H1, H3 in Hc2; destruct (decide _)].
      rewrite (Hl _ _ H3) in Hc2. injection Hc2 as <-. apply Hm in H3 as Hid. destruct (due cutoff c3); [|done].
      destruct (swept r draws now id2 c3) eqn:Hsw; [|done]. destruct (rotated_Secret _ _ _ _ _ _ _ Hsw) as (? & ? & _ & _ & _ & Hid' & _).
      cbn. congruence. }
    assert (c2 = c') as -> by congruence. destruct (rotated_Secret _ _ _ _ _ _ _ Hs) as (? & ? & _ & _ & _ & _ & _ & Hat & _).
    unfold due in Hdue. rewrite Hat in Hdue. bool_simpl. unfold GoTime.After, GoTime.Add in *. bool_simpl. lia.
  - intros compare id c c' t s Hgen Hc Hd Hs Hlt Ht Hv. assert (m1 = <[id := c']> m1) as E
      by (symmetry; apply insert_id; rewrite (Hl _ _ Hc), Hd, Hs; done).
    rewrite E in Hv. assert (negb (cr_lifetime r <=? 0) = true) as Hlt' by (apply negb_true_iff, Z.leb_gt; done).
    unfold swept in Hs. cbv zeta in Hs. apply negb_true_iff in Hlt'. rewrite Hlt', andb_false_r in Hs.
    apply (ValidateSecret_rotated compare _ _ now _ _ id m1 c c' t s Hgen ltac:(lia) Hlt Hs) in Hv as (_ & _ & [Hv|Hv]); [|lia].
    destruct (rotated_Secret _ _ _ _ _ _ _ Hs) as (p & h & ? & ? & <- & _). eauto.
Qed.

(** ** Expiring clients *)

Lemma expiring_keys cutoff m : store_ok m -> NoDup (expiry_key <$> expiring cutoff m).
Proof.
  intros Hm. apply (NoDup_fmap_1 snd). rewrite <- list_fmap_compose. change (NoDup (cl_ID <$> expiring cutoff m)).
  eapply sublist_NoDup; [by apply Clients_IDs|]. apply fmap_sublist, sublist_filter.
Qed.

Definition expiring_request (pageSize : Z) : ListRequest :=
  {| lr_token := ""; lr_pageSize := pageSize; lr_orderBy := ""; lr_filter := "" |}.

(** The store with the page extension answers one page, whatever the token. *)
Lemma ListExpiring_first key now m within window pageSize token :
  store_ok m -> expiryWindow within = Ok window ->
  let rows := SortKeyset expiry_key (expiring (GoTime.Add now window) m) false in
  let limit := Z.to_nat (clampPageSize pageSize) in
  exists next hint,
    ListExpiring key now (Some (fun cutoff q => ListExpiringPage cutoff q m)) (Ok (Clients m)) within pageSize token =
      Ok (take limit rows, next, hint) /\ (next = "" <-> (length rows <= limit)%nat).
Proof.
  intros Hm Hw rows limit. unfold ListExpiring. rewrite Hw. cbn [mbind result_bind]. unfold listExpiringViaExtension, ListExpiringPage.
  cbv zeta. fold rows. set (q := Build_PageQuery _ _ _ _ _).
  assert (limit_of q = limit) as Hq.
  { unfold limit_of, limit, q. cbn [pq_Limit]. unfold clampPageSize, defaultAdminPageSize, maxAdminPageSize.
    repeat match goal with |- context [if ?b then _ else _] => destruct b eqn:? end; bool_simpl; done || lia. }
  assert (1 <= limit)%nat as Hpos by (rewrite <- Hq; apply limit_pos).
  unfold KeysetSlice. cbn [pq_After q]. rewrite decide_True by done. fold (limit_of q). rewrite Hq, Nat.add_0_l, Nat.sub_0_r, drop_0.
  assert (take (Nat.min limit (length rows)) rows = take limit rows) as ->.
  { destruct (Nat.le_gt_cases limit (length rows)); [by rewrite Nat.min_l|]. by rewrite Nat.min_r, !take_ge by lia. }
  eexists _, _. split; [reflexivity|]. destruct (Nat.ltb_spec (Nat.min limit (length rows)) (length rows)).
  - destruct (lookup_lt_is_Some_2 rows (Nat.pred (Nat.min limit (length rows)))) as [c Hc]; [lia|]. rewrite Hc. cbn [fmap option_fmap option_map compose].
    rewrite decide_False by apply EncodeKeysetCursor_nonempty. split; [|lia]. intros E. by apply Encode_nonempty in E.
  - split; [lia|done].
Qed.

(** The listing of the clients whose secret is about to expire never gets past its
    first page: when there are more than fit in it, following the tokens repeats the first
    page for ever, so some client about to expire is not listed by any number of calls. *)
Theorem expiring_pages_stuck key now m within window pageSize n :
  store_ok m -> expiryWindow within = Ok window ->
  let rows := SortKeyset expiry_key (expiring (GoTime.Add now window) m) false in
  let limit := Z.to_nat (clampPageSize pageSize) in
  (limit < length rows)%nat ->
  follow (replicate n (fun q => ListExpiring key now (Some (fun cutoff pq => ListExpiringPage cutoff pq m)) (Ok (Clients m))
                                  within (lr_pageSize q) (lr_token q))) (expiring_request pageSize) =
    Ok (mjoin (replicate n (take limit rows)), false) /\
  exists c, c ∈ expiring (GoTime.Add now window) m /\ c ∉ mjoin (replicate n (take limit rows)).
Proof.
  intros Hm Hw rows limit Hlt. split.
  - remember (expiring_request pageSize) as q eqn:Hq. assert (lr_pageSize q = pageSize) as Hp by (by subst). clear Hq.
    revert q Hp. induction n as [|n IH]; intros q Hp; [done|]. cbn [replicate follow].
    destruct (ListExpiring_first key now m within window (lr_pageSize q) (lr_token q) Hm Hw) as (next & hint & -> & Hnext).
    rewrite Hp in Hnext |- *. fold rows limit in Hnext |- *. cbn [mbind result_bind]. rewrite decide_False by (intros E; apply Hnext in E; lia).
    rewrite (IH {| lr_token := next; lr_pageSize := pageSize; lr_orderBy := lr_orderBy q; lr_filter := lr_filter q |} eq_refl).
    done.
  - destruct (lookup_lt_is_Some_2 rows limit Hlt) as [c Hc]. exists c. split.
    + rewrite <- (SortKeyset_Permutation expiry_key false). by eapply list_elem_of_lookup_2.
    + intros (l & Hi & Hl)%list_elem_of_join. apply elem_of_replicate in Hl as [-> _].
      apply list_elem_of_lookup in Hi as [i Hi]. apply lookup_take_Some in Hi as [Hi Hlt'].
      assert (NoDup rows) as Hn.
      { unfold rows. rewrite SortKeyset_Permutation. apply (NoDup_fmap_1 expiry_key). by apply expiring_keys. }
      pose proof (NoDup_lookup rows i limit c Hn Hi Hc). lia.
Qed.

(** ** Witnesses *)

Definition toy_gen (p : string) : option string := Some ("$2" +:+ p).
Definition toy_compare (h p : string) : bool := bool_decide (h = "$2" +:+ p).

Definition expiring_client (id : string) (rotatedAt expiresAt : Z) : Client :=
  set_secret (plain_client id ["read"] []) ("$2" +:+ id) "" 0 rotatedAt expiresAt.

Definition two_clients : MemoryClientStore :=
  {["a" := expiring_client "a" 100 (10 * 24 * GoTime.Hour); "b" := expiring_client "b" 200 (20 * 24 * GoTime.Hour)]}.

Lemma two_clients_ok : store_ok two_clients.
Proof.
  intros id c. unfold two_clients. rewrite lookup_insert_Some, lookup_singleton_Some. naive_solver.
Qed.

Lemma client_rotation_window_witness :
  exists m', (AdminRotateSecret toy_gen (Some "fresh") 1000 "a" 7200 0 two_clients).1.2 = m' /\
    forall t, 1000 <= t -> (ValidateSecret toy_compare t "a" "a" m' = Ok () <-> t < 1000 + 7200 * GoTime.Second).
Proof.
  eexists. split; [reflexivity|]. intros t Ht.
  destruct (client_rotation_window toy_compare toy_gen (Some "fresh") 1000 "a" 7200 0 two_clients
    (expiring_client "a" 100 (10 * 24 * GoTime.Hour)) "fresh" ((1000 + DefaultLifetime - CibaStore.unixEpoch) / GoTime.Second)
    (AdminRotateSecret toy_gen (Some "fresh") 1000 "a" 7200 0 two_clients).1.2
    [Recorded "admin_client_secret_rotated" "a" []; ClientChange "a"]) as (h & o & l & Hpol & Ho & _ & _ & Hg & _ & _ & Hv & _).
  - intros p h [= <-]. vm_compute. reflexivity.
  - lia.
  - vm_compute. reflexivity.
  - vm_compute. reflexivity.
  - rewrite (Hv t "a" Ht). injection Hg as <-. vm_compute in Hpol. injection Hpol as <- <-.
    assert (CompareClientSecret toy_compare (cl_Secret (expiring_client "a" 100 (10 * 24 * GoTime.Hour))) "a" = true) as -> by (vm_compute; reflexivity).
    assert (toy_compare ("$2" +:+ "fresh") "a" = false) as -> by (vm_compute; reflexivity).
    change (7200 * GoTime.Second) with 7200000000000. cbn [cl_Active cl_Secret expiring_client set_secret plain_client].
    split; [intros (_ & _ & [?|[? _]]); [discriminate|assumption]|].
    intros H. split; [reflexivity|]. split; [lia|]. right. split; [exact H|]. split; [discriminate|reflexivity].
Defined.

Lemma rotation_revives_expired_witness :
  ValidateSecret toy_compare (11 * 24 * GoTime.Hour) "a" "a" two_clients = Err ErrSecretExpired /\
  ValidateSecret toy_compare (11 * 24 * GoTime.Hour + 1) "a" "a"
    (AdminRotateSecret toy_gen (Some "fresh") (11 * 24 * GoTime.Hour) "a" 0 0 two_clients).1.2 = Ok ().
Proof.
  split; [vm_compute; reflexivity|].
  apply (rotation_revives_expired toy_compare toy_gen (Some "fresh") (11 * 24 * GoTime.Hour) "a" 0 0 two_clients
    (expiring_client "a" 100 (10 * 24 * GoTime.Hour)) "a" "fresh"
    ((11 * 24 * GoTime.Hour + DefaultLifetime - CibaStore.unixEpoch) / GoTime.Second) _
    [Recorded "admin_client_secret_rotated" "a" []; ClientChange "a"]).
  - intros p h [= <-]. vm_compute. reflexivity.
  - vm_compute. discriminate.
  - vm_compute. reflexivity.
  - vm_compute. reflexivity.
  - vm_compute. reflexivity.
  - vm_compute. reflexivity.
  - vm_compute. reflexivity.
  - split; [vm_compute; discriminate|vm_compute; reflexivity].
Defined.

Definition sample_rotator : ClientSecretRotator := {| cr_interval := 800; cr_overlap := 60; cr_lifetime := 5000; cr_sweeps := 0 |}.
Definition sample_draws (id : string) : option string * (string -> option string) := (Some ("new-" +:+ id), toy_gen).

(** One of the two clients is due. *)
Lemma rotation_sweep_witness :
  exists c', (Rotate sample_rotator sample_draws 950 ["a"] two_clients).2 !! "a" = Some c' /\ cl_SecretRotatedAt c' = 950 /\
    (Rotate sample_rotator sample_draws 950 ["a"] two_clients).2 !! "b" = two_clients !! "b".
Proof.
  destruct (rotation_sweep sample_rotator sample_draws 950 ["a"] two_clients
    (Rotate sample_rotator sample_draws 950 ["a"] two_clients).1.1 (Rotate sample_rotator sample_draws 950 ["a"] two_clients).1.2
    (Rotate sample_rotator sample_draws 950 ["a"] two_clients).2) as (Hl & _).
  - apply two_clients_ok.
  - lia.
  - replace (ListDueForRotation _ _) with ["a"] by (vm_compute; reflexivity). reflexivity.
  - vm_compute. reflexivity.
  - eexists. split; [apply Hl; vm_compute; reflexivity|]. split; [vm_compute; reflexivity|].
    rewrite (Hl "b" (expiring_client "b" 200 (20 * 24 * GoTime.Hour))) by (vm_compute; reflexivity). vm_compute. reflexivity.
Defined.

Lemma expiring_pages_stuck_witness :
  exists c, c ∈ expiring (GoTime.Add 0 defaultExpiryWindow) two_clients /\
    c ∉ mjoin (replicate 5 (take 1 (SortKeyset expiry_key (expiring (GoTime.Add 0 defaultExpiryWindow) two_clients) false))).
Proof.
  destruct (expiring_pages_stuck [] 0 two_clients 0 defaultExpiryWindow 1 5) as [_ H].
  - apply two_clients_ok.
  - vm_compute. reflexivity.
  - vm_compute. lia.
  - exact H.
Defined.
