(* ===== verification/Sessions.v ===== *)
(** * Sessions: the in-memory session manager
    (infrastructure/defaultimpl/memorystoreidentity/memory_session.go).

    The map of the manager is a [gmap]; each operation runs under the manager's lock, so
    it is one step.  A session handed out is a clone, so it is a value here.  Random
    identifiers and the clock are arguments; [MaxEntries] and the lifetime are fields. *)
From S2P Require Import Prelude Crypto Core Float64 Keyset AdminPaging.
Local Open Scope Z_scope.

Inductive session_error := ErrSessionNotFound | ErrStoreAtCapacity.

Record MemorySessionManager := {
  ms_sessions : gmap string Session;
  ms_ttl : Z;
  ms_MaxEntries : Z;
}.

Definition DefaultSessionDuration : Z := 24 * GoTime.Hour.

Definition NewMemorySessionManager (ttl : option Z) : MemorySessionManager :=
  {| ms_sessions := ∅; ms_ttl := default DefaultSessionDuration ttl; ms_MaxEntries := 0 |}.

Definition set_sessions (f : gmap string Session -> gmap string Session) (m : MemorySessionManager) : MemorySessionManager :=
  {| ms_sessions := f (ms_sessions m); ms_ttl := ms_ttl m; ms_MaxEntries := ms_MaxEntries m |}.

Record SessionMeta := {
  sm_IP : string;
  sm_UserAgent : string;
  sm_ClientID : string;
  sm_AuthorizedScopes : list string;
  sm_AuthTime : Z;
  sm_TenantID : string;
  sm_DeviceID : string;
  sm_Kind : string;
  sm_TrustScore : float64;
  sm_TrustSetAt : Z;
}.

Definition no_meta : SessionMeta := {|
  sm_IP := ""; sm_UserAgent := ""; sm_ClientID := ""; sm_AuthorizedScopes := []; sm_AuthTime := 0; sm_TenantID := "";
  sm_DeviceID := ""; sm_Kind := ""; sm_TrustScore := of_int 0; sm_TrustSetAt := 0 |}.

(** The parts of a session that change after it is created. *)
Definition set_mutable (s : Session) (expires lastActive : Z) (scopes : list string) (kind : string) (trust : float64)
    (trustSetAt : Z) (stepUp : bool) : Session := {|
  se_ID := se_ID s; se_UserID := se_UserID s; se_CreatedAt := se_CreatedAt s; se_ExpiresAt := expires;
  se_Revoked := se_Revoked s; se_LastActiveAt := lastActive; se_IP := se_IP s; se_UserAgent := se_UserAgent s;
  se_TenantID := se_TenantID s; se_DeviceID := se_DeviceID s; se_ClientID := se_ClientID s; se_AuthorizedScopes := scopes;
  se_AuthTime := se_AuthTime s; se_Kind := kind; se_TrustScore := trust; se_TrustSetAt := trustSetAt;
  se_StepUpRequired := stepUp |}.

Definition new_session (id userID : string) (now ttl : Z) (meta : SessionMeta) : Session := {|
  se_ID := id; se_UserID := userID; se_CreatedAt := now; se_ExpiresAt := GoTime.Add now ttl; se_Revoked := false;
  se_LastActiveAt := 0; se_IP := sm_IP meta; se_UserAgent := sm_UserAgent meta; se_TenantID := sm_TenantID meta;
  se_DeviceID := sm_DeviceID meta; se_ClientID := sm_ClientID meta; se_AuthorizedScopes := sm_AuthorizedScopes meta;
  se_AuthTime := sm_AuthTime meta; se_Kind := sm_Kind meta; se_TrustScore := sm_TrustScore meta;
  se_TrustSetAt := sm_TrustSetAt meta; se_StepUpRequired := false |}.

(** [id] is the identifier drawn. *)
Definition CreateWithMeta (id : string) (now : Z) (userID : string) (meta : SessionMeta) (m : MemorySessionManager)
    : result session_error Session * MemorySessionManager :=
  let session := new_session id userID now (ms_ttl m) meta in
  if (0 <? ms_MaxEntries m) && (ms_MaxEntries m <=? Z.of_nat (size (ms_sessions m))) then (Err ErrStoreAtCapacity, m)
  else (Ok session, set_sessions (insert id session) m).

Definition Create (id : string) (now : Z) (userID : string) (m : MemorySessionManager)
    : result session_error Session * MemorySessionManager := CreateWithMeta id now userID no_meta m.

Definition MarkStepUp (id : string) (m : MemorySessionManager) : MemorySessionManager :=
  set_sessions (alter (fun s => set_mutable s (se_ExpiresAt s) (se_LastActiveAt s) (se_AuthorizedScopes s) (se_Kind s)
                                  (se_TrustScore s) (se_TrustSetAt s) true) id) m.

Definition SetTrust (id : string) (score : float64) (setAt : Z) (m : MemorySessionManager) : MemorySessionManager :=
  set_sessions (alter (fun s => set_mutable s (se_ExpiresAt s) (se_LastActiveAt s) (se_AuthorizedScopes s) (se_Kind s)
                                  score setAt false) id) m.

Definition with_scopes (scopes : list string) (s : Session) : Session :=
  set_mutable s (se_ExpiresAt s) (se_LastActiveAt s) scopes (se_Kind s) (se_TrustScore s) (se_TrustSetAt s) (se_StepUpRequired s).

Definition SetAuthorizedScopes (id : string) (scopes : list string) (m : MemorySessionManager) : MemorySessionManager :=
  set_sessions (alter (with_scopes scopes) id) m.

Definition SetKind (id kind : string) (m : MemorySessionManager) : MemorySessionManager :=
  set_sessions (alter (fun s => set_mutable s (se_ExpiresAt s) (se_LastActiveAt s) (se_AuthorizedScopes s) kind
                                  (se_TrustScore s) (se_TrustSetAt s) (se_StepUpRequired s)) id) m.

Definition TrackActivity (now : Z) (id : string) (m : MemorySessionManager) : MemorySessionManager :=
  set_sessions (alter (fun s => set_mutable s (se_ExpiresAt s) now (se_AuthorizedScopes s) (se_Kind s)
                                  (se_TrustScore s) (se_TrustSetAt s) (se_StepUpRequired s)) id) m.

Definition DeleteByTenant (tenantID : string) (m : MemorySessionManager) : Z * MemorySessionManager :=
  if decide (tenantID = "") then (0, m)
  else (Z.of_nat (size (filter (fun kv : string * Session => se_TenantID kv.2 = tenantID) (ms_sessions m))),
        set_sessions (filter (fun kv : string * Session => se_TenantID kv.2 <> tenantID)) m).

Definition dead (now : Z) (s : Session) : bool := se_Revoked s || Session_IsExpired now s.

Definition Get (now : Z) (id : string) (m : MemorySessionManager) : result session_error Session :=
  match ms_sessions m !! id with
  | None => Err ErrSessionNotFound
  | Some s => if dead now s then Err ErrSessionNotFound else Ok s
  end.

Definition Destroy (id : string) (m : MemorySessionManager) : MemorySessionManager := set_sessions (delete id) m.

Definition Refresh (now : Z) (id : string) (m : MemorySessionManager) : result session_error Session * MemorySessionManager :=
  match ms_sessions m !! id with
  | None => (Err ErrSessionNotFound, m)
  | Some s =>
      if dead now s then (Err ErrSessionNotFound, m)
      else
        let s := set_mutable s (GoTime.Add now (ms_ttl m)) (se_LastActiveAt s) (se_AuthorizedScopes s) (se_Kind s)
                   (se_TrustScore s) (se_TrustSetAt s) (se_StepUpRequired s) in
        (Ok s, set_sessions (insert id s) m)
  end.

(** The reaper's sweep. *)
Definition reap (now : Z) (m : MemorySessionManager) : MemorySessionManager :=
  set_sessions (filter (fun kv : string * Session => Session_IsExpired now kv.2 = false)) m.

Definition ListAll (m : MemorySessionManager) : list Session := (map_to_list (ms_sessions m)).*2.

Definition of_user (now : Z) (userID : string) (s : Session) : bool :=
  bool_decide (se_UserID s = userID) && negb (se_Revoked s) && negb (Session_IsExpired now s).

Definition ListByUser (now : Z) (userID : string) (m : MemorySessionManager) : list Session :=
  filter (fun s => of_user now userID s = true) (ListAll m).

Definition ListByTenant (tenantID : string) (m : MemorySessionManager) : list Session :=
  if decide (tenantID = "") then [] else filter (fun s => se_TenantID s = tenantID) (ListAll m).

Definition session_key (s : Session) : string * string := (se_ID s, se_ID s).

Definition ListPage (now : Z) (userID : string) (q : PageQuery) (m : MemorySessionManager)
    : result store_error (list Session * option string * Z) :=
  let all := if decide (userID = "") then ListAll m else ListByUser now userID m in
  match KeysetSlice session_key (SortKeyset session_key all (pq_Desc q)) q with Ok r => Ok r | Err _ => Err StoreError end.

(** ** Steps *)

(** What the manager does between two instants: an operation with its clock reading. *)
Inductive session_step : Z -> MemorySessionManager -> Z -> MemorySessionManager -> Prop :=
| step_create t t' id userID meta m : t <= t' -> ms_sessions m !! id = None ->
    session_step t m t' (CreateWithMeta id t' userID meta m).2
| step_mark t t' id m : t <= t' -> session_step t m t' (MarkStepUp id m)
| step_trust t t' id score setAt m : t <= t' -> session_step t m t' (SetTrust id score setAt m)
| step_scopes t t' id scopes m : t <= t' -> session_step t m t' (SetAuthorizedScopes id scopes m)
| step_kind t t' id kind m : t <= t' -> session_step t m t' (SetKind id kind m)
| step_track t t' id m : t <= t' -> session_step t m t' (TrackActivity t' id m)
| step_tenant t t' tenantID m : t <= t' -> session_step t m t' (DeleteByTenant tenantID m).2
| step_destroy t t' id m : t <= t' -> session_step t m t' (Destroy id m)
| step_refresh t t' id m : t <= t' -> session_step t m t' (Refresh t' id m).2
| step_reap t t' m : t <= t' -> session_step t m t' (reap t' m).

Inductive session_run (id : string) : Z -> MemorySessionManager -> Z -> MemorySessionManager -> Prop :=
| run_nil t m : session_run id t m t m
| run_step t m t1 m1 t2 m2 : session_run id t m t1 m1 -> session_step t1 m1 t2 m2 ->
    (ms_sessions m1 !! id = None -> ms_sessions m2 !! id = None) -> session_run id t m t2 m2.

Lemma IsExpired_mono s t t' : t <= t' -> Session_IsExpired t s = true -> Session_IsExpired t' s = true.
Proof. unfold Session_IsExpired. rewrite !GoTime.Since_pos_spec, !Z.ltb_lt. lia. Qed.

Lemma dead_mono s t t' : t <= t' -> dead t s = true -> dead t' s = true.
Proof. unfold dead. rewrite !orb_true_iff. intros Ht [H|H]; [by left|right]. by eapply IsExpired_mono. Qed.

(** The session of [id] is gone or dead. *)
Definition over (t : Z) (id : string) (m : MemorySessionManager) : Prop := Get t id m = Err ErrSessionNotFound.

Lemma over_spec t id m : over t id m <-> forall s, ms_sessions m !! id = Some s -> dead t s = true.
Proof.
  unfold over, Get. destruct (ms_sessions m !! id) as [s|].
  - split; [intros H s' [= <-]; by destruct (dead t s)|]. intros H. by rewrite (H s eq_refl).
  - naive_solver.
Qed.

Lemma over_later t t' id m : t <= t' -> over t id m -> over t' id m.
Proof. rewrite !over_spec. intros Ht H s Hs. eapply dead_mono; [exact Ht|by apply H]. Qed.

(** Changing a session in place does not touch what makes it dead. *)
Lemma over_alter t id j f m :
  (forall s, dead t (f s) = dead t s) -> over t id m -> over t id (set_sessions (alter f j) m).
Proof.
  rewrite !over_spec. intros Hf H s Hs. cbn in Hs. rewrite lookup_alter in Hs. case_decide; [|by apply H].
  subst. destruct (ms_sessions m !! id) as [s0|] eqn:E; [|done]. injection Hs as <-. rewrite Hf. by apply H.
Qed.

Lemma session_step_over id t m t' m' :
  session_step t m t' m' -> (ms_sessions m !! id = None -> ms_sessions m' !! id = None) -> over t id m -> over t' id m'.
Proof.
  intros Hstep Hid Hov. assert (t <= t') as Ht by by destruct Hstep. apply (over_later _ t') in Hov; [|done].
  destruct Hstep; try (apply over_alter; [done|exact Hov]).
  - unfold CreateWithMeta in *. destruct (_ && _); [done|]. rewrite over_spec in Hov |- *. cbn in *. intros s Hs.
    destruct (decide (id = id0)) as [->|Hne].
    + by rewrite Hid in Hs.
    + rewrite lookup_insert_ne in Hs by done. by apply Hov.
  - unfold DeleteByTenant. destruct (decide _); [done|]. rewrite over_spec in Hov |- *. cbn. intros s Hs.
    apply map_lookup_filter_Some in Hs as [Hs _]. by apply Hov.
  - rewrite over_spec in Hov |- *. cbn. intros s [_ Hs]%lookup_delete_Some. by apply Hov.
  - unfold Refresh. destruct (ms_sessions m !! id0) as [s0|] eqn:E; [|done]. destruct (dead t' s0) eqn:Hd; [done|].
    rewrite over_spec in Hov |- *. cbn. intros s Hs. destruct (decide (id = id0)) as [->|Hne].
    + apply Hov in E. congruence.
    + rewrite lookup_insert_ne in Hs by done. by apply Hov.
  - rewrite over_spec in Hov |- *. cbn. intros s [Hs _]%map_lookup_filter_Some. by apply Hov.
Qed.

(** A session that is over stays over: once the manager answers that it is not found,
    because it expired, was revoked, destroyed or its tenant was removed, no sequence of
    operations at later times brings it back, a refresh least of all; only an identifier
    drawn a second time could. *)
Theorem session_not_resurrected id t m t' m' :
  session_run id t m t' m' -> over t id m -> over t' id m' /\ (forall t'', t' <= t'' -> (Refresh t'' id m').1 = Err ErrSessionNotFound).
Proof.
  intros Hrun Hov. assert (over t' id m') as Ho.
  { induction Hrun as [|t m t1 m1 t2 m2 Hrun IH Hstep Hid]; [done|]. eapply session_step_over; [done..|]. by apply IH. }
  split; [done|]. intros t'' Ht. apply (over_later _ t'') in Ho; [|done]. rewrite over_spec in Ho. unfold Refresh.
  destruct (ms_sessions m' !! id) as [s|] eqn:E; [|done]. by rewrite (Ho s eq_refl).
Qed.

(** ** Listings *)

Lemma elem_of_ListAll s m : s ∈ ListAll m <-> exists id, ms_sessions m !! id = Some s.
Proof.
  unfold ListAll. rewrite list_elem_of_fmap. setoid_rewrite <- elem_of_map_to_list. split.
  - intros ([id s'] & -> & H). by exists id.
  - intros [id H]. by exists (id, s).
Qed.

(** Sessions are filed under their own identifier. *)
Definition sessions_ok (m : MemorySessionManager) : Prop := forall id s, ms_sessions m !! id = Some s -> se_ID s = id.

Lemma sessions_ok_alter f j m : (forall s, se_ID (f s) = se_ID s) -> sessions_ok m -> sessions_ok (set_sessions (alter f j) m).
Proof.
  intros Hf Hm id s Hs. cbn in Hs. rewrite lookup_alter in Hs. case_decide; [|by apply Hm].
  subst. destruct (ms_sessions m !! id) as [s0|] eqn:E; [|done]. injection Hs as <-. rewrite Hf. by apply Hm.
Qed.

Lemma sessions_ok_filter P `{!forall x : string * Session, Decision (P x)} m : sessions_ok m -> sessions_ok (set_sessions (filter P) m).
Proof. intros Hm id s [Hs _]%map_lookup_filter_Some. by apply Hm. Qed.

Lemma session_step_ok t m t' m' : session_step t m t' m' -> sessions_ok m -> sessions_ok m'.
Proof.
  intros Hstep Hm. destruct Hstep; try (apply sessions_ok_alter; done).
  - unfold CreateWithMeta. destruct (_ && _); [done|]. intros id' s. cbn. rewrite lookup_insert_Some. intros [[<- <-]|[_ ?]]; [done|by apply Hm].
  - unfold DeleteByTenant. destruct (decide _); [done|]. by apply sessions_ok_filter.
  - intros id' s Hs. cbn in Hs. apply lookup_delete_Some in Hs as [_ Hs]. by apply Hm.
  - unfold Refresh. destruct (ms_sessions m !! id) as [s0|] eqn:E; [|done]. destruct (dead t' s0); [done|].
    intros id' s. cbn. rewrite lookup_insert_Some. intros [[<- <-]|[_ ?]]; [exact (Hm _ _ E)|by apply Hm].
  - by apply sessions_ok_filter.
Qed.

Lemma ListAll_IDs m : sessions_ok m -> NoDup (se_ID <$> ListAll m).
Proof.
  intros Hm. replace (se_ID <$> ListAll m) with (map_to_list (ms_sessions m)).*1; [apply NoDup_fst_map_to_list|].
  unfold ListAll. rewrite <- list_fmap_compose. apply list_fmap_ext. intros i [id s] Hi. symmetry. apply Hm, elem_of_map_to_list.
  by eapply list_elem_of_lookup_2.
Qed.

(** Removing the sessions of a tenant removes exactly those stamped with it, and
    reports how many; the empty tenant is not a wildcard; whoever held one of them is
    refused from then on. *)
Theorem tenant_sessions_removed t tenantID m :
  sessions_ok m -> tenantID <> "" ->
  let '(n, m') := DeleteByTenant tenantID m in
  n = Z.of_nat (length (ListByTenant tenantID m)) /\ ListByTenant tenantID m' = [] /\
  (forall s, s ∈ ListByTenant tenantID m -> over t (se_ID s) m') /\
  (forall id s, ms_sessions m !! id = Some s -> se_TenantID s <> tenantID -> Get t id m' = Get t id m) /\
  DeleteByTenant "" m = (0, m).
Proof.
  intros Hm Hne. unfold DeleteByTenant. rewrite decide_False by done. split; [|split; [|split; [|split; [|done]]]].
  - unfold ListByTenant. rewrite decide_False by done. f_equal. unfold ListAll. generalize (ms_sessions m). clear.
    intros m. induction m as [|k s m Hk IH] using map_ind; [done|].
    rewrite map_filter_insert, (map_to_list_insert m k s Hk). cbn [fmap list_fmap snd]. rewrite filter_cons. cbn [fst snd].
    destruct (decide (se_TenantID s = tenantID)).
    + rewrite map_size_insert_None by (apply map_lookup_filter_None; left; done). cbn [length]. f_equal. exact IH.
    + rewrite delete_id by done. exact IH.
  - unfold ListByTenant. rewrite decide_False by done. apply list_filter_none. intros s Hs.
    apply elem_of_ListAll in Hs as [id Hs]. cbn in Hs. apply map_lookup_filter_Some in Hs as [_ Hs]. exact Hs.
  - intros s Hs. unfold ListByTenant in Hs. rewrite decide_False in Hs by done. apply list_elem_of_filter in Hs as [Ht Hs].
    apply elem_of_ListAll in Hs as [id Hs]. rewrite (Hm _ _ Hs). apply over_spec. cbn. intros s' Hs'.
    apply map_lookup_filter_Some in Hs' as [Hs' Hn]. cbn in Hn. congruence.
  - intros id s Hs Hn. unfold Get. cbn. destruct (ms_sessions m !! id) eqn:E; [|done]. injection Hs as ->.
    assert (filter (fun kv : string * Session => se_TenantID kv.2 <> tenantID) (ms_sessions m) !! id = Some s) as ->
      by (apply map_lookup_filter_Some; done). done.
Qed.

(** ** Witnesses *)

Definition tenant_meta (tenant client : string) (scopes : list string) : SessionMeta := {|
  sm_IP := ""; sm_UserAgent := ""; sm_ClientID := client; sm_AuthorizedScopes := scopes; sm_AuthTime := 0; sm_TenantID := tenant;
  sm_DeviceID := ""; sm_Kind := ""; sm_TrustScore := of_int 0; sm_TrustSetAt := 0 |}.

Definition two_sessions : MemorySessionManager :=
  (CreateWithMeta "s2" 20 "bob" (tenant_meta "globex" "web" ["read"])
     (CreateWithMeta "s1" 10 "alice" (tenant_meta "acme" "web" ["read"; "write"]) (NewMemorySessionManager (Some 100))).2).2.

Lemma two_sessions_ok : sessions_ok two_sessions.
Proof.
  intros id s. unfold two_sessions. cbn. rewrite !lookup_insert_Some, lookup_empty. naive_solver.
Qed.

Lemma session_not_resurrected_witness :
  over 150 "s1" two_sessions /\ (Refresh 160 "s1" (TrackActivity 155 "s1" two_sessions)).1 = Err ErrSessionNotFound.
Proof.
  split; [vm_compute; reflexivity|].
  apply (session_not_resurrected "s1" 150 two_sessions 155 (TrackActivity 155 "s1" two_sessions)); [|vm_compute; reflexivity|lia].
  apply (run_step _ _ _ 150 two_sessions); [apply run_nil|apply step_track; lia|intros H; vm_compute in H; discriminate].
Defined.

Lemma tenant_sessions_removed_witness :
  Get 30 "s1" two_sessions <> Err ErrSessionNotFound /\ over 30 "s1" (DeleteByTenant "acme" two_sessions).2.
Proof.
  split; [vm_compute; discriminate|].
  pose proof (tenant_sessions_removed 30 "acme" two_sessions two_sessions_ok ltac:(discriminate)) as H.
  destruct (DeleteByTenant "acme" two_sessions) as [n m'] eqn:E. destruct H as (_ & _ & H & _).
  eapply (H (new_session "s1" "alice" 10 100 (tenant_meta "acme" "web" ["read"; "write"]))).
  assert (ListByTenant "acme" two_sessions = [new_session "s1" "alice" 10 100 (tenant_meta "acme" "web" ["read"; "write"])]) as ->
    by (vm_compute; reflexivity). left.
Defined.
