(* ===== verification/CondAccess.v ===== *)
(** * CondAccess: the conditional-access policy engine
    (domains/conditionalaccess: conditionalaccess.go, evaluate.go, memory.go,
    devicefingerprint_memory.go).

    A policy is a conjunction of conditions over the context of a request, with the
    actions it asks for; [Decide] takes the first policy that matches in the order of
    priority, specificity and name.  Scores are IEEE doubles and comparisons are read by
    [ParseFloat].  A reason of the trace is a value here, not its English text;
    [strings.EqualFold] is modelled on ASCII. *)
From S2P Require Import Prelude Crypto Core Float64 Scopes Json Keyset AdminPaging.
Local Open Scope Z_scope.

Inductive Verdict := VerdictAllow | VerdictDeny | VerdictRequireStepUp.
Inductive DevicePosture := PostureUnknown | PostureManaged | PostureUnmanaged.

#[export] Instance Verdict_eq_dec : EqDecision Verdict.
Proof. solve_decision. Defined.
#[export] Instance DevicePosture_eq_dec : EqDecision DevicePosture.
Proof. solve_decision. Defined.

Definition DefaultDegradedTrust : float64 := dec 3 1.

Record Config := {
  cf_DegradedTrust : float64;
  cf_DefaultDeny : bool;
  cf_Enforce : bool;
  cf_SessionSweepInterval : Z;
  cf_SessionSweepBatchSize : Z;
}.

Definition degradedTrust (c : Config) : float64 :=
  if (cf_DegradedTrust c <=? of_int 0)%float || (of_int 1 <? cf_DegradedTrust c)%float
  then DefaultDegradedTrust else cf_DegradedTrust c.

Record Conditions := {
  co_UserMemberOf : list string;
  co_DeviceManaged : option bool;
  co_DeviceType : string;
  co_DeviceTrustLevel : float64;
  co_IsNewDevice : bool;
  co_IsNewLocation : bool;
  co_RiskScore : string;
  co_GeoIn : list string;
  co_GeoNotIn : list string;
  co_TimeAfter : string;
  co_TimeBefore : string;
  co_SessionAgeSeconds : Z;
  co_AuthenticationAgeSeconds : Z;
  co_MaxConcurrentSessions : Z;
}.

Definition specificity (c : Conditions) : nat :=
  length (filter (fun set => set = true) [
    negb (bool_decide (co_UserMemberOf c = []));
    bool_decide (co_DeviceManaged c <> None);
    negb (bool_decide (co_DeviceType c = ""));
    (of_int 0 <? co_DeviceTrustLevel c)%float;
    co_IsNewDevice c;
    co_IsNewLocation c;
    negb (bool_decide (co_RiskScore c = ""));
    negb (bool_decide (co_GeoIn c = []));
    negb (bool_decide (co_GeoNotIn c = []));
    negb (bool_decide (co_TimeAfter c = ""));
    negb (bool_decide (co_TimeBefore c = ""));
    0 <? co_SessionAgeSeconds c;
    0 <? co_AuthenticationAgeSeconds c;
    0 <? co_MaxConcurrentSessions c]).

Record Actions := {
  at_Allow : bool;
  at_Deny : bool;
  at_RequireStepUp : string;
  at_RestrictScopes : list string;
  at_Log : bool;
}.

Record Policy := {
  po_Name : string;
  po_Priority : Z;
  po_Enabled : bool;
  po_DryRun : bool;
  po_Conditions : Conditions;
  po_Actions : Actions;
}.

#[export] Instance Conditions_eq_dec : EqDecision Conditions.
Proof. solve_decision. Defined.
#[export] Instance Actions_eq_dec : EqDecision Actions.
Proof. solve_decision. Defined.
#[export] Instance Policy_eq_dec : EqDecision Policy.
Proof. solve_decision. Defined.

(** ** Literals *)

(** [parseComparison]: [None] is an error. *)
Fixpoint parse_op (ops : list string) (s : string) : option (string * float64) :=
  match ops with
  | [] => None
  | op :: ops =>
      if HasPrefix s op
      then (fun n => (op, n)) <$> ParseFloat (Str.TrimSpace (Str.of_list (drop (String.length op) (Str.to_list s))))
      else parse_op ops s
  end.

Definition parseComparison (expr : string) : option (string * float64) :=
  parse_op [">="; "<="; "=="; "!="; ">"; "<"] (Str.TrimSpace expr).

Definition applyComparison (op : string) (value threshold : float64) : bool :=
  if decide (op = ">") then (threshold <? value)%float
  else if decide (op = ">=") then (threshold <=? value)%float
  else if decide (op = "<") then (value <? threshold)%float
  else if decide (op = "<=") then (value <=? threshold)%float
  else if decide (op = "==") then (value =? threshold)%float
  else if decide (op = "!=") then negb (value =? threshold)%float
  else false.

(** [getnum] of package time: one digit or two, or exactly two. *)
Definition getnum (l : list Z) (fixed : bool) : option (Z * list Z) :=
  match l with
  | a :: rest =>
      if digit_byte a then
        match rest with
        | b :: rest' => if digit_byte b then Some (10 * (a - 48) + (b - 48), rest') else if fixed then None else Some (a - 48, rest)
        | [] => if fixed then None else Some (a - 48, rest)
        end
      else None
  | [] => None
  end.

(** [time.Parse("15:04", s)] as minutes since midnight. *)
Definition parseHHMM (s : string) : option Z :=
  match getnum (string_bytes (Str.TrimSpace s)) false with
  | Some (h, 58 :: rest) =>
      if h <? 24 then
        match getnum rest true with
        | Some (m, []) => if m <? 60 then Some (h * 60 + m) else None
        | _ => None
        end
      else None
  | _ => None
  end.

(** [Policy.Validate]. *)
Definition Validate (p : Policy) : bool :=
  let c := po_Conditions p in
  negb (bool_decide (Str.TrimSpace (po_Name p) = "")) &&
  (bool_decide (co_RiskScore c = "") || bool_decide (is_Some (parseComparison (co_RiskScore c)))) &&
  forallb (fun hhmm => bool_decide (hhmm = "") || bool_decide (is_Some (parseHHMM hhmm))) [co_TimeAfter c; co_TimeBefore c] &&
  (0 <=? co_SessionAgeSeconds c) && (0 <=? co_AuthenticationAgeSeconds c) && (0 <=? co_MaxConcurrentSessions c).

(** ** Evaluation *)

Record AccessContext := {
  ac_TrustScore : float64;
  ac_TrustScoreKnown : bool;
  ac_DevicePosture : DevicePosture;
  ac_Groups : list string;
  ac_Country : string;
  ac_Now : Z;
  ac_SessionCreatedAt : Z;
  ac_AuthTime : Z;
  ac_ConcurrentSessions : Z;
  ac_ConcurrentSessionsKnown : bool;
  ac_RequestedScopes : list string;
  ac_DeviceType : string;
  ac_DeviceTrustLevel : float64;
  ac_IsNewDevice : bool;
  ac_IsNewLocation : bool;
  ac_Subject : string;
  ac_ClientID : string;
}.

Inductive reason :=
| reasonDegraded | reasonDefaultAllow | reasonDefaultDeny | reasonStoreUnavailable
| matched_policy (name : string) | evaluation_error (name : string).

Record Decision := {
  dc_Verdict : Verdict;
  dc_MatchedPolicy : string;
  dc_StepUpMethod : string;
  dc_RestrictScopes : list string;
  dc_Log : bool;
  dc_Degraded : bool;
  dc_EffectiveTrust : float64;
  dc_DryRunMatches : list string;
  dc_Reasons : list reason;
}.

Definition clamp01 (v : float64) : float64 :=
  if (v <? of_int 0)%float then of_int 0 else if (of_int 1 <? v)%float then of_int 1 else v.

Definition degradeTrust (cfg : Config) (ac : AccessContext) : float64 * bool :=
  let floor := degradedTrust cfg in
  let '(eff, degraded) := if ac_TrustScoreKnown ac then (ac_TrustScore ac, false) else (floor, true) in
  let '(eff, degraded) :=
    if bool_decide (ac_DevicePosture ac = PostureUnknown) && (floor <? eff)%float then (floor, true) else (eff, degraded) in
  (clamp01 eff, degraded).

Definition lessPolicy (a b : Policy) : bool :=
  if decide (po_Priority a = po_Priority b) then
    let sa := specificity (po_Conditions a) in
    let sb := specificity (po_Conditions b) in
    if decide (sa = sb) then bool_decide (Compare (po_Name a) (po_Name b) = Lt) else (sb <? sa)%nat
  else po_Priority b <? po_Priority a.

Definition policy_order (a b : Policy) : Prop := lessPolicy b a = false.
#[export] Instance policy_order_dec : RelDecision policy_order.
Proof. unfold RelDecision, policy_order. apply _. Defined.

(** A stable sort by [lessPolicy]. *)
Definition sortedPolicies (policies : list Policy) : list Policy :=
  merge_sort policy_order (filter (fun p => po_Enabled p = true) policies).

Definition matchDeviceConditions (c : Conditions) (ac : AccessContext) : bool :=
  match co_DeviceManaged c with
  | Some managed => bool_decide (managed = bool_decide (ac_DevicePosture ac = PostureManaged))
  | None => true
  end &&
  (bool_decide (co_DeviceType c = "") || bool_decide (co_DeviceType c = ac_DeviceType ac)) &&
  negb ((of_int 0 <? co_DeviceTrustLevel c)%float && (ac_DeviceTrustLevel ac <? co_DeviceTrustLevel c)%float) &&
  (negb (co_IsNewDevice c) || ac_IsNewDevice ac) &&
  (negb (co_IsNewLocation c) || ac_IsNewLocation ac).

Definition anyInGroups (have want : list string) : bool := existsb (fun w => contains have w) want.

Definition matchRisk (expr : string) (risk : float64) : result () bool :=
  match parseComparison expr with None => Err () | Some (op, threshold) => Ok (applyComparison op risk threshold) end.

Definition containsFold (l : list string) (target : string) : bool := existsb (fun v => bool_decide (ToLower v = ToLower target)) l.

Definition matchGeo (c : Conditions) (country : string) : bool :=
  if bool_decide (co_GeoIn c = []) && bool_decide (co_GeoNotIn c = []) then true
  else if bool_decide (country = "") then false
  else (bool_decide (co_GeoIn c = []) || containsFold (co_GeoIn c) country) &&
       (bool_decide (co_GeoNotIn c = []) || negb (containsFold (co_GeoNotIn c) country)).

(** The duration [time.Duration(seconds) * time.Second] wraps around. *)
Definition ageAtLeast (now since seconds : Z) : bool :=
  negb (GoTime.IsZero now) && negb (GoTime.IsZero since) && negb (GoTime.Before now since) &&
  (wrap64 (seconds * GoTime.Second) <=? GoTime.Sub now since).

Definition matchAgeConditions (c : Conditions) (ac : AccessContext) : bool :=
  negb ((0 <? co_SessionAgeSeconds c) && negb (ageAtLeast (ac_Now ac) (ac_SessionCreatedAt ac) (co_SessionAgeSeconds c))) &&
  negb ((0 <? co_AuthenticationAgeSeconds c) && negb (ageAtLeast (ac_Now ac) (ac_AuthTime ac) (co_AuthenticationAgeSeconds c))) &&
  negb ((0 <? co_MaxConcurrentSessions c) &&
        (negb (ac_ConcurrentSessionsKnown ac) || (ac_ConcurrentSessions ac <=? co_MaxConcurrentSessions c))).

Definition inWindow (cur after before : Z) : bool :=
  if after <=? before then (after <=? cur) && (cur <? before) else (after <=? cur) || (cur <? before).

(** The hour and minute of an instant, in minutes. *)
Definition minute_of_day (now : Z) : Z := (now / GoTime.Minute) mod (24 * 60).

Definition matchTime (c : Conditions) (now : Z) : result () bool :=
  let bound text none := if decide (text = "") then Ok none else match parseHHMM text with Some m => Ok m | None => Err () end in
  if bool_decide (co_TimeAfter c = "") && bool_decide (co_TimeBefore c = "") then Ok true
  else if GoTime.IsZero now then Ok false
  else
    after ← bound (co_TimeAfter c) 0;
    before ← bound (co_TimeBefore c) (24 * 60);
    Ok (inWindow (minute_of_day now) after before).

Definition matchPolicy (c : Conditions) (ac : AccessContext) (risk : float64) : result () bool :=
  if negb (bool_decide (co_UserMemberOf c = [])) && negb (anyInGroups (ac_Groups ac) (co_UserMemberOf c)) then Ok false
  else if negb (matchDeviceConditions c ac) then Ok false
  else
    risky ← (if decide (co_RiskScore c = "") then Ok true else matchRisk (co_RiskScore c) risk);
    if negb (risky : bool) then Ok false
    else if negb (matchGeo c (ac_Country ac)) then Ok false
    else if negb (matchAgeConditions c ac) then Ok false
    else matchTime c (ac_Now ac).

Definition applyActions (dec : Decision) (p : Policy) : Decision :=
  let a := po_Actions p in
  let '(verdict, method) :=
    if at_Deny a then (VerdictDeny, dc_StepUpMethod dec)
    else if decide (at_RequireStepUp a = "") then (VerdictAllow, dc_StepUpMethod dec)
    else (VerdictRequireStepUp, at_RequireStepUp a) in
  {| dc_Verdict := verdict; dc_MatchedPolicy := po_Name p; dc_StepUpMethod := method; dc_RestrictScopes := at_RestrictScopes a;
     dc_Log := at_Log a; dc_Degraded := dc_Degraded dec; dc_EffectiveTrust := dc_EffectiveTrust dec;
     dc_DryRunMatches := dc_DryRunMatches dec; dc_Reasons := dc_Reasons dec ++ [matched_policy (po_Name p)] |}.

Definition set_verdict (dec : Decision) (v : Verdict) (matched : string) (why : reason) : Decision :=
  {| dc_Verdict := v; dc_MatchedPolicy := matched; dc_StepUpMethod := dc_StepUpMethod dec; dc_RestrictScopes := dc_RestrictScopes dec;
     dc_Log := dc_Log dec; dc_Degraded := dc_Degraded dec; dc_EffectiveTrust := dc_EffectiveTrust dec;
     dc_DryRunMatches := dc_DryRunMatches dec; dc_Reasons := dc_Reasons dec ++ [why] |}.

Definition applyDefault (cfg : Config) (dec : Decision) : Decision :=
  if cf_DefaultDeny cfg then set_verdict dec VerdictDeny (dc_MatchedPolicy dec) reasonDefaultDeny
  else set_verdict dec VerdictAllow (dc_MatchedPolicy dec) reasonDefaultAllow.

Definition denyOnError (dec : Decision) (name : string) : Decision := set_verdict dec VerdictDeny name (evaluation_error name).

Definition add_dry_run (dec : Decision) (name : string) : Decision :=
  {| dc_Verdict := dc_Verdict dec; dc_MatchedPolicy := dc_MatchedPolicy dec; dc_StepUpMethod := dc_StepUpMethod dec;
     dc_RestrictScopes := dc_RestrictScopes dec; dc_Log := dc_Log dec; dc_Degraded := dc_Degraded dec;
     dc_EffectiveTrust := dc_EffectiveTrust dec; dc_DryRunMatches := dc_DryRunMatches dec ++ [name]; dc_Reasons := dc_Reasons dec |}.

(** The loop of [Decide] over the policies in evaluation order. *)
Fixpoint resolve (cfg : Config) (ac : AccessContext) (risk : float64) (ps : list Policy) (dec : Decision) : Decision :=
  match ps with
  | [] => applyDefault cfg dec
  | p :: ps =>
      match matchPolicy (po_Conditions p) ac risk with
      | Err _ => denyOnError dec (po_Name p)
      | Ok false => resolve cfg ac risk ps dec
      | Ok true => if po_DryRun p then resolve cfg ac risk ps (add_dry_run dec (po_Name p)) else applyActions dec p
      end
  end.

(** The decision before any policy is looked at; the zero verdict is the empty string,
    which every path overwrites. *)
Definition start_decision (eff : float64) (degraded : bool) (why : list reason) : Decision := {|
  dc_Verdict := VerdictAllow; dc_MatchedPolicy := ""; dc_StepUpMethod := ""; dc_RestrictScopes := []; dc_Log := false;
  dc_Degraded := degraded; dc_EffectiveTrust := eff; dc_DryRunMatches := []; dc_Reasons := why |}.

Definition Decide (cfg : Config) (policies : list Policy) (ac : AccessContext) : Decision :=
  let '(eff, degraded) := degradeTrust cfg ac in
  let risk := (of_int 1 - eff)%float in
  resolve cfg ac risk (sortedPolicies policies) (start_decision eff degraded (if degraded then [reasonDegraded] else [])).

(** [Engine.Evaluate]: [listed] is what the store answers; the flag is the error. *)
Definition Evaluate (cfg : Config) (listed : option (list Policy)) (ac : AccessContext) : Decision * bool :=
  match listed with
  | None => (applyDefault cfg (start_decision (of_int 0) true [reasonStoreUnavailable]), true)
  | Some policies => (Decide cfg policies ac, false)
  end.

(** ** The in-memory store and device postures *)

Notation MemoryStore := (gmap string Policy).

(** [List] has no order: what it answers is any listing of the values. *)
Definition Listed (m : MemoryStore) (ps : list Policy) : Prop := ps ≡ₚ (map_to_list m).*2.
Definition GetPolicy (name : string) (m : MemoryStore) : option Policy := m !! name.
Definition Put (p : Policy) (m : MemoryStore) : bool * MemoryStore :=
  if Validate p then (true, <[po_Name p := p]> m) else (false, m).
Definition DeletePolicy (name : string) (m : MemoryStore) : MemoryStore := delete name m.

Notation MemoryDeviceFingerprint := (gmap string DevicePosture).

Definition Lookup (fingerprint : string) (m : MemoryDeviceFingerprint) : DevicePosture * bool :=
  if decide (fingerprint = "") then (PostureUnknown, false)
  else match m !! fingerprint with Some p => (p, true) | None => (PostureUnknown, false) end.
Definition RecordPosture (fingerprint : string) (p : DevicePosture) (m : MemoryDeviceFingerprint) : MemoryDeviceFingerprint :=
  if decide (fingerprint = "") then m else <[fingerprint := p]> m.

(** ** The order of evaluation *)

Lemma lessPolicy_spec a b :
  lessPolicy a b = true <->
    po_Priority b < po_Priority a \/
    po_Priority a = po_Priority b /\
      ((specificity (po_Conditions b) < specificity (po_Conditions a))%nat \/
       specificity (po_Conditions a) = specificity (po_Conditions b) /\ Compare (po_Name a) (po_Name b) = Lt).
Proof.
  unfold lessPolicy. destruct (decide (po_Priority a = po_Priority b)); [|rewrite Z.ltb_lt; lia].
  destruct (decide (specificity (po_Conditions a) = specificity (po_Conditions b))); rewrite ?bool_decide_eq_true, ?Nat.ltb_lt; intuition lia.
Qed.

Lemma lessPolicy_asym a b : lessPolicy a b = true -> lessPolicy b a = false.
Proof.
  intros H. apply not_true_iff_false. intros H'. apply lessPolicy_spec in H, H'.
  assert (Compare (po_Name a) (po_Name b) = Lt -> Compare (po_Name b) (po_Name a) = Lt -> False)
    by (intros E; rewrite Compare_antisym, E; done).
  intuition lia.
Qed.

Lemma policy_order_spec a b :
  policy_order a b <->
    po_Priority b < po_Priority a \/
    po_Priority a = po_Priority b /\
      ((specificity (po_Conditions b) < specificity (po_Conditions a))%nat \/
       specificity (po_Conditions a) = specificity (po_Conditions b) /\ Compare (po_Name b) (po_Name a) <> Lt).
Proof.
  unfold policy_order. rewrite <- not_true_iff_false, lessPolicy_spec.
  generalize (po_Priority a) (po_Priority b) (specificity (po_Conditions a)) (specificity (po_Conditions b)). intros pa pb sa sb.
  destruct (decide (Compare (po_Name b) (po_Name a) = Lt)) as [E|E].
  - assert (Compare (po_Name b) (po_Name a) = Lt <-> True) as -> by tauto. lia.
  - assert (Compare (po_Name b) (po_Name a) = Lt <-> False) as -> by tauto. lia.
Qed.

Lemma lessPolicy_total a b : po_Name a <> po_Name b -> lessPolicy b a = false -> lessPolicy a b = true.
Proof.
  intros Hn H. apply policy_order_spec in H. apply lessPolicy_spec.
  assert (Compare (po_Name b) (po_Name a) <> Lt -> Compare (po_Name a) (po_Name b) = Lt) as Hc.
  { rewrite (Compare_antisym (po_Name b)). destruct (Compare (po_Name b) (po_Name a)) eqn:E; [|done|done].
    by apply Compare_Eq in E. }
  destruct H as [?|[? [?|[? ?]]]]; auto 6.
Qed.

#[export] Instance policy_order_total : Total policy_order.
Proof.
  intros a b. unfold policy_order. destruct (lessPolicy b a) eqn:E; [right|by left]. by apply lessPolicy_asym.
Qed.

#[export] Instance policy_order_trans : Transitive policy_order.
Proof.
  intros a b c. rewrite !policy_order_spec.
  assert (Compare (po_Name b) (po_Name a) <> Lt -> Compare (po_Name c) (po_Name b) <> Lt -> Compare (po_Name c) (po_Name a) <> Lt) as Hn.
  { intros H2 H3 H1. destruct (Compare (po_Name b) (po_Name a)) eqn:E; [apply Compare_Eq in E; congruence|done|].
    assert (Compare (po_Name a) (po_Name b) = Lt) as E' by (rewrite Compare_antisym, E; done).
    apply H3. by eapply Compare_Lt_trans. }
  intros [?|[? [?|[? ?]]]] [?|[? [?|[? ?]]]]; [left; lia..|right; split; [lia|left; lia]|right; split; [lia|left; lia]|left; lia| |].
  - right. split; [lia|left; lia].
  - right. split; [lia|right]. split; [lia|auto].
Qed.

Lemma policy_order_antisym a b : policy_order a b -> policy_order b a -> po_Name a = po_Name b.
Proof.
  intros Hab Hba. destruct (decide (po_Name a = po_Name b)); [done|]. apply lessPolicy_total in Hab; [|done].
  unfold policy_order in Hba. congruence.
Qed.


Lemma same_name ps a b : NoDup (po_Name <$> ps) -> a ∈ ps -> b ∈ ps -> po_Name a = po_Name b -> a = b.
Proof.
  intros Hn [i Ha]%list_elem_of_lookup [j Hb]%list_elem_of_lookup E.
  assert (i = j) as ->; [|congruence]. eapply (NoDup_lookup _ i j (po_Name a)); [exact Hn| |]; rewrite list_lookup_fmap.
  - by rewrite Ha.
  - by rewrite Hb, E.
Qed.

Lemma sorted_filter (P : Policy -> Prop) `{!forall p, base.Decision (P p)} ps :
  StronglySorted policy_order ps -> StronglySorted policy_order (filter P ps).
Proof.
  induction 1 as [|x l Hl IH Hx]; [constructor|]. rewrite filter_cons. destruct (decide _); [|done].
  constructor; [done|]. apply Forall_forall. intros y [_ Hy]%list_elem_of_filter. by eapply Forall_forall in Hx.
Qed.

(** Policies with names of their own are evaluated in one order, however they are listed. *)
Lemma sortedPolicies_listing ps ps' : NoDup (po_Name <$> ps) -> ps ≡ₚ ps' -> sortedPolicies ps = sortedPolicies ps'.
Proof.
  intros Hn Hp. unfold sortedPolicies. apply (Sorted_unique_strong policy_order); [|apply Sorted_merge_sort; apply _..|].
  - intros a b Ha Hb H1 H2. rewrite merge_sort_Permutation in Ha, Hb.
    apply list_elem_of_filter in Ha as [_ Ha]. apply list_elem_of_filter in Hb as [_ Hb]. rewrite <- Hp in Hb.
    by apply (same_name ps), policy_order_antisym.
  - rewrite !merge_sort_Permutation. by rewrite Hp.
Qed.

(** ** What a decision comes from *)

Lemma matchTime_Ok c now :
  (co_TimeAfter c = "" \/ is_Some (parseHHMM (co_TimeAfter c))) -> (co_TimeBefore c = "" \/ is_Some (parseHHMM (co_TimeBefore c))) ->
  exists b, matchTime c now = Ok b.
Proof.
  intros Ha Hb. unfold matchTime. destruct (_ && _); [eauto|]. destruct (GoTime.IsZero now); [eauto|].
  assert (forall text none, text = "" \/ is_Some (parseHHMM text) ->
    exists m, (if decide (text = "") then Ok none else match parseHHMM text with Some m => Ok m | None => Err () end) = Ok (E := ()) m) as H.
  { intros text none Ht. destruct (decide (text = "")); [eauto|]. destruct Ht as [|[m ->]]; [done|eauto]. }
  destruct (H _ 0 Ha) as [m ->], (H _ (24 * 60) Hb) as [m' ->]. cbn [mbind result_bind]. eauto.
Qed.

(** A policy that was validated can be evaluated. *)
Lemma matchPolicy_Ok p ac risk : Validate p = true -> exists b, matchPolicy (po_Conditions p) ac risk = Ok b.
Proof.
  unfold Validate. cbn [forallb]. rewrite !andb_true_iff, !orb_true_iff, !bool_decide_eq_true. intros H.
  unfold matchPolicy. destruct (negb (bool_decide _) && _); [by exists false|].
  destruct (negb (matchDeviceConditions _ _)); [by exists false|].
  assert (exists b, (if decide (co_RiskScore (po_Conditions p) = "") then Ok true else matchRisk (co_RiskScore (po_Conditions p)) risk) = Ok b) as [b ->].
  { destruct (decide _) as [|]; [eauto|]. unfold matchRisk. destruct H as [[[[[_ [?|[[op th] ->]]] _] _] _] _]; [done|eauto]. }
  cbn [mbind result_bind]. destruct (negb b); [by exists false|].
  destruct (negb (matchGeo _ _)); [by exists false|]. destruct (negb (matchAgeConditions _ _)); [by exists false|].
  apply matchTime_Ok; tauto.
Qed.

(** Whether a policy matches, and is one that binds. *)
Definition matches (cfg : Config) (ac : AccessContext) (p : Policy) : bool :=
  match matchPolicy (po_Conditions p) ac (of_int 1 - (degradeTrust cfg ac).1)%float with Ok b => b | Err _ => false end.

Definition binds (cfg : Config) (ac : AccessContext) (p : Policy) : bool :=
  po_Enabled p && negb (po_DryRun p) && matches cfg ac p.

(** What the enforcement points read. *)
Definition outcome (d : Decision) : Verdict * string * string * list string * bool :=
  (dc_Verdict d, dc_MatchedPolicy d, dc_StepUpMethod d, dc_RestrictScopes d, dc_Log d).

Lemma resolve_outcome cfg ac ps dec :
  Forall (fun p => Validate p = true) ps -> Forall (fun p => po_Enabled p = true) ps ->
  exists dec', outcome dec' = outcome dec /\
    dc_Degraded dec' = dc_Degraded dec /\ dc_EffectiveTrust dec' = dc_EffectiveTrust dec /\ dc_Reasons dec' = dc_Reasons dec /\
    resolve cfg ac (of_int 1 - (degradeTrust cfg ac).1)%float ps dec =
      match head (filter (fun p => binds cfg ac p = true) ps) with
      | Some p => applyActions dec' p
      | None => applyDefault cfg dec'
      end.
Proof.
  intros Hv He. revert dec. induction ps as [|p ps IH]; intros dec; [exists dec; done|].
  apply Forall_cons in Hv as [Hv Hvs]. apply Forall_cons in He as [He Hes]. specialize (IH Hvs Hes).
  cbn [resolve]. destruct (matchPolicy_Ok p ac (of_int 1 - (degradeTrust cfg ac).1)%float Hv) as [b Hb]. rewrite Hb.
  rewrite filter_cons. assert (binds cfg ac p = negb (po_DryRun p) && b) as -> by (unfold binds, matches; by rewrite He, Hb).
  destruct b; rewrite ?andb_true_r, ?andb_false_r.
  - destruct (po_DryRun p); cbn [negb].
    + rewrite decide_False by done. destruct (IH (add_dry_run dec (po_Name p))) as (dec' & H1 & H2 & H3 & H4 & H5).
      exists dec'. done.
    + rewrite decide_True by done. exists dec. done.
  - rewrite decide_False by done. apply IH.
Qed.

(** The first of the policies that bind comes before all others. *)
Lemma head_sorted ps p cfg ac :
  NoDup (po_Name <$> ps) -> head (filter (fun p => binds cfg ac p = true) (sortedPolicies ps)) = Some p ->
  p ∈ ps /\ binds cfg ac p = true /\ forall q, q ∈ ps -> binds cfg ac q = true -> q <> p -> lessPolicy p q = true.
Proof.
  intros Hn Hh. assert (StronglySorted policy_order (sortedPolicies ps)) as Hs by (apply StronglySorted_merge_sort; apply _).
  destruct (filter _ (sortedPolicies ps)) as [|p' rest] eqn:E; [done|]. injection Hh as ->.
  assert (p ∈ filter (fun p => binds cfg ac p = true) (sortedPolicies ps)) as Hp by (rewrite E; left).
  assert (forall q, q ∈ filter (fun p => binds cfg ac p = true) (sortedPolicies ps) <-> q ∈ ps /\ binds cfg ac q = true) as Hin.
  { intros q. rewrite list_elem_of_filter. unfold sortedPolicies. rewrite merge_sort_Permutation, list_elem_of_filter.
    unfold binds. rewrite !andb_true_iff. naive_solver. }
  apply Hin in Hp as [Hp Hb]. split; [done|]. split; [done|]. intros q Hq Hbq Hne.
  assert (StronglySorted policy_order (filter (fun p => binds cfg ac p = true) (sortedPolicies ps))) as Hs' by (by apply sorted_filter).
  rewrite E in Hs'. apply StronglySorted_inv in Hs' as [_ Hall].
  assert (q ∈ p :: rest) as Hq' by (rewrite <- E; apply Hin; done). apply elem_of_cons in Hq' as [->|Hq']; [done|].
  eapply Forall_forall in Hall; [|exact Hq']. apply lessPolicy_total; [|done]. intros En. apply Hne. by apply (same_name ps).
Qed.

(** What a policy that binds asks for. *)
Definition policy_outcome (p : Policy) : Verdict * string * string * list string * bool :=
  let a := po_Actions p in
  (if at_Deny a then VerdictDeny else if decide (at_RequireStepUp a = "") then VerdictAllow else VerdictRequireStepUp,
   po_Name p, if at_Deny a then "" else at_RequireStepUp a, at_RestrictScopes a, at_Log a).

Definition default_outcome (cfg : Config) : Verdict * string * string * list string * bool :=
  (if cf_DefaultDeny cfg then VerdictDeny else VerdictAllow, "", "", [], false).

Lemma Decide_outcome cfg ps ac :
  Forall (fun p => Validate p = true) ps ->
  let bound := head (filter (fun p => binds cfg ac p = true) (sortedPolicies ps)) in
  outcome (Decide cfg ps ac) = from_option policy_outcome (default_outcome cfg) bound /\
  dc_Reasons (Decide cfg ps ac) =
    (if (degradeTrust cfg ac).2 then [reasonDegraded] else []) ++
    [from_option (fun p => matched_policy (po_Name p)) (if cf_DefaultDeny cfg then reasonDefaultDeny else reasonDefaultAllow) bound] /\
  dc_EffectiveTrust (Decide cfg ps ac) = (degradeTrust cfg ac).1 /\ dc_Degraded (Decide cfg ps ac) = (degradeTrust cfg ac).2.
Proof.
  intros Hv bound. unfold Decide. destruct (degradeTrust cfg ac) as [eff degraded] eqn:Hd.
  assert (eff = (degradeTrust cfg ac).1) as -> by (by rewrite Hd).
  destruct (resolve_outcome cfg ac (sortedPolicies ps) (start_decision (degradeTrust cfg ac).1 degraded (if degraded then [reasonDegraded] else [])))
    as (dec & Ho & Hg & Ht & Hr & ->).
  - unfold sortedPolicies. rewrite merge_sort_Permutation. apply Forall_forall. intros p [_ Hp]%list_elem_of_filter.
    by eapply Forall_forall in Hv.
  - unfold sortedPolicies. rewrite merge_sort_Permutation. apply Forall_forall. intros p [He _]%list_elem_of_filter. done.
  - fold bound. unfold outcome in Ho. cbn [start_decision dc_Verdict dc_MatchedPolicy dc_StepUpMethod dc_RestrictScopes dc_Log] in Ho.
    injection Ho as Hv1 Hm1 Hs1 Hr1 Hl1.
    destruct bound as [p|]; cbn [from_option].
    + unfold applyActions, policy_outcome, outcome. destruct (at_Deny (po_Actions p)), (decide (at_RequireStepUp (po_Actions p) = "")) as [E|E];
        cbn [dc_Verdict dc_MatchedPolicy dc_StepUpMethod dc_RestrictScopes dc_Log dc_Reasons dc_EffectiveTrust dc_Degraded];
        rewrite ?Hs1, ?E, Hr, Ht, Hg; done.
    + unfold applyDefault, default_outcome, outcome, set_verdict. destruct (cf_DefaultDeny cfg);
        cbn [dc_Verdict dc_MatchedPolicy dc_StepUpMethod dc_RestrictScopes dc_Log dc_Reasons dc_EffectiveTrust dc_Degraded];
        rewrite Hm1, Hs1, Hr1, Hl1, Hr, Ht, Hg; done.
Qed.

Lemma head_filter_None cfg ac ps :
  head (filter (fun p => binds cfg ac p = true) (sortedPolicies ps)) = None -> forall p, p ∈ ps -> binds cfg ac p = false.
Proof.
  intros Hh p Hp. destruct (binds cfg ac p) eqn:Hb; [|done].
  assert (p ∈ filter (fun p => binds cfg ac p = true) (sortedPolicies ps)) as Hin.
  { apply list_elem_of_filter. split; [done|]. unfold sortedPolicies. rewrite merge_sort_Permutation. apply list_elem_of_filter.
    split; [|done]. unfold binds in Hb. by apply andb_true_iff in Hb as [[Hb _]%andb_true_iff _]. }
  destruct (filter _ (sortedPolicies ps)); [|done]. by apply elem_of_nil in Hin.
Qed.

Lemma binding_sorted cfg ac ps :
  NoDup (po_Name <$> ps) ->
  filter (fun p => binds cfg ac p = true) (sortedPolicies ps) = merge_sort policy_order (filter (fun p => binds cfg ac p = true) ps).
Proof.
  intros Hn. apply (Sorted_unique_strong policy_order); [| |apply Sorted_merge_sort; apply _|].
  - intros a b Ha Hb H1 H2. rewrite merge_sort_Permutation in Hb. apply list_elem_of_filter in Ha as [_ Ha].
    unfold sortedPolicies in Ha. rewrite merge_sort_Permutation in Ha. apply list_elem_of_filter in Ha as [_ Ha].
    apply list_elem_of_filter in Hb as [_ Hb]. by apply (same_name ps), policy_order_antisym.
  - apply StronglySorted_Sorted, sorted_filter, StronglySorted_merge_sort; apply _.
  - rewrite merge_sort_Permutation. unfold sortedPolicies. rewrite merge_sort_Permutation, list_filter_filter.
    erewrite list_filter_iff; [reflexivity|]. intros p. cbn. unfold binds. rewrite !andb_true_iff. tauto.
Qed.

(** C23 — The decision does not depend on how the store lists its policies; it is what the
    first policy in the order of priority, specificity and name, among those that are
    enabled, not report-only and match, asks for (denying before stepping up before
    allowing), or the configured default when there is none; report-only policies do not
    change it, and a validated policy never counts as one that cannot be evaluated. *)
Theorem conditional_access_decision cfg ps ac :
  NoDup (po_Name <$> ps) -> Forall (fun p => Validate p = true) ps ->
  (forall ps', ps' ≡ₚ ps -> Decide cfg ps' ac = Decide cfg ps ac) /\
  ((exists p, p ∈ ps /\ binds cfg ac p = true /\ outcome (Decide cfg ps ac) = policy_outcome p /\
      forall q, q ∈ ps -> binds cfg ac q = true -> q <> p -> lessPolicy p q = true) \/
   ((forall p, p ∈ ps -> binds cfg ac p = false) /\ outcome (Decide cfg ps ac) = default_outcome cfg)) /\
  outcome (Decide cfg (filter (fun p => po_DryRun p = false) ps) ac) = outcome (Decide cfg ps ac) /\
  (forall name, evaluation_error name ∉ dc_Reasons (Decide cfg ps ac)).
Proof.
  intros Hn Hv. pose proof (Decide_outcome cfg ps ac Hv) as (Ho & Hr & _). split; [|split; [|split]].
  - intros ps' Hp. unfold Decide. by rewrite (sortedPolicies_listing ps ps').
  - destruct (head _) as [p|] eqn:Hh; cbn [from_option] in Ho.
    + left. exists p. apply head_sorted in Hh as (? & ? & ?); done.
    + right. split; [by apply head_filter_None|done].
  - assert (Forall (fun p => Validate p = true) (filter (fun p => po_DryRun p = false) ps)) as Hv'
      by (apply Forall_forall; intros p [_ Hp]%list_elem_of_filter; by eapply Forall_forall in Hv).
    destruct (Decide_outcome cfg _ ac Hv') as [-> _]. rewrite Ho, !binding_sorted; [|done|].
    + rewrite list_filter_filter. do 3 f_equal. apply list_filter_iff. intros p. unfold binds. rewrite !andb_true_iff, negb_true_iff. tauto.
    + eapply sublist_NoDup; [exact Hn|]. apply fmap_sublist, sublist_filter.
  - intros name. rewrite Hr, elem_of_app, list_elem_of_singleton. intros [H|H].
    + destruct (degradeTrust cfg ac).2; [by apply list_elem_of_singleton in H|by apply elem_of_nil in H].
    + destruct (head _); cbn in H; [done|]. by destruct (cf_DefaultDeny cfg).
Qed.

(** ** The store *)

Inductive policy_store : MemoryStore -> Prop :=
| store_new : policy_store ∅
| store_put p m : policy_store m -> policy_store (Put p m).2
| store_delete name m : policy_store m -> policy_store (DeletePolicy name m).

Lemma policy_store_ok m : policy_store m -> forall name p, m !! name = Some p -> po_Name p = name /\ Validate p = true.
Proof.
  induction 1 as [|p0 m Hm IH|name0 m Hm IH]; intros name p.
  - by rewrite lookup_empty.
  - unfold Put. destruct (Validate p0) eqn:Hv; [|apply IH]. cbn. rewrite lookup_insert_Some. intros [[<- <-]|[_ H]]; [done|by apply IH].
  - unfold DeletePolicy. rewrite lookup_delete_Some. intros [_ H]. by apply IH.
Qed.

Lemma Listed_ok m ps : policy_store m -> Listed m ps -> NoDup (po_Name <$> ps) /\ Forall (fun p => Validate p = true) ps.
Proof.
  intros Hm Hl. unfold Listed in Hl. pose proof (policy_store_ok m Hm) as Hok. rewrite Hl. split.
  - replace (po_Name <$> (map_to_list m).*2) with (map_to_list m).*1; [apply NoDup_fst_map_to_list|].
    rewrite <- list_fmap_compose. apply list_fmap_ext. intros i [name p] Hi. symmetry.
    refine (proj1 (Hok name p _)). apply elem_of_map_to_list. by eapply list_elem_of_lookup_2.
  - apply Forall_forall. intros p Hp. apply list_elem_of_fmap in Hp as ([name p'] & -> & Hp). by apply elem_of_map_to_list, Hok in Hp as [_ Hp].
Qed.

(** Whatever was put in the policy store and deleted from it, every policy in it has
    the name it is filed under and can be evaluated; the engine gives the same decision
    in whatever order the map is iterated, never one for a policy that failed to
    evaluate, and falls back to the configured default, marked as an error, when the
    store cannot be read. *)
Theorem policy_store_evaluable m ps cfg ac :
  policy_store m -> Listed m ps ->
  (forall name p, GetPolicy name m = Some p -> po_Name p = name /\ Validate p = true) /\
  (forall ps', Listed m ps' -> Evaluate cfg (Some ps') ac = Evaluate cfg (Some ps) ac) /\
  (forall name, evaluation_error name ∉ dc_Reasons (Evaluate cfg (Some ps) ac).1) /\
  (outcome (Evaluate cfg None ac).1 = default_outcome cfg /\ (Evaluate cfg None ac).2 = true).
Proof.
  intros Hm Hl. destruct (Listed_ok m ps Hm Hl) as [Hn Hv]. split; [by apply policy_store_ok|]. split; [|split].
  - intros ps' Hl'. cbn. f_equal. unfold Decide. unfold Listed in *. rewrite (sortedPolicies_listing ps' ps); [done| |].
    + by destruct (Listed_ok m ps' Hm Hl').
    + by rewrite Hl, Hl'.
  - intros name. cbn. destruct (Decide_outcome cfg ps ac Hv) as (_ & -> & _). rewrite elem_of_app, list_elem_of_singleton. intros [H|H].
    + destruct (degradeTrust cfg ac).2; [by apply list_elem_of_singleton in H|by apply elem_of_nil in H].
    + destruct (head _); cbn in H; [done|]. by destruct (cf_DefaultDeny cfg).
  - unfold Evaluate, applyDefault, default_outcome, outcome, set_verdict. by destruct (cf_DefaultDeny cfg).
Qed.

(** A policy that was not validated denies when it cannot be evaluated, even one that is
    only to report. *)
Lemma malformed_dry_run_denies cfg ac p risk dec :
  matchPolicy (po_Conditions p) ac risk = Err () -> dc_Verdict (resolve cfg ac risk [p] dec) = VerdictDeny.
Proof. intros H. cbn [resolve]. by rewrite H. Qed.

(** ** Witnesses *)

Definition any_request : Conditions := {|
  co_UserMemberOf := []; co_DeviceManaged := None; co_DeviceType := ""; co_DeviceTrustLevel := of_int 0; co_IsNewDevice := false;
  co_IsNewLocation := false; co_RiskScore := ""; co_GeoIn := []; co_GeoNotIn := []; co_TimeAfter := ""; co_TimeBefore := "";
  co_SessionAgeSeconds := 0; co_AuthenticationAgeSeconds := 0; co_MaxConcurrentSessions := 0 |}.

Definition risk_above (expr : string) : Conditions := {|
  co_UserMemberOf := []; co_DeviceManaged := None; co_DeviceType := ""; co_DeviceTrustLevel := of_int 0; co_IsNewDevice := false;
  co_IsNewLocation := false; co_RiskScore := expr; co_GeoIn := []; co_GeoNotIn := []; co_TimeAfter := "22:00"; co_TimeBefore := "6:00";
  co_SessionAgeSeconds := 0; co_AuthenticationAgeSeconds := 0; co_MaxConcurrentSessions := 0 |}.

Definition no_actions : Actions := {| at_Allow := true; at_Deny := false; at_RequireStepUp := ""; at_RestrictScopes := []; at_Log := false |}.
Definition deny_action : Actions := {| at_Allow := false; at_Deny := true; at_RequireStepUp := ""; at_RestrictScopes := []; at_Log := true |}.

Definition policy (name : string) (priority : Z) (dry : bool) (c : Conditions) (a : Actions) : Policy :=
  {| po_Name := name; po_Priority := priority; po_Enabled := true; po_DryRun := dry; po_Conditions := c; po_Actions := a |}.

Definition sample_policies : list Policy :=
  [policy "baseline" 0 false any_request no_actions; policy "night" 10 false (risk_above "> 0.5") deny_action;
   policy "staged" 50 true any_request deny_action].

Definition sample_config : Config := {|
  cf_DegradedTrust := dec 3 1; cf_DefaultDeny := false; cf_Enforce := true; cf_SessionSweepInterval := 0; cf_SessionSweepBatchSize := 0 |}.

(** An unknown device at 23:30 is as risky as it gets short of a known score. *)
Definition night_request : AccessContext := {|
  ac_TrustScore := of_int 1; ac_TrustScoreKnown := true; ac_DevicePosture := PostureUnknown; ac_Groups := []; ac_Country := "";
  ac_Now := 23 * GoTime.Hour + 30 * GoTime.Minute; ac_SessionCreatedAt := 0; ac_AuthTime := 0; ac_ConcurrentSessions := 0;
  ac_ConcurrentSessionsKnown := false; ac_RequestedScopes := []; ac_DeviceType := ""; ac_DeviceTrustLevel := of_int 0;
  ac_IsNewDevice := false; ac_IsNewLocation := false; ac_Subject := "alice"; ac_ClientID := "web" |}.

Example night_decision :
  let d := Decide sample_config sample_policies night_request in
  (dc_Verdict d, dc_MatchedPolicy d, dc_DryRunMatches d, dc_Degraded d) = (VerdictDeny, "night", ["staged"], true).
Proof. vm_compute. reflexivity. Qed.

Example parseHHMM_samples : parseHHMM <$> ["07:05"; "7:05"; "24:00"; "7:5"; "07:60"; " 23:59 "; "7:05x"] =
  [Some 425; Some 425; None; None; None; Some 1439; None].
Proof. vm_compute. reflexivity. Qed.

Lemma conditional_access_decision_witness :
  Decide sample_config (reverse sample_policies) night_request = Decide sample_config sample_policies night_request.
Proof.
  apply (conditional_access_decision sample_config sample_policies night_request).
  - apply (bool_decide_eq_true_1 (NoDup _)). vm_compute. reflexivity.
  - repeat constructor.
  - apply reverse_Permutation.
Defined.

Lemma policy_store_evaluable_witness :
  exists ps, Listed (Put (policy "night" 10 false (risk_above "> 0.5") deny_action) ∅).2 ps /\ ps <> [] /\
    forall name, evaluation_error name ∉ dc_Reasons (Evaluate sample_config (Some ps) night_request).1.
Proof.
  exists [policy "night" 10 false (risk_above "> 0.5") deny_action]. split; [vm_compute; reflexivity|]. split; [discriminate|].
  apply (policy_store_evaluable (Put (policy "night" 10 false (risk_above "> 0.5") deny_action) ∅).2).
  - apply store_put, store_new.
  - vm_compute. reflexivity.
Defined.
