(* ===== verification/TokenPolicy.v ===== *)
(** * TokenPolicy: the token-policy engine
    (domains/tokenpolicy: tokenpolicy.go, evaluate.go, validate.go, clamp_issuer.go,
    memory/store.go; the gates of interfaces/sso that call it:
    enforceTokenPolicy, denyTokenScopeCombo, EnforceRefreshDepthPolicy of
    server_helpers.go, sessionPolicyCapExceeded of server_oauth.go and
    IntrospectionRenewExceeded of sso_protocol.go).

    A policy selects requests by tenant, client, subject, roles and scopes and bounds
    what they may get.  What the store answers is an argument of the gates: [None] when
    it fails.  Metrics and logs are left out. *)
From S2P Require Import Prelude Core Float64 Scopes GrantCore.
Local Open Scope Z_scope.

Inductive Kind := KindUnset | KindAccess | KindRefresh.
Inductive DenyReason := DenyNone | DenyScopeCombo | DenyRefreshDepth | DenyActiveSessions.

#[export] Instance Kind_eq_dec : EqDecision Kind.
Proof. solve_decision. Defined.
#[export] Instance DenyReason_eq_dec : EqDecision DenyReason.
Proof. solve_decision. Defined.

Record Policy := {
  po_Name : string;
  po_ClientID : string;
  po_TenantID : string;
  po_Subject : string;
  po_SubjectRoles : list string;
  po_Scopes : list string;
  po_MaxTTL : Z;
  po_MaxRefreshDepth : Z;
  po_MaxActiveSessions : Z;
  po_RequireRenewAfter : float64;
  po_BlockScopeCombos : list (list string);
}.

Record PolicyInput := {
  pi_ClientID : string;
  pi_TenantID : string;
  pi_Subject : string;
  pi_SubjectRoles : list string;
  pi_Scopes : list string;
  pi_Kind : Kind;
  pi_RefreshDepth : Z;
  pi_ActiveSessions : Z;
  pi_RequestedTTL : Z;
}.

Record PolicyDecision := {
  pd_EffectiveTTL : Z;
  pd_Deny : bool;
  pd_Reason : DenyReason;
  pd_RenewAfter : float64;
}.

(** ** Matching *)

Definition prefixOrExact (a want : string) : bool :=
  match CutSuffix want "*" with Some prefix => HasPrefix a prefix | None => bool_decide (a = want) end.

Definition rolesIntersect (input want : list string) : bool := existsb (fun r => contains input r) want.

Definition scopePresent (scopes : list string) (want : string) : bool :=
  match CutSuffix want "*" with Some prefix => existsb (fun s => HasPrefix s prefix) scopes | None => contains scopes want end.

Definition matches (p : Policy) (i : PolicyInput) : bool :=
  (bool_decide (po_TenantID p = "") || bool_decide (po_TenantID p = pi_TenantID i)) &&
  (bool_decide (po_ClientID p = "") || prefixOrExact (pi_ClientID i) (po_ClientID p)) &&
  (bool_decide (po_Subject p = "") || prefixOrExact (pi_Subject i) (po_Subject p)) &&
  (bool_decide (po_SubjectRoles p = []) || rolesIntersect (pi_SubjectRoles i) (po_SubjectRoles p)) &&
  forallb (scopePresent (pi_Scopes i)) (po_Scopes p).

(** ** Combining *)

Definition clampTTL (cur max : Z) : Z :=
  if max <=? 0 then cur else if (cur <=? 0) || (max <? cur) then max else cur.

Definition stricterRenew (cur f : float64) : float64 :=
  if (f <=? of_int 0)%float then cur else if (cur <=? of_int 0)%float || (f <? cur)%float then f else cur.

Definition containsAll (scopes want : list string) : bool := forallb (scopePresent scopes) want.

Definition violatesScopeCombos (scopes : list string) (combos : list (list string)) : bool :=
  existsb (fun combo => negb (bool_decide (combo = [])) && containsAll scopes combo) combos.

Definition denyReason (p : Policy) (i : PolicyInput) : DenyReason :=
  if violatesScopeCombos (pi_Scopes i) (po_BlockScopeCombos p) then DenyScopeCombo
  else if (0 <? po_MaxRefreshDepth p) && bool_decide (pi_Kind i = KindRefresh) && (po_MaxRefreshDepth p <=? pi_RefreshDepth i)
  then DenyRefreshDepth
  else if (0 <? po_MaxActiveSessions p) && (po_MaxActiveSessions p <=? pi_ActiveSessions i) then DenyActiveSessions
  else DenyNone.

Definition combine (i : PolicyInput) (d : PolicyDecision) (p : Policy) : PolicyDecision :=
  if negb (matches p i) then d
  else
    let r := denyReason p i in
    {| pd_EffectiveTTL := clampTTL (pd_EffectiveTTL d) (po_MaxTTL p);
       pd_Deny := pd_Deny d || negb (bool_decide (r = DenyNone));
       pd_Reason := if pd_Deny d then pd_Reason d else if decide (r = DenyNone) then pd_Reason d else r;
       pd_RenewAfter := stricterRenew (pd_RenewAfter d) (po_RequireRenewAfter p) |}.

Definition Evaluate (i : PolicyInput) (policies : list Policy) : PolicyDecision :=
  foldl (combine i) {| pd_EffectiveTTL := pi_RequestedTTL i; pd_Deny := false; pd_Reason := DenyNone; pd_RenewAfter := of_int 0 |} policies.

(** ** Renewal *)

(** [time.Duration(renewAfter * float64(ttl))]. *)
Definition renew_threshold (renewAfter : float64) (ttl : Z) : Z := to_int64 (renewAfter * of_int ttl)%float.

Definition unmeasurable (renewAfter : float64) (issuedAt expiresAt : Z) : bool :=
  (renewAfter <=? of_int 0)%float || GoTime.IsZero issuedAt || GoTime.IsZero expiresAt || (GoTime.Sub expiresAt issuedAt <=? 0).

Definition RenewExceeded (renewAfter : float64) (issuedAt expiresAt now : Z) : bool :=
  if unmeasurable renewAfter issuedAt expiresAt then false
  else renew_threshold renewAfter (GoTime.Sub expiresAt issuedAt) <=? GoTime.Sub now issuedAt.

(** 0 is the zero time. *)
Definition RenewAt (renewAfter : float64) (issuedAt expiresAt : Z) : Z :=
  if unmeasurable renewAfter issuedAt expiresAt then 0
  else GoTime.Add issuedAt (renew_threshold renewAfter (GoTime.Sub expiresAt issuedAt)).

(** ** Validation *)

Definition star : ascii := "*".

Definition validateWildcard (v : string) : bool :=
  match Str.to_list v with
  | [] => true
  | l =>
      let count := length (filter (fun c => c = star) l) in
      (count <=? 1)%nat &&
      match list_find (fun c => c = star) l with
      | None => true
      | Some (i, _) => (S i =? length l)%nat && negb (i =? 0)%nat
      end
  end.

Definition validateTenantID (v : string) : bool :=
  forallb (fun c => negb (bool_decide (Str.byte c ∈ [42; 32; 9; 10]))) (Str.to_list v).

Definition isTenantRole (r : string) : bool := contains ["member"; "admin"; "guest"] r.

Definition Validate (policies : list Policy) : bool :=
  forallb (fun p => validateWildcard (po_ClientID p) && validateWildcard (po_Subject p) && validateTenantID (po_TenantID p) &&
                    forallb isTenantRole (po_SubjectRoles p)) policies.

(** ** The clamping issuer *)

Definition with_TTL (s : Subject) (ttl : Z) : Subject := {|
  su_ID := su_ID s; su_Provider := su_Provider s; su_Claims := su_Claims s; su_Resources := su_Resources s;
  su_ClientID := su_ClientID s; su_AuthTime := su_AuthTime s; su_AMR := su_AMR s; su_ACR := su_ACR s;
  su_AuthorizationDetails := su_AuthorizationDetails s; su_TTL := ttl; su_SID := su_SID s; su_ServingRegion := su_ServingRegion s;
  su_TenantID := su_TenantID s; su_Roles := su_Roles s; su_ConfirmationJKT := su_ConfirmationJKT s;
  su_ConfirmationX5TS256 := su_ConfirmationX5TS256 s; su_NotAfter := su_NotAfter s; su_Actor := su_Actor s;
  su_RequestedClaims := su_RequestedClaims s |}.

Definition clamp_input (s : Subject) (scopes : list string) : PolicyInput := {|
  pi_ClientID := su_ClientID s; pi_TenantID := su_TenantID s; pi_Subject := ""; pi_SubjectRoles := []; pi_Scopes := scopes;
  pi_Kind := KindAccess; pi_RefreshDepth := 0; pi_ActiveSessions := 0; pi_RequestedTTL := su_TTL s |}.

(** The subject the wrapped issuer is given; [policies] is what the store answered. *)
Definition clamped (policies : option (list Policy)) (s : Subject) (scopes : list string) : Subject :=
  match policies with
  | None => s
  | Some ps =>
      let ttl := pd_EffectiveTTL (Evaluate (clamp_input s scopes) ps) in
      if 0 <? ttl then with_TTL s ttl else s
  end.

(** A nil store leaves the issuer as it is. *)
Definition NewClampingIssuer {X} (inner : TokenIssuer X) (store : option (X -> option (list Policy))) : TokenIssuer X :=
  match store with
  | None => inner
  | Some policies => {| ti_Issue := fun s scopes x => ti_Issue inner (clamped (policies x) s scopes) scopes x;
                        ti_Validate := ti_Validate inner |}
  end.

(** ** The gates *)

Definition wireCodeForPolicyDeny (r : DenyReason) : string :=
  if decide (r = DenyScopeCombo) then ErrInvalidScope else ErrInvalidGrant.

(** The answer of a refusal, [None] to go on; [store] is nil, or what it answers. *)
Definition enforceTokenPolicy (store : option (option (list Policy))) (i : PolicyInput) : option response :=
  match store with
  | None | Some None => None
  | Some (Some policies) =>
      let dec := Evaluate i policies in
      if pd_Deny dec then Some (RError 400 (wireCodeForPolicyDeny (pd_Reason dec))) else None
  end.

Definition denyTokenScopeCombo store (clientID tenantID : string) (scopes : list string) : option response :=
  enforceTokenPolicy store {|
    pi_ClientID := clientID; pi_TenantID := tenantID; pi_Subject := ""; pi_SubjectRoles := []; pi_Scopes := scopes;
    pi_Kind := KindAccess; pi_RefreshDepth := 0; pi_ActiveSessions := 0; pi_RequestedTTL := 0 |}.

Definition refresh_input (clientID subject tenantID : string) (scopes : list string) (depth : Z) : PolicyInput := {|
  pi_ClientID := clientID; pi_TenantID := tenantID; pi_Subject := subject; pi_SubjectRoles := []; pi_Scopes := scopes;
  pi_Kind := KindRefresh; pi_RefreshDepth := depth; pi_ActiveSessions := 0; pi_RequestedTTL := 0 |}.

Definition EnforceRefreshDepthPolicy store clientID subject tenantID scopes depth : option response :=
  enforceTokenPolicy store (refresh_input clientID subject tenantID scopes depth).

Definition session_input (clientID userID tenantID : string) (roles : list string) (active : Z) : PolicyInput := {|
  pi_ClientID := clientID; pi_TenantID := tenantID; pi_Subject := userID; pi_SubjectRoles := roles; pi_Scopes := [];
  pi_Kind := KindUnset; pi_RefreshDepth := 0; pi_ActiveSessions := active; pi_RequestedTTL := 0 |}.

(** [subjectRoles]: the role of the user's membership; [lookup] is nil without a roster,
    and an error or a missing membership leaves no role. *)
Definition subjectRoles (lookup : option (string -> string -> option string)) (tenantID userID : string) : list string :=
  if decide (tenantID = "") then []
  else match lookup with
       | None => []
       | Some get => match get tenantID userID with Some role => [role] | None => [] end
       end.

(** [sessions] are those of the user, [None] when they cannot be listed. *)
Definition sessionPolicyCapExceeded store (sessions : option (list Session)) lookup (userID clientID tenantID : string) : bool :=
  match store, sessions with
  | Some (Some policies), Some sessions =>
      let dec := Evaluate (session_input clientID userID tenantID (subjectRoles lookup tenantID userID) (Z.of_nat (length sessions))) policies in
      pd_Deny dec && bool_decide (pd_Reason dec = DenyActiveSessions)
  | _, _ => false
  end.

Definition introspection_input (clientID : string) (scopes : list string) : PolicyInput := {|
  pi_ClientID := clientID; pi_TenantID := ""; pi_Subject := ""; pi_SubjectRoles := []; pi_Scopes := scopes;
  pi_Kind := KindAccess; pi_RefreshDepth := 0; pi_ActiveSessions := 0; pi_RequestedTTL := 0 |}.

Definition IntrospectionRenewExceeded store (clientID : string) (scopes : list string) (issuedAt expiresAt now : Z) : bool * Z :=
  match store with
  | None | Some None => (false, 0)
  | Some (Some policies) =>
      let after := pd_RenewAfter (Evaluate (introspection_input clientID scopes) policies) in
      (RenewExceeded after issuedAt expiresAt now, RenewAt after issuedAt expiresAt)
  end.

(** ** What a decision combines *)

Definition matching (i : PolicyInput) (ps : list Policy) : list Policy := filter (fun p => matches p i = true) ps.

Lemma Evaluate_matching i ps : Evaluate i ps = Evaluate i (matching i ps).
Proof.
  unfold Evaluate. generalize (Build_PolicyDecision (pi_RequestedTTL i) false DenyNone (of_int 0)).
  induction ps as [|p ps IH]; intros d; [done|]. unfold matching. rewrite filter_cons. cbn [foldl].
  destruct (decide (matches p i = true)) as [E|E]; cbn [foldl]; rewrite IH; [done|].
  unfold combine at 2. apply not_true_is_false in E. rewrite E. done.
Qed.

Lemma foldl_combine i ms d :
  Forall (fun p => matches p i = true) ms ->
  let d' := foldl (combine i) d ms in
  pd_EffectiveTTL d' = foldl clampTTL (pd_EffectiveTTL d) (po_MaxTTL <$> ms) /\
  pd_RenewAfter d' = foldl stricterRenew (pd_RenewAfter d) (po_RequireRenewAfter <$> ms) /\
  pd_Deny d' = pd_Deny d || existsb (fun p => negb (bool_decide (denyReason p i = DenyNone))) ms /\
  pd_Reason d' = if pd_Deny d then pd_Reason d
                 else from_option (fun p => denyReason p i) (pd_Reason d) (head (filter (fun p => denyReason p i <> DenyNone) ms)).
Proof.
  intros Hm. revert d. induction Hm as [|p ms Hp Hm IH]; intros d; cbn [foldl].
  { cbn. rewrite orb_false_r. by destruct (pd_Deny d). }
  destruct (IH (combine i d p)) as (H1 & H2 & H3 & H4). cbv zeta in *. rewrite H1, H2, H3, H4.
  unfold combine. rewrite Hp. cbn [negb pd_EffectiveTTL pd_RenewAfter pd_Deny pd_Reason fmap list_fmap foldl existsb].
  split; [done|]. split; [done|]. rewrite filter_cons. split; [by rewrite orb_assoc|].
  destruct (pd_Deny d); cbn [orb]; [done|]. destruct (decide (denyReason p i = DenyNone)) as [E|E].
  - rewrite (bool_decide_eq_true_2 _ E). cbn [negb]. rewrite decide_False by tauto. done.
  - rewrite (bool_decide_eq_false_2 _ E). cbn [negb]. rewrite decide_True by done. done.
Qed.

Lemma foldl_clamp ms r :
  let t := foldl clampTTL r ms in
  (forall y, y ∈ r :: ms -> 0 < y -> 0 < t <= y) /\ (t = r \/ t ∈ ms /\ 0 < t).
Proof.
  revert r. induction ms as [|m ms IH]; intros r; cbn [foldl].
  - split; [intros y Hy; apply list_elem_of_singleton in Hy as ->; lia|by left].
  - destruct (IH (clampTTL r m)) as [H1 H2]. cbv zeta in *. set (t := foldl clampTTL (clampTTL r m) ms) in *.
    assert ((0 < r -> 0 < clampTTL r m <= r) /\ (0 < m -> 0 < clampTTL r m <= m) /\
            (clampTTL r m = r \/ clampTTL r m = m /\ 0 < m)) as (C1 & C2 & C3).
    { unfold clampTTL. destruct (Z.leb_spec m 0); [lia|]. destruct (Z.leb_spec r 0), (Z.ltb_spec m r); cbn; lia. }
    pose proof (H1 (clampTTL r m) ltac:(left)) as H0. split.
    + intros y Hy Hpos. apply elem_of_cons in Hy as [->|Hy]; [lia|]. apply elem_of_cons in Hy as [->|Hy]; [lia|].
      apply H1; [by right|done].
    + rewrite elem_of_cons. destruct H2 as [->|[Ht Hpos]]; [|by right; split; [right|]].
      destruct C3 as [->|[-> Hm]]; [by left|]. right. split; [by left|done].
Qed.

Lemma Evaluate_spec i ps :
  let d := Evaluate i ps in
  (forall t, t ∈ pi_RequestedTTL i :: (po_MaxTTL <$> matching i ps) -> 0 < t -> 0 < pd_EffectiveTTL d <= t) /\
  (pd_EffectiveTTL d = pi_RequestedTTL i \/ pd_EffectiveTTL d ∈ po_MaxTTL <$> matching i ps /\ 0 < pd_EffectiveTTL d) /\
  (pd_Deny d = true <-> exists p, p ∈ matching i ps /\ denyReason p i <> DenyNone) /\
  pd_Reason d = from_option (fun p => denyReason p i) DenyNone (head (filter (fun p => denyReason p i <> DenyNone) (matching i ps))).
Proof.
  cbv zeta. rewrite Evaluate_matching. unfold Evaluate.
  destruct (foldl_combine i (matching i ps) {| pd_EffectiveTTL := pi_RequestedTTL i; pd_Deny := false; pd_Reason := DenyNone; pd_RenewAfter := of_int 0 |})
    as (-> & _ & -> & ->); [apply Forall_forall; by intros p [Hp _]%list_elem_of_filter|].
  cbn [pd_EffectiveTTL pd_Deny pd_Reason orb]. destruct (foldl_clamp (po_MaxTTL <$> matching i ps) (pi_RequestedTTL i)) as [H1 H2].
  split; [exact H1|]. split; [exact H2|]. split; [|done]. rewrite existsb_exists. setoid_rewrite list_elem_of_In.
  setoid_rewrite negb_true_iff. setoid_rewrite bool_decide_eq_false. done.
Qed.

Lemma matching_subseteq i ps ps' : ps ⊆ ps' -> matching i ps ⊆ matching i ps'.
Proof. intros H p. unfold matching. rewrite !list_elem_of_filter. intros [? ?]. auto. Qed.

(** More policies only tighten. *)
Lemma Evaluate_tighter i ps ps' :
  ps ⊆ ps' ->
  (pd_Deny (Evaluate i ps) = true -> pd_Deny (Evaluate i ps') = true) /\
  (0 < pd_EffectiveTTL (Evaluate i ps) -> 0 < pd_EffectiveTTL (Evaluate i ps') <= pd_EffectiveTTL (Evaluate i ps)).
Proof.
  intros Hs. destruct (Evaluate_spec i ps) as (_ & A2 & A3 & _), (Evaluate_spec i ps') as (B1 & _ & B3 & _). cbv zeta in *.
  pose proof (matching_subseteq i ps ps' Hs) as Hm. split.
  - rewrite A3, B3. intros (p & Hp & Hd). eauto.
  - intros Hpos. apply B1; [|done]. destruct A2 as [->|[A2 _]]; [left|]. right.
    apply list_elem_of_fmap in A2 as (p & -> & Hp). apply list_elem_of_fmap. eauto.
Qed.

(** C24 — The decision on a request: the lifetime granted is at most what was asked for and
    at most the bound of every policy that matches, and is one of these; the request is
    denied exactly when some matching policy denies it, for the reason of the first;
    adding policies can only tighten the decision, and their order can only change the
    reason. *)
Theorem token_policy_decision i ps :
  let d := Evaluate i ps in
  (forall t, t ∈ pi_RequestedTTL i :: (po_MaxTTL <$> matching i ps) -> 0 < t -> 0 < pd_EffectiveTTL d <= t) /\
  (pd_EffectiveTTL d = pi_RequestedTTL i \/ pd_EffectiveTTL d ∈ po_MaxTTL <$> matching i ps /\ 0 < pd_EffectiveTTL d) /\
  (pd_Deny d = true <-> exists p, p ∈ matching i ps /\ denyReason p i <> DenyNone) /\
  pd_Reason d = from_option (fun p => denyReason p i) DenyNone (head (filter (fun p => denyReason p i <> DenyNone) (matching i ps))) /\
  (forall ps', ps ⊆ ps' ->
     (pd_Deny d = true -> pd_Deny (Evaluate i ps') = true) /\
     (0 < pd_EffectiveTTL d -> 0 < pd_EffectiveTTL (Evaluate i ps') <= pd_EffectiveTTL d)) /\
  (forall ps', ps' ≡ₚ ps -> pd_Deny (Evaluate i ps') = pd_Deny d /\ pd_EffectiveTTL (Evaluate i ps') = pd_EffectiveTTL d).
Proof.
  intros d. pose proof (Evaluate_spec i ps) as (H1 & H2 & H3 & H4). fold d in H1, H2, H3, H4.
  do 4 (split; [done|]). split; [intros ps'; apply Evaluate_tighter|]. intros ps' Hp.
  destruct (Evaluate_tighter i ps ps') as [D1 T1]; [intros p; by rewrite Hp|].
  destruct (Evaluate_tighter i ps' ps) as [D2 T2]; [intros p; by rewrite Hp|]. fold d in D1, T1, D2, T2.
  split; [apply Bool.eq_iff_eq_true; split; auto|].
  pose proof (Evaluate_spec i ps') as (_ & H2' & _). cbv zeta in H2'.
  destruct H2 as [H2|[_ H2]], H2' as [H2'|[_ H2']]; lia.
Qed.

(** The clamping issuer passes the subject on unchanged but for its lifetime, which
    never grows, never exceeds the bound of a policy that matches the client, the tenant
    and the scopes, and is left alone when the store fails. *)
Theorem clamping_issuer_bounds {X} (inner : TokenIssuer X) policies s scopes x :
  let issuer := NewClampingIssuer inner (Some policies) in
  exists ttl, ti_Issue issuer s scopes x = ti_Issue inner (with_TTL s ttl) scopes x /\ ti_Validate issuer = ti_Validate inner /\
    (policies x = None -> ttl = su_TTL s) /\ (0 < su_TTL s -> 0 < ttl <= su_TTL s) /\
    forall ps p, policies x = Some ps -> p ∈ matching (clamp_input s scopes) ps -> 0 < po_MaxTTL p -> 0 < ttl <= po_MaxTTL p.
Proof.
  intros issuer. unfold issuer, NewClampingIssuer. cbn [ti_Issue ti_Validate]. unfold clamped.
  assert (with_TTL s (su_TTL s) = s) as Hs by by destruct s.
  destruct (policies x) as [ps|]; [|exists (su_TTL s); rewrite Hs; split_and!; done || lia].
  destruct (Evaluate_spec (clamp_input s scopes) ps) as (H1 & H2 & _). cbv zeta in *.
  set (ttl := pd_EffectiveTTL _) in *. change (pi_RequestedTTL (clamp_input s scopes)) with (su_TTL s) in *.
  destruct (Z.ltb_spec 0 ttl).
  - exists ttl. split_and!; try done.
    + intros Hpos. by apply H1; [left|].
    + intros ps' p [= <-] Hp Hpos. apply H1; [|done]. right. apply list_elem_of_fmap. eauto.
  - exists (su_TTL s). rewrite Hs. split_and!; try done.
    + intros ps' p [= <-] Hp Hpos. exfalso. enough (0 < ttl) by lia. apply (H1 (po_MaxTTL p)); [|done].
      right. apply list_elem_of_fmap. eauto.
Qed.

Lemma to_int64_range x : - 2 ^ 63 <= to_int64 x < 2 ^ 63.
Proof.
  unfold to_int64. destruct x as [|?| |s m e]; try lia. set (n := if s then _ else _). cbv zeta.
  destruct ((- 2 ^ 63 <=? n) && (n <? 2 ^ 63)) eqn:E; [|lia]. bool_simpl. lia.
Qed.

(** [RenewAt] announces the instant from which [RenewExceeded] holds: as long as the
    token's age can be told in an [int64] of nanoseconds, the token must be renewed
    exactly from then on, and never when its lifetime cannot be measured. *)
Theorem renew_at_exact f issuedAt expiresAt now :
  issuedAt - 2 ^ 63 <= now ->
  if unmeasurable f issuedAt expiresAt then RenewExceeded f issuedAt expiresAt now = false /\ RenewAt f issuedAt expiresAt = 0
  else RenewExceeded f issuedAt expiresAt now = true <-> RenewAt f issuedAt expiresAt <= now.
Proof.
  intros Hnow. unfold RenewExceeded, RenewAt. destruct (unmeasurable _ _ _); [done|].
  pose proof (to_int64_range (f * of_int (GoTime.Sub expiresAt issuedAt))%float) as Hr. unfold renew_threshold.
  set (th := to_int64 _) in *. rewrite Z.leb_le. unfold GoTime.Sub, GoTime.Add, GoTime.maxDuration, GoTime.minDuration. lia.
Qed.

(** ** The gates *)

Lemma scopePresent_nil w : scopePresent [] w = false.
Proof. unfold scopePresent. by destruct (CutSuffix _ _). Qed.

Lemma violates_nil combos : violatesScopeCombos [] combos = false.
Proof.
  unfold violatesScopeCombos. induction combos as [|combo combos IH]; [done|]. cbn [existsb]. rewrite IH, orb_false_r.
  destruct combo as [|w combo]; [done|]. unfold containsAll. cbn [forallb]. by rewrite scopePresent_nil.
Qed.

Lemma denyReason_none p i :
  denyReason p i = DenyNone <->
    violatesScopeCombos (pi_Scopes i) (po_BlockScopeCombos p) = false /\
    (0 < po_MaxRefreshDepth p -> pi_Kind i = KindRefresh -> pi_RefreshDepth i < po_MaxRefreshDepth p) /\
    (0 < po_MaxActiveSessions p -> pi_ActiveSessions i < po_MaxActiveSessions p).
Proof.
  unfold denyReason. destruct (violatesScopeCombos _ _); [naive_solver|]. destruct (decide (pi_Kind i = KindRefresh)) as [E|E].
  - rewrite (bool_decide_eq_true_2 _ E).
    destruct (Z.ltb_spec 0 (po_MaxRefreshDepth p)), (Z.leb_spec (po_MaxRefreshDepth p) (pi_RefreshDepth i)),
      (Z.ltb_spec 0 (po_MaxActiveSessions p)), (Z.leb_spec (po_MaxActiveSessions p) (pi_ActiveSessions i)); cbn [andb]; intuition (done || lia).
  - rewrite (bool_decide_eq_false_2 _ E).
    destruct (0 <? po_MaxRefreshDepth p); cbn [andb];
    destruct (Z.ltb_spec 0 (po_MaxActiveSessions p)), (Z.leb_spec (po_MaxActiveSessions p) (pi_ActiveSessions i)); cbn [andb]; intuition (done || lia).
Qed.

Lemma enforceTokenPolicy_spec store i :
  match enforceTokenPolicy store i with
  | Some r => exists ps p, store = Some (Some ps) /\ p ∈ matching i ps /\ denyReason p i <> DenyNone /\
                (r = RError 400 ErrInvalidScope \/ r = RError 400 ErrInvalidGrant)
  | None => forall ps p, store = Some (Some ps) -> p ∈ matching i ps -> denyReason p i = DenyNone
  end.
Proof.
  unfold enforceTokenPolicy. destruct store as [[ps|]|]; [|done..]. destruct (Evaluate_spec i ps) as (_ & _ & Hd & _).
  cbv zeta in Hd. destruct (pd_Deny (Evaluate i ps)).
  - destruct (proj1 Hd eq_refl) as (p & Hp & Hr). exists ps, p. split_and!; try done. unfold wireCodeForPolicyDeny.
    destruct (decide _); auto.
  - intros ps' p [= <-] Hp. destruct (decide (denyReason p i = DenyNone)); [done|]. exfalso.
    enough (false = true) by done. apply Hd. eauto.
Qed.

(** The cap on concurrent sessions: a login is refused exactly when, the policies and
    the sessions being readable, a policy without scopes that matches the user, the
    client, the tenant and the user's role bounds the sessions by no more than those the
    user has. *)
Theorem session_cap_exact ps sessions lookup userID clientID tenantID :
  let i := session_input clientID userID tenantID (subjectRoles lookup tenantID userID) (Z.of_nat (length sessions)) in
  (sessionPolicyCapExceeded (Some (Some ps)) (Some sessions) lookup userID clientID tenantID = true <->
     exists p, p ∈ ps /\ matches p i = true /\ 0 < po_MaxActiveSessions p <= Z.of_nat (length sessions)) /\
  (forall p, matches p i = true -> po_Scopes p = []) /\
  (forall sess, sessionPolicyCapExceeded (Some None) sess lookup userID clientID tenantID = false) /\
  sessionPolicyCapExceeded (Some (Some ps)) None lookup userID clientID tenantID = false.
Proof.
  intros i. split; [|split; [|done]].
  - unfold sessionPolicyCapExceeded. fold i. destruct (Evaluate_spec i ps) as (_ & _ & Hd & Hr). cbv zeta in *.
    assert (forall p, denyReason p i <> DenyNone <-> 0 < po_MaxActiveSessions p <= Z.of_nat (length sessions)) as Hn.
    { intros p. rewrite denyReason_none. cbn [i session_input pi_Scopes pi_Kind pi_ActiveSessions]. rewrite violates_nil. split.
      - intros H. destruct (Z.lt_ge_cases 0 (po_MaxActiveSessions p)); [|exfalso; apply H; split_and!; done || lia].
        split; [done|]. destruct (Z.le_gt_cases (po_MaxActiveSessions p) (Z.of_nat (length sessions))); [done|].
        exfalso. apply H. split_and!; done || lia.
      - intros ? (_ & _ & ?). lia. }
    assert (pd_Deny (Evaluate i ps) = true -> pd_Reason (Evaluate i ps) = DenyActiveSessions) as Hact.
    { intros E. rewrite Hr. apply Hd in E as (p & Hp & Hne).
      assert (p ∈ filter (fun p => denyReason p i <> DenyNone) (matching i ps)) as Hin by (by apply list_elem_of_filter).
      destruct (filter _ (matching i ps)) as [|q l] eqn:Hf; [by apply elem_of_nil in Hin|]. cbn [head from_option].
      assert (q ∈ filter (fun p => denyReason p i <> DenyNone) (matching i ps)) as Hq by (rewrite Hf; left).
      apply list_elem_of_filter in Hq as [Hq _]. revert Hq. unfold denyReason. cbn [i session_input pi_Scopes pi_Kind].
      rewrite violates_nil, andb_false_r. cbn [andb]. by destruct (_ && _). }
    rewrite andb_true_iff, bool_decide_eq_true. split.
    + intros [E _]. apply Hd in E as (p & Hp & Hne). apply list_elem_of_filter in Hp as [? ?]. apply Hn in Hne. eauto.
    + intros (p & Hp & Hm & Hc). assert (pd_Deny (Evaluate i ps) = true) as E; [|auto].
      apply Hd. exists p. split; [by apply list_elem_of_filter|]. by apply Hn.
  - intros p Hm. unfold matches in Hm. rewrite !andb_true_iff in Hm. destruct Hm as [_ Hs].
    destruct (po_Scopes p) as [|w ws]; [done|]. cbn [forallb i session_input pi_Scopes] in Hs. by rewrite scopePresent_nil in Hs.
Qed.

(** ** Selectors some gates do not supply *)

Lemma matching_nil i ps : (forall p, p ∈ ps -> matches p i = false) -> matching i ps = [].
Proof. intros H. apply list_filter_none. intros p Hp. by rewrite H. Qed.

Lemma prefixOrExact_empty v : validateWildcard v = true -> v <> "" -> prefixOrExact "" v = false.
Proof.
  intros Hv Hne. unfold prefixOrExact. destruct (CutSuffix v "*") as [prefix|] eqn:E; [|by rewrite bool_decide_eq_false_2].
  apply CutSuffix_spec in E as ->. destruct (HasPrefix "" prefix) eqn:Hp; [|done].
  apply HasPrefix_spec in Hp as [r Hp]. destruct prefix; [|done]. vm_compute in Hv. done.
Qed.

Lemma matches_no_roles p i : pi_SubjectRoles i = [] -> po_SubjectRoles p <> [] -> matches p i = false.
Proof.
  intros Hi Hp. unfold matches. rewrite Hi, (bool_decide_eq_false_2 (po_SubjectRoles p = [])) by done.
  assert (rolesIntersect [] (po_SubjectRoles p) = false) as ->.
  { unfold rolesIntersect. clear Hp. by induction (po_SubjectRoles p). }
  cbn. by rewrite andb_false_r.
Qed.

Lemma matches_no_subject p i :
  validateWildcard (po_Subject p) = true -> pi_Subject i = "" -> po_Subject p <> "" -> matches p i = false.
Proof.
  intros Hv Hi Hp. unfold matches. rewrite Hi, (bool_decide_eq_false_2 (po_Subject p = "")), prefixOrExact_empty by done.
  cbn. by rewrite andb_false_r.
Qed.

Lemma matches_no_tenant p i : pi_TenantID i = "" -> po_TenantID p <> "" -> matches p i = false.
Proof.
  intros Hi Hp. unfold matches. by rewrite Hi, (bool_decide_eq_false_2 (po_TenantID p = "")) by done.
Qed.

Lemma Validate_Subject ps p : Validate ps = true -> p ∈ ps -> validateWildcard (po_Subject p) = true.
Proof.
  unfold Validate. rewrite forallb_forall. intros H Hp. apply list_elem_of_In, H in Hp. rewrite !andb_true_iff in Hp. tauto.
Qed.

(** Selectors that a gate has no value for make a policy inert there, whatever it
    bounds: introspection ignores the policies of a tenant, of a subject and of roles,
    the clamping issuer those of a subject and of roles, and the refresh and token gates
    those of roles. *)
Theorem selectors_inert ps :
  Validate ps = true ->
  ((forall p, p ∈ ps -> po_TenantID p <> "" \/ po_Subject p <> "" \/ po_SubjectRoles p <> []) ->
   forall client scopes iat exp now, IntrospectionRenewExceeded (Some (Some ps)) client scopes iat exp now = (false, 0)) /\
  ((forall p, p ∈ ps -> po_Subject p <> "" \/ po_SubjectRoles p <> []) ->
   forall s scopes, clamped (Some ps) s scopes = s) /\
  ((forall p, p ∈ ps -> po_SubjectRoles p <> []) ->
   forall client subject tenant scopes depth,
     EnforceRefreshDepthPolicy (Some (Some ps)) client subject tenant scopes depth = None /\
     denyTokenScopeCombo (Some (Some ps)) client tenant scopes = None).
Proof.
  intros Hv. split; [|split].
  - intros Hp client scopes iat exp now. unfold IntrospectionRenewExceeded. rewrite Evaluate_matching, matching_nil.
    { cbn. unfold RenewExceeded, RenewAt, unmeasurable. done. }
    intros p Hin. destruct (Hp p Hin) as [?|[?|?]];
      [by apply matches_no_tenant|(apply matches_no_subject; [by eapply Validate_Subject|done|done])|by apply matches_no_roles].
  - intros Hp s scopes. unfold clamped. rewrite Evaluate_matching, matching_nil.
    { cbn. destruct (0 <? su_TTL s); [by destruct s|done]. }
    intros p Hin. destruct (Hp p Hin) as [?|?]; [(apply matches_no_subject; [by eapply Validate_Subject|done|done])|by apply matches_no_roles].
  - intros Hp client subject tenant scopes depth.
    split; unfold EnforceRefreshDepthPolicy, denyTokenScopeCombo, enforceTokenPolicy;
      rewrite Evaluate_matching, matching_nil; try done; intros p Hin; apply matches_no_roles; auto.
Qed.

(** ** Witnesses *)

Definition tenant_policy (tenant : string) (roles scopes : list string) (ttl depth active : Z) (renew : float64) : Policy := {|
  po_Name := "p"; po_ClientID := "web*"; po_TenantID := tenant; po_Subject := ""; po_SubjectRoles := roles; po_Scopes := scopes;
  po_MaxTTL := ttl; po_MaxRefreshDepth := depth; po_MaxActiveSessions := active; po_RequireRenewAfter := renew;
  po_BlockScopeCombos := [["admin:*"; "openid"]] |}.

Definition global_policies : list Policy := [tenant_policy "" [] [] 300 3 2 (dec 5 1); tenant_policy "acme" [] ["read"] 120 0 0 (dec 8 1)].

Example evaluate_samples :
  let d := Evaluate (refresh_input "web-1" "alice" "acme" ["read"; "admin:users"; "openid"] 5) global_policies in
  (pd_EffectiveTTL d, pd_Deny d, pd_Reason d, bool_decide (pd_RenewAfter d = dec 5 1)) = (120, true, DenyScopeCombo, true).
Proof. vm_compute. reflexivity. Qed.

Lemma renew_at_exact_witness : RenewExceeded (dec 5 1) 1000 3000 2000 = true.
Proof. apply (renew_at_exact (dec 5 1) 1000 3000 2000); [lia|vm_compute; discriminate]. Defined.

Lemma selectors_inert_witness :
  pd_EffectiveTTL (Evaluate {| pi_ClientID := "web"; pi_TenantID := "acme"; pi_Subject := "alice"; pi_SubjectRoles := ["member"];
    pi_Scopes := []; pi_Kind := KindAccess; pi_RefreshDepth := 0; pi_ActiveSessions := 0; pi_RequestedTTL := 3600 |}
    [tenant_policy "acme" ["member"] [] 300 3 2 (dec 5 1)]) = 300 /\
  EnforceRefreshDepthPolicy (Some (Some [tenant_policy "acme" ["member"] [] 300 3 2 (dec 5 1)])) "web" "alice" "acme" [] 7 = None.
Proof.
  split; [vm_compute; reflexivity|].
  apply (selectors_inert [tenant_policy "acme" ["member"] [] 300 3 2 (dec 5 1)]); [vm_compute; reflexivity|].
  intros p Hp. apply list_elem_of_singleton in Hp as ->. discriminate.
Defined.
