(* ===== verification/Convergence.v ===== *)
(** * Convergence: re-evaluating the sessions that live
    (domains/conditionalaccess/convergence.go, over the session manager of
    infrastructure/defaultimpl/memorystoreidentity/memory_session.go).

    A pass takes one reading of the policies and of the sessions, and brings a batch of
    them in line with what conditional access decides now: it revokes, narrows scopes or
    asks for a step-up.  The manager is an interface with optional extensions, which the
    in-memory manager implements; the builder of the context is an argument.  A pass is
    run as a whole: changes others make to a session while it is in the batch are not
    interleaved. *)
From S2P Require Import Prelude Core Float64 Scopes Keyset Sessions CondAccess.
Local Open Scope Z_scope.

Definition DefaultSessionSweepInterval : Z := 5 * GoTime.Minute.
Definition DefaultSessionSweepBatchSize : Z := 500.

Record ConvergenceSummary := {
  su_Scanned : Z;
  su_Revoked : Z;
  su_StepUpMarked : Z;
  su_ScopesRestricted : Z;
  su_Failed : Z;
}.

Definition no_summary : ConvergenceSummary :=
  {| su_Scanned := 0; su_Revoked := 0; su_StepUpMarked := 0; su_ScopesRestricted := 0; su_Failed := 0 |}.

Definition add_summary (s : ConvergenceSummary) (scanned revoked marked restricted failed : Z) : ConvergenceSummary := {|
  su_Scanned := su_Scanned s + scanned; su_Revoked := su_Revoked s + revoked; su_StepUpMarked := su_StepUpMarked s + marked;
  su_ScopesRestricted := su_ScopesRestricted s + restricted; su_Failed := su_Failed s + failed |}.

(** [core.SessionManager] with the extensions [SessionTrustManager] and
    [SessionAuthorizationManager]; [false] is an error. *)
Record Manager (X : Type) := {
  mg_ListAll : X -> option (list Session);
  mg_Destroy : string -> X -> bool * X;
  mg_MarkStepUp : option (string -> X -> bool * X);
  mg_SetAuthorizedScopes : option (string -> list string -> X -> bool * X);
}.
Arguments mg_ListAll {X}. Arguments mg_Destroy {X}. Arguments mg_MarkStepUp {X}. Arguments mg_SetAuthorizedScopes {X}.

Definition memory_manager : Manager MemorySessionManager := {|
  mg_ListAll m := Some (ListAll m);
  mg_Destroy id m := (true, Destroy id m);
  mg_MarkStepUp := Some (fun id m => (true, MarkStepUp id m));
  mg_SetAuthorizedScopes := Some (fun id scopes m => (true, SetAuthorizedScopes id scopes m)) |}.

(** ** The sessions of a pass *)

(** Newest first, then by identifier, downwards. *)
Definition newer (a b : Session) : Prop :=
  if decide (se_CreatedAt a = se_CreatedAt b) then Compare (se_ID b) (se_ID a) <> Gt
  else se_CreatedAt b < se_CreatedAt a.
#[export] Instance newer_dec : RelDecision newer.
Proof. unfold RelDecision, newer. intros a b. destruct (decide _); apply _. Defined.

Definition activeSessions (now : Z) (all : list Session) : list Session :=
  merge_sort newer (filter (fun s => negb (se_Revoked s) && GoTime.After (se_ExpiresAt s) now = true) all).

Definition nul : ascii := "000".
Definition sessionConcurrencyKey (s : Session) : string := se_UserID s +:+ String nul (se_ClientID s).

Definition count_of (counts : gmap string Z) (k : string) : Z := default 0 (counts !! k).

Definition concurrentSessionCounts (sessions : list Session) : gmap string Z :=
  foldl (fun counts s => <[sessionConcurrencyKey s := count_of counts (sessionConcurrencyKey s) + 1]> counts) ∅ sessions.

(** The batch and the next cursor. *)
Definition convergenceBatch (cfg : Config) (cursor : nat) (active : list Session) : list Session * nat :=
  let n := length active in
  let limit := if cf_SessionSweepBatchSize cfg <=? 0 then Z.to_nat DefaultSessionSweepBatchSize else Z.to_nat (cf_SessionSweepBatchSize cfg) in
  if (n =? 0)%nat then ([], 0%nat)
  else if (n <=? limit)%nat then (active, 0%nat)
  else
    let start := (cursor mod n)%nat in
    (omap (fun i => active !! ((start + i) mod n)%nat) (seq 0 limit), ((start + limit) mod n)%nat).

Definition intersectScopes (current allowed : list string) : list string := filter (fun s => s ∈ allowed) current.

(** ** One session *)

Section manager.
Context {X : Type} (mgr : Manager X).

(** Whether the session was revoked. *)
Definition revokeConvergedSession (id : string) (x : X) (sum : ConvergenceSummary) : bool * X * ConvergenceSummary :=
  match mg_Destroy mgr id x with
  | (false, x) => (false, x, add_summary sum 0 0 0 0 1)
  | (true, x) => (true, x, add_summary sum 0 1 0 0 0)
  end.

Definition convergeScopes (s : Session) (allowed : list string) (x : X) (sum : ConvergenceSummary) : bool * X * ConvergenceSummary :=
  if decide (se_AuthorizedScopes s = []) then (false, x, sum)
  else
    let restricted := intersectScopes (se_AuthorizedScopes s) allowed in
    if decide (restricted = []) then (false, x, sum)
    else if decide (se_AuthorizedScopes s = restricted) then (true, x, sum)
    else match mg_SetAuthorizedScopes mgr with
         | None => (false, x, sum)
         | Some set => match set (se_ID s) restricted x with
                       | (false, x) => (false, x, sum)
                       | (true, x) => (true, x, add_summary sum 0 0 0 1 0)
                       end
         end.

Definition convergeSession (s : Session) (d : Decision) (x : X) (sum : ConvergenceSummary) : bool * X * ConvergenceSummary :=
  if decide (dc_Verdict d = VerdictDeny) then revokeConvergedSession (se_ID s) x sum
  else
    let '(kept, x, sum) :=
      if decide (dc_RestrictScopes d = []) then (true, x, sum) else convergeScopes s (dc_RestrictScopes d) x sum in
    if negb (kept : bool) then revokeConvergedSession (se_ID s) x sum
    else if negb (bool_decide (dc_Verdict d = VerdictRequireStepUp)) then (false, x, sum)
    else match mg_MarkStepUp mgr with
         | None => revokeConvergedSession (se_ID s) x sum
         | Some mark =>
             match mark (se_ID s) x with
             | (false, x) => (false, x, add_summary sum 0 0 0 0 1)
             | (true, x) => (false, x, add_summary sum 0 0 1 0 0)
             end
         end.

(** ** A pass *)

Fixpoint sweep (decision : Session -> Z -> Decision) (batch : list Session) (counts : gmap string Z) (x : X) (sum : ConvergenceSummary)
    : X * ConvergenceSummary :=
  match batch with
  | [] => (x, sum)
  | s :: batch =>
      let key := sessionConcurrencyKey s in
      let d := decision s (count_of counts key) in
      let '(revoked, x, sum) := convergeSession s d x (add_summary sum 1 0 0 0 0) in
      sweep decision batch (if (revoked : bool) then <[key := count_of counts key - 1]> counts else counts) x sum
  end.

(** [policies] is what the policy store answers; the flag tells of an error. *)
Definition ConvergeSessions (cfg : Config) (policies : option (list Policy)) (build : Session -> Z -> AccessContext) (now : Z)
    (cursor : nat) (x : X) : ConvergenceSummary * bool * nat * X :=
  if negb (cf_Enforce cfg) then (no_summary, false, cursor, x)
  else match policies with
       | None => (no_summary, true, cursor, x)
       | Some policies =>
           match mg_ListAll mgr x with
           | None => (no_summary, true, cursor, x)
           | Some all =>
               let active := activeSessions now all in
               let '(batch, cursor) := convergenceBatch cfg cursor active in
               let '(x, sum) := sweep (fun s n => Decide cfg policies (build s n)) batch (concurrentSessionCounts active) x no_summary in
               (sum, false, cursor, x)
           end
       end.
End manager.

(** ** What a pass does to the in-memory sessions *)

(** A session with its scopes cut to what the decision allows; [None] when none is left. *)
Definition narrowed (d : Decision) (s : Session) : option Session :=
  if decide (dc_RestrictScopes d = []) then Some s
  else
    let restricted := intersectScopes (se_AuthorizedScopes s) (dc_RestrictScopes d) in
    if decide (restricted = []) then None
    else Some (if decide (se_AuthorizedScopes s = restricted) then s else with_scopes restricted s).

Definition marked (s : Session) : Session :=
  set_mutable s (se_ExpiresAt s) (se_LastActiveAt s) (se_AuthorizedScopes s) (se_Kind s) (se_TrustScore s) (se_TrustSetAt s) true.

(** What becomes of a session under a decision: [None] when it is revoked. *)
Definition converged (d : Decision) (s : Session) : option Session :=
  if decide (dc_Verdict d = VerdictDeny) then None
  else match narrowed d s with
       | None => None
       | Some s => Some (if decide (dc_Verdict d = VerdictRequireStepUp) then marked s else s)
       end.

Lemma set_sessions_alter f id s m :
  ms_sessions m !! id = Some s -> set_sessions (alter f id) m = set_sessions (insert id (f s)) m.
Proof.
  intros Hs. unfold set_sessions. f_equal. apply map_eq. intros j. rewrite lookup_alter.
  case_decide as E; [subst; by rewrite Hs, lookup_insert_eq|by rewrite lookup_insert_ne].
Qed.

Lemma set_sessions_id id s m : ms_sessions m !! id = Some s -> set_sessions (insert id s) m = m.
Proof. intros Hs. destruct m. unfold set_sessions. cbn in *. by rewrite insert_id. Qed.

Lemma set_sessions_twice f g m : set_sessions f (set_sessions g m) = set_sessions (fun x => f (g x)) m.
Proof. done. Qed.

Lemma insert_sessions_twice id s s' m : set_sessions (insert id s) (set_sessions (insert id s') m) = set_sessions (insert id s) m.
Proof. rewrite set_sessions_twice. unfold set_sessions. by rewrite insert_insert_eq. Qed.

(** What the pass does to the in-memory manager is what [converged] says. *)
Lemma convergeSession_memory s d m sum :
  ms_sessions m !! se_ID s = Some s ->
  exists sum', convergeSession memory_manager s d m sum =
    (bool_decide (converged d s = None),
     match converged d s with Some s' => set_sessions (insert (se_ID s) s') m | None => Destroy (se_ID s) m end, sum').
Proof.
  intros Hs. unfold convergeSession, converged, revokeConvergedSession. cbn [mg_Destroy mg_MarkStepUp memory_manager].
  destruct (decide (dc_Verdict d = VerdictDeny)); [by eexists|].
  assert (exists kept m1 sum1, (if decide (dc_RestrictScopes d = []) then (true, m, sum)
      else convergeScopes memory_manager s (dc_RestrictScopes d) m sum) = (kept, m1, sum1) /\
    match narrowed d s with
    | Some s' => kept = true /\ m1 = set_sessions (insert (se_ID s) s') m /\ se_ID s' = se_ID s
    | None => kept = false /\ m1 = m
    end) as (kept & m1 & sum1 & -> & Ho).
  { unfold narrowed. destruct (decide (dc_RestrictScopes d = [])); [do 3 eexists; split_and!; try done; by rewrite set_sessions_id|].
    unfold convergeScopes. cbn [mg_SetAuthorizedScopes memory_manager]. cbv zeta.
    set (r := intersectScopes _ _). destruct (decide (se_AuthorizedScopes s = [])) as [E|E].
    - assert (r = []) as -> by (unfold r; by rewrite E). rewrite decide_True by done. do 3 eexists. split_and!; done.
    - destruct (decide (r = [])); [do 3 eexists; split_and!; done|]. destruct (decide (se_AuthorizedScopes s = r)).
      + do 3 eexists. split_and!; try done. by rewrite set_sessions_id.
      + do 3 eexists. split_and!; try done. unfold SetAuthorizedScopes. by rewrite (set_sessions_alter _ _ s). }
  destruct (narrowed d s) as [s'|].
  - destruct Ho as (-> & -> & Hid). cbn [negb]. rewrite (bool_decide_eq_false_2 (Some _ = None)) by done.
    destruct (decide (dc_Verdict d = VerdictRequireStepUp)) as [E|E].
    + rewrite (bool_decide_eq_true_2 _ E). cbn [negb]. eexists. f_equal. f_equal. unfold MarkStepUp.
      rewrite (set_sessions_alter _ _ s'), insert_sessions_twice; [done|]. cbn. by rewrite lookup_insert_eq.
    + rewrite (bool_decide_eq_false_2 _ E). cbn [negb]. by eexists.
  - destruct Ho as [-> ->]. cbn [negb]. by eexists.
Qed.

Lemma narrowed_same d s s' : narrowed d s = Some s' -> s' = s \/ exists r, s' = with_scopes r s.
Proof.
  unfold narrowed. destruct (decide _); [intros [= <-]; by left|]. destruct (decide _); [done|]. intros [= <-].
  destruct (decide _); eauto.
Qed.

Lemma converged_ID d s s' : converged d s = Some s' -> se_ID s' = se_ID s /\ sessionConcurrencyKey s' = sessionConcurrencyKey s.
Proof.
  unfold converged. destruct (decide _); [done|]. destruct (narrowed d s) as [s1|] eqn:Hn; [|done]. intros [= <-].
  apply narrowed_same in Hn as [->|[r ->]]; by destruct (decide _).
Qed.

(** A session that is kept obeys the decision and has lost nothing else. *)
Lemma converged_obeys d s s' :
  converged d s = Some s' ->
  dc_Verdict d <> VerdictDeny /\
  se_AuthorizedScopes s' ⊆ se_AuthorizedScopes s /\
  (dc_RestrictScopes d <> [] -> se_AuthorizedScopes s' <> [] /\ se_AuthorizedScopes s' ⊆ dc_RestrictScopes d) /\
  (dc_Verdict d = VerdictRequireStepUp -> se_StepUpRequired s' = true) /\
  se_UserID s' = se_UserID s /\ se_ExpiresAt s' = se_ExpiresAt s.
Proof.
  unfold converged. destruct (decide (dc_Verdict d = VerdictDeny)) as [|Hd]; [done|].
  assert (forall s1, narrowed d s = Some s1 ->
    se_AuthorizedScopes s1 ⊆ se_AuthorizedScopes s /\
    (dc_RestrictScopes d <> [] -> se_AuthorizedScopes s1 <> [] /\ se_AuthorizedScopes s1 ⊆ dc_RestrictScopes d) /\
    se_UserID s1 = se_UserID s /\ se_ExpiresAt s1 = se_ExpiresAt s) as Hn.
  { unfold narrowed. intros s1. destruct (decide (dc_RestrictScopes d = [])); [by intros [= <-]|]. cbv zeta.
    set (r := intersectScopes _ _). destruct (decide (r = [])) as [|Hne]; [done|].
    assert (r ⊆ se_AuthorizedScopes s /\ r ⊆ dc_RestrictScopes d) as [H1 H2]
      by (split; intros x Hx; unfold r, intersectScopes in Hx; apply list_elem_of_filter in Hx; tauto).
    intros [= <-]. destruct (decide (se_AuthorizedScopes s = r)) as [E|E].
    - split; [done|]. split; [|done]. intros _. by rewrite E.
    - split; [done|]. split; [|done]. intros _. done. }
  destruct (narrowed d s) as [s1|]; [|done]. destruct (Hn s1 eq_refl) as (H1 & H2 & H3 & H4). intros [= <-].
  destruct (decide (dc_Verdict d = VerdictRequireStepUp)); split_and!; done.
Qed.

(** ** The sessions of a pass, with the count each was decided under *)

Fixpoint seen (decision : Session -> Z -> Decision) (batch : list Session) (counts : gmap string Z) : list (Session * Z) :=
  match batch with
  | [] => []
  | s :: batch =>
      let key := sessionConcurrencyKey s in
      let n := count_of counts key in
      (s, n) :: seen decision batch (if bool_decide (converged (decision s n) s = None) then <[key := n - 1]> counts else counts)
  end.

Lemma seen_sessions decision batch counts : (seen decision batch counts).*1 = batch.
Proof. revert counts. induction batch as [|s batch IH]; intros counts; cbn; [done|]. by rewrite IH. Qed.

Lemma count_of_insert counts k k' n : count_of (<[k := n]> counts) k' = if decide (k = k') then n else count_of counts k'.
Proof. unfold count_of. destruct (decide (k = k')) as [->|]; [by rewrite lookup_insert_eq|by rewrite lookup_insert_ne]. Qed.

Lemma sweep_memory decision batch counts m sum :
  NoDup (se_ID <$> batch) -> Forall (fun s => ms_sessions m !! se_ID s = Some s) batch ->
  let m' := (sweep memory_manager decision batch counts m sum).1 in
  (forall s n, (s, n) ∈ seen decision batch counts -> ms_sessions m' !! se_ID s = converged (decision s n) s) /\
  (forall id, id ∉ se_ID <$> batch -> ms_sessions m' !! id = ms_sessions m !! id).
Proof.
  revert counts m sum. induction batch as [|s batch IH]; intros counts m sum Hn Hm; cbn [sweep seen].
  { split; [intros s n H; by apply elem_of_nil in H|done]. }
  apply NoDup_cons in Hn as [Hs Hn]. apply Forall_cons in Hm as [Hms Hm].
  set (key := sessionConcurrencyKey s). set (n := count_of counts key). set (d := decision s n).
  destruct (convergeSession_memory s d m (add_summary sum 1 0 0 0 0) Hms) as [sum' ->].
  set (m1 := match converged d s with Some s' => _ | None => _ end).
  assert (forall id, id <> se_ID s -> ms_sessions m1 !! id = ms_sessions m !! id) as H1.
  { intros id Hid. unfold m1. destruct (converged d s); cbn; [by rewrite lookup_insert_ne|by rewrite lookup_delete_ne]. }
  assert (ms_sessions m1 !! se_ID s = converged d s) as H2.
  { unfold m1. destruct (converged d s); cbn; [by rewrite lookup_insert_eq|by rewrite lookup_delete_eq]. }
  set (counts' := if bool_decide _ then _ else _).
  destruct (IH counts' m1 sum' Hn) as [IH1 IH2].
  { apply Forall_forall. intros s' Hs'. rewrite H1; [by eapply Forall_forall in Hm|]. intros E. apply Hs. rewrite <- E.
    by apply list_elem_of_fmap_2. }
  split.
  - intros s' n' Hin. apply elem_of_cons in Hin as [[= -> ->]|Hin]; [|by apply IH1]. by rewrite IH2.
  - intros id Hid. rewrite fmap_cons, not_elem_of_cons in Hid. destruct Hid as [Hne Hid]. by rewrite IH2, H1.
Qed.

(** Counts only go down. *)
Lemma seen_below decision batch counts s n :
  (s, n) ∈ seen decision batch counts -> n <= count_of counts (sessionConcurrencyKey s).
Proof.
  revert counts. induction batch as [|s0 batch IH]; intros counts; cbn [seen]; [by intros ?%elem_of_nil|].
  rewrite elem_of_cons. intros [[= -> ->]|H]; [done|]. apply IH in H. destruct (bool_decide _); [|done].
  rewrite count_of_insert in H. destruct (decide (sessionConcurrencyKey s0 = sessionConcurrencyKey s)) as [E|]; [rewrite E in H|]; lia.
Qed.

Lemma seen_order decision batch counts i j s n s' n' :
  seen decision batch counts !! i = Some (s, n) -> seen decision batch counts !! j = Some (s', n') -> (i <= j)%nat ->
  sessionConcurrencyKey s = sessionConcurrencyKey s' -> n' <= n.
Proof.
  revert counts i j. induction batch as [|s0 batch IH]; intros counts i j Hi Hj Hij Hk; cbn [seen] in Hi, Hj; [done|].
  destruct i as [|i], j as [|j]; cbn in Hi, Hj; simplify_eq; [done| |lia|].
  - apply list_elem_of_lookup_2, seen_below in Hj. destruct (bool_decide _); rewrite <- Hk in Hj; [|done].
    rewrite count_of_insert, decide_True in Hj by done. lia.
  - eapply IH; [exact Hi|exact Hj|lia|done].
Qed.

(** How many sessions of a key are left when every count above [cap] means a refusal. *)
Definition kept (decision : Session -> Z -> Decision) (k : string) (sn : Session * Z) : Prop :=
  sessionConcurrencyKey sn.1 = k /\ is_Some (converged (decision sn.1 sn.2) sn.1).
#[export] Instance kept_dec decision k sn : base.Decision (kept decision k sn).
Proof. unfold kept. apply _. Defined.

Lemma kept_at_most decision batch counts k :
  (length (filter (kept decision k) (seen decision batch counts)) <= length (filter (fun s => sessionConcurrencyKey s = k) batch))%nat.
Proof.
  revert counts. induction batch as [|s batch IH]; intros counts; cbn [seen]; [done|]. rewrite !filter_cons.
  match goal with |- context [seen decision batch ?c] => specialize (IH c) end.
  destruct (decide (kept decision k _)) as [[Hk _]|]; cbn [fst] in *;
    [rewrite decide_True by done; cbn [length]; lia|]. destruct (decide (sessionConcurrencyKey s = k)); cbn [length]; lia.
Qed.

Lemma kept_cap decision batch counts k cap :
  (forall s n, sessionConcurrencyKey s = k -> cap < n -> converged (decision s n) s = None) ->
  let others := count_of counts k - Z.of_nat (length (filter (fun s => sessionConcurrencyKey s = k) batch)) in
  Z.of_nat (length (filter (kept decision k) (seen decision batch counts))) + others <= Z.max cap others.
Proof.
  intros Hcap. revert counts. induction batch as [|s batch IH]; intros counts; [cbn; lia|].
  pose proof (kept_at_most decision (s :: batch) counts k) as Hle.
  cbn [seen] in *. rewrite !filter_cons in *. destruct (decide (sessionConcurrencyKey s = k)) as [E|E].
  - destruct (decide (cap < count_of counts k)) as [Hc|Hc].
    + rewrite E. rewrite (bool_decide_eq_true_2 (converged _ _ = None)) by (by apply Hcap).
      rewrite decide_False by (unfold kept; cbn [fst snd]; rewrite Hcap by done; intros [_ []]; done).
      specialize (IH (<[k := count_of counts k - 1]> counts)). rewrite count_of_insert, decide_True in IH by done.
      cbn [length] in *. cbv zeta in IH |- *. lia.
    + cbv zeta. cbn [length] in *. lia.
  - rewrite decide_False by (intros [? _]; done). set (counts' := if bool_decide _ then _ else _).
    specialize (IH counts'). assert (count_of counts' k = count_of counts k) as Hk.
    { unfold counts'. destruct (bool_decide _); [|done]. by rewrite count_of_insert, decide_False. }
    rewrite Hk in IH. exact IH.
Qed.

Lemma concurrentSessionCounts_spec sessions k :
  count_of (concurrentSessionCounts sessions) k = Z.of_nat (length (filter (fun s => sessionConcurrencyKey s = k) sessions)).
Proof.
  unfold concurrentSessionCounts. enough (forall counts,
    count_of (foldl (fun counts s => <[sessionConcurrencyKey s := count_of counts (sessionConcurrencyKey s) + 1]> counts) counts sessions) k =
    count_of counts k + Z.of_nat (length (filter (fun s => sessionConcurrencyKey s = k) sessions))) as H by (rewrite H; done).
  induction sessions as [|s sessions IH]; intros counts; cbn [foldl]; [cbn; lia|].
  rewrite IH, count_of_insert, filter_cons. destruct (decide (sessionConcurrencyKey s = k)) as [->|]; cbn [length]; lia.
Qed.

(** ** Batches *)

Lemma omap_seq {A} (l : list A) a k : omap (fun i => l !! i) (seq a k) = take k (drop a l).
Proof.
  revert a. induction k as [|k IH]; intros a; [done|]. cbn [seq]. cbn [omap list_omap]. rewrite IH.
  destruct (l !! a) as [x|] eqn:E.
  - by rewrite (drop_S l x a E).
  - apply lookup_ge_None in E. by rewrite !drop_ge, !take_nil by lia.
Qed.

Definition batch_limit (cfg : Config) : nat :=
  if cf_SessionSweepBatchSize cfg <=? 0 then Z.to_nat DefaultSessionSweepBatchSize else Z.to_nat (cf_SessionSweepBatchSize cfg).

(** A batch is cut out of the list written twice. *)
Lemma convergenceBatch_cut cfg cursor active :
  (batch_limit cfg < length active)%nat ->
  convergenceBatch cfg cursor active =
    (take (batch_limit cfg) (drop (cursor mod length active) (active ++ active)), ((cursor mod length active + batch_limit cfg) mod length active)%nat).
Proof.
  intros Hlt. unfold convergenceBatch. fold (batch_limit cfg). rewrite (proj2 (Nat.eqb_neq _ _)), (proj2 (Nat.leb_gt _ _)) by lia.
  cbv zeta. f_equal. set (start := (cursor mod length active)%nat).
  assert (start < length active)%nat as Hs by (apply Nat.mod_upper_bound; lia). rewrite <- omap_seq.
  replace (seq start (batch_limit cfg)) with (Nat.add start <$> seq 0 (batch_limit cfg)) by (rewrite fmap_add_seq; by rewrite Nat.add_0_r).
  assert (forall i, (i < batch_limit cfg)%nat -> active !! ((start + i) mod length active)%nat = (active ++ active) !! (start + i)%nat) as Hl.
  { intros i Hi. destruct (Nat.lt_ge_cases (start + i) (length active)).
    - by rewrite Nat.mod_small, lookup_app_l by done.
    - rewrite lookup_app_r by done. f_equal. symmetry. apply (Nat.mod_unique _ _ 1); lia. }
  assert (Forall (fun i => (i < batch_limit cfg)%nat) (seq 0 (batch_limit cfg))) as Hf
    by (apply Forall_forall; intros i [? ?]%elem_of_seq; lia).
  induction Hf as [|i idx Hi Hf IH]; [done|]. cbn [fmap list_fmap omap list_omap]. rewrite IH, Hl by done. done.
Qed.

Lemma convergenceBatch_all cfg cursor active :
  (length active <= batch_limit cfg)%nat -> (convergenceBatch cfg cursor active).1 = active.
Proof.
  intros Hle. unfold convergenceBatch. fold (batch_limit cfg). destruct active as [|s active]; [done|]. cbn [length Nat.eqb].
  cbn [length] in Hle. by rewrite (proj2 (Nat.leb_le _ _)).
Qed.

Lemma convergenceBatch_ok cfg cursor active :
  NoDup (se_ID <$> active) ->
  (convergenceBatch cfg cursor active).1 ⊆ active /\ NoDup (se_ID <$> (convergenceBatch cfg cursor active).1).
Proof.
  intros Hn. destruct (Nat.le_gt_cases (length active) (batch_limit cfg)); [by rewrite convergenceBatch_all|].
  rewrite convergenceBatch_cut by done. cbn [fst]. set (start := (cursor mod length active)%nat).
  assert (start < length active)%nat as Hs by (apply Nat.mod_upper_bound; lia).
  assert (exists l, take (batch_limit cfg) (drop start (active ++ active)) ++ l ≡ₚ active) as [l Hl].
  { assert (drop start (active ++ active) = (drop start active ++ take start active) ++ drop start active) as ->.
    { rewrite drop_app_le by lia. rewrite <- app_assoc. f_equal. by rewrite take_drop. }
    rewrite take_app_le by (rewrite length_app, length_drop, length_take; lia).
    exists (drop (batch_limit cfg) (drop start active ++ take start active)). rewrite take_drop, Permutation_app_comm. by rewrite take_drop. }
  split.
  - intros s Hs'. rewrite <- Hl. apply elem_of_app. by left.
  - rewrite <- Hl, fmap_app in Hn. by apply NoDup_app in Hn as [Hn _].
Qed.

(** Successive passes over the same sessions. *)
Fixpoint cursors (cfg : Config) (active : list Session) (cursor passes : nat) : nat :=
  match passes with O => cursor | S passes => cursors cfg active (convergenceBatch cfg cursor active).2 passes end.

(** The round robin reaches everyone: while the live sessions stay the same, enough
    passes to count them in batches look at each of them, whatever the cursor was. *)
Theorem convergence_round_robin cfg active cursor passes s :
  (length active <= passes * batch_limit cfg)%nat -> s ∈ active ->
  exists i, (i < passes)%nat /\ s ∈ (convergenceBatch cfg (cursors cfg active cursor i) active).1.
Proof.
  intros Hle Hs. apply list_elem_of_lookup in Hs as [idx Hs]. pose proof (lookup_lt_Some _ _ _ Hs) as Hidx.
  set (n := length active) in *. set (k := batch_limit cfg) in *. assert (0 < k)%nat as Hk by (destruct k; lia).
  destruct (Nat.le_gt_cases n k) as [Hn|Hn].
  { exists 0%nat. split; [nia|]. rewrite convergenceBatch_all by done. by eapply list_elem_of_lookup_2. }
  assert (forall i, (cursors cfg active cursor i mod n)%nat = ((cursor + i * k) mod n)%nat) as Hc.
  { intros i. revert cursor. induction i as [|i IH]; intros c; cbn [cursors]; [by rewrite Nat.add_0_r|].
    rewrite IH, convergenceBatch_cut by done. cbn [snd]. fold n k. rewrite Nat.Div0.add_mod_idemp_l, <- Nat.add_assoc, Nat.Div0.add_mod_idemp_l.
    done. }
  set (t := ((idx + n - cursor mod n) mod n)%nat). assert (t < n)%nat as Ht by (apply Nat.mod_upper_bound; lia).
  exists (t / k)%nat. split; [apply Nat.Div0.div_lt_upper_bound; lia|].
  rewrite convergenceBatch_cut by done. cbn [fst]. fold n k. rewrite Hc.
  assert (((cursor + t / k * k) mod n + t mod k) mod n = idx)%nat as Hm.
  { rewrite Nat.Div0.add_mod_idemp_l. replace (cursor + t / k * k + t mod k)%nat with (cursor + t)%nat by (pose proof (Nat.div_mod_eq t k); lia).
    unfold t. rewrite Nat.Div0.add_mod_idemp_r.
    pose proof (Nat.mod_upper_bound cursor n ltac:(lia)). pose proof (Nat.div_mod_eq cursor n).
    replace (cursor + (idx + n - cursor mod n))%nat with (idx + (1 + cursor / n) * n)%nat by nia.
    rewrite Nat.Div0.mod_add. by apply Nat.mod_small. }
  pose proof (Nat.mod_upper_bound t k ltac:(lia)) as Htk.
  pose proof (Nat.mod_upper_bound (cursor + t / k * k) n ltac:(lia)) as Hst. set (start := ((cursor + t / k * k) mod n)%nat) in *.
  apply (list_elem_of_lookup_2 _ (t mod k)). rewrite lookup_take_lt by done. rewrite lookup_drop.
  destruct (Nat.lt_ge_cases (start + t mod k) n) as [H|H].
  - rewrite Nat.mod_small in Hm by done. by rewrite Hm, lookup_app_l.
  - rewrite lookup_app_r by done. fold n. rewrite <- (Nat.mod_unique (start + t mod k) n 1 (start + t mod k - n)) in Hm by lia. by rewrite Hm.
Qed.

(** ** A pass over the in-memory sessions *)

Definition active_at (now : Z) (s : Session) : bool := negb (se_Revoked s) && GoTime.After (se_ExpiresAt s) now.

Lemma elem_of_active now all s : s ∈ activeSessions now all <-> s ∈ all /\ active_at now s = true.
Proof. unfold activeSessions. rewrite merge_sort_Permutation, list_elem_of_filter. unfold active_at. tauto. Qed.

Lemma active_stored now m s : sessions_ok m -> s ∈ activeSessions now (ListAll m) -> ms_sessions m !! se_ID s = Some s.
Proof. intros Hm [Hs _]%elem_of_active. apply elem_of_ListAll in Hs as [id Hs]. by rewrite (Hm _ _ Hs). Qed.

Lemma active_IDs now m : sessions_ok m -> NoDup (se_ID <$> activeSessions now (ListAll m)).
Proof.
  intros Hm. unfold activeSessions. rewrite merge_sort_Permutation. eapply sublist_NoDup; [by apply ListAll_IDs|].
  apply fmap_sublist, sublist_filter.
Qed.

Definition decide_with (cfg : Config) (ps : list Policy) (build : Session -> Z -> AccessContext) (s : Session) (n : Z) : Decision :=
  Decide cfg ps (build s n).

Lemma ConvergeSessions_run cfg ps build now cursor m :
  cf_Enforce cfg = true ->
  let active := activeSessions now (ListAll m) in
  let batch := (convergenceBatch cfg cursor active).1 in
  (ConvergeSessions memory_manager cfg (Some ps) build now cursor m).2 =
    (sweep memory_manager (decide_with cfg ps build) batch (concurrentSessionCounts active) m no_summary).1.
Proof.
  intros He active batch. unfold ConvergeSessions. rewrite He. cbn [negb mg_ListAll memory_manager]. fold active. unfold batch.
  destruct (convergenceBatch cfg cursor active) as [b c]. cbn [fst]. fold (decide_with cfg ps build). by destruct (sweep _ _ _ _ _ _).
Qed.

Lemma sweep_active cfg ps build now cursor m :
  cf_Enforce cfg = true -> sessions_ok m ->
  let active := activeSessions now (ListAll m) in
  let batch := (convergenceBatch cfg cursor active).1 in
  let m' := (ConvergeSessions memory_manager cfg (Some ps) build now cursor m).2 in
  (forall s n, (s, n) ∈ seen (decide_with cfg ps build) batch (concurrentSessionCounts active) ->
     ms_sessions m' !! se_ID s = converged (decide_with cfg ps build s n) s) /\
  (forall id, id ∉ se_ID <$> batch -> ms_sessions m' !! id = ms_sessions m !! id).
Proof.
  intros He Hm active batch m'. unfold m'. rewrite ConvergeSessions_run by done.
  destruct (convergenceBatch_ok cfg cursor active (active_IDs now m Hm)) as [Hsub Hn].
  apply sweep_memory; [done|]. apply Forall_forall. intros s Hs. by apply (active_stored now), Hsub.
Qed.

(** After a pass, each live session of the batch was either revoked or is in line with
    what conditional access decides for it now, with a count of concurrent sessions no
    higher than the real one: it is not denied, its scopes are among those it had and
    those the policy allows, and it is marked when a step-up is asked for.  Every other
    session is as it was, and nothing changes when convergence is off or the policies
    cannot be read. *)
Theorem converged_sessions_obey cfg ps build now cursor m :
  cf_Enforce cfg = true -> sessions_ok m ->
  let active := activeSessions now (ListAll m) in
  let batch := (convergenceBatch cfg cursor active).1 in
  let m' := (ConvergeSessions memory_manager cfg (Some ps) build now cursor m).2 in
  (forall s s', s ∈ batch -> ms_sessions m' !! se_ID s = Some s' ->
     exists n, n <= Z.of_nat (length (filter (fun s' => sessionConcurrencyKey s' = sessionConcurrencyKey s) active)) /\
       let d := Decide cfg ps (build s n) in
       dc_Verdict d <> VerdictDeny /\ se_AuthorizedScopes s' ⊆ se_AuthorizedScopes s /\
       (dc_RestrictScopes d <> [] -> se_AuthorizedScopes s' <> [] /\ se_AuthorizedScopes s' ⊆ dc_RestrictScopes d) /\
       (dc_Verdict d = VerdictRequireStepUp -> se_StepUpRequired s' = true) /\
       se_UserID s' = se_UserID s /\ se_ExpiresAt s' = se_ExpiresAt s) /\
  (forall id, id ∉ se_ID <$> batch -> ms_sessions m' !! id = ms_sessions m !! id) /\
  (ConvergeSessions memory_manager cfg None build now cursor m).2 = m.
Proof.
  intros He Hm active batch m'. destruct (sweep_active cfg ps build now cursor m He Hm) as [H1 H2]. fold active batch m' in H1, H2.
  split; [|split; [exact H2|]].
  - intros s s' Hs Hl. rewrite <- (seen_sessions (decide_with cfg ps build) batch (concurrentSessionCounts active)) in Hs.
    apply list_elem_of_fmap in Hs as ([s0 n] & -> & Hs). cbn [fst] in *. exists n. split.
    + apply seen_below in Hs. by rewrite concurrentSessionCounts_spec in Hs.
    + rewrite (H1 _ _ Hs) in Hl. by apply converged_obeys in Hl.
  - unfold ConvergeSessions. by rewrite He.
Qed.

(** C40 — When the policies refuse a session of a user and client as soon as more than [cap]
    are counted, a pass over all the live sessions leaves at most [cap] of them; and when
    they refuse it only then, the ones revoked are the newest. *)
Theorem concurrent_cap_converges cfg ps build now cursor m k cap :
  cf_Enforce cfg = true -> sessions_ok m -> 0 <= cap ->
  let active := activeSessions now (ListAll m) in
  (length active <= batch_limit cfg)%nat ->
  (forall s n, sessionConcurrencyKey s = k -> cap < n -> dc_Verdict (Decide cfg ps (build s n)) = VerdictDeny) ->
  let m' := (ConvergeSessions memory_manager cfg (Some ps) build now cursor m).2 in
  Z.of_nat (length (filter (fun s => sessionConcurrencyKey s = k) (activeSessions now (ListAll m')))) <= cap /\
  ((forall s n, sessionConcurrencyKey s = k -> n <= cap -> is_Some (converged (Decide cfg ps (build s n)) s)) ->
   forall i j si sj, active !! i = Some si -> active !! j = Some sj -> (i <= j)%nat ->
     sessionConcurrencyKey si = k -> sessionConcurrencyKey sj = k ->
     is_Some (ms_sessions m' !! se_ID si) -> is_Some (ms_sessions m' !! se_ID sj)).
Proof.
  intros He Hm Hcap active Hall Hdeny m'. destruct (sweep_active cfg ps build now cursor m He Hm) as [H1 H2].
  fold active m' in H1, H2. rewrite convergenceBatch_all in H1, H2 by done.
  set (sn := seen (decide_with cfg ps build) active (concurrentSessionCounts active)) in *.
  assert (forall s n, sessionConcurrencyKey s = k -> cap < n -> converged (decide_with cfg ps build s n) s = None) as Hrev.
  { intros s n Hk Hn. unfold converged, decide_with. by rewrite decide_True by (by apply Hdeny). }
  assert (forall s, s ∈ active -> exists n, (s, n) ∈ sn) as Hseen.
  { intros s Hs. rewrite <- (seen_sessions (decide_with cfg ps build) active (concurrentSessionCounts active)) in Hs.
    apply list_elem_of_fmap in Hs as ([s0 n] & -> & Hs). eauto. }
  split.
  - pose proof (kept_cap (decide_with cfg ps build) active (concurrentSessionCounts active) k cap Hrev) as Hkept.
    rewrite concurrentSessionCounts_spec in Hkept. fold sn in Hkept. cbv zeta in Hkept.
    enough (length (filter (fun s => sessionConcurrencyKey s = k) (activeSessions now (ListAll m'))) <=
            length (filter (kept (decide_with cfg ps build) k) sn))%nat by lia.
    assert (sessions_ok m') as Hm'.
    { intros id s' Hs'. destruct (decide (id ∈ se_ID <$> active)) as [Hi|Hi]; [|rewrite H2 in Hs' by done; by apply Hm].
      apply list_elem_of_fmap in Hi as (s & -> & Hs). destruct (Hseen s Hs) as [n Hn]. rewrite (H1 _ _ Hn) in Hs'.
      by apply converged_ID in Hs' as [-> _]. }
    rewrite <- (length_fmap se_ID), <- (length_fmap (fun x : Session * Z => se_ID x.1) (filter _ sn)). apply submseteq_length.
    apply NoDup_submseteq.
    { eapply sublist_NoDup; [exact (active_IDs now m' Hm')|]. apply fmap_sublist, sublist_filter. }
    intros id Hid. apply list_elem_of_fmap in Hid as (s' & -> & Hs'). apply list_elem_of_filter in Hs' as [Hk Hs'].
    apply elem_of_active in Hs' as [Hs' Hact]. apply elem_of_ListAll in Hs' as [id Hs']. pose proof (Hm' _ _ Hs') as Hid.
    destruct (decide (id ∈ se_ID <$> active)) as [Hi|Hi].
    + apply list_elem_of_fmap in Hi as (s & -> & Hs). destruct (Hseen s Hs) as [n Hn]. rewrite (H1 _ _ Hn) in Hs'.
      destruct (converged_ID _ _ _ Hs') as [_ Hk']. apply list_elem_of_fmap. exists (s, n). cbn [fst]. split; [by rewrite Hid|].
      apply list_elem_of_filter. split; [|done]. unfold kept. cbn [fst snd]. split; [congruence|eauto].
    + rewrite H2 in Hs' by done. exfalso. apply Hi. rewrite <- Hid. apply list_elem_of_fmap_2. apply elem_of_active.
      split; [apply elem_of_ListAll; eauto|done].
  - intros Honly i j si sj Hi Hj Hij Hki Hkj [s' Hs'].
    assert (forall i s, active !! i = Some s -> exists n, sn !! i = Some (s, n)) as Hat.
    { intros i0 s Hs. assert (sn.*1 !! i0 = Some s) as H by (unfold sn; by rewrite seen_sessions).
      rewrite list_lookup_fmap in H. destruct (sn !! i0) as [[s0 n]|]; [|done]. injection H as ->. eauto. }
    destruct (Hat i si Hi) as [ni Hni], (Hat j sj Hj) as [nj Hnj].
    rewrite (H1 si ni (list_elem_of_lookup_2 _ _ _ Hni)) in Hs'. rewrite (H1 sj nj (list_elem_of_lookup_2 _ _ _ Hnj)).
    assert (nj <= ni) by (eapply seen_order; [exact Hni|exact Hnj|done|congruence]).
    apply Honly; [done|]. destruct (Z.le_gt_cases ni cap); [lia|]. rewrite Hrev in Hs' by done. done.
Qed.

(** ** Witnesses *)

(** One session per user and client. *)
Definition one_session : Conditions := {|
  co_UserMemberOf := []; co_DeviceManaged := None; co_DeviceType := ""; co_DeviceTrustLevel := of_int 0; co_IsNewDevice := false;
  co_IsNewLocation := false; co_RiskScore := ""; co_GeoIn := []; co_GeoNotIn := []; co_TimeAfter := ""; co_TimeBefore := "";
  co_SessionAgeSeconds := 0; co_AuthenticationAgeSeconds := 0; co_MaxConcurrentSessions := 1 |}.

Definition read_only : Actions := {| at_Allow := true; at_Deny := false; at_RequireStepUp := ""; at_RestrictScopes := ["read"]; at_Log := false |}.

Definition cap_policies : list Policy := [policy "one" 10 false one_session deny_action; policy "read" 0 false any_request read_only].

Definition sample_build (s : Session) (n : Z) : AccessContext := {|
  ac_TrustScore := of_int 1; ac_TrustScoreKnown := true; ac_DevicePosture := PostureManaged; ac_Groups := []; ac_Country := "";
  ac_Now := 100; ac_SessionCreatedAt := se_CreatedAt s; ac_AuthTime := se_AuthTime s; ac_ConcurrentSessions := n;
  ac_ConcurrentSessionsKnown := true; ac_RequestedScopes := []; ac_DeviceType := ""; ac_DeviceTrustLevel := of_int 0;
  ac_IsNewDevice := false; ac_IsNewLocation := false; ac_Subject := se_UserID s; ac_ClientID := se_ClientID s |}.

Definition three_sessions : MemorySessionManager :=
  (CreateWithMeta "s3" 30 "alice" (tenant_meta "acme" "web" ["read"; "write"])
  (CreateWithMeta "s2" 20 "bob" (tenant_meta "acme" "web" ["read"])
  (CreateWithMeta "s1" 10 "alice" (tenant_meta "acme" "web" ["read"; "write"]) (NewMemorySessionManager (Some 1000))).2).2).2.

Lemma three_sessions_ok : sessions_ok three_sessions.
Proof. intros id s. unfold three_sessions. cbn. rewrite !lookup_insert_Some, lookup_empty. naive_solver. Qed.

Example converged_sample :
  let r := ConvergeSessions memory_manager sample_config (Some cap_policies) sample_build 40 0 three_sessions in
  (su_Revoked r.1.1.1, su_ScopesRestricted r.1.1.1, (fun s => (se_ID s, se_AuthorizedScopes s)) <$> ListAll r.2) =
    (1, 1, [("s1", ["read"]); ("s2", ["read"])]).
Proof. vm_compute. reflexivity. Qed.

Lemma converged_sessions_obey_witness :
  exists s', ms_sessions (ConvergeSessions memory_manager sample_config (Some cap_policies) sample_build 40 0 three_sessions).2 !! "s1" = Some s' /\
    se_AuthorizedScopes s' ⊆ ["read"; "write"].
Proof.
  eexists. split; [vm_compute; reflexivity|].
  destruct (converged_sessions_obey sample_config cap_policies sample_build 40 0 three_sessions eq_refl three_sessions_ok) as (H & _).
  destruct (H (new_session "s1" "alice" 10 1000 (tenant_meta "acme" "web" ["read"; "write"]))
    (with_scopes ["read"] (new_session "s1" "alice" 10 1000 (tenant_meta "acme" "web" ["read"; "write"])))) as (n & _ & _ & Hsub & _).
  - vm_compute. right. right. left.
  - vm_compute. reflexivity.
  - exact Hsub.
Defined.

Lemma cap_policies_refuse s n : 1 < n -> dc_Verdict (Decide sample_config cap_policies (sample_build s n)) = VerdictDeny.
Proof. intros Hn. destruct n as [|[p|p|]|p]; try lia; vm_compute; reflexivity. Qed.

Lemma concurrent_cap_converges_witness :
  length (ListByUser 40 "alice" three_sessions) = 2%nat /\
  Z.of_nat (length (filter (fun s => sessionConcurrencyKey s = "alice" +:+ String nul "web")
    (activeSessions 40 (ListAll (ConvergeSessions memory_manager sample_config (Some cap_policies) sample_build 40 0 three_sessions).2)))) <= 1.
Proof.
  split; [vm_compute; reflexivity|].
  apply (concurrent_cap_converges sample_config cap_policies sample_build 40 0 three_sessions ("alice" +:+ String nul "web") 1).
  - reflexivity.
  - apply three_sessions_ok.
  - lia.
  - vm_compute. lia.
  - intros s n _. apply cap_policies_refuse.
Defined.

Lemma convergence_round_robin_witness :
  exists i, (i < 3)%nat /\
    new_session "s2" "bob" 20 1000 (tenant_meta "acme" "web" ["read"]) ∈
      (convergenceBatch {| cf_DegradedTrust := of_int 0; cf_DefaultDeny := false; cf_Enforce := true; cf_SessionSweepInterval := 0;
                           cf_SessionSweepBatchSize := 1 |}
        (cursors {| cf_DegradedTrust := of_int 0; cf_DefaultDeny := false; cf_Enforce := true; cf_SessionSweepInterval := 0;
                    cf_SessionSweepBatchSize := 1 |} (activeSessions 40 (ListAll three_sessions)) 7 i)
        (activeSessions 40 (ListAll three_sessions))).1.
Proof.
  apply convergence_round_robin.
  - vm_compute. lia.
  - vm_compute. right. left.
Defined.
