(* ===== verification/PolicyGates.v ===== *)
(** * PolicyGates: where the policy engines are enforced
    (interfaces/sso: EnforceRefreshConditionalAccess, applySessionScopeCeiling,
    withConcurrentSessions, buildLoginAccessContext and mergeScopeRestrictions of
    server_mfa_trust.go, enforceConditionalAccessLogin and buildAccessContext of
    server_login_client.go, restrictGrantedScopes of server_finish_login.go).

    The gates discharge what the refresh grant asks of its policy engines
    ([GrantCore.PolicyLaws]), and the theorem at the end composes the grant with them.
    What a request shows of the device, the place, the groups and the trust score is a
    record of signals: its collection is not modelled. *)
From S2P Require Import Prelude Core Float64 Lifecycle RefreshStore CodeStores DeviceCodes CibaStore Issue RefreshIface GraceCache Scopes GrantCore RefreshGrant RefreshProps Keyset Sessions TokenPolicy CondAccess.
Local Open Scope Z_scope.

(** ** Scopes *)

(** [None] is the nil slice. *)
Definition restrictGrantedScopes (granted : list string) (allowed : option (list string)) : list string :=
  match allowed with None => granted | Some allowed => filter (fun s => s ∈ allowed) granted end.

Definition mergeScopeRestrictions (current : option (list string)) (next : list string) : option (list string) :=
  match current with None => Some next | Some current => Some (restrictGrantedScopes current (Some next)) end.

Definition policyScopeRemovedAll (granted restricted : list string) (policy : option (list string)) : bool :=
  bool_decide (is_Some policy) && negb (bool_decide (granted = [])) && bool_decide (restricted = []).

(** ** The context of a request *)

(** The fields the gates read. *)
Record AuthResult := { ar_UserID : string; ar_AuthMethods : list string; ar_AuthTime : Z; ar_SessionID : string }.

Definition authenticationHasMFA (r : AuthResult) : bool := contains (ar_AuthMethods r) "mfa".

(** What the request shows; the score is [None] without a scorer or when it fails. *)
Record Signals := {
  sg_DevicePosture : DevicePosture;
  sg_Country : string;
  sg_Groups : list string;
  sg_DeviceType : string;
  sg_DeviceTrustLevel : float64;
  sg_IsNewDevice : bool;
  sg_IsNewLocation : bool;
  sg_Score : option float64;
}.

(** The session manager as the gates use it; [None] is an error or no session. *)
Record SessionReader := {
  sr_Get : string -> option Session;
  sr_ListByUser : string -> option (list Session);
}.

Section gates.
Context (sessions : option SessionReader) (signals : Signals) (now : Z).

Definition conditionalAccessSessionCreatedAt (sid : string) : Z :=
  if decide (sid = "") then 0
  else match sessions with
       | None => 0
       | Some sr => match sr_Get sr sid with Some s => se_CreatedAt s | None => 0 end
       end.

Definition set_concurrent (ac : AccessContext) (n : Z) (known : bool) : AccessContext := {|
  ac_TrustScore := ac_TrustScore ac; ac_TrustScoreKnown := ac_TrustScoreKnown ac; ac_DevicePosture := ac_DevicePosture ac;
  ac_Groups := ac_Groups ac; ac_Country := ac_Country ac; ac_Now := ac_Now ac; ac_SessionCreatedAt := ac_SessionCreatedAt ac;
  ac_AuthTime := ac_AuthTime ac; ac_ConcurrentSessions := n; ac_ConcurrentSessionsKnown := known;
  ac_RequestedScopes := ac_RequestedScopes ac; ac_DeviceType := ac_DeviceType ac; ac_DeviceTrustLevel := ac_DeviceTrustLevel ac;
  ac_IsNewDevice := ac_IsNewDevice ac; ac_IsNewLocation := ac_IsNewLocation ac; ac_Subject := ac_Subject ac; ac_ClientID := ac_ClientID ac |}.

Definition withConcurrentSessions (ac : AccessContext) : AccessContext :=
  match sessions with
  | None => ac
  | Some sr =>
      if decide (ac_Subject ac = "") then ac
      else match sr_ListByUser sr (ac_Subject ac) with
           | None => ac
           | Some l =>
               let mine := filter (fun s => negb (se_Revoked s) && negb (Session_IsExpired now s) && bool_decide (se_ClientID s = ac_ClientID ac) = true) l in
               set_concurrent ac (ac_ConcurrentSessions ac + Z.of_nat (length mine)) true
           end
  end.

Definition buildAccessContext (r : AuthResult) (scopes : list string) (client : Client) : AccessContext :=
  let ac := withConcurrentSessions {|
    ac_TrustScore := of_int 0; ac_TrustScoreKnown := false; ac_DevicePosture := sg_DevicePosture signals;
    ac_Groups := sg_Groups signals; ac_Country := sg_Country signals; ac_Now := now;
    ac_SessionCreatedAt := conditionalAccessSessionCreatedAt (ar_SessionID r); ac_AuthTime := ar_AuthTime r;
    ac_ConcurrentSessions := 0; ac_ConcurrentSessionsKnown := false; ac_RequestedScopes := scopes;
    ac_DeviceType := sg_DeviceType signals; ac_DeviceTrustLevel := sg_DeviceTrustLevel signals;
    ac_IsNewDevice := sg_IsNewDevice signals; ac_IsNewLocation := sg_IsNewLocation signals; ac_Subject := ar_UserID r;
    ac_ClientID := cl_ID client |} in
  match sg_Score signals with
  | None => ac
  | Some score => {|
      ac_TrustScore := score; ac_TrustScoreKnown := true; ac_DevicePosture := ac_DevicePosture ac; ac_Groups := ac_Groups ac;
      ac_Country := ac_Country ac; ac_Now := ac_Now ac; ac_SessionCreatedAt := ac_SessionCreatedAt ac; ac_AuthTime := ac_AuthTime ac;
      ac_ConcurrentSessions := ac_ConcurrentSessions ac; ac_ConcurrentSessionsKnown := ac_ConcurrentSessionsKnown ac;
      ac_RequestedScopes := ac_RequestedScopes ac; ac_DeviceType := ac_DeviceType ac; ac_DeviceTrustLevel := ac_DeviceTrustLevel ac;
      ac_IsNewDevice := ac_IsNewDevice ac; ac_IsNewLocation := ac_IsNewLocation ac; ac_Subject := ac_Subject ac;
      ac_ClientID := ac_ClientID ac |}
  end.

(** A login counts the session it is about to make. *)
Definition buildLoginAccessContext (r : AuthResult) (scopes : list string) (client : Client) : AccessContext :=
  let ac := buildAccessContext r scopes client in
  if ac_ConcurrentSessionsKnown ac then set_concurrent ac (ac_ConcurrentSessions ac + 1) true else ac.

(** ** The refresh gate *)

Definition refuse_scope : response := RError 400 ErrInvalidScope.

Definition applySessionScopeCeiling (sid clientID : string) (scopes : list string) : result response (list string) :=
  if decide (sid = "") then Ok scopes
  else match sessions with
       | None => Ok scopes
       | Some sr =>
           match sr_Get sr sid with
           | None => Ok scopes
           | Some s =>
               if negb (bool_decide (se_ClientID s = clientID)) || bool_decide (se_AuthorizedScopes s = []) then Ok scopes
               else
                 let restricted := restrictGrantedScopes scopes (Some (se_AuthorizedScopes s)) in
                 if policyScopeRemovedAll scopes restricted (Some (se_AuthorizedScopes s)) then Err refuse_scope else Ok restricted
           end
       end.

(** [cap] is the engine, nil when not wired: its configuration and what its store answers. *)
Definition EnforceRefreshConditionalAccess (cap : option (Config * option (list CondAccess.Policy))) (client : Client) (info : RefreshToken)
    (scopes : list string) : result response (list string) :=
  scopes ← applySessionScopeCeiling (rt_SID info) (cl_ID client) scopes;
  match cap with
  | None => Ok scopes
  | Some (cfg, listed) =>
      if negb (cf_Enforce cfg) then Ok scopes
      else
        let r := {| ar_UserID := rt_UserID info; ar_AuthMethods := rt_Amr info; ar_AuthTime := rt_AuthTime info; ar_SessionID := rt_SID info |} in
        let '(dec, err) := CondAccess.Evaluate cfg listed (buildAccessContext r scopes client) in
        if (err : bool) then Ok scopes
        else if decide (dc_Verdict dec = VerdictDeny) then Err (RError 400 ErrInvalidGrant)
        else if bool_decide (dc_Verdict dec = VerdictRequireStepUp) && negb (authenticationHasMFA r)
        then Err (RError 400 ErrInsufficientUserAuthentication)
        else if decide (dc_RestrictScopes dec = []) then Ok scopes
        else
          let restricted := restrictGrantedScopes scopes (Some (dc_RestrictScopes dec)) in
          if policyScopeRemovedAll scopes restricted (Some (dc_RestrictScopes dec)) then Err refuse_scope else Ok restricted
  end.

(** ** The login gate *)

(** Proceed with a restriction on scopes, refuse (403), or challenge for a second factor. *)
Inductive login_gate := Proceed (restriction : option (list string)) | LoginDenied | MFAChallenge (restriction : option (list string)).

Definition enforceConditionalAccessLogin (cap : option (Config * option (list CondAccess.Policy))) (mfaWired hookSkipsMFA : bool)
    (r : AuthResult) (scopes : list string) (restriction : option (list string)) (client : Client) : login_gate :=
  match cap with
  | None => Proceed restriction
  | Some (cfg, listed) =>
      if negb (cf_Enforce cfg) then Proceed restriction
      else
        let '(dec, err) := CondAccess.Evaluate cfg listed (buildLoginAccessContext r scopes client) in
        if (err : bool) then Proceed restriction
        else
          let restriction := if decide (dc_RestrictScopes dec = []) then restriction else mergeScopeRestrictions restriction (dc_RestrictScopes dec) in
          match dc_Verdict dec with
          | VerdictDeny => LoginDenied
          | VerdictRequireStepUp =>
              if authenticationHasMFA r || hookSkipsMFA then Proceed restriction
              else if mfaWired then MFAChallenge restriction
              else LoginDenied
          | VerdictAllow => Proceed restriction
          end
  end.
End gates.

(** ** What the gates let through *)

Lemma restrict_subset granted allowed : restrictGrantedScopes granted (Some allowed) ⊆ granted.
Proof. intros s Hs. cbn in Hs. apply list_elem_of_filter in Hs. tauto. Qed.
Lemma restrict_allowed granted allowed : restrictGrantedScopes granted (Some allowed) ⊆ allowed.
Proof. intros s Hs. cbn in Hs. apply list_elem_of_filter in Hs. tauto. Qed.

Lemma merge_restrict granted current next :
  restrictGrantedScopes granted (mergeScopeRestrictions current next) ⊆ restrictGrantedScopes granted (Some next).
Proof.
  destruct current as [c|]; [|done]. intros s. cbn. rewrite !list_elem_of_filter. tauto.
Qed.
Lemma merge_narrows granted current next :
  restrictGrantedScopes granted (mergeScopeRestrictions current next) ⊆ restrictGrantedScopes granted current.
Proof.
  destruct current as [c|]; [|apply restrict_subset]. intros s. cbn. rewrite !list_elem_of_filter. tauto.
Qed.

Lemma ceiling_spec sessions sid clientID scopes :
  match applySessionScopeCeiling sessions sid clientID scopes with
  | Ok sc => sc ⊆ scopes /\
      forall sr s, sessions = Some sr -> sid <> "" -> sr_Get sr sid = Some s -> se_ClientID s = clientID ->
        se_AuthorizedScopes s <> [] -> sc ⊆ se_AuthorizedScopes s
  | Err r => r = refuse_scope
  end.
Proof.
  unfold applySessionScopeCeiling. destruct (decide (sid = "")) as [->|]; [by split; [done|]|]. destruct sessions as [sr|]; [|done].
  destruct (sr_Get sr sid) as [s|] eqn:Hs; [|split; [done|]; intros sr' s' [= <-]; congruence].
  destruct (_ || _) eqn:E.
  - split; [done|]. intros sr' s' [= <-] _ Hs' Hc Ha. rewrite Hs in Hs'. injection Hs' as <-.
    rewrite orb_true_iff, negb_true_iff, bool_decide_eq_false, bool_decide_eq_true in E. tauto.
  - destruct (policyScopeRemovedAll _ _ _); [done|]. split; [apply restrict_subset|].
    intros sr' s' [= <-] _ Hs' _ _. rewrite Hs in Hs'. injection Hs' as <-. apply restrict_allowed.
Qed.

(** What a decision of the engine asks of a refresh. *)
Definition access_obeyed (cfg : Config) (ps : list CondAccess.Policy) (ac : AccessContext) (amr scopes : list string) : Prop :=
  let dec := Decide cfg ps ac in
  dc_Verdict dec <> VerdictDeny /\
  (dc_Verdict dec = VerdictRequireStepUp -> "mfa" ∈ amr) /\
  (dc_RestrictScopes dec <> [] -> scopes ⊆ dc_RestrictScopes dec).

Definition refresh_result (info : RefreshToken) : AuthResult :=
  {| ar_UserID := rt_UserID info; ar_AuthMethods := rt_Amr info; ar_AuthTime := rt_AuthTime info; ar_SessionID := rt_SID info |}.

Lemma refresh_gate_spec sessions signals now cap client info scopes :
  match EnforceRefreshConditionalAccess sessions signals now cap client info scopes with
  | Ok sc => sc ⊆ scopes /\
      (forall sr s, sessions = Some sr -> rt_SID info <> "" -> sr_Get sr (rt_SID info) = Some s -> se_ClientID s = cl_ID client ->
         se_AuthorizedScopes s <> [] -> sc ⊆ se_AuthorizedScopes s) /\
      (forall cfg ps, cap = Some (cfg, Some ps) -> cf_Enforce cfg = true ->
         exists asked, access_obeyed cfg ps (buildAccessContext sessions signals now (refresh_result info) asked client) (rt_Amr info) sc)
  | Err r => is_error r
  end.
Proof.
  unfold EnforceRefreshConditionalAccess. pose proof (ceiling_spec sessions (rt_SID info) (cl_ID client) scopes) as Hc.
  destruct (applySessionScopeCeiling _ _ _ _) as [sc|r]; cbn [mbind result_bind]; [|subst r; by do 2 eexists].
  destruct Hc as [Hsub Hceil]. destruct cap as [[cfg listed]|]; [|done].
  destruct (cf_Enforce cfg) eqn:He; cbn [negb]; [|split_and!; [done..|]; intros cfg' ps [= <- _]; congruence].
  fold (refresh_result info). destruct listed as [ps|]; cbn [CondAccess.Evaluate].
  2:{ split_and!; [done..|]. intros cfg' ps [=]. }
  set (ac := buildAccessContext _ _ _ _ _ _). set (dec := Decide cfg ps ac).
  destruct (decide (dc_Verdict dec = VerdictDeny)) as [|Hnd]; [by do 2 eexists|].
  destruct (_ && _) eqn:Hmfa; [by do 2 eexists|].
  assert (dc_Verdict dec = VerdictRequireStepUp -> "mfa" ∈ rt_Amr info) as Hstep.
  { intros Hv. rewrite (bool_decide_eq_true_2 _ Hv) in Hmfa. cbn [andb] in Hmfa. apply negb_false_iff, contains_spec in Hmfa. exact Hmfa. }
  destruct (decide (dc_RestrictScopes dec = [])) as [Hr|Hr].
  - split_and!; [done..|]. intros cfg' ps' [= <- <-] _. exists sc. by split_and!.
  - destruct (policyScopeRemovedAll _ _ _); [by do 2 eexists|]. split_and!.
    + etrans; [apply restrict_subset|done].
    + intros sr s H1 H2 H3 H4 H5. etrans; [apply restrict_subset|by eapply Hceil].
    + intros cfg' ps' [= <- <-] _. exists sc. split_and!; [done..|]. intros _. apply restrict_allowed.
Qed.

(** The login gate decides on the context with the new session counted: it lets the
    login proceed only when conditional access does not deny it and any second factor it
    asks for was presented (or the hook stands in for it), and then under a restriction
    the policies' scopes only narrow; it challenges or refuses only because the engine
    asked for that, and an engine that is absent, not enforcing or out of its store
    stops nobody. *)
Theorem login_obeys_conditional_access sessions signals now cap mfaWired hookSkipsMFA r scopes restriction client :
  let ac := buildLoginAccessContext sessions signals now r scopes client in
  let gate := enforceConditionalAccessLogin sessions signals now cap mfaWired hookSkipsMFA r scopes restriction client in
  let allowed := fun dec => if decide (dc_RestrictScopes dec = []) then restriction else mergeScopeRestrictions restriction (dc_RestrictScopes dec) in
  (forall granted dec,
     (dc_RestrictScopes dec <> [] -> restrictGrantedScopes granted (allowed dec) ⊆ dc_RestrictScopes dec) /\
     restrictGrantedScopes granted (allowed dec) ⊆ restrictGrantedScopes granted restriction) /\
  match cap with
  | Some (cfg, Some ps) =>
      if cf_Enforce cfg then
        let dec := Decide cfg ps ac in
        match gate with
        | Proceed rs => rs = allowed dec /\ (dc_Verdict dec = VerdictAllow \/
            dc_Verdict dec = VerdictRequireStepUp /\ ("mfa" ∈ ar_AuthMethods r \/ hookSkipsMFA = true))
        | MFAChallenge rs => rs = allowed dec /\ dc_Verdict dec = VerdictRequireStepUp /\ "mfa" ∉ ar_AuthMethods r /\ mfaWired = true
        | LoginDenied => dc_Verdict dec = VerdictDeny \/
            dc_Verdict dec = VerdictRequireStepUp /\ "mfa" ∉ ar_AuthMethods r /\ mfaWired = false
        end
      else gate = Proceed restriction
  | _ => gate = Proceed restriction
  end.
Proof.
  intros ac gate allowed. split.
  - intros granted dec. unfold allowed. destruct (decide _) as [|Hne]; [done|]. split; [intros _|].
    + etrans; [apply merge_restrict|]. apply restrict_allowed.
    + apply merge_narrows.
  - unfold gate, enforceConditionalAccessLogin. destruct cap as [[cfg [ps|]]|]; [|by destruct (cf_Enforce cfg)|done].
    destruct (cf_Enforce cfg); [|done]. cbn [negb CondAccess.Evaluate]. fold ac.
    assert (authenticationHasMFA r = true <-> "mfa" ∈ ar_AuthMethods r) as Hm by (unfold authenticationHasMFA; apply contains_spec).
    destruct (dc_Verdict (Decide cfg ps ac)) eqn:Hv; [by auto|by auto|].
    destruct (authenticationHasMFA r || hookSkipsMFA) eqn:E.
    + split; [done|]. right. split; [done|]. apply orb_true_iff in E. tauto.
    + apply orb_false_iff in E as [E _]. assert ("mfa" ∉ ar_AuthMethods r) by (rewrite <- Hm, E; done). by destruct mfaWired; auto.
Qed.

(** ** The refresh grant behind the gates *)

Section grant.
Context {St X : Type} `{Laws : RefreshTokenStoreLaws St}.
Context (reader : X -> option SessionReader) (signals : Signals) (now : Z).
Context (policies : X -> option (option (list TokenPolicy.Policy))) (cap : X -> option (Config * option (list CondAccess.Policy))).

(** [Deps] with the engines of the server. *)
Definition with_policy_gates (d : Deps X) : Deps X := {|
  dp_RefreshTokenStore := dp_RefreshTokenStore d; dp_AuthCodeStore := dp_AuthCodeStore d; dp_DeviceCodeStore := dp_DeviceCodeStore d;
  dp_CIBAStore := dp_CIBAStore d; dp_DeviceSecretStore := dp_DeviceSecretStore d; dp_SessionManager := dp_SessionManager d;
  dp_IssuerForClient := dp_IssuerForClient d; dp_IDTokenIssuerForClient := dp_IDTokenIssuerForClient d;
  dp_ApplyPairwiseSubject := dp_ApplyPairwiseSubject d; dp_MaybeEncryptIDToken := dp_MaybeEncryptIDToken d;
  dp_ProjectIDTokenClaims := dp_ProjectIDTokenClaims d; dp_LifecycleState := dp_LifecycleState d;
  dp_EnforceRefreshDepthPolicy := fun client subject tenant scopes depth x =>
    (EnforceRefreshDepthPolicy (policies x) client subject tenant scopes depth, x);
  dp_EnforceRefreshConditionalAccess := fun client info scopes x =>
    (EnforceRefreshConditionalAccess (reader x) signals now (cap x) client info scopes, x);
  dp_ScopeRegistry := dp_ScopeRegistry d; dp_RefreshAbsoluteMaxLifetime := dp_RefreshAbsoluteMaxLifetime d;
  dp_refreshTokenTTL := dp_refreshTokenTTL d; dp_deviceSecretTTL := dp_deviceSecretTTL d |}.

(** The gates keep the promises the grant was proved against. *)
Lemma policy_gates_laws d : PolicyLaws (with_policy_gates d).
Proof.
  split; cbn [dp_EnforceRefreshConditionalAccess dp_EnforceRefreshDepthPolicy with_policy_gates].
  - intros c info sc x sc' x' [= H _]. pose proof (refresh_gate_spec (reader x) signals now (cap x) c info sc) as Hs. rewrite H in Hs. tauto.
  - intros c info sc x r x' [= H _]. pose proof (refresh_gate_spec (reader x) signals now (cap x) c info sc) as Hs. by rewrite H in Hs.
  - intros c s t sc n x r x' [= H _]. pose proof (enforceTokenPolicy_spec (policies x) (refresh_input c s t sc n)) as Hs.
    unfold EnforceRefreshDepthPolicy in H. rewrite H in Hs. destruct Hs as (? & ? & _ & _ & _ & [-> | ->]); by do 2 eexists.
Qed.

(** C22 — With the server's own policy engines, a refresh answered with 200 obeyed them
    all: the scopes of the new refresh token are among those of the presented one and
    under the ceiling of its session; no token policy that matches blocks their
    combination or the depth the family has reached; and conditional access, decided
    from the live context, neither denied, nor asked for a second factor the token was
    not obtained with, nor allows less than what was granted. *)
Theorem refresh_obeys_policies (d : Deps X) (q : @RefreshRequest St X) w w' info b :
  let d' := with_policy_gates d in
  rs_live (sv_refresh (w_srv w)) (rr_refreshToken q) = Some info ->
  RefreshToken_IsExpired (sv_now (w_srv w)) info = false ->
  HandleRefreshGrant d' q w = ((), w') -> w_out w' = w_out w ++ [ROK b] ->
  exists newtok i',
    b !! KeyRefreshToken = Some (VStr newtok) /\ rs_live (sv_refresh (w_srv w')) newtok = Some i' /\
    rt_Scopes i' ⊆ rt_Scopes info /\
    let x := tracked d info (sv_x (w_srv w)) in
    let client := rr_client q in
    (forall sr s, reader x = Some sr -> rt_SID info <> "" -> sr_Get sr (rt_SID info) = Some s -> se_ClientID s = cl_ID client ->
       se_AuthorizedScopes s <> [] -> rt_Scopes i' ⊆ se_AuthorizedScopes s) /\
    (forall ps p, policies x = Some (Some ps) ->
       p ∈ matching (refresh_input (cl_ID client) (rt_UserID info) (cl_TenantID client) (rt_Scopes i') (rt_Generation info)) ps ->
       violatesScopeCombos (rt_Scopes i') (po_BlockScopeCombos p) = false /\
       (0 < po_MaxRefreshDepth p -> rt_Generation info < po_MaxRefreshDepth p)) /\
    (forall cfg ps, cap x = Some (cfg, Some ps) -> cf_Enforce cfg = true ->
       exists asked, access_obeyed cfg ps (buildAccessContext (reader x) signals now (refresh_result info) asked client) (rt_Amr info) (rt_Scopes i')).
Proof.
  intros d' Hl Hx Hw Ho.
  destruct (refresh_ok_live d' q w w' info b (policy_gates_laws d) Hl Hx Hw Ho) as [_ (w1 & _ & Hx1 & Hrot)].
  destruct Hrot as (scopes & strategy & ti & token & newtok & x & x' & _ & Hpol & _ & _ & -> & _ & (i' & Hi' & Hdesc) & _).
  exists newtok, i'. destruct Hdesc as (_ & _ & Hsc & _). rewrite Hsc. rewrite Hx1 in Hpol.
  destruct Hpol as (granted & x1 & x2 & Hg & Hcap & Hdepth).
  cbn [d' with_policy_gates dp_EnforceRefreshConditionalAccess dp_EnforceRefreshDepthPolicy] in Hcap, Hdepth.
  change (tracked d' info (sv_x (w_srv w))) with (tracked d info (sv_x (w_srv w))) in Hcap.
  set (y := tracked d info (sv_x (w_srv w))) in *. injection Hcap as Hcap <-. injection Hdepth as Hdepth _.
  pose proof (refresh_gate_spec (reader y) signals now (cap y) (rr_client q) info granted) as Hgate. rewrite Hcap in Hgate.
  destruct Hgate as (Hsub & Hceil & Hobey). split; [unfold rotation_response, base_response; by simplify_map_eq|].
  split; [done|]. split; [by etrans|]. split; [exact Hceil|]. split; [|exact Hobey].
  intros ps p Hps Hp. pose proof (enforceTokenPolicy_spec (policies y)
    (refresh_input (cl_ID (rr_client q)) (rt_UserID info) (cl_TenantID (rr_client q)) scopes (rt_Generation info))) as Hs.
  unfold EnforceRefreshDepthPolicy in Hdepth. rewrite Hdepth in Hs. specialize (Hs ps p Hps Hp).
  apply denyReason_none in Hs as (Hv & Hd & _). split; [exact Hv|]. intros Hpos. by apply Hd.
Qed.
End grant.

(** ** Witness *)

(** A session that authorized [openid] and [email], a conditional-access policy that
    allows [openid] and [profile], and the token policies of the samples. *)
Definition web_session : Session := {|
  se_ID := "s1"; se_UserID := "alice"; se_CreatedAt := 5; se_ExpiresAt := 500; se_Revoked := false; se_LastActiveAt := 5; se_IP := "";
  se_UserAgent := ""; se_TenantID := "acme"; se_DeviceID := ""; se_ClientID := "app"; se_AuthorizedScopes := ["openid"; "email"];
  se_AuthTime := 0; se_Kind := ""; se_TrustScore := of_int 0; se_TrustSetAt := 0; se_StepUpRequired := false |}.

Definition web_reader : SessionReader := {|
  sr_Get := fun sid => if decide (sid = "s1") then Some web_session else None;
  sr_ListByUser := fun user => Some (if decide (user = "alice") then [web_session] else []) |}.

Definition web_signals : Signals := {|
  sg_DevicePosture := PostureUnknown; sg_Country := "DE"; sg_Groups := ["staff"]; sg_DeviceType := "mobile"; sg_DeviceTrustLevel := dec 5 1;
  sg_IsNewDevice := false; sg_IsNewLocation := false; sg_Score := None |}.

Definition scope_policy : CondAccess.Policy :=
  CondAccess.policy "narrow" 5 false CondAccess.any_request
    {| at_Allow := true; at_Deny := false; at_RequireStepUp := ""; at_RestrictScopes := ["openid"; "profile"]; at_Log := false |}.

Definition web_token : RefreshToken := {|
  rt_UserID := "alice"; rt_ClientID := "app"; rt_Provider := "pwd"; rt_Scopes := ["openid"; "profile"; "email"];
  rt_Attributes := ∅; rt_IssuedAt := 1; rt_ExpiresAt := 1000; rt_FamilyID := "fam"; rt_JTI := "jti"; rt_Resources := [];
  rt_AuthorizationDetails := ""; rt_SID := "s1"; rt_Amr := ["pwd"]; rt_Acr := ""; rt_AuthTime := 1; rt_ConfirmationJKT := "";
  rt_Generation := 1; rt_FamilyCreatedAt := 1; rt_Roles := [] |}.

Definition web_store : MemoryRefreshTokenStore := (RefreshStore.Issue "t1" (Some web_token) (NewMemoryRefreshTokenStore 2 50 0)).2.

Lemma refresh_obeys_policies_witness :
  exists newtok i',
    rs_live (sv_refresh (w_srv (HandleRefreshGrant
      (with_policy_gates (fun _ : unit => Some web_reader) web_signals 10 (fun _ => Some (Some global_policies))
         (fun _ => Some (CondAccess.sample_config, Some [scope_policy])) sample_deps)
      (sample_refresh "t1" "t2") (sample_world web_store grace10 10)).2)) newtok = Some i' /\
    rt_Scopes i' ⊆ ["openid"; "email"].
Proof.
  set (d := with_policy_gates _ _ _ _ _ _). set (w := sample_world web_store grace10 10).
  assert (exists b, w_out (HandleRefreshGrant d (sample_refresh "t1" "t2") w).2 = w_out w ++ [ROK b]) as [b Hb]
    by (eexists; vm_compute; reflexivity).
  destruct (refresh_obeys_policies (fun _ : unit => Some web_reader) web_signals 10 (fun _ => Some (Some global_policies))
    (fun _ => Some (CondAccess.sample_config, Some [scope_policy])) sample_deps (sample_refresh "t1" "t2") w
    (HandleRefreshGrant d (sample_refresh "t1" "t2") w).2 web_token b) as (newtok & i' & _ & Hl & _ & Hceil & _).
  - vm_compute. reflexivity.
  - vm_compute. reflexivity.
  - by destruct (HandleRefreshGrant _ _ w) as [[] ?].
  - exact Hb.
  - exists newtok, i'. split; [exact Hl|]. apply (Hceil web_reader web_session); try reflexivity; try discriminate.
Defined.
