(* ===== verification/JwtIssuer.v ===== *)
(** * JwtIssuer: the signing token issuers
    ([infrastructure/defaultimpl]: [ed25519_issue.go], [ed25519_validate.go],
    [ed25519_jwt_issuer.go], [ed25519_types.go], the parts of the ES256 and RSA issuers
    that differ, [issue_payload.go], [validate_claims.go], [revocation_set.go]).

    The three issuers share this code but for the record [Variant].  Signing, signature
    verification and [encoding/json] are arguments of the section.  The revocation
    store is the in-memory one; writing to it may fail, which the issuers ignore. *)
From S2P Require Import Prelude Crypto Core Lifecycle RefreshStore CodeStores DeviceCodes CibaStore Issue RefreshIface GraceCache Scopes GrantCore JTIReplay Jose ExchangeDeps.
Local Open Scope Z_scope.

(** ** Time *)

(** [time.Unix(s, 0)] and [t.Unix()]. *)
Definition Unix (s : Z) : Z := unixEpoch + s * GoTime.Second.
Definition unix (t : Z) : Z := (t - unixEpoch) / GoTime.Second.

Lemma unix_Unix s : unix (Unix s) = s.
Proof. unfold unix, Unix. replace (unixEpoch + s * GoTime.Second - unixEpoch) with (s * GoTime.Second) by lia. by apply Z.div_mul. Qed.
Lemma unix_le t u : t <= u -> unix t <= unix u.
Proof. intros. unfold unix. apply Z.div_le_mono; unfold GoTime.Second; lia. Qed.
Lemma unix_lt_spec s t : s < unix t <-> Unix s + GoTime.Second <= t.
Proof.
  unfold unix, Unix, GoTime.Second. split; intros H.
  - assert (s + 1 <= (t - unixEpoch) / 1000000000) as H' by lia.
    pose proof (Z.mul_div_le (t - unixEpoch) 1000000000 ltac:(lia)). lia.
  - assert (s + 1 <= (t - unixEpoch) / 1000000000); [|lia]. apply Z.div_le_lower_bound; lia.
Qed.

(** ** The wire format *)

Definition jwtTyp : string := "JWT".
Definition jwtTypAT : string := "at+jwt".
Definition JWTTypBrowserSession : string := "snaplink-op-session+jwt".
Definition supportedJWTTypes : list string := [jwtTypAT; "application/at+jwt"; jwtTyp].

Record Header := { h_Alg : string; h_Typ : string; h_Kid : string }.

(** [None] for the pointer [CNF] is no confirmation; the chain of [act] objects is the
    type of [core.ActorClaim]. *)
Record Payload := {
  p_Iss : string;
  p_Sub : string;
  p_Aud : list string;
  p_Exp : Z;
  p_Nbf : Z;
  p_Iat : Z;
  p_Scope : string;
  p_GrantedResources : list string;
  p_Extra : gmap string string;
  p_ClientID : string;
  p_JTI : string;
  p_AuthTime : Z;
  p_ACR : string;
  p_AMR : list string;
  p_SID : string;
  p_CNF : option (string * string);
  p_ServingRegion : string;
  p_TenantID : string;
  p_Roles : list string;
  p_AuthorizationDetails : string;
  p_Act : ActorClaim;
  p_RequestedClaims : string;
}.

(** [actorChainToWire] and [wireChainToActor]: the chain ends at the first nil or empty
    subject. *)
Fixpoint actorChainToWire (a : ActorClaim) : ActorClaim :=
  match a with
  | ActorNil => ActorNil
  | Actor sub act => if decide (sub = "") then ActorNil else Actor sub (actorChainToWire act)
  end.
Definition wireChainToActor : ActorClaim -> ActorClaim := actorChainToWire.

(** [claimsWithoutEmittedKeys]. *)
Definition claimsWithoutEmittedKeys (s : Subject) : gmap string string :=
  let claims := if decide (su_TenantID s = "") then su_Claims s else delete "tenant_id" (su_Claims s) in
  if decide (su_Roles s = []) then claims else delete "roles" claims.

Definition confirmation (jkt x5t : string) : option (string * string) :=
  if bool_decide (jkt = "") && bool_decide (x5t = "") then None else Some (jkt, x5t).

(** [buildAccessPayload] with [applyOptionalClaims]. *)
Definition buildAccessPayload (issuer : string) (s : Subject) (scopes : list string) (jti : string) (now expiresAt : Z) : Payload := {|
  p_Iss := issuer; p_Sub := su_ID s; p_Aud := su_Resources s; p_Exp := unix expiresAt; p_Nbf := unix now; p_Iat := unix now;
  p_Scope := Str.join scopes; p_GrantedResources := []; p_Extra := claimsWithoutEmittedKeys s; p_ClientID := su_ClientID s; p_JTI := jti;
  p_AuthTime := (if GoTime.IsZero (su_AuthTime s) then 0 else unix (su_AuthTime s)); p_ACR := su_ACR s; p_AMR := su_AMR s; p_SID := su_SID s;
  p_CNF := confirmation (su_ConfirmationJKT s) (su_ConfirmationX5TS256 s); p_ServingRegion := su_ServingRegion s;
  p_TenantID := su_TenantID s; p_Roles := su_Roles s; p_AuthorizationDetails := su_AuthorizationDetails s;
  p_Act := actorChainToWire (su_Actor s); p_RequestedClaims := su_RequestedClaims s |}.

Definition TokenUseBrowserSession : string := "browser_op_session".

Definition tokenUseFromPayload (p : Payload) (typ : string) : string :=
  if decide (typ = JWTTypBrowserSession) then TokenUseBrowserSession
  else if bool_decide (typ = jwtTypAT) || bool_decide (typ = "application/at+jwt") then TokenUseAccessToken
  else if decide (typ = jwtTyp) then
    if negb (bool_decide (p_ClientID p = "")) || negb (bool_decide (p_JTI p = "")) || bool_decide (is_Some (p_CNF p))
    then TokenUseAccessToken else TokenUseIDToken
  else TokenUseUnknown.

Definition claimsFromPayload (p : Payload) (typ : string) : TokenClaims := {|
  tc_TokenUse := tokenUseFromPayload p typ; tc_Subject := p_Sub p; tc_Issuer := p_Iss p; tc_Audience := p_Aud p;
  tc_Scopes := (if decide (p_Scope p = "") then [] else Str.split (p_Scope p)); tc_Resources := p_GrantedResources p;
  tc_ExpiresAt := Unix (p_Exp p); tc_NotBefore := Unix (p_Nbf p); tc_IssuedAt := Unix (p_Iat p); tc_Extra := p_Extra p;
  tc_ClientID := p_ClientID p; tc_JTI := p_JTI p; tc_AuthTime := (if 0 <? p_AuthTime p then Unix (p_AuthTime p) else 0);
  tc_ACR := p_ACR p; tc_AMR := p_AMR p; tc_SID := p_SID p; tc_ServingRegion := p_ServingRegion p; tc_TenantID := p_TenantID p;
  tc_ConfirmationJKT := from_option fst "" (p_CNF p); tc_ConfirmationX5TS256 := from_option snd "" (p_CNF p);
  tc_AuthorizationDetails := p_AuthorizationDetails p; tc_Actor := wireChainToActor (p_Act p); tc_MayAct := ActorNil;
  tc_RequestedClaims := p_RequestedClaims p |}.

(** ** The deny-set *)

Notation RevocationSet := (gmap string Z).

(** [pruneRevoked]. *)
Definition pruneRevoked (nowUnix : Z) (m : RevocationSet) : RevocationSet := filter (fun te => nowUnix <= te.2) m.

Definition markRevoked (now : Z) (token : string) (exp : Z) (m : RevocationSet) : RevocationSet :=
  pruneRevoked (unix now) (<[token := exp]> m).

(** [MemoryRevocationStore]. *)
Definition StoreRevoke (now : Z) (token : string) (exp : Z) (s : RevocationSet) : RevocationSet := markRevoked now token exp s.
Definition StoreLoad (now : Z) (s : RevocationSet) : RevocationSet * RevocationSet := let s := pruneRevoked (unix now) s in (s, s).
Definition StorePrune (nowUnix : Z) (s : RevocationSet) : RevocationSet := pruneRevoked nowUnix s.

(** [seedRevokedFromStore] with the map the store loaded. *)
Definition seedRevoked (now : Z) (loaded m : RevocationSet) : RevocationSet :=
  filter (fun te => unix now <= te.2) loaded ∪ m.

(** ** The issuers *)

(** The algorithm stamped, those accepted, and whether [Issue] honours [Subject.NotAfter]. *)
Record Variant := { vr_Alg : string; vr_Accepts : string -> bool; vr_ClampsNotAfter : bool }.

Definition Ed25519JWTIssuer : Variant := {| vr_Alg := "EdDSA"; vr_Accepts := fun a => bool_decide (a = "EdDSA"); vr_ClampsNotAfter := true |}.
Definition ECDSAJWTIssuer : Variant := {| vr_Alg := "ES256"; vr_Accepts := fun a => bool_decide (a = "ES256"); vr_ClampsNotAfter := false |}.
Definition RSAJWTIssuer (alg : string) : Variant := {| vr_Alg := alg; vr_Accepts := fun a => bool_decide (a = alg); vr_ClampsNotAfter := false |}.

(** [accessTokenExpiry]; the seconds are truncated. *)
Definition accessTokenExpiry (now ttl notAfter : Z) : Z * Z :=
  let expiresAt := GoTime.Add now ttl in
  if negb (GoTime.IsZero notAfter) && GoTime.Before notAfter expiresAt
  then (notAfter, Z.quot (Z.max 0 (GoTime.Sub notAfter now)) GoTime.Second)
  else (expiresAt, Z.quot ttl GoTime.Second).

Definition effectiveAccessTTL (s : Subject) (defaultTTL : Z) : Z := if 0 <? su_TTL s then su_TTL s else defaultTTL.

Inductive jwt_error :=
| SubjectRequired | AudienceRequired | TypRequired | JTIFailed | SignFailed
| Malformed | TokenRevoked | HeaderDecode | HeaderParse | AlgNotAllowed | TypNotAllowed | NotOPCookie
| SignatureDecode | UnknownKid | SignatureInvalid | PayloadDecode | PayloadParse | Expired | NotYetValid
| KidEmpty | KeyInvalid | KidCollides | KidActive.

#[export] Instance jwt_error_eq_dec : EqDecision jwt_error.
Proof. solve_decision. Defined.

Record JWTIssuer {PK SK : Type} := {
  ji_signer : SK;
  ji_publicKey : PK;
  ji_keyID : string;
  ji_issuer : string;
  ji_tokenTTL : Z;
  ji_maxClockSkew : Z;
  ji_verifyKeys : gmap string PK;
  ji_peerVerifyKeys : gmap string PK;
  ji_revoked : RevocationSet;
}.
Arguments JWTIssuer : clear implicits.

(** The claims of an ID token. *)
Record IDPayload := {
  ip_Iss : string; ip_Sub : string; ip_Aud : string; ip_Exp : Z; ip_Iat : Z; ip_Nonce : string; ip_AMR : list string; ip_ACR : string;
  ip_AZP : string; ip_SID : string; ip_ServingRegion : string; ip_Extra : gmap string string; ip_Scope : string;
  ip_GrantedResources : list string; ip_AuthorizationDetails : string; ip_AuthTime : Z; ip_AtHash : string; ip_DsHash : string;
}.

Section issuer.
Context {PK SK : Type} (public : SK -> PK) (key_bytes : PK -> list Z).
Context (sign : SK -> list ascii -> option (list Z)) (verify : PK -> list ascii -> list Z -> bool).
Context (MarshalHeader : Header -> list Z) (UnmarshalHeader : list Z -> option Header).
Context (MarshalPayload : Payload -> option (list Z)) (UnmarshalPayload : list Z -> option Payload).
Context (MarshalID : IDPayload -> option (list Z)).
Context (v : Variant).
Notation JWTIssuer := (JWTIssuer PK SK).

Definition set_revoked (j : JWTIssuer) (m : RevocationSet) : JWTIssuer := {|
  ji_signer := ji_signer j; ji_publicKey := ji_publicKey j; ji_keyID := ji_keyID j; ji_issuer := ji_issuer j; ji_tokenTTL := ji_tokenTTL j;
  ji_maxClockSkew := ji_maxClockSkew j; ji_verifyKeys := ji_verifyKeys j; ji_peerVerifyKeys := ji_peerVerifyKeys j; ji_revoked := m |}.

Definition set_keys (j : JWTIssuer) (verifyKeys peers : gmap string PK) : JWTIssuer := {|
  ji_signer := ji_signer j; ji_publicKey := ji_publicKey j; ji_keyID := ji_keyID j; ji_issuer := ji_issuer j; ji_tokenTTL := ji_tokenTTL j;
  ji_maxClockSkew := ji_maxClockSkew j; ji_verifyKeys := verifyKeys; ji_peerVerifyKeys := peers; ji_revoked := ji_revoked j |}.

(** ** Keys *)

Definition fingerprintKid (pub : PK) : string := Str.of_list (Base64.RawURLEncode (take 8 (SHA256.Sum256 (key_bytes pub)))).

(** The constructor with the options a deployment sets; [kid] is empty when none was. *)
Definition NewJWTIssuer (key : SK) (kid issuer : string) (ttl skew : Z) (verifyKeys : gmap string PK) : JWTIssuer :=
  let pub := public key in
  let kid := if decide (kid = "") then fingerprintKid pub else kid in
  {| ji_signer := key; ji_publicKey := pub; ji_keyID := kid; ji_issuer := issuer; ji_tokenTTL := ttl; ji_maxClockSkew := Z.max 0 skew;
     ji_verifyKeys := <[kid := pub]> verifyKeys; ji_peerVerifyKeys := ∅; ji_revoked := ∅ |}.

Definition lookupVerifyKey (j : JWTIssuer) (kid : string) : option PK :=
  if decide (kid = "") then Some (ji_publicKey j)
  else match ji_verifyKeys j !! kid with
       | Some pub => Some pub
       | None => ji_peerVerifyKeys j !! kid
       end.

(** [priv] is the key pinned or generated, [None] when the generator fails. *)
Definition RotateKey (priv : option SK) (j : JWTIssuer) : result jwt_error string * JWTIssuer :=
  match priv with
  | None => (Err KeyInvalid, j)
  | Some priv =>
      let pub := public priv in
      let newKID := fingerprintKid pub in
      let demoted := if decide (ji_keyID j = "") then ji_verifyKeys j else <[ji_keyID j := ji_publicKey j]> (ji_verifyKeys j) in
      (Ok newKID,
       {| ji_signer := priv; ji_publicKey := pub; ji_keyID := newKID; ji_issuer := ji_issuer j; ji_tokenTTL := ji_tokenTTL j;
          ji_maxClockSkew := ji_maxClockSkew j; ji_verifyKeys := <[newKID := pub]> demoted; ji_peerVerifyKeys := ji_peerVerifyKeys j;
          ji_revoked := ji_revoked j |})
  end.

Definition RetireKey (kid : string) (j : JWTIssuer) : result jwt_error () * JWTIssuer :=
  if decide (kid = ji_keyID j) then (Err KidActive, j)
  else (Ok (), set_keys j (delete kid (ji_verifyKeys j)) (ji_peerVerifyKeys j)).

(** [pub] is [None] for a key that is nil or of the wrong length. *)
Definition AdoptVerifyKey (kid : string) (pub : option PK) (j : JWTIssuer) : result jwt_error () * JWTIssuer :=
  if decide (kid = "") then (Err KidEmpty, j)
  else match pub with
       | None => (Err KeyInvalid, j)
       | Some pub =>
           if bool_decide (kid = ji_keyID j) || bool_decide (is_Some (ji_verifyKeys j !! kid)) then (Err KidCollides, j)
           else (Ok (), set_keys j (ji_verifyKeys j) (<[kid := pub]> (ji_peerVerifyKeys j)))
       end.

Definition DropVerifyKey (kid : string) (j : JWTIssuer) : JWTIssuer := set_keys j (ji_verifyKeys j) (delete kid (ji_peerVerifyKeys j)).

(** ** Issuing *)

Definition dot : ascii := "."%char.

Definition signCompactJWS (key : SK) (header : list Z) (payload : option (list Z)) : result jwt_error string :=
  match payload with
  | None => Err SignFailed
  | Some payload =>
      let input := Base64.RawURLEncode header ++ dot :: Base64.RawURLEncode payload in
      match sign key input with
      | None => Err SignFailed
      | Some sig => Ok (Str.of_list (input ++ dot :: Base64.RawURLEncode sig))
      end
  end.

(** [subject] is [None] for nil; [jti] is the identifier drawn, [None] when that fails. *)
Definition Issue (now : Z) (jti : option string) (subject : option Subject) (scopes : list string) (j : JWTIssuer) : result jwt_error Token :=
  match subject with
  | None => Err SubjectRequired
  | Some s =>
      if decide (su_ID s = "") then Err SubjectRequired
      else
        let ttl := effectiveAccessTTL s (ji_tokenTTL j) in
        let '(expiresAt, expiresIn) := accessTokenExpiry now ttl (if vr_ClampsNotAfter v then su_NotAfter s else 0) in
        match jti with
        | None => Err JTIFailed
        | Some jti =>
            let payload := buildAccessPayload (ji_issuer j) s scopes jti now expiresAt in
            token ← signCompactJWS (ji_signer j) (MarshalHeader {| h_Alg := vr_Alg v; h_Typ := jwtTypAT; h_Kid := ji_keyID j |}) (MarshalPayload payload);
            Ok {| tk_AccessToken := token; tk_TokenType := "Bearer"; tk_RefreshToken := ""; tk_ExpiresIn := expiresIn;
                  tk_Scope := p_Scope payload; tk_CreatedAt := now |}
        end
  end.

(** [accessTokenHash] is the hash the device secrets are bound with. *)
Definition accessTokenHash (alg token : string) : string := dsHash alg token.

Definition buildIDPayload (j : JWTIssuer) (now : Z) (r : IDTokenRequest) : IDPayload :=
  let ttl := if ir_TTL r <=? 0 then ji_tokenTTL j else ir_TTL r in {|
  ip_Iss := ji_issuer j; ip_Sub := ir_Subject r; ip_Aud := ir_Audience r; ip_Exp := unix (GoTime.Add now ttl); ip_Iat := unix now;
  ip_Nonce := ir_Nonce r; ip_AMR := ir_AMR r; ip_ACR := ir_ACR r; ip_AZP := ir_AZP r; ip_SID := ir_SID r; ip_ServingRegion := ir_ServingRegion r;
  ip_Extra := ir_Claims r; ip_Scope := Str.join (ir_GrantedScopes r); ip_GrantedResources := ir_GrantedResources r;
  ip_AuthorizationDetails := ir_AuthorizationDetails r; ip_AuthTime := (if GoTime.IsZero (ir_AuthTime r) then 0 else unix (ir_AuthTime r));
  ip_AtHash := accessTokenHash (vr_Alg v) (ir_AccessToken r); ip_DsHash := accessTokenHash (vr_Alg v) (ir_DeviceSecret r) |}.

Definition IssueIDToken (now : Z) (req : option IDTokenRequest) (j : JWTIssuer) : result jwt_error string :=
  match req with
  | None => Err AudienceRequired
  | Some r =>
      if bool_decide (ir_Subject r = "") || bool_decide (ir_Audience r = "") then Err AudienceRequired
      else signCompactJWS (ji_signer j) (MarshalHeader {| h_Alg := vr_Alg v; h_Typ := jwtTyp; h_Kid := ji_keyID j |}) (MarshalID (buildIDPayload j now r))
  end.

(** [SignJWT]: any claims under a type the caller names. *)
Definition SignJWT (typ : string) (claims : option (list Z)) (j : JWTIssuer) : result jwt_error string :=
  if decide (typ = "") then Err TypRequired
  else signCompactJWS (ji_signer j) (MarshalHeader {| h_Alg := vr_Alg v; h_Typ := typ; h_Kid := ji_keyID j |}) claims.

(** ** Validating *)

Definition parseAndGuardHeader (header : list ascii) (browserSession : bool) : result jwt_error Header :=
  match RawURLDecode header with
  | None => Err HeaderDecode
  | Some bytes =>
      match UnmarshalHeader bytes with
      | None => Err HeaderParse
      | Some h =>
          if negb (vr_Accepts v (h_Alg h)) then Err AlgNotAllowed
          else if browserSession then if decide (h_Typ h = JWTTypBrowserSession) then Ok h else Err NotOPCookie
          else if negb (bool_decide (h_Typ h = "")) && negb (contains supportedJWTTypes (h_Typ h)) then Err TypNotAllowed
          else Ok h
      end
  end.

Definition verifySignature (j : JWTIssuer) (h : Header) (p0 p1 p2 : list ascii) : result jwt_error () :=
  match RawURLDecode p2 with
  | None => Err SignatureDecode
  | Some sig =>
      match lookupVerifyKey j (h_Kid h) with
      | None => Err UnknownKid
      | Some pub => if verify pub (p0 ++ dot :: p1) sig then Ok () else Err SignatureInvalid
      end
  end.

Definition decodeAndCheckClaims (now : Z) (j : JWTIssuer) (payload : list ascii) : result jwt_error Payload :=
  match RawURLDecode payload with
  | None => Err PayloadDecode
  | Some bytes =>
      match UnmarshalPayload bytes with
      | None => Err PayloadParse
      | Some p =>
          if negb (p_Exp p =? 0) && (ji_maxClockSkew j <=? GoTime.Since now (Unix (p_Exp p))) then Err Expired
          else if negb (p_Nbf p =? 0) && (ji_maxClockSkew j <? GoTime.Sub (Unix (p_Nbf p)) now) then Err NotYetValid
          else Ok p
      end
  end.

Definition validateJWT (now : Z) (token : string) (browserSession : bool) (j : JWTIssuer) : result jwt_error TokenClaims :=
  match jws_parts token with
  | [p0; p1; p2] =>
      if ji_revoked j !! token then Err TokenRevoked
      else
        h ← parseAndGuardHeader p0 browserSession;
        _ ← verifySignature j h p0 p1 p2;
        p ← decodeAndCheckClaims now j p1;
        Ok (claimsFromPayload p (h_Typ h))
  | _ => Err Malformed
  end.

Definition Validate (now : Z) (token : string) (j : JWTIssuer) : result jwt_error TokenClaims := validateJWT now token false j.
Definition ValidateBrowserSession (now : Z) (token : string) (j : JWTIssuer) : result jwt_error TokenClaims := validateJWT now token true j.

(** [AcceptsTokenFormat]: exactly two dots. *)
Definition AcceptsTokenFormat (token : string) : bool :=
  negb (bool_decide (token = "")) && (length (jws_parts token) =? 3)%nat.

(** ** Revoking *)

(** [store] is the revocation store, if any; [stored] tells whether it took the entry. *)
Definition Revoke (now : Z) (stored : bool) (token : string) (js : JWTIssuer * option RevocationSet)
    : result jwt_error () * (JWTIssuer * option RevocationSet) :=
  let '(j, store) := js in
  match Validate now token j with
  | Err e => (Err e, js)
  | Ok claims =>
      let exp := unix (tc_ExpiresAt claims) in
      (Ok (), (set_revoked j (markRevoked now token exp (ji_revoked j)),
               if stored then StoreRevoke now token exp <$> store else store))
  end.

Definition SeedRevocations (now : Z) (js : JWTIssuer * option RevocationSet) : JWTIssuer * option RevocationSet :=
  let '(j, store) := js in
  match store with
  | None => js
  | Some s => let '(loaded, s) := StoreLoad now s in (set_revoked j (seedRevoked now loaded (ji_revoked j)), Some s)
  end.

(** ** Compact tokens *)

Definition compact (h p s : list ascii) : string := Str.of_list (h ++ dot :: p ++ dot :: s).

Lemma split_dots_app a b acc : dot ∉ a -> split_dots (a ++ dot :: b) acc = (acc ++ a) :: split_dots b [].
Proof.
  revert acc. induction a as [|c a IH]; intros acc Ha.
  - cbn. destruct (decide (dot = dot)); [by rewrite app_nil_r|done].
  - apply not_elem_of_cons in Ha as [Hc Ha]. cbn. destruct (decide (c = "."%char)) as [->|]; [done|]. rewrite IH by done. by rewrite <- app_assoc.
Qed.
Lemma split_dots_last a acc : dot ∉ a -> split_dots a acc = [acc ++ a].
Proof.
  revert acc. induction a as [|c a IH]; intros acc Ha; cbn; [by rewrite app_nil_r|].
  apply not_elem_of_cons in Ha as [Hc Ha]. destruct (decide (c = "."%char)) as [->|]; [done|]. rewrite IH by done. by rewrite <- app_assoc.
Qed.
Lemma compact_parts h p s : dot ∉ h -> dot ∉ p -> dot ∉ s -> jws_parts (compact h p s) = [h; p; s].
Proof.
  intros Hh Hp Hs. unfold jws_parts, compact. rewrite Str.to_of_list.
  rewrite split_dots_app, split_dots_app, split_dots_last by done. done.
Qed.

(** What [strings.Split] gives joins back to the text. *)
Fixpoint join_dots (parts : list (list ascii)) : list ascii :=
  match parts with [] => [] | [p] => p | p :: parts => p ++ dot :: join_dots parts end.
Lemma split_dots_join s acc : join_dots (split_dots s acc) = acc ++ s /\ Forall (fun p => dot ∉ p) (drop 1 (split_dots s acc)) /\
  exists p ps, split_dots s acc = p :: ps /\ (dot ∉ acc -> dot ∉ p).
Proof.
  revert acc. induction s as [|c s IH]; intros acc.
  - cbn. rewrite app_nil_r. split_and!; [done|constructor|by do 2 eexists].
  - cbn [split_dots]. destruct (decide (c = "."%char)) as [->|Hc].
    + destruct (IH []) as (Hj & Hf & p & ps & E & Hp). rewrite E in *. cbn in Hf.
      change (join_dots (acc :: p :: ps)) with (acc ++ dot :: join_dots (p :: ps)). rewrite Hj.
      split_and!; [done| |by do 2 eexists]. cbn. constructor; [apply Hp, not_elem_of_nil|exact Hf].
    + destruct (IH (acc ++ [c])) as (Hj & Hf & p & ps & E & Hp). rewrite E in *. rewrite Hj, <- app_assoc. split_and!; [done|exact Hf|].
      do 2 eexists. split; [done|]. intros Ha. apply Hp. rewrite elem_of_app, list_elem_of_singleton. intros [?|<-]; done.
Qed.
Lemma parts_compact token h p s : jws_parts token = [h; p; s] -> token = compact h p s /\ dot ∉ h /\ dot ∉ p /\ dot ∉ s.
Proof.
  unfold jws_parts. destruct (split_dots_join (Str.to_list token) []) as (Hj & Hf & x & xs & E & Hx). intros Hp. rewrite Hp in *.
  injection E as <- <-. cbn in Hj, Hf. apply Forall_cons in Hf as [Hf1 Hf2]. apply Forall_cons in Hf2 as [Hf2 _]. split_and!; [|apply Hx, not_elem_of_nil|done..].
  unfold compact. by rewrite Hj, Str.of_to_list.
Qed.

Lemma encoded_no_dot bs : dot ∉ Base64.RawURLEncode bs.
Proof.
  rewrite RawURLEncode_sextets. intros (x & Hx & _)%list_elem_of_fmap. pose proof (digit_spec x) as [H _]. rewrite <- Hx in H. vm_compute in H. discriminate.
Qed.

(** The payload behind a token, and the second it expires at. *)
Definition token_payload (token : string) : option Payload :=
  match jws_parts token with [_; p; _] => bytes ← RawURLDecode p; UnmarshalPayload bytes | _ => None end.

Lemma validate_payload now token browser j c :
  validateJWT now token browser j = Ok c -> exists p h, token_payload token = Some p /\ c = claimsFromPayload p (h_Typ h) /\
    ji_revoked j !! token = None /\ decodeAndCheckClaims now j (nth 1 (jws_parts token) []) = Ok p.
Proof.
  unfold validateJWT, token_payload. destruct (jws_parts token) as [|p0 [|p1 [|p2 [|]]]]; try done.
  destruct (ji_revoked j !! token) eqn:Hr; [done|]. destruct (parseAndGuardHeader p0 browser) as [h|]; [|done]. cbn.
  destruct (verifySignature j h p0 p1 p2); [|done]. cbn. destruct (decodeAndCheckClaims now j p1) as [p|] eqn:Hd; [|done]. intros [= <-].
  exists p, h. split_and!; try done. unfold decodeAndCheckClaims in Hd. destruct (RawURLDecode p1); [|done]. cbn.
  destruct (UnmarshalPayload l); [|done]. by repeat (case_match; try done); injection Hd as ->.
Qed.

(** ** Runs of an issuer *)

Notation State := (JWTIssuer * option RevocationSet)%type.

(** What happens to an issuer and its store as time passes: revocations, its own and
    those of the other replicas on the store, seeding, restarts that seed, pruning and
    changes of keys. *)
Inductive jwt_step : Z * State -> Z * State -> Prop :=
| step_revoke t t' stored token js : t <= t' -> jwt_step (t, js) (t', (Revoke t' stored token js).2)
| step_seed t t' js : t <= t' -> jwt_step (t, js) (t', SeedRevocations t' js)
| step_restart t t' j s : t <= t' -> jwt_step (t, (j, Some s)) (t', SeedRevocations t' (set_revoked j ∅, Some s))
| step_prune t t' j s : t <= t' -> jwt_step (t, (j, Some s)) (t', (j, Some (StorePrune (unix t') s)))
| step_peer t t' j s token p : t <= t' -> token_payload token = Some p ->
    jwt_step (t, (j, Some s)) (t', (j, Some (StoreRevoke t' token (p_Exp p) s)))
| step_rotate t priv j s : jwt_step (t, (j, s)) (t, ((RotateKey priv j).2, s))
| step_retire t kid j s : jwt_step (t, (j, s)) (t, ((RetireKey kid j).2, s))
| step_adopt t kid pub j s : jwt_step (t, (j, s)) (t, ((AdoptVerifyKey kid pub j).2, s))
| step_drop t kid j s : jwt_step (t, (j, s)) (t, (DropVerifyKey kid j, s)).

(** ** The deny-set holds a token until it expires *)

Lemma prune_lookup n (m : RevocationSet) token e : pruneRevoked n m !! token = Some e <-> m !! token = Some e /\ n <= e.
Proof. unfold pruneRevoked. by rewrite map_lookup_filter_Some. Qed.

(** [m] denies [token], which expires in the second [e], as long as that matters at [t]. *)
Definition denies (t : Z) (token : string) (e : Z) (m : RevocationSet) : Prop :=
  (forall e', m !! token = Some e' -> e' = e) /\ (m !! token = Some e \/ e < unix t).

Lemma denies_later t t' token e m : t <= t' -> denies t token e m -> denies t' token e m.
Proof. intros Ht [H1 H2]. pose proof (unix_le t t' Ht). split; [done|]. destruct H2; [by left|right; lia]. Qed.
Lemma denies_prune t t' token e m : t <= t' -> denies t token e m -> denies t' token e (pruneRevoked (unix t') m).
Proof.
  intros Ht Hm. destruct (denies_later t t' token e m Ht Hm) as [H1 H2]. split.
  - intros e' [He _]%prune_lookup. by apply H1.
  - destruct (decide (e < unix t')); [by right|]. destruct H2 as [H2|]; [|by right]. left. apply prune_lookup. split; [done|lia].
Qed.
Lemma denies_mark t t' token e m tok e0 : t <= t' -> (tok = token -> e0 = e) -> denies t token e m -> denies t' token e (markRevoked t' tok e0 m).
Proof.
  intros Ht He Hm. unfold markRevoked. apply (denies_prune t t'); [done|]. destruct Hm as [H1 H2].
  destruct (decide (tok = token)) as [->|Hne].
  - rewrite (He eq_refl). split; [intros e'; rewrite lookup_insert_eq; congruence|left; apply lookup_insert_eq].
  - unfold denies. by rewrite lookup_insert_ne.
Qed.
Lemma marked_denies t token e m : denies t token e (markRevoked t token e m).
Proof.
  unfold markRevoked. apply (denies_prune t t); [lia|]. split; [intros e'; rewrite lookup_insert_eq; congruence|left; apply lookup_insert_eq].
Qed.
Lemma denies_seed t t' token e loaded m : t <= t' -> denies t token e loaded -> denies t token e m -> denies t' token e (seedRevoked t' loaded m).
Proof.
  intros Ht Hl Hm. apply (denies_prune t t') in Hl as [L1 L2]; [|done]. apply (denies_later t t') in Hm as [M1 M2]; [|done].
  unfold seedRevoked. fold (pruneRevoked (unix t') loaded). split.
  - intros e' [He|[_ He]]%lookup_union_Some_raw; auto.
  - destruct L2 as [L2|]; [|by right]. left. apply lookup_union_Some_raw. by left.
Qed.

Definition revoked_ok (token : string) (e : Z) (ts : Z * State) : Prop :=
  let '(t, (j, store)) := ts in
  denies t token e (ji_revoked j) /\ forall s, store = Some s -> denies t token e s.

Lemma revoke_shape t stored tok j store :
  let '(j', store') := (Revoke t stored tok (j, store)).2 in
  (j' = j /\ store' = store) \/
  exists p, token_payload tok = Some p /\ j' = set_revoked j (markRevoked t tok (p_Exp p) (ji_revoked j)) /\
    store' = if stored then StoreRevoke t tok (p_Exp p) <$> store else store.
Proof.
  unfold Revoke. destruct (Validate t tok j) as [c|] eqn:Hv; cbn [snd]; [|by left]. right.
  apply validate_payload in Hv as (p & h & Hp & -> & _). exists p. cbn [tc_ExpiresAt claimsFromPayload]. by rewrite unix_Unix.
Qed.

Lemma seed_ok t t' token e j store : t <= t' -> revoked_ok token e (t, (j, store)) ->
  revoked_ok token e (t', SeedRevocations t' (j, store)).
Proof.
  intros Ht [Hj Hs]. unfold SeedRevocations. destruct store as [s|]; cbn.
  - specialize (Hs s eq_refl). pose proof (denies_prune t t' _ _ _ Ht Hs) as Hp. split.
    + by apply (denies_seed t'); [|done|apply (denies_later t)].
    + by intros s' [= <-].
  - split; [by apply (denies_later t)|done].
Qed.

Lemma jwt_step_ok token p ts ts' : token_payload token = Some p ->
  jwt_step ts ts' -> revoked_ok token (p_Exp p) ts -> revoked_ok token (p_Exp p) ts' /\ ts.1 <= ts'.1.
Proof.
  intros Hp Hstep. destruct Hstep as [t t' stored tok [j store] Ht|t t' [j store] Ht|t t' j s Ht|t t' j s Ht|t t' j s tok p' Ht Hp'|t priv j s|t kid j s|t kid pub j s|t kid j s];
    intros [Hj Hs]; (split; [|cbn; lia]).
  - pose proof (revoke_shape t' stored tok j store) as Hr. destruct (Revoke t' stored tok (j, store)).2 as [j' store'].
    destruct Hr as [[-> ->]|(p' & Hp' & -> & ->)]; [by split; [|intros]; eapply denies_later; eauto|].
    assert (tok = token -> p_Exp p' = p_Exp p) as He by congruence. split; [by apply (denies_mark t)|].
    intros s' Hs'. destruct stored; [|by eapply denies_later; eauto]. destruct store as [s|]; [|done]. injection Hs' as <-.
    apply (denies_mark t); auto.
  - apply (seed_ok t); [done|by split].
  - specialize (Hs s eq_refl). unfold SeedRevocations. cbn. pose proof (denies_prune t t' _ _ _ Ht Hs) as Hd. split; [|by intros s' [= <-]].
    unfold seedRevoked. rewrite map_union_empty. by apply (denies_prune t').
  - split; [by apply (denies_later t)|]. intros s' [= <-]. by apply (denies_prune t); auto.
  - split; [by apply (denies_later t)|]. intros s' [= <-]. apply (denies_mark t); auto. congruence.
  - by destruct priv.
  - cbn. unfold RetireKey. by destruct (decide _).
  - cbn. unfold AdoptVerifyKey. by repeat case_match.
  - done.
Qed.

Lemma revoked_set t stored tok j store :
  exists m, (Revoke t stored tok (j, store)).2.1 = set_revoked j m.
Proof.
  pose proof (revoke_shape t stored tok j store) as Hr. destruct (Revoke t stored tok (j, store)).2 as [j' store'].
  destruct Hr as [[-> _]|(p & _ & -> & _)]; cbn; [exists (ji_revoked j)|by eexists]. by destruct j.
Qed.

Lemma jwt_step_skew ts ts' : jwt_step ts ts' -> ji_maxClockSkew ts'.2.1 = ji_maxClockSkew ts.2.1.
Proof.
  destruct 1 as [t t' stored tok [j store] Ht|t t' [j [s|]] Ht| | | |t priv j s|t kid j s|t kid pub j s|];
    [change (ji_maxClockSkew (Revoke t' stored tok (j, store)).2.1 = ji_maxClockSkew j); by destruct (revoked_set t' stored tok j store) as [m ->]
    |cbn; try done ..].
  - by destruct priv.
  - unfold RetireKey. by destruct (decide _).
  - unfold AdoptVerifyKey. by repeat case_match.
Qed.

Lemma expired_rejected now j payload p bytes : RawURLDecode payload = Some bytes -> UnmarshalPayload bytes = Some p -> p_Exp p <> 0 ->
  ji_maxClockSkew j <= GoTime.Second -> p_Exp p < unix now -> decodeAndCheckClaims now j payload = Err Expired.
Proof.
  intros Hb Hp He Hs Hlt. unfold decodeAndCheckClaims. rewrite Hb, Hp. apply unix_lt_spec in Hlt.
  rewrite (proj2 (Z.eqb_neq _ _) He). cbn [negb andb]. rewrite (proj2 (Z.leb_le _ _)); [done|].
  unfold GoTime.Since, GoTime.Sub, GoTime.maxDuration, GoTime.minDuration, GoTime.Second in *. lia.
Qed.

(** C11 — Once an issuer that tolerates at most a second of clock skew has revoked a token
    and its store has taken the entry, the token is never accepted again: not by this
    issuer as time passes, after any further revocations here or on other replicas,
    prunings and changes of keys, and not by one restarted from the store. *)
Theorem revocation_effective t token js js' claims ts :
  ji_maxClockSkew js.1 <= GoTime.Second -> Validate t token js.1 = Ok claims -> tc_ExpiresAt claims <> Unix 0 ->
  Revoke t true token js = (Ok (), js') -> rtc jwt_step (t, js') ts ->
  forall t' c, ts.1 <= t' -> Validate t' token ts.2.1 <> Ok c.
Proof.
  destruct js as [j store]. cbn [fst snd]. intros Hskew Hv Hexp Hr Hrun t' c Ht' Hc.
  destruct (validate_payload t token false j claims Hv) as (p & h & Hp & -> & _ & _). cbn in Hexp.
  assert (p_Exp p <> 0) as He by (intros E; by rewrite E in Hexp). clear Hexp.
  unfold Revoke in Hr. rewrite Hv in Hr. cbn [tc_ExpiresAt claimsFromPayload] in Hr. rewrite unix_Unix in Hr. injection Hr as <-.
  set (ts0 := (t, _)) in Hrun. assert (revoked_ok token (p_Exp p) ts0 /\ ji_maxClockSkew ts0.2.1 <= GoTime.Second) as Hok.
  { split; [|exact Hskew]. split; [apply marked_denies|]. intros s Hs. destruct store as [s0|]; [|done]. injection Hs as <-. apply marked_denies. }
  clearbody ts0. clear Hv Hskew. induction Hrun as [ts|ts0 ts1 ts Hstep _ IH].
  - destruct Hok as [Hok Hskew]. destruct ts as [t1 [j1 store1]]. cbn [fst snd] in *. destruct Hok as [[H1 H2] _].
    destruct (validate_payload t' token false j1 c Hc) as (p' & h' & Hp' & -> & Hn & Hd). assert (p' = p) as -> by congruence.
    destruct H2 as [|Hlt]; [congruence|]. pose proof (unix_le t1 t' Ht').
    unfold token_payload in Hp. destruct (jws_parts token) as [|p0 [|p1 [|p2 [|]]]]; try done. cbn [nth] in Hd.
    apply bind_Some in Hp as (bytes & Hb & Hu). rewrite (expired_rejected t' j1 p1 p bytes) in Hd; [done..|lia].
  - apply IH; [exact Ht'|exact Hc|]. destruct Hok as [Hok Hskew]. destruct (jwt_step_ok token p ts0 ts1 Hp Hstep Hok). split; [done|]. by rewrite (jwt_step_skew _ _ Hstep).
Qed.

Lemma validate_unrevoked t token browser j m : ji_revoked j !! token = None -> m !! token = None ->
  validateJWT t token browser (set_revoked j m) = validateJWT t token browser j.
Proof. intros H1 H2. unfold validateJWT. cbn [ji_revoked set_revoked]. by rewrite H1, H2. Qed.

(** Validation does not change while the issuer would still take the token. *)
Lemma validate_later t t' token browser j c : validateJWT t token browser j = Ok c -> t <= t' ->
  GoTime.Since t' (tc_ExpiresAt c) < ji_maxClockSkew j -> 0 <= ji_maxClockSkew j -> validateJWT t' token browser j = Ok c.
Proof.
  intros Hv Ht Hexp Hs. unfold validateJWT in *. destruct (jws_parts token) as [|p0 [|p1 [|p2 [|]]]]; try done.
  destruct (ji_revoked j !! token); [done|]. destruct (parseAndGuardHeader p0 browser) as [h|]; [|done]. cbn in *.
  destruct (verifySignature j h p0 p1 p2); [|done]. cbn in *. unfold decodeAndCheckClaims in *.
  destruct (RawURLDecode p1) as [bytes|]; [|done]. destruct (UnmarshalPayload bytes) as [p|]; [|done].
  destruct (_ && _) eqn:E1; [done|]. destruct (negb (p_Nbf p =? 0) && _) eqn:E2; [done|]. cbn in Hv. injection Hv as <-. cbn in Hexp.
  rewrite (proj2 (Z.leb_gt _ _) Hexp), andb_false_r. rewrite (proj2 (andb_false_iff _ _)); [done|].
  apply andb_false_iff in E2 as [E2|E2]; [by left|right]. apply Z.ltb_ge in E2. apply Z.ltb_ge.
  unfold GoTime.Sub, GoTime.maxDuration, GoTime.minDuration in *. lia.
Qed.

(** With more tolerance than that, revocation does not last: in the time between a
    second after the expiry and the end of the tolerance, revoking a token is answered
    with success and changes nothing, and revoking any other token makes an earlier
    revocation forgotten, so that the token is accepted again. *)
Theorem revocation_forgotten t token j store c stored :
  0 <= ji_maxClockSkew j -> Validate t token j = Ok c ->
  let js1 := (Revoke t stored token (j, store)).2 in
  (Revoke t stored token (j, store)).1 = Ok () /\
  (tc_ExpiresAt c + GoTime.Second <= t -> Validate t token js1.1 = Ok c) /\
  (forall t' other c' stored', t <= t' -> tc_ExpiresAt c + GoTime.Second <= t' -> GoTime.Since t' (tc_ExpiresAt c) < ji_maxClockSkew j ->
     other <> token -> Validate t' other js1.1 = Ok c' -> Validate t' token (Revoke t' stored' other js1).2.1 = Ok c).
Proof.
  intros Hskew Hv js1. destruct (validate_payload t token false j c Hv) as (p & h & Hp & Hc & Hn & _).
  assert (tc_ExpiresAt c = Unix (p_Exp p)) as Hx by (by subst c).
  assert (js1.1 = set_revoked j (markRevoked t token (p_Exp p) (ji_revoked j))) as Hj1
    by (unfold js1, Revoke; rewrite Hv, Hx, unix_Unix; done).
  assert (forall t' m, Unix (p_Exp p) + GoTime.Second <= t' -> m !! token = Some (p_Exp p) -> pruneRevoked (unix t') m !! token = None) as Hgone.
  { intros t' m Ht Hm. destruct (pruneRevoked (unix t') m !! token) eqn:E; [|done]. apply prune_lookup in E as [E He]. apply unix_lt_spec in Ht. assert (z = p_Exp p) as -> by congruence. lia. }
  split; [unfold Revoke; by rewrite Hv|]. split.
  - intros Ht. rewrite Hj1. unfold Validate. rewrite validate_unrevoked; [done|done|]. rewrite Hx in Ht. apply Hgone; [done|apply lookup_insert_eq].
  - intros t' other c' stored' Ht Ht1 Ht2 Hne Hv'. destruct js1 as [j1 store1]. cbn [fst] in *.
    destruct (validate_payload t' other false j1 c' Hv') as (p' & h' & Hp' & -> & Hn' & _). unfold Revoke. rewrite Hv'. cbn [fst snd tc_ExpiresAt claimsFromPayload].
    rewrite unix_Unix, Hj1. unfold Validate. change (set_revoked (set_revoked j _) ?m) with (set_revoked j m). rewrite validate_unrevoked.
    + by apply (validate_later t).
    + done.
    + rewrite Hx in Ht1. unfold markRevoked at 1. cbn [ji_revoked set_revoked].
      destruct (pruneRevoked (unix t') _ !! token) eqn:E; [|done]. apply prune_lookup in E as [E He]. rewrite lookup_insert_ne in E by done.
      apply prune_lookup in E as [E _]. rewrite lookup_insert_eq in E. injection E as <-. apply unix_lt_spec in Ht1. lia.
Qed.

Lemma filter_newlines (s : list ascii) n : List.filter not_newline (s ++ replicate n "010"%char) = List.filter not_newline s.
Proof. induction s as [|a s IH]; cbn; [by induction n|]. by rewrite IH. Qed.

Lemma length_of_list l : String.length (Str.of_list l) = length l.
Proof. induction l; cbn; congruence. Qed.

(** The deny-set holds the text of a token, but the signature is read through
    base64url, which skips line breaks and ignores unused bits.  After a token is revoked,
    every text with the same header and payload whose signature reads to the same bytes
    is answered as the token was before; there is always one. *)
Theorem revoked_token_alias t stored token js js' h p s :
  jws_parts token = [h; p; s] -> Revoke t stored token js = (Ok (), js') -> 
  (forall s', dot ∉ s' -> RawURLDecode s' = RawURLDecode s -> ji_revoked js'.1 !! compact h p s' = None ->
     forall t', Validate t' (compact h p s') js'.1 = Validate t' token js.1) /\
  exists s', dot ∉ s' /\ RawURLDecode s' = RawURLDecode s /\ ji_revoked js'.1 !! compact h p s' = None.
Proof.
  intros Hparts Hr. destruct js as [j store]. destruct (Validate t token j) as [c|] eqn:Hv; [|unfold Revoke in Hr; by rewrite Hv in Hr].
  destruct (validate_payload t token false j c Hv) as (p' & h' & _ & _ & Hn & _).
  destruct (revoked_set t stored token j store) as [m Hm]. rewrite Hr in Hm. cbn [fst snd] in *. rewrite Hm. clear Hr Hv Hm.
  destruct (parts_compact token h p s Hparts) as (-> & Hdh & Hdp & Hds). split.
  - intros s' Hs' Hd Hfree t'. unfold Validate, validateJWT. rewrite !compact_parts by done. cbn [ji_revoked set_revoked] in *. rewrite Hfree, Hn.
    unfold verifySignature. by rewrite Hd.
  - set (nl := "010"%char). set (n := S (max_list (String.length <$> (map_to_list m).*1))).
    assert (forall k, dot ∉ s ++ replicate k nl) as Hdot.
    { intros k. rewrite elem_of_app. intros [?|[Hnl _]%elem_of_replicate]; [done|]. vm_compute in Hnl. discriminate. }
    exists (s ++ replicate n nl). split; [apply Hdot|]. split.
    + unfold RawURLDecode. by rewrite filter_newlines.
    + cbn [ji_revoked set_revoked]. destruct (m !! compact h p (s ++ replicate n nl)) as [e|] eqn:E; [|done]. exfalso.
      apply elem_of_map_to_list in E. apply (list_elem_of_fmap_2 fst), (list_elem_of_fmap_2 String.length), max_list_elem_of_le in E. cbn [fst] in E.
      revert E. unfold compact. rewrite length_of_list, !length_app. cbn [length]. rewrite !length_app. cbn [length]. rewrite length_app, length_replicate. lia.
Qed.

(** ** What an accepted token proves *)

Lemma round_length st kw : length st = 8%nat -> length (SHA256.round st kw) = 8%nat.
Proof. intros H. by do 9 (destruct st as [|? st]; try done). Qed.
Lemma blocks_length n st ws : length st = 8%nat -> length (SHA256.blocks n st ws) = 8%nat.
Proof.
  revert st ws. induction n as [|n IH]; intros st ws H; [done|]. cbn [SHA256.blocks]. apply IH. unfold SHA256.block.
  rewrite length_zip_with. enough (length (foldl SHA256.round st (zip SHA256.K (SHA256.schedule 48 (rev (take 16 ws))))) = 8%nat) by lia.
  generalize (zip SHA256.K (SHA256.schedule 48 (rev (take 16 ws)))). intros l. revert st H.
  induction l as [|kw l IHl]; intros st H; [done|]. cbn [foldl]. by apply IHl, round_length.
Qed.
Lemma Sum256_length msg : length (SHA256.Sum256 msg) = 32%nat.
Proof.
  unfold SHA256.Sum256. pose proof (blocks_length (length (SHA256.pad msg) / 64) SHA256.H0 (SHA256.words (SHA256.pad msg)) eq_refl) as H.
  revert H. generalize (SHA256.blocks (length (SHA256.pad msg) / 64) SHA256.H0 (SHA256.words (SHA256.pad msg))). intros l H.
  do 9 (destruct l as [|? l]; try done).
Qed.

(** A token that is accepted carries a signature that one of the keys trusted at that
    moment verifies over its header and payload, an algorithm of this issuer and a type
    of the allow-list; it is not in the deny-set, not past its expiry nor before its
    start by more than the tolerance, its claims are those of the payload, and it is not
    accepted as a browser session, nor the other way round. *)
Theorem validate_sound t token j c :
  Validate t token j = Ok c ->
  (exists h p s header payload pub sig, token = compact h p s /\
    RawURLDecode h ≫= UnmarshalHeader = Some header /\ RawURLDecode p ≫= UnmarshalPayload = Some payload /\ RawURLDecode s = Some sig /\
    vr_Accepts v (h_Alg header) = true /\ (h_Typ header = "" \/ h_Typ header ∈ supportedJWTTypes) /\
    (if decide (h_Kid header = "") then pub = ji_publicKey j
     else ji_verifyKeys j !! h_Kid header = Some pub \/ ji_verifyKeys j !! h_Kid header = None /\ ji_peerVerifyKeys j !! h_Kid header = Some pub) /\
    verify pub (h ++ dot :: p) sig = true /\ c = claimsFromPayload payload (h_Typ header) /\
    (p_Exp payload <> 0 -> GoTime.Since t (tc_ExpiresAt c) < ji_maxClockSkew j) /\
    (p_Nbf payload <> 0 -> GoTime.Sub (tc_NotBefore c) t <= ji_maxClockSkew j)) /\
  ji_revoked j !! token = None /\ tc_TokenUse c <> TokenUseBrowserSession /\
  (forall t' c', ValidateBrowserSession t' token j <> Ok c').
Proof.
  unfold Validate, ValidateBrowserSession, validateJWT. destruct (jws_parts token) as [|p0 [|p1 [|p2 [|]]]] eqn:Hparts; try done.
  destruct (parts_compact token p0 p1 p2 Hparts) as (-> & _). destruct (ji_revoked j !! _); [done|].
  unfold parseAndGuardHeader at 1. destruct (RawURLDecode p0) as [hb|] eqn:Hp0; [|done]. destruct (UnmarshalHeader hb) as [h|] eqn:Hh; [|done].
  destruct (vr_Accepts v (h_Alg h)) eqn:Ha; [|done]. cbn [negb]. destruct (_ && _) eqn:Et; [done|]. cbn [mbind result_bind].
  unfold verifySignature at 1. destruct (RawURLDecode p2) as [sig|] eqn:Hp2; [|done]. destruct (lookupVerifyKey j (h_Kid h)) as [pub|] eqn:Hk; [|done].
  destruct (verify pub _ sig) eqn:Hv; [|done]. cbn [mbind result_bind].
  unfold decodeAndCheckClaims at 1. destruct (RawURLDecode p1) as [pb|] eqn:Hp1; [|done]. destruct (UnmarshalPayload pb) as [p|] eqn:Hp; [|done].
  destruct (negb (p_Exp p =? 0) && _) eqn:E1; [done|]. destruct (negb (p_Nbf p =? 0) && _) eqn:E2; [done|]. cbn. intros [= <-].
  assert (h_Typ h = "" \/ h_Typ h ∈ supportedJWTTypes) as Htyp.
  { apply andb_false_iff in Et as [Et|Et]; apply negb_false_iff in Et; [left; by apply bool_decide_eq_true in Et|right; by apply contains_spec in Et]. }
  assert (h_Typ h <> JWTTypBrowserSession) as Hnb.
  { intros E. rewrite E in Htyp. apply (bool_decide_eq_true_2 _) in Htyp. vm_compute in Htyp. discriminate. }
  split_and!; [|done| |].
  - exists p0, p1, p2, h, p, pub, sig. split_and!; try done.
    + by rewrite Hp0.
    + by rewrite Hp1.
    + unfold lookupVerifyKey in Hk. destruct (decide _); [congruence|]. destruct (ji_verifyKeys j !! h_Kid h) eqn:E; [left; congruence|by right].
    + intros He. apply andb_false_iff in E1 as [E1|E1]; [apply negb_false_iff, Z.eqb_eq in E1; lia|]. by apply Z.leb_gt in E1.
    + intros He. apply andb_false_iff in E2 as [E2|E2]; [apply negb_false_iff, Z.eqb_eq in E2; lia|]. by apply Z.ltb_ge in E2.
  - cbn. unfold tokenUseFromPayload. destruct (decide _); [done|]. by repeat case_match.
  - intros t' c'. unfold parseAndGuardHeader. rewrite Hp0, Hh, Ha. cbn [negb]. destruct (decide _); [done|]. done.
Qed.

(** ** Keys *)

(** The signing key is the one published under the current identifier. *)
Definition keys_ok (j : JWTIssuer) : Prop :=
  ji_publicKey j = public (ji_signer j) /\ ji_verifyKeys j !! ji_keyID j = Some (ji_publicKey j) /\ ji_keyID j <> "" /\ 0 <= ji_maxClockSkew j.

(** The changes of an issuer that keep the key [pub] known as [kid]: any rotation to a key
    of another fingerprint, any other retirement, and what happens to peers and the
    deny-set. *)
Inductive key_step (kid : string) (pub : PK) : JWTIssuer -> JWTIssuer -> Prop :=
| ks_rotate priv j : (fingerprintKid (public priv) = kid -> public priv = pub) -> key_step kid pub j (RotateKey (Some priv) j).2
| ks_retire kid' j : kid' <> kid -> key_step kid pub j (RetireKey kid' j).2
| ks_adopt kid' pub' j : key_step kid pub j (AdoptVerifyKey kid' pub' j).2
| ks_drop kid' j : key_step kid pub j (DropVerifyKey kid' j)
| ks_revoked m j : key_step kid pub j (set_revoked j m).

Lemma fingerprint_nonempty pub : fingerprintKid pub <> "".
Proof.
  unfold fingerprintKid. intros H. apply (f_equal String.length) in H. rewrite length_of_list in H. cbn [String.length] in H.
  rewrite RawURLEncode_sextets, length_fmap in H. apply nil_length_inv in H.
  destruct (take 8 (SHA256.Sum256 (key_bytes pub))) as [|b [|b' [|b'' l]]] eqn:E; cbn in H; try done.
  apply (f_equal length) in E. rewrite length_take, Sum256_length in E. done.
Qed.

Lemma key_step_ok kid pub j j' : key_step kid pub j j' ->
  keys_ok j /\ ji_verifyKeys j !! kid = Some pub ->
  (keys_ok j' /\ ji_verifyKeys j' !! kid = Some pub) /\ ji_maxClockSkew j' = ji_maxClockSkew j.
Proof.
  intros Hs [(Hpub & Hkey & Hid & Hskew) Hk]. destruct Hs as [priv j Hf|kid' j Hne|kid' pub' j|kid' j|m j].
  - cbn [RotateKey snd]. split; [|done]. split.
    + split_and!; cbn [ji_publicKey ji_signer ji_verifyKeys ji_keyID ji_maxClockSkew]; [done|apply lookup_insert_eq|apply fingerprint_nonempty|done].
    + cbn [ji_verifyKeys]. destruct (decide (fingerprintKid (public priv) = kid)) as [E|E]; [rewrite E, lookup_insert_eq; f_equal; auto|].
      rewrite lookup_insert_ne by done. destruct (decide _) as [|_]; [done|].
      destruct (decide (ji_keyID j = kid)) as [<-|]; [rewrite lookup_insert_eq; congruence|by rewrite lookup_insert_ne].
  - unfold RetireKey. destruct (decide _); cbn; [by split; [|done]|]. split; [|done]. split; [|by rewrite lookup_delete_ne].
    split_and!; cbn; try done. by rewrite lookup_delete_ne.
  - unfold AdoptVerifyKey. by repeat case_match.
  - by cbn.
  - by cbn.
Qed.

Lemma signCompactJWS_ok key header payload token :
  signCompactJWS key header payload = Ok token ->
  exists pb sig, payload = Some pb /\ sign key (Base64.RawURLEncode header ++ dot :: Base64.RawURLEncode pb) = Some sig /\
    token = compact (Base64.RawURLEncode header) (Base64.RawURLEncode pb) (Base64.RawURLEncode sig).
Proof.
  unfold signCompactJWS. destruct payload as [pb|]; [|done]. destruct (sign key _) as [sig|] eqn:Hs; [|done]. intros [= <-].
  exists pb, sig. split_and!; [done..|]. unfold compact. by rewrite <- app_assoc.
Qed.

Lemma key_run_ok kid pub j j' : rtc (key_step kid pub) j j' -> keys_ok j -> ji_verifyKeys j !! kid = Some pub ->
  keys_ok j' /\ ji_verifyKeys j' !! kid = Some pub /\ ji_maxClockSkew j' = ji_maxClockSkew j.
Proof.
  induction 1 as [j|j j1 j' Hs _ IH]; intros Hk Hl; [done|].
  destruct (key_step_ok kid pub j j1 Hs) as [[Hk1 Hl1] Hskew]; [done|]. destruct (IH Hk1 Hl1) as (? & ? & E). split_and!; [done..|congruence].
Qed.

Lemma Unix_unix_le t : Unix (unix t) <= t.
Proof.
  unfold Unix, unix, GoTime.Second. pose proof (Z.mul_div_le (t - unixEpoch) 1000000000 ltac:(lia)). lia.
Qed.

Lemma accessTokenExpiry_spec now ttl na :
  (accessTokenExpiry now ttl na).1 = if GoTime.IsZero na then now + ttl else Z.min (now + ttl) na.
Proof.
  unfold accessTokenExpiry, GoTime.IsZero, GoTime.Before, GoTime.Add. destruct (na =? 0) eqn:E; [done|]. cbn [negb andb].
  destruct (na <? now + ttl) eqn:E'; cbn; lia.
Qed.

(** C15 — An access token that was just issued is accepted by the issuer until the second it
    expires in, whatever keys it rotates to, retires or adopts and whatever else it
    revokes in between, and yields the identity, client, scopes, audience, session,
    delegation chain and proof-of-possession binding it was issued for.  Only the Ed25519
    issuer keeps its expiry under [Subject.NotAfter]; with the two others it is the full
    lifetime. *)
Theorem jwt_roundtrip now jti s scopes j tok j' t :
  (forall k m sig, sign k m = Some sig -> verify (public k) m sig = true /\ Forall is_byte sig) ->
  (forall h, Forall is_byte (MarshalHeader h) /\ UnmarshalHeader (MarshalHeader h) = Some h) ->
  vr_Accepts v (vr_Alg v) = true -> keys_ok j ->
  let e := (accessTokenExpiry now (effectiveAccessTTL s (ji_tokenTTL j)) (if vr_ClampsNotAfter v then su_NotAfter s else 0)).1 in
  let payload := buildAccessPayload (ji_issuer j) s scopes jti now e in
  (forall b, MarshalPayload payload = Some b -> Forall is_byte b /\ UnmarshalPayload b = Some payload) ->
  Issue now (Some jti) (Some s) scopes j = Ok tok ->
  rtc (key_step (ji_keyID j) (ji_publicKey j)) j j' ->
  ji_revoked j' !! tk_AccessToken tok = None -> now <= t -> t < Unix (unix e) ->
  exists c, Validate t (tk_AccessToken tok) j' = Ok c /\
    tc_TokenUse c = TokenUseAccessToken /\ tc_Subject c = su_ID s /\ tc_ClientID c = su_ClientID s /\ tc_Audience c = su_Resources s /\
    tc_SID c = su_SID s /\ tc_TenantID c = su_TenantID s /\ tc_JTI c = jti /\ tc_Actor c = actorChainToWire (su_Actor s) /\
    tc_ConfirmationJKT c = su_ConfirmationJKT s /\ tc_ConfirmationX5TS256 c = su_ConfirmationX5TS256 s /\
    (Forall Str.no_space scopes -> Str.join scopes <> "" -> tc_Scopes c = scopes) /\ (scopes = [] -> tc_Scopes c = []) /\
    (vr_ClampsNotAfter v = true -> su_NotAfter s <> 0 -> tc_ExpiresAt c <= su_NotAfter s) /\
    (vr_ClampsNotAfter v = false -> tc_ExpiresAt c = Unix (unix (now + effectiveAccessTTL s (ji_tokenTTL j)))).
Proof.
  intros Hsign Hheader Halg Hkeys e payload Hjson Hissue Hrun Hfree Hnow Ht.
  unfold Issue in Hissue. destruct (decide (su_ID s = "")); [done|].
  destruct (accessTokenExpiry now _ _) as [expiresAt expiresIn] eqn:He. cbn [fst] in e. fold e in Hissue. fold payload in Hissue.
  destruct (signCompactJWS _ _ _) as [token|] eqn:Hs; [|done]. injection Hissue as <-. cbn [tk_AccessToken] in *.
  apply signCompactJWS_ok in Hs as (pb & sig & Hpb & Hsig & ->). destruct (Hjson pb Hpb) as [Hbytes Hun]. destruct (Hsign _ _ _ Hsig) as [Hver Hsb].
  destruct Hkeys as (Hpub & Hkey & Hid & Hskew). destruct (key_run_ok _ _ j j' Hrun) as (_ & Hkey' & Hskew'); [by split_and!|done|].
  destruct (Hheader {| h_Alg := vr_Alg v; h_Typ := jwtTypAT; h_Kid := ji_keyID j |}) as [Hhb Huh].
  exists (claimsFromPayload payload jwtTypAT). split.
  - unfold Validate, validateJWT. rewrite compact_parts by apply encoded_no_dot. rewrite Hfree.
    unfold parseAndGuardHeader. rewrite RawURLDecode_RawURLEncode, Huh by done. cbn [h_Alg h_Typ h_Kid]. rewrite Halg. cbn [negb].
    change (negb (bool_decide (jwtTypAT = "")) && negb (contains supportedJWTTypes jwtTypAT)) with false. cbn [mbind result_bind].
    unfold verifySignature. rewrite RawURLDecode_RawURLEncode by done. unfold lookupVerifyKey. cbn [h_Kid]. destruct (decide _) as [|_]; [done|].
    rewrite Hkey', Hpub, Hver. cbn [mbind result_bind]. unfold decodeAndCheckClaims. rewrite RawURLDecode_RawURLEncode, Hun by done.
    assert (GoTime.Since t (Unix (p_Exp payload)) < ji_maxClockSkew j') as Hexp.
    { cbn [p_Exp payload buildAccessPayload]. rewrite Hskew'. unfold GoTime.Since, GoTime.Sub, GoTime.maxDuration, GoTime.minDuration. lia. }
    assert (GoTime.Sub (Unix (p_Nbf payload)) t <= ji_maxClockSkew j') as Hnbf.
    { cbn [p_Nbf payload buildAccessPayload]. pose proof (Unix_unix_le now). rewrite Hskew'. unfold GoTime.Sub, GoTime.maxDuration, GoTime.minDuration. lia. }
    rewrite (proj2 (Z.leb_gt _ _) Hexp), (proj2 (Z.ltb_ge _ _) Hnbf), !andb_false_r. done.
  - assert (e = if GoTime.IsZero (if vr_ClampsNotAfter v then su_NotAfter s else 0) then now + effectiveAccessTTL s (ji_tokenTTL j)
                else Z.min (now + effectiveAccessTTL s (ji_tokenTTL j)) (if vr_ClampsNotAfter v then su_NotAfter s else 0)) as Hexp.
    { rewrite <- accessTokenExpiry_spec, He. done. }
    cbn [claimsFromPayload payload buildAccessPayload tc_TokenUse tc_Subject tc_ClientID tc_Audience tc_SID tc_TenantID tc_JTI tc_Actor tc_ConfirmationJKT
      tc_ConfirmationX5TS256 tc_Scopes tc_ExpiresAt p_Sub p_ClientID p_Aud p_SID p_TenantID p_JTI p_Act p_CNF p_Scope p_Exp].
    split_and!; try done.
    + unfold wireChainToActor. induction (su_Actor s) as [|sub act IH]; cbn; [done|]. destruct (decide (sub = "")); cbn; [done|]. destruct (decide (sub = "")); [done|]. by rewrite IH.
    + unfold confirmation. destruct (bool_decide (su_ConfirmationJKT s = "")) eqn:E1, (bool_decide (su_ConfirmationX5TS256 s = "")) eqn:E2; cbn; try done.
      by apply bool_decide_eq_true in E1.
    + unfold confirmation. destruct (bool_decide (su_ConfirmationJKT s = "")) eqn:E1, (bool_decide (su_ConfirmationX5TS256 s = "")) eqn:E2; cbn; try done.
      by apply bool_decide_eq_true in E2.
    + intros Hsp Hne. destruct (decide _) as [|_]; [done|]. apply Str.split_join; [by intros ->|done].
    + intros ->. done.
    + intros Hc Hn. rewrite Hc in Hexp. unfold GoTime.IsZero in Hexp. rewrite (proj2 (Z.eqb_neq _ _) Hn) in Hexp. pose proof (Unix_unix_le e). lia.
    + intros Hc. rewrite Hc in Hexp. cbn in Hexp. by rewrite Hexp.
Qed.

(** Validation reads the type that was signed. *)
Lemma signed_typ key typ alg kid payload token j t c :
  (forall h, Forall is_byte (MarshalHeader h) /\ UnmarshalHeader (MarshalHeader h) = Some h) ->
  signCompactJWS key (MarshalHeader {| h_Alg := alg; h_Typ := typ; h_Kid := kid |}) payload = Ok token ->
  Validate t token j = Ok c ->
  (typ = "" \/ typ ∈ supportedJWTTypes) /\ exists pb p, payload = Some pb /\
    (Forall is_byte pb -> UnmarshalPayload pb = Some p) /\ c = claimsFromPayload p typ.
Proof.
  intros Hheader (pb & sig & -> & _ & ->)%signCompactJWS_ok Hv. set (hd := {| h_Alg := alg; h_Typ := typ; h_Kid := kid |}) in *.
  unfold Validate, validateJWT in Hv. rewrite compact_parts in Hv by apply encoded_no_dot.
  destruct (ji_revoked j !! _); [done|]. destruct (Hheader hd) as [Hb Hu]. unfold parseAndGuardHeader in Hv.
  rewrite RawURLDecode_RawURLEncode, Hu in Hv by done. destruct (negb (vr_Accepts v (h_Alg hd))); [done|]. cbn [h_Typ hd] in Hv.
  destruct (_ && _) eqn:Et; [done|]. cbn [mbind result_bind] in Hv. destruct (verifySignature _ _ _ _ _); [|done]. cbn [mbind result_bind] in Hv.
  destruct (decodeAndCheckClaims t j _) as [p|] eqn:Hd; [|done]. cbn [mbind result_bind h_Typ hd] in Hv. injection Hv as <-. split.
  - apply andb_false_iff in Et as [Et|Et]; apply negb_false_iff in Et; [left; by apply bool_decide_eq_true in Et|right; by apply contains_spec in Et].
  - exists pb, p. split_and!; [done| |done]. intros Hpb. unfold decodeAndCheckClaims in Hd. rewrite RawURLDecode_RawURLEncode in Hd by done.
    destruct (UnmarshalPayload pb) as [p'|]; [|done]. f_equal. by repeat (case_match; try done); injection Hd.
Qed.

(** C16 — The kinds of token an issuer signs are not confused when they come back, under
    any keys and at any time: an ID token is never taken for an access token, an access
    token never for an ID token, and what was signed under a type off the allow-list,
    such as a logout token or a browser session, never for either. *)
Theorem token_kinds_apart j0 j t token c :
  (forall h, Forall is_byte (MarshalHeader h) /\ UnmarshalHeader (MarshalHeader h) = Some h) ->
  (forall p b, MarshalID p = Some b -> Forall is_byte b /\ forall q, UnmarshalPayload b = Some q -> p_ClientID q = "" /\ p_JTI q = "" /\ p_CNF q = None) ->
  Validate t token j = Ok c ->
  (forall now r, IssueIDToken now r j0 = Ok token -> IsAccessTokenClaims (Some c) = false) /\
  (forall now jti s scopes tok, Issue now jti s scopes j0 = Ok tok -> tk_AccessToken tok = token -> IsIDTokenClaims (Some c) = false) /\
  (forall typ claims, SignJWT typ claims j0 = Ok token -> typ ∈ supportedJWTTypes).
Proof.
  intros Hheader Hid Hv. split_and!.
  - intros now r Hi. unfold IssueIDToken in Hi. destruct r as [r|]; [|done]. destruct (_ || _); [done|].
    destruct (signed_typ _ _ _ _ _ _ _ _ _ Hheader Hi Hv) as (_ & pb & p & Hpb & Hp & ->). destruct (Hid _ _ Hpb) as [Hb Hq].
    destruct (Hq p (Hp Hb)) as (Hc & Hj & Hn). unfold IsAccessTokenClaims. cbn [tc_TokenUse claimsFromPayload]. unfold tokenUseFromPayload.
    by rewrite Hc, Hj, Hn.
  - intros now jti s scopes tok Hi <-. unfold Issue in Hi. destruct s as [s|]; [|done]. destruct (decide _); [done|].
    destruct (accessTokenExpiry _ _ _) as [expires secs]. destruct jti as [jti|]; [|done]. destruct (signCompactJWS _ _ _) as [token|] eqn:Hs; [|done].
    injection Hi as <-. cbn [tk_AccessToken] in Hv. by destruct (signed_typ _ _ _ _ _ _ _ _ _ Hheader Hs Hv) as (_ & pb & p & _ & _ & ->).
  - intros typ claims Hi. unfold SignJWT in Hi. destruct (decide (typ = "")); [done|].
    by destruct (signed_typ _ _ _ _ _ _ _ _ _ Hheader Hi Hv) as ([|] & _).
Qed.
End issuer.

(** ** Witnesses *)

(** Keys are numbers, a signature is the key, headers are written character by character
    and a payload is named by one byte. *)
Definition toy_public (k : Z) : Z := k.
Definition toy_key_bytes (k : Z) : list Z := [k mod 256].
Definition toy_sign (k : Z) (m : list ascii) : option (list Z) := Some [k mod 256].
Definition toy_verify (pub : Z) (m : list ascii) (sig : list Z) : bool := bool_decide (sig = [pub mod 256]).

Fixpoint toy_str (s : string) : list Z := match s with EmptyString => [0] | String c s => 1 :: Str.byte c :: toy_str s end.
Fixpoint toy_unstr (b : list Z) : option (string * list Z) :=
  match b with
  | 0 :: r => Some ("", r)
  | 1 :: c :: r => '(s, r) ← toy_unstr r; Some (String (byte_char c) s, r)
  | _ => None
  end.
Definition toy_header (h : Header) : list Z := toy_str (h_Alg h) ++ toy_str (h_Typ h) ++ toy_str (h_Kid h).
Definition toy_unheader (b : list Z) : option Header :=
  '(alg, b) ← toy_unstr b; '(typ, b) ← toy_unstr b; '(kid, _) ← toy_unstr b; Some {| h_Alg := alg; h_Typ := typ; h_Kid := kid |}.

Lemma toy_unstr_str s r : toy_unstr (toy_str s ++ r) = Some (s, r).
Proof.
  induction s as [|c s IH]; [done|]. cbn. rewrite IH. cbn. unfold byte_char, Str.byte. by rewrite N2Z.id, Ascii.ascii_N_embedding.
Qed.
Lemma toy_str_bytes s : Forall is_byte (toy_str s).
Proof.
  unfold is_byte. induction s as [|c s IH]; [by repeat constructor|]. cbn. constructor; [lia|]. constructor; [|exact IH].
  unfold Str.byte. pose proof (Ascii.N_ascii_bounded c). lia.
Qed.
Lemma toy_header_ok h : Forall is_byte (toy_header h) /\ toy_unheader (toy_header h) = Some h.
Proof.
  split; [unfold toy_header; rewrite !Forall_app; auto using toy_str_bytes|]. unfold toy_header, toy_unheader.
  rewrite toy_unstr_str. cbn. rewrite toy_unstr_str. cbn. rewrite <- (app_nil_r (toy_str (h_Kid h))), toy_unstr_str. by destruct h.
Qed.

Definition toy_subject : Subject := {|
  su_ID := "alice"; su_Provider := "pwd"; su_Claims := ∅; su_Resources := ["https://api"]; su_ClientID := "app"; su_AuthTime := 0; su_AMR := [];
  su_ACR := ""; su_AuthorizationDetails := ""; su_TTL := 0; su_SID := "s1"; su_ServingRegion := ""; su_TenantID := ""; su_Roles := [];
  su_ConfirmationJKT := ""; su_ConfirmationX5TS256 := ""; su_NotAfter := 0; su_Actor := ActorNil; su_RequestedClaims := "" |}.

(** Issued at the second 1000 for 300 seconds. *)
Definition toy_payload : Payload := buildAccessPayload "iss" toy_subject ["openid"] "jti" (Unix 1000) (Unix 1300).
Definition toy_id_payload : Payload := buildAccessPayload "iss" {|
  su_ID := "alice"; su_Provider := ""; su_Claims := ∅; su_Resources := ["app"]; su_ClientID := ""; su_AuthTime := 0; su_AMR := []; su_ACR := "";
  su_AuthorizationDetails := ""; su_TTL := 0; su_SID := ""; su_ServingRegion := ""; su_TenantID := ""; su_Roles := []; su_ConfirmationJKT := "";
  su_ConfirmationX5TS256 := ""; su_NotAfter := 0; su_Actor := ActorNil; su_RequestedClaims := "" |} [] "" (Unix 1000) (Unix 1300).

Definition toy_marshal (p : Payload) : option (list Z) := Some (if decide (p_JTI p = "jti") then [1] else [3]).
Definition toy_unmarshal (b : list Z) : option Payload := Some (if decide (b = [2]) then toy_id_payload else toy_payload).
Definition toy_marshal_id (p : IDPayload) : option (list Z) := Some [2].

Definition toy_issuer (skew : Z) : JWTIssuer Z Z := NewJWTIssuer toy_public toy_key_bytes 7 "k1" "iss" (300 * GoTime.Second) (skew * GoTime.Second) ∅.
Definition toy_issue jti skew : result jwt_error Token :=
  Issue toy_sign toy_header toy_marshal Ed25519JWTIssuer (Unix 1000) (Some jti) (Some toy_subject) ["openid"] (toy_issuer skew).
Definition toy_token (jti : string) : string := match toy_issue jti 0 with Ok t => tk_AccessToken t | Err _ => "" end.
Definition toy_validate (t : Z) (token : string) (j : JWTIssuer Z Z) := Validate toy_verify toy_unheader toy_unmarshal Ed25519JWTIssuer t token j.
Definition toy_revoke (t : Z) (token : string) (js : JWTIssuer Z Z * option RevocationSet) := Revoke toy_verify toy_unheader toy_unmarshal Ed25519JWTIssuer t true token js.

Definition toy_revoked : JWTIssuer Z Z * option RevocationSet := (toy_revoke (Unix 1100) (toy_token "jti") (toy_issuer 0, Some ∅)).2.
Definition toy_store : RevocationSet := default ∅ toy_revoked.2.

(** Revoked, restarted from the store, and then shown. *)
Lemma revocation_effective_witness : exists e,
  toy_validate (Unix 1200) (toy_token "jti") (SeedRevocations (Unix 1150) (set_revoked toy_revoked.1 ∅, Some toy_store)).1 = Err e.
Proof.
  destruct (toy_validate _ _ _) as [c|e] eqn:Hc; [exfalso; revert Hc|by exists e].
  apply (revocation_effective toy_public toy_key_bytes toy_verify toy_unheader toy_unmarshal Ed25519JWTIssuer (Unix 1100) (toy_token "jti")
    (toy_issuer 0, Some ∅) toy_revoked (claimsFromPayload toy_payload jwtTypAT)
    (Unix 1150, SeedRevocations (Unix 1150) (set_revoked toy_revoked.1 ∅, Some toy_store))).
  - vm_compute. discriminate.
  - vm_compute. reflexivity.
  - vm_compute. discriminate.
  - vm_compute. reflexivity.
  - apply rtc_once. replace (Unix 1100, toy_revoked) with (Unix 1100, (toy_revoked.1, Some toy_store)) by (vm_compute; reflexivity).
    apply step_restart. vm_compute. discriminate.
  - vm_compute. discriminate.
Defined.

Lemma revocation_forgotten_witness :
  let js1 := (toy_revoke (Unix 1100) (toy_token "jti") (toy_issuer 60, Some ∅)).2 in
  toy_validate (Unix 1320) (toy_token "jti") js1.1 = Err TokenRevoked /\
  toy_validate (Unix 1320) (toy_token "jti") (toy_revoke (Unix 1320) (toy_token "other") js1).2.1 = Ok (claimsFromPayload toy_payload jwtTypAT).
Proof.
  split; [vm_compute; reflexivity|].
  apply (revocation_forgotten toy_verify toy_unheader toy_unmarshal Ed25519JWTIssuer (Unix 1100) (toy_token "jti") (toy_issuer 60) (Some ∅)
    (claimsFromPayload toy_payload jwtTypAT) true ltac:(vm_compute; discriminate) ltac:(vm_compute; reflexivity)) with (c' := claimsFromPayload toy_payload jwtTypAT).
  - vm_compute. discriminate.
  - vm_compute. discriminate.
  - vm_compute. reflexivity.
  - vm_compute. discriminate.
  - vm_compute. reflexivity.
Defined.

(** The last character of a signature carries unused bits. *)
Example RawURLDecode_unused_bits : RawURLDecode (Str.to_list "Bw") = RawURLDecode (Str.to_list "Bz").
Proof. vm_compute. reflexivity. Qed.

Lemma revoked_token_alias_witness :
  toy_validate (Unix 1200) (compact (nth 0 (jws_parts (toy_token "jti")) []) (nth 1 (jws_parts (toy_token "jti")) []) (Str.to_list "Bz")) toy_revoked.1 =
    Ok (claimsFromPayload toy_payload jwtTypAT) /\
  toy_validate (Unix 1200) (toy_token "jti") toy_revoked.1 = Err TokenRevoked.
Proof.
  split; [|vm_compute; reflexivity].
  destruct (revoked_token_alias toy_verify toy_unheader toy_unmarshal Ed25519JWTIssuer (Unix 1100) true (toy_token "jti") (toy_issuer 0, Some ∅)
    toy_revoked (nth 0 (jws_parts (toy_token "jti")) []) (nth 1 (jws_parts (toy_token "jti")) []) (Str.to_list "Bw")) as [H _].
  - vm_compute. reflexivity.
  - vm_compute. reflexivity.
  - unfold toy_validate. rewrite H; [vm_compute; reflexivity| |vm_compute; reflexivity|vm_compute; reflexivity].
    apply (bool_decide_eq_true_1 (dot ∉ _)). vm_compute. reflexivity.
Defined.

Lemma validate_sound_witness : tc_TokenUse (claimsFromPayload toy_payload jwtTypAT) <> TokenUseBrowserSession.
Proof.
  apply (validate_sound toy_verify toy_unheader toy_unmarshal Ed25519JWTIssuer (Unix 1200) (toy_token "jti") (toy_issuer 0)
    (claimsFromPayload toy_payload jwtTypAT)). vm_compute. reflexivity.
Defined.

(** The issuer rotates to another key, and the token still holds. *)
Lemma jwt_roundtrip_witness :
  exists c, toy_validate (Unix 1200) (toy_token "jti") (RotateKey toy_public toy_key_bytes (Some 9) (toy_issuer 0)).2 = Ok c /\
    tc_Subject c = "alice" /\ tc_Scopes c = ["openid"].
Proof.
  destruct (toy_issue "jti" 0) as [tok|] eqn:Ht; [|vm_compute in Ht; discriminate].
  assert (tk_AccessToken tok = toy_token "jti") as Htok by (unfold toy_token; by rewrite Ht).
  destruct (jwt_roundtrip toy_public toy_key_bytes toy_sign toy_verify toy_header toy_unheader toy_marshal toy_unmarshal Ed25519JWTIssuer
    (Unix 1000) "jti" toy_subject ["openid"] (toy_issuer 0) tok (RotateKey toy_public toy_key_bytes (Some 9) (toy_issuer 0)).2 (Unix 1200))
    as (c & Hc & _ & Hsub & _ & _ & _ & _ & _ & _ & _ & _ & Hsc & _).
  - intros k m sig [= <-]. split; [by apply bool_decide_eq_true|]. repeat constructor; apply Z.mod_pos_bound; lia.
  - exact toy_header_ok.
  - reflexivity.
  - split_and!; [reflexivity|vm_compute; reflexivity|discriminate|vm_compute; discriminate].
  - intros b [= <-]. split; [|vm_compute; reflexivity]. vm_compute. repeat constructor; discriminate.
  - exact Ht.
  - apply rtc_once, ks_rotate. vm_compute. discriminate.
  - rewrite Htok. vm_compute. reflexivity.
  - vm_compute. discriminate.
  - vm_compute. reflexivity.
  - exists c. rewrite <- Htok. split_and!; [exact Hc|exact Hsub|]. apply Hsc; [|vm_compute; discriminate].
    apply (bool_decide_eq_true_1 (Forall _ _)). vm_compute. reflexivity.
Defined.

Lemma token_kinds_apart_witness : IsIDTokenClaims (Some (claimsFromPayload toy_payload jwtTypAT)) = false.
Proof.
  destruct (toy_issue "jti" 0) as [tok|] eqn:Ht; [|vm_compute in Ht; discriminate].
  apply (token_kinds_apart toy_sign toy_verify toy_header toy_unheader toy_marshal toy_unmarshal toy_marshal_id Ed25519JWTIssuer
    (toy_issuer 0) (toy_issuer 0) (Unix 1200) (toy_token "jti") (claimsFromPayload toy_payload jwtTypAT) toy_header_ok) with
    (now := Unix 1000) (jti := Some "jti") (s := Some toy_subject) (scopes := ["openid"]) (tok := tok).
  - intros p b [= <-]. split; [repeat constructor; discriminate|]. intros q. vm_compute. intros [= <-]. by split_and!.
  - vm_compute. reflexivity.
  - exact Ht.
  - unfold toy_token. by rewrite Ht.
Defined.
