(* ===== verification/OpaqueIssuers.v ===== *)
(** * OpaqueIssuers: the issuers that keep their tokens
    ([infrastructure/defaultimpl/defaulttoken]: [session_issuer.go], [jwt_issuer.go],
    [expiry_sweep.go]).

    Each operation of a [sync.Map] is one step.  The random identifier of a session token
    is an argument, [None] when the source fails. *)
From S2P Require Import Prelude Crypto Core Lifecycle RefreshStore CodeStores DeviceCodes CibaStore Issue RefreshIface GraceCache Scopes GrantCore JTIReplay Jose ExchangeDeps Permissions Resources Rbac PolicyBundle JwtIssuer.
Local Open Scope Z_scope.

Definition sweepInterval : Z := GoTime.Minute.

Inductive opaque_error := NoSubject | NoRandomness | InvalidToken | TokenExpired | TokenNotFound.

Record Opaque := { op_tokens : gmap string TokenClaims; op_lastSweep : Z }.

Definition opaque_claims (issuer : string) (s : Subject) (scopes : list string) (now expiresAt : Z) : TokenClaims := {|
  tc_TokenUse := TokenUseAccessToken; tc_Subject := su_ID s; tc_Issuer := issuer; tc_Audience := []; tc_Scopes := scopes; tc_Resources := [];
  tc_ExpiresAt := expiresAt; tc_NotBefore := now; tc_IssuedAt := now; tc_Extra := su_Claims s; tc_ClientID := ""; tc_JTI := "";
  tc_AuthTime := 0; tc_ACR := ""; tc_AMR := []; tc_SID := ""; tc_ServingRegion := ""; tc_TenantID := ""; tc_ConfirmationJKT := "";
  tc_ConfirmationX5TS256 := ""; tc_AuthorizationDetails := ""; tc_Actor := ActorNil; tc_MayAct := ActorNil; tc_RequestedClaims := "" |}.

Definition opaque_token (token : string) (expiresIn : Z) (scopes : list string) (now : Z) : Token := {|
  tk_AccessToken := token; tk_TokenType := "Bearer"; tk_RefreshToken := ""; tk_ExpiresIn := expiresIn; tk_Scope := Str.join scopes; tk_CreatedAt := now |}.

(** [sweepExpired] and [maybeSweepExpired]. *)
Definition sweepExpired (now : Z) (m : gmap string TokenClaims) : gmap string TokenClaims :=
  filter (fun tc => GoTime.Before (tc_ExpiresAt tc.2) now = false) m.

Definition maybeSweepExpired (now : Z) (o : Opaque) : Opaque :=
  let nowUnix := UnixNano now in
  if wrap64 (nowUnix - op_lastSweep o) <? sweepInterval then o
  else {| op_tokens := sweepExpired now (op_tokens o); op_lastSweep := nowUnix |}.

Definition store_token (token : string) (c : TokenClaims) (o : Opaque) : Opaque :=
  {| op_tokens := <[token := c]> (op_tokens o); op_lastSweep := op_lastSweep o |}.
Definition drop_token (token : string) (o : Opaque) : Opaque :=
  {| op_tokens := delete token (op_tokens o); op_lastSweep := op_lastSweep o |}.

(** Shared by both issuers. *)
Definition ValidateOpaque (now : Z) (token : string) (o : Opaque) : result opaque_error TokenClaims * Opaque :=
  match op_tokens o !! token with
  | None => (Err InvalidToken, o)
  | Some c => if 0 <? GoTime.Since now (tc_ExpiresAt c) then (Err TokenExpired, drop_token token o) else (Ok c, o)
  end.

Definition RevokeOpaque (token : string) (o : Opaque) : result opaque_error () * Opaque :=
  match op_tokens o !! token with None => (Err TokenNotFound, o) | Some _ => (Ok (), drop_token token o) end.

(** ** Session tokens *)

Definition SessionIssue (ttl now : Z) (draw : option (list Z)) (subject : option Subject) (scopes : list string) (o : Opaque)
    : result opaque_error Token * Opaque :=
  match subject with
  | None => (Err NoSubject, o)
  | Some s =>
      if decide (su_ID s = "") then (Err NoSubject, o)
      else match draw with
           | None => (Err NoRandomness, o)
           | Some buf =>
               let token := Str.of_list (Base64.RawURLEncode buf) in
               let o := maybeSweepExpired now o in
               let '(expiresAt, expiresIn) := accessTokenExpiry now ttl (su_NotAfter s) in
               (Ok (opaque_token token expiresIn scopes now), store_token token (opaque_claims "" s scopes now expiresAt) o)
           end
  end.

(** ** The in-memory JWT-like issuer *)

(** [hmacSHA256] of the source: every byte is combined with a byte of the key. *)
Definition hmacSHA256 (data key : list Z) : list Z :=
  imap (fun i b => Z.lxor b (nth (i mod length key) key 0)) data.

(** [%d]. *)
Definition FormatInt (n : Z) : string := if n <? 0 then String "-"%char (itoa (- n)) else itoa n.

Definition buildToken (secret : list Z) (c : TokenClaims) : string :=
  let data := string_bytes (tc_Subject c +:+ "." +:+ FormatInt (unix (tc_ExpiresAt c)) +:+ "." +:+ tc_Issuer c) in
  Str.of_list (Base64.RawURLEncode data ++ dot :: Base64.RawURLEncode (hmacSHA256 data secret)).

Definition MemoryIssue (secret : list Z) (issuer : string) (ttl now : Z) (s : Subject) (scopes : list string) (o : Opaque)
    : Token * Opaque :=
  let o := maybeSweepExpired now o in
  let '(expiresAt, expiresIn) := accessTokenExpiry now ttl (su_NotAfter s) in
  let c := opaque_claims issuer s scopes now expiresAt in
  let token := buildToken secret c in
  (opaque_token token expiresIn scopes now, store_token token c o).

(** ** Runs *)

(** What happens to an issuer at non-decreasing times while it does not issue [token]. *)
Inductive opaque_step (token : string) : Z * Opaque -> Z * Opaque -> Prop :=
| os_issue t t' other c o : t <= t' -> other <> token -> opaque_step token (t, o) (t', store_token other c (maybeSweepExpired t' o))
| os_validate t t' tok o : t <= t' -> opaque_step token (t, o) (t', (ValidateOpaque t' tok o).2)
| os_revoke t t' other o : t <= t' -> other <> token -> opaque_step token (t, o) (t', (RevokeOpaque other o).2).

(** The issuer answers for [token] with [c] until it expires, and never after. *)
Definition answers (token : string) (c : TokenClaims) (to : Z * Opaque) : Prop :=
  (op_tokens to.2 !! token = Some c \/ op_tokens to.2 !! token = None /\ tc_ExpiresAt c < to.1).

Lemma sweep_lookup now o token :
  op_tokens (maybeSweepExpired now o) !! token = op_tokens o !! token \/
  exists c, op_tokens o !! token = Some c /\ tc_ExpiresAt c < now /\ op_tokens (maybeSweepExpired now o) !! token = None.
Proof.
  unfold maybeSweepExpired. destruct (_ <? _); [by left|]. cbn. unfold sweepExpired. destruct (op_tokens o !! token) as [c|] eqn:E.
  - destruct (GoTime.Before (tc_ExpiresAt c) now) eqn:Hb.
    + right. exists c. unfold GoTime.Before in Hb. split_and!; [done|lia|]. apply map_lookup_filter_None. right. intros c' Hc'. assert (c' = c) as -> by congruence. cbn [snd]. unfold GoTime.Before. congruence.
    + left. apply map_lookup_filter_Some. by split.
  - left. apply map_lookup_filter_None. by left.
Qed.

Lemma opaque_step_time token to to' : opaque_step token to to' -> to.1 <= to'.1.
Proof. by destruct 1. Qed.

Lemma opaque_step_answers token c to to' : opaque_step token to to' -> answers token c to -> answers token c to'.
Proof.
  unfold answers. destruct 1 as [t t' other c' o Ht Hne|t t' tok o Ht|t t' other o Ht Hne]; cbn [fst snd]; intros Ha.
  - cbn. rewrite lookup_insert_ne by done. destruct (sweep_lookup t' o token) as [->|(c0 & Hc0 & Hlt & ->)]; [destruct Ha as [|[]]; [by left|right; split; [done|lia]]|].
    right. split; [done|]. destruct Ha as [Ha|[Ha ?]]; [|congruence]. assert (c0 = c) by congruence. by subst.
  - unfold ValidateOpaque. destruct (op_tokens o !! tok) as [c'|] eqn:E; cbn [snd]; [|destruct Ha as [|[]]; [by left|right; split; [done|lia]]].
    destruct (0 <? GoTime.Since t' (tc_ExpiresAt c')) eqn:Hx; cbn; [|destruct Ha as [|[]]; [by left|right; split; [done|lia]]].
    rewrite GoTime.Since_pos_spec in Hx. destruct (decide (tok = token)) as [->|Hne].
    + rewrite lookup_delete_eq. right. split; [done|]. destruct Ha as [Ha|[Ha ?]]; [assert (c' = c) as -> by congruence; lia|lia].
    + rewrite lookup_delete_ne by done. destruct Ha as [|[]]; [by left|right; split; [done|lia]].
  - unfold RevokeOpaque. destruct (op_tokens o !! other); cbn [snd]; [|destruct Ha as [|[]]; [by left|right; split; [done|lia]]].
    cbn. rewrite lookup_delete_ne by done. destruct Ha as [|[]]; [by left|right; split; [done|lia]].
Qed.

(** The life of a session token: from its issue on, whatever else is issued, checked,
    swept or revoked, it is accepted with the claims it was issued with exactly until its
    expiry, which is at most its lifetime and [NotAfter]; once revoked it never is. *)
Theorem session_token_life ttl now buf s scopes o tok o' t o'' t' :
  SessionIssue ttl now (Some buf) (Some s) scopes o = (Ok tok, o') ->
  rtc (opaque_step (tk_AccessToken tok)) (now, o') (t, o'') -> t <= t' ->
  let e := (accessTokenExpiry now ttl (su_NotAfter s)).1 in
  (su_NotAfter s <> 0 -> e <= su_NotAfter s) /\ e <= now + ttl /\
  ((ValidateOpaque t' (tk_AccessToken tok) o'').1 = Ok (opaque_claims "" s scopes now e) <-> t' <= e) /\
  (forall c, (ValidateOpaque t' (tk_AccessToken tok) (RevokeOpaque (tk_AccessToken tok) o'').2).1 <> Ok c).
Proof.
  intros Hi Hrun Ht e. unfold SessionIssue in Hi. destruct (decide (su_ID s = "")); [done|].
  destruct (accessTokenExpiry now ttl (su_NotAfter s)) as [expiresAt n'] eqn:He. cbn [fst] in e. injection Hi as <- <-. cbn [tk_AccessToken opaque_token] in *.
  set (token := Str.of_list (Base64.RawURLEncode buf)) in *. set (c := opaque_claims "" s scopes now expiresAt) in *.
  pose proof (accessTokenExpiry_spec now ttl (su_NotAfter s)) as Hspec. rewrite He in Hspec. cbn [fst] in Hspec. unfold GoTime.IsZero in Hspec.
  set (to0 := (now, _)) in Hrun. assert (answers token c to0) as Ha by (left; apply lookup_insert_eq). clearbody to0.
  set (to1 := (t, o'')) in *. assert (answers token c to1) as Ha1.
  { clear -Hrun Ha. induction Hrun as [|x y z Hs _ IH]; [done|]. by apply IH, (opaque_step_answers _ _ x). }
  unfold answers in Ha1. cbn [fst snd to1] in Ha1.
  split_and!.
  - intros Hn. rewrite (proj2 (Z.eqb_neq _ _) Hn) in Hspec. unfold e. lia.
  - unfold e. destruct (_ =? _); lia.
  - unfold ValidateOpaque. destruct Ha1 as [Ha1|[Ha1 Hlt]]; rewrite Ha1.
    + rewrite GoTime.Since_pos_spec. change (tc_ExpiresAt c) with e. destruct (e <? t') eqn:E; cbn; split; try done; lia.
    + cbn. change (tc_ExpiresAt c) with e in Hlt. split; [done|lia].
  - intros c'. unfold RevokeOpaque. destruct (op_tokens o'' !! token) eqn:E; cbn [snd].
    + unfold ValidateOpaque, drop_token. cbn. by rewrite lookup_delete_eq.
    + unfold ValidateOpaque. by rewrite E.
Qed.

(** The in-memory JWT issuer names a token after its subject and the second it expires
    in: a second token issued for the same subject and second is the same text, so the
    holder of the first now has the scopes of the second, and revoking either revokes
    both. *)
Theorem memory_tokens_collide secret issuer ttl now now' s s' scopes scopes' o :
  su_ID s = su_ID s' ->
  let e := (accessTokenExpiry now ttl (su_NotAfter s)).1 in let e' := (accessTokenExpiry now' ttl (su_NotAfter s')).1 in
  unix e = unix e' -> now' <= e' ->
  let '(tok, o1) := MemoryIssue secret issuer ttl now s scopes o in
  let '(tok', o2) := MemoryIssue secret issuer ttl now' s' scopes' o1 in
  tk_AccessToken tok = tk_AccessToken tok' /\
  (ValidateOpaque now' (tk_AccessToken tok) o2).1 = Ok (opaque_claims issuer s' scopes' now' e') /\
  (RevokeOpaque (tk_AccessToken tok') o2).1 = Ok () /\
  (ValidateOpaque now' (tk_AccessToken tok) (RevokeOpaque (tk_AccessToken tok') o2).2).1 = Err InvalidToken.
Proof.
  intros Hid e e' He Hlive. unfold MemoryIssue. destruct (accessTokenExpiry now ttl _) as [ex n]. destruct (accessTokenExpiry now' ttl _) as [ex' n'].
  cbn [fst] in e, e'. cbn [tk_AccessToken opaque_token]. subst e e'.
  assert (buildToken secret (opaque_claims issuer s scopes now ex) = buildToken secret (opaque_claims issuer s' scopes' now' ex')) as Heq.
  { unfold buildToken. cbn [tc_Subject tc_ExpiresAt tc_Issuer opaque_claims]. by rewrite Hid, He. }
  rewrite Heq. set (token := buildToken secret _). split; [done|]. unfold ValidateOpaque, RevokeOpaque, store_token, drop_token. cbn [op_tokens].
  rewrite lookup_insert_eq. cbn [tc_ExpiresAt opaque_claims fst snd op_tokens]. split_and!; [|done|by rewrite lookup_delete_eq].
  rewrite GoTime.Since_pos_spec. destruct (ex' <? now') eqn:E; [lia|done].
Qed.

(** The bytes it appends are no signature: with the text they give the key away. *)
Lemma hmacSHA256_discloses data key : zip_with Z.lxor data (hmacSHA256 data key) = imap (fun i _ => nth (i mod length key) key 0) data.
Proof.
  unfold hmacSHA256. rewrite <- (list_fmap_id data) at 1. apply list_eq. intros i. rewrite lookup_zip_with, !list_lookup_imap.
  rewrite list_lookup_fmap. destruct (data !! i); cbn; [|done]. f_equal. by rewrite <- Z.lxor_assoc, Z.lxor_nilpotent, Z.lxor_0_l.
Qed.

(** ** Witnesses *)

Definition no_tokens : Opaque := {| op_tokens := ∅; op_lastSweep := 0 |}.

Lemma session_token_life_witness :
  (ValidateOpaque (Unix 1200) (Str.of_list (Base64.RawURLEncode [1; 2; 3]))
     (SessionIssue (300 * GoTime.Second) (Unix 1000) (Some [1; 2; 3]) (Some toy_subject) ["openid"] no_tokens).2).1 =
  Ok (opaque_claims "" toy_subject ["openid"] (Unix 1000) (Unix 1300)).
Proof.
  destruct (SessionIssue (300 * GoTime.Second) (Unix 1000) (Some [1; 2; 3]) (Some toy_subject) ["openid"] no_tokens) as [[tok|] o] eqn:H; [|vm_compute in H; discriminate].
  assert (tk_AccessToken tok = Str.of_list (Base64.RawURLEncode [1; 2; 3])) as Ht by (vm_compute in H; injection H as <- <-; vm_compute; reflexivity).
  destruct (session_token_life _ _ _ _ _ _ tok o (Unix 1000) o (Unix 1200) H) as (_ & _ & Hv & _).
  - apply rtc_refl.
  - vm_compute. discriminate.
  - rewrite Ht in Hv. apply Hv. vm_compute. discriminate.
Defined.

Lemma memory_tokens_collide_witness :
  let '(tok, o1) := MemoryIssue [1; 2] "iss" (300 * GoTime.Second) (Unix 1000) toy_subject ["read"] no_tokens in
  let '(tok', o2) := MemoryIssue [1; 2] "iss" (300 * GoTime.Second) (Unix 1000 + 5) toy_subject ["read"; "admin"] o1 in
  tk_AccessToken tok = tk_AccessToken tok'.
Proof.
  apply (memory_tokens_collide [1; 2] "iss" (300 * GoTime.Second) (Unix 1000) (Unix 1000 + 5) toy_subject toy_subject ["read"] ["read"; "admin"] no_tokens);
    vm_compute; congruence.
Defined.
