(* ===== verification/Jwks.v ===== *)
(** * Jwks: verification of tokens signed outside the server
    ([shared/security/securityverify/jwks_verify.go]).

    The choice of key and algorithm, the keys built from a JWK, the curve equation and
    the digests are written out.  What the signature schemes of the standard library
    answer for a key, digest and signature, and [json.Unmarshal] into the header, are
    arguments. *)
From S2P Require Import Prelude Crypto Core Scopes Issue Jose AdminPaging.
Local Open Scope Z_scope.

(** ** Algorithms *)

Definition jwsAlgEdDSA : string := "EdDSA".
Definition jwsAlgES256 : string := "ES256".
Definition jwsAlgES384 : string := "ES384".
Definition jwsAlgES512 : string := "ES512".
Definition jwsAlgRS256 : string := "RS256".
Definition jwsAlgRS384 : string := "RS384".
Definition jwsAlgRS512 : string := "RS512".
Definition jwsAlgPS256 : string := "PS256".
Definition jwsAlgPS384 : string := "PS384".
Definition jwsAlgPS512 : string := "PS512".

Definition isAsymmetricJWSAlg (alg : string) : bool :=
  contains [jwsAlgEdDSA; jwsAlgES256; jwsAlgES384; jwsAlgES512; jwsAlgRS256; jwsAlgRS384; jwsAlgRS512; jwsAlgPS256; jwsAlgPS384; jwsAlgPS512] alg.

Definition AsymmetricJWSAlgs : list string := [jwsAlgEdDSA; jwsAlgES256; jwsAlgES384; jwsAlgES512; jwsAlgRS256; jwsAlgPS256].

Inductive Hash := SHA_256 | SHA_384 | SHA_512.

Definition hashForAlg (alg : string) : option Hash :=
  if contains [jwsAlgRS256; jwsAlgPS256; jwsAlgES256] alg then Some SHA_256
  else if contains [jwsAlgRS384; jwsAlgPS384; jwsAlgES384] alg then Some SHA_384
  else if contains [jwsAlgRS512; jwsAlgPS512; jwsAlgES512] alg then Some SHA_512
  else None.

(** SHA-384 is SHA-512 from other initial values (the roots of the ninth to the
    sixteenth prime), cut to 48 bytes. *)
Module SHA384.
Definition I384 : list Z :=
  Eval vm_compute in ((fun p => SHA512.w64 (Z.sqrt (p * 2 ^ 128))) <$> drop 8 (SHA256.primes 54)).
Definition Sum384 (msg : list Z) : list Z :=
  let p := SHA512.pad512 msg in
  take 48 (mjoin (SHA256.be_bytes 8 <$> SHA512.blocks512 (length p / 128) I384 (SHA512.words64 (length p / 8) p))).
End SHA384.

(** FIPS 180-4's "abc" vector. *)
Example sha384_abc :
  hex_string (SHA384.Sum384 (string_bytes "abc")) =
  "cb00753f45a35e8bb5a03d699ac65007272c32ab0eded163" +:+ "1a8b605a43ff5bed8086072ba1e7cc2358baeca134c825a7".
Proof. vm_compute. reflexivity. Qed.

Definition digestOf (alg : string) (message : list Z) : list Z :=
  match hashForAlg alg with
  | Some SHA_256 => SHA256.Sum256 message
  | Some SHA_384 => SHA384.Sum384 message
  | Some SHA_512 => SHA512.Sum512 message
  | None => []
  end.

(** ** Keys *)

(** [big.Int.SetBytes]. *)
Definition SetBytes (bs : list Z) : Z := foldl (fun acc b => acc * 256 + b) 0 bs.

(** The NIST curves [y^2 = x^3 - 3 x + b] modulo [p]. *)
Inductive Curve := P256 | P384 | P521.

Definition curve_p (c : Curve) : Z :=
  match c with
  | P256 => 2 ^ 256 - 2 ^ 224 + 2 ^ 192 + 2 ^ 96 - 1
  | P384 => 2 ^ 384 - 2 ^ 128 - 2 ^ 96 + 2 ^ 32 - 1
  | P521 => 2 ^ 521 - 1
  end.
Definition curve_b (c : Curve) : Z :=
  match c with
  | P256 => 0x5ac635d8aa3a93e7b3ebbd55769886bc651d06b0cc53b0f63bce3c3e27d2604b
  | P384 => 0xb3312fa7e23ee7e4988e056be3f82d19181d9c6efe8141120314088f5013875ac656398d8a2ed19d2a85c8edd3ec2aef
  | P521 => 0x051953eb9618e1c9a1f929a21a0b68540eea2da725b99b315f3b8b489918ef109e156193951ec7e937b1652c0bd3bb1bf073573df883d2c34f1ef451fd46b503f00
  end.

(** [elliptic.Curve.IsOnCurve]: coordinates out of range are refused. *)
Definition IsOnCurve (c : Curve) (x y : Z) : bool :=
  let p := curve_p c in
  (0 <=? x) && (x <? p) && (0 <=? y) && (y <? p) && ((y * y) mod p =? (x * x * x - 3 * x + curve_b c) mod p).

(** The base point of P-256. *)
Example base_point_P256 :
  IsOnCurve P256 0x6b17d1f2e12c4247f8bce6e563a440f277037d812deb33a0f4a13945d898c296
    0x4fe342e2fe1a7f9b8ee7eb4a7c0f9e162bce33576b315ececbb6406837bf51f5 = true.
Proof. vm_compute. reflexivity. Qed.
Example base_point_P384 :
  IsOnCurve P384 0xaa87ca22be8b05378eb1c71ef320ad746e1d3b628ba79b9859f741e082542a385502f25dbf55296c3a545e3872760ab7
    0x3617de4a96262c6f5d9e98bf9292dc29f8f41dbd289a147ce9da3113b5f0b8c00a60b1ce1d7e819d7a431d7c90ea0e5f = true.
Proof. vm_compute. reflexivity. Qed.
Example base_point_P521 :
  IsOnCurve P521 0xc6858e06b70404e9cd9e3ecb662395b4429c648139053fb521f828af606b4d3dbaa14b5e77efe75928fe1dc127a2ffa8de3348b3c1856a429bf97e7e31c2e5bd66
    0x11839296a789a3bc0045c8a5fb42c7d1bd998f54449579b446817afbd17273e662c97ee72995ef42640c550b9013fad0761353c7086a272c24088be94769fd16650 = true.
Proof. vm_compute. reflexivity. Qed.

Inductive jws_error :=
| EmptyAllowlist | SymmetricAllowed | NotCompact | HeaderDecode | HeaderParse | CritNamed | AlgNotAllowed | SignatureDecode
| EmptyJWKS | AmbiguousKid | UnknownKid | UnsupportedAlg | WrongKeyType | MalformedKey | NotOnCurve | WeakRSA | BadExponent
| WrongLength | SignatureInvalid | PayloadDecode.

Definition decode64 (s : string) : option (list Z) := RawURLDecode (Str.to_list s).

Definition ed25519PublicFromJWK (jwk : JWK) : result jws_error (list Z) :=
  if negb (bool_decide (jwk_Kty jwk = "OKP")) || negb (bool_decide (jwk_Crv jwk = "Ed25519")) then Err WrongKeyType
  else match decode64 (jwk_X jwk) with
       | Some xb => if (length xb =? 32)%nat then Ok xb else Err MalformedKey
       | None => Err MalformedKey
       end.

(** The curve an algorithm asks for, its name in a JWK and the length of a coordinate. *)
Definition curveFor (alg : string) : option (Curve * string * nat) :=
  if decide (alg = jwsAlgES256) then Some (P256, "P-256", 32%nat)
  else if decide (alg = jwsAlgES384) then Some (P384, "P-384", 48%nat)
  else if decide (alg = jwsAlgES512) then Some (P521, "P-521", 66%nat)
  else None.

Definition ecdsaPublicFromJWK (alg : string) (jwk : JWK) : result jws_error (Curve * (Z * Z) * nat) :=
  match curveFor alg with
  | None => Err UnsupportedAlg
  | Some (curve, wantCrv, coordBytes) =>
      if negb (bool_decide (jwk_Kty jwk = "EC")) || negb (bool_decide (jwk_Crv jwk = wantCrv)) then Err WrongKeyType
      else match decode64 (jwk_X jwk), decode64 (jwk_Y jwk) with
           | Some xb, Some yb =>
               let x := SetBytes xb in let y := SetBytes yb in
               if IsOnCurve curve x y then Ok (curve, (x, y), coordBytes) else Err NotOnCurve
           | _, _ => Err MalformedKey
           end
  end.

Definition rsaPublicFromJWK (jwk : JWK) : result jws_error (Z * Z) :=
  if negb (bool_decide (jwk_Kty jwk = "RSA")) then Err WrongKeyType
  else match decode64 (jwk_N jwk) with
       | None | Some [] => Err MalformedKey
       | Some nb =>
           if (length nb <? 256)%nat then Err WeakRSA
           else match decode64 (jwk_E jwk) with
                | None | Some [] => Err MalformedKey
                | Some eb =>
                    let e := SetBytes eb in
                    if 2 ^ 63 <=? e then Err BadExponent
                    else if (e <? 3) || (Z.land e 1 =? 0) then Err BadExponent
                    else Ok (SetBytes nb, e)
                end
       end.

(** [jwsHeader]: the algorithm, the key and the extensions that must be understood. *)
Record JWSHeader := { jh_Alg : string; jh_Kid : string; jh_Crit : list string }.

Definition validateAlgAllowlist (allowedAlgs : list string) : result jws_error () :=
  match allowedAlgs with
  | [] => Err EmptyAllowlist
  | _ => if forallb isAsymmetricJWSAlg allowedAlgs then Ok () else Err SymmetricAllowed
  end.

Definition dot : ascii := "."%char.
Definition bytes (s : list ascii) : list Z := Str.byte <$> s.

(** [splitCompactJWS]: header, payload and signature of exactly three segments, the
    last not empty. *)
Definition splitCompactJWS (compact : string) : result jws_error (list ascii * list ascii * list ascii) :=
  match jws_parts compact with
  | [h; p; s] => if decide (s = []) then Err NotCompact else Ok (h, p, s)
  | _ => Err NotCompact
  end.

Definition selectVerifyJWK (keys : list JWK) (kid : string) : result jws_error JWK :=
  match keys with
  | [] => Err EmptyJWKS
  | k :: rest =>
      if decide (kid = "") then match rest with [] => Ok k | _ => Err AmbiguousKid end
      else match List.find (fun k => bool_decide (jwk_Kid k = kid)) keys with Some k => Ok k | None => Err UnknownKid end
  end.

Section jws.
Context (ed25519_Verify : list Z -> list Z -> list Z -> bool).
Context (ecdsa_Verify : Curve -> Z * Z -> list Z -> Z -> Z -> bool).
Context (rsa_VerifyPKCS1v15 rsa_VerifyPSS : Z * Z -> option Hash -> list Z -> list Z -> bool).
Context (UnmarshalHeader : list Z -> option JWSHeader).

Definition parseJWSHeaderAlgKid (headerSeg : list ascii) (allowedAlgs : list string) : result jws_error (string * string) :=
  match RawURLDecode headerSeg with
  | None => Err HeaderDecode
  | Some headerBytes =>
      match UnmarshalHeader headerBytes with
      | None => Err HeaderParse
      | Some h =>
          if negb (bool_decide (jh_Crit h = [])) then Err CritNamed
          else if negb (contains allowedAlgs (jh_Alg h)) then Err AlgNotAllowed
          else Ok (jh_Alg h, jh_Kid h)
      end
  end.

Definition check (valid : bool) : result jws_error () := if valid then Ok () else Err SignatureInvalid.

Definition verifyEdDSA (jwk : JWK) (signingInput sig : list Z) : result jws_error () :=
  pub ← ed25519PublicFromJWK jwk; check (ed25519_Verify pub signingInput sig).

Definition verifyECDSA (alg : string) (jwk : JWK) (signingInput sig : list Z) : result jws_error () :=
  k ← ecdsaPublicFromJWK alg jwk;
  let '(curve, pub, coordBytes) := k in
  if negb (length sig =? 2 * coordBytes)%nat then Err WrongLength
  else check (ecdsa_Verify curve pub (digestOf alg signingInput) (SetBytes (take coordBytes sig)) (SetBytes (drop coordBytes sig))).

Definition verifyRSAPKCS1v15 (alg : string) (jwk : JWK) (signingInput sig : list Z) : result jws_error () :=
  pub ← rsaPublicFromJWK jwk; check (rsa_VerifyPKCS1v15 pub (hashForAlg alg) (digestOf alg signingInput) sig).

Definition verifyRSAPSS (alg : string) (jwk : JWK) (signingInput sig : list Z) : result jws_error () :=
  pub ← rsaPublicFromJWK jwk; check (rsa_VerifyPSS pub (hashForAlg alg) (digestOf alg signingInput) sig).

Definition verifyJWSWithJWK (alg : string) (jwk : JWK) (signingInput sig : list Z) : result jws_error () :=
  if decide (alg = jwsAlgEdDSA) then verifyEdDSA jwk signingInput sig
  else if contains [jwsAlgES256; jwsAlgES384; jwsAlgES512] alg then verifyECDSA alg jwk signingInput sig
  else if contains [jwsAlgRS256; jwsAlgRS384; jwsAlgRS512] alg then verifyRSAPKCS1v15 alg jwk signingInput sig
  else if contains [jwsAlgPS256; jwsAlgPS384; jwsAlgPS512] alg then verifyRSAPSS alg jwk signingInput sig
  else Err UnsupportedAlg.

Definition VerifyCompactJWS (compact : string) (keys : list JWK) (allowedAlgs : list string) : result jws_error (list Z) :=
  _ ← validateAlgAllowlist allowedAlgs;
  segs ← splitCompactJWS compact;
  let '(headerSeg, payloadSeg, sigSeg) := segs in
  hdr ← parseJWSHeaderAlgKid headerSeg allowedAlgs;
  let '(alg, kid) := hdr in
  match RawURLDecode sigSeg with
  | None => Err SignatureDecode
  | Some sig =>
      jwk ← selectVerifyJWK keys kid;
      _ ← verifyJWSWithJWK alg jwk (bytes (headerSeg ++ dot :: payloadSeg)) sig;
      match RawURLDecode payloadSeg with None => Err PayloadDecode | Some payload => Ok payload end
  end.

(** ** What acceptance means *)

(** A key of the type the algorithm asks for, well formed and of the strength the
    verifier demands, accepts the signature. *)
Inductive key_accepts (alg : string) (jwk : JWK) (input sig : list Z) : Prop :=
| accepts_ed pub : alg = jwsAlgEdDSA -> jwk_Kty jwk = "OKP" -> jwk_Crv jwk = "Ed25519" -> decode64 (jwk_X jwk) = Some pub ->
    length pub = 32%nat -> ed25519_Verify pub input sig = true -> key_accepts alg jwk input sig
| accepts_ec curve n x y : curveFor alg = Some (curve, jwk_Crv jwk, n) -> jwk_Kty jwk = "EC" ->
    SetBytes <$> decode64 (jwk_X jwk) = Some x -> SetBytes <$> decode64 (jwk_Y jwk) = Some y -> IsOnCurve curve x y = true ->
    length sig = (2 * n)%nat ->
    ecdsa_Verify curve (x, y) (digestOf alg input) (SetBytes (take n sig)) (SetBytes (drop n sig)) = true -> key_accepts alg jwk input sig
| accepts_rsa nb e : jwk_Kty jwk = "RSA" -> decode64 (jwk_N jwk) = Some nb -> (256 <= length nb)%nat ->
    SetBytes <$> decode64 (jwk_E jwk) = Some e -> 3 <= e < 2 ^ 63 -> Z.odd e = true -> is_Some (hashForAlg alg) ->
    (rsa_VerifyPKCS1v15 (SetBytes nb, e) (hashForAlg alg) (digestOf alg input) sig = true \/
     rsa_VerifyPSS (SetBytes nb, e) (hashForAlg alg) (digestOf alg input) sig = true) -> key_accepts alg jwk input sig.

Lemma check_Ok b : check b = Ok () <-> b = true.
Proof. by destruct b. Qed.

Lemma land_1_odd e : (Z.land e 1 =? 0) = negb (Z.odd e).
Proof. pose proof (Z.land_ones e 1 ltac:(lia)) as H. change (Z.ones 1) with 1 in H. rewrite H. change (2 ^ 1) with 2. rewrite Zmod_odd. by destruct (Z.odd e). Qed.

Lemma rsaPublic_Ok jwk n e : rsaPublicFromJWK jwk = Ok (n, e) ->
  exists nb, jwk_Kty jwk = "RSA" /\ decode64 (jwk_N jwk) = Some nb /\ (256 <= length nb)%nat /\ n = SetBytes nb /\
    SetBytes <$> decode64 (jwk_E jwk) = Some e /\ 3 <= e < 2 ^ 63 /\ Z.odd e = true.
Proof.
  unfold rsaPublicFromJWK. destruct (bool_decide (jwk_Kty jwk = "RSA")) eqn:Hk; [|done]. apply bool_decide_eq_true in Hk. cbn [negb].
  destruct (decode64 (jwk_N jwk)) as [nb|]; [|done]. destruct nb as [|b nb]; [done|]. set (l := b :: nb).
  destruct (length l <? 256)%nat eqn:Hl; [done|]. apply Nat.ltb_ge in Hl.
  destruct (decode64 (jwk_E jwk)) as [[|c eb]|]; [done| |done]. cbn [fmap option_fmap option_map].
  destruct (2 ^ 63 <=? SetBytes (c :: eb)) eqn:H1; [done|]. destruct (SetBytes (c :: eb) <? 3) eqn:H2; [done|].
  destruct (Z.land (SetBytes (c :: eb)) 1 =? 0) eqn:H3; [done|]. intros [= <- <-]. exists l. split_and!; try done; [lia..|].
  rewrite land_1_odd in H3. by apply negb_false_iff in H3.
Qed.

Lemma verify_key_accepts alg jwk input sig : verifyJWSWithJWK alg jwk input sig = Ok () -> key_accepts alg jwk input sig.
Proof.
  unfold verifyJWSWithJWK. destruct (decide (alg = jwsAlgEdDSA)) as [->|_].
  { unfold verifyEdDSA, ed25519PublicFromJWK. destruct (bool_decide (jwk_Kty jwk = "OKP")) eqn:H1; [|done].
    destruct (bool_decide (jwk_Crv jwk = "Ed25519")) eqn:H2; [|done]. apply bool_decide_eq_true in H1, H2. cbn [negb orb].
    destruct (decode64 (jwk_X jwk)) as [pub|] eqn:H3; [|done]. destruct (length pub =? 32)%nat eqn:H4; [|done]. apply Nat.eqb_eq in H4.
    intros H5%check_Ok. by apply (accepts_ed _ _ _ _ pub). }
  destruct (contains _ alg).
  { unfold verifyECDSA, ecdsaPublicFromJWK. destruct (curveFor alg) as [[[curve crv] n]|] eqn:H1; [|done].
    destruct (bool_decide (jwk_Kty jwk = "EC")) eqn:H2; [|done]. destruct (bool_decide (jwk_Crv jwk = crv)) eqn:H3; [|done].
    apply bool_decide_eq_true in H2, H3. subst crv. cbn [negb orb].
    destruct (decode64 (jwk_X jwk)) as [xb|] eqn:H4; [|done]. destruct (decode64 (jwk_Y jwk)) as [yb|] eqn:H5; [|done].
    destruct (IsOnCurve curve (SetBytes xb) (SetBytes yb)) eqn:H6; [|done]. cbn [mbind result_bind].
    destruct (length sig =? 2 * n)%nat eqn:H7; [|done]. apply Nat.eqb_eq in H7. intros H8%check_Ok.
    apply (accepts_ec _ _ _ _ curve n (SetBytes xb) (SetBytes yb)); try done; by rewrite ?H4, ?H5. }
  destruct (contains [jwsAlgRS256; _; _] alg) eqn:Hr; [|destruct (contains [jwsAlgPS256; _; _] alg) eqn:Hp; [|done]].
  all: unfold verifyRSAPKCS1v15, verifyRSAPSS; destruct (rsaPublicFromJWK jwk) as [[n e]|] eqn:Hk; [|done]; intros Hv%check_Ok;
    apply rsaPublic_Ok in Hk as (nb & H1 & H2 & H3 & -> & H4 & H5 & H6); apply (accepts_rsa _ _ _ _ nb e); try done; [|by auto].
  all: match goal with H : contains _ _ = true |- _ => apply contains_spec in H; rename H into Hin end.
  all: unfold hashForAlg; repeat (apply elem_of_cons in Hin as [->|Hin]; [by vm_compute; eexists|]); by apply not_elem_of_nil in Hin.
Qed.

Lemma splitCompact_Ok compact h p s : splitCompactJWS compact = Ok (h, p, s) -> jws_parts compact = [h; p; s] /\ s <> [].
Proof.
  unfold splitCompactJWS. destruct (jws_parts compact) as [|a [|b [|c [|]]]]; try done. destruct (decide (c = [])); [done|]. by intros [= <- <- <-].
Qed.

(** The key chosen is one of the set: the one with the key id of the header or, without
    a key id, the only one. *)
Lemma selectVerifyJWK_Ok keys kid k : selectVerifyJWK keys kid = Ok k -> k ∈ keys /\ (kid = "" /\ keys = [k] \/ kid <> "" /\ jwk_Kid k = kid).
Proof.
  unfold selectVerifyJWK. destruct keys as [|k0 rest]; [done|]. destruct (decide (kid = "")) as [->|Hne].
  - destruct rest; [|done]. intros [= <-]. split; [by left|by left].
  - destruct (List.find _ (k0 :: rest)) as [k'|] eqn:Hf; [|done]. intros [= <-]. apply List.find_some in Hf as [Hin Hk].
    apply bool_decide_eq_true in Hk. split; [by apply list_elem_of_In|by right].
Qed.

(** A token is accepted only if it is signed: the algorithm of its header is one the
    caller allows and is asymmetric, the key is one of the caller's, of the type and
    strength that algorithm asks for, chosen by the key id, and it accepts the signature
    of exactly the bytes of header and payload that are returned. *)
Lemma verify_compact_sound compact keys allowed payload :
  VerifyCompactJWS compact keys allowed = Ok payload ->
  exists h p s hb sig hdr k, jws_parts compact = [h; p; s] /\ s <> [] /\ RawURLDecode h = Some hb /\ UnmarshalHeader hb = Some hdr /\
    jh_Crit hdr = [] /\ jh_Alg hdr ∈ allowed /\ isAsymmetricJWSAlg (jh_Alg hdr) = true /\
    RawURLDecode p = Some payload /\ RawURLDecode s = Some sig /\
    k ∈ keys /\ (jh_Kid hdr = "" /\ keys = [k] \/ jh_Kid hdr <> "" /\ jwk_Kid k = jh_Kid hdr) /\
    key_accepts (jh_Alg hdr) k (bytes (h ++ dot :: p)) sig.
Proof.
  unfold VerifyCompactJWS. intros (? & Ha & H)%result_bind_ok. apply result_bind_ok in H as (((h & p) & s) & Hs & H).
  apply result_bind_ok in H as ((alg & kid) & Hh & H). destruct (RawURLDecode s) as [sig|] eqn:Hsig; [|done].
  apply result_bind_ok in H as (k & Hk & H). apply result_bind_ok in H as ([] & Hv & H). destruct (RawURLDecode p) as [pl|] eqn:Hp; [|done].
  injection H as ->. unfold parseJWSHeaderAlgKid in Hh. destruct (RawURLDecode h) as [hb|] eqn:Hhb; [|done].
  destruct (UnmarshalHeader hb) as [hdr|] eqn:Hu; [|done]. destruct (bool_decide (jh_Crit hdr = [])) eqn:Hc; [|done]. apply bool_decide_eq_true in Hc.
  cbn [negb] in Hh. destruct (contains allowed (jh_Alg hdr)) eqn:Hal; [|done]. injection Hh as <- <-. apply contains_spec in Hal.
  apply splitCompact_Ok in Hs as [Hs Hne]. apply selectVerifyJWK_Ok in Hk as [Hin Hk]. apply verify_key_accepts in Hv.
  exists h, p, s, hb, sig, hdr, k. split_and!; try done. unfold validateAlgAllowlist in Ha. destruct allowed as [|a0 rest]; [done|].
  destruct (forallb isAsymmetricJWSAlg (a0 :: rest)) eqn:Hf; [|done]. rewrite forallb_forall in Hf. by apply Hf, list_elem_of_In.
Qed.

(** The floor on RSA keys counts bytes, leading zeros included: a modulus of any size
    passes it when it is padded. *)
Lemma padded_rsa_accepted nb jwk :
  nb <> [] -> (length nb <= 256)%nat -> Forall is_byte nb -> jwk_Kty jwk = "RSA" -> jwk_E jwk = "AQAB" ->
  jwk_N jwk = Str.of_list (Base64.RawURLEncode (replicate (256 - length nb) 0 ++ nb)) ->
  rsaPublicFromJWK jwk = Ok (SetBytes nb, 65537).
Proof.
  intros Hne Hlen Hb Hk He Hn. unfold rsaPublicFromJWK, decode64. rewrite Hk, Hn, He, bool_decide_eq_true_2 by done. cbn [negb].
  rewrite Str.to_of_list, RawURLDecode_RawURLEncode.
  2:{ apply Forall_app. split; [apply Forall_replicate; unfold is_byte; lia|done]. }
  set (l := replicate (256 - length nb) 0 ++ nb). assert (length l = 256%nat) as Hl by (unfold l; rewrite length_app, length_replicate; lia).
  replace (RawURLDecode (Str.to_list "AQAB")) with (Some [1; 0; 1]) by (vm_compute; reflexivity).
  assert (SetBytes l = SetBytes nb) as Hs.
  { unfold l, SetBytes. rewrite foldl_app. f_equal. clear. induction (256 - length nb)%nat as [|m IH]; [reflexivity|]. exact IH. }
  destruct l as [|b l'] eqn:El; [discriminate Hl|]. rewrite (proj2 (Nat.ltb_ge _ _)) by lia. rewrite Hs. reflexivity.
Qed.
End jws.
