(* ===== verification/ClientAuth.v ===== *)
(** * ClientAuth: how a client proves who it is at the token endpoint
    ([interfaces/sso/server_token_clientauth.go], the client assertions of
    [server_pairwise.go], the certificate checks of
    [shared/security/tls_client_auth.go], [domains/tenant/client_gate.go]).

    The client store is the in-memory one of [Clients] and is not written here; what is
    written is the store of assertion identifiers of [JTIReplay].  bcrypt, the signature
    schemes, [json.Unmarshal], the workload identity providers and the certificate
    revocation checker are arguments.  Names in certificates are ASCII. *)
From S2P Require Import Prelude Crypto Core Scopes Lifecycle RefreshStore CodeStores DeviceCodes CibaStore Issue RefreshIface GraceCache GrantCore JTIReplay Jose ExchangeDeps AdminPaging Users Clients JwtIssuer Jwks.
Local Open Scope Z_scope.

(** ** Requests *)

(** The subject and names of a certificate, and its key. *)
Inductive PublicKey :=
| RSAKey (n e : Z)
| ECKey (x y : Z)
| EdKey (pub : list Z)
| OtherKey.

Record Certificate := {
  ce_Raw : list Z;
  ce_NotBefore : Z;
  ce_NotAfter : Z;
  ce_Subject : string;
  ce_DNSNames : list string;
  ce_EmailAddresses : list string;
  ce_URIs : list string;
  ce_PublicKey : PublicKey;
}.

(** What the handlers read of a request: the values of the header [Authorization] and
    what [Request.BasicAuth] makes of them, the names present in the form body, the bound
    parameters (those marked present in a JSON body), the tenant its host resolved to and
    the certificate its connection carried. *)
Record AuthRequest := {
  aq_Authorization : list string;
  aq_BasicAuth : option (string * string);
  aq_PostForm : list string;
  aq_ClientID : string;
  aq_ClientSecret : string;
  aq_ClientSecretPresent : bool;
  aq_ClientAssertion : string;
  aq_ClientAssertionType : string;
  aq_ClientAssertionPresent : bool;
  aq_ClientAssertionTypePresent : bool;
  aq_Resource : list string;
  aq_Tenant : option string;
  aq_Cert : option Certificate;
}.

Definition set_client (q : AuthRequest) (id secret : string) : AuthRequest := {|
  aq_Authorization := aq_Authorization q; aq_BasicAuth := aq_BasicAuth q; aq_PostForm := aq_PostForm q; aq_ClientID := id;
  aq_ClientSecret := secret; aq_ClientSecretPresent := aq_ClientSecretPresent q; aq_ClientAssertion := aq_ClientAssertion q;
  aq_ClientAssertionType := aq_ClientAssertionType q; aq_ClientAssertionPresent := aq_ClientAssertionPresent q;
  aq_ClientAssertionTypePresent := aq_ClientAssertionTypePresent q; aq_Resource := aq_Resource q; aq_Tenant := aq_Tenant q;
  aq_Cert := aq_Cert q |}.

Definition BasicClientCreds (q : AuthRequest) : option (string * string) := aq_BasicAuth q.

(** [tenant.ClientOK]. *)
Definition ClientOK (q : AuthRequest) (c : Client) : bool :=
  if decide (cl_TenantID c = "") then true
  else match aq_Tenant q with None => true | Some t => bool_decide (t = cl_TenantID c) end.

(** ** Certificates *)

(** [normalizeDN]: every space goes. *)
Definition normalizeDN (dn : string) : string := Str.of_list (filter (fun c => c <> " "%char) (Str.to_list dn)).
Definition matchSubjectDN (got expected : string) : bool := bool_decide (normalizeDN got = normalizeDN expected).

Definition matchSANDNS (cert : Certificate) (expected : string) : bool :=
  existsb (fun dns => bool_decide (ToLower dns = ToLower expected)) (ce_DNSNames cert).

(** The text before and after the last [@], if there is one. *)
Fixpoint cut_at (l : list ascii) : option (list ascii * list ascii) :=
  match l with
  | [] => None
  | c :: l => match cut_at l with
              | Some (a, b) => Some (c :: a, b)
              | None => if decide (c = "@"%char) then Some ([], l) else None
              end
  end.
Definition split_email (s : string) : option (string * string) :=
  match cut_at (Str.to_list s) with Some (a, b) => Some (Str.of_list a, Str.of_list b) | None => None end.

Definition matchSANEmail (cert : Certificate) (expected : string) : bool :=
  match split_email expected with
  | None => false
  | Some (expLocal, expHost) =>
      existsb (fun email => match split_email email with
                            | None => false
                            | Some (local, host) => bool_decide (ToLower host = ToLower expHost) && bool_decide (local = expLocal)
                            end) (ce_EmailAddresses cert)
  end.

Definition matchSANURI (cert : Certificate) (expected : string) : bool := contains (ce_URIs cert) expected.

(** A constraint that is not registered holds. *)
Definition constrains (expected : string) (matches : string -> bool) : bool := bool_decide (expected = "") || matches expected.

Definition VerifyTLSClientAuth (cert : Certificate) (subjectDN sanDNS sanEmail sanURI : string) : bool :=
  constrains subjectDN (matchSubjectDN (ce_Subject cert)) && constrains sanDNS (matchSANDNS cert) &&
  constrains sanEmail (matchSANEmail cert) && constrains sanURI (matchSANURI cert).

(** The exponent is accumulated in an [int]. *)
Definition decodePublicExponent (b : list Z) : Z := foldl (fun e v => wrap64 (Z.lor (wrap64 (Z.shiftl e 8)) v)) 0 b.

(** [CertPublicKeyMatchesJWK]; a key that cannot be decoded does not match. *)
Definition CertPublicKeyMatchesJWK (cert : Certificate) (jwk : JWK) : bool :=
  if decide (jwk_Kty jwk = "RSA") then
    match ce_PublicKey cert, decode64 (jwk_N jwk), decode64 (jwk_E jwk) with
    | RSAKey n e, Some nb, Some eb => bool_decide (n = SetBytes nb) && bool_decide (e = decodePublicExponent eb)
    | _, _, _ => false
    end
  else if decide (jwk_Kty jwk = "EC") then
    match ce_PublicKey cert, decode64 (jwk_X jwk), decode64 (jwk_Y jwk) with
    | ECKey x y, Some xb, Some yb => bool_decide (x = SetBytes xb) && bool_decide (y = SetBytes yb)
    | _, _, _ => false
    end
  else if decide (jwk_Kty jwk = "OKP") then
    match ce_PublicKey cert, decode64 (jwk_X jwk) with
    | EdKey pub, Some xb => bool_decide (pub = xb)
    | _, _ => false
    end
  else false.

(** ** Credentials presented *)

Definition ClientAuthTLS : string := "tls_client_auth".
Definition ClientAuthSelfSignedTLS : string := "self_signed_tls".
Definition ClientAuthWorkloadIdentity : string := "workload_identity".
Definition ClientAssertionTypeJWTBearer : string := "urn:ietf:params:oauth:client-assertion-type:jwt-bearer".
Definition ClientAssertionTypeWorkloadIdentity : string := "urn:snaplink:params:oauth:client-assertion-type:workload-identity".
Definition AttrWorkloadIdentityProvider : string := "workload_identity_provider".
Definition AttrWorkloadIdentitySubject : string := "workload_identity_subject".
Definition ErrInvalidClient : string := "invalid_client".
Definition ErrTenantMismatch : string := "tenant_mismatch".

Inductive tokenClientAuthKind :=
| tokenAuthInvalid | tokenAuthUnsupportedAssertion | tokenAuthNone | tokenAuthBasic | tokenAuthPost | tokenAuthPrivateKeyJWT
| tokenAuthWorkloadIdentity.

#[export] Instance tokenClientAuthKind_eq_dec : EqDecision tokenClientAuthKind.
Proof. solve_decision. Defined.

Record tokenClientAuthEvidence := { ev_basic : bool; ev_bodySecret : bool; ev_assertion : bool; ev_assertionType : string }.

Definition kind (e : tokenClientAuthEvidence) : tokenClientAuthKind :=
  if (1 <? Z.b2z (ev_basic e) + Z.b2z (ev_bodySecret e) + Z.b2z (ev_assertion e)) then tokenAuthInvalid
  else if ev_basic e then tokenAuthBasic
  else if ev_bodySecret e then tokenAuthPost
  else if negb (ev_assertion e) then tokenAuthNone
  else if decide (ev_assertionType e = ClientAssertionTypeJWTBearer) then tokenAuthPrivateKeyJWT
  else if decide (ev_assertionType e = ClientAssertionTypeWorkloadIdentity) then tokenAuthWorkloadIdentity
  else tokenAuthUnsupportedAssertion.

Definition matches (e : tokenClientAuthEvidence) (method : string) : bool :=
  let k := kind e in
  if decide (method = "") then negb (bool_decide (k = tokenAuthInvalid)) && negb (bool_decide (k = tokenAuthUnsupportedAssertion))
  else if decide (method = "client_secret_basic") then bool_decide (k = tokenAuthBasic)
  else if decide (method = "client_secret_post") then bool_decide (k = tokenAuthPost)
  else if decide (method = "private_key_jwt") then bool_decide (k = tokenAuthPrivateKeyJWT)
  else if decide (method = ClientAuthWorkloadIdentity) then bool_decide (k = tokenAuthWorkloadIdentity)
  else if contains [ClientAuthTLS; ClientAuthSelfSignedTLS; "none"] method then bool_decide (k = tokenAuthNone)
  else false.

(** [None]: more than one [Authorization] header, or one that is not Basic.  With a Basic
    header the body's secret is not recorded. *)
Definition inspectTokenClientAuth (q : AuthRequest) : option (tokenClientAuthEvidence * string * string) :=
  let bodySecret := negb (bool_decide (aq_ClientSecret q = "")) || aq_ClientSecretPresent q || contains (aq_PostForm q) "client_secret" in
  let assertion := negb (bool_decide (aq_ClientAssertion q = "")) || negb (bool_decide (aq_ClientAssertionType q = "")) ||
    aq_ClientAssertionPresent q || aq_ClientAssertionTypePresent q ||
    contains (aq_PostForm q) "client_assertion" || contains (aq_PostForm q) "client_assertion_type" in
  match aq_Authorization q with
  | [] => Some ({| ev_basic := false; ev_bodySecret := bodySecret; ev_assertion := assertion; ev_assertionType := aq_ClientAssertionType q |}, "", "")
  | [_] =>
      match BasicClientCreds q with
      | None => None
      | Some (id, secret) =>
          Some ({| ev_basic := true; ev_bodySecret := false; ev_assertion := assertion; ev_assertionType := aq_ClientAssertionType q |}, id, secret)
      end
  | _ => None
  end.

(** ** Client assertions *)

Definition DefaultClientAssertionMaxLifetime : Z := 5 * GoTime.Minute.

Record assertionClaims := {
  ac_Iss : string;
  ac_Sub : string;
  ac_Aud : list string;
  ac_Exp : Z;
  ac_Nbf : Z;
  ac_Iat : Z;
  ac_JTI : string;
}.

Inductive assertion_error :=
| MalformedJWT | TypDecode | TypUnsupported | ClaimsDecode | IssSub | FormMismatch | AssertionExpired | TooFar | NbfFuture | AudMismatch
| ClientNotFound | ClientInactive | NotPrivateKeyJWT | NoJWKS | BadSignature (e : jws_error) | Replayed.

(** What a server is configured with: the issuer name it publishes, whether it refuses
    when the replay store fails, the workload identity providers, whether it reads client
    certificates, and the revocation checker, which answers [None] on failure. *)
Record AuthDeps := {
  ad_issuer : string;
  ad_replayFailClosed : bool;
  ad_providers : gmap string (string -> string -> option string);
  ad_extractor : bool;
  ad_IsRevoked : option (Certificate -> option bool);
}.

Definition validateAssertionClaims (now : Z) (p : assertionClaims) (formClientID asIssuer : string) : result assertion_error () :=
  if bool_decide (ac_Sub p = "") || negb (bool_decide (ac_Sub p = ac_Iss p)) then Err IssSub
  else if negb (bool_decide (formClientID = "")) && negb (bool_decide (formClientID = ac_Sub p)) then Err FormMismatch
  else if (ac_Exp p =? 0) || GoTime.After now (Unix (ac_Exp p)) then Err AssertionExpired
  else if GoTime.After (Unix (ac_Exp p)) (GoTime.Add now DefaultClientAssertionMaxLifetime) then Err TooFar
  else if negb (ac_Nbf p =? 0) && GoTime.Before now (Unix (ac_Nbf p)) then Err NbfFuture
  else if negb (bool_decide (asIssuer = "")) && negb (contains (ac_Aud p) asIssuer) then Err AudMismatch
  else Ok ().

Definition resolveAssertionClient (clients : MemoryClientStore) (sub : string) : result assertion_error Client :=
  match clients !! sub with
  | None => Err ClientNotFound
  | Some c =>
      if negb (cl_Active c) then Err ClientInactive
      else if negb (contains [""; "private_key_jwt"] (cl_TokenEndpointAuthMethod c)) then Err NotPrivateKeyJWT
      else if bool_decide (length (cl_JWKS c) = 0%nat) then Err NoJWKS
      else Ok c
  end.

Definition enforceAssertionReplay (now : Z) (p : assertionClaims) (replayFailClosed : bool) (replay : option MemoryJTIReplayStore)
    : result assertion_error () * option MemoryJTIReplayStore :=
  match replay with
  | None => (Ok (), None)
  | Some m =>
      if decide (ac_JTI p = "") then (Ok (), Some m)
      else let '(first, m) := MarkSeen now (ac_JTI p) (Unix (ac_Exp p)) m in
           (match first with
            | Err _ => if replayFailClosed then Err Replayed else Ok ()
            | Ok true => Ok ()
            | Ok false => Err Replayed
            end, Some m)
  end.

Section auth.
Context (compare : string -> string -> bool).
Context (ed25519_Verify : list Z -> list Z -> list Z -> bool).
Context (ecdsa_Verify : Curve -> Z * Z -> list Z -> Z -> Z -> bool).
Context (rsa_VerifyPKCS1v15 rsa_VerifyPSS : Z * Z -> option Hash -> list Z -> list Z -> bool).
Context (UnmarshalHeader : list Z -> option JWSHeader).
(** [json.Unmarshal] into a struct of the member [typ] and into [assertionClaims]. *)
Context (UnmarshalTyp : list Z -> option string) (UnmarshalClaims : list Z -> option assertionClaims).
Context (d : AuthDeps) (clients : MemoryClientStore).
Notation VerifyCompactJWS := (VerifyCompactJWS ed25519_Verify ecdsa_Verify rsa_VerifyPKCS1v15 rsa_VerifyPSS UnmarshalHeader).
Notation key_accepts := (key_accepts ed25519_Verify ecdsa_Verify rsa_VerifyPKCS1v15 rsa_VerifyPSS).

Definition parseAssertionTypHeader (segment : list ascii) : result assertion_error () :=
  match RawURLDecode segment with
  | None => Err TypDecode
  | Some hraw =>
      match UnmarshalTyp hraw with
      | None => Err TypDecode
      | Some typ => if contains [""; "JWT"; "client-authentication+jwt"] typ then Ok () else Err TypUnsupported
      end
  end.

Definition decodeAssertionClaims (segment : list ascii) : result assertion_error assertionClaims :=
  match RawURLDecode segment with
  | None => Err ClaimsDecode
  | Some praw => match UnmarshalClaims praw with None => Err ClaimsDecode | Some p => Ok p end
  end.

(** [verifyJWTClientAssertion]: the replay store is touched last. *)
Definition verifyJWTClientAssertion (now : Z) (assertion formClientID : string) (replay : option MemoryJTIReplayStore)
    : result assertion_error string * option MemoryJTIReplayStore :=
  match jws_parts assertion with
  | [p0; p1; p2] =>
      match (_ ← parseAssertionTypHeader p0;
             p ← decodeAssertionClaims p1;
             _ ← validateAssertionClaims now p formClientID (ad_issuer d);
             client ← resolveAssertionClient clients (ac_Sub p);
             match VerifyCompactJWS assertion (cl_JWKS client) AsymmetricJWSAlgs with Err e => Err (BadSignature e) | Ok _ => Ok p end) with
      | Err e => (Err e, replay)
      | Ok p =>
          let '(r, replay) := enforceAssertionReplay now p (ad_replayFailClosed d) replay in
          (match r with Err e => Err e | Ok _ => Ok (ac_Sub p) end, replay)
      end
  | _ => (Err MalformedJWT, replay)
  end.

(** Whether the provider the client is mapped to vouches for the subject it is mapped to. *)
Definition verifyWorkloadIdentityClientAssertion (q : AuthRequest) : bool :=
  if decide (aq_ClientID q = "") then false
  else match clients !! aq_ClientID q with
       | None => false
       | Some client =>
           if negb (bool_decide (cl_TokenEndpointAuthMethod client = ClientAuthWorkloadIdentity)) then false
           else
             let providerName := default "" (cl_Attributes client !! AttrWorkloadIdentityProvider) in
             let expectedSubject := default "" (cl_Attributes client !! AttrWorkloadIdentitySubject) in
             if bool_decide (providerName = "") || bool_decide (expectedSubject = "") then false
             else match ad_providers d !! providerName with
                  | None => false
                  | Some provider => bool_decide (provider (aq_ClientAssertion q) (ad_issuer d) = Some expectedSubject)
                  end
       end.

Notation response := (Z * string)%type.

Definition resolveAssertedClientID (now : Z) (q : AuthRequest) (replay : option MemoryJTIReplayStore)
    : result response AuthRequest * option MemoryJTIReplayStore :=
  if bool_decide (aq_ClientAssertion q = "") && bool_decide (aq_ClientAssertionType q = "") then (Ok q, replay)
  else if decide (aq_ClientAssertionType q = ClientAssertionTypeJWTBearer) then
    let '(r, replay) := verifyJWTClientAssertion now (aq_ClientAssertion q) (aq_ClientID q) replay in
    (match r with Err _ => Err (401, ErrInvalidClient) | Ok id => Ok (set_client q id (aq_ClientSecret q)) end, replay)
  else if decide (aq_ClientAssertionType q = ClientAssertionTypeWorkloadIdentity) then
    (if verifyWorkloadIdentityClientAssertion q then Ok q else Err (401, ErrInvalidClient), replay)
  else (Err (400, ErrInvalidRequest), replay).

(** [mtlsCertRevoked]: a checker that fails is taken for a certificate in good standing. *)
Definition mtlsCertRevoked (cert : Certificate) : bool :=
  match ad_IsRevoked d with
  | None => false
  | Some check => match check cert with None => false | Some revoked => revoked end
  end.

Definition verifyTLSClientAuthCert (client : Client) (cert : Certificate) : bool :=
  VerifyTLSClientAuth cert (cl_TLSClientAuthSubjectDN client) (cl_TLSClientAuthSANDNS client) (cl_TLSClientAuthSANEmail client)
    (cl_TLSClientAuthSANURI client) && negb (mtlsCertRevoked cert).

Definition verifySelfSignedTLSCert (client : Client) (cert : Certificate) : bool :=
  existsb (CertPublicKeyMatchesJWK cert) (cl_JWKS client) && negb (mtlsCertRevoked cert).

Definition authenticateMTLSClient (q : AuthRequest) (client : Client) : bool :=
  let authMethod := cl_TokenEndpointAuthMethod client in
  if negb (contains [ClientAuthTLS; ClientAuthSelfSignedTLS] authMethod) then false
  else if negb (ad_extractor d) then false
  else match aq_Cert q with
       | None => false
       | Some cert => if decide (authMethod = ClientAuthTLS) then verifyTLSClientAuthCert client cert else verifySelfSignedTLSCert client cert
       end.

Definition verifyTokenClientAuth (now : Z) (client : Client) (q : AuthRequest) (evidence : tokenClientAuthEvidence) : bool :=
  let method := cl_TokenEndpointAuthMethod client in
  let k := kind evidence in
  if negb (matches evidence method) then false
  else if bool_decide (k = tokenAuthPrivateKeyJWT) || bool_decide (k = tokenAuthWorkloadIdentity) || bool_decide (method = "none") then true
  else if contains [ClientAuthTLS; ClientAuthSelfSignedTLS] method then authenticateMTLSClient q client
  else is_ok (ValidateSecret compare now (aq_ClientID q) (aq_ClientSecret q) clients).

(** [authenticateTokenClient]: the client, whether Basic was used, and the request with
    the identity established. *)
Definition authenticateTokenClient (now : Z) (q : AuthRequest) (replay : option MemoryJTIReplayStore)
    : result response (Client * bool * AuthRequest) * option MemoryJTIReplayStore :=
  match inspectTokenClientAuth q with
  | None => (Err (401, ErrInvalidClient), replay)
  | Some (evidence, id, secret) =>
      if decide (kind evidence = tokenAuthInvalid) then (Err (401, ErrInvalidClient), replay)
      else
        let q := if ev_basic evidence then set_client q id secret else q in
        let '(r, replay) := resolveAssertedClientID now q replay in
        (match r with
         | Err e => Err e
         | Ok q =>
             match clients !! aq_ClientID q with
             | None => Err (401, ErrInvalidClient)
             | Some client =>
                 if negb (cl_Active client) then Err (401, ErrInvalidClient)
                 else if negb (ClientOK q client) then Err (403, ErrTenantMismatch)
                 else if negb (verifyTokenClientAuth now client q evidence) then Err (401, ErrInvalidClient)
                 else if negb (AreResourcesAllowed client (aq_Resource q)) then Err (400, ErrInvalidTarget)
                 else Ok (client, ev_basic evidence, q)
             end
         end, replay)
  end.

(** ** What authentication rests on *)

(** The assertion [a] was signed with a key of [c], for this server, by the client it
    names, and is fresh. *)
Definition assertion_ok (now : Z) (a : string) (c : Client) (p : assertionClaims) : Prop :=
  exists h pl s alg k sig, jws_parts a = [h; pl; s] /\ RawURLDecode pl ≫= UnmarshalClaims = Some p /\
    ac_Sub p <> "" /\ ac_Iss p = ac_Sub p /\ clients !! ac_Sub p = Some c /\ cl_Active c = true /\
    now <= Unix (ac_Exp p) <= now + DefaultClientAssertionMaxLifetime /\ (ac_Nbf p <> 0 -> Unix (ac_Nbf p) <= now) /\
    (ad_issuer d <> "" -> ad_issuer d ∈ ac_Aud p) /\
    k ∈ cl_JWKS c /\ alg ∈ AsymmetricJWSAlgs /\ key_accepts alg k (bytes (h ++ Jwks.dot :: pl)) sig.

Lemma validateAssertion_Ok now p form iss : validateAssertionClaims now p form iss = Ok () ->
  ac_Sub p <> "" /\ ac_Iss p = ac_Sub p /\ (form <> "" -> form = ac_Sub p) /\
  now <= Unix (ac_Exp p) <= now + DefaultClientAssertionMaxLifetime /\ (ac_Nbf p <> 0 -> Unix (ac_Nbf p) <= now) /\ (iss <> "" -> iss ∈ ac_Aud p).
Proof.
  unfold validateAssertionClaims, GoTime.After, GoTime.Before, GoTime.Add. intros H.
  destruct (bool_decide (ac_Sub p = "")) eqn:H1; [done|]. destruct (bool_decide (ac_Sub p = ac_Iss p)) eqn:H2; [|done]. cbn [orb negb] in H.
  destruct (_ && _) eqn:H3 in H; [done|]. destruct (_ || _) eqn:H4 in H; [done|]. destruct (_ <? _) eqn:H5 in H; [done|].
  destruct (_ && _) eqn:H6 in H; [done|]. destruct (_ && _) eqn:H7 in H; [done|].
  apply bool_decide_eq_false in H1. apply bool_decide_eq_true in H2. apply orb_false_iff in H4 as [H4 H4']. split_and!; [done|done| |lia..| |].
  - intros Hf. apply andb_false_iff in H3 as [H3|H3]; apply negb_false_iff, bool_decide_eq_true in H3; done.
  - intros Hn. apply andb_false_iff in H6 as [H6|H6]; lia.
  - intros Hi. apply andb_false_iff in H7 as [H7|H7]; apply negb_false_iff in H7; [by apply bool_decide_eq_true in H7|by apply contains_spec].
Qed.

Lemma resolveAssertion_Ok sub c : resolveAssertionClient clients sub = Ok c ->
  clients !! sub = Some c /\ cl_Active c = true /\ cl_TokenEndpointAuthMethod c ∈ [""; "private_key_jwt"].
Proof.
  unfold resolveAssertionClient. destruct (clients !! sub) as [c'|]; [|done]. destruct (cl_Active c') eqn:Ha; [|done].
  destruct (contains _ _) eqn:Hm; [|done]. case_bool_decide; [done|]. intros [= ->]. by apply contains_spec in Hm.
Qed.

Lemma verifyAssertion_Ok now a form replay id replay' : verifyJWTClientAssertion now a form replay = (Ok id, replay') ->
  exists p c, ac_Sub p = id /\ (form <> "" -> form = id) /\ cl_TokenEndpointAuthMethod c ∈ [""; "private_key_jwt"] /\ assertion_ok now a c p /\
    enforceAssertionReplay now p (ad_replayFailClosed d) replay = (Ok (), replay').
Proof.
  unfold verifyJWTClientAssertion. destruct (jws_parts a) as [|h [|pl [|s [|]]]] eqn:Hparts; try done.
  destruct (_ ≫= _) as [p|] eqn:Hp; [|done]. apply result_bind_ok in Hp as ([] & _ & Hp). apply result_bind_ok in Hp as (p' & Hd & Hp).
  apply result_bind_ok in Hp as ([] & Hv & Hp). apply result_bind_ok in Hp as (c & Hc & Hp).
  destruct (Jwks.VerifyCompactJWS _ _ _ _ _ a (cl_JWKS c) AsymmetricJWSAlgs) as [payload|] eqn:Hs; [|done]. injection Hp as ->.
  destruct (enforceAssertionReplay now p _ replay) as [[[]|] m] eqn:He; [|done]. intros [= <- <-].
  apply validateAssertion_Ok in Hv as (H1 & H2 & H3 & H4 & H5 & H6). apply resolveAssertion_Ok in Hc as (H7 & H8 & H9).
  apply verify_compact_sound in Hs as (h' & pl' & s' & hb & sig & hdr & k & Hq & _ & _ & _ & _ & Halg & _ & _ & _ & Hk & _ & Hacc).
  assert (h' = h /\ pl' = pl) as [-> ->] by (rewrite Hparts in Hq; by injection Hq as -> -> ->).
  exists p, c. split_and!; try done. exists h, pl, s, (jh_Alg hdr), k, sig. split_and!; try done; [|lia..].
  unfold decodeAssertionClaims in Hd. destruct (RawURLDecode pl) as [praw|]; [|done]. cbn. destruct (UnmarshalClaims praw); [|done]. by injection Hd as ->.
Qed.

(** How the request [q], which becomes [q'] once its client is identified, proves that it
    comes from the client [c]. *)
Inductive proves (now : Z) (q q' : AuthRequest) (c : Client) : Prop :=
| proves_secret :
    (aq_Authorization q = [] /\ q' = q /\ cl_TokenEndpointAuthMethod c ∈ [""; "client_secret_post"] \/
     aq_BasicAuth q = Some (aq_ClientID q', aq_ClientSecret q') /\ cl_TokenEndpointAuthMethod c ∈ [""; "client_secret_basic"]) ->
    ValidateSecret compare now (aq_ClientID q') (aq_ClientSecret q') clients = Ok () -> proves now q q' c
| proves_assertion p :
    cl_TokenEndpointAuthMethod c ∈ [""; "private_key_jwt"] -> assertion_ok now (aq_ClientAssertion q) c p -> ac_Sub p = aq_ClientID q' -> proves now q q' c
| proves_workload provider expected :
    cl_TokenEndpointAuthMethod c = ClientAuthWorkloadIdentity -> expected <> "" -> cl_Attributes c !! AttrWorkloadIdentitySubject = Some expected ->
    ad_providers d !! default "" (cl_Attributes c !! AttrWorkloadIdentityProvider) = Some provider ->
    provider (aq_ClientAssertion q) (ad_issuer d) = Some expected -> proves now q q' c
| proves_certificate cert :
    aq_Cert q = Some cert -> mtlsCertRevoked cert = false ->
    (cl_TokenEndpointAuthMethod c = ClientAuthTLS /\
       VerifyTLSClientAuth cert (cl_TLSClientAuthSubjectDN c) (cl_TLSClientAuthSANDNS c) (cl_TLSClientAuthSANEmail c) (cl_TLSClientAuthSANURI c) = true \/
     cl_TokenEndpointAuthMethod c = ClientAuthSelfSignedTLS /\ exists k, k ∈ cl_JWKS c /\ CertPublicKeyMatchesJWK cert k = true) -> proves now q q' c
| proves_nothing :
    cl_TokenEndpointAuthMethod c = "none" -> aq_Authorization q = [] -> aq_ClientSecret q = "" -> aq_ClientAssertion q = "" ->
    aq_ClientAssertionType q = "" -> proves now q q' c.

(** The credentials a request carries, by what [inspectTokenClientAuth] makes of it. *)
Lemma inspect_Some q ev id secret : inspectTokenClientAuth q = Some (ev, id, secret) -> kind ev <> tokenAuthInvalid ->
  ev_assertionType ev = aq_ClientAssertionType q /\
  (ev_assertion ev = false -> aq_ClientAssertion q = "" /\ aq_ClientAssertionType q = "") /\
  (kind ev = tokenAuthBasic /\ ev_basic ev = true /\ ev_assertion ev = false /\ aq_BasicAuth q = Some (id, secret) \/
   ev_basic ev = false /\ aq_Authorization q = [] /\
   (kind ev = tokenAuthPost /\ ev_assertion ev = false \/
    kind ev = tokenAuthNone /\ ev_assertion ev = false /\ aq_ClientSecret q = "" \/
    ev_assertion ev = true /\ (kind ev = tokenAuthPrivateKeyJWT /\ aq_ClientAssertionType q = ClientAssertionTypeJWTBearer \/
      kind ev = tokenAuthWorkloadIdentity /\ aq_ClientAssertionType q = ClientAssertionTypeWorkloadIdentity \/
      kind ev = tokenAuthUnsupportedAssertion))).
Proof.
  unfold inspectTokenClientAuth. set (body := _ || contains _ "client_secret"). set (asr := _ || contains _ "client_assertion_type").
  assert (body = false -> aq_ClientSecret q = "") as Hbody.
  { unfold body. intros [[H%negb_false_iff _]%orb_false_iff _]%orb_false_iff. by apply bool_decide_eq_true in H. }
  assert (asr = false -> aq_ClientAssertion q = "" /\ aq_ClientAssertionType q = "") as Hasr.
  { unfold asr. rewrite !orb_false_iff, !negb_false_iff, !bool_decide_eq_true. tauto. }
  clearbody body asr. destruct (aq_Authorization q) as [|h [|]]; [| |done].
  - intros [= <- <- <-]. unfold kind. cbn [ev_basic ev_bodySecret ev_assertion ev_assertionType].
    destruct body, asr; cbn; intros Hk; try done; (split; [done|]); (split; [done || by auto|]); right.
    + by auto.
    + split_and!; [done..|]. right. right. split; [done|].
      destruct (decide (_ = ClientAssertionTypeJWTBearer)); [by auto|]. destruct (decide (_ = ClientAssertionTypeWorkloadIdentity)); by auto.
    + split_and!; [done..|]. right. left. by auto.
  - unfold BasicClientCreds. destruct (aq_BasicAuth q) as [[id' secret']|]; [|done]. intros [= <- <- <-].
    unfold kind. cbn. destruct asr; cbn; [done|]. intros _. split_and!; [done|by auto|]. by left.
Qed.

Lemma matches_kind ev method k : matches ev method = true -> kind ev = k -> k <> tokenAuthInvalid /\ k <> tokenAuthUnsupportedAssertion /\
  match k with
  | tokenAuthNone => method ∈ [""; ClientAuthTLS; ClientAuthSelfSignedTLS; "none"]
  | tokenAuthBasic => method ∈ [""; "client_secret_basic"]
  | tokenAuthPost => method ∈ [""; "client_secret_post"]
  | tokenAuthPrivateKeyJWT => method ∈ [""; "private_key_jwt"]
  | tokenAuthWorkloadIdentity => method ∈ [""; ClientAuthWorkloadIdentity]
  | _ => True
  end.
Proof.
  unfold matches. intros Hm Hk. rewrite Hk in Hm. destruct (decide (method = "")) as [->|_].
  { apply andb_true_iff in Hm as [H1%negb_true_iff H2%negb_true_iff]. apply bool_decide_eq_false in H1, H2. split_and!; [done|done|]. destruct k; done || by left. }
  repeat match type of Hm with (if decide (?a = ?b) then _ else _) = true =>
    destruct (decide (a = b)) as [->|_]; [apply bool_decide_eq_true in Hm as ->; split_and!; [done|done|right; by left]|] end.
  destruct (contains _ method) eqn:Hc; [|done]. apply bool_decide_eq_true in Hm as ->. split_and!; [done|done|right; by apply contains_spec in Hc].
Qed.

Lemma ValidateSecret_Ok_is now id secret : is_ok (ValidateSecret compare now id secret clients) = true -> ValidateSecret compare now id secret clients = Ok ().
Proof. by destruct (ValidateSecret _ _ _ _ _) as [[]|]. Qed.

Lemma secret_method m : m ∈ [""; "client_secret_basic"; "client_secret_post"] ->
  bool_decide (m = "none") = false /\ contains [ClientAuthTLS; ClientAuthSelfSignedTLS] m = false.
Proof. intros H. repeat (apply elem_of_cons in H as [->|H]; [by split; vm_compute|]). by apply not_elem_of_nil in H. Qed.

(** What the client's own check adds to the identity established before. *)
Lemma verifyTokenClientAuth_proves now q q' c ev id secret :
  inspectTokenClientAuth q = Some (ev, id, secret) -> kind ev <> tokenAuthInvalid ->
  clients !! aq_ClientID q' = Some c -> aq_Cert q' = aq_Cert q ->
  (kind ev = tokenAuthBasic -> aq_ClientID q' = id /\ aq_ClientSecret q' = secret) ->
  (ev_assertion ev = false -> kind ev <> tokenAuthBasic -> q' = q) ->
  (kind ev = tokenAuthPrivateKeyJWT -> exists p, ac_Sub p = aq_ClientID q' /\ assertion_ok now (aq_ClientAssertion q) c p) ->
  (kind ev = tokenAuthWorkloadIdentity -> aq_ClientID q' = aq_ClientID q /\ verifyWorkloadIdentityClientAssertion q = true) ->
  verifyTokenClientAuth now c q' ev = true -> proves now q q' c.
Proof.
  intros Hi Hk Hc Hcert Hb Hsame Hj Hw. unfold verifyTokenClientAuth.
  destruct (matches ev (cl_TokenEndpointAuthMethod c)) eqn:Hm; [|done]. cbn [negb].
  pose proof (inspect_Some _ _ _ _ Hi Hk) as (Ht & Hna & Hcase).
  destruct Hcase as [(Hkb & _ & _ & Hbasic)|(_ & Hauth & [[Hkp Ha]|[(Hkn & Ha & Hs)|[Ha [[Hkj Hty]|[[Hkw Hty]|Hku]]]]])].
  - pose proof (matches_kind _ _ _ Hm Hkb) as (_ & _ & Hmeth). cbn in Hmeth. rewrite Hkb. destruct (Hb Hkb) as [E1 E2].
    destruct (secret_method (cl_TokenEndpointAuthMethod c)) as [-> ->]; [set_solver|].
    intros Hv%ValidateSecret_Ok_is. apply proves_secret; [right; by rewrite E1, E2|done].
  - pose proof (matches_kind _ _ _ Hm Hkp) as (_ & _ & Hmeth). cbn in Hmeth. rewrite Hkp. rewrite Hsame by (done || by rewrite Hkp).
    destruct (secret_method (cl_TokenEndpointAuthMethod c)) as [-> ->]; [set_solver|].
    intros Hv%ValidateSecret_Ok_is. apply proves_secret; [by left|done].
  - pose proof (matches_kind _ _ _ Hm Hkn) as (_ & _ & Hmeth). cbn in Hmeth. rewrite Hkn. rewrite Hsame in * by (done || by rewrite Hkn).
    destruct (Hna Ha) as [Ha1 Ha2]. cbn [bool_decide decide_rel orb]. apply elem_of_cons in Hmeth as [Hmeth|Hmeth].
    { rewrite Hmeth. intros Hv%ValidateSecret_Ok_is. apply proves_secret; [left; rewrite Hmeth; split_and!; [done|done|by left]|done]. }
    destruct (bool_decide (cl_TokenEndpointAuthMethod c = "none")) eqn:Hnone.
    { apply bool_decide_eq_true in Hnone. intros _. by apply proves_nothing. }
    apply bool_decide_eq_false in Hnone. cbn [bool_decide decide_rel orb].
    assert (cl_TokenEndpointAuthMethod c ∈ [ClientAuthTLS; ClientAuthSelfSignedTLS]) as Htls by set_solver.
    rewrite (proj2 (contains_spec _ _) Htls). unfold authenticateMTLSClient. cbv zeta. rewrite ?(proj2 (contains_spec _ _) Htls). cbn [negb].
    destruct (ad_extractor d); [|done]. cbn [negb]. destruct (aq_Cert q) as [cert|] eqn:Hce; [|done].
    destruct (decide (cl_TokenEndpointAuthMethod c = ClientAuthTLS)) as [E|E].
    + intros [H1 H2%negb_true_iff]%andb_true_iff. apply (proves_certificate _ _ _ _ cert); [done..|by left].
    + intros [H1 H2%negb_true_iff]%andb_true_iff. apply (proves_certificate _ _ _ _ cert); [done..|right].
      split; [set_solver|]. apply existsb_exists in H1 as (k & Hin & H1). exists k. split; [by apply list_elem_of_In|done].
  - intros _. destruct (Hj Hkj) as (p & Hp & Hok). apply (proves_assertion _ _ _ _ p); [|done..]. by apply (matches_kind _ _ _ Hm Hkj).
  - intros _. destruct (Hw Hkw) as [Heq Hv]. unfold verifyWorkloadIdentityClientAssertion in Hv. rewrite <- Heq, Hc in Hv.
    destruct (decide (aq_ClientID q' = "")); [done|].
    destruct (bool_decide (cl_TokenEndpointAuthMethod c = ClientAuthWorkloadIdentity)) eqn:Hmeth; [|done]. apply bool_decide_eq_true in Hmeth.
    cbn [negb] in Hv. destruct (_ || _) eqn:Hor in Hv; [done|]. apply orb_false_iff in Hor as [_ Hor]. apply bool_decide_eq_false in Hor.
    destruct (ad_providers d !! _) as [provider|] eqn:Hpr; [|done]. apply bool_decide_eq_true in Hv.
    destruct (cl_Attributes c !! AttrWorkloadIdentitySubject) as [ex|] eqn:Hex; [|done].
    by apply (proves_workload _ _ _ _ provider ex).
  - by pose proof (matches_kind _ _ _ Hm Hku) as (_ & [] & _).
Qed.

Lemma resolveAsserted_Ok now q replay q1 replay' : resolveAssertedClientID now q replay = (Ok q1, replay') ->
  (aq_ClientAssertion q = "" /\ aq_ClientAssertionType q = "" /\ q1 = q) \/
  (aq_ClientAssertionType q = ClientAssertionTypeJWTBearer /\ q1 = set_client q (aq_ClientID q1) (aq_ClientSecret q) /\
     exists p c, ac_Sub p = aq_ClientID q1 /\ assertion_ok now (aq_ClientAssertion q) c p) \/
  (aq_ClientAssertionType q = ClientAssertionTypeWorkloadIdentity /\ q1 = q /\ verifyWorkloadIdentityClientAssertion q = true).
Proof.
  unfold resolveAssertedClientID. destruct (_ && _) eqn:Hn.
  { apply andb_true_iff in Hn as [H1 H2]. apply bool_decide_eq_true in H1, H2. intros [= <- <-]. by left. }
  destruct (decide (aq_ClientAssertionType q = ClientAssertionTypeJWTBearer)) as [E|_].
  { destruct (verifyJWTClientAssertion _ _ _ _) as [[id|] r] eqn:Hv; [|done]. intros [= <- <-]. right. left. split_and!; [done|done|].
    apply verifyAssertion_Ok in Hv as (p & c & H1 & _ & _ & H2 & _). by exists p, c. }
  destruct (decide _) as [E|_]; [|done]. destruct (verifyWorkloadIdentityClientAssertion q) eqn:Hv; [|done]. intros [= <- <-]. by auto.
Qed.

Lemma kind_type ev : (kind ev = tokenAuthPrivateKeyJWT -> ev_assertionType ev = ClientAssertionTypeJWTBearer) /\
  (kind ev = tokenAuthWorkloadIdentity -> ev_assertionType ev = ClientAssertionTypeWorkloadIdentity) /\
  (ev_assertion ev = false -> kind ev <> tokenAuthPrivateKeyJWT /\ kind ev <> tokenAuthWorkloadIdentity).
Proof.
  unfold kind. destruct ev as [[] [] [] ty]; cbn; try done; destruct (decide (ty = ClientAssertionTypeJWTBearer)); try done;
    destruct (decide (ty = ClientAssertionTypeWorkloadIdentity)); done.
Qed.

(** What it takes to pass [authenticateTokenClient]. *)
Lemma authenticated_client now q replay c basic q' replay' :
  authenticateTokenClient now q replay = (Ok (c, basic, q'), replay') ->
  clients !! aq_ClientID q' = Some c /\ cl_Active c = true /\ AreResourcesAllowed c (aq_Resource q) = true /\
  (cl_TenantID c <> "" -> forall t, aq_Tenant q = Some t -> t = cl_TenantID c) /\ proves now q q' c.
Proof.
  unfold authenticateTokenClient. destruct (inspectTokenClientAuth q) as [[[ev id] secret]|] eqn:Hi; [|done].
  destruct (decide (kind ev = tokenAuthInvalid)) as [|Hk]; [done|]. set (q0 := if ev_basic ev then _ else q).
  destruct (resolveAssertedClientID now q0 replay) as [[q1|] r] eqn:Hr; [|done].
  destruct (clients !! aq_ClientID q1) as [c1|] eqn:Hc; [|done]. destruct (cl_Active c1) eqn:Ha; [|done]. cbn [negb].
  destruct (ClientOK q1 c1) eqn:Ht; [|done]. destruct (verifyTokenClientAuth now c1 q1 ev) eqn:Hv; [|done].
  destruct (AreResourcesAllowed c1 (aq_Resource q1)) eqn:Hres; [|done]. cbn [negb]. intros [= <- <- <- <-].
  assert (aq_Resource q1 = aq_Resource q /\ aq_Tenant q1 = aq_Tenant q /\ aq_Cert q1 = aq_Cert q) as (Hres' & Hten & Hcert).
  { assert (aq_Resource q0 = aq_Resource q /\ aq_Tenant q0 = aq_Tenant q /\ aq_Cert q0 = aq_Cert q) as Hq0 by (unfold q0; by destruct (ev_basic ev)).
    apply resolveAsserted_Ok in Hr as [(_ & _ & ->)|[(_ & -> & _)|(_ & -> & _)]]; exact Hq0. }
  rewrite Hres' in Hres. split_and!; try done.
  { intros Hne t Hq. unfold ClientOK in Ht. destruct (decide _); [done|]. rewrite Hten, Hq in Ht. by apply bool_decide_eq_true in Ht. }
  pose proof (inspect_Some _ _ _ _ Hi Hk) as (_ & Hna & Hcase).
  pose proof (kind_type ev) as (Kj & Kw & Kn). pose proof (inspect_Some _ _ _ _ Hi Hk) as (Hty & _).
  destruct Hcase as [(Hkb & Hb & Hnas & _)|(Hb & _ & Hcase)]; unfold q0 in Hr; rewrite Hb in Hr.
  - destruct (Hna Hnas) as [Ha1 Ha2]. apply resolveAsserted_Ok in Hr as [(_ & _ & Hq1)|[(H1 & _)|(H1 & _)]]; [|cbn in H1; rewrite Ha2 in H1; discriminate H1..].
    destruct (Kn Hnas). apply (verifyTokenClientAuth_proves now q q1 c1 ev id secret); try done. by rewrite Hq1.
  - assert (kind ev <> tokenAuthBasic) as Hnb.
    { destruct Hcase as [[-> _]|[[-> _]|[_ [[-> _]|[[-> _]| ->]]]]]; done. }
    rewrite Hty in Kj, Kw. apply (verifyTokenClientAuth_proves now q q1 c1 ev id secret); try done; intros Hkk.
    + intros _. destruct (Hna Hkk) as [Ha1 Ha2]. by apply resolveAsserted_Ok in Hr as [(_ & _ & ->)|[(H1 & _)|(H1 & _)]]; [|rewrite Ha2 in H1; discriminate H1..].
    + specialize (Kj Hkk). apply resolveAsserted_Ok in Hr as [(_ & H1 & _)|[(_ & _ & p & c' & Hp & Hok)|(H1 & _)]]; [rewrite H1 in Kj; discriminate Kj| |rewrite H1 in Kj; discriminate Kj].
      exists p. split; [done|]. replace c1 with c'; [done|]. destruct Hok as (? & ? & ? & ? & ? & ? & _ & _ & _ & _ & Hok & _). congruence.
    + specialize (Kw Hkk). apply resolveAsserted_Ok in Hr as [(_ & H1 & _)|[(H1 & _)|(_ & -> & Hw)]]; [rewrite H1 in Kw; discriminate Kw|rewrite H1 in Kw; discriminate Kw|done].
Qed.

(** C7 — The token endpoint serves a request for a client only if it comes from that
    client: it is registered, active and of the tenant of the host, and the request
    proves itself by the method registered for the client (any, for a client registered
    without one): its secret, an assertion signed with one of its keys that names it as
    issuer and subject and this server as audience and has not expired, the workload
    identity it is mapped to, a certificate with its names or keys; or the client is
    public and no credential is offered. *)
Theorem client_authentication_sound now q replay c basic q' replay' :
  authenticateTokenClient now q replay = (Ok (c, basic, q'), replay') ->
  clients !! aq_ClientID q' = Some c /\ cl_Active c = true /\ AreResourcesAllowed c (aq_Resource q) = true /\
  (cl_TenantID c <> "" -> forall t, aq_Tenant q = Some t -> t = cl_TenantID c) /\ proves now q q' c.
Proof. intros H. exact (authenticated_client _ _ _ _ _ _ _ H). Qed.

(** With a Basic header, a secret in the body is not a second credential: it changes
    nothing. *)
Lemma basic_with_body_secret now q h s replay : aq_Authorization q = [h] ->
  authenticateTokenClient now (set_client q (aq_ClientID q) s) replay = authenticateTokenClient now q replay.
Proof.
  intros Ha. unfold authenticateTokenClient, inspectTokenClientAuth. cbn [set_client aq_Authorization]. rewrite Ha.
  unfold BasicClientCreds. cbn [set_client aq_BasicAuth]. by destruct (aq_BasicAuth q) as [[id secret]|].
Qed.
End auth.

(** ** Replays *)

Section replays.
Context (ed25519_Verify : list Z -> list Z -> list Z -> bool).
Context (ecdsa_Verify : Curve -> Z * Z -> list Z -> Z -> Z -> bool).
Context (rsa_VerifyPKCS1v15 rsa_VerifyPSS : Z * Z -> option Hash -> list Z -> list Z -> bool).
Context (UnmarshalHeader : list Z -> option JWSHeader).
Context (UnmarshalTyp : list Z -> option string) (UnmarshalClaims : list Z -> option assertionClaims).
Notation verifyAssertion := (verifyJWTClientAssertion ed25519_Verify ecdsa_Verify rsa_VerifyPKCS1v15 rsa_VerifyPSS UnmarshalHeader UnmarshalTyp UnmarshalClaims).

(** The claims of an assertion. *)
Definition claims_of (a : string) : option assertionClaims :=
  match jws_parts a with [_; pl; _] => RawURLDecode pl ≫= UnmarshalClaims | _ => None end.

Lemma verifyAssertion_claims d clients now a form replay : 
  (exists e, (verifyAssertion d clients now a form replay).1 = Err e) \/
  exists p, claims_of a = Some p /\ now <= Unix (ac_Exp p) /\
    enforceAssertionReplay now p (ad_replayFailClosed d) replay = (Ok (), (verifyAssertion d clients now a form replay).2).
Proof.
  destruct (verifyAssertion d clients now a form replay) as [[id|e] r] eqn:Hv; [right|left; by exists e].
  apply verifyAssertion_Ok in Hv as (p & c & _ & _ & _ & Hok & He). exists p. cbn [snd].
  destruct Hok as (h & pl & s & alg & k & sig & Hparts & Hp & _ & _ & _ & _ & Ht & _). unfold claims_of. rewrite Hparts. split_and!; [done|lia|done].
Qed.

(** A client assertion with an identifier authenticates at most once, wherever it is
    presented next: from its acceptance on, whatever other identifiers the replay store
    records or sweeps and whatever the clients and the configuration have become, it is
    refused, except at the very instant it expires. *)
Theorem assertion_single_use d d' clients clients' now a form m id m1 tr p :
  verifyAssertion d clients now a form (Some m) = (Ok id, Some m1) ->
  ad_replayFailClosed d = true \/ jti_MaxEntries m <= 0 ->
  claims_of a = Some p -> ac_JTI p <> "" ->
  Forall (fun x => x.1 < Unix (ac_Exp p) /\ x.2 <> JForget (ac_JTI p)) tr ->
  forall now' form', now' <> Unix (ac_Exp p) -> exists e, (verifyAssertion d' clients' now' a form' (Some (jti_run tr m1))).1 = Err e.
Proof.
  intros Hv Hrec Hc Hne Htr now' form' Hnow.
  assert (MarkSeen now (ac_JTI p) (Unix (ac_Exp p)) m = (Ok true, m1) /\ now <= Unix (ac_Exp p)) as [Hm Hle].
  { destruct (verifyAssertion_claims d clients now a form (Some m)) as [[e He]|(p' & Hp & Hle & He)]; rewrite Hv in He; [done|].
    assert (p' = p) as -> by congruence. split; [|done]. unfold enforceAssertionReplay in He. rewrite decide_False in He by done.
    destruct (MarkSeen now (ac_JTI p) (Unix (ac_Exp p)) m) as [[[]|e] m2] eqn:Hms; [by injection He as ->|done|].
    apply MarkSeen_Err in Hms. destruct Hrec as [Hrec|Hrec]; [by rewrite Hrec in He|lia]. }
  destruct (verifyAssertion_claims d' clients' now' a form' (Some (jti_run tr m1))) as [|(p' & Hp & Hle' & He)]; [done|].
  assert (p' = p) as -> by congruence. unfold enforceAssertionReplay in He. rewrite decide_False in He by done.
  assert (recorded_expiry now (Unix (ac_Exp p)) = Unix (ac_Exp p)) as Hr.
  { unfold recorded_expiry, GoTime.Before. by rewrite (proj2 (Z.ltb_ge _ _)). }
  pose proof (jti_replay_detected now (ac_JTI p) (Unix (ac_Exp p)) m m1 tr now' (Unix (ac_Exp p)) Hne Hm) as Hd. rewrite Hr in Hd.
  specialize (Hd Htr ltac:(lia)). destruct (MarkSeen now' _ _ _) as [r m2]. cbn in Hd. by rewrite Hd in He.
Qed.

(** An assertion without an identifier can be presented again and again. *)
Lemma assertion_without_jti d clients now a form m id r p :
  verifyAssertion d clients now a form m = (Ok id, r) -> claims_of a = Some p -> ac_JTI p = "" -> r = m.
Proof.
  intros Hv Hc Hj. destruct (verifyAssertion_claims d clients now a form m) as [[e He]|(p' & Hp & _ & He)]; rewrite Hv in He; [done|].
  assert (p' = p) as -> by congruence. unfold enforceAssertionReplay in He. destruct m; [|by injection He].
  rewrite decide_True in He by done. by injection He.
Qed.
End replays.

(** Subjects of certificates are compared without their spaces, so two different names
    can match. *)
Lemma subject_spaces_ignored : matchSubjectDN "CN=re ports,O=Acme" "CN=reports,O=Acme" = true.
Proof. vm_compute. reflexivity. Qed.

(** ** Witnesses *)

Definition toy_key : list Z := replicate 32 7.
Definition toy_jwk : JWK := {|
  jwk_Kty := "OKP"; jwk_Use := "sig"; jwk_Alg := "EdDSA"; jwk_Kid := "k1"; jwk_Crv := "Ed25519"; jwk_X := Str.of_list (Base64.RawURLEncode toy_key);
  jwk_Y := ""; jwk_N := ""; jwk_E := "" |}.
Definition with_keys (c : Client) (method : string) (keys : list JWK) (attributes : gmap string string) : Client := {|
  cl_ID := cl_ID c; cl_Secret := cl_Secret c; cl_Name := cl_Name c; cl_RedirectURIs := cl_RedirectURIs c;
  cl_RedirectURIPatterns := cl_RedirectURIPatterns c; cl_AllowedScopes := cl_AllowedScopes c;
  cl_AllowedAuthenticators := cl_AllowedAuthenticators c; cl_AllowedProviderIDs := cl_AllowedProviderIDs c;
  cl_LoginPageURI := cl_LoginPageURI c; cl_TokenStrategy := cl_TokenStrategy c; cl_Active := cl_Active c;
  cl_Federation := cl_Federation c; cl_TenantID := cl_TenantID c; cl_RequirePKCE := cl_RequirePKCE c;
  cl_AllowedResources := cl_AllowedResources c; cl_RegistrationAccessToken := cl_RegistrationAccessToken c;
  cl_PreviousRegistrationAccessToken := cl_PreviousRegistrationAccessToken c;
  cl_RegistrationAccessTokenOverlapUntil := cl_RegistrationAccessTokenOverlapUntil c;
  cl_PostLogoutRedirectURIs := cl_PostLogoutRedirectURIs c;
  cl_AllowedAuthorizationDetailsTypes := cl_AllowedAuthorizationDetailsTypes c;
  cl_RefreshTokenTTL := cl_RefreshTokenTTL c; cl_AccessTokenTTL := cl_AccessTokenTTL c; cl_GrantTypes := cl_GrantTypes c;
  cl_PreviousSecret := cl_PreviousSecret c; cl_SecretOverlapUntil := cl_SecretOverlapUntil c; cl_SecretRotatedAt := cl_SecretRotatedAt c;
  cl_SecretExpiresAt := cl_SecretExpiresAt c;
  cl_JWKS := keys; cl_TokenEndpointAuthMethod := method; cl_TLSClientAuthSubjectDN := ""; cl_TLSClientAuthSANDNS := "";
  cl_TLSClientAuthSANEmail := ""; cl_TLSClientAuthSANURI := ""; cl_Attributes := attributes |}.
Definition toy_clients : MemoryClientStore :=
  {[ "svc" := with_keys (plain_client "svc" ["read"] []) "private_key_jwt" [toy_jwk] ∅; "spa" := with_keys (plain_client "spa" [] []) "none" [] ∅ ]}.
Definition toy_deps : AuthDeps := {| ad_issuer := "https://op"; ad_replayFailClosed := true; ad_providers := ∅; ad_extractor := false; ad_IsRevoked := None |}.
Definition toy_claims : assertionClaims := {|
  ac_Iss := "svc"; ac_Sub := "svc"; ac_Aud := ["https://op"]; ac_Exp := 1060; ac_Nbf := 0; ac_Iat := 1000; ac_JTI := "j1" |}.
Definition toy_assertion : string := JwtIssuer.compact (Base64.RawURLEncode [1]) (Base64.RawURLEncode [2]) (Base64.RawURLEncode toy_key).
Definition toy_request : AuthRequest := {|
  aq_Authorization := []; aq_BasicAuth := None; aq_PostForm := ["client_assertion"]; aq_ClientID := ""; aq_ClientSecret := ""; aq_ClientSecretPresent := false;
  aq_ClientAssertion := toy_assertion; aq_ClientAssertionType := ClientAssertionTypeJWTBearer; aq_ClientAssertionPresent := false;
  aq_ClientAssertionTypePresent := false; aq_Resource := []; aq_Tenant := None; aq_Cert := None |}.
Definition toy_replay : MemoryJTIReplayStore := NewMemoryJTIReplayStore 0.

(** Accepts the signature that is the key itself. *)
Definition toy_ed (pub msg sig : list Z) : bool := bool_decide (pub = sig).
Definition toy_header (b : list Z) : option JWSHeader :=
  if decide (b = [1]) then Some {| jh_Alg := "EdDSA"; jh_Kid := "k1"; jh_Crit := [] |} else None.
Definition toy_typ (b : list Z) : option string := Some "JWT".
Definition toy_unmarshal (b : list Z) : option assertionClaims := if decide (b = [2]) then Some toy_claims else None.

Lemma client_authentication_sound_witness :
  exists c q', cl_ID c = "svc" /\
    (authenticateTokenClient toy_compare toy_ed (fun _ _ _ _ _ => false) (fun _ _ _ _ => false) (fun _ _ _ _ => false) toy_header toy_typ toy_unmarshal
       toy_deps toy_clients (Unix 1000) toy_request (Some toy_replay)).1 = Ok (c, false, q') /\
    proves toy_compare toy_ed (fun _ _ _ _ _ => false) (fun _ _ _ _ => false) (fun _ _ _ _ => false) toy_unmarshal toy_deps toy_clients (Unix 1000)
      toy_request q' c.
Proof.
  destruct (authenticateTokenClient toy_compare toy_ed (fun _ _ _ _ _ => false) (fun _ _ _ _ => false) (fun _ _ _ _ => false) toy_header toy_typ
    toy_unmarshal toy_deps toy_clients (Unix 1000) toy_request (Some toy_replay)) as [[[[c b] q']|e] r] eqn:H; [|exfalso; vm_compute in H; discriminate].
  assert (cl_ID c = "svc" /\ b = false) as [Hid ->] by (vm_compute in H; injection H as <- <- <- _; done).
  exists c, q'. split_and!; [done|done|]. by apply (client_authentication_sound _ _ _ _ _ _ _ _ _ _ _ _ _ _ _ _ _ H).
Defined.

Lemma assertion_single_use_witness :
  let first := verifyJWTClientAssertion toy_ed (fun _ _ _ _ _ => false) (fun _ _ _ _ => false) (fun _ _ _ _ => false) toy_header toy_typ toy_unmarshal
    toy_deps toy_clients (Unix 1000) toy_assertion "" (Some toy_replay) in
  first.1 = Ok "svc" /\
  exists e, (verifyJWTClientAssertion toy_ed (fun _ _ _ _ _ => false) (fun _ _ _ _ => false) (fun _ _ _ _ => false) toy_header toy_typ toy_unmarshal
    toy_deps toy_clients (Unix 1030) toy_assertion "svc" (Some (jti_run [(Unix 1010, JSweep); (Unix 1020, JMark "other" (Unix 1100))] (default toy_replay first.2)))).1 = Err e.
Proof.
  intros first. destruct first as [r m1] eqn:H. assert (r = Ok "svc" /\ is_Some m1) as [-> [m1' ->]] by (subst first; vm_compute in H; injection H as <- <-; by split).
  split; [done|]. cbn [default snd].
  apply (assertion_single_use _ _ _ _ _ _ _ toy_deps toy_deps toy_clients toy_clients (Unix 1000) toy_assertion "" toy_replay "svc" m1'
    [(Unix 1010, JSweep); (Unix 1020, JMark "other" (Unix 1100))] toy_claims H).
  - by left.
  - vm_compute. reflexivity.
  - done.
  - repeat constructor; done.
  - vm_compute. discriminate.
Defined.
