(* ===== verification/Dpop.v ===== *)
(** * Dpop: proof of possession of the key a token is bound to (RFC 9449)
    ([interfaces/sso/server_dpop.go], [checkDPoPAth] of [mesh_authz.go],
    [internal/handler/dpop_nonce.go]).

    Signature schemes and [json.Unmarshal] are arguments, as in [Jwks]; the replay store
    is the one of [JTIReplay].  HTTP methods are ASCII.  Whole seconds are taken of the
    configured durations as the source takes them. *)
From S2P Require Import Prelude Crypto Core Scopes Lifecycle RefreshStore CodeStores DeviceCodes CibaStore Issue RefreshIface GraceCache GrantCore JTIReplay Jose ExchangeDeps Permissions Resources AdminPaging JwtIssuer Jwks Users Clients ClientAuth.
Local Open Scope Z_scope.

Definition dpopProofTyp : string := "dpop+jwt".
Definition dpopProofMaxAgeDefault : Z := 60 * GoTime.Second.
Definition dpopProofClockSkewDefault : Z := 60 * GoTime.Second.

Inductive dpop_error :=
| DPoPMalformed | DPoPHeader | DPoPTyp | DPoPNoJWK | DPoPBadJWK | DPoPSignature (e : jws_error) | DPoPPayload | DPoPHtm | DPoPHtu
| DPoPNoIat | DPoPFuture | DPoPTooOld | DPoPNoJti | ErrDPoPNonceRequired | DPoPReplay | DPoPAth | DPoPThumbprint.

Record dpopProofPayload := { dp_HTM : string; dp_HTU : string; dp_IAT : Z; dp_JTI : string; dp_Nonce : string; dp_Ath : string }.

(** ** Keys of proofs *)

(** The public members of a key of a known type; the raw key has been unmarshalled. *)
Definition parseDPoPHeaderJWK (j : option JWK) : result dpop_error JWK :=
  match j with
  | None => Err DPoPBadJWK
  | Some j =>
      let public kty crv x y n e := {| jwk_Kty := kty; jwk_Use := ""; jwk_Alg := ""; jwk_Kid := ""; jwk_Crv := crv; jwk_X := x; jwk_Y := y; jwk_N := n; jwk_E := e |} in
      if decide (jwk_Kty j = "OKP") then
        if bool_decide (jwk_Crv j = "") || bool_decide (jwk_X j = "") then Err DPoPBadJWK else Ok (public "OKP" (jwk_Crv j) (jwk_X j) "" "" "")
      else if decide (jwk_Kty j = "EC") then
        if bool_decide (jwk_Crv j = "") || bool_decide (jwk_X j = "") || bool_decide (jwk_Y j = "") then Err DPoPBadJWK
        else Ok (public "EC" (jwk_Crv j) (jwk_X j) (jwk_Y j) "" "")
      else if decide (jwk_Kty j = "RSA") then
        if bool_decide (jwk_N j = "") || bool_decide (jwk_E j = "") then Err DPoPBadJWK else Ok (public "RSA" "" "" "" (jwk_N j) (jwk_E j))
      else Err DPoPBadJWK
  end.

(** The characters of a JSON string member, without escaping, as the source builds it. *)
Definition dquote : ascii := Ascii.ascii_of_nat 34.
Definition quoted (s : string) : list ascii := dquote :: Str.to_list s ++ [dquote].
Definition jmember (name value : string) : list ascii := quoted name ++ ":"%char :: quoted value.
Definition jobject (ms : list (list ascii)) : list ascii :=
  match ms with [a; b; c] => "{"%char :: a ++ ","%char :: b ++ ","%char :: c ++ ["}"%char]
              | [a; b; c; d] => "{"%char :: a ++ ","%char :: b ++ ","%char :: c ++ ","%char :: d ++ ["}"%char] | _ => [] end.

Definition canonicalJWK (jwk : JWK) : option (list ascii) :=
  if decide (jwk_Kty jwk = "OKP") then
    if bool_decide (jwk_Crv jwk = "") || bool_decide (jwk_X jwk = "") then None
    else Some (jobject [jmember "crv" (jwk_Crv jwk); jmember "kty" "OKP"; jmember "x" (jwk_X jwk)])
  else if decide (jwk_Kty jwk = "EC") then
    if bool_decide (jwk_Crv jwk = "") || bool_decide (jwk_X jwk = "") || bool_decide (jwk_Y jwk = "") then None
    else Some (jobject [jmember "crv" (jwk_Crv jwk); jmember "kty" "EC"; jmember "x" (jwk_X jwk); jmember "y" (jwk_Y jwk)])
  else if decide (jwk_Kty jwk = "RSA") then
    if bool_decide (jwk_E jwk = "") || bool_decide (jwk_N jwk = "") then None
    else Some (jobject [jmember "e" (jwk_E jwk); jmember "kty" "RSA"; jmember "n" (jwk_N jwk)])
  else None.

(** [jwkThumbprintRFC7638]. *)
Definition jwkThumbprintRFC7638 (jwk : JWK) : option string :=
  c ← canonicalJWK jwk; Some (Str.of_list (Base64.RawURLEncode (SHA256.Sum256 (bytes c)))).

(** RFC 7638, section 3.1: the thumbprint of the example key. *)
Example thumbprint_rfc7638 :
  jwkThumbprintRFC7638 {| jwk_Kty := "RSA"; jwk_Use := ""; jwk_Alg := "RS256"; jwk_Kid := "2011-04-29"; jwk_Crv := ""; jwk_X := ""; jwk_Y := "";
    jwk_N := "0vx7agoebGcQSuuPiLJXZptN9nndrQmbXEps2aiAFbWhM78LhWx4cbbfAAtVT86zwu1RK7aPFFxuhDR1L6tSoc_BJECPebWKRXjBZCiFV4n3oknjhMstn64tZ_2W-5JsGY4Hc5n9yBXArwl93lqt7_RN5w6Cf0h4QyQ5v-65YGjQR0_FDW2QvzqY368QQMicAtaSqzs8KJZgnYb9c7d0zgdAZHzu6qMQvRL5hajrn1n91CbOpbISD08qNLyrdkt-bFTWhAI4vMQFh6WeZu0fM4lFd2NcRwr3XPksINHaQ-G_xBniIqbw0Ls1jF44-csFCur-kEgU8awapJzKnqDKgw";
    jwk_E := "AQAB" |} = Some "NzbLsXh8uDCcd-6MNwXF4W_7noWXFZAfHkxZsRGC9Xs".
Proof. vm_compute. reflexivity. Qed.

(** ** Requests *)

(** [normalizeDPoPHTU]: up to the query or fragment. *)
Fixpoint cut_query (l : list ascii) : list ascii :=
  match l with
  | [] => []
  | c :: l => if bool_decide (c = "?"%char) || bool_decide (c = "#"%char) then [] else c :: cut_query l
  end.
Definition normalizeDPoPHTU (raw : string) : string := Str.of_list (cut_query (Str.to_list raw)).

(** [ath] binds the proof to the token presented; empty on the token endpoint. *)
Definition checkDPoPAth (proofAth accessToken : string) : bool :=
  bool_decide (accessToken = "") ||
  bool_decide (proofAth = Str.of_list (Base64.RawURLEncode (SHA256.Sum256 (string_bytes accessToken)))).

(** ** Nonces *)

Definition dpopNonceRandomLen : nat := 16.
Definition dpopNonceTSLen : nat := 8.
Definition dpopNonceMACLen : nat := 32.
Definition dpopNonceTotalLen : nat := dpopNonceRandomLen + dpopNonceTSLen + dpopNonceMACLen.
Definition DefaultDPoPNonceTTL : Z := 5 * GoTime.Minute.

Record HMACNonceProvider := { np_key : list Z; np_ttl : Z }.

(** [key] is drawn or supplied; a supplied one must have 16 bytes. *)
Definition NewHMACNonceProvider (key : list Z) (ttl : Z) : HMACNonceProvider :=
  {| np_key := key; np_ttl := if ttl <=? 0 then DefaultDPoPNonceTTL else ttl |}.
Definition NewHMACNonceProviderWithKey (key : list Z) (ttl : Z) : option HMACNonceProvider :=
  if (length key <? 16)%nat then None else Some (NewHMACNonceProvider key ttl).

(** [random] are the 16 bytes drawn. *)
Definition IssueNonce (p : HMACNonceProvider) (random : list Z) (now : Z) : string :=
  let payload := random ++ SHA256.be_bytes dpopNonceTSLen (UnixNano now) in
  Str.of_list (Base64.RawURLEncode (payload ++ hmac (np_key p) payload)).

(** [base64.RawURLEncoding.Strict]: the unused bits of the last digit are zero; line
    breaks are still skipped. *)
Definition strict_digits (ds : list Z) : bool :=
  match (length ds mod 4)%nat with
  | 2%nat => Z.land (List.last ds 0) 15 =? 0
  | 3%nat => Z.land (List.last ds 0) 3 =? 0
  | _ => true
  end.
Definition RawURLDecodeStrict (s : list ascii) : option (list Z) :=
  ds ← mapM digit_value (List.filter not_newline s);
  if strict_digits ds then decode_digits ds else None.

Definition VerifyNonce (p : HMACNonceProvider) (nonce : string) (now : Z) : bool :=
  match RawURLDecodeStrict (Str.to_list nonce) with
  | None => false
  | Some raw =>
      if negb (length raw =? dpopNonceTotalLen)%nat then false
      else
        let payload := take (dpopNonceRandomLen + dpopNonceTSLen) raw in
        let tag := drop (dpopNonceRandomLen + dpopNonceTSLen) raw in
        if negb (bool_decide (hmac (np_key p) payload = tag)) then false
        else
          let ts := wrap64 (SetBytes (drop dpopNonceRandomLen payload)) in
          let now := UnixNano now in
          negb (now + dpopProofClockSkewDefault <? ts) && negb (ts <? now - np_ttl p)
  end.

(** A missing and a refused nonce are the same error. *)
Definition enforceDPoPNonce (now : Z) (nonceProvider : option HMACNonceProvider) (nonce : string) : result dpop_error () :=
  match nonceProvider with
  | None => Ok ()
  | Some p => if bool_decide (nonce = "") || negb (VerifyNonce p nonce now) then Err ErrDPoPNonceRequired else Ok ()
  end.

(** ** Proofs *)

(** [int64(d.Seconds())]. *)
Definition seconds (d : Z) : Z := Z.quot d GoTime.Second.

Definition enforceDPoPReplay (now : Z) (replayFailClosed : bool) (jti : string) (iat maxAge : Z) (replay : option MemoryJTIReplayStore)
    : result dpop_error () * option MemoryJTIReplayStore :=
  match replay with
  | None => (Ok (), None)
  | Some m =>
      let '(first, m) := MarkSeen now ("dpop:" +:+ jti) (GoTime.Add (Unix iat) maxAge) m in
      (match first with
       | Err _ => if replayFailClosed then Err DPoPReplay else Ok ()
       | Ok true => Ok ()
       | Ok false => Err DPoPReplay
       end, Some m)
  end.

(** What a server is configured with. *)
Record DPoPDeps := { dd_replayFailClosed : bool; dd_nonceProvider : option HMACNonceProvider; dd_proofMaxAge : Z; dd_proofClockSkew : Z }.

Definition resolvedDPoPProofMaxAge (d : DPoPDeps) : Z := if 0 <? dd_proofMaxAge d then dd_proofMaxAge d else dpopProofMaxAgeDefault.
Definition resolvedDPoPProofClockSkew (d : DPoPDeps) : Z := if 0 <? dd_proofClockSkew d then dd_proofClockSkew d else dpopProofClockSkewDefault.

Section dpop.
Context (ed25519_Verify : list Z -> list Z -> list Z -> bool).
Context (ecdsa_Verify : Curve -> Z * Z -> list Z -> Z -> Z -> bool).
Context (rsa_VerifyPKCS1v15 rsa_VerifyPSS : Z * Z -> option Hash -> list Z -> list Z -> bool).
Context (UnmarshalHeader : list Z -> option JWSHeader).
(** [json.Unmarshal] of a proof header into its type and raw key ([None] when absent), of
    a raw key, and of the payload. *)
Context (UnmarshalProofHeader : list Z -> option (string * option (list Z))) (UnmarshalJWK : list Z -> option JWK).
Context (UnmarshalPayload : list Z -> option dpopProofPayload).
Notation VerifyCompactJWS := (VerifyCompactJWS ed25519_Verify ecdsa_Verify rsa_VerifyPKCS1v15 rsa_VerifyPSS UnmarshalHeader).
Notation key_accepts := (key_accepts ed25519_Verify ecdsa_Verify rsa_VerifyPKCS1v15 rsa_VerifyPSS).

Definition parseDPoPProofHeader (headerSegment : list ascii) : result dpop_error JWK :=
  match RawURLDecode headerSegment ≫= UnmarshalProofHeader with
  | None => Err DPoPHeader
  | Some (typ, raw) =>
      if negb (bool_decide (typ = dpopProofTyp)) then Err DPoPTyp
      else match raw with
           | None | Some [] => Err DPoPNoJWK
           | Some raw => parseDPoPHeaderJWK (UnmarshalJWK raw)
           end
  end.

Definition parseAndCheckDPoPPayload (now : Z) (payloadSegment : list ascii) (requestMethod requestURL : string) (maxAge clockSkew : Z)
    : result dpop_error dpopProofPayload :=
  match RawURLDecode payloadSegment ≫= UnmarshalPayload with
  | None => Err DPoPPayload
  | Some p =>
      if negb (equalFold (dp_HTM p) requestMethod) then Err DPoPHtm
      else if negb (bool_decide (normalizeDPoPHTU (dp_HTU p) = normalizeDPoPHTU requestURL)) then Err DPoPHtu
      else
        let now := unix now in
        if dp_IAT p =? 0 then Err DPoPNoIat
        else if now + seconds clockSkew <? dp_IAT p then Err DPoPFuture
        else if dp_IAT p <? now - seconds maxAge then Err DPoPTooOld
        else if bool_decide (dp_JTI p = "") then Err DPoPNoJti
        else Ok p
  end.

(** The checks that precede the replay store. *)
Definition checkProof (d : DPoPDeps) (now : Z) (proof requestMethod requestURL : string) : result dpop_error (JWK * dpopProofPayload) :=
  match jws_parts proof with
  | [p0; p1; p2] =>
      proofJWK ← parseDPoPProofHeader p0;
      _ ← match VerifyCompactJWS proof [proofJWK] AsymmetricJWSAlgs with Err e => Err (DPoPSignature e) | Ok b => Ok b end;
      p ← parseAndCheckDPoPPayload now p1 requestMethod requestURL (resolvedDPoPProofMaxAge d) (resolvedDPoPProofClockSkew d);
      _ ← enforceDPoPNonce now (dd_nonceProvider d) (dp_Nonce p);
      Ok (proofJWK, p)
  | _ => Err DPoPMalformed
  end.

Definition verifyDPoPProof (d : DPoPDeps) (now : Z) (proof requestMethod requestURL accessToken : string) (replay : option MemoryJTIReplayStore)
    : result dpop_error string * option MemoryJTIReplayStore :=
  match checkProof d now proof requestMethod requestURL with
  | Err e => (Err e, replay)
  | Ok (proofJWK, p) =>
      let '(r, replay) := enforceDPoPReplay now (dd_replayFailClosed d) (dp_JTI p) (dp_IAT p) (resolvedDPoPProofMaxAge d) replay in
      (match r with
       | Err e => Err e
       | Ok _ =>
           if negb (checkDPoPAth (dp_Ath p) accessToken) then Err DPoPAth
           else match jwkThumbprintRFC7638 proofJWK with None => Err DPoPThumbprint | Some jkt => Ok jkt end
       end, replay)
  end.

(** ** What an accepted proof shows *)

Definition payload_of (proof : string) : option dpopProofPayload :=
  match jws_parts proof with [_; pl; _] => RawURLDecode pl ≫= UnmarshalPayload | _ => None end.

(** The key [k] of the header of [proof] accepts its signature. *)
Definition signed_with (proof : string) (k : JWK) : Prop :=
  exists h pl s alg sig, jws_parts proof = [h; pl; s] /\ parseDPoPProofHeader h = Ok k /\ RawURLDecode s = Some sig /\
    alg ∈ AsymmetricJWSAlgs /\ key_accepts alg k (bytes (h ++ Jwks.dot :: pl)) sig.

(** The payload is made for this request, now. *)
Definition fits (d : DPoPDeps) (now : Z) (requestMethod requestURL : string) (p : dpopProofPayload) : Prop :=
  equalFold (dp_HTM p) requestMethod = true /\ normalizeDPoPHTU (dp_HTU p) = normalizeDPoPHTU requestURL /\ dp_IAT p <> 0 /\
  unix now - seconds (resolvedDPoPProofMaxAge d) <= dp_IAT p <= unix now + seconds (resolvedDPoPProofClockSkew d) /\ dp_JTI p <> "" /\
  (forall np, dd_nonceProvider d = Some np -> VerifyNonce np (dp_Nonce p) now = true).

Lemma parseAndCheck_Ok now pl m u a c p : parseAndCheckDPoPPayload now pl m u a c = Ok p ->
  RawURLDecode pl ≫= UnmarshalPayload = Some p /\ equalFold (dp_HTM p) m = true /\ normalizeDPoPHTU (dp_HTU p) = normalizeDPoPHTU u /\
  dp_IAT p <> 0 /\ unix now - seconds a <= dp_IAT p <= unix now + seconds c /\ dp_JTI p <> "".
Proof.
  unfold parseAndCheckDPoPPayload. destruct (_ ≫= _) as [q|]; [|done]. destruct (equalFold _ _) eqn:H1; [|done]. cbn [negb].
  destruct (bool_decide (normalizeDPoPHTU _ = _)) eqn:H2; [|done]. cbn [negb]. destruct (dp_IAT q =? 0) eqn:H3; [done|].
  destruct (_ <? dp_IAT q) eqn:H4; [done|]. destruct (dp_IAT q <? _) eqn:H5; [done|]. destruct (bool_decide (dp_JTI q = "")) eqn:H6; [done|].
  intros [= <-]. apply bool_decide_eq_true in H2. apply bool_decide_eq_false in H6. split_and!; try done; lia.
Qed.

Lemma checkProof_Ok d now proof m u k p : checkProof d now proof m u = Ok (k, p) ->
  signed_with proof k /\ payload_of proof = Some p /\ fits d now m u p.
Proof.
  unfold checkProof, payload_of, signed_with. destruct (jws_parts proof) as [|h [|pl [|s [|]]]] eqn:Hp; try done. intros H.
  apply result_bind_ok in H as (k' & Hk & H). apply result_bind_ok in H as (b & Hv & H). apply result_bind_ok in H as (p' & Hc & H).
  apply result_bind_ok in H as ([] & Hn & H). injection H as -> ->.
  destruct (Jwks.VerifyCompactJWS _ _ _ _ _ proof [k] AsymmetricJWSAlgs) eqn:Hs; [|done].
  apply verify_compact_sound in Hs as (h' & pl' & s' & hb & sig & hdr & k' & Hq & _ & _ & _ & _ & Halg & _ & _ & Hsig & Hin & _ & Hacc).
  rewrite Hp in Hq. injection Hq as <- <- <-. apply list_elem_of_singleton in Hin as ->.
  apply parseAndCheck_Ok in Hc as (Hc & H1 & H2 & H3 & H4 & H5). split_and!; [by exists h, pl, s, (jh_Alg hdr), sig|done|].
  unfold fits. split_and!; try done; [lia..|]. intros np Hnp. unfold enforceDPoPNonce in Hn. rewrite Hnp in Hn.
  destruct (bool_decide _); [done|]. by destruct (VerifyNonce np (dp_Nonce p) now).
Qed.

Lemma accepted_proof d now proof m u token replay jkt replay' :
  verifyDPoPProof d now proof m u token replay = (Ok jkt, replay') ->
  exists k p, signed_with proof k /\ jwkThumbprintRFC7638 k = Some jkt /\ payload_of proof = Some p /\ fits d now m u p /\
    (token <> "" -> dp_Ath p = Str.of_list (Base64.RawURLEncode (SHA256.Sum256 (string_bytes token)))) /\
    (forall s, replay = Some s -> forall e, jti_entries s !! ("dpop:" +:+ dp_JTI p) = Some e -> e <= now).
Proof.
  unfold verifyDPoPProof. destruct (checkProof d now proof m u) as [[k p]|] eqn:Hc; [|done]. apply checkProof_Ok in Hc as (Hk & Hp & Hf).
  destruct (enforceDPoPReplay _ _ _ _ _ replay) as [[[]|] r] eqn:He; [|done].
  destruct (checkDPoPAth (dp_Ath p) token) eqn:Ha; [|done]. cbn [negb]. destruct (jwkThumbprintRFC7638 k) eqn:Ht; [|done]. intros [= -> _].
  exists k, p. split_and!; try done.
  - intros Hne. unfold checkDPoPAth in Ha. apply orb_true_iff in Ha as [Ha|Ha]; by apply bool_decide_eq_true in Ha.
  - intros s -> e Hs. unfold enforceDPoPReplay in He. destruct (Z.le_gt_cases e now) as [|Hlt]; [done|exfalso].
    rewrite (MarkSeen_live now ("dpop:" +:+ dp_JTI p) e) in He; done.
Qed.

(** C10 — A proof of possession is accepted only for the request it was made for: it is
    signed by the key it carries, whose thumbprint is the result, names the method and
    the address of the request, was made within the window and carries an identifier not
    seen before, a current nonce where nonces are demanded, and the hash of the access
    token where one is presented. *)
Theorem dpop_proof_sound d now proof m u token replay jkt replay' :
  verifyDPoPProof d now proof m u token replay = (Ok jkt, replay') ->
  exists k p, signed_with proof k /\ jwkThumbprintRFC7638 k = Some jkt /\ payload_of proof = Some p /\ fits d now m u p /\
    (token <> "" -> dp_Ath p = Str.of_list (Base64.RawURLEncode (SHA256.Sum256 (string_bytes token)))) /\
    (forall s, replay = Some s -> forall e, jti_entries s !! ("dpop:" +:+ dp_JTI p) = Some e -> e <= now).
Proof. apply accepted_proof. Qed.

Lemma verify_replays d now proof m u token s p : payload_of proof = Some p ->
  (MarkSeen now ("dpop:" +:+ dp_JTI p) (Unix (dp_IAT p) + resolvedDPoPProofMaxAge d) s).1 = Ok false ->
  exists e, (verifyDPoPProof d now proof m u token (Some s)).1 = Err e.
Proof.
  intros Hp Hm. unfold verifyDPoPProof. destruct (checkProof d now proof m u) as [[k p']|e] eqn:Hc; [|by exists e].
  apply checkProof_Ok in Hc as (_ & Hp' & _). assert (p' = p) as -> by congruence. unfold enforceDPoPReplay, GoTime.Add.
  destruct (MarkSeen _ _ _ s) as [r s']. cbn in Hm. subst r. by eexists.
Qed.

(** Until the end of its window a proof is accepted once, whatever the request, the token
    presented and the configuration of the second check. *)
Lemma dpop_proof_once d d' now proof m u token s jkt s' p tr :
  verifyDPoPProof d now proof m u token (Some s) = (Ok jkt, Some s') ->
  dd_replayFailClosed d = true \/ jti_MaxEntries s <= 0 -> payload_of proof = Some p ->
  let deadline := Unix (dp_IAT p) + resolvedDPoPProofMaxAge d in
  Forall (fun x => x.1 < deadline /\ x.2 <> JForget ("dpop:" +:+ dp_JTI p)) tr ->
  forall now' m' u' token', now' < deadline -> exists e, (verifyDPoPProof d' now' proof m' u' token' (Some (jti_run tr s'))).1 = Err e.
Proof.
  intros Hv Hrec Hp deadline Htr now' m' u' token' Hlt. set (key := "dpop:" +:+ dp_JTI p) in *.
  assert (MarkSeen now key deadline s = (Ok true, s')) as Hm.
  { unfold verifyDPoPProof in Hv. destruct (checkProof d now proof m u) as [[k p']|] eqn:Hc; [|done]. apply checkProof_Ok in Hc as (_ & Hp' & _).
    assert (p' = p) as -> by congruence. unfold enforceDPoPReplay, GoTime.Add in Hv. fold deadline in Hv. fold key in Hv.
    destruct (MarkSeen now key deadline s) as [[[]|e] s2] eqn:Hms; [by injection Hv as _ ->|done|].
    apply MarkSeen_Err in Hms. destruct Hrec as [Hrec|Hrec]; [by rewrite Hrec in Hv|lia]. }
  assert (deadline <= recorded_expiry now deadline) as Hr.
  { unfold recorded_expiry, GoTime.Before, GoTime.Add, GoTime.Second. destruct (deadline <? now) eqn:E; lia. }
  apply (verify_replays d' now' proof m' u' token' _ p Hp). fold key.
  apply (jti_replay_detected now key deadline s s' tr now'); [done|done| |lia].
  eapply Forall_impl; [exact Htr|]. cbn. intros x [H1 H2]. split; [lia|done].
Qed.

(** For most of a second after the replay store has forgotten a proof, its window,
    counted in whole seconds, is still open: the proof, accepted before, is accepted
    again. *)
Theorem dpop_replay_gap d now proof m u token s jkt s' p n :
  verifyDPoPProof d now proof m u token (Some s) = (Ok jkt, Some s') ->
  jti_MaxEntries s <= 0 -> dd_nonceProvider d = None -> payload_of proof = Some p ->
  resolvedDPoPProofMaxAge d = n * GoTime.Second -> now <= Unix (dp_IAT p + n) ->
  forall now', Unix (dp_IAT p + n) <= now' < Unix (dp_IAT p + n + 1) -> (verifyDPoPProof d now' proof m u token (Some s')).1 = Ok jkt.
Proof.
  intros Hv Hcap Hnonce Hp Hage Hfirst now' Hnow'.
  assert (Unix (dp_IAT p + n + 1) = Unix (dp_IAT p + n) + GoTime.Second) as Hnext by (unfold Unix, GoTime.Second; lia).
  assert (unix now' = dp_IAT p + n) as Hu.
  { unfold unix. symmetry. apply (Z.div_unique _ _ _ (now' - Unix (dp_IAT p + n))); [left; lia|]. unfold Unix, GoTime.Second. lia. }
  assert (seconds (resolvedDPoPProofMaxAge d) = n) as Hsec by (unfold seconds; rewrite Hage; apply Z.quot_mul; done).
  assert (0 <= seconds (resolvedDPoPProofClockSkew d)) as Hskew.
  { apply Z.quot_pos; [|unfold GoTime.Second; lia]. unfold resolvedDPoPProofClockSkew. destruct (0 <? dd_proofClockSkew d) eqn:E; [lia|done]. }
  assert (0 < n) as Hn.
  { assert (0 < resolvedDPoPProofMaxAge d) by (unfold resolvedDPoPProofMaxAge; destruct (0 <? dd_proofMaxAge d) eqn:E; [lia|done]).
    unfold GoTime.Second in Hage. lia. }
  assert (Unix (dp_IAT p) + resolvedDPoPProofMaxAge d = Unix (dp_IAT p + n)) as Hdl by (rewrite Hage; unfold Unix; lia).
  unfold verifyDPoPProof in Hv |- *. destruct (checkProof d now proof m u) as [[k p']|] eqn:Hc; [|done].
  assert (p' = p) as -> by (apply checkProof_Ok in Hc as (_ & Hp' & _); congruence).
  assert (checkProof d now' proof m u = Ok (k, p)) as ->.
  { unfold checkProof in Hc |- *. destruct (jws_parts proof) as [|h [|pl [|sg [|]]]]; try done.
    apply result_bind_ok in Hc as (k' & Hk & Hc). rewrite Hk. cbn [mbind result_bind]. apply result_bind_ok in Hc as (b & Hb & Hc). rewrite Hb. cbn [mbind result_bind].
    apply result_bind_ok in Hc as (p' & Hq & Hc). apply result_bind_ok in Hc as ([] & _ & Hc). injection Hc as -> ->.
    pose proof (parseAndCheck_Ok _ _ _ _ _ _ _ Hq) as (Hq1 & Hq2 & Hq3 & Hq4 & _ & Hq5).
    unfold parseAndCheckDPoPPayload. rewrite Hq1, Hq2, (bool_decide_eq_true_2 _ Hq3), Hu, Hsec, (proj2 (Z.eqb_neq _ _) Hq4). cbn [negb].
    rewrite (proj2 (Z.ltb_ge _ _)) by lia. rewrite (proj2 (Z.ltb_ge _ _)) by lia. rewrite bool_decide_eq_false_2 by done. cbn [mbind result_bind].
    unfold enforceDPoPNonce. by rewrite Hnonce. }
  unfold enforceDPoPReplay, GoTime.Add in *. rewrite Hdl in *. set (key := "dpop:" +:+ dp_JTI p) in *.
  destruct (MarkSeen now key (Unix (dp_IAT p + n)) s) as [[[]|] s2] eqn:Hms; [|done|apply MarkSeen_Err in Hms; lia].
  injection Hv as Hres <-. pose proof (MarkSeen_first now key _ s s2 ltac:(done) Hms) as Hent.
  assert (recorded_expiry now (Unix (dp_IAT p + n)) = Unix (dp_IAT p + n)) as Hre by (unfold recorded_expiry, GoTime.Before; by rewrite (proj2 (Z.ltb_ge _ _))).
  rewrite Hre in Hent. pose proof (MarkSeen_MaxEntries now key (Unix (dp_IAT p + n)) s) as Hcap2. rewrite Hms in Hcap2. cbn in Hcap2.
  pose proof (MarkSeen_again now' key _ (Unix (dp_IAT p + n)) s2 ltac:(lia) Hent ltac:(lia)) as Hagain.
  destruct (MarkSeen now' key (Unix (dp_IAT p + n)) s2) as [r s3]. cbn in Hagain. by subst r.
Qed.

(** ** One thumbprint, one key *)

Lemma decode64_no_quote x b : decode64 x = Some b -> dquote ∉ Str.to_list x.
Proof.
  unfold decode64, RawURLDecode. intros Hd Hin. destruct (mapM digit_value _) as [ds|] eqn:Hm; [|done].
  apply mapM_Some in Hm. assert (dquote ∈ List.filter not_newline (Str.to_list x)) as Hf.
  { apply list_elem_of_In, List.filter_In. split; [by apply list_elem_of_In|done]. }
  apply list_elem_of_lookup in Hf as [i Hi]. destruct (Forall2_lookup_l _ _ _ _ _ Hm Hi) as (y & _ & Hy). vm_compute in Hy. done.
Qed.

(** What an accepted key looks like: its members hold no quote. *)
Definition plain_key (k : JWK) : Prop :=
  jwk_Use k = "" /\ jwk_Alg k = "" /\ jwk_Kid k = "" /\
  (jwk_Kty k = "OKP" /\ jwk_Crv k = "Ed25519" /\ jwk_Y k = "" /\ jwk_N k = "" /\ jwk_E k = "" /\ dquote ∉ Str.to_list (jwk_X k) \/
   jwk_Kty k = "EC" /\ jwk_Crv k ∈ ["P-256"; "P-384"; "P-521"] /\ jwk_N k = "" /\ jwk_E k = "" /\ dquote ∉ Str.to_list (jwk_X k) /\ dquote ∉ Str.to_list (jwk_Y k) \/
   jwk_Kty k = "RSA" /\ jwk_Crv k = "" /\ jwk_X k = "" /\ jwk_Y k = "" /\ dquote ∉ Str.to_list (jwk_N k) /\ dquote ∉ Str.to_list (jwk_E k)).

Lemma parse_shape j k : parseDPoPHeaderJWK j = Ok k ->
  jwk_Use k = "" /\ jwk_Alg k = "" /\ jwk_Kid k = "" /\
  (jwk_Kty k = "OKP" /\ jwk_Y k = "" /\ jwk_N k = "" /\ jwk_E k = "" \/ jwk_Kty k = "EC" /\ jwk_N k = "" /\ jwk_E k = "" \/
   jwk_Kty k = "RSA" /\ jwk_Crv k = "" /\ jwk_X k = "" /\ jwk_Y k = "").
Proof.
  unfold parseDPoPHeaderJWK. destruct j as [j|]; [|done]. repeat (destruct (decide _); [destruct (_ || _); [done|]; intros [= <-]; cbn; naive_solver|]). done.
Qed.

Lemma fmap_decode_no_quote x v : SetBytes <$> decode64 x = Some v -> dquote ∉ Str.to_list x.
Proof. destruct (decode64 x) eqn:E; [|done]. intros _. by apply (decode64_no_quote _ l). Qed.

Lemma signed_plain proof k : signed_with proof k -> plain_key k.
Proof.
  intros (h & pl & s & alg & sig & _ & Hk & _ & _ & Hacc). unfold parseDPoPProofHeader in Hk. destruct (_ ≫= _) as [[typ raw]|]; [|done].
  destruct (negb _); [done|]. destruct raw as [[|b raw]|]; [done| |done]. apply parse_shape in Hk as (H1 & H2 & H3 & H4). split_and!; try done.
  destruct Hacc as [pub _ Hkty Hcrv Hx _ _|curve n x y Hcrv Hkty Hx Hy _ _ _|nb e Hkty Hn _ He _ _ _ _].
  - left. destruct H4 as [(_ & ? & ? & ?)|[(E & _)|(E & _)]]; [|congruence..]. split_and!; try done. by apply (decode64_no_quote _ pub).
  - right. left. destruct H4 as [(E & _)|[(_ & ? & ?)|(E & _)]]; [congruence| |congruence]. split_and!; try done; [|by eapply fmap_decode_no_quote..].
    unfold curveFor in Hcrv. repeat (destruct (decide _); [injection Hcrv as _ <- _; set_solver|]). done.
  - right. right. destruct H4 as [(E & _)|[(E & _)|(_ & ? & ? & ?)]]; [congruence..|]. split_and!; try done; [by apply (decode64_no_quote _ nb)|by eapply fmap_decode_no_quote].
Qed.

Lemma quote_split a a' r r' : dquote ∉ a -> dquote ∉ a' -> a ++ dquote :: r = a' ++ dquote :: r' -> a = a' /\ r = r'.
Proof.
  generalize dquote as q. intros q. revert a'. induction a as [|c a IH]; intros [|c' a'] H H' E; cbn in E.
  - by injection E.
  - injection E as -> _. apply not_elem_of_cons in H' as [[] _]. done.
  - injection E as -> _. apply not_elem_of_cons in H as [[] _]. done.
  - injection E as <- E. apply not_elem_of_cons in H as [_ H], H' as [_ H']. by destruct (IH a') as [-> ->].
Qed.
Lemma to_list_inj a b : Str.to_list a = Str.to_list b -> a = b.
Proof. intros H. by rewrite <- (Str.of_to_list a), H, Str.of_to_list. Qed.

Lemma quoted_app x r : quoted x ++ r = dquote :: Str.to_list x ++ dquote :: r.
Proof. unfold quoted. cbn. by rewrite <- app_assoc. Qed.
Lemma jmember_app n x r : jmember n x ++ r = quoted n ++ ":"%char :: dquote :: Str.to_list x ++ dquote :: r.
Proof. unfold jmember. rewrite <- app_assoc. f_equal. cbn [app]. f_equal. apply quoted_app. Qed.
Lemma jmember_inj n x x' r r' : dquote ∉ Str.to_list x -> dquote ∉ Str.to_list x' -> jmember n x ++ r = jmember n x' ++ r' -> x = x' /\ r = r'.
Proof. intros H H' E. rewrite !jmember_app in E. apply app_inv_head in E. injection E as E. apply quote_split in E as [E ->]; [|done..]. by apply to_list_inj in E. Qed.

Lemma canonical_shape k c : canonicalJWK k = Some c ->
  (jwk_Kty k = "OKP" /\ c = jobject [jmember "crv" (jwk_Crv k); jmember "kty" "OKP"; jmember "x" (jwk_X k)]) \/
  (jwk_Kty k = "EC" /\ c = jobject [jmember "crv" (jwk_Crv k); jmember "kty" "EC"; jmember "x" (jwk_X k); jmember "y" (jwk_Y k)]) \/
  (jwk_Kty k = "RSA" /\ c = jobject [jmember "e" (jwk_E k); jmember "kty" "RSA"; jmember "n" (jwk_N k)]).
Proof. unfold canonicalJWK. repeat (destruct (decide _); [destruct (_ || _); [done|]; intros [= <-]; by auto|]). done. Qed.

Lemma crv_no_quote crv : crv ∈ ["Ed25519"; "P-256"; "P-384"; "P-521"] -> dquote ∉ Str.to_list crv.
Proof. intros H. repeat (apply elem_of_cons in H as [->|H]; [by apply (bool_decide_eq_true_1 (_ ∉ _)); vm_compute|]). by apply not_elem_of_nil in H. Qed.

Lemma cons_tail {A} (x : A) l l' : x :: l = x :: l' -> l = l'.
Proof. by intros [= ->]. Qed.

Lemma canonical_inj k k' c : plain_key k -> plain_key k' -> canonicalJWK k = Some c -> canonicalJWK k' = Some c -> k = k'.
Proof.
  destruct k as [kty use alg kid crv x y n e], k' as [kty' use' alg' kid' crv' x' y' n' e'].
  intros (Hu & Ha & Hk & H) (Hu' & Ha' & Hk' & H') Hc%canonical_shape Hc'%canonical_shape.
  cbn [jwk_Kty jwk_Use jwk_Alg jwk_Kid jwk_Crv jwk_X jwk_Y jwk_N jwk_E] in *. subst.
  destruct H as [(-> & -> & -> & -> & -> & Hx)|[(-> & Hcrv & -> & -> & Hx & Hy)|(-> & -> & -> & -> & Hn & He)]];
    (destruct Hc as [(? & ->)|[(? & ->)|(? & ->)]]; [try discriminate..]);
  destruct H' as [(-> & -> & -> & -> & -> & Hx')|[(-> & Hcrv' & -> & -> & Hx' & Hy')|(-> & -> & -> & -> & Hn' & He')]];
    (destruct Hc' as [(? & E)|[(? & E)|(? & E)]]; [try discriminate..]).
  all: pose proof (crv_no_quote "Ed25519" ltac:(by left)) as Hed; try assert (dquote ∉ Str.to_list crv) by (apply crv_no_quote; by right); try assert (dquote ∉ Str.to_list crv') by (apply crv_no_quote; by right); unfold jobject in E; apply cons_tail in E.
  - apply app_inv_head in E. apply cons_tail in E. apply app_inv_head in E. apply cons_tail in E. by apply jmember_inj in E as [-> _].
  - apply jmember_inj in E as [<- _]; [set_solver|done..].
  - apply jmember_inj in E as [-> _]; [set_solver|done..].
  - apply jmember_inj in E as [-> E]; [|done..]. apply cons_tail in E. apply app_inv_head in E. apply cons_tail in E.
    apply jmember_inj in E as [-> E]; [|done..]. apply cons_tail in E. by apply jmember_inj in E as [-> _].
  - apply jmember_inj in E as [-> E]; [|done..]. apply cons_tail in E. apply app_inv_head in E. apply cons_tail in E. by apply jmember_inj in E as [-> _].
Qed.

Lemma bytes_inj a b : bytes a = bytes b -> a = b.
Proof.
  unfold bytes. apply list_fmap_eq_inj. intros x y. unfold Str.byte. intros E. apply N2Z.inj in E.
  rewrite <- (Ascii.ascii_N_embedding x), E. apply Ascii.ascii_N_embedding.
Qed.

(** A token bound to a key is usable with that key only: two accepted proofs whose
    thumbprints are equal carry the same key, or the canonical forms of their keys are a
    SHA-256 collision. *)
Theorem dpop_key_binding d d' now now' proof proof' m m' u u' token token' r r' r1 r1' jkt :
  verifyDPoPProof d now proof m u token r = (Ok jkt, r1) -> verifyDPoPProof d' now' proof' m' u' token' r' = (Ok jkt, r1') ->
  (exists k, signed_with proof k /\ signed_with proof' k) \/ (exists a b, a <> b /\ SHA256.Sum256 a = SHA256.Sum256 b).
Proof.
  assert (forall d now proof m u token r r1, verifyDPoPProof d now proof m u token r = (Ok jkt, r1) ->
    exists k c, signed_with proof k /\ canonicalJWK k = Some c /\ jkt = Str.of_list (Base64.RawURLEncode (SHA256.Sum256 (bytes c)))) as Hshape.
  { clear. intros d now proof m u token r r1 H. unfold verifyDPoPProof in H. destruct (checkProof d now proof m u) as [[k p]|] eqn:Hc; [|done].
    apply checkProof_Ok in Hc as (Hk & _). destruct (enforceDPoPReplay _ _ _ _ _ r) as [[[]|] ?]; [|done]. destruct (negb _); [done|].
    unfold jwkThumbprintRFC7638 in H. destruct (canonicalJWK k) as [c|] eqn:Ec; [|done]. injection H as <- _. by exists k, c. }
  intros (k & c & Hk & Hc & Hj)%Hshape (k' & c' & Hk' & Hc' & Hj')%Hshape. rewrite Hj in Hj'.
  assert (SHA256.Sum256 (bytes c) = SHA256.Sum256 (bytes c')) as Hs.
  { apply RawURLEncode_inj; [apply Sum256_bytes..|]. apply (f_equal Str.to_list) in Hj'. by rewrite !Str.to_of_list in Hj'. }
  destruct (decide (bytes c = bytes c')) as [E|E]; [left|right; by exists (bytes c), (bytes c')].
  apply bytes_inj in E as ->. rewrite (canonical_inj k' k c') in Hk' by (done || by eapply signed_plain). by exists k.
Qed.
End dpop.

(** ** Nonces *)

Lemma strict_digits_cons4 a b c d ds : ds <> [] -> strict_digits (a :: b :: c :: d :: ds) = strict_digits ds.
Proof.
  intros Hne. unfold strict_digits. cbn [length]. replace (S (S (S (S (length ds)))) mod 4)%nat with (length ds mod 4)%nat.
  - destruct ds; [done|]. done.
  - replace (S (S (S (S (length ds))))) with (length ds + 1 * 4)%nat by lia. by rewrite Nat.Div0.mod_add.
Qed.

Lemma strict_sextets bs : strict_digits ((fun x => x mod 64) <$> sextets bs) = true.
Proof.
  induction bs as [|a|a b|a b c bs IH] using list_ind3; [done| | |].
  - unfold strict_digits. cbn. rewrite (Z.land_ones _ 4) by lia. change (2 ^ 4) with 16. apply Z.eqb_eq. Z.to_euclidean_division_equations; lia.
  - unfold strict_digits. cbn. rewrite (Z.land_ones _ 2) by lia. change (2 ^ 2) with 4. apply Z.eqb_eq. Z.to_euclidean_division_equations; lia.
  - cbn [sextets fmap list_fmap]. destruct bs as [|x bs]; [done|]. rewrite strict_digits_cons4; [done|]. destruct bs as [|? [|]]; done.
Qed.

Lemma RawURLDecodeStrict_encode bs : Forall is_byte bs -> RawURLDecodeStrict (Base64.RawURLEncode bs) = Some bs.
Proof.
  intros Hb. unfold RawURLDecodeStrict. rewrite RawURLEncode_sextets, mapM_digits. cbn. rewrite strict_sextets. by apply decode_sextets.
Qed.

Lemma hmac_bytes key msg : Forall is_byte (hmac key msg).
Proof. apply Sum256_bytes. Qed.
Lemma hmac_length key msg : length (hmac key msg) = 32%nat.
Proof. apply Sum256_length. Qed.

Lemma be_bytes_S n x : SHA256.be_bytes (S n) x = Z.land (Z.shiftr x (8 * Z.of_nat n)) 255 :: SHA256.be_bytes n x.
Proof.
  unfold SHA256.be_bytes. rewrite <- cons_seq. cbn [fmap list_fmap]. f_equal; [do 3 f_equal; lia|].
  rewrite <- fmap_S_seq, <- list_fmap_compose. apply list_fmap_ext. intros i y _. cbn. do 4 f_equal. lia.
Qed.
Lemma be_bytes_length n x : length (SHA256.be_bytes n x) = n.
Proof. unfold SHA256.be_bytes. by rewrite length_fmap, length_seq. Qed.

Lemma foldl_bytes l acc : foldl (fun acc b => acc * 256 + b) acc l = acc * 256 ^ Z.of_nat (length l) + SetBytes l.
Proof.
  unfold SetBytes. revert acc. induction l as [|b l IH]; intros acc; cbn [foldl length]; [lia|].
  rewrite IH, (IH (0 * 256 + b)), Nat2Z.inj_succ, Z.pow_succ_r by lia. ring.
Qed.

Lemma SetBytes_be_bytes n x : 0 <= x < 256 ^ Z.of_nat n -> SetBytes (SHA256.be_bytes n x) = x.
Proof.
  intros Hx. cut (SetBytes (SHA256.be_bytes n x) = x mod 256 ^ Z.of_nat n); [intros ->; by apply Z.mod_small|]. clear Hx.
  induction n as [|n IH]; [cbn; by rewrite Z.mod_1_r|]. rewrite be_bytes_S. unfold SetBytes. cbn [foldl]. rewrite foldl_bytes, be_bytes_length, IH.
  rewrite (Z.land_ones _ 8), Z.shiftr_div_pow2 by lia. change (2 ^ 8) with 256. rewrite Z.pow_mul_r by lia. change (2 ^ 8) with 256.
  rewrite Nat2Z.inj_succ, Z.pow_succ_r, (Z.mul_comm 256) by lia. rewrite Z.rem_mul_r by lia. ring.
Qed.

(** A nonce is accepted from the moment it is issued, up to a minute early, until its
    lifetime is over. *)
Theorem nonce_window p random t now :
  length random = dpopNonceRandomLen -> Forall is_byte random -> 0 <= UnixNano t < 2 ^ 63 ->
  (VerifyNonce p (IssueNonce p random t) now = true <-> UnixNano now - np_ttl p <= UnixNano t <= UnixNano now + dpopProofClockSkewDefault).
Proof.
  intros Hl Hb Ht. unfold VerifyNonce, IssueNonce. rewrite Str.to_of_list. set (ts := SHA256.be_bytes dpopNonceTSLen (UnixNano t)).
  assert (length ts = 8%nat) as Hts by apply be_bytes_length. assert (length (random ++ ts) = 24%nat) as Hpl by (rewrite length_app, Hl, Hts; done).
  rewrite RawURLDecodeStrict_encode by (apply Forall_app; split; [apply Forall_app; split; [done|apply be_bytes_bytes]|apply hmac_bytes]).
  rewrite length_app, hmac_length, Hpl. change (negb (24 + 32 =? dpopNonceTotalLen)%nat) with false. cbv iota.
  change (dpopNonceRandomLen + dpopNonceTSLen)%nat with 24%nat. rewrite take_app_length', drop_app_length' by done.
  rewrite bool_decide_eq_true_2 by done. cbn [negb]. rewrite drop_app_length' by done. unfold ts. rewrite SetBytes_be_bytes by (change (256 ^ Z.of_nat dpopNonceTSLen) with (2 ^ 64); lia).
  replace (wrap64 (UnixNano t)) with (UnixNano t) by (unfold wrap64; rewrite Z.mod_small; lia).
  rewrite andb_true_iff, !negb_true_iff, !Z.ltb_ge. lia.
Qed.

Lemma strict_decode s bs : RawURLDecodeStrict s = Some bs -> RawURLDecode s = Some bs.
Proof. unfold RawURLDecodeStrict, RawURLDecode. destruct (mapM _ _); [|done]. cbn. by destruct (strict_digits l). Qed.

(** What is accepted carries the tag of its own content under the provider's key. *)
Lemma VerifyNonce_tag p nonce now : VerifyNonce p nonce now = true ->
  exists payload, length payload = 24%nat /\ RawURLDecode (Str.to_list nonce) = Some (payload ++ hmac (np_key p) payload).
Proof.
  unfold VerifyNonce. destruct (RawURLDecodeStrict _) as [raw|] eqn:Hd; [|done]. apply strict_decode in Hd.
  destruct (length raw =? dpopNonceTotalLen)%nat eqn:Hl; [|done]. apply Nat.eqb_eq in Hl. cbn [negb].
  change (dpopNonceRandomLen + dpopNonceTSLen)%nat with 24%nat. destruct (bool_decide _) eqn:Hm; [|done]. apply bool_decide_eq_true in Hm. intros _.
  exists (take 24 raw). split; [rewrite length_take, Hl; done|]. by rewrite Hm, take_drop.
Qed.

(** The text of a nonce is not unique: it may contain line breaks. *)
Lemma nonce_line_break p nonce now : VerifyNonce p (nonce +:+ String (Ascii.ascii_of_nat 10) "") now = VerifyNonce p nonce now.
Proof.
  unfold VerifyNonce, RawURLDecodeStrict.
  assert (List.filter not_newline (Str.to_list (nonce +:+ String (Ascii.ascii_of_nat 10) "")) = List.filter not_newline (Str.to_list nonce)) as ->; [|done].
  induction nonce as [|c s IH]; [by vm_compute|]. change (String c s +:+ _) with (String c (s +:+ String (Ascii.ascii_of_nat 10) "")).
  cbn [Str.to_list List.filter]. by rewrite IH.
Qed.

(** ** Witnesses *)

Definition proof_key : JWK := {|
  jwk_Kty := "OKP"; jwk_Use := ""; jwk_Alg := ""; jwk_Kid := ""; jwk_Crv := "Ed25519"; jwk_X := Str.of_list (Base64.RawURLEncode toy_key);
  jwk_Y := ""; jwk_N := ""; jwk_E := "" |}.
Definition toy_proof : string := JwtIssuer.compact (Base64.RawURLEncode [1]) (Base64.RawURLEncode [2]) (Base64.RawURLEncode toy_key).
Definition proof_header (b : list Z) : option JWSHeader := Some {| jh_Alg := "EdDSA"; jh_Kid := ""; jh_Crit := [] |}.
Definition proof_typ (b : list Z) : option (string * option (list Z)) := Some (dpopProofTyp, Some [3]).
Definition proof_payload (b : list Z) : option dpopProofPayload :=
  Some {| dp_HTM := "post"; dp_HTU := "https://op/token?x=1"; dp_IAT := 1000; dp_JTI := "p1"; dp_Nonce := ""; dp_Ath := "" |}.
Definition toy_dpop : DPoPDeps := {| dd_replayFailClosed := true; dd_nonceProvider := None; dd_proofMaxAge := 0; dd_proofClockSkew := 0 |}.
Definition verify_toy (d : DPoPDeps) (now : Z) (replay : option MemoryJTIReplayStore) : result dpop_error string * option MemoryJTIReplayStore :=
  verifyDPoPProof toy_ed (fun _ _ _ _ _ => false) (fun _ _ _ _ => false) (fun _ _ _ _ => false) proof_header proof_typ (fun _ => Some proof_key)
    proof_payload d now toy_proof "POST" "https://op/token" "" replay.
Definition toy_thumbprint : string := default "" (jwkThumbprintRFC7638 proof_key).

Lemma toy_accepted : exists m, verify_toy toy_dpop (Unix 1010) (Some toy_replay) = (Ok toy_thumbprint, Some m).
Proof.
  destruct (verify_toy toy_dpop (Unix 1010) (Some toy_replay)) as [[j|] [m|]] eqn:H; vm_compute in H; try discriminate H.
  exists m. injection H as <- <-. vm_compute. reflexivity.
Qed.

Lemma dpop_proof_sound_witness : exists k p,
  jwkThumbprintRFC7638 k = Some toy_thumbprint /\ proof_payload [2] = Some p /\ dp_JTI p = "p1".
Proof.
  destruct toy_accepted as [m H].
  destruct (dpop_proof_sound _ _ _ _ _ _ _ _ _ _ _ _ _ _ _ _ _ H) as (k & p & _ & Hk & Hp & _). exists k, p. split; [exact Hk|].
  vm_compute in Hp. injection Hp as <-. split; vm_compute; reflexivity.
Defined.

Lemma dpop_replay_gap_witness : exists m, (verify_toy toy_dpop (Unix 1060 + 5) (Some m)).1 = Ok toy_thumbprint.
Proof.
  destruct toy_accepted as [m H]. exists m. unfold verify_toy in *.
  unshelve refine (dpop_replay_gap _ _ _ _ _ _ _ _ toy_dpop (Unix 1010) toy_proof "POST" "https://op/token" "" toy_replay toy_thumbprint m
    {| dp_HTM := "post"; dp_HTU := "https://op/token?x=1"; dp_IAT := 1000; dp_JTI := "p1"; dp_Nonce := ""; dp_Ath := "" |} 60 H _ _ _ _ _ (Unix 1060 + 5) _).
  - vm_compute. discriminate.
  - reflexivity.
  - vm_compute. reflexivity.
  - reflexivity.
  - vm_compute. discriminate.
  - vm_compute. split; congruence.
Defined.

Lemma dpop_key_binding_witness :
  (exists k, signed_with toy_ed (fun _ _ _ _ _ => false) (fun _ _ _ _ => false) (fun _ _ _ _ => false) proof_typ (fun _ => Some proof_key) toy_proof k /\
     signed_with toy_ed (fun _ _ _ _ _ => false) (fun _ _ _ _ => false) (fun _ _ _ _ => false) proof_typ (fun _ => Some proof_key) toy_proof k) \/
  (exists a b, a <> b /\ SHA256.Sum256 a = SHA256.Sum256 b).
Proof.
  destruct toy_accepted as [m H]. exact (dpop_key_binding _ _ _ _ _ _ _ _ _ _ _ _ _ _ _ _ _ _ _ _ _ _ _ _ _ H H).
Defined.

Lemma nonce_window_witness :
  VerifyNonce (NewHMACNonceProvider (replicate 32 5) 0) (IssueNonce (NewHMACNonceProvider (replicate 32 5) 0) (replicate 16 9) (Unix 1000)) (Unix 1100) = true.
Proof.
  apply (nonce_window (NewHMACNonceProvider (replicate 32 5) 0) (replicate 16 9) (Unix 1000) (Unix 1100)).
  - reflexivity.
  - apply Forall_replicate. unfold is_byte. lia.
  - vm_compute. split; congruence.
  - vm_compute. split; congruence.
Defined.
