(* ===== verification/TokenFront.v ===== *)
(** * TokenFront: who may use an access token, and where
    ([interfaces/sso]: the token half of [server_token_clientauth.go],
    [server_tenant_residency.go], the tenant and pairwise lookups of [server_tenant.go],
    [server_login.go] and [server_pairwise.go], [MeshAuthorize] and the sender
    constraints of [mesh_authz.go] and [server_resource.go], the bearer ladder of
    [protocols/oidc/handle_userinfo.go], [internal/handler/validation.go]).

    The state holds every in-memory store these read.  The token issuers are operations
    on a state of their own; the iteration order of the map they are kept in is the order
    of a list.  In-memory stores do not fail. *)
From S2P Require Import Prelude Crypto Core Scopes Lifecycle RefreshStore CodeStores DeviceCodes CibaStore Issue RefreshIface GraceCache GrantCore JTIReplay Jose ExchangeDeps Permissions Resources AdminPaging Users Sessions Clients JwtIssuer Jwks ClientAuth Dpop.
Local Open Scope Z_scope.

(** ** Caches with a time to live *)

(** [suspensionCache], [residencyCache], [MemoryIntrospectionCache]: an entry is fresh
    until its deadline, that instant included. *)
Record TTLCache (V : Type) := { ca_entries : gmap string (V * Z); ca_ttl : Z }.
Arguments ca_entries {V}. Arguments ca_ttl {V}. Arguments Build_TTLCache {V}.

Definition cache_get {V} (now : Z) (key : string) (c : TTLCache V) : option V :=
  match ca_entries c !! key with
  | None => None
  | Some (v, expiresAt) => if 0 <? GoTime.Since now expiresAt then None else Some v
  end.
Definition cache_put {V} (now : Z) (key : string) (v : V) (c : TTLCache V) : TTLCache V :=
  {| ca_entries := <[key := (v, GoTime.Add now (ca_ttl c))]> (ca_entries c); ca_ttl := ca_ttl c |}.
Definition cache_invalidate {V} (key : string) (c : TTLCache V) : TTLCache V :=
  {| ca_entries := delete key (ca_entries c); ca_ttl := ca_ttl c |}.
Definition cache_flush {V} (c : TTLCache V) : TTLCache V := {| ca_entries := ∅; ca_ttl := ca_ttl c |}.

(** ** Data *)

Record ResidencyPolicy := { rp_HomeRegion : string; rp_AllowedRegions : list string; rp_EnforceWrites : bool }.
Definition ResidencyIsZero (p : ResidencyPolicy) : bool :=
  bool_decide (rp_HomeRegion p = "") && bool_decide (rp_AllowedRegions p = []) && negb (rp_EnforceWrites p).

Record Tenant := { tn_ID : string; tn_Status : string; tn_HomeRegion : string; tn_AllowedRegions : list string; tn_EnforceWrites : bool }.
Definition TenantStatusSuspended : string := "suspended".
Definition residencyPolicyFromTenant (t : Tenant) : ResidencyPolicy :=
  {| rp_HomeRegion := tn_HomeRegion t; rp_AllowedRegions := tn_AllowedRegions t; rp_EnforceWrites := tn_EnforceWrites t |}.

(** An error of an issuer: whether it is a rejection ([core.ErrTokenValidationRejected]),
    and its text. *)
Record issuer_error := { ie_rejected : bool; ie_msg : string }.

(** [core.TokenIssuer] on a state [X]; [ti_Accepts] is the hint of those that have one. *)
Record TokenIssuer (X : Type) := {
  ti_Accepts : option (string -> bool);
  ti_Validate : Z -> string -> X -> result issuer_error TokenClaims * X;
  ti_Revoke : Z -> string -> X -> option issuer_error * X;
}.
Arguments ti_Accepts {X}. Arguments ti_Validate {X}. Arguments ti_Revoke {X}. Arguments Build_TokenIssuer {X}.

(** [oauth.CachedResult], the body an abstract value. *)
Record CachedResult (B : Type) := { cr_Body : B; cr_LifecycleSubjects : list string }.
Arguments cr_Body {B}. Arguments cr_LifecycleSubjects {B}. Arguments Build_CachedResult {B}.

(** The stores; [None] is a store that is not wired. *)
Record Front (B X : Type) := {
  fr_issuers : X;
  fr_clients : MemoryClientStore;
  fr_tenants : option (gmap string Tenant);
  fr_suspension : option (TTLCache bool);
  fr_residency : option (TTLCache ResidencyPolicy);
  fr_policies : option (gmap string ResidencyPolicy);
  fr_lifecycle : option LifecycleStore;
  fr_pairwise : option (gmap string string);
  fr_sessions : option MemorySessionManager;
  fr_refresh : option MemoryRefreshTokenStore;
  fr_cache : option (TTLCache (CachedResult B));
  fr_replay : option MemoryJTIReplayStore;
}.
Arguments fr_issuers {B X}. Arguments fr_clients {B X}. Arguments fr_tenants {B X}. Arguments fr_suspension {B X}.
Arguments fr_residency {B X}. Arguments fr_policies {B X}. Arguments fr_lifecycle {B X}. Arguments fr_pairwise {B X}.
Arguments fr_sessions {B X}. Arguments fr_refresh {B X}. Arguments fr_cache {B X}. Arguments fr_replay {B X}.

Section setters.
Context {B X : Type}.
Notation Front := (Front B X).
Definition set_issuers (x : X) (w : Front) : Front := {| fr_issuers := x; fr_clients := fr_clients w; fr_tenants := fr_tenants w; fr_suspension := fr_suspension w; fr_residency := fr_residency w; fr_policies := fr_policies w; fr_lifecycle := fr_lifecycle w; fr_pairwise := fr_pairwise w; fr_sessions := fr_sessions w; fr_refresh := fr_refresh w; fr_cache := fr_cache w; fr_replay := fr_replay w |}.
Definition set_suspension (s : option (TTLCache bool)) (w : Front) : Front := {| fr_issuers := fr_issuers w; fr_clients := fr_clients w; fr_tenants := fr_tenants w; fr_suspension := s; fr_residency := fr_residency w; fr_policies := fr_policies w; fr_lifecycle := fr_lifecycle w; fr_pairwise := fr_pairwise w; fr_sessions := fr_sessions w; fr_refresh := fr_refresh w; fr_cache := fr_cache w; fr_replay := fr_replay w |}.
Definition set_residency (s : option (TTLCache ResidencyPolicy)) (w : Front) : Front := {| fr_issuers := fr_issuers w; fr_clients := fr_clients w; fr_tenants := fr_tenants w; fr_suspension := fr_suspension w; fr_residency := s; fr_policies := fr_policies w; fr_lifecycle := fr_lifecycle w; fr_pairwise := fr_pairwise w; fr_sessions := fr_sessions w; fr_refresh := fr_refresh w; fr_cache := fr_cache w; fr_replay := fr_replay w |}.
Definition set_refresh (s : option MemoryRefreshTokenStore) (w : Front) : Front := {| fr_issuers := fr_issuers w; fr_clients := fr_clients w; fr_tenants := fr_tenants w; fr_suspension := fr_suspension w; fr_residency := fr_residency w; fr_policies := fr_policies w; fr_lifecycle := fr_lifecycle w; fr_pairwise := fr_pairwise w; fr_sessions := fr_sessions w; fr_refresh := s; fr_cache := fr_cache w; fr_replay := fr_replay w |}.
Definition set_cache (s : option (TTLCache (CachedResult B))) (w : Front) : Front := {| fr_issuers := fr_issuers w; fr_clients := fr_clients w; fr_tenants := fr_tenants w; fr_suspension := fr_suspension w; fr_residency := fr_residency w; fr_policies := fr_policies w; fr_lifecycle := fr_lifecycle w; fr_pairwise := fr_pairwise w; fr_sessions := fr_sessions w; fr_refresh := fr_refresh w; fr_cache := s; fr_replay := fr_replay w |}.
Definition set_replay (s : option MemoryJTIReplayStore) (w : Front) : Front := {| fr_issuers := fr_issuers w; fr_clients := fr_clients w; fr_tenants := fr_tenants w; fr_suspension := fr_suspension w; fr_residency := fr_residency w; fr_policies := fr_policies w; fr_lifecycle := fr_lifecycle w; fr_pairwise := fr_pairwise w; fr_sessions := fr_sessions w; fr_refresh := fr_refresh w; fr_cache := fr_cache w; fr_replay := s |}.
End setters.

(** ** Tenants *)

Definition ErrRegionNotAllowed : string := "region_not_allowed".
Definition ErrResidencyViolation : string := "residency_violation".

Section front.
Context {B X : Type}.
Notation Front := (Front B X).

(** [TenantSuspended]: a tenant the store does not know is not suspended. *)
Definition TenantSuspended (enabled : bool) (now : Z) (tenantID : string) : M Front bool := fun w =>
  match fr_tenants w with
  | None => (false, w)
  | Some tenants =>
      if negb enabled || bool_decide (tenantID = "") then (false, w)
      else match fr_suspension w ≫= cache_get now tenantID with
           | Some suspended => (suspended, w)
           | None =>
               match tenants !! tenantID with
               | None => (false, w)
               | Some t =>
                   let suspended := bool_decide (tn_Status t = TenantStatusSuspended) in
                   (suspended, set_suspension (cache_put now tenantID suspended <$> fr_suspension w) w)
               end
           end
  end.

(** [checkTenantNotSuspended]: whether it passes. *)
Definition checkTenantNotSuspended (enabled : bool) (now : Z) (claims : TokenClaims) : M Front bool := fun w =>
  if negb enabled || bool_decide (tc_ClientID claims = "") then (true, w)
  else match fr_tenants w, fr_clients w !! tc_ClientID claims with
       | Some _, Some client =>
           if decide (cl_TenantID client = "") then (true, w)
           else let '(suspended, w) := TenantSuspended enabled now (cl_TenantID client) w in (negb suspended, w)
       | _, _ => (true, w)
       end.

Definition evaluateResidency (policy : ResidencyPolicy) (servingRegion : string) (isWrite : bool) : option string :=
  if decide (rp_HomeRegion policy = "") then None
  else if decide (servingRegion = rp_HomeRegion policy) then None
  else if negb (bool_decide (rp_AllowedRegions policy = [])) && negb (contains (rp_AllowedRegions policy) servingRegion) then Some ErrRegionNotAllowed
  else if isWrite && rp_EnforceWrites policy && negb (bool_decide (servingRegion = rp_HomeRegion policy)) then Some ErrResidencyViolation
  else None.

(** The cache, then the policy store, then the fields of the tenant. *)
Definition resolveResidencyPolicy (now : Z) (tenantID : string) : M Front (option ResidencyPolicy) := fun w =>
  match fr_residency w ≫= cache_get now tenantID with
  | Some policy => (Some policy, w)
  | None =>
      let put policy := set_residency (cache_put now tenantID policy <$> fr_residency w) w in
      match (ps ← fr_policies w; p ← ps !! tenantID; if ResidencyIsZero p then None else Some p) with
      | Some policy => (Some policy, put policy)
      | None =>
          match fr_tenants w ≫= (fun ts => ts !! tenantID) with
          | None => (None, w)
          | Some t => let policy := residencyPolicyFromTenant t in (Some policy, put policy)
          end
      end
  end.

Definition checkTenantResidency (enabled : bool) (now : Z) (tenantID servingRegion : string) (isWrite : bool) : M Front (option string) := fun w =>
  if negb enabled || bool_decide (servingRegion = "") || bool_decide (tenantID = "") then (None, w)
  else match resolveResidencyPolicy now tenantID w with
       | (None, w) => (None, w)
       | (Some policy, w) => (evaluateResidency policy servingRegion isWrite, w)
       end.

(** The wire code when access is denied; the region is empty when none was resolved. *)
Definition residencyDeniedForAccess (enabled : bool) (now : Z) (servingRegion : string) (claims : TokenClaims) : M Front (option string) := fun w =>
  if negb enabled || bool_decide (servingRegion = "") || bool_decide (tc_ClientID claims = "") then (None, w)
  else match fr_clients w !! tc_ClientID claims with
       | None => (None, w)
       | Some client =>
           if decide (cl_TenantID client = "") then (None, w) else checkTenantResidency enabled now (cl_TenantID client) servingRegion false w
       end.

(** ** Subjects *)

(** A subject without a mapping is a local one. *)
Definition resolveLocalSubject (sub : string) (w : Front) : string :=
  if decide (sub = "") then sub
  else match fr_pairwise w with None => sub | Some m => default sub (m !! sub) end.

Definition LifecycleState (subject : string) (w : Front) : Lifecycle.State :=
  match fr_lifecycle w with None => DefaultState | Some m => GetState (resolveLocalSubject subject w) m end.

(** Whether the subject may authenticate. *)
Definition lifecycleAuthentication (w : Front) (subject : string) : bool := AllowsAuthentication (LifecycleState subject w).

(** The subject of a token and everyone it passed through. *)
Definition lifecycleSubjects (c : TokenClaims) : list string := tc_Subject c :: actors (tc_Actor c).

Definition lifecycleClaims (w : Front) (c : TokenClaims) : bool := forallb (lifecycleAuthentication w) (lifecycleSubjects c).

(** ** Validation *)

(** [JWSHeaderAlg]; [None] for anything that is no compact JWS with an algorithm. *)
Section alg.
Context (json_member : string -> list Z -> option string).
Definition JWSHeaderAlg (token : string) : option string :=
  match jws_parts token with
  | [h; _; _] =>
      if decide (h = []) then None
      else match RawURLDecode h ≫= json_member "alg" with
           | None | Some "" => None
           | Some alg => Some alg
           end
  | _ => None
  end.
End alg.
Definition AlgAllowed (alg : string) (allow : list string) : bool := contains allow alg.

(** [IsUnknownTokenErr] on the text of an error. *)
Definition IsUnknownTokenErr (msg : string) : bool := existsb (Contains msg) ["not found"; "unknown"; "no such"].
Definition isUnknownTokenErr (e : issuer_error) : bool := ie_rejected e || IsUnknownTokenErr (ie_msg e).

Inductive token_error := TokenRejected | TokenOperational | ErrTenantSuspended | ErrAuthenticationBlocked | NoTokenIssuers.
#[export] Instance token_error_eq_dec : EqDecision token_error.
Proof. solve_decision. Defined.

(** What a server is configured with. *)
Record FrontDeps := {
  fd_maxTokenBytes : Z;
  fd_supportedSigningAlgs : list string;
  fd_tenantSuspension : bool;
  fd_tenantResidency : bool;
  fd_dpop : DPoPDeps;
}.

(** The signature schemes and decoders of [Jwks] and [Dpop], and [json.Unmarshal] into a
    struct of one member. *)
Record Primitives := {
  pr_ed25519 : list Z -> list Z -> list Z -> bool;
  pr_ecdsa : Curve -> Z * Z -> list Z -> Z -> Z -> bool;
  pr_pkcs1 : Z * Z -> option Hash -> list Z -> list Z -> bool;
  pr_pss : Z * Z -> option Hash -> list Z -> list Z -> bool;
  pr_header : list Z -> option JWSHeader;
  pr_proof_header : list Z -> option (string * option (list Z));
  pr_jwk : list Z -> option JWK;
  pr_proof_payload : list Z -> option dpopProofPayload;
  pr_json_member : string -> list Z -> option string;
}.

Context (c : Primitives) (d : FrontDeps).
Context (issuers : list (string * TokenIssuer X)).

Definition validateTokenPreChecks (token : string) : bool :=
  if (0 <? fd_maxTokenBytes d) && (fd_maxTokenBytes d <? Str.len token) then false
  else match fd_supportedSigningAlgs d, JWSHeaderAlg (pr_json_member c) token with
       | [], _ | _, None => true
       | allow, Some alg => AlgAllowed alg allow
       end.

Definition accepts_format (ti : TokenIssuer X) (token : string) : bool :=
  match ti_Accepts ti with None => true | Some f => f token end.

Definition checkAnyTokenEligibility (now : Z) (claims : TokenClaims) : M Front (option token_error) := fun w =>
  let '(ok, w) := checkTenantNotSuspended (fd_tenantSuspension d) now claims w in
  (if negb ok then Some ErrTenantSuspended else if lifecycleClaims w claims then None else Some ErrAuthenticationBlocked, w).

Definition anyTokenError (operational rejected anyIssuers : bool) : token_error :=
  if operational then TokenOperational else if rejected then TokenRejected else if anyIssuers then TokenRejected else NoTokenIssuers.

(** The loop of [validateAnyTokenMode], over the issuers left. *)
Fixpoint validate_loop (now : Z) (token : string) (checkEligibility : bool) (rest : list (string * TokenIssuer X))
    (operational rejected : bool) (w : Front) : result token_error (TokenClaims * string) * Front :=
  match rest with
  | [] => (Err (anyTokenError operational rejected (negb (bool_decide (length issuers = 0%nat)))), w)
  | (name, ti) :: rest =>
      if negb (accepts_format ti token) then validate_loop now token checkEligibility rest operational rejected w
      else
        let '(r, x) := ti_Validate ti now token (fr_issuers w) in
        let w := set_issuers x w in
        match r with
        | Err e => validate_loop now token checkEligibility rest (operational || negb (ie_rejected e)) (rejected || ie_rejected e) w
        | Ok claims =>
            if checkEligibility then
              match checkAnyTokenEligibility now claims w with
              | (Some e, w) => (Err e, w)
              | (None, w) => (Ok (claims, name), w)
              end
            else (Ok (claims, name), w)
        end
  end.

Definition validateAnyTokenMode (now : Z) (token : string) (checkEligibility : bool) (w : Front) : result token_error (TokenClaims * string) * Front :=
  if negb (validateTokenPreChecks token) then (Err TokenRejected, w) else validate_loop now token checkEligibility issuers false false w.

Definition validateAnyToken (now : Z) (token : string) : M Front (result token_error (TokenClaims * string)) := validateAnyTokenMode now token true.
Definition ValidateAnyTokenForRevocation (now : Z) (token : string) : M Front (result token_error (TokenClaims * string)) := validateAnyTokenMode now token false.

(** The loop of [revokeAcrossIssuers]: the issuers that revoked and those that failed. *)
Fixpoint revoke_loop (now : Z) (token : string) (rest : list (string * TokenIssuer X)) (x : X) : list string * list string * X :=
  match rest with
  | [] => ([], [], x)
  | (name, ti) :: rest =>
      if negb (accepts_format ti token) then revoke_loop now token rest x
      else
        let '(e, x) := ti_Revoke ti now token x in
        let '(revoked, failed, x) := revoke_loop now token rest x in
        match e with
        | None => (name :: revoked, failed, x)
        | Some e => if isUnknownTokenErr e then (revoked, failed, x) else (revoked, name :: failed, x)
        end
  end.

(** [tokenHash] and [InvalidateIntrospectionCache]. *)
Definition tokenHash (token : string) : string := sha256_hex token.
Definition InvalidateIntrospectionCache (token : string) (w : Front) : Front :=
  if decide (token = "") then w else set_cache (cache_invalidate (tokenHash token) <$> fr_cache w) w.

Definition revokeAcrossIssuers (now : Z) (token : string) : M Front (list string * list string) := fun w =>
  let '(revoked, failed, x) := revoke_loop now token issuers (fr_issuers w) in
  ((revoked, failed), InvalidateIntrospectionCache token (set_issuers x w)).

(** ** What the checks leave of the stores *)

(** Validation moves the issuers and the cache of tenant statuses, nothing else. *)
Definition validated (x : X) (s : option (TTLCache bool)) (w : Front) : Front := set_suspension s (set_issuers x w).

Lemma validated_id w : validated (fr_issuers w) (fr_suspension w) w = w.
Proof. by destruct w. Qed.
Lemma set_issuers_validated x w : set_issuers x w = validated x (fr_suspension w) w.
Proof. by destruct w. Qed.

Lemma TenantSuspended_frame e now t w : exists s, (TenantSuspended e now t w).2 = set_suspension s w.
Proof.
  assert (exists s, w = set_suspension s w) by (exists (fr_suspension w); by destruct w).
  unfold TenantSuspended. destruct (fr_tenants w); [|done]. destruct (_ || _); [done|]. destruct (_ ≫= _); [done|]. destruct (_ !! _); [|done]. by eexists.
Qed.

Lemma checkTenantNotSuspended_frame e now claims w : exists s, (checkTenantNotSuspended e now claims w).2 = set_suspension s w.
Proof.
  assert (exists s, w = set_suspension s w) by (exists (fr_suspension w); by destruct w).
  unfold checkTenantNotSuspended. destruct (_ || _); [done|]. destruct (fr_tenants w); [|done]. destruct (_ !! _) as [cl|]; [|done].
  destruct (decide _); [done|]. pose proof (TenantSuspended_frame e now (cl_TenantID cl) w) as Hf. by destruct (TenantSuspended _ _ _ _).
Qed.

(** The tenant [t] is not known to be suspended: its status is another, or a cached
    status, put there less than a time to live ago, says so. *)
Definition tenant_passes (now : Z) (t : string) (w : Front) : Prop :=
  forall tenants, fr_tenants w = Some tenants -> forall T, tenants !! t = Some T ->
    tn_Status T <> TenantStatusSuspended \/
    exists cache e, fr_suspension w = Some cache /\ ca_entries cache !! t = Some (false, e) /\ now <= e.

Lemma cache_get_Some {V} now key (v : V) ch : cache_get now key ch = Some v -> exists e, ca_entries ch !! key = Some (v, e) /\ now <= e.
Proof.
  unfold cache_get. destruct (_ !! _) as [[v' e]|]; [|done]. rewrite GoTime.Since_pos_spec. destruct (e <? now) eqn:E; [done|]. intros [= ->]. exists e. split; [done|lia].
Qed.

Lemma TenantSuspended_false now t w : (TenantSuspended true now t w).1 = false -> t <> "" -> tenant_passes now t w.
Proof.
  unfold TenantSuspended. intros H Ht tenants Htn T HT. rewrite Htn in H. rewrite bool_decide_eq_false_2 in H by done. cbn [negb orb] in H.
  destruct (fr_suspension w ≫= cache_get now t) as [b|] eqn:Hc; cbn in H.
  - subst b. right. destruct (fr_suspension w) as [cache|]; [|done]. apply cache_get_Some in Hc as (e & He & Hle). by exists cache, e.
  - rewrite HT in H. cbn in H. left. by apply bool_decide_eq_false in H.
Qed.

(** The client of a token belongs to no suspended tenant. *)
Definition tenant_ok (now : Z) (claims : TokenClaims) (w : Front) : Prop :=
  fd_tenantSuspension d = true -> tc_ClientID claims <> "" -> forall cl, fr_clients w !! tc_ClientID claims = Some cl ->
  cl_TenantID cl <> "" -> tenant_passes now (cl_TenantID cl) w.

Lemma checkTenantNotSuspended_true now claims w : (checkTenantNotSuspended (fd_tenantSuspension d) now claims w).1 = true -> tenant_ok now claims w.
Proof.
  unfold checkTenantNotSuspended. intros H He Hid cl Hcl Ht. rewrite He, bool_decide_eq_false_2, Hcl in H by done. cbn [negb orb] in H.
  destruct (fr_tenants w) as [ts|] eqn:Hts; [|by intros ? ?; congruence]. destruct (decide _); [done|].
  destruct (TenantSuspended true now (cl_TenantID cl) w) as [b w'] eqn:E. cbn in H. apply TenantSuspended_false; [|done]. rewrite E. by destruct b.
Qed.

(** The claims came from an issuer that accepts the token and judged it at this instant. *)
Definition issued (now : Z) (token : string) (claims : TokenClaims) (name : string) : Prop :=
  exists ti x x', (name, ti) ∈ issuers /\ accepts_format ti token = true /\ ti_Validate ti now token x = (Ok claims, x').

Definition eligible (now : Z) (claims : TokenClaims) (w : Front) : Prop :=
  tenant_ok now claims w /\ Forall (fun s => lifecycleAuthentication w s = true) (lifecycleSubjects claims).

Lemma validate_loop_Ok now token check rest o r w claims name w' :
  rest ⊆ issuers -> validate_loop now token check rest o r w = (Ok (claims, name), w') ->
  issued now token claims name /\ (check = true -> eligible now claims w).
Proof.
  revert o r w. induction rest as [|[n ti] rest IH]; intros o r w Hin; cbn [validate_loop]; [done|].
  assert (rest ⊆ issuers) as Hrest by set_solver. destruct (accepts_format ti token) eqn:Ha; cbn [negb]; [|by apply IH].
  destruct (ti_Validate ti now token (fr_issuers w)) as [[cl|e] x] eqn:Hv; [|by apply (IH _ _ (set_issuers x w))].
  assert (issued now token cl n) as Hi by (exists ti, (fr_issuers w), x; split; [set_solver|done]).
  destruct check; [|by intros [= <- <- _]]. unfold checkAnyTokenEligibility.
  destruct (checkTenantNotSuspended _ _ _ _) as [ok w1] eqn:Hc. destruct ok; cbn [negb]; [|done].
  destruct (lifecycleClaims w1 cl) eqn:Hl; [|done]. intros [= <- <- _]. split; [done|]. intros _. split.
  - pose proof (checkTenantNotSuspended_true now cl (set_issuers x w)) as H. rewrite Hc in H. by apply H.
  - destruct (checkTenantNotSuspended_frame (fd_tenantSuspension d) now cl (set_issuers x w)) as [s Hs]. rewrite Hc in Hs. cbn in Hs. subst w1.
    unfold lifecycleClaims in Hl. rewrite forallb_forall in Hl. apply Forall_forall. intros u Hu. apply list_elem_of_In in Hu. exact (Hl u Hu).
Qed.

Lemma validate_loop_frame now token check rest o r w : exists x s, (validate_loop now token check rest o r w).2 = validated x s w.
Proof.
  revert o r w. induction rest as [|[n ti] rest IH]; intros o r w; cbn [validate_loop].
  - exists (fr_issuers w), (fr_suspension w). by rewrite validated_id.
  - destruct (negb _); [apply IH|]. destruct (ti_Validate ti now token (fr_issuers w)) as [[cl|e] x]; [|apply (IH _ _ (set_issuers x w))].
    destruct check; [|exists x, (fr_suspension w); apply set_issuers_validated]. unfold checkAnyTokenEligibility.
    destruct (checkTenantNotSuspended_frame (fd_tenantSuspension d) now cl (set_issuers x w)) as [s Hs].
    destruct (checkTenantNotSuspended _ _ _ _) as [ok w1]. cbn in Hs. subst w1. exists x, s. by destruct ok; cbn [negb]; [destruct (lifecycleClaims _ _)|].
Qed.

Lemma validateAnyToken_Ok now token w claims name w' : validateAnyToken now token w = (Ok (claims, name), w') ->
  validateTokenPreChecks token = true /\ issued now token claims name /\ eligible now claims w.
Proof.
  unfold validateAnyToken, validateAnyTokenMode. destruct (validateTokenPreChecks token); [|done]. cbn [negb]. intros H.
  apply validate_loop_Ok in H as [H1 H2]; [auto|done].
Qed.
Lemma validateAnyToken_frame now token w : exists x s, (validateAnyToken now token w).2 = validated x s w.
Proof.
  unfold validateAnyToken, validateAnyTokenMode. destruct (negb _); [|apply validate_loop_frame].
  exists (fr_issuers w), (fr_suspension w). by rewrite validated_id.
Qed.
End front.
