(* ===== verification/ResourceAccess.v ===== *)
(** * ResourceAccess: presenting an access token
    ([interfaces/sso]: [MeshAuthorize] and the sender constraints of [mesh_authz.go] and
    [server_resource.go], [requestURLForDPoP] and [stampDPoPNonce] of [server_dpop.go];
    [protocols/oauth/oauthwire/bearer.go]; the bearer ladder of
    [protocols/oidc/handle_userinfo.go]).

    A resource request is granted by the mesh hook or served by [/userinfo] after the
    same checks: the token, its sender constraints, the region, and for the mesh the
    session.  The certificate extractor, the region resolver and the role lookup are
    interfaces of the server and arguments here. *)
From S2P Require Import Prelude Crypto Core Scopes Lifecycle RefreshStore CodeStores Issue JTIReplay Jose ExchangeDeps Resources Sessions Clients JwtIssuer Jwks ClientAuth Dpop TokenFront.
Local Open Scope Z_scope.

Definition ErrInvalidToken : string := "invalid_token".
Definition ErrMissingToken : string := "missing_token".
Definition ErrUseDPoPNonce : string := "use_dpop_nonce".

(** ** Requests *)

(** [*http.Request]: canonical header names, the certificates of its connection when it
    has TLS, and whether its forwarding headers come from a trusted proxy. *)
Record Request := {
  rq_Method : string;
  rq_Host : string;
  rq_Path : string;
  rq_TLS : option (list Certificate);
  rq_Header : gmap string (list string);
  rq_ForwardedTrusted : bool;
}.

(** [Header.Get]: the first value. *)
Definition header (r : Request) (name : string) : string :=
  match rq_Header r !! name with Some (v :: _) => v | _ => "" end.

Definition BearerPrefix : string := "Bearer ".
Definition DPoPPrefix : string := "DPoP ".

(** [strings.TrimPrefix]. *)
Definition TrimPrefix (s p : string) : string :=
  if HasPrefix s p then Str.of_list (drop (length (Str.to_list p)) (Str.to_list s)) else s.

Definition BearerToken (r : Request) : string :=
  let h := header r "Authorization" in
  if negb (HasPrefix h BearerPrefix) then "" else TrimPrefix h BearerPrefix.

Definition ResourceToken (r : Request) : string :=
  if decide (BearerToken r <> "") then BearerToken r
  else
    let h := header r "Authorization" in
    if negb (HasPrefix h DPoPPrefix) then "" else TrimPrefix h DPoPPrefix.

(** The token a proof must be bound to, under either scheme in any case. *)
Fixpoint scheme_token (h : string) (schemes : list string) : string :=
  match schemes with
  | [] => ""
  | scheme :: schemes =>
      let n := length (Str.to_list scheme) in
      if (n <? length (Str.to_list h))%nat && equalFold (Str.of_list (take n (Str.to_list h))) scheme
      then Str.of_list (drop n (Str.to_list h)) else scheme_token h schemes
  end.
Definition dpopSchemeToken (r : Request) : string := scheme_token (header r "Authorization") [DPoPPrefix; BearerPrefix].

Definition requestURLForDPoP (r : Request) : string :=
  let forwarded name v := if rq_ForwardedTrusted r && negb (bool_decide (header r name = "")) then header r name else v in
  forwarded "X-Forwarded-Proto" (match rq_TLS r with Some _ => "https" | None => "http" end)
    +:+ "://" +:+ forwarded "X-Forwarded-Host" (rq_Host r) +:+ rq_Path r.

Definition DefaultTLSPeerCertExtractor (r : Request) : option Certificate := rq_TLS r ≫= head.

(** ** Sender constraints *)

Definition certificateThumbprintS256 (cert : Certificate) : string :=
  if decide (ce_Raw cert = []) then "" else Str.of_list (Base64.RawURLEncode (SHA256.Sum256 (ce_Raw cert))).

(** Both ends of the validity are valid. *)
Definition certCurrentlyValid (cert : Certificate) (now : Z) : bool :=
  negb (GoTime.Before now (ce_NotBefore cert)) && negb (GoTime.After now (ce_NotAfter cert)).

Inductive mtls_error := errCertRequired | errCertThumbprintMismatch | errCertNotValid.
Inductive bearer_error := DPoPProofMissing | DPoPProofRefused (e : dpop_error) | DPoPKeyMismatch.

(** What the server adds to [FrontDeps]: the certificate extractor, the region resolver
    ([None] in its answer is an error) with the regions it may name, and the roles of a
    subject at a client in a session. *)
Record AccessDeps := {
  ac_front : FrontDeps;
  ac_certExtractor : option (Request -> option Certificate);
  ac_regionResolver : option (Request -> option string);
  ac_AllowedRegions : list string;
  ac_roles : option (string -> string -> string -> option (list string));
}.

Definition verifyMTLSBearer (a : AccessDeps) (now : Z) (r : Request) (claims : TokenClaims) : option mtls_error :=
  if decide (tc_ConfirmationX5TS256 claims = "") then None
  else match ac_certExtractor a with
       | None => None
       | Some extract =>
           match extract r with
           | None => Some errCertRequired
           | Some cert =>
               if negb (bool_decide (certificateThumbprintS256 cert = tc_ConfirmationX5TS256 claims)) then Some errCertThumbprintMismatch
               else if negb (certCurrentlyValid cert now) then Some errCertNotValid
               else None
           end
       end.

(** ** The mesh hook *)

Record MeshAuthorizeRequest := {
  mq_Method : string;
  mq_URL : string;
  mq_Header : gmap string (list string);
  mq_TLS : option (list Certificate);
  mq_ClientCert : option Certificate;
  mq_ForwardedTrusted : bool;
}.

(** [mr_Challenge] is the code of the challenge header; empty is the bare challenge. *)
Record MeshAuthorizeResult := {
  mr_Allowed : bool;
  mr_Subject : string;
  mr_ClientID : string;
  mr_Scopes : list string;
  mr_ExpiresAt : Z;
  mr_Roles : list string;
  mr_DenyCode : string;
  mr_DPoPNonce : string;
  mr_Challenge : string;
}.

Definition mesh_denied (code challenge nonce : string) : MeshAuthorizeResult := {|
  mr_Allowed := false; mr_Subject := ""; mr_ClientID := ""; mr_Scopes := []; mr_ExpiresAt := 0; mr_Roles := [];
  mr_DenyCode := code; mr_DPoPNonce := nonce; mr_Challenge := challenge |}.
Definition meshDenyInvalidToken : MeshAuthorizeResult := mesh_denied ErrInvalidToken ErrInvalidToken "".

(** [url.Parse], in the standard library, gives a host and a path. *)
Definition buildMeshSyntheticRequest (Parse : string -> option (string * string)) (req : MeshAuthorizeRequest) : Request :=
  let '(host, path) := if decide (mq_URL req = "") then ("", "") else default ("", "") (Parse (mq_URL req)) in
  {| rq_Method := mq_Method req; rq_Host := host; rq_Path := path;
     rq_TLS := match mq_ClientCert req with
               | None => mq_TLS req
               | Some c => Some (c :: default [] (mq_TLS req))
               end;
     rq_Header := mq_Header req; rq_ForwardedTrusted := mq_ForwardedTrusted req |}.

(** The region a request is served in; an error or a region out of the set is none. *)
Definition stashMeshServingRegion (a : AccessDeps) (r : Request) : string :=
  match ac_regionResolver a with
  | None => ""
  | Some resolve =>
      match resolve r with
      | None => ""
      | Some id =>
          if negb (bool_decide (ac_AllowedRegions a = [])) && negb (bool_decide (id = "")) && negb (contains (ac_AllowedRegions a) id) then "" else id
      end
  end.

Section access.
Context {B X : Type}.
Notation Front := (Front B X).
Context (c : Primitives) (a : AccessDeps).
Context (issuers : list (string * TokenIssuer X)).
Notation d := (ac_front a).

Definition verify_proof : Z -> string -> string -> string -> string -> option MemoryJTIReplayStore -> result dpop_error string * option MemoryJTIReplayStore :=
  verifyDPoPProof (pr_ed25519 c) (pr_ecdsa c) (pr_pkcs1 c) (pr_pss c) (pr_header c) (pr_proof_header c) (pr_jwk c) (pr_proof_payload c) (fd_dpop d).

Definition verifyDPoPBearer (now : Z) (r : Request) (claims : TokenClaims) : M Front (option bearer_error) := fun w =>
  if decide (tc_ConfirmationJKT claims = "") then (None, w)
  else
    let proof := header r "Dpop" in
    if decide (proof = "") then (Some DPoPProofMissing, w)
    else
      let '(binding, replay) := verify_proof now proof (rq_Method r) (requestURLForDPoP r) (dpopSchemeToken r) (fr_replay w) in
      (match binding with
       | Err e => Some (DPoPProofRefused e)
       | Ok jkt => if decide (jkt = tc_ConfirmationJKT claims) then None else Some DPoPKeyMismatch
       end, set_replay replay w).

(** The nonce stamped on a challenge; [random] is what is drawn for it. *)
Definition stampDPoPNonce (now : Z) (random : list Z) : string :=
  match dd_nonceProvider (fd_dpop d) with None => "" | Some p => IssueNonce p random now end.

Definition meshHandleDPoPDeny (now : Z) (random : list Z) (e : bearer_error) : MeshAuthorizeResult :=
  match e with
  | DPoPProofRefused ErrDPoPNonceRequired => mesh_denied ErrInvalidToken ErrUseDPoPNonce (stampDPoPNonce now random)
  | _ => meshDenyInvalidToken
  end.

(** Whether the session of the token is over. *)
Definition meshCheckSession (now : Z) (claims : TokenClaims) (w : Front) : bool :=
  if decide (tc_SID claims = "") then false
  else match fr_sessions w with
       | None => false
       | Some m => match Sessions.Get now (tc_SID claims) m with Err _ => true | Ok sess => Session_IsExpired now sess end
       end.

Definition deriveMeshIdentity (claims : TokenClaims) (w : Front) : MeshAuthorizeResult := {|
  mr_Allowed := true;
  mr_Subject := tc_Subject claims;
  mr_ClientID := tc_ClientID claims;
  mr_Scopes := tc_Scopes claims;
  mr_ExpiresAt := if GoTime.IsZero (tc_ExpiresAt claims) then 0 else unix (tc_ExpiresAt claims);
  mr_Roles :=
    match ac_roles a with
    | None => []
    | Some roles =>
        if decide (tc_Subject claims = "") then []
        else
          let local := resolveLocalSubject (tc_Subject claims) w in
          let lookupSub := if decide (local = "") then tc_Subject claims else local in
          default [] (roles lookupSub (tc_ClientID claims) (tc_SID claims))
    end;
  mr_DenyCode := ""; mr_DPoPNonce := ""; mr_Challenge := "" |}.

(** The token and its sender constraints, as every resource endpoint checks them. *)
Inductive access_error := NoToken | BadToken | BadProof (e : bearer_error) | BadCertificate (e : mtls_error).

Definition present (now : Z) (r : Request) (tokenString : string) : M Front (result access_error TokenClaims) := fun w =>
  if decide (tokenString = "") then (Err NoToken, w)
  else
    let '(v, w) := validateAnyToken c d issuers now tokenString w in
    match v with
    | Err _ => (Err BadToken, w)
    | Ok (claims, _) =>
        if negb (IsAccessTokenClaims (Some claims)) then (Err BadToken, w)
        else match verifyDPoPBearer now r claims w with
             | (Some e, w) => (Err (BadProof e), w)
             | (None, w) =>
                 (match verifyMTLSBearer a now r claims with Some e => Err (BadCertificate e) | None => Ok claims end, w)
             end
    end.

Definition MeshAuthorize (Parse : string -> option (string * string)) (random : list Z) (now : Z) (req : MeshAuthorizeRequest) : M Front MeshAuthorizeResult := fun w =>
  let hr := buildMeshSyntheticRequest Parse req in
  let region := stashMeshServingRegion a hr in
  match present now hr (BearerToken hr) w with
  | (Err NoToken, w) => (mesh_denied "" "" "", w)
  | (Err (BadProof e), w) => (meshHandleDPoPDeny now random e, w)
  | (Err _, w) => (meshDenyInvalidToken, w)
  | (Ok claims, w) =>
      match residencyDeniedForAccess (fd_tenantResidency d) now region claims w with
      | (Some _, w) => (meshDenyInvalidToken, w)
      | (None, w) => if meshCheckSession now claims w then (meshDenyInvalidToken, w) else (deriveMeshIdentity claims w, w)
      end
  end.

(** [authenticateUserInfoBearer]: the claims, or the code of the 401 and the nonce it
    carries. *)
Definition authenticateUserInfoBearer (random : list Z) (now : Z) (r : Request) : M Front (result (string * string) TokenClaims) := fun w =>
  let '(v, w) := present now r (ResourceToken r) w in
  (match v with
   | Ok claims => Ok claims
   | Err NoToken => Err (ErrMissingToken, "")
   | Err (BadProof (DPoPProofRefused ErrDPoPNonceRequired)) => Err (ErrUseDPoPNonce, stampDPoPNonce now random)
   | Err _ => Err (ErrInvalidToken, "")
   end, w).

(** [writeMeshAuthzResponse]: the status and the headers. *)
Definition writeMeshAuthzResponse (FormatInt : Z -> string) (res : MeshAuthorizeResult) : Z * list (string * string) :=
  if negb (mr_Allowed res) then (401, [])
  else (200, [("X-Auth-Subject", mr_Subject res)]
         ++ (if decide (mr_ClientID res = "") then [] else [("X-Auth-Client-Id", mr_ClientID res)])
         ++ (if decide (mr_Scopes res = []) then [] else [("X-Auth-Scopes", Str.join (mr_Scopes res))])
         ++ (if decide (mr_ExpiresAt res = 0) then [] else [("X-Auth-Expires", FormatInt (mr_ExpiresAt res))])
         ++ (if decide (mr_Roles res = []) then [] else [("X-Auth-Roles", String.concat "," (mr_Roles res))])).
End access.

(** ** The token a request presents *)

Lemma TrimPrefix_app p t : TrimPrefix (p +:+ t) p = t.
Proof.
  unfold TrimPrefix. assert (HasPrefix (p +:+ t) p = true) as -> by (apply HasPrefix_spec; by exists t).
  by rewrite Str.to_list_app, drop_app_length, Str.of_to_list.
Qed.

Lemma BearerToken_header r : BearerToken r <> "" -> header r "Authorization" = BearerPrefix +:+ BearerToken r.
Proof.
  unfold BearerToken. destruct (HasPrefix _ _) eqn:H; [|done]. cbn [negb]. apply HasPrefix_spec in H as [t ->]. by rewrite TrimPrefix_app.
Qed.

Lemma scheme_token_hit scheme t schemes : t <> "" -> scheme_token (scheme +:+ t) (scheme :: schemes) = t.
Proof.
  intros Ht. cbn [scheme_token]. rewrite Str.to_list_app, length_app, take_app_length, drop_app_length, !Str.of_to_list.
  assert (0 < length (Str.to_list t))%nat as Hl by (destruct t; [done|cbn; lia]).
  rewrite (proj2 (Nat.ltb_lt _ _)) by lia. unfold equalFold. by rewrite bool_decide_eq_true_2.
Qed.

(** The proof is bound to the token that was validated, whichever scheme carried it. *)
Lemma scheme_token_agrees r : ResourceToken r <> "" -> dpopSchemeToken r = ResourceToken r.
Proof.
  unfold ResourceToken, dpopSchemeToken. destruct (decide (BearerToken r <> "")) as [Hb|Hb]; intros Hne.
  - rewrite (BearerToken_header r Hb). rewrite <- (scheme_token_hit BearerPrefix (BearerToken r) [] Hb) at 2.
    cbn [scheme_token]. rewrite Str.to_list_app. match goal with |- (if ?b && ?e then _ else _) = _ => assert (e = false) as -> by reflexivity end.
    by rewrite andb_false_r.
  - destruct (HasPrefix _ DPoPPrefix) eqn:H; [|done]. cbn [negb] in *. apply HasPrefix_spec in H as [t Ht]. rewrite Ht, TrimPrefix_app in *. by apply scheme_token_hit.
Qed.
Lemma ResourceToken_bearer r : BearerToken r <> "" -> ResourceToken r = BearerToken r.
Proof. intros H. unfold ResourceToken. by destruct (decide _). Qed.

(** ** What access shows *)

Section sound.
Context {B X : Type}.
Notation Front := (Front B X).
Context (c : Primitives) (a : AccessDeps).
Context (issuers : list (string * TokenIssuer X)).
Notation d := (ac_front a).
Notation dd := (fd_dpop d).
Notation signed_with := (signed_with (pr_ed25519 c) (pr_ecdsa c) (pr_pkcs1 c) (pr_pss c) (pr_proof_header c) (pr_jwk c)).
Notation payload_of := (payload_of (pr_proof_payload c)).

(** A token bound to a key comes with a fresh proof of that key made for this request
    and this token. *)
Definition key_proved (now : Z) (r : Request) (token : string) (claims : TokenClaims) (replay : option MemoryJTIReplayStore) : Prop :=
  tc_ConfirmationJKT claims <> "" ->
  exists k p, signed_with (header r "Dpop") k /\ jwkThumbprintRFC7638 k = Some (tc_ConfirmationJKT claims) /\
    payload_of (header r "Dpop") = Some p /\ fits dd now (rq_Method r) (requestURLForDPoP r) p /\
    dp_Ath p = Str.of_list (Base64.RawURLEncode (SHA256.Sum256 (string_bytes token))) /\
    (forall s, replay = Some s -> forall e, jti_entries s !! ("dpop:" +:+ dp_JTI p) = Some e -> e <= now).

(** A token bound to a certificate comes over a connection that carries it, currently
    valid; a server without an extractor does not look. *)
Definition certificate_shown (now : Z) (r : Request) (claims : TokenClaims) : Prop :=
  tc_ConfirmationX5TS256 claims <> "" -> forall extract, ac_certExtractor a = Some extract ->
  exists cert, extract r = Some cert /\ certificateThumbprintS256 cert = tc_ConfirmationX5TS256 claims /\ ce_NotBefore cert <= now <= ce_NotAfter cert.

(** The state does not forbid the client's tenant to be read in [region]. *)
Definition region_ok (now : Z) (region : string) (claims : TokenClaims) (w : Front) : Prop :=
  fd_tenantResidency d = true -> region <> "" -> tc_ClientID claims <> "" ->
  forall cl, fr_clients w !! tc_ClientID claims = Some cl -> cl_TenantID cl <> "" ->
  forall policy, (resolveResidencyPolicy now (cl_TenantID cl) w).1 = Some policy ->
  rp_HomeRegion policy = "" \/ region = rp_HomeRegion policy \/ rp_AllowedRegions policy = [] \/ region ∈ rp_AllowedRegions policy.

Definition session_ok (now : Z) (claims : TokenClaims) (w : Front) : Prop :=
  tc_SID claims <> "" -> forall m, fr_sessions w = Some m ->
  exists sess, ms_sessions m !! tc_SID claims = Some sess /\ se_Revoked sess = false /\ Session_IsExpired now sess = false.

(** Everything that was checked of the token a request presents. *)
Record admitted (now : Z) (r : Request) (token : string) (claims : TokenClaims) (w : Front) : Prop := {
  ad_issued : exists name, issued issuers now token claims name;
  ad_use : IsAccessTokenClaims (Some claims) = true;
  ad_eligible : eligible d now claims w;
  ad_key : key_proved now r token claims (fr_replay w);
  ad_certificate : certificate_shown now r claims;
}.

Lemma verifyDPoPBearer_None now r claims (w : Front) w' : verifyDPoPBearer c a now r claims w = (None, w') ->
  dpopSchemeToken r <> "" -> key_proved now r (dpopSchemeToken r) claims (fr_replay w).
Proof.
  unfold verifyDPoPBearer, key_proved. intros H Ht Hj. destruct (decide (tc_ConfirmationJKT claims = "")) as [|_]; [done|].
  destruct (decide (header r "Dpop" = "")) as [|_]; [done|]. unfold verify_proof in H. cbv zeta in H.
  match type of H with context [verifyDPoPProof ?a1 ?a2 ?a3 ?a4 ?a5 ?a6 ?a7 ?a8 ?a9 ?b1 ?b2 ?b3 ?b4 ?b5 ?b6] => destruct (verifyDPoPProof a1 a2 a3 a4 a5 a6 a7 a8 a9 b1 b2 b3 b4 b5 b6) as [[jkt|e] s] eqn:Hv end; [|done].
  destruct (decide (jkt = tc_ConfirmationJKT claims)) as [->|]; [|done].
  pose proof (accepted_proof _ _ _ _ _ _ _ _ _ _ _ _ _ _ _ _ _ Hv) as (k & p & H1 & H2 & H3 & H4 & H5 & H6). exists k, p. by split_and!; auto.
Qed.

Lemma verifyMTLSBearer_None now r claims : verifyMTLSBearer a now r claims = None -> certificate_shown now r claims.
Proof.
  unfold verifyMTLSBearer, certificate_shown. intros H Hx ex Hex. destruct (decide _); [done|]. rewrite Hex in H. destruct (ex r) as [cert|]; [|done].
  destruct (bool_decide (certificateThumbprintS256 cert = _)) eqn:Ht; [|done]. cbn [negb] in H. destruct (certCurrentlyValid cert now) eqn:Hv; [|done].
  apply bool_decide_eq_true in Ht. exists cert. split_and!; [done..| |]; unfold certCurrentlyValid, GoTime.Before, GoTime.After in Hv; lia.
Qed.

Lemma verifyDPoPBearer_frame now r claims (w : Front) : exists s, (verifyDPoPBearer c a now r claims w).2 = set_replay s w.
Proof.
  assert (exists s, w = set_replay s w) by (exists (fr_replay w); by destruct w).
  unfold verifyDPoPBearer. destruct (decide _); [done|]. cbv zeta. destruct (decide _); [done|]. destruct (verify_proof _ _ _ _ _ _ _ _) as [b s]. by exists s.
Qed.

Lemma present_Ok now r (w : Front) claims w' : present c a issuers now r (ResourceToken r) w = (Ok claims, w') -> admitted now r (ResourceToken r) claims w.
Proof.
  unfold present. destruct (decide (ResourceToken r = "")) as [|Ht]; [done|]. pose proof (validateAnyToken_frame c d issuers now (ResourceToken r) w) as (x & s & Hf).
  destruct (validateAnyToken _ _ _ _ _ _) as [[[cl name]|e] w1] eqn:Hv; [|done]. cbn in Hf. apply validateAnyToken_Ok in Hv as (_ & Hi & He).
  destruct (IsAccessTokenClaims (Some cl)) eqn:Hu; [|done]. cbn [negb]. destruct (verifyDPoPBearer c a now r cl w1) as [[e|] w2] eqn:Hd; [done|].
  destruct (verifyMTLSBearer a now r cl) eqn:Hm; [done|]. intros [= -> _]. split; [by exists name|done|done| |by apply verifyMTLSBearer_None].
  apply verifyDPoPBearer_None in Hd; rewrite scheme_token_agrees in *; [|done..]. by subst w1.
Qed.

Lemma present_frame now r token (w : Front) : exists x s rp, (present c a issuers now r token w).2 = set_replay rp (validated x s w).
Proof.
  unfold present. destruct (decide _); [exists (fr_issuers w), (fr_suspension w), (fr_replay w); by destruct w|].
  pose proof (validateAnyToken_frame c d issuers now token w) as (x & s & Hf). destruct (validateAnyToken _ _ _ _ _ _) as [v w1]. cbn in Hf. subst w1.
  assert (exists x' s' rp, validated x s w = set_replay rp (validated x' s' w)) by (exists x, s, (fr_replay w); by destruct w).
  destruct v as [[cl name]|]; [|done]. destruct (negb _); [done|]. destruct (verifyDPoPBearer_frame now r cl (validated x s w)) as [rp Hr].
  destruct (verifyDPoPBearer c a now r cl _) as [e w2]. cbn in Hr. subst w2. exists x, s, rp. by destruct e.
Qed.

Lemma evaluateResidency_None p region write : evaluateResidency p region write = None ->
  rp_HomeRegion p = "" \/ region = rp_HomeRegion p \/ rp_AllowedRegions p = [] \/ region ∈ rp_AllowedRegions p.
Proof.
  unfold evaluateResidency. destruct (decide _); [by left|]. destruct (decide _); [by right; left|].
  destruct (bool_decide (rp_AllowedRegions p = [])) eqn:Hn; [right; right; left; by apply bool_decide_eq_true in Hn|].
  destruct (contains _ _) eqn:Hc; [|done]. intros _. right. right. right. by apply contains_spec.
Qed.

Lemma residency_None now region claims (w : Front) : (residencyDeniedForAccess (fd_tenantResidency d) now region claims w).1 = None -> region_ok now region claims w.
Proof.
  unfold residencyDeniedForAccess, region_ok. intros H He Hr Hid cl Hcl Ht p Hp. rewrite He, (bool_decide_eq_false_2 _ Hr), (bool_decide_eq_false_2 _ Hid), Hcl in H. cbn [negb orb] in H.
  destruct (decide _); [done|]. unfold checkTenantResidency in H. rewrite (bool_decide_eq_false_2 _ Hr), bool_decide_eq_false_2 in H by done. cbn [negb orb] in H.
  destruct (resolveResidencyPolicy now (cl_TenantID cl) w) as [o w']. cbn in Hp. subst o. by apply (evaluateResidency_None p region false).
Qed.

Lemma meshCheckSession_false now claims (w : Front) : meshCheckSession now claims w = false -> session_ok now claims w.
Proof.
  unfold meshCheckSession, session_ok. intros H Hs m Hm. destruct (decide _); [done|]. rewrite Hm in H. unfold Sessions.Get in H.
  destruct (ms_sessions m !! tc_SID claims) as [sess|]; [|done]. destruct (dead now sess) eqn:Hd; [done|]. exists sess. unfold dead in Hd.
  apply orb_false_iff in Hd as []. done.
Qed.

Lemma present_bearer now r (w : Front) : BearerToken r <> "" -> present c a issuers now r (BearerToken r) w = present c a issuers now r (ResourceToken r) w.
Proof. intros H. by rewrite (ResourceToken_bearer r H). Qed.
Lemma present_nothing now r (w : Front) : present c a issuers now r "" w = (Err NoToken, w).
Proof. done. Qed.

(** Region and session do not depend on what presenting the token moved. *)
Lemma region_ok_frame now region claims (w : Front) x s rp : region_ok now region claims (set_replay rp (validated x s w)) <-> region_ok now region claims w.
Proof.
  assert (forall t, (resolveResidencyPolicy now t (set_replay rp (validated x s w))).1 = (resolveResidencyPolicy now t w).1) as Hr.
  { intros t. unfold resolveResidencyPolicy. cbn [fr_residency fr_policies fr_tenants set_replay validated set_suspension set_issuers].
    destruct (fr_residency w ≫= cache_get now t); [done|]. destruct (fr_policies w ≫= _); [done|]. by destruct (fr_tenants w ≫= _). }
  unfold region_ok. cbn [fr_clients set_replay validated set_suspension set_issuers]. by setoid_rewrite Hr.
Qed.

Definition decide_mesh (now : Z) (region : string) (claims : TokenClaims) : M Front MeshAuthorizeResult := fun w =>
  match residencyDeniedForAccess (fd_tenantResidency d) now region claims w with
  | (Some _, w) => (meshDenyInvalidToken, w)
  | (None, w) => if meshCheckSession now claims w then (meshDenyInvalidToken, w) else (deriveMeshIdentity a claims w, w)
  end.

Lemma residency_frame now region claims (w : Front) : exists s, (residencyDeniedForAccess (fd_tenantResidency d) now region claims w).2 = set_residency s w.
Proof.
  assert (exists s, w = set_residency s w) by (exists (fr_residency w); by destruct w).
  unfold residencyDeniedForAccess. destruct (_ || _ || _); [done|]. destruct (_ !! _) as [cl|]; [|done]. destruct (decide _); [done|].
  unfold checkTenantResidency. destruct (_ || _ || _); [done|]. unfold resolveResidencyPolicy. destruct (fr_residency w ≫= _); [done|].
  destruct (fr_policies w ≫= _); [by eexists|]. destruct (fr_tenants w ≫= _); [by eexists|done].
Qed.

Lemma decide_mesh_allowed now region claims (w : Front) res w' : decide_mesh now region claims w = (res, w') -> mr_Allowed res = true ->
  region_ok now region claims w /\ session_ok now claims w /\ res = deriveMeshIdentity a claims w.
Proof.
  unfold decide_mesh. intros H Ha. pose proof (residency_None now region claims w) as Hr. pose proof (residency_frame now region claims w) as [s Hs].
  destruct (residencyDeniedForAccess _ _ _ _ _) as [[e|] w1]; [by injection H as <- _|]. cbn in Hs. subst w1.
  destruct (meshCheckSession now claims (set_residency s w)) eqn:Hm; [by injection H as <- _|]. injection H as <- _. split_and!; [by apply Hr| |done].
  by apply meshCheckSession_false.
Qed.

(** C6 — The mesh hook lets a request through only with a bearer token that one of the
    issuers accepting its format judged valid at that instant and that is no identity
    token; whose client's tenant is not known to be suspended and whose subject and
    every actor may authenticate; that, when bound to a key, comes with a fresh proof of
    that key for this method, address and token, and, when bound to a certificate, over
    a connection with that certificate; whose tenant may be served in the region; and
    whose session is alive.  The identity it hands on is that of the token. *)
Theorem resource_access_sound Parse random now req (w w' : Front) res :
  MeshAuthorize c a issuers Parse random now req w = (res, w') -> mr_Allowed res = true ->
  let r := buildMeshSyntheticRequest Parse req in
  exists claims, admitted now r (BearerToken r) claims w /\ region_ok now (stashMeshServingRegion a r) claims w /\ session_ok now claims w /\
    mr_Subject res = tc_Subject claims /\ mr_ClientID res = tc_ClientID claims /\ mr_Scopes res = tc_Scopes claims /\
    forall role, role ∈ mr_Roles res -> exists roles sub granted, ac_roles a = Some roles /\
      (sub = tc_Subject claims \/ sub = resolveLocalSubject (tc_Subject claims) w) /\
      roles sub (tc_ClientID claims) (tc_SID claims) = Some granted /\ role ∈ granted.
Proof.
  intros H Ha r. unfold MeshAuthorize in H. cbv zeta in H. fold r in H. set (region := stashMeshServingRegion a r) in *.
  destruct (decide (BearerToken r = "")) as [Hb|Hb]; [rewrite Hb, present_nothing in H; by injection H as <- _|].
  destruct (present_frame now r (BearerToken r) w) as (x & s & rp & Hf). destruct (present c a issuers now r (BearerToken r) w) as [[claims|e] w1] eqn:Hp.
  2: { destruct e as [| |[| [] |]|]; by injection H as <- _. }
  cbn in Hf. subst w1. rewrite (present_bearer _ _ _ Hb) in Hp. apply present_Ok in Hp. rewrite (ResourceToken_bearer r Hb) in Hp.
  apply (decide_mesh_allowed now region claims) in H as (Hr & Hs & ->); [|done]. exists claims. apply region_ok_frame in Hr.
  split_and!; [done|done|exact Hs|done..|]. intros role. cbn [mr_Roles deriveMeshIdentity]. destruct (ac_roles a) as [roles|]; [|by rewrite elem_of_nil].
  destruct (decide _); [by rewrite elem_of_nil|]. intros Hin.
  change (resolveLocalSubject (tc_Subject claims) (set_replay rp (validated x s w))) with (resolveLocalSubject (tc_Subject claims) w) in Hin.
  set (sub := if decide (resolveLocalSubject _ _ = "") then _ else _) in Hin.
  destruct (roles sub (tc_ClientID claims) (tc_SID claims)) as [granted|] eqn:Hg; [|by rewrite elem_of_nil in Hin]. exists roles, sub, granted.
  split_and!; [done| |done|done]. unfold sub. destruct (decide _); auto.
Qed.


(** Under the DPoP scheme the hook sees no token, where [/userinfo] does. *)
Lemma mesh_refuses_dpop_scheme Parse random now req (w : Front) t :
  let r := buildMeshSyntheticRequest Parse req in header r "Authorization" = DPoPPrefix +:+ t ->
  MeshAuthorize c a issuers Parse random now req w = (mesh_denied "" "" "", w) /\ ResourceToken r = t.
Proof.
  intros r Hh. assert (BearerToken r = "") as Hb.
  { unfold BearerToken. rewrite Hh. assert (HasPrefix (DPoPPrefix +:+ t) BearerPrefix = false) as ->; [|done].
    apply not_true_iff_false. rewrite HasPrefix_spec. intros [u Hu]. discriminate Hu. }
  split.
  - unfold MeshAuthorize. cbv zeta. fold r. by rewrite Hb.
  - unfold ResourceToken. rewrite Hb, Hh. cbn [decide]. destruct (decide _) as [[]|_]; [done|].
    assert (HasPrefix (DPoPPrefix +:+ t) DPoPPrefix = true) as -> by (apply HasPrefix_spec; by exists t). apply TrimPrefix_app.
Qed.
End sound.

(** ** A request *)

Definition toy_token : TokenClaims := {|
  tc_TokenUse := "access_token"; tc_Subject := "alice"; tc_Issuer := "https://op"; tc_Audience := ["web"]; tc_Scopes := ["openid"; "email"];
  tc_Resources := []; tc_ExpiresAt := Unix 2000; tc_NotBefore := Unix 1000; tc_IssuedAt := Unix 1000; tc_Extra := ∅; tc_ClientID := "web";
  tc_JTI := "t1"; tc_AuthTime := Unix 900; tc_ACR := ""; tc_AMR := []; tc_SID := "s1"; tc_ServingRegion := ""; tc_TenantID := "acme";
  tc_ConfirmationJKT := toy_thumbprint; tc_ConfirmationX5TS256 := ""; tc_AuthorizationDetails := ""; tc_Actor := ActorNil; tc_MayAct := ActorNil;
  tc_RequestedClaims := "" |}.
Definition toy_issuer : TokenIssuer () := {|
  ti_Accepts := None;
  ti_Validate := fun _ t x => (if decide (t = "tok") then Ok toy_token else Err {| ie_rejected := true; ie_msg := "unknown token" |}, x);
  ti_Revoke := fun _ _ x => (None, x) |}.
Definition toy_payload (b : list Z) : option dpopProofPayload :=
  if decide (b = [2]) then Some {| dp_JTI := "p1"; dp_HTM := "GET"; dp_HTU := "https://op/api"; dp_IAT := 1000; dp_Nonce := "";
    dp_Ath := Str.of_list (Base64.RawURLEncode (SHA256.Sum256 (string_bytes "tok"))) |} else None.
Definition toy_primitives : Primitives := {|
  pr_ed25519 := toy_ed; pr_ecdsa := fun _ _ _ _ _ => false; pr_pkcs1 := fun _ _ _ _ => false; pr_pss := fun _ _ _ _ => false;
  pr_header := proof_header; pr_proof_header := proof_typ; pr_jwk := fun _ => Some proof_key; pr_proof_payload := toy_payload; pr_json_member := fun _ _ => None |}.
Definition toy_access : AccessDeps := {|
  ac_front := {| fd_maxTokenBytes := 0; fd_supportedSigningAlgs := []; fd_tenantSuspension := true; fd_tenantResidency := true; fd_dpop := toy_dpop |};
  ac_certExtractor := None; ac_regionResolver := Some (fun _ => Some "eu"); ac_AllowedRegions := [];
  ac_roles := Some (fun _ _ _ => Some ["viewer"]) |}.
Definition toy_front : Front () () := {|
  fr_issuers := (); fr_clients := {[ "web" := plain_client "web" [] [] ]}; fr_tenants := None; fr_suspension := None; fr_residency := None; fr_policies := None;
  fr_lifecycle := Some ∅; fr_pairwise := None;
  fr_sessions := Some (CreateWithMeta "s1" (Unix 990) "alice" (tenant_meta "acme" "web" []) (NewMemorySessionManager None)).2;
  fr_refresh := None; fr_cache := None; fr_replay := Some toy_replay |}.
Definition toy_parse (u : string) : option (string * string) := Some ("op", "/api").
Definition toy_mesh (scheme : string) : MeshAuthorizeRequest := {|
  mq_Method := "GET"; mq_URL := "https://op/api"; mq_Header := {[ "Authorization" := [scheme +:+ "tok"]; "Dpop" := [toy_proof] ]};
  mq_TLS := Some []; mq_ClientCert := None; mq_ForwardedTrusted := false |}.
Notation toy_authorize scheme := (MeshAuthorize toy_primitives toy_access [("jwt", toy_issuer)] toy_parse [] (Unix 1010) (toy_mesh scheme) toy_front).

(** The hook refuses under one scheme what [/userinfo] accepts. *)
Example dpop_scheme_on_both :
  mr_Allowed (toy_authorize "Bearer ").1 = true /\ mr_Allowed (toy_authorize "DPoP ").1 = false /\
  (authenticateUserInfoBearer toy_primitives toy_access [("jwt", toy_issuer)] [] (Unix 1010) (buildMeshSyntheticRequest toy_parse (toy_mesh "DPoP ")) toy_front).1 = Ok toy_token.
Proof. vm_compute. done. Qed.

Lemma resource_access_sound_witness : exists claims, tc_Subject claims = "alice" /\
  admitted toy_primitives toy_access [("jwt", toy_issuer)] (Unix 1010) (buildMeshSyntheticRequest toy_parse (toy_mesh "Bearer ")) "tok" claims toy_front.
Proof.
  destruct (toy_authorize "Bearer ") as [res w'] eqn:H. assert (mr_Allowed res = true /\ mr_Subject res = "alice") as [Ha Hs].
  { apply (f_equal fst) in H. cbn [fst] in H. subst res. vm_compute. done. }
  destruct (resource_access_sound _ _ _ _ _ _ _ _ _ _ H Ha) as (claims & Hadm & _ & _ & Hsub & _). exists claims. split; [congruence|].
  assert (BearerToken (buildMeshSyntheticRequest toy_parse (toy_mesh "Bearer ")) = "tok") as Ht by (vm_compute; reflexivity). by rewrite Ht in Hadm.
Defined.

