(* ===== verification/UserInfo.v ===== *)
(** * UserInfo: what [/userinfo] discloses
    ([protocols/oidc/handle_userinfo.go], [protocols/oidc/oidcsupport/userinfo.go],
    [shared/core/claims_param.go]).

    The response is a map; a signed response carries the same members.  The claims
    parameter is read from the tree [json.Unmarshal] makes of it, an argument. *)
From S2P Require Import Prelude Crypto Core Lifecycle Resources MetadataPolicy Users JwtIssuer ClientAuth Dpop TokenFront ResourceAccess.
Local Open Scope Z_scope.

(** ** The claims parameter *)

Record ClaimRequest := { cq_Essential : bool; cq_Value : option json; cq_Values : list json }.

(** [obj[name]]; of a repeated member the last counts. *)
Definition json_member (name : string) (members : list (string * json)) : option json :=
  snd <$> List.find (fun kv => bool_decide (kv.1 = name)) (rev members).

(** [parseClaimEntry] on an entry that is not null. *)
Definition parseClaimEntry (spec : json) : option ClaimRequest :=
  match spec with
  | JObj obj =>
      essential ← match json_member "essential" obj with
                  | None | Some JNull => Some false
                  | Some (JBool b) => Some b
                  | Some _ => None
                  end;
      values ← match json_member "values" obj with
               | None | Some JNull => Some []
               | Some (JArr l) => Some l
               | Some _ => None
               end;
      Some {| cq_Essential := essential; cq_Value := json_member "value" obj; cq_Values := values |}
  | _ => None
  end.

Definition claim_entry (kv : string * json) : option (string * option ClaimRequest) :=
  match kv.2 with JNull => Some (kv.1, None) | spec => cr ← parseClaimEntry spec; Some (kv.1, Some cr) end.

(** [parseClaimsSection]: an absent section, a null one and an empty one are one.  Every
    entry must parse; of a repeated name the last entry counts. *)
Definition parseClaimsSection (raw : option json) : option (gmap string (option ClaimRequest)) :=
  match raw with
  | None | Some JNull => Some ∅
  | Some (JObj inner) => list_to_map <$> mapM claim_entry (map_to_list (list_to_map (rev inner) : gmap string json))
  | Some _ => None
  end.

Definition ParseRequestedClaims (Unmarshal : string -> option json) (raw : string)
    : option (gmap string (option ClaimRequest) * gmap string (option ClaimRequest)) :=
  if decide (raw = "") then Some (∅, ∅)
  else match Unmarshal raw with
       | Some JNull => Some (∅, ∅)
       | Some (JObj obj) =>
           idToken ← parseClaimsSection (json_member "id_token" obj);
           userinfo ← parseClaimsSection (json_member "userinfo" obj);
           Some (idToken, userinfo)
       | _ => None
       end.

Definition decodeJSONString (v : json) : option string := match v with JStr s => if decide (s = "") then None else Some s | _ => None end.

(** A claims parameter that does not parse asks for nothing. *)
Definition RequestedACRFromClaims (Unmarshal : string -> option json) (raw : string) : list string :=
  match ParseRequestedClaims Unmarshal raw with
  | None => []
  | Some (idTok, _) =>
      match idTok !! "acr" with
      | None | Some None => []
      | Some (Some cr) => omap decodeJSONString (option_list (cq_Value cr) ++ cq_Values cr)
      end
  end.

(** ** Projection *)

Definition releasableUserInfoClaims : list string :=
  ["name"; "given_name"; "family_name"; "middle_name"; "nickname"; "preferred_username"; "profile"; "picture"; "website"; "email"; "email_verified";
   "gender"; "birthdate"; "zoneinfo"; "locale"; "phone_number"; "phone_number_verified"; "address"; "updated_at"].
Definition isReleasableUserInfoClaim (name : string) : bool := contains releasableUserInfoClaims name.

Definition SanitizeUserForUserInfo (u : User) : User := {|
  us_ID := us_ID u; us_ExternalID := us_ExternalID u; us_Provider := us_Provider u; us_Email := us_Email u; us_Username := us_Username u;
  us_Name := us_Name u; us_DisplayName := us_DisplayName u;
  us_Attributes := filter (fun kv => isReleasableUserInfoClaim kv.1 = true) (us_Attributes u);
  us_CreatedAt := us_CreatedAt u; us_UpdatedAt := us_UpdatedAt u |}.

Notation Body := (gmap string val).

(** The value of an attribute, else of the field. *)
Definition attr_or (u : User) (name field : string) : string :=
  match us_Attributes u !! name with Some v => if decide (v = "") then field else v | None => field end.
Definition put_string (k v : string) (out : Body) : Body := if decide (v = "") then out else <[k := VStr v]> out.
Definition put_attr (u : User) (out : Body) (k : string) : Body := put_string k (default "" (us_Attributes u !! k)) out.
Definition put_flag (u : User) (k : string) (out : Body) : Body :=
  match us_Attributes u !! k with None => out | Some v => <[k := VBool (bool_decide (v = "true"))]> out end.

Definition projectEmailClaims (u : User) (out : Body) : Body := put_flag u "email_verified" (put_string "email" (attr_or u "email" (us_Email u)) out).
Definition projectProfileClaims (u : User) (out : Body) : Body :=
  foldl (put_attr u) (put_string "name" (attr_or u "name" (us_Name u)) out)
    ["given_name"; "family_name"; "picture"; "preferred_username"; "nickname"; "locale"; "zoneinfo"].
Definition projectAddressClaims (u : User) (out : Body) : Body := put_attr u out "address".
Definition projectPhoneClaims (u : User) (out : Body) : Body := put_flag u "phone_number_verified" (put_attr u out "phone_number").

(** The loop over the requested names; each is visited once, so their order does not
    matter. *)
Definition put_requested (u : User) (out : Body) (name : string) : Body :=
  if bool_decide (is_Some (out !! name)) || negb (isReleasableUserInfoClaim name) then out else put_attr u out name.

Section userinfo.
Context (Unmarshal : string -> option json).

Definition projectRequestedClaims (u : User) (requestedClaims : string) (out : Body) : Body :=
  if decide (requestedClaims = "") then out
  else match ParseRequestedClaims Unmarshal requestedClaims with
       | None => out
       | Some (_, userinfoReq) => foldl (put_requested u) out (map_to_list userinfoReq).*1
       end.

Definition ProjectUserInfoForOIDC (u : User) (scopes : list string) (requestedClaims : string) : Body :=
  let granted scope (f : Body -> Body) out := if contains scopes scope then f out else out in
  let out := granted "email" (projectEmailClaims u) {[ "sub" := VStr (us_ID u) ]} in
  let out := granted "profile" (projectProfileClaims u) out in
  let out := granted "address" (projectAddressClaims u) out in
  let out := granted "phone" (projectPhoneClaims u) out in
  projectRequestedClaims u requestedClaims out.

Definition buildOIDCUserInfoBody (user : User) (claims : TokenClaims) : Body :=
  let body := ProjectUserInfoForOIDC user (tc_Scopes claims) (tc_RequestedClaims claims) in
  let body := if negb (bool_decide (tc_Subject claims = "")) && negb (bool_decide (tc_Subject claims = us_ID user)) then <["sub" := VStr (tc_Subject claims)]> body else body in
  let body := if GoTime.IsZero (tc_AuthTime claims) then body else <["auth_time" := VInt (unix (tc_AuthTime claims))]> body in
  let body := if decide (tc_ACR claims = "") then body else <["acr" := VStr (tc_ACR claims)]> body in
  if decide (tc_AMR claims = []) then body else <["amr" := VList (tc_AMR claims)]> body.

(** ** The handler *)

Inductive userinfo_answer := Refused (status : Z) (code nonce : string) | OIDCBody (b : Body) | PlainUser (u : User).

Section handler.
Context {B X : Type} (c : Primitives) (a : AccessDeps) (issuers : list (string * TokenIssuer X)).

(** [resolveUserInfoSubject] *)
Definition resolveUserInfoSubject (users : MemoryUserProvider) (claims : TokenClaims) (w : Front B X) : result userinfo_answer User :=
  match GetByID (resolveLocalSubject (tc_Subject claims) w) users with
  | Err ErrNoSuchUser => Err (Refused 404 "user_not_found" "")
  | Err _ => Err (Refused 500 ErrInternal "")
  | Ok u => Ok u
  end.

Definition HandleUserInfo (random : list Z) (now : Z) (region : string) (users : option MemoryUserProvider) (r : Request) : M (Front B X) userinfo_answer := fun w =>
  match issuers, users with
  | _ :: _, Some users =>
      match authenticateUserInfoBearer c a issuers random now r w with
      | (Err (code, nonce), w) => (Refused 401 code nonce, w)
      | (Ok claims, w) =>
          match residencyDeniedForAccess (fd_tenantResidency (ac_front a)) now region claims w with
          | (Some code, w) => (Refused 403 code "", w)
          | (None, w) =>
              (match resolveUserInfoSubject users claims w with
               | Err e => e
               | Ok user => if contains (tc_Scopes claims) "openid" then OIDCBody (buildOIDCUserInfoBody user claims) else PlainUser (SanitizeUserForUserInfo user)
               end, w)
          end
      end
  | _, _ => (Refused 500 "server_misconfigured" "", w)
  end.
End handler.
End userinfo.

(** ** What is disclosed *)

(** The members of [out] have [P]. *)
Definition keys_in (P : string -> Prop) (out : Body) : Prop := forall k, is_Some (out !! k) -> P k.

Lemma keys_in_insert P k v out : P k -> keys_in P out -> keys_in P (<[k := v]> out).
Proof. intros Hk H j [x Hj]. apply lookup_insert_Some in Hj as [[<- _]|[_ Hj]]; [done|by apply H]. Qed.
Lemma keys_in_put P k v out : P k -> keys_in P out -> keys_in P (put_string k v out).
Proof. unfold put_string. destruct (decide _); [done|]. apply keys_in_insert. Qed.
Lemma keys_in_attr P u k out : P k -> keys_in P out -> keys_in P (put_attr u out k).
Proof. apply keys_in_put. Qed.
Lemma keys_in_flag P u k out : P k -> keys_in P out -> keys_in P (put_flag u k out).
Proof. unfold put_flag. destruct (_ !! k); [apply keys_in_insert|done]. Qed.
Lemma keys_in_attrs P u ks out : Forall P ks -> keys_in P out -> keys_in P (foldl (put_attr u) out ks).
Proof. intros H. revert out. induction H as [|k ks Hk _ IH]; intros out Ho; cbn; [done|]. by apply IH, keys_in_attr. Qed.
Lemma keys_in_requested P u ks out : (forall k, k ∈ ks -> isReleasableUserInfoClaim k = true -> P k) -> keys_in P out -> keys_in P (foldl (put_requested u) out ks).
Proof.
  revert out. induction ks as [|k ks IH]; intros out H Ho; cbn; [done|]. apply IH; [set_solver|]. unfold put_requested.
  destruct (_ || _) eqn:E; [done|]. apply orb_false_iff in E as [_ E]. apply negb_false_iff in E. apply keys_in_attr; [set_solver|done].
Qed.
Create HintDb userinfo.
#[export] Hint Resolve keys_in_insert keys_in_put keys_in_attr keys_in_flag keys_in_attrs : userinfo.

(** The claims a scope stands for (OIDC Core, section 5.4). *)
Definition scope_claims : list (string * list string) :=
  [("email", ["email"; "email_verified"]);
   ("profile", ["name"; "given_name"; "family_name"; "picture"; "preferred_username"; "nickname"; "locale"; "zoneinfo"]);
   ("address", ["address"]); ("phone", ["phone_number"; "phone_number_verified"])].

(** The token entitles its bearer to the member [k]. *)
Definition entitled (Unmarshal : string -> option json) (claims : TokenClaims) (k : string) : Prop :=
  k ∈ ["sub"; "auth_time"; "acr"; "amr"] \/
  (exists scope names, (scope, names) ∈ scope_claims /\ scope ∈ tc_Scopes claims /\ k ∈ names) \/
  (exists idTok userinfo, ParseRequestedClaims Unmarshal (tc_RequestedClaims claims) = Some (idTok, userinfo) /\ is_Some (userinfo !! k) /\
     isReleasableUserInfoClaim k = true).

Ltac keys_tac := repeat match goal with H : Forall _ (_ :: _) |- _ => apply Forall_cons in H as [? H] end; eauto 10 with userinfo.
Lemma email_keys P u out : Forall P ["email"; "email_verified"] -> keys_in P out -> keys_in P (projectEmailClaims u out).
Proof. intros. unfold projectEmailClaims. keys_tac. Qed.
Lemma profile_keys P u out : Forall P ["name"; "given_name"; "family_name"; "picture"; "preferred_username"; "nickname"; "locale"; "zoneinfo"] ->
  keys_in P out -> keys_in P (projectProfileClaims u out).
Proof. intros H Ho. apply Forall_cons in H as [H1 H]. apply keys_in_attrs; [done|]. by apply keys_in_put. Qed.
Lemma address_keys P u out : Forall P ["address"] -> keys_in P out -> keys_in P (projectAddressClaims u out).
Proof. intros. unfold projectAddressClaims. keys_tac. Qed.
Lemma phone_keys P u out : Forall P ["phone_number"; "phone_number_verified"] -> keys_in P out -> keys_in P (projectPhoneClaims u out).
Proof. intros. unfold projectPhoneClaims. keys_tac. Qed.

Lemma projected_entitled U claims u : keys_in (entitled U claims) (ProjectUserInfoForOIDC U u (tc_Scopes claims) (tc_RequestedClaims claims)).
Proof.
  set (P := entitled U claims).
  assert (forall s n f out, (s, n) ∈ scope_claims -> (Forall P n -> keys_in P out -> keys_in P (f out)) ->
    keys_in P out -> keys_in P (if contains (tc_Scopes claims) s then f out else out)) as Hg.
  { intros s n f out H1 H2 H3. destruct (contains _ s) eqn:E; [|done]. apply H2; [|done]. apply Forall_forall. intros k Hk.
    right. left. exists s, n. split_and!; [done|by apply contains_spec|done]. }
  unfold ProjectUserInfoForOIDC. match goal with |- keys_in _ (projectRequestedClaims _ _ _ ?b) => assert (keys_in P b) as Hb end.
  { do 4 (eapply Hg; [|eauto using email_keys, profile_keys, address_keys, phone_keys|]; [unfold scope_claims; set_solver|]).
    intros k [v Hk]. apply lookup_singleton_Some in Hk as [<- _]. left. set_solver. }
  unfold projectRequestedClaims. destruct (decide _); [done|]. destruct (ParseRequestedClaims U _) as [[i q]|] eqn:Hq; [|done].
  apply keys_in_requested; [|done]. intros k Hk Hr. right. right. exists i, q. split_and!; [done| |done].
  apply list_elem_of_fmap in Hk as ([k' v] & -> & Hk). apply elem_of_map_to_list in Hk. cbn. eauto.
Qed.

Lemma body_entitled U claims u : keys_in (entitled U claims) (buildOIDCUserInfoBody U u claims).
Proof.
  assert (forall k, k ∈ ["sub"; "auth_time"; "acr"; "amr"] -> entitled U claims k) as Hk by (intros; by left). pose proof (projected_entitled U claims u) as Hp.
  unfold buildOIDCUserInfoBody. cbv zeta. repeat match goal with |- context [if ?b then _ else _] => destruct b end;
    repeat (apply keys_in_insert; [apply Hk; set_solver|]); exact Hp.
Qed.

(** C27 — [/userinfo] answers with a user only for a request whose token passes every
    check of the bearer ladder and whose tenant may be read in the region; the user is the
    one the token's subject stands for.  For an OpenID token each member of the answer is
    one the token entitles its bearer to: the subject and the authentication facts of
    the token, a claim of a scope it holds, or a standard claim its claims parameter
    asks for.  For another token no attribute but the standard claims is shown. *)
Theorem userinfo_disclosure {B X} U c a (issuers : list (string * TokenIssuer X)) random now region users r (w w' : Front B X) :
  (forall b, HandleUserInfo U c a issuers random now region users r w = (OIDCBody b, w') ->
    exists claims user, admitted c a issuers now r (ResourceToken r) claims w /\ region_ok a now region claims w /\ "openid" ∈ tc_Scopes claims /\
      (exists m, users = Some m /\ GetByID (resolveLocalSubject (tc_Subject claims) w) m = Ok user) /\
      forall k, is_Some (b !! k) -> entitled U claims k) /\
  (forall u, HandleUserInfo U c a issuers random now region users r w = (PlainUser u, w') ->
    exists claims user, admitted c a issuers now r (ResourceToken r) claims w /\ region_ok a now region claims w /\
      (exists m, users = Some m /\ GetByID (resolveLocalSubject (tc_Subject claims) w) m = Ok user) /\
      us_ID u = us_ID user /\ forall k v, us_Attributes u !! k = Some v -> us_Attributes user !! k = Some v /\ k ∈ releasableUserInfoClaims).
Proof.
  assert (forall ans, HandleUserInfo U c a issuers random now region users r w = (ans, w') -> (forall s cd n, ans <> Refused s cd n) ->
    exists claims user, admitted c a issuers now r (ResourceToken r) claims w /\ region_ok a now region claims w /\
      (exists m, users = Some m /\ GetByID (resolveLocalSubject (tc_Subject claims) w) m = Ok user) /\
      ans = if contains (tc_Scopes claims) "openid" then OIDCBody (buildOIDCUserInfoBody U user claims) else PlainUser (SanitizeUserForUserInfo user)) as Hmain.
  { intros ans H Hne. unfold HandleUserInfo in H. destruct issuers as [|i0 is'] eqn:Hi; [injection H as <- _; by edestruct Hne|]. rewrite <- Hi in *.
    destruct users as [m|]; [|injection H as <- _; by edestruct Hne]. unfold authenticateUserInfoBearer in H.
    destruct (present_frame c a issuers now r (ResourceToken r) w) as (x & s & rp & Hf).
    destruct (present c a issuers now r (ResourceToken r) w) as [[claims|e] w1] eqn:Hp.
    2: { destruct e as [| |[| [] |]|]; injection H as <- _; by edestruct Hne. }
    cbn in Hf. subst w1. apply present_Ok in Hp. pose proof (residency_None a now region claims (set_replay rp (validated x s w))) as Hr.
    pose proof (residency_frame a now region claims (set_replay rp (validated x s w))) as [rs Hs].
    destruct (residencyDeniedForAccess _ _ _ _ _) as [[e|] w2]; [injection H as <- _; by edestruct Hne|]. cbn in Hs. subst w2. injection H as <- _.
    unfold resolveUserInfoSubject in *.
    change (resolveLocalSubject (tc_Subject claims) (set_residency rs (set_replay rp (validated x s w)))) with (resolveLocalSubject (tc_Subject claims) w) in *.
    destruct (GetByID _ m) as [user|e] eqn:Hu; [|destruct e; by edestruct Hne]. exists claims, user. split_and!; [done| |by exists m|done].
    apply region_ok_frame in Hr; [done|done]. }
  split.
  - intros b H. apply Hmain in H as (claims & user & Ha & Hr & Hm & Hans); [|done]. exists claims, user. destruct (contains _ "openid") eqn:Ho; [|done].
    injection Hans as ->. split_and!; try done; [by apply contains_spec|]. apply body_entitled.
  - intros u H. apply Hmain in H as (claims & user & Ha & Hr & Hm & Hans); [|done]. exists claims, user. destruct (contains _ "openid") eqn:Ho; [done|].
    injection Hans as ->. split_and!; try done. intros k v Hk. apply map_lookup_filter_Some in Hk as [Hk Hrel]. split; [done|]. by apply contains_spec.
Qed.

(** ** A user *)

Definition toy_user : User := {|
  us_ID := "alice"; us_ExternalID := ""; us_Provider := "local"; us_Email := "alice@example.org"; us_Username := "alice"; us_Name := "Alice"; us_DisplayName := "";
  us_Attributes := {[ "password_hash" := "x"; "email_verified" := "true"; "gender" := "f" ]}; us_CreatedAt := 0; us_UpdatedAt := 0 |}.
Definition toy_users : MemoryUserProvider := {| mp_users := {[ "alice" := toy_user ]}; mp_byUsername := ∅; mp_byEmail := ∅ |}.
Notation toy_userinfo := (HandleUserInfo (fun _ => None) toy_primitives toy_access [("jwt", toy_issuer)] [] (Unix 1010) "eu" (Some toy_users)
  (buildMeshSyntheticRequest toy_parse (toy_mesh "DPoP ")) toy_front).

Example userinfo_email : toy_userinfo.1 = OIDCBody
  {[ "sub" := VStr "alice"; "email" := VStr "alice@example.org"; "email_verified" := VBool true; "auth_time" := VInt 900 ]}.
Proof. vm_compute. reflexivity. Qed.

(** What the claims parameter asks for is shown, internal attributes never. *)
Example claims_requested :
  ProjectUserInfoForOIDC (fun _ => Some (JObj [("userinfo", JObj [("gender", JNull); ("password_hash", JNull); ("name", JObj [("essential", JBool true)])])])) toy_user ["openid"] "{}"
  = {[ "sub" := VStr "alice"; "gender" := VStr "f" ]}.
Proof. vm_compute. reflexivity. Qed.

Lemma userinfo_disclosure_witness : exists claims, tc_Subject claims = "alice" /\ "openid" ∈ tc_Scopes claims.
Proof.
  destruct toy_userinfo as [ans w'] eqn:H. pose proof userinfo_email as He. rewrite H in He. cbn [fst] in He. subst ans.
  destruct (proj1 (userinfo_disclosure _ _ _ _ _ _ _ _ _ _ w') _ H) as (claims & user & Ha & _ & Ho & _). exists claims. split; [|exact Ho].
  destruct Ha as [[name (ti & x & x' & Hin & _ & Hv)] _ _ _ _]. apply list_elem_of_singleton in Hin. injection Hin as -> ->.
  unfold toy_issuer in Hv. cbn in Hv. injection Hv as <- _. reflexivity.
Defined.
