(* ===== verification/Introspection.v ===== *)
(** * Introspection: what the server says of a token
    ([protocols/oauth]: [handle_introspect.go], [introspect_body.go],
    [introspect_cache.go]; [internal/handler/introspect_cache.go]).

    A resolution and the write of its result to the cache are two steps, between which
    other requests may run.  Usage metering and the signed response are left out. *)
From S2P Require Import Prelude Crypto Core Scopes Lifecycle RefreshStore CodeStores JTIReplay Jose ExchangeDeps Resources Sessions Clients TokenPolicy JwtIssuer ClientAuth Dpop TokenFront ResourceAccess.
Local Open Scope Z_scope.

(** ** Bodies *)

(** A member of the answer; a confirmation is a map of one member. *)
Inductive ival := IV (v : val) | ICnf (member value : string).
#[export] Instance ival_eq_dec : EqDecision ival.
Proof. solve_decision. Defined.
Notation IBody := (gmap string ival).

Definition is_active (b : IBody) : bool := bool_decide (b !! "active" = Some (IV (VBool true))).
Definition inactive_body : IBody := {[ "active" := IV (VBool false) ]}.

Definition put_str (k v : string) (b : IBody) : IBody := if decide (v = "") then b else <[k := IV (VStr v)]> b.
Definition put_list (k : string) (l : list string) (b : IBody) : IBody := if decide (l = []) then b else <[k := IV (VList l)]> b.
Definition put_time (k : string) (t : Z) (b : IBody) : IBody := if GoTime.IsZero t then b else <[k := IV (VInt (unix t))]> b.
Definition put_scope (scopes : list string) (b : IBody) : IBody := if decide (scopes = []) then b else <["scope" := IV (VStr (Str.join scopes))]> b.

Definition populateIntrospectionSID (c : TokenClaims) (b : IBody) : IBody := put_str "sid" (tc_SID c) b.
Definition populateIntrospectionConfirmation (c : TokenClaims) (b : IBody) : IBody :=
  if negb (bool_decide (tc_ConfirmationX5TS256 c = "")) then <["cnf" := ICnf "x5t#S256" (tc_ConfirmationX5TS256 c)]> b
  else if negb (bool_decide (tc_ConfirmationJKT c = "")) then <["cnf" := ICnf "jkt" (tc_ConfirmationJKT c)]> b
  else b.
Definition populateIntrospectionProvenance (c : TokenClaims) (b : IBody) : IBody :=
  put_str "serving_region" (tc_ServingRegion c) (put_str "tenant_id" (tc_TenantID c) b).

(** The client of a token, else its first audience. *)
Definition introspectClientID (c : TokenClaims) : string :=
  if decide (tc_ClientID c = "") then default "" (head (tc_Audience c)) else tc_ClientID c.

Definition populateAccessIntrospectionBody (c : TokenClaims) (b : IBody) : IBody :=
  let b := put_time "exp" (tc_ExpiresAt c) b in
  let b := put_time "iat" (tc_IssuedAt c) b in
  let b := put_time "nbf" (tc_NotBefore c) b in
  let b := put_list "aud" (tc_Audience c) b in
  let b := match tc_ClientID c, tc_Audience c with
           | "", [] => b
           | "", a :: _ => <["client_id" := IV (VStr a)]> b
           | id, _ => <["client_id" := IV (VStr id)]> b
           end in
  let b := put_scope (tc_Scopes c) b in
  let b := put_str "jti" (tc_JTI c) b in
  let b := put_time "auth_time" (tc_AuthTime c) b in
  let b := put_str "acr" (tc_ACR c) b in
  let b := put_list "amr" (tc_AMR c) b in
  populateIntrospectionProvenance c (populateIntrospectionConfirmation c (populateIntrospectionSID c b)).

(** ** The endpoint *)

Record introspectRequest := { iq_Token : string; iq_TokenTypeHint : string; iq_auth : AuthRequest; iq_Tokens : list string }.

(** What the server is configured with beyond [FrontDeps]; the policies are what their
    store answers, [None] in it being a failure. *)
Record IntrospectDeps := {
  in_front : FrontDeps;
  in_auth : AuthDeps;
  in_maxBatch : Z;
  in_policies : option (option (list Policy));
}.

(** [json.Unmarshal] of the header and the claims of an assertion, and bcrypt. *)
Record AuthPrimitives := {
  ap_typ : list Z -> option string;
  ap_claims : list Z -> option assertionClaims;
  ap_compare : string -> string -> bool;
}.

(** The answer: a status with an error code, a body, or the bodies of a batch. *)
Inductive introspect_answer := IRefused (status : Z) (code : string) | IOne (b : IBody) | IBatch (bs : list IBody).

Section introspect.
Context {X : Type}.
Notation Front := (Front IBody X).
Context (c : Primitives) (ap : AuthPrimitives) (d : IntrospectDeps).
Context (issuers : list (string * TokenIssuer X)).
Notation fd := (in_front d).

(** [bodySecretPresent] and [authorizationPresent]. *)
Definition body_secret (q : AuthRequest) : bool := aq_ClientSecretPresent q || contains (aq_PostForm q) "client_secret".
Definition authorization (q : AuthRequest) : bool := negb (bool_decide (aq_Authorization q = [])).
Definition basic_used (q : AuthRequest) : bool := bool_decide (is_Some (aq_BasicAuth q)).

(** Basic credentials replace those of the body. *)
Definition bind_basic (q : AuthRequest) : AuthRequest :=
  match BasicClientCreds q with Some (id, secret) => set_client q id secret | None => q end.

Definition introspectionSecretMethodMatches (q : AuthRequest) (method : string) : bool :=
  if basic_used q && body_secret q then false
  else if contains [""; "client_secret_basic"] method then basic_used q && negb (body_secret q)
  else if decide (method = "client_secret_post") then negb (basic_used q) && negb (authorization q) && negb (bool_decide (aq_ClientSecret q = ""))
  else false.

Definition validate_secret (now : Z) (id secret : string) (m : MemoryClientStore) : bool :=
  match ValidateSecret (ap_compare ap) now id secret m with Ok _ => true | Err _ => false end.

(** [authenticateIntrospectionClient]: whether it passes. *)
Definition authenticateIntrospectionClient (now : Z) (q : AuthRequest) (w : Front) : bool :=
  if bool_decide (aq_ClientID q = "") || bool_decide (aq_ClientSecret q = "") then false
  else match fr_clients w !! aq_ClientID q with
       | None => false
       | Some client =>
           if negb (cl_Active client) || negb (ClientOK q client) || negb (introspectionSecretMethodMatches q (cl_TokenEndpointAuthMethod client)) then false
           else validate_secret now (aq_ClientID q) (aq_ClientSecret q) (fr_clients w)
       end.

Definition verify_assertion (now : Z) (assertion formClientID : string) : M Front (option string) := fun w =>
  let '(r, replay) := verifyJWTClientAssertion (pr_ed25519 c) (pr_ecdsa c) (pr_pkcs1 c) (pr_pss c) (pr_header c) (ap_typ ap) (ap_claims ap)
                        (in_auth d) (fr_clients w) now assertion formClientID (fr_replay w) in
  (match r with Ok id => Some id | Err _ => None end, set_replay replay w).

(** The client, or the refusal. *)
Definition authenticateIntrospectAssertion (now : Z) (q : AuthRequest) : M Front (result (Z * string) string) := fun w =>
  if negb (bool_decide (aq_ClientAssertionType q = ClientAssertionTypeJWTBearer)) then (Err (400, ErrInvalidRequest), w)
  else if body_secret q || authorization q then (Err (401, ErrInvalidClient), w)
  else match verify_assertion now (aq_ClientAssertion q) (aq_ClientID q) w with
       | (None, w) => (Err (401, ErrInvalidClient), w)
       | (Some id, w) =>
           (match fr_clients w !! id with
            | Some client =>
                if cl_Active client && bool_decide (cl_TokenEndpointAuthMethod client = "private_key_jwt") && ClientOK q client then Ok id
                else Err (401, ErrInvalidClient)
            | None => Err (401, ErrInvalidClient)
            end, w)
       end.

Definition has_assertion (q : AuthRequest) : bool := negb (bool_decide (aq_ClientAssertion q = "")) || negb (bool_decide (aq_ClientAssertionType q = "")).

Definition authenticateIntrospectClient (now : Z) (q : AuthRequest) : M Front (result (Z * string) string) := fun w =>
  if has_assertion q then authenticateIntrospectAssertion now q w
  else (if authenticateIntrospectionClient now q w then Ok (aq_ClientID q) else Err (401, ErrInvalidClient), w).

(** ** Resolution *)

Notation resolved := (option (IBody * list string)).

Definition introspectSessionActive (now : Z) (claims : TokenClaims) (w : Front) : bool :=
  match fr_sessions w with
  | None => true
  | Some m => match Sessions.Get now (tc_SID claims) m with Err _ => false | Ok sess => negb (Session_IsExpired now sess) && negb (se_Revoked sess) end
  end.

Definition introspectAccess (now : Z) (token : string) : M Front resolved := fun w =>
  if bool_decide (issuers = []) then (None, w)
  else match validateAnyToken c fd issuers now token w with
       | (Err _, w) => (None, w)
       | (Ok (claims, issuerName), w) =>
           if negb (IsAccessTokenClaims (Some claims)) then (None, w)
           else
             let '(renewExceeded, renewAt) := IntrospectionRenewExceeded (in_policies d) (introspectClientID claims) (tc_Scopes claims) (tc_IssuedAt claims) (tc_ExpiresAt claims) now in
             if renewExceeded then (None, w)
             else if negb (bool_decide (tc_SID claims = "")) && negb (introspectSessionActive now claims w) then (None, w)
             else
               let body : IBody := {[ "active" := IV (VBool true); "token_type" := IV (VStr (dpopTokenTypeOr "Bearer" (tc_ConfirmationJKT claims)));
                 "sub" := IV (VStr (tc_Subject claims)); "iss" := IV (VStr (tc_Issuer claims)); "token_type_hint" := IV (VStr "access_token");
                 "token_strategy_used" := IV (VStr issuerName) ]} in
               (Some (populateAccessIntrospectionBody claims (put_time "renew_after" renewAt body), lifecycleSubjects claims), w)
       end.

Definition introspectionLifecycleActive (w : Front) (subject : string) : bool := AllowsAuthentication (LifecycleState subject w).

Definition inspect_refresh (now : Z) (token : string) : M Front (option RefreshToken) := fun w =>
  match fr_refresh w with
  | None => (None, w)
  | Some m => let '(r, m) := Inspect now token m in (match r with Ok i => Some i | Err _ => None end, set_refresh (Some m) w)
  end.

Definition introspectRefresh (now : Z) (token : string) : M Front resolved := fun w =>
  match inspect_refresh now token w with
  | (None, w) => (None, w)
  | (Some info, w) =>
      if negb (introspectionLifecycleActive w (rt_UserID info)) then (None, w)
      else
        let body : IBody := {[ "active" := IV (VBool true); "token_type" := IV (VStr (dpopTokenTypeOr "Bearer" (rt_ConfirmationJKT info)));
          "sub" := IV (VStr (rt_UserID info)); "client_id" := IV (VStr (rt_ClientID info)); "token_type_hint" := IV (VStr "refresh_token") ]} in
        (Some (put_scope (rt_Scopes info) (put_time "iat" (rt_IssuedAt info) (put_time "exp" (rt_ExpiresAt info) body)), [rt_UserID info]), w)
  end.

(** The second reading when the first finds nothing. *)
Definition or_else (m k : M Front resolved) : M Front resolved := fun w => match m w with (Some b, w) => (Some b, w) | (None, w) => k w end.

Definition resolveIntrospection (now : Z) (token hint : string) : M Front resolved :=
  if decide (hint = "refresh_token") then or_else (introspectRefresh now token) (introspectAccess now token)
  else or_else (introspectAccess now token) (introspectRefresh now token).

(** ** The cache *)

(** [MemoryIntrospectionCache.Set]: a time to live that is not positive stores nothing. *)
Definition cache_set (now : Z) (token : string) (r : CachedResult IBody) (w : Front) : Front :=
  set_cache ((fun ch => if ca_ttl ch <=? 0 then ch else cache_put now (tokenHash token) r ch) <$> fr_cache w) w.

Definition cacheInactiveIntrospection (now : Z) (token : string) : M Front IBody := fun w =>
  (inactive_body, cache_set now token {| cr_Body := inactive_body; cr_LifecycleSubjects := [] |} w).

(** The subjects to check again for a cached answer that does not name them. *)
Definition introspectionCacheSubjects (now : Z) (token : string) (body : IBody) : M Front (option (list string)) := fun w =>
  let subject := match body !! "sub" with Some (IV (VStr s)) => s | _ => "" end in
  if negb (bool_decide (body !! "token_type_hint" = Some (IV (VStr "access_token")))) then
    (if negb (bool_decide (subject = "")) && introspectionLifecycleActive w subject then Some [subject] else None, w)
  else match validateAnyToken c fd issuers now token w with
       | (Ok (claims, _), w) => (Some (lifecycleSubjects claims), w)
       | (Err _, w) => (None, w)
       end.

Definition lifecycleCheckedCachedResult (now : Z) (token : string) (cached : CachedResult IBody) : M Front IBody := fun w =>
  if negb (is_active (cr_Body cached)) then (cr_Body cached, w)
  else
    let '(subjects, w) := if bool_decide (cr_LifecycleSubjects cached = []) then introspectionCacheSubjects now token (cr_Body cached) w
                          else (Some (cr_LifecycleSubjects cached), w) in
    match subjects with
    | None => cacheInactiveIntrospection now token w
    | Some subjects => if forallb (introspectionLifecycleActive w) subjects then (cr_Body cached, w) else cacheInactiveIntrospection now token w
    end.

(** [introspectOne] in two steps: an answer from the cache, or a result still to be
    stored; then the store. *)
Inductive progress := Answered (b : IBody) | ToStore (r : CachedResult IBody).

Definition introspect_begin (now : Z) (token hint : string) : M Front progress := fun w =>
  match fr_cache w ≫= cache_get now (tokenHash token) with
  | Some cached => let '(b, w) := lifecycleCheckedCachedResult now token cached w in (Answered b, w)
  | None =>
      match resolveIntrospection now token hint w with
      | (Some (body, subjects), w) => (ToStore {| cr_Body := body; cr_LifecycleSubjects := subjects |}, w)
      | (None, w) => (ToStore {| cr_Body := inactive_body; cr_LifecycleSubjects := [] |}, w)
      end
  end.

Definition introspect_end (now : Z) (token : string) (p : progress) : M Front IBody := fun w =>
  match p with Answered b => (b, w) | ToStore r => (cr_Body r, cache_set now token r w) end.

Definition introspectOne (now : Z) (token hint : string) : M Front IBody := fun w =>
  let '(p, w) := introspect_begin now token hint w in introspect_end now token p w.

Fixpoint introspect_all (now : Z) (tokens : list string) (hint : string) (w : Front) : list IBody * Front :=
  match tokens with
  | [] => ([], w)
  | t :: tokens => let '(b, w) := introspectOne now t hint w in let '(bs, w) := introspect_all now tokens hint w in (b :: bs, w)
  end.

(** A batch over the limit is refused, never cut. *)
Definition serveIntrospectBatch (now : Z) (tokens : list string) (hint : string) : M Front introspect_answer := fun w =>
  if in_maxBatch d <? Z.of_nat (length tokens) then (IRefused 400 ErrInvalidRequest, w)
  else let '(bs, w) := introspect_all now tokens hint w in (IBatch bs, w).

Definition HandleIntrospect (now : Z) (r : introspectRequest) : M Front introspect_answer := fun w =>
  match authenticateIntrospectClient now (bind_basic (iq_auth r)) w with
  | (Err (status, code), w) => (IRefused status code, w)
  | (Ok _, w) =>
      if (0 <? in_maxBatch d) && negb (bool_decide (iq_Tokens r = [])) then serveIntrospectBatch now (iq_Tokens r) (iq_TokenTypeHint r) w
      else if decide (iq_Token r = "") then (IRefused 400 ErrInvalidRequest, w)
      else let '(b, w) := introspectOne now (iq_Token r) (iq_TokenTypeHint r) w in (IOne b, w)
  end.

(** ** What a resolution shows *)

(** The subjects of an answer may authenticate. *)
Definition subjects_active (w : Front) (subjects : list string) : Prop := Forall (fun s => introspectionLifecycleActive w s = true) subjects.

(** An access token that an issuer judges valid at [now], eligible, its session alive. *)
Definition live_access (now : Z) (token : string) (w : Front) (subjects : list string) : Prop :=
  exists claims name, issued issuers now token claims name /\ IsAccessTokenClaims (Some claims) = true /\ eligible fd now claims w /\
    (tc_SID claims <> "" -> forall m, fr_sessions w = Some m -> exists s, ms_sessions m !! tc_SID claims = Some s /\ dead now s = false) /\
    (IntrospectionRenewExceeded (in_policies d) (introspectClientID claims) (tc_Scopes claims) (tc_IssuedAt claims) (tc_ExpiresAt claims) now).1 = false /\
    subjects = lifecycleSubjects claims.
(** A refresh token in the store, not expired, of a user who may authenticate. *)
Definition live_refresh (now : Z) (token : string) (w : Front) (subjects : list string) : Prop :=
  exists m info, fr_refresh w = Some m /\ entries m !! token = Some info /\ RefreshToken_IsExpired now info = false /\
    introspectionLifecycleActive w (rt_UserID info) = true /\ subjects = [rt_UserID info].
Definition live (now : Z) (token : string) (w : Front) (subjects : list string) : Prop := live_access now token w subjects \/ live_refresh now token w subjects.

Lemma introspectAccess_live now token (w w' : Front) b subjects : introspectAccess now token w = (Some (b, subjects), w') -> live_access now token w subjects.
Proof.
  unfold introspectAccess. destruct (bool_decide _); [done|]. pose proof (validateAnyToken_frame c fd issuers now token w) as (x & s & Hf).
  destruct (validateAnyToken _ _ _ _ _ _) as [[[claims name]|e] w1] eqn:Hv; [|done]. cbn in Hf. apply validateAnyToken_Ok in Hv as (_ & Hi & He).
  destruct (IsAccessTokenClaims (Some claims)) eqn:Hu; [|done]. cbn [negb].
  destruct (IntrospectionRenewExceeded _ _ _ _ _ _) as [ex at_] eqn:Hr. destruct ex; [done|].
  destruct (negb (bool_decide (tc_SID claims = "")) && negb (introspectSessionActive now claims w1)) eqn:Hs; [done|]. intros [= <- <- _].
  exists claims, name. split_and!; try done; [|by rewrite Hr]. intros Hne m Hm. rewrite bool_decide_eq_false_2 in Hs by done. cbn [negb andb] in Hs.
  apply negb_false_iff in Hs. unfold introspectSessionActive in Hs. subst w1. cbn [fr_sessions validated set_suspension set_issuers] in Hs. rewrite Hm in Hs.
  unfold Sessions.Get in Hs. destruct (ms_sessions m !! _) as [s0|]; [|done]. destruct (dead now s0) eqn:Hd; [done|]. by exists s0.
Qed.

Lemma inspect_refresh_Some now token (w w' : Front) info : inspect_refresh now token w = (Some info, w') ->
  exists m, fr_refresh w = Some m /\ entries m !! token = Some info /\ RefreshToken_IsExpired now info = false /\ w' = w.
Proof.
  unfold inspect_refresh. destruct (fr_refresh w) as [m|] eqn:Hm; [|done]. unfold Inspect. destruct (entries m !! token) as [i|] eqn:Hi; [|done].
  destruct (RefreshToken_IsExpired now i) eqn:He; [done|]. intros [= -> <-]. exists m. split_and!; try done. destruct w; cbn in *. by subst.
Qed.

Lemma introspectRefresh_live now token (w w' : Front) b subjects : introspectRefresh now token w = (Some (b, subjects), w') -> live_refresh now token w subjects.
Proof.
  unfold introspectRefresh. destruct (inspect_refresh now token w) as [[info|] w1] eqn:Hi; [|done]. apply inspect_refresh_Some in Hi as (m & Hm & He & Hx & ->).
  destruct (introspectionLifecycleActive w (rt_UserID info)) eqn:Hl; [|done]. cbn [negb]. intros [= _ <- _]. exists m, info. by split_and!.
Qed.

Lemma introspectAccess_frame now token (w : Front) : exists x s, (introspectAccess now token w).2 = validated x s w.
Proof.
  unfold introspectAccess. destruct (bool_decide _); [exists (fr_issuers w), (fr_suspension w); by rewrite validated_id|].
  pose proof (validateAnyToken_frame c fd issuers now token w) as (x & s & Hf). destruct (validateAnyToken _ _ _ _ _ _) as [[[claims name]|e] w1]; cbn in Hf; subst w1; exists x, s; [|done].
  destruct (negb _); [done|]. destruct (IntrospectionRenewExceeded _ _ _ _ _ _) as [[] at_]; [done|]. by destruct (_ && _).
Qed.
Lemma introspectRefresh_frame now token (w : Front) : exists r, (introspectRefresh now token w).2 = set_refresh r w.
Proof.
  unfold introspectRefresh, inspect_refresh. assert (exists r, w = set_refresh r w) by (exists (fr_refresh w); by destruct w).
  destruct (fr_refresh w) as [m|]; [|done]. destruct (Inspect now token m) as [[i|] m']; [|by eexists]. destruct (negb _); by eexists.
Qed.

Lemma resolve_live now token hint (w w' : Front) b subjects : resolveIntrospection now token hint w = (Some (b, subjects), w') -> live now token w subjects.
Proof.
  unfold resolveIntrospection, or_else. destruct (decide (hint = "refresh_token")).
  - pose proof (introspectRefresh_frame now token w) as [r Hr]. destruct (introspectRefresh now token w) as [[[b1 s1]|] w1] eqn:H1.
    + intros [= -> -> _]. right. by eapply introspectRefresh_live.
    + cbn in Hr. subst w1. intros H. left. apply introspectAccess_live in H. exact H.
  - pose proof (introspectAccess_frame now token w) as (x & s & Hf). destruct (introspectAccess now token w) as [[[b1 s1]|] w1] eqn:H1.
    + intros [= -> -> _]. left. by eapply introspectAccess_live.
    + cbn in Hf. subst w1. intros H. right. apply introspectRefresh_live in H. exact H.
Qed.

(** ** Runs *)

(** A server: its clock, its stores, and the results that requests have resolved and not
    yet stored. *)
Record sys := { y_now : Z; y_front : Front; y_pending : list (string * CachedResult IBody) }.

(** Requests interleave.  Whatever else the server does leaves the cache alone, or drops
    the entry of a token. *)
Inductive sys_step : sys -> sys -> Prop :=
| y_begin y now token hint p w : y_now y <= now -> introspect_begin now token hint (y_front y) = (p, w) ->
    sys_step y {| y_now := now; y_front := w; y_pending := match p with ToStore r => (token, r) :: y_pending y | Answered _ => y_pending y end |}
| y_end y now token r l1 l2 : y_now y <= now -> y_pending y = l1 ++ (token, r) :: l2 ->
    sys_step y {| y_now := now; y_front := (introspect_end now token (ToStore r) (y_front y)).2; y_pending := l1 ++ l2 |}
| y_invalidate y now token : y_now y <= now ->
    sys_step y {| y_now := now; y_front := InvalidateIntrospectionCache token (y_front y); y_pending := y_pending y |}
| y_other y now w : y_now y <= now -> fr_cache w = fr_cache (y_front y) ->
    sys_step y {| y_now := now; y_front := w; y_pending := y_pending y |}.

(** [r] is the result of a resolution of a token like [token] at [t0], earlier in the run. *)
Definition resolved_at (y0 : sys) (t0 : Z) (token : string) (r : CachedResult IBody) : Prop :=
  exists y tok hint w, rtc sys_step y0 y /\ y_now y <= t0 /\ tokenHash tok = tokenHash token /\
    introspect_begin t0 tok hint (y_front y) = (ToStore r, w).

(** The entry of a token: an inactive answer, or a result resolved at [t0] and stored at
    [t1] for the time to live. *)
Definition entry_ok (y0 : sys) (ttl now : Z) (k : string) (r : CachedResult IBody) (e : Z) : Prop :=
  is_active (cr_Body r) = false \/
  exists tok t0 t1, tokenHash tok = k /\ resolved_at y0 t0 tok r /\ t0 <= t1 <= now /\ e = t1 + ttl.

Record sys_ok (y0 : sys) (ttl : Z) (y : sys) : Prop := {
  so_run : rtc sys_step y0 y;
  so_pending : forall token r, (token, r) ∈ y_pending y -> exists t0, t0 <= y_now y /\ resolved_at y0 t0 token r;
  so_cache : forall ch, fr_cache (y_front y) = Some ch -> ca_ttl ch = ttl /\
    forall k r e, ca_entries ch !! k = Some (r, e) -> entry_ok y0 ttl (y_now y) k r e;
}.

Definition cache_ok (y0 : sys) (ttl now : Z) (w : Front) : Prop := forall ch, fr_cache w = Some ch -> ca_ttl ch = ttl /\
  forall k r e, ca_entries ch !! k = Some (r, e) -> entry_ok y0 ttl now k r e.

Lemma cache_ok_later y0 ttl now now' w : now <= now' -> cache_ok y0 ttl now w -> cache_ok y0 ttl now' w.
Proof.
  intros Hle H ch Hch. destruct (H ch Hch) as [Ht He]. split; [done|]. intros k r e Hk. destruct (He k r e Hk) as [?|(tok & t0 & t1 & H1 & H2 & H3 & H4)]; [by left|].
  right. exists tok, t0, t1. split_and!; try done; lia.
Qed.

Lemma cache_ok_set y0 ttl now token r w : cache_ok y0 ttl now w ->
  is_active (cr_Body r) = false \/ (exists t0, t0 <= now /\ resolved_at y0 t0 token r) -> cache_ok y0 ttl now (cache_set now token r w).
Proof.
  intros H Hr ch Hch. cbn in Hch. destruct (fr_cache w) as [ch0|] eqn:Hc; [|done]. destruct (H ch0 Hc) as [Ht He].
  cbn in Hch. injection Hch as <-. destruct (ca_ttl ch0 <=? 0); [done|]. split; [done|]. intros k r' e Hk. cbn in Hk.
  apply lookup_insert_Some in Hk as [[<- [= <- <-]]|[_ Hk]]; [|by apply He]. destruct Hr as [?|(t0 & H1 & H2)]; [by left|]. right. exists token, t0, now.
  split_and!; try done; try lia. by rewrite Ht.
Qed.

Lemma resolve_frame now token hint (w : Front) : fr_cache (resolveIntrospection now token hint w).2 = fr_cache w.
Proof.
  unfold resolveIntrospection, or_else. destruct (decide _).
  - destruct (introspectRefresh_frame now token w) as [r Hr]. destruct (introspectRefresh now token w) as [[|] w1]; cbn in Hr; subst w1; [done|].
    destruct (introspectAccess_frame now token (set_refresh r w)) as (x & s & ->). done.
  - destruct (introspectAccess_frame now token w) as (x & s & Hf). destruct (introspectAccess now token w) as [[|] w1]; cbn in Hf; subst w1; [done|].
    destruct (introspectRefresh_frame now token (validated x s w)) as [r ->]. done.
Qed.

Lemma cacheSubjects_frame now token b (w : Front) : exists x s, (introspectionCacheSubjects now token b w).2 = validated x s w.
Proof.
  unfold introspectionCacheSubjects. cbv zeta. destruct (negb _).
  - exists (fr_issuers w), (fr_suspension w). by rewrite validated_id.
  - pose proof (validateAnyToken_frame c fd issuers now token w) as (x & s & Hf). exists x, s. by destruct (validateAnyToken _ _ _ _ _ _) as [[[]|] ?].
Qed.

Lemma cache_ok_same y0 ttl now (w w' : Front) : fr_cache w' = fr_cache w -> cache_ok y0 ttl now w -> cache_ok y0 ttl now w'.
Proof. unfold cache_ok. by intros ->. Qed.

Lemma checked_ok y0 ttl now token r (w : Front) : cache_ok y0 ttl now w -> cache_ok y0 ttl now (lifecycleCheckedCachedResult now token r w).2.
Proof.
  intros H. unfold lifecycleCheckedCachedResult. destruct (negb _); [done|].
  destruct (cacheSubjects_frame now token (cr_Body r) w) as (x & s & Hf).
  set (m := if bool_decide _ then _ else _). assert (cache_ok y0 ttl now m.2) as Hm.
  { unfold m. destruct (bool_decide _); [rewrite Hf|]; exact H. }
  destruct m as [[subjects|] w1]; [destruct (forallb _ _); [done|]|]; (apply cache_ok_set; [done|by left]).
Qed.

Lemma begin_ok y0 ttl now token hint (w : Front) : cache_ok y0 ttl now w -> cache_ok y0 ttl now (introspect_begin now token hint w).2.
Proof.
  intros H. unfold introspect_begin. destruct (_ ≫= _) as [r|].
  - pose proof (checked_ok y0 ttl now token r w H) as Hc. by destruct (lifecycleCheckedCachedResult _ _ _ _).
  - pose proof (resolve_frame now token hint w) as Hf. destruct (resolveIntrospection now token hint w) as [[[]|] w1]; cbn in *; by apply (cache_ok_same _ _ _ w).
Qed.

Lemma step_ok y0 ttl y y' : sys_step y y' -> sys_ok y0 ttl y -> sys_ok y0 ttl y'.
Proof.
  intros Hs [Hrun Hp Hc]. assert (rtc sys_step y0 y') as Hrun' by (by eapply rtc_r). fold (cache_ok y0 ttl (y_now y) (y_front y)) in Hc.
  assert (forall now token r, y_now y <= now -> (token, r) ∈ y_pending y -> exists t0, t0 <= now /\ resolved_at y0 t0 token r) as Hp'.
  { intros now token r Hle Hin. destruct (Hp token r Hin) as (t0 & H1 & H2). exists t0. split; [lia|done]. }
  assert (forall now, y_now y <= now -> cache_ok y0 ttl now (y_front y)) as Hc' by (intros; by eapply cache_ok_later).
  destruct Hs as [y now token hint p w Hle Hb|y now token r l1 l2 Hle Hl|y now token Hle|y now w Hle Hw]; split; try exact Hrun'; cbn [y_now y_front y_pending].
  - intros tok r Hin. destruct p as [b|r0]; [by apply Hp'|]. apply elem_of_cons in Hin as [[= -> ->]|Hin]; [|by apply Hp'].
    exists now. split; [lia|]. by exists y, token, hint, w.
  - pose proof (begin_ok y0 ttl now token hint (y_front y) (Hc' now Hle)) as H. rewrite Hb in H. exact H.
  - intros tok r' Hin. apply Hp'; [done|]. rewrite Hl. set_solver.
  - apply cache_ok_set; [by apply Hc'|]. right. apply Hp'; [done|]. rewrite Hl. set_solver.
  - intros. by apply Hp'.
  - unfold InvalidateIntrospectionCache. destruct (decide _); [by apply Hc'|]. intros ch Hch. cbn in Hch. destruct (fr_cache (y_front y)) as [ch0|] eqn:E; [|done].
    destruct (Hc' now Hle ch0 E) as [Ht He]. cbn in Hch. injection Hch as <-. split; [done|]. intros k r e Hk. cbn in Hk. apply lookup_delete_Some in Hk as [_ Hk]. by apply He.
  - intros. by apply Hp'.
  - apply (cache_ok_same _ _ _ (y_front y)); [done|]. by apply Hc'.
Qed.

Lemma run_ok y0 ttl y y' : rtc sys_step y y' -> sys_ok y0 ttl y -> sys_ok y0 ttl y'.
Proof. intros Hr. induction Hr as [|y y1 y' Hs _ IH]; [done|]. intros H. by eapply IH, step_ok. Qed.

Lemma cached_answer now token r (w w' : Front) b : lifecycleCheckedCachedResult now token r w = (b, w') -> is_active b = true ->
  b = cr_Body r /\ (cr_LifecycleSubjects r <> [] -> subjects_active w (cr_LifecycleSubjects r)).
Proof.
  unfold lifecycleCheckedCachedResult. destruct (is_active (cr_Body r)) eqn:Ha; cbn [negb]; [|intros [= <- _]; congruence].
  destruct (bool_decide (cr_LifecycleSubjects r = [])) eqn:Hn.
  - apply bool_decide_eq_true in Hn. destruct (introspectionCacheSubjects _ _ _ _) as [[s|] w1]; [destruct (forallb _ s)|]; intros [= <- _]; done.
  - destruct (forallb _ _) eqn:Hf; [|by intros [= <- _]]. intros [= <- _] _. split; [done|]. intros _. rewrite forallb_forall in Hf.
    apply Forall_forall. intros u Hu. apply list_elem_of_In in Hu. by apply Hf.
Qed.

Lemma live_subjects now token (w : Front) subjects : live now token w subjects -> subjects <> [] /\ subjects_active w subjects.
Proof.
  intros [(cl & n & _ & _ & [_ He] & _ & _ & ->)|(m & i & _ & _ & _ & Hl & ->)]; (split; [done|]); [exact He|]. by constructor.
Qed.

Lemma begin_active now token hint (w w' : Front) r : introspect_begin now token hint w = (ToStore r, w') -> is_active (cr_Body r) = true ->
  live now token w (cr_LifecycleSubjects r).
Proof.
  unfold introspect_begin. destruct (_ ≫= _) as [r0|]; [by destruct (lifecycleCheckedCachedResult _ _ _ _)|].
  destruct (resolveIntrospection now token hint w) as [[[b s]|] w1] eqn:Hr; intros [= <- _]; [|done]. intros _. by eapply resolve_live.
Qed.


(** ** Who may ask *)

(** The request proves to come from the confidential client [client]. *)
Inductive confidential (now : Z) (q : AuthRequest) (w : Front) (client : Client) : Prop :=
| confidential_basic :
    basic_used q = true -> body_secret q = false -> cl_TokenEndpointAuthMethod client ∈ [""; "client_secret_basic"] ->
    ValidateSecret (ap_compare ap) now (aq_ClientID q) (aq_ClientSecret q) (fr_clients w) = Ok () -> fr_clients w !! aq_ClientID q = Some client ->
    confidential now q w client
| confidential_post :
    basic_used q = false -> authorization q = false -> cl_TokenEndpointAuthMethod client = "client_secret_post" ->
    ValidateSecret (ap_compare ap) now (aq_ClientID q) (aq_ClientSecret q) (fr_clients w) = Ok () -> fr_clients w !! aq_ClientID q = Some client ->
    confidential now q w client
| confidential_assertion p :
    body_secret q = false -> authorization q = false -> cl_TokenEndpointAuthMethod client = "private_key_jwt" ->
    assertion_ok (pr_ed25519 c) (pr_ecdsa c) (pr_pkcs1 c) (pr_pss c) (ap_claims ap) (in_auth d) (fr_clients w) now (aq_ClientAssertion q) client p ->
    confidential now q w client.

Lemma methodMatches_spec q m : introspectionSecretMethodMatches q m = true ->
  basic_used q = true /\ body_secret q = false /\ m ∈ [""; "client_secret_basic"] \/ basic_used q = false /\ authorization q = false /\ m = "client_secret_post".
Proof.
  unfold introspectionSecretMethodMatches. destruct (basic_used q) eqn:Hb, (body_secret q) eqn:Hs; cbn [andb negb]; try done;
    (destruct (contains _ m) eqn:Hm; [try done; left; by apply contains_spec in Hm|]); destruct (decide _) as [->|]; try done;
    intros H; right; apply andb_true_iff in H as [H _]; by apply negb_true_iff in H.
Qed.

Lemma authenticate_confidential now q (w w' : Front) id : authenticateIntrospectClient now q w = (Ok id, w') ->
  exists client, fr_clients w !! id = Some client /\ cl_Active client = true /\ ClientOK q client = true /\ confidential now q w client.
Proof.
  unfold authenticateIntrospectClient. destruct (has_assertion q).
  - unfold authenticateIntrospectAssertion. destruct (negb _); [done|]. destruct (body_secret q || authorization q) eqn:Ho; [done|].
    apply orb_false_iff in Ho as [Hs Ha]. unfold verify_assertion.
    destruct (verifyJWTClientAssertion _ _ _ _ _ _ _ _ _ _ _ _ _) as [[sub|e] rp] eqn:Hv; [|done]. cbn [fr_clients set_replay].
    destruct (fr_clients w !! sub) as [client|] eqn:Hc; [|done]. destruct (_ && _) eqn:Hok; [|done]. intros [= -> _].
    apply andb_true_iff in Hok as [Hok Ht]. apply andb_true_iff in Hok as [Hact Hm]. apply bool_decide_eq_true in Hm.
    exists client. split_and!; try done. apply verifyAssertion_Ok in Hv as (p & cl & Hsub & _ & _ & Hok & _). 
    assert (cl = client) as ->. { destruct Hok as (? & ? & ? & ? & ? & ? & _ & _ & _ & _ & Hcl & _). congruence. }
    by apply (confidential_assertion _ _ _ _ p).
  - unfold authenticateIntrospectionClient. destruct (_ || _); [done|]. destruct (fr_clients w !! aq_ClientID q) as [client|] eqn:Hc; [|done].
    destruct (_ || _ || _) eqn:Hg; [done|]. apply orb_false_iff in Hg as [Hg Hm]. apply orb_false_iff in Hg as [Hact Ht]. apply negb_false_iff in Hact, Ht, Hm.
    unfold validate_secret. destruct (ValidateSecret _ _ _ _ _) as [[]|] eqn:Hs; [|done]. intros [= <- _]. exists client. split_and!; try done.
    apply methodMatches_spec in Hm as [(H1 & H2 & H3)|(H1 & H2 & H3)]; [by apply confidential_basic|by apply confidential_post].
Qed.

Lemma introspect_all_length now tokens hint (w w' : Front) bs : introspect_all now tokens hint w = (bs, w') -> length bs = length tokens.
Proof.
  revert w w' bs. induction tokens as [|t ts IH]; intros w w' bs; cbn; [by intros [= <- _]|].
  destruct (introspectOne now t hint w) as [b w1]. destruct (introspect_all now ts hint w1) as [bs1 w2] eqn:E. intros [= <- _]. cbn. f_equal. by eapply IH.
Qed.

(** Only a confidential client is told anything of a token: one active in the store
    and of the request's tenant, that proved its secret in the way it is registered for
    and in no other, or signed a fresh assertion with one of its keys.  A batch is
    answered in full, token by token and within the limit, or refused. *)
Theorem introspection_confidential now r (w w' : Front) ans : HandleIntrospect now r w = (ans, w') ->
  (exists s code, ans = IRefused s code) \/
  (exists id client, fr_clients w !! id = Some client /\ cl_Active client = true /\ ClientOK (bind_basic (iq_auth r)) client = true /\
     confidential now (bind_basic (iq_auth r)) w client) /\
  match ans with
  | IBatch bs => length bs = length (iq_Tokens r) /\ Z.of_nat (length bs) <= in_maxBatch d
  | _ => iq_Token r <> ""
  end.
Proof.
  unfold HandleIntrospect. destruct (authenticateIntrospectClient now (bind_basic (iq_auth r)) w) as [[id|[s code]] w1] eqn:Ha; [|intros [= <- _]; left; by eexists _, _].
  apply authenticate_confidential in Ha as (client & H1 & H2 & H3 & H4).
  destruct (_ && _).
  - unfold serveIntrospectBatch. destruct (in_maxBatch d <? _) eqn:Hm; [intros [= <- _]; left; by eexists _, _|].
    destruct (introspect_all _ _ _ w1) as [bs w2] eqn:Hl. intros [= <- _]. right. split; [by exists id, client|]. apply introspect_all_length in Hl. rewrite Hl. split; [done|lia].
  - destruct (decide (iq_Token r = "")); [intros [= <- _]; left; by eexists _, _|]. destruct (introspectOne _ _ _ w1) as [b w2]. intros [= <- _].
    right. split; [by exists id, client|done].
Qed.
End introspect.

(** ** A cached answer *)

Definition toy_introspect : IntrospectDeps := {| in_front := ac_front toy_access; in_auth := toy_deps; in_maxBatch := 2; in_policies := None |}.
Definition toy_auth : AuthPrimitives := {| ap_typ := toy_typ; ap_claims := toy_unmarshal; ap_compare := fun h p => bool_decide (h = p) |}.
Definition secret_client : Client := set_secret (plain_client "api" [] []) "s3cret" "" 0 0 0.
Definition cached_front : TokenFront.Front IBody () := {|
  fr_issuers := (); fr_clients := {[ "api" := secret_client ]}; fr_tenants := None; fr_suspension := None; fr_residency := None; fr_policies := None;
  fr_lifecycle := Some ∅; fr_pairwise := None; fr_sessions := None; fr_refresh := Some (NewMemoryRefreshTokenStore 0 0 0);
  fr_cache := Some {| ca_entries := ∅; ca_ttl := 30 |}; fr_replay := None |}.
Definition toy_sys : sys := {| y_now := 5; y_front := cached_front; y_pending := [] |}.
Notation toy_one now w := (introspectOne toy_primitives toy_introspect [("jwt", toy_issuer)] now "tok" "" w).
Notation toy_begin now w := (introspect_begin toy_primitives toy_introspect [("jwt", toy_issuer)] now "tok" "" w).


Definition toy_ask (secret : string) : introspectRequest := {|
  iq_Token := "tok"; iq_TokenTypeHint := ""; iq_Tokens := [];
  iq_auth := {| aq_Authorization := ["Basic"]; aq_BasicAuth := Some ("api", secret); aq_PostForm := []; aq_ClientID := ""; aq_ClientSecret := "";
    aq_ClientSecretPresent := false; aq_ClientAssertion := ""; aq_ClientAssertionType := ""; aq_ClientAssertionPresent := false;
    aq_ClientAssertionTypePresent := false; aq_Resource := []; aq_Tenant := None; aq_Cert := None |} |}.

Lemma introspection_confidential_witness : exists id client,
  fr_clients cached_front !! id = Some client /\ confidential toy_primitives toy_auth toy_introspect 10 (bind_basic (iq_auth (toy_ask "s3cret"))) cached_front client.
Proof.
  destruct (HandleIntrospect toy_primitives toy_auth toy_introspect [("jwt", toy_issuer)] 10 (toy_ask "s3cret") cached_front) as [ans w'] eqn:H.
  destruct (introspection_confidential _ _ _ _ _ _ _ _ _ H) as [(s & code & ->)|[(id & client & H1 & _ & _ & H2) _]].
  - apply (f_equal (fun x => match x.1 with IRefused _ _ => true | _ => false end)) in H. vm_compute in H. discriminate H.
  - by exists id, client.
Defined.
