(* ===== verification/Revocation.v ===== *)
(** * Revocation: taking tokens back ([protocols/oauth/handle_revoke.go])

    [/token/revoke] for a client and [/token/revoke-all] for a user.  What an issuer
    promises of [Revoke] is a class; the JWT issuer is an instance.  The audit record of a
    partial failure is left out. *)
From S2P Require Import Prelude Crypto Core Scopes Lifecycle RefreshStore CodeStores JTIReplay Jose ExchangeDeps Resources Sessions Clients TokenPolicy JwtIssuer OpaqueIssuers ClientAuth Dpop TokenFront ResourceAccess Introspection.
Local Open Scope Z_scope.

Definition ErrServiceDegraded : string := "service_degraded".

Record revokeRequest := { vq_Token : string; vq_TokenTypeHint : string; vq_auth : AuthRequest }.

Record revokeTokenBinding := { rb_access : bool; rb_refresh : option RefreshToken }.
Definition no_binding : revokeTokenBinding := {| rb_access := false; rb_refresh := None |}.

(** The trusted-device store: how many grants of a user it dropped. *)
Definition DeviceStore : Type := gmap string nat.

Inductive revoke_answer := Revoked | RevokeRefused (status : Z) (code : string).

Section revoke.
Context {X : Type}.
Notation Front := (Front IBody X).
Context (c : Primitives) (ap : AuthPrimitives) (d : IntrospectDeps).
Context (issuers : list (string * TokenIssuer X)).
Notation fd := (in_front d).

Definition revokeAuthMethodMatches (q : AuthRequest) (method : string) : bool :=
  if basic_used q && body_secret q then false
  else if decide (method = "none") then negb (basic_used q) && negb (authorization q) && negb (body_secret q)
  else if contains [""; "client_secret_basic"] method then basic_used q && negb (body_secret q)
  else if decide (method = "client_secret_post") then negb (basic_used q) && negb (authorization q) && negb (bool_decide (aq_ClientSecret q = ""))
  else false.

(** [authenticateClientCreds] *)
Definition authenticateClientCreds (now : Z) (q : AuthRequest) (w : Front) : bool :=
  if bool_decide (aq_ClientID q = "") || bool_decide (aq_ClientSecret q = "") then false
  else match fr_clients w !! aq_ClientID q with
       | None => false
       | Some client => cl_Active client && ClientOK q client && validate_secret ap now (aq_ClientID q) (aq_ClientSecret q) (fr_clients w)
       end.

Definition authenticateRevokeAssertion (now : Z) (q : AuthRequest) : M Front (result (Z * string) string) := fun w =>
  if negb (bool_decide (aq_ClientAssertionType q = ClientAssertionTypeJWTBearer)) then (Err (400, ErrInvalidRequest), w)
  else match verify_assertion c ap d now (aq_ClientAssertion q) (aq_ClientID q) w with
       | (None, w) => (Err (401, ErrInvalidClient), w)
       | (Some id, w) =>
           (match fr_clients w !! id with
            | None => Err (401, ErrInvalidClient)
            | Some client =>
                if negb (cl_Active client) || bool_decide (cl_TokenEndpointAuthMethod client = "none") || negb (ClientOK q client) then Err (401, ErrInvalidClient)
                else if negb (bool_decide (cl_TokenEndpointAuthMethod client = "private_key_jwt")) then Err (401, ErrInvalidClient)
                else Ok id
            end, w)
       end.

(** The authenticated client, public ones included, or the refusal. *)
Definition authenticateRevokeClient (now : Z) (q : AuthRequest) : M Front (result (Z * string) string) := fun w =>
  if has_assertion q then
    if negb (bool_decide (aq_ClientSecret q = "")) || authorization q || body_secret q then (Err (401, ErrInvalidClient), w)
    else authenticateRevokeAssertion now q w
  else
    (match fr_clients w !! aq_ClientID q with
     | None => Err (401, ErrInvalidClient)
     | Some client =>
         if negb (cl_Active client) || negb (ClientOK q client) then Err (401, ErrInvalidClient)
         else if negb (revokeAuthMethodMatches q (cl_TokenEndpointAuthMethod client)) then Err (401, ErrInvalidClient)
         else if decide (cl_TokenEndpointAuthMethod client = "none") then Ok (aq_ClientID q)
         else if authenticateClientCreds now q w then Ok (aq_ClientID q) else Err (401, ErrInvalidClient)
     end, w).

(** What the token is to the client; [None] is a backend failure. *)
Definition inspectRevokeTokenBinding (now : Z) (token clientID : string) : M Front (option (revokeTokenBinding * bool)) := fun w =>
  let refresh (access : bool) (w : Front) : option (revokeTokenBinding * bool) * Front :=
    match inspect_refresh now token w with
    | (None, w) => (Some ({| rb_access := access; rb_refresh := None |}, access), w)
    | (Some info, w) =>
        if negb (bool_decide (rt_ClientID info = clientID)) then (Some (no_binding, false), w)
        else (Some ({| rb_access := access; rb_refresh := Some info |}, true), w)
    end in
  match ValidateAnyTokenForRevocation c fd issuers now token w with
  | (Err TokenRejected, w) => refresh false w
  | (Err _, w) => (None, w)
  | (Ok (claims, _), w) =>
      if IsAccessTokenClaims (Some claims) then
        if negb (bool_decide (tc_ClientID claims = clientID)) then (Some (no_binding, false), w) else refresh true w
      else refresh false w
  end.

Definition revokeAccess (now : Z) (token : string) : M Front bool := fun w =>
  if bool_decide (issuers = []) then (false, w)
  else let '((_, failed), w) := revokeAcrossIssuers issuers now token w in (bool_decide (failed = []), w).

(** The whole family of a refresh token, or it alone. *)
Definition revokeRefresh (token : string) (info : RefreshToken) : M Front bool := fun w =>
  match fr_refresh w with
  | None => (false, w)
  | Some m =>
      (true, set_refresh (Some (if negb (bool_decide (rt_FamilyID info = "")) then (DeleteFamily (rt_FamilyID info) m).2 else Delete token m)) w)
  end.

Definition both (first second : M Front bool) : M Front bool := fun w =>
  let '(a, w) := first w in let '(b, w) := second w in (a && b, w).

Definition revokeBoundToken (now : Z) (r : revokeRequest) (b : revokeTokenBinding) : M Front bool := fun w =>
  let access := fun w => if rb_access b then revokeAccess now (vq_Token r) w else (true, w) in
  let refresh := fun w => match rb_refresh b with Some info => revokeRefresh (vq_Token r) info w | None => (true, w) end in
  let '(ok, w) := (if decide (vq_TokenTypeHint r = "refresh_token") then both refresh access else both access refresh) w in
  (ok, InvalidateIntrospectionCache (vq_Token r) w).

Definition HandleRevoke (now : Z) (r : revokeRequest) : M Front revoke_answer := fun w =>
  match authenticateRevokeClient now (bind_basic (vq_auth r)) w with
  | (Err (status, code), w) => (RevokeRefused status code, w)
  | (Ok clientID, w) =>
      if decide (vq_Token r = "") then (RevokeRefused 400 ErrInvalidRequest, w)
      else match inspectRevokeTokenBinding now (vq_Token r) clientID w with
           | (None, w) => (RevokeRefused 503 ErrServiceDegraded, w)
           | (Some (_, false), w) => (Revoked, w)
           | (Some (binding, true), w) =>
               let '(ok, w) := revokeBoundToken now r binding w in (if ok then Revoked else RevokeRefused 503 ErrServiceDegraded, w)
           end
  end.

(** ** Logging out everywhere *)

(** The user and the client of the bearer, or the code of the 401. *)
Definition authenticateRevokeAllBearer (now : Z) (bearer : string) : M Front (result string (string * string)) := fun w =>
  if decide (bearer = "") then (Err ErrMissingToken, w)
  else match validateAnyToken c fd issuers now bearer w with
       | (Err _, w) => (Err ErrInvalidToken, w)
       | (Ok (claims, _), w) =>
           (if negb (IsAccessTokenClaims (Some claims)) || bool_decide (tc_Subject claims = "") then Err ErrInvalidToken
            else Ok (resolveLocalSubject (tc_Subject claims) w, tc_ClientID claims), w)
       end.

Inductive revoke_all_answer := RevokedAll (refresh devices : nat) | RevokeAllRefused (status : Z) (code : string).

(** The grants of trusted devices are dropped last, for every client. *)
Definition revokeTrustedDevicesOnRevokeAll (devices : option DeviceStore) (user : string) : nat * option DeviceStore :=
  match devices with None => (0%nat, None) | Some m => (default 0%nat (m !! user), Some (delete user m)) end.

Definition HandleRevokeAll (now : Z) (r : Request) (wd : Front * option DeviceStore) : revoke_all_answer * (Front * option DeviceStore) :=
  let '(w, devices) := wd in
  if bool_decide (issuers = []) then (RevokeAllRefused 500 "server_misconfigured", wd)
  else match fr_refresh w with
       | None => (RevokeAllRefused 501 ErrRefreshTokenNotConfigured, wd)
       | Some _ =>
           match authenticateRevokeAllBearer now (BearerToken r) w with
           | (Err code, w) => (RevokeAllRefused 401 code, (w, devices))
           | (Ok (lookupSub, clientID), w) =>
               match fr_refresh w with
               | None => (RevokeAllRefused 501 ErrRefreshTokenNotConfigured, (w, devices))
               | Some m =>
                   let '(deleted, m) := DeleteAllForSubject lookupSub clientID m in
                   let '(_, w) := revokeAcrossIssuers issuers now (BearerToken r) (set_refresh (Some m) w) in
                   let '(n, devices) := revokeTrustedDevicesOnRevokeAll devices lookupSub in
                   (RevokedAll deleted n, (w, devices))
               end
           end
       end.
End revoke.

(** ** What issuers promise *)

(** The issuer does not take the token at [t]. *)
Definition rejects {X} (ti : TokenIssuer X) (t : Z) (token : string) (x : X) : Prop := exists e, (ti_Validate ti t token x).1 = Err e.

(** In a state that keeps [inv], a [revocable] token that [Revoke] took is rejected from
    then on; one it does not know is one it rejects; and no issuer gives back what another
    rejects. *)
Class Revocable {X} (issuers : list (string * TokenIssuer X)) (inv : X -> Prop) (revocable : string -> Prop) : Prop := {
  rv_inv_validate n ti now token x : (n, ti) ∈ issuers -> inv x -> inv (ti_Validate ti now token x).2;
  rv_inv_revoke n ti now token x : (n, ti) ∈ issuers -> inv x -> inv (ti_Revoke ti now token x).2;
  rv_revoked n ti now token x x' t : (n, ti) ∈ issuers -> inv x -> revocable token -> ti_Revoke ti now token x = (None, x') -> now <= t -> rejects ti t token x';
  rv_unknown n ti now token x x' e : (n, ti) ∈ issuers -> inv x -> ti_Revoke ti now token x = (Some e, x') -> isUnknownTokenErr e = true -> rejects ti now token x';
  rv_keep_validate n ti n' ti' now t token tok' x : (n, ti) ∈ issuers -> (n', ti') ∈ issuers -> inv x -> revocable token -> now <= t ->
    rejects ti t token x -> rejects ti t token (ti_Validate ti' now tok' x).2;
  rv_keep_revoke n ti n' ti' now t token tok' x : (n, ti) ∈ issuers -> (n', ti') ∈ issuers -> inv x -> revocable token -> now <= t ->
    rejects ti t token x -> rejects ti t token (ti_Revoke ti' now tok' x).2;
}.

Section effect.
Context {X : Type}.
Notation Front := (Front IBody X).
Context (c : Primitives) (ap : AuthPrimitives) (d : IntrospectDeps).
Context (issuers : list (string * TokenIssuer X)) (inv : X -> Prop) (revocable : string -> Prop) `{!Revocable issuers inv revocable}.
Notation fd := (in_front d).

Lemma revoke_loop_inv now token rest x r f x' : rest ⊆ issuers -> inv x -> revoke_loop now token rest x = (r, f, x') -> inv x'.
Proof.
  revert x r f x'. induction rest as [|[n ti] rest IH]; intros x r f x' Hin Hx; cbn [revoke_loop]; [by intros [= _ _ <-]|].
  assert (rest ⊆ issuers) as Hr by set_solver. destruct (accepts_format ti token); cbn [negb]; [|by apply IH].
  pose proof (rv_inv_revoke n ti now token x ltac:(set_solver) Hx) as Hx1. destruct (ti_Revoke ti now token x) as [e x1]. cbn in Hx1.
  destruct (revoke_loop now token rest x1) as [[r1 f1] x2] eqn:E. intros H. apply (IH x1 r1 f1 x2) in E; [|done..].
  destruct e as [e|]; [destruct (isUnknownTokenErr e)|]; by injection H as _ _ <-.
Qed.

Lemma revoke_loop_keeps now t token rest x r f x' n ti : rest ⊆ issuers -> inv x -> revocable token -> now <= t -> (n, ti) ∈ issuers ->
  revoke_loop now token rest x = (r, f, x') -> rejects ti t token x -> rejects ti t token x'.
Proof.
  intros Hin Hx Hq Ht Hti. revert x r f x' Hx. induction rest as [|[n' ti'] rest IH]; intros x r f x' Hx; cbn [revoke_loop]; [by intros [= _ _ <-]|].
  assert (rest ⊆ issuers) as Hr by set_solver. specialize (IH Hr). destruct (accepts_format ti' token); cbn [negb]; [|by apply IH].
  pose proof (rv_inv_revoke n' ti' now token x ltac:(set_solver) Hx) as Hx1.
  pose proof (rv_keep_revoke n ti n' ti' now t token token x Hti ltac:(set_solver) Hx Hq Ht) as Hk.
  destruct (ti_Revoke ti' now token x) as [e x1]. cbn in Hx1, Hk. destruct (revoke_loop now token rest x1) as [[r1 f1] x2] eqn:E.
  intros H Hrej. specialize (IH x1 r1 f1 x2 Hx1 E (Hk Hrej)). destruct e as [e|]; [destruct (isUnknownTokenErr e)|]; by injection H as _ _ <-.
Qed.

(** The issuer [ti] did not know the token it was told to revoke. *)
Definition did_not_know (ti : TokenIssuer X) (now : Z) (token : string) : Prop :=
  exists x x' e, ti_Revoke ti now token x = (Some e, x') /\ isUnknownTokenErr e = true.

Lemma revoke_loop_rejects now token rest x r x' : rest ⊆ issuers -> inv x -> revocable token -> revoke_loop now token rest x = (r, [], x') ->
  forall n ti, (n, ti) ∈ rest -> accepts_format ti token = true ->
  (forall t, now <= t -> rejects ti t token x') \/ did_not_know ti now token /\ rejects ti now token x'.
Proof.
  intros Hin Hx Hq. revert x r x' Hx. induction rest as [|[n' ti'] rest IH]; intros x r x' Hx; cbn [revoke_loop]; [by intros _ n ti []%elem_of_nil|].
  assert (rest ⊆ issuers) as Hr by set_solver. specialize (IH Hr). destruct (accepts_format ti' token) eqn:Ha; cbn [negb].
  2: { intros H n ti [[= -> ->]|Hi]%elem_of_cons Ha'; [congruence|by eapply IH]. }
  pose proof (rv_inv_revoke n' ti' now token x ltac:(set_solver) Hx) as Hx1. destruct (ti_Revoke ti' now token x) as [e x1] eqn:Hrev. cbn in Hx1.
  destruct (revoke_loop now token rest x1) as [[r1 f1] x2] eqn:E. intros H.
  assert (f1 = [] /\ x2 = x' /\ match e with None => True | Some e => isUnknownTokenErr e = true end) as (-> & -> & He).
  { destruct e as [e|]; [destruct (isUnknownTokenErr e)|]; by simplify_eq. }
  intros n ti [[= -> ->]|Hi]%elem_of_cons Ha'; [|by eapply IH].
  destruct e as [e|]; [right|left].
  - split; [by exists x, x1, e|]. eapply (revoke_loop_keeps now now token rest x1 _ _ _ n' ti'); [done..|lia|set_solver|exact E|]. exact (rv_unknown n' ti' now token x x1 e ltac:(set_solver) Hx Hrev He).
  - intros t Ht. eapply (revoke_loop_keeps now t token rest x1 _ _ _ n' ti'); [done..|set_solver|exact E|]. exact (rv_revoked n' ti' now token x x1 t ltac:(set_solver) Hx Hq Hrev Ht).
Qed.

(** When every issuer rejects a token, so does the server. *)
Lemma validate_loop_rejected t token check rest o r (w : Front) : rest ⊆ issuers -> inv (fr_issuers w) -> revocable token ->
  (forall n ti, (n, ti) ∈ rest -> accepts_format ti token = true -> rejects ti t token (fr_issuers w)) ->
  exists e, (validate_loop d.(in_front) issuers t token check rest o r w).1 = Err e.
Proof.
  intros Hin Hx Hq. revert o r w Hx. induction rest as [|[n ti] rest IH]; intros o r w Hx Hrej; cbn [validate_loop]; [by eexists|].
  assert (rest ⊆ issuers) as Hr by set_solver. specialize (IH Hr). destruct (accepts_format ti token) eqn:Ha; cbn [negb].
  2: { apply IH; [done|]. intros n' ti' Hi. apply (Hrej n' ti'). set_solver. }
  destruct (Hrej n ti ltac:(set_solver) Ha) as [e He].
  pose proof (rv_inv_validate n ti t token (fr_issuers w) ltac:(set_solver) Hx) as Hx1.
  assert (forall n' ti', (n', ti') ∈ rest -> accepts_format ti' token = true -> rejects ti' t token (ti_Validate ti t token (fr_issuers w)).2) as Hk.
  { intros n' ti' Hi Ha'. eapply (rv_keep_validate n' ti' n ti t t); [set_solver|set_solver|done|done|lia|]. apply (Hrej n' ti'); [set_solver|done]. }
  destruct (ti_Validate ti t token (fr_issuers w)) as [v x1]. cbn in He, Hx1, Hk. subst v. by apply (IH _ _ (set_issuers x1 w)).
Qed.

Lemma validate_mode_rejected t token check (w : Front) : inv (fr_issuers w) -> revocable token ->
  (forall n ti, (n, ti) ∈ issuers -> accepts_format ti token = true -> rejects ti t token (fr_issuers w)) ->
  exists e, (validateAnyTokenMode c fd issuers t token check w).1 = Err e.
Proof. intros. unfold validateAnyTokenMode. destruct (negb _); [by eexists|]. by apply validate_loop_rejected. Qed.

Lemma validate_loop_inv t token check rest o r (w : Front) : rest ⊆ issuers -> inv (fr_issuers w) ->
  inv (fr_issuers (validate_loop fd issuers t token check rest o r w).2).
Proof.
  intros Hin. revert o r w. induction rest as [|[n ti] rest IH]; intros o r w Hx; cbn [validate_loop]; [done|].
  assert (rest ⊆ issuers) as Hr by set_solver. specialize (IH Hr). destruct (negb _); [by apply IH|].
  pose proof (rv_inv_validate n ti t token (fr_issuers w) ltac:(set_solver) Hx) as Hx1.
  destruct (ti_Validate ti t token (fr_issuers w)) as [[cl|e] x1]; cbn in Hx1; [|by apply (IH _ _ (set_issuers x1 w))].
  destruct check; [|done]. unfold checkAnyTokenEligibility. destruct (checkTenantNotSuspended_frame (fd_tenantSuspension fd) t cl (set_issuers x1 w)) as [s Hs].
  destruct (checkTenantNotSuspended _ _ _ _) as [ok w1]. cbn in Hs. subst w1. by destruct (if negb ok then _ else _).
Qed.

(** What is known after the inspection of a token that turned out to be the client's. *)
Lemma inspect_owned now token id (w w' : Front) b : inv (fr_issuers w) -> inspectRevokeTokenBinding c d issuers now token id w = (Some (b, true), w') ->
  inv (fr_issuers w') /\
  (match rb_refresh b with
   | Some info => exists m, fr_refresh w' = Some m /\ entries m !! token = Some info /\ rt_ClientID info = id
   | None => rb_access b = true /\ forall m, fr_refresh w' = Some m -> entries m !! token = None
   end).
Proof.
  intros Hx. unfold inspectRevokeTokenBinding. cbv zeta.
  assert (inv (fr_issuers (ValidateAnyTokenForRevocation c fd issuers now token w).2)) as Hx1.
  { unfold ValidateAnyTokenForRevocation, validateAnyTokenMode. destruct (negb _); [done|]. by apply validate_loop_inv. }
  assert (forall access (w0 : Front), inv (fr_issuers w0) ->
    match inspect_refresh now token w0 with
    | (None, w1) => (Some ({| rb_access := access; rb_refresh := None |}, access), w1)
    | (Some info, w1) => if negb (bool_decide (rt_ClientID info = id)) then (Some (no_binding, false), w1) else (Some ({| rb_access := access; rb_refresh := Some info |}, true), w1)
    end = (Some (b, true), w') ->
    inv (fr_issuers w') /\ match rb_refresh b with
     | Some info => exists m, fr_refresh w' = Some m /\ entries m !! token = Some info /\ rt_ClientID info = id
     | None => rb_access b = true /\ forall m, fr_refresh w' = Some m -> entries m !! token = None end) as Hmain.
  { intros access w0 Hx0. destruct (inspect_refresh now token w0) as [[info|] w1] eqn:Hi.
    - apply inspect_refresh_Some in Hi as (m & Hm & He & _ & ->). destruct (bool_decide _) eqn:Hid; cbn [negb]; [|done]. intros [= <- <-]. split; [done|].
      exists m. apply bool_decide_eq_true in Hid. by split_and!.
    - intros [= <- -> <-]. unfold inspect_refresh in Hi. destruct (fr_refresh w0) as [m|] eqn:Hm.
      + unfold Inspect in Hi. destruct (entries m !! token) as [i|] eqn:He; [destruct (RefreshToken_IsExpired now i)|]; [|done|]; injection Hi as <-; cbn; split; try done;
          split; try done; intros m' [= <-]; [apply lookup_delete_eq|done].
      + injection Hi as <-. split; [done|]. split; [done|]. intros m'. congruence. }
  destruct (ValidateAnyTokenForRevocation c fd issuers now token w) as [[[claims name]|e] w1]; cbn in Hx1.
  - destruct (IsAccessTokenClaims _); [|by apply Hmain]. destruct (negb _); [done|by apply Hmain].
  - destruct e; try done. by apply Hmain.
Qed.

Lemma authenticateRevoke_frame now q (w : Front) : exists rp, (authenticateRevokeClient c ap d now q w).2 = set_replay rp w.
Proof.
  assert (exists rp, w = set_replay rp w) by (exists (fr_replay w); by destruct w).
  unfold authenticateRevokeClient. destruct (has_assertion q); [|done]. destruct (_ || _ || _); [done|].
  unfold authenticateRevokeAssertion, verify_assertion. destruct (negb _); [done|]. destruct (verifyJWTClientAssertion _ _ _ _ _ _ _ _ _ _ _ _ _) as [[id|e] rp]; by exists rp.
Qed.

(** What the revocation of a bound token leaves. *)
Definition after_refresh (token : string) (b : revokeTokenBinding) (m : option MemoryRefreshTokenStore) : option MemoryRefreshTokenStore :=
  match rb_refresh b with
  | None => m
  | Some info => (fun m => if negb (bool_decide (rt_FamilyID info = "")) then (DeleteFamily (rt_FamilyID info) m).2 else Delete token m) <$> m
  end.

Lemma access_effect now token (access : bool) (w w' : Front) : (if access then revokeAccess issuers now token w else (true, w)) = (true, w') ->
  (if access then exists rv, revoke_loop now token issuers (fr_issuers w) = (rv, [], fr_issuers w') else fr_issuers w' = fr_issuers w) /\
  fr_refresh w' = fr_refresh w.
Proof.
  destruct access; [|by intros [= <-]]. unfold revokeAccess, revokeAcrossIssuers. destruct (bool_decide _); [done|].
  destruct (revoke_loop now token issuers (fr_issuers w)) as [[rv f] x]. intros H. injection H as Hf <-. apply bool_decide_eq_true in Hf. subst f.
  unfold InvalidateIntrospectionCache. destruct (decide _); split; try done; by exists rv.
Qed.
Lemma refresh_effect token b (w w' : Front) : (match rb_refresh b with Some info => revokeRefresh token info w | None => (true, w) end) = (true, w') ->
  fr_refresh w' = after_refresh token b (fr_refresh w) /\ fr_issuers w' = fr_issuers w.
Proof.
  unfold after_refresh, revokeRefresh. destruct (rb_refresh b) as [info|]; [|by intros [= <-]]. destruct (fr_refresh w); [|done]. by intros [= <-].
Qed.

Lemma invalidate_effect token (w : Front) : token <> "" ->
  fr_issuers (InvalidateIntrospectionCache token w) = fr_issuers w /\ fr_refresh (InvalidateIntrospectionCache token w) = fr_refresh w /\
  forall ch, fr_cache (InvalidateIntrospectionCache token w) = Some ch -> ca_entries ch !! tokenHash token = None.
Proof.
  intros Hne. unfold InvalidateIntrospectionCache. destruct (decide _); [done|]. split_and!; [done..|]. cbn. intros ch Hch.
  destruct (fr_cache w); [|done]. injection Hch as <-. apply lookup_delete_eq.
Qed.

Lemma revokeBound_effect now r b (w w' : Front) : vq_Token r <> "" -> revokeBoundToken issuers now r b w = (true, w') ->
  (if rb_access b then exists rv, revoke_loop now (vq_Token r) issuers (fr_issuers w) = (rv, [], fr_issuers w') else fr_issuers w' = fr_issuers w) /\
  fr_refresh w' = after_refresh (vq_Token r) b (fr_refresh w) /\
  forall ch, fr_cache w' = Some ch -> ca_entries ch !! tokenHash (vq_Token r) = None.
Proof.
  intros Hne. unfold revokeBoundToken. cbv zeta. set (acc := fun w0 => if rb_access b then _ else _). set (ref := fun w0 => match rb_refresh b with Some _ => _ | None => _ end).
  destruct ((if decide _ then both ref acc else both acc ref) w) as [ok w3] eqn:Hb. intros H. injection H as -> <-.
  destruct (invalidate_effect (vq_Token r) w3 Hne) as (-> & -> & Hc).
  assert ((if rb_access b then exists rv, revoke_loop now (vq_Token r) issuers (fr_issuers w) = (rv, [], fr_issuers w3) else fr_issuers w3 = fr_issuers w) /\
    fr_refresh w3 = after_refresh (vq_Token r) b (fr_refresh w)) as [H1 H2]; [|by split_and!].
  destruct (decide _); unfold both in Hb.
  - destruct (ref w) as [o1 w1] eqn:Hr. destruct (acc w1) as [o2 w2] eqn:Ha. injection Hb as Ho <-. apply andb_true_iff in Ho as [-> ->].
    apply refresh_effect in Hr as [Hr1 Hr2]. apply access_effect in Ha as [Ha1 Ha2]. rewrite Hr2 in Ha1. split; [done|congruence].
  - destruct (acc w) as [o1 w1] eqn:Ha. destruct (ref w1) as [o2 w2] eqn:Hr. injection Hb as Ho <-. apply andb_true_iff in Ho as [-> ->].
    apply refresh_effect in Hr as [Hr1 Hr2]. apply access_effect in Ha as [Ha1 Ha2]. rewrite Hr2. split; [done|congruence].
Qed.

(** A token that is in no store and rejected by every issuer introspects as inactive. *)
Lemma introspect_gone t token hint (w : Front) : inv (fr_issuers w) -> revocable token ->
  (forall n ti, (n, ti) ∈ issuers -> accepts_format ti token = true -> rejects ti t token (fr_issuers w)) ->
  (forall m, fr_refresh w = Some m -> entries m !! token = None) -> (forall ch, fr_cache w = Some ch -> ca_entries ch !! tokenHash token = None) ->
  (introspectOne c d issuers t token hint w).1 = inactive_body.
Proof.
  intros Hx Hq Hrej Href Hc. assert (forall w0 : Front, fr_issuers w0 = fr_issuers w -> exists w1, introspectAccess c d issuers t token w0 = (None, w1) /\ fr_refresh w1 = fr_refresh w0) as Hacc.
  { intros w0 E. unfold introspectAccess. destruct (bool_decide _); [by eexists|].
    destruct (validate_mode_rejected t token true w0) as [e He]; [by rewrite E|done|by rewrite E|].
    pose proof (validateAnyToken_frame c fd issuers t token w0) as (x & s & Hf). unfold validateAnyToken in *.
    destruct (validateAnyTokenMode _ _ _ _ _ _ _) as [v w1]. cbn in He, Hf. subst v w1. by eexists. }
  assert (forall w0 : Front, fr_refresh w0 = fr_refresh w -> exists w1, introspectRefresh t token w0 = (None, w1) /\ fr_issuers w1 = fr_issuers w0) as Hr.
  { intros w0 E. unfold introspectRefresh, inspect_refresh. rewrite E. destruct (fr_refresh w) as [m|]; [|by eexists]. unfold Inspect. rewrite (Href m eq_refl). by eexists. }
  assert (exists w1, resolveIntrospection c d issuers t token hint w = (None, w1)) as [w1 Hres].
  { unfold resolveIntrospection, or_else. destruct (decide _).
    - destruct (Hr w eq_refl) as (w1 & -> & E). destruct (Hacc w1 E) as (w2 & -> & _). by eexists.
    - destruct (Hacc w eq_refl) as (w1 & -> & E). destruct (Hr w1 E) as (w2 & -> & _). by eexists. }
  unfold introspectOne, introspect_begin. assert (fr_cache w ≫= cache_get t (tokenHash token) = None) as ->.
  { destruct (fr_cache w) as [ch|]; [|done]. change (cache_get t (tokenHash token) ch = None). unfold cache_get. by rewrite (Hc ch eq_refl). }
  by rewrite Hres.
Qed.

End effect.

(** ** Issuers that keep the promise *)

Section implementation.
Context {PK SK : Type} (verify : PK -> list ascii -> list Z -> bool).
Context (UnmarshalHeader : list Z -> option Header) (UnmarshalPayload : list Z -> option Payload) (v : Variant).
Notation validate := (JwtIssuer.Validate verify UnmarshalHeader UnmarshalPayload v).
Notation token_payload := (JwtIssuer.token_payload UnmarshalPayload).
Notation Both := ((@JWTIssuer PK SK * option RevocationSet) * Opaque)%type.

Definition rejected (msg : string) : issuer_error := {| ie_rejected := true; ie_msg := msg |}.
Definition to_rejected {E A} (r : result E A) : result issuer_error A := match r with Ok a => Ok a | Err _ => Err (rejected "") end.

(** The JWT issuer and the session issuer of a server, side by side; the first knows its
    tokens by their form. *)
Definition jwt_token_issuer : TokenIssuer Both := {|
  ti_Accepts := Some AcceptsTokenFormat;
  ti_Validate := fun now token x => (to_rejected (validate now token x.1.1), x);
  ti_Revoke := fun now token x =>
    let '(r, js) := Revoke verify UnmarshalHeader UnmarshalPayload v now true token x.1 in
    (match r with Ok _ => None | Err _ => Some (rejected "") end, (js, x.2)) |}.
Definition session_token_issuer : TokenIssuer Both := {|
  ti_Accepts := None;
  ti_Validate := fun now token x => let '(r, o) := ValidateOpaque now token x.2 in (to_rejected r, (x.1, o));
  ti_Revoke := fun _ token x =>
    let '(r, o) := RevokeOpaque token x.2 in
    (match r with Ok _ => None | Err _ => Some {| ie_rejected := false; ie_msg := "jwt: token not found" |} end, (x.1, o)) |}.
Definition two_issuers : list (string * TokenIssuer Both) := [("jwt", jwt_token_issuer); ("session", session_token_issuer)].

(** At most a second of clock skew; every entry of the deny-set is dated by its token. *)
Definition two_inv (x : Both) : Prop :=
  ji_maxClockSkew x.1.1 <= GoTime.Second /\
  forall token e, ji_revoked x.1.1 !! token = Some e -> exists p, token_payload token = Some p /\ p_Exp p = e.
(** The token, if it is a JWT, expires. *)
Definition expires (token : string) : Prop := forall p, token_payload token = Some p -> p_Exp p <> 0.

(** A denied token is not accepted, in the deny-set or out of date. *)
Lemma denied t token (j : @JWTIssuer PK SK) c p : ji_maxClockSkew j <= GoTime.Second -> token_payload token = Some p -> p_Exp p <> 0 ->
  denies t token (p_Exp p) (ji_revoked j) -> validate t token j <> Ok c.
Proof.
  intros Hskew Hp He [_ Hd] Hv. apply validate_payload in Hv as (p' & h & Hp' & -> & Hn & Hc). assert (p' = p) as -> by congruence.
  destruct Hd as [|Hlt]; [congruence|]. unfold JwtIssuer.token_payload in Hp. destruct (jws_parts token) as [|p0 [|p1 [|p2 [|]]]]; try done. cbn [nth] in Hc.
  apply bind_Some in Hp as (bytes & Hb & Hu). by rewrite (expired_rejected UnmarshalPayload t j p1 p bytes) in Hc.
Qed.

(** Only the presence of a token in the deny-set matters to its validation. *)
Lemma validate_set_revoked t token (j : @JWTIssuer PK SK) m c : ji_revoked j !! token = None -> validate t token (set_revoked j m) = Ok c -> validate t token j = Ok c.
Proof.
  unfold JwtIssuer.Validate, validateJWT. destruct (jws_parts token) as [|p0 [|p1 [|p2 [|]]]]; try done. intros ->. cbn [ji_revoked set_revoked].
  by destruct (m !! token).
Qed.

Lemma revoke_cases now token (x : Both) r js : Revoke verify UnmarshalHeader UnmarshalPayload v now true token x.1 = (r, js) ->
  (exists e, r = Err e /\ validate now token x.1.1 = Err e /\ js = x.1) \/
  (exists p, r = Ok () /\ token_payload token = Some p /\ js.1 = set_revoked x.1.1 (markRevoked now token (p_Exp p) (ji_revoked x.1.1))).
Proof.
  destruct x as [[j store] o]. cbn [fst]. unfold Revoke. destruct (validate now token j) as [claims|e] eqn:Hv; [|intros [= <- <-]; left; by exists e].
  apply validate_payload in Hv as (p & h & Hp & -> & _). intros [= <- <-]. right. exists p. cbn [tc_ExpiresAt claimsFromPayload fst]. by rewrite unix_Unix.
Qed.

Lemma mark_inv now token (x : Both) p m : two_inv x -> token_payload token = Some p -> m = markRevoked now token (p_Exp p) (ji_revoked x.1.1) ->
  forall tok e, m !! tok = Some e -> exists p, token_payload tok = Some p /\ p_Exp p = e.
Proof.
  intros [_ Hx] Hp -> tok e He. apply prune_lookup in He as [He _]. apply lookup_insert_Some in He as [[<- <-]|[_ He]]; [by exists p|by apply Hx].
Qed.

Lemma jwt_keeps now t token tok' x : two_inv x -> expires token -> now <= t -> rejects jwt_token_issuer t token x -> rejects jwt_token_issuer t token (ti_Revoke jwt_token_issuer now tok' x).2.
Proof.
  intros Hx Hq Ht [e He]. unfold rejects. cbn [jwt_token_issuer ti_Revoke ti_Validate] in *.
  destruct (Revoke _ _ _ _ now true tok' x.1) as [r js] eqn:Hr. cbn [fst snd] in *. apply revoke_cases in Hr as [(e' & _ & _ & ->)|(p' & _ & Hp' & Hj)]; [by exists e|].
  rewrite Hj. destruct (validate t token (set_revoked x.1.1 _)) as [cl|] eqn:Hv; [exfalso|by eexists].
  destruct (ji_revoked x.1.1 !! token) as [e0|] eqn:Hn; [|by rewrite (validate_set_revoked _ _ _ _ _ Hn Hv) in He].
  destruct Hx as [Hskew Hdated]. destruct (Hdated token e0 Hn) as (p & Hp & <-). revert Hv. apply (denied t token _ cl p); [exact Hskew|done|by apply Hq|].
  apply (denies_later now); [done|]. apply (denies_mark now); [lia|by intros ->; congruence|]. split; [intros e1; congruence|by left].
Qed.

(** A session token is rejected when it is not there or expired. *)
Lemma session_rejects t token x : rejects session_token_issuer t token x <->
  forall cl, op_tokens x.2 !! token = Some cl -> (0 <? GoTime.Since t (tc_ExpiresAt cl)) = true.
Proof.
  unfold rejects. cbn [session_token_issuer ti_Validate]. unfold ValidateOpaque. destruct (op_tokens x.2 !! token) as [cl|].
  - destruct (0 <? _) eqn:E; cbn; split; [by intros _ ? [= <-]|by eexists|by intros [e He]|]. intros H. by rewrite (H cl eq_refl) in E.
  - split; [done|]. intros _. by eexists.
Qed.
Lemma session_shrinks t token x x' : op_tokens x'.2 ⊆ op_tokens x.2 -> rejects session_token_issuer t token x -> rejects session_token_issuer t token x'.
Proof. rewrite !session_rejects. intros Hs H cl Hcl. apply H. by eapply lookup_weaken. Qed.
Lemma session_ops_shrink now token (x : Both) :
  op_tokens (ti_Validate session_token_issuer now token x).2.2 ⊆ op_tokens x.2 /\ op_tokens (ti_Revoke session_token_issuer now token x).2.2 ⊆ op_tokens x.2.
Proof.
  cbn [session_token_issuer ti_Validate ti_Revoke]. unfold ValidateOpaque, RevokeOpaque.
  destruct (op_tokens x.2 !! token) as [cl|]; [destruct (0 <? _)|]; cbn; split; try done; apply delete_subseteq.
Qed.

#[export] Instance two_issuers_revocable : Revocable two_issuers two_inv expires.
Proof.
  split.
  - intros n ti now token x [[= -> ->]|[[= -> ->]|[]%elem_of_nil]%elem_of_cons]%elem_of_cons Hx; [exact Hx|]. cbn. by destruct (ValidateOpaque now token x.2).
  - intros n ti now token x [[= -> ->]|[[= -> ->]|[]%elem_of_nil]%elem_of_cons]%elem_of_cons Hx; [|cbn; by destruct (RevokeOpaque token x.2)].
    cbn [jwt_token_issuer ti_Revoke]. destruct (Revoke _ _ _ _ now true token x.1) as [r js] eqn:Hr.
    apply revoke_cases in Hr as [(e & _ & _ & ->)|(p & _ & Hp & Hj)]; [exact Hx|]. split; cbn [fst snd]; rewrite Hj; [apply Hx|by eapply mark_inv].
  - intros n ti now token x x' t [[= -> ->]|[[= -> ->]|[]%elem_of_nil]%elem_of_cons]%elem_of_cons Hx Hq Hr Ht; unfold rejects; cbn [jwt_token_issuer session_token_issuer ti_Revoke ti_Validate] in *.
    + destruct (Revoke _ _ _ _ now true token x.1) as [r js] eqn:Hrev. destruct r; [|done]. injection Hr as <-.
      apply revoke_cases in Hrev as [(e & He & _)|(p & _ & Hp & Hj)]; [done|]. cbn [fst]. rewrite Hj.
      destruct (validate t token _) as [cl|] eqn:Hv; [exfalso; revert Hv|by eexists]. apply (denied t token _ cl p); [apply Hx|done|by apply Hq|].
      apply (denies_later now); [done|]. apply marked_denies.
    + unfold RevokeOpaque in Hr. destruct (op_tokens x.2 !! token); [|done]. injection Hr as <-. unfold ValidateOpaque. cbn. rewrite lookup_delete_eq. by eexists.
  - intros n ti now token x x' e [[= -> ->]|[[= -> ->]|[]%elem_of_nil]%elem_of_cons]%elem_of_cons Hx Hr _; unfold rejects; cbn [jwt_token_issuer session_token_issuer ti_Revoke ti_Validate] in *.
    + destruct (Revoke _ _ _ _ now true token x.1) as [r js] eqn:Hrev. destruct r; [done|]. injection Hr as _ <-.
      apply revoke_cases in Hrev as [(e' & _ & He & ->)|(p & He & _)]; [|done]. cbn [fst]. rewrite He. by eexists.
    + unfold RevokeOpaque in Hr. destruct (op_tokens x.2 !! token) eqn:Ho; [done|]. injection Hr as _ <-. unfold ValidateOpaque. cbn. rewrite Ho. by eexists.
  - intros n ti n' ti' now t token tok' x [[= -> ->]|[[= -> ->]|[]%elem_of_nil]%elem_of_cons]%elem_of_cons
      [[= -> ->]|[[= -> ->]|[]%elem_of_nil]%elem_of_cons]%elem_of_cons Hx Hq Ht Hrej; try exact Hrej.
    + cbn. by destruct (ValidateOpaque now tok' x.2).
    + apply (session_shrinks _ _ x); [apply session_ops_shrink|exact Hrej].
  - intros n ti n' ti' now t token tok' x [[= -> ->]|[[= -> ->]|[]%elem_of_nil]%elem_of_cons]%elem_of_cons
      [[= -> ->]|[[= -> ->]|[]%elem_of_nil]%elem_of_cons]%elem_of_cons Hx Hq Ht Hrej.
    + by apply jwt_keeps.
    + cbn. by destruct (RevokeOpaque tok' x.2).
    + apply (session_shrinks _ _ x); [|exact Hrej]. cbn [jwt_token_issuer ti_Revoke]. by destruct (Revoke _ _ _ _ now true tok' x.1).
    + apply (session_shrinks _ _ x); [apply session_ops_shrink|exact Hrej].
Qed.
End implementation.

Lemma bound_frame {X} (issuers : list (string * TokenIssuer X)) now r b (w w' : Front IBody X) ok : revokeBoundToken issuers now r b w = (ok, w') ->
  (rb_access b = false -> fr_issuers w' = fr_issuers w) /\ (rb_refresh b = None -> fr_refresh w' = fr_refresh w) /\
  (forall info m, rb_refresh b = Some info -> fr_refresh w = Some m ->
     fr_refresh w' = Some (if negb (bool_decide (rt_FamilyID info = "")) then (DeleteFamily (rt_FamilyID info) m).2 else Delete (vq_Token r) m)).
Proof.
  unfold revokeBoundToken. cbv zeta. set (acc := fun w0 => if rb_access b then _ else _). set (ref := fun w0 => match rb_refresh b with Some _ => _ | None => _ end).
  assert (forall w0 : Front IBody X, (rb_access b = false -> fr_issuers (acc w0).2 = fr_issuers w0) /\ fr_refresh (acc w0).2 = fr_refresh w0) as Ha.
  { intros w0. unfold acc. destruct (rb_access b); [split; [done|]|done]. unfold revokeAccess, revokeAcrossIssuers. destruct (bool_decide _); [done|].
    destruct (revoke_loop _ _ _ _) as [[rv f] x]. unfold InvalidateIntrospectionCache. by destruct (decide _). }
  assert (forall w0 : Front IBody X, fr_issuers (ref w0).2 = fr_issuers w0 /\ (rb_refresh b = None -> fr_refresh (ref w0).2 = fr_refresh w0) /\
    forall info m, rb_refresh b = Some info -> fr_refresh w0 = Some m ->
      fr_refresh (ref w0).2 = Some (if negb (bool_decide (rt_FamilyID info = "")) then (DeleteFamily (rt_FamilyID info) m).2 else Delete (vq_Token r) m)) as Hr.
  { intros w0. unfold ref, revokeRefresh. destruct (rb_refresh b) as [info|]; [|done]. destruct (fr_refresh w0) as [m|]; split_and!; try done. by intros ? ? [= <-] [= <-]. }
  clearbody acc ref. destruct ((if decide _ then both ref acc else both acc ref) w) as [o w3] eqn:Hb. intros H. injection H as _ H.
  assert (fr_issuers w' = fr_issuers w3 /\ fr_refresh w' = fr_refresh w3) as [-> ->].
  { rewrite <- H. unfold InvalidateIntrospectionCache. destruct (decide (vq_Token r = "")); done. }
  destruct (decide _); unfold both in Hb.
  - destruct (Hr w) as (R1 & R2 & R3). destruct (ref w) as [o1 w1]. destruct (Ha w1) as [A1 A2]. destruct (acc w1) as [o2 w2]. injection Hb as _ <-. cbn in *.
    split_and!; [intros E; by rewrite A1|by rewrite A2|intros; rewrite A2; auto].
  - destruct (Ha w) as [A1 A2]. destruct (acc w) as [o1 w1]. destruct (Hr w1) as (R1 & R2 & R3). destruct (ref w1) as [o2 w2]. injection Hb as _ <-. cbn in *.
    split_and!; [intros E; by rewrite R1, A1|intros E; by rewrite R2|intros info m E Hm; apply R3; [done|congruence]].
Qed.

(** ** Whose tokens *)

Section owners.
Context {X : Type}.
Notation Front := (Front IBody X).
Context (c : Primitives) (ap : AuthPrimitives) (d : IntrospectDeps).
Context (issuers : list (string * TokenIssuer X)).
Notation fd := (in_front d).
Notation validated_for now token w := (ValidateAnyTokenForRevocation c fd issuers now token w).

Lemma forRevocation_frame now token (w : Front) : exists x s, (validated_for now token w).2 = validated x s w.
Proof.
  unfold ValidateAnyTokenForRevocation, validateAnyTokenMode. destruct (negb _); [|apply validate_loop_frame].
  exists (fr_issuers w), (fr_suspension w). by rewrite validated_id.
Qed.

(** The inspection moves the issuers as validation does and drops at most an expired
    entry; it calls the token owned only when the claims or the entry name the client. *)
Lemma inspect_facts now token id (w w' : Front) o : inspectRevokeTokenBinding c d issuers now token id w = (o, w') ->
  fr_issuers w' = fr_issuers (validated_for now token w).2 /\
  (forall m, fr_refresh w = Some m -> exists m', fr_refresh w' = Some m' /\
     forall tok e, entries m !! tok = Some e -> RefreshToken_IsExpired now e = false -> entries m' !! tok = Some e) /\
  (forall m', fr_refresh w' = Some m' -> exists m, fr_refresh w = Some m /\ entries m' ⊆ entries m) /\
  forall b, o = Some (b, true) ->
    (rb_access b = true -> exists claims name, (validated_for now token w).1 = Ok (claims, name) /\ tc_ClientID claims = id) /\
    (forall info, rb_refresh b = Some info -> exists m, fr_refresh w' = Some m /\ entries m !! token = Some info /\ rt_ClientID info = id).
Proof.
  unfold inspectRevokeTokenBinding. cbv zeta. destruct (forRevocation_frame now token w) as (x & s & Hf).
  destruct (validated_for now token w) as [v w1]. cbn in Hf. subst w1.
  assert (forall m, fr_refresh w = Some m -> exists m', fr_refresh w = Some m' /\
     forall tok e, entries m !! tok = Some e -> RefreshToken_IsExpired now e = false -> entries m' !! tok = Some e) as Hsame by (intros m Hm; by exists m).
  assert (forall m', fr_refresh w = Some m' -> exists m, fr_refresh w = Some m /\ entries m' ⊆ entries m) as Hsub by (intros m' Hm'; by exists m').
  assert (forall (access : bool) o', (access = true -> exists claims name, v = Ok (claims, name) /\ tc_ClientID claims = id) ->
    match inspect_refresh now token (validated x s w) with
    | (None, w1) => (Some ({| rb_access := access; rb_refresh := None |}, access), w1)
    | (Some info, w1) => if negb (bool_decide (rt_ClientID info = id)) then (Some (no_binding, false), w1) else (Some ({| rb_access := access; rb_refresh := Some info |}, true), w1)
    end = (o', w') -> fr_issuers w' = x /\
  (forall m, fr_refresh w = Some m -> exists m', fr_refresh w' = Some m' /\
     forall tok e, entries m !! tok = Some e -> RefreshToken_IsExpired now e = false -> entries m' !! tok = Some e) /\
  (forall m', fr_refresh w' = Some m' -> exists m, fr_refresh w = Some m /\ entries m' ⊆ entries m) /\
  forall b, o' = Some (b, true) -> (rb_access b = true -> exists claims name, v = Ok (claims, name) /\ tc_ClientID claims = id) /\
    (forall info, rb_refresh b = Some info -> exists m, fr_refresh w' = Some m /\ entries m !! token = Some info /\ rt_ClientID info = id)) as Hmain.
  { intros access o' Hacc. destruct (inspect_refresh now token (validated x s w)) as [[info|] w1] eqn:Hi.
    - apply inspect_refresh_Some in Hi as (m & Hm & He & _ & ->). destruct (bool_decide _) eqn:Hid; cbn [negb]; intros [= <- <-]; (split_and!; [done..|]); intros b [= <-].
      split; [done|]. intros ? [= <-]. exists m. apply bool_decide_eq_true in Hid. by split_and!.
    - intros [= <- <-]. unfold inspect_refresh in Hi. cbn [fr_refresh validated set_suspension set_issuers] in Hi.
      destruct (fr_refresh w) as [m|] eqn:Hm; [|injection Hi as <-; split_and!; [done..|cbn; by rewrite Hm|intros b [= <- ->]; split; [done|done]]].
      unfold Inspect in Hi. destruct (entries m !! token) as [i|] eqn:He; [destruct (RefreshToken_IsExpired now i) eqn:Hx; [|done]|]; injection Hi as <-; cbn.
      + split_and!; [done| | |intros b [= <- ->]; split; [done|done]].
        * intros ? [= <-]. eexists. split; [done|]. intros tok e Ht Hne. cbn. rewrite lookup_delete_ne; [done|]. intros ->. congruence.
        * intros ? [= <-]. exists m. split; [done|]. apply delete_subseteq.
      + split_and!; [done..|intros b [= <- ->]; split; [done|done]]. }
  destruct v as [[claims name]|e].
  - destruct (IsAccessTokenClaims _); [|by apply Hmain]. destruct (bool_decide (tc_ClientID claims = id)) eqn:Hid; cbn [negb].
    + apply Hmain. intros _. apply bool_decide_eq_true in Hid. by eexists _, _.
    + intros [= <- <-]. split_and!; done.
  - destruct e; [apply Hmain; done|..]; intros [= <- <-]; split_and!; done.
Qed.

Lemma validate_loop_replay now t rest o1 o2 (w : Front) rp :
  (validate_loop fd issuers now t false rest o1 o2 (set_replay rp w)).1 = (validate_loop fd issuers now t false rest o1 o2 w).1 /\
  fr_issuers (validate_loop fd issuers now t false rest o1 o2 (set_replay rp w)).2 = fr_issuers (validate_loop fd issuers now t false rest o1 o2 w).2.
Proof.
  revert o1 o2 w. induction rest as [|[n ti] rest IH]; intros o1 o2 w; cbn [validate_loop]; [done|]. destruct (negb _); [apply IH|].
  cbn [fr_issuers set_replay]. destruct (ti_Validate ti now t (fr_issuers w)) as [[cl|e] x]; [done|]. apply (IH _ _ (set_issuers x w)).
Qed.
Lemma forRevocation_replay now t (w : Front) rp : (validated_for now t (set_replay rp w)).1 = (validated_for now t w).1 /\
  fr_issuers (validated_for now t (set_replay rp w)).2 = fr_issuers (validated_for now t w).2.
Proof. unfold ValidateAnyTokenForRevocation, validateAnyTokenMode. destruct (negb _); [done|]. apply validate_loop_replay. Qed.

(** C26 — A client takes back only what is its own: a live refresh token leaves the store
    in a revocation only when the client has authenticated and the token presented is a
    refresh token issued to it, the one that leaves or one of its family; and an issuer
    is told to revoke only an access token whose claims name the client. *)
Theorem revoke_only_own now r (w w' : Front) ans : HandleRevoke c ap d issuers now r w = (ans, w') ->
  (forall m tok e, fr_refresh w = Some m -> entries m !! tok = Some e -> RefreshToken_IsExpired now e = false ->
     (forall m', fr_refresh w' = Some m' -> entries m' !! tok = None) ->
     exists id info, (authenticateRevokeClient c ap d now (bind_basic (vq_auth r)) w).1 = Ok id /\ entries m !! vq_Token r = Some info /\
       rt_ClientID info = id /\ (tok = vq_Token r \/ rt_FamilyID info <> "" /\ rt_FamilyID e = rt_FamilyID info)) /\
  (fr_issuers w' = fr_issuers w \/ fr_issuers w' = fr_issuers (validated_for now (vq_Token r) w).2 \/
   exists id claims name, (authenticateRevokeClient c ap d now (bind_basic (vq_auth r)) w).1 = Ok id /\
     (validated_for now (vq_Token r) w).1 = Ok (claims, name) /\ tc_ClientID claims = id).
Proof.
  unfold HandleRevoke. destruct (authenticateRevoke_frame c ap d now (bind_basic (vq_auth r)) w) as [rp Hrp].
  destruct (authenticateRevokeClient c ap d now (bind_basic (vq_auth r)) w) as [[id|[st code]] w1]; cbn in Hrp; subst w1.
  2: { intros [= _ <-]. split; [|by left]. intros m tok e Hm He _ Hgone. by rewrite (Hgone m Hm) in He. }
  destruct (decide (vq_Token r = "")) as [Hemp|Hne]; [intros [= _ <-]; split; [|by left]; intros m tok e Hm He _ Hgone; by rewrite (Hgone m Hm) in He|].
  assert (forall t, (validated_for now t (set_replay rp w)).1 = (validated_for now t w).1 /\ fr_issuers (validated_for now t (set_replay rp w)).2 = fr_issuers (validated_for now t w).2) as Hvf.
  { intros t. apply forRevocation_replay. }
  destruct (inspectRevokeTokenBinding c d issuers now (vq_Token r) id (set_replay rp w)) as [o w2] eqn:Hi.
  pose proof (inspect_facts _ _ _ _ _ _ Hi) as (Hx & Hkeep & Hsub & Hown). cbn [fr_refresh set_replay] in Hkeep, Hsub. rewrite (proj2 (Hvf _)) in Hx.
  assert (forall w3, w3 = w2 -> (forall m tok e, fr_refresh w = Some m -> entries m !! tok = Some e -> RefreshToken_IsExpired now e = false ->
     (forall m', fr_refresh w3 = Some m' -> entries m' !! tok = None) -> False)) as Hno.
  { intros w3 -> m tok e Hm He Hl Hgone. destruct (Hkeep m Hm) as (m' & Hm' & Hk). specialize (Hk tok e He Hl). by rewrite (Hgone m' Hm') in Hk. }
  destruct o as [[b []]|]; [|intros [= _ <-]; (split; [intros; exfalso; eauto|by right; left])..].
  destruct (Hown b eq_refl) as [Hacc Href]. rewrite (proj1 (Hvf _)) in Hacc. destruct (revokeBoundToken issuers now r b w2) as [ok w3] eqn:Hb. intros [= _ <-].
  assert ((rb_access b = false -> fr_issuers w3 = fr_issuers w2) /\ (rb_refresh b = None -> fr_refresh w3 = fr_refresh w2) /\
    (forall info m, rb_refresh b = Some info -> fr_refresh w2 = Some m -> fr_refresh w3 = Some (if negb (bool_decide (rt_FamilyID info = "")) then (DeleteFamily (rt_FamilyID info) m).2 else Delete (vq_Token r) m))) as (H1 & H2 & H3).
  { revert Hb. apply bound_frame. }
  split.
  - intros m tok e Hm He Hl Hgone. destruct (rb_refresh b) as [info|] eqn:Hr; [|exfalso; rewrite H2 in Hgone by done; eauto].
    destruct (Href info eq_refl) as (m2 & Hm2 & Hi2 & Hcl). destruct (Hkeep m Hm) as (m2' & Hm2' & Hk). assert (m2' = m2) as -> by congruence. specialize (Hk tok e He Hl).
    destruct (Hsub m2 Hm2) as (m0 & Hm0 & Hsb). assert (m0 = m) as -> by congruence. exists id, info. split_and!; [done|by eapply lookup_weaken|done|].
    specialize (Hgone _ (H3 info m2 eq_refl Hm2)). destruct (bool_decide (rt_FamilyID info = "")) eqn:Hf; cbn [negb] in Hgone.
    + left. cbn in Hgone. apply lookup_delete_None in Hgone as [|Hgone]; [done|congruence].
    + right. apply bool_decide_eq_false in Hf. split; [done|]. unfold DeleteFamily in Hgone. destruct (decide _); [done|]. cbn in Hgone.
      apply delete_where_None in Hgone as [Hg|(e2 & Hg & Hfam)]; [congruence|]. assert (e2 = e) as -> by congruence. by apply bool_decide_eq_true in Hfam.
  - destruct (rb_access b) eqn:Hrb; [right; right|right; left; by rewrite H1]. destruct (Hacc eq_refl) as (cl & n & Hv & Hid). by exists id, cl, n.
Qed.

(** An introspection under way outlives a revocation: when the token is resolved
    before and the result is stored after the server has answered that the token is
    revoked, introspection goes on answering that the token is active for the time to
    live of the cache. *)
Theorem introspection_race t1 t2 t3 hint r (w w1 w2 : Front) res ch :
  introspect_begin c d issuers t1 (vq_Token r) hint w = (ToStore res, w1) -> is_active (cr_Body res) = true ->
  HandleRevoke c ap d issuers t2 r w1 = (Revoked, w2) -> fr_cache w2 = Some ch -> 0 < ca_ttl ch ->
  let w3 := (introspect_end t3 (vq_Token r) (ToStore res) w2).2 in
  forall t4 hint', t4 <= t3 + ca_ttl ch -> subjects_active w3 (cr_LifecycleSubjects res) ->
  (introspectOne c d issuers t4 (vq_Token r) hint' w3).1 = cr_Body res.
Proof.
  intros Hb Ha _ Hch Httl w3 t4 hint' Ht Hs. pose proof (live_subjects d issuers _ _ _ _ (begin_active c d issuers _ _ _ _ _ _ Hb Ha)) as [Hne _].
  assert (fr_cache w3 ≫= cache_get t4 (tokenHash (vq_Token r)) = Some res) as Hg.
  { unfold w3. cbn [introspect_end snd]. unfold cache_set. cbn [fr_cache set_cache]. rewrite Hch. cbn [fmap option_fmap option_map].
    rewrite (proj2 (Z.leb_gt _ _)) by done. match goal with |- (Some ?x ≫= ?f) = _ => change (f x = Some res) end. unfold cache_get, cache_put. cbn [ca_entries]. rewrite lookup_insert_eq.
    rewrite GoTime.Since_pos_spec. unfold GoTime.Add. by rewrite (proj2 (Z.ltb_ge _ _)). }
  unfold introspectOne, introspect_begin. rewrite Hg. unfold lifecycleCheckedCachedResult. rewrite Ha. cbn [negb].
  rewrite bool_decide_eq_false_2 by done. assert (forallb (introspectionLifecycleActive w3) (cr_LifecycleSubjects res) = true) as ->; [|done].
  apply forallb_forall. intros u Hu. apply list_elem_of_In in Hu. by apply (proj1 (Forall_forall _ _) Hs).
Qed.

(** A valid token of another client, or one whose claims name none, as the opaque issuers'
    do, stays as it was while the server answers that it is revoked. *)
Lemma foreign_token_untouched now r id claims name (w w1 : Front) : vq_Token r <> "" ->
  authenticateRevokeClient c ap d now (bind_basic (vq_auth r)) w = (Ok id, w1) ->
  (validated_for now (vq_Token r) w1).1 = Ok (claims, name) -> IsAccessTokenClaims (Some claims) = true -> tc_ClientID claims <> id ->
  HandleRevoke c ap d issuers now r w = (Revoked, (validated_for now (vq_Token r) w1).2).
Proof.
  intros Hne Ha Hv Hu Hid. unfold HandleRevoke. rewrite Ha. destruct (decide _); [done|]. unfold inspectRevokeTokenBinding. cbv zeta.
  destruct (validated_for now (vq_Token r) w1) as [v w2]. cbn in Hv. subst v. rewrite Hu, bool_decide_eq_false_2; done.
Qed.

(** ** Logging out everywhere *)

(** The proof of possession and the certificate a bound token asks for are not looked at. *)
Lemma revoke_all_ignores_binding now r r' (wd : Front * option DeviceStore) : header r "Authorization" = header r' "Authorization" ->
  HandleRevokeAll c d issuers now r wd = HandleRevokeAll c d issuers now r' wd.
Proof. intros H. unfold HandleRevokeAll, BearerToken. by rewrite H. Qed.

Lemma revokeAcross_frame now token (w : Front) : fr_refresh (revokeAcrossIssuers issuers now token w).2 = fr_refresh w /\
  fr_pairwise (revokeAcrossIssuers issuers now token w).2 = fr_pairwise w.
Proof.
  unfold revokeAcrossIssuers. destruct (revoke_loop _ _ _ _) as [[rv f] x]. cbn. unfold InvalidateIntrospectionCache. by destruct (decide _).
Qed.

(** Logging out everywhere takes a valid access token of an eligible subject, and
    then leaves the user no refresh token of the token's client, or none at all when the
    token names no client, and no trusted device; the refresh tokens of others, and of
    the user at other clients, stay. *)
Theorem logout_everywhere now r (w w' : Front) devices devices' n k :
  HandleRevokeAll c d issuers now r (w, devices) = (RevokedAll n k, (w', devices')) ->
  exists claims name m m', issued issuers now (BearerToken r) claims name /\ IsAccessTokenClaims (Some claims) = true /\ eligible fd now claims w /\ tc_Subject claims <> "" /\
    fr_refresh w = Some m /\ fr_refresh w' = Some m' /\
    (let user := resolveLocalSubject (tc_Subject claims) w in
     (user <> "" -> forall tok e, entries m' !! tok = Some e <->
        entries m !! tok = Some e /\ ~ (rt_UserID e = user /\ (tc_ClientID claims = "" \/ rt_ClientID e = tc_ClientID claims))) /\
     forall ds, devices' = Some ds -> ds !! user = None).
Proof.
  unfold HandleRevokeAll. destruct (bool_decide _); [done|]. destruct (fr_refresh w) as [m|] eqn:Hm; [|done]. unfold authenticateRevokeAllBearer.
  destruct (decide (BearerToken r = "")); [done|]. pose proof (validateAnyToken_frame c fd issuers now (BearerToken r) w) as (x & s & Hf).
  destruct (validateAnyToken _ _ _ _ _ _) as [[[claims name]|e] w1] eqn:Hv; [|done]. cbn in Hf. subst w1. apply validateAnyToken_Ok in Hv as (_ & Hi & He).
  destruct (IsAccessTokenClaims (Some claims)) eqn:Hu; [|done]. cbn [negb orb]. destruct (bool_decide (tc_Subject claims = "")) eqn:Hs; [done|]. apply bool_decide_eq_false in Hs.
  cbn [fr_refresh validated set_suspension set_issuers]. rewrite Hm. set (user := resolveLocalSubject (tc_Subject claims) _).
  destruct (DeleteAllForSubject user (tc_ClientID claims) m) as [k0 m1] eqn:Hd.
  pose proof (revokeAcross_frame now (BearerToken r) (set_refresh (Some m1) (validated x s w))) as [Hr _].
  destruct (revokeAcrossIssuers _ _ _ _) as [fl w2]. cbn in Hr. destruct (revokeTrustedDevicesOnRevokeAll devices user) as [k1 dv] eqn:Hdv. intros [= _ _ <- <-].
  exists claims, name, m, m1. split_and!; try done; change (resolveLocalSubject (tc_Subject claims) w) with user.
  - intros Hne tok e. unfold DeleteAllForSubject in Hd. destruct (decide (user = "")); [done|]. injection Hd as _ <-. cbn [entries purge with_maps snd]. rewrite delete_where_lookup.
    unfold subject_match. rewrite andb_false_iff, orb_false_iff, !bool_decide_eq_false. destruct (decide (rt_UserID e = user)), (decide (tc_ClientID claims = "")), (decide (rt_ClientID e = tc_ClientID claims)); naive_solver.
  - intros ds ->. unfold revokeTrustedDevicesOnRevokeAll in Hdv. destruct devices as [ds0|]; [|done]. injection Hdv as _ <-. apply lookup_delete_eq.
Qed.
End owners.

(** ** A revocation *)

(** The two issuers of a server, the session token of the client "api" in the second. *)
Notation toy_two := (two_issuers (SK := Z) toy_verify toy_unheader JwtIssuer.toy_unmarshal Ed25519JWTIssuer).
Definition api_claims : TokenClaims := {|
  tc_TokenUse := "access_token"; tc_Subject := "alice"; tc_Issuer := "https://op"; tc_Audience := []; tc_Scopes := ["read"];
  tc_Resources := []; tc_ExpiresAt := Unix 2000; tc_NotBefore := Unix 1000; tc_IssuedAt := Unix 1000; tc_Extra := ∅; tc_ClientID := "api";
  tc_JTI := "t1"; tc_AuthTime := Unix 900; tc_ACR := ""; tc_AMR := []; tc_SID := ""; tc_ServingRegion := ""; tc_TenantID := "";
  tc_ConfirmationJKT := ""; tc_ConfirmationX5TS256 := ""; tc_AuthorizationDetails := ""; tc_Actor := ActorNil; tc_MayAct := ActorNil;
  tc_RequestedClaims := "" |}.
Definition api_front : Front IBody ((@JWTIssuer Z Z * option RevocationSet) * Opaque) := {|
  fr_issuers := ((JwtIssuer.toy_issuer 0, Some ∅), {| op_tokens := {[ "tok" := api_claims ]}; op_lastSweep := 0 |});
  fr_clients := {[ "api" := secret_client ]}; fr_tenants := None; fr_suspension := None; fr_residency := None; fr_policies := None;
  fr_lifecycle := Some ∅; fr_pairwise := None; fr_sessions := None;
  fr_refresh := Some (RefreshStore.Issue "rt" (Some (sample_token "alice" "api" "fam" ["read"] (Unix 3000)))
                  (RefreshStore.Issue "rt2" (Some (sample_token "alice" "api" "fam" ["read"] (Unix 3000))) (NewMemoryRefreshTokenStore 0 0 0)).2).2;
  fr_cache := Some {| ca_entries := ∅; ca_ttl := 30 * GoTime.Second |}; fr_replay := None |}.
Definition api_revoke (token : string) : revokeRequest := {| vq_Token := token; vq_TokenTypeHint := ""; vq_auth := iq_auth (toy_ask "s3cret") |}.
Notation toy_handle r w := (HandleRevoke toy_primitives toy_auth toy_introspect toy_two (Unix 1100) r w).

Lemma api_inv : two_inv JwtIssuer.toy_unmarshal (fr_issuers api_front).
Proof. split; [vm_compute; discriminate|]. intros token e He. vm_compute in He. discriminate He. Qed.


Lemma revoke_only_own_witness : exists id info,
  (authenticateRevokeClient toy_primitives toy_auth toy_introspect (Unix 1100) (bind_basic (vq_auth (api_revoke "rt"))) api_front).1 = Ok id /\
  rt_ClientID info = id /\ rt_FamilyID info = "fam".
Proof.
  destruct (toy_handle (api_revoke "rt") api_front) as [ans w'] eqn:H.
  destruct (fr_refresh api_front) as [m|] eqn:Hm; [|discriminate Hm]. destruct (entries m !! "rt2") as [e|] eqn:He; [|injection Hm as <-; vm_compute in He; discriminate He].
  destruct (proj1 (revoke_only_own _ _ _ _ _ _ _ _ _ H) m "rt2" e Hm He) as (id & info & H1 & H2 & H3 & H4).
  - injection Hm as <-. vm_compute in He. injection He as <-. vm_compute. reflexivity.
  - intros m' Hm'. apply (f_equal snd) in H. cbn [snd] in H. subst w'. vm_compute in Hm'. injection Hm' as <-. vm_compute. reflexivity.
  - exists id, info. split; [exact H1|]. split; [exact H3|]. injection Hm as <-. vm_compute in H2. injection H2 as <-. vm_compute. reflexivity.
Defined.

Lemma introspection_race_witness : exists res w2,
  is_active (cr_Body res) = true /\ op_tokens (fr_issuers w2).2 !! "tok" = None /\
  (introspectOne toy_primitives toy_introspect toy_two (Unix 1125) "tok" "" (introspect_end (Unix 1101) "tok" (ToStore res) w2).2).1 = cr_Body res.
Proof.
  destruct (introspect_begin toy_primitives toy_introspect toy_two (Unix 1099) "tok" "" api_front) as [p w1] eqn:Hb.
  destruct p as [b|res]; [apply (f_equal (fun x => match x.1 with Answered _ => true | _ => false end)) in Hb; vm_compute in Hb; discriminate Hb|].
  destruct (toy_handle (api_revoke "tok") w1) as [ans w2] eqn:Hh. exists res, w2.
  assert (ans = Revoked /\ op_tokens (fr_issuers w2).2 !! "tok" = None /\ fr_cache w2 = Some {| ca_entries := ∅; ca_ttl := 30 * GoTime.Second |} /\ fr_lifecycle w2 = Some ∅ /\ fr_pairwise w2 = None)
    as (-> & Hgone & Hc & Hl & Hpw).
  { apply (f_equal snd) in Hb. cbn [snd] in Hb. subst w1. split_and!; [apply (f_equal fst) in Hh|apply (f_equal snd) in Hh..]; cbn [fst snd] in Hh; subst; vm_compute; reflexivity. }
  assert (is_active (cr_Body res) = true /\ cr_LifecycleSubjects res = ["alice"]) as [Ha Hs].
  { split.
    - apply (f_equal (fun x => match x.1 with ToStore r => is_active (cr_Body r) | _ => false end)) in Hb. cbn [fst] in Hb. rewrite <- Hb. vm_compute. reflexivity.
    - apply (f_equal (fun x => match x.1 with ToStore r => cr_LifecycleSubjects r | _ => [] end)) in Hb. cbn [fst] in Hb. rewrite <- Hb. vm_compute. reflexivity. }
  split; [exact Ha|]. split; [exact Hgone|].
  unshelve refine (introspection_race toy_primitives toy_auth toy_introspect toy_two (Unix 1099) (Unix 1100) (Unix 1101) "" (api_revoke "tok") api_front w1 w2 res _ Hb Ha Hh Hc _ (Unix 1125) "" _ _).
  - vm_compute. reflexivity.
  - vm_compute. discriminate.
  - rewrite Hs. constructor; [|constructor]. unfold introspectionLifecycleActive, LifecycleState, resolveLocalSubject. cbn [introspect_end snd]. unfold cache_set. cbn [fr_lifecycle fr_pairwise set_cache].
    rewrite Hl, Hpw. vm_compute. reflexivity.
Defined.

Lemma logout_everywhere_witness : exists m', entries m' !! "rt" = None /\ entries m' !! "rt2" = None.
Proof.
  set (r := {| rq_Method := "POST"; rq_Host := "op"; rq_Path := "/token/revoke-all"; rq_TLS := None; rq_Header := {[ "Authorization" := ["Bearer tok"] ]}; rq_ForwardedTrusted := false |}).
  destruct (HandleRevokeAll toy_primitives toy_introspect toy_two (Unix 1100) r (api_front, None)) as [ans [w' dv]] eqn:H.
  destruct ans as [n k|st code]; [|apply (f_equal (fun x => match x.1 with RevokedAll _ _ => true | _ => false end)) in H; vm_compute in H; discriminate H].
  destruct (logout_everywhere _ _ _ _ _ _ _ _ _ _ _ H) as (claims & name & m & m' & (ti & x & x' & Hin & Hfmt & Hv) & _ & _ & Hsub & Hm & Hm' & Hgone & _).
  exists m'. apply (f_equal (fun x => fr_refresh x.2.1)) in H. cbn [fst snd] in H. rewrite Hm' in H. vm_compute in H. injection H as <-. split; vm_compute; reflexivity.
Defined.
