(* ===== verification/AssertionGrants.v ===== *)
(** * AssertionGrants: the JWT-bearer and SAML-bearer grants
    ([tokengrant/token_jwt_bearer.go], [tokengrant/token_saml2_bearer.go], and the custom
    handler of [interfaces/sso/server_setup.go] through which the second is reached).

    What validates an assertion is an argument: an interface the operator implements. *)
From S2P Require Import Prelude Crypto Core Lifecycle RefreshStore CodeStores DeviceCodes CibaStore Issue RefreshIface GraceCache Scopes GrantCore GrantMint Jose.
Local Open Scope Z_scope.

Definition ErrUnsupportedGrantType : string := "unsupported_grant_type".
Definition ErrSAMLAssertionInvalid : string := "saml_assertion_invalid".
Definition GrantTypeSAML2Bearer : string := "urn:ietf:params:oauth:grant-type:saml2-bearer".

(** ** base64 *)

(** The alphabet of [base64.StdEncoding]. *)
Definition std_digit (c : ascii) : bool :=
  if decide (c = "+"%char \/ c = "/"%char) then true
  else if decide (c = "-"%char \/ c = "_"%char) then false
  else bool_decide (is_Some (digit_value c)).

(** Groups of four, the last one padded. *)
Fixpoint std_groups (l : list ascii) : bool :=
  match l with
  | [] => true
  | a :: b :: c :: d :: l =>
      if bool_decide (l = []) && bool_decide (d = "="%char)
      then std_digit a && std_digit b && (bool_decide (c = "="%char) || std_digit c)
      else std_digit a && std_digit b && std_digit c && std_digit d && std_groups l
  | _ => false
  end.

(** Whether [base64.StdEncoding.DecodeString] succeeds; line breaks are skipped. *)
Definition StdEncoding_decodes (s : string) : bool := std_groups (List.filter not_newline (Str.to_list s)).

Example std_padded : StdEncoding_decodes "PHM+" = true /\ StdEncoding_decodes "PA==" = true /\ StdEncoding_decodes "PHM=" = true /\
  StdEncoding_decodes "PA=" = false /\ StdEncoding_decodes "PHM-" = false /\ StdEncoding_decodes "PA==PHM+" = false.
Proof. by vm_compute. Qed.

(** ** The grants *)

(** [JWTAssertionValidator] and [SAMLAssertionValidator], [None] when not wired: the
    subject of an assertion, or an error. *)
Definition AssertionValidator (X : Type) : Type := string -> X -> result () string * X.

Section grants.
Context {St X : Type}.
Abbreviation G A := (M (World St X) A).
Implicit Types (d : Deps X) (rq : Request) (v : option (AssertionValidator X)).

Definition assertion_subject rq (subject : string) (resources : list string) : Subject :=
  {| su_ID := subject; su_Provider := ""; su_Claims := ∅; su_Resources := resources;
     su_ClientID := cl_ID (q_client rq); su_AuthTime := 0; su_AMR := []; su_ACR := "";
     su_AuthorizationDetails := ""; su_TTL := cl_AccessTokenTTL (q_client rq); su_SID := "";
     su_ServingRegion := q_region rq; su_TenantID := cl_TenantID (q_client rq); su_Roles := [];
     su_ConfirmationJKT := q_dpopJKT rq; su_ConfirmationX5TS256 := q_mtlsX5T rq;
     su_NotAfter := q_notAfter rq; su_Actor := ActorNil; su_RequestedClaims := "" |}.

Definition assertion_response (token : Token) (jkt : string) : body :=
  <[KeyAccessToken := VStr (tk_AccessToken token)]> $
  <[KeyTokenType := VStr (dpopTokenTypeOr (tk_TokenType token) jkt)]> $
  <[KeyExpiresIn := VInt (tk_ExpiresIn token)]> $
  <[KeyScope := VStr (tk_Scope token)]> ∅.

Definition validateJWTBearerAssertion v (assertion : string) : G (option string) :=
  match v with
  | None => deny 501 ErrUnsupportedGrantType
  | Some validate =>
      r ← on_x (validate assertion);
      match r with
      | Err _ => _ ← emit (EvLog "jwt-bearer assertion validation failed"); deny 400 ErrInvalidGrant
      | Ok subject => mret (Some subject)
      end
  end.

Definition validateSAML2Assertion v (assertion : string) : G (option string) :=
  match v with
  | None => deny 501 ErrUnsupportedGrantType
  | Some validate =>
      if negb (StdEncoding_decodes assertion) then
        _ ← emit (EvLog "saml2-bearer: assertion base64 decode failed"); deny 400 ErrSAMLAssertionInvalid
      else
        r ← on_x (validate assertion);
        match r with
        | Err _ => _ ← emit (EvLog "saml2-bearer: assertion validation failed"); deny 400 ErrInvalidGrant
        | Ok subject => mret (Some subject)
        end
  end.

(** [resolveIssuerForJWTBearer], [resolveIssuerForSAML2]. *)
Definition resolveIssuer d rq : G (option (string * TokenIssuer X)) :=
  issuer ← gets (fun s => dp_IssuerForClient d (sv_x s) (q_client rq));
  match issuer with None => deny 500 ErrNoTokenStrategy | Some i => mret (Some i) end.

(** [authorizeJWTBearerScopes], [authorizeSAML2Scopes]. *)
Definition authorizeScopes rq (scopes : list string) : G (option (list string)) :=
  match GrantedScopes scopes (Some (q_client rq)) with Err _ => deny 400 ErrInvalidScope | Ok granted => mret (Some granted) end.

(** [issueJWTBearerToken], [issueSAML2Token]; [msg] is their log message. *)
Definition issueAssertionToken (msg : string) rq (subject strategy : string) (ti : TokenIssuer X) (scopes resources : list string) : G () :=
  token ← on_x (ti_Issue ti (assertion_subject rq subject resources) scopes);
  match token with
  | Err e => _ ← emit (EvLog msg); writeTokenIssueError e
  | Ok token =>
      _ ← emit (EvTokenIssued (cl_ID (q_client rq)) strategy subject);
      respond (ROK (assertion_response token (q_dpopJKT rq)))
  end.

(** What follows the validation of the assertion is the same in both. *)
Definition grantToSubject (msg : string) d rq (scopes resources : list string) (subject : string) : G () :=
  unless (lifecycleGrantBlocked d subject) $
  obtain (resolveIssuer d rq) (fun '(strategy, ti) =>
  obtain (authorizeScopes rq scopes) (fun granted =>
  unless (rejectUnregistered d granted) $
  issueAssertionToken msg rq subject strategy ti granted resources)).

Definition HandleJWTBearerGrant d v rq (assertion : string) (scopes resources : list string) : G () :=
  obtain (validateJWTBearerAssertion v assertion) (grantToSubject "jwt-bearer token issuance failed" d rq scopes resources).

Definition HandleSAML2BearerGrant d v rq (assertion : string) (scopes resources : list string) : G () :=
  obtain (validateSAML2Assertion v assertion) (grantToSubject "saml2-bearer token issuance failed" d rq scopes resources).

(** [saml2BearerHandler.Handle] *)
Definition saml2BearerHandle d v rq (assertion scope : string) (resources : list string) : G () :=
  if decide (assertion = "") then respond (RError 400 ErrInvalidRequest)
  else HandleSAML2BearerGrant d v rq assertion (if decide (scope = "") then [] else Str.split scope) resources.

(** ** One answer each *)

Lemma resolves_jwt_assertion v a : resolves (validateJWTBearerAssertion v a).
Proof. unfold validateJWTBearerAssertion. resolving. Qed.
Lemma denies_jwt_assertion v a : denies (validateJWTBearerAssertion v a).
Proof. unfold validateJWTBearerAssertion. resolving. Qed.
Lemma resolves_saml_assertion v a : resolves (validateSAML2Assertion v a).
Proof. unfold validateSAML2Assertion. resolving. Qed.
Lemma denies_saml_assertion v a : denies (validateSAML2Assertion v a).
Proof. unfold validateSAML2Assertion. resolving. Qed.
Lemma resolves_issuer d rq : resolves (resolveIssuer d rq).
Proof. unfold resolveIssuer. resolving. Qed.
Lemma denies_issuer d rq : denies (resolveIssuer d rq).
Proof. unfold resolveIssuer. resolving. Qed.
Lemma resolves_granted_scopes rq scopes : resolves (authorizeScopes rq scopes).
Proof. unfold authorizeScopes. resolving. Qed.
Lemma denies_granted_scopes rq scopes : denies (authorizeScopes rq scopes).
Proof. unfold authorizeScopes. resolving. Qed.

Lemma once_grant_to_subject msg d rq scopes resources subject : answers_once (grantToSubject msg d rq scopes resources subject).
Proof.
  unfold grantToSubject. apply once_unless; [apply gate_lifecycle|]. apply once_obtain; [apply resolves_issuer|intros [strategy ti]].
  apply once_obtain; [apply resolves_granted_scopes|intros granted]. apply once_unless; [apply gate_rejectUnregistered|].
  unfold issueAssertionToken. count.
Qed.

Lemma once_jwt_bearer d v rq a scopes resources : answers_once (HandleJWTBearerGrant d v rq a scopes resources).
Proof. apply once_obtain; [apply resolves_jwt_assertion|intros; apply once_grant_to_subject]. Qed.

Lemma once_saml_bearer d v rq a scope resources : answers_once (saml2BearerHandle d v rq a scope resources).
Proof.
  unfold saml2BearerHandle. case_decide; [apply once_respond|].
  apply once_obtain; [apply resolves_saml_assertion|intros; apply once_grant_to_subject].
Qed.

(** ** What a token rests on *)

(** [w'] comes of minting for [subject] in [w]. *)
Definition minted_for d rq (scopes resources : list string) (subject : string) (w w' : World St X) (b : body) : Prop :=
  exists granted strategy ti token x', lifecycle_ok d (sv_x (w_srv w)) subject /\
    GrantedScopes scopes (Some (q_client rq)) = Ok granted /\ RejectUnregistered (dp_ScopeRegistry d) granted = None /\
    dp_IssuerForClient d (sv_x (w_srv w)) (q_client rq) = Some (strategy, ti) /\
    ti_Issue ti (assertion_subject rq subject resources) granted (sv_x (w_srv w)) = (Ok token, x') /\
    b !! KeyAccessToken = Some (VStr (tk_AccessToken token)) /\ b !! KeyRefreshToken = None /\
    w_srv w' = with_x x' (w_srv w).

Lemma grant_to_subject_ok msg d rq scopes resources subject (w w' : World St X) b :
  grantToSubject msg d rq scopes resources subject w = ((), w') -> w_out w' = w_out w ++ [ROK b] ->
  minted_for d rq scopes resources subject w w' b.
Proof.
  intros Hw Ho. eapply unless_ok in Hw as (w1 & Hl & _ & Hw); [|by auto with snap..|exact Ho].
  apply lifecycle_false in Hl as [-> Hlife].
  eapply obtain_ok in Hw as ([strategy ti] & w1 & Hi & O1 & Hw); [|apply resolves_issuer|apply denies_issuer|exact Ho].
  unfold resolveIssuer in Hi. rewrite M_bind_unfold in Hi. cbn [gets fst snd] in Hi.
  destruct (dp_IssuerForClient d _ _) as [[st ti']|] eqn:Hd; [|done]. injection Hi as -> -> <-.
  eapply obtain_ok in Hw as (granted & w1 & Hg & _ & Hw); [|apply resolves_granted_scopes|apply denies_granted_scopes|exact Ho].
  unfold authorizeScopes in Hg. destruct (GrantedScopes scopes _) as [g|] eqn:Hgr; [|done]. injection Hg as -> <-.
  eapply unless_ok in Hw as (w1 & Hr & _ & Hw); [|by auto with snap..|exact Ho].
  apply rejectUnregistered_false in Hr as [-> Hreg]. unfold issueAssertionToken in Hw. rewrite M_bind_unfold in Hw. unfold on_x in Hw.
  destruct (ti_Issue ti _ _ _) as [[token|e] x'] eqn:Ht; cbn [fst snd] in Hw.
  - injection Hw as <-. cbn in Ho. apply (inj _) in Ho. injection Ho as <-. by exists granted, strategy, ti, token, x'.
  - exfalso. rewrite M_bind_unfold in Hw. match type of Hw with writeTokenIssueError e ?w2 = _ => destruct (writeIssueError_error e w2) as (r & Hre & Hout) end.
    rewrite Hw in Hout. eapply ok_not_error; [exact Hre|exact Hout|exact Ho].
Qed.

(** Both assertion grants mint for the subject the validator names and for nobody else:
    a 200 means that the assertion was accepted (and was base64, for SAML), that its
    subject may authenticate, and that the token carries the subject, this client, its
    tenant and the keys proved, with registered scopes among the client's; no refresh
    token comes with it. *)
Theorem assertion_grants_sound d v rq assertion scopes resources (w w' : World St X) b :
  HandleJWTBearerGrant d v rq assertion scopes resources w = ((), w') \/ HandleSAML2BearerGrant d v rq assertion scopes resources w = ((), w') ->
  w_out w' = w_out w ++ [ROK b] ->
  exists validate subject x1, v = Some validate /\ validate assertion (sv_x (w_srv w)) = (Ok subject, x1) /\
    minted_for d rq scopes resources subject (set_srv (with_x x1) w) w' b.
Proof.
  intros [Hw|Hw] Ho.
  - eapply obtain_ok in Hw as (subject & w1 & Hv & O1 & Hw); [|apply resolves_jwt_assertion|apply denies_jwt_assertion|exact Ho].
    unfold validateJWTBearerAssertion in Hv. destruct v as [validate|]; [|done]. rewrite M_bind_unfold in Hv. unfold on_x in Hv.
    destruct (validate assertion _) as [[s|e] x1] eqn:E; [|done]. injection Hv as -> <-. exists validate, subject, x1.
    split_and!; [done|done|]. by eapply grant_to_subject_ok.
  - eapply obtain_ok in Hw as (subject & w1 & Hv & O1 & Hw); [|apply resolves_saml_assertion|apply denies_saml_assertion|exact Ho].
    unfold validateSAML2Assertion in Hv. destruct v as [validate|]; [|done]. destruct (StdEncoding_decodes assertion); [|done].
    cbn [negb] in Hv. rewrite M_bind_unfold in Hv. unfold on_x in Hv.
    destruct (validate assertion _) as [[s|e] x1] eqn:E; [|done]. injection Hv as -> <-. exists validate, subject, x1.
    split_and!; [done|done|]. by eapply grant_to_subject_ok.
Qed.
End grants.

(** ** Witness *)

Definition sample_validator : AssertionValidator () := fun _ x => (Ok "alice", x).

Lemma assertion_grants_sound_witness :
  exists b, (HandleJWTBearerGrant sample_deps (Some sample_validator) (sample_request "rt") "assertion" ["read"] []
      (sample_world () None 100)).2.(w_out) = [ROK b] /\
    exists validate subject x1, Some sample_validator = Some validate /\ validate "assertion" () = (Ok subject, x1) /\
      minted_for sample_deps (sample_request "rt") ["read"] [] subject (set_srv (with_x x1) (sample_world () None 100))
        (HandleJWTBearerGrant sample_deps (Some sample_validator) (sample_request "rt") "assertion" ["read"] [] (sample_world () None 100)).2 b.
Proof.
  eexists. split; [vm_compute; reflexivity|].
  apply (assertion_grants_sound sample_deps (Some sample_validator) (sample_request "rt") "assertion" ["read"] [] (sample_world () None 100)).
  - left. vm_compute. reflexivity.
  - vm_compute. reflexivity.
Defined.
