(* ===== verification/TxnToken.v ===== *)
(** * TxnToken: transaction tokens ([protocols/oauth/txntoken]).

    A workload trades the access token of a request for a short-lived token of the
    transaction, and each workload down the line trades the token it got for one of its
    own: [Mint] ([issuer.go]), [Validate] ([validator.go]) and the grant ([grant.go]).  The
    signer, the source of keys, the signature schemes and encoding/json are arguments. *)
From S2P Require Import Prelude Crypto Core Lifecycle RefreshStore CodeStores DeviceCodes CibaStore Issue RefreshIface GraceCache Scopes GrantCore GrantMint JTIReplay Jose ExchangeDeps NativeSSO AuthCodeGrant TokenExchange JwtIssuer Jwks Resources Sessions Clients ClientAuth.
Local Open Scope Z_scope.

(** ** Claims ([claims.go]) *)

Definition Typ : string := "txn-token+jwt".
Definition TokenType : string := "urn:ietf:params:oauth:token-type:txn-token".
Definition TokenTypeNameNA : string := "N_A".
Definition StrategyName : string := "txn_token".
Definition MaxChainDepth : Z := 10.
Definition DefaultTTL : Z := 30 * GoTime.Second.

(** Times are Unix seconds; an empty [tx_Rctx] or [tx_Azd] is an absent raw message. *)
Record Claims := {
  tx_Iss : string;
  tx_Sub : string;
  tx_Aud : string;
  tx_Exp : Z;
  tx_Iat : Z;
  tx_Nbf : Z;
  tx_Txn : string;
  tx_Purp : string;
  tx_Rctx : string;
  tx_Azd : string;
  tx_Act : ActorClaim;
}.

Fixpoint chainDepth (actor : ActorClaim) : Z := match actor with ActorNil => 0 | Actor _ act => 1 + chainDepth act end.

Lemma chainDepth_length actor : chainDepth actor = Z.of_nat (length (actors actor)).
Proof. induction actor as [|s act IH]; cbn [chainDepth actors length]; lia. Qed.

(** ** The issuer ([issuer.go]) *)

(** [Signer.SignJWT]. *)
Definition Signer (X : Type) : Type := string -> Claims -> X -> result () string * X.

Record Issuer (X : Type) := { is_signer : option (Signer X); is_issuerName : string; is_trustDomain : string; is_ttl : Z }.
Arguments is_signer {X}. Arguments is_issuerName {X}. Arguments is_trustDomain {X}. Arguments is_ttl {X}.
Arguments Build_Issuer {X}.

(** [NewIssuer] with its two options; [None] panics. *)
Definition NewIssuer {X} (signer : option (Signer X)) (trustDomain : string) (name : option string) (ttl : option Z) : option (Issuer X) :=
  match signer with
  | None => None
  | Some _ =>
      if decide (trustDomain = "") then None
      else Some {| is_signer := signer; is_issuerName := default "" name; is_trustDomain := trustDomain;
                   is_ttl := match ttl with Some d => if 0 <? d then d else DefaultTTL | None => DefaultTTL end |}
  end.

Record MintRequest := {
  mi_Subject : string;
  mi_RequestingWorkload : string;
  mi_PriorChain : ActorClaim;
  mi_TrustDomain : string;
  mi_Purpose : string;
  mi_RequestContext : string;
  mi_AuthorizationDetails : string;
  mi_TTL : Z;
}.

Inductive mint_error := ErrNotConfigured | NoSubject | WrongTrustDomain | ErrChainTooDeep | NoRandom | SignFailed.

Section issuer.
Context {X : Type}.
Implicit Types (iss : Issuer X) (req : MintRequest).

(** A nil issuer is an argument of the method; the grant has one. *)
Definition validateMintRequest iss req : result mint_error (Signer X) :=
  match is_signer iss with
  | None => Err ErrNotConfigured
  | Some sign =>
      if decide (mi_Subject req = "") then Err NoSubject
      else if bool_decide (mi_TrustDomain req = "") || negb (bool_decide (mi_TrustDomain req = is_trustDomain iss)) then Err WrongTrustDomain
      else if MaxChainDepth <=? chainDepth (mi_PriorChain req) then Err ErrChainTooDeep
      else Ok sign
  end.

(** [newTxnID] of 16 random bytes, [None] when the system gives none. *)
Definition newTxnID (random : option (list Z)) : option string := (fun b => Str.of_list (Base64.RawURLEncode b)) <$> random.

Definition effective_ttl iss req : Z :=
  let ttl := if mi_TTL req <=? 0 then is_ttl iss else mi_TTL req in if ttl <=? 0 then DefaultTTL else ttl.

Definition buildClaims iss (now : Z) req (txn : string) : Claims := {|
  tx_Iss := is_issuerName iss; tx_Sub := mi_Subject req; tx_Aud := mi_TrustDomain req;
  tx_Exp := unix (GoTime.Add now (effective_ttl iss req)); tx_Iat := unix now; tx_Nbf := 0; tx_Txn := txn; tx_Purp := mi_Purpose req;
  tx_Rctx := mi_RequestContext req; tx_Azd := mi_AuthorizationDetails req;
  tx_Act := if decide (mi_RequestingWorkload req = "") then mi_PriorChain req else Actor (mi_RequestingWorkload req) (mi_PriorChain req) |}.

Definition Mint iss (now : Z) (random : option (list Z)) req (x : X) : result mint_error (string * Claims) * X :=
  match validateMintRequest iss req with
  | Err e => (Err e, x)
  | Ok sign =>
      match newTxnID random with
      | None => (Err NoRandom, x)
      | Some txn =>
          let claims := buildClaims iss now req txn in
          let '(r, x) := sign Typ claims x in
          (match r with Ok signed => Ok (signed, claims) | Err _ => Err SignFailed end, x)
      end
  end.
End issuer.

(** ** The validator ([validator.go]) *)

(** [va_keys] is the [JWKSProvider], whose answer may be an error. *)
Record Validator (X : Type) := { va_keys : option (X -> option (list JWK)); va_trustDomain : string; va_algs : option (list string); va_clockSkew : Z }.
Arguments va_keys {X}. Arguments va_trustDomain {X}. Arguments va_algs {X}. Arguments va_clockSkew {X}.
Arguments Build_Validator {X}.

(** [NewValidator] with its two options; [None] panics. *)
Definition NewValidator {X} (keys : option (X -> option (list JWK))) (trustDomain : string) (algs : option (list string)) (skew : option Z) : option (Validator X) :=
  match keys with
  | None => None
  | Some _ =>
      if decide (trustDomain = "") then None
      else Some {| va_keys := keys; va_trustDomain := trustDomain; va_algs := algs;
                   va_clockSkew := match skew with Some d => if 0 <? d then d else 0 | None => 0 end |}
  end.

(** What precedes the first dot. *)
Fixpoint header_segment (l : list ascii) : option (list ascii) :=
  match l with [] => None | a :: l => if decide (a = dot) then Some [] else cons a <$> header_segment l end.

Inductive txn_error := NotConfigured | NotCompact | HeaderBad | NotTxnToken | NoKeys | BadSignature (e : jws_error) | BadClaims | Expired | NotYetValid | WrongAudience.

Section validator.
Context (ed25519_Verify : list Z -> list Z -> list Z -> bool).
Context (ecdsa_Verify : Curve -> Z * Z -> list Z -> Z -> Z -> bool).
Context (rsa_VerifyPKCS1v15 rsa_VerifyPSS : Z * Z -> option Hash -> list Z -> list Z -> bool).
Context (UnmarshalHeader : list Z -> option JWSHeader).
Context (UnmarshalTyp : list Z -> option string) (UnmarshalClaims : list Z -> option Claims).
Context {X : Type}.
Implicit Types (v : Validator X) (x : X).
Notation VerifyCompactJWS := (VerifyCompactJWS ed25519_Verify ecdsa_Verify rsa_VerifyPKCS1v15 rsa_VerifyPSS UnmarshalHeader).

Definition peekTyp (compact : string) : result txn_error string :=
  match header_segment (Str.to_list compact) with
  | None | Some [] => Err NotCompact
  | Some seg => match RawURLDecode seg ≫= UnmarshalTyp with None => Err HeaderBad | Some t => Ok t end
  end.

Definition checkClaims v (now : Z) (claims : Claims) : result txn_error () :=
  if (tx_Exp claims =? 0) || GoTime.After now (GoTime.Add (Unix (tx_Exp claims)) (va_clockSkew v)) then Err Expired
  else if negb (tx_Nbf claims =? 0) && GoTime.Before now (GoTime.Add (Unix (tx_Nbf claims)) (- va_clockSkew v)) then Err NotYetValid
  else if negb (bool_decide (tx_Aud claims = va_trustDomain v)) then Err WrongAudience
  else Ok ().

(** The claims of a token whose type and signature hold. *)
Definition signed_claims v x (compact : string) : result txn_error Claims :=
  match va_keys v with
  | None => Err NotConfigured
  | Some JWKS =>
      typ ← peekTyp compact;
      if negb (bool_decide (typ = Typ)) then Err NotTxnToken
      else match JWKS x with
           | None => Err NoKeys
           | Some keys =>
               match VerifyCompactJWS compact keys (default AsymmetricJWSAlgs (va_algs v)) with
               | Err e => Err (BadSignature e)
               | Ok payload => match UnmarshalClaims payload with None => Err BadClaims | Some claims => Ok claims end
               end
           end
  end.

Definition Validate v (now : Z) x (compact : string) : result txn_error Claims :=
  claims ← signed_claims v x compact; _ ← checkClaims v now claims; Ok claims.

(** ** The grant ([grant.go]) *)

Record Request := {
  tq_SubjectToken : string;
  tq_SubjectTokenType : string;
  tq_Audience : list string;
  tq_Purpose : string;
  tq_RequestContext : string;
}.

Section grant.
Context {St : Type}.
Context (json_Valid : string -> bool).
Abbreviation G A := (M (World St X) A).
Implicit Types (d : ExchangeDeps X) (iss : Issuer X) (va : option (Validator X)) (q : Request).

Definition txnValidateRequest iss q : G bool :=
  if bool_decide (tq_SubjectToken q = "") || bool_decide (tq_SubjectTokenType q = "") then refuse 400 ErrInvalidRequest
  else if negb (bool_decide (tq_SubjectTokenType q = TokenTypeAccessToken)) && negb (bool_decide (tq_SubjectTokenType q = TokenTypeJWT))
          && negb (bool_decide (tq_SubjectTokenType q = TokenType)) then refuse 400 ErrInvalidRequest
  else match tq_Audience q with
       | [a] => if bool_decide (a = "") || negb (bool_decide (a = is_trustDomain iss)) then refuse 400 ErrInvalidTarget else mret false
       | _ => refuse 400 ErrInvalidTarget
       end.

Definition txnParseRequestContext q : G (option string) :=
  if decide (tq_RequestContext q = "") then mret (Some "")
  else if negb (json_Valid (tq_RequestContext q)) then deny 400 ErrInvalidRequest
  else mret (Some (tq_RequestContext q)).

(** The subject, the authorization details and the chain of the token presented. *)
Definition txnResolveSubjectToken d va q : G (option (string * string * ActorClaim)) :=
  if decide (tq_SubjectTokenType q = TokenType) then
    match va with
    | None => deny 400 ErrInvalidGrant
    | Some v =>
        r ← gets (fun s => Validate v (sv_now s) (sv_x s) (tq_SubjectToken q));
        match r with
        | Err _ => deny 400 ErrInvalidGrant
        | Ok claims => mret (Some (tx_Sub claims, tx_Azd claims, tx_Act claims))
        end
    end
  else
    r ← gets (fun s => xd_ValidateAnyToken d (sv_x s) (tq_SubjectToken q));
    match r with
    | Ok (Some claims) =>
        if negb (TokenClaimsMatchDeclaredType (Some claims) (tq_SubjectTokenType q)) then deny 400 ErrInvalidGrant
        else mret (Some (tc_Subject claims, tc_AuthorizationDetails claims, ActorNil))
    | _ => deny 400 ErrInvalidGrant
    end.

Definition txnWriteMintError (e : mint_error) : G () :=
  match e with
  | ErrChainTooDeep => respond (RError 400 ErrInvalidGrant)
  | _ => _ ← emit (EvLog "txntoken: mint failed"); respond (RError 500 ErrInternal)
  end.

Definition txn_response (signed : string) (claims : Claims) : body :=
  <[KeyAccessToken := VStr signed]> $ <[KeyIssuedTokenType := VStr TokenType]> $
  <[KeyTokenType := VStr TokenTypeNameNA]> $ <[KeyExpiresIn := VInt (tx_Exp claims - tx_Iat claims)]> ∅.

Definition mint_request q (client : Client) (subject rctx azd : string) (chain : ActorClaim) : MintRequest := {|
  mi_Subject := subject; mi_RequestingWorkload := cl_ID client; mi_PriorChain := chain; mi_TrustDomain := default "" (head (tq_Audience q));
  mi_Purpose := tq_Purpose q; mi_RequestContext := rctx; mi_AuthorizationDetails := azd; mi_TTL := 0 |}.

Definition HandleGrant d iss va (client : Client) (random : option (list Z)) q : G () :=
  unless (txnValidateRequest iss q) $
  obtain (txnParseRequestContext q) (fun rctx =>
  obtain (txnResolveSubjectToken d va q) (fun '(subject, azd, chain) =>
  now ← gets sv_now;
  r ← on_x (Mint iss now random (mint_request q client subject rctx azd chain));
  match r with
  | Err e => txnWriteMintError e
  | Ok (signed, claims) =>
      _ ← emit (EvTokenIssued (cl_ID client) StrategyName (tx_Sub claims));
      respond (ROK (txn_response signed claims))
  end)).

(** ** One answer *)

Lemma gate_txn_request iss q : gate (txnValidateRequest iss q).
Proof. unfold txnValidateRequest. count. Qed.
Lemma refuses_txn_request iss q : refuses (txnValidateRequest iss q).
Proof. unfold txnValidateRequest. refusing. Qed.
Lemma resolves_txn_context q : resolves (txnParseRequestContext q).
Proof. unfold txnParseRequestContext. resolving. Qed.
Lemma denies_txn_context q : GrantCore.denies (txnParseRequestContext q).
Proof. unfold txnParseRequestContext. resolving. Qed.
Lemma resolves_txn_subject d va q : resolves (txnResolveSubjectToken d va q).
Proof. unfold txnResolveSubjectToken. resolving. Qed.
Lemma denies_txn_subject d va q : GrantCore.denies (txnResolveSubjectToken d va q).
Proof. unfold txnResolveSubjectToken. resolving. Qed.

Lemma once_txn_grant d iss va client random q : answers_once (HandleGrant d iss va client random q).
Proof.
  unfold HandleGrant. apply once_unless; [apply gate_txn_request|]. apply once_obtain; [apply resolves_txn_context|intros rctx].
  apply once_obtain; [apply resolves_txn_subject|intros [[subject azd] chain]].
  apply silent_bind; [apply silent_gets|intros now]. apply silent_bind; [apply silent_on_x|intros r].
  destruct r as [[signed claims]|e]; unfold txnWriteMintError; count.
Qed.

(** ** What a transaction token carries *)

(** Where the subject, the details and the chain come from. *)
Definition presented d va q (w : World St X) (subject azd : string) (chain : ActorClaim) : Prop :=
  (tq_SubjectTokenType q = TokenType /\ exists v claims, va = Some v /\ Validate v (sv_now (w_srv w)) (sv_x (w_srv w)) (tq_SubjectToken q) = Ok claims /\
     subject = tx_Sub claims /\ azd = tx_Azd claims /\ chain = tx_Act claims) \/
  (tq_SubjectTokenType q <> TokenType /\ exists claims, xd_ValidateAnyToken d (sv_x (w_srv w)) (tq_SubjectToken q) = Ok (Some claims) /\
     TokenClaimsMatchDeclaredType (Some claims) (tq_SubjectTokenType q) = true /\
     subject = tc_Subject claims /\ azd = tc_AuthorizationDetails claims /\ chain = ActorNil).

Lemma resolve_presented d va q (w w' : World St X) subject azd chain :
  txnResolveSubjectToken d va q w = (Some (subject, azd, chain), w') -> w' = w /\ presented d va q w subject azd chain.
Proof.
  unfold txnResolveSubjectToken, presented. destruct (decide _) as [Ht|Ht].
  - destruct va as [v|]; [|done]. rewrite M_bind_unfold. cbn [gets fst snd]. destruct (Validate v _ _ _) as [claims|] eqn:Hv; [|done].
    intros [= <- <- <- <-]. split; [done|]. left. split; [done|]. by exists v, claims.
  - rewrite M_bind_unfold. cbn [gets fst snd]. destruct (xd_ValidateAnyToken d _ _) as [[claims|]|] eqn:Hv; [|done..].
    destruct (TokenClaimsMatchDeclaredType _ _) eqn:Hm; [|done]. intros [= <- <- <- <-]. split; [done|]. right. split; [done|]. by exists claims.
Qed.

Lemma txn_grant_ok d iss va client random q (w w' : World St X) b :
  HandleGrant d iss va client random q w = ((), w') -> w_out w' = w_out w ++ [ROK b] ->
  exists subject azd chain txn sign signed x', presented d va q w subject azd chain /\ tq_Audience q = [is_trustDomain iss] /\
    is_signer iss = Some sign /\ subject <> "" /\ chainDepth chain < MaxChainDepth /\ newTxnID random = Some txn /\
    (tq_RequestContext q = "" \/ json_Valid (tq_RequestContext q) = true) /\
    let claims := buildClaims iss (sv_now (w_srv w)) (mint_request q client subject (tq_RequestContext q) azd chain) txn in
    sign Typ claims (sv_x (w_srv w)) = (Ok signed, x') /\ b = txn_response signed claims.
Proof.
  intros Hw Ho. eapply unless_ok in Hw as (w1 & Hr & _ & Hw); [|apply gate_txn_request|apply refuses_txn_request|exact Ho].
  assert (w1 = w /\ tq_Audience q = [is_trustDomain iss]) as [-> Ha].
  { unfold txnValidateRequest in Hr. destruct (_ || _); [done|]. destruct (_ && _); [done|]. destruct (tq_Audience q) as [|a [|]]; try done.
    destruct (bool_decide (a = "")); [done|]. cbn [orb] in Hr. destruct (bool_decide (a = _)) eqn:E; [|done]. apply bool_decide_eq_true in E as ->. by injection Hr. }
  eapply obtain_ok in Hw as (rctx & w1 & Hc & _ & Hw); [|apply resolves_txn_context|apply denies_txn_context|exact Ho].
  assert (w1 = w /\ rctx = tq_RequestContext q /\ (tq_RequestContext q = "" \/ json_Valid (tq_RequestContext q) = true)) as (-> & -> & Hj).
  { unfold txnParseRequestContext in Hc. destruct (decide _) as [E|E]; [injection Hc as <- <-; rewrite E; auto|].
    destruct (json_Valid _) eqn:Ej; [|done]. injection Hc as <- <-. auto. }
  eapply obtain_ok in Hw as ([[subject azd] chain] & w1 & Hs & _ & Hw); [|apply resolves_txn_subject|apply denies_txn_subject|exact Ho].
  apply resolve_presented in Hs as [-> Hp]. rewrite M_bind_unfold in Hw. cbn [gets fst snd] in Hw. rewrite M_bind_unfold in Hw. unfold on_x, Mint in Hw.
  assert (forall e x, txnWriteMintError e (set_srv (with_x x) w) = ((), w') -> False) as Herr.
  { intros e x He. eapply (ok_not_error False (w_out w) (w_out w') b (RError (match e with ErrChainTooDeep => 400 | _ => 500 end) (match e with ErrChainTooDeep => ErrInvalidGrant | _ => ErrInternal end)));
      [apply error_is_error| |exact Ho]. by destruct e; injection He as <-. }
  destruct (validateMintRequest iss _) as [sign|e] eqn:Hm; [|by apply Herr in Hw]. destruct (newTxnID random) as [txn|] eqn:Ht; [|by apply Herr in Hw].
  destruct (sign Typ _ _) as [[signed|e] x'] eqn:Hsg; [|by apply Herr in Hw]. cbn in Hw. injection Hw as <-. cbn in Ho. apply (inj _) in Ho. injection Ho as <-.
  unfold validateMintRequest in Hm. destruct (is_signer iss) as [sg|]; [|done]. cbn [mint_request mi_Subject mi_PriorChain] in Hm.
  destruct (decide (subject = "")) as [|Hne]; [done|]. destruct (_ || _); [done|]. destruct (MaxChainDepth <=? chainDepth chain) eqn:Hd; [done|].
  injection Hm as ->. apply Z.leb_gt in Hd. by exists subject, azd, chain, txn, sign, signed, x'.
Qed.

Lemma txn_response_access signed claims : txn_response signed claims !! KeyAccessToken = Some (VStr signed).
Proof. unfold txn_response. apply lookup_insert_eq. Qed.

(** A token handed from workload to workload: the subject and the authorization details
    of the access token it began with, and the clients it was issued to, the last one
    first. *)
Inductive handed_on d iss v : string -> string -> string -> list string -> Prop :=
| begun client random q w w' b tok claims : cl_ID client <> "" -> tq_SubjectTokenType q <> TokenType ->
    xd_ValidateAnyToken d (sv_x (w_srv w)) (tq_SubjectToken q) = Ok (Some claims) ->
    HandleGrant d iss (Some v) client random q w = ((), w') -> w_out w' = w_out w ++ [ROK b] -> b !! KeyAccessToken = Some (VStr tok) ->
    handed_on d iss v tok (tc_Subject claims) (tc_AuthorizationDetails claims) [cl_ID client]
| passed client random q w w' b tok subject azd clients : cl_ID client <> "" -> tq_SubjectTokenType q = TokenType ->
    handed_on d iss v (tq_SubjectToken q) subject azd clients ->
    HandleGrant d iss (Some v) client random q w = ((), w') -> w_out w' = w_out w ++ [ROK b] -> b !! KeyAccessToken = Some (VStr tok) ->
    handed_on d iss v tok subject azd (cl_ID client :: clients).

End grant.
End validator.

(** ** Witness *)

#[global] Instance ActorClaim_eq : EqDecision ActorClaim.
Proof. solve_decision. Defined.
#[global] Instance Claims_eq : EqDecision Claims.
Proof. solve_decision. Defined.

(** Two workloads, and a signer for the two tokens they get. *)
Definition hop_request (token type : string) : Request := {|
  tq_SubjectToken := token; tq_SubjectTokenType := type; tq_Audience := ["mesh"]; tq_Purpose := "pay"; tq_RequestContext := "" |}.
Definition hop_claims (subject workload : string) (chain : ActorClaim) : Claims := {|
  tx_Iss := "https://sso"; tx_Sub := subject; tx_Aud := "mesh"; tx_Exp := 1030; tx_Iat := 1000; tx_Nbf := 0;
  tx_Txn := Str.of_list (Base64.RawURLEncode (replicate 16 9)); tx_Purp := "pay"; tx_Rctx := ""; tx_Azd := ""; tx_Act := Actor workload chain |}.
Definition hop1 : Claims := hop_claims "pw-alice" "app" ActorNil.
Definition hop2 : Claims := hop_claims "pw-alice" "svc" (Actor "app" ActorNil).
Definition hop_token (n : Z) : string := JwtIssuer.compact (Base64.RawURLEncode [1]) (Base64.RawURLEncode [n]) (Base64.RawURLEncode toy_key).
Definition hop_signer : Signer () := fun typ claims x =>
  (if decide (claims = hop1) then Ok (hop_token 2) else if decide (claims = hop2) then Ok (hop_token 3) else Err (), x).
Definition hop_issuer : Issuer () := {| is_signer := Some hop_signer; is_issuerName := "https://sso"; is_trustDomain := "mesh"; is_ttl := DefaultTTL |}.
Definition hop_validator : Validator () := {| va_keys := Some (fun _ => Some [toy_jwk]); va_trustDomain := "mesh"; va_algs := None; va_clockSkew := 0 |}.
Definition hop_unmarshal (b : list Z) : option Claims := if decide (b = [2]) then Some hop1 else if decide (b = [3]) then Some hop2 else None.
Definition hop_world : World () () := sample_world () None (Unix 1000).
Definition hop_handle (client : string) (q : Request) : () * World () () :=
  HandleGrant toy_ed (fun _ _ _ _ _ => false) (fun _ _ _ _ => false) (fun _ _ _ _ => false) toy_header (fun _ => Some Typ) hop_unmarshal
    (fun _ => true) sample_exchange_deps hop_issuer (Some hop_validator) (plain_client client [] []) (Some (replicate 16 9)) q hop_world.

