(* ===== verification/Fapi.v ===== *)
(** * Fapi: the FAPI 2.0 security profile ([protocols/fapi]).

    Which rules a request breaks ([validator.go]) and the vocabulary of the profile
    ([profile.go]).  The algorithm of a JWS header is read through encoding/json, an
    argument. *)
From S2P Require Import Prelude Crypto Core Jose Resources.
Local Open Scope Z_scope.

(** ** The profile *)

Inductive Mode := ModeOff | ModeInspection | ModeEnforce.
#[global] Instance Mode_eq : EqDecision Mode.
Proof. solve_decision. Defined.

Definition Mode_String (m : Mode) : string :=
  match m with ModeInspection => "inspection" | ModeEnforce => "enforce" | ModeOff => "off" end.

Definition RulePARRequired : string := "fapi:par_required".
Definition RuleSignedRequest : string := "fapi:signed_request".
Definition RulePKCES256 : string := "fapi:pkce_s256".
Definition RuleNoImplicit : string := "fapi:no_implicit".
Definition RuleSenderConstrained : string := "fapi:sender_constrained".
Definition RuleClientAuth : string := "fapi:client_auth".
Definition RuleSigningAlg : string := "fapi:signing_alg".
Definition RuleCIBAPushMode : string := "fapi:ciba_push_mode".

Definition FAPIAllowedAlgValues : list string := ["ES256"; "ES384"; "ES512"; "EdDSA"].
Definition IsFAPIAllowedAlg (alg : string) : bool := contains FAPIAllowedAlgValues alg.

Definition ClientAuthNone : string := "none".
Definition ClientAuthSecretBasic : string := "client_secret_basic".
Definition ClientAuthSecretPost : string := "client_secret_post".
Definition ClientAuthPrivateKeyJWT : string := "private_key_jwt".
Definition ClientAuthTLS : string := "tls_client_auth".
Definition ClientAuthSelfSignedTLS : string := "self_signed_tls_client_auth".
Definition FAPIAllowedClientAuthMethods : list string := [ClientAuthPrivateKeyJWT; ClientAuthTLS].

Record Violation := { vi_RuleID : string; vi_ClientID : string; vi_Detail : string }.

(** [base64.URLEncoding.DecodeString]: groups of four, the last one padded. *)
Definition URLDecode (s : list ascii) : option (list Z) :=
  let l := List.filter not_newline s in
  if decide (length l mod 4 = 0)%nat then
    RawURLDecode (match rev l with
                  | "="%char :: "="%char :: r => rev r
                  | "="%char :: r => rev r
                  | _ => l
                  end)
  else None.

(** What precedes the first dot, when there is one. *)
Fixpoint before_dot (l : list ascii) : option (list ascii) :=
  match l with [] => None | a :: l => if decide (a = "."%char) then Some [] else cons a <$> before_dot l end.

Definition ExtractJWTAlg (json_alg : list Z -> option string) (compact : string) : string :=
  match before_dot (Str.to_list compact) with
  | None | Some [] => ""
  | Some seg =>
      match (match RawURLDecode seg with Some b => Some b | None => URLDecode seg end) with
      | None => ""
      | Some decoded => default "" (json_alg decoded)
      end
  end.

(** ** The validator *)

(** [*Validator]: [None] is nil. *)
Definition Validator : Type := option Mode.

Definition Validator_Mode (v : Validator) : Mode := default ModeOff v.
Definition Enforcing (v : Validator) : bool := bool_decide (v = Some ModeEnforce).
Definition Active (v : Validator) : bool := match v with None | Some ModeOff => false | _ => true end.

Record AuthorizationContext := {
  fa_ClientID : string;
  fa_ResponseType : string;
  fa_UsedPAR : bool;
  fa_SignedRequest : bool;
  fa_CodeChallenge : string;
  fa_CodeChallengeMethod : string;
}.

(** A violation when [broken]. *)
Definition violates (broken : bool) (rule client detail : string) : list Violation :=
  if broken then [{| vi_RuleID := rule; vi_ClientID := client; vi_Detail := detail |}] else [].

Definition CheckAuthorization (v : Validator) (ac : AuthorizationContext) : list Violation :=
  if negb (Active v) then []
  else
    violates (negb (fa_UsedPAR ac)) RulePARRequired (fa_ClientID ac) "authorization request must use a pushed authorization request (PAR)" ++
    violates (negb (fa_SignedRequest ac)) RuleSignedRequest (fa_ClientID ac) "authorization request parameters must be carried in a signed request object (JAR)" ++
    violates (negb (bool_decide (fa_ResponseType ac = "code"))) RuleNoImplicit (fa_ClientID ac) "response_type must be code; implicit and hybrid flows are prohibited" ++
    violates (bool_decide (fa_CodeChallenge ac = "") || negb (equalFold (fa_CodeChallengeMethod ac) "S256")) RulePKCES256 (fa_ClientID ac)
      "PKCE with code_challenge_method=S256 is required".

Record TokenContext := { tx_ClientID : string; tx_GrantType : string; tx_SenderConstrained : bool; tx_ClientAuthMethod : string }.

(** [checkClientAuth] *)
Definition check_client_auth (clientID method : string) : list Violation :=
  violates (negb (contains [""; ClientAuthPrivateKeyJWT; ClientAuthTLS; ClientAuthSelfSignedTLS] method)) RuleClientAuth clientID
    "client must authenticate via private_key_jwt or mTLS; shared-secret client authentication is prohibited".

Definition CheckClientAuth (v : Validator) (clientID method : string) : list Violation :=
  if negb (Active v) then [] else check_client_auth clientID method.

Definition CheckToken (v : Validator) (tc : TokenContext) : list Violation :=
  if negb (Active v) then []
  else
    violates (negb (tx_SenderConstrained tc)) RuleSenderConstrained (tx_ClientID tc) "access token must be sender-constrained via DPoP or mTLS; bearer tokens are prohibited" ++
    check_client_auth (tx_ClientID tc) (tx_ClientAuthMethod tc).

Record SigningAlgContext := { sa_ClientID : string; sa_RequestObjectAlg : string; sa_IDTokenAlg : string; sa_ClientAssertionAlg : string }.

Definition bad_alg (alg : string) : bool := negb (bool_decide (alg = "")) && negb (IsFAPIAllowedAlg alg).

Definition CheckSigningAlg (v : Validator) (sc : SigningAlgContext) : list Violation :=
  if negb (Active v) then []
  else
    let tail := " is not FAPI 2.0 compliant; use ES256, ES384, ES512, or EdDSA" in
    violates (bad_alg (sa_RequestObjectAlg sc)) RuleSigningAlg (sa_ClientID sc) ("request object signing algorithm " +:+ sa_RequestObjectAlg sc +:+ tail) ++
    violates (bad_alg (sa_IDTokenAlg sc)) RuleSigningAlg (sa_ClientID sc) ("ID token signing algorithm " +:+ sa_IDTokenAlg sc +:+ tail) ++
    violates (bad_alg (sa_ClientAssertionAlg sc)) RuleSigningAlg (sa_ClientID sc) ("client assertion signing algorithm " +:+ sa_ClientAssertionAlg sc +:+ tail).

Record CIBAContext := { ci_ClientID : string; ci_DeliveryMode : string; ci_UserCodeRequired : bool }.

Definition CheckCIBA (v : Validator) (cc : CIBAContext) : list Violation :=
  if negb (Active v) then []
  else violates (negb (bool_decide (ci_DeliveryMode cc = "")) && negb (bool_decide (ci_DeliveryMode cc = "push"))) RuleCIBAPushMode (ci_ClientID cc)
         ("CIBA backchannel delivery mode must be 'push'; got '" +:+ ci_DeliveryMode cc +:+ "' which is not FAPI 2.0 compliant").

(** What discovery announces. *)
Definition AllowedAlgValues (v : Validator) (all : list string) : list string :=
  if negb (Enforcing v) then all else filter (fun a => a ∈ FAPIAllowedAlgValues) all.
Definition AllowedClientAuthMethods (v : Validator) (all : list string) : list string :=
  if negb (Enforcing v) then all else filter (fun m => m ∈ FAPIAllowedClientAuthMethods) all.

(** ** What passing means *)

Lemma violates_none broken rule client detail : violates broken rule client detail = [] <-> broken = false.
Proof. by destruct broken. Qed.
Lemma app_nil_iff {A} (a b : list A) : a ++ b = [] <-> a = [] /\ b = [].
Proof. split; [apply app_eq_nil|intros [-> ->]; done]. Qed.

(** An active validator passes exactly the authorization requests that are pushed, signed,
    of the code flow and under S256. *)
Lemma authorization_passes v ac : Active v = true ->
  CheckAuthorization v ac = [] <->
  fa_UsedPAR ac = true /\ fa_SignedRequest ac = true /\ fa_ResponseType ac = "code" /\
  fa_CodeChallenge ac <> "" /\ equalFold (fa_CodeChallengeMethod ac) "S256" = true.
Proof.
  intros Ha. unfold CheckAuthorization. rewrite Ha. cbn [negb]. rewrite !app_nil_iff, !violates_none, !negb_false_iff, orb_false_iff, negb_false_iff,
    bool_decide_eq_true, bool_decide_eq_false. tauto.
Qed.

Lemma token_passes v tc : Active v = true ->
  CheckToken v tc = [] <-> tx_SenderConstrained tc = true /\ tx_ClientAuthMethod tc ∈ [""; ClientAuthPrivateKeyJWT; ClientAuthTLS; ClientAuthSelfSignedTLS].
Proof.
  intros Ha. unfold CheckToken, check_client_auth. rewrite Ha. cbn [negb]. by rewrite app_nil_iff, !violates_none, !negb_false_iff, contains_spec.
Qed.

Lemma signing_alg_passes v sc : Active v = true ->
  CheckSigningAlg v sc = [] <-> forall alg, alg ∈ [sa_RequestObjectAlg sc; sa_IDTokenAlg sc; sa_ClientAssertionAlg sc] -> alg = "" \/ alg ∈ FAPIAllowedAlgValues.
Proof.
  intros Ha. unfold CheckSigningAlg. rewrite Ha. cbn [negb]. rewrite !app_nil_iff, !violates_none.
  assert (forall alg, bad_alg alg = false <-> alg = "" \/ alg ∈ FAPIAllowedAlgValues) as Hb.
  { intros alg. unfold bad_alg, IsFAPIAllowedAlg. by rewrite andb_false_iff, !negb_false_iff, bool_decide_eq_true, contains_spec. }
  rewrite !Hb. setoid_rewrite elem_of_cons. setoid_rewrite elem_of_cons. setoid_rewrite elem_of_cons. setoid_rewrite elem_of_nil. naive_solver.
Qed.

(** Without enforcement discovery announces everything; with it only what passes. *)
Lemma announced_passes v all : Enforcing v = true ->
  Forall (fun a => IsFAPIAllowedAlg a = true) (AllowedAlgValues v all) /\
  Forall (fun m => check_client_auth "" m = []) (AllowedClientAuthMethods v all).
Proof.
  intros He. unfold AllowedAlgValues, AllowedClientAuthMethods. rewrite He. cbn [negb]. split; apply Forall_forall; intros x [Hx _]%list_elem_of_filter.
  - by apply contains_spec.
  - apply violates_none, negb_false_iff, contains_spec. set_solver.
Qed.
