(* ===== verification/TokenEndpoint.v ===== *)
(** * TokenEndpoint: [/token] as a whole ([interfaces/sso/server_token.go]).

    The handler takes a request through the sender constraints, the FAPI rules, the
    authentication of the client, the residency gate, the registered grant types, the
    idempotency cache ([interfaces/middleware/idempotency.go],
    [infrastructure/defaultimpl/memory_idempotent.go]), the quota of the tenant
    ([quota.go]), the scope gates and the rate limits to one of the grants.

    The rest of the server the grants act on is a [Site]: the stores of the front and the
    idempotency cache.  A key of the cache holds its mutex from lookup to store, and the
    one grant that uses it makes no pause, so a request is one step there. *)
From S2P Require Import Prelude Crypto Core Lifecycle Sharded RefreshStore CodeStores DeviceCodes CibaStore Issue RefreshIface GraceCache Scopes GrantCore GrantMint RefreshGrant RefreshProps AuthCodeGrant DeviceGrant CibaGrant ClientCreds JTIReplay Jose ExchangeDeps NativeSSO TokenExchange Resources Sessions Clients TokenPolicy JwtIssuer Jwks ClientAuth Dpop TokenFront ResourceAccess Introspection AssertionGrants TxnToken Fapi.
Local Open Scope Z_scope.

Definition GrantAuthorizationCode : string := "authorization_code".
Definition GrantClientCredentials : string := "client_credentials".
Definition GrantDeviceCode : string := "urn:ietf:params:oauth:grant-type:device_code".
Definition GrantTokenExchange : string := "urn:ietf:params:oauth:grant-type:token-exchange".
Definition GrantCIBA : string := "urn:openid:params:grant-type:ciba".
Definition GrantJWTBearer : string := "urn:ietf:params:oauth:grant-type:jwt-bearer".
Definition ErrServerMisconfigured : string := "server_misconfigured".
Definition ErrInvalidDPoPProof : string := "invalid_dpop_proof".
Definition ErrUnauthorizedClient : string := "unauthorized_client".
Definition ErrRateLimited : string := "rate_limited".
Definition HeaderIdempotencyKey : string := "Idempotency-Key".

(** ** The idempotency cache *)

Record memIdempotentEntry := { ie_body : body; ie_expiresAt : Z }.
Record MemoryIdempotentCache := { id_entries : gmap string memIdempotentEntry; id_ttl : Z }.

Definition NewMemoryIdempotentCache (ttl : Z) : MemoryIdempotentCache := {| id_entries := ∅; id_ttl := if ttl <=? 0 then GoTime.Minute else ttl |}.

Definition idem_prune (now : Z) (m : MemoryIdempotentCache) : MemoryIdempotentCache :=
  {| id_entries := filter (fun kv => GoTime.After now (ie_expiresAt kv.2) = false) (id_entries m); id_ttl := id_ttl m |}.

Definition idem_Get (now : Z) (key : string) (m : MemoryIdempotentCache) : option body :=
  match id_entries m !! key with
  | None => None
  | Some e => if GoTime.After now (ie_expiresAt e) then None else Some (ie_body e)
  end.

Definition idem_Set (now : Z) (key : string) (b : body) (ttl : Z) (m : MemoryIdempotentCache) : MemoryIdempotentCache :=
  {| id_entries := <[key := {| ie_body := b; ie_expiresAt := GoTime.Add now (if ttl <=? 0 then id_ttl m else ttl) |}]> (id_entries m); id_ttl := id_ttl m |}.

(** An [expires_in] that is no integer makes the decoding fail, which leaves the minute. *)
Definition capturedResponseTTL (b : body) : Z :=
  match b !! KeyExpiresIn with
  | Some (VInt n) => if n <=? 0 then 0 else if n <? 60 then n * GoTime.Second else GoTime.Minute
  | _ => GoTime.Minute
  end.

(** Only a success is stored; [responses] is what was captured. *)
Definition CommitCapturedBody (now : Z) (key : string) (responses : list response) (m : MemoryIdempotentCache) : MemoryIdempotentCache :=
  match responses with
  | [ROK b] => if decide (key = "") then m else let ttl := capturedResponseTTL b in if ttl <=? 0 then m else idem_Set now key b ttl m
  | _ => m
  end.

(** [json.Unmarshal] of a cached body into a [core.Token]. *)
Definition cached_token (b : body) : option Token :=
  let str k := match b !! k with None => Some "" | Some (VStr s) => Some s | Some _ => None end in
  match str KeyAccessToken, str KeyTokenType, str KeyScope with
  | Some at', Some ty, Some sc => Some {| tk_AccessToken := at'; tk_TokenType := ty; tk_RefreshToken := ""; tk_ExpiresIn := 0; tk_Scope := sc; tk_CreatedAt := 0 |}
  | _, _, _ => None
  end.

(** ** Requests *)

(** [oauth.TokenRequest], without the parameters of client authentication and the
    resources, which are those of [AuthRequest]. *)
Record TokenRequest := {
  tr_GrantType : string;
  tr_Code : string;
  tr_RefreshToken : string;
  tr_Scope : string;
  tr_RedirectURI : string;
  tr_CodeVerifier : string;
  tr_DeviceCode : string;
  tr_AuthReqID : string;
  tr_SubjectToken : string;
  tr_SubjectTokenType : string;
  tr_ActorToken : string;
  tr_ActorTokenType : string;
  tr_Audience : list string;
  tr_RequestedTokenType : string;
  tr_ACRValues : string;
  tr_Purp : string;
  tr_RequestContext : string;
  tr_Assertion : string;
  tr_AgentSessionID : string;
}.

(** The rest of the server: the stores of the front, and the cache when it is wired. *)
Record Site (B Y : Type) := { si_front : Front B Y; si_idem : option MemoryIdempotentCache }.
Arguments si_front {B Y}. Arguments si_idem {B Y}. Arguments Build_Site {B Y}.

(** A request: the HTTP request, the status with which the binding of its parameters was
    refused, the parameters, the serving region the middleware resolved, the random draws,
    and what others do while the grants that pause are under way. *)
Record Call (St X : Type) := {
  ca_http : ResourceAccess.Request;
  ca_bindError : option Z;
  ca_form : AuthRequest;
  ca_req : TokenRequest;
  ca_region : string;
  ca_draws : Draws;
  ca_secret : option string;
  ca_random : option (list Z);
  ca_polls : list (Server St X -> Server St X);
  ca_stop : Server St X -> Server St X;
  ca_race : Server St X -> Server St X;
}.
Arguments ca_http {St X}. Arguments ca_bindError {St X}. Arguments ca_form {St X}. Arguments ca_req {St X}. Arguments ca_region {St X}.
Arguments ca_draws {St X}. Arguments ca_secret {St X}. Arguments ca_random {St X}. Arguments ca_polls {St X}. Arguments ca_stop {St X}. Arguments ca_race {St X}.

(** What [IncrementUsage] answers. *)
Inductive usage := UsageOK | ErrQuotaExceeded | UsageFailed.

(** What is wired.  A custom grant handler is any program of the server; it is given the
    parameters and the authenticated request. *)
Record EndpointDeps (St X : Type) := {
  te_configured : bool;
  te_access : AccessDeps;
  te_auth : AuthDeps;
  te_fapi : Fapi.Validator;
  te_grants : ExchangeDeps X;
  te_policies : option (option (list Policy));
  te_IncrementUsage : option (string -> X -> usage * X);
  te_limiters : gmap string (X -> bool * X);
  te_custom : gmap string (TokenRequest -> GrantCore.Request -> M (World St X) ());
  te_jwtBearer : option (AssertionValidator X);
  te_txnIssuer : option (TxnToken.Issuer X);
  te_txnValidator : option (TxnToken.Validator X);
}.
Arguments te_configured {St X}. Arguments te_access {St X}. Arguments te_auth {St X}. Arguments te_fapi {St X}. Arguments te_grants {St X}.
Arguments te_policies {St X}. Arguments te_IncrementUsage {St X}. Arguments te_limiters {St X}. Arguments te_custom {St X}.
Arguments te_jwtBearer {St X}. Arguments te_txnIssuer {St X}. Arguments te_txnValidator {St X}.

Section endpoint.
Context {St B Y : Type} `{Store : RefreshTokenStore St}.
Notation X := (Site B Y).
Abbreviation G A := (M (World St X) A).
Context (c : Primitives) (ap : AuthPrimitives).
Context (json_Valid : string -> bool) (UnmarshalTyp : list Z -> option string) (UnmarshalTxn : list Z -> option TxnToken.Claims).
(** [json.Marshal] of the key: client, key of the request, sender constraint, request. *)
Context (MarshalKey : string * string * string * string -> string * list string * TokenRequest -> list Z).
Implicit Types (d : EndpointDeps St X) (q : Call St X).

(** A program of the front, run on the site. *)
Definition on_front {A} (m : M (Front B Y) A) : G A :=
  on_x (fun s => let '(a, f) := m (si_front s) in (a, Build_Site f (si_idem s))).

(** The authentication part of a request, with its headers and certificate. *)
Definition auth_request d q : AuthRequest :=
  let f := ca_form q in {|
  aq_Authorization := default [] (rq_Header (ca_http q) !! "Authorization"); aq_BasicAuth := aq_BasicAuth f; aq_PostForm := aq_PostForm f;
  aq_ClientID := aq_ClientID f; aq_ClientSecret := aq_ClientSecret f; aq_ClientSecretPresent := aq_ClientSecretPresent f;
  aq_ClientAssertion := aq_ClientAssertion f; aq_ClientAssertionType := aq_ClientAssertionType f;
  aq_ClientAssertionPresent := aq_ClientAssertionPresent f; aq_ClientAssertionTypePresent := aq_ClientAssertionTypePresent f;
  aq_Resource := aq_Resource f; aq_Tenant := aq_Tenant f; aq_Cert := ac_certExtractor (te_access d) ≫= (fun e => e (ca_http q)) |}.

Definition auth_deps d : AuthDeps := {|
  ad_issuer := ad_issuer (te_auth d); ad_replayFailClosed := ad_replayFailClosed (te_auth d); ad_providers := ad_providers (te_auth d);
  ad_extractor := bool_decide (is_Some (ac_certExtractor (te_access d))); ad_IsRevoked := ad_IsRevoked (te_auth d) |}.

(** ** The gates *)

(** The thumbprint of the proof key and of the certificate, and the end of the latter. *)
Definition captureSenderConstraint d q : G (option (string * string * Z)) :=
  let '(x5t, notAfter) := match ac_certExtractor (te_access d) ≫= (fun e => e (ca_http q)) with
                          | Some cert => (certificateThumbprintS256 cert, ce_NotAfter cert) | None => ("", 0) end in
  let proof := header (ca_http q) "Dpop" in
  if decide (proof = "") then mret (Some ("", x5t, notAfter))
  else
    now ← gets sv_now;
    r ← on_front (fun f => let '(r, replay) := verify_proof c (te_access d) now proof (rq_Method (ca_http q)) (requestURLForDPoP (ca_http q)) "" (fr_replay f) in
                           (r, set_replay replay f));
    match r with
    | Ok jkt => mret (Some (jkt, x5t, notAfter))
    | Err ErrDPoPNonceRequired => _ ← emit (EvLog "dpop nonce challenge"); deny 400 ErrUseDPoPNonce
    | Err _ => _ ← emit (EvLog "dpop proof failed"); deny 400 ErrInvalidDPoPProof
    end.

Definition fapiFAPIClientAssertionAlgCheck d q : list Violation :=
  let assertion := aq_ClientAssertion (ca_form q) in
  if decide (assertion = "") then []
  else CheckSigningAlg (te_fapi d) {| sa_ClientID := aq_ClientID (ca_form q); sa_RequestObjectAlg := ""; sa_IDTokenAlg := "";
         sa_ClientAssertionAlg := ExtractJWTAlg (pr_json_member c "alg") assertion |}.

Definition fapi_method d q : string :=
  if negb (bool_decide (aq_ClientAssertion (ca_form q) = "")) then ClientAuthPrivateKeyJWT
  else if bool_decide (is_Some (aq_BasicAuth (ca_form q))) then ClientAuthSecretBasic
  else if negb (bool_decide (aq_ClientSecret (ca_form q) = "")) then ClientAuthSecretPost
  else ClientAuthNone.

Fixpoint record_violations (vs : list Violation) : G () :=
  match vs with [] => mret () | v :: vs => _ ← emit (EvLog (vi_RuleID v)); record_violations vs end.

Definition enforceFAPITokenRules d q (jkt x5t : string) : G bool :=
  if negb (Active (te_fapi d)) then mret false
  else
    let vs := CheckToken (te_fapi d) {| tx_ClientID := aq_ClientID (ca_form q); tx_GrantType := tr_GrantType (ca_req q);
                tx_SenderConstrained := negb (bool_decide (jkt = "")) || negb (bool_decide (x5t = "")); tx_ClientAuthMethod := fapi_method d q |}
              ++ fapiFAPIClientAssertionAlgCheck d q in
    match vs with
    | [] => mret false
    | _ => _ ← record_violations vs; if Enforcing (te_fapi d) then refuse 400 ErrInvalidRequest else mret false
    end.

Definition authenticate_client d q : G (option (Client * AuthRequest)) :=
  now ← gets sv_now;
  r ← on_front (fun f => let '(r, replay) := authenticateTokenClient (ap_compare ap) (pr_ed25519 c) (pr_ecdsa c) (pr_pkcs1 c) (pr_pss c) (pr_header c)
                            (ap_typ ap) (ap_claims ap) (auth_deps d) (fr_clients f) now (auth_request d q) (fr_replay f) in (r, set_replay replay f));
  match r with
  | Err (status, code) => deny status code
  | Ok (client, _, form) => mret (Some (client, form))
  end.

Definition residencyGateTokenGrant d q (client : Client) : G bool :=
  let enabled := fd_tenantResidency (ac_front (te_access d)) in
  if negb enabled || bool_decide (cl_TenantID client = "") then mret false
  else if decide (ca_region q = "") then mret false
  else
    now ← gets sv_now;
    r ← on_front (checkTenantResidency enabled now (cl_TenantID client) (ca_region q) true);
    match r with Some code => refuse 403 code | None => mret false end.

Definition rejectDisallowedGrantType (client : Client) (grantType : string) : G bool :=
  if negb (bool_decide (cl_GrantTypes client = [])) && negb (contains (cl_GrantTypes client) grantType) then refuse 400 ErrUnauthorizedClient
  else mret false.

Definition denyPublicClientCredentials (client : Client) (form : AuthRequest) : G bool :=
  let usingMTLS := bool_decide (cl_TokenEndpointAuthMethod client = ClientAuth.ClientAuthTLS) || bool_decide (cl_TokenEndpointAuthMethod client = ClientAuth.ClientAuthSelfSignedTLS) in
  if bool_decide (cl_Secret client = "") && bool_decide (aq_ClientAssertion form = "") && negb usingMTLS then refuse 401 ErrInvalidClient else mret false.

(** [denyTokenScopeCombo], answering. *)
Definition scope_combo_gate d (client : Client) (scopes : list string) : G bool :=
  match denyTokenScopeCombo (te_policies d) (cl_ID client) (cl_TenantID client) scopes with Some r => _ ← respond r; mret true | None => mret false end.

Definition checkGrantRateLimit d (grantType : string) : G bool :=
  match te_limiters d !! grantType with
  | None => mret false
  | Some Allow => ok ← on_x Allow; if (ok : bool) then mret false else refuse 429 ErrUnsupportedGrantType
  end.

Definition consumeTokenRateQuota d (client : Client) : G bool :=
  match te_IncrementUsage d with
  | None => mret false
  | Some IncrementUsage =>
      if decide (cl_TenantID client = "") then mret false
      else
        u ← on_x (IncrementUsage (cl_TenantID client));
        match u with
        | UsageOK => mret false
        | ErrQuotaExceeded => refuse 429 ErrRateLimited
        | UsageFailed => _ ← emit (EvLog "tenant token quota check failed"); mret false
        end
  end.

(** ** Idempotency *)

Definition tokenIdempotencyCacheKey (clientID rawKey : string) (form : AuthRequest) (req : TokenRequest) (jkt x5t : string) : string :=
  "token:" +:+ Str.of_list (Base64.RawURLEncode (SHA256.Sum256 (MarshalKey (clientID, rawKey, jkt, x5t) (aq_ClientID form, aq_Resource form, req)))).

(** The gates a cached answer passes again. *)
Definition replay_gates d (client : Client) (form : AuthRequest) (scopes : list string) : G bool :=
  h ← denyPublicClientCredentials client form;
  if (h : bool) then mret true
  else
    h ← rejectUnregistered (xd_deps (te_grants d)) scopes;
    if (h : bool) then mret true else scope_combo_gate d client scopes.

(** [None] when the cache has answered; otherwise the key, empty when the cache is not
    used. *)
Definition beginTokenIdempotency d q (client : Client) (form : AuthRequest) (jkt x5t : string) : G (option string) :=
  cache ← gets (fun s => si_idem (sv_x s));
  match cache with
  | None => mret (Some "")
  | Some cache =>
      if negb (bool_decide (tr_GrantType (ca_req q) = GrantClientCredentials)) || bool_decide (is_Some (te_custom d !! tr_GrantType (ca_req q))) then mret (Some "")
      else
        let rawKey := header (ca_http q) HeaderIdempotencyKey in
        if decide (rawKey = "") then mret (Some "")
        else
          let key := tokenIdempotencyCacheKey (cl_ID client) rawKey form (ca_req q) jkt x5t in
          now ← gets sv_now;
          match idem_Get now key cache with
          | None => mret (Some key)
          | Some cached =>
              valid ← gets (CachedClientCredentialsValid (xd_deps (te_grants d)) client (tr_Scope (ca_req q)) (cached_token cached));
              if (valid : bool) then
                h ← replay_gates d client form (Str.fields (tr_Scope (ca_req q)));
                if (h : bool) then mret None else _ ← respond (ROK cached); mret None
              else mret (Some key)
          end
  end.

(** The responses a program writes, beside its effect. *)
Definition captured {A} (m : G A) : G (list response) := fun w => let '(_, w') := m w in (drop (length (w_out w)) (w_out w'), w').

Definition finishTokenIdempotency (key : string) (responses : list response) : G () :=
  now ← gets sv_now; on_x (fun s => ((), Build_Site (si_front s) (CommitCapturedBody now key responses <$> si_idem s))).

(** ** Dispatch *)

Definition buildTokenExchangeRequest q (rq : GrantCore.Request) : ExchangeRequest := {|
  xr_base := rq; xr_SubjectToken := tr_SubjectToken (ca_req q); xr_SubjectTokenType := tr_SubjectTokenType (ca_req q);
  xr_ActorToken := tr_ActorToken (ca_req q); xr_ActorTokenType := tr_ActorTokenType (ca_req q); xr_Resource := aq_Resource (ca_form q);
  xr_Audience := tr_Audience (ca_req q); xr_Scope := tr_Scope (ca_req q); xr_RequestedTokenType := tr_RequestedTokenType (ca_req q);
  xr_ACRValues := tr_ACRValues (ca_req q) |}.

Definition buildTxnTokenRequest q : TxnToken.Request := {|
  tq_SubjectToken := tr_SubjectToken (ca_req q); tq_SubjectTokenType := tr_SubjectTokenType (ca_req q); tq_Audience := tr_Audience (ca_req q);
  tq_Purpose := tr_Purp (ca_req q); tq_RequestContext := tr_RequestContext (ca_req q) |}.

Definition dispatchTokenExchangeOrTxnToken d q (rq : GrantCore.Request) : G () :=
  match te_txnIssuer d with
  | Some issuer =>
      if decide (tr_RequestedTokenType (ca_req q) = TokenType) then
        HandleGrant (pr_ed25519 c) (pr_ecdsa c) (pr_pkcs1 c) (pr_pss c) (pr_header c) UnmarshalTyp UnmarshalTxn json_Valid
          (te_grants d) issuer (te_txnValidator d) (q_client rq) (ca_random q) (buildTxnTokenRequest q)
      else HandleTokenExchangeGrant (te_grants d) (buildTokenExchangeRequest q rq)
  | None => HandleTokenExchangeGrant (te_grants d) (buildTokenExchangeRequest q rq)
  end.

Definition dispatchGrantBranch d q (rq : GrantCore.Request) (form : AuthRequest) (scopes : list string) : G () :=
  let req := ca_req q in
  let deps := xd_deps (te_grants d) in
  if decide (tr_GrantType req = GrantAuthorizationCode) then
    HandleAuthCodeGrant deps {| cr_base := rq; cr_Code := tr_Code req; cr_RedirectURI := tr_RedirectURI req; cr_CodeVerifier := tr_CodeVerifier req;
      cr_Scope := tr_Scope req; cr_Resource := aq_Resource (ca_form q) |}
  else if decide (tr_GrantType req = GrantRefreshToken) then
    HandleRefreshGrant deps {| rr_base := rq; rr_refreshToken := tr_RefreshToken req; rr_scope := tr_Scope req; rr_polls := ca_polls q; rr_stop := ca_stop q |}
  else if decide (tr_GrantType req = GrantDeviceCode) then HandleDeviceGrant deps {| dv_base := rq; dv_deviceCode := tr_DeviceCode req; dv_race := ca_race q |}
  else if decide (tr_GrantType req = GrantCIBA) then HandleCIBAGrant deps {| cp_base := rq; cp_authReqID := tr_AuthReqID req; cp_race := ca_race q |}
  else if decide (tr_GrantType req = GrantTokenExchange) then dispatchTokenExchangeOrTxnToken d q rq
  else if decide (tr_GrantType req = GrantClientCredentials) then
    unless (denyPublicClientCredentials (q_client rq) form) (HandleClientCredentialsGrant deps rq scopes (aq_Resource (ca_form q)))
  else if decide (tr_GrantType req = GrantJWTBearer) then HandleJWTBearerGrant deps (te_jwtBearer d) rq (tr_Assertion req) scopes (aq_Resource (ca_form q))
  else respond (RError 400 ErrUnsupportedGrantType).

(** The scopes as [strings.Split] gives them. *)
Definition requested_scopes_of q : list string := if decide (tr_Scope (ca_req q) = "") then [] else Str.split (tr_Scope (ca_req q)).

(** A custom handler takes the request before the limits of the built-in grants. *)
Definition dispatchTokenGrant d q (rq : GrantCore.Request) (form : AuthRequest) : G () :=
  let scopes := requested_scopes_of q in
  unless (rejectUnregistered (xd_deps (te_grants d)) scopes) $
  unless (scope_combo_gate d (q_client rq) scopes) $
  match te_custom d !! tr_GrantType (ca_req q) with
  | Some handle => handle (ca_req q) rq
  | None => unless (checkGrantRateLimit d (tr_GrantType (ca_req q))) (dispatchGrantBranch d q rq form scopes)
  end.

Definition dispatchTokenGrantWithQuota d q (rq : GrantCore.Request) (form : AuthRequest) (idemKey : string) : G () :=
  responses ← captured (unless (consumeTokenRateQuota d (q_client rq)) (dispatchTokenGrant d q rq form));
  if decide (idemKey = "") then mret () else finishTokenIdempotency idemKey responses.

Definition grant_request q (client : Client) (jkt x5t : string) (notAfter : Z) : GrantCore.Request := {|
  q_client := client; q_dpopJKT := jkt; q_mtlsX5T := x5t; q_region := ca_region q; q_notAfter := notAfter; q_draws := ca_draws q; q_secret := ca_secret q |}.

Definition handleToken d q : G () :=
  if negb (te_configured d) then respond (RError 500 ErrServerMisconfigured)
  else match ca_bindError q with
  | Some status => respond (RError status ErrInvalidRequest)
  | None =>
      obtain (captureSenderConstraint d q) (fun '(jkt, x5t, notAfter) =>
      unless (enforceFAPITokenRules d q jkt x5t) $
      obtain (authenticate_client d q) (fun '(client, form) =>
      unless (residencyGateTokenGrant d q client) $
      unless (rejectDisallowedGrantType client (tr_GrantType (ca_req q))) $
      obtain (beginTokenIdempotency d q client form jkt x5t) (fun idemKey =>
      dispatchTokenGrantWithQuota d q (grant_request q client jkt x5t notAfter) form idemKey)))
  end.

(** ** Exactly one answer *)

Lemma once_of {A} (m : G A) : (forall w, exists r, w_out (m w).2 = w_out w ++ [r]) -> answers_once m.
Proof. intros H w. destruct (H w) as [r Hr]. by exists [r]. Qed.

Lemma silent_on_front {A} (m : M (Front B Y) A) : silent (on_front m).
Proof. apply silent_on_x. Qed.
Local Hint Resolve silent_on_front silent_gets silent_on_x silent_emit gate_refuse gate_ret_false : snap.

Lemma resolves_sender d q : resolves (captureSenderConstraint d q).
Proof. unfold captureSenderConstraint. destruct (ac_certExtractor (te_access d) ≫= (fun e => e (ca_http q))); resolving. Qed.
Lemma denies_sender d q : GrantCore.denies (captureSenderConstraint d q).
Proof. unfold captureSenderConstraint. destruct (ac_certExtractor (te_access d) ≫= (fun e => e (ca_http q))); resolving. Qed.

Lemma silent_violations vs : silent (record_violations vs).
Proof. induction vs as [|v vs IH]; cbn [record_violations]; [apply silent_ret|]. apply silent_bind; [apply silent_emit|intros; apply IH]. Qed.
Local Hint Resolve silent_violations : snap.
Lemma gate_fapi d q jkt x5t : gate (enforceFAPITokenRules d q jkt x5t).
Proof. unfold enforceFAPITokenRules. count. Qed.
Lemma refuses_fapi d q jkt x5t : refuses (enforceFAPITokenRules d q jkt x5t).
Proof. unfold enforceFAPITokenRules. refusing. Qed.

Lemma resolves_client d q : resolves (authenticate_client d q).
Proof. unfold authenticate_client. resolving. Qed.
Lemma denies_client d q : GrantCore.denies (authenticate_client d q).
Proof. unfold authenticate_client. resolving. Qed.

Lemma gate_residency d q client : gate (residencyGateTokenGrant d q client).
Proof. unfold residencyGateTokenGrant. count. Qed.
Lemma refuses_residency d q client : refuses (residencyGateTokenGrant d q client).
Proof. unfold residencyGateTokenGrant. refusing. Qed.

Lemma gate_grant_type client g : gate (rejectDisallowedGrantType client g).
Proof. unfold rejectDisallowedGrantType. count. Qed.
Lemma refuses_grant_type client g : refuses (rejectDisallowedGrantType client g).
Proof. unfold rejectDisallowedGrantType. refusing. Qed.

Lemma gate_public client form : gate (denyPublicClientCredentials client form).
Proof. unfold denyPublicClientCredentials. count. Qed.
Lemma refuses_public client form : refuses (denyPublicClientCredentials client form).
Proof. unfold denyPublicClientCredentials. refusing. Qed.

Lemma combo_error d client scopes r : denyTokenScopeCombo (te_policies d) (cl_ID client) (cl_TenantID client) scopes = Some r -> is_error r.
Proof.
  unfold denyTokenScopeCombo, enforceTokenPolicy. destruct (te_policies d) as [[ps|]|]; [|done..]. cbn. destruct (pd_Deny _); [|done].
  intros [= <-]. apply error_is_error.
Qed.
Lemma gate_combo d client scopes : gate (scope_combo_gate d client scopes).
Proof. unfold scope_combo_gate. destruct (denyTokenScopeCombo _ _ _ _) as [r|]; [|apply gate_ret_false]. intros w. by exists [r]. Qed.
Lemma refuses_combo d client scopes : refuses (scope_combo_gate d client scopes).
Proof.
  unfold scope_combo_gate. destruct (denyTokenScopeCombo _ _ _ _) as [r|] eqn:E; [|apply refuses_false]. intros w w' [= <-]. exists r. split; [by eapply combo_error|done].
Qed.

Lemma gate_limit d g : gate (checkGrantRateLimit d g).
Proof. unfold checkGrantRateLimit. count. Qed.
Lemma refuses_limit d g : refuses (checkGrantRateLimit d g).
Proof. unfold checkGrantRateLimit. refusing. Qed.
Lemma gate_quota d client : gate (consumeTokenRateQuota d client).
Proof. unfold consumeTokenRateQuota. count. Qed.
Lemma refuses_quota d client : refuses (consumeTokenRateQuota d client).
Proof. unfold consumeTokenRateQuota. refusing. Qed.
Local Hint Resolve gate_fapi refuses_fapi gate_residency refuses_residency gate_grant_type refuses_grant_type gate_public refuses_public
  gate_combo refuses_combo gate_limit refuses_limit gate_quota refuses_quota resolves_sender denies_sender resolves_client denies_client : snap.

Lemma gate_replay_gates d client form scopes : gate (replay_gates d client form scopes).
Proof. unfold replay_gates. apply gate_then; [apply gate_public|]. apply gate_then; [apply gate_rejectUnregistered|apply gate_combo]. Qed.

Lemma resolves_idempotency d q client form jkt x5t : resolves (beginTokenIdempotency d q client form jkt x5t).
Proof.
  unfold beginTokenIdempotency. apply resolves_silent; [apply silent_gets|intros [cache|]; [|apply resolves_some]].
  destruct (_ || _); [apply resolves_some|]. destruct (decide _); [apply resolves_some|]. apply resolves_silent; [apply silent_gets|intros now].
  destruct (idem_Get _ _ _) as [cached|]; [|apply resolves_some]. apply resolves_silent; [apply silent_gets|intros []; [|apply resolves_some]].
  apply resolves_gate; [apply gate_replay_gates|]. intros w. by exists [ROK cached].
Qed.

Lemma once_captured {A} (m : G A) : answers_once m -> answers_once (captured m).
Proof. intros H w. unfold captured. destruct (H w) as (rs & Ho & Hl). destruct (m w) as [a w']. by exists rs. Qed.

Lemma once_client_credentials (deps : Deps X) rq scopes resources : answers_once (HandleClientCredentialsGrant deps rq scopes resources : G ()).
Proof. apply once_of. intros w. destruct (client_credentials_sound deps rq scopes resources w) as (_ & _ & r & Hr & _). by exists r. Qed.

Lemma once_exchange_or_txn d q rq : answers_once (dispatchTokenExchangeOrTxnToken d q rq).
Proof.
  unfold dispatchTokenExchangeOrTxnToken. destruct (te_txnIssuer d); [destruct (decide _); [apply once_txn_grant|]|];
    apply once_of; intros w; apply exchange_answers_once.
Qed.

Context {Laws : RefreshTokenStoreLaws St}.

Lemma once_branch d q rq form scopes : answers_once (dispatchGrantBranch d q rq form scopes).
Proof.
  unfold dispatchGrantBranch. repeat case_decide.
  - apply once_of; intros w; apply authcode_answers_once.
  - apply once_of; intros w; apply refresh_answers_once.
  - apply once_of; intros w; apply device_answers_once.
  - apply once_of; intros w; apply ciba_answers_once.
  - apply once_exchange_or_txn.
  - apply once_unless; [apply gate_public|apply once_client_credentials].
  - apply once_jwt_bearer.
  - apply once_respond.
Qed.

(** Every custom handler answers once. *)
Definition custom_answers d : Prop := forall g handle, te_custom d !! g = Some handle -> forall req rq, answers_once (handle req rq).

Lemma once_dispatch d q rq form : custom_answers d -> answers_once (dispatchTokenGrant d q rq form).
Proof.
  intros Hc. unfold dispatchTokenGrant. apply once_unless; [apply gate_rejectUnregistered|]. apply once_unless; [apply gate_combo|].
  destruct (te_custom d !! _) as [handle|] eqn:E; [by eapply Hc|]. apply once_unless; [apply gate_limit|apply once_branch].
Qed.

(** C37 — The token endpoint answers every request exactly once, whatever its parameters,
    the stores, the state of the caches and what other requests do meanwhile, provided
    the custom grant handlers do. *)
Theorem token_endpoint_answers_once d q w : custom_answers d -> exists r, w_out (handleToken d q w).2 = w_out w ++ [r].
Proof.
  intros Hc. assert (answers_once (handleToken d q)) as H.
  { unfold handleToken. split_if; [apply once_respond|]. destruct (ca_bindError q); [apply once_respond|].
    apply once_obtain; [apply resolves_sender|intros [[jkt x5t] na]]. apply once_unless; [apply gate_fapi|].
    apply once_obtain; [apply resolves_client|intros [client form]]. apply once_unless; [apply gate_residency|]. apply once_unless; [apply gate_grant_type|].
    apply once_obtain; [apply resolves_idempotency|intros key]. unfold dispatchTokenGrantWithQuota.
    apply (answers_bind _ _ (fun _ => 1%nat) (fun _ _ => 0%nat)); [apply once_captured, once_unless; [apply gate_quota|by apply once_dispatch]| |reflexivity].
    intros rs. case_decide; [apply silent_ret|]. unfold finishTokenIdempotency. count. }
  destruct (H w) as (rs & Ho & Hl). destruct rs as [|r [|]]; [done| |done]. by exists r.
Qed.

(** ** What a request has been through when a grant runs *)

(** What a token or a code can be taken from. *)
Definition tokens_of (s : Server St X) := (minted s, one_shots s).

Notation front w := (si_front (sv_x (w_srv w))).
Notation now_of w := (sv_now (w_srv w)).
Notation signed_with := (signed_with (pr_ed25519 c) (pr_ecdsa c) (pr_pkcs1 c) (pr_pss c) (pr_proof_header c) (pr_jwk c)).
Notation payload_of := (payload_of (pr_proof_payload c)).

(** The key the token will be bound to: none without a proof, else the key of a fresh
    proof made for this request. *)
Definition key_shown d q (w : World St X) (jkt : string) : Prop :=
  let proof := header (ca_http q) "Dpop" in
  proof = "" /\ jkt = "" \/
  exists k p, signed_with proof k /\ jwkThumbprintRFC7638 k = Some jkt /\ payload_of proof = Some p /\
    fits (fd_dpop (ac_front (te_access d))) (now_of w) (rq_Method (ca_http q)) (requestURLForDPoP (ca_http q)) p /\
    (forall s, fr_replay (front w) = Some s -> forall e, jti_entries s !! ("dpop:" +:+ dp_JTI p) = Some e -> e <= now_of w).

Definition certificate_of d q (x5t : string) (notAfter : Z) : Prop :=
  match ac_certExtractor (te_access d) ≫= (fun e => e (ca_http q)) with
  | Some cert => x5t = certificateThumbprintS256 cert /\ notAfter = ce_NotAfter cert
  | None => x5t = "" /\ notAfter = 0
  end.

(** In enforcing mode: a sender constraint, and an assertion under an allowed algorithm. *)
Definition fapi_met d q (jkt x5t : string) : Prop :=
  Enforcing (te_fapi d) = true ->
  (jkt <> "" \/ x5t <> "") /\ aq_ClientAssertion (ca_form q) <> "" /\
  let alg := ExtractJWTAlg (pr_json_member c "alg") (aq_ClientAssertion (ca_form q)) in alg = "" \/ alg ∈ FAPIAllowedAlgValues.

(** The request comes from the client. *)
Definition client_proved d q (w : World St X) (client : Client) (form : AuthRequest) : Prop :=
  let clients := fr_clients (front w) in
  clients !! aq_ClientID form = Some client /\ cl_Active client = true /\ AreResourcesAllowed client (aq_Resource (ca_form q)) = true /\
  (cl_TenantID client <> "" -> forall t, aq_Tenant (auth_request d q) = Some t -> t = cl_TenantID client) /\
  proves (ap_compare ap) (pr_ed25519 c) (pr_ecdsa c) (pr_pkcs1 c) (pr_pss c) (ap_claims ap) (auth_deps d) clients (now_of w) (auth_request d q) form client.

(** The tenant of the client may be written in the region. *)
Definition tenant_served d q (w : World St X) (client : Client) : Prop :=
  fd_tenantResidency (ac_front (te_access d)) = true -> cl_TenantID client <> "" -> ca_region q <> "" ->
  forall policy, (resolveResidencyPolicy (now_of w) (cl_TenantID client) (front w)).1 = Some policy -> evaluateResidency policy (ca_region q) true = None.

Record cleared d q (w : World St X) (client : Client) (form : AuthRequest) (jkt x5t : string) (notAfter : Z) : Prop := {
  ck_key : key_shown d q w jkt;
  ck_certificate : certificate_of d q x5t notAfter;
  ck_fapi : fapi_met d q jkt x5t;
  ck_client : client_proved d q w client form;
  ck_served : tenant_served d q w client;
  ck_grant : cl_GrantTypes client = [] \/ tr_GrantType (ca_req q) ∈ cl_GrantTypes client;
}.

(** [w1] is [w] with another replay store and whatever was logged. *)
Definition replayed (w w1 : World St X) : Prop :=
  exists rp, w_srv w1 = with_x (Build_Site (set_replay rp (front w)) (si_idem (sv_x (w_srv w)))) (w_srv w) /\ w_out w1 = w_out w.

Lemma replayed_refl w : replayed w w.
Proof. exists (fr_replay (front w)). split; [|done]. by destruct w as [[? ? ? ? ? ? ? [[] ?]] ? ?]. Qed.
Lemma replayed_trans w w1 w2 : replayed w w1 -> replayed w1 w2 -> replayed w w2.
Proof. intros (r1 & H1 & O1) (r2 & H2 & O2). exists r2. rewrite H2, H1, O2, O1. by split. Qed.
Lemma replayed_tokens w w1 : replayed w w1 -> tokens_of (w_srv w1) = tokens_of (w_srv w).
Proof. by intros (r & -> & _). Qed.

(** Running a program of the front that only changes the replay store. *)
Lemma on_front_replay {A} (m : M (Front B Y) A) (w w1 : World St X) a : (forall f, exists rp, (m f).2 = set_replay rp f) ->
  on_front m w = (a, w1) -> (m (front w)).1 = a /\ replayed w w1.
Proof.
  intros Hm. unfold on_front, on_x. destruct (Hm (front w)) as [rp Hr]. destruct (m (front w)) as [x f]. cbn in Hr. subst f.
  intros [= <- <-]. split; [done|]. by exists rp.
Qed.

Lemma sender_Some d q (w w1 : World St X) jkt x5t na : captureSenderConstraint d q w = (Some (jkt, x5t, na), w1) ->
  replayed w w1 /\ key_shown d q w jkt /\ certificate_of d q x5t na.
Proof.
  unfold captureSenderConstraint, key_shown, certificate_of.
  destruct (match ac_certExtractor (te_access d) ≫= (fun e => e (ca_http q)) with Some cert => _ | None => _ end) as [x n] eqn:Hx.
  destruct (decide (header (ca_http q) "Dpop" = "")) as [Hp|Hp].
  - intros [= <- <- <- <-]. split; [apply replayed_refl|]. split; [by left|]. by destruct (_ ≫= _); injection Hx as <- <-.
  - rewrite M_bind_unfold. cbn [gets fst snd]. rewrite M_bind_unfold. destruct (on_front _ w) as [r w2] eqn:Hr. cbn [fst snd].
    apply on_front_replay in Hr as [Hv Hw]; [|intros f; destruct (verify_proof _ _ _ _ _ _ _ _) as [? rp]; by exists rp].
    destruct (verify_proof c (te_access d) (now_of w) _ _ _ "" (fr_replay (front w))) as [v rp] eqn:E. cbn [fst] in Hv. subst v.
    destruct r as [j|[]]; try done. intros [= <- <- <- <-]. split; [done|]. split.
    + right. apply accepted_proof in E as (k & p & H1 & H2 & H3 & H4 & _ & H5). by exists k, p.
    + by destruct (_ ≫= _); injection Hx as <- <-.
Qed.

Lemma violations_frame vs (w : World St X) : w_srv (record_violations vs w).2 = w_srv w /\ w_out (record_violations vs w).2 = w_out w.
Proof.
  revert w. induction vs as [|v vs IH]; intros w; cbn [record_violations]; [done|]. rewrite M_bind_unfold. destruct (IH (emit (EvLog (vi_RuleID v)) w).2) as [H1 H2].
  by rewrite H1, H2.
Qed.

Lemma fapi_false d q jkt x5t (w w1 : World St X) : enforceFAPITokenRules d q jkt x5t w = (false, w1) -> replayed w w1 /\ fapi_met d q jkt x5t.
Proof.
  unfold enforceFAPITokenRules, fapi_met. destruct (Active (te_fapi d)) eqn:Ha; cbn [negb].
  2: { intros [= <-]. split; [apply replayed_refl|]. intros He. apply bool_decide_eq_true in He. rewrite He in Ha. discriminate Ha. }
  set (vs := CheckToken _ _ ++ _). destruct vs as [|v vs'] eqn:Hvs.
  - intros [= <-]. split; [apply replayed_refl|]. intros _. apply app_eq_nil in Hvs as [Ht Hs]. apply token_passes in Ht as [Hk Hm]; [|done]. cbn in Hk, Hm.
    apply orb_true_iff in Hk. rewrite !negb_true_iff, !bool_decide_eq_false in Hk. split; [done|].
    unfold fapiFAPIClientAssertionAlgCheck in Hs. unfold fapi_method in Hm. destruct (decide (aq_ClientAssertion (ca_form q) = "")) as [E|E].
    + exfalso. rewrite bool_decide_eq_true_2 in Hm by done. cbn [negb] in Hm.
      destruct (bool_decide (is_Some _)); [|destruct (negb (bool_decide (aq_ClientSecret (ca_form q) = "")))]; apply contains_spec in Hm; vm_compute in Hm; discriminate Hm.
    + split; [done|]. eapply (proj1 (signing_alg_passes _ _ Ha)) in Hs; [exact Hs|]. cbn. set_solver.
  - rewrite M_bind_unfold. destruct (violations_frame (v :: vs') w) as [H1 H2]. destruct (record_violations (v :: vs') w) as [[] w2]. cbn [fst snd] in *.
    destruct (Enforcing (te_fapi d)); [done|]. intros [= <-]. split; [|done]. destruct (replayed_refl w) as (rp & E1 & E2). exists rp. by rewrite H1, H2.
Qed.

Lemma client_Some d q (w w1 : World St X) client form : authenticate_client d q w = (Some (client, form), w1) ->
  replayed w w1 /\ client_proved d q w client form.
Proof.
  unfold authenticate_client. rewrite M_bind_unfold. cbn [gets fst snd]. rewrite M_bind_unfold. destruct (on_front _ w) as [r w2] eqn:Hr. cbn [fst snd].
  apply on_front_replay in Hr as [Hv Hw]; [|intros f; destruct (authenticateTokenClient _ _ _ _ _ _ _ _ _ _ _ _ _) as [? rp]; by exists rp].
  destruct (authenticateTokenClient _ _ _ _ _ _ _ _ _ _ _ _ (fr_replay (front w))) as [v rp] eqn:E. cbn [fst] in Hv. subst v.
  destruct r as [[[cl b] f]|[st code]]; [|done]. intros [= <- <- <-]. split; [done|]. by apply authenticated_client in E.
Qed.

(** What leaves the tokens, the clock and the answers alone. *)
Definition kept (w w1 : World St X) : Prop := tokens_of (w_srv w1) = tokens_of (w_srv w) /\ w_out w1 = w_out w.

Lemma replayed_kept w w1 : replayed w w1 -> kept w w1.
Proof. intros H. split; [by apply replayed_tokens|]. by destruct H as (? & _ & ?). Qed.
Lemma kept_trans w w1 w2 : kept w w1 -> kept w1 w2 -> kept w w2.
Proof. intros [H1 O1] [H2 O2]. split; congruence. Qed.

Lemma frame_tokens_on_x {A} (f : X -> A * X) : frame tokens_of (on_x f).
Proof. by apply frame_on_x. Qed.
Local Hint Resolve frame_tokens_on_x frame_gets frame_emit frame_ret : snap.

Lemma frame_refusal_answer st code : frame tokens_of (refuse st code : G bool).
Proof. done. Qed.
Lemma frame_denial_answer {A} st code : frame tokens_of (deny st code : G (option A)).
Proof. done. Qed.
Local Hint Resolve frame_refusal_answer frame_denial_answer : snap.

Lemma frame_sender d q : frame tokens_of (captureSenderConstraint d q).
Proof. unfold captureSenderConstraint. destruct (ac_certExtractor (te_access d) ≫= (fun e => e (ca_http q))); framing. Qed.
Lemma frame_fapi d q jkt x5t : frame tokens_of (enforceFAPITokenRules d q jkt x5t).
Proof.
  assert (forall vs, frame tokens_of (record_violations vs)) as Hv by (intros vs w; by destruct (violations_frame vs w) as [-> _]).
  unfold enforceFAPITokenRules. framing.
Qed.
Lemma frame_client d q : frame tokens_of (authenticate_client d q).
Proof. unfold authenticate_client. framing. Qed.
Lemma frame_residency d q client : frame tokens_of (residencyGateTokenGrant d q client).
Proof. unfold residencyGateTokenGrant. framing. Qed.
Lemma frame_grant_type client g : frame tokens_of (rejectDisallowedGrantType client g).
Proof. unfold rejectDisallowedGrantType. framing. Qed.
Lemma frame_public client form : frame tokens_of (denyPublicClientCredentials client form).
Proof. unfold denyPublicClientCredentials. framing. Qed.
Lemma frame_unregistered (deps : Deps X) scopes : frame tokens_of (rejectUnregistered deps scopes : G bool).
Proof. unfold rejectUnregistered. by destruct (RejectUnregistered _ _). Qed.
Lemma frame_combo d client scopes : frame tokens_of (scope_combo_gate d client scopes).
Proof. unfold scope_combo_gate. by destruct (denyTokenScopeCombo _ _ _ _). Qed.
Lemma frame_limit d g : frame tokens_of (checkGrantRateLimit d g).
Proof. unfold checkGrantRateLimit. framing. Qed.
Lemma frame_quota d client : frame tokens_of (consumeTokenRateQuota d client).
Proof. unfold consumeTokenRateQuota. framing. Qed.
Lemma frame_replay_gates d client form scopes : frame tokens_of (replay_gates d client form scopes).
Proof.
  unfold replay_gates. apply frame_bind; [apply frame_public|intros []; [done|]]. apply frame_bind; [apply frame_unregistered|intros []; [done|apply frame_combo]].
Qed.

(** A refusal: an error, and nothing else of what matters. *)
Definition refused_in (w w' : World St X) : Prop := tokens_of (w_srv w') = tokens_of (w_srv w) /\ exists r, is_error r /\ w_out w' = w_out w ++ [r].

Lemma refused_after w w1 w' : kept w w1 -> refused_in w1 w' -> refused_in w w'.
Proof. intros [H O] (H' & r & Hr & O'). split; [congruence|]. exists r. split; [done|congruence]. Qed.

Lemma unless_split (g : G bool) k (w w' : World St X) : gate g -> refuses g -> frame tokens_of g -> unless g k w = ((), w') ->
  refused_in w w' \/ exists w1, g w = (false, w1) /\ kept w w1 /\ k w1 = ((), w').
Proof.
  intros Hg Hr Hf. unfold unless. rewrite M_bind_unfold. specialize (Hf w). destruct (Hg w) as (rs & Ho & Hl). destruct (g w) as [[] w1] eqn:E; cbn in *.
  - intros [= <-]. left. split; [done|]. by apply Hr.
  - intros Hk. right. exists w1. destruct rs; [|done]. rewrite app_nil_r in Ho. by split_and!.
Qed.

Lemma obtain_split {A} (m : G (option A)) k (w w' : World St X) : resolves m -> GrantCore.denies m -> frame tokens_of m -> obtain m k w = ((), w') ->
  refused_in w w' \/ exists a w1, m w = (Some a, w1) /\ kept w w1 /\ k a w1 = ((), w').
Proof.
  intros Hm Hd Hf. unfold obtain. rewrite M_bind_unfold. specialize (Hf w). destruct (Hm w) as (rs & Ho & Hl). destruct (m w) as [[a|] w1] eqn:E; cbn in *.
  - intros Hk. right. exists a, w1. destruct rs; [|done]. rewrite app_nil_r in Ho. by split_and!.
  - intros [= <-]. left. split; [done|]. by apply Hd.
Qed.

Lemma resolve_residency_replay now t rp (f : Front B Y) : (resolveResidencyPolicy now t (set_replay rp f)).1 = (resolveResidencyPolicy now t f).1.
Proof.
  unfold resolveResidencyPolicy. cbn [set_replay fr_residency fr_policies fr_tenants]. destruct (fr_residency f ≫= _); [done|].
  destruct (mbind _ (fr_policies f)); [done|]. by destruct (fr_tenants f ≫= _).
Qed.

Lemma residency_false d q client (w w1 w2 : World St X) : replayed w w1 -> residencyGateTokenGrant d q client w1 = (false, w2) -> tenant_served d q w client.
Proof.
  intros (rp & Hw & _) H Hen Ht Hreg policy Hp. unfold residencyGateTokenGrant in H. rewrite Hen in H. rewrite bool_decide_eq_false_2 in H by done.
  cbn [negb orb] in H. rewrite decide_False in H by done. rewrite M_bind_unfold in H. cbn [gets fst snd] in H. rewrite M_bind_unfold in H.
  unfold on_front, on_x in H. rewrite Hw in H. cbn [with_x sv_x sv_now si_front si_idem] in H.
  rewrite <- (resolve_residency_replay _ _ rp) in Hp. unfold checkTenantResidency in H. rewrite !bool_decide_eq_false_2 in H by done. cbn [negb orb] in H.
  destruct (resolveResidencyPolicy _ _ _) as [o f]. cbn in Hp. subst o. cbn [fst snd] in H. by destruct (evaluateResidency policy _ _).
Qed.

(** An answer from the idempotency cache: the one recorded for this client, request and
    sender constraint, not expired, whose token is still valid. *)
Definition from_cache d q (w1 : World St X) (client : Client) (form : AuthRequest) (jkt x5t : string) (b : body) : Prop :=
  tr_GrantType (ca_req q) = GrantClientCredentials /\ header (ca_http q) HeaderIdempotencyKey <> "" /\
  exists cache, si_idem (sv_x (w_srv w1)) = Some cache /\
    idem_Get (now_of w1) (tokenIdempotencyCacheKey (cl_ID client) (header (ca_http q) HeaderIdempotencyKey) form (ca_req q) jkt x5t) cache = Some b /\
    CachedClientCredentialsValid (xd_deps (te_grants d)) client (tr_Scope (ca_req q)) (cached_token b) (w_srv w1) = true.

Lemma idempotency_cases d q client form jkt x5t (w w' : World St X) o :
  beginTokenIdempotency d q client form jkt x5t w = (o, w') ->
  match o with
  | Some _ => w' = w
  | None => refused_in w w' \/ exists b, from_cache d q w client form jkt x5t b /\ tokens_of (w_srv w') = tokens_of (w_srv w) /\ w_out w' = w_out w ++ [ROK b]
  end.
Proof.
  unfold beginTokenIdempotency. rewrite M_bind_unfold. cbn [gets fst snd]. destruct (si_idem (sv_x (w_srv w))) as [cache|] eqn:Hc; [|by intros [= <- <-]].
  destruct (bool_decide (tr_GrantType (ca_req q) = GrantClientCredentials)) eqn:Hg; [|by intros [= <- <-]]. cbn [negb orb].
  destruct (bool_decide (is_Some _)); [by intros [= <- <-]|]. destruct (decide _) as [|Hk]; [by intros [= <- <-]|]. rewrite M_bind_unfold. cbn [gets fst snd].
  destruct (idem_Get _ _ cache) as [b|] eqn:Hi; [|by intros [= <- <-]]. rewrite M_bind_unfold. cbn [gets fst snd].
  destruct (CachedClientCredentialsValid _ _ _ _ _) eqn:Hv; [|by intros [= <- <-]]. rewrite M_bind_unfold.
  assert (refuses (replay_gates d client form (Str.fields (tr_Scope (ca_req q))))) as Hr.
  { intros v v'. unfold replay_gates. rewrite M_bind_unfold. destruct (denyPublicClientCredentials client form v) as [[] v1] eqn:E1; cbn [fst snd].
    - intros [= <-]. by apply refuses_public in E1.
    - assert (v1 = v) as -> by (unfold denyPublicClientCredentials in E1; destruct (_ && _ && _); [discriminate E1|by injection E1]).
      rewrite M_bind_unfold. destruct (rejectUnregistered _ _ v) as [[] v2] eqn:E2; cbn [fst snd]; [intros [= <-]; by apply refuses_rejectUnregistered in E2|].
      apply rejectUnregistered_false in E2 as [-> _]. by apply refuses_combo. }
  pose proof (frame_replay_gates d client form (Str.fields (tr_Scope (ca_req q))) w) as Hf.
  destruct (gate_replay_gates d client form (Str.fields (tr_Scope (ca_req q))) w) as (rs & Ho & Hl).
  destruct (replay_gates _ _ _ _ w) as [[] w1] eqn:E; cbn [fst snd] in *.
  - intros [= <- <-]. left. split; [done|]. by apply Hr.
  - intros [= <- <-]. right. exists b. apply bool_decide_eq_true in Hg. destruct rs; [|done]. rewrite app_nil_r in Ho. split_and!; [|done|cbn; by rewrite Ho].
    split_and!; [done|done|]. by exists cache.
Qed.

(** The gates on the requested scopes are passed. *)
Definition scopes_admitted d (client : Client) (scopes : list string) : Prop :=
  RejectUnregistered (dp_ScopeRegistry (xd_deps (te_grants d))) scopes = None /\
  denyTokenScopeCombo (te_policies d) (cl_ID client) (cl_TenantID client) scopes = None.

(** The grant of the request's type. *)
Definition run_grant d q (rq : GrantCore.Request) (form : AuthRequest) : G () :=
  match te_custom d !! tr_GrantType (ca_req q) with
  | Some handle => handle (ca_req q) rq
  | None => dispatchGrantBranch d q rq form (requested_scopes_of q)
  end.

Lemma dispatch_split d q rq form (w w' : World St X) : dispatchTokenGrant d q rq form w = ((), w') ->
  refused_in w w' \/ exists w1, kept w w1 /\ scopes_admitted d (q_client rq) (requested_scopes_of q) /\ run_grant d q rq form w1 = ((), w').
Proof.
  unfold dispatchTokenGrant, scopes_admitted, run_grant. intros H.
  apply unless_split in H as [?|(w1 & H1 & K1 & H)]; [by left| |by auto with snap..|apply frame_unregistered]. apply rejectUnregistered_false in H1 as [-> Hu].
  apply unless_split in H as [?|(w1 & H1 & K2 & H)]; [by left| |by auto with snap..|apply frame_combo].
  assert (w1 = w /\ denyTokenScopeCombo (te_policies d) (cl_ID (q_client rq)) (cl_TenantID (q_client rq)) (requested_scopes_of q) = None) as [-> Hd].
  { unfold scope_combo_gate in H1. destruct (denyTokenScopeCombo _ _ _ _); [done|]. by injection H1 as <-. }
  destruct (te_custom d !! _); [right; by exists w|].
  apply unless_split in H as [?|(w2 & _ & K3 & H)]; [by left|right; by exists w2|by auto with snap..|apply frame_limit].
Qed.

Lemma quota_split d q rq form key (w w' : World St X) : dispatchTokenGrantWithQuota d q rq form key w = ((), w') ->
  refused_in w w' \/ exists w1 w2, kept w w1 /\ scopes_admitted d (q_client rq) (requested_scopes_of q) /\ run_grant d q rq form w1 = ((), w2) /\ kept w2 w'.
Proof.
  unfold dispatchTokenGrantWithQuota, captured. rewrite M_bind_unfold. destruct (unless _ _ w) as [[] w2] eqn:H. cbn [fst snd]. intros Hf.
  assert (kept w2 w') as K.
  { revert Hf. case_decide; [by intros [= <-]|]. unfold finishTokenIdempotency. rewrite M_bind_unfold. cbn [gets fst snd]. by intros [= <-]. }
  apply unless_split in H as [(T & r & Hr & O)|(w1 & _ & K1 & H)]; [| |by auto with snap..|apply frame_quota].
  - left. destruct K as [T' O']. split; [congruence|]. exists r. split; [done|congruence].
  - apply dispatch_split in H as [(T & r & Hr & O)|(w3 & K3 & Hs & H)].
    + left. destruct K as [T' O'], K1 as [T1 O1]. split; [congruence|]. exists r. split; [done|congruence].
    + right. exists w3, w2. split_and!; [by eapply kept_trans|done|done|done].
Qed.

(** The course of a request. *)
Lemma handled d q (w w' : World St X) : handleToken d q w = ((), w') ->
  refused_in w w' \/
  exists client form jkt x5t notAfter w1, cleared d q w client form jkt x5t notAfter /\ kept w w1 /\
    ((exists b, from_cache d q w1 client form jkt x5t b /\ tokens_of (w_srv w') = tokens_of (w_srv w) /\ w_out w' = w_out w ++ [ROK b]) \/
     scopes_admitted d client (requested_scopes_of q) /\
     exists w2, run_grant d q (grant_request q client jkt x5t notAfter) form w1 = ((), w2) /\ kept w2 w').
Proof.
  unfold handleToken. destruct (te_configured d); cbn [negb]; [|intros [= <-]; left; split; [done|]; eexists; split; [apply error_is_error|done]].
  destruct (ca_bindError q) as [st|]; [intros [= <-]; left; split; [done|]; eexists; split; [apply error_is_error|done]|]. intros H.
  apply obtain_split in H as [?|([[jkt x5t] na] & w1 & H1 & K1 & H)]; [by left| |apply resolves_sender|apply denies_sender|apply frame_sender].
  apply sender_Some in H1 as (R1 & Hkey & Hcert).
  apply unless_split in H as [F|(w2 & H2 & K2 & H)]; [left; by eapply refused_after| |by auto with snap..|apply frame_fapi].
  apply fapi_false in H2 as (R2 & Hfapi). pose proof (kept_trans _ _ _ K1 K2) as K12. pose proof (replayed_trans _ _ _ R1 R2) as R12.
  apply obtain_split in H as [F|([client form] & w3 & H3 & K3 & H)]; [left; by eapply refused_after| |apply resolves_client|apply denies_client|apply frame_client].
  apply client_Some in H3 as (R3 & Hclient). pose proof (kept_trans _ _ _ K12 K3) as K13. pose proof (replayed_trans _ _ _ R12 R3) as R13.
  assert (client_proved d q w client form) as Hproved.
  { destruct R12 as (rp & Hw & _). unfold client_proved in *. rewrite Hw in Hclient. exact Hclient. }
  apply unless_split in H as [F|(w4 & H4 & K4 & H)]; [left; by eapply refused_after| |by auto with snap..|apply frame_residency].
  apply (residency_false _ _ _ _ _ _ R13) in H4. pose proof (kept_trans _ _ _ K13 K4) as K14.
  apply unless_split in H as [F|(w5 & H5 & K5 & H)]; [left; by eapply refused_after| |by auto with snap..|apply frame_grant_type].
  pose proof (kept_trans _ _ _ K14 K5) as K15.
  assert (cl_GrantTypes client = [] \/ tr_GrantType (ca_req q) ∈ cl_GrantTypes client) as Hgrant.
  { unfold rejectDisallowedGrantType in H5. destruct (_ && _) eqn:E; [done|]. apply andb_false_iff in E as [E|E]; apply negb_false_iff in E.
    - left. by apply bool_decide_eq_true in E.
    - right. by apply contains_spec in E. }
  assert (cleared d q w client form jkt x5t na) as Hcl by done.
  unfold obtain in H. rewrite M_bind_unfold in H. destruct (beginTokenIdempotency d q client form jkt x5t w5) as [[key|] w6] eqn:Hi;
    apply idempotency_cases in Hi; cbn [fst snd] in H.
  - subst w6. apply quota_split in H as [F|(w7 & w8 & K7 & Hs & Hrun & K8)]; [left; by eapply refused_after|]. right.
    exists client, form, jkt, x5t, na, w7. split; [done|]. split; [by eapply kept_trans|]. right. split; [done|]. by exists w8.
  - injection H as <-. destruct Hi as [F|(b & Hb & T & O)]; [left; by eapply refused_after|]. right. exists client, form, jkt, x5t, na, w5.
    split; [done|]. split; [done|]. left. destruct K15 as [T' O']. exists b. split_and!; [done|congruence|congruence].
Qed.

(** C5 — The token endpoint gives a token for an authorization code only to the client it
    was issued to, which has proved itself, with the redirect URI, the PKCE verifier and
    the DPoP key it is bound to. *)
Theorem code_redeemed_by_owner d q (w w' : World St X) b : placed (acs_entries (sv_codes (w_srv w))) ->
  te_custom d !! GrantAuthorizationCode = None -> tr_GrantType (ca_req q) = GrantAuthorizationCode ->
  handleToken d q w = ((), w') -> w_out w' = w_out w ++ [ROK b] ->
  exists client form jkt info, client_proved d q w client form /\ key_shown d q w jkt /\
    denote (acs_entries (sv_codes (w_srv w))) !! tr_Code (ca_req q) = Some info /\ AuthCode_IsExpired (now_of w) info = false /\
    ac_ClientID info = cl_ID client /\ (ac_RedirectURI info = "" \/ tr_RedirectURI (ca_req q) = ac_RedirectURI info) /\
    (ac_CodeChallenge info = "" \/ VerifyPKCE (ac_CodeChallengeMethod info) (ac_CodeChallenge info) (tr_CodeVerifier (ca_req q)) = true) /\
    (ac_ConfirmationJKT info = "" \/ ac_ConfirmationJKT info = jkt).
Proof.
  intros Hp Hcu Hg H Ho. apply handled in H as [(_ & r & Hr & O)|(client & form & jkt & x5t & na & w1 & Hcl & [T1 O1] & [(b' & (Hcc & _) & _)|(_ & w2 & Hrun & T2 & O2)])].
  - by eapply ok_not_error.
  - rewrite Hg in Hcc. discriminate Hcc.
  - unfold run_grant in Hrun. rewrite Hg, Hcu in Hrun. unfold dispatchGrantBranch in Hrun. rewrite Hg in Hrun. cbn [decide] in Hrun.
    rewrite decide_True in Hrun by done. unfold HandleAuthCodeGrant in Hrun. rewrite O2 in Ho. rewrite <- O1 in Ho.
    destruct (negb (dp_AuthCodeStore _)); [injection Hrun as <-; by eapply ok_not_error; [apply error_is_error| |exact Ho]|].
    destruct (decide (cr_Code _ = "")); [injection Hrun as <-; by eapply ok_not_error; [apply error_is_error| |exact Ho]|].
    eapply obtain_ok in Hrun as (info' & w3 & Hv & _); [|apply resolves_validate|apply denies_validate|exact Ho].
    apply validate_Some in Hv as (_ & info & scopes & rs & Hc & (B1 & B2 & B3 & B4) & _). cbn in B1, B2, B3, B4, Hc.
    assert (sv_codes (w_srv w1) = sv_codes (w_srv w) /\ now_of w1 = now_of w) as [E1 E2] by (injection T1 as _ _ ? ? _ _; done).
    rewrite E1, E2 in Hc. apply ConsumeCode_value in Hc as [Hd He]; [|done]. destruct Hcl. exists client, form, jkt, info. split_and!; try done.
    destruct B3 as [?|[_ ?]]; auto.
Qed.

(** C4 — Nothing is given at the token endpoint for nothing.  Unless the request is
    refused with an error and leaves codes, tokens and secrets alone, it came from a
    registered, active client of its tenant that proved itself by its own method; the
    keys its token will be bound to are those of a fresh DPoP proof made for this
    request and of the certificate of its connection; an enforced FAPI profile is met,
    the tenant may be served in the region and the client may use the grant.  Then
    either a valid token recorded for the same client, request and keys is given again,
    or the registered scopes pass the token policy and the grant of the request runs for
    exactly this client and these keys. *)
Theorem token_endpoint_sound d q (w w' : World St X) : handleToken d q w = ((), w') ->
  refused_in w w' \/
  exists client form jkt x5t notAfter w1, cleared d q w client form jkt x5t notAfter /\ kept w w1 /\
    ((exists b, from_cache d q w1 client form jkt x5t b /\ tokens_of (w_srv w') = tokens_of (w_srv w) /\ w_out w' = w_out w ++ [ROK b]) \/
     scopes_admitted d client (requested_scopes_of q) /\
     exists w2, run_grant d q (grant_request q client jkt x5t notAfter) form w1 = ((), w2) /\ kept w2 w').
Proof. intros H. exact (handled _ _ _ _ H). Qed.

(** An enforced FAPI profile turns away the clients of RFC 8705: a request without a
    client assertion is refused even when it comes over a connection with the certificate
    its client is registered to authenticate with, which the profile allows. *)
Theorem fapi_refuses_certificates d q (w w' : World St X) : Enforcing (te_fapi d) = true -> aq_ClientAssertion (ca_form q) = "" ->
  handleToken d q w = ((), w') ->
  refused_in w w' /\ CheckClientAuth (te_fapi d) (aq_ClientID (ca_form q)) ClientAuthTLS = [].
Proof.
  intros He Ha H. split.
  - apply handled in H as [F|(client & form & jkt & x5t & na & w1 & Hcl & _)]; [done|]. destruct (ck_fapi _ _ _ _ _ _ _ _ Hcl He) as (_ & Hne & _). done.
  - unfold CheckClientAuth. by destruct (negb _).
Qed.

(** A public client whose record holds a secret passes the gate that keeps public clients
    from the client_credentials grant: it looks at the stored secret, not at what the
    client proved. *)
Lemma public_client_passes client form w : cl_TokenEndpointAuthMethod client = "none" -> cl_Secret client <> "" ->
  denyPublicClientCredentials client form w = (false, w).
Proof. intros _ Hs. unfold denyPublicClientCredentials. by rewrite bool_decide_eq_false_2. Qed.
End endpoint.

(** ** Witnesses *)

Notation toy_site := (Site () ()).
Notation toy_store := MemoryRefreshTokenStore.

Definition site_issuer : GrantCore.TokenIssuer toy_site := {|
  ti_Issue sub scopes x :=
    (Ok {| tk_AccessToken := "at:" +:+ su_ID sub; tk_TokenType := "Bearer"; tk_RefreshToken := "";
           tk_ExpiresIn := 300; tk_Scope := Str.join scopes; tk_CreatedAt := 0 |}, x);
  GrantCore.ti_Validate x tok := Ok (Some (sample_claims (if decide (tok = "at:odd") then "odd" else "app"))) |}.

Definition site_deps : Deps toy_site := {|
  dp_RefreshTokenStore := true; dp_AuthCodeStore := true; dp_DeviceCodeStore := true; dp_CIBAStore := true; dp_DeviceSecretStore := true;
  dp_SessionManager := None; dp_IssuerForClient := fun _ _ => Some ("jwt", site_issuer); dp_IDTokenIssuerForClient := fun _ _ => Some None;
  dp_ApplyPairwiseSubject := fun _ _ sub => sub; dp_MaybeEncryptIDToken := fun _ _ signed => Some signed; dp_ProjectIDTokenClaims := fun claims _ => claims;
  dp_LifecycleState := None; dp_EnforceRefreshDepthPolicy := fun _ _ _ _ _ x => (None, x);
  dp_EnforceRefreshConditionalAccess := fun _ _ scopes x => (Ok scopes, x);
  dp_ScopeRegistry := None; dp_RefreshAbsoluteMaxLifetime := 0; dp_refreshTokenTTL := 3600; dp_deviceSecretTTL := 0 |}.

Definition site_exchange : ExchangeDeps toy_site := {|
  xd_deps := site_deps; xd_ValidateAnyToken := fun _ _ => Err (); xd_ResolveLocalSubject := fun _ s => (s, false);
  xd_SPIFFEValidator := None; xd_SPIFFEAudience := ""; xd_JTIReplayStore := None; xd_JTIReplayFailClosed := true; xd_Auditor := true;
  xd_MaxTokenExchangeChainLifetime := 0; xd_TokenExchangePolicy := None; xd_ExternalUserStore := None; xd_TenantCollaborationStore := None;
  xd_HomeTenantForClient := fun _ _ => ""; xd_TokenExchangeChainStore := None; xd_resolveIssuer := "https://op"; xd_json_member := fun _ _ => None |}.

Definition toy_endpoint (fapi : Fapi.Validator) : EndpointDeps toy_store toy_site := {|
  te_configured := true; te_access := toy_access; te_auth := toy_deps; te_fapi := fapi; te_grants := site_exchange; te_policies := None;
  te_IncrementUsage := None; te_limiters := ∅; te_custom := ∅; te_jwtBearer := None; te_txnIssuer := None; te_txnValidator := None |}.

(** A public client, and one that is public but has a secret on record. *)
Definition with_secret (c : Client) (secret : string) : Client := {|
  cl_ID := cl_ID c; cl_Secret := secret; cl_Name := cl_Name c; cl_RedirectURIs := cl_RedirectURIs c;
  cl_RedirectURIPatterns := cl_RedirectURIPatterns c; cl_AllowedScopes := cl_AllowedScopes c;
  cl_AllowedAuthenticators := cl_AllowedAuthenticators c; cl_AllowedProviderIDs := cl_AllowedProviderIDs c;
  cl_LoginPageURI := cl_LoginPageURI c; cl_TokenStrategy := cl_TokenStrategy c; cl_Active := cl_Active c;
  cl_Federation := cl_Federation c; cl_TenantID := cl_TenantID c; cl_RequirePKCE := cl_RequirePKCE c;
  cl_AllowedResources := cl_AllowedResources c; cl_RegistrationAccessToken := cl_RegistrationAccessToken c;
  cl_PreviousRegistrationAccessToken := cl_PreviousRegistrationAccessToken c;
  cl_RegistrationAccessTokenOverlapUntil := cl_RegistrationAccessTokenOverlapUntil c;
  cl_PostLogoutRedirectURIs := cl_PostLogoutRedirectURIs c;
  cl_AllowedAuthorizationDetailsTypes := cl_AllowedAuthorizationDetailsTypes c;
  cl_RefreshTokenTTL := cl_RefreshTokenTTL c; cl_AccessTokenTTL := cl_AccessTokenTTL c; cl_GrantTypes := cl_GrantTypes c;
  cl_PreviousSecret := cl_PreviousSecret c; cl_SecretOverlapUntil := cl_SecretOverlapUntil c; cl_SecretRotatedAt := cl_SecretRotatedAt c;
  cl_SecretExpiresAt := cl_SecretExpiresAt c; cl_JWKS := []; cl_TokenEndpointAuthMethod := "none"; cl_TLSClientAuthSubjectDN := "";
  cl_TLSClientAuthSANDNS := ""; cl_TLSClientAuthSANEmail := ""; cl_TLSClientAuthSANURI := ""; cl_Attributes := ∅ |}.

Definition toy_site_state : toy_site := {|
  si_front := {| fr_issuers := (); fr_clients := {[ "app" := with_secret (plain_client "app" [] []) ""; "odd" := with_secret (plain_client "odd" [] []) "s3cret" ]};
    fr_tenants := None; fr_suspension := None; fr_residency := None; fr_policies := None; fr_lifecycle := None; fr_pairwise := None;
    fr_sessions := None; fr_refresh := None; fr_cache := None; fr_replay := Some toy_replay |};
  si_idem := Some (NewMemoryIdempotentCache 0) |}.

Definition endpoint_world : World toy_store toy_site := {|
  w_srv := {| sv_now := 100; sv_refresh := NewMemoryRefreshTokenStore 0 0 0; sv_grace := None; sv_codes := sample_codes; sv_devices := NewMemoryDeviceCodeStore 0;
              sv_ciba := NewMemoryCIBAStore; sv_secrets := {| dss_secrets := ∅ |}; sv_x := toy_site_state |};
  w_out := []; w_events := [] |}.

Definition token_request (grant code verifier : string) : TokenRequest := {|
  tr_GrantType := grant; tr_Code := code; tr_RefreshToken := ""; tr_Scope := ""; tr_RedirectURI := "https://app/cb"; tr_CodeVerifier := verifier; tr_DeviceCode := "";
  tr_AuthReqID := ""; tr_SubjectToken := ""; tr_SubjectTokenType := ""; tr_ActorToken := ""; tr_ActorTokenType := ""; tr_Audience := []; tr_RequestedTokenType := "";
  tr_ACRValues := ""; tr_Purp := ""; tr_RequestContext := ""; tr_Assertion := ""; tr_AgentSessionID := "" |}.

Definition public_form (client : string) : AuthRequest := {|
  aq_Authorization := []; aq_BasicAuth := None; aq_PostForm := ["client_id"]; aq_ClientID := client; aq_ClientSecret := ""; aq_ClientSecretPresent := false;
  aq_ClientAssertion := ""; aq_ClientAssertionType := ""; aq_ClientAssertionPresent := false; aq_ClientAssertionTypePresent := false; aq_Resource := [];
  aq_Tenant := None; aq_Cert := None |}.

Definition toy_call (client grant code verifier : string) (headers : gmap string (list string)) : Call toy_store toy_site := {|
  ca_http := {| rq_Method := "POST"; rq_Host := "op"; rq_Path := "/token"; rq_TLS := Some []; rq_Header := headers; rq_ForwardedTrusted := false |};
  ca_bindError := None; ca_form := public_form client; ca_req := token_request grant code verifier; ca_region := ""; ca_draws := Issue.sample_draws "rt-1"; ca_secret := None;
  ca_random := None; ca_polls := []; ca_stop := fun s => s; ca_race := fun s => s |}.

(** The key is the client and the key of the request. *)
Definition toy_key_bytes (k : string * string * string * string) (r : string * list string * TokenRequest) : list Z := string_bytes (k.1.1.1 +:+ k.1.1.2).
Notation toy_handle fapi q := (handleToken toy_primitives toy_auth (fun _ => true) (fun _ => None) (fun _ => None) toy_key_bytes (toy_endpoint fapi) q).
Definition code_call : Call toy_store toy_site := toy_call "app" GrantAuthorizationCode "c1" "dBjftJeZ4CVP-mB92K27uhbUJU1p1r_wW1gFWFOEjXk" ∅.
Definition statuses (w : World toy_store toy_site) : list Z := (fun r => match r with ROK _ => 200 | RError st _ => st end) <$> w_out w.

(** The public client with a secret on record is given a token in its own name. *)
Example public_client_credentials : 
  (statuses (toy_handle None (toy_call "odd" GrantClientCredentials "" "" ∅) endpoint_world).2,
   statuses (toy_handle None (toy_call "app" GrantClientCredentials "" "" ∅) endpoint_world).2) = ([200], [401]).
Proof. vm_compute. reflexivity. Qed.

(** A retry under the same key is answered from the cache: the response is the same and
    no second token is issued. *)
Definition issued_count (w : World toy_store toy_site) : nat := length (List.filter (fun e => match e with EvTokenIssued _ _ _ => true | _ => false end) (w_events w)).
Example idempotent_retry :
  let q := toy_call "odd" GrantClientCredentials "" "" {[ HeaderIdempotencyKey := ["k"] ]} in
  let w := (toy_handle None q (toy_handle None q endpoint_world).2).2 in
  (statuses w, issued_count w) = ([200; 200], 1%nat).
Proof. vm_compute. reflexivity. Qed.

Lemma token_endpoint_answers_once_witness : exists r, w_out (toy_handle None code_call endpoint_world).2 = w_out endpoint_world ++ [r].
Proof. apply (token_endpoint_answers_once toy_primitives toy_auth (fun _ => true) (fun _ => None) (fun _ => None) toy_key_bytes (toy_endpoint None) code_call endpoint_world). by intros g handle. Defined.

Lemma endpoint_run fapi q w : toy_handle fapi q w = ((), (toy_handle fapi q w).2).
Proof. by destruct (toy_handle fapi q w) as [[] w']. Qed.

(** The code is exchanged, so the request was cleared and the grant ran. *)
Lemma token_endpoint_sound_witness :
  exists client form jkt x5t notAfter, cleared toy_primitives toy_auth (toy_endpoint None) code_call endpoint_world client form jkt x5t notAfter.
Proof.
  destruct (token_endpoint_sound toy_primitives toy_auth (fun _ => true) (fun _ => None) (fun _ => None) toy_key_bytes (toy_endpoint None) code_call endpoint_world _
    (endpoint_run None code_call endpoint_world)) as [(_ & r & (st & code & ->) & Ho)|(client & form & jkt & x5t & na & _ & Hc & _)].
  - exfalso. apply (f_equal (fun l => match l with [ROK _] => true | _ => false end)) in Ho. vm_compute in Ho. discriminate Ho.
  - by exists client, form, jkt, x5t, na.
Defined.

Lemma code_redeemed_by_owner_witness : exists client form,
  client_proved toy_primitives toy_auth (toy_endpoint None) code_call endpoint_world client form /\ cl_ID client = "app".
Proof.
  assert (exists b, w_out (toy_handle None code_call endpoint_world).2 = w_out endpoint_world ++ [ROK b]) as [b Hb].
  { assert (match w_out (toy_handle None code_call endpoint_world).2 with [ROK _] => True | _ => False end) as H by (vm_compute; exact I).
    destruct (w_out (toy_handle None code_call endpoint_world).2) as [|[|b] [|]]; [done..|by exists b|done]. }
  destruct (code_redeemed_by_owner toy_primitives toy_auth (fun _ => true) (fun _ => None) (fun _ => None) toy_key_bytes (toy_endpoint None) code_call endpoint_world _ b
    sample_codes_placed eq_refl eq_refl (endpoint_run None code_call endpoint_world) Hb) as (client & form & jkt & info & Hc & _ & Hd & _ & Hid & _).
  exists client, form. split; [exact Hc|]. rewrite <- Hid. apply (f_equal (fun o => from_option ac_ClientID "" o)) in Hd. cbn [from_option] in Hd.
  rewrite <- Hd. vm_compute. reflexivity.
Defined.

Lemma fapi_refuses_certificates_witness : CheckClientAuth (Some ModeEnforce) "app" ClientAuthTLS = [] /\
  statuses (toy_handle (Some ModeEnforce) code_call endpoint_world).2 = [400].
Proof.
  split; [|vm_compute; reflexivity].
  exact (proj2 (fapi_refuses_certificates toy_primitives toy_auth (fun _ => true) (fun _ => None) (fun _ => None) toy_key_bytes (toy_endpoint (Some ModeEnforce)) code_call
    endpoint_world _ eq_refl eq_refl (endpoint_run (Some ModeEnforce) code_call endpoint_world))).
Defined.
