(* ===== verification/TrustChain.v ===== *)
(** * TrustChain: who belongs to a federation (OpenID Federation 1.0)
    ([domains/federation]: [trust_chain.go], [trust_chain_assemble.go],
    [trust_chain_climb.go], [trust_chain_validate.go], [constraints.go], [jws_parse.go],
    [entity_statement.go], [entity_statement_config.go], the URL gate of [fetcher.go], and
    [IsInternalIP] of [shared/security/securityverify/jar_fetch.go]).

    A chain is assembled from what the network answers, and trusted only after it is
    verified from the configured anchor down.  The network is an interface with a state of
    its own, so it may answer anything, and differently each time.  The signature
    schemes, encoding/json, net/url and the reading of an IP address are arguments. *)
From S2P Require Import Prelude Crypto Core Scopes AdminPaging MetadataPolicy Jose Jwks JwtIssuer.
Local Open Scope Z_scope.

(** ** Statements ([entity_statement.go]) *)

Definition EntityStatementTyp : string := "entity-statement+jwt".

Record TrustMarkEntry := { tm_TrustMarkType : string; tm_TrustMark : string }.

Record NamingConstraints := { nc_Permitted : list string; nc_Excluded : list string }.

(** A pointer is an option: an absent member is not an empty one. *)
Record EntityConstraints := {
  ec_MaxPathLength : option Z;
  ec_NamingConstraints : option NamingConstraints;
  ec_AllowedEntityTypes : option (list string);
}.

Record FederationEntityMeta := {
  fe_FederationFetchEndpoint : string;
  fe_TrustMarkIssuers : gmap string (list string);
}.

(** Of the provider metadata only the presence is read. *)
Record EntityMetadata := {
  em_OP : bool;
  em_FederationEntity : option FederationEntityMeta;
  em_RP : option metadata;
}.

Record EntityStatementClaims := {
  es_Iss : string;
  es_Sub : string;
  es_Iat : Z;
  es_Exp : Z;
  es_JWKS : list JWK;
  es_Metadata : option EntityMetadata;
  es_AuthorityHints : list string;
  es_MetadataPolicy : gmap string (gmap string paramPolicy);
  es_Constraints : option EntityConstraints;
  es_TrustMarks : list TrustMarkEntry;
}.

(** A statement fetched and parsed; its signature is checked later. *)
Record chainLink := { compact : string; claims : EntityStatementClaims }.

(** ** Configuration ([entity_statement_config.go]) *)

Record TrustAnchor := { ta_EntityID : string; ta_Keys : list JWK }.

Record TrustMarkIssuer := { ti_EntityID : string; ti_Keys : list JWK; ti_AllowedTypes : list string }.

Record Config := {
  cf_TrustAnchors : list TrustAnchor;
  cf_MaxTrustChainDepth : Z;
  cf_MaxClockSkew : Z;
  cf_RequiredTrustMarkTypes : list string;
  cf_TrustMarkIssuers : list TrustMarkIssuer;
  cf_AllowFederationResolvedTrustMarkIssuers : bool;
  cf_MaxResolvedIssuersPerRequest : Z;
  cf_MaxConcurrentIssuerResolutions : Z;
  cf_ResolvedIssuerNegativeCacheTTL : Z;
  cf_ResolvedIssuerNegativeCacheMaxSize : Z;
  cf_MaxLeafTrustMarks : Z;
}.

Definition DefaultMaxTrustChainDepth : Z := 5.
Definition DefaultFederationClockSkew : Z := 60 * GoTime.Second.

Definition maxTrustChainDepth (c : option Config) : Z :=
  match c with Some c => if cf_MaxTrustChainDepth c <=? 0 then DefaultMaxTrustChainDepth else cf_MaxTrustChainDepth c | None => DefaultMaxTrustChainDepth end.
Definition maxClockSkew (c : option Config) : Z :=
  match c with Some c => if cf_MaxClockSkew c <=? 0 then DefaultFederationClockSkew else cf_MaxClockSkew c | None => DefaultFederationClockSkew end.

Definition federationAsymmetricAlgs : list string :=
  ["EdDSA"; "ES256"; "ES384"; "ES512"; "RS256"; "RS384"; "RS512"; "PS256"; "PS384"; "PS512"].

Inductive chain_error := ErrTrustChainInvalid | ErrFederationResolverDisabled.

(** What the log tells of a rejected chain. *)
Inductive link_error :=
| EmptyChain | AnchorWithoutKeys | NoVerificationKeys | NotAStatement | BadSignature | NotSelfSigned | NoExpiry | StatementExpired | NotYetValid
| WrongIssuer | BadSubject | NoSubjectKeys | NegativePathLength | PathTooLong | EntityTypeNotAllowed
| NotAnHTTPSHost | MalformedConstraint | ExcludedHost | HostNotPermitted.

(** ** Internal addresses ([IsInternalIP]) *)

(** A [net.IP] is a list of 4 or 16 bytes. *)

Definition v4InV6Prefix : list Z := [0; 0; 0; 0; 0; 0; 0; 0; 0; 0; 255; 255].

(** The methods of the standard library that classify an address. *)
Definition To4 (ip : list Z) : option (list Z) :=
  if (length ip =? 4)%nat then Some ip
  else if (length ip =? 16)%nat && bool_decide (take 12 ip = v4InV6Prefix) then Some (drop 12 ip) else None.
Definition IP_Equal (ip x : list Z) : bool :=
  if (length ip =? length x)%nat then bool_decide (ip = x)
  else if (length ip =? 4)%nat && (length x =? 16)%nat then bool_decide (x = v4InV6Prefix ++ ip)
  else if (length ip =? 16)%nat && (length x =? 4)%nat then bool_decide (ip = v4InV6Prefix ++ x)
  else false.
Definition byte_at (ip : list Z) (n : nat) : Z := default 0 (ip !! n).
Definition IsLoopback (ip : list Z) : bool :=
  match To4 ip with Some v4 => byte_at v4 0 =? 127 | None => IP_Equal ip (replicate 15 0 ++ [1]) end.
Definition IsLinkLocalUnicast (ip : list Z) : bool :=
  match To4 ip with
  | Some v4 => (byte_at v4 0 =? 169) && (byte_at v4 1 =? 254)
  | None => (length ip =? 16)%nat && (byte_at ip 0 =? 254) && (Z.land (byte_at ip 1) 192 =? 128)
  end.
Definition IsLinkLocalMulticast (ip : list Z) : bool :=
  match To4 ip with
  | Some v4 => (byte_at v4 0 =? 224) && (byte_at v4 1 =? 0) && (byte_at v4 2 =? 0)
  | None => (length ip =? 16)%nat && (byte_at ip 0 =? 255) && (Z.land (byte_at ip 1) 15 =? 2)
  end.
Definition IsUnspecified (ip : list Z) : bool := IP_Equal ip (v4InV6Prefix ++ [0; 0; 0; 0]) || IP_Equal ip (replicate 16 0).
Definition IsPrivate (ip : list Z) : bool :=
  match To4 ip with
  | Some v4 => (byte_at v4 0 =? 10) || (byte_at v4 0 =? 172) && (Z.land (byte_at v4 1) 240 =? 16) || (byte_at v4 0 =? 192) && (byte_at v4 1 =? 168)
  | None => (length ip =? 16)%nat && (Z.land (byte_at ip 0) 254 =? 252)
  end.

(** The call on the embedded address is one deep: the 4-byte form of a 4-byte address is
    itself. *)
Definition internal_range (ip : list Z) : bool :=
  IsLoopback ip || IsLinkLocalUnicast ip || IsLinkLocalMulticast ip || IsUnspecified ip || IsPrivate ip.
Definition IsInternalIP (ip : list Z) : bool :=
  internal_range ip || match To4 ip with Some v4 => negb (IP_Equal v4 ip) && internal_range v4 | None => false end.

(** ** Constraints on a subtree ([constraints.go]) *)

Definition federationEntityType : string := "federation_entity".

Definition leafEntityTypes (leaf : chainLink) : list string :=
  match es_Metadata (claims leaf) with
  | None => []
  | Some m =>
      (if em_RP m then [rpMetadataType] else []) ++ (if em_OP m then ["openid_provider"] else []) ++
      (if em_FederationEntity m then [federationEntityType] else [])
  end.

Definition checkAllowedEntityTypes (leafTypes allowed : list string) : result link_error () :=
  if forallb (fun t => contains (federationEntityType :: allowed) t) leafTypes then Ok () else Err EntityTypeNotAllowed.

(** A constraint that begins with a period names a subtree, any other one host. *)
Definition hostMatchesDomainConstraint (host constraint : string) : result link_error bool :=
  let c := ToLower (Str.TrimSpace constraint) in
  if decide (c = "") then Err MalformedConstraint
  else if HasPrefix c "." then (if decide (c = ".") then Err MalformedConstraint else Ok (HasSuffix host c))
  else Ok (bool_decide (host = c)).

(** Whether one of the entries matches; the search stops at the first that does. *)
Fixpoint anyHostMatch (host : string) (entries : list string) : result link_error bool :=
  match entries with
  | [] => Ok false
  | e :: rest => m ← hostMatchesDomainConstraint host e; if (m : bool) then Ok true else anyHostMatch host rest
  end.

(** A loop that returns the first error. *)
Fixpoint first_error {E} (checks : list (result E ())) : result E () :=
  match checks with [] => Ok () | c :: rest => _ ← c; first_error rest end.

Section constraints.
(** The scheme and the host name of a URL. *)
Context (url_Parse : string -> option (string * string)).
Context (net_ParseIP : string -> option (list Z)).

Definition validateFederationURL (raw : string) : bool :=
  match url_Parse (Str.TrimSpace raw) with
  | None => false
  | Some (scheme, host) =>
      bool_decide (scheme = "https") && negb (bool_decide (host = "")) &&
      match net_ParseIP host with Some ip => negb (IsInternalIP ip) | None => true end
  end.

Definition entityHost (entityID : string) : result link_error string :=
  match url_Parse (Str.TrimSpace entityID) with
  | None => Err NotAnHTTPSHost
  | Some (scheme, host) => if bool_decide (scheme = "https") && negb (bool_decide (host = "")) then Ok (ToLower host) else Err NotAnHTTPSHost
  end.

Definition checkNamingConstraint (entityID : string) (nc : NamingConstraints) : result link_error () :=
  host ← entityHost entityID;
  excluded ← anyHostMatch host (nc_Excluded nc);
  if (excluded : bool) then Err ExcludedHost
  else match nc_Permitted nc with
       | [] => Ok ()
       | ps => permitted ← anyHostMatch host ps; if (permitted : bool) then Ok () else Err HostNotPermitted
       end.

Definition enforceMaxPathLength (c : EntityConstraints) (i : Z) : result link_error () :=
  match ec_MaxPathLength c with
  | None => Ok ()
  | Some limit => if limit <? 0 then Err NegativePathLength else if limit <? i - 1 then Err PathTooLong else Ok ()
  end.

(** [below] are the statements from the leaf's superior up to the one that constrains. *)
Definition enforceNamingConstraints (c : EntityConstraints) (below : list chainLink) : result link_error () :=
  match ec_NamingConstraints c with
  | None => Ok ()
  | Some nc => first_error ((fun l => checkNamingConstraint (es_Sub (claims l)) nc) <$> below)
  end.

Definition enforceAllowedEntityTypes (c : EntityConstraints) (leafTypes : list string) : result link_error () :=
  match ec_AllowedEntityTypes c with None => Ok () | Some allowed => checkAllowedEntityTypes leafTypes allowed end.

Definition enforceStatementConstraints (c : EntityConstraints) (i : Z) (below : list chainLink) (leafTypes : list string) : result link_error () :=
  _ ← enforceMaxPathLength c i; _ ← enforceNamingConstraints c below; enforceAllowedEntityTypes c leafTypes.

(** The statements between the configurations of the leaf and of the anchor; that at
    index [i] of the chain is at [i - 1] here. *)
Definition subordinates (above : list chainLink) : list chainLink := take (length above - 1) above.

Definition enforceConstraints (leaf : chainLink) (above : list chainLink) : result link_error () :=
  first_error (imap (fun k l =>
    match es_Constraints (claims l) with
    | None => Ok ()
    | Some c => enforceStatementConstraints c (Z.of_nat (S k)) (take (S k) above) (leafEntityTypes leaf)
    end) (subordinates above)).
End constraints.

(** ** The resolver ([trust_chain.go]) *)

(** [EntityStatementFetcher], on the state of the network. *)
Record EntityStatementFetcher (X : Type) := {
  FetchEntityConfiguration : string -> M X (option string);
  FetchSubordinateStatement : string -> string -> string -> M X (option string);
}.
Arguments FetchEntityConfiguration {X}. Arguments FetchSubordinateStatement {X}. Arguments Build_EntityStatementFetcher {X}.

Record TrustChainResolver (X : Type) := { tr_cfg : option Config; tr_fetcher : EntityStatementFetcher X; tr_allowedAlgs : list string }.
Arguments tr_cfg {X}. Arguments tr_fetcher {X}. Arguments tr_allowedAlgs {X}. Arguments Build_TrustChainResolver {X}.

(** The options set the fetcher and, when not empty, the algorithms; the clock is the
    [now] of each operation. *)
Definition NewTrustChainResolver {X} (cfg : option Config) (fetcher : EntityStatementFetcher X) (algs : list string) : TrustChainResolver X :=
  {| tr_cfg := cfg; tr_fetcher := fetcher; tr_allowedAlgs := match algs with [] => federationAsymmetricAlgs | _ => algs end |}.

Definition anchors {X} (r : TrustChainResolver X) : list TrustAnchor := match tr_cfg r with Some c => cf_TrustAnchors c | None => [] end.

Definition Enabled {X} (r : TrustChainResolver X) : bool := match anchors r with [] => false | _ => true end.

Record TrustChain := {
  tc_LeafEntityID : string;
  tc_AnchorEntityID : string;
  tc_Statements : list string;
  tc_ResolvedRPMetadata : option metadata;
  tc_LeafTrustMarks : list TrustMarkEntry;
  tc_AnchorTrustMarkIssuers : gmap string (list string);
  tc_LeafKeys : list JWK;
}.

(** The fetch budget of a resolution, and the network. *)
Record walkState (X : Type) := { ws_remainingFetches : Z; ws_net : X }.
Arguments ws_remainingFetches {X}. Arguments ws_net {X}. Arguments Build_walkState {X}.

Definition maxFanoutFetchAllowance : Z := 16.
Definition maxTotalFetches (maxDepth : Z) : Z := wrap64 ((maxDepth + 1) * maxFanoutFetchAllowance + 2).

(** What a hint leads to: an anchor, the end of the whole resolution, or nothing. *)
Inductive climbed := Found (links : list chainLink) (anchor : TrustAnchor) | Fatal | DeadEnd.

Definition superiorFetchEndpoint (c : EntityStatementClaims) : string :=
  match es_Metadata c with
  | Some m => match em_FederationEntity m with Some f => fe_FederationFetchEndpoint f | None => "" end
  | None => ""
  end.

Definition anchorTrustMarkIssuers (c : EntityStatementClaims) : gmap string (list string) :=
  match es_Metadata c with
  | Some m => match em_FederationEntity m with Some f => fe_TrustMarkIssuers f | None => ∅ end
  | None => ∅
  end.

Definition checkSelfSigned (c : EntityStatementClaims) (want : string) : result link_error () :=
  if bool_decide (es_Iss c = want) && bool_decide (es_Sub c = want) then Ok () else Err NotSelfSigned.

Definition checkFresh (c : EntityStatementClaims) (now skew : Z) : result link_error () :=
  if es_Exp c <=? 0 then Err NoExpiry
  else if GoTime.After now (GoTime.Add (Unix (es_Exp c)) skew) then Err StatementExpired
  else if (0 <? es_Iat c) && GoTime.Before now (GoTime.Add (Unix (es_Iat c)) (- skew)) then Err NotYetValid
  else Ok ().

(** The claims the policy step of a chain reads. *)
Definition policy_view (l : chainLink) : MetadataPolicy.chainLink :=
  {| lk_Iss := es_Iss (claims l); lk_Sub := es_Sub (claims l); lk_MetadataPolicy := es_MetadataPolicy (claims l);
     lk_RP := m ← es_Metadata (claims l); em_RP m |}.

Section resolver.
Context (ed25519_Verify : list Z -> list Z -> list Z -> bool).
Context (ecdsa_Verify : Curve -> Z * Z -> list Z -> Z -> Z -> bool).
Context (rsa_VerifyPKCS1v15 rsa_VerifyPSS : Z * Z -> option Hash -> list Z -> list Z -> bool).
Context (UnmarshalHeader : list Z -> option JWSHeader).
Context (UnmarshalTyp : list Z -> option string).
Context (UnmarshalStatement : list Z -> option EntityStatementClaims).
Context (url_Parse : string -> option (string * string)).
Context (net_ParseIP : string -> option (list Z)).
Let Verify := VerifyCompactJWS ed25519_Verify ecdsa_Verify rsa_VerifyPKCS1v15 rsa_VerifyPSS UnmarshalHeader.

(** *** Reading a statement ([jws_parse.go]) *)

Definition unverifiedPayload (token : string) : option (list Z) :=
  match splitCompactJWS token with Ok (_, payloadSeg, _) => RawURLDecode payloadSeg | Err _ => None end.

Definition jwsHeaderTyp (token : string) : option string :=
  match splitCompactJWS token with Ok (headerSeg, _, _) => hb ← RawURLDecode headerSeg; UnmarshalTyp hb | Err _ => None end.

Definition requireEntityStatementTyp (token : string) : bool := bool_decide (jwsHeaderTyp token = Some EntityStatementTyp).

Definition parseStatement (token : string) : option chainLink :=
  payload ← unverifiedPayload token; c ← UnmarshalStatement payload; Some {| compact := token; claims := c |}.

(** The earliest expiry of the statements, or the zero time. *)
Fixpoint min_exp (min : Z) (statements : list string) : Z :=
  match statements with
  | [] => if min =? 0 then 0 else Unix min
  | s :: rest =>
      match parseStatement s with
      | None => 0
      | Some link =>
          let e := es_Exp (claims link) in
          if e <=? 0 then 0 else min_exp (if (min =? 0) || (e <? min) then e else min) rest
      end
  end.
Definition Expiry (tc : TrustChain) : Z := min_exp 0 (tc_Statements tc).

(** *** Assembling a chain ([trust_chain_assemble.go], [trust_chain_climb.go]) *)

Section walk.
Context {X : Type} (r : TrustChainResolver X).

Definition spendFetch : M (walkState X) bool := fun w =>
  if ws_remainingFetches w <=? 0 then (false, w)
  else (true, {| ws_remainingFetches := ws_remainingFetches w - 1; ws_net := ws_net w |}).

Definition on_net {A} (m : M X A) : M (walkState X) A := fun w =>
  let '(a, x) := m (ws_net w) in (a, {| ws_remainingFetches := ws_remainingFetches w; ws_net := x |}).

Definition fetchEntityConfig (entityID : string) : M (walkState X) (option chainLink) :=
  ok ← spendFetch;
  if (ok : bool) then raw ← on_net (FetchEntityConfiguration (tr_fetcher r) entityID); mret (raw ≫= parseStatement)
  else mret None.

Definition fetchSubordinate (fetchEndpoint issuer subject : string) : M (walkState X) (option chainLink) :=
  ok ← spendFetch;
  if (ok : bool) then raw ← on_net (FetchSubordinateStatement (tr_fetcher r) fetchEndpoint issuer subject); mret (raw ≫= parseStatement)
  else mret None.

Definition matchConfiguredAnchor (entityID : string) : option TrustAnchor :=
  List.find (fun ta => bool_decide (ta_EntityID ta = entityID)) (anchors r).

(** A dead end, or the end of everything when the budget is spent. *)
Definition dead_end : M (walkState X) climbed := fun w => (if ws_remainingFetches w <=? 0 then Fatal else DeadEnd, w).

(** [climb] is [climbToAnchor] with one hop less. *)
Definition descendThroughSuperior (climb : list string -> gset string -> string -> M (walkState X) (option (list chainLink * TrustAnchor)))
    (sup : string) (supConfig subStmt : chainLink) (visited : gset string) : M (walkState X) climbed :=
  match es_AuthorityHints (claims supConfig) with
  | [] => mret DeadEnd
  | supHints =>
      upper ← climb supHints ({[sup]} ∪ visited) (es_Sub (claims supConfig));
      match upper with
      | Some (links, anchor) => mret (Found (subStmt :: links) anchor)
      | None => dead_end
      end
  end.

Definition climbViaHint (climb : list string -> gset string -> string -> M (walkState X) (option (list chainLink * TrustAnchor)))
    (sup currentID : string) (visited : gset string) : M (walkState X) climbed :=
  if bool_decide (sup ∈ visited) then mret DeadEnd
  else if negb (validateFederationURL url_Parse net_ParseIP sup) then mret DeadEnd
  else
    fetched ← fetchEntityConfig sup;
    match fetched with
    | None => dead_end
    | Some supConfig =>
        let fetchEndpoint := superiorFetchEndpoint (claims supConfig) in
        if decide (fetchEndpoint = "") then mret DeadEnd
        else
          answer ← fetchSubordinate fetchEndpoint sup currentID;
          match answer with
          | None => dead_end
          | Some subStmt =>
              match matchConfiguredAnchor sup with
              | Some anchor => mret (Found [subStmt; supConfig] anchor)
              | None => descendThroughSuperior climb sup supConfig subStmt visited
              end
          end
    end.

(** The hints of an entity are tried in order. *)
Fixpoint tryHints (via : string -> M (walkState X) climbed) (hints : list string) : M (walkState X) (option (list chainLink * TrustAnchor)) :=
  match hints with
  | [] => mret None
  | sup :: rest =>
      res ← via sup;
      match res with
      | Found links anchor => mret (Some (links, anchor))
      | Fatal => mret None
      | DeadEnd => tryHints via rest
      end
  end.

(** [remainingDepth] is the number of hops that may still be taken. *)
Fixpoint climbToAnchor (remainingDepth : nat) (hints : list string) (visited : gset string) (currentID : string) :
    M (walkState X) (option (list chainLink * TrustAnchor)) :=
  match remainingDepth with
  | O => mret None
  | S n => tryHints (fun sup => climbViaHint (climbToAnchor n) sup currentID visited) hints
  end.

Definition fetchLeafConfig (leafEntityID : string) : M (walkState X) (option chainLink) :=
  fetched ← fetchEntityConfig leafEntityID;
  mret (leaf ← fetched; if is_ok (checkSelfSigned (claims leaf) leafEntityID) then Some leaf else None).

(** The leaf, the links above it and the anchor they end in. *)
Definition assemble (leafEntityID : string) : M X (option (chainLink * list chainLink * TrustAnchor)) := fun x =>
  let maxDepth := maxTrustChainDepth (tr_cfg r) in
  let '(res, w) :=
    (fetched ← fetchLeafConfig leafEntityID;
     match fetched with
     | None => mret None
     | Some leafConfig =>
         match matchConfiguredAnchor leafEntityID with
         | Some anchor => mret (Some (leafConfig, [], anchor))
         | None =>
             match es_AuthorityHints (claims leafConfig) with
             | [] => mret None
             | hints =>
                 found ← climbToAnchor (Z.to_nat maxDepth) hints {[leafEntityID]} (es_Sub (claims leafConfig));
                 mret ((fun '(links, anchor) => (leafConfig, links, anchor)) <$> (found : option (list chainLink * TrustAnchor)))
             end
         end
     end) {| ws_remainingFetches := maxTotalFetches maxDepth; ws_net := x |} in
  (res, ws_net w).

(** *** Verifying it ([trust_chain_validate.go]) *)

Definition verifyStatement (token : string) (keys : list JWK) : result link_error () :=
  match keys with
  | [] => Err NoVerificationKeys
  | _ =>
      if negb (requireEntityStatementTyp token) then Err NotAStatement
      else match Verify token keys (tr_allowedAlgs r) with Ok _ => Ok () | Err _ => Err BadSignature end
  end.

Definition verifyAnchorConfig (last : chainLink) (anchor : TrustAnchor) (now skew : Z) : result link_error () :=
  match ta_Keys anchor with
  | [] => Err AnchorWithoutKeys
  | keys =>
      _ ← verifyStatement (compact last) keys;
      _ ← checkSelfSigned (claims last) (ta_EntityID anchor);
      checkFresh (claims last) now skew
  end.

Definition verifySubordinateStatement (ss : chainLink) (issuerKeys : list JWK) (issuerID : string) (now skew : Z) : result link_error () :=
  _ ← verifyStatement (compact ss) issuerKeys;
  _ ← checkFresh (claims ss) now skew;
  if negb (bool_decide (es_Iss (claims ss) = issuerID)) then Err WrongIssuer
  else if bool_decide (es_Sub (claims ss) = "") || bool_decide (es_Sub (claims ss) = es_Iss (claims ss)) then Err BadSubject
  else match es_JWKS (claims ss) with [] => Err NoSubjectKeys | _ => Ok () end.

Definition verifyLeafConfig (leaf : chainLink) (issuerKeys : list JWK) (issuerID : string) (now skew : Z) : result link_error () :=
  _ ← verifyStatement (compact leaf) issuerKeys;
  _ ← checkFresh (claims leaf) now skew;
  checkSelfSigned (claims leaf) issuerID.

(** The statements from the anchor's down to the leaf's superior's. *)
Fixpoint verifySubordinates (down : list chainLink) (issuerKeys : list JWK) (issuerID : string) (now skew : Z) : result link_error (list JWK * string) :=
  match down with
  | [] => Ok (issuerKeys, issuerID)
  | ss :: rest =>
      _ ← verifySubordinateStatement ss issuerKeys issuerID now skew;
      verifySubordinates rest (es_JWKS (claims ss)) (es_Sub (claims ss)) now skew
  end.

Definition verifyChainLinks (leaf : chainLink) (above : list chainLink) (anchorConfig : chainLink) (now skew : Z) : result link_error () :=
  vouched ← verifySubordinates (reverse (subordinates above)) (es_JWKS (claims anchorConfig)) (es_Sub (claims anchorConfig)) now skew;
  let '(issuerKeys, issuerID) := (vouched : list JWK * string) in
  verifyLeafConfig leaf issuerKeys issuerID now skew.

Definition validate (leaf : chainLink) (above : list chainLink) (anchor : TrustAnchor) (now : Z) : result link_error () :=
  let skew := maxClockSkew (tr_cfg r) in
  let anchorConfig := List.last above leaf in
  _ ← verifyAnchorConfig anchorConfig anchor now skew;
  match above with
  | [] => Ok ()
  | _ => _ ← verifyChainLinks leaf above anchorConfig now skew; enforceConstraints url_Parse leaf above
  end.

Definition buildTrustChain (leafEntityID : string) (anchor : TrustAnchor) (leaf : chainLink) (above : list chainLink) (resolvedRP : option metadata) : TrustChain := {|
  tc_LeafEntityID := leafEntityID;
  tc_AnchorEntityID := ta_EntityID anchor;
  tc_Statements := compact <$> leaf :: above;
  tc_ResolvedRPMetadata := resolvedRP;
  tc_LeafTrustMarks := es_TrustMarks (claims leaf);
  tc_AnchorTrustMarkIssuers := anchorTrustMarkIssuers (claims (List.last above leaf));
  tc_LeafKeys := es_JWKS (claims leaf) |}.

(** The clock is read once the chain is assembled: it is where the network left it. *)
Definition ResolveTrustChain (clock : X -> Z) (leafEntityID : string) : M X (result chain_error TrustChain) :=
  if negb (Enabled r) then mret (Err ErrFederationResolverDisabled)
  else if negb (validateFederationURL url_Parse net_ParseIP leafEntityID) then mret (Err ErrTrustChainInvalid)
  else
    assembled ← assemble leafEntityID;
    x ← mget;
    mret match assembled with
         | None => Err ErrTrustChainInvalid
         | Some (leaf, above, anchor) =>
             if negb (is_ok (validate leaf above anchor (clock x))) then Err ErrTrustChainInvalid
             else match applyPolicy (policy_view leaf) (policy_view <$> above) with
                  | Err _ => Err ErrTrustChainInvalid
                  | Ok resolvedRP => Ok (buildTrustChain leafEntityID anchor leaf above resolvedRP)
                  end
         end.

(** ** What a resolved chain rests on *)

(** The link is a statement, signed with one of the keys, and says what it was read as. *)
Definition signed (keys : list JWK) (l : chainLink) : Prop :=
  jwsHeaderTyp (compact l) = Some EntityStatementTyp /\
  exists payload, Verify (compact l) keys (tr_allowedAlgs r) = Ok payload /\ UnmarshalStatement payload = Some (claims l).

Definition fresh (now : Z) (l : chainLink) : Prop :=
  let skew := maxClockSkew (tr_cfg r) in
  0 < es_Exp (claims l) /\ now <= Unix (es_Exp (claims l)) + skew /\ (0 < es_Iat (claims l) -> Unix (es_Iat (claims l)) - skew <= now).

Definition self_signed (id : string) (l : chainLink) : Prop := es_Iss (claims l) = id /\ es_Sub (claims l) = id.

(** [vouched now anchor id keys above]: the keys are those the statements [above] vouch
    for as the keys of the entity, from the configured keys of the anchor down. *)
Inductive vouched (now : Z) (anchor : TrustAnchor) : string -> list JWK -> list chainLink -> Prop :=
| anchored c : signed (ta_Keys anchor) c -> self_signed (ta_EntityID anchor) c -> fresh now c ->
    vouched now anchor (ta_EntityID anchor) (es_JWKS (claims c)) [c]
| delegated s id keys above : vouched now anchor id keys above ->
    signed keys s -> es_Iss (claims s) = id -> fresh now s -> es_Sub (claims s) <> "" -> es_Sub (claims s) <> id -> es_JWKS (claims s) <> [] ->
    vouched now anchor (es_Sub (claims s)) (es_JWKS (claims s)) (s :: above).

(** The constraint of a statement holds of the entities below its issuer. *)
Definition within (c : EntityConstraints) (leaf : chainLink) (below : list chainLink) : Prop :=
  (forall limit, ec_MaxPathLength c = Some limit -> 0 <= limit /\ Z.of_nat (length below) - 1 <= limit) /\
  (forall nc l, ec_NamingConstraints c = Some nc -> l ∈ below ->
     exists host, entityHost url_Parse (es_Sub (claims l)) = Ok host /\
       (forall e, e ∈ nc_Excluded nc -> hostMatchesDomainConstraint host e = Ok false) /\
       (nc_Permitted nc <> [] -> exists e, e ∈ nc_Permitted nc /\ hostMatchesDomainConstraint host e = Ok true)) /\
  (forall allowed t, ec_AllowedEntityTypes c = Some allowed -> t ∈ leafEntityTypes leaf -> t = federationEntityType \/ t ∈ allowed).

(** A link is what its text was parsed as. *)
Definition parsed (l : chainLink) : Prop := parseStatement (compact l) = Some l.

Lemma parseStatement_parsed s l : parseStatement s = Some l -> parsed l.
Proof.
  unfold parsed, parseStatement. destruct (unverifiedPayload s) as [p|] eqn:Hp; [|done]. cbn. destruct (UnmarshalStatement p) as [c|] eqn:Hc; [|done].
  cbn. intros [= <-]. cbn. by rewrite Hp; cbn; rewrite Hc.
Qed.

(** *** Assembly *)

Lemma matchConfiguredAnchor_Some id a : matchConfiguredAnchor id = Some a -> a ∈ anchors r /\ ta_EntityID a = id.
Proof. intros [H1%list_elem_of_In H2%bool_decide_eq_true]%List.find_some. done. Qed.

Lemma fetchEntityConfig_parsed id w l w' : fetchEntityConfig id w = (Some l, w') -> parsed l.
Proof.
  unfold fetchEntityConfig. rewrite M_bind_unfold. destruct (spendFetch w) as [[] w1]; cbn [fst snd]; [|done].
  rewrite M_bind_unfold. destruct (on_net _ w1) as [[s|] w2]; cbn; [|done]. intros [= H <-]. by eapply parseStatement_parsed.
Qed.

Lemma fetchSubordinate_parsed ep iss sub w l w' : fetchSubordinate ep iss sub w = (Some l, w') -> parsed l.
Proof.
  unfold fetchSubordinate. rewrite M_bind_unfold. destruct (spendFetch w) as [[] w1]; cbn [fst snd]; [|done].
  rewrite M_bind_unfold. destruct (on_net _ w1) as [[s|] w2]; cbn; [|done]. intros [= H <-]. by eapply parseStatement_parsed.
Qed.

(** At most [n] statements, then the configuration of a configured anchor. *)
Definition reaches (n : nat) (links : list chainLink) (a : TrustAnchor) : Prop :=
  exists subs c, links = subs ++ [c] /\ (1 <= length subs <= n)%nat /\ Forall parsed links /\ a ∈ anchors r.

Lemma tryHints_Found (P : list chainLink -> TrustAnchor -> Prop) via hints w links a w' :
  (forall sup w links a w', via sup w = (Found links a, w') -> P links a) ->
  tryHints via hints w = (Some (links, a), w') -> P links a.
Proof.
  intros Hvia. revert w. induction hints as [|sup rest IH]; intros w; [done|]. cbn [tryHints]. rewrite M_bind_unfold.
  destruct (via sup w) as [[l a'| |] w1] eqn:Hv; cbn [fst snd]; [|done|apply IH]. intros [= <- <- <-]. by eapply Hvia.
Qed.

Lemma climbViaHint_reaches n climb sup id visited w links a w' :
  (forall hs v i w links a w', climb hs v i w = (Some (links, a), w') -> reaches n links a) ->
  climbViaHint climb sup id visited w = (Found links a, w') -> reaches (S n) links a.
Proof.
  intros IH. unfold climbViaHint. destruct (bool_decide (sup ∈ visited)); [done|]. destruct (negb _); [done|]. rewrite M_bind_unfold.
  destruct (fetchEntityConfig sup w) as [[c|] w1] eqn:Hc; cbn [fst snd]; [|by unfold dead_end; destruct (_ <=? _)].
  apply fetchEntityConfig_parsed in Hc. destruct (decide _); [done|]. rewrite M_bind_unfold.
  destruct (fetchSubordinate _ _ _ w1) as [[s|] w2] eqn:Hs; cbn [fst snd]; [|by unfold dead_end; destruct (_ <=? _)].
  apply fetchSubordinate_parsed in Hs. destruct (matchConfiguredAnchor sup) as [a'|] eqn:Ha.
  - intros [= <- <- <-]. apply matchConfiguredAnchor_Some in Ha as [Ha _]. exists [s], c. split_and!; cbn; [done|lia|lia|by repeat constructor|done].
  - unfold descendThroughSuperior. destruct (es_AuthorityHints _) as [|h hs]; [done|]. rewrite M_bind_unfold.
    destruct (climb _ _ _ w2) as [[[l a']|] w3] eqn:Hl; cbn [fst snd]; [|by unfold dead_end; destruct (_ <=? _)].
    intros [= <- <- <-]. apply IH in Hl as (subs & c' & -> & Hlen & Hp & Ha'). exists (s :: subs), c'. split_and!; cbn; [done|lia|lia|by constructor|done].
Qed.

Lemma climbToAnchor_reaches n : forall hints visited id w links a w', climbToAnchor n hints visited id w = (Some (links, a), w') -> reaches n links a.
Proof.
  induction n as [|n IH]; intros hints visited id w links a w' H; [done|]. cbn [climbToAnchor] in H.
  eapply tryHints_Found in H; [exact H|]. intros sup w1 l a' w2 Hv. by eapply climbViaHint_reaches in Hv.
Qed.

Definition maxHops : nat := Z.to_nat (maxTrustChainDepth (tr_cfg r)).

Lemma assemble_reaches id x leaf above a x' : assemble id x = (Some (leaf, above, a), x') ->
  parsed leaf /\ self_signed id leaf /\ a ∈ anchors r /\ (above = [] /\ ta_EntityID a = id \/ reaches maxHops above a).
Proof.
  unfold assemble. destruct (_ : option _ * walkState X) as [res w] eqn:E in |- *. intros [= -> _]. rewrite M_bind_unfold in E. unfold fetchLeafConfig in E.
  rewrite M_bind_unfold in E. destruct (fetchEntityConfig id _) as [[c|] w1] eqn:Hc; cbn [fst snd] in E; [|done]. apply fetchEntityConfig_parsed in Hc.
  cbn -[matchConfiguredAnchor climbToAnchor] in E. unfold checkSelfSigned in E.
  destruct (bool_decide (es_Iss _ = _)) eqn:H1; [|done]. destruct (bool_decide (es_Sub _ = _)) eqn:H2; [|done].
  apply bool_decide_eq_true in H1, H2. cbn -[matchConfiguredAnchor climbToAnchor] in E.
  destruct (matchConfiguredAnchor id) as [a'|] eqn:Ha.
  - injection E as <- <- <- _. apply matchConfiguredAnchor_Some in Ha as [Ha Hid]. by split_and!; auto.
  - destruct (es_AuthorityHints _) as [|h hs]; [done|]. rewrite M_bind_unfold in E.
    destruct (climbToAnchor _ _ _ _ w1) as [[[l a']|] w2] eqn:Hl; cbn in E; [|done]. injection E as <- <- <- _.
    apply climbToAnchor_reaches in Hl. split_and!; try done; [by destruct Hl as (? & ? & ? & ? & ? & ?)|by right].
Qed.

(** *** Verification *)

Lemma first_error_Ok {E} (checks : list (result E ())) : first_error checks = Ok () <-> Forall (fun c => c = Ok ()) checks.
Proof.
  induction checks as [|c rest IH]; cbn [first_error]; [by split|]. rewrite Forall_cons. destruct c as [[]|e]; cbn; [naive_solver|]. by split; [|intros [? _]].
Qed.

(** What is verified is what was parsed. *)
Lemma Verify_payload token keys algs payload : Verify token keys algs = Ok payload -> unverifiedPayload token = Some payload.
Proof.
  intros (h & p & s & ? & ? & ? & ? & Hj & Hne & _ & _ & _ & _ & _ & Hd & _)%verify_compact_sound.
  unfold unverifiedPayload, splitCompactJWS. by rewrite Hj, decide_False, Hd by done.
Qed.

Lemma verifyStatement_signed l keys : parsed l -> verifyStatement (compact l) keys = Ok () -> signed keys l.
Proof.
  unfold verifyStatement, signed, parsed, parseStatement. intros Hp. destruct keys as [|k ks]; [done|]. unfold requireEntityStatementTyp.
  destruct (bool_decide _) eqn:Ht; [|done]. apply bool_decide_eq_true in Ht. cbn [negb]. destruct (Verify _ _ _) as [payload|] eqn:Hv; [|done]. intros _.
  split; [done|]. exists payload. split; [done|]. apply Verify_payload in Hv. rewrite Hv in Hp. cbn in Hp.
  destruct (UnmarshalStatement payload) as [c|]; [|done]. cbn in Hp. by injection Hp as <-.
Qed.

Lemma checkFresh_fresh now l : checkFresh (claims l) now (maxClockSkew (tr_cfg r)) = Ok () -> fresh now l.
Proof.
  unfold checkFresh, fresh, GoTime.After, GoTime.Before, GoTime.Add. destruct (_ <=? 0) eqn:H1; [done|]. destruct (_ <? now) eqn:H2; [done|].
  destruct (0 <? _) eqn:H3; cbn [andb]; [destruct (now <? _) eqn:H4; [done|]|]; intros _; split_and!; lia.
Qed.

Lemma checkSelfSigned_Ok c id : checkSelfSigned c id = Ok () -> es_Iss c = id /\ es_Sub c = id.
Proof. unfold checkSelfSigned. destruct (bool_decide _) eqn:H1, (bool_decide (es_Sub c = _)) eqn:H2; try done. by apply bool_decide_eq_true in H1, H2. Qed.

Lemma verifyAnchorConfig_anchored c a now : parsed c -> verifyAnchorConfig c a now (maxClockSkew (tr_cfg r)) = Ok () ->
  signed (ta_Keys a) c /\ self_signed (ta_EntityID a) c /\ fresh now c.
Proof.
  unfold verifyAnchorConfig. intros Hp. destruct (ta_Keys a) as [|k ks] eqn:Hk; [done|]. intros ([] & Hs & H)%result_bind_ok.
  apply result_bind_ok in H as ([] & Hi & H). split_and!; [by apply verifyStatement_signed|by apply checkSelfSigned_Ok|by apply checkFresh_fresh].
Qed.

Lemma verifySubordinates_vouched now a down keys id above keys' id' :
  Forall parsed down -> vouched now a id keys above ->
  verifySubordinates down keys id now (maxClockSkew (tr_cfg r)) = Ok (keys', id') -> vouched now a id' keys' (reverse down ++ above).
Proof.
  revert keys id above. induction down as [|ss rest IH]; intros keys id above Hp Hv H; [by injection H as <- <-|].
  apply Forall_cons in Hp as [Hp Hr]. apply result_bind_ok in H as ([] & Hs & H). rewrite reverse_cons, <- (assoc_L app).
  eapply IH; [done| |exact H]. unfold verifySubordinateStatement in Hs. apply result_bind_ok in Hs as ([] & Hsig & Hs).
  apply result_bind_ok in Hs as ([] & Hf & Hs). destruct (bool_decide (es_Iss _ = _)) eqn:Hi; [|done]. apply bool_decide_eq_true in Hi. cbn [negb] in Hs.
  destruct (bool_decide (_ = "")) eqn:H1; [done|]. destruct (bool_decide (_ = es_Iss _)) eqn:H2; [done|]. apply bool_decide_eq_false in H1, H2.
  eapply delegated; try done; [by apply verifyStatement_signed|by apply checkFresh_fresh|congruence|]. intros E. by rewrite E in Hs.
Qed.

Lemma anyHostMatch_false host entries : anyHostMatch host entries = Ok false -> forall e, e ∈ entries -> hostMatchesDomainConstraint host e = Ok false.
Proof.
  induction entries as [|e rest IH]; intros H e' Hin; [by apply not_elem_of_nil in Hin|]. apply result_bind_ok in H as ([] & Hm & H); [done|].
  apply elem_of_cons in Hin as [->|Hin]; [done|by apply IH].
Qed.

Lemma anyHostMatch_true host entries : anyHostMatch host entries = Ok true -> exists e, e ∈ entries /\ hostMatchesDomainConstraint host e = Ok true.
Proof.
  induction entries as [|e rest IH]; intros H; [done|]. apply result_bind_ok in H as ([] & Hm & H); [exists e; split; [by left|done]|].
  destruct (IH H) as (e' & ? & ?). exists e'. split; [by right|done].
Qed.

Lemma enforceStatement_within c leaf below :
  enforceStatementConstraints url_Parse c (Z.of_nat (length below)) below (leafEntityTypes leaf) = Ok () -> within c leaf below.
Proof.
  intros ([] & Hp & H)%result_bind_ok. apply result_bind_ok in H as ([] & Hn & Ht). split_and!.
  - intros limit E. unfold enforceMaxPathLength in Hp. rewrite E in Hp. destruct (limit <? 0) eqn:H1; [done|]. destruct (limit <? Z.of_nat _ - 1) eqn:H2; [done|]. lia.
  - intros nc l E Hl. unfold enforceNamingConstraints in Hn. rewrite E in Hn. apply first_error_Ok in Hn. rewrite Forall_fmap, Forall_forall in Hn.
    specialize (Hn l Hl). cbn in Hn. apply result_bind_ok in Hn as (host & Hh & Hn). exists host. split; [done|].
    apply result_bind_ok in Hn as ([] & He & Hn); [done|]. split; [by apply anyHostMatch_false|]. intros Hne.
    destruct (nc_Permitted nc) as [|p ps]; [done|]. apply result_bind_ok in Hn as ([] & Hm & Hn); [|done]. by apply anyHostMatch_true.
  - intros allowed t E Ht'. unfold enforceAllowedEntityTypes, checkAllowedEntityTypes in Ht. rewrite E in Ht. destruct (forallb _ _) eqn:Hf; [|done].
    rewrite forallb_forall in Hf. apply list_elem_of_In, Hf, contains_spec, elem_of_cons in Ht' as [|]; auto.
Qed.

Lemma enforceConstraints_within leaf above i s c : enforceConstraints url_Parse leaf above = Ok () ->
  subordinates above !! i = Some s -> es_Constraints (claims s) = Some c -> within c leaf (take (S i) above).
Proof.
  unfold enforceConstraints. intros H Hi Hc. apply first_error_Ok in H. rewrite Forall_lookup in H.
  assert (i < length above)%nat as Hlt by (apply lookup_lt_Some in Hi; unfold subordinates in Hi; rewrite length_take in Hi; lia).
  apply enforceStatement_within. replace (length (take (S i) above)) with (S i) by (rewrite length_take; lia).
  apply (H i). rewrite list_lookup_imap, Hi. cbn. by rewrite Hc.
Qed.

(** What is certified of the leaf, at the time of the resolution. *)
Lemma validate_vouched id leaf above a now : parsed leaf -> Forall parsed above -> self_signed id leaf ->
  (above = [] /\ ta_EntityID a = id \/ exists subs c, above = subs ++ [c]) -> validate leaf above a now = Ok () ->
  fresh now leaf /\ (above = [] /\ ta_EntityID a = id /\ signed (ta_Keys a) leaf \/ exists keys, vouched now a id keys above /\ signed keys leaf) /\
  (forall i s c, subordinates above !! i = Some s -> es_Constraints (claims s) = Some c -> within c leaf (take (S i) above)).
Proof.
  intros Hl Ha Hid Hshape H. unfold validate in H. apply result_bind_ok in H as ([] & Hc & H). destruct Hshape as [[-> Heq]|(subs & c & ->)].
  { apply verifyAnchorConfig_anchored in Hc as (Hs & _ & Hf); [|done]. split_and!; [done|by left|done]. }
  apply Forall_app in Ha as [Hsubs [Hpc _]%Forall_cons]. rewrite List.last_last in Hc, H. destruct (subs ++ [c]) as [|l ls] eqn:E; [by destruct subs|]. rewrite <- E in *.
  apply verifyAnchorConfig_anchored in Hc as (Hs & [Hi1 Hi2] & Hf); [|done]. apply result_bind_ok in H as ([] & Hv & Hcon).
  apply result_bind_ok in Hv as ((keys & id') & Hd & Hleaf). assert (subordinates (subs ++ [c]) = subs) as Hsub.
  { unfold subordinates. rewrite length_app. cbn. rewrite Nat.add_sub. by apply take_app_length. }
  rewrite Hsub in Hd. eapply verifySubordinates_vouched in Hd; [|by apply Forall_reverse|rewrite Hi2; by apply anchored]. rewrite reverse_involutive in Hd.
  apply result_bind_ok in Hleaf as ([] & Hsig & Hleaf). apply result_bind_ok in Hleaf as ([] & Hfl & Hself). apply checkSelfSigned_Ok in Hself as [_ Hsub'].
  destruct Hid as [_ Hid]. rewrite Hid in Hsub'. subst id'. split_and!.
  - by apply checkFresh_fresh.
  - right. exists keys. split; [done|by apply verifyStatement_signed].
  - intros i s c' Hi Hc'. eapply enforceConstraints_within; eauto.
Qed.

Definition trusted (now : Z) (id : string) (tc : TrustChain) (a : TrustAnchor) (leaf : chainLink) (above : list chainLink) : Prop :=
  a ∈ anchors r /\ self_signed id leaf /\ fresh now leaf /\
  (above = [] /\ ta_EntityID a = id /\ signed (ta_Keys a) leaf \/ exists keys, vouched now a id keys above /\ signed keys leaf) /\
  (length above <= maxHops + 1)%nat /\
  (forall i s c, subordinates above !! i = Some s -> es_Constraints (claims s) = Some c -> within c leaf (take (S i) above)) /\
  (forall s pol, s ∈ subordinates above -> link_policy (policy_view s) = Some pol -> obeys pol (default ∅ (tc_ResolvedRPMetadata tc))).

Lemma resolve_trusted clock id x tc x' : ResolveTrustChain clock id x = (Ok tc, x') ->
  exists a leaf above, trusted (clock x') id tc a leaf above /\ tc = buildTrustChain id a leaf above (tc_ResolvedRPMetadata tc).
Proof.
  unfold ResolveTrustChain. destruct (negb (Enabled r)); [done|]. destruct (negb _); [done|]. rewrite M_bind_unfold.
  destruct (assemble id x) as [[[[leaf above] a]|] x1] eqn:Ha; cbn [fst snd]; [|done]. apply assemble_reaches in Ha as (Hl & Hid & Hin & Hshape).
  rewrite M_bind_unfold. cbn [fst snd mret M_ret mget]. destruct (validate leaf above a _) as [[]|] eqn:Hv; [|done]. cbn [is_ok negb].
  destruct (applyPolicy _ _) as [rp|] eqn:Hp; [|done]. intros [= <- <-].
  assert (Forall parsed above /\ (length above <= maxHops + 1)%nat /\ (above = [] /\ ta_EntityID a = id \/ exists subs c, above = subs ++ [c])) as (Hab & Hlen & Hs).
  { destruct Hshape as [[-> ?]|(subs & c & -> & Hn & ? & _)]; [split_and!; auto; cbn; lia|]. rewrite length_app. cbn. split_and!; [done|lia|eauto]. }
  eapply validate_vouched in Hv as (Hf & Hch & Hc); [|done..]. exists a, leaf, above. split; [|done]. unfold trusted. split_and!; try done.
  intros s pol Hin' Hpol. apply federation_policy_enforced in Hp as [Hp _]. apply (Hp (policy_view s)); [|done]. rewrite length_fmap, <- fmap_take.
  by apply list_elem_of_fmap_2.
Qed.

(** C17 — The entity is told trusted only if a chain of statements reaches it from an anchor of
    the configuration: the anchor's own keys sign the configuration that starts it, each
    statement is signed with keys the one before it vouches for, by the entity it vouches
    for, and the last keys sign what the entity says of itself; all are statements of this
    type, fresh, and carry what they were read as.  The chain is as short as the depth
    allows, every constraint on the way holds of all entities below the one that set it,
    and the metadata given out obeys the policy of every statement. *)
Theorem trust_chain_sound clock id x tc x' : ResolveTrustChain clock id x = (Ok tc, x') ->
  exists a leaf above, trusted (clock x') id tc a leaf above /\
    tc_LeafEntityID tc = id /\ tc_AnchorEntityID tc = ta_EntityID a /\ tc_Statements tc = compact <$> leaf :: above /\
    tc_LeafKeys tc = es_JWKS (claims leaf) /\ tc_LeafTrustMarks tc = es_TrustMarks (claims leaf) /\
    tc_AnchorTrustMarkIssuers tc = anchorTrustMarkIssuers (claims (List.last above leaf)).
Proof. intros (a & leaf & above & H & ->)%resolve_trusted. by exists a, leaf, above. Qed.
End walk.

(** ** The work of a resolution *)

(** The network counts its requests. *)
Definition counting {X} (f : EntityStatementFetcher X) : EntityStatementFetcher (X * Z) := {|
  FetchEntityConfiguration id := fun '(x, n) => let '(a, x') := FetchEntityConfiguration f id x in (a, (x', n + 1));
  FetchSubordinateStatement ep iss sub := fun '(x, n) => let '(a, x') := FetchSubordinateStatement f ep iss sub x in (a, (x', n + 1)) |}.
Definition counted {X} (r : TrustChainResolver X) : TrustChainResolver (X * Z) :=
  {| tr_cfg := tr_cfg r; tr_fetcher := counting (tr_fetcher r); tr_allowedAlgs := tr_allowedAlgs r |}.

Section work.
Context {X : Type} (r : TrustChainResolver X).

(** What is left to spend and what was requested. *)
Definition account (w : walkState (X * Z)) : Z := Z.max 0 (ws_remainingFetches w) + (ws_net w).2.
Definition accounts {A} (m : M (walkState (X * Z)) A) : Prop := forall w, account (m w).2 = account w.

Lemma accounts_ret {A} (a : A) : accounts (mret a).
Proof. done. Qed.
Lemma accounts_bind {A B} (m : M (walkState (X * Z)) A) (f : A -> M (walkState (X * Z)) B) : accounts m -> (forall a, accounts (f a)) -> accounts (m ≫= f).
Proof. intros Hm Hf w. by rewrite M_bind_unfold, Hf, Hm. Qed.
Lemma accounts_dead_end : accounts dead_end.
Proof. done. Qed.

Lemma accounts_fetch {A} (m : M (X * Z) (option string)) (k : option string -> A) (none : A) : (forall x n, (m (x, n)).2.2 = n + 1) ->
  accounts (ok ← spendFetch; if (ok : bool) then raw ← on_net m; mret (k raw) else mret none).
Proof.
  intros Hm [n [x c]]. rewrite M_bind_unfold. unfold spendFetch. cbn [ws_remainingFetches ws_net]. destruct (n <=? 0) eqn:Hn; cbn [fst snd]; [done|].
  rewrite M_bind_unfold. unfold on_net. cbn [ws_remainingFetches ws_net]. specialize (Hm x c). destruct (m (x, c)) as [a [x' c']]. cbn in *. subst c'. unfold account. cbn. lia.
Qed.

Lemma accounts_config id : accounts (fetchEntityConfig (counted r) id).
Proof. apply accounts_fetch. intros x n. cbn. by destruct (FetchEntityConfiguration _ _ x). Qed.
Lemma accounts_subordinate ep iss sub : accounts (fetchSubordinate (counted r) ep iss sub).
Proof. apply accounts_fetch. intros x n. cbn. by destruct (FetchSubordinateStatement _ _ _ _ x). Qed.

#[local] Hint Resolve accounts_ret accounts_bind accounts_dead_end accounts_config accounts_subordinate : account.

Lemma accounts_hints via hints : (forall sup, accounts (via sup)) -> accounts (tryHints (X := X * Z) via hints).
Proof. intros Hv. induction hints as [|sup rest IH]; cbn [tryHints]; auto with account. apply accounts_bind; [done|]. intros [l a| |]; auto with account. Qed.

Lemma accounts_via climb sup id visited : (forall hs v i, accounts (climb hs v i)) -> accounts (climbViaHint (counted r) climb sup id visited).
Proof.
  intros Hc. unfold climbViaHint. destruct (bool_decide _); [auto with account|]. destruct (negb _); [auto with account|]. apply accounts_bind; [auto with account|].
  intros [c|]; [|auto with account]. cbv zeta. destruct (decide _); [auto with account|]. apply accounts_bind; [auto with account|]. intros [s|]; [|auto with account].
  destruct (matchConfiguredAnchor _ _); [auto with account|]. unfold descendThroughSuperior. destruct (es_AuthorityHints _); [auto with account|].
  apply accounts_bind; [done|]. intros [[]|]; auto with account.
Qed.

Lemma accounts_climb n : forall hints visited id, accounts (climbToAnchor (counted r) n hints visited id).
Proof. induction n as [|n IH]; intros hints visited id; [auto with account|]. apply accounts_hints. intros sup. by apply accounts_via. Qed.

Lemma accounts_leaf id : accounts (fetchLeafConfig (counted r) id).
Proof. unfold fetchLeafConfig. auto with account. Qed.

(** However many superiors each entity names and whatever the network answers, a
    resolution makes no more requests than its budget, which the configured depth sets. *)
Theorem fetches_bounded clock id x n :
  (ResolveTrustChain (counted r) clock id (x, n)).2.2 <= n + Z.max 0 (maxTotalFetches (maxTrustChainDepth (tr_cfg r))).
Proof.
  unfold ResolveTrustChain. destruct (negb (Enabled (counted r))); [cbn; lia|]. destruct (negb _); [cbn; lia|]. rewrite !M_bind_unfold. cbn [snd mret M_ret mget].
  unfold assemble. destruct (_ : option _ * walkState (X * Z)) as [res w] eqn:E in |- *. cbn [snd]. apply (f_equal (fun p => account p.2)) in E. cbn [snd] in E.
  match type of E with account ((?m) _).2 = _ => assert (accounts m) as Hm end.
  { apply accounts_bind; [apply accounts_leaf|]. intros [leaf|]; [|auto with account]. destruct (matchConfiguredAnchor _ _); [auto with account|].
    destruct (es_AuthorityHints _); [auto with account|]. apply accounts_bind; [apply accounts_climb|auto with account]. }
  rewrite Hm in E. unfold account in E. cbn in E. lia.
Qed.
End work.

(** ** How long a chain is good for *)

Lemma Unix_le a b : a <= b -> Unix a <= Unix b.
Proof. unfold Unix, GoTime.Second. lia. Qed.

Lemma min_exp_spec links min : Forall parsed links -> Forall (fun l => 0 < es_Exp (claims l)) links -> 0 < min \/ (min = 0 /\ links <> []) ->
  exists m, min_exp min (compact <$> links) = Unix m /\ 0 < m /\ (min <> 0 -> m <= min) /\ Forall (fun l => m <= es_Exp (claims l)) links /\
    (m = min \/ exists l, l ∈ links /\ m = es_Exp (claims l)).
Proof.
  revert min. induction links as [|l rest IH]; intros min Hp He Hm.
  { destruct Hm as [Hm|[_ ?]]; [|done]. exists min. cbn [fmap list_fmap min_exp]. destruct (min =? 0) eqn:E; [lia|]. split_and!; [done|lia|lia|constructor|by left]. }
  apply Forall_cons in Hp as [Hp Hps], He as [He Hes]. cbn [fmap list_fmap min_exp]. rewrite Hp. cbv zeta. destruct (es_Exp (claims l) <=? 0) eqn:E; [lia|].
  set (min' := if (min =? 0) || (es_Exp (claims l) <? min) then es_Exp (claims l) else min).
  assert (0 < min' /\ min' <= es_Exp (claims l) /\ (min <> 0 -> min' <= min) /\ (min' = min \/ min' = es_Exp (claims l))) as (H0 & H0' & H0'' & H5).
  { unfold min'. destruct (min =? 0) eqn:E1, (es_Exp (claims l) <? min) eqn:E2; cbn [orb]; lia. }
  destruct (IH min') as (m & H1 & H2 & H3 & H4 & H6); [done|done|by left|]. exists m. split_and!; [done|done|lia|constructor; [lia|done]|].
  destruct H6 as [->|(l' & Hin & ->)]; [|right; exists l'; split; [by right|done]]. destruct H5 as [->| ->]; [by left|right; exists l; split; [by left|done]].
Qed.

Section expiry.
Context {X : Type} (r : TrustChainResolver X).

Lemma signed_parsed keys l : signed r keys l -> parsed l.
Proof.
  intros (_ & payload & Hv%Verify_payload & Hu). unfold parsed, parseStatement. rewrite Hv. cbn. rewrite Hu. cbn. by destruct l.
Qed.

Lemma vouched_fresh now a id keys above : vouched r now a id keys above -> Forall (fun l => parsed l /\ fresh r now l) above.
Proof. induction 1; apply Forall_cons; (split; [split; [by eapply signed_parsed|done]|]); auto. Qed.

(** A chain given out has not expired by more than the clock skew, and no statement of it
    expires before it does. *)
Lemma trusted_expiry now id tc a leaf above : trusted r now id tc a leaf above -> tc_Statements tc = compact <$> leaf :: above ->
  now <= Expiry tc + maxClockSkew (tr_cfg r) /\ Forall (fun l => Expiry tc <= Unix (es_Exp (claims l))) (leaf :: above).
Proof.
  intros (_ & _ & Hf & Hch & _) Hs. assert (Forall (fun l => parsed l /\ fresh r now l) (leaf :: above)) as Hall.
  { destruct Hch as [(-> & _ & Hsig)|(keys & Hv & Hsig)]; apply Forall_cons; (split; [split; [by eapply signed_parsed|done]|]); [constructor|].
    by eapply vouched_fresh. }
  destruct (min_exp_spec (leaf :: above) 0) as (m & Hm & H0 & _ & Hle & Hin); [| |by right|].
  { eapply Forall_impl; [exact Hall|]. by intros l []. }
  { eapply Forall_impl; [exact Hall|]. by intros l [_ [? _]]. }
  unfold Expiry. rewrite Hs, Hm. split; [|eapply Forall_impl; [exact Hle|intros; by apply Unix_le]].
  destruct Hin as [->|(l & Hin & ->)]; [lia|]. rewrite Forall_forall in Hall. by destruct (Hall l Hin) as [_ (_ & ? & _)].
Qed.
End expiry.
End resolver.

(** ** Concrete addresses and chains *)

Example internal_addresses :
  IsInternalIP <$> [[127; 0; 0; 1]; [169; 254; 169; 254]; [10; 1; 2; 3]; [172; 31; 0; 1]; [192; 168; 0; 1]; [0; 0; 0; 0];
    v4InV6Prefix ++ [127; 0; 0; 1]; replicate 15 0 ++ [1]; 253 :: replicate 15 0; [8; 8; 8; 8]; [172; 32; 0; 1]; [32; 1] ++ replicate 14 0] =
  [true; true; true; true; true; true; true; true; true; false; false; false].
Proof. vm_compute. reflexivity. Qed.

(** The two forms of an IPv4 address are treated alike, so the second test adds nothing. *)
Lemma embedded_form_equal ip v4 : To4 ip = Some v4 -> IP_Equal v4 ip = true.
Proof.
  unfold To4, IP_Equal. destruct (length ip =? 4)%nat eqn:H4; [intros [= <-]; rewrite Nat.eqb_refl; by apply bool_decide_eq_true|].
  destruct (length ip =? 16)%nat eqn:H16; [|done]. cbn [andb]. destruct (bool_decide _) eqn:Hp; [|done]. apply bool_decide_eq_true in Hp. intros [= <-].
  apply Nat.eqb_eq in H16. rewrite length_drop, H16. cbn. apply bool_decide_eq_true. rewrite <- (take_drop 12 ip) at 1. by rewrite Hp.
Qed.

Example naming_matches :
  ((fun h => hostMatchesDomainConstraint h ".Example.com") <$> ["host.example.com"; "example.com"; "notexample.com"]) = [Ok true; Ok false; Ok false] /\
  hostMatchesDomainConstraint "a" " " = Err MalformedConstraint /\ hostMatchesDomainConstraint "a" "." = Err MalformedConstraint.
Proof. vm_compute. done. Qed.

Definition fed_key (n : Z) : list Z := replicate 32 n.
Definition fed_jwk (n : Z) : JWK := {| jwk_Kty := "OKP"; jwk_Use := "sig"; jwk_Alg := "EdDSA"; jwk_Kid := ""; jwk_Crv := "Ed25519";
  jwk_X := Str.of_list (Base64.RawURLEncode (fed_key n)); jwk_Y := ""; jwk_N := ""; jwk_E := "" |}.
(** Statement [n] signed with key [k]. *)
Definition fed_token (n k : Z) : string := JwtIssuer.compact (Base64.RawURLEncode [1]) (Base64.RawURLEncode [n]) (Base64.RawURLEncode (fed_key k)).
Definition fed_verify (pub msg sig : list Z) : bool := bool_decide (pub = sig).
Definition fed_header (b : list Z) : option JWSHeader := Some {| jh_Alg := "EdDSA"; jh_Kid := ""; jh_Crit := [] |}.
Definition fed_url (s : string) : option (string * string) := if HasPrefix s "https://" then Some ("https", Str.of_list (drop 8 (Str.to_list s))) else None.
Definition fed_ip (s : string) : option (list Z) := if decide (s = "localhost") then Some [127; 0; 0; 1] else None.
Definition fed_entity (id : string) (key : Z) (fetch : bool) (hints : list string) (rp : option metadata) (marks : list TrustMarkEntry) (issuers : gmap string (list string)) : EntityStatementClaims := {|
  es_Iss := id; es_Sub := id; es_Iat := 1000; es_Exp := 5000; es_JWKS := [fed_jwk key];
  es_Metadata := Some {| em_OP := false; em_RP := rp; em_FederationEntity := if fetch then Some {| fe_FederationFetchEndpoint := id +:+ "/fetch"; fe_TrustMarkIssuers := issuers |} else None |};
  es_AuthorityHints := hints; es_MetadataPolicy := ∅; es_Constraints := None; es_TrustMarks := marks |}.
Definition fed_statement (iss sub : string) (key exp : Z) (pol : gmap string paramPolicy) (con : option EntityConstraints) : EntityStatementClaims := {|
  es_Iss := iss; es_Sub := sub; es_Iat := 1000; es_Exp := exp; es_JWKS := [fed_jwk key]; es_Metadata := None; es_AuthorityHints := [];
  es_MetadataPolicy := {[rpMetadataType := pol]}; es_Constraints := con; es_TrustMarks := [] |}.

Definition fed_rp : metadata := {["redirect_uris" := JArr [JStr "https://rp.fed/cb"]; "scope" := JStr "openid email"]}.
Definition fed_policy : gmap string paramPolicy := {["scope" := {["value" := JStr "openid"]}]}.
Definition fed_limits (n : Z) : EntityConstraints := {| ec_MaxPathLength := Some n; ec_AllowedEntityTypes := Some ["openid_relying_party"];
  ec_NamingConstraints := Some {| nc_Permitted := [".fed"]; nc_Excluded := [".evil.fed"] |} |}.

(** A relying party under an intermediate under the anchor, which allows [n]
    intermediates. *)
Definition fed_claims (n : Z) (payload : list Z) : option EntityStatementClaims :=
  if decide (payload = [11]) then Some (fed_entity "https://rp.fed" 1 false ["https://mid.fed"] (Some fed_rp) [] ∅)
  else if decide (payload = [12]) then Some (fed_entity "https://mid.fed" 2 true ["https://ta.fed"] None [] ∅)
  else if decide (payload = [13]) then Some (fed_statement "https://mid.fed" "https://rp.fed" 1 4000 fed_policy None)
  else if decide (payload = [14]) then Some (fed_statement "https://ta.fed" "https://mid.fed" 2 4500 ∅ (Some (fed_limits n)))
  else if decide (payload = [15]) then Some (fed_entity "https://ta.fed" 3 true [] None [] ∅)
  else None.
Definition fed_net (leafKey : Z) : EntityStatementFetcher () := {|
  FetchEntityConfiguration id := mret (if decide (id = "https://rp.fed") then Some (fed_token 11 leafKey)
    else if decide (id = "https://mid.fed") then Some (fed_token 12 2) else if decide (id = "https://ta.fed") then Some (fed_token 15 3) else None);
  FetchSubordinateStatement ep iss sub := mret (if decide (iss = "https://mid.fed") then Some (fed_token 13 2) else Some (fed_token 14 3)) |}.
Definition fed_config : Config := {| cf_TrustAnchors := [{| ta_EntityID := "https://ta.fed"; ta_Keys := [fed_jwk 3] |}]; cf_MaxTrustChainDepth := 0; cf_MaxClockSkew := 0;
  cf_RequiredTrustMarkTypes := []; cf_TrustMarkIssuers := []; cf_AllowFederationResolvedTrustMarkIssuers := false; cf_MaxResolvedIssuersPerRequest := 0;
  cf_MaxConcurrentIssuerResolutions := 0; cf_ResolvedIssuerNegativeCacheTTL := 0; cf_ResolvedIssuerNegativeCacheMaxSize := 0; cf_MaxLeafTrustMarks := 0 |}.
Definition fed_resolver (leafKey : Z) : TrustChainResolver () := NewTrustChainResolver (Some fed_config) (fed_net leafKey) [].
Definition fed_resolve (n leafKey now : Z) (id : string) : result chain_error TrustChain :=
  (ResolveTrustChain fed_verify (fun _ _ _ _ _ => false) (fun _ _ _ _ => false) (fun _ _ _ _ => false) fed_header (fun _ => Some EntityStatementTyp)
    (fed_claims n) fed_url fed_ip (fed_resolver leafKey) (fun _ => now) id ()).1.
Definition fed_chain : TrustChain := match fed_resolve 1 1 (Unix 2000) "https://rp.fed" with Ok tc => tc | Err _ =>
  {| tc_LeafEntityID := ""; tc_AnchorEntityID := ""; tc_Statements := []; tc_ResolvedRPMetadata := None; tc_LeafTrustMarks := []; tc_AnchorTrustMarkIssuers := ∅; tc_LeafKeys := [] |} end.

(** Ways to be refused: a leaf signed with a key of its own
    choice, an intermediate where none is allowed, an expired statement, an internal
    host. *)
Example chain_refused :
  fed_resolve 1 9 (Unix 2000) "https://rp.fed" = Err ErrTrustChainInvalid /\ fed_resolve 0 1 (Unix 2000) "https://rp.fed" = Err ErrTrustChainInvalid /\
  fed_resolve 1 1 (Unix 4061) "https://rp.fed" = Err ErrTrustChainInvalid /\ fed_resolve 1 1 (Unix 2000) "https://localhost" = Err ErrTrustChainInvalid.
Proof. vm_compute. done. Qed.

Lemma trust_chain_sound_witness : exists a leaf above,
  trusted fed_verify (fun _ _ _ _ _ => false) (fun _ _ _ _ => false) (fun _ _ _ _ => false) fed_header (fun _ => Some EntityStatementTyp)
    (fed_claims 1) fed_url (fed_resolver 1) (Unix 2000) "https://rp.fed" fed_chain a leaf above /\
  tc_AnchorEntityID fed_chain = ta_EntityID a /\ tc_ResolvedRPMetadata fed_chain = Some (<["scope" := JStr "openid"]> fed_rp).
Proof.
  destruct (trust_chain_sound fed_verify (fun _ _ _ _ _ => false) (fun _ _ _ _ => false) (fun _ _ _ _ => false) fed_header (fun _ => Some EntityStatementTyp)
    (fed_claims 1) fed_url fed_ip (fed_resolver 1) (fun _ => Unix 2000) "https://rp.fed" () fed_chain ()) as (a & leaf & above & H & _ & Ha & _); [vm_compute; reflexivity|].
  exists a, leaf, above. split; [exact H|split; [exact Ha|vm_compute; reflexivity]].
Defined.
