(* ===== verification/TrustMarks.v ===== *)
(** * TrustMarks: the certificates a relying party must carry (OpenID Federation 1.0, 7)
    ([domains/federation]: [trust_marks.go], [trust_marks_authz.go],
    [trust_marks_resolve.go], [trust_marks_types.go], and their settings in
    [entity_statement_config.go]).

    A mark is signed by an issuer that the configuration authorizes, or that a trust chain
    and its anchor do.  Caches, budget, semaphore and network are the state.  The second
    look into the caches, under the lock of the issuer, sees what the first saw: no other
    registration runs in between here. *)
From S2P Require Import Prelude Crypto Core Scopes AdminPaging MetadataPolicy Jose Jwks JwtIssuer TrustChain.
Local Open Scope Z_scope.

Definition TrustMarkTyp : string := "trust-mark+jwt".

Record trustMarkClaims := { mk_Iss : string; mk_Sub : string; mk_TrustMarkType : string; mk_Iat : Z; mk_Exp : Z }.

Inductive mark_error :=
| EmptyMark | WrongMarkTyp | MarkPayload | IssuerWithoutKeys | IssuerNotAuthorized | MarkSignature | WrongMarkSubject | WrongMarkType
| MarkWithoutIat | MarkNotYetValid | MarkExpired.

(** Why an issuer was not resolved. *)
Inductive issuer_error := PathInactive | NotAuthorizedForType | RecentlyFailed | BudgetExhausted | Saturated | ChainFailed | NoChainKeys.

(** ** Settings *)

Definition DefaultMaxResolvedIssuersPerRequest : Z := 4.
Definition DefaultMaxConcurrentIssuerResolutions : Z := 8.
Definition DefaultResolvedIssuerNegativeCacheTTL : Z := 30 * GoTime.Second.
Definition DefaultResolvedIssuerNegativeCacheMaxSize : Z := 1024.
Definition DefaultMaxLeafTrustMarks : Z := 64.

Definition maxResolvedIssuersPerRequest (c : option Config) : Z :=
  match c with Some c => if cf_MaxResolvedIssuersPerRequest c <=? 0 then DefaultMaxResolvedIssuersPerRequest else cf_MaxResolvedIssuersPerRequest c | None => DefaultMaxResolvedIssuersPerRequest end.
Definition maxConcurrentIssuerResolutions (c : option Config) : Z :=
  match c with Some c => if cf_MaxConcurrentIssuerResolutions c <=? 0 then DefaultMaxConcurrentIssuerResolutions else cf_MaxConcurrentIssuerResolutions c | None => DefaultMaxConcurrentIssuerResolutions end.
Definition resolvedIssuerNegativeCacheTTL (c : option Config) : Z :=
  match c with Some c => if cf_ResolvedIssuerNegativeCacheTTL c <=? 0 then DefaultResolvedIssuerNegativeCacheTTL else cf_ResolvedIssuerNegativeCacheTTL c | None => DefaultResolvedIssuerNegativeCacheTTL end.
Definition resolvedIssuerNegativeCacheMaxSize (c : option Config) : Z :=
  match c with Some c => if cf_ResolvedIssuerNegativeCacheMaxSize c <=? 0 then DefaultResolvedIssuerNegativeCacheMaxSize else cf_ResolvedIssuerNegativeCacheMaxSize c | None => DefaultResolvedIssuerNegativeCacheMaxSize end.
Definition maxLeafTrustMarks (c : option Config) : Z :=
  match c with Some c => if cf_MaxLeafTrustMarks c <=? 0 then DefaultMaxLeafTrustMarks else cf_MaxLeafTrustMarks c | None => DefaultMaxLeafTrustMarks end.

(** ** The cache of failures ([trust_marks_types.go]) *)

Record NegativeCache := { neg_ttl : Z; neg_max : Z; neg_entries : gmap string Z }.
Definition set_entries (c : NegativeCache) (m : gmap string Z) : NegativeCache := {| neg_ttl := neg_ttl c; neg_max := neg_max c; neg_entries := m |}.

(** A stale entry is removed. *)
Definition negativeHit (c : NegativeCache) (id : string) (now : Z) : bool * NegativeCache :=
  if neg_ttl c <=? 0 then (false, c)
  else match neg_entries c !! id with
       | None => (false, c)
       | Some exp => if GoTime.Before now exp then (true, c) else (false, set_entries c (delete id (neg_entries c)))
       end.

(** The entry that expires first, the first met of those. *)
Fixpoint soonest (best : option (string * Z)) (entries : list (string * Z)) : option string :=
  match entries with
  | [] => fst <$> best
  | (k, exp) :: rest => soonest (match best with Some (_, e) => if GoTime.Before exp e then Some (k, exp) else best | None => Some (k, exp) end) rest
  end.

Definition evictNegativeLocked (m : gmap string Z) (now : Z) : gmap string Z :=
  let stale exp := negb (GoTime.Before now exp) in
  if (count_where stale m =? 0)%nat
  then match soonest None (map_to_list m) with Some k => delete k m | None => m end
  else delete_where stale m.

Definition recordNegative (c : NegativeCache) (id : string) (now : Z) : NegativeCache :=
  if neg_ttl c <=? 0 then c
  else
    let m := neg_entries c in
    let full := bool_decide (m !! id = None) && (0 <? neg_max c) && (neg_max c <=? Z.of_nat (size m)) in
    set_entries c (<[id := GoTime.Add now (neg_ttl c)]> (if full then evictNegativeLocked m now else m)).

Definition clearNegative (c : NegativeCache) (id : string) : NegativeCache := set_entries c (delete id (neg_entries c)).

(** ** The gate ([trust_marks.go]) *)

Record resolvedIssuerEntry := { ie_keys : list JWK; ie_authorizedTypes : list string; ie_expiresAt : Z }.

Record trustMarkRequirement (X : Type) := {
  rq_requiredTypes : list string;
  rq_issuers : list TrustMarkIssuer;
  rq_allowedAlgs : list string;
  rq_skew : Z;
  rq_allowFederationResolved : bool;
  rq_resolver : option (TrustChainResolver X);
  rq_maxResolvedIssuersPerRequest : Z;
  rq_issuerResolveSlots : Z;
  rq_maxLeafTrustMarks : Z;
}.
Arguments rq_requiredTypes {X}. Arguments rq_issuers {X}. Arguments rq_allowedAlgs {X}. Arguments rq_skew {X}. Arguments rq_allowFederationResolved {X}.
Arguments rq_resolver {X}. Arguments rq_maxResolvedIssuersPerRequest {X}. Arguments rq_issuerResolveSlots {X}. Arguments rq_maxLeafTrustMarks {X}.
Arguments Build_trustMarkRequirement {X}.

(** The caches of resolved issuers, the nested resolutions that run, the issuers this
    request was granted, and the network. *)
Record gateState (X : Type) := {
  gs_resolved : gmap string resolvedIssuerEntry;
  gs_negative : NegativeCache;
  gs_running : Z;
  gs_granted : gset string;
  gs_net : X;
}.
Arguments gs_resolved {X}. Arguments gs_negative {X}. Arguments gs_running {X}. Arguments gs_granted {X}. Arguments gs_net {X}. Arguments Build_gateState {X}.

Definition newResolvedIssuerCache (c : option Config) : NegativeCache :=
  {| neg_ttl := resolvedIssuerNegativeCacheTTL c; neg_max := resolvedIssuerNegativeCacheMaxSize c; neg_entries := ∅ |}.

(** [None] when the gate is off. *)
Definition newTrustMarkRequirement {X} (cfg : option Config) (resolver : option (TrustChainResolver X)) : option (trustMarkRequirement X) :=
  match cfg with
  | None => None
  | Some c =>
      match cf_RequiredTrustMarkTypes c with
      | [] => None
      | types =>
          let live := cf_AllowFederationResolvedTrustMarkIssuers c && match resolver with Some r => Enabled r | None => false end in
          Some {| rq_requiredTypes := types; rq_issuers := cf_TrustMarkIssuers c; rq_allowedAlgs := federationAsymmetricAlgs; rq_skew := maxClockSkew cfg;
                  rq_allowFederationResolved := live; rq_resolver := if live then resolver else None;
                  rq_maxResolvedIssuersPerRequest := if live then maxResolvedIssuersPerRequest cfg else 0;
                  rq_issuerResolveSlots := if live then maxConcurrentIssuerResolutions cfg else 0;
                  rq_maxLeafTrustMarks := maxLeafTrustMarks cfg |}
      end
  end.

Definition typeAllowed (allowedTypes : list string) (reqType : string) : bool := match allowedTypes with [] => true | _ => contains allowedTypes reqType end.

Section gate.
Context (ed25519_Verify : list Z -> list Z -> list Z -> bool).
Context (ecdsa_Verify : Curve -> Z * Z -> list Z -> Z -> Z -> bool).
Context (rsa_VerifyPKCS1v15 rsa_VerifyPSS : Z * Z -> option Hash -> list Z -> list Z -> bool).
Context (UnmarshalHeader : list Z -> option JWSHeader).
Context (UnmarshalTyp : list Z -> option string).
Context (UnmarshalStatement : list Z -> option EntityStatementClaims).
Context (UnmarshalMark : list Z -> option trustMarkClaims).
Context (url_Parse : string -> option (string * string)).
Context (net_ParseIP : string -> option (list Z)).
Let Verify := VerifyCompactJWS ed25519_Verify ecdsa_Verify rsa_VerifyPKCS1v15 rsa_VerifyPSS UnmarshalHeader.
Context {X : Type}.
Context (clock : X -> Z).
Let resolve (t : TrustChainResolver X) := ResolveTrustChain ed25519_Verify ecdsa_Verify rsa_VerifyPKCS1v15 rsa_VerifyPSS UnmarshalHeader UnmarshalTyp
  UnmarshalStatement url_Parse net_ParseIP t clock.
Let expiry := Expiry UnmarshalStatement.
Implicit Types (r : trustMarkRequirement X).

Definition set_negative (f : NegativeCache -> NegativeCache) : M (gateState X) () := mmodify (fun s =>
  {| gs_resolved := gs_resolved s; gs_negative := f (gs_negative s); gs_running := gs_running s; gs_granted := gs_granted s; gs_net := gs_net s |}).
Definition set_running (f : Z -> Z) : M (gateState X) () := mmodify (fun s =>
  {| gs_resolved := gs_resolved s; gs_negative := gs_negative s; gs_running := f (gs_running s); gs_granted := gs_granted s; gs_net := gs_net s |}).
Definition set_granted (g : gset string) : M (gateState X) () := mmodify (fun s =>
  {| gs_resolved := gs_resolved s; gs_negative := gs_negative s; gs_running := gs_running s; gs_granted := g; gs_net := gs_net s |}).

(** [resolvedIssuerCache.store]: the failures of the issuer are forgotten. *)
Definition store (iss : string) (e : resolvedIssuerEntry) : M (gateState X) () := mmodify (fun s =>
  {| gs_resolved := <[iss := e]> (gs_resolved s); gs_negative := clearNegative (gs_negative s) iss; gs_running := gs_running s; gs_granted := gs_granted s; gs_net := gs_net s |}).

Definition over_net {A} (m : M X A) : M (gateState X) A := fun s =>
  let '(a, x) := m (gs_net s) in
  (a, {| gs_resolved := gs_resolved s; gs_negative := gs_negative s; gs_running := gs_running s; gs_granted := gs_granted s; gs_net := x |}).

(** *** Reading and checking a mark *)

Definition parseTrustMark (mark : string) : result mark_error trustMarkClaims :=
  if decide (mark = "") then Err EmptyMark
  else if negb (bool_decide (jwsHeaderTyp UnmarshalTyp mark = Some TrustMarkTyp)) then Err WrongMarkTyp
  else match unverifiedPayload mark ≫= UnmarshalMark with Some c => Ok c | None => Err MarkPayload end.

Definition checkTrustMarkFresh r (c : trustMarkClaims) (now : Z) : result mark_error () :=
  if mk_Iat c <=? 0 then Err MarkWithoutIat
  else if GoTime.Before (GoTime.Add now (rq_skew r)) (Unix (mk_Iat c)) then Err MarkNotYetValid
  else if (0 <? mk_Exp c) && GoTime.After now (GoTime.Add (Unix (mk_Exp c)) (rq_skew r)) then Err MarkExpired
  else Ok ().

Definition checkMarkBindings r (c : trustMarkClaims) (leafEntityID reqType : string) (now : Z) : result mark_error () :=
  if negb (bool_decide (mk_Sub c = leafEntityID)) then Err WrongMarkSubject
  else if negb (bool_decide (mk_TrustMarkType c = reqType)) then Err WrongMarkType
  else checkTrustMarkFresh r c now.

(** *** Who may issue it ([trust_marks_authz.go], [trust_marks_resolve.go]) *)

Definition authorizedIssuer r (iss reqType : string) : option TrustMarkIssuer :=
  if decide (iss = "") then None
  else List.find (fun ti => bool_decide (ti_EntityID ti = iss) && typeAllowed (ti_AllowedTypes ti) reqType) (rq_issuers r).

(** An empty list of issuers authorizes everyone, an absent one nobody. *)
Definition anchorAuthorizedTypes r (iss : string) (trustMarkIssuers : gmap string (list string)) : list string :=
  List.filter (fun t => match trustMarkIssuers !! t with None => false | Some [] => true | Some allowed => contains allowed iss end) (rq_requiredTypes r).

Definition lookupIssuer (s : gateState X) (iss : string) (now : Z) : option resolvedIssuerEntry :=
  match gs_resolved s !! iss with Some e => if GoTime.Before now (ie_expiresAt e) then Some e else None | None => None end.

(** [None] when the issuer is not cached. *)
Definition cachedResolvedKeys (s : gateState X) (iss reqType : string) (now : Z) : option (result issuer_error (list JWK)) :=
  (fun e => if contains (ie_authorizedTypes e) reqType then Ok (ie_keys e) else Err NotAuthorizedForType) <$> lookupIssuer s iss now.

(** [resolutionBudget.tryAcquire]: an issuer is counted once. *)
Definition tryAcquire r (iss : string) : M (gateState X) bool :=
  s ← mget;
  if bool_decide (iss ∈ gs_granted s) then mret true
  else if (0 <? rq_maxResolvedIssuersPerRequest r) && (rq_maxResolvedIssuersPerRequest r <=? Z.of_nat (size (gs_granted s))) then mret false
  else _ ← set_granted ({[iss]} ∪ gs_granted s); mret true.

Definition acquireIssuerResolveSlot r : M (gateState X) bool :=
  s ← mget;
  if gs_running s <? rq_issuerResolveSlots r then _ ← set_running (fun n => n + 1); mret true else mret false.
Definition releaseIssuerResolveSlot : M (gateState X) () := set_running (fun n => n - 1).

Definition acquireResolutionSlots r (iss : string) : M (gateState X) (result issuer_error ()) :=
  granted ← tryAcquire r iss;
  if negb granted then mret (Err BudgetExhausted)
  else slot ← acquireIssuerResolveSlot r; mret (if (slot : bool) then Ok () else Err Saturated).

Definition cacheResolvedIssuer (iss : string) (keys : list JWK) (authorizedTypes : list string) (exp now : Z) : M (gateState X) () :=
  if negb (GoTime.After exp now) then mret () else store iss {| ie_keys := keys; ie_authorizedTypes := authorizedTypes; ie_expiresAt := exp |}.

Definition resolveAndAuthorizeIssuer r (t : TrustChainResolver X) (iss reqType : string) (now : Z) : M (gateState X) (result issuer_error (list JWK)) :=
  resolved ← over_net (resolve t iss);
  match resolved with
  | Err _ => _ ← set_negative (fun c => recordNegative c iss now); mret (Err ChainFailed)
  | Ok chain =>
      let authorizedTypes := anchorAuthorizedTypes r iss (tc_AnchorTrustMarkIssuers chain) in
      if negb (contains authorizedTypes reqType) then _ ← set_negative (fun c => recordNegative c iss now); mret (Err NotAuthorizedForType)
      else match tc_LeafKeys chain with
           | [] => _ ← set_negative (fun c => recordNegative c iss now); mret (Err NoChainKeys)
           | keys => _ ← cacheResolvedIssuer iss keys authorizedTypes (expiry chain) now; mret (Ok keys)
           end
  end.

Definition federationResolvedIssuerKeys r (iss reqType : string) (now : Z) : M (gateState X) (result issuer_error (list JWK)) :=
  match rq_resolver r with
  | None => mret (Err PathInactive)
  | Some t =>
      if negb (Enabled t) then mret (Err PathInactive)
      else
        s ← mget;
        match cachedResolvedKeys s iss reqType now with
        | Some answer => mret answer
        | None =>
            let '(hit, neg) := negativeHit (gs_negative s) iss now in
            _ ← set_negative (fun _ => neg);
            if (hit : bool) then mret (Err RecentlyFailed)
            else
              slots ← acquireResolutionSlots r iss;
              match slots with
              | Err e => mret (Err e)
              | Ok _ => answer ← resolveAndAuthorizeIssuer r t iss reqType now; _ ← releaseIssuerResolveSlot; mret answer
              end
        end
  end.

Definition resolveIssuerKeys r (iss reqType : string) (now : Z) : M (gateState X) (result mark_error (list JWK)) :=
  match authorizedIssuer r iss reqType with
  | Some issuer => mret (match ti_Keys issuer with [] => Err IssuerWithoutKeys | keys => Ok keys end)
  | None =>
      if rq_allowFederationResolved r
      then answer ← federationResolvedIssuerKeys r iss reqType now; mret (match answer with Ok keys => Ok keys | Err _ => Err IssuerNotAuthorized end)
      else mret (Err IssuerNotAuthorized)
  end.

Definition validateMark r (leafEntityID reqType mark : string) (now : Z) : M (gateState X) (result mark_error ()) :=
  match parseTrustMark mark with
  | Err e => mret (Err e)
  | Ok c =>
      found ← resolveIssuerKeys r (mk_Iss c) reqType now;
      mret (keys ← found;
            match Verify mark keys (rq_allowedAlgs r) with
            | Err _ => Err MarkSignature
            | Ok _ => checkMarkBindings r c leafEntityID reqType now
            end)
  end.

(** The first mark that is valid for the type. *)
Fixpoint satisfiedBy r (leafEntityID reqType : string) (marks : list TrustMarkEntry) (now : Z) : M (gateState X) bool :=
  match marks with
  | [] => mret false
  | m :: rest =>
      ok ← validateMark r leafEntityID reqType (tm_TrustMark m) now;
      if is_ok ok then mret true else satisfiedBy r leafEntityID reqType rest now
  end.

Fixpoint allSatisfied r (leafEntityID : string) (types : list string) (marks : list TrustMarkEntry) (now : Z) : M (gateState X) bool :=
  match types with
  | [] => mret true
  | reqType :: rest =>
      ok ← satisfiedBy r leafEntityID reqType marks now;
      if (ok : bool) then allSatisfied r leafEntityID rest marks now else mret false
  end.

(** [validate]: false is [ErrTrustMarkRequirementUnmet].  The budget is the request's. *)
Definition validateMarks (gate : option (trustMarkRequirement X)) (leafEntityID : string) (marks : list TrustMarkEntry) (now : Z) : M (gateState X) bool :=
  match gate with
  | None => mret true
  | Some r =>
      if bool_decide (rq_requiredTypes r = []) then mret true
      else if (0 <? rq_maxLeafTrustMarks r) && (rq_maxLeafTrustMarks r <? Z.of_nat (length marks)) then mret false
      else _ ← set_granted ∅; allSatisfied r leafEntityID (rq_requiredTypes r) marks now
  end.

(** ** What a satisfied requirement rests on *)

(** The chain was resolved for the issuer, at some time, and holds the keys of its
    configuration and what the configuration of the anchor says of mark issuers. *)
Definition issuer_chain r (iss : string) (chain : TrustChain) : Prop :=
  exists t x a leaf above, rq_resolver r = Some t /\
    trusted ed25519_Verify ecdsa_Verify rsa_VerifyPKCS1v15 rsa_VerifyPSS UnmarshalHeader UnmarshalTyp UnmarshalStatement url_Parse t (clock x) iss chain a leaf above /\
    tc_LeafKeys chain = es_JWKS (claims leaf) /\ tc_AnchorTrustMarkIssuers chain = anchorTrustMarkIssuers (claims (List.last above leaf)).

Lemma resolve_issuer_chain r t iss x chain x' : rq_resolver r = Some t -> resolve t iss x = (Ok chain, x') -> issuer_chain r iss chain.
Proof. intros Ht (a & leaf & above & H & E)%resolve_trusted. exists t, x', a, leaf, above. by rewrite E at 2 3. Qed.

(** The anchor of the issuer's chain lets the issuer give marks of the type. *)
Definition anchor_authorizes (iss reqType : string) (chain : TrustChain) : Prop :=
  exists allowed, tc_AnchorTrustMarkIssuers chain !! reqType = Some allowed /\ (allowed = [] \/ iss ∈ allowed).

(** [authorised now iss type keys]: the keys are those of an issuer that the configuration
    names for the type, or that an anchor authorizes for it and a chain vouches for: one
    that was just resolved, or one remembered that has not expired. *)
Inductive authorised r (now : Z) (iss reqType : string) : list JWK -> Prop :=
| configured ti : ti ∈ rq_issuers r -> ti_EntityID ti = iss -> iss <> "" -> (ti_AllowedTypes ti = [] \/ reqType ∈ ti_AllowedTypes ti) ->
    authorised r now iss reqType (ti_Keys ti)
| resolved chain t x x' : rq_resolver r = Some t -> resolve t iss x = (Ok chain, x') -> issuer_chain r iss chain -> anchor_authorizes iss reqType chain ->
    authorised r now iss reqType (tc_LeafKeys chain)
| remembered chain : issuer_chain r iss chain -> anchor_authorizes iss reqType chain -> now < expiry chain ->
    authorised r now iss reqType (tc_LeafKeys chain).

Definition valid_mark r (now : Z) (leafEntityID reqType mark : string) : Prop :=
  exists c keys payload, jwsHeaderTyp UnmarshalTyp mark = Some TrustMarkTyp /\
    Verify mark keys (rq_allowedAlgs r) = Ok payload /\ UnmarshalMark payload = Some c /\ authorised r now (mk_Iss c) reqType keys /\
    mk_Sub c = leafEntityID /\ mk_TrustMarkType c = reqType /\
    0 < mk_Iat c /\ Unix (mk_Iat c) <= now + rq_skew r /\ (0 < mk_Exp c -> now <= Unix (mk_Exp c) + rq_skew r).

(** What the cache remembers of an issuer is what a chain said. *)
Definition remembers r (s : gateState X) : Prop :=
  forall iss e, gs_resolved s !! iss = Some e -> exists chain, issuer_chain r iss chain /\
    ie_keys e = tc_LeafKeys chain /\ ie_expiresAt e = expiry chain /\ forall ty, ty ∈ ie_authorizedTypes e -> anchor_authorizes iss ty chain.

Definition memory {A} r (m : M (gateState X) A) : Prop := forall s, remembers r s -> remembers r (m s).2.

Lemma memory_ret {A} r (a : A) : memory r (mret a).
Proof. by intros s. Qed.
Lemma memory_bind {A B} r (m : M (gateState X) A) (f : A -> M (gateState X) B) : memory r m -> (forall a, memory r (f a)) -> memory r (m ≫= f).
Proof. intros Hm Hf s Hs. rewrite M_bind_unfold. by apply Hf, Hm. Qed.
Lemma memory_get r : memory r mget.
Proof. by intros s. Qed.
Lemma memory_negative r f : memory r (set_negative f).
Proof. by intros s. Qed.
Lemma memory_running r f : memory r (set_running f).
Proof. by intros s. Qed.
Lemma memory_granted r g : memory r (set_granted g).
Proof. by intros s. Qed.
Lemma memory_net {A} r (m : M X A) : memory r (over_net m).
Proof. intros s Hs. unfold over_net. by destruct (m _). Qed.

#[local] Hint Resolve memory_ret memory_bind memory_get memory_negative memory_running memory_granted memory_net : memory.

Lemma memory_slots r iss : memory r (acquireResolutionSlots r iss).
Proof.
  unfold acquireResolutionSlots, tryAcquire, acquireIssuerResolveSlot. apply memory_bind.
  { apply memory_bind; [auto with memory|]. intros s. repeat case_match; auto with memory. }
  intros []; cbn [negb]; [|auto with memory]. apply memory_bind; [|auto with memory]. apply memory_bind; [auto with memory|]. intros s. case_match; auto with memory.
Qed.

Lemma anchorAuthorizedTypes_authorizes r iss reqType chain :
  reqType ∈ anchorAuthorizedTypes r iss (tc_AnchorTrustMarkIssuers chain) -> anchor_authorizes iss reqType chain.
Proof.
  unfold anchorAuthorizedTypes, anchor_authorizes. intros H%list_elem_of_In. apply List.filter_In in H as [_ H].
  destruct (_ !! reqType) as [[|a l]|]; [| |done]; eexists; (split; [done|]); [by left|right; by apply contains_spec in H].
Qed.

Lemma memory_resolve r t iss reqType now : rq_resolver r = Some t -> memory r (resolveAndAuthorizeIssuer r t iss reqType now).
Proof.
  intros Ht s Hs. unfold resolveAndAuthorizeIssuer. rewrite M_bind_unfold. unfold over_net. destruct (resolve t iss (gs_net s)) as [[chain|e] x'] eqn:Hr; cbn [fst snd]; [|done].
  destruct (negb _); [done|]. destruct (tc_LeafKeys chain) as [|k ks] eqn:Hk; [done|]. rewrite M_bind_unfold. unfold cacheResolvedIssuer.
  destruct (negb _); [done|]. cbn. intros iss' e. cbn. destruct (decide (iss' = iss)) as [->|Hne]; [rewrite lookup_insert_eq|rewrite lookup_insert_ne by done; apply Hs].
  intros [= <-]. exists chain. cbn. split_and!; try done; [by eapply resolve_issuer_chain|]. intros ty. apply anchorAuthorizedTypes_authorizes.
Qed.

Lemma memory_keys r iss reqType now : memory r (resolveIssuerKeys r iss reqType now).
Proof.
  unfold resolveIssuerKeys, federationResolvedIssuerKeys. destruct (authorizedIssuer r iss reqType); [auto with memory|]. destruct (rq_allowFederationResolved r); [|auto with memory].
  apply memory_bind; [|intros []; auto with memory]. destruct (rq_resolver r) as [t|] eqn:Ht; [|auto with memory]. destruct (negb _); [auto with memory|].
  apply memory_bind; [auto with memory|]. intros s. destruct (cachedResolvedKeys _ _ _ _); [auto with memory|]. destruct (negativeHit _ _ _) as [[] neg].
  - auto with memory.
  - apply memory_bind; [auto with memory|]. intros _. apply memory_bind; [apply memory_slots|]. intros [_|e]; [|auto with memory].
    apply memory_bind; [by apply memory_resolve|]. unfold releaseIssuerResolveSlot. auto with memory.
Qed.

Lemma resolveAndAuthorize_Ok r t iss reqType now s keys s' : rq_resolver r = Some t ->
  resolveAndAuthorizeIssuer r t iss reqType now s = (Ok keys, s') -> authorised r now iss reqType keys.
Proof.
  intros Ht. unfold resolveAndAuthorizeIssuer. rewrite M_bind_unfold. unfold over_net. destruct (resolve t iss (gs_net s)) as [[chain|e] x'] eqn:Hr; cbn [fst snd]; [|done].
  destruct (contains _ reqType) eqn:Hc; cbn [negb]; [|done]. apply contains_spec, anchorAuthorizedTypes_authorizes in Hc.
  destruct (tc_LeafKeys chain) as [|k ks] eqn:Hk; [done|]. rewrite M_bind_unfold. cbn. intros [= <- _]. rewrite <- Hk. eapply resolved; eauto using resolve_issuer_chain.
Qed.

Lemma cachedResolvedKeys_Ok r s iss reqType now keys : remembers r s -> cachedResolvedKeys s iss reqType now = Some (Ok keys) -> authorised r now iss reqType keys.
Proof.
  intros Hs. unfold cachedResolvedKeys, lookupIssuer. destruct (gs_resolved s !! iss) as [e|] eqn:He; [|done]. destruct (GoTime.Before _ _) eqn:Ht; [|done]. cbn.
  destruct (contains _ _) eqn:Hc; [|done]. intros [= <-]. apply contains_spec in Hc. destruct (Hs iss e He) as (chain & Hch & -> & Hexp & Hty).
  apply remembered; [done|by apply Hty|]. unfold GoTime.Before in Ht. rewrite <- Hexp. lia.
Qed.

Lemma federationResolved_Ok r iss reqType now s keys s' : remembers r s ->
  federationResolvedIssuerKeys r iss reqType now s = (Ok keys, s') -> authorised r now iss reqType keys.
Proof.
  intros Hs. unfold federationResolvedIssuerKeys. destruct (rq_resolver r) as [t|] eqn:Ht; [|done]. destruct (negb _); [done|].
  rewrite M_bind_unfold. cbn [mget fst snd]. destruct (cachedResolvedKeys s iss reqType now) as [[ks|e]|] eqn:Hc; [|done|].
  { intros [= <- _]. by eapply cachedResolvedKeys_Ok. }
  destruct (negativeHit _ _ _) as [hit neg]. rewrite M_bind_unfold. destruct hit; [done|]. rewrite M_bind_unfold.
  destruct (acquireResolutionSlots r iss _) as [[[]|e] s1]; cbn [fst snd]; [|done]. rewrite M_bind_unfold.
  destruct (resolveAndAuthorizeIssuer _ _ _ _ _ s1) as [[ks|e] s2] eqn:Hr; cbn; [|done]. intros [= <- _]. by eapply resolveAndAuthorize_Ok.
Qed.

Lemma resolveIssuerKeys_Ok r iss reqType now s keys s' : remembers r s -> resolveIssuerKeys r iss reqType now s = (Ok keys, s') -> authorised r now iss reqType keys.
Proof.
  intros Hs. unfold resolveIssuerKeys. destruct (authorizedIssuer r iss reqType) as [ti|] eqn:Ha.
  - destruct (ti_Keys ti) as [|k ks] eqn:Hk; [done|]. intros [= <- _]. rewrite <- Hk. unfold authorizedIssuer in Ha. destruct (decide (iss = "")) as [|Hne]; [done|].
    apply List.find_some in Ha as [Hin%list_elem_of_In [Hid Hty]%andb_true_iff]. apply bool_decide_eq_true in Hid. apply configured; try done.
    unfold typeAllowed in Hty. destruct (ti_AllowedTypes ti); [by left|right; by apply contains_spec].
  - destruct (rq_allowFederationResolved r); [|done]. rewrite M_bind_unfold.
    destruct (federationResolvedIssuerKeys r iss reqType now s) as [[ks|e] s1] eqn:Hf; cbn; [|done]. intros [= <- _]. by eapply federationResolved_Ok.
Qed.

Lemma memory_mark r leaf reqType mark now : memory r (validateMark r leaf reqType mark now).
Proof. unfold validateMark. destruct (parseTrustMark mark); [|auto with memory]. apply memory_bind; [apply memory_keys|auto with memory]. Qed.

Lemma validateMark_Ok r leaf reqType mark now s s' : remembers r s -> validateMark r leaf reqType mark now s = (Ok (), s') -> valid_mark r now leaf reqType mark.
Proof.
  intros Hs. unfold validateMark. destruct (parseTrustMark mark) as [c|] eqn:Hp; [|done]. rewrite M_bind_unfold.
  destruct (resolveIssuerKeys r _ reqType now s) as [[keys|e] s1] eqn:Hk; cbn; [|done]. intros [= H _]. apply resolveIssuerKeys_Ok in Hk; [|done].
  destruct (Verify mark keys _) as [payload|] eqn:Hv; [|done]. unfold parseTrustMark in Hp. destruct (decide _); [done|]. destruct (bool_decide _) eqn:Ht; [|done].
  apply bool_decide_eq_true in Ht. cbn [negb] in Hp. rewrite (Verify_payload _ _ _ _ _ _ _ _ _ Hv) in Hp. cbn in Hp. destruct (UnmarshalMark payload) as [c'|] eqn:Hc; [|done].
  injection Hp as ->. unfold checkMarkBindings in H. destruct (bool_decide (mk_Sub c = leaf)) eqn:H1; [|done]. destruct (bool_decide (mk_TrustMarkType c = reqType)) eqn:H2; [|done].
  apply bool_decide_eq_true in H1, H2. cbn [negb] in H. unfold checkTrustMarkFresh, GoTime.Before, GoTime.After, GoTime.Add in H. destruct (mk_Iat c <=? 0) eqn:H3; [done|].
  destruct (_ <? Unix (mk_Iat c)) eqn:H4; [done|]. destruct (0 <? mk_Exp c) eqn:H5; cbn [andb] in H; [destruct (_ <? now) eqn:H6; [done|]|];
    exists c, keys, payload; split_and!; try done; lia.
Qed.

Lemma satisfiedBy_true r leaf reqType marks now s s' : remembers r s -> satisfiedBy r leaf reqType marks now s = (true, s') ->
  remembers r s' /\ exists m, m ∈ marks /\ valid_mark r now leaf reqType (tm_TrustMark m).
Proof.
  revert s. induction marks as [|m rest IH]; intros s Hs; cbn [satisfiedBy]; [done|]. rewrite M_bind_unfold. pose proof (memory_mark r leaf reqType (tm_TrustMark m) now s Hs) as Hm.
  destruct (validateMark _ _ _ _ _ s) as [[[]|e] s1] eqn:Hv; cbn [is_ok fst snd] in *.
  - intros [= <-]. split; [done|]. exists m. split; [by left|]. exact (validateMark_Ok _ _ _ _ _ _ _ Hs Hv).
  - intros H. destruct (IH s1 Hm H) as (? & m' & ? & ?). split; [done|]. exists m'. split; [by right|done].
Qed.

Lemma allSatisfied_true r leaf types marks now s s' : remembers r s -> allSatisfied r leaf types marks now s = (true, s') ->
  remembers r s' /\ forall reqType, reqType ∈ types -> exists m, m ∈ marks /\ valid_mark r now leaf reqType (tm_TrustMark m).
Proof.
  revert s. induction types as [|ty types IH]; intros s Hs; cbn [allSatisfied]. { intros [= <-]. split; [done|]. by intros ? ?%not_elem_of_nil. }
  rewrite M_bind_unfold. destruct (satisfiedBy _ _ _ _ _ s) as [[] s1] eqn:H1; cbn [fst snd]; [|done]. intros H. apply satisfiedBy_true in H1 as (Hs1 & m & ? & ?); [|done].
  destruct (IH s1 Hs1 H) as [Hr Hall]. split; [done|]. intros reqType [->|Hin]%elem_of_cons; [by exists m|by apply Hall].
Qed.

(** The gate leaves the cache true, and lets a relying party pass only with a mark for
    each type. *)
Lemma validateMarks_true r leaf marks now s s' : remembers r s -> validateMarks (Some r) leaf marks now s = (true, s') ->
  remembers r s' /\ forall reqType, reqType ∈ rq_requiredTypes r -> exists m, m ∈ marks /\ valid_mark r now leaf reqType (tm_TrustMark m).
Proof.
  intros Hs. unfold validateMarks. destruct (bool_decide _) eqn:H0.
  { apply bool_decide_eq_true in H0. rewrite H0. intros [= <-]. split; [done|]. by intros ? ?%not_elem_of_nil. }
  destruct (_ && _); [done|]. rewrite M_bind_unfold. apply allSatisfied_true. done.
Qed.

Lemma memory_marks gate r leaf marks now : (forall r', gate = Some r' -> r' = r) -> memory r (validateMarks gate leaf marks now).
Proof.
  intros Hg. unfold validateMarks. destruct gate as [r'|]; [|auto with memory]. rewrite (Hg r' eq_refl). destruct (bool_decide _); [auto with memory|].
  destruct (_ && _); [auto with memory|]. apply memory_bind; [auto with memory|]. intros _. generalize (rq_requiredTypes r). intros types.
  assert (forall ty, memory r (satisfiedBy r leaf ty marks now)) as Hsat.
  { intros ty. induction marks as [|m rest IH]; cbn [satisfiedBy]; [auto with memory|]. apply memory_bind; [apply memory_mark|]. intros e. case_match; auto with memory. }
  induction types as [|ty types IH]; cbn [allSatisfied]; [auto with memory|]. apply memory_bind; [done|]. intros []; auto with memory.
Qed.
End gate.

(** ** The cache of failures stays small *)

Lemma soonest_in best entries k : soonest best entries = Some k -> (exists e, best = Some (k, e)) \/ k ∈ entries.*1.
Proof.
  revert best. induction entries as [|[k' e'] rest IH]; intros best; cbn [soonest].
  { destruct best as [[? e]|]; [|done]. intros [= ->]. left. by exists e. }
  intros [[e H]|H]%IH; [|right; by right]. destruct best as [[k0 e0]|]; [destruct (GoTime.Before _ _)|]; injection H as ? ?; subst; [right; by left|left; by exists e|right; by left].
Qed.

Lemma soonest_some best entries : best <> None \/ entries <> [] -> exists k, soonest best entries = Some k.
Proof.
  revert best. induction entries as [|[k e] rest IH]; intros best H; cbn [soonest]; [destruct best as [[k e]|]; [by exists k|naive_solver]|].
  apply IH. left. destruct best as [[]|]; [by destruct (GoTime.Before _ _)|done].
Qed.

Lemma evictNegative_frees m now : m <> ∅ -> (size (evictNegativeLocked m now) < size m)%nat.
Proof.
  intros Hm. unfold evictNegativeLocked. cbv zeta. destruct (_ =? 0)%nat eqn:H.
  - destruct (soonest_some None (map_to_list m)) as [k Hk]; [right; intros E; by apply map_to_list_empty_iff in E|]. rewrite Hk.
    apply soonest_in in Hk as [[? ?]|Hk]; [done|]. apply list_elem_of_fmap in Hk as ([k' e] & -> & Hk). apply elem_of_map_to_list in Hk. cbn.
    rewrite map_size_delete, Hk. apply map_size_non_empty_iff in Hm. lia.
  - apply Nat.eqb_neq in H. pose proof (delete_where_size (fun exp => negb (GoTime.Before now exp)) m). lia.
Qed.

(** The cache never holds more failures than its maximum. *)
Lemma recordNegative_bounded c id now : 0 < neg_max c -> Z.of_nat (size (neg_entries c)) <= neg_max c ->
  Z.of_nat (size (neg_entries (recordNegative c id now))) <= neg_max c.
Proof.
  intros Hmax Hsize. unfold recordNegative. destruct (neg_ttl c <=? 0); [done|]. cbv zeta. cbn [set_entries neg_entries].
  destruct (neg_entries c !! id) as [e|] eqn:Hid.
  - rewrite bool_decide_eq_false_2 by done. cbn [andb]. by rewrite map_size_insert_Some by (by exists e).
  - rewrite bool_decide_eq_true_2, (proj2 (Z.ltb_lt _ _) Hmax) by done. cbn [andb]. destruct (neg_max c <=? _) eqn:H.
    + assert (neg_entries c <> ∅) as Hne by (intros E; rewrite E, map_size_empty in H; apply Z.leb_le in H; lia). apply (evictNegative_frees _ now) in Hne.
      apply Z.leb_le in H. rewrite map_size_insert. case_match; unfold Datatypes.id; lia.
    + rewrite map_size_insert_None by done. lia.
Qed.

(** ** Concrete gates *)

(** Marks 31 and 32 are of type A, from the issuer the configuration names (key 4), and of
    type B, from one of the federation (key 5). *)
Definition gate_marks (payload : list Z) : option trustMarkClaims :=
  let mark iss ty exp := Some {| mk_Iss := iss; mk_Sub := "https://rp.fed"; mk_TrustMarkType := ty; mk_Iat := 1000; mk_Exp := exp |} in
  if decide (payload = [31]) then mark "https://pinned.fed" "A" 0
  else if decide (payload = [32]) then mark "https://iss.fed" "B" 3000
  else None.
Definition gate_claims (payload : list Z) : option EntityStatementClaims :=
  if decide (payload = [21]) then Some (fed_entity "https://iss.fed" 5 false ["https://ta.fed"] None [] ∅)
  else if decide (payload = [22]) then Some (fed_statement "https://ta.fed" "https://iss.fed" 5 4500 ∅ None)
  else if decide (payload = [23]) then Some (fed_entity "https://ta.fed" 3 true [] None [] {["B" := ["https://iss.fed"]]})
  else None.
Definition gate_net : EntityStatementFetcher () := {|
  FetchEntityConfiguration id := mret (if decide (id = "https://iss.fed") then Some (fed_token 21 5) else if decide (id = "https://ta.fed") then Some (fed_token 23 3) else None);
  FetchSubordinateStatement ep iss sub := mret (Some (fed_token 22 3)) |}.
Definition gate_config (types : list string) : Config := {| cf_TrustAnchors := cf_TrustAnchors fed_config; cf_MaxTrustChainDepth := 0; cf_MaxClockSkew := 0;
  cf_RequiredTrustMarkTypes := types; cf_TrustMarkIssuers := [{| ti_EntityID := "https://pinned.fed"; ti_Keys := [fed_jwk 4]; ti_AllowedTypes := ["A"] |}];
  cf_AllowFederationResolvedTrustMarkIssuers := true; cf_MaxResolvedIssuersPerRequest := 0;
  cf_MaxConcurrentIssuerResolutions := 0; cf_ResolvedIssuerNegativeCacheTTL := 0; cf_ResolvedIssuerNegativeCacheMaxSize := 0; cf_MaxLeafTrustMarks := 0 |}.
Definition gate_rule (types : list string) : option (trustMarkRequirement ()) :=
  newTrustMarkRequirement (Some (gate_config types)) (Some (NewTrustChainResolver (Some (gate_config types)) gate_net [])).
Definition gate_start : gateState () := {| gs_resolved := ∅; gs_negative := newResolvedIssuerCache (Some fed_config); gs_running := 0; gs_granted := ∅; gs_net := () |}.
(** The first segment of a token tells a mark from a statement. *)
Definition gate_check (types : list string) (marks : list TrustMarkEntry) (now : Z) : bool * gateState () :=
  validateMarks fed_verify (fun _ _ _ _ _ => false) (fun _ _ _ _ => false) (fun _ _ _ _ => false) fed_header
    (fun b => Some (if decide (b = [2]) then TrustMarkTyp else EntityStatementTyp)) gate_claims gate_marks fed_url fed_ip (fun _ => now)
    (gate_rule types) "https://rp.fed" marks now gate_start.
Definition mark_jws (n k : Z) : string := JwtIssuer.compact (Base64.RawURLEncode [2]) (Base64.RawURLEncode [n]) (Base64.RawURLEncode (fed_key k)).
Definition mark_A : TrustMarkEntry := {| tm_TrustMarkType := "A"; tm_TrustMark := mark_jws 31 4 |}.
Definition mark_B : TrustMarkEntry := {| tm_TrustMarkType := "B"; tm_TrustMark := mark_jws 32 5 |}.

(** Each mark is valid on its own; the pair is accepted in one order and refused in the
    other.  While the first type is looked for, the issuer of the second is resolved,
    found not to be authorized for the first, and remembered as a failure; when its own
    type comes, it is not asked again. *)
Example authorized_issuer_shut_out :
  (gate_check ["A"] [mark_B; mark_A] (Unix 2000)).1 = true /\ (gate_check ["B"] [mark_B; mark_A] (Unix 2000)).1 = true /\
  (gate_check ["A"; "B"] [mark_A; mark_B] (Unix 2000)).1 = true /\ (gate_check ["A"; "B"] [mark_B; mark_A] (Unix 2000)).1 = false.
Proof. vm_compute. done. Qed.

Example marks_refused : (gate_check ["B"] [{| tm_TrustMarkType := "B"; tm_TrustMark := mark_jws 32 4 |}] (Unix 2000)).1 = false /\
  (gate_check ["B"] [{| tm_TrustMarkType := "B"; tm_TrustMark := mark_jws 31 4 |}] (Unix 2000)).1 = false /\ (gate_check ["B"] [mark_B] (Unix 3061)).1 = false.
Proof. vm_compute. done. Qed.
