(* ===== verification/FedRegistration.v ===== *)
(** * FedRegistration: clients that register themselves through a federation
    ([domains/federation]: [registration.go], [registration_resolve.go],
    [registration_helpers.go], [registration_metadata.go]).

    A client store that, for an identifier the server's own store does not know, resolves
    the trust chain of the entity, asks for its trust marks and makes a client of its
    metadata.  Chains that resolved and chains that failed are remembered.  A request is
    one step; between requests the network and the clock may do anything. *)
From S2P Require Import Prelude Crypto Core Scopes AdminPaging MetadataPolicy Jose Jwks JwtIssuer TrustChain TrustMarks.
Local Open Scope Z_scope.

Definition DefaultResolutionNegativeCacheTTL : Z := 30 * GoTime.Second.
Definition DefaultMaxConcurrentResolutions : Z := 16.
Definition DefaultResolutionNegativeCacheMaxSize : Z := 1024.

(** ** From metadata to a client ([registration_metadata.go]) *)

Definition metaString (m : metadata) (key : string) : string := match m !! key with Some (JStr s) => s | _ => "" end.

(** What is not a list is absent; of a decoded list what is not a non-empty string is
    dropped. *)
Definition metaStringSlice (m : metadata) (key : string) : list string :=
  match m !! key with
  | Some (JStrs l) => l
  | Some (JArr l) => omap (fun e => match e with JStr s => if decide (s = "") then None else Some s | _ => None end) l
  | _ => []
  end.

Definition scope_space (c : ascii) : bool := bool_decide (c = " "%char) || bool_decide (c = Ascii.ascii_of_nat 9) || bool_decide (c = Ascii.ascii_of_nat 10).

(** [acc] is the member being read, in reverse. *)
Fixpoint split_scope (s acc : list ascii) : list string :=
  let member := match acc with [] => [] | _ => [Str.of_list (reverse acc)] end in
  match s with
  | [] => member
  | c :: rest => if scope_space c then member ++ split_scope rest [] else split_scope rest (c :: acc)
  end.
Definition splitScopeString (scope : string) : list string := split_scope (Str.to_list scope) [].

Definition buildFederationClient (entityID : string) (rp : metadata) (jwks : list JWK) (tenantID : string) (redirectURIs : list string) : Client := {|
  cl_ID := entityID; cl_Secret := ""; cl_Name := metaString rp "client_name"; cl_RedirectURIs := redirectURIs;
  cl_RedirectURIPatterns := []; cl_AllowedScopes := splitScopeString (metaString rp "scope");
  cl_AllowedAuthenticators := []; cl_AllowedProviderIDs := []; cl_LoginPageURI := ""; cl_TokenStrategy := ""; cl_Active := true;
  cl_Federation := true; cl_TenantID := tenantID; cl_RequirePKCE := bool_decide (metaString rp "token_endpoint_auth_method" = "none");
  cl_AllowedResources := []; cl_RegistrationAccessToken := ""; cl_PreviousRegistrationAccessToken := ""; cl_RegistrationAccessTokenOverlapUntil := 0;
  cl_PostLogoutRedirectURIs := []; cl_AllowedAuthorizationDetailsTypes := []; cl_RefreshTokenTTL := 0; cl_AccessTokenTTL := 0; cl_GrantTypes := [];
  cl_PreviousSecret := ""; cl_SecretOverlapUntil := 0; cl_SecretRotatedAt := 0; cl_SecretExpiresAt := 0; cl_JWKS := jwks;
  cl_TokenEndpointAuthMethod := ""; cl_TLSClientAuthSubjectDN := ""; cl_TLSClientAuthSANDNS := ""; cl_TLSClientAuthSANEmail := ""; cl_TLSClientAuthSANURI := "";
  cl_Attributes := ∅ |}.

(** [None] is [ErrFederationMetadataInvalid]. *)
Definition MetadataToClient (entityID : string) (rp : metadata) (jwks : list JWK) (tenantID : string) : option Client :=
  if decide (entityID = "") then None
  else match metaStringSlice rp "redirect_uris" with
       | [] => None
       | redirectURIs => Some (buildFederationClient entityID rp jwks tenantID redirectURIs)
       end.


(** ** The store ([registration.go]) *)

Record federationClientEntry := { fc_client : Client; fc_expiresAt : Z }.

Definition fresh_entry (e : federationClientEntry) (now : Z) : bool := GoTime.Before now (fc_expiresAt e).

Record RegistrationClientStore (X : Type) := {
  rg_resolver : option (TrustChainResolver X);
  rg_defaultTenantID : string;
  rg_resolveSlots : Z;
  rg_trustMarks : option (trustMarkRequirement X);
}.
Arguments rg_resolver {X}. Arguments rg_defaultTenantID {X}. Arguments rg_resolveSlots {X}. Arguments rg_trustMarks {X}. Arguments Build_RegistrationClientStore {X}.

(** The clients derived, the failures, the resolutions that run, and the state of the
    mark gate, which holds the network. *)
Record regState (X : Type) := { rs_cache : gmap string federationClientEntry; rs_negCache : NegativeCache; rs_running : Z; rs_gate : gateState X }.
Arguments rs_cache {X}. Arguments rs_negCache {X}. Arguments rs_running {X}. Arguments rs_gate {X}. Arguments Build_regState {X}.

(** What the options ask for; zero or negative values leave the default. *)
Definition NewRegistrationClientStore {X} (resolver : option (TrustChainResolver X)) (tenantID : string) (maxConcurrency : Z) (trustMarks : option Config) : RegistrationClientStore X :=
  {| rg_resolver := resolver; rg_defaultTenantID := tenantID; rg_resolveSlots := if 0 <? maxConcurrency then maxConcurrency else DefaultMaxConcurrentResolutions;
     rg_trustMarks := newTrustMarkRequirement trustMarks resolver |}.
Definition newNegCache (ttl maxSize : Z) : NegativeCache :=
  {| neg_ttl := if 0 <? ttl then ttl else DefaultResolutionNegativeCacheTTL; neg_max := if 0 <? maxSize then maxSize else DefaultResolutionNegativeCacheMaxSize; neg_entries := ∅ |}.

Definition federationActive {X} (g : RegistrationClientStore X) : bool := match rg_resolver g with Some t => Enabled t | None => false end.

Section store.
Context (ed25519_Verify : list Z -> list Z -> list Z -> bool).
Context (ecdsa_Verify : Curve -> Z * Z -> list Z -> Z -> Z -> bool).
Context (rsa_VerifyPKCS1v15 rsa_VerifyPSS : Z * Z -> option Hash -> list Z -> list Z -> bool).
Context (UnmarshalHeader : list Z -> option JWSHeader).
Context (UnmarshalTyp : list Z -> option string).
Context (UnmarshalStatement : list Z -> option EntityStatementClaims).
Context (UnmarshalMark : list Z -> option trustMarkClaims).
Context (url_Parse : string -> option (string * string)).
Context (net_ParseIP : string -> option (list Z)).
(** The keys of a member once marshalled and read as a key set. *)
Context (json_JWKS : json -> option (list JWK)).
Context {X : Type}.
Context (clock : X -> Z).
Let resolve (t : TrustChainResolver X) := ResolveTrustChain ed25519_Verify ecdsa_Verify rsa_VerifyPKCS1v15 rsa_VerifyPSS UnmarshalHeader UnmarshalTyp
  UnmarshalStatement url_Parse net_ParseIP t clock.
Let expiry := Expiry UnmarshalStatement.
Let marks := validateMarks ed25519_Verify ecdsa_Verify rsa_VerifyPKCS1v15 rsa_VerifyPSS UnmarshalHeader UnmarshalTyp UnmarshalStatement UnmarshalMark
  url_Parse net_ParseIP clock.
Implicit Types (g : RegistrationClientStore X).

Definition set_cache (f : gmap string federationClientEntry -> gmap string federationClientEntry) : M (regState X) () := mmodify (fun s =>
  {| rs_cache := f (rs_cache s); rs_negCache := rs_negCache s; rs_running := rs_running s; rs_gate := rs_gate s |}).
Definition set_negCache (f : NegativeCache -> NegativeCache) : M (regState X) () := mmodify (fun s =>
  {| rs_cache := rs_cache s; rs_negCache := f (rs_negCache s); rs_running := rs_running s; rs_gate := rs_gate s |}).
Definition set_resolving (f : Z -> Z) : M (regState X) () := mmodify (fun s =>
  {| rs_cache := rs_cache s; rs_negCache := rs_negCache s; rs_running := f (rs_running s); rs_gate := rs_gate s |}).
Definition on_gate {A} (m : M (gateState X) A) : M (regState X) A := fun s =>
  let '(a, gs) := m (rs_gate s) in (a, {| rs_cache := rs_cache s; rs_negCache := rs_negCache s; rs_running := rs_running s; rs_gate := gs |}).

Definition time_now : M (regState X) Z := fun s => (clock (gs_net (rs_gate s)), s).

(** The keys of the metadata; none when they cannot be read. *)
Definition parseRPJWKS (rp : metadata) : option (list JWK) :=
  match rp !! "jwks" with
  | None | Some JNull => Some []
  | Some raw => match json_JWKS raw with Some (k :: ks) => Some (k :: ks) | _ => None end
  end.
Definition chainJWKS (chain : TrustChain) : list JWK := default [] (parseRPJWKS (default ∅ (tc_ResolvedRPMetadata chain))).

Definition cachedClient (s : regState X) (entityID : string) (now : Z) : option Client :=
  match rs_cache s !! entityID with Some e => if fresh_entry e now then Some (fc_client e) else None | None => None end.

Definition acquireResolveSlot g : M (regState X) bool :=
  s ← mget; if rs_running s <? rg_resolveSlots g then _ ← set_resolving (fun n => n + 1); mret true else mret false.
Definition releaseResolveSlot : M (regState X) () := set_resolving (fun n => n - 1).

(** The resolution failed: the identifier is remembered, at the time that it is. *)
Definition failed (entityID : string) : M (regState X) (option Client) :=
  now ← time_now; _ ← set_negCache (fun c => recordNegative c entityID now); mret None.

Definition resolveAndDeriveClient g (t : TrustChainResolver X) (entityID : string) (now : Z) : M (regState X) (option Client) :=
  found ← on_gate (over_net (resolve t entityID));
  match found with
  | Err _ => failed entityID
  | Ok chain =>
      then_ ← time_now;
      ok ← on_gate (marks (rg_trustMarks g) (tc_LeafEntityID chain) (tc_LeafTrustMarks chain) then_);
      if negb ok then failed entityID
      else match MetadataToClient entityID (default ∅ (tc_ResolvedRPMetadata chain)) (chainJWKS chain) (rg_defaultTenantID g) with
           | None => failed entityID
           | Some client =>
               _ ← set_negCache (fun c => clearNegative c entityID);
               _ ← (if GoTime.After (expiry chain) now then set_cache (fun m => <[entityID := {| fc_client := client; fc_expiresAt := expiry chain |}]> m) else mret ());
               mret (Some client)
           end
  end.

(** The caches are looked at again under the lock of the entity; nothing has changed
    them since. *)
Definition resolveFederationClient g (t : TrustChainResolver X) (entityID : string) : M (regState X) (option Client) :=
  now ← time_now;
  s ← mget;
  match cachedClient s entityID now with
  | Some client => mret (Some client)
  | None =>
      let '(hit, neg) := negativeHit (rs_negCache s) entityID now in
      _ ← set_negCache (fun _ => neg);
      if (hit : bool) then mret None
      else
        slot ← acquireResolveSlot g;
        if negb slot then mret None
        else client ← resolveAndDeriveClient g t entityID now; _ ← releaseResolveSlot; mret client
  end.

(** [inner] is what the server's own store answers; [None] is its error. *)
Definition Get g (inner : string -> option Client) (clientID : string) : M (regState X) (option Client) :=
  match inner clientID with
  | Some c => mret (Some c)
  | None =>
      if negb (federationActive g) then mret None
      else if negb (validateFederationURL url_Parse net_ParseIP clientID) then mret None
      else match rg_resolver g with None => mret None | Some t => resolveFederationClient g t clientID end
  end.

(** ** Who is admitted *)

Let vmark := valid_mark ed25519_Verify ecdsa_Verify rsa_VerifyPKCS1v15 rsa_VerifyPSS UnmarshalHeader UnmarshalTyp UnmarshalStatement UnmarshalMark url_Parse
  net_ParseIP clock.
Let remembered_issuers := remembers ed25519_Verify ecdsa_Verify rsa_VerifyPKCS1v15 rsa_VerifyPSS UnmarshalHeader UnmarshalTyp UnmarshalStatement url_Parse clock.

(** At one time the chain of the entity was trusted, its configuration carried a valid
    mark of each type asked for, and the client is its metadata under the policies. *)
Definition admitted g (id : string) (chain : TrustChain) (c : Client) : Prop :=
  exists t x a leaf above, rg_resolver g = Some t /\
    trusted ed25519_Verify ecdsa_Verify rsa_VerifyPKCS1v15 rsa_VerifyPSS UnmarshalHeader UnmarshalTyp UnmarshalStatement url_Parse t (clock x) id chain a leaf above /\
    (forall r reqType, rg_trustMarks g = Some r -> reqType ∈ rq_requiredTypes r ->
       exists m, m ∈ es_TrustMarks (claims leaf) /\ vmark r (clock x) id reqType (tm_TrustMark m)) /\
    MetadataToClient id (default ∅ (tc_ResolvedRPMetadata chain)) (chainJWKS chain) (rg_defaultTenantID g) = Some c.

(** What the caches hold is true. *)
Definition store_ok g (s : regState X) : Prop :=
  (forall r, rg_trustMarks g = Some r -> remembered_issuers r (rs_gate s)) /\
  (forall id e, rs_cache s !! id = Some e -> exists chain, admitted g id chain (fc_client e) /\ fc_expiresAt e = expiry chain).

Lemma store_ok_same g s s' : rs_gate s' = rs_gate s -> rs_cache s' = rs_cache s -> store_ok g s -> store_ok g s'.
Proof. unfold store_ok. by intros -> ->. Qed.

Lemma failed_ok g id s o s' : store_ok g s -> failed id s = (o, s') -> store_ok g s' /\ o = None.
Proof. intros Hs [= <- <-]. split; [|done]. by apply (store_ok_same g s). Qed.

Lemma on_gate_step {A} (m : M (gateState X) A) s a s' : on_gate m s = (a, s') -> m (rs_gate s) = (a, rs_gate s') /\ rs_cache s' = rs_cache s.
Proof. unfold on_gate. destruct (m (rs_gate s)) as [a' gs]. by intros [= <- <-]. Qed.

Lemma over_net_step {A} (m : M X A) (s : gateState X) a s' : over_net m s = (a, s') -> m (gs_net s) = (a, gs_net s') /\ gs_resolved s' = gs_resolved s.
Proof. unfold over_net. destruct (m (gs_net s)) as [a' x]. by intros [= <- <-]. Qed.

Lemma marks_ok g s id entries now ok s' : store_ok g s -> on_gate (marks (rg_trustMarks g) id entries now) s = (ok, s') ->
  store_ok g s' /\ (ok = true -> forall r reqType, rg_trustMarks g = Some r -> reqType ∈ rq_requiredTypes r -> exists m, m ∈ entries /\ vmark r now id reqType (tm_TrustMark m)).
Proof.
  intros [Hg Hc] [Hm Hcache]%on_gate_step. split.
  - split; [|by rewrite Hcache]. intros r Hr. specialize (Hg r Hr).
    assert (forall r', rg_trustMarks g = Some r' -> r' = r) as Heq by congruence. eapply memory_marks in Heq. specialize (Heq _ Hg). unfold marks in Hm. by rewrite Hm in Heq.
  - intros -> r reqType Hr. rewrite Hr in Hm. apply validateMarks_true in Hm as [_ Hm]; [by apply Hm|by apply Hg].
Qed.

Lemma resolveAndDerive_ok g t id now s o s' : rg_resolver g = Some t -> store_ok g s -> resolveAndDeriveClient g t id now s = (o, s') ->
  store_ok g s' /\ (forall c, o = Some c -> exists chain x', resolve t id (gs_net (rs_gate s)) = (Ok chain, x') /\ admitted g id chain c).
Proof.
  intros Ht Hs. unfold resolveAndDeriveClient. rewrite M_bind_unfold. destruct (on_gate (over_net _) s) as [found s1] eqn:E. apply on_gate_step in E as [[Hr Hk]%over_net_step Hc].
  assert (store_ok g s1) as H1 by (split; [intros r Hg iss e; rewrite Hk; by apply Hs|rewrite Hc; apply Hs]). cbn [fst snd].
  destruct found as [chain|e]; [|by intros [? ->]%(failed_ok g)]. rewrite M_bind_unfold. cbn [time_now fst snd]. rewrite M_bind_unfold.
  apply resolve_trusted in Hr as Hch. destruct Hch as (a & leaf & above & Hch & Hbuild).
  assert (tc_LeafEntityID chain = id /\ tc_LeafTrustMarks chain = es_TrustMarks (claims leaf)) as [-> ->] by (by rewrite Hbuild).
  destruct (on_gate (marks _ _ _ _) s1) as [ok s2] eqn:Hm. apply marks_ok in Hm as [H2 Hm]; [|done]. cbn [fst snd].
  destruct ok; [|by intros [? ->]%(failed_ok g)]. cbn [negb]. destruct (MetadataToClient _ _ _ _) as [client|] eqn:Hclient; [|by intros [? ->]%(failed_ok g)].
  assert (admitted g id chain client) as Hadm by (exists t, (gs_net (rs_gate s1)), a, leaf, above; by auto).
  rewrite !M_bind_unfold. destruct (GoTime.After _ _); cbn; intros [= <- <-]; (split; [|intros c [= <-]; by exists chain, (gs_net (rs_gate s1))]); (split; [apply H2|]); cbn; intros id' e.
  - destruct (decide (id' = id)) as [->|Hne]; [rewrite lookup_insert_eq; intros [= <-]; by exists chain|rewrite lookup_insert_ne by done; apply H2].
  - apply H2.
Qed.

(** Every request leaves the caches true; what it answers beyond the server's own clients
    was admitted, and is remembered and not expired or resolved by this very request. *)
Lemma Get_ok g inner id s o s' : store_ok g s -> Get g inner id s = (o, s') ->
  store_ok g s' /\ (forall c, o = Some c -> inner id = None -> exists chain, admitted g id chain c /\
    (clock (gs_net (rs_gate s)) < expiry chain \/ exists t x', rg_resolver g = Some t /\ resolve t id (gs_net (rs_gate s)) = (Ok chain, x'))).
Proof.
  intros Hs. unfold Get. destruct (inner id) as [c|]; [by intros [= <- <-]|]. destruct (negb _); [by intros [= <- <-]|]. destruct (negb _); [by intros [= <- <-]|].
  destruct (rg_resolver g) as [t|] eqn:Ht; [|by intros [= <- <-]]. unfold resolveFederationClient. rewrite !M_bind_unfold. cbn [time_now mget fst snd].
  destruct (cachedClient s id _) as [c|] eqn:Hc.
  { intros [= <- <-]. split; [done|]. intros c' [= <-] _. unfold cachedClient in Hc. destruct (rs_cache s !! id) as [e|] eqn:He; [|done].
    destruct (fresh_entry e _) eqn:Hf; [|done]. injection Hc as <-. apply Hs in He as (chain & Ha & He). exists chain. split; [done|]. left.
    unfold fresh_entry, GoTime.Before in Hf. rewrite <- He. lia. }
  destruct (negativeHit _ _ _) as [hit neg]. rewrite M_bind_unfold. destruct (set_negCache _ s) as [u s1] eqn:E1. cbn [fst snd].
  assert (store_ok g s1 /\ rs_gate s1 = rs_gate s) as [H1 Hg1] by (injection E1 as _ <-; split; [by apply (store_ok_same g s)|done]).
  destruct hit; [by intros [= <- <-]|]. rewrite M_bind_unfold. destruct (acquireResolveSlot g s1) as [slot s2] eqn:E2. cbn [fst snd].
  assert (store_ok g s2 /\ rs_gate s2 = rs_gate s) as [H2 Hg2].
  { unfold acquireResolveSlot in E2. rewrite M_bind_unfold in E2. cbn [mget fst snd] in E2. rewrite <- Hg1.
    destruct (_ <? _); injection E2 as _ <-; (split; [by apply (store_ok_same g s1)|done]). }
  destruct slot; [|by intros [= <- <-]]. cbn [negb]. rewrite M_bind_unfold. destruct (resolveAndDeriveClient g t id _ s2) as [o1 s3] eqn:Hd. cbn [fst snd].
  apply resolveAndDerive_ok in Hd as [H3 Hd]; [|done..]. rewrite Hg2 in Hd. intros [= <- <-]. split; [by apply (store_ok_same g s3)|].
  intros c Hc' _. destruct (Hd c Hc') as (chain & x' & Hr & Ha). exists chain. split; [done|]. right. by exists t, x'.
Qed.

(** A store after any requests.  Elsewhere the clock runs, the network changes its mind,
    other requests take and give back slots, and failures are noted or forgotten. *)
Inductive reached g : regState X -> Prop :=
| empty_store s : rs_cache s = ∅ -> gs_resolved (rs_gate s) = ∅ -> reached g s
| asked inner id s o s' : reached g s -> Get g inner id s = (o, s') -> reached g s'
| elsewhere s s' : reached g s -> rs_cache s' = rs_cache s -> gs_resolved (rs_gate s') = gs_resolved (rs_gate s) -> reached g s'.

Lemma reached_ok g s : reached g s -> store_ok g s.
Proof.
  induction 1 as [s Hc Hg|inner id s o s' _ IH H|s s' _ IH Hc Hg].
  - split; [intros r _ iss e; by rewrite Hg|intros id e; by rewrite Hc].
  - by apply Get_ok in H as [? _].
  - split; [intros r Hr iss e; rewrite Hg; by apply IH|rewrite Hc; apply IH].
Qed.

Lemma MetadataToClient_Some id rp jwks tenant c : MetadataToClient id rp jwks tenant = Some c ->
  cl_ID c = id /\ cl_Secret c = "" /\ cl_Federation c = true /\ cl_TenantID c = tenant /\ cl_JWKS c = jwks /\
  cl_RedirectURIs c = metaStringSlice rp "redirect_uris" /\ cl_RedirectURIs c <> [] /\ cl_AllowedScopes c = splitScopeString (metaString rp "scope").
Proof. unfold MetadataToClient. destruct (decide _); [done|]. destruct (metaStringSlice rp "redirect_uris") eqn:E; [done|]. by intros [= <-]. Qed.

(** C36 — A client the server knows is answered as it is.  Any other is answered only when it is
    an entity of the federation: at the time its chain was resolved the chain led from a
    configured anchor to it, the marks the operator asks for were on it, valid, and the
    client is what its metadata, bounded by the policies of the chain, say: no secret,
    the keys and redirect URIs and scopes of that metadata.  What is remembered of it is
    answered only before any statement of the chain expires. *)
Theorem federation_client_sound g inner id s o s' : reached g s -> Get g inner id s = (o, s') ->
  match inner id with
  | Some c => o = Some c /\ s' = s
  | None => forall c, o = Some c -> exists chain, admitted g id chain c /\
      (clock (gs_net (rs_gate s)) < expiry chain \/ exists t x', rg_resolver g = Some t /\ resolve t id (gs_net (rs_gate s)) = (Ok chain, x')) /\
      let rp := default ∅ (tc_ResolvedRPMetadata chain) in
      cl_ID c = id /\ cl_Secret c = "" /\ cl_JWKS c = chainJWKS chain /\ cl_TenantID c = rg_defaultTenantID g /\
      cl_RedirectURIs c = metaStringSlice rp "redirect_uris" /\ cl_AllowedScopes c = splitScopeString (metaString rp "scope")
  end.
Proof.
  intros Hs%reached_ok H. destruct (inner id) as [c|] eqn:Hi; [unfold Get in H; rewrite Hi in H; by injection H as <- <-|].
  apply Get_ok in H as [_ H]; [|done]. intros c Hc. destruct (H c Hc Hi) as (chain & Ha & Ht). exists chain. split; [done|]. split; [done|].
  destruct Ha as (t & x & a & leaf & above & _ & _ & _ & Hm). apply MetadataToClient_Some in Hm as (? & ? & _ & ? & ? & ? & _ & ?). done.
Qed.

(** An identifier that failed is not tried again while the failure is remembered: the
    network is left alone. *)
Lemma failure_not_retried g inner id s exp : inner id = None -> cachedClient s id (clock (gs_net (rs_gate s))) = None ->
  0 < neg_ttl (rs_negCache s) -> neg_entries (rs_negCache s) !! id = Some exp -> clock (gs_net (rs_gate s)) < exp ->
  (Get g inner id s).1 = None /\ rs_gate (Get g inner id s).2 = rs_gate s.
Proof.
  intros Hi Hc Httl He Ht. unfold Get. rewrite Hi. destruct (negb _); [done|]. destruct (negb _); [done|]. destruct (rg_resolver g) as [t|]; [|done].
  unfold resolveFederationClient. rewrite !M_bind_unfold. cbn [time_now mget fst snd]. rewrite Hc. unfold negativeHit. rewrite He.
  rewrite (proj2 (Z.leb_gt _ _) Httl), (proj2 (Z.ltb_lt _ _) Ht : GoTime.Before _ _ = true). done.
Qed.
End store.

(** ** Concrete registrations *)

(** The network is the clock. *)
Definition timed_net (f : EntityStatementFetcher ()) : EntityStatementFetcher Z := {|
  FetchEntityConfiguration id := fun now => ((FetchEntityConfiguration f id ()).1, now);
  FetchSubordinateStatement ep iss sub := fun now => ((FetchSubordinateStatement f ep iss sub ()).1, now) |}.
(** A relying party right under the anchor, with mark 33 of a pinned issuer, good until
    second 3000; the chain is good until 4500. *)
Definition reg_claims (payload : list Z) : option EntityStatementClaims :=
  if decide (payload = [41]) then Some (fed_entity "https://rp.fed" 1 false ["https://ta.fed"] (Some fed_rp) [{| tm_TrustMarkType := "A"; tm_TrustMark := mark_jws 33 4 |}] ∅)
  else if decide (payload = [42]) then Some (fed_statement "https://ta.fed" "https://rp.fed" 1 4500 fed_policy None)
  else if decide (payload = [43]) then Some (fed_entity "https://ta.fed" 3 true [] None [] ∅)
  else None.
Definition reg_marks (payload : list Z) : option trustMarkClaims :=
  if decide (payload = [33]) then Some {| mk_Iss := "https://pinned.fed"; mk_Sub := "https://rp.fed"; mk_TrustMarkType := "A"; mk_Iat := 1000; mk_Exp := 3000 |} else None.
Definition reg_net : EntityStatementFetcher Z := timed_net {|
  FetchEntityConfiguration id := mret (if decide (id = "https://rp.fed") then Some (fed_token 41 1) else if decide (id = "https://ta.fed") then Some (fed_token 43 3) else None);
  FetchSubordinateStatement ep iss sub := mret (Some (fed_token 42 3)) |}.
Definition reg_store : RegistrationClientStore Z :=
  NewRegistrationClientStore (Some (NewTrustChainResolver (Some fed_config) reg_net [])) "t1" 0 (Some (gate_config ["A"])).
Definition reg_state (now : Z) : regState Z := {| rs_cache := ∅; rs_negCache := newNegCache 0 0; rs_running := 0;
  rs_gate := {| gs_resolved := ∅; gs_negative := newResolvedIssuerCache (Some fed_config); gs_running := 0; gs_granted := ∅; gs_net := now |} |}.
Definition at_time (now : Z) (s : regState Z) : regState Z := {| rs_cache := rs_cache s; rs_negCache := rs_negCache s; rs_running := rs_running s;
  rs_gate := {| gs_resolved := gs_resolved (rs_gate s); gs_negative := gs_negative (rs_gate s); gs_running := gs_running (rs_gate s); gs_granted := gs_granted (rs_gate s); gs_net := now |} |}.
Definition reg_get (id : string) (s : regState Z) : option Client * regState Z :=
  Get fed_verify (fun _ _ _ _ _ => false) (fun _ _ _ _ => false) (fun _ _ _ _ => false) fed_header (fun b => Some (if decide (b = [2]) then TrustMarkTyp else EntityStatementTyp))
    reg_claims reg_marks fed_url fed_ip (fun _ => None) (fun x => x) reg_store (fun id => if decide (id = "app") then Some (plain_client "app" [] []) else None) id s.

Example registered_and_derived :
  cl_Name <$> (reg_get "app" (reg_state (Unix 2000))).1 = Some "" /\
  (cl_AllowedScopes <$> (reg_get "https://rp.fed" (reg_state (Unix 2000))).1) = Some ["openid"] /\
  (reg_get "https://other.fed" (reg_state (Unix 2000))).1 = None /\ (reg_get "https://localhost" (reg_state (Unix 2000))).1 = None.
Proof. vm_compute. done. Qed.

(** The mark is asked for when the client is derived, not when it is answered from the
    cache: a relying party whose certificate has expired is served until its chain does. *)
Example expired_mark_still_admits :
  let s := (reg_get "https://rp.fed" (reg_state (Unix 2000))).2 in
  is_Some (reg_get "https://rp.fed" (at_time (Unix 3500) s)).1 /\ (reg_get "https://rp.fed" (reg_state (Unix 3500))).1 = None /\
  (reg_get "https://rp.fed" (at_time (Unix 4500) s)).1 = None.
Proof. vm_compute. split; [by eexists|done]. Qed.

Lemma federation_client_sound_witness :
  exists c, (reg_get "https://rp.fed" (reg_state (Unix 2000))).1 = Some c /\ cl_Secret c = "" /\ cl_RedirectURIs c = ["https://rp.fed/cb"] /\ cl_TenantID c = "t1".
Proof.
  destruct (reg_get "https://rp.fed" (reg_state (Unix 2000))) as [o s'] eqn:E.
  pose proof (federation_client_sound fed_verify (fun _ _ _ _ _ => false) (fun _ _ _ _ => false) (fun _ _ _ _ => false) fed_header
    (fun b => Some (if decide (b = [2]) then TrustMarkTyp else EntityStatementTyp)) reg_claims reg_marks fed_url fed_ip (fun _ => None) (fun x => x) reg_store
    (fun id => if decide (id = "app") then Some (plain_client "app" [] []) else None) "https://rp.fed" (reg_state (Unix 2000)) o s'
    ltac:(apply empty_store; reflexivity) E) as H. cbn in H.
  assert (match o with Some c => cl_RedirectURIs c = ["https://rp.fed/cb"] | None => False end) as Ho.
  { apply (f_equal fst) in E. cbn [fst] in E. rewrite <- E. vm_compute. reflexivity. }
  destruct o as [c|]; [|destruct Ho]. exists c. destruct (H c eq_refl) as (chain & _ & _ & _ & Hs & _ & Ht & _). split; [reflexivity|]. split; [exact Hs|split; [exact Ho|exact Ht]].
Defined.
