(* ===== verification/RedirectUri.v ===== *)
(** * RedirectUri: which redirect URIs a client may be answered at
    ([shared/core/redirect_patterns.go], [Client.IsRedirectURIValid] of
    [shared/core/jwks.go], [IsSecureRedirectURI] of
    [protocols/oauth/oauthwire/auth_code_handler.go]).

    A pattern stands for the URIs that differ from it in one interior segment of the
    path.  [url.Parse], [url.PathUnescape] and [strings.ToLower] are arguments. *)
From S2P Require Import Prelude Core Resources.
Local Open Scope Z_scope.

(** What the code reads of a [url.URL]: fields, and the results of its methods. *)
Record URL := {
  u_Scheme : string;
  u_User : bool;
  u_Host : string;
  u_Hostname : string;
  u_Port : string;
  u_EscapedPath : string;
  u_ForceQuery : bool;
  u_RawQuery : string;
  u_Fragment : string;
}.

Inductive segment := Wildcard | Literal (s : string).
#[export] Instance segment_eq_dec : EqDecision segment.
Proof. solve_decision. Defined.

Record redirectCompiled := { rc_scheme : string; rc_host : string; rc_port : string; rc_segments : list segment }.

Definition literalChars : list ascii :=
  Str.to_list "abcdefghijklmnopqrstuvwxyzABCDEFGHIJKLMNOPQRSTUVWXYZ0123456789-._~:@!$&'()*+,;=".

(** [strings.ContainsAny], for ASCII characters. *)
Definition ContainsAny (s : string) (chars : list ascii) : bool := existsb (contains chars) (Str.to_list s).

Definition isDigits (s : string) : bool :=
  negb (bool_decide (s = "")) && forallb (contains (Str.to_list "0123456789")) (Str.to_list s).

Definition normalizePort (scheme port : string) : string :=
  if bool_decide (port = "443") && bool_decide (scheme = "https") then "" else port.

Definition hasURIQueryOrFragment (u : URL) (raw : string) : bool :=
  u_ForceQuery u || negb (bool_decide (u_Fragment u = "")) || negb (bool_decide (u_RawQuery u = "")) || ContainsAny raw ["#"%char].

(** The segments of an absolute path; an empty one, or none, is an error. *)
Definition splitPath (path : string) : option (list string) :=
  match split_slash (Str.to_list path) [] with
  | [] :: raw => if bool_decide (raw = []) || existsb (fun seg => bool_decide (seg = [])) raw then None else Some (Str.of_list <$> raw)
  | _ => None
  end.

Definition collapse_step (stack : list string) (seg : string) : list string :=
  if decide (seg = ".") then stack
  else if decide (seg = "..") then removelast stack
  else stack ++ [seg].
Definition collapseDots (segs : list string) : list string := foldl collapse_step [] segs.

Definition validateLiteralSegment (seg : string) : bool := forallb (contains literalChars) (Str.to_list seg).

(** The loop over the parts: the position, the length and the wildcards seen. *)
Fixpoint validate_parts (i n : nat) (wildcards : nat) (parts : list string) : bool :=
  match parts with
  | [] => bool_decide (wildcards = 1%nat)
  | raw :: parts =>
      if bool_decide (raw = ".") || bool_decide (raw = "..") then false
      else if decide (raw = "*") then
        if bool_decide (i = 0%nat) || bool_decide (i = (n - 1)%nat) then false
        else if (1 <? S wildcards)%nat then false
        else validate_parts (S i) n (S wildcards) parts
      else if ContainsAny raw ["*"%char] then false
      else validateLiteralSegment raw && validate_parts (S i) n wildcards parts
  end.
Definition validatePatternSegments (parts : list string) : bool := validate_parts 0 (length parts) 0 parts.

Definition pattern_segment (raw : string) : segment := if decide (raw = "*") then Wildcard else Literal raw.

Definition compilePatternSegments (path : string) : option (list segment) :=
  parts ← splitPath path;
  if validatePatternSegments parts then Some (pattern_segment <$> parts) else None.

Fixpoint segments_match (ps cs : list segment) : bool :=
  match ps, cs with
  | [], [] => true
  | Wildcard :: ps, _ :: cs => segments_match ps cs
  | Literal p :: ps, c :: cs => bool_decide (Literal p = c) && segments_match ps cs
  | _, _ => false
  end.

Definition separators : list ascii := Str.to_list "/?#\" ++ ["000"%char].

Section urls.
Context (url_Parse : string -> option URL) (PathUnescape : string -> option string) (ToLower : string -> string).

(** The checks on host and port both sides share; a port must be numeric. *)
Definition compiled_at (scheme host port : string) (segs : list segment) : redirectCompiled :=
  {| rc_scheme := scheme; rc_host := host; rc_port := normalizePort scheme port; rc_segments := segs |}.

Definition compileRedirectPattern (pattern : string) : option redirectCompiled :=
  if bool_decide (pattern = "") || ContainsAny pattern ["%"%char] then None
  else
    u ← url_Parse pattern;
    if bool_decide (u_Scheme u = "") || negb (bool_decide (ToLower (u_Scheme u) = "https")) || u_User u || hasURIQueryOrFragment u pattern then None
    else
      let host := u_Hostname u in
      if bool_decide (host = "") || ContainsAny host ["*"%char] || bool_decide (last (Str.to_list (u_Host u)) = Some colon) then None
      else if negb (bool_decide (u_Port u = "")) && negb (isDigits (u_Port u)) then None
      else segs ← compilePatternSegments (u_EscapedPath u); Some (compiled_at "https" (ToLower host) (u_Port u) segs).

Definition decode_segment (raw : string) : option string :=
  d ← PathUnescape raw; if ContainsAny d separators then None else Some d.

Definition compileCandidateSegments (path : string) : option (list segment) :=
  parts ← splitPath path;
  decoded ← mapM decode_segment parts;
  match collapseDots decoded with [] => None | ds => Some (Literal <$> ds) end.

Definition compileRedirectCandidate (raw : string) : option redirectCompiled :=
  u ← url_Parse raw;
  if bool_decide (u_Scheme u = "") || u_User u || hasURIQueryOrFragment u raw then None
  else
    let scheme := ToLower (u_Scheme u) in
    let host := ToLower (u_Hostname u) in
    if bool_decide (host = "") || ContainsAny host ["*"%char] then None
    else if negb (bool_decide (u_Port u = "")) && negb (isDigits (u_Port u)) then None
    else segs ← compileCandidateSegments (u_EscapedPath u); Some (compiled_at scheme host (u_Port u) segs).

Definition ValidateRedirectURIPattern (pattern : string) : bool := bool_decide (is_Some (compileRedirectPattern pattern)).

Definition MatchRedirectURIPattern (pattern uri : string) : bool :=
  match compileRedirectPattern pattern, compileRedirectCandidate uri with
  | Some p, Some c =>
      bool_decide (rc_scheme p = rc_scheme c) && bool_decide (rc_host p = rc_host c) && bool_decide (rc_port p = rc_port c) &&
      segments_match (rc_segments p) (rc_segments c)
  | _, _ => false
  end.

Definition IsRedirectURIValid (c : Client) (uri : string) : bool :=
  contains (cl_RedirectURIs c) uri || existsb (fun p => MatchRedirectURIPattern p uri) (cl_RedirectURIPatterns c).

Definition IsSecureRedirectURI (uri : string) : bool :=
  match url_Parse uri with
  | None => false
  | Some u =>
      if decide (u_Scheme u = "https") then true
      else bool_decide (u_Scheme u = "http") && contains ["localhost"; "127.0.0.1"; "::1"] (u_Hostname u)
  end.

(** ** What a pattern lets through *)

Lemma segments_match_spec ps cs :
  segments_match ps cs = true <-> Forall2 (fun p c => p = Wildcard \/ p = c) ps cs.
Proof.
  revert cs. induction ps as [|p ps IH]; intros [|c cs]; cbn.
  - by split; [constructor|].
  - split; [done|]. by intros ?%Forall2_nil_inv_l.
  - destruct p; (split; [done|]; by intros ?%Forall2_nil_inv_r).
  - rewrite Forall2_cons, <- IH. destruct p as [|s]; [tauto|]. rewrite andb_true_iff, bool_decide_eq_true.
    split; intros [Hc ?]; (split; [|done]); [by right|by destruct Hc].
Qed.

(** Past the wildcard only literals follow. *)
Lemma validate_parts_literals i n parts :
  validate_parts i n 1 parts = true -> Forall (fun raw => raw <> "*" /\ raw <> "." /\ raw <> "..") parts.
Proof.
  revert i. induction parts as [|raw parts IH]; intros i; cbn [validate_parts]; [constructor|].
  destruct (_ || _) eqn:Hd; [done|]. bool_simpl. destruct (decide (raw = "*")) as [->|].
  - destruct (_ || _); [done|]. cbn. done.
  - destruct (ContainsAny raw _); [done|]. intros Hp. bool_simpl. constructor; [done|]. by eapply IH.
Qed.

(** A pattern has one wildcard, neither first nor last. *)
Lemma validate_parts_shape i n parts :
  (i + length parts = n)%nat -> validate_parts i n 0 parts = true ->
  exists pre post, parts = pre ++ "*" :: post /\ (i + length pre)%nat <> 0%nat /\ post <> [] /\
    Forall (fun raw => raw <> "*") pre /\ Forall (fun raw => raw <> "*" /\ raw <> "." /\ raw <> "..") post.
Proof.
  revert i. induction parts as [|raw parts IH]; intros i Hn; cbn [validate_parts]; [done|].
  destruct (_ || _) eqn:Hd; [done|]. destruct (decide (raw = "*")) as [->|Hne].
  - destruct (bool_decide (i = 0%nat) || _) eqn:Hi; [done|]. cbn [Nat.ltb Nat.leb]. intros Hp. bool_simpl.
    exists [], parts. split; [done|]. split; [cbn; lia|]. split; [intros ->; cbn in Hn; lia|]. split; [constructor|].
    by eapply validate_parts_literals.
  - destruct (ContainsAny raw _); [done|]. intros Hp. bool_simpl.
    destruct (IH (S i) ltac:(cbn in Hn; lia) ltac:(done)) as (pre & post & -> & Hl & Hpost & Hpre & Hlit).
    exists (raw :: pre), post. split; [done|]. split; [cbn; lia|]. split; [done|]. split; [by constructor|done].
Qed.

Lemma pattern_literals l : Forall (fun raw => raw <> "*") l -> pattern_segment <$> l = Literal <$> l.
Proof.
  intros Hl. apply list_fmap_ext. intros i raw Hi. rewrite Forall_lookup in Hl. specialize (Hl i raw Hi).
  unfold pattern_segment. by rewrite decide_False.
Qed.

Lemma match_literals l cs : Forall2 (fun p c => p = Wildcard \/ p = c) (Literal <$> l) cs -> cs = Literal <$> l.
Proof. revert cs. induction l as [|s l IH]; intros cs; cbn; intros H; inversion H as [|? c ? ? Hd Hr]; subst; [done|]. apply IH in Hr as ->. by destruct Hd as [|<-]. Qed.

Lemma collapse_no_dots segs : Forall (fun s => s <> "." /\ s <> "..") (collapseDots segs).
Proof.
  unfold collapseDots. enough (forall stack, Forall (fun s => s <> "." /\ s <> "..") stack -> Forall (fun s => s <> "." /\ s <> "..") (foldl collapse_step stack segs)) as Hg
    by by apply Hg.
  induction segs as [|seg segs IH]; intros stack Hs; cbn [foldl]; [done|].
  apply IH. unfold collapse_step. destruct (decide (seg = ".")); [done|]. destruct (decide (seg = "..")).
  - destruct stack as [|x stack _] using rev_ind; [done|]. rewrite removelast_last. by apply Forall_app in Hs as [? _].
  - apply Forall_app. split; [done|]. by repeat constructor.
Qed.

Lemma collapse_elem segs s : s ∈ collapseDots segs -> s ∈ segs.
Proof.
  unfold collapseDots. intros Hs. enough (forall stack, s ∈ foldl collapse_step stack segs -> s ∈ stack \/ s ∈ segs) as Hg.
  { apply Hg in Hs as [?%elem_of_nil|]; done. }
  clear Hs. induction segs as [|seg segs IH]; intros stack; cbn [foldl]; [by left|]. intros [H|H]%IH; [|right; set_solver].
  revert H. unfold collapse_step. destruct (decide (seg = ".")); [by left|]. destruct (decide (seg = "..")).
  - destruct stack as [|x stack _] using rev_ind; [by left|]. rewrite removelast_last. set_solver.
  - set_solver.
Qed.

(** What the pattern of a match looks like, and the URI beside it. *)
Record narrow (p c : redirectCompiled) : Prop := {
  nw_scheme : rc_scheme c = "https";
  nw_host : rc_host c = rc_host p;
  nw_port : rc_port c = rc_port p;
  nw_segments : exists pre w post, pre <> [] /\ post <> [] /\ w <> "." /\ w <> ".." /\ ContainsAny w separators = false /\
    rc_segments p = (Literal <$> pre) ++ Wildcard :: (Literal <$> post) /\ rc_segments c = Literal <$> (pre ++ w :: post);
}.

Lemma candidate_segments path segs :
  compileCandidateSegments path = Some segs ->
  exists ds, segs = Literal <$> ds /\ Forall (fun d => d <> "." /\ d <> ".." /\ ContainsAny d separators = false) ds.
Proof.
  unfold compileCandidateSegments. intros (parts & _ & (decoded & Hd & H)%bind_Some)%bind_Some.
  exists (collapseDots decoded). split; [by destruct (collapseDots decoded); [|injection H as <-]|].
  apply Forall_forall. intros d Hin. pose proof (collapse_no_dots decoded) as Hdots. rewrite Forall_forall in Hdots.
  destruct (Hdots d Hin). split; [done|]. split; [done|]. apply collapse_elem in Hin.
  apply mapM_Some_1, list.Forall2_flip in Hd. apply list_elem_of_lookup in Hin as [i Hi].
  destruct (Forall2_lookup_l _ _ _ _ _ Hd Hi) as (raw & _ & (x & _ & Hx)%bind_Some).
  by destruct (ContainsAny x separators) eqn:E; [|injection Hx as <-].
Qed.

(** C31 — A URI a pattern matches is an https URI at the host and port of the pattern, and its
    path is that of the pattern but for one interior segment, which is a plain name. *)
Theorem redirect_pattern_narrow pattern uri :
  MatchRedirectURIPattern pattern uri = true ->
  exists p c, compileRedirectPattern pattern = Some p /\ compileRedirectCandidate uri = Some c /\ narrow p c.
Proof.
  unfold MatchRedirectURIPattern. destruct (compileRedirectPattern pattern) as [p|] eqn:Hp; [|done].
  destruct (compileRedirectCandidate uri) as [c|] eqn:Hc; [|done]. intros H. bool_simpl. apply segments_match_spec in H0.
  exists p, c. split; [done|]. split; [done|].
  assert (rc_scheme p = "https" /\ exists parts, rc_segments p = pattern_segment <$> parts /\ validatePatternSegments parts = true)
    as (Hs & parts & Hseg & Hv).
  { unfold compileRedirectPattern in Hp. destruct (_ || _); [done|]. apply bind_Some in Hp as (u & _ & Hp). destruct (_ || _ || _ || _); [done|].
    destruct (_ || _ || _); [done|]. destruct (_ && _); [done|]. apply bind_Some in Hp as (segs & Hsegs & [= <-]). split; [done|].
    unfold compilePatternSegments in Hsegs. apply bind_Some in Hsegs as (parts & _ & Hv). exists parts.
    destruct (validatePatternSegments parts); [|done]. by injection Hv as <-. }
  assert (exists ds, rc_segments c = Literal <$> ds /\ Forall (fun d => d <> "." /\ d <> ".." /\ ContainsAny d separators = false) ds) as (ds & Hds & Hplain).
  { unfold compileRedirectCandidate in Hc. apply bind_Some in Hc as (u & _ & Hc). destruct (_ || _ || _); [done|]. destruct (_ || _); [done|].
    destruct (_ && _); [done|]. apply bind_Some in Hc as (segs & Hsegs & [= <-]). by eapply candidate_segments. }
  split; [congruence|done|done|].
  destruct (validate_parts_shape 0 (length parts) parts eq_refl Hv) as (pre & post & -> & Hpre & Hpost & Hlit & Hlit').
  assert (Forall (fun raw => raw <> "*") post) as Hlit'' by (eapply Forall_impl; [exact Hlit'|]; naive_solver).
  rewrite Hseg, fmap_app, fmap_cons, !pattern_literals in H0 by done.
  replace (pattern_segment "*") with Wildcard in H0 by done. rewrite Hds in H0.
  apply Forall2_app_inv_l in H0 as (l1 & l2 & Hl1 & Hl2 & Hl). inversion Hl2 as [|? w ? l3 _ Hl3]; subst.
  apply match_literals in Hl1 as ->. apply match_literals in Hl3 as ->.
  assert (exists w', w = Literal w' /\ w' ∈ ds) as (w' & -> & Hw).
  { assert (w ∈ Literal <$> ds) as Hw by (rewrite Hl; set_solver). apply list_elem_of_fmap in Hw as (w' & -> & ?). by exists w'. }
  rewrite Forall_forall in Hplain. destruct (Hplain w' Hw) as (? & ? & ?).
  exists pre, w', post. split; [by intros ->|]. split_and!; try done.
  - by rewrite Hseg, fmap_app, fmap_cons, !pattern_literals.
  - by rewrite Hds, Hl, fmap_app, fmap_cons.
Qed.
End urls.

(** ** A preview deployment *)

(** [net/url] on the two URLs of the example. *)
Definition preview_parse (raw : string) : option URL :=
  path ← (if decide (raw = "https://app.example/preview/*/cb") then Some "/preview/*/cb"
          else if decide (raw = "https://app.example/preview/x/../pr-7/cb") then Some "/preview/x/../pr-7/cb" else None);
  Some {| u_Scheme := "https"; u_User := false; u_Host := "app.example"; u_Hostname := "app.example"; u_Port := ""; u_EscapedPath := path;
          u_ForceQuery := false; u_RawQuery := ""; u_Fragment := "" |}.

Lemma redirect_pattern_narrow_witness :
  exists p c, compileRedirectPattern preview_parse (fun s => s) "https://app.example/preview/*/cb" = Some p /\
    compileRedirectCandidate preview_parse Some (fun s => s) "https://app.example/preview/x/../pr-7/cb" = Some c /\ narrow p c.
Proof. apply (redirect_pattern_narrow preview_parse Some (fun s => s)). vm_compute. reflexivity. Defined.
