(* ===== verification/LoginRequest.v ===== *)
(** * LoginRequest: the authorization request of a login
    ([internal/auth/login/request.go], the pushed and fetched requests of
    [interfaces/sso/server_login_resolve.go], the signed request objects of
    [interfaces/sso/server_jar.go], the parameter checks of
    [interfaces/sso/server_login_gates.go], [protocols/oauth/paramlimits.go],
    [oauthvalidate/rar.go] and [shared/core/claims_param.go]).

    JSON, its decoder and the primitives of the signatures are arguments. *)
From S2P Require Import Prelude Core Scopes RefreshStore CodeStores JTIReplay ExchangeDeps Jose MetadataPolicy Users UserInfo JwtIssuer Jwks Fapi.
Local Open Scope Z_scope.

(** ** Data *)

(** [login.Request]; raw JSON is a string, empty when absent. *)
Record Request := {
  lr_ResumeSession : bool;
  lr_Provider : string;
  lr_Credential : option (gmap string string);
  lr_ClientID : string;
  lr_Scope : list string;
  lr_State : string;
  lr_ResponseType : string;
  lr_RedirectURI : string;
  lr_Nonce : string;
  lr_CodeChallenge : string;
  lr_CodeChallengeMethod : string;
  lr_Resource : list string;
  lr_RequestURI : string;
  lr_AuthorizationDetails : string;
  lr_Request : string;
  lr_Prompt : string;
  lr_IDTokenHint : string;
  lr_MaxAge : option Z;
  lr_LoginHint : string;
  lr_ResponseMode : string;
  lr_ACRValues : string;
  lr_UILocales : string;
  lr_PresentationLocale : string;
  lr_PresentationThemeMode : string;
  lr_Claims : string;
  lr_ConsentChallengeID : string;
  lr_ConsentDecision : string;
  lr_LoginTransactionID : string;
  lr_DeviceToken : string;
  lr_PolicyScopeRestriction : option (list string);
}.

(** What a login reads of a registered client beside [Core.Client]. *)
Record LoginClient := {
  lc_client :> Client;
  lc_RequirePAR : bool;
  lc_RequireSignedRequestObject : bool;
  lc_AllowPasswordlessOnly : bool;
  lc_AllowedPKCEMethods : list string;
  lc_AllowedRequestURIs : list string;
  lc_SkipConsent : bool;
  lc_ConsentRefreshInterval : Z;
}.

(** The parameters a stored or signed request may override. *)
Record Override := {
  ov_ClientID : string;
  ov_ResponseType : string;
  ov_RedirectURI : string;
  ov_Scope : list string;
  ov_State : string;
  ov_Nonce : string;
  ov_CodeChallenge : string;
  ov_CodeChallengeMethod : string;
  ov_Resource : list string;
  ov_AuthorizationDetails : string;
  ov_LoginHint : string;
  ov_ResponseMode : string;
  ov_ACRValues : string;
  ov_UILocales : string;
  ov_Claims : string;
}.

Definition over (new old : string) : string := if decide (new = "") then old else new.
Definition over_list (new old : list string) : list string := match new with [] => old | _ => new end.

(** What is not empty wins. *)
Definition merge (o : Override) (r : Request) : Request := {|
  lr_ResumeSession := lr_ResumeSession r; lr_Provider := lr_Provider r; lr_Credential := lr_Credential r;
  lr_ClientID := over (ov_ClientID o) (lr_ClientID r);
  lr_Scope := over_list (ov_Scope o) (lr_Scope r);
  lr_State := over (ov_State o) (lr_State r);
  lr_ResponseType := over (ov_ResponseType o) (lr_ResponseType r);
  lr_RedirectURI := over (ov_RedirectURI o) (lr_RedirectURI r);
  lr_Nonce := over (ov_Nonce o) (lr_Nonce r);
  lr_CodeChallenge := over (ov_CodeChallenge o) (lr_CodeChallenge r);
  lr_CodeChallengeMethod := if decide (ov_CodeChallenge o = "") then lr_CodeChallengeMethod r else ov_CodeChallengeMethod o;
  lr_Resource := over_list (ov_Resource o) (lr_Resource r);
  lr_RequestURI := lr_RequestURI r;
  lr_AuthorizationDetails := over (ov_AuthorizationDetails o) (lr_AuthorizationDetails r);
  lr_Request := lr_Request r; lr_Prompt := lr_Prompt r; lr_IDTokenHint := lr_IDTokenHint r; lr_MaxAge := lr_MaxAge r;
  lr_LoginHint := over (ov_LoginHint o) (lr_LoginHint r);
  lr_ResponseMode := over (ov_ResponseMode o) (lr_ResponseMode r);
  lr_ACRValues := over (ov_ACRValues o) (lr_ACRValues r);
  lr_UILocales := over (ov_UILocales o) (lr_UILocales r);
  lr_PresentationLocale := lr_PresentationLocale r; lr_PresentationThemeMode := lr_PresentationThemeMode r;
  lr_Claims := over (ov_Claims o) (lr_Claims r);
  lr_ConsentChallengeID := lr_ConsentChallengeID r; lr_ConsentDecision := lr_ConsentDecision r;
  lr_LoginTransactionID := lr_LoginTransactionID r; lr_DeviceToken := lr_DeviceToken r;
  lr_PolicyScopeRestriction := lr_PolicyScopeRestriction r |}.

Definition no_override : Override := {|
  ov_ClientID := ""; ov_ResponseType := ""; ov_RedirectURI := ""; ov_Scope := []; ov_State := ""; ov_Nonce := ""; ov_CodeChallenge := "";
  ov_CodeChallengeMethod := ""; ov_Resource := []; ov_AuthorizationDetails := ""; ov_LoginHint := ""; ov_ResponseMode := "";
  ov_ACRValues := ""; ov_UILocales := ""; ov_Claims := "" |}.

(** Single fields replaced. *)
Definition with_Request (raw : string) (r : Request) : Request := {|
  lr_ResumeSession := lr_ResumeSession r; lr_Provider := lr_Provider r; lr_Credential := lr_Credential r; lr_ClientID := lr_ClientID r;
  lr_Scope := lr_Scope r; lr_State := lr_State r; lr_ResponseType := lr_ResponseType r; lr_RedirectURI := lr_RedirectURI r;
  lr_Nonce := lr_Nonce r; lr_CodeChallenge := lr_CodeChallenge r; lr_CodeChallengeMethod := lr_CodeChallengeMethod r;
  lr_Resource := lr_Resource r; lr_RequestURI := lr_RequestURI r; lr_AuthorizationDetails := lr_AuthorizationDetails r;
  lr_Request := raw; lr_Prompt := lr_Prompt r; lr_IDTokenHint := lr_IDTokenHint r; lr_MaxAge := lr_MaxAge r;
  lr_LoginHint := lr_LoginHint r; lr_ResponseMode := lr_ResponseMode r; lr_ACRValues := lr_ACRValues r; lr_UILocales := lr_UILocales r;
  lr_PresentationLocale := lr_PresentationLocale r; lr_PresentationThemeMode := lr_PresentationThemeMode r;
  lr_Claims := lr_Claims r; lr_ConsentChallengeID := lr_ConsentChallengeID r; lr_ConsentDecision := lr_ConsentDecision r;
  lr_LoginTransactionID := lr_LoginTransactionID r; lr_DeviceToken := lr_DeviceToken r;
  lr_PolicyScopeRestriction := lr_PolicyScopeRestriction r |}.

(** ** Pushed requests (RFC 9126) *)

Definition of_PAR (p : PARRequest) : Override := {|
  ov_ClientID := par_ClientID p; ov_ResponseType := par_ResponseType p; ov_RedirectURI := par_RedirectURI p; ov_Scope := par_Scope p;
  ov_State := par_State p; ov_Nonce := par_Nonce p; ov_CodeChallenge := par_CodeChallenge p;
  ov_CodeChallengeMethod := par_CodeChallengeMethod p; ov_Resource := par_Resource p; ov_AuthorizationDetails := par_AuthorizationDetails p;
  ov_LoginHint := par_LoginHint p; ov_ResponseMode := par_ResponseMode p; ov_ACRValues := par_ACRValues p; ov_UILocales := par_UILocales p;
  ov_Claims := par_Claims p |}.

Definition mergeStoredPARRequest (stored : PARRequest) (req : Request) : Request := merge (of_PAR stored) req.

Definition ErrInvalidRequestURI : string := "invalid_request_uri".
Definition ErrPARNotConfigured : string := "par_not_configured".
Definition ErrInvalidRequestObject : string := "invalid_request_object".
Definition ErrInvalidAuthorizationDetails : string := "invalid_authorization_details".

(** A refusal is a status and a code. *)
Definition refusal : Type := Z * string.

Definition consumePARRequest (now : Z) (req : Request) (par : option MemoryPARStore) : result refusal Request * option MemoryPARStore :=
  match par with
  | None => (Err (501, ErrPARNotConfigured), None)
  | Some m =>
      match ConsumePAR now (lr_RequestURI req) m with
      | (Err _, m) => (Err (400, ErrInvalidRequestURI), Some m)
      | (Ok stored, m) =>
          (if negb (bool_decide (lr_ClientID req = "")) && negb (bool_decide (par_ClientID stored = "")) &&
              negb (bool_decide (lr_ClientID req = par_ClientID stored))
           then Err (400, ErrInvalidRequestURI)
           else Ok (mergeStoredPARRequest stored req), Some m)
      end
  end.

(** ** Request objects by reference (RFC 9101) *)

Definition IsJARFetchableURI (uri : string) : bool := HasPrefix uri "https://".
Definition IsRequestURIAllowed (uri : string) (allowed : list string) : bool :=
  match allowed with [] => false | _ => contains allowed uri end.

(** [fetch] is the wired fetcher. *)
Definition fetchJARRequestURI {X} (fetch : option (string -> M X (option string))) (clients : gmap string LoginClient) (req : Request)
    : M X (result refusal Request) := fun x =>
  match fetch with
  | None => (Err (400, ErrInvalidRequestURI), x)
  | Some fetch =>
      if decide (lr_ClientID req = "") then (Err (400, ErrInvalidRequestURI), x)
      else match clients !! lr_ClientID req with
           | None => (Err (400, ErrInvalidRequestURI), x)
           | Some c =>
               if negb (IsRequestURIAllowed (lr_RequestURI req) (lc_AllowedRequestURIs c)) then (Err (400, ErrInvalidRequestURI), x)
               else match fetch (lr_RequestURI req) x with
                    | (None, x) => (Err (400, ErrInvalidRequestURI), x)
                    | (Some body, x) => (Ok (with_Request body req), x)
                    end
           end
  end.

Definition loginUsedPAR (req : Request) : bool := HasPrefix (lr_RequestURI req) PARURIPrefix.

(** ** Signed request objects *)

(** [jarPayload]: the parameters and the control claims. *)
Record jarPayload := {
  jp_params : Override;
  jp_Scope : string;
  jp_Aud : list string;
  jp_Iss : string;
  jp_Exp : Z;
  jp_Nbf : Z;
  jp_JTI : string;
}.
Definition jp_ClientID (p : jarPayload) : string := ov_ClientID (jp_params p).

(** The client of the request object is checked, not merged; its scope is one string. *)
Definition of_JAR (p : jarPayload) : Override := let o := jp_params p in {|
  ov_ClientID := ""; ov_ResponseType := ov_ResponseType o; ov_RedirectURI := ov_RedirectURI o;
  ov_Scope := if decide (jp_Scope p = "") then [] else Str.split (jp_Scope p);
  ov_State := ov_State o; ov_Nonce := ov_Nonce o; ov_CodeChallenge := ov_CodeChallenge o; ov_CodeChallengeMethod := ov_CodeChallengeMethod o;
  ov_Resource := ov_Resource o; ov_AuthorizationDetails := ov_AuthorizationDetails o; ov_LoginHint := ov_LoginHint o;
  ov_ResponseMode := ov_ResponseMode o; ov_ACRValues := ov_ACRValues o; ov_UILocales := ov_UILocales o; ov_Claims := ov_Claims o |}.

Definition mergeVerifiedJAR (p : jarPayload) (req : Request) : Request := merge (of_JAR p) req.

Definition JARTypHeader : string := "oauth-authz-req+jwt".

Definition validateJARClaims (now : Z) (p : jarPayload) (clientID asIssuer : string) : bool :=
  if negb (jp_Exp p =? 0) && (jp_Exp p <=? unix now) then false
  else if negb (jp_Nbf p =? 0) && (unix now <? jp_Nbf p) then false
  else if negb (bool_decide (jp_Aud p = [])) && negb (bool_decide (asIssuer = "")) && negb (contains (jp_Aud p) asIssuer) then false
  else if negb (bool_decide (jp_Iss p = "")) && negb (bool_decide (jp_Iss p = clientID)) then false
  else if negb (bool_decide (jp_ClientID p = "")) && negb (bool_decide (jp_ClientID p = clientID)) then false
  else true.

(** Whether the object may be used. *)
Definition enforceJARReplay (now : Z) (p : jarPayload) (failClosed : bool) (replay : option MemoryJTIReplayStore)
    : bool * option MemoryJTIReplayStore :=
  match replay with
  | None => (true, None)
  | Some m =>
      if decide (jp_JTI p = "") then (true, Some m)
      else
        let expiresAt := Unix (jp_Exp p) in
        let expiresAt := if (jp_Exp p =? 0) || (0 <? GoTime.Since now expiresAt) then GoTime.Add now DefaultJTIReplayWindow else expiresAt in
        let '(first, m) := MarkSeen now (jp_JTI p) expiresAt m in
        (match first with Err _ => negb failClosed | Ok first => first end, Some m)
  end.

(** A compact JWE has five segments. *)
Definition isJWECompact (s : string) : bool :=
  bool_decide (length (filter (fun c => c = dot) (Str.to_list s)) = 4%nat).

Definition JWEUnwrap (decrypt : option (string -> option string)) (raw : string) : option string :=
  if isJWECompact raw then decrypt ≫= (fun dec => dec raw) else Some raw.

Section jar.
Context (ed25519_Verify : list Z -> list Z -> list Z -> bool).
Context (ecdsa_Verify : Curve -> Z * Z -> list Z -> Z -> Z -> bool).
Context (rsa_VerifyPKCS1v15 rsa_VerifyPSS : Z * Z -> option Hash -> list Z -> list Z -> bool).
Context (UnmarshalHeader : list Z -> option JWSHeader).
Context (UnmarshalTyp : list Z -> option string) (UnmarshalJAR : list Z -> option jarPayload).
Context (decrypt : option (string -> option string)) (issuer : string) (replayFailClosed : bool).
Notation VerifyCompactJWS := (VerifyCompactJWS ed25519_Verify ecdsa_Verify rsa_VerifyPKCS1v15 rsa_VerifyPSS UnmarshalHeader).

Definition parseJARTypHeader (segment : list ascii) : bool :=
  match RawURLDecode segment ≫= UnmarshalTyp with Some typ => contains [""; "JWT"; JARTypHeader] typ | None => false end.

Definition verifyJAR (now : Z) (rawJWT : string) (client : LoginClient) (replay : option MemoryJTIReplayStore)
    : option jarPayload * option MemoryJTIReplayStore :=
  if decide (cl_JWKS client = []) then (None, replay)
  else match jws_parts rawJWT with
       | [h; _; _] =>
           if negb (parseJARTypHeader h) then (None, replay)
           else match VerifyCompactJWS rawJWT (cl_JWKS client) AsymmetricJWSAlgs with
                | Err _ => (None, replay)
                | Ok praw =>
                    match UnmarshalJAR praw with
                    | None => (None, replay)
                    | Some p =>
                        if negb (validateJARClaims now p (cl_ID client) issuer) then (None, replay)
                        else let '(fresh, replay) := enforceJARReplay now p replayFailClosed replay in
                             (if (fresh : bool) then Some p else None, replay)
                    end
                end
       | _ => (None, replay)
       end.

Definition applyRequestObject (now : Z) (req : Request) (client : LoginClient) (replay : option MemoryJTIReplayStore)
    : result refusal Request * option MemoryJTIReplayStore :=
  if decide (lr_Request req = "") then (Ok req, replay)
  else match JWEUnwrap decrypt (lr_Request req) with
       | None => (Err (400, ErrInvalidRequestObject), replay)
       | Some raw =>
           match verifyJAR now raw client replay with
           | (None, replay) => (Err (400, ErrInvalidRequestObject), replay)
           | (Some p, replay) => (Ok (mergeVerifiedJAR p req), replay)
           end
       end.
End jar.

(** ** Parameters *)

Definition MaxStateLen : Z := 2048.
Definition MaxRedirectURILen : Z := 2048.
Definition MaxScopeLen : Z := 4096.
Definition MaxNonceLen : Z := 256.
Definition MaxResourceLen : Z := 2048.
Definition MaxCustomParamLen : Z := 4096.

Definition param_limit (key : string) : Z :=
  if decide (key = "state") then MaxStateLen
  else if decide (key = "redirect_uri") then MaxRedirectURILen
  else if decide (key = "scope") then MaxScopeLen
  else if decide (key = "nonce") then MaxNonceLen
  else if decide (key = "resource") then MaxResourceLen
  else MaxCustomParamLen.

(** Whether the length is accepted. *)
Definition ValidateAuthRequestParamLength (key value : string) : bool :=
  bool_decide (value = "") || (Str.len value <=? param_limit key).

Definition CheckAuthParamLengths (state redirectURI scope nonce : string) (resources : list string) : bool :=
  forallb (fun kv => ValidateAuthRequestParamLength kv.1 kv.2)
    [("state", state); ("redirect_uri", redirectURI); ("scope", scope); ("nonce", nonce)] &&
  forallb (ValidateAuthRequestParamLength "resource") resources.

(** [RARLimits]: zero is no limit. *)
Record RARLimits := { rl_MaxBytes : Z; rl_MaxElements : Z; rl_MaxDepth : Z }.
Definition over_limit (limit n : Z) : bool := (0 <? limit) && (limit <? n).

(** What [json.Decoder.Token] returns. *)
Inductive json_token := TokOpen | TokClose | TokScalar.

Definition advanceRARToken (tok : json_token) (st : Z * Z) : Z * Z :=
  let '(depth, elements) := st in
  let counted := if depth =? 1 then elements + 1 else elements in
  match tok with
  | TokScalar => (depth, counted)
  | TokOpen => (depth + 1, counted)
  | TokClose => (depth - 1, elements)
  end.

Fixpoint walk_tokens (limits : RARLimits) (st : Z * Z) (toks : list json_token) : bool :=
  match toks with
  | [] => true
  | tok :: toks =>
      let st := advanceRARToken tok st in
      if over_limit (rl_MaxDepth limits) st.1 then false
      else if over_limit (rl_MaxElements limits) st.2 then false
      else walk_tokens limits st toks
  end.

(** What an entry of the claims parameter must look like; [null] decodes into anything. *)
Definition is_bool (v : json) : bool := match v with JBool _ | JNull => true | _ => false end.
Definition is_array (v : json) : bool := match v with JArr _ | JStrs _ | JNull => true | _ => false end.

Definition validateClaimRequestSpec (spec : json) : bool :=
  match spec with
  | JNull => true
  | JObj obj =>
      default true (is_bool <$> json_member "essential" obj) && default true (is_array <$> json_member "values" obj)
  | _ => false
  end.

Definition validate_section (section : option json) : bool :=
  match section with
  | None | Some JNull => true
  | Some (JObj inner) => forallb (fun kv => validateClaimRequestSpec kv.2) (map_to_list (list_to_map (rev inner) : gmap string json))
  | Some _ => false
  end.

Section params.
(** The decoder of [encoding/json]: into a value; token by token, until the end or an
    error; and into the [type] members of an array of objects. *)
Context (Unmarshal : string -> option json) (json_Tokens : string -> list json_token) (UnmarshalDetails : string -> option (list string)).

Definition ValidateClaimsParameter (raw : string) : bool :=
  if decide (raw = "") then true
  else match Unmarshal raw with
       | Some JNull => true
       | Some (JObj obj) => forallb (fun top => validate_section (json_member top obj)) ["userinfo"; "id_token"]
       | _ => false
       end.

Definition checkRARShape (raw : string) (limits : RARLimits) : bool :=
  if over_limit (rl_MaxBytes limits) (Str.len raw) then false
  else if (rl_MaxDepth limits <=? 0) && (rl_MaxElements limits <=? 0) then true
  else walk_tokens limits (0, 0) (json_Tokens raw).

Definition ValidateAuthorizationDetails (raw : string) (allowed : list string) (limits : RARLimits) : bool :=
  if decide (raw = "") then true
  else if negb (checkRARShape raw limits) then false
  else match UnmarshalDetails raw with
       | None => false
       | Some types => forallb (fun t => negb (bool_decide (t = "")) && (bool_decide (allowed = []) || contains allowed t)) types
       end.

(** [validateLoginAuthorizationParams]; [None] is acceptance. *)
Definition validateLoginAuthorizationParams (maxScopeCount : Z) (limits : RARLimits) (req : Request) (client : LoginClient) : option refusal :=
  if negb (CheckAuthParamLengths (lr_State req) (lr_RedirectURI req) (Str.join (lr_Scope req)) (lr_Nonce req) (lr_Resource req))
  then Some (400, ErrInvalidRequest)
  else if over_limit maxScopeCount (Z.of_nat (length (lr_Scope req))) then Some (400, ErrInvalidScope)
  else if negb (AreResourcesAllowed client (lr_Resource req)) then Some (400, ErrInvalidTarget)
  else if negb (bool_decide (lr_Claims req = "")) && negb (ValidateClaimsParameter (lr_Claims req)) then Some (400, ErrInvalidRequest)
  else if negb (ValidateAuthorizationDetails (lr_AuthorizationDetails req) (cl_AllowedAuthorizationDetailsTypes client) limits)
  then Some (400, ErrInvalidAuthorizationDetails)
  else None.
End params.

Definition fapi_context (req : Request) : AuthorizationContext := {|
  fa_ClientID := lr_ClientID req; fa_ResponseType := lr_ResponseType req; fa_UsedPAR := loginUsedPAR req;
  fa_SignedRequest := negb (bool_decide (lr_Request req = "")); fa_CodeChallenge := lr_CodeChallenge req;
  fa_CodeChallengeMethod := lr_CodeChallengeMethod req |}.

(** ** What passes *)

Lemma merge_ClientID o r : ov_ClientID o = "" -> lr_ClientID (merge o r) = lr_ClientID r.
Proof. intros H. cbn. unfold over. by rewrite decide_True. Qed.

Lemma over_fixed a b : a <> "" -> over a b = a.
Proof. intros H. unfold over. by rewrite decide_False. Qed.

(** A pushed request is merged for the client that pushed it, when it is not stale, and
    is gone. *)
Lemma consumePAR_Ok now req par r par' :
  consumePARRequest now req par = (Ok r, par') ->
  exists m stored, par = Some m /\ (ConsumePAR now (lr_RequestURI req) m).1 = Ok stored /\ par' = Some (ConsumePAR now (lr_RequestURI req) m).2 /\
    r = mergeStoredPARRequest stored req /\ (lr_ClientID req <> "" -> par_ClientID stored <> "" -> lr_ClientID req = par_ClientID stored).
Proof.
  unfold consumePARRequest. destruct par as [m|]; [|done]. destruct (ConsumePAR now (lr_RequestURI req) m) as [[stored|] m'] eqn:E; [|done].
  destruct (_ && _) eqn:Hc; [done|]. intros [= <- <-]. exists m, stored. rewrite E. split_and!; [done..|].
  intros H1 H2. rewrite !bool_decide_eq_false_2 in Hc by done. by apply negb_false_iff, bool_decide_eq_true in Hc.
Qed.

Section jar_facts.
Context (ed25519_Verify : list Z -> list Z -> list Z -> bool).
Context (ecdsa_Verify : Curve -> Z * Z -> list Z -> Z -> Z -> bool).
Context (rsa_VerifyPKCS1v15 rsa_VerifyPSS : Z * Z -> option Hash -> list Z -> list Z -> bool).
Context (UnmarshalHeader : list Z -> option JWSHeader).
Context (UnmarshalTyp : list Z -> option string) (UnmarshalJAR : list Z -> option jarPayload).
Context (decrypt : option (string -> option string)) (issuer : string) (replayFailClosed : bool).
Notation VerifyCompactJWS := (VerifyCompactJWS ed25519_Verify ecdsa_Verify rsa_VerifyPKCS1v15 rsa_VerifyPSS UnmarshalHeader).
Notation applyRequestObject := (applyRequestObject ed25519_Verify ecdsa_Verify rsa_VerifyPKCS1v15 rsa_VerifyPSS UnmarshalHeader UnmarshalTyp UnmarshalJAR decrypt issuer replayFailClosed).
Notation verifyJAR := (verifyJAR ed25519_Verify ecdsa_Verify rsa_VerifyPKCS1v15 rsa_VerifyPSS UnmarshalHeader UnmarshalTyp UnmarshalJAR issuer replayFailClosed).

(** What an accepted request object is. *)
Definition object_ok (now : Z) (raw : string) (client : LoginClient) (p : jarPayload) : Prop :=
  exists praw, VerifyCompactJWS raw (cl_JWKS client) AsymmetricJWSAlgs = Ok praw /\ UnmarshalJAR praw = Some p /\
  (jp_Exp p <> 0 -> unix now < jp_Exp p) /\ (jp_Nbf p <> 0 -> jp_Nbf p <= unix now) /\
  (jp_Aud p <> [] -> issuer <> "" -> issuer ∈ jp_Aud p) /\ (jp_Iss p <> "" -> jp_Iss p = cl_ID client) /\
  (jp_ClientID p <> "" -> jp_ClientID p = cl_ID client).

Lemma validateJARClaims_spec now p clientID :
  validateJARClaims now p clientID issuer = true ->
  (jp_Exp p <> 0 -> unix now < jp_Exp p) /\ (jp_Nbf p <> 0 -> jp_Nbf p <= unix now) /\
  (jp_Aud p <> [] -> issuer <> "" -> issuer ∈ jp_Aud p) /\ (jp_Iss p <> "" -> jp_Iss p = clientID) /\
  (jp_ClientID p <> "" -> jp_ClientID p = clientID).
Proof.
  unfold validateJARClaims. repeat match goal with |- (if ?b then _ else _) = _ -> _ => destruct b eqn:?; [done|] end. intros _. split_and!.
  - intros ?. destruct (Z.eqb_spec (jp_Exp p) 0); [done|]. cbn in *. lia.
  - intros ?. destruct (Z.eqb_spec (jp_Nbf p) 0); [done|]. cbn in *. lia.
  - intros ? ?. repeat rewrite bool_decide_eq_false_2 in * by done. cbn in *. by bool_simpl.
  - intros ?. repeat rewrite (bool_decide_eq_false_2 (jp_Iss p = "")) in * by done. cbn in *. by bool_simpl.
  - intros ?. repeat rewrite (bool_decide_eq_false_2 (jp_ClientID p = "")) in * by done. cbn in *. by bool_simpl.
Qed.

Lemma verifyJAR_Some now raw client replay p replay' :
  verifyJAR now raw client replay = (Some p, replay') ->
  object_ok now raw client p /\ enforceJARReplay now p replayFailClosed replay = (true, replay').
Proof.
  unfold verifyJAR. destruct (decide _); [done|]. destruct (jws_parts raw) as [|h [|h2 [|h3 [|]]]]; try done.
  destruct (negb _); [done|]. destruct (VerifyCompactJWS raw (cl_JWKS client) AsymmetricJWSAlgs) as [praw|] eqn:Hv; [|done].
  destruct (UnmarshalJAR praw) as [q|] eqn:Hu; [|done]. destruct (validateJARClaims now q (cl_ID client) issuer) eqn:Hc; [|done]. cbn [negb].
  destruct (enforceJARReplay _ _ _ _) as [[] r] eqn:Hr; [|done]. intros [= <- <-]. split; [|done].
  exists praw. split; [done|]. split; [done|]. by apply validateJARClaims_spec.
Qed.

(** A request with an object goes on with what the object says, if the object is good;
    the client, the provider and the credential stay. *)
Lemma applyRequestObject_Ok now req client replay req' replay' :
  applyRequestObject now req client replay = (Ok req', replay') ->
  (lr_Request req = "" /\ req' = req) \/
  (lr_Request req <> "" /\ exists raw p, JWEUnwrap decrypt (lr_Request req) = Some raw /\ object_ok now raw client p /\ req' = mergeVerifiedJAR p req).
Proof.
  unfold applyRequestObject. destruct (decide (lr_Request req = "")); [intros [= <- <-]; by left|]. destruct (JWEUnwrap _ _) as [raw|]; [|done].
  destruct (verifyJAR now raw client replay) as [[p|] r] eqn:Hv; [|done]. intros [= <- <-]. right. split; [done|].
  exists raw, p. by apply verifyJAR_Some in Hv as [? _].
Qed.
End jar_facts.

(** Every type asked for is one the client may ask for. *)
Lemma details_allowed tokens details raw allowed limits types :
  ValidateAuthorizationDetails tokens details raw allowed limits = true -> raw <> "" -> details raw = Some types -> allowed <> [] -> types ⊆ allowed.
Proof.
  unfold ValidateAuthorizationDetails. intros H Hne Hd Ha. rewrite decide_False in H by done. destruct (checkRARShape _ _ _); [|done]. cbn [negb] in H.
  rewrite Hd, forallb_forall in H. intros t Ht%list_elem_of_In. apply H in Ht. rewrite (bool_decide_eq_false_2 (allowed = [])) in Ht by done.
  cbn [orb] in Ht. by bool_simpl.
Qed.

(** ** A bounded walk *)

(** The walk never looks past the first token over a limit. *)
Lemma walk_tokens_app limits st toks more : walk_tokens limits st toks = false -> walk_tokens limits st (toks ++ more) = false.
Proof.
  revert st. induction toks as [|tok toks IH]; intros st; cbn [walk_tokens app]; [done|].
  destruct (over_limit _ (advanceRARToken tok st).1); [done|]. destruct (over_limit _ _); [done|]. apply IH.
Qed.
