(* ===== verification/Consent.v ===== *)
(** * Consent: what a user has agreed to
    ([internal/auth/consent], [MemoryConsentStore] of
    [infrastructure/defaultimpl/memorystoreidentity], [core.ConsentGrant], the gate of
    [interfaces/sso/server_logout.go]).

    A login asks once per user and client; the answer is kept as a grant.  The question
    carries a challenge that is good for one answer to that very question.  The JSON
    decoder is an argument. *)
From S2P Require Import Prelude Core Scopes RefreshStore CodeStores LoginRequest.
Local Open Scope Z_scope.

(** ** Grants *)

Record ConsentGrant := {
  cg_UserID : string;
  cg_ClientID : string;
  cg_Scopes : list string;
  cg_GrantedAt : Z;
  cg_ExpiresAt : Z;
}.

Definition Grant_IsExpired (now : Z) (g : ConsentGrant) : bool :=
  if GoTime.IsZero (cg_ExpiresAt g) then false else 0 <? GoTime.Since now (cg_ExpiresAt g).

Inductive consent_error := ErrNoConsentGrant | ConsentStoreFailed.

(** [MemoryConsentStore]. *)
Notation ConsentStore := (gmap string ConsentGrant).

Definition consentKey (userID clientID : string) : string := userID +:+ ":" +:+ clientID.
Definition normalizeScopes (l : list string) : list string := merge_sort str_le (dedup_onto [] l).

Definition RecordConsent (g : ConsentGrant) (m : ConsentStore) : ConsentStore :=
  <[consentKey (cg_UserID g) (cg_ClientID g) := {|
      cg_UserID := cg_UserID g; cg_ClientID := cg_ClientID g; cg_Scopes := normalizeScopes (cg_Scopes g);
      cg_GrantedAt := cg_GrantedAt g; cg_ExpiresAt := cg_ExpiresAt g |}]> m.

Definition GetConsent (now : Z) (userID clientID : string) (m : ConsentStore) : result consent_error ConsentGrant :=
  match m !! consentKey userID clientID with
  | None => Err ErrNoConsentGrant
  | Some g => if Grant_IsExpired now g then Err ErrNoConsentGrant else Ok g
  end.

Definition RevokeConsent (userID clientID : string) (m : ConsentStore) : ConsentStore := delete (consentKey userID clientID) m.

(** ** Scopes and prompts *)

Definition ScopesMatch (a b : list string) : bool :=
  bool_decide (length a = length b) && bool_decide (merge_sort str_le a = merge_sort str_le b).
Definition ScopesSubsumed (granted requested : list string) : bool :=
  bool_decide (requested = []) || forallb (contains granted) requested.
Definition HasPromptValue (prompt val : string) : bool := contains (Str.fields prompt) val.

(** ** Challenges *)

Definition ChallengeTTL : Z := 5 * GoTime.Minute.

Record Challenge := {
  ch_UserID : string;
  ch_ClientID : string;
  ch_Scopes : list string;
  ch_AuthorizationDetails : string;
  ch_ExpiresAt : Z;
}.
Notation ChallengeStore := (gmap string Challenge).

Definition stale (now : Z) (c : Challenge) : bool := 0 <? GoTime.Since now (ch_ExpiresAt c).

(** [id] is what the random source gives. *)
Definition IssueChallenge (now : Z) (id userID clientID : string) (scopes : list string) (details : string) (m : ChallengeStore) : ChallengeStore :=
  <[id := {| ch_UserID := userID; ch_ClientID := clientID; ch_Scopes := scopes; ch_AuthorizationDetails := details;
             ch_ExpiresAt := GoTime.Add now ChallengeTTL |}]> m.

Section consent.
(** [decodeRawJSON], with [json.Number] for numbers. *)
Context {J : Type} `{EqDecision J} (decodeRawJSON : string -> option J).

Definition rawJSONEqual (a b : string) : bool :=
  if bool_decide (a = "") || bool_decide (b = "") then bool_decide (a = "") && bool_decide (b = "")
  else match decodeRawJSON a, decodeRawJSON b with Some x, Some y => bool_decide (x = y) | _, _ => false end.

Definition binds (userID clientID : string) (scopes : list string) (details : string) (c : Challenge) : bool :=
  bool_decide (ch_UserID c = userID) && bool_decide (ch_ClientID c = clientID) && ScopesMatch (ch_Scopes c) scopes &&
  rawJSONEqual (ch_AuthorizationDetails c) details.

Definition ConsumeChallenge (now : Z) (id userID clientID : string) (scopes : list string) (details : string) (m : ChallengeStore)
    : bool * ChallengeStore :=
  let m := delete_where (stale now) m in
  match m !! id with
  | None => (false, m)
  | Some c => if stale now c then (false, m) else if binds userID clientID scopes details c then (true, delete id m) else (false, m)
  end.

(** ** The gate *)

Context (consentMaxTTL : Z).

Definition new_grant (now : Z) (userID clientID : string) (scopes : list string) : ConsentGrant := {|
  cg_UserID := userID; cg_ClientID := clientID; cg_Scopes := scopes; cg_GrantedAt := now;
  cg_ExpiresAt := if 0 <? consentMaxTTL then GoTime.Add now consentMaxTTL else 0 |}.

Definition recordConsentGrant (now : Z) (userID clientID : string) (scopes : list string) (m : ConsentStore) : ConsentStore :=
  RecordConsent (new_grant now userID clientID scopes) m.

(** Whether the user must be asked; a failing store asks nobody. *)
Definition evaluateConsentNeed (now : Z) (client : LoginClient) (scopes : list string) (prompt : string)
    (grant : result consent_error ConsentGrant) : bool :=
  match grant with
  | Err ErrNoConsentGrant => true
  | Err ConsentStoreFailed => false
  | Ok g =>
      HasPromptValue prompt "consent" || negb (ScopesSubsumed (cg_Scopes g) scopes) || Grant_IsExpired now g ||
      ((0 <? lc_ConsentRefreshInterval client) && (lc_ConsentRefreshInterval client <? GoTime.Since now (cg_GrantedAt g)))
  end.

(** [None]: the login goes on; otherwise the challenge of the question.  [id] is the next
    value of the random source. *)
Definition handleConsentGate (now : Z) (id userID : string) (client : LoginClient) (scopes : list string) (prompt challengeID details : string)
    : M (ConsentStore * ChallengeStore) (option string) := fun '(grants, challenges) =>
  if lc_SkipConsent client then (None, (grants, challenges))
  else
    let clientID := cl_ID client in
    let grant := GetConsent now userID clientID grants in
    if negb (evaluateConsentNeed now client scopes prompt grant)
    then (None, (match grant with Ok g => recordConsentGrant now userID clientID (cg_Scopes g) grants | Err _ => grants end, challenges))
    else
      let '(valid, challenges) := if decide (challengeID = "") then (false, challenges)
                                  else ConsumeChallenge now challengeID userID clientID scopes details challenges in
      if (valid : bool) then (None, (recordConsentGrant now userID clientID scopes grants, challenges))
      else (Some id, (grants, IssueChallenge now id userID clientID scopes details challenges)).

(** ** What the gate lets through *)

Lemma ScopesMatch_spec a b : ScopesMatch a b = true -> a ≡ₚ b.
Proof.
  unfold ScopesMatch. intros H. bool_simpl. rewrite <- (merge_sort_Permutation str_le a), <- (merge_sort_Permutation str_le b).
  congruence || by match goal with H : merge_sort str_le a = _ |- _ => rewrite H end.
Qed.

Lemma ScopesSubsumed_spec granted requested : ScopesSubsumed granted requested = true <-> requested ⊆ granted.
Proof.
  unfold ScopesSubsumed. rewrite orb_true_iff, bool_decide_eq_true, forallb_forall. split.
  - intros [-> | H] s Hs; [by apply elem_of_nil in Hs|]. by apply contains_spec, H, list_elem_of_In.
  - intros H. right. intros s Hs%list_elem_of_In. by apply contains_spec, H.
Qed.

Lemma normalize_elem l s : s ∈ normalizeScopes l <-> s ∈ l.
Proof. unfold normalizeScopes. rewrite merge_sort_Permutation, elem_of_dedup_onto. set_solver. Qed.

(** The answer to an open question, for its user, client, scopes and details. *)
Definition answers (now : Z) (id userID clientID : string) (scopes : list string) (details : string) (m : ChallengeStore) : Prop :=
  exists c, m !! id = Some c /\ now <= ch_ExpiresAt c /\ ch_UserID c = userID /\ ch_ClientID c = clientID /\ ch_Scopes c ≡ₚ scopes /\
    rawJSONEqual (ch_AuthorizationDetails c) details = true.

Lemma ConsumeChallenge_spec now id userID clientID scopes details m :
  let '(valid, m') := ConsumeChallenge now id userID clientID scopes details m in
  m' ⊆ m /\ (valid = true -> answers now id userID clientID scopes details m /\ m' !! id = None).
Proof.
  unfold ConsumeChallenge. assert (delete_where (stale now) m ⊆ m) as Hsub by apply map_filter_subseteq.
  destruct (delete_where (stale now) m !! id) as [c|] eqn:Hc; [|done]. apply delete_where_lookup in Hc as [Hc Hs]. rewrite Hs.
  destruct (binds _ _ _ _ c) eqn:Hb; [|done]. split; [etrans; [apply delete_subseteq|done]|]. intros _. split; [|apply lookup_delete_eq].
  unfold binds in Hb. bool_simpl. exists c. unfold stale in Hs. rewrite GoTime.Since_pos_spec in Hs. bool_simpl.
  split_and!; try done. by apply ScopesMatch_spec.
Qed.

(** A question is answered at most once, whatever else happens to the store. *)
Inductive challenge_step (id : string) : ChallengeStore -> ChallengeStore -> Prop :=
| step_issue now id' u c sc d m : id' <> id -> challenge_step id m (IssueChallenge now id' u c sc d m)
| step_consume now id' u c sc d m : challenge_step id m (ConsumeChallenge now id' u c sc d m).2.

Lemma challenge_single_use now id u c sc d m m' now' u' c' sc' d' :
  (ConsumeChallenge now id u c sc d m).1 = true -> rtc (challenge_step id) (ConsumeChallenge now id u c sc d m).2 m' ->
  (ConsumeChallenge now' id u' c' sc' d' m').1 = false.
Proof.
  intros Ht Hr. pose proof (ConsumeChallenge_spec now id u c sc d m) as H. destruct (ConsumeChallenge now id u c sc d m) as [v m1]. cbn in *.
  destruct H as [_ [_ Hnone]]; [done|]. assert (m' !! id = None) as Hm'.
  { clear -Hnone Hr. induction Hr as [|x y z Hstep _ IH]; [done|]. apply IH. destruct Hstep as [? id' ? ? ? ? m Hne|? id' u c sc d m].
    - unfold IssueChallenge. by rewrite lookup_insert_ne.
    - pose proof (ConsumeChallenge_spec now id' u c sc d m) as H. destruct (ConsumeChallenge _ _ _ _ _ _ m) as [v m2]. destruct H as [Hsub _].
      by eapply lookup_weaken_None. }
  pose proof (ConsumeChallenge_spec now' id u' c' sc' d' m') as H. destruct (ConsumeChallenge now' id u' c' sc' d' m') as [[] m2]; [|done].
  destruct H as [_ [(ch & Hch & _) _]]; [done|]. congruence.
Qed.

(** Why a login need not ask, or need not ask again. *)
Inductive consented (now : Z) (userID : string) (client : LoginClient) (scopes : list string) (prompt challengeID details : string)
    (grants : ConsentStore) (challenges : ChallengeStore) : Prop :=
| by_operator : lc_SkipConsent client = true -> consented now userID client scopes prompt challengeID details grants challenges
| by_grant g : grants !! consentKey userID (cl_ID client) = Some g -> Grant_IsExpired now g = false -> scopes ⊆ cg_Scopes g ->
    "consent" ∉ Str.fields prompt ->
    (0 < lc_ConsentRefreshInterval client -> GoTime.Since now (cg_GrantedAt g) <= lc_ConsentRefreshInterval client) ->
    consented now userID client scopes prompt challengeID details grants challenges
| by_answer : answers now challengeID userID (cl_ID client) scopes details challenges ->
    consented now userID client scopes prompt challengeID details grants challenges.

Lemma need_false now client scopes prompt g :
  evaluateConsentNeed now client scopes prompt (Ok g) = false ->
  Grant_IsExpired now g = false /\ scopes ⊆ cg_Scopes g /\ "consent" ∉ Str.fields prompt /\
  (0 < lc_ConsentRefreshInterval client -> GoTime.Since now (cg_GrantedAt g) <= lc_ConsentRefreshInterval client).
Proof.
  cbn. intros H. bool_simpl. split_and!; [done|by apply ScopesSubsumed_spec| |].
  - unfold HasPromptValue, contains in *. by bool_simpl.
  - intros Hpos. match goal with H : _ && _ = false |- _ => rewrite (proj2 (Z.ltb_lt _ _) Hpos) in H; cbn in H end. by bool_simpl.
Qed.

(** The gate lets a login through only on a live grant that covers what is asked, on the
    answer to the question it had asked, or when the operator waived it; the grant on
    record afterwards covers the scopes. *)
Theorem consent_gate_sound now id userID client scopes prompt challengeID details grants challenges grants' challenges' :
  handleConsentGate now id userID client scopes prompt challengeID details (grants, challenges) = (None, (grants', challenges')) ->
  consented now userID client scopes prompt challengeID details grants challenges /\
  (lc_SkipConsent client = false -> exists g, grants' !! consentKey userID (cl_ID client) = Some g /\ scopes ⊆ cg_Scopes g).
Proof.
  unfold handleConsentGate. destruct (lc_SkipConsent client) eqn:Hskip; [intros _; by split; [apply by_operator|]|].
  unfold recordConsentGrant, RecordConsent. destruct (GetConsent now userID (cl_ID client) grants) as [g|e] eqn:Hg.
  - unfold GetConsent in Hg. destruct (grants !! _) as [g'|] eqn:Hl; [|done]. destruct (Grant_IsExpired now g') eqn:He; [done|]. injection Hg as ->.
    destruct (evaluateConsentNeed now client scopes prompt (Ok g)) eqn:Hn; cbn [negb].
    + destruct (decide (challengeID = "")); [done|]. pose proof (ConsumeChallenge_spec now challengeID userID (cl_ID client) scopes details challenges) as Hc.
      destruct (ConsumeChallenge _ _ _ _ _ _ challenges) as [[] m]; [|done]. intros [= <- <-]. destruct Hc as [_ [Hc _]]; [done|].
      split; [by apply by_answer|]. intros _. eexists. split; [apply lookup_insert_eq|]. intros s Hs. by apply normalize_elem.
    + intros [= <- <-]. apply need_false in Hn as (_ & Hsub & Hp & Hr). split; [by eapply by_grant|]. intros _.
      eexists. split; [apply lookup_insert_eq|]. intros s Hs. by apply normalize_elem, Hsub.
  - assert (e = ErrNoConsentGrant) as ->.
    { unfold GetConsent in Hg. destruct (grants !! _) as [g'|]; [destruct (Grant_IsExpired now g')|]; congruence. }
    cbn [evaluateConsentNeed negb]. destruct (decide (challengeID = "")); [done|].
    pose proof (ConsumeChallenge_spec now challengeID userID (cl_ID client) scopes details challenges) as Hc.
    destruct (ConsumeChallenge _ _ _ _ _ _ challenges) as [[] m]; [|done]. intros [= <- <-]. destruct Hc as [_ [Hc _]]; [done|].
    split; [by apply by_answer|]. intros _. eexists. split; [apply lookup_insert_eq|]. intros s Hs. by apply normalize_elem.
Qed.

(** ** A grant in use does not lapse *)

(** Logins at the given times, none of which asks the user. *)
Fixpoint silent_logins (userID : string) (client : LoginClient) (scopes : list string) (times : list Z) (s : ConsentStore * ChallengeStore) : Prop :=
  match times with
  | [] => True
  | now :: times =>
      (handleConsentGate now "" userID client scopes "" "" "" s).1 = None /\
      silent_logins userID client scopes times (handleConsentGate now "" userID client scopes "" "" "" s).2
  end.

(** Gaps between consecutive times are at most [d]. *)
Fixpoint within (d t : Z) (times : list Z) : Prop :=
  match times with [] => True | t' :: times => t <= t' <= t + d /\ within d t' times end.

Lemma consent_waived userID client scopes times s : lc_SkipConsent client = true -> silent_logins userID client scopes times s.
Proof.
  intros Hskip. revert s. induction times as [|now times IH]; intros [grants challenges]; [done|]. cbn [silent_logins].
  unfold handleConsentGate at 1 2. rewrite Hskip. by split.
Qed.

(** Every silent login renews the grant: its age and its expiry start again.  A user who
    comes back more often than the ceiling and the refresh interval is never asked
    again, however long ago the approval was. *)
Theorem consent_in_use_never_lapses userID client scopes d times t0 grants challenges g :
  0 < t0 -> 0 <= d < GoTime.maxDuration -> (0 < consentMaxTTL -> d <= consentMaxTTL) ->
  (0 < lc_ConsentRefreshInterval client -> d <= lc_ConsentRefreshInterval client) ->
  grants !! consentKey userID (cl_ID client) = Some g -> scopes ⊆ cg_Scopes g -> cg_GrantedAt g = t0 ->
  cg_ExpiresAt g = (if 0 <? consentMaxTTL then GoTime.Add t0 consentMaxTTL else 0) ->
  within d t0 times -> silent_logins userID client scopes times (grants, challenges).
Proof.
  intros Ht0 Hd Httl Hint. revert t0 grants g Ht0. induction times as [|now times IH]; intros t0 grants g Ht0 Hg Hsc Hat Hexp; [done|].
  cbn [within silent_logins]. intros [Hnow Hrest].
  assert (Grant_IsExpired now g = false) as He.
  { unfold Grant_IsExpired. rewrite Hexp. destruct (Z.ltb_spec 0 consentMaxTTL); [|done].
    unfold GoTime.IsZero, GoTime.Add. rewrite (proj2 (Z.eqb_neq _ _)) by lia. rewrite GoTime.Since_pos_spec. apply Z.ltb_ge. lia. }
  assert (evaluateConsentNeed now client scopes "" (Ok g) = false) as Hn.
  { cbn [evaluateConsentNeed]. rewrite He, (proj2 (ScopesSubsumed_spec _ _) Hsc), Hat.
    destruct (Z.ltb_spec 0 (lc_ConsentRefreshInterval client)); [|done]. cbn. apply Z.ltb_ge.
    unfold GoTime.Since, GoTime.Sub, GoTime.minDuration. specialize (Hint ltac:(done)). lia. }
  unfold handleConsentGate, GetConsent. rewrite Hg, He, Hn. cbn [negb]. destruct (lc_SkipConsent client) eqn:Hskip; cbn [fst snd]; (split; [done|]).
  - by apply consent_waived.
  - eapply (IH now); [lia|apply lookup_insert_eq| |done|done|done]. intros s Hs. by apply normalize_elem, Hsc.
Qed.
End consent.

(** ** Witnesses and counterexamples *)

Definition consent_client (interval : Z) : LoginClient := {|
  lc_client := plain_client "app" [] []; lc_RequirePAR := false; lc_RequireSignedRequestObject := false; lc_AllowPasswordlessOnly := false;
  lc_AllowedPKCEMethods := []; lc_AllowedRequestURIs := []; lc_SkipConsent := false; lc_ConsentRefreshInterval := interval |}.

(** An hour's ceiling on grants and an hour's refresh interval: logins every half hour
    are never asked again. *)
Example lapsed_consent :
  let client := consent_client GoTime.Hour in
  let g := new_grant GoTime.Hour GoTime.Hour "alice" "app" ["openid"] in
  silent_logins (fun s => Some s) GoTime.Hour "alice" client ["openid"]
    ((fun n => GoTime.Hour + Z.of_nat n * (30 * GoTime.Minute)) <$> seq 1 48) (RecordConsent g ∅, ∅).
Proof.
  vm_compute. tauto.
Qed.

(** The key of a grant does not tell where the user ends: the consent of one pair is
    the consent of another. *)
Example consent_of_another :
  let g := new_grant 0 1 "idp" "acme:app" ["openid"] in
  exists g', GetConsent 2 "idp:acme" "app" (RecordConsent g ∅) = Ok g' /\ cg_UserID g' = "idp".
Proof. eexists. split; vm_compute; reflexivity. Qed.
