(* ===== verification/LoginState.v ===== *)
(** * LoginState: what a login keeps between its requests
    ([core.AuthResult] of [shared/core/types_auth.go], [spi.MFAChallenge] and its stores
    [defaultmfa/memory_mfa_challenge.go] and [internal/auth/login/transaction_store.go],
    the frozen states of [interfaces/sso/server_mfa.go] and [origin_validation.go]), the
    interfaces it calls, and the monad of its handlers.

    A stage of a login either goes on with a value or has answered: [Flow A] is a state
    transformer with [result Resp A].  What is frozen in a store as JSON is the value that
    is read back: the fields JSON leaves out are dropped when it is frozen. *)
From S2P Require Import Prelude Crypto Core Float64 Lifecycle Scopes RefreshStore CodeStores DeviceCodes CibaStore Lockout Issue RefreshIface GraceCache GrantCore Users Keyset Sessions TokenPolicy CondAccess PolicyGates JTIReplay Jwks Dpop TokenFront ResourceAccess Fapi LoginRequest Consent.
Local Open Scope Z_scope.

(** ** Data *)

(** [core.AuthResult], without the hints for the page and the health of the password. *)
Record Result := {
  re_UserID : string;
  re_ExternalID : string;
  re_Provider : string;
  re_Attributes : option (gmap string string);
  re_AuthMethods : list string;
  re_AuthTime : Z;
  re_SessionID : string;
  re_CreateSession : bool;
  re_AchievedACR : string;
  re_Roles : list string;
}.

Definition with_result (r : Result) (provider : string) (attrs : option (gmap string string)) (methods : list string) (authTime : Z) (roles : list string) : Result := {|
  re_UserID := re_UserID r; re_ExternalID := re_ExternalID r; re_Provider := provider; re_Attributes := attrs; re_AuthMethods := methods;
  re_AuthTime := authTime; re_SessionID := re_SessionID r; re_CreateSession := re_CreateSession r; re_AchievedACR := re_AchievedACR r; re_Roles := roles |}.
Definition set_provider (p : string) (r : Result) : Result := with_result r p (re_Attributes r) (re_AuthMethods r) (re_AuthTime r) (re_Roles r).
Definition set_attributes (a : option (gmap string string)) (r : Result) : Result := with_result r (re_Provider r) a (re_AuthMethods r) (re_AuthTime r) (re_Roles r).
Definition set_methods (l : list string) (r : Result) : Result := with_result r (re_Provider r) (re_Attributes r) l (re_AuthTime r) (re_Roles r).
Definition set_auth_time (t : Z) (r : Result) : Result := with_result r (re_Provider r) (re_Attributes r) (re_AuthMethods r) t (re_Roles r).
Definition set_roles (l : list string) (r : Result) : Result := with_result r (re_Provider r) (re_Attributes r) (re_AuthMethods r) (re_AuthTime r) l.

(** What the policy gates read of it. *)
Definition gate_result (r : Result) : PolicyGates.AuthResult := {|
  ar_UserID := re_UserID r; ar_AuthMethods := re_AuthMethods r; ar_AuthTime := re_AuthTime r; ar_SessionID := re_SessionID r |}.

Definition AmrForResult (r : Result) : list string := AmrOrProvider (re_AuthMethods r) (re_Provider r).

(** Adds [v] unless it is empty or there. *)
Definition add_method (l : list string) (v : string) : list string :=
  if bool_decide (v = "") || contains l v then l else l ++ [v].
Definition WithMFAMethod (existing : list string) (method : string) : list string :=
  add_method (add_method existing (if decide (method = "totp") then "otp" else method)) "mfa".

(** A request with some of its fields replaced. *)
Definition with_fields (r : Request) (provider : string) (cred : option (gmap string string)) (scope : list string) (method devtok txn cid dec : string)
    (restriction : option (list string)) : Request := {|
  lr_ResumeSession := lr_ResumeSession r; lr_Provider := provider; lr_Credential := cred; lr_ClientID := lr_ClientID r; lr_Scope := scope;
  lr_State := lr_State r; lr_ResponseType := lr_ResponseType r; lr_RedirectURI := lr_RedirectURI r; lr_Nonce := lr_Nonce r;
  lr_CodeChallenge := lr_CodeChallenge r; lr_CodeChallengeMethod := method; lr_Resource := lr_Resource r; lr_RequestURI := lr_RequestURI r;
  lr_AuthorizationDetails := lr_AuthorizationDetails r; lr_Request := lr_Request r; lr_Prompt := lr_Prompt r; lr_IDTokenHint := lr_IDTokenHint r;
  lr_MaxAge := lr_MaxAge r; lr_LoginHint := lr_LoginHint r; lr_ResponseMode := lr_ResponseMode r; lr_ACRValues := lr_ACRValues r;
  lr_UILocales := lr_UILocales r; lr_PresentationLocale := lr_PresentationLocale r; lr_PresentationThemeMode := lr_PresentationThemeMode r; lr_Claims := lr_Claims r; lr_ConsentChallengeID := cid; lr_ConsentDecision := dec;
  lr_LoginTransactionID := txn; lr_DeviceToken := devtok; lr_PolicyScopeRestriction := restriction |}.

Definition set_request_provider (p : string) (r : Request) : Request :=
  with_fields r p (lr_Credential r) (lr_Scope r) (lr_CodeChallengeMethod r) (lr_DeviceToken r) (lr_LoginTransactionID r) (lr_ConsentChallengeID r) (lr_ConsentDecision r) (lr_PolicyScopeRestriction r).
Definition set_scope (l : list string) (r : Request) : Request :=
  with_fields r (lr_Provider r) (lr_Credential r) l (lr_CodeChallengeMethod r) (lr_DeviceToken r) (lr_LoginTransactionID r) (lr_ConsentChallengeID r) (lr_ConsentDecision r) (lr_PolicyScopeRestriction r).
Definition set_challenge_method (m : string) (r : Request) : Request :=
  with_fields r (lr_Provider r) (lr_Credential r) (lr_Scope r) m (lr_DeviceToken r) (lr_LoginTransactionID r) (lr_ConsentChallengeID r) (lr_ConsentDecision r) (lr_PolicyScopeRestriction r).
Definition set_restriction (l : option (list string)) (r : Request) : Request :=
  with_fields r (lr_Provider r) (lr_Credential r) (lr_Scope r) (lr_CodeChallengeMethod r) (lr_DeviceToken r) (lr_LoginTransactionID r) (lr_ConsentChallengeID r) (lr_ConsentDecision r) l.
Definition set_consent (cid dec : string) (r : Request) : Request :=
  with_fields r (lr_Provider r) (lr_Credential r) (lr_Scope r) (lr_CodeChallengeMethod r) (lr_DeviceToken r) (lr_LoginTransactionID r) cid dec (lr_PolicyScopeRestriction r).
(** What is frozen of a request: without the credential and the token of the device. *)
Definition without_secrets (r : Request) : Request :=
  with_fields r (lr_Provider r) None (lr_Scope r) (lr_CodeChallengeMethod r) "" (lr_LoginTransactionID r) (lr_ConsentChallengeID r) (lr_ConsentDecision r) (lr_PolicyScopeRestriction r).
Definition without_transaction (r : Request) : Request :=
  with_fields r (lr_Provider r) (lr_Credential r) (lr_Scope r) (lr_CodeChallengeMethod r) (lr_DeviceToken r) "" (lr_ConsentChallengeID r) (lr_ConsentDecision r) (lr_PolicyScopeRestriction r).

(** [mfaResumeState]; the restriction of the scopes is in the request. *)
Record mfaResumeState := {
  rs_Result : option Result;
  rs_Request : Request;
  rs_AuthenticationComplete : bool;
  rs_TrustDevice : bool;
  rs_FederatedReturn : bool;
  rs_FederatedError : string;
}.

(** [federatedAuthorizationState]. *)
Record federatedAuthorizationState := { fs_Request : Request; fs_Provider : string }.

(** [RequestState]: each decoder finds nothing of use in the text of the other kind. *)
Inductive frozen := FrozenLogin (s : mfaResumeState) | FrozenFederated (s : federatedAuthorizationState).

Record MFAChallenge := {
  mc_ID : string;
  mc_SubjectID : string;
  mc_ClientID : string;
  mc_CreatedAt : Z;
  mc_ExpiresAt : Z;
  mc_RequestState : frozen;
}.

Definition DefaultMFAChallengeTTL : Z := 5 * GoTime.Minute.
Definition new_challenge (now ttl : Z) (id subject clientID : string) (state : frozen) : MFAChallenge := {|
  mc_ID := id; mc_SubjectID := subject; mc_ClientID := clientID; mc_CreatedAt := now;
  mc_ExpiresAt := GoTime.Add now (if ttl <=? 0 then DefaultMFAChallengeTTL else ttl); mc_RequestState := state |}.

(** [MemoryMFAChallengeStore]: a put sweeps the expired, once a minute. *)
Record MemoryMFAChallengeStore := { mm_entries : gmap string MFAChallenge; mm_lastSweep : Z }.
Definition sweepInterval : Z := GoTime.Minute.
Definition NewMemoryMFAChallengeStore : MemoryMFAChallengeStore := {| mm_entries := ∅; mm_lastSweep := 0 |}.

Definition mfa_Put (now : Z) (c : MFAChallenge) (m : MemoryMFAChallengeStore) : bool * MemoryMFAChallengeStore :=
  if decide (mc_ID c = "") then (false, m)
  else
    let m := if sweepInterval <=? now - mm_lastSweep m
             then {| mm_entries := filter (fun kv => GoTime.Before (mc_ExpiresAt kv.2) now = false) (mm_entries m); mm_lastSweep := now |} else m in
    (true, {| mm_entries := <[mc_ID c := c]> (mm_entries m); mm_lastSweep := mm_lastSweep m |}).

(** Taking an entry out: it is gone even when it has expired. *)
Definition take_challenge (now : Z) (id : string) (m : gmap string MFAChallenge) : option MFAChallenge * gmap string MFAChallenge :=
  match m !! id with
  | None => (None, m)
  | Some c => (if 0 <? GoTime.Since now (mc_ExpiresAt c) then None else Some c, delete id m)
  end.

Definition mfa_Consume (now : Z) (id : string) (m : MemoryMFAChallengeStore) : option MFAChallenge * MemoryMFAChallengeStore :=
  if decide (id = "") then (None, m)
  else let '(c, es) := take_challenge now id (mm_entries m) in (c, {| mm_entries := es; mm_lastSweep := mm_lastSweep m |}).

(** [MemoryTransactionStore]. *)
Notation TransactionStore := (gmap string MFAChallenge).
Definition txn_Put (c : MFAChallenge) (m : TransactionStore) : bool * TransactionStore :=
  if decide (mc_ID c = "") then (false, m) else (true, <[mc_ID c := c]> m).
Definition txn_Consume (now : Z) (id : string) (m : TransactionStore) : option MFAChallenge * TransactionStore := take_challenge now id m.

(** ** Answers *)

(** What is written for a code: the JSON body, the form that posts it, or a signed
    response. *)
Inductive rendering := InBody | InForm | InJWT | InJWTForm.

Inductive Resp :=
| LError (status : Z) (code : string)
| LProviders
| LRedirect (location : string)
| LFederated (page client transaction : string)
| LMFARequired (id : string) (methods : list string) (data : gmap string (gmap string string))
| LConsentRequired (challenge : string) (transaction : option string)
| LCode (how : rendering) (code sid state : string) (device : option string)
| LToken (fields : body) (sid : string) (device : option string)
| LSilentRenewal (prompts : list string) (req : Request) (client : LoginClient).

(** What the audit log and the callers see. *)
Inductive levent :=
| LoginFailure (clientID provider code : string)
| CallbackFailure (provider code : string)
| LoginSuccess (clientID provider strategy userID sid : string)
| AccountLocked (clientID provider key : string)
| Vouched (provider clientID userID : string)
| Resumed (clientID userID : string)
| MFARequired (userID clientID id : string)
| MFAFailed (subject reason : string)
| MFASucceeded (subject clientID method : string)
| MFASkippedTrustedDevice (userID clientID : string)
| DeviceTrusted (userID clientID : string)
| ConsentDecided (granted : bool) (userID clientID : string).

(** ** The state *)

(** The stores are [None] when they are not wired.  The consent challenges always are. *)
Record LS (B X : Type) := {
  ls_front : Front B X;
  ls_clients : gmap string LoginClient;
  ls_codes : option MemoryAuthCodeStore;
  ls_par : option MemoryPARStore;
  ls_lockout : option MemoryAccountLockout;
  ls_users : option MemoryUserProvider;
  ls_consents : option ConsentStore;
  ls_challenges : ChallengeStore;
  ls_mfa : option MemoryMFAChallengeStore;
  ls_transactions : option TransactionStore;
  ls_secrets : option MemoryDeviceSecretStore;
  ls_log : list levent;
}.
Arguments ls_front {B X}. Arguments ls_clients {B X}. Arguments ls_codes {B X}. Arguments ls_par {B X}. Arguments ls_lockout {B X}.
Arguments ls_users {B X}. Arguments ls_consents {B X}. Arguments ls_challenges {B X}. Arguments ls_mfa {B X}. Arguments ls_transactions {B X}.
Arguments ls_secrets {B X}. Arguments ls_log {B X}. Arguments Build_LS {B X}.

(** ** Interfaces *)

(** [core.AuthRequest]. *)
Record AuthRequest := {
  aq_Provider : string;
  aq_Credential : option (gmap string string);
  aq_ClientID : string;
  aq_Scope : list string;
  aq_State : string;
  aq_LoginHint : string;
  aq_ACRValues : list string;
  aq_UILocales : list string;
  aq_RequestedClaims : string;
}.
(** [core.CallbackState]. *)
Record CallbackState := { cs_Code : string; cs_State : string; cs_ClientID : string; cs_Scope : list string }.

Inductive auth_error := CeremonySessionInvalid | AuthFailed.

(** [core.Authenticator], with [LockoutKeyer] when it is implemented. *)
Record Authenticator (X : Type) := {
  au_Name : string;
  au_Authenticate : AuthRequest -> X -> result auth_error Result * X;
  au_Callback : CallbackState -> X -> option Result * X;
  au_LoginURL : string -> string;
  au_LockoutIdentity : option (option (gmap string string) -> string);
}.
Arguments au_Name {X}. Arguments au_Authenticate {X}. Arguments au_Callback {X}. Arguments au_LoginURL {X}. Arguments au_LockoutIdentity {X}.

Inductive risk_decision := RiskAllow | RiskDeny | RiskRequireMFA.

(** [spi.MFAProvider], with [MFABeginner] when it is implemented; [core.TrustedDeviceStore]: a token that is good for a user and a
    client, [None] when the store fails. *)
Record MFAProvider (X : Type) := {
  mf_SupportedMethods : list string;
  mf_Begin : option (string -> string -> X -> option (gmap string string) * X);
  mf_Verify : string -> string -> gmap string string -> X -> bool * X;
}.
Arguments mf_SupportedMethods {X}. Arguments mf_Begin {X}. Arguments mf_Verify {X}.
Record TrustedDeviceStore (X : Type) := {
  td_Verify : string -> string -> string -> X -> option bool * X;
  td_Trust : string -> string -> X -> option string * X;
}.
Arguments td_Verify {X}. Arguments td_Trust {X}.

(** [deviceContext]: what a login reads of it: whether the device and the place are new,
    when known, and the score when it is positive. *)
Record DeviceContext := { dv_ID : string; dv_Security : option (bool * bool); dv_TrustScore : option float64 }.

#[local] Set Implicit Arguments.
(** What the server is configured with; [None] and [nil] are not wired. *)
Record LoginDeps (X : Type) := {
  ld_issuer : string;
  ld_corsPolicy : option (string -> bool);
  ld_oauth21Strict : bool;
  ld_maxScopeCount : Z;
  ld_rarLimits : RARLimits;
  ld_fapi : Fapi.Validator;
  ld_access : AccessDeps;
  ld_grants : Deps X;
  ld_authenticators : gmap string (Authenticator X);
  ld_connection : string -> X -> option (Authenticator X) * X;
  ld_jarFetcher : option (string -> X -> option string * X);
  ld_jweDecrypter : option (string -> option string);
  ld_replayFailClosed : bool;
  ld_riskScorer : option (Result -> Request -> X -> result () (option risk_decision) * X);
  ld_cap : X -> option (CondAccess.Config * option (list CondAccess.Policy));
  ld_signals : X -> Result -> Signals;
  ld_mfa : option (MFAProvider X);
  ld_trustedDevices : option (TrustedDeviceStore X);
  ld_preHook : option (Request -> X -> option (Z * string) * X);
  ld_postHook : option (Request -> LoginClient -> Result -> X -> result (Z * string) (gmap string string * bool) * X);
  ld_failedHook : Request -> string -> X -> X;
  ld_browserVerifier : option (string -> X -> result bool TokenClaims);
  ld_passwordMaxAgeDays : Z;
  ld_passwordChangedAt : option (X -> string -> option Z);
  ld_signupRequireVerification : bool;
  ld_tokenPolicies : X -> option (option (list TokenPolicy.Policy));
  ld_memberRole : option (X -> string -> string -> option string);
  ld_addMember : option (string -> string -> X -> X);
  ld_chargeSession : option (string -> X -> result bool () * X);
  ld_releaseSession : string -> X -> X;
  ld_activateSession : string -> string -> string -> X -> X;
  ld_registerDevice : option (string -> X -> option DeviceContext * X);
  ld_requireMFAForNewDevice : bool;
  ld_maxSessionsPerDevice : Z;
  ld_maxSessionsPerUser : Z;
  ld_initialTrust : option float64;
  ld_trustClaim : Result -> LoginClient -> X -> option (string * string) * X;
  ld_jarm : bool;
  ld_jarmSigner : LoginClient -> bool;
  ld_mfaChallengeTTL : Z;
  ld_loginTransactionTTL : Z;
  ld_consentMaxTTL : Z;
  ld_authCodeTTL : Z;
}.
#[local] Unset Implicit Arguments.

(** What a request brings: the HTTP request, the bound parameters ([None] when binding
    fails), the tenant and the region of the middleware, the cookie of the browser
    session, the deadline at each of its checks, and the values drawn for it. *)
Record Incoming := {
  hq_now : Z;
  hq_http : ResourceAccess.Request;
  hq_params : option Request;
  hq_tenant : option string;
  hq_region : string;
  hq_cookie : option string;
  hq_expired : nat -> bool;
  hq_ip : string;
  hq_ua : string;
  hq_stateID : option string;
  hq_mfaID : option string;
  hq_txnID : option string;
  hq_challengeID : string;
  hq_code : option string;
  hq_sessionID : string;
  hq_draws : Draws;
  hq_secret : option string;
}.

(** ** The monad *)

Definition Flow (S A : Type) : Type := M S (result Resp A).
Definition flow_ret {S A} (a : A) : Flow S A := fun s => (Ok a, s).
Definition flow_bind {S A B} (m : Flow S A) (k : A -> Flow S B) : Flow S B := fun s =>
  match m s with (Ok a, s) => k a s | (Err r, s) => (Err r, s) end.
(** The response is written. *)
Definition stop {S A} (r : Resp) : Flow S A := fun s => (Err r, s).
Definition fail_with {S A} (status : Z) (code : string) : Flow S A := stop (LError status code).
Definition get {S A} (f : S -> A) : Flow S A := fun s => (Ok (f s), s).
Definition run_op {S A} (m : M S A) : Flow S A := fun s => let '(a, s) := m s in (Ok a, s).
(** What a handler that always answers has answered. *)
Definition answer {S} (m : Flow S Resp) (s : S) : Resp * S := match m s with (Ok r, s) | (Err r, s) => (r, s) end.

Declare Scope flow_scope.
Delimit Scope flow_scope with flow.
Notation "'let*' x ':=' m 'in' k" := (flow_bind m (fun x => k)) (at level 200, x binder, m at level 100, k at level 200, right associativity) : flow_scope.

(** ** Changing one part of the state *)

Section state.
Context {B X : Type}.
Notation LS := (LS B X).
Implicit Types s : LS.

Definition set_front (v : Front B X) s : LS := Build_LS v (ls_clients s) (ls_codes s) (ls_par s) (ls_lockout s) (ls_users s) (ls_consents s) (ls_challenges s) (ls_mfa s) (ls_transactions s) (ls_secrets s) (ls_log s).
Definition set_codes (v : option MemoryAuthCodeStore) s : LS := Build_LS (ls_front s) (ls_clients s) v (ls_par s) (ls_lockout s) (ls_users s) (ls_consents s) (ls_challenges s) (ls_mfa s) (ls_transactions s) (ls_secrets s) (ls_log s).
Definition set_par (v : option MemoryPARStore) s : LS := Build_LS (ls_front s) (ls_clients s) (ls_codes s) v (ls_lockout s) (ls_users s) (ls_consents s) (ls_challenges s) (ls_mfa s) (ls_transactions s) (ls_secrets s) (ls_log s).
Definition set_lockout (v : option MemoryAccountLockout) s : LS := Build_LS (ls_front s) (ls_clients s) (ls_codes s) (ls_par s) v (ls_users s) (ls_consents s) (ls_challenges s) (ls_mfa s) (ls_transactions s) (ls_secrets s) (ls_log s).
Definition set_users (v : option MemoryUserProvider) s : LS := Build_LS (ls_front s) (ls_clients s) (ls_codes s) (ls_par s) (ls_lockout s) v (ls_consents s) (ls_challenges s) (ls_mfa s) (ls_transactions s) (ls_secrets s) (ls_log s).
Definition set_consents (v : option ConsentStore) (c : ChallengeStore) s : LS := Build_LS (ls_front s) (ls_clients s) (ls_codes s) (ls_par s) (ls_lockout s) (ls_users s) v c (ls_mfa s) (ls_transactions s) (ls_secrets s) (ls_log s).
Definition set_mfa (v : option MemoryMFAChallengeStore) s : LS := Build_LS (ls_front s) (ls_clients s) (ls_codes s) (ls_par s) (ls_lockout s) (ls_users s) (ls_consents s) (ls_challenges s) v (ls_transactions s) (ls_secrets s) (ls_log s).
Definition set_transactions (v : option TransactionStore) s : LS := Build_LS (ls_front s) (ls_clients s) (ls_codes s) (ls_par s) (ls_lockout s) (ls_users s) (ls_consents s) (ls_challenges s) (ls_mfa s) v (ls_secrets s) (ls_log s).
Definition set_secrets (v : option MemoryDeviceSecretStore) s : LS := Build_LS (ls_front s) (ls_clients s) (ls_codes s) (ls_par s) (ls_lockout s) (ls_users s) (ls_consents s) (ls_challenges s) (ls_mfa s) (ls_transactions s) v (ls_log s).
Definition add_event (e : levent) s : LS := Build_LS (ls_front s) (ls_clients s) (ls_codes s) (ls_par s) (ls_lockout s) (ls_users s) (ls_consents s) (ls_challenges s) (ls_mfa s) (ls_transactions s) (ls_secrets s) (ls_log s ++ [e]).

Definition log (e : levent) : Flow LS () := fun s => (Ok (), add_event e s).

(** An operation of the front, of the rest of the server, of a store that is wired. *)
Definition on_front {A} (m : M (Front B X) A) : Flow LS A := fun s => let '(a, v) := m (ls_front s) in (Ok a, set_front v s).
Definition on_x {A} (m : M X A) : Flow LS A := on_front (fun v => let '(a, x) := m (fr_issuers v) in (a, set_issuers x v)).
Definition on_store {T A} (read : LS -> option T) (write : option T -> LS -> LS) (absent : A) (m : M T A) : Flow LS A := fun s =>
  match read s with None => (Ok absent, s) | Some t => let '(a, t) := m t in (Ok a, write (Some t) s) end.

(** [recordLoginFailure] and the error response. *)
Definition reject {A} (clientID provider : string) (status : Z) (code : string) : Flow LS A :=
  flow_bind (log (LoginFailure clientID provider code)) (fun _ => fail_with status code).

Definition when (b : bool) (m : Flow LS ()) : Flow LS () := if b then m else flow_ret ().
End state.
