(* ===== verification/LoginGates.v ===== *)
(** * LoginGates: what a login must pass before it is finished
    ([interfaces/sso]: the prologue of [server_login.go] and [server_login_resolve.go],
    the resumption of a browser session of [server_userinfo.go] and
    [protocols/oidc/browsersso], the client gates and risk of [server_login_client.go],
    credentials and the gates after them of [server_login_auth.go], the start of a
    federated login of [origin_validation.go], the step-up challenge of
    [server_mfa.go]). *)
From S2P Require Import Prelude Crypto Core Float64 Resources Lifecycle Scopes RefreshStore CodeStores DeviceCodes CibaStore Lockout Issue RefreshIface GraceCache GrantCore MetadataPolicy Users Keyset AdminPaging Sessions TokenPolicy CondAccess PolicyGates JTIReplay Jwks Dpop TokenFront ResourceAccess UserInfo Fapi RedirectUri LoginRequest Consent LoginState.
Local Open Scope Z_scope.
Local Open Scope flow_scope.

Definition ErrInteractionRequired : string := "interaction_required".
Definition ErrLoginRequired : string := "login_required".
Definition ErrTemporarilyUnavailable : string := "temporarily_unavailable".
Definition ErrAuthHookRejected : string := "hook_rejected".
Definition ErrMissingClientID : string := "missing_client_id".
Definition ErrInvalidClient : string := "invalid_client".
Definition ErrInactiveClient : string := "inactive_client".
Definition ErrTenantMismatch : string := "tenant_mismatch".
Definition ErrAuthenticatorNotAllowed : string := "authenticator_not_allowed_for_client".
Definition ErrPasswordlessRequired : string := "passwordless_required".
Definition ErrUnsupportedProvider : string := "unsupported_provider".
Definition ErrInvalidCredentials : string := "invalid_credentials".
Definition ErrAccountLocked : string := "account_locked".
Definition ErrSessionInvalid : string := "session_invalid".
Definition ErrUnmetAuthReqs : string := "unmet_authentication_requirements".
Definition ErrRiskDenied : string := "risk_denied".
Definition ErrConditionalAccessDenied : string := "conditional_access_denied".
Definition ErrEmailNotVerified : string := "email_not_verified".
Definition ErrPasswordExpired : string := "password_expired".

Definition passwordProviderName : string := "password".
Definition AMRPassword : string := "pwd".

(** The parsers of the libraries the stages call: URLs, the JSON decoders, and the
    decoder the consent challenges compare details with. *)
Record Parsers (J : Type) := {
  pa_url_Parse : string -> option URL;
  pa_PathUnescape : string -> option string;
  pa_Unmarshal : string -> option json;
  pa_Tokens : string -> list json_token;
  pa_Details : string -> option (list string);
  pa_Typ : list Z -> option string;
  pa_JAR : list Z -> option jarPayload;
  pa_Raw : string -> option J;
}.
Arguments pa_url_Parse {J}. Arguments pa_PathUnescape {J}. Arguments pa_Unmarshal {J}. Arguments pa_Tokens {J}. Arguments pa_Details {J}.
Arguments pa_Typ {J}. Arguments pa_JAR {J}. Arguments pa_Raw {J}.

(** [federatedStateSeparator]; the provider is what comes before it. *)
Definition federatedStateSeparator : string := ":slf.".
Definition federatedProviderFromState (state : string) : option string :=
  match cut_word (Str.to_list federatedStateSeparator) (Str.to_list state) with
  | Some (provider, opaque) => if bool_decide (provider = []) || bool_decide (opaque = []) then None else Some (Str.of_list provider)
  | None => None
  end.

(** ** Browser sessions *)

Definition TokenUseBrowserSession : string := "browser_op_session".
Definition cookieAudience : string := "urn:snaplink:browser-op-session".
Definition cookiePurpose : string := "browser-op-session".

Definition validClaims (now : Z) (c : TokenClaims) (issuer : string) : bool :=
  bool_decide (tc_TokenUse c = TokenUseBrowserSession) && bool_decide (tc_Issuer c = issuer) && bool_decide (tc_Audience c = [cookieAudience]) &&
  bool_decide (tc_Extra c !! "purpose" = Some cookiePurpose) && negb (bool_decide (default "" (tc_Extra c !! "provider") = "")) &&
  negb (bool_decide (tc_Subject c = "")) && negb (bool_decide (tc_SID c = "")) && negb (GoTime.IsZero (tc_AuthTime c)) &&
  negb (GoTime.After (tc_AuthTime c) now) && GoTime.After (tc_ExpiresAt c) now.

(** [time.Since(t).Seconds() <= n] for whole seconds. *)
Definition Allows (now : Z) (prompt : string) (maxAge : option Z) (authTime : Z) : bool :=
  let values := Str.fields prompt in
  if contains values "login" || contains values "select_account" || (contains values "none" && negb (bool_decide (length values = 1%nat))) then false
  else match maxAge with None => true | Some n => (0 <? n) && (GoTime.Since now authTime <=? n * GoTime.Second) end.

Definition validBrowserResumeRequest (req : Request) : bool :=
  bool_decide (lr_RequestURI req = "") && bool_decide (lr_Request req = "") && bool_decide (lr_LoginTransactionID req = "") &&
  bool_decide (lr_Provider req = "") && bool_decide (default ∅ (lr_Credential req) = ∅) && bool_decide (lr_IDTokenHint req = "") &&
  bool_decide (lr_ResponseType req = "code") && match lr_MaxAge req with None => true | Some n => 0 <=? n end.

Definition browserLoginHintMatches (hint : string) (user : User) : bool :=
  bool_decide (hint = "") ||
  existsb (fun candidate => equalFold (Str.TrimSpace hint) (Str.TrimSpace candidate))
    [us_Email user; us_Username user; us_ExternalID user; default "" (us_Attributes user !! "email"); default "" (us_Attributes user !! "preferred_username")].

Section gates.
Context {B X J : Type} `{EqDecision J} (c : Primitives) (p : Parsers J) (d : LoginDeps X).
Notation LS := (LS B X).
Notation Flow A := (LoginState.Flow LS A).
Implicit Types (q : Incoming) (req : Request) (client : LoginClient) (r : Result).

Definition secure_redirect (uri : string) : bool := IsSecureRedirectURI (pa_url_Parse p) uri.
Definition redirect_valid (client : Client) (uri : string) : bool := IsRedirectURIValid (pa_url_Parse p) (pa_PathUnescape p) ToLower client uri.

(** ** The prologue *)

Definition rejectNonJSONLogin q : Flow () :=
  let ct := header (hq_http q) "Content-Type" in
  if negb (bool_decide (ct = "")) && negb (HasPrefix ct "application/json") then fail_with 415 ErrInvalidRequest else flow_ret ().

Definition rejectDisallowedLoginOrigin q : Flow () :=
  let origin := header (hq_http q) "Origin" in
  match ld_corsPolicy d with
  | None => flow_ret ()
  | Some allowed => if bool_decide (origin = "") || allowed origin then flow_ret () else fail_with 403 ErrInvalidRequest
  end.

(** The [k]-th look at the deadline. *)
Definition checkLoginDeadline q (k : nat) : Flow () := if hq_expired q k then fail_with 504 ErrInteractionRequired else flow_ret ().

Definition of_refusal {A} (out : result refusal A) : Flow A := match out with Ok a => flow_ret a | Err (status, code) => fail_with status code end.

Definition resolveLoginRequest q req : Flow Request :=
  if decide (lr_RequestURI req = "") then flow_ret req
  else if IsJARFetchableURI (lr_RequestURI req) then
    let* clients := get ls_clients in
    let* out := on_x (fetchJARRequestURI (ld_jarFetcher d) clients req) in of_refusal out
  else fun s => let '(out, par) := consumePARRequest (hq_now q) req (ls_par s) in of_refusal out (set_par par s).

(** The session of the cookie, if the browser still has one; an error is an outage. *)
Definition Resolve q : Flow (result () (option Result)) :=
  let* front := get ls_front in
  flow_ret match hq_cookie q, fr_sessions front, ld_browserVerifier d with
  | Some cookie, Some sessions, Some verify =>
      match verify cookie (fr_issuers front) with
      | Err rejected => if (rejected : bool) then Ok None else Err ()
      | Ok claims =>
          if negb (validClaims (hq_now q) claims (ld_issuer d)) then Ok None
          else match Get (hq_now q) (tc_SID claims) sessions with
               | Err _ => Ok None
               | Ok live =>
                   if se_Revoked live || Session_IsExpired (hq_now q) live || se_StepUpRequired live || negb (bool_decide (se_UserID live = tc_Subject claims)) then Ok None
                   else Ok (Some {|
                     re_UserID := tc_Subject claims; re_ExternalID := ""; re_Provider := default "" (tc_Extra claims !! "provider"); re_Attributes := None;
                     re_AuthMethods := tc_AMR claims; re_AuthTime := tc_AuthTime claims; re_SessionID := ""; re_CreateSession := true;
                     re_AchievedACR := tc_ACR claims; re_Roles := [] |})
               end
      end
  | _, _, _ => Ok None
  end.

(** The request with the provider of the session, and what was saved for later. *)
Definition prepareBrowserResume q req : Flow (Request * option Result) :=
  if negb (lr_ResumeSession req) then flow_ret (req, None)
  else if negb (validBrowserResumeRequest req) then fail_with 400 ErrInvalidRequest
  else match ld_browserVerifier d with
       | None => fail_with 400 ErrLoginRequired
       | Some _ =>
           let values := Str.fields (lr_Prompt req) in
           if contains values "none" && negb (bool_decide (length values = 1%nat)) then fail_with 400 ErrInvalidRequest
           else
             let* resolved := Resolve q in
             match resolved with
             | Err _ => fail_with 503 ErrTemporarilyUnavailable
             | Ok None => fail_with 400 ErrLoginRequired
             | Ok (Some r) =>
                 if Allows (hq_now q) (lr_Prompt req) (lr_MaxAge req) (re_AuthTime r)
                 then let* _ := log (Resumed (lr_ClientID req) (re_UserID r)) in flow_ret (set_request_provider (re_Provider r) req, Some r)
                 else fail_with 400 ErrLoginRequired
             end
       end.

Definition bootstrapLoginRequest q : Flow (Request * option Result) :=
  match hq_params q with
  | None => fail_with 400 ErrInvalidRequest
  | Some req =>
      let* rr := prepareBrowserResume q req in
      let* req := resolveLoginRequest q rr.1 in
      flow_ret (req, rr.2)
  end.

Definition rejectAuthHook {A} req (e : Z * string) : Flow A :=
  let* _ := log (LoginFailure (lr_ClientID req) (lr_Provider req) e.2) in
  let* _ := on_x (fun x => ((), ld_failedHook d req e.2 x)) in fail_with e.1 e.2.

Definition runPreAuthenticateHook req : Flow () :=
  match ld_preHook d with
  | None => flow_ret ()
  | Some hook => let* e := on_x (hook req) in match e with None => flow_ret () | Some e => rejectAuthHook req e end
  end.

(** The result with what the hook added, and whether it waives the second factor. *)
Definition runPostAuthenticateHook req client r : Flow (Result * bool) :=
  match ld_postHook d with
  | None => flow_ret (r, false)
  | Some hook =>
      let* out := on_x (hook req client r) in
      match out with
      | Err e => rejectAuthHook req e
      | Ok (additions, skip) =>
          flow_ret (if decide (additions = ∅) then r else set_attributes (Some (additions ∪ default ∅ (re_Attributes r))) r, skip)
      end
  end.

(** ** The client *)

Definition find_client (id : string) : Flow (option LoginClient) := get (fun s : LS => ls_clients s !! id).

Definition clientTenantOK q (client : Client) : bool :=
  if decide (cl_TenantID client = "") then true
  else match hq_tenant q with None => true | Some t => bool_decide (t = cl_TenantID client) end.

Definition residencyGateLogin q (clientID provider tenantID : string) : Flow () :=
  if decide (hq_region q = "") then flow_ret ()
  else
    let* denied := on_front (checkTenantResidency (fd_tenantResidency (ac_front (ld_access d))) (hq_now q) tenantID (hq_region q) true) in
    match denied with Some code => reject clientID provider 403 code | None => flow_ret () end.

Definition IsAuthenticatorAllowed (client : Client) (name : string) : bool :=
  bool_decide (cl_AllowedAuthenticators client = []) || contains (cl_AllowedAuthenticators client) name.

Definition resolveAndValidateLoginClient q req : Flow LoginClient :=
  let no {A} := @reject B X A (lr_ClientID req) (lr_Provider req) in
  if decide (lr_ClientID req = "") then fail_with 400 ErrMissingClientID
  else
    let* found := find_client (lr_ClientID req) in
    match found with
    | None => no 401 ErrInvalidClient
    | Some client =>
        if negb (cl_Active client) then no 403 ErrInactiveClient
        else if negb (clientTenantOK q client) then no 403 ErrTenantMismatch
        else
          let* _ := residencyGateLogin q (lr_ClientID req) (lr_Provider req) (cl_TenantID client) in
          if lc_RequirePAR client && negb (loginUsedPAR req) then no 400 ErrInvalidRequest
          else if lc_RequireSignedRequestObject client && bool_decide (lr_Request req = "") then no 400 ErrInvalidRequest
          else if negb (IsAuthenticatorAllowed client (lr_Provider req)) then no 403 ErrAuthenticatorNotAllowed
          else if lc_AllowPasswordlessOnly client && bool_decide (lr_Provider req = passwordProviderName) then no 400 ErrPasswordlessRequired
          else flow_ret client
    end.

(** ** The effective request *)

Definition apply_object q req client : Flow Request := fun s =>
  let '(out, replay) := applyRequestObject (pr_ed25519 c) (pr_ecdsa c) (pr_pkcs1 c) (pr_pss c) (pr_header c) (pa_Typ p) (pa_JAR p) (ld_jweDecrypter d)
                        (ld_issuer d) (ld_replayFailClosed d) (hq_now q) req client (fr_replay (ls_front s)) in
  let s := set_front (set_replay replay (ls_front s)) s in
  match out with Ok req => flow_ret req s | Err (status, code) => reject (lr_ClientID req) (lr_Provider req) status code s end.

Definition enforceFAPIAuthorizationLogin req : Flow () :=
  match CheckAuthorization (ld_fapi d) (fapi_context req) with
  | [] => flow_ret ()
  | _ => if Enforcing (ld_fapi d) then reject (lr_ClientID req) (lr_Provider req) 400 ErrInvalidRequest else flow_ret ()
  end.

Definition runPostMergeAuthzValidation q req client : Flow Request :=
  let* req := apply_object q req client in
  let* _ := enforceFAPIAuthorizationLogin req in
  match validateLoginAuthorizationParams (pa_Unmarshal p) (pa_Tokens p) (pa_Details p) (ld_maxScopeCount d) (ld_rarLimits d) req client with
  | None => flow_ret req
  | Some (status, code) => reject (lr_ClientID req) (lr_Provider req) status code
  end.

Definition preAuthLoginGates q req : Flow (LoginClient * Request) :=
  if decide (lr_Provider req = "") then stop LProviders
  else
    let* _ := checkLoginDeadline q 2 in
    let* client := resolveAndValidateLoginClient q req in
    let* _ := checkLoginDeadline q 3 in
    let* req := runPostMergeAuthzValidation q req client in
    let* _ := checkLoginDeadline q 4 in
    flow_ret (client, req).

(** ** Credentials *)

Definition validFederatedLoginPage (raw : string) : bool :=
  match pa_url_Parse p raw with
  | None => false
  | Some u => negb (bool_decide (u_Scheme u = "")) && negb (bool_decide (u_Host u = "")) && negb (u_User u) && secure_redirect raw
  end.

(** Whether a redirect was answered; the request is frozen under the state sent along. *)
Definition beginFederatedLogin q req client (auth : Authenticator X) : Flow () :=
  match hq_stateID q with
  | None => fail_with 500 ErrInternal
  | Some id =>
      let wireState := lr_Provider req +:+ federatedStateSeparator +:+ id in
      let location := au_LoginURL auth wireState in
      if decide (location = "") then flow_ret ()
      else
        let* wired := get (fun s : LS => bool_decide (is_Some (ls_transactions s))) in
        if negb (validFederatedLoginPage (cl_LoginPageURI client)) || negb wired then fail_with 400 ErrInvalidRequest
        else
          let clean := set_restriction None (set_consent "" "" (without_transaction (without_secrets req))) in
          let* stored := on_store ls_transactions set_transactions false
            (txn_Put (new_challenge (hq_now q) (ld_loginTransactionTTL d) wireState (lr_Provider req) (cl_ID client)
                        (FrozenFederated {| fs_Request := clean; fs_Provider := lr_Provider req |}))) in
          if (stored : bool) then stop (LRedirect location) else fail_with 500 ErrInternal
  end.

Definition lockoutKey (auth : Authenticator X) (clientID : string) (cred : option (gmap string string)) : string :=
  match au_LockoutIdentity auth with
  | Some identity => let id := identity cred in if decide (id = "") then "" else clientID +:+ ":" +:+ id
  | None => LockoutKey clientID cred
  end.

(** The counters of the lockout; without one nothing is locked. *)
Definition lockout_locked q (key : string) : Flow bool :=
  if decide (key = "") then flow_ret false
  else on_store ls_lockout set_lockout false (fun m => let '((locked, _), m) := IsLocked (hq_now q) key m in (locked, m)).
Definition lockout_failure q (key : string) : Flow bool :=
  if decide (key = "") then flow_ret false
  else on_store ls_lockout set_lockout false (fun m => let '((locked, _), m) := RegisterFailure (hq_now q) key m in (locked, m)).
Definition lockout_success (key : string) : Flow () :=
  if decide (key = "") then flow_ret () else on_store ls_lockout set_lockout () (fun m => ((), RegisterSuccess key m)).

Definition lookup_user (userID : string) : Flow (option (result user_error User)) :=
  get (fun s : LS => GetByID userID <$> ls_users s).

(** A user the directory has as inactive, or the lifecycle blocks. *)
Definition rejectDeactivatedUser req (userID : string) : Flow () :=
  let* found := lookup_user userID in
  let* front := get ls_front in
  if match found with Some (Ok u) => negb (IsActive u) | _ => false end then reject (lr_ClientID req) (lr_Provider req) 403 ErrAccountLocked
  else if lifecycleAuthentication front userID then flow_ret () else reject (lr_ClientID req) (lr_Provider req) 403 ErrAccountLocked.

Definition account_locked {A} req (key : string) : Flow A :=
  let* _ := log (AccountLocked (lr_ClientID req) (lr_Provider req) key) in fail_with 403 ErrAccountLocked.

Definition handleAuthFailure {A} q req (key : string) (e : auth_error) : Flow A :=
  let* locked := lockout_failure q key in
  let* _ := on_x (fun x => ((), ld_failedHook d req ErrInvalidCredentials x)) in
  if (locked : bool) then account_locked req key
  else match e with
       | CeremonySessionInvalid => reject (lr_ClientID req) (lr_Provider req) 404 ErrSessionInvalid
       | AuthFailed => reject (lr_ClientID req) (lr_Provider req) 401 ErrInvalidCredentials
       end.

Definition auth_request req : AuthRequest := {|
  aq_Provider := lr_Provider req; aq_Credential := lr_Credential req; aq_ClientID := lr_ClientID req; aq_Scope := lr_Scope req;
  aq_State := lr_State req; aq_LoginHint := lr_LoginHint req; aq_ACRValues := SplitScope (lr_ACRValues req);
  aq_UILocales := SplitScope (lr_UILocales req); aq_RequestedClaims := lr_Claims req |}.

(** A registered name first, then an enterprise connection. *)
Definition find_authenticator (provider : string) : Flow (option (Authenticator X)) :=
  match ld_authenticators d !! provider with Some auth => flow_ret (Some auth) | None => on_x (ld_connection d provider) end.

Definition authenticateUser q req client : Flow Result :=
  let* auth := find_authenticator (lr_Provider req) in
  match auth with
  | None => fail_with 400 ErrUnsupportedProvider
  | Some auth =>
      let* _ := beginFederatedLogin q req client auth in
      let key := lockoutKey auth (lr_ClientID req) (lr_Credential req) in
      let* locked := lockout_locked q key in
      if (locked : bool) then account_locked req key
      else
        let* out := on_x (au_Authenticate auth (auth_request req)) in
        match out with
        | Err e => handleAuthFailure q req key e
        | Ok r =>
            let* _ := log (Vouched (lr_Provider req) (cl_ID client) (re_UserID r)) in
            let* _ := rejectDeactivatedUser req (re_UserID r) in
            let* _ := lockout_success key in
            flow_ret r
        end
  end.

(** The session the browser resumes, for a user who is still there. *)
Definition authenticateBrowserUser req (saved : option Result) : Flow Result :=
  let* wired := get ls_users in
  match saved, wired with
  | Some r, Some users =>
      match GetByID (re_UserID r) users with
      | Err _ => fail_with 400 ErrLoginRequired
      | Ok user =>
          if negb (browserLoginHintMatches (lr_LoginHint req) user) then fail_with 400 ErrLoginRequired
          else
            let* auth := find_authenticator (re_Provider r) in
            if bool_decide (is_Some (const () <$> auth)) then
            let* _ := rejectDeactivatedUser req (re_UserID r) in
            flow_ret {| re_UserID := re_UserID r; re_ExternalID := us_ExternalID user; re_Provider := re_Provider r;
                        re_Attributes := Some (us_Attributes user); re_AuthMethods := re_AuthMethods r; re_AuthTime := re_AuthTime r;
                        re_SessionID := re_SessionID r; re_CreateSession := re_CreateSession r; re_AchievedACR := re_AchievedACR r; re_Roles := re_Roles r |}
            else fail_with 400 ErrLoginRequired
      end
  | _, _ => fail_with 400 ErrLoginRequired
  end.

Definition authenticateCredentialOrSession q req client (saved : option Result) : Flow Result :=
  if lr_ResumeSession req then authenticateBrowserUser req saved else authenticateUser q req client.

(** ** The step-up challenge *)

Definition frozen_result (r : Result) : Result := set_roles [] r.

Definition persistMFAChallenge q r req client : Flow string :=
  match hq_mfaID q with
  | None => fail_with 500 ErrInternal
  | Some id =>
      let state := {| rs_Result := Some (frozen_result r); rs_Request := without_secrets req; rs_AuthenticationComplete := false;
                      rs_TrustDevice := false; rs_FederatedReturn := false; rs_FederatedError := "" |} in
      let* stored := on_store ls_mfa set_mfa false
        (mfa_Put (hq_now q) (new_challenge (hq_now q) (ld_mfaChallengeTTL d) id (re_UserID r) (cl_ID client) (FrozenLogin state))) in
      if (stored : bool) then flow_ret id else fail_with 500 ErrInternal
  end.

(** What the factors that need it begin with; one that fails has no data. *)
Definition begin_factors (provider : MFAProvider X) (userID : string) : M X (gmap string (gmap string string)) := fun x =>
  match mf_Begin provider with
  | None => (∅, x)
  | Some start =>
      foldl (fun '(out, x) method => let '(data, x) := start userID method x in
               (match data with Some kv => if decide (kv = ∅) then out else <[method := kv]> out | None => out end, x))
            (∅, x) (mf_SupportedMethods provider)
  end.

Definition issueMFAChallenge {A} q r req client (provider : MFAProvider X) : Flow A :=
  let* id := persistMFAChallenge q r req client in
  let* _ := log (MFARequired (re_UserID r) (cl_ID client) id) in
  let* data := on_x (begin_factors provider (re_UserID r)) in
  stop (LMFARequired id (mf_SupportedMethods provider) data).

(** The provider and the store of the second factor, when both are wired. *)
Definition mfa_wired : Flow (option (MFAProvider X)) :=
  get (fun s : LS => match ls_mfa s with Some _ => ld_mfa d | None => None end).

Definition trustedDeviceAllowsSkip (userID clientID token : string) : Flow bool :=
  match ld_trustedDevices d with
  | None => flow_ret false
  | Some store =>
      if decide (token = "") then flow_ret false
      else
        let* ok := on_x (td_Verify store userID clientID token) in
        match ok with
        | Some true => let* _ := log (MFASkippedTrustedDevice userID clientID) in flow_ret true
        | _ => flow_ret false
        end
  end.

(** ** The gates after the credential *)

Definition has_mfa (r : Result) : bool := authenticationHasMFA (gate_result r).

Definition enforceLoginACR req r : Flow () :=
  let acrs := SplitScope (lr_ACRValues req) ++ (if decide (lr_Claims req = "") then [] else RequestedACRFromClaims (pa_Unmarshal p) (lr_Claims req)) in
  if negb (bool_decide (acrs = [])) && negb (contains acrs (re_AchievedACR r)) then reject (lr_ClientID req) (lr_Provider req) 400 ErrUnmetAuthReqs
  else flow_ret ().

(** A scorer that fails, or has no opinion, lets the login go on. *)
Definition evaluateLoginRisk q (skip : bool) r req client : Flow () :=
  match ld_riskScorer d with
  | None => flow_ret ()
  | Some score =>
      let* assessment := on_x (score r req) in
      match assessment with
      | Ok (Some RiskDeny) => reject (lr_ClientID req) (lr_Provider req) 403 ErrRiskDenied
      | Ok (Some RiskRequireMFA) =>
          let* wired := mfa_wired in
          match wired with
          | None => flow_ret ()
          | Some provider =>
              if has_mfa r || skip then flow_ret ()
              else
                let* trusted := trustedDeviceAllowsSkip (re_UserID r) (lr_ClientID req) (lr_DeviceToken req) in
                if (trusted : bool) then flow_ret () else issueMFAChallenge q r req client provider
          end
      | _ => flow_ret ()
      end
  end.

Definition session_reader q (v : Front B X) : option SessionReader :=
  (fun m => {| sr_Get := fun id => match Get (hq_now q) id m with Ok s => Some s | Err _ => None end;
               sr_ListByUser := fun u => Some (ListByUser (hq_now q) u m) |}) <$> fr_sessions v.

(** The request with the scopes the policies leave. *)
Definition conditional_access q (skip : bool) r req client : Flow Request :=
  let* front := get ls_front in
  let* wired := mfa_wired in
  match enforceConditionalAccessLogin (session_reader q front) (ld_signals d (fr_issuers front) r) (hq_now q) (ld_cap d (fr_issuers front))
          (bool_decide (is_Some (const () <$> wired))) skip (gate_result r) (lr_Scope req) (lr_PolicyScopeRestriction req) client with
  | Proceed restriction => flow_ret (set_restriction restriction req)
  | LoginDenied => reject (lr_ClientID req) (lr_Provider req) 403 ErrConditionalAccessDenied
  | PolicyGates.MFAChallenge restriction =>
      match wired with
      | Some provider => issueMFAChallenge q r (set_restriction restriction req) client provider
      | None => reject (lr_ClientID req) (lr_Provider req) 403 ErrConditionalAccessDenied
      end
  end.

Definition rejectUnverifiedEmail req r : Flow () :=
  if negb (ld_signupRequireVerification d) then flow_ret ()
  else
    let* found := lookup_user (re_UserID r) in
    match found with
    | None => flow_ret ()
    | Some (Ok u) => if decide (us_Attributes u !! "email_verified" = Some "true") then flow_ret () else reject (lr_ClientID req) (lr_Provider req) 403 ErrEmailNotVerified
    | Some (Err _) => reject (lr_ClientID req) (lr_Provider req) 403 ErrEmailNotVerified
    end.

Definition rejectExpiredPassword q req r : Flow () :=
  if (ld_passwordMaxAgeDays d <=? 0) || negb (contains (re_AuthMethods r) AMRPassword) then flow_ret ()
  else match ld_passwordChangedAt d with
       | None => flow_ret ()
       | Some changedAt =>
           let* at' := get (fun s : LS => changedAt (fr_issuers (ls_front s)) (re_UserID r)) in
           match at' with
           | None => flow_ret ()
           | Some t =>
               if GoTime.Since (hq_now q) t <? wrap64 (wrap64 (ld_passwordMaxAgeDays d * 24) * GoTime.Hour) then flow_ret ()
               else reject (lr_ClientID req) (lr_Provider req) 403 ErrPasswordExpired
           end
       end.

(** Risk, conditional access, e-mail and password age: what both legs of a login run. *)
Definition residual_gates q (skip : bool) req r client : Flow Request :=
  let* _ := evaluateLoginRisk q skip r req client in
  let* req := conditional_access q skip r req client in
  let* _ := rejectUnverifiedEmail req r in
  let* _ := rejectExpiredPassword q req r in
  flow_ret req.

(** [max_age] is met by fresh credentials. *)
Definition runPostCredentialGates q (skip : bool) req r client : Flow Request :=
  let* _ := enforceLoginACR req r in residual_gates q skip req r client.

Definition credentialLoginStage q req client (saved : option Result) : Flow (Result * bool * Request) :=
  let* r := authenticateCredentialOrSession q req client saved in
  let* _ := checkLoginDeadline q 5 in
  let* rs := runPostAuthenticateHook req client r in
  let* req := runPostCredentialGates q rs.2 req rs.1 client in
  let* _ := checkLoginDeadline q 6 in
  flow_ret (rs, req).
End gates.
