(* ===== verification/LoginFinish.v ===== *)
(** * LoginFinish: what an authenticated login is answered with
    ([interfaces/sso]: [finishLogin] and its branches of [server_finish_login.go], the
    user record of [server_login.go] and the preferences of [server_userinfo.go], the
    session of [server_logout.go] and [server_login_auth.go], the code of
    [server_login_auth.go] and [server_oauth.go]).

    The code flow ends in an authorization code, the direct one in tokens.  The login
    history, the session hub and the notices of the page are not modelled. *)
From S2P Require Import Prelude Crypto Core Float64 Resources Lifecycle Scopes Sharded RefreshStore CodeStores DeviceCodes CibaStore Lockout Issue RefreshIface GraceCache GrantCore MetadataPolicy AuthCodeGrant ExchangeDeps Users Keyset AdminPaging Sessions TokenPolicy CondAccess PolicyGates JTIReplay Jwks Dpop TokenFront ResourceAccess UserInfo Fapi RedirectUri LoginRequest Consent LoginState LoginGates.
Local Open Scope Z_scope.
Local Open Scope flow_scope.

Definition ErrUnsupportedResponseType : string := "unsupported_response_type".
Definition ErrInvalidRedirectURI : string := "invalid_redirect_uri".
Definition ErrPKCERequired : string := "pkce_required".
Definition ErrInvalidPKCEMethod : string := "invalid_pkce_method".
Definition ErrSessionMgrNotConfigured : string := "session_manager_not_configured".
Definition ErrQuotaExceededCode : string := "quota_exceeded".
Definition ErrInvalidDPoPProof : string := "invalid_dpop_proof".
Definition KeySessionID : string := "session_id".
Definition PreferenceThemeModeKey : string := "theme_mode".
Definition LegacyThemeModePreferenceKey : string := "sverp:theme_mode".

(** ** Preferences of the page *)

Definition is_alpha (a : ascii) : bool := contains (Str.to_list "abcdefghijklmnopqrstuvwxyzABCDEFGHIJKLMNOPQRSTUVWXYZ") a.
Definition is_alnum (a : ascii) : bool := is_alpha a || contains (Str.to_list "0123456789") a.

Fixpoint split_dash (l acc : list ascii) : list (list ascii) :=
  match l with
  | [] => [acc]
  | a :: l => if decide (a = "-"%char) then acc :: split_dash l [] else split_dash l (acc ++ [a])
  end.

(** [loginPresentationLocalePattern]: a language of two or three letters, then parts of
    two to eight letters or digits. *)
Definition validPresentationLocale (value : string) : bool :=
  (Str.len value <=? 32) &&
  match split_dash (Str.to_list value) [] with
  | lang :: rest =>
      (2 <=? length lang)%nat && (length lang <=? 3)%nat && forallb is_alpha lang &&
      forallb (fun part => (2 <=? length part)%nat && (length part <=? 8)%nat && forallb is_alnum part) rest
  | [] => false
  end.

Definition validStoredThemeMode (value : string) : bool := contains ["light"; "dark"; "auto"] value.

Definition storedThemeMode (attributes : gmap string string) : string :=
  let generic := Str.TrimSpace (default "" (attributes !! PreferenceThemeModeKey)) in
  let legacy := Str.TrimSpace (default "" (attributes !! LegacyThemeModePreferenceKey)) in
  if validStoredThemeMode generic && validStoredThemeMode legacy && negb (bool_decide (generic = legacy)) then ""
  else if validStoredThemeMode generic then generic
  else if validStoredThemeMode legacy then legacy
  else "".

Definition mergeStoredPresentationPreferences (current stored : gmap string string) : gmap string string :=
  let locale := Str.TrimSpace (default "" (stored !! "locale")) in
  let merged := if validPresentationLocale locale then <["locale" := locale]> current else current in
  let theme := storedThemeMode stored in
  if decide (theme = "") then merged else <[LegacyThemeModePreferenceKey := theme]> (<[PreferenceThemeModeKey := theme]> merged).

Definition validLoginPresentationPreferences (req : Request) : gmap string string :=
  let locale := Str.TrimSpace (lr_PresentationLocale req) in
  let theme := Str.TrimSpace (lr_PresentationThemeMode req) in
  let prefs : gmap string string := if validPresentationLocale locale then {["locale" := locale]} else ∅ in
  if validStoredThemeMode theme then <[LegacyThemeModePreferenceKey := theme]> prefs else prefs.

(** The attributes with the preferences; the theme goes under both its keys. *)
Definition mergeLoginPresentationPreferences (attributes preferences : gmap string string) : gmap string string :=
  let both := match preferences !! LegacyThemeModePreferenceKey with Some theme => <[PreferenceThemeModeKey := theme]> preferences | None => preferences end in
  both ∪ attributes.

Definition with_attributes (attrs : gmap string string) (u : User) : User := {|
  us_ID := us_ID u; us_ExternalID := us_ExternalID u; us_Provider := us_Provider u; us_Email := us_Email u; us_Username := us_Username u;
  us_Name := us_Name u; us_DisplayName := us_DisplayName u; us_Attributes := attrs; us_CreatedAt := us_CreatedAt u; us_UpdatedAt := us_UpdatedAt u |}.

(** ** Response modes *)

Definition IsJARMResponseMode (mode : string) : bool := contains ["jwt"; "query.jwt"; "fragment.jwt"; "form_post.jwt"] mode.
Definition IsValidResponseMode (mode : string) : bool := contains ["query"; "fragment"; "form_post"] mode.

Definition deviceAwareTTL (clientTTL : Z) (dc : option DeviceContext) (minTTL : Z) : Z :=
  match dc ≫= dv_Security with
  | Some (new_device, new_place) =>
      if (clientTTL <=? 0) || negb (new_device || new_place) then clientTTL
      else let ttl := if (0 <? minTTL) && (GoTime.Hour <? minTTL) then minTTL else GoTime.Hour in
           if ttl <? clientTTL then ttl else clientTTL
  | None => clientTTL
  end.

(** The method defaults to plain. *)
Definition validatePKCEForCode (req : Request) (client : LoginClient) (oauth21Strict : bool) : result string Request :=
  if decide (lr_CodeChallenge req = "") then
    if cl_RequirePKCE client || oauth21Strict then Err ErrPKCERequired else Ok req
  else
    let l := Str.len (lr_CodeChallenge req) in
    if (l <? PKCEVerifierMinLen) || (PKCEVerifierMaxLen <? l) then Err ErrInvalidRequest
    else if negb (IsValidPKCEMethod (lr_CodeChallengeMethod req)) then Err ErrInvalidPKCEMethod
    else
      let req := if decide (lr_CodeChallengeMethod req = "") then set_challenge_method PKCEMethodPlain req else req in
      if oauth21Strict && negb (bool_decide (lr_CodeChallengeMethod req = PKCEMethodS256)) then Err ErrInvalidPKCEMethod
      else if negb (IsPKCEMethodAllowedForClient (lr_CodeChallengeMethod req) (lc_AllowedPKCEMethods client)) then Err ErrInvalidPKCEMethod
      else Ok req.

(** The earliest session, the first of several. *)
Definition oldestSession (sessions : list Session) : option Session :=
  foldl (fun oldest s => match oldest with None => Some s | Some o => if GoTime.Before (se_CreatedAt s) (se_CreatedAt o) then Some s else Some o end) None sessions.

Inductive create_error := errMaxActiveSessions | SessionFailed.

Section finish.
Context {B X J : Type} `{EqDecision J} (c : Primitives) (p : Parsers J) (d : LoginDeps X).
Notation LS := (LS B X).
Notation Flow A := (LoginState.Flow LS A).
Implicit Types (q : Incoming) (req : Request) (client : LoginClient) (r : Result).

(** ** The user *)

(** The record of the user is replaced by what the authenticator said, with the stored
    attributes when it said nothing of them. *)
Definition upsertLoginUser r : Flow Result := fun s =>
  match ls_users s with
  | None => (Ok r, s)
  | Some users =>
      let attrs := match GetByID (re_UserID r) users with
                   | Ok existing => Some (match re_Attributes r with None => us_Attributes existing | Some a => mergeStoredPresentationPreferences a (us_Attributes existing) end)
                   | Err _ => re_Attributes r
                   end in
      let r := set_attributes attrs r in
      let user := {| us_ID := re_UserID r; us_ExternalID := re_ExternalID r; us_Provider := re_Provider r; us_Email := ""; us_Username := ""; us_Name := "";
                     us_DisplayName := ""; us_Attributes := default ∅ attrs; us_CreatedAt := 0; us_UpdatedAt := 0 |} in
      match CreateOrUpdate user users with
      | (Ok _, users) => (Ok r, set_users (Some users) s)
      | (Err _, users) => fail_with 500 ErrInternal (set_users (Some users) s)
      end
  end.

Definition applyLoginPresentationPreferences r req : Flow () := fun s =>
  let prefs := validLoginPresentationPreferences req in
  match ls_users s with
  | None => (Ok (), s)
  | Some users =>
      match GetByID (re_UserID r) users with
      | Err _ => (Ok (), s)
      | Ok user =>
          let attrs := mergeLoginPresentationPreferences (us_Attributes user) prefs in
          if decide (attrs = us_Attributes user) then (Ok (), s)
          else (Ok (), set_users (Some (CreateOrUpdate (with_attributes attrs user) users).2) s)
      end
  end.

(** ** Scopes and consent *)

Definition isValidResponseMode (mode : string) : bool := IsValidResponseMode mode || (ld_jarm d && IsJARMResponseMode mode).

Definition validateAndAuthorizeScope req client : Flow (list string) :=
  if ld_oauth21Strict d && negb (bool_decide (lr_ResponseType req = "code")) then fail_with 400 ErrUnsupportedResponseType
  else if negb (bool_decide (lr_ResponseMode req = "")) && negb (isValidResponseMode (lr_ResponseMode req)) then fail_with 400 ErrInvalidRequest
  else match GrantedScopes (lr_Scope req) (Some (lc_client client)) with
       | Err _ => reject (lr_ClientID req) (lr_Provider req) 400 ErrInvalidScope
       | Ok granted =>
           let restricted := restrictGrantedScopes granted (lr_PolicyScopeRestriction req) in
           if policyScopeRemovedAll granted restricted (lr_PolicyScopeRestriction req) then reject (lr_ClientID req) (lr_Provider req) 400 ErrInvalidScope
           else flow_ret restricted
       end.

(** [ask] answers with the question; without a consent store nobody is asked. *)
Definition consent_gate (ask : string -> Flow ()) q r req client : Flow () := fun s =>
  match ls_consents s with
  | None => (Ok (), s)
  | Some grants =>
      let '(question, (grants, challenges)) :=
        handleConsentGate (pa_Raw p) (ld_consentMaxTTL d) (hq_now q) (hq_challengeID q) (re_UserID r) client (lr_Scope req) (lr_Prompt req)
          (lr_ConsentChallengeID req) (lr_AuthorizationDetails req) (grants, ls_challenges s) in
      let s := set_consents (Some grants) challenges s in
      match question with None => (Ok (), s) | Some id => ask id s end
  end.

Definition ensureJITMembership r client : Flow () :=
  match ld_addMember d, ld_memberRole d with
  | Some add, Some role =>
      if decide (cl_TenantID client = "") then flow_ret ()
      else on_x (fun x => ((), if decide (is_Some (role x (cl_TenantID client) (re_UserID r))) then x else add (cl_TenantID client) (re_UserID r) x))
  | _, _ => flow_ret ()
  end.

(** ** Sessions *)

Definition on_sessions {A} (absent : A) (m : M MemorySessionManager A) : Flow A :=
  on_front (fun v => match fr_sessions v with
                     | None => (absent, v)
                     | Some t => let '(a, t) := m t in
                                 (a, {| fr_issuers := fr_issuers v; fr_clients := fr_clients v; fr_tenants := fr_tenants v; fr_suspension := fr_suspension v;
                                        fr_residency := fr_residency v; fr_policies := fr_policies v; fr_lifecycle := fr_lifecycle v; fr_pairwise := fr_pairwise v;
                                        fr_sessions := Some t; fr_refresh := fr_refresh v; fr_cache := fr_cache v; fr_replay := fr_replay v |})
                     end).

Definition list_sessions q (userID : string) (v : Front B X) : option (list Session) := ListByUser (hq_now q) userID <$> fr_sessions v.

Definition evictOldestSession q (userID tenantID : string) (limit : Z) : Flow () :=
  on_sessions () (fun m =>
    let scoped := List.filter (fun s => bool_decide (se_TenantID s = tenantID)) (ListByUser (hq_now q) userID m) in
    if Z.of_nat (length scoped) <? limit then ((), m)
    else match oldestSession scoped with
         | None => ((), m)
         | Some o => if decide (se_ID o = "") then ((), m) else ((), Destroy (se_ID o) m)
         end).

Definition deviceCapExceededForDevice q (userID devID : string) (v : Front B X) : bool :=
  match list_sessions q userID v with
  | None => false
  | Some l => ld_maxSessionsPerDevice d <=? Z.of_nat (length (List.filter (fun s => bool_decide (se_DeviceID s = devID)) l))
  end.

Definition session_meta q client (scopes : list string) (authTime : Z) (dc : option DeviceContext) : SessionMeta := {|
  sm_IP := hq_ip q; sm_UserAgent := hq_ua q; sm_ClientID := cl_ID client; sm_AuthorizedScopes := scopes;
  sm_AuthTime := if GoTime.IsZero authTime then hq_now q else authTime; sm_TenantID := cl_TenantID client;
  sm_DeviceID := default "" (dv_ID <$> dc); sm_Kind := "";
  sm_TrustScore := match ld_initialTrust d with None => of_int 0 | Some score => default score (dc ≫= dv_TrustScore) end;
  sm_TrustSetAt := match ld_initialTrust d with None => 0 | Some _ => hq_now q end |}.

(** A denial by the quota of the tenant is answered here; the others are the caller's. *)
Definition createSession q (userID : string) client (scopes : list string) (authTime : Z) (dc : option DeviceContext) : Flow (result create_error Session) :=
  let tenantID := cl_TenantID client in
  let* front := get ls_front in
  let x := fr_issuers front in
  if sessionPolicyCapExceeded (ld_tokenPolicies d x) (list_sessions q userID front) ((fun role => role x) <$> ld_memberRole d) userID (cl_ID client) tenantID
  then flow_ret (Err errMaxActiveSessions)
  else
    let* charge := match ld_chargeSession d with
                   | None => flow_ret (Err false)
                   | Some charge => if decide (tenantID = "") then flow_ret (Err false) else on_x (charge tenantID)
                   end in
    match charge with
    | Err true => fail_with 403 ErrQuotaExceededCode
    | _ =>
        let* _ := when (0 <? ld_maxSessionsPerUser d) (evictOldestSession q userID tenantID (ld_maxSessionsPerUser d)) in
        let* front := get ls_front in
        let devID := default "" (dv_ID <$> dc) in
        if (0 <? ld_maxSessionsPerDevice d) && negb (bool_decide (devID = "")) && deviceCapExceededForDevice q userID devID front
        then flow_ret (Err errMaxActiveSessions)
        else
          let* made := on_sessions (Err ErrSessionNotFound) (CreateWithMeta (hq_sessionID q) (hq_now q) userID (session_meta q client scopes authTime dc)) in
          match made with
          | Ok sess => let* _ := on_x (fun x => ((), ld_activateSession d userID (cl_ID client) (se_ID sess) x)) in flow_ret (Ok sess)
          | Err _ =>
              let* _ := when (is_ok charge) (on_x (fun x => ((), ld_releaseSession d tenantID x))) in flow_ret (Err SessionFailed)
          end
    end.

(** The session a code carries, [""] for none. *)
Definition codeFlowSession q r req client : Flow string :=
  let* front := get ls_front in
  match fr_sessions front with
  | None => flow_ret ""
  | Some sessions =>
      if negb (bool_decide (re_SessionID r = "")) then
        flow_ret match Get (hq_now q) (re_SessionID r) sessions with
                 | Ok s => if negb (se_Revoked s) && negb (Session_IsExpired (hq_now q) s) && bool_decide (se_UserID s = re_UserID r) then se_ID s else ""
                 | Err _ => ""
                 end
      else if negb (re_CreateSession r) && negb (bool_decide (is_Some (const () <$> ld_browserVerifier d))) then flow_ret ""
      else
        let* made := createSession q (re_UserID r) client (lr_Scope req) (re_AuthTime r) None in
        match made with
        | Ok s => flow_ret (se_ID s)
        | Err errMaxActiveSessions => if decide (is_Some (const () <$> ld_browserVerifier d)) then fail_with 403 ErrAccessDenied else flow_ret ""
        | Err SessionFailed => flow_ret ""
        end
  end.

(** ** The code *)

(** The key a proof at this request binds the code to. *)
Definition captureAuthCodeDPoPBinding q : Flow string :=
  let proof := header (hq_http q) "Dpop" in
  if decide (proof = "") then flow_ret ""
  else
    let* out := on_front (fun v => let '(out, replay) := verify_proof c (ld_access d) (hq_now q) proof (rq_Method (hq_http q)) (requestURLForDPoP (hq_http q)) "" (fr_replay v) in
                                   (out, set_replay replay v)) in
    match out with
    | Ok jkt => flow_ret jkt
    | Err ErrDPoPNonceRequired => fail_with 400 ErrUseDPoPNonce
    | Err _ => fail_with 400 ErrInvalidDPoPProof
    end.

Definition code_params r req client (jkt sid : string) : IssueAuthCodeParams := {|
  iac_AuthCodeTTL := ld_authCodeTTL d; iac_UserID := re_UserID r; iac_ClientID := cl_ID client; iac_RedirectURI := lr_RedirectURI req;
  iac_Scopes := lr_Scope req; iac_Nonce := lr_Nonce req; iac_Provider := re_Provider r; iac_AuthMethods := re_AuthMethods r;
  iac_ACR := re_AchievedACR r; iac_AuthTime := re_AuthTime r; iac_Attributes := default ∅ (re_Attributes r); iac_CodeChallenge := lr_CodeChallenge req;
  iac_CodeChallengeMethod := lr_CodeChallengeMethod req; iac_Resources := lr_Resource req; iac_AuthorizationDetails := lr_AuthorizationDetails req;
  iac_SID := sid; iac_ConfirmationJKT := jkt; iac_RequestedClaims := lr_Claims req |}.

Definition issueAuthCode q r req client (jkt sid : string) : Flow string :=
  let* issued := on_store ls_codes set_codes (Err IssueRandFailed) (IssueAuthCode issue_code_memory (hq_now q) (hq_code q) (code_params r req client jkt sid)) in
  match issued with Ok code => flow_ret code | Err _ => fail_with 500 ErrInternal end.

(** A response that cannot be signed is refused, after the code was issued. *)
Definition renderAuthCodeResponse q req client (code sid : string) : Flow Resp :=
  let answer how := flow_ret (LCode how code sid (lr_State req) None) in
  if decide (lr_ResponseMode req = "form_post") then answer InForm
  else if IsJARMResponseMode (lr_ResponseMode req) then
    if negb (ld_jarmSigner d client) then fail_with 400 ErrInvalidRequest
    else if negb (bool_decide (lr_ResponseMode req = "form_post.jwt")) && negb (bool_decide (rq_Method (hq_http q) = "GET")) then answer InJWT
    else answer InJWTForm
  else answer InBody.

Definition finishLoginCodeFlow q r req client : Flow Resp :=
  let no {A} := @reject B X A (lr_ClientID req) (lr_Provider req) 400 in
  let* wired := get (fun s : LS => bool_decide (is_Some (ls_codes s))) in
  if negb wired then fail_with 501 ErrAuthCodeNotConfigured
  else if bool_decide (lr_RedirectURI req = "") || negb (redirect_valid p client (lr_RedirectURI req)) ||
          (ld_oauth21Strict d && negb (secure_redirect p (lr_RedirectURI req))) then no ErrInvalidRedirectURI
  else match validatePKCEForCode req client (ld_oauth21Strict d) with
       | Err code => no code
       | Ok req =>
           let* jkt := captureAuthCodeDPoPBinding q in
           let* sid := codeFlowSession q r req client in
           let* code := issueAuthCode q r req client jkt sid in
           let* _ := log (LoginSuccess (cl_ID client) (lr_Provider req) "code" (re_UserID r) sid) in
           renderAuthCodeResponse q req client code sid
       end.

(** ** Tokens *)

Definition prepareDirectMintSession q r req client : Flow (Session * option DeviceContext) :=
  let* dc := match ld_registerDevice d with None => flow_ret None | Some register => on_x (register (re_UserID r)) end in
  let* wired := get (fun s : LS => bool_decide (is_Some (fr_sessions (ls_front s)))) in
  if negb wired then fail_with 500 ErrSessionMgrNotConfigured
  else
    let* made := createSession q (re_UserID r) client (lr_Scope req) (re_AuthTime r) dc in
    match made with
    | Ok s => flow_ret (s, dc)
    | Err errMaxActiveSessions => fail_with 403 ErrAccessDenied
    | Err SessionFailed => fail_with 500 ErrInternal
    end.

Definition directMintClaims (dc : option DeviceContext) (trust : option (string * string)) (attrs : gmap string string) : gmap string string :=
  let claims := match trust with Some (name, value) => <[name := value]> attrs | None => attrs end in
  match dc ≫= dv_Security with
  | Some (new_device, new_place) =>
      let claims := if (new_device : bool) then <["device_is_new" := "true"]> claims else claims in
      if (new_place : bool) then <["location_is_new" := "true"]> claims else claims
  | None => claims
  end.

Definition mint_subject q r req client (issuedSub : string) (sid : string) (dc : option DeviceContext) (trust : option (string * string)) (roles : list string) : Subject := {|
  su_ID := issuedSub; su_Provider := re_Provider r; su_Claims := directMintClaims dc trust (default ∅ (re_Attributes r)); su_Resources := lr_Resource req;
  su_ClientID := cl_ID client; su_AuthTime := re_AuthTime r; su_AMR := AmrForResult r; su_ACR := re_AchievedACR r;
  su_AuthorizationDetails := lr_AuthorizationDetails req; su_TTL := deviceAwareTTL (cl_AccessTokenTTL client) dc 0; su_SID := sid;
  su_ServingRegion := hq_region q; su_TenantID := cl_TenantID client; su_Roles := roles; su_ConfirmationJKT := ""; su_ConfirmationX5TS256 := "";
  su_NotAfter := 0; su_Actor := ActorNil; su_RequestedClaims := lr_Claims req |}.

(** The strategy, the token, and the subject it was issued for. *)
Definition mintAccessToken q r req client (sid : string) (dc : option DeviceContext) (trust : option (string * string)) : Flow (string * Token * string) :=
  let* x := get (fun s : LS => fr_issuers (ls_front s)) in
  match dp_IssuerForClient (ld_grants d) x client with
  | None => fail_with 500 ErrNoTokenStrategy
  | Some (strategy, ti) =>
      let issuedSub := dp_ApplyPairwiseSubject (ld_grants d) x client (re_UserID r) in
      let* token := on_x (ti_Issue ti (mint_subject q r req client issuedSub sid dc trust (re_Roles r)) (lr_Scope req)) in
      match token with
      | Ok token => flow_ret (strategy, token, issuedSub)
      | Err (Some (status, code)) => fail_with status code
      | Err None => fail_with 500 ErrInternal
      end
  end.

Definition direct_response (session : Session) (token : Token) (strategy : string) : body :=
  <[KeySessionID := VStr (se_ID session)]> $ <[KeyAccessToken := VStr (tk_AccessToken token)]> $ <[KeyTokenType := VStr (tk_TokenType token)]> $
  <[KeyRefreshToken := VStr (tk_RefreshToken token)]> $ <[KeyExpiresIn := VInt (tk_ExpiresIn token)]> $ <[KeyScope := VStr (tk_Scope token)]> $
  <[KeyTokenStrategy := VStr strategy]> $ <[KeyIss := VStr (ld_issuer d)]> ∅.

(** Without the scope there is no refresh token; with a store it is the store's or none. *)
Definition direct_refresh q r req client (sid : string) (resp : body) : Flow body :=
  let* wired := get (fun s : LS => bool_decide (is_Some (fr_refresh (ls_front s)))) in
  if negb (contains (lr_Scope req) ScopeOfflineAccess) then flow_ret (delete KeyRefreshToken resp)
  else if negb wired then flow_ret resp
  else
    let* rt := on_front (fun v => match fr_refresh v with
      | None => (Err IssueRandFailed, v)
      | Some m =>
          let '(rt, m) := IssueRefreshToken issue_memory (hq_now q) (hq_draws q)
            {| irt_RefreshTokenTTL := dp_refreshTokenTTL (ld_grants d); irt_UserID := re_UserID r; irt_ClientID := cl_ID client;
               irt_Provider := re_Provider r; irt_Scopes := lr_Scope req; irt_Attributes := default ∅ (re_Attributes r); irt_FamilyID := "";
               irt_JTI := ""; irt_Resources := lr_Resource req; irt_AuthorizationDetails := lr_AuthorizationDetails req; irt_SID := sid;
               irt_AMR := AmrForResult r; irt_ACR := re_AchievedACR r; irt_AuthTime := re_AuthTime r;
               irt_ClientTTLOverride := cl_RefreshTokenTTL client; irt_ConfirmationJKT := ""; irt_Generation := 0; irt_FamilyCreatedAt := 0;
               irt_Roles := re_Roles r |} m in (rt, set_refresh (Some m) v)
      end) in
    flow_ret match rt with Ok rt => <[KeyRefreshToken := VStr rt]> resp | Err _ => delete KeyRefreshToken resp end.

Definition direct_secret q r req client (sid : string) : Flow string :=
  if negb (contains (lr_Scope req) ScopeDeviceSSO) then flow_ret ""
  else match hq_secret q with
       | None => flow_ret ""
       | Some secret =>
           on_store ls_secrets set_secrets "" (fun m => (secret, IssueSecret
             {| ds_Secret := secret; ds_Subject := re_UserID r; ds_SID := sid; ds_ClientID := cl_ID client;
                ds_ExpiresAt := GoTime.Add (hq_now q) (device_secret_ttl (ld_grants d)) |} m))
       end.

(** An ID token that cannot be issued is left out. *)
Definition emitLoginIDToken q r req client (issuedSub sid accessToken deviceSecret : string) (resp : body) : Flow body :=
  if negb (contains (lr_Scope req) ScopeOpenID) then flow_ret resp
  else
    let* x := get (fun s : LS => fr_issuers (ls_front s)) in
    match dp_IDTokenIssuerForClient (ld_grants d) x client with
    | Some (Some issue) =>
        let attrs := default ∅ (re_Attributes r) in
        let* idToken := on_x (issue
          {| ir_Subject := issuedSub; ir_Audience := cl_ID client; ir_Nonce := lr_Nonce req; ir_AuthTime := re_AuthTime r; ir_AMR := AmrForResult r;
             ir_ACR := re_AchievedACR r; ir_AZP := "";
             ir_Claims := if decide (lr_Claims req = "") then attrs else dp_ProjectIDTokenClaims (ld_grants d) attrs (lr_Claims req);
             ir_TTL := 0; ir_AccessToken := accessToken; ir_DeviceSecret := deviceSecret; ir_RequestedClaims := lr_Claims req;
             ir_GrantedScopes := lr_Scope req; ir_GrantedResources := lr_Resource req; ir_AuthorizationDetails := lr_AuthorizationDetails req;
             ir_SID := sid; ir_ServingRegion := hq_region q |}) in
        match idToken with
        | Err _ => flow_ret resp
        | Ok idToken =>
            let* x := get (fun s : LS => fr_issuers (ls_front s)) in
            flow_ret match dp_MaybeEncryptIDToken (ld_grants d) x client idToken with Some enc => <[KeyIDToken := VStr enc]> resp | None => resp end
        end
    | _ => flow_ret resp
    end.

Definition finishLoginDirectMint q (skip : bool) r req client : Flow Resp :=
  let* prepared := prepareDirectMintSession q r req client in
  let '(session, dc) := prepared in
  let* wired := mfa_wired d in
  let mfa := match wired, dc ≫= dv_Security with
             | Some provider, Some (true, _) => if ld_requireMFAForNewDevice d && negb (has_mfa r) && negb skip then Some provider else None
             | _, _ => None
             end in
  match mfa with
  | Some provider => issueMFAChallenge d q r req client provider
  | None =>
      let* trust := on_x (ld_trustClaim d r client) in
      let* x := get (fun s : LS => fr_issuers (ls_front s)) in
      let r := set_roles (subjectRoles ((fun role => role x) <$> ld_memberRole d) (cl_TenantID client) (re_UserID r)) r in
      let* minted := mintAccessToken q r req client (se_ID session) dc trust in
      let '(strategy, token, issuedSub) := minted in
      let* _ := log (LoginSuccess (cl_ID client) (lr_Provider req) strategy (re_UserID r) (se_ID session)) in
      let* resp := direct_refresh q r req client (se_ID session) (direct_response session token strategy) in
      let* secret := direct_secret q r req client (se_ID session) in
      let* resp := emitLoginIDToken q r req client issuedSub (se_ID session) (tk_AccessToken token) secret resp in
      flow_ret (LToken (add_secret secret resp) (se_ID session) None)
  end.

(** ** The whole *)

Definition fresh_time q r : Result := if GoTime.IsZero (re_AuthTime r) then set_auth_time (hq_now q) r else r.

(** [skip]: a hook waived the second factor; [ask] answers with a question of consent,
    given the result as it stands. *)
Definition finishLogin (ask : Result -> string -> Flow ()) q (skip : bool) r req client : Flow Resp :=
  let* r := upsertLoginUser (fresh_time q r) in
  let* granted := validateAndAuthorizeScope req client in
  let req := set_scope granted req in
  let* _ := consent_gate (ask r) q r req client in
  let* _ := ensureJITMembership r client in
  let* _ := applyLoginPresentationPreferences r req in
  if decide (lr_ResponseType req = "code") then finishLoginCodeFlow q r req client
  else if negb (bool_decide (lr_ResponseType req = "")) && negb (bool_decide (lr_ResponseType req = "token")) then fail_with 400 ErrUnsupportedResponseType
  else finishLoginDirectMint q skip r req client.
End finish.
