(* ===== verification/Login.v ===== *)
(** * Login: the requests of the login front end
    ([interfaces/sso]: [handleLogin] of [server_login.go], the continuation of a login
    and the trust of a device of [server_mfa_trust.go], [handleMFAComplete] of
    [server_mfa.go], [handlePromptNone] of [server_login_resolve.go], the federated
    callback of [origin_validation.go] and [server_oauth.go], and
    [protocols/oidc/browsersso/context.go]).

    A login can take several requests: an answer that asks for a second factor or for
    consent, or that sends the browser to another provider, freezes it in a store, and
    the request that follows takes it up.  One request is one step.  How an answer is
    delivered to the redirect URI (and the errors of JARM) is not modelled. *)
From S2P Require Import Prelude Crypto Core Float64 Resources Lifecycle Scopes RefreshStore CodeStores DeviceCodes CibaStore Lockout Issue RefreshIface GraceCache GrantCore MetadataPolicy Users Keyset Sessions TokenPolicy CondAccess PolicyGates JTIReplay Jwks Dpop TokenFront ResourceAccess UserInfo Fapi RedirectUri LoginRequest Consent LoginState LoginGates LoginFinish.
Local Open Scope Z_scope.
Local Open Scope flow_scope.

Definition ErrMFAInvalid : string := "mfa_invalid".
Definition ErrConsentRequired : string := "consent_required".
Definition ErrInvalidCallback : string := "invalid_callback".
Definition ErrCallbackFailed : string := "callback_failed".

(** ** Data *)

Record mfaCompleteRequest := {
  mq_ChallengeID : string;
  mq_Method : string;
  mq_Params : option (gmap string string);
  mq_Code : string;
  mq_Assertion : string;
  mq_TrustDevice : bool;
}.

Definition add_param (k v : string) (params : gmap string string) : gmap string string :=
  if bool_decide (params !! k = None) && negb (bool_decide (v = "")) then <[k := v]> params else params.
Definition collectMFAParams (params : option (gmap string string)) (code assertion : string) : gmap string string :=
  add_param "assertion" assertion (add_param "code" code (default ∅ params)).

Definition mfaLockoutKey (subjectID : string) : string := if decide (subjectID = "") then "" else "mfa lockout:" +:+ subjectID.

(** The query of the callback. *)
Record CallbackQuery := { ck_state : string; ck_provider : string; ck_error : string; ck_code : string }.

Definition ParsePromptValues (raw : string) : list string := dedup_onto [] (Str.fields raw).
Definition PromptHasNone (values : list string) : bool := contains values "none".

(** [NonInteractive]: with no user to ask, a question is an error. *)
Definition non_interactive (a : Resp) : Resp :=
  match a with
  | LMFARequired _ _ _ => LError 400 ErrInteractionRequired
  | LConsentRequired _ _ => LError 400 ErrConsentRequired
  | _ => a
  end.
Definition map_answer {S} (f : Resp -> Resp) (m : Flow S Resp) : Flow S Resp := fun s =>
  match m s with (Ok a, s) => (Ok (f a), s) | (Err a, s) => (Err (f a), s) end.

(** The answers the token of a device is added to: those written as JSON. *)
Definition json_success (a : Resp) : bool :=
  match a with LCode InBody _ _ _ _ | LCode InJWT _ _ _ _ | LToken _ _ _ => true | _ => false end.
Definition with_device_token (token : string) (a : Resp) : Resp :=
  match a with
  | LCode how code sid state _ => LCode how code sid state (Some token)
  | LToken fields sid _ => LToken fields sid (Some token)
  | _ => a
  end.

Definition validLoginTransactionState (challenge : MFAChallenge) (state : mfaResumeState) (submitted : Request) : bool :=
  if negb (rs_AuthenticationComplete state) || negb (bool_decide (lr_ClientID (rs_Request state) = mc_ClientID challenge)) then false
  else if rs_FederatedReturn state then
    if negb (bool_decide (rs_FederatedError state = "")) then bool_decide (rs_Result state = None)
    else match rs_Result state with Some r => negb (bool_decide (re_UserID r = "")) && bool_decide (re_UserID r = mc_SubjectID challenge) | None => false end
  else negb (bool_decide (lr_ConsentChallengeID submitted = "")) &&
       match rs_Result state with Some r => bool_decide (re_UserID r = mc_SubjectID challenge) | None => false end.

Definition validFederatedResume (resume : federatedAuthorizationState) (provider subject clientID : string) : bool :=
  bool_decide (fs_Provider resume = provider) && bool_decide (lr_Provider (fs_Request resume) = provider) &&
  bool_decide (lr_ClientID (fs_Request resume) = clientID) && bool_decide (subject = provider).

#[global] Instance Result_eq_dec : EqDecision Result.
Proof. solve_decision. Defined.

Section login.
Context {B X J : Type} `{EqDecision J} (c : Primitives) (p : Parsers J) (d : LoginDeps X).
Notation LS := (LS B X).
Notation Flow A := (LoginState.Flow LS A).
Implicit Types (q : Incoming) (req : Request) (client : LoginClient) (r : Result) (challenge : MFAChallenge) (state : mfaResumeState).

(** ** Continuations *)

(** The transaction that freezes a login, unless it could not be kept. *)
Definition issueLoginTransaction q state client : Flow (option string) :=
  match hq_txnID q with
  | None => flow_ret None
  | Some id =>
      let* stored := on_store ls_transactions set_transactions false
        (txn_Put (new_challenge (hq_now q) (ld_loginTransactionTTL d) id (default "" (re_UserID <$> rs_Result state)) (cl_ID client) (FrozenLogin state))) in
      flow_ret (if (stored : bool) then Some id else None)
  end.

(** [wrapForLoginContinuation]: a question of consent freezes the login, where it can. *)
Definition login_continuation q (trustDevice : bool) req client r (id : string) : Flow () :=
  let* wired := get (fun s : LS => bool_decide (is_Some (ls_consents s)) && bool_decide (is_Some (ls_transactions s))) in
  if negb wired then stop (LConsentRequired id None)
  else
    let* txn := issueLoginTransaction q {| rs_Result := Some (frozen_result r); rs_Request := without_transaction (without_secrets req);
                                           rs_AuthenticationComplete := true; rs_TrustDevice := trustDevice; rs_FederatedReturn := false; rs_FederatedError := "" |} client in
    match txn with None => fail_with 500 ErrInternal | Some txn => stop (LConsentRequired id (Some txn)) end.

(** What the end of a login is on every path: with its continuation. *)
Definition finish q (skip trustDevice : bool) r req client : Flow Resp :=
  finishLogin c p d (login_continuation q trustDevice req client) q skip r req client.

(** A device is trusted once the login has succeeded. *)
Definition finishLoginWithDeviceTrust q r req client (subjectID : string) (trustDevice : bool) : Flow Resp :=
  let* a := finish q false trustDevice r req client in
  match ld_trustedDevices d with
  | Some store =>
      if trustDevice && json_success a then
        let* token := on_x (td_Trust store subjectID (cl_ID client)) in
        match token with
        | Some token => let* _ := log (DeviceTrusted subjectID (cl_ID client)) in flow_ret (with_device_token token a)
        | None => flow_ret a
        end
      else flow_ret a
  | None => flow_ret a
  end.

(** The client as it is now, if it still may. *)
Definition current_client q (id : string) : Flow (option LoginClient) :=
  let* found := find_client id in
  flow_ret match found with Some client => if cl_Active client && clientTenantOK q client then Some client else None | None => None end.

Definition resumeLoginResidualGates q req r client : Flow Request :=
  let* _ := residencyGateLogin d q (cl_ID client) (re_Provider r) (cl_TenantID client) in
  residual_gates d q false req r client.

(** ** The second factor *)

Definition mfa_invalid {A} (subject reason : string) : Flow A :=
  let* _ := log (MFAFailed subject reason) in fail_with 400 ErrMFAInvalid.

Definition verifyMFAFactor q (provider : MFAProvider X) (m : mfaCompleteRequest) : Flow MFAChallenge :=
  let* found := on_store ls_mfa set_mfa None (mfa_Consume (hq_now q) (mq_ChallengeID m)) in
  match found with
  | None => mfa_invalid "" "challenge_invalid"
  | Some challenge =>
      let key := mfaLockoutKey (mc_SubjectID challenge) in
      let* locked := lockout_locked q key in
      if (locked : bool) then mfa_invalid (mc_SubjectID challenge) "mfa_locked"
      else
        let* ok := on_x (mf_Verify provider (mc_SubjectID challenge) (mq_Method m) (collectMFAParams (mq_Params m) (mq_Code m) (mq_Assertion m))) in
        if (ok : bool) then let* _ := lockout_success key in flow_ret challenge
        else let* _ := lockout_failure q key in mfa_invalid (mc_SubjectID challenge) "factor"
  end.

Definition resumeLoginAfterMFA q challenge (m : mfaCompleteRequest) : Flow Resp :=
  match mc_RequestState challenge with
  | FrozenFederated _ => fail_with 500 ErrInternal
  | FrozenLogin state =>
      match rs_Result state with
      | None => fail_with 500 ErrInternal
      | Some r =>
          if rs_AuthenticationComplete state then fail_with 400 ErrMFAInvalid
          else
            let r := set_methods (WithMFAMethod (re_AuthMethods r) (mq_Method m)) r in
            let* found := current_client q (mc_ClientID challenge) in
            match found with
            | None => let* _ := log (MFAFailed (mc_SubjectID challenge) "client_unavailable") in fail_with 403 ErrInactiveClient
            | Some client =>
                let* _ := rejectDeactivatedUser (rs_Request state) (re_UserID r) in
                let* _ := log (MFASucceeded (mc_SubjectID challenge) (cl_ID client) (mq_Method m)) in
                let* req := resumeLoginResidualGates q (rs_Request state) r client in
                finishLoginWithDeviceTrust q r req client (mc_SubjectID challenge) (mq_TrustDevice m)
            end
      end
  end.

(** [POST /auth/mfa]; [None] when its parameters do not bind. *)
Definition handleMFAComplete q (params : option mfaCompleteRequest) : Flow Resp :=
  let* wired := mfa_wired d in
  match wired with
  | None => fail_with 404 ErrMFAInvalid
  | Some provider =>
      match params with
      | None => fail_with 400 ErrMFAInvalid
      | Some m =>
          if bool_decide (mq_ChallengeID m = "") || bool_decide (mq_Method m = "") then fail_with 400 ErrMFAInvalid
          else let* challenge := verifyMFAFactor q provider m in resumeLoginAfterMFA q challenge m
      end
  end.

(** ** Taking up a frozen login *)

Definition consumeLoginTransaction q (submitted : Request) : Flow (MFAChallenge * mfaResumeState) :=
  if bool_decide (lr_LoginTransactionID submitted = "") || bool_decide (lr_ClientID submitted = "") then fail_with 400 ErrInvalidRequest
  else
    let* found := on_store ls_transactions set_transactions None (txn_Consume (hq_now q) (lr_LoginTransactionID submitted)) in
    match found with
    | None => fail_with 400 ErrInvalidRequest
    | Some challenge =>
        if negb (bool_decide (mc_ClientID challenge = lr_ClientID submitted)) then fail_with 400 ErrInvalidRequest
        else match mc_RequestState challenge with
             | FrozenLogin state => if validLoginTransactionState challenge state submitted then flow_ret (challenge, state) else fail_with 400 ErrInvalidRequest
             | FrozenFederated _ => fail_with 400 ErrInvalidRequest
             end
    end.

Definition loginTransactionClient q challenge state : Flow LoginClient :=
  let* found := current_client q (mc_ClientID challenge) in
  match found with
  | None => fail_with 403 ErrInactiveClient
  | Some client =>
      let provider := match rs_Result state with
                      | Some r => if decide (re_Provider r = "") then lr_Provider (rs_Request state) else re_Provider r
                      | None => lr_Provider (rs_Request state)
                      end in
      let* _ := residencyGateLogin d q (cl_ID client) provider (cl_TenantID client) in flow_ret client
  end.

(** An answer that is not an approval ends here: a denial is one only to the question
    that was asked. *)
Definition denyLoginConsent q req r client : Flow () :=
  let decision := lr_ConsentDecision req in
  if bool_decide (decision = "") || bool_decide (decision = "allow") then flow_ret ()
  else
    let* wired := get (fun s : LS => bool_decide (is_Some (ls_consents s))) in
    if negb (bool_decide (decision = "deny")) || negb wired then fail_with 400 ErrInvalidRequest
    else
      let* granted := validateAndAuthorizeScope d req client in
      let* valid := (fun s : LS =>
        let '(valid, cs) := ConsumeChallenge (pa_Raw p) (hq_now q) (lr_ConsentChallengeID req) (re_UserID r) (cl_ID client) granted (lr_AuthorizationDetails req) (ls_challenges s) in
        (Ok valid, set_consents (ls_consents s) cs s)) in
      if (valid : bool) then let* _ := log (ConsentDecided false (re_UserID r) (cl_ID client)) in fail_with 403 ErrAccessDenied
      else fail_with 400 ErrInvalidRequest.

Definition resumeFederatedLoginTransaction q state client : Flow Resp :=
  if negb (bool_decide (rs_FederatedError state = "")) then fail_with (if decide (rs_FederatedError state = ErrAccessDenied) then 403 else 401) (rs_FederatedError state)
  else match rs_Result state with
       | None => fail_with 500 ErrInternal
       | Some r =>
           let req := rs_Request state in
           let* _ := rejectDeactivatedUser req (re_UserID r) in
           let* rs := runPostAuthenticateHook d req client r in
           let '(r, skip) := rs in
           let* req := runPostCredentialGates p d q skip req r client in
           finish q skip false r req client
       end.

Definition resumeLoginTransaction q (submitted : Request) : Flow Resp :=
  let* cs := consumeLoginTransaction q submitted in
  let '(challenge, state) := cs in
  let* client := loginTransactionClient q challenge state in
  if rs_FederatedReturn state then resumeFederatedLoginTransaction q state client
  else match rs_Result state with
       | None => fail_with 500 ErrInternal
       | Some r =>
           let req := set_consent (lr_ConsentChallengeID submitted) (lr_ConsentDecision submitted) (rs_Request state) in
           let* _ := rejectDeactivatedUser req (re_UserID r) in
           let* req := resumeLoginResidualGates q req r client in
           let* _ := denyLoginConsent q req r client in
           finishLoginWithDeviceTrust q r req client (mc_SubjectID challenge) (rs_TrustDevice state)
       end.

(** ** Silent renewal *)

(** The gates before it; the renewal itself is the OIDC handler's. *)
Definition validatePromptNoneAuthorization q req client : Flow Request :=
  if lc_RequirePAR client && negb (loginUsedPAR req) then fail_with 400 ErrInvalidRequest
  else if lc_RequireSignedRequestObject client && bool_decide (lr_Request req = "") then fail_with 400 ErrInvalidRequest
  else
    let* req := runPostMergeAuthzValidation c p d q req client in
    if bool_decide (lr_Scope req = []) then flow_ret req
    else match GrantedScopes (lr_Scope req) (Some (lc_client client)) with
         | Ok granted => flow_ret (set_scope granted req)
         | Err _ => reject (lr_ClientID req) "silent_renewal" 400 ErrInvalidScope
         end.

Definition handlePromptNone q (prompts : list string) req : Flow Resp :=
  if decide (lr_ClientID req = "") then fail_with 400 ErrMissingClientID
  else
    let* found := find_client (lr_ClientID req) in
    match found with
    | None => fail_with 401 ErrInvalidClient
    | Some client =>
        if negb (cl_Active client) then fail_with 403 ErrInactiveClient
        else if negb (clientTenantOK q client) then fail_with 403 ErrTenantMismatch
        else
          let* _ := residencyGateLogin d q (cl_ID client) "silent_renewal" (cl_TenantID client) in
          let* req := validatePromptNoneAuthorization q req client in
          flow_ret (LSilentRenewal prompts req client)
    end.

(** ** [POST /auth/login] *)

Definition interactive_login q req (saved : option Result) : Flow Resp :=
  let* cr := preAuthLoginGates c p d q req in
  let '(client, req) := cr in
  map_answer (if lr_ResumeSession req && contains (Str.fields (lr_Prompt req)) "none" then non_interactive else id)
    (let* staged := credentialLoginStage p d q req client saved in
     let '(r, skip, req) := staged in
     finish q skip false r req client).

Definition handleLogin q : Flow Resp :=
  let* _ := rejectNonJSONLogin q in
  let* _ := rejectDisallowedLoginOrigin d q in
  let* rs := bootstrapLoginRequest d q in
  let '(req, saved) := rs in
  let* _ := checkLoginDeadline q 0 in
  let* _ := runPreAuthenticateHook d req in
  if negb (bool_decide (lr_LoginTransactionID req = "")) then resumeLoginTransaction q req
  else
    let prompts := ParsePromptValues (lr_Prompt req) in
    if negb (lr_ResumeSession req) && PromptHasNone prompts then handlePromptNone q prompts req
    else let* _ := checkLoginDeadline q 1 in interactive_login q req saved.

(** ** The return from another provider *)

Definition validFederatedCallbackClient q client (resume : federatedAuthorizationState) (provider : string) : bool :=
  cl_Active client && clientTenantOK q client && IsAuthenticatorAllowed client provider &&
  redirect_valid p client (lr_RedirectURI (fs_Request resume)) && validFederatedLoginPage p (cl_LoginPageURI client).

Definition consumeFederatedAuthorization q (wireState : string) : Flow (federatedAuthorizationState * LoginClient) :=
  match federatedProviderFromState wireState with
  | None => fail_with 400 ErrInvalidCallback
  | Some provider =>
      let* found := on_store ls_transactions set_transactions None (txn_Consume (hq_now q) wireState) in
      match found with
      | None => fail_with 400 ErrInvalidCallback
      | Some challenge =>
          match mc_RequestState challenge with
          | FrozenLogin _ => fail_with 400 ErrInvalidCallback
          | FrozenFederated resume =>
              if negb (validFederatedResume resume provider (mc_SubjectID challenge) (mc_ClientID challenge)) then fail_with 400 ErrInvalidCallback
              else
                let* found := find_client (mc_ClientID challenge) in
                match found with
                | None => fail_with 400 ErrInvalidCallback
                | Some client =>
                    if negb (validFederatedCallbackClient q client resume provider) then fail_with 400 ErrInvalidCallback
                    else let* _ := residencyGateLogin d q (cl_ID client) provider (cl_TenantID client) in flow_ret (resume, client)
                end
          end
      end
  end.

(** The identity that goes on, or why there is none. *)
Definition federated_outcome (resume : federatedAuthorizationState) (result : option Result) (errorCode : string) : option Result * string :=
  if negb (bool_decide (errorCode = "")) then (None, if decide (errorCode = ErrAccessDenied) then errorCode else ErrCallbackFailed)
  else match result with
       | None => (None, ErrCallbackFailed)
       | Some r =>
           if decide (re_UserID r = "") then (None, ErrCallbackFailed)
           else if decide (re_Provider r = "") then (Some (set_provider (fs_Provider resume) r), "")
           else if decide (re_Provider r = fs_Provider resume) then (Some r, "")
           else (None, ErrCallbackFailed)
       end.

Definition queueFederatedContinuation q (resume : federatedAuthorizationState) client (result : option Result) (errorCode : string) : Flow Resp :=
  let '(result, errorCode) := federated_outcome resume result errorCode in
  let* txn := issueLoginTransaction q {| rs_Result := frozen_result <$> result; rs_Request := fs_Request resume; rs_AuthenticationComplete := true;
                                         rs_TrustDevice := false; rs_FederatedReturn := true; rs_FederatedError := errorCode |} client in
  match txn with
  | None => fail_with 500 ErrInternal
  | Some txn => if validFederatedLoginPage p (cl_LoginPageURI client) then flow_ret (LFederated (cl_LoginPageURI client) (lr_ClientID (fs_Request resume)) txn) else fail_with 500 ErrInternal
  end.

Definition handleFederatedOAuthCallback q (k : CallbackQuery) : Flow Resp :=
  let* rc := consumeFederatedAuthorization q (ck_state k) in
  let '(resume, client) := rc in
  if negb (bool_decide (ck_provider k = "")) && negb (bool_decide (ck_provider k = fs_Provider resume)) then queueFederatedContinuation q resume client None ErrCallbackFailed
  else if negb (bool_decide (ck_error k = "")) then
    queueFederatedContinuation q resume client None (if decide (ck_error k = ErrAccessDenied) then ErrAccessDenied else ErrCallbackFailed)
  else
    let* found := find_authenticator d (fs_Provider resume) in
    match found with
    | None => queueFederatedContinuation q resume client None ErrCallbackFailed
    | Some auth =>
        let* out := on_x (au_Callback auth {| cs_Code := ck_code k; cs_State := ck_state k; cs_ClientID := cl_ID client; cs_Scope := lr_Scope (fs_Request resume) |}) in
        match out with
        | None => let* _ := log (CallbackFailure (au_Name auth) ErrCallbackFailed) in queueFederatedContinuation q resume client None ErrCallbackFailed
        | Some r => let* _ := log (Vouched (fs_Provider resume) (cl_ID client) (re_UserID r)) in queueFederatedContinuation q resume client (Some r) ""
        end
    end.

(** [GET /auth/callback]. *)
Definition handleCallback q (k : CallbackQuery) : Flow Resp :=
  match federatedProviderFromState (ck_state k) with None => fail_with 400 ErrInvalidCallback | Some _ => handleFederatedOAuthCallback q k end.

(** The callback of another protocol, which has validated the identity; an unmarked
    state is not one of ours. *)
Definition ResumeFederatedLogin q (wireState : string) r : Flow (option Resp) :=
  match federatedProviderFromState wireState with
  | None => flow_ret None
  | Some _ =>
      let* rc := consumeFederatedAuthorization q wireState in
      let* _ := log (Vouched (fs_Provider rc.1) (cl_ID rc.2) (re_UserID r)) in
      let* a := queueFederatedContinuation q rc.1 rc.2 (Some r) "" in flow_ret (Some a)
  end.

(** ** Requests *)

Inductive login_request :=
| LoginPost (q : Incoming)
| MFAPost (q : Incoming) (params : option mfaCompleteRequest)
| CallbackGet (q : Incoming) (k : CallbackQuery)
| ProtocolReturn (q : Incoming) (wireState : string) (r : Result).

Definition serve (rq : login_request) (s : LS) : option Resp * LS :=
  match rq with
  | LoginPost q => let '(a, s) := answer (handleLogin q) s in (Some a, s)
  | MFAPost q m => let '(a, s) := answer (handleMFAComplete q m) s in (Some a, s)
  | CallbackGet q k => let '(a, s) := answer (handleCallback q k) s in (Some a, s)
  | ProtocolReturn q w r => match ResumeFederatedLogin q w r s with (Ok a, s) => (a, s) | (Err a, s) => (Some a, s) end
  end.
End login.
