(* ===== verification/LoginSound.v ===== *)
(** * LoginSound: what a login guarantees, over all its requests

    A code is only issued to a client for a user whose credential or session was
    accepted for that very client, in the same request or in one that froze the login;
    the client is active, the user may authenticate, and the redirect URI, the PKCE
    rule, the scopes and the consent are checked in the request that issues it.  The
    requests are related to the state they start from by a weakest precondition. *)
From S2P Require Import Prelude Crypto Core Float64 Resources Lifecycle Scopes Sharded RefreshStore DeviceCodes CibaStore Lockout Issue RefreshIface GraceCache GrantCore MetadataPolicy Users Keyset Sessions TokenPolicy CondAccess CodeStores PolicyGates JTIReplay Jwks JwtIssuer Dpop ClientAuth TokenFront ResourceAccess UserInfo Fapi RedirectUri LoginRequest Consent LoginState LoginGates LoginFinish Login.
Local Open Scope Z_scope.
Local Open Scope flow_scope.

Create HintDb login.

Section sound.
Context {B X J : Type} `{EqDecision J} (c : Primitives) (p : Parsers J) (d : LoginDeps X).
Notation LS := (LS B X).
Notation Flow A := (LoginState.Flow LS A).
Implicit Types (q : Incoming) (req : Request) (client : LoginClient) (r : Result) (ch : MFAChallenge) (st : mfaResumeState) (s : LS) (l : list levent).

(** ** What is known of a state *)

(** The user's credential, or session, was accepted for the client. *)
Definition authed l (clientID userID : string) : Prop :=
  exists e, e ∈ l /\ ((exists provider, e = Vouched provider clientID userID) \/ e = Resumed clientID userID).

(** A frozen login is one that was accepted for its client and subject. *)
Definition frozen_ok l ch : Prop :=
  match mc_RequestState ch with
  | FrozenLogin st => forall r, rs_Result st = Some r -> authed l (mc_ClientID ch) (re_UserID r) /\ mc_SubjectID ch = re_UserID r
  | FrozenFederated _ => True
  end.

Record vouched s : Prop := {
  vo_clients : forall id client, ls_clients s !! id = Some client -> cl_ID client = id;
  vo_codes : forall m, ls_codes s = Some m -> placed (acs_entries m);
  vo_mfa : forall m id ch, ls_mfa s = Some m -> mm_entries m !! id = Some ch -> frozen_ok (ls_log s) ch;
  vo_txn : forall m id ch, ls_transactions s = Some m -> m !! id = Some ch -> frozen_ok (ls_log s) ch;
}.

Definition stored_code s (id : string) (ac : AuthCode) : Prop :=
  exists m, ls_codes s = Some m /\ denote (acs_entries m) !! id = Some ac.

Definition user_allowed s (userID : string) : Prop :=
  (forall users u, ls_users s = Some users -> GetByID userID users = Ok u -> IsActive u = true) /\
  lifecycleAuthentication (ls_front s) userID = true.

(** What a client that is issued a code has passed. *)
Record code_for s client (ac : AuthCode) : Prop := {
  cf_client : ls_clients s !! ac_ClientID ac = Some client;
  cf_active : cl_Active client = true;
  cf_redirect : ac_RedirectURI ac <> "" /\ redirect_valid p client (ac_RedirectURI ac) = true;
  cf_pkce : cl_RequirePKCE client = true \/ ld_oauth21Strict d = true -> ac_CodeChallenge ac <> "";
  cf_method : ac_CodeChallenge ac <> "" ->
    (ac_CodeChallengeMethod ac = PKCEMethodPlain \/ ac_CodeChallengeMethod ac = PKCEMethodS256) /\
    IsPKCEMethodAllowedForClient (ac_CodeChallengeMethod ac) (lc_AllowedPKCEMethods client) = true /\
    (ld_oauth21Strict d = true -> ac_CodeChallengeMethod ac = PKCEMethodS256);
  cf_scopes : forall sc, sc ∈ ac_Scopes ac -> cl_AllowedScopes client = [] \/ sc ∈ cl_AllowedScopes client \/ scope_exempt sc = true;
  cf_user : user_allowed s (ac_UserID ac);
  cf_consent : forall grants, ls_consents s = Some grants -> exists now prompt id,
    consented (pa_Raw p) now (ac_UserID ac) client (ac_Scopes ac) prompt id (ac_AuthorizationDetails ac) grants (ls_challenges s);
}.

(** [s] is a state of a request that started in [s0]. *)
Record during (s0 s : LS) : Prop := {
  du_vouched : vouched s;
  du_clients : ls_clients s = ls_clients s0;
  du_log : ls_log s0 `prefix_of` ls_log s;
  du_codes : forall id ac, stored_code s id ac ->
    stored_code s0 id ac \/ (exists client, code_for s0 client ac) /\ authed (ls_log s) (ac_ClientID ac) (ac_UserID ac);
}.

(** Nothing a code depends on has changed, except that the log has grown. *)
Record tame (s s' : LS) : Prop := {
  ta_clients : ls_clients s' = ls_clients s;
  ta_codes : ls_codes s' = ls_codes s;
  ta_mfa : ls_mfa s' = ls_mfa s;
  ta_txn : ls_transactions s' = ls_transactions s;
  ta_log : ls_log s `prefix_of` ls_log s';
}.

(** Nor has anything the gates read. *)
Record early (s s' : LS) : Prop := {
  ea_users : ls_users s' = ls_users s;
  ea_consents : ls_consents s' = ls_consents s;
  ea_challenges : ls_challenges s' = ls_challenges s;
  ea_lifecycle : fr_lifecycle (ls_front s') = fr_lifecycle (ls_front s);
  ea_pairwise : fr_pairwise (ls_front s') = fr_pairwise (ls_front s);
}.
Definition quiet (s s' : LS) : Prop := tame s s' /\ early s s'.

#[export] Instance tame_preorder : PreOrder tame.
Proof.
  split; [by intros s; constructor|]. intros s1 s2 s3 [] []. constructor; [congruence..|]. by etrans.
Qed.
#[export] Instance early_preorder : PreOrder early.
Proof. split; [by intros s; constructor|]. intros s1 s2 s3 [] []. constructor; congruence. Qed.
#[export] Instance quiet_preorder : PreOrder quiet.
Proof. split; [by intros s; split|]. intros s1 s2 s3 [] []. split; by etrans. Qed.

Lemma authed_grows l l' clientID userID : l `prefix_of` l' -> authed l clientID userID -> authed l' clientID userID.
Proof. intros [k ->] (e & He & H). exists e. split; [|done]. apply elem_of_app. by left. Qed.
Lemma frozen_grows l l' ch : l `prefix_of` l' -> frozen_ok l ch -> frozen_ok l' ch.
Proof.
  unfold frozen_ok. intros Hl. destruct (mc_RequestState ch); [|done]. intros H r Hr. destruct (H r Hr). split; [by eapply authed_grows|done].
Qed.

Lemma vouched_tame s s' : tame s s' -> vouched s -> vouched s'.
Proof.
  intros [Hc Hk Hm Ht Hl] []. constructor; [by rewrite Hc|by rewrite Hk| |].
  - rewrite Hm. intros m id ch H1 H2. by eapply frozen_grows, vo_mfa0.
  - rewrite Ht. intros m id ch H1 H2. by eapply frozen_grows, vo_txn0.
Qed.
Lemma during_tame s0 s s' : tame s s' -> during s0 s -> during s0 s'.
Proof.
  intros Ht [Hv Hc Hl Hk]. constructor; [by eapply vouched_tame|destruct Ht; congruence|etrans; [done|apply (ta_log _ _ Ht)]|].
  unfold stored_code. rewrite (ta_codes _ _ Ht). intros id ac Hs. destruct (Hk id ac Hs) as [|[Hcl Ha]]; [by left|right].
  split; [done|]. eapply authed_grows; [apply (ta_log _ _ Ht)|done].
Qed.

(** ** Operations along a relation *)

Definition along (R : LS -> LS -> Prop) {A} (m : Flow A) : Prop := forall s, R s (m s).2.

Section along.
Context (R : LS -> LS -> Prop) `{!PreOrder R}.

Lemma along_ret {A} (a : A) : along R (flow_ret a).
Proof. intros s. cbn. reflexivity. Qed.
Lemma along_stop {A} (a : Resp) : along R (stop a : Flow A).
Proof. intros s. cbn. reflexivity. Qed.
Lemma along_fail {A} n code : along R (fail_with n code : Flow A).
Proof. intros s. cbn. reflexivity. Qed.
Lemma along_get {A} (f : LS -> A) : along R (get f).
Proof. intros s. cbn. reflexivity. Qed.
Lemma along_bind {A A'} (m : Flow A) (k : A -> Flow A') : along R m -> (forall a, along R (k a)) -> along R (flow_bind m k).
Proof.
  intros Hm Hk s. unfold flow_bind. specialize (Hm s). destruct (m s) as [[a|e] s1]; [|done]. etrans; [apply Hm|apply Hk].
Qed.
End along.

Lemma quiet_tame {A} (m : Flow A) : along quiet m -> along tame m.
Proof. intros H s. apply H. Qed.

Lemma quiet_log e : along quiet (log e : Flow ()).
Proof. intros s. split; [constructor; try done; cbn; by apply prefix_app_r|by constructor]. Qed.
Lemma quiet_front {A} (m : M (Front B X) A) : (forall v, fr_lifecycle (m v).2 = fr_lifecycle v /\ fr_pairwise (m v).2 = fr_pairwise v) -> along quiet (on_front m).
Proof. intros H s. unfold on_front. destruct (H (ls_front s)). destruct (m (ls_front s)) as [a v]. split; by constructor. Qed.
Lemma quiet_x {A} (m : M X A) : along quiet (on_x m).
Proof. apply quiet_front. intros v. by destruct (m (fr_issuers v)). Qed.
Lemma residency_lifecycle en now t region wr (v : Front B X) : fr_lifecycle (checkTenantResidency en now t region wr v).2 = fr_lifecycle v /\ fr_pairwise (checkTenantResidency en now t region wr v).2 = fr_pairwise v.
Proof.
  unfold checkTenantResidency. destruct (_ || _ || _); [done|]. unfold resolveResidencyPolicy. destruct (fr_residency v ≫= _); [done|].
  destruct (fr_policies v ≫= _); [done|]. by destruct (fr_tenants v ≫= _).
Qed.
Lemma quiet_lockout {A} (a : A) m : along quiet (on_store ls_lockout set_lockout a m).
Proof. intros s. unfold on_store. destruct (ls_lockout s) as [t|]; [|done]. destruct (m t) as [x t']. split; by constructor. Qed.

(** Running through the structure of an operation. *)
Ltac along :=
  match goal with
  | |- along _ (flow_ret _) => apply along_ret; apply _
  | |- along _ (stop _) => apply along_stop; apply _
  | |- along _ (fail_with _ _) => apply along_fail; apply _
  | |- along _ (get _) => apply along_get; apply _
  | |- along _ (flow_bind _ _) => apply along_bind; [apply _| |intros ?]
  | |- along _ (when _ _) => unfold when
  | |- along _ (match ?x with _ => _ end) => destruct x
  | |- along _ (let _ := _ in _) => cbv zeta
  | |- along _ _ => solve [eauto 5 with login]
  end.
Hint Resolve quiet_log quiet_x quiet_lockout quiet_tame : login.

Lemma quiet_reject {A} id pv n code : along quiet (reject id pv n code : Flow A).
Proof. unfold reject. repeat along. Qed.
Hint Resolve quiet_reject : login.
(** ** Gates that only look *)

Lemma quiet_residency_gate q id pv t : along quiet (residencyGateLogin d q id pv t : Flow ()).
Proof.
  unfold residencyGateLogin. repeat along. apply quiet_front. intros v. apply residency_lifecycle.
Qed.
Lemma quiet_user_gate req u : along quiet (rejectDeactivatedUser req u : Flow ()).
Proof. unfold rejectDeactivatedUser, lookup_user. repeat along. Qed.
Lemma quiet_rejectHook {A} req e : along quiet (rejectAuthHook d req e : Flow A).
Proof. unfold rejectAuthHook. repeat along. Qed.
Hint Resolve quiet_residency_gate quiet_user_gate quiet_rejectHook : login.

Lemma quiet_preHook req : along quiet (runPreAuthenticateHook d req : Flow ()).
Proof. unfold runPreAuthenticateHook. repeat along. Qed.
Lemma quiet_postHook req client r : along quiet (runPostAuthenticateHook d req client r : Flow (Result * bool)).
Proof. unfold runPostAuthenticateHook. repeat along. Qed.
Lemma quiet_refusal {A} (out : result refusal A) : along quiet (of_refusal out : Flow A).
Proof. unfold of_refusal. repeat along. Qed.
Hint Resolve quiet_preHook quiet_postHook quiet_refusal : login.

Lemma quiet_request q req : along quiet (resolveLoginRequest d q req : Flow Request).
Proof.
  unfold resolveLoginRequest, on_x. repeat along.
  intros s. destruct (consumePARRequest _ _ _) as [out par]. etrans; [|apply quiet_refusal]. split; by constructor.
Qed.
Lemma quiet_Resolve q : along quiet (Resolve d q : Flow _).
Proof. unfold Resolve. repeat along. Qed.
Lemma quiet_client q req : along quiet (resolveAndValidateLoginClient d q req : Flow LoginClient).
Proof. unfold resolveAndValidateLoginClient, find_client. repeat along. Qed.
Hint Resolve quiet_request quiet_Resolve quiet_client : login.

Lemma quiet_browser q req : along quiet (prepareBrowserResume d q req : Flow _).
Proof. unfold prepareBrowserResume. repeat along. Qed.
Lemma quiet_object q req client : along quiet (apply_object c p d q req client : Flow Request).
Proof.
  intros s. unfold apply_object. destruct (applyRequestObject _ _ _ _ _ _ _ _ _ _ _ _ _ _) as [out replay].
  transitivity (set_front (set_replay replay (ls_front s)) s); [by split; constructor|]. destruct out as [a|[n code]]; [reflexivity|apply quiet_reject].
Qed.
Hint Resolve quiet_browser quiet_object : login.

Lemma quiet_merge q req client : along quiet (runPostMergeAuthzValidation c p d q req client : Flow Request).
Proof. unfold runPostMergeAuthzValidation, enforceFAPIAuthorizationLogin. repeat along. Qed.
Lemma quiet_locked q key : along quiet (lockout_locked q key : Flow bool).
Proof. unfold lockout_locked. repeat along. Qed.
Lemma quiet_failure q key : along quiet (lockout_failure q key : Flow bool).
Proof. unfold lockout_failure. repeat along. Qed.
Lemma quiet_success key : along quiet (lockout_success key : Flow ()).
Proof. unfold lockout_success. repeat along. Qed.
Hint Resolve quiet_merge quiet_locked quiet_failure quiet_success : login.

Lemma quiet_authFailure {A} q req key e : along quiet (handleAuthFailure d q req key e : Flow A).
Proof. unfold handleAuthFailure, account_locked. repeat along. Qed.
Lemma quiet_account {A} req key : along quiet (account_locked req key : Flow A).
Proof. unfold account_locked. repeat along. Qed.
Lemma quiet_authenticator pv : along quiet (find_authenticator d pv : Flow _).
Proof. unfold find_authenticator. repeat along. Qed.
Lemma quiet_trusted u id t : along quiet (trustedDeviceAllowsSkip d u id t : Flow bool).
Proof. unfold trustedDeviceAllowsSkip. repeat along. Qed.
Lemma quiet_ACR req r : along quiet (enforceLoginACR p req r : Flow ()).
Proof. unfold enforceLoginACR. repeat along. Qed.
Lemma quiet_email req r : along quiet (rejectUnverifiedEmail d req r : Flow ()).
Proof. unfold rejectUnverifiedEmail, lookup_user. repeat along. Qed.
Lemma quiet_password q req r : along quiet (rejectExpiredPassword d q req r : Flow ()).
Proof. unfold rejectExpiredPassword. repeat along. Qed.
Lemma quiet_deadline q k : along quiet (checkLoginDeadline q k : Flow ()).
Proof. unfold checkLoginDeadline. repeat along. Qed.
Lemma quiet_scope req client : along quiet (validateAndAuthorizeScope d req client : Flow _).
Proof. unfold validateAndAuthorizeScope. repeat along. Qed.
Hint Resolve quiet_authFailure quiet_account quiet_authenticator quiet_trusted quiet_ACR quiet_email quiet_password quiet_deadline quiet_scope : login.
(** ** Requests that answer *)

Section request.
Context (s0 : LS).
Notation during := (during s0).

(** The state stays one of the request, and what is returned is as said. *)
Definition wp {A} (m : Flow A) (Q : A -> LS -> Prop) s : Prop :=
  during (m s).2 /\ match (m s).1 with Ok a => Q a (m s).2 | Err _ => True end.

Lemma wp_ret {A} (a : A) Q s : during s -> Q a s -> wp (flow_ret a) Q s.
Proof. done. Qed.
Lemma wp_stop {A} a (Q : A -> LS -> Prop) s : during s -> wp (stop a) Q s.
Proof. done. Qed.
Lemma wp_fail {A} n code (Q : A -> LS -> Prop) s : during s -> wp (fail_with n code) Q s.
Proof. done. Qed.
Lemma wp_bind {A A'} (m : Flow A) (k : A -> Flow A') Q s : wp m (fun a => wp (k a) Q) s -> wp (flow_bind m k) Q s.
Proof. unfold wp, flow_bind. destruct (m s) as [[a|e] s1]; cbn; tauto. Qed.
Lemma wp_mono {A} (m : Flow A) (P Q : A -> LS -> Prop) s : wp m P s -> (forall a s', P a s' -> Q a s') -> wp m Q s.
Proof. unfold wp. intros [Hd H] HPQ. split; [done|]. destruct (m s).1; [by apply HPQ|done]. Qed.
Lemma wp_tame {A} (m : Flow A) Q s : along tame m -> during s -> (forall a s', m s = (Ok a, s') -> tame s s' -> during s' -> Q a s') -> wp m Q s.
Proof.
  intros Hm Hs Hk. specialize (Hm s). assert (during (m s).2) as Hd by by eapply during_tame. split; [done|].
  destruct (m s) as [[a|e] s1] eqn:E; [|done]. by apply Hk.
Qed.
Lemma wp_quiet {A} (m : Flow A) Q s : along quiet m -> during s -> (forall a s', m s = (Ok a, s') -> quiet s s' -> during s' -> Q a s') -> wp m Q s.
Proof.
  intros Hm Hs Hk. specialize (Hm s). assert (during (m s).2) as Hd by by eapply during_tame; [apply Hm|]. split; [done|].
  destruct (m s) as [[a|e] s1] eqn:E; [|done]. by apply Hk.
Qed.

(** A client and a user whose code would be sound. *)
Record accepted client r s : Prop := {
  at_during : during s;
  at_client : ls_clients s0 !! cl_ID client = Some client;
  at_active : cl_Active client = true;
  at_authed : authed (ls_log s) (cl_ID client) (re_UserID r);
  at_user : user_allowed s0 (re_UserID r);
}.
Definition gated client r s : Prop := accepted client r s /\ early s0 s.

Lemma accepted_tame client r s s' : tame s s' -> accepted client r s -> accepted client r s'.
Proof. intros Ht []. constructor; [by eapply during_tame|done|done| |done]. by eapply authed_grows; [apply (ta_log _ _ Ht)|]. Qed.
Lemma gated_quiet client r s s' : quiet s s' -> gated client r s -> gated client r s'.
Proof. intros [Ht He] [Ha Hs]. split; [by eapply accepted_tame|by etrans]. Qed.
Lemma accepted_same client r r' s : re_UserID r' = re_UserID r -> accepted client r s -> accepted client r' s.
Proof. intros Hr []. by constructor; rewrite ?Hr. Qed.
Lemma gated_same client r r' s : re_UserID r' = re_UserID r -> gated client r s -> gated client r' s.
Proof. intros Hr [Ha He]. split; [by eapply accepted_same|done]. Qed.

Lemma wp_accepted {A A'} client r (m : Flow A) (k : A -> Flow A') Q s :
  along tame m -> accepted client r s -> (forall a s', m s = (Ok a, s') -> accepted client r s' -> wp (k a) Q s') -> wp (flow_bind m k) Q s.
Proof.
  intros Hm Hs Hk. apply wp_bind, wp_tame; [done|by destruct Hs|]. intros a s' E Ht _. apply Hk; [done|]. by eapply accepted_tame.
Qed.
Lemma wp_gated {A A'} client r (m : Flow A) (k : A -> Flow A') Q s :
  along quiet m -> gated client r s -> (forall a s', m s = (Ok a, s') -> gated client r s' -> wp (k a) Q s') -> wp (flow_bind m k) Q s.
Proof.
  intros Hm Hs Hk. apply wp_bind, wp_quiet; [done|by destruct Hs as [[] _]|]. intros a s' E Ht _. apply Hk; [done|]. by eapply gated_quiet.
Qed.

(** Freezing a login. *)
Lemma during_mfa s m' : during s -> (forall id ch, mm_entries m' !! id = Some ch -> frozen_ok (ls_log s) ch) -> during (set_mfa (Some m') s).
Proof. intros [[] ? ? ?] H. constructor; [|done..]. constructor; try done. cbn. intros ? id ch [= <-]. apply H. Qed.
Lemma during_txn s m' : during s -> (forall id ch, m' !! id = Some ch -> frozen_ok (ls_log s) ch) -> during (set_transactions (Some m') s).
Proof. intros [[] ? ? ?] H. constructor; [|done..]. constructor; try done. cbn. intros ? id ch [= <-]. apply H. Qed.

Lemma frozen_accepted client r r' s now ttl id st :
  accepted client r s -> rs_Result st = Some r' -> re_UserID r' = re_UserID r ->
  frozen_ok (ls_log s) (new_challenge now ttl id (re_UserID r) (cl_ID client) (FrozenLogin st)).
Proof. intros Ha Hr Hu. unfold frozen_ok. cbn. rewrite Hr. intros ? [= <-]. rewrite Hu. split; [apply Ha|done]. Qed.

Lemma wp_mfa_put s now ch Q : during s -> frozen_ok (ls_log s) ch -> (forall b s', during s' -> Q b s') ->
  wp (on_store ls_mfa set_mfa false (mfa_Put now ch)) Q s.
Proof.
  intros Hd Hch HQ. unfold wp, on_store. destruct (ls_mfa s) as [m|] eqn:Hm; [|split; [done|by apply HQ]].
  assert (during (set_mfa (Some (mfa_Put now ch m).2) s)) as Hd'.
  { apply during_mfa; [done|]. intros id ch'. pose proof (vo_mfa _ (du_vouched _ _ Hd) m) as Hv. unfold mfa_Put.
    destruct (decide _); [by apply Hv|]. cbn. intros [[<- <-]|[_ Hl]]%lookup_insert_Some; [done|].
    destruct (_ <=? _); cbn in Hl; [apply map_lookup_filter_Some in Hl as [Hl _]|]; by eapply Hv. }
  destruct (mfa_Put now ch m) as [b m']. split; [done|by apply HQ].
Qed.
Lemma wp_txn_put s ch Q : during s -> frozen_ok (ls_log s) ch -> (forall b s', during s' -> Q b s') ->
  wp (on_store ls_transactions set_transactions false (txn_Put ch)) Q s.
Proof.
  intros Hd Hch HQ. unfold wp, on_store. destruct (ls_transactions s) as [m|] eqn:Hm; [|split; [done|by apply HQ]].
  assert (during (set_transactions (Some (txn_Put ch m).2) s)) as Hd'.
  { apply during_txn; [done|]. intros id ch'. pose proof (vo_txn _ (du_vouched _ _ Hd) m) as Hv. unfold txn_Put.
    destruct (decide _); [by apply Hv|]. cbn. intros [[<- <-]|[_ Hl]]%lookup_insert_Some; [done|]. by eapply Hv. }
  destruct (txn_Put ch m) as [b m']. split; [done|by apply HQ].
Qed.

Lemma challenge_ok {A} q r req client provider (Q : A -> LS -> Prop) s : accepted client r s -> wp (issueMFAChallenge d q r req client provider) Q s.
Proof.
  intros Ha. unfold issueMFAChallenge. apply wp_bind. unfold persistMFAChallenge. destruct (hq_mfaID q) as [id|]; [|apply wp_fail, Ha].
  apply wp_bind, wp_mfa_put; [apply Ha|by eapply frozen_accepted|]. intros [] s' Hd; [|by apply wp_fail]. apply wp_ret; [done|].
  apply wp_tame; [apply quiet_tame; repeat along|done|]. unfold flow_bind, on_x, on_front, log, stop. by intros a ? E; repeat case_match.
Qed.

(** The gates leave a login as it is, or freeze it. *)
Lemma risk_ok q skip r req client s Q : gated client r s -> (forall s', gated client r s' -> Q () s') -> wp (evaluateLoginRisk d q skip r req client) Q s.
Proof.
  intros Hg HQ. unfold evaluateLoginRisk. pose proof (at_during _ _ _ (proj1 Hg)).
  destruct (ld_riskScorer d) as [score|]; [|by apply wp_ret; [|apply HQ]].
  eapply wp_gated; [auto with login|done|]. intros a s1 _ Hg1. pose proof (at_during _ _ _ (proj1 Hg1)).
  assert (wp (flow_ret ()) Q s1) as Hret by by apply wp_ret; [|apply HQ].
  destruct a as [[[]|]|]; [done| |..|done|done].
  - apply wp_tame; [|done|]; [apply quiet_tame; repeat along|]. unfold reject, log, fail_with, stop, flow_bind. by intros ? ?.
  - eapply wp_gated; [|done|]; [unfold mfa_wired; repeat along|]. intros wired s2 _ Hg2. pose proof (at_during _ _ _ (proj1 Hg2)).
    assert (wp (flow_ret ()) Q s2) as Hret2 by by apply wp_ret; [|apply HQ].
    destruct wired as [provider|]; [|done]. destruct (_ || _); [done|].
    eapply wp_gated; [auto with login|done|]. intros [] s3 _ Hg3; [apply wp_ret; [apply Hg3|by apply HQ]|]. apply challenge_ok, Hg3.
Qed.
Lemma access_ok q skip r req client s Q : gated client r s -> (forall req' s', gated client r s' -> Q req' s') -> wp (conditional_access d q skip r req client) Q s.
Proof.
  intros Hg HQ. unfold conditional_access. eapply wp_gated; [repeat along|done|]. intros front s1 _ Hg1.
  eapply wp_gated; [unfold mfa_wired; repeat along|done|]. intros wired s2 _ Hg2. pose proof (at_during _ _ _ (proj1 Hg2)).
  assert (forall n code, wp (reject (lr_ClientID req) (lr_Provider req) n code) Q s2) as Hrej.
  { intros n code. apply wp_tame; [auto with login|done|]. unfold reject, log, fail_with, stop, flow_bind. by intros ? ?. }
  destruct (enforceConditionalAccessLogin _ _ _ _ _ _ _ _ _ _) as [restriction| |restriction].
  - apply wp_ret; [done|by apply HQ].
  - apply Hrej.
  - destruct wired; [apply challenge_ok, Hg2|apply Hrej].
Qed.

Lemma wp_gates {A A'} client r (m : Flow A) (k : A -> Flow A') Q s :
  (forall Q, (forall a s', gated client r s' -> Q a s') -> wp m Q s) -> (forall a s', gated client r s' -> wp (k a) Q s') -> wp (flow_bind m k) Q s.
Proof. intros Hm Hk. by apply wp_bind, Hm. Qed.

Lemma residual_ok q skip req r client s Q : gated client r s -> (forall req' s', gated client r s' -> Q req' s') -> wp (residual_gates d q skip req r client) Q s.
Proof.
  intros Hg HQ. unfold residual_gates. apply (wp_gates client r); [intros Q' HQ'; by apply risk_ok; [|intros; apply HQ']|]. intros _ s1 Hg1.
  apply (wp_gates client r); [intros Q' HQ'; by apply access_ok|]. intros req1 s2 Hg2.
  eapply wp_gated; [auto with login|done|]. intros _ s3 _ Hg3. eapply wp_gated; [auto with login|done|]. intros _ s4 _ Hg4.
  apply wp_ret; [apply Hg4|by apply HQ].
Qed.

Lemma credential_gates_ok q skip req r client s Q : gated client r s -> (forall req' s', gated client r s' -> Q req' s') ->
  wp (runPostCredentialGates p d q skip req r client) Q s.
Proof.
  intros Hg HQ. unfold runPostCredentialGates. eapply wp_gated; [auto with login|done|]. intros _ s1 _ Hg1. by apply residual_ok.
Qed.

Lemma hook_same req client r s r' skip s' : runPostAuthenticateHook d req client r s = (Ok (r', skip), s') -> re_UserID r' = re_UserID r.
Proof.
  unfold runPostAuthenticateHook. destruct (ld_postHook d) as [hook|]; [|by intros [= <- _ _]].
  unfold flow_bind, on_x, on_front. destruct (hook req client r (fr_issuers (ls_front s))) as [[[add sk]|e] x]; [|unfold rejectAuthHook, flow_bind, log, on_x, on_front, fail_with, stop; by repeat case_match].
  unfold flow_ret. intros [= <- _ _]. by destruct (decide _).
Qed.

Lemma user_gate_ok req u s s' : rejectDeactivatedUser req u s = (Ok (), s') -> user_allowed s u.
Proof.
  unfold rejectDeactivatedUser, lookup_user, flow_bind, get. cbn. intros E. unfold user_allowed.
  destruct (lifecycleAuthentication (ls_front s) u) eqn:Hl; [|destruct (match _ with Some _ => _ | None => _ end); unfold reject, flow_bind, log, fail_with, stop in E; discriminate].
  split; [|done]. intros users usr Hu Hg. rewrite Hu in E. cbn in E. rewrite Hg in E. destruct (IsActive usr); [done|].
  unfold reject, flow_bind, log, fail_with, stop in E. discriminate.
Qed.
Lemma user_allowed_early s u : early s0 s -> user_allowed s u -> user_allowed s0 u.
Proof. intros [Hu _ _ Hl Hp]. unfold user_allowed, lifecycleAuthentication, LifecycleState, resolveLocalSubject. rewrite Hu, Hl, Hp. tauto. Qed.
(** A client that a login is for, and the session it may resume. *)
Record entering client (saved : option Result) s : Prop := {
  en_during : during s;
  en_early : early s0 s;
  en_client : ls_clients s0 !! cl_ID client = Some client;
  en_active : cl_Active client = true;
  en_saved : forall r, saved = Some r -> authed (ls_log s) (cl_ID client) (re_UserID r);
}.
Lemma entering_quiet client saved s s' : quiet s s' -> entering client saved s -> entering client saved s'.
Proof.
  intros [Ht He] []. constructor; [by eapply during_tame|by etrans|done|done|].
  intros r Hr. eapply authed_grows; [apply (ta_log _ _ Ht)|auto].
Qed.
Lemma wp_entering {A A'} client saved (m : Flow A) (k : A -> Flow A') Q s :
  along quiet m -> entering client saved s -> (forall a s', m s = (Ok a, s') -> entering client saved s' -> wp (k a) Q s') -> wp (flow_bind m k) Q s.
Proof.
  intros Hm Hs Hk. apply wp_bind, wp_quiet; [done|by destruct Hs|]. intros a s' E Ht _. apply Hk; [done|]. by eapply entering_quiet.
Qed.

(** The user of an accepted credential, once the gate on users has passed. *)
Lemma wp_user {A'} client r s req (k : () -> Flow A') Q :
  entering client (Some r) s -> (forall s', gated client r s' -> wp (k ()) Q s') -> wp (flow_bind (rejectDeactivatedUser req (re_UserID r)) k) Q s.
Proof.
  intros Hs Hk. eapply wp_entering; [auto with login|done|]. intros [] s' E Hs'. apply Hk. split; [|apply Hs'].
  constructor; [apply Hs'|apply Hs'|apply Hs'|by apply (en_saved _ _ _ Hs')|]. eapply user_allowed_early; [apply Hs|by eapply user_gate_ok].
Qed.

Lemma entering_vouched client saved r s pv : entering client saved s -> entering client (Some r) (add_event (Vouched pv (cl_ID client) (re_UserID r)) s).
Proof.
  intros Hs. apply (entering_quiet client saved _ _ (quiet_log (Vouched pv (cl_ID client) (re_UserID r)) s)) in Hs. destruct Hs. constructor; try done.
  intros ? [= <-]. eexists. split; [cbn; apply elem_of_app; right; by apply list_elem_of_singleton|eauto].
Qed.

Lemma federated_start_ok q req client auth s Q : during s -> Q () s -> wp (beginFederatedLogin p d q req client auth) Q s.
Proof.
  intros Hd HQ. unfold beginFederatedLogin. destruct (hq_stateID q) as [id|]; [|by apply wp_fail]. cbv zeta. destruct (decide _); [done|].
  apply wp_bind. apply wp_ret; [done|]. destruct (_ || _); [by apply wp_fail|]. apply wp_bind, wp_txn_put; [done|done|].
  intros [] s' Hd'; [by apply wp_stop|by apply wp_fail].
Qed.

Lemma wp_halts {A} (m : Flow A) Q s : along tame m -> during s -> is_ok (m s).1 = false -> wp m Q s.
Proof. intros Hm Hd Hf. apply wp_tame; [done|done|]. intros a s' E. by rewrite E in Hf. Qed.

Lemma credential_ok q req client saved s Q : entering client saved s -> (forall r s', gated client r s' -> Q r s') -> wp (authenticateUser p d q req client) Q s.
Proof.
  intros Hs HQ. unfold authenticateUser. eapply wp_entering; [auto with login|done|]. intros [auth|] s1 _ Hs1; [|apply wp_fail, Hs1].
  apply wp_bind, federated_start_ok; [apply Hs1|]. cbv zeta. eapply wp_entering; [auto with login|done|]. intros [] s2 _ Hs2.
  { apply wp_halts; [auto with login|apply Hs2|done]. }
  eapply wp_entering; [auto with login|done|]. intros [r|e] s3 _ Hs3.
  2: { apply wp_halts; [auto with login|apply Hs3|]. unfold handleAuthFailure, flow_bind. destruct (lockout_failure q _ s3) as [[[]|e'] s4]; [..|done]; [done|by destruct e]. }
  apply wp_bind. unfold log. apply (entering_vouched _ _ r _ (lr_Provider req)) in Hs3. split; [apply Hs3|]. apply (wp_user client); [done|]. intros s4 Hs4.
  eapply wp_gated; [auto with login|done|]. intros _ s5 _ Hs5. apply wp_ret; [apply Hs5|by apply HQ].
Qed.

Lemma session_ok q req client saved s Q : entering client saved s -> (forall r s', gated client r s' -> Q r s') -> wp (authenticateBrowserUser d req saved) Q s.
Proof.
  intros Hs HQ. unfold authenticateBrowserUser. eapply wp_entering; [repeat along|done|]. intros users s1 _ Hs1.
  destruct saved as [r|]; [|apply wp_fail, Hs1]. destruct users as [users|]; [|apply wp_fail, Hs1]. destruct (GetByID _ _) as [u|]; [|apply wp_fail, Hs1].
  destruct (negb _); [apply wp_fail, Hs1|]. eapply wp_entering; [auto with login|done|]. intros auth s2 _ Hs2. destruct (bool_decide _); [|apply wp_fail, Hs2].
  apply (wp_user client); [done|]. intros s3 Hs3. apply wp_ret; [apply Hs3|]. apply HQ. by eapply gated_same, Hs3.
Qed.

Lemma stage_ok q req client saved s Q : entering client saved s -> (forall r skip req' s', gated client r s' -> Q (r, skip, req') s') ->
  wp (credentialLoginStage p d q req client saved) Q s.
Proof.
  intros Hs HQ. unfold credentialLoginStage. apply wp_bind.
  assert (forall Q, (forall r s', gated client r s' -> Q r s') -> wp (authenticateCredentialOrSession p d q req client saved) Q s) as Hauth.
  { intros. unfold authenticateCredentialOrSession. destruct (lr_ResumeSession req); [by apply (session_ok q req client)|by eapply credential_ok]. }
  apply Hauth. intros r s1 Hg1. eapply wp_gated; [auto with login|done|]. intros _ s2 _ Hg2.
  eapply wp_gated; [auto with login|done|]. intros [r3 skip] s3 E Hg3. apply hook_same in E. apply (gated_same _ _ r3) in Hg3; [|done].
  apply (wp_gates client r3); [intros; by apply credential_gates_ok|]. intros req4 s4 Hg4. eapply wp_gated; [auto with login|done|].
  intros _ s5 _ Hg5. apply wp_ret; [apply Hg5|by apply HQ].
Qed.
(** ** The end of a login *)

Lemma tame_front {A} (m : M (Front B X) A) : along tame (on_front m).
Proof. intros s. unfold on_front. destruct (m (ls_front s)) as [a v]. by constructor. Qed.
Hint Resolve tame_front : login.

Lemma upsert_ok r : along tame (upsertLoginUser r) /\ forall s r' s', upsertLoginUser r s = (Ok r', s') ->
  re_UserID r' = re_UserID r /\ ls_consents s' = ls_consents s /\ ls_challenges s' = ls_challenges s.
Proof.
  unfold upsertLoginUser. split.
  - intros s. destruct (ls_users s) as [users|]; [|reflexivity]. destruct (CreateOrUpdate _ users) as [[] u]; by constructor.
  - intros s r' s'. destruct (ls_users s) as [users|]; [|by intros [= <- <-]]. destruct (CreateOrUpdate _ users) as [[] u]; [|by unfold fail_with, stop].
    by intros [= <- <-].
Qed.
Lemma tame_preferences r req : along tame (applyLoginPresentationPreferences r req : Flow ()).
Proof.
  intros s. unfold applyLoginPresentationPreferences. destruct (ls_users s) as [users|]; [|reflexivity].
  destruct (GetByID _ _); [|reflexivity]. cbv zeta. destruct (decide _); [reflexivity|]. by constructor.
Qed.
Lemma tame_member r client : along tame (ensureJITMembership d r client : Flow ()).
Proof. unfold ensureJITMembership. repeat along. Qed.
Lemma tame_createSession q u client scopes t dc : along tame (createSession d q u client scopes t dc : Flow _).
Proof. unfold createSession, evictOldestSession, on_sessions. cbv zeta. repeat along. Qed.
Hint Resolve tame_preferences tame_member tame_createSession : login.
Lemma tame_codeSession q r req client : along tame (codeFlowSession d q r req client : Flow string).
Proof. unfold codeFlowSession. repeat along. Qed.
Lemma tame_binding q : along tame (captureAuthCodeDPoPBinding c d q : Flow string).
Proof. unfold captureAuthCodeDPoPBinding. repeat along. Qed.
Lemma tame_render q req client code sid : along tame (renderAuthCodeResponse d q req client code sid : Flow Resp).
Proof. unfold renderAuthCodeResponse. cbv zeta. repeat along. Qed.
Lemma tame_directSession q r req client : along tame (prepareDirectMintSession d q r req client : Flow _).
Proof. unfold prepareDirectMintSession. repeat along. Qed.
Lemma tame_mint q r req client sid dc trust : along tame (mintAccessToken d q r req client sid dc trust : Flow _).
Proof. unfold mintAccessToken. repeat along. Qed.
Lemma tame_refresh q r req client sid resp : along tame (direct_refresh d q r req client sid resp : Flow body).
Proof. unfold direct_refresh. repeat along. Qed.
Lemma tame_secret q r req client sid : along tame (direct_secret d q r req client sid : Flow string).
Proof.
  unfold direct_secret. destruct (negb _); [repeat along|]. destruct (hq_secret q); [|repeat along].
  intros s'. unfold on_store. destruct (ls_secrets s') as [t|]; [|reflexivity]. by constructor.
Qed.
Lemma tame_idToken q r req client sub sid at_ secret resp : along tame (emitLoginIDToken d q r req client sub sid at_ secret resp : Flow body).
Proof. unfold emitLoginIDToken. cbv zeta. repeat along. Qed.
Hint Resolve tame_codeSession tame_binding tame_render tame_directSession tame_mint tame_refresh tame_secret tame_idToken : login.

Lemma direct_ok q skip r req client s Q : accepted client r s -> (forall a s', Q a s') -> wp (finishLoginDirectMint d q skip r req client) Q s.
Proof.
  intros Ha HQ. unfold finishLoginDirectMint. eapply wp_accepted; [auto with login|done|]. intros [session dc] s1 _ Ha1.
  eapply wp_accepted; [unfold mfa_wired; repeat along|done|]. intros wired s2 _ Ha2. cbv zeta. destruct (match wired with Some _ => _ | None => _ end); [by apply challenge_ok|].
  apply wp_tame; [repeat along|apply Ha2|done].
Qed.

Lemma pkce_ok req client strict req' : validatePKCEForCode req client strict = Ok req' ->
  set_challenge_method (lr_CodeChallengeMethod req') req = req' /\
  (cl_RequirePKCE client = true \/ strict = true -> lr_CodeChallenge req' <> "") /\
  (lr_CodeChallenge req' <> "" -> (lr_CodeChallengeMethod req' = PKCEMethodPlain \/ lr_CodeChallengeMethod req' = PKCEMethodS256) /\
     IsPKCEMethodAllowedForClient (lr_CodeChallengeMethod req') (lc_AllowedPKCEMethods client) = true /\
     (strict = true -> lr_CodeChallengeMethod req' = PKCEMethodS256)).
Proof.
  unfold validatePKCEForCode. destruct (decide (lr_CodeChallenge req = "")) as [Hc|Hc].
  { destruct (_ || _) eqn:Hr; [done|]. intros [= <-]. bool_simpl. split_and!; [by destruct req|intros [?|?]; congruence|done]. }
  cbv zeta. destruct (_ || _); [done|]. destruct (negb (IsValidPKCEMethod _)) eqn:Hm; [done|].
  set (req1 := if decide (lr_CodeChallengeMethod req = "") then _ else _).
  assert (set_challenge_method (lr_CodeChallengeMethod req1) req = req1 /\ lr_CodeChallenge req1 = lr_CodeChallenge req /\
          (lr_CodeChallengeMethod req1 = PKCEMethodPlain \/ lr_CodeChallengeMethod req1 = PKCEMethodS256)) as (H1 & H2 & H3).
  { subst req1. unfold IsValidPKCEMethod in Hm. destruct (decide _) as [He|He]; [split_and!; try done; by left|].
    split_and!; [by destruct req|done|]. rewrite (bool_decide_eq_false_2 _ He) in Hm. apply negb_false_iff, orb_true_iff in Hm as [Hm|Hm]; apply bool_decide_eq_true in Hm; auto. }
  destruct (strict && _) eqn:Hs; [done|]. destruct (negb (IsPKCEMethodAllowedForClient _ _)) eqn:Ha; [done|]. intros [= <-].
  rewrite H2. split_and!; [done|done|]. intros _. apply negb_false_iff in Ha. split_and!; [done|done|]. intros ->. cbn in Hs. by bool_simpl.
Qed.

(** What a login has passed before its code is issued. *)
Record cleared client r req : Prop := {
  cd_scopes : forall sc, sc ∈ lr_Scope req -> cl_AllowedScopes client = [] \/ sc ∈ cl_AllowedScopes client \/ scope_exempt sc = true;
  cd_consent : forall grants, ls_consents s0 = Some grants -> exists now prompt id,
    consented (pa_Raw p) now (re_UserID r) client (lr_Scope req) prompt id (lr_AuthorizationDetails req) grants (ls_challenges s0);
}.
Lemma issue_ok q r req client jkt sid s Q : accepted client r s -> code_for s0 client (auth_code_entry (hq_now q) (code_params d r req client jkt sid)) ->
  (forall code s', accepted client r s' -> Q code s') -> wp (issueAuthCode d q r req client jkt sid) Q s.
Proof.
  intros Ha Hc HQ. unfold issueAuthCode. apply wp_bind.
  eapply (wp_mono _ (fun _ s' => accepted client r s')); [|by intros [code|e] s' Ha'; [apply wp_ret; [apply Ha'|by apply HQ]|apply wp_fail, Ha']].
  set (e := auth_code_entry _ _) in *. pose proof (at_during _ _ _ Ha) as [[] ? ? Hk]. unfold wp, on_store, IssueAuthCode. fold e.
  destruct (ls_codes s) as [m|] eqn:Hm; [|by destruct Ha].
  assert (forall m', m' = m \/ acs_entries m' = Store (acs_entries m) (default "" (hq_code q)) e -> accepted client r (set_codes (Some m') s)) as Hstored.
  { intros m' Hm'. destruct Ha. constructor; try done. constructor; [constructor; try done|done|done|].
    - cbn. intros ? [= <-]. destruct Hm' as [->| ->]; [|apply placed_Store]; by apply vo_codes0.
    - intros id ac (? & [= <-] & Hl). assert (stored_code s id ac \/ ac = e) as [Hs| ->]; [|by apply Hk|by right; split; [exists client|]].
      destruct Hm' as [->|Hm']; [left; by exists m|]. rewrite Hm', denote_Store in Hl by by apply vo_codes0.
      apply lookup_insert_Some in Hl as [[_ <-]|[_ Hl]]; [by right|left; by exists m]. }
  destruct (hq_code q) as [code|]; [|by split; [apply Hstored|apply Hstored]; left].
  unfold issue_code_memory, IssueCode. destruct (decide _); [by split; [apply Hstored|apply Hstored]; left|].
  destruct (_ && _); [by split; [apply Hstored|apply Hstored]; left|]. split; [apply Hstored|apply Hstored]; by right.
Qed.

Lemma code_ok q r req client s Q : accepted client r s -> cleared client r req -> (forall a s', Q a s') -> wp (finishLoginCodeFlow c p d q r req client) Q s.
Proof.
  intros Ha [Hsc Hco] HQ. unfold finishLoginCodeFlow. eapply wp_accepted; [repeat along|done|]. intros wired s1 _ Ha1.
  destruct (negb wired); [apply wp_fail, Ha1|]. destruct (_ || _ || _) eqn:Hr; [apply wp_halts; [auto with login|apply Ha1|done]|]. bool_simpl.
  destruct (validatePKCEForCode _ _ _) as [req'|code] eqn:Hp; [|apply wp_halts; [auto with login|apply Ha1|done]]. apply pkce_ok in Hp as (Hreq & Hpk & Hpm).
  eapply wp_accepted; [auto with login|done|]. intros jkt s2 _ Ha2. eapply wp_accepted; [auto with login|done|]. intros sid s3 _ Ha3.
  apply wp_bind, issue_ok; [done| |].
  - rewrite <- Hreq in *. constructor; try done; try apply Ha.
  - intros code s4 Ha4. apply wp_tame; [repeat along|apply Ha4|by intros].
Qed.

Lemma scope_ok req client s granted s' : validateAndAuthorizeScope d req client s = (Ok granted, s') ->
  forall sc, sc ∈ granted -> cl_AllowedScopes client = [] \/ sc ∈ cl_AllowedScopes client \/ scope_exempt sc = true.
Proof.
  unfold validateAndAuthorizeScope. destruct (_ && _); [done|]. destruct (_ && _); [done|].
  pose proof (GrantedScopes_spec (lr_Scope req) client) as Hg. destruct (GrantedScopes _ _) as [g|e]; [|by unfold reject, flow_bind, log, fail_with, stop].
  destruct (policyScopeRemovedAll _ _ _); [by unfold reject, flow_bind, log, fail_with, stop|]. intros [= <- _] sc Hsc. apply Hg.
  destruct (lr_PolicyScopeRestriction req); [by eapply restrict_subset|done].
Qed.

Lemma transaction_ok q st client s Q : during s ->
  frozen_ok (ls_log s) (new_challenge 0 0 "" (default "" (re_UserID <$> rs_Result st)) (cl_ID client) (FrozenLogin st)) ->
  (forall id s', during s' -> Q id s') -> wp (issueLoginTransaction d q st client) Q s.
Proof.
  intros Hd Hf HQ. unfold issueLoginTransaction. destruct (hq_txnID q); [|by apply wp_ret; [|apply HQ]].
  apply wp_bind, wp_txn_put; [done|done|]. intros b s' Hd'. by apply wp_ret; [|apply HQ].
Qed.

Lemma continuation_ok q td req client r id s Q : accepted client r s -> wp (login_continuation d q td req client r id) Q s.
Proof.
  intros Ha. unfold login_continuation. eapply wp_accepted; [repeat along|done|]. intros wired s1 _ Ha1. destruct (negb wired); [apply wp_stop, Ha1|].
  apply wp_bind, transaction_ok; [apply Ha1|by apply (frozen_accepted client r (frozen_result r))|]. intros [txn|] s2 Hd; [by apply wp_stop|by apply wp_fail].
Qed.

Lemma consent_ok q td r req req' client s Q : accepted client r s -> ls_consents s = ls_consents s0 -> ls_challenges s = ls_challenges s0 ->
  (forall s', accepted client r s' ->
     (forall grants, ls_consents s0 = Some grants -> exists now prompt id,
        consented (pa_Raw p) now (re_UserID r) client (lr_Scope req) prompt id (lr_AuthorizationDetails req) grants (ls_challenges s0)) -> Q () s') ->
  wp (consent_gate p d (login_continuation d q td req' client r) q r req client) Q s.
Proof.
  intros Ha Hc1 Hc2 HQ. unfold consent_gate, wp. destruct (ls_consents s) as [grants|] eqn:Hg.
  2: { split; [apply Ha|]. apply HQ; [done|]. by rewrite <- Hc1. }
  destruct (handleConsentGate _ _ _ _ _ _ _ _ _ _ _) as [question [grants' challenges']] eqn:E.
  assert (accepted client r (set_consents (Some grants') challenges' s)) as Ha' by by eapply accepted_tame, Ha; constructor.
  destruct question as [id|]; [by apply continuation_ok|]. split; [apply Ha'|]. apply HQ; [done|].
  intros g. rewrite <- Hc1, <- Hc2. intros [= <-]. eexists _, _, _. by apply consent_gate_sound in E as [E _].
Qed.

Lemma login_finish_ok q skip td r req client s Q : gated client r s -> (forall a s', Q a s') -> wp (finish c p d q skip td r req client) Q s.
Proof.
  intros [Ha He] HQ. unfold finish, finishLogin. apply wp_bind. destruct (upsert_ok (fresh_time q r)) as [Ht Hv].
  apply wp_tame; [done|apply Ha|]. intros r1 s1 E Ht1 _. apply Hv in E as (Hu & Hc1 & Hc2). apply (accepted_tame _ _ _ s1) in Ha; [|done].
  apply (accepted_same _ _ r1) in Ha; [|rewrite Hu; unfold fresh_time; by destruct (GoTime.IsZero _)].
  apply wp_bind, wp_quiet; [auto with login|apply Ha|]. intros granted s2 E [Ht2 He2] _. apply (accepted_tame _ _ _ s2) in Ha; [|done]. pose proof (scope_ok _ _ _ _ _ E) as Hsc. cbv zeta.
  apply wp_bind, consent_ok; [done|destruct He, He2; congruence|destruct He, He2; congruence|]. intros s3 Ha3 Hco.
  eapply wp_accepted; [auto with login|done|]. intros _ s4 _ Ha4. eapply wp_accepted; [auto with login|done|]. intros _ s5 _ Ha5.
  destruct (decide _); [by apply code_ok|]. destruct (_ && _); [apply wp_fail, Ha5|by apply direct_ok].
Qed.
Lemma trust_ok q r req client u td s Q : gated client r s -> (forall a s', Q a s') -> wp (finishLoginWithDeviceTrust c p d q r req client u td) Q s.
Proof.
  intros Hg HQ. unfold finishLoginWithDeviceTrust. apply wp_bind. eapply (wp_mono _ (fun _ s' => during s')).
  2: { intros a s' Hd. apply wp_tame; [|done|done]. destruct (ld_trustedDevices d); repeat along. }
  assert (forall m : Flow Resp, wp m (fun _ _ => True) s -> wp m (fun _ s' => during s') s) as Hd by (intros m [Hm _]; split; [done|by destruct (m s).1]).
  by apply Hd, login_finish_ok.
Qed.

(** ** Taking up a frozen login *)

Lemma take_ok now id (m : gmap string MFAChallenge) : (take_challenge now id m).2 ⊆ m /\ forall ch, (take_challenge now id m).1 = Some ch -> m !! id = Some ch.
Proof.
  unfold take_challenge. destruct (m !! id) as [ch|]; [|done]. cbn. split; [apply delete_subseteq|]. intros ch'. destruct (_ <? _); congruence.
Qed.

Lemma wp_txn_consume q id s Q : during s -> early s0 s -> (forall found s', during s' -> early s0 s' -> (forall ch, found = Some ch -> frozen_ok (ls_log s') ch) -> Q found s') ->
  wp (on_store ls_transactions set_transactions None (txn_Consume (hq_now q) id)) Q s.
Proof.
  intros Hd He HQ. unfold wp, on_store, txn_Consume. destruct (ls_transactions s) as [m|] eqn:Hm; [|split; [done|by apply HQ]].
  destruct (take_ok (hq_now q) id m) as [Hsub Hin]. destruct (take_challenge _ _ m) as [found m'].
  pose proof (vo_txn _ (du_vouched _ _ Hd) m) as Hv. assert (during (set_transactions (Some m') s)) as Hd'.
  { apply during_txn; [done|]. intros id' ch Hl. eapply Hv; [done|by eapply lookup_weaken]. }
  split; [done|]. apply HQ; [done|by destruct He; constructor|]. intros ch ->. by eapply Hv, Hin.
Qed.
Lemma wp_mfa_consume q id s Q : during s -> early s0 s -> (forall found s', during s' -> early s0 s' -> (forall ch, found = Some ch -> frozen_ok (ls_log s') ch) -> Q found s') ->
  wp (on_store ls_mfa set_mfa None (mfa_Consume (hq_now q) id)) Q s.
Proof.
  intros Hd He HQ. unfold wp, on_store, mfa_Consume. destruct (ls_mfa s) as [m|] eqn:Hm; [|split; [done|by apply HQ]].
  pose proof (vo_mfa _ (du_vouched _ _ Hd) m) as Hv. destruct (decide (id = "")).
  { split; [apply during_mfa; [done|by intros; eapply Hv]|]. apply HQ; [apply during_mfa; [done|by intros; eapply Hv]|by destruct He; constructor|done]. }
  destruct (take_ok (hq_now q) id (mm_entries m)) as [Hsub Hin]. destruct (take_challenge _ _ (mm_entries m)) as [found m'].
  assert (during (set_mfa (Some {| mm_entries := m'; mm_lastSweep := mm_lastSweep m |}) s)) as Hd'.
  { apply during_mfa; [done|]. intros id' ch Hl. eapply Hv; [done|by eapply lookup_weaken]. }
  split; [done|]. apply HQ; [done|by destruct He; constructor|]. intros ch ->. by eapply Hv, Hin.
Qed.

(** A client that is looked up again. *)
Lemma current_ok {A} q id (k : option LoginClient -> Flow A) s Q : during s -> early s0 s ->
  (forall found s', quiet s s' -> during s' -> early s0 s' -> (forall client, found = Some client -> ls_clients s0 !! cl_ID client = Some client /\ cl_ID client = id /\ cl_Active client = true) ->
     wp (k found) Q s') -> wp (flow_bind (current_client q id) k) Q s.
Proof.
  intros Hd He HQ. apply wp_bind, wp_ret; [done|]. apply HQ; [reflexivity|done|done|]. intros client Hf.
  destruct (ls_clients s !! id) as [cl|] eqn:Hl; [|done]. destruct (cl_Active cl) eqn:Hac; [|done]. destruct (clientTenantOK q cl); [|done]. injection Hf as <-.
  pose proof (vo_clients _ (du_vouched _ _ Hd) _ _ Hl) as Hid. rewrite Hid, <- (du_clients _ _ Hd). done.
Qed.

(** What was frozen is as if it had been accepted now. *)
Lemma entering_frozen client ch st r s : during s -> early s0 s -> ls_clients s0 !! cl_ID client = Some client -> cl_ID client = mc_ClientID ch -> cl_Active client = true ->
  mc_RequestState ch = FrozenLogin st -> frozen_ok (ls_log s) ch -> rs_Result st = Some r -> entering client (Some r) s.
Proof.
  intros Hd He Hc Hid Hac Hst Hf Hr. unfold frozen_ok in Hf. rewrite Hst in Hf. constructor; try done. intros r' [= <-]. rewrite Hid. by apply Hf.
Qed.

Lemma residual_gates_ok q req r client s Q : gated client r s -> (forall req' s', gated client r s' -> Q req' s') -> wp (resumeLoginResidualGates d q req r client) Q s.
Proof. intros Hg HQ. unfold resumeLoginResidualGates. eapply wp_gated; [auto with login|done|]. intros _ s1 _ Hg1. by apply residual_ok. Qed.

Lemma entering_same client r r' s : re_UserID r' = re_UserID r -> entering client (Some r) s -> entering client (Some r') s.
Proof. intros Hr []. constructor; try done. intros ? [= <-]. rewrite Hr. auto. Qed.

Lemma after_mfa_ok q ch m s Q : during s -> early s0 s -> frozen_ok (ls_log s) ch -> (forall a s', Q a s') -> wp (resumeLoginAfterMFA c p d q ch m) Q s.
Proof.
  intros Hd He Hf HQ. unfold resumeLoginAfterMFA. destruct (mc_RequestState ch) as [st|] eqn:Hst; [|by apply wp_fail].
  destruct (rs_Result st) as [r|] eqn:Hr; [|by apply wp_fail]. destruct (rs_AuthenticationComplete st); [by apply wp_fail|].
  apply current_ok; [done|done|]. intros [client|] s1 Hq Hd1 He1 Hc; [|by apply wp_tame; [apply quiet_tame; repeat along|done|]].
  destruct (Hc client) as (Hl & Hid & Hac); [done|]. eapply frozen_grows in Hf; [|apply Hq].
  pose proof (entering_frozen _ _ _ _ _ Hd1 He1 Hl Hid Hac Hst Hf Hr) as Hen. cbv zeta. apply (wp_user client); [by eapply entering_same, Hen|]. intros s2 Hg2.
  eapply wp_gated; [auto with login|done|]. intros _ s3 _ Hg3. eapply wp_gates; [intros; by apply residual_gates_ok|]. intros req4 s4 Hg4. by apply trust_ok.
Qed.

Lemma mfa_ok q params s Q : during s -> early s0 s -> (forall a s', Q a s') -> wp (handleMFAComplete c p d q params) Q s.
Proof.
  intros Hd He HQ. unfold handleMFAComplete. apply wp_bind, wp_ret; [done|]. destruct (match ls_mfa s with Some _ => _ | None => _ end) as [provider|]; [|by apply wp_fail].
  destruct params as [m|]; [|by apply wp_fail]. destruct (_ || _); [by apply wp_fail|]. apply wp_bind. unfold verifyMFAFactor, mfa_invalid.
  apply wp_bind, wp_mfa_consume; [done|done|]. intros [ch|] s1 Hd1 He1 Hf; [|apply wp_tame; [apply quiet_tame; repeat along|done|by unfold log, fail_with, stop, flow_bind]].
  apply wp_quiet; [repeat along|done|]. intros ch' s2 E Hq2 Hd2. apply after_mfa_ok; [done|by etrans; [|apply Hq2]| |done].
  assert (ch' = ch) as ->.
  { unfold flow_bind in E. destruct (lockout_locked q _ s1) as [[[]|] s3]; [by unfold log, fail_with, stop in E| |done].
    destruct (on_x _ s3) as [[[]|] s4]; [|by destruct (lockout_failure q _ s4) as [[]]; unfold log, fail_with, stop in E|done].
    destruct (lockout_success _ s4) as [[]]; [by injection E as <-|done]. }
  eapply frozen_grows; [apply Hq2|by apply Hf].
Qed.
Lemma tame_deny q req r client : along tame (denyLoginConsent p d q req r client : Flow ()).
Proof.
  unfold denyLoginConsent. cbv zeta. repeat along. intros s. destruct (ConsumeChallenge _ _ _ _ _ _ _ _) as [v cs]. by constructor.
Qed.

Lemma deny_ok q req client r s Q : gated client r s -> (forall s', gated client r s' -> Q () s') -> wp (denyLoginConsent p d q req r client) Q s.
Proof.
  intros Hg HQ. unfold denyLoginConsent. destruct (_ || _); [apply wp_ret; [apply Hg|by apply HQ]|].
  eapply wp_gated; [repeat along|done|]. intros wired s1 _ Hg1. destruct (_ || _); [apply wp_fail, Hg1|].
  eapply wp_gated; [auto with login|done|]. intros granted s2 _ Hg2. apply wp_halts; [|apply Hg2|].
  - apply along_bind; [apply _| |intros []; repeat along]. intros s'. destruct (ConsumeChallenge _ _ _ _ _ _ _ _) as [v cs]. by constructor.
  - unfold flow_bind. destruct (ConsumeChallenge _ _ _ _ _ _ _ _) as [[] cs]; done.
Qed.

Lemma consume_ok q req s Q : during s -> early s0 s ->
  (forall ch st s', during s' -> early s0 s' -> frozen_ok (ls_log s') ch -> mc_RequestState ch = FrozenLogin st -> Q (ch, st) s') ->
  wp (consumeLoginTransaction q req) Q s.
Proof.
  intros Hd He HQ. unfold consumeLoginTransaction. destruct (_ || _); [by apply wp_fail|]. apply wp_bind, wp_txn_consume; [done|done|].
  intros [ch|] s1 Hd1 He1 Hf; [|by apply wp_fail]. destruct (negb _); [by apply wp_fail|]. destruct (mc_RequestState ch) as [st|] eqn:Hst; [|by apply wp_fail].
  destruct (validLoginTransactionState _ _ _); [|by apply wp_fail]. apply wp_ret; [done|]. by apply HQ; [| |apply Hf|].
Qed.

Lemma resume_ok q req s Q : during s -> early s0 s -> (forall a s', Q a s') -> wp (resumeLoginTransaction c p d q req) Q s.
Proof.
  intros Hd He HQ. unfold resumeLoginTransaction. apply wp_bind, consume_ok; [done|done|]. intros ch st s1 Hd1 He1 Hf Hst.
  apply wp_bind. unfold loginTransactionClient. apply current_ok; [done|done|]. intros [client|] s2 Hq2 Hd2 He2 Hc; [|by apply wp_fail].
  destruct (Hc client) as (Hl & Hid & Hac); [done|]. cbv zeta. apply wp_bind, wp_quiet; [auto with login|done|]. intros _ s3 _ Hq3 Hd3. apply wp_ret; [done|].
  assert (early s0 s3) as He3 by by etrans; [|apply Hq3]. eapply (frozen_grows _ (ls_log s3)) in Hf; [|etrans; [apply Hq2|apply Hq3]].
  assert (forall r, rs_Result st = Some r -> entering client (Some r) s3) as Hen by by intros; eapply entering_frozen.
  destruct (rs_FederatedReturn st).
  - unfold resumeFederatedLoginTransaction. destruct (negb _); [by apply wp_fail|]. destruct (rs_Result st) as [r|]; [|by apply wp_fail].
    apply (wp_user client); [by apply Hen|]. intros s4 Hg4. eapply wp_gated; [auto with login|done|]. intros [r5 skip] s5 E Hg5. apply hook_same in E.
    apply (gated_same _ _ r5) in Hg5; [|done]. eapply wp_gates; [intros; by apply credential_gates_ok|]. intros req6 s6 Hg6. by apply login_finish_ok.
  - destruct (rs_Result st) as [r|]; [|by apply wp_fail]. cbv zeta. apply (wp_user client); [by apply Hen|]. intros s4 Hg4.
    eapply wp_gates; [intros; by apply residual_gates_ok|]. intros req5 s5 Hg5. eapply wp_gates; [intros Q1 HQ1; apply deny_ok; [done|intros; by apply HQ1]|]. intros [] s6 Hg6.
    by apply trust_ok.
Qed.

(** ** A new login *)

Definition resumed (req : Request) (saved : option Result) s : Prop := forall r, saved = Some r -> authed (ls_log s) (lr_ClientID req) (re_UserID r).

Lemma bootstrap_ok q s Q : during s -> early s0 s -> (forall req saved s', during s' -> early s0 s' -> resumed req saved s' -> Q (req, saved) s') ->
  wp (bootstrapLoginRequest d q) Q s.
Proof.
  intros Hd He HQ. unfold bootstrapLoginRequest. destruct (hq_params q) as [req|]; [|by apply wp_fail]. apply wp_bind.
  eapply (wp_mono _ (fun rs s' => during s' /\ early s0 s' /\ (rs.2 = None \/ lr_RequestURI rs.1 = "" /\ resumed rs.1 rs.2 s'))).
  - unfold prepareBrowserResume. destruct (lr_ResumeSession req); [|by apply wp_ret; [|split_and!; [..|left]]]. cbn [negb].
    destruct (validBrowserResumeRequest req) eqn:Hv; [|by apply wp_fail]. cbn [negb]. destruct (ld_browserVerifier d); [|by apply wp_fail]. cbv zeta.
    destruct (_ && _); [by apply wp_fail|]. apply wp_bind, wp_quiet; [auto with login|done|]. intros [[res|]|[]] s1 _ Hq1 Hd1; [|by apply wp_fail..].
    destruct (Allows _ _ _ _); [|by apply wp_fail]. apply wp_bind, wp_quiet; [auto with login|done|]. intros [] s2 E Hq2 Hd2. apply wp_ret; [done|].
    split_and!; [done|etrans; [done|etrans; [apply Hq1|apply Hq2]]|]. right. unfold validBrowserResumeRequest in Hv. bool_simpl.
    split; [done|]. intros r' [= <-]. unfold log in E. injection E as <-. cbn. eexists. split; [apply elem_of_app; right; by apply list_elem_of_singleton|by right].
  - intros [req' saved] s' (Hd' & He' & Hs'). cbn [fst snd] in *. apply wp_bind. destruct Hs' as [->|[Hu Hs']].
    + apply wp_quiet; [auto with login|done|]. intros req2 s2 _ Hq2 Hd2. apply wp_ret; [done|]. by apply HQ; [|etrans; [|apply Hq2]|].
    + unfold resolveLoginRequest. destruct (decide _); [|done]. by apply wp_ret; [|apply wp_ret; [|apply HQ]].
Qed.

Lemma client_ok q req s client s' : during s -> resolveAndValidateLoginClient d q req s = (Ok client, s') ->
  ls_clients s0 !! cl_ID client = Some client /\ cl_ID client = lr_ClientID req /\ cl_Active client = true.
Proof.
  intros Hd. unfold resolveAndValidateLoginClient, reject, find_client, flow_bind, get, log, fail_with, stop. destruct (decide _); [done|].
  destruct (ls_clients s !! lr_ClientID req) as [cl|] eqn:Hl; [|done]. destruct (cl_Active cl) eqn:Hac; [|done]. cbn [negb].
  destruct (negb _); [done|]. destruct (residencyGateLogin _ _ _ _ _ s) as [[]]; [|done].
  destruct (_ && _); [done|]. destruct (_ && _); [done|]. destruct (negb _); [done|]. destruct (_ && _); [done|]. intros [= <- _].
  pose proof (vo_clients _ (du_vouched _ _ Hd) _ _ Hl) as Hid. by rewrite Hid, <- (du_clients _ _ Hd).
Qed.

Lemma pre_ok q req saved s Q : during s -> early s0 s -> resumed req saved s ->
  (forall client req' s', entering client saved s' -> Q (client, req') s') -> wp (preAuthLoginGates c p d q req) Q s.
Proof.
  intros Hd He Hs HQ. unfold preAuthLoginGates. destruct (decide _); [by apply wp_stop|]. apply wp_bind, wp_quiet; [auto with login|done|]. intros _ s1 _ Hq1 Hd1.
  apply wp_bind, wp_quiet; [auto with login|done|]. intros client s2 E Hq2 Hd2. apply client_ok in E as (Hl & Hid & Hac); [|done].
  assert (entering client saved s2) as Hen.
  { constructor; try done; [by etrans; [|etrans; [apply Hq1|apply Hq2]]|]. intros r Hr. rewrite Hid. eapply authed_grows; [|by apply Hs]. etrans; [apply Hq1|apply Hq2]. }
  eapply wp_entering; [auto with login|done|]. intros _ s3 _ Hs3. eapply wp_entering; [auto with login|done|]. intros req4 s4 _ Hs4.
  eapply wp_entering; [auto with login|done|]. intros _ s5 _ Hs5. apply wp_ret; [apply Hs5|by apply HQ].
Qed.

Lemma wp_map f (m : Flow Resp) s : wp m (fun _ _ => True) s -> wp (map_answer f m) (fun _ _ => True) s.
Proof. unfold wp, map_answer. destruct (m s) as [[a|a] s1]; done. Qed.

Lemma quiet_none q prompts req : along quiet (handlePromptNone c p d q prompts req : Flow Resp).
Proof. unfold handlePromptNone, validatePromptNoneAuthorization, find_client. repeat along. Qed.

Lemma login_ok q s : during s -> early s0 s -> wp (handleLogin c p d q) (fun _ _ => True) s.
Proof.
  intros Hd He. unfold handleLogin.
  apply wp_bind, wp_quiet; [unfold rejectNonJSONLogin; cbv zeta; repeat along|done|]. intros _ s1 _ Hq1 Hd1.
  apply wp_bind, wp_quiet; [unfold rejectDisallowedLoginOrigin; cbv zeta; repeat along|done|]. intros _ s2 _ Hq2 Hd2.
  apply wp_bind, bootstrap_ok; [done|by etrans; [|etrans; [apply Hq1|apply Hq2]]|]. intros req saved s3 Hd3 He3 Hs3.
  apply wp_bind, wp_quiet; [auto with login|done|]. intros _ s4 _ Hq4 Hd4.
  apply wp_bind, wp_quiet; [auto with login|done|]. intros _ s5 _ Hq5 Hd5.
  assert (early s0 s5) as He5 by (etrans; [done|etrans; [apply Hq4|apply Hq5]]).
  destruct (negb _); [by apply resume_ok|]. cbv zeta. destruct (_ && _); [by apply wp_quiet; [apply quiet_none|done|]|].
  apply wp_bind, wp_quiet; [auto with login|done|]. intros _ s6 _ Hq6 Hd6. unfold interactive_login.
  apply wp_bind, (pre_ok _ _ saved); [done|by etrans; [|apply Hq6]| |].
  { intros r Hr. eapply authed_grows; [|by apply Hs3]. etrans; [apply Hq4|etrans; [apply Hq5|apply Hq6]]. }
  intros client req' s7 Hs7. apply wp_map. apply wp_bind, (stage_ok _ _ client saved); [done|]. intros r skip req8 s8 Hg8. by apply login_finish_ok.
Qed.
(** ** The return from another provider *)

Lemma authorization_ok q w s Q : during s -> early s0 s -> (forall resume client s', entering client None s' -> Q (resume, client) s') ->
  wp (consumeFederatedAuthorization p d q w) Q s.
Proof.
  intros Hd He HQ. unfold consumeFederatedAuthorization. destruct (federatedProviderFromState w) as [pv|]; [|by apply wp_fail].
  apply wp_bind, wp_txn_consume; [done|done|]. intros [ch|] s1 Hd1 He1 _; [|by apply wp_fail]. destruct (mc_RequestState ch) as [|resume]; [by apply wp_fail|].
  destruct (negb _); [by apply wp_fail|]. apply wp_bind, wp_ret; [done|]. destruct (ls_clients s1 !! mc_ClientID ch) as [client|] eqn:Hl; [|by apply wp_fail].
  destruct (negb (validFederatedCallbackClient _ _ _ _ _)) eqn:Hv; [by apply wp_fail|]. unfold validFederatedCallbackClient in Hv. bool_simpl.
  assert (entering client None s1) as Hen.
  { constructor; try done. rewrite <- (du_clients _ _ Hd1). by rewrite (vo_clients _ (du_vouched _ _ Hd1) _ _ Hl). }
  eapply wp_entering; [auto with login|done|]. intros _ s2 _ Hs2. apply wp_ret; [apply Hs2|by apply HQ].
Qed.

Lemma outcome_same resume result code r : (federated_outcome resume result code).1 = Some r -> exists r', result = Some r' /\ re_UserID r = re_UserID r'.
Proof.
  unfold federated_outcome. destruct (negb _); [done|]. destruct result as [r'|]; [|done]. destruct (decide _); [done|].
  destruct (decide _); [intros [= <-]; by exists r'|]. destruct (decide _); [intros [= <-]; by exists r'|done].
Qed.

Lemma queue_ok q resume client result code s Q : entering client result s -> (forall a s', Q a s') -> wp (queueFederatedContinuation p d q resume client result code) Q s.
Proof.
  intros Hs HQ. unfold queueFederatedContinuation. pose proof (outcome_same resume result code) as Ho. destruct (federated_outcome _ _ _) as [result' code'].
  apply wp_bind, transaction_ok; [apply Hs| |].
  - unfold frozen_ok. cbn. intros r. destruct result' as [r'|]; [|done]. intros [= <-]. destruct (Ho r') as (r0 & -> & Hr); [done|].
    split; [|done]. cbn. rewrite Hr. by apply (en_saved _ _ _ Hs).
  - intros [txn|] s' Hd'; [|by apply wp_fail]. destruct (validFederatedLoginPage _ _); [by apply wp_ret|by apply wp_fail].
Qed.

Lemma callback_ok q k s Q : during s -> early s0 s -> (forall a s', Q a s') -> wp (handleCallback p d q k) Q s.
Proof.
  intros Hd He HQ. unfold handleCallback, handleFederatedOAuthCallback. destruct (federatedProviderFromState _) as [pv|]; [|by apply wp_fail].
  apply wp_bind, authorization_ok; [done|done|]. intros resume client s1 Hs1. destruct (_ && _); [by apply queue_ok|]. destruct (negb _); [by apply queue_ok|].
  eapply wp_entering; [auto with login|done|]. intros [auth|] s2 _ Hs2; [|by apply queue_ok].
  eapply wp_entering; [auto with login|done|]. intros [r|] s3 _ Hs3.
  - apply wp_bind. apply (entering_vouched _ _ r _ (fs_Provider resume)) in Hs3. split; [apply Hs3|by apply queue_ok].
  - eapply wp_entering; [auto with login|done|]. intros _ s4 _ Hs4. by apply queue_ok.
Qed.

Lemma protocol_ok q w r s : during s -> early s0 s -> wp (ResumeFederatedLogin p d q w r) (fun _ _ => True) s.
Proof.
  intros Hd He. unfold ResumeFederatedLogin. destruct (federatedProviderFromState _) as [pv|]; [|by apply wp_ret].
  apply wp_bind, authorization_ok; [done|done|]. intros resume client s1 Hs1. cbn [fst snd]. apply wp_bind.
  apply (entering_vouched _ _ r _ (fs_Provider resume)) in Hs1. split; [apply Hs1|].
  assert (wp (queueFederatedContinuation p d q resume client (Some r) "") (fun _ _ => True) (add_event (Vouched (fs_Provider resume) (cl_ID client) (re_UserID r)) s1)) as Hq by by apply queue_ok.
  apply wp_bind. unfold wp, flow_ret in *. destruct (queueFederatedContinuation _ _ _ _ _ _ _ _) as [[a|a] s2]; cbn in *; tauto.
Qed.
End request.

(** ** Histories *)

Lemma during_refl s : vouched s -> during s s.
Proof. intros Hv. constructor; [done|done|done|]. intros id ac Hs. by left. Qed.

Lemma serve_during rq s : vouched s -> during s (serve c p d rq s).2.
Proof.
  intros Hv%during_refl. destruct rq as [q|q params|q k|q w r]; cbn; unfold answer.
  - destruct (login_ok s q s Hv) as [H _]; [reflexivity|]. by destruct (handleLogin _ _ _ _ _) as [[a|a] s'].
  - destruct (mfa_ok s q params s (fun _ _ => True) Hv) as [H _]; [reflexivity|done|]. by destruct (handleMFAComplete _ _ _ _ _ _) as [[a|a] s'].
  - destruct (callback_ok s q k s (fun _ _ => True) Hv) as [H _]; [reflexivity|done|]. by destruct (handleCallback _ _ _ _ _) as [[a|a] s'].
  - destruct (protocol_ok s q w r s Hv) as [H _]; [reflexivity|]. by destruct (ResumeFederatedLogin _ _ _ _ _ _) as [[a|a] s'].
Qed.

(** What the rest of the server may do between the requests: redeem and drop codes, drop
    frozen logins, register clients under their identifiers, and anything at all to
    users, sessions, consents, counters and issuers. *)
Record outside (s s' : LS) : Prop := {
  os_clients : forall id client, ls_clients s' !! id = Some client -> cl_ID client = id;
  os_codes : forall m, ls_codes s' = Some m -> placed (acs_entries m) /\ forall id ac, denote (acs_entries m) !! id = Some ac -> stored_code s id ac;
  os_mfa : forall m id ch, ls_mfa s' = Some m -> mm_entries m !! id = Some ch -> exists m0, ls_mfa s = Some m0 /\ mm_entries m0 !! id = Some ch;
  os_txn : forall m id ch, ls_transactions s' = Some m -> m !! id = Some ch -> exists m0, ls_transactions s = Some m0 /\ m0 !! id = Some ch;
  os_log : ls_log s `prefix_of` ls_log s';
}.

Inductive login_step : LS -> LS -> Prop :=
| step_serve rq s : login_step s (serve c p d rq s).2
| step_outside s s' : outside s s' -> login_step s s'.

(** No code and no frozen login. *)
Record initial s : Prop := {
  in_clients : forall id client, ls_clients s !! id = Some client -> cl_ID client = id;
  in_codes : forall m, ls_codes s = Some m -> placed (acs_entries m) /\ denote (acs_entries m) = ∅;
  in_mfa : forall m, ls_mfa s = Some m -> mm_entries m = ∅;
  in_txn : forall m, ls_transactions s = Some m -> m = ∅;
}.
Definition reachable s : Prop := exists s0, initial s0 /\ rtc login_step s0 s.

Definition all_vouched s : Prop := vouched s /\ forall id ac, stored_code s id ac -> authed (ls_log s) (ac_ClientID ac) (ac_UserID ac).

Lemma all_vouched_step s s' : login_step s s' -> all_vouched s -> all_vouched s'.
Proof.
  intros [rq s1|s1 s2 [Hc Hk Hm Ht Hl]] [Hv Ha].
  - destruct (serve_during rq s1 Hv) as [Hv' _ Hl Hk]. split; [done|]. intros id ac [Hs|[_ Hs]]%Hk; [|done].
    by eapply authed_grows, (Ha id).
  - split; [constructor; [done| | |]|].
    + intros m Hcm. by apply Hk.
    + intros m id ch H1 H2. destruct (Hm m id ch H1 H2) as (m0 & H3 & H4). by eapply frozen_grows, (vo_mfa _ Hv).
    + intros m id ch H1 H2. destruct (Ht m id ch H1 H2) as (m0 & H3 & H4). by eapply frozen_grows, (vo_txn _ Hv).
    + intros id ac (m & Hcm & Hl'). eapply authed_grows, (Ha id); [done|]. by apply (Hk m).
Qed.

Lemma reachable_vouched s : reachable s -> all_vouched s.
Proof.
  intros (s0 & [Hc Hk Hm Ht] & Hr). assert (all_vouched s0) as H0.
  { split; [constructor; [done| | |]|].
    - intros m Hcm. by apply Hk.
    - intros m id ch Hmm Hl. rewrite (Hm m Hmm) in Hl. by apply lookup_empty_Some in Hl.
    - intros m id ch Htm Hl. rewrite (Ht m Htm) in Hl. by apply lookup_empty_Some in Hl.
    - intros id ac (m & Hcm & Hl). rewrite (proj2 (Hk m Hcm)) in Hl. by apply lookup_empty_Some in Hl. }
  clear -Hr H0. induction Hr as [|x y z Hxy _ IH]; [done|]. by eapply IH, all_vouched_step.
Qed.

(** C25 — At every moment of every history, the user of a stored code had a credential or a
    session accepted for the client of that code: however many requests a login took,
    through a second factor, a consent page or another provider, it is still the login
    of one user at one client. *)
Theorem stored_codes_vouched s id ac : reachable s -> stored_code s id ac -> authed (ls_log s) (ac_ClientID ac) (ac_UserID ac).
Proof. intros Hr Hs. by eapply (reachable_vouched s). Qed.


(** ** A challenge is good for one attempt *)

Section attempts.
Context (id : string).

Definition gone s : Prop := forall m, ls_mfa s = Some m -> mm_entries m !! id = None.
Definition stays_gone s s' : Prop := gone s -> gone s'.
#[local] Instance stays_gone_preorder : PreOrder stays_gone.
Proof. split; [by intros s ?|]. intros s1 s2 s3 H1 H2 H. by apply H2, H1. Qed.

Lemma gone_tame {A} (m : Flow A) : along tame m -> along stays_gone m.
Proof. intros Hm s. unfold stays_gone, gone. by rewrite (ta_mfa _ _ (Hm s)). Qed.
Lemma gone_txn {A} (a : A) m : along stays_gone (on_store ls_transactions set_transactions a m).
Proof. intros s. unfold on_store. destruct (ls_transactions s) as [t|]; [|reflexivity]. destruct (m t). exact (fun H => H). Qed.
Lemma gone_consume now id' : along stays_gone (on_store ls_mfa set_mfa None (mfa_Consume now id')).
Proof.
  intros s Hs. unfold on_store, mfa_Consume. destruct (ls_mfa s) as [t|] eqn:Ht; [|done]. specialize (Hs _ Ht). destruct (decide _); [by intros ? [= <-]|].
  destruct (take_ok now id' (mm_entries t)) as [Hsub _]. destruct (take_challenge _ _ _) as [ch es]. intros ? [= <-]. by eapply lookup_weaken_None.
Qed.
Hint Resolve gone_tame gone_txn gone_consume tame_front tame_preferences tame_member tame_createSession tame_codeSession tame_binding tame_render tame_directSession tame_mint tame_refresh tame_secret tame_idToken tame_deny : login.

Section fresh.
Context (q : Incoming) (Hq : hq_mfaID q <> Some id).

Lemma gone_put r req client : along stays_gone (persistMFAChallenge d q r req client : Flow string).
Proof.
  unfold persistMFAChallenge. destruct (hq_mfaID q) as [id'|]; [|repeat along]. apply along_bind; [apply _| |intros []; repeat along].
  intros s Hs. unfold on_store. destruct (ls_mfa s) as [t|] eqn:Ht; [|done]. specialize (Hs _ Ht). unfold mfa_Put.
  destruct (decide _); [by intros ? [= <-]|]. intros ? [= <-]. cbn. apply lookup_insert_None. split; [|congruence].
  destruct (_ <=? _); [|done]. apply map_lookup_filter_None. by left.
Qed.
Hint Resolve gone_put : login.
Lemma gone_challenge {A} r req client provider : along stays_gone (issueMFAChallenge d q r req client provider : Flow A).
Proof. unfold issueMFAChallenge. repeat along. Qed.
Hint Resolve gone_challenge : login.
Lemma gone_risk skip r req client : along stays_gone (evaluateLoginRisk d q skip r req client : Flow ()).
Proof. unfold evaluateLoginRisk, mfa_wired. repeat along. Qed.
Lemma gone_access skip r req client : along stays_gone (conditional_access d q skip r req client : Flow Request).
Proof. unfold conditional_access, mfa_wired. repeat along. Qed.
Hint Resolve gone_risk gone_access : login.
Lemma gone_residual skip r req client : along stays_gone (residual_gates d q skip req r client : Flow Request).
Proof. unfold residual_gates. repeat along. Qed.
Hint Resolve gone_residual : login.
Lemma gone_transaction st client : along stays_gone (issueLoginTransaction d q st client : Flow _).
Proof. unfold issueLoginTransaction. repeat along. Qed.
Hint Resolve gone_transaction : login.
Lemma gone_consent td req req' client r : along stays_gone (consent_gate p d (login_continuation d q td req' client r) q r req client : Flow ()).
Proof.
  intros s. unfold consent_gate. destruct (ls_consents s); [|reflexivity]. destruct (handleConsentGate _ _ _ _ _ _ _ _ _ _ _) as [[ask|] [g' ch]]; [|exact (fun H => H)].
  transitivity (set_consents (Some g') ch s); [exact (fun H => H)|]. assert (along stays_gone (login_continuation d q td req' client r ask : Flow ())) as H; [|apply H].
  unfold login_continuation. repeat along.
Qed.
Lemma gone_issue r req client jkt sid : along stays_gone (issueAuthCode d q r req client jkt sid : Flow string).
Proof.
  unfold issueAuthCode. apply along_bind; [apply _| |intros []; repeat along]. intros s. unfold on_store. destruct (ls_codes s) as [t|]; [|reflexivity].
  destruct (IssueAuthCode _ _ _ _ _). exact (fun H => H).
Qed.
Hint Resolve gone_consent gone_issue : login.
Lemma gone_upsert r : along stays_gone (upsertLoginUser r : Flow Result).
Proof. apply gone_tame, upsert_ok. Qed.
Hint Resolve gone_upsert : login.
Lemma gone_finish skip td r req client : along stays_gone (finish c p d q skip td r req client : Flow Resp).
Proof.
  unfold finish, finishLogin. repeat along.
  - unfold finishLoginCodeFlow. repeat along.
  - unfold finishLoginDirectMint, mfa_wired. cbv zeta. repeat along.
Qed.
Hint Resolve gone_finish : login.
Lemma gone_trust td r req client u : along stays_gone (finishLoginWithDeviceTrust c p d q r req client u td : Flow Resp).
Proof. unfold finishLoginWithDeviceTrust. repeat along. Qed.
Lemma gone_current id' : along stays_gone (current_client q id' : Flow _).
Proof. unfold current_client, find_client. repeat along. Qed.
Hint Resolve gone_trust gone_current : login.
Lemma gone_resume ch m : along stays_gone (resumeLoginAfterMFA c p d q ch m : Flow Resp).
Proof. unfold resumeLoginAfterMFA, resumeLoginResidualGates. repeat along. Qed.
Hint Resolve gone_resume : login.
Lemma gone_mfa params : along stays_gone (handleMFAComplete c p d q params : Flow Resp).
Proof. unfold handleMFAComplete, verifyMFAFactor, mfa_invalid, mfa_wired. repeat along. Qed.
Lemma gone_transactions req : along stays_gone (resumeLoginTransaction c p d q req : Flow Resp).
Proof.
  unfold resumeLoginTransaction, consumeLoginTransaction, loginTransactionClient, resumeFederatedLoginTransaction, resumeLoginResidualGates, runPostCredentialGates.
  repeat along.
Qed.
Lemma gone_credential req client saved : along stays_gone (credentialLoginStage p d q req client saved : Flow _).
Proof.
  unfold credentialLoginStage, authenticateCredentialOrSession, authenticateUser, beginFederatedLogin, authenticateBrowserUser, runPostCredentialGates. cbv zeta. repeat along.
Qed.
Hint Resolve gone_transactions gone_credential quiet_none : login.
Lemma gone_map f (m : Flow Resp) : along stays_gone m -> along stays_gone (map_answer f m).
Proof. intros Hm s. unfold map_answer. specialize (Hm s). by destruct (m s) as [[a|a] s1]. Qed.
Lemma gone_login : along stays_gone (handleLogin c p d q : Flow Resp).
Proof.
  unfold handleLogin, rejectNonJSONLogin, rejectDisallowedLoginOrigin, bootstrapLoginRequest, interactive_login, preAuthLoginGates. repeat along.
  apply gone_map. repeat along.
Qed.
Lemma gone_queue resume client result code : along stays_gone (queueFederatedContinuation p d q resume client result code : Flow Resp).
Proof. unfold queueFederatedContinuation. repeat along. Qed.
Lemma gone_authorization w : along stays_gone (consumeFederatedAuthorization p d q w : Flow _).
Proof. unfold consumeFederatedAuthorization, find_client. repeat along. Qed.
Hint Resolve gone_queue gone_authorization : login.
Lemma gone_callback k : along stays_gone (handleCallback p d q k : Flow Resp).
Proof. unfold handleCallback, handleFederatedOAuthCallback. repeat along. Qed.
Lemma gone_protocol w r : along stays_gone (ResumeFederatedLogin p d q w r : Flow _).
Proof. unfold ResumeFederatedLogin. repeat along. Qed.
End fresh.

(** What happens elsewhere, as long as the random source does not repeat itself. *)
Definition incoming (rq : login_request) : Incoming :=
  match rq with LoginPost q | MFAPost q _ | CallbackGet q _ | ProtocolReturn q _ _ => q end.
Inductive other_step : LS -> LS -> Prop :=
| other_serve rq s : hq_mfaID (incoming rq) <> Some id -> other_step s (serve c p d rq s).2
| other_outside s s' : outside s s' -> other_step s s'.

Lemma gone_step s s' : other_step s s' -> gone s -> gone s'.
Proof.
  intros [rq s1 Hq|s1 s2 Ho] Hg.
  - destruct rq as [q|q params|q k|q w r]; cbn in *; unfold answer.
    + pose proof (gone_login q Hq s1 Hg) as H. by destruct (handleLogin _ _ _ _ _) as [[a|a] s3].
    + pose proof (gone_mfa q Hq params s1 Hg) as H. by destruct (handleMFAComplete _ _ _ _ _ _) as [[a|a] s3].
    + pose proof (gone_callback q k s1 Hg) as H. by destruct (handleCallback _ _ _ _ _) as [[a|a] s3].
    + pose proof (gone_protocol q w r s1 Hg) as H. by destruct (ResumeFederatedLogin _ _ _ _ _ _) as [[a|a] s3].
  - intros m Hm. destruct (mm_entries m !! id) as [ch|] eqn:Hl; [|done]. destruct (os_mfa _ _ Ho m id ch Hm Hl) as (m0 & H1 & H2). by rewrite (Hg m0 H1) in H2.
Qed.

Lemma gone_attempt q m s : hq_mfaID q <> Some id -> mq_ChallengeID m = id -> id <> "" -> mq_Method m <> "" -> is_Some (ld_mfa d) ->
  gone (answer (handleMFAComplete c p d q (Some m)) s).2.
Proof.
  intros Hq Hid Hne Hm [provider Hp]. unfold handleMFAComplete, mfa_wired, flow_bind at 1, get at 1, answer. rewrite Hp.
  destruct (ls_mfa s) as [t|] eqn:Ht; [|by intros m' H'; cbn in H'; rewrite Ht in H']. rewrite Hid, !bool_decide_eq_false_2 by done. cbn [orb].
  assert (forall A A' (o : Flow A) (k : A -> Flow A'), (forall a, along stays_gone (k a)) -> gone (o s).2 -> gone (flow_bind o k s).2) as Hseq.
  { intros A A' o k Hk Ho. unfold flow_bind. destruct (o s) as [[a|a] s1]; [by apply Hk|done]. }
  match goal with |- gone (match ?m with _ => _ end).2 => assert (gone m.2) as Hg; [|by destruct m as [[a|a] s1]] end.
  apply Hseq; [intros ch; by apply gone_resume|]. unfold verifyMFAFactor. apply Hseq; [intros [ch|]; unfold mfa_invalid; cbv zeta; repeat along|].
  unfold on_store, mfa_Consume. rewrite Ht, Hid, decide_False by done. unfold take_challenge. destruct (mm_entries t !! id) as [ch|] eqn:Hl; intros ? [= <-]; cbn; [apply lookup_delete_eq|done].
Qed.
End attempts.

(** C14 — A second factor can be tried once for each challenge, whatever happens in between:
    the next attempt at the same challenge is refused with the one answer that every
    failure has. *)
Theorem mfa_single_attempt q m s s' q' m' :
  is_Some (ld_mfa d) -> mq_Method m <> "" -> hq_mfaID q <> Some (mq_ChallengeID m) -> mq_ChallengeID m' = mq_ChallengeID m ->
  rtc (other_step (mq_ChallengeID m)) (answer (handleMFAComplete c p d q (Some m)) s).2 s' ->
  exists status, (answer (handleMFAComplete c p d q' (Some m')) s').1 = LError status ErrMFAInvalid.
Proof.
  intros Hp Hm Hq Hid Hr. assert (mq_ChallengeID m <> "" -> gone (mq_ChallengeID m) s') as Hg.
  { intros Hne. assert (gone (mq_ChallengeID m) (answer (handleMFAComplete c p d q (Some m)) s).2) as Hg0 by by apply gone_attempt.
    clear -Hr Hg0. induction Hr as [|x y z Hxy _ IH]; [done|]. by eapply IH, gone_step. }
  unfold handleMFAComplete, mfa_wired, flow_bind at 1, get at 1, answer. destruct (ls_mfa s') as [t|] eqn:Ht; [|by eexists]. destruct (ld_mfa d) as [provider|]; [|by eexists].
  destruct (decide (mq_ChallengeID m' = "")) as [He|He]; [rewrite (bool_decide_eq_true_2 _ He); by eexists|]. rewrite (bool_decide_eq_false_2 _ He). cbn [orb].
  destruct (bool_decide _); [by eexists|]. exists 400. unfold flow_bind at 1, verifyMFAFactor, flow_bind at 1, on_store, mfa_Consume.
  rewrite Ht, decide_False by done. unfold take_challenge. rewrite Hid in *. by rewrite (Hg He t Ht).
Qed.

(** What a challenge that is completed had. *)
Definition completes (provider : MFAProvider X) q (m : mfaCompleteRequest) s ch : Prop :=
  hq_now q <= mc_ExpiresAt ch /\
  (forall locks, ls_lockout s = Some locks -> mc_SubjectID ch <> "" -> (IsLocked (hq_now q) (mfaLockoutKey (mc_SubjectID ch)) locks).1.1 = false) /\
  (mf_Verify provider (mc_SubjectID ch) (mq_Method m) (collectMFAParams (mq_Params m) (mq_Code m) (mq_Assertion m)) (fr_issuers (ls_front s))).1 = true.

Lemma invalid_frame {A} u reason s : mfa_invalid u reason s = (Err (LError 400 ErrMFAInvalid) : result Resp A, add_event (MFAFailed u reason) s).
Proof. done. Qed.

Lemma verify_cases provider q m s t : ls_mfa s = Some t -> mq_ChallengeID m <> "" ->
  (exists ch, mm_entries t !! mq_ChallengeID m = Some ch /\ completes provider q m s ch) \/
  (exists s', verifyMFAFactor q provider m s = (Err (LError 400 ErrMFAInvalid), s') /\ ls_codes s' = ls_codes s).
Proof.
  intros Ht Hid. unfold verifyMFAFactor, flow_bind at 1, on_store, mfa_Consume. rewrite Ht, decide_False by done. unfold take_challenge.
  destruct (mm_entries t !! mq_ChallengeID m) as [ch|] eqn:Hl; [|right; by eexists]. rewrite GoTime.Since_pos_spec.
  destruct (Z.ltb_spec (mc_ExpiresAt ch) (hq_now q)) as [|Hexp]; [right; by eexists|]. cbv zeta. set (s1 := set_mfa _ s).
  assert (lockout_locked q (mfaLockoutKey (mc_SubjectID ch)) s1 = (Ok true, (lockout_locked q (mfaLockoutKey (mc_SubjectID ch)) s1).2) \/
    exists s2, lockout_locked q (mfaLockoutKey (mc_SubjectID ch)) s1 = (Ok false, s2) /\ ls_front s2 = ls_front s /\ ls_codes s2 = ls_codes s /\
      (forall locks, ls_lockout s = Some locks -> mc_SubjectID ch <> "" -> (IsLocked (hq_now q) (mfaLockoutKey (mc_SubjectID ch)) locks).1.1 = false)) as [Hlk|(s2 & Hlk & Hf & Hc & Hno)].
  { unfold lockout_locked, mfaLockoutKey. destruct (decide (mc_SubjectID ch = "")) as [He|He]; [right; by eexists|]. rewrite decide_False by done.
    unfold on_store. change (ls_lockout s1) with (ls_lockout s). destruct (ls_lockout s) as [locks|] eqn:Hlo; [|right; by eexists].
    destruct (IsLocked _ _ locks) as [[[] n] m'] eqn:E; [by left|right]. eexists. split_and!; [done..|]. intros ? [= <-] _. by rewrite E. }
  - right. eexists. unfold flow_bind at 1. rewrite Hlk. split; [done|]. cbn. unfold lockout_locked. destruct (decide _); [done|]. unfold on_store.
    destruct (ls_lockout s1) as [lk|]; [|done]. by destruct (IsLocked _ _ lk) as [[? ?] ?].
  - unfold flow_bind at 1. rewrite Hlk. unfold flow_bind at 1, on_x, on_front. rewrite Hf.
    destruct (mf_Verify _ _ _ _ _) as [[] x] eqn:Hv; [left; exists ch; unfold completes; by rewrite Hv|right].
    unfold flow_bind at 1, lockout_failure. destruct (decide _); [eexists; split; [done|exact Hc]|]. unfold on_store.
    destruct (ls_lockout (set_front (set_issuers x (ls_front s)) s2)) as [lk|]; [|eexists; split; [done|exact Hc]]. destruct (RegisterFailure _ _ lk) as [[? ?] ?]. eexists. split; [done|exact Hc].
Qed.

(** C39 — Whatever is wrong with a second factor (the parameters, the challenge, a lockout, the
    factor itself) has one answer, and nothing is issued. *)
Theorem mfa_failures_alike provider q params s t : ld_mfa d = Some provider -> ls_mfa s = Some t ->
  (exists m ch, params = Some m /\ mm_entries t !! mq_ChallengeID m = Some ch /\ completes provider q m s ch) \/
  (answer (handleMFAComplete c p d q params) s).1 = LError 400 ErrMFAInvalid /\ ls_codes (answer (handleMFAComplete c p d q params) s).2 = ls_codes s.
Proof.
  intros Hp Ht. unfold handleMFAComplete, flow_bind at 1 3, mfa_wired, get, answer. rewrite Ht, Hp. destruct params as [m|]; [|by right].
  destruct (_ || _) eqn:Hb; [by right|]. bool_simpl. destruct (verify_cases provider q m s t) as [(ch & Hl & Hc)|(s' & Hv & Hc)]; [done|done|left; by exists m, ch|].
  right. unfold flow_bind. by rewrite Hv.
Qed.
End sound.

(** ** A login with a second factor, and witnesses *)

Definition demo_client : LoginClient :=
  let cl := plain_client "app" [] [] in
  {| lc_client := {|
       cl_ID := cl_ID cl; cl_Secret := cl_Secret cl; cl_Name := cl_Name cl; cl_RedirectURIs := ["https://app/cb"];
       cl_RedirectURIPatterns := []; cl_AllowedScopes := ["openid"]; cl_AllowedAuthenticators := []; cl_AllowedProviderIDs := [];
       cl_LoginPageURI := ""; cl_TokenStrategy := ""; cl_Active := true; cl_Federation := false; cl_TenantID := ""; cl_RequirePKCE := false;
       cl_AllowedResources := []; cl_RegistrationAccessToken := ""; cl_PreviousRegistrationAccessToken := "";
       cl_RegistrationAccessTokenOverlapUntil := 0; cl_PostLogoutRedirectURIs := []; cl_AllowedAuthorizationDetailsTypes := [];
       cl_RefreshTokenTTL := 0; cl_AccessTokenTTL := 0; cl_GrantTypes := []; cl_PreviousSecret := ""; cl_SecretOverlapUntil := 0;
       cl_SecretRotatedAt := 0; cl_SecretExpiresAt := 0; cl_JWKS := []; cl_TokenEndpointAuthMethod := ""; cl_TLSClientAuthSubjectDN := "";
       cl_TLSClientAuthSANDNS := ""; cl_TLSClientAuthSANEmail := ""; cl_TLSClientAuthSANURI := ""; cl_Attributes := ∅ |};
     lc_RequirePAR := false; lc_RequireSignedRequestObject := false; lc_AllowPasswordlessOnly := false; lc_AllowedPKCEMethods := [];
     lc_AllowedRequestURIs := []; lc_SkipConsent := false; lc_ConsentRefreshInterval := 0 |}.

Definition demo_parsers : Parsers string := {|
  pa_url_Parse := fun _ => None; pa_PathUnescape := Some; pa_Unmarshal := fun _ => None; pa_Tokens := fun _ => []; pa_Details := fun _ => None;
  pa_Typ := fun _ => None; pa_JAR := fun _ => None; pa_Raw := Some |}.

(** The password of a user is the user's name; the second factor is "123456". *)
Definition demo_password : Authenticator () := {|
  au_Name := "password";
  au_Authenticate := fun rq x =>
    let cred := default ∅ (aq_Credential rq) in
    (match cred !! "username" with
     | Some u => if decide (cred !! "password" = Some u)
                 then Ok {| re_UserID := u; re_ExternalID := ""; re_Provider := "password"; re_Attributes := None; re_AuthMethods := ["pwd"]; re_AuthTime := 0;
                            re_SessionID := ""; re_CreateSession := false; re_AchievedACR := ""; re_Roles := [] |}
                 else Err AuthFailed
     | None => Err AuthFailed
     end, x);
  au_Callback := fun _ x => (None, x); au_LoginURL := fun _ => ""; au_LockoutIdentity := None |}.
Definition demo_mfa : MFAProvider () := {|
  mf_SupportedMethods := ["totp"]; mf_Begin := None; mf_Verify := fun _ _ params x => (bool_decide (params !! "code" = Some "123456"), x) |}.

Definition demo_deps : LoginDeps () := {|
  ld_issuer := "https://op"; ld_corsPolicy := None; ld_oauth21Strict := false; ld_maxScopeCount := 0; ld_rarLimits := {| rl_MaxBytes := 0; rl_MaxElements := 0; rl_MaxDepth := 0 |};
  ld_fapi := None; ld_access := toy_access; ld_grants := sample_deps; ld_authenticators := {[ "password" := demo_password ]}; ld_connection := fun _ x => (None, x);
  ld_jarFetcher := None; ld_jweDecrypter := None; ld_replayFailClosed := false; ld_riskScorer := Some (fun _ _ x => (Ok (Some RiskRequireMFA), x));
  ld_cap := fun _ => None;
  ld_signals := fun _ _ => {| sg_DevicePosture := PostureUnknown; sg_Country := ""; sg_Groups := []; sg_DeviceType := ""; sg_DeviceTrustLevel := of_int 0;
                              sg_IsNewDevice := false; sg_IsNewLocation := false; sg_Score := None |};
  ld_mfa := Some demo_mfa; ld_trustedDevices := None; ld_preHook := None; ld_postHook := None; ld_failedHook := fun _ _ x => x; ld_browserVerifier := None;
  ld_passwordMaxAgeDays := 0; ld_passwordChangedAt := None; ld_signupRequireVerification := false; ld_tokenPolicies := fun _ => None; ld_memberRole := None;
  ld_addMember := None; ld_chargeSession := None; ld_releaseSession := fun _ x => x; ld_activateSession := fun _ _ _ x => x; ld_registerDevice := None;
  ld_requireMFAForNewDevice := false; ld_maxSessionsPerDevice := 0; ld_maxSessionsPerUser := 0; ld_initialTrust := None; ld_trustClaim := fun _ _ x => (None, x);
  ld_jarm := false; ld_jarmSigner := fun _ => false; ld_mfaChallengeTTL := 0; ld_loginTransactionTTL := 0; ld_consentMaxTTL := 0; ld_authCodeTTL := 0 |}.

Definition demo_state : LS () () := {|
  ls_front := toy_front; ls_clients := {[ "app" := demo_client ]}; ls_codes := Some (NewMemoryAuthCodeStore 0); ls_par := None; ls_lockout := Some NewMemoryAccountLockout;
  ls_users := Some NewMemoryUserProvider; ls_consents := None; ls_challenges := ∅; ls_mfa := Some NewMemoryMFAChallengeStore; ls_transactions := None;
  ls_secrets := None; ls_log := [] |}.

Definition demo_params : Request := {|
  lr_ResumeSession := false; lr_Provider := "password"; lr_Credential := Some {[ "username" := "alice"; "password" := "alice" ]}; lr_ClientID := "app"; lr_Scope := ["openid"];
  lr_State := "xyz"; lr_ResponseType := "code"; lr_RedirectURI := "https://app/cb"; lr_Nonce := ""; lr_CodeChallenge := "E9Melhoa2OwvFrEMTJguCHaoeK1t8URWbuGJSstw-cM";
  lr_CodeChallengeMethod := "S256"; lr_Resource := []; lr_RequestURI := ""; lr_AuthorizationDetails := ""; lr_Request := ""; lr_Prompt := ""; lr_IDTokenHint := "";
  lr_MaxAge := None; lr_LoginHint := ""; lr_ResponseMode := ""; lr_ACRValues := ""; lr_UILocales := ""; lr_PresentationLocale := ""; lr_PresentationThemeMode := "";
  lr_Claims := ""; lr_ConsentChallengeID := ""; lr_ConsentDecision := ""; lr_LoginTransactionID := ""; lr_DeviceToken := ""; lr_PolicyScopeRestriction := None |}.
Definition demo_incoming (now : Z) : Incoming := {|
  hq_now := Unix now; hq_http := {| rq_Method := "POST"; rq_Host := "op"; rq_Path := "/auth/login"; rq_TLS := None; rq_Header := ∅; rq_ForwardedTrusted := false |};
  hq_params := Some demo_params; hq_tenant := None; hq_region := ""; hq_cookie := None; hq_expired := fun _ => false; hq_ip := ""; hq_ua := "";
  hq_stateID := Some "st-1"; hq_mfaID := Some "mfa-1"; hq_txnID := Some "txn-1"; hq_challengeID := "con-1"; hq_code := Some "code-1"; hq_sessionID := "s2";
  hq_draws := {| dr_token := None; dr_family := None; dr_jti := None |}; hq_secret := None |}.
Definition second_incoming (now : Z) : Incoming := {|
  hq_now := Unix now; hq_http := hq_http (demo_incoming now); hq_params := None; hq_tenant := None; hq_region := ""; hq_cookie := None; hq_expired := fun _ => false;
  hq_ip := ""; hq_ua := ""; hq_stateID := None; hq_mfaID := Some "mfa-2"; hq_txnID := None; hq_challengeID := "con-2"; hq_code := Some "code-1"; hq_sessionID := "s3";
  hq_draws := {| dr_token := None; dr_family := None; dr_jti := None |}; hq_secret := None |}.
Definition totp (code : string) : mfaCompleteRequest := {|
  mq_ChallengeID := "mfa-1"; mq_Method := "totp"; mq_Params := None; mq_Code := code; mq_Assertion := ""; mq_TrustDevice := false |}.

Notation demo_serve := (serve toy_primitives demo_parsers demo_deps).
Definition challenged : LS () () := (demo_serve (LoginPost (demo_incoming 1010)) demo_state).2.
Notation factor code now := (answer (handleMFAComplete toy_primitives demo_parsers demo_deps (second_incoming now) (Some (totp code)))).

Example second_factor_asked : (demo_serve (LoginPost (demo_incoming 1010)) demo_state).1 = Some (LMFARequired "mfa-1" ["totp"] ∅).
Proof. vm_compute. reflexivity. Qed.
Example second_factor_given : (factor "123456" 1020 challenged).1 = LCode InBody "code-1" "" "xyz" None.
Proof. vm_compute. reflexivity. Qed.

Lemma demo_reachable : reachable toy_primitives demo_parsers demo_deps demo_state.
Proof.
  exists demo_state. split; [|done]. constructor; cbn.
  - intros id client [<- <-]%lookup_singleton_Some. reflexivity.
  - intros m [= <-]. split; [apply placed_new|]. apply map_eq. intros i. rewrite lookup_empty. vm_compute. by destruct i.
  - by intros m [= <-].
  - done.
Qed.
Lemma challenged_reachable : reachable toy_primitives demo_parsers demo_deps challenged.
Proof. destruct demo_reachable as (s0 & H0 & Hr). exists s0. split; [done|]. eapply rtc_r; [exact Hr|]. apply step_serve. Qed.

Notation completed := (demo_serve (MFAPost (second_incoming 1020) (Some (totp "123456"))) challenged).2.
Lemma completed_code : exists ac, stored_code completed "code-1" ac /\ ac_ClientID ac = "app" /\ ac_UserID ac = "alice" /\ ac_AuthMethods ac = ["pwd"; "otp"; "mfa"].
Proof.
  destruct (ls_codes completed) as [m|] eqn:Hm; [|exfalso; vm_compute in Hm; discriminate].
  destruct (denote (acs_entries m) !! "code-1") as [ac|] eqn:Hl.
  - exists ac. split; [by exists m|]. vm_compute in Hm. injection Hm as <-. vm_compute in Hl. injection Hl as <-. vm_compute. done.
  - exfalso. vm_compute in Hm. injection Hm as <-. vm_compute in Hl. discriminate.
Qed.

Lemma stored_codes_vouched_witness : exists ac, stored_code completed "code-1" ac /\ authed (ls_log completed) "app" "alice".
Proof.
  destruct completed_code as (ac & Hs & Hc & Hu & _). exists ac. split; [exact Hs|]. rewrite <- Hc, <- Hu.
  apply (stored_codes_vouched toy_primitives demo_parsers demo_deps completed "code-1" ac); [|exact Hs].
  destruct challenged_reachable as (s0 & H0 & Hr). exists s0. split; [exact H0|]. eapply rtc_r; [exact Hr|]. apply step_serve.
Defined.


Lemma mfa_single_attempt_witness : exists status, (factor "123456" 1030 (factor "000000" 1020 challenged).2).1 = LError status ErrMFAInvalid.
Proof.
  apply (mfa_single_attempt toy_primitives demo_parsers demo_deps (second_incoming 1020) (totp "000000") challenged _ (second_incoming 1030) (totp "123456"));
    [by eexists|discriminate|discriminate|reflexivity|apply rtc_refl].
Defined.

Lemma mfa_failures_alike_witness : (factor "000000" 1020 challenged).1 = LError 400 ErrMFAInvalid.
Proof.
  destruct (ls_mfa challenged) as [t|] eqn:Ht; [|exfalso; vm_compute in Ht; discriminate].
  destruct (mfa_failures_alike toy_primitives demo_parsers demo_deps demo_mfa (second_incoming 1020) (Some (totp "000000")) challenged t eq_refl Ht)
    as [(m & ch & [= <-] & _ & _ & _ & Hv)|[H _]]; [|exact H].
  exfalso. vm_compute in Hv. discriminate.
Defined.
